(* ===== verification/_CoqProject ===== *)
-Q . S2P
Prelude.v
Internal.v
PosixTime.v
Cbs.v
Der.v
CbsMem.v
CbsText.v
Cbb.v
CbbSpec.v
CbbText.v
CbbBounds.v
Ber.v
Unicode.v
Base64.v
Stack.v
Lhash.v
Store.v
BioPair.v
Bio.v
BnWords.v
Bn.v
BnAdd.v
BnShift.v
BnBytes.v
BnCtx.v
Modes.v
BnMulWords.v
BnKaratsuba.v
BnMul.v
BnDivWords.v
BnDiv.v
BnDivSpec.v
BnModSpec.v
BnModConst.v
BnPow2.v
Evp.v
EvpAes.v
Err.v
ErrSpec.v
ErrRefine.v
ErrText.v
Digest.v
Sha.v
ShaSpec.v
Md.v
MdSpec.v
Hmac.v
HmacSpec.v
HmacSha.v
Kdf.v
