(* ===== verification/Prelude.v ===== *)
(** * Verification of the support layers of AWS-LC

    AWS-LC is a cryptographic library in C.  Below its algorithms lie the layers that every
    parser, key format and protocol of the library goes through: bounds-checked readers and
    builders of byte strings and of DER, calendar arithmetic, text encodings, containers,
    in-memory byte channels, the error queue, the integers of the public-key code, the modes and
    buffering of block ciphers, and the hash functions with HMAC and key derivation.  This development
    models those layers, function by function, and proves what their callers rely on.
    All paths below are under src/.

    ** Conventions

    An unsigned integer of [w] bits is a [Z] in [0, 2^w), reduced by [wrap w] where C wraps;
    a signed one is a [Z] with the range checks of the code.  [size_t], [uint64_t] and
    [BN_ULONG] have 64 bits, and the machine is little-endian.  A function that can fail
    returns an option or a boolean with the state it leaves behind, as the caller can see
    it.  The outcome of every allocation is a parameter ([alloc_ok], [realloc_ok], or a
    boolean per call).  The theorems on containers, BIOs, BIGNUMs, error queues, the bounds of the
    builder and the termination of the BER walks hold whichever allocation fails; those that
    say what a growable builder writes (the refinement and round trips of CBB, the conversion of
    BER, UTF-8 and SET OF) and the compositions of the EVP interface are for the case that none
    does, as their statements say.  Where objects can be
    shared or aliased they live in a store (Store.v), and a program returns [None] for a
    failed assertion, a dangling pointer or an access out of bounds: a theorem that says what
    a program returns also says that none of these happens.

    ** Files

    - Prelude.v: machine integers, byte strings and big-endian numbers, hint databases
      [bytes_db] and [word_db], tactics and generic lemmas.
    - Internal.v (crypto/internal.h, crypto/mem.c): constant-time masks, selections and table
      lookups, memory comparison, byte swaps, addition and subtraction with carry.
    - PosixTime.v (crypto/asn1/posix_time.c): the calendar.
    - Cbs.v (crypto/bytestring/cbs.c): the reader [CBS], a byte string consumed from the front;
      the C functions are parsers that return the value and the rest.  Der.v gives the DER
      encoding as a specification and proves the element and integer readers exact;
      CbsText.v does so for decimal numbers, times and object identifiers.  CbsMem.v is the
      reader again with its pointers and lengths on a buffer, where an access outside it is an
      error, and proves that there is none and that Cbs.v is what it computes.
    - Cbb.v (crypto/bytestring/cbb.c): the builder [CBB], a buffer with the chain of its
      open length-prefixed children.  CbbSpec.v: the abstract builder, the refinement and the
      round trips with the reader; CbbText.v: object identifiers as text and SET OF sorting;
      CbbBounds.v: capacity and error flag.
    - Ber.v (crypto/bytestring/ber.c): the conversion of BER to DER, on the reader and the
      builder.
    - Unicode.v (crypto/bytestring/unicode.c) and Base64.v (crypto/base64/base64.c).
    - Stack.v (crypto/stack/stack.c) and Lhash.v (crypto/lhash/lhash.c): the containers.
    - Store.v: programs over a store of objects.
    - BioPair.v (crypto/bio/pair.c and the flags of crypto/bio/bio.c) and Bio.v
      (crypto/bio/bio.c): BIO pairs, two BIOs that are the ends of two ring buffers, and the
      BIO layer with its callbacks, counters, chains and reference counts.
    - BnWords.v (crypto/fipsmodule/bn/generic.c and word loops of the other files), Bn.v (bn.c,
      cmp.c), BnAdd.v (add.c), BnShift.v (shift.c), BnBytes.v (bytes.c): BIGNUMs as sign,
      width and word array in a store, with every aliasing of results and operands.
      BnMulWords.v (generic.c, mul.c): products by columns and schoolbook products and squares of
      word arrays; BnKaratsuba.v (mul.c): the recursive products and squares, in place with their
      scratch space; BnMul.v (mul.c): the multiplications of BIGNUMs; BnCtx.v (ctx.c): the pool
      of temporaries, in frames.  BnDivWords.v (div.c, div_extra.c): the loops of division on word
      arrays; BnDiv.v (div.c): division and modular arithmetic of BIGNUMs; their theorems are in
      BnDivSpec.v ([BN_div], [BN_nnmod]), BnModSpec.v (modular functions, constant-time division),
      BnModConst.v (constant-time modular functions) and BnPow2.v (words and powers of two).
    - Modes.v (crypto/fipsmodule/modes): CBC, CTR, OFB and CFB over a block function.  Evp.v
      (crypto/fipsmodule/cipher/cipher.c): the context of a cipher, its buffering, padding and
      error flag, over the methods of any cipher.  EvpAes.v (e_aes.c): the AES ciphers, over the
      implementations of AES that the platform offers, and the composition of all three.
    - Err.v (crypto/err/err.c): the error queue of a thread with its strings on a heap; ErrSpec.v:
      the queue as a list, and the simulation of each function; ErrRefine.v: sequences of calls;
      ErrText.v: names and descriptions of errors.
    - Digest.v (digest/md32_common.h and the collector of sha/sha512.c): messages in pieces, over a
      block function with the class [BlockFunc].  Sha.v (sha256.c, sha512.c) and Md.v (sha1.c,
      md5.c, md4.c): the hash functions; ShaSpec.v and MdSpec.v: the standards, and that the
      code computes them.
    - Hmac.v (hmac/hmac.c): contexts of HMAC as a state machine over any table of hash functions;
      HmacSpec.v: what HMAC relies on (classes [HashOk], [ExportOk]), the machine of RFC 2104 and
      the simulation; HmacSha.v: the table of the code.  Kdf.v (hkdf.c, pbkdf.c): HKDF and
      PBKDF2, proved against the interface of HmacSpec.v.

    Each file of the library has a module of its name; a definition has the name of the C
    function, type or constant it translates, and loops are named after their function.

    ** What the theorems show

    - Readers: the DER element reader accepts exactly the minimal definite-length encodings
      and returns exactly their parts; INTEGER, OBJECT IDENTIFIER and time contents are
      accepted exactly when well-formed, with the right value; BER is reported exactly for
      the elements that are not DER; whatever a client calls, on the CBS and on the strings it is
      handed, no byte outside the buffer is read.
    - Builders: for any sequence of calls a CBB refines nested lists of bytes with length
      prefixes; buffers are never overrun and errors are sticky; what CBB writes CBS reads.
    - BER: the walks always terminate, whatever the allocator does; exactly the well-formed
      BER within the bounds of the code (128 levels, four length octets) is converted, to the DER
      that an inductive grammar gives for it, and DER is passed through.
    - Time and text: dates and POSIX times are in bijection, the day arithmetic is the
      calendar's; UTF-8, base64 and dotted object identifiers round-trip, in any chunks.
    - Containers: stack and lhash refine lists and bags under failing allocations;
      searching, the sorted flag and the load factor.
    - BIO pairs refine two bounded queues, are first-in first-out, and are created and
      destroyed without leaks.
    - BIGNUMs: reading functions, addition, subtraction, shifts, bit operations and byte
      strings are exact on the integers, results are without negative zero, objects other
      than the result never change.  Multiplication and squaring are exact whichever of the
      three methods the widths select, the assertions of the recursion hold, and the width of the
      constant-time results depends on the widths of the operands only.  A BN_CTX refines a stack
      of frames and gives the temporaries that multiplication relies on.  Division is exact for every
      aliasing of the results, the corrections of a quotient digit are at most two, the modular
      functions return least residues, and the constant-time ones a width that depends on the
      widths of the operands only.
    - Ciphers: the modes are those of the standards on one memory and across calls; the EVP
      interface encrypts the padded message and decrypts what it encrypts for any chunking and
      any choice of AES implementation, and its failures stick.
    - Errors: the queue refines a bounded list with marks, suppression and saved states, without
      leaks or double frees; descriptions stay in their buffers.
    - Digests: however a message is cut, SHA-2, SHA-1, MD5 and MD4 return the hash of their
      standards; HMAC contexts refine the machine of RFC 2104, exported keys included; HKDF and
      PBKDF2 are those of RFC 5869 and RFC 8018.  The failures that leave an HMAC context
      unusable are stated too.

    ** Fuel

    Loops that are not structural on their data take fuel: the length of the input where
    every round consumes input (CBS, CBB, base64, BER), the two rounds of a ring buffer,
    the number of objects of the store for chains of BIOs, 32 rounds for a shift amount of 32
    bits, the two mutual calls of [BN_add_word] and [BN_sub_word], the 16 slots of the error queue
    and one more, the bytes of the key that PBKDF2 has still to write, and 32 levels of the recursive
    products, whose sizes are halved from at most 2^23 words, and three rounds for the corrections of a quotient digit.  The
    theorems state the
    result and so show that the fuel suffices.

    ** Not modelled

    - Allocation itself, [CBS_stow] and [CBS_strdup], threads and atomic operations (the
      reference counts are sequential), the error codes that the other components push.
    - A CBB used after [CBB_discard_child] through a grandchild pointer; [CBB_finish] is
      modelled with non-NULL out pointers; a BIO callback is a function of the numbers it is
      passed.
    - [BIO_read_asn1], [BIO_printf] and the memory, file and socket BIOs; BIGNUM
      exponentiation, Montgomery arithmetic and gcd; 32-bit and big-endian variants and machines
      without a double-word type.
    - AES itself, which is a parameter with the law that its implementations agree; GCM, CCM,
      XTS, key wrap and the AEAD interface; EVP buffers that overlap.
    - Block functions in assembly, the variant of SHA-512 for i386, SHA-3, the service
      indicator; HMAC is modelled with non-NULL outputs.
    - Public-key algorithms, the ASN.1 templates, X.509, PEM, TLS (C++) and the tools.

    ** Plan

    Next: the EVP digest interface and SHA-3; the memory BIO; hexadecimal and decimal
    conversion of BIGNUMs, Montgomery arithmetic, exponentiation and gcd. *)
From Stdlib Require Export ZArith Lia Btauto.
From stdpp Require Export base tactics numbers list option.

Global Open Scope Z_scope.

(** * Scope, hint databases *)

Declare Scope c_scope.
Delimit Scope c_scope with c.

Create HintDb bytes_db.
Create HintDb word_db.

(** * Machine integers

    An unsigned [w]-bit integer is a [Z] in [0, 2^w); [wrap w] is the reduction
    every unsigned operation of C performs. *)

Definition wrap (w z : Z) : Z := z mod 2 ^ w.

Abbreviation u8 := (wrap 8).
Abbreviation u16 := (wrap 16).
Abbreviation u32 := (wrap 32).
Abbreviation u64 := (wrap 64).

(** A value that fits [w] bits. *)
Definition fits (w z : Z) : Prop := 0 <= z < 2 ^ w.

#[export] Instance fits_dec w z : Decision (fits w z).
Proof. unfold fits. apply _. Defined.

(** C's [~] on a [w]-bit unsigned integer. *)
Definition wnot (w z : Z) : Z := 2 ^ w - 1 - z.

(** C's [memmove] within one array: [n] elements from index [src] to index [dst]. *)
Definition memmove {A} (p : list A) (dst src n : nat) : list A :=
  take dst p ++ take n (drop src p) ++ drop (dst + n) p.

Lemma memmove_spec {A} (p x y : list A) :
  exists gap, memmove (p ++ x ++ y) (length p + length y) (length p) (length x) = p ++ gap ++ x
              /\ length gap = length y.
Proof.
  exists (take (length y) (x ++ y)). unfold memmove. split.
  - rewrite take_app_add, drop_app_length, take_app_length by done.
    rewrite (drop_ge (p ++ x ++ y)) by (rewrite !length_app; lia). by rewrite app_nil_r, app_assoc.
  - rewrite length_take, length_app. lia.
Qed.

Lemma length_memmove {A} (p : list A) dst src n :
  (dst + n <= length p)%nat -> (src + n <= length p)%nat -> length (memmove p dst src n) = length p.
Proof. intros. unfold memmove. rewrite !length_app, !length_take, !length_drop. lia. Qed.

(** The two's complement reading of a [w]-bit unsigned integer. *)
Definition to_signed (w z : Z) : Z := if z <? 2 ^ (w - 1) then z else z - 2 ^ w.

Definition size_max : Z := 2 ^ 64 - 1.

Section Words.
Context (w : Z) (Hw : 0 <= w).

Lemma pow2_pos : 0 < 2 ^ w.
Proof. apply Z.pow_pos_nonneg; lia. Qed.

Lemma wrap_fits z : fits w (wrap w z).
Proof. apply Z.mod_pos_bound, pow2_pos. Qed.

Lemma wrap_id z : fits w z -> wrap w z = z.
Proof. apply Z.mod_small. Qed.

Lemma wrap_wrap z : wrap w (wrap w z) = wrap w z.
Proof. apply wrap_id, wrap_fits. Qed.

Lemma wrap_add_l x y : wrap w (wrap w x + y) = wrap w (x + y).
Proof. unfold wrap. pose proof pow2_pos. apply Zplus_mod_idemp_l. Qed.

Lemma wrap_add_r x y : wrap w (x + wrap w y) = wrap w (x + y).
Proof. unfold wrap. apply Zplus_mod_idemp_r. Qed.

Lemma wrap_testbit z i : 0 <= i -> Z.testbit (wrap w z) i = (i <? w) && Z.testbit z i.
Proof.
  intros Hi. unfold wrap. destruct (Z.ltb_spec i w).
  - rewrite Z.mod_pow2_bits_low by lia. reflexivity.
  - rewrite Z.mod_pow2_bits_high by lia. reflexivity.
Qed.

Lemma fits_testbit z i : fits w z -> w <= i -> Z.testbit z i = false.
Proof.
  intros Hz Hi. rewrite <- (wrap_id z Hz), wrap_testbit by lia.
  destruct (Z.ltb_spec i w); [lia | reflexivity].
Qed.

Lemma testbit_fits z :
  0 <= z -> (forall i, w <= i -> Z.testbit z i = false) -> fits w z.
Proof.
  intros H0 H. enough (z = wrap w z) as -> by apply wrap_fits.
  apply Z.bits_inj'. intros i Hi. rewrite wrap_testbit by lia.
  destruct (Z.ltb_spec i w); [reflexivity | by apply H].
Qed.

Lemma fits_lor x y : fits w x -> fits w y -> fits w (Z.lor x y).
Proof.
  intros Hx Hy. apply testbit_fits.
  - apply Z.lor_nonneg. unfold fits in *. lia.
  - intros i Hi. rewrite Z.lor_spec, !fits_testbit; auto.
Qed.

Lemma fits_land x y : fits w x -> 0 <= y -> fits w (Z.land x y).
Proof.
  intros Hx Hy. apply testbit_fits.
  - apply Z.land_nonneg. auto.
  - intros i Hi. rewrite Z.land_spec, fits_testbit; auto.
Qed.

Lemma fits_lxor x y : fits w x -> fits w y -> fits w (Z.lxor x y).
Proof.
  intros Hx Hy. apply testbit_fits.
  - apply Z.lxor_nonneg. unfold fits in *. lia.
  - intros i Hi. rewrite Z.lxor_spec, !fits_testbit; auto.
Qed.

Lemma wnot_fits z : fits w z -> fits w (wnot w z).
Proof. unfold fits, wnot. lia. Qed.

Lemma wnot_testbit z i : fits w z -> 0 <= i < w -> Z.testbit (wnot w z) i = negb (Z.testbit z i).
Proof.
  intros Hz Hi. replace (wnot w z) with (wrap w (Z.lnot z)).
  - rewrite wrap_testbit, Z.lnot_spec by lia.
    destruct (Z.ltb_spec i w); [reflexivity | lia].
  - unfold wrap, wnot, Z.lnot. unfold fits in Hz.
    rewrite <- (Z_mod_plus_full _ 1), Z.mod_small; lia.
Qed.
End Words.

#[export] Hint Resolve wrap_fits wrap_id fits_lor fits_land fits_lxor wnot_fits : word_db.

(** Or-ing disjoint bit fields is addition. *)
Lemma lor_shiftl_add a b n :
  0 <= n -> fits n b -> Z.lor (Z.shiftl a n) b = a * 2 ^ n + b.
Proof.
  intros Hn Hb. rewrite <- Z.shiftl_mul_pow2 by lia.
  symmetry. apply Z.add_nocarry_lor.
  apply Z.bits_inj'. intros i Hi. rewrite Z.land_spec, Z.bits_0, Z.shiftl_spec by lia.
  destruct (Z.ltb_spec i n).
  - rewrite Z.testbit_neg_r by lia. reflexivity.
  - rewrite (fits_testbit n Hn b) by (auto; lia). apply andb_false_r.
Qed.

(** Bitwise conjunction, field by field. *)
Lemma land_fields n a b m k :
  0 <= n -> fits n b -> fits n k ->
  Z.land (a * 2 ^ n + b) (m * 2 ^ n + k) = Z.land a m * 2 ^ n + Z.land b k.
Proof.
  intros Hn Hb Hk.
  assert (fits n (Z.land b k)) by (apply fits_land; auto; unfold fits in *; lia).
  rewrite <- !lor_shiftl_add by done.
  apply Z.bits_inj'. intros i Hi.
  rewrite Z.land_spec, !Z.lor_spec, Z.land_spec, !Z.shiftl_spec, Z.land_spec by lia.
  destruct (Z.ltb_spec i n).
  - rewrite !(Z.testbit_neg_r _ (i - n)) by lia. done.
  - rewrite (fits_testbit n Hn b), (fits_testbit n Hn k) by (auto; lia).
    by rewrite !orb_false_r.
Qed.

Lemma lor_fields n a b m k :
  0 <= n -> fits n b -> fits n k ->
  Z.lor (a * 2 ^ n + b) (m * 2 ^ n + k) = Z.lor a m * 2 ^ n + Z.lor b k.
Proof.
  intros Hn Hb Hk. rewrite <- !lor_shiftl_add by auto using fits_lor.
  rewrite Z.shiftl_lor.
  apply Z.bits_inj'. intros i Hi. rewrite !Z.lor_spec. btauto.
Qed.

Lemma land_byte_255 b : 0 <= b < 256 -> Z.land b 255 = b.
Proof. intros. change 255 with (Z.ones 8). rewrite Z.land_ones by lia. apply Z.mod_small. lia. Qed.

(** * Bytes *)

Abbreviation bytes := (list Z).

Definition byte_ok (b : Z) : Prop := 0 <= b < 256.
Definition bytes_ok (bs : bytes) : Prop := Forall byte_ok bs.

#[export] Instance byte_ok_dec b : Decision (byte_ok b).
Proof. unfold byte_ok. apply _. Defined.
#[export] Instance bytes_ok_dec bs : Decision (bytes_ok bs).
Proof. unfold bytes_ok. apply _. Defined.

Definition len (bs : bytes) : Z := Z.of_nat (length bs).

(** A decidable statement about every byte is a finite check. *)
Lemma byte_forall (P : Z -> bool) :
  forallb P (seqZ 0 256) = true -> forall b, byte_ok b -> P b = true.
Proof.
  intros H b Hb. rewrite forallb_forall in H. apply H.
  apply list_elem_of_In, elem_of_seqZ. exact Hb.
Qed.

Lemma bytes_ok_nil : bytes_ok [].
Proof. constructor. Qed.

Lemma bytes_ok_cons b bs : bytes_ok (b :: bs) <-> byte_ok b /\ bytes_ok bs.
Proof. apply Forall_cons_iff. Qed.

Lemma bytes_ok_app xs ys : bytes_ok (xs ++ ys) <-> bytes_ok xs /\ bytes_ok ys.
Proof. apply Forall_app. Qed.

Lemma bytes_ok_take n bs : bytes_ok bs -> bytes_ok (take n bs).
Proof. apply Forall_take. Qed.

Lemma bytes_ok_drop n bs : bytes_ok bs -> bytes_ok (drop n bs).
Proof. apply Forall_drop. Qed.

Lemma bytes_ok_suffix xs ys : xs `suffix_of` ys -> bytes_ok ys -> bytes_ok xs.
Proof. intros [k ->] H. by apply bytes_ok_app in H as [_ ?]. Qed.

Lemma bytes_ok_reverse bs : bytes_ok bs -> bytes_ok (reverse bs).
Proof. apply Forall_reverse. Qed.

Lemma byte_ok_wrap z : byte_ok (u8 z).
Proof. apply (wrap_fits 8). lia. Qed.

Lemma bytes_ok_replicate n b : byte_ok b -> bytes_ok (replicate n b).
Proof. intros. by apply Forall_replicate. Qed.

#[export] Hint Resolve bytes_ok_nil bytes_ok_take bytes_ok_drop bytes_ok_reverse byte_ok_wrap
  bytes_ok_replicate : bytes_db.
#[export] Hint Resolve <- bytes_ok_cons bytes_ok_app : bytes_db.

Lemma len_nonneg bs : 0 <= len bs.
Proof. unfold len. lia. Qed.

Lemma len_app xs ys : len (xs ++ ys) = len xs + len ys.
Proof. unfold len. rewrite length_app. lia. Qed.

Lemma len_cons b bs : len (b :: bs) = 1 + len bs.
Proof. unfold len. cbn [length]. lia. Qed.

Lemma len_nil_inv bs : len bs = 0 -> bs = [].
Proof. unfold len. destruct bs; cbn [length]; [done | lia]. Qed.

(** ** Big-endian byte strings *)

(** The number a big-endian string denotes, and the [n] low-order bytes of a
    number, most significant first. *)
Definition be_value (bs : bytes) : Z := foldl (fun acc b => acc * 256 + b) 0 bs.

Fixpoint be_bytes (n : nat) (v : Z) : bytes :=
  match n with
  | O => []
  | S n => be_bytes n (v / 256) ++ [v mod 256]
  end.

Lemma be_value_snoc bs b : be_value (bs ++ [b]) = be_value bs * 256 + b.
Proof. unfold be_value. by rewrite foldl_app. Qed.

Lemma be_value_app xs ys :
  be_value (xs ++ ys) = be_value xs * 256 ^ len ys + be_value ys.
Proof.
  induction ys as [|y ys IH] using rev_ind.
  - rewrite app_nil_r. change (256 ^ len []) with 1. change (be_value []) with 0. lia.
  - rewrite app_assoc, !be_value_snoc, IH, len_app.
    change (len [y]) with 1. rewrite Z.pow_add_r, Z.pow_1_r by (pose proof (len_nonneg ys); lia). lia.
Qed.

Lemma be_value_cons b bs : be_value (b :: bs) = b * 256 ^ len bs + be_value bs.
Proof. apply (be_value_app [b]). Qed.

Lemma be_value_bound bs : bytes_ok bs -> 0 <= be_value bs < 256 ^ len bs.
Proof.
  induction bs as [|b bs IH] using rev_ind; intros H; [change (0 <= 0 < 1); lia |].
  apply bytes_ok_app in H as [H1 H2]. apply bytes_ok_cons in H2 as [H2 _].
  specialize (IH H1). rewrite be_value_snoc, len_app.
  change (len [b]) with 1. unfold byte_ok in H2.
  rewrite Z.pow_add_r, Z.pow_1_r by (pose proof (len_nonneg bs); lia). lia.
Qed.

Lemma length_be_bytes n v : length (be_bytes n v) = n.
Proof.
  revert v. induction n as [|n IH]; intros v; [done |].
  cbn [be_bytes]. rewrite length_app, IH. cbn. lia.
Qed.

Lemma be_bytes_ok n v : bytes_ok (be_bytes n v).
Proof.
  revert v. induction n as [|n IH]; intros v; cbn [be_bytes]; [constructor |].
  apply bytes_ok_app. split; [apply IH |]. repeat constructor; apply Z.mod_pos_bound; lia.
Qed.

Lemma be_value_bytes n v : be_value (be_bytes n v) = v mod 256 ^ Z.of_nat n.
Proof.
  revert v. induction n as [|n IH]; intros v; cbn [be_bytes].
  - change (0 = v mod 1). by rewrite Z.mod_1_r.
  - rewrite be_value_snoc, IH, Nat2Z.inj_succ, Z.pow_succ_r by lia.
    rewrite Z.rem_mul_r by lia. lia.
Qed.

Lemma be_bytes_value bs : bytes_ok bs -> be_bytes (length bs) (be_value bs) = bs.
Proof.
  induction bs as [|b bs IH] using rev_ind; intros H; [done |].
  apply bytes_ok_app in H as [H1 H2]. apply bytes_ok_cons in H2 as [H2 _].
  unfold byte_ok in H2. rewrite length_app, Nat.add_comm. cbn [length Nat.add be_bytes].
  rewrite be_value_snoc.
  replace ((be_value bs * 256 + b) / 256) with (be_value bs) by (Z.div_mod_to_equations; lia).
  replace ((be_value bs * 256 + b) mod 256) with b by (Z.div_mod_to_equations; lia).
  by rewrite IH.
Qed.

Lemma be_value_inj xs ys :
  bytes_ok xs -> bytes_ok ys -> length xs = length ys -> be_value xs = be_value ys -> xs = ys.
Proof.
  intros Hx Hy Hl Hv. rewrite <- (be_bytes_value xs), <- (be_bytes_value ys) by done.
  by rewrite Hl, Hv.
Qed.

#[export] Hint Resolve be_bytes_ok : bytes_db.

Lemma b2z_range b : 0 <= Z.b2z b <= 1.
Proof. destruct b; cbn; lia. Qed.

Lemma fits_mono w w' z : 0 <= w <= w' -> fits w z -> fits w' z.
Proof.
  unfold fits. intros Hw Hz. pose proof (Z.pow_le_mono_r 2 w w' ltac:(lia) ltac:(lia)). lia.
Qed.

Lemma div_quot_rem q r m : 0 <= r < m -> (q * m + r) / m = q.
Proof. intros. rewrite Z.div_add_l, Z.div_small by lia. lia. Qed.

Lemma mod_quot_rem q r m : 0 <= r < m -> (q * m + r) mod m = r.
Proof. intros. rewrite Z.add_comm, Z.mod_add by lia. apply Z.mod_small. lia. Qed.

(** * Lists *)

Lemma foldl_ext_in {A B} (f g : A -> B -> A) (a : A) (l : list B) :
  (forall x a, x ∈ l -> f a x = g a x) -> foldl f a l = foldl g a l.
Proof.
  revert a. induction l as [| x l IH]; intros a H; [done |]. cbn.
  rewrite H by constructor. apply IH. intros. apply H. by constructor.
Qed.

(** * Tactics *)

Ltac pos_const p :=
  lazymatch p with
  | xH => idtac
  | xO ?q => pos_const q
  | xI ?q => pos_const q
  end.

Ltac z_const z :=
  lazymatch z with
  | Z0 => idtac
  | Zpos ?p => pos_const p
  | Zneg ?p => pos_const p
  end.

(** Evaluates every binary operation on two numerals of the goal. *)
Ltac z_eval :=
  repeat match goal with
    | |- context [?op ?a ?b] =>
        lazymatch type of op with
        | Z -> Z -> Z => idtac
        | Z -> Z -> bool => idtac
        end;
        z_const a; z_const b;
        let r := eval vm_compute in (op a b) in
        change (op a b) with r
    end; cbv iota beta.
