(* ===== verification/Internal.v ===== *)
(** The shared inline helpers of crypto/internal.h and crypto/mem.c on a 64-bit
    little-endian host ([crypto_word_t] is 64 bits wide): branch-free masks and
    selection, memory comparison, byte swaps, rotations, carries and the ASCII
    classifiers. *)

From S2P Require Import Prelude.

Module Internal.

(** * Constant-time masks *)

Definition constant_time_msb_w (a : Z) : Z := u64 (0 - Z.shiftr a 63).

Definition constant_time_lt_w (a b : Z) : Z :=
  constant_time_msb_w (Z.lxor a (Z.lor (Z.lxor a b) (Z.lxor (u64 (a - b)) a))).

Definition constant_time_lt_8 (a b : Z) : Z := u8 (constant_time_lt_w a b).

Definition constant_time_ge_w (a b : Z) : Z := wnot 64 (constant_time_lt_w a b).

Definition constant_time_ge_8 (a b : Z) : Z := u8 (constant_time_ge_w a b).

Definition constant_time_is_zero_w (a : Z) : Z :=
  constant_time_msb_w (Z.land (wnot 64 a) (u64 (a - 1))).

Definition constant_time_is_zero_8 (a : Z) : Z := u8 (constant_time_is_zero_w a).

Definition constant_time_eq_w (a b : Z) : Z := constant_time_is_zero_w (Z.lxor a b).

Definition constant_time_eq_8 (a b : Z) : Z := u8 (constant_time_eq_w a b).

(** An [int] argument is converted to [crypto_word_t], modulo 2^64. *)
Definition constant_time_eq_int (a b : Z) : Z := constant_time_eq_w (u64 a) (u64 b).

Definition constant_time_eq_int_8 (a b : Z) : Z := constant_time_eq_8 (u64 a) (u64 b).

(** [value_barrier_w] is the identity on values. *)
Definition constant_time_select_w (mask a b : Z) : Z :=
  Z.lor (Z.land mask a) (Z.land (wnot 64 mask) b).

Definition constant_time_select_8 (mask a b : Z) : Z := u8 (constant_time_select_w mask a b).

Definition constant_time_select_int (mask a b : Z) : Z :=
  to_signed 32 (u32 (constant_time_select_w mask (u64 a) (u64 b))).

(** [c[i] = select(mask, a[i], b[i])] for [i < len]; the callers pass [b = c]. *)
Definition constant_time_select_array_w (mask : Z) (a b : list Z) : list Z :=
  zip_with (constant_time_select_w mask) a b.

Definition constant_time_select_array_8 (mask : Z) (a b : list Z) : list Z :=
  zip_with (constant_time_select_8 mask) a b.

Definition table_entry (table : list Z) (i entry_size : nat) : list Z :=
  take entry_size (drop (i * entry_size) table).

Definition constant_time_select_entry_from_table_w
    (out table : list Z) (idx num_entries entry_size : nat) : list Z :=
  foldl (fun out i =>
           let mask := constant_time_eq_w (Z.of_nat i) (Z.of_nat idx) in
           constant_time_select_array_w mask (table_entry table i entry_size) out)
    out (seq 0 num_entries).

Definition constant_time_select_entry_from_table_8
    (out table : list Z) (idx num_entries entry_size : nat) : list Z :=
  foldl (fun out i =>
           let mask := u8 (constant_time_eq_w (Z.of_nat i) (Z.of_nat idx)) in
           constant_time_select_array_8 mask (table_entry table i entry_size) out)
    out (seq 0 num_entries).

(** * Memory *)

(** The loop runs from the last byte to the first; on lists, [foldr]. *)
Definition OPENSSL_memcmp (a b : bytes) : Z :=
  foldr (fun '(ai, bi) result =>
           let diff_mask := wnot 64 (constant_time_is_zero_w (Z.lxor ai bi)) in
           constant_time_select_int diff_mask (ai - bi) result)
    0 (zip a b).

Definition CRYPTO_memcmp (a b : bytes) : Z :=
  foldl (fun x '(ai, bi) => Z.lor x (Z.lxor ai bi)) 0 (zip a b).

(** The offset of the first byte equal to [c]. *)
Fixpoint OPENSSL_memchr (bs : bytes) (c : Z) : option Z :=
  match bs with
  | [] => None
  | b :: rest => if b =? c then Some 0
                 else match OPENSSL_memchr rest c with
                      | Some i => Some (1 + i)
                      | None => None
                      end
  end.

(** * Byte swaps and rotations *)

Definition CRYPTO_bswap2 (x : Z) : Z := u16 (Z.lor (Z.shiftr x 8) (Z.shiftl x 8)).

Definition CRYPTO_bswap4 (x : Z) : Z :=
  let x := Z.lor (Z.shiftr x 16) (u32 (Z.shiftl x 16)) in
  Z.lor (Z.shiftr (Z.land x 0xff00ff00) 8) (u32 (Z.shiftl (Z.land x 0x00ff00ff) 8)).

Definition CRYPTO_bswap8 (x : Z) : Z :=
  Z.lor (CRYPTO_bswap4 (Z.shiftr x 32)) (u64 (Z.shiftl (CRYPTO_bswap4 (u32 x)) 32)).

(** Loads and stores; an argument or result is the bytes in memory, least significant first
    for a machine integer. *)
Definition CRYPTO_load_u32_be (bs : bytes) : Z := CRYPTO_bswap4 (be_value (reverse bs)).
Definition CRYPTO_store_u32_be (v : Z) : bytes := reverse (be_bytes 4 (CRYPTO_bswap4 v)).
Definition CRYPTO_load_word_be (bs : bytes) : Z := be_value bs.
Definition CRYPTO_load_word_le (bs : bytes) : Z := be_value (reverse bs).
Definition CRYPTO_store_word_le (v : Z) : bytes := reverse (be_bytes 8 v).

Definition CRYPTO_rotl_u32 (value shift : Z) : Z :=
  Z.lor (u32 (Z.shiftl value shift)) (Z.shiftr value (Z.land (- shift) 31)).

Definition CRYPTO_rotr_u32 (value shift : Z) : Z :=
  Z.lor (Z.shiftr value shift) (u32 (Z.shiftl value (Z.land (- shift) 31))).

Definition CRYPTO_rotl_u64 (value shift : Z) : Z :=
  Z.lor (u64 (Z.shiftl value shift)) (Z.shiftr value (Z.land (- shift) 63)).

Definition CRYPTO_rotr_u64 (value shift : Z) : Z :=
  Z.lor (Z.shiftr value shift) (u64 (Z.shiftl value (Z.land (- shift) 63))).

(** * Carries: the portable bodies, result and carry out *)

Definition CRYPTO_addc_u64 (x y carry : Z) : Z * Z :=
  let x := u64 (x + carry) in
  let carry := Z.b2z (x <? carry) in
  let ret := u64 (x + y) in
  (ret, carry + Z.b2z (ret <? x)).

Definition CRYPTO_subc_u64 (x y borrow : Z) : Z * Z :=
  (u64 (x - y - borrow), Z.lor (Z.b2z (x <? y)) (Z.land (Z.b2z (x =? y)) borrow)).

(** * ASCII *)

Definition OPENSSL_isalpha (c : Z) : bool :=
  ((c >=? 97) && (c <=? 122)) || ((c >=? 65) && (c <=? 90)).
Definition OPENSSL_isdigit (c : Z) : bool := (c >=? 48) && (c <=? 57).
Definition OPENSSL_isspace (c : Z) : bool :=
  (c =? 9) || (c =? 10) || (c =? 11) || (c =? 12) || (c =? 13) || (c =? 32).

(** * Lemmas *)

(** The all-ones or all-zeros word of a truth value. *)
Definition mask (b : bool) : Z := if b then 2 ^ 64 - 1 else 0.

Lemma msb_w_mask a : fits 64 a -> constant_time_msb_w a = mask (Z.testbit a 63).
Proof.
  intros Ha. unfold constant_time_msb_w, wrap, mask. unfold fits in Ha.
  rewrite Z.testbit_eqb, Z.shiftr_div_pow2 by lia.
  change (2 ^ 64) with (2 * 2 ^ 63) in *.
  assert (0 <= a / 2 ^ 63 <= 1) as Hq by (Z.div_mod_to_equations; lia).
  rewrite (Z.mod_small (a / 2 ^ 63)) by lia.
  destruct (Z.eqb_spec (a / 2 ^ 63) 1) as [-> |]; [reflexivity |].
  replace (a / 2 ^ 63) with 0 by lia. reflexivity.
Qed.

Lemma testbit63 a : fits 64 a -> Z.testbit a 63 = (2 ^ 63 <=? a).
Proof.
  intros Ha. unfold fits in Ha. rewrite Z.testbit_eqb by lia.
  destruct (Z.leb_spec (2 ^ 63) a); [apply Z.eqb_eq | apply Z.eqb_neq]; Z.div_mod_to_equations; lia.
Qed.

Lemma lt_w_mask a b : fits 64 a -> fits 64 b -> constant_time_lt_w a b = mask (a <? b).
Proof.
  intros Ha Hb. unfold constant_time_lt_w.
  assert (fits 64 (u64 (a - b))) as Hs by (apply wrap_fits; lia).
  rewrite msb_w_mask by (repeat (apply fits_lxor || apply fits_lor); auto; lia).
  f_equal. rewrite !Z.lxor_spec, Z.lor_spec, !Z.lxor_spec, !testbit63 by done.
  assert (u64 (a - b) = if a <? b then a - b + 2 ^ 64 else a - b) as ->.
  { unfold wrap, fits in *. destruct (Z.ltb_spec a b).
    - rewrite <- (Z_mod_plus_full _ 1), Z.mod_small; lia.
    - apply Z.mod_small. lia. }
  unfold fits in *.
  destruct (Z.ltb_spec a b), (Z.leb_spec (2 ^ 63) a), (Z.leb_spec (2 ^ 63) b); cbn [xorb orb]; try lia;
  match goal with |- context [?x <=? ?y] => destruct (Z.leb_spec x y) end; cbn; try lia; done.
Qed.

Lemma is_zero_w_mask a : fits 64 a -> constant_time_is_zero_w a = mask (a =? 0).
Proof.
  intros Ha. unfold constant_time_is_zero_w.
  assert (fits 64 (u64 (a - 1))) as Hs by (apply wrap_fits; lia).
  assert (fits 64 (wnot 64 a)) as Hn by (apply wnot_fits; done).
  rewrite msb_w_mask by (apply fits_land; [lia | done | unfold fits in Hs; lia]).
  f_equal. rewrite Z.land_spec, !testbit63 by done.
  unfold wnot, fits, wrap in *.
  destruct (Z.eqb_spec a 0) as [-> | Hne]; [reflexivity |].
  rewrite (Z.mod_small (a - 1)) by lia. lia.
Qed.

Lemma eq_w_mask a b : fits 64 a -> fits 64 b -> constant_time_eq_w a b = mask (a =? b).
Proof.
  intros Ha Hb. unfold constant_time_eq_w. rewrite is_zero_w_mask by (apply fits_lxor; auto; lia).
  f_equal. destruct (Z.eqb_spec a b) as [-> | Hne].
  - rewrite Z.lxor_nilpotent. reflexivity.
  - apply Z.eqb_neq. intros H. apply Hne, Z.lxor_eq, H.
Qed.

Lemma wnot_mask b : wnot 64 (mask b) = mask (negb b).
Proof. by destruct b. Qed.

Lemma land_mask b a : fits 64 a -> Z.land (mask b) a = if b then a else 0.
Proof.
  intros Ha. destruct b; [| apply Z.land_0_l].
  change (mask true) with (Z.ones 64).
  rewrite Z.land_comm, Z.land_ones by lia. by apply Z.mod_small.
Qed.

Lemma select_w_mask (c : bool) a b :
  fits 64 a -> fits 64 b -> constant_time_select_w (mask c) a b = if c then a else b.
Proof.
  intros Ha Hb. unfold constant_time_select_w. rewrite wnot_mask, !land_mask by done.
  destruct c; cbn; [apply Z.lor_0_r | done].
Qed.

Lemma u8_mask b : u8 (mask b) = if b then 255 else 0.
Proof. by destruct b. Qed.

Lemma select_8_mask (c : bool) a b :
  byte_ok a -> byte_ok b ->
  constant_time_select_8 (if c then 255 else 0) a b = if c then a else b.
Proof.
  intros Ha Hb. unfold constant_time_select_8, constant_time_select_w.
  assert (fits 64 a /\ fits 64 b) as [Fa Fb] by (unfold fits, byte_ok in *; lia).
  destruct c.
  - rewrite <- (Z.lor_0_r a) at 2. unfold wrap. rewrite <- Z.land_ones, Z.land_lor_distr_l by lia.
    rewrite !(Z.land_comm _ a), !(Z.land_comm _ b), <- !Z.land_assoc.
    change (Z.land (wnot 64 255) (Z.ones 8)) with 0.
    change (Z.land 255 (Z.ones 8)) with (Z.ones 8).
    rewrite Z.land_0_r, Z.land_ones by lia. rewrite Z.mod_small by (unfold byte_ok in Ha; lia).
    done.
  - change (wnot 64 0) with (mask true). rewrite land_mask, Z.land_0_l, Z.lor_0_l by done.
    apply Z.mod_small. exact Hb.
Qed.

Lemma select_int_mask (c : bool) a b :
  -(2 ^ 31) <= a < 2 ^ 31 -> -(2 ^ 31) <= b < 2 ^ 31 ->
  constant_time_select_int (mask c) a b = if c then a else b.
Proof.
  intros Ha Hb. unfold constant_time_select_int.
  rewrite select_w_mask by (apply wrap_fits; lia).
  assert (forall x : Z, -(2 ^ 31) <= x < 2 ^ 31 -> to_signed 32 (u32 (u64 x)) = x) as H.
  { intros x Hx. unfold to_signed, wrap.
    rewrite Z.mod_mod_divide by (exists (2 ^ 32); reflexivity).
    change (2 ^ (32 - 1)) with (2 ^ 31). destruct (decide (0 <= x)).
    - rewrite Z.mod_small by lia. destruct (Z.ltb_spec x (2 ^ 31)); lia.
    - rewrite <- (Z_mod_plus_full _ 1), Z.mod_small by lia.
      destruct (Z.ltb_spec (x + 1 * 2 ^ 32) (2 ^ 31)); lia. }
  destruct c; auto.
Qed.

(** Selecting an array with a mask keeps it or replaces it. *)
Lemma zip_with_select (f : Z -> Z -> Z) (c : bool) (P : Z -> Prop) (a b : list Z) :
  (forall x y, P x -> P y -> f x y = if c then x else y) ->
  Forall P a -> Forall P b -> length a = length b ->
  zip_with f a b = if c then a else b.
Proof.
  intros Hf Ha. revert b. induction Ha as [| x a Hx Ha IH]; intros [| y b] Hb Hl; try done.
  - by destruct c.
  - inversion Hb; subst. cbn. rewrite Hf, IH by (auto; cbn in Hl; lia). by destruct c.
Qed.

Lemma length_table_entry table i n k :
  (length table = n * k)%nat -> (i < n)%nat -> length (table_entry table i k) = k.
Proof. intros. unfold table_entry. rewrite length_take, length_drop. nia. Qed.

(** The table scan leaves the entry of the last index whose comparison succeeds. *)
Lemma table_scan (f : bool -> list Z -> list Z -> list Z) (P : Z -> Prop)
    (out table : list Z) (idx n k : nat) :
  (forall c a b, Forall P a -> Forall P b -> length a = length b ->
     f c a b = if c then a else b) ->
  Forall P table -> Forall P out -> length table = (n * k)%nat -> length out = k ->
  forall m, (m <= n)%nat ->
  foldl (fun out i => f (Nat.eqb i idx) (table_entry table i k) out) out (seq 0 m)
  = if decide (idx < m)%nat then table_entry table idx k else out.
Proof.
  intros Hf Ht Ho Hlt Hlo. induction m as [| m IH]; intros Hm.
  - destruct (decide _); [lia | done].
  - rewrite seq_S, foldl_app, IH by lia. cbn [foldl Nat.add].
    assert (forall i, Forall P (table_entry table i k)) as Hte
      by (intros; unfold table_entry; apply Forall_take, Forall_drop; done).
    rewrite Hf; auto.
    + destruct (Nat.eqb_spec m idx) as [-> |]; repeat destruct (decide _); try lia; done.
    + destruct (decide _); auto.
    + rewrite (length_table_entry table m n k) by (auto; lia).
      destruct (decide _); [symmetry; eapply length_table_entry; eauto; lia | done].
Qed.

Lemma eqb_of_nat i j : (Z.of_nat i =? Z.of_nat j) = Nat.eqb i j.
Proof. destruct (Nat.eqb_spec i j), (Z.eqb_spec (Z.of_nat i) (Z.of_nat j)); lia || done. Qed.

(** Byte swaps reverse the bytes. *)
Lemma bswap2_bytes a b : bytes_ok [a; b] -> CRYPTO_bswap2 (be_value [a; b]) = be_value [b; a].
Proof.
  rewrite !bytes_ok_cons. unfold byte_ok. intros (? & ? & _).
  unfold CRYPTO_bswap2, be_value, wrap. cbn [foldl].
  rewrite Z.shiftr_div_pow2 by lia.
  replace (((0 * 256 + a) * 256 + b) / 2 ^ 8) with a by (Z.div_mod_to_equations; lia).
  rewrite Z.lor_comm, lor_shiftl_add by (unfold fits; lia). Z.div_mod_to_equations; lia.
Qed.

Lemma bswap4_bytes a b c d :
  bytes_ok [a; b; c; d] -> CRYPTO_bswap4 (be_value [a; b; c; d]) = be_value [d; c; b; a].
Proof.
  rewrite !bytes_ok_cons. unfold byte_ok. intros (? & ? & ? & ? & _).
  unfold CRYPTO_bswap4, be_value. cbn [foldl].
  set (hi := a * 256 + b). set (lo := c * 256 + d).
  replace ((((0 * 256 + a) * 256 + b) * 256 + c) * 256 + d) with (hi * 2 ^ 16 + lo) by lia.
  assert (Z.lor (Z.shiftr (hi * 2 ^ 16 + lo) 16) (u32 (Z.shiftl (hi * 2 ^ 16 + lo) 16))
          = ((c * 2 ^ 8 + d) * 2 ^ 8 + a) * 2 ^ 8 + b) as ->.
  { rewrite Z.shiftr_div_pow2, Z.shiftl_mul_pow2 by lia. unfold wrap.
    replace ((hi * 2 ^ 16 + lo) / 2 ^ 16) with hi by (Z.div_mod_to_equations; lia).
    replace (((hi * 2 ^ 16 + lo) * 2 ^ 16) mod 2 ^ 32) with (Z.shiftl lo 16).
    - rewrite Z.lor_comm, lor_shiftl_add by (unfold fits; lia). lia.
    - rewrite Z.shiftl_mul_pow2 by lia. Z.div_mod_to_equations; lia. }
  change 0xff00ff00 with (((255 * 2 ^ 8 + 0) * 2 ^ 8 + 255) * 2 ^ 8 + 0).
  change 0x00ff00ff with (((0 * 2 ^ 8 + 255) * 2 ^ 8 + 0) * 2 ^ 8 + 255).
  rewrite !land_fields, !land_byte_255, !Z.land_0_r by (unfold fits; lia).
  rewrite Z.shiftr_div_pow2, Z.shiftl_mul_pow2 by lia. unfold wrap.
  rewrite Z.mod_small by lia.
  replace ((((c * 2 ^ 8 + 0) * 2 ^ 8 + a) * 2 ^ 8 + 0) / 2 ^ 8)
    with (((0 * 2 ^ 8 + c) * 2 ^ 8 + 0) * 2 ^ 8 + a) by (Z.div_mod_to_equations; lia).
  replace ((((0 * 2 ^ 8 + d) * 2 ^ 8 + 0) * 2 ^ 8 + b) * 2 ^ 8)
    with (((d * 2 ^ 8 + 0) * 2 ^ 8 + b) * 2 ^ 8 + 0) by lia.
  rewrite !lor_fields, ?Z.lor_0_r, ?Z.lor_0_l by (unfold fits; lia). lia.
Qed.

Lemma bswap8_bytes a b c d e f g h :
  bytes_ok [a; b; c; d; e; f; g; h] ->
  CRYPTO_bswap8 (be_value [a; b; c; d; e; f; g; h]) = be_value [h; g; f; e; d; c; b; a].
Proof.
  intros H. change [a; b; c; d; e; f; g; h] with ([a; b; c; d] ++ [e; f; g; h]) in *.
  apply bytes_ok_app in H as [H1 H2].
  pose proof (be_value_bound _ H1) as B1. pose proof (be_value_bound _ H2) as B2.
  assert (bytes_ok [d; c; b; a]) as H1' by (revert H1; rewrite !bytes_ok_cons; tauto).
  assert (bytes_ok [h; g; f; e]) as H2' by (revert H2; rewrite !bytes_ok_cons; tauto).
  pose proof (be_value_bound _ H1') as B1'. pose proof (be_value_bound _ H2') as B2'.
  change [h; g; f; e; d; c; b; a] with ([h; g; f; e] ++ [d; c; b; a]).
  rewrite !be_value_app. change (256 ^ len [e; f; g; h]) with (2 ^ 32) in *.
  change (256 ^ len [d; c; b; a]) with (2 ^ 32) in *.
  change (256 ^ len [a; b; c; d]) with (2 ^ 32) in *. change (256 ^ len [h; g; f; e]) with (2 ^ 32) in *.
  unfold CRYPTO_bswap8, wrap. rewrite Z.shiftr_div_pow2 by lia.
  rewrite Z.div_add_l, (Z.div_small (be_value [e; f; g; h])), Z.add_0_r by lia.
  rewrite (Z.add_comm (_ * _)), Z.mod_add, (Z.mod_small (be_value [e; f; g; h])) by lia.
  rewrite !bswap4_bytes by done.
  rewrite (Z.shiftl_mul_pow2 _ 32), Z.mod_small, <- (Z.shiftl_mul_pow2 _ 32) by lia.
  rewrite (Z.lor_comm _ (Z.shiftl _ _)), lor_shiftl_add by (unfold fits; lia). rewrite Z.shiftl_mul_pow2 by lia. done.
Qed.

(** The difference at the first position where two strings differ, as [memcmp]
    documents it. *)
Fixpoint first_diff (a b : bytes) : Z :=
  match a, b with
  | x :: a, y :: b => if x =? y then first_diff a b else x - y
  | _, _ => 0
  end.

Lemma first_diff_range a b : bytes_ok a -> bytes_ok b -> -255 <= first_diff a b <= 255.
Proof.
  intros Ha. revert b. induction Ha as [| x a Hx Ha IH]; intros [| y b] Hb; cbn; try lia.
  apply bytes_ok_cons in Hb as [Hy Hb]. unfold byte_ok in *.
  destruct (Z.eqb_spec x y); [by apply IH | lia].
Qed.

Lemma first_diff_0 a b :
  bytes_ok a -> bytes_ok b -> length a = length b -> first_diff a b = 0 <-> a = b.
Proof.
  intros Ha. revert b. induction Ha as [| x a Hx Ha IH]; intros [| y b] Hb Hl; cbn; try done.
  apply bytes_ok_cons in Hb as [Hy Hb]. cbn in Hl.
  destruct (Z.eqb_spec x y) as [-> | Hne].
  - rewrite IH by (auto; lia). split; [by intros -> | by intros [= ->]].
  - split; [lia | by intros [= -> _]].
Qed.

Lemma memcmp_first_diff a b :
  bytes_ok a -> bytes_ok b -> length a = length b -> OPENSSL_memcmp a b = first_diff a b.
Proof.
  intros Ha. revert b. induction Ha as [| x a Hx Ha IH]; intros [| y b] Hb Hl; try done.
  apply bytes_ok_cons in Hb as [Hy Hb].
  change (OPENSSL_memcmp (x :: a) (y :: b)) with
    (constant_time_select_int (wnot 64 (constant_time_is_zero_w (Z.lxor x y))) (x - y)
       (OPENSSL_memcmp a b)).
  rewrite IH by (auto; cbn in Hl; lia). pose proof (first_diff_range a b Ha Hb).
  assert (fits 64 x /\ fits 64 y) as [Fx Fy] by (unfold fits, byte_ok in *; lia).
  rewrite is_zero_w_mask by (apply fits_lxor; auto; lia).
  rewrite wnot_mask, select_int_mask by (unfold byte_ok in *; lia). cbn [first_diff].
  destruct (Z.eqb_spec x y) as [-> | Hne]; [by rewrite Z.lxor_nilpotent |].
  destruct (Z.eqb_spec (Z.lxor x y) 0) as [H0 |]; [by apply Z.lxor_eq in H0 | done].
Qed.

Lemma crypto_memcmp_fold x a b :
  length a = length b ->
  foldl (fun x '(ai, bi) => Z.lor x (Z.lxor ai bi)) x (zip a b) = 0 <-> x = 0 /\ a = b.
Proof.
  revert x b. induction a as [| y a IH]; intros x [| z b] Hl; cbn; try (cbn in Hl; lia); [tauto |].
  change (length a = length b) in Hl || (cbn in Hl; injection Hl as Hl).
  rewrite IH by done. rewrite Z.lor_eq_0_iff, Z.lxor_eq_0_iff. naive_solver.
Qed.

(** * Properties *)

(** every branch-free comparison returns the all-ones mask of its width exactly when
    its condition holds and zero otherwise, for all 64-bit words. *)
Theorem constant_time_masks_correct a b :
  fits 64 a -> fits 64 b ->
  constant_time_lt_w a b = mask (a <? b) /\
  constant_time_ge_w a b = mask (b <=? a) /\
  constant_time_is_zero_w a = mask (a =? 0) /\
  constant_time_eq_w a b = mask (a =? b) /\
  constant_time_lt_8 a b = (if a <? b then 255 else 0) /\
  constant_time_ge_8 a b = (if b <=? a then 255 else 0) /\
  constant_time_is_zero_8 a = (if a =? 0 then 255 else 0) /\
  constant_time_eq_8 a b = (if a =? b then 255 else 0).
Proof.
  intros Ha Hb.
  unfold constant_time_lt_8, constant_time_ge_8, constant_time_is_zero_8, constant_time_eq_8,
    constant_time_ge_w.
  rewrite lt_w_mask, is_zero_w_mask, eq_w_mask, wnot_mask, !u8_mask by done.
  rewrite <- Z.leb_antisym. auto 10.
Qed.

Lemma constant_time_masks_correct_witness :
  constant_time_lt_w (2 ^ 63) (2 ^ 64 - 1) = 2 ^ 64 - 1 /\ constant_time_eq_8 7 9 = 0.
Proof.
  split.
  - apply (constant_time_masks_correct (2 ^ 63) (2 ^ 64 - 1)); unfold fits; lia.
  - apply (constant_time_masks_correct 7 9); unfold fits; lia.
Defined.

(** the constant-time table lookups scan the whole table and leave in [out] exactly
    entry [idx], or [out] unchanged when [idx] is not an index of the table; in the
    word and the byte version. *)
Theorem select_entry_from_table_correct out table idx n k :
  (length table = n * k)%nat -> length out = k ->
  Z.of_nat n <= 2 ^ 64 -> Z.of_nat idx < 2 ^ 64 ->
  (Forall (fits 64) table -> Forall (fits 64) out ->
   constant_time_select_entry_from_table_w out table idx n k
   = if decide (idx < n)%nat then table_entry table idx k else out) /\
  (bytes_ok table -> bytes_ok out ->
   constant_time_select_entry_from_table_8 out table idx n k
   = if decide (idx < n)%nat then table_entry table idx k else out).
Proof.
  intros Ht Ho Hn Hi. split; intros Pt Po.
  - rewrite <- (table_scan (fun c => constant_time_select_array_w (mask c)) (fits 64) out table idx n k)
      by (auto; intros; eapply zip_with_select; eauto using select_w_mask).
    apply foldl_ext_in. intros i o Hin%elem_of_seq. cbv zeta.
    rewrite eq_w_mask, eqb_of_nat by (unfold fits; lia). done.
  - rewrite <- (table_scan (fun c => constant_time_select_array_8 (if c then 255 else 0)) byte_ok
      out table idx n k) by (auto; intros; eapply zip_with_select; eauto using select_8_mask).
    apply foldl_ext_in. intros i o Hin%elem_of_seq. cbv zeta.
    rewrite eq_w_mask, eqb_of_nat, u8_mask by (unfold fits; lia). done.
Qed.

Lemma select_entry_from_table_correct_witness :
  constant_time_select_entry_from_table_8 [0; 0] [1; 2; 3; 4; 5; 6] 1 3 2 = [3; 4].
Proof.
  apply (select_entry_from_table_correct [0; 0] [1; 2; 3; 4; 5; 6] 1 3 2); try reflexivity;
    apply (bool_decide_unpack _); vm_compute; exact I.
Defined.

(** [OPENSSL_memcmp], which always scans the whole length with masks, returns the
    difference at the first position where the strings differ (so its sign is the
    lexicographic order and it is 0 exactly on equal strings), and [CRYPTO_memcmp]
    is 0 exactly on equal strings. *)
Theorem memcmp_correct a b :
  bytes_ok a -> bytes_ok b -> length a = length b ->
  OPENSSL_memcmp a b = first_diff a b /\
  (OPENSSL_memcmp a b = 0 <-> a = b) /\
  (CRYPTO_memcmp a b = 0 <-> a = b).
Proof.
  intros Ha Hb Hl. rewrite memcmp_first_diff by done. split_and!; [done | by apply first_diff_0 |].
  unfold CRYPTO_memcmp. rewrite crypto_memcmp_fold by done. tauto.
Qed.

Lemma memcmp_correct_witness : OPENSSL_memcmp [1; 2; 3] [1; 5; 0] = -3.
Proof.
  apply (memcmp_correct [1; 2; 3] [1; 5; 0]); try reflexivity;
    apply (bool_decide_unpack _); vm_compute; exact I.
Defined.

End Internal.
