(* ===== verification/PosixTime.v ===== *)
(** POSIX time (crypto/asn1/posix_time.c): conversion between [int64_t] seconds
    and broken-down UTC time in the proleptic Gregorian calendar, years 0000 to
    9999.  The values the code computes for the dates and times it
    accepts (its range checks come first) stay far inside [int64_t], so they are plain [Z]; C's [/] and [%] truncate
    towards zero and are [Z.quot] and [Z.rem]. *)

From S2P Require Import Prelude.

Module PosixTime.

Definition SECS_PER_HOUR : Z := 60 * 60.
Definition SECS_PER_DAY : Z := 24 * SECS_PER_HOUR.
Definition MIN_POSIX_TIME : Z := -62167219200.
Definition MAX_POSIX_TIME : Z := 253402300799.
Definition INT64_MAX : Z := 2 ^ 63 - 1.
Definition INT64_MIN : Z := - 2 ^ 63.

(** The fields of [struct tm] the code reads and writes. *)
Record tm := mk_tm {
  tm_year : Z; tm_mon : Z; tm_mday : Z; tm_hour : Z; tm_min : Z; tm_sec : Z
}.

Definition is_valid_date (year month day : Z) : bool :=
  if (day <? 1) || (month <? 1) || (year <? 0) || (year >? 9999) then false
  else match month with
       | 1 | 3 | 5 | 7 | 8 | 10 | 12 => (day >? 0) && (day <=? 31)
       | 4 | 6 | 9 | 11 => (day >? 0) && (day <=? 30)
       | 2 => if ((Z.rem year 4 =? 0) && negb (Z.rem year 100 =? 0)) || (Z.rem year 400 =? 0)
              then (day >? 0) && (day <=? 29)
              else (day >? 0) && (day <=? 28)
       | _ => false
       end.

Definition is_valid_time (hours minutes seconds : Z) : bool :=
  if (hours <? 0) || (minutes <? 0) || (seconds <? 0) || (hours >? 23)
     || (minutes >? 59) || (seconds >? 59)
  then false else true.

Definition is_valid_posix_time (time : Z) : bool :=
  (MIN_POSIX_TIME <=? time) && (time <=? MAX_POSIX_TIME).

Definition posix_time_from_utc (year month day hours minutes seconds : Z) : option Z :=
  if negb (is_valid_date year month day) || negb (is_valid_time hours minutes seconds)
  then None
  else
    let year := if month <=? 2 then year - 1 else year in
    let era := Z.quot (if year >=? 0 then year else year - 399) 400 in
    let year_of_era := year - era * 400 in
    let day_of_year :=
      Z.quot (153 * (if month >? 2 then month - 3 else month + 9) + 2) 5 + day - 1 in
    let day_of_era :=
      year_of_era * 365 + Z.quot year_of_era 4 - Z.quot year_of_era 100 + day_of_year in
    let posix_days := era * 146097 + day_of_era - 719468 in
    Some (posix_days * SECS_PER_DAY + hours * SECS_PER_HOUR + minutes * 60 + seconds).

(** The out parameters of [utc_from_posix_time]: year, month, day, hours, minutes,
    seconds. *)
Definition utc_from_posix_time (time : Z) : option (Z * Z * Z * Z * Z * Z) :=
  if negb (is_valid_posix_time time) then None
  else
    let days := Z.quot time SECS_PER_DAY in
    let leftover_seconds := Z.rem time SECS_PER_DAY in
    let '(days, leftover_seconds) :=
      if leftover_seconds <? 0 then (days - 1, leftover_seconds + SECS_PER_DAY)
      else (days, leftover_seconds) in
    let days := days + 719468 in
    let era := Z.quot (if days >? 0 then days else days - 146096) 146097 in
    let day_of_era := days - era * 146097 in
    let year_of_era :=
      Z.quot (day_of_era - Z.quot day_of_era 1460 + Z.quot day_of_era 36524
              - Z.quot day_of_era 146096) 365 in
    let out_year := year_of_era + era * 400 in
    let day_of_year :=
      day_of_era - (365 * year_of_era + Z.quot year_of_era 4 - Z.quot year_of_era 100) in
    let month_of_year := Z.quot (5 * day_of_year + 2) 153 in
    let out_month := if month_of_year <? 10 then month_of_year + 3 else month_of_year - 9 in
    let out_year := if out_month <=? 2 then out_year + 1 else out_year in
    let out_day := day_of_year - Z.quot (153 * month_of_year + 2) 5 + 1 in
    let out_hours := Z.quot leftover_seconds SECS_PER_HOUR in
    let leftover_seconds := Z.rem leftover_seconds SECS_PER_HOUR in
    let out_minutes := Z.quot leftover_seconds 60 in
    let out_seconds := Z.rem leftover_seconds 60 in
    Some (out_year, out_month, out_day, out_hours, out_minutes, out_seconds).

Definition OPENSSL_tm_to_posix (t : tm) : option Z :=
  posix_time_from_utc (tm_year t + 1900) (tm_mon t + 1) (tm_mday t) (tm_hour t)
    (tm_min t) (tm_sec t).

Definition OPENSSL_posix_to_tm (time : Z) : option tm :=
  match utc_from_posix_time time with
  | None => None
  | Some (y, mo, d, h, mi, s) => Some (mk_tm (y - 1900) (mo - 1) d h mi s)
  end.

(** [time_bits] is the width of [time_t], 32 or 64. *)
Definition OPENSSL_timegm (time_bits : Z) (t : tm) : option Z :=
  match OPENSSL_tm_to_posix t with
  | None => None
  | Some posix_time =>
      if (time_bits =? 32) && ((posix_time >? 2 ^ 31 - 1) || (posix_time <? - 2 ^ 31))
      then None else Some posix_time
  end.

Definition OPENSSL_gmtime (time : Z) : option tm := OPENSSL_posix_to_tm time.

Definition OPENSSL_gmtime_adj (t : tm) (offset_day offset_sec : Z) : option tm :=
  match OPENSSL_tm_to_posix t with
  | None => None
  | Some posix_time =>
      let posix_time := posix_time + offset_day * SECS_PER_DAY in
      if (posix_time >? 0) && (offset_sec >? INT64_MAX - posix_time) then None
      else if (posix_time <? 0) && (offset_sec <? INT64_MIN - posix_time) then None
      else OPENSSL_posix_to_tm (posix_time + offset_sec)
  end.

(** The difference as days and seconds. *)
Definition OPENSSL_gmtime_diff (from to : tm) : option (Z * Z) :=
  match OPENSSL_tm_to_posix to, OPENSSL_tm_to_posix from with
  | Some time_to, Some time_from =>
      let timediff := time_to - time_from in
      Some (Z.quot timediff SECS_PER_DAY, Z.rem timediff SECS_PER_DAY)
  | _, _ => None
  end.

(** * Reference calendar *)

Definition is_leap (y : Z) : bool :=
  ((y mod 4 =? 0) && negb (y mod 100 =? 0)) || (y mod 400 =? 0).

Definition days_in_month (y m : Z) : Z :=
  match m with
  | 2 => if is_leap y then 29 else 28
  | 4 | 6 | 9 | 11 => 30
  | _ => 31
  end.

Definition next_day (y m d : Z) : Z * Z * Z :=
  if d <? days_in_month y m then (y, m, d + 1)
  else if m <? 12 then (y, m + 1, 1)
  else (y + 1, 1, 1).

(** * Lemmas *)

(** Solves goals about truncating and flooring division by constants. *)
Ltac div_lia := Z.to_euclidean_division_equations; lia.

Lemma is_valid_date_spec y m d :
  is_valid_date y m d = true <->
  0 <= y <= 9999 /\ 1 <= m <= 12 /\ 1 <= d <= days_in_month y m.
Proof.
  unfold is_valid_date.
  destruct ((d <? 1) || (m <? 1) || (y <? 0) || (y >? 9999)) eqn:E; [split; [done |] | ].
  { unfold days_in_month, is_leap. intros H. lia. }
  assert (Hy : 0 <= y) by lia.
  rewrite !Z.rem_mod_nonneg by lia. fold (is_leap y).
  destruct (decide (m <= 12)) as [Hm | Hm].
  - assert (m = 1 \/ m = 2 \/ m = 3 \/ m = 4 \/ m = 5 \/ m = 6 \/ m = 7 \/ m = 8 \/ m = 9
            \/ m = 10 \/ m = 11 \/ m = 12) as Hc by lia.
    unfold days_in_month.
    repeat (destruct Hc as [-> | Hc]; [destruct (is_leap y); lia |]). subst m. lia.
  - assert (match m with
            | 1 | 3 | 5 | 7 | 8 | 10 | 12 => (d >? 0) && (d <=? 31)
            | 4 | 6 | 9 | 11 => (d >? 0) && (d <=? 30)
            | 2 => if is_leap y then (d >? 0) && (d <=? 29) else (d >? 0) && (d <=? 28)
            | _ => false end = false) as ->.
    { destruct m as [| p | p]; try lia. repeat (destruct p as [p | p |]; try lia; try done). }
    lia.
Qed.

Lemma era_of_year y : Z.quot (if y >=? 0 then y else y - 399) 400 = y / 400.
Proof. destruct (Z.geb_spec y 0); div_lia. Qed.

Lemma era_of_days d : Z.quot (if d >? 0 then d else d - 146096) 146097 = d / 146097.
Proof. rewrite Z.gtb_ltb. destruct (Z.ltb_spec 0 d); div_lia. Qed.

(** A year of the era, starting on 1 March, ends with 29 February. *)
Definition mar_leap (yoe : Z) : bool :=
  (yoe mod 4 =? 3) && (negb (yoe mod 100 =? 99) || (yoe =? 399)).

Lemma mar_leap_spec y : mar_leap (y mod 400) = is_leap (y + 1).
Proof.
  unfold mar_leap, is_leap.
  destruct (Z.eqb_spec ((y mod 400) mod 4) 3), (Z.eqb_spec ((y + 1) mod 4) 0),
    (Z.eqb_spec ((y mod 400) mod 100) 99), (Z.eqb_spec ((y + 1) mod 100) 0),
    (Z.eqb_spec (y mod 400) 399), (Z.eqb_spec ((y + 1) mod 400) 0); try done; div_lia.
Qed.

Definition doe_of (yoe doy : Z) : Z := yoe * 365 + yoe / 4 - yoe / 100 + doy.
Definition yoe_of (doe : Z) : Z := (doe - doe / 1460 + doe / 36524 - doe / 146096) / 365.

(** A year of the era as century, quadrennium and year within it. *)
Lemma yoe_split yoe :
  0 <= yoe <= 399 ->
  exists c r q s, yoe = 100 * c + r /\ r = 4 * q + s /\ 0 <= r < 100 /\ 0 <= s < 4
    /\ 0 <= q <= 24 /\ 0 <= c <= 3 /\ yoe / 4 = 25 * c + q /\ yoe / 100 = c
    /\ yoe mod 4 = s /\ yoe mod 100 = r.
Proof.
  intros. exists (yoe / 100), (yoe mod 100), (yoe mod 100 / 4), (yoe mod 100 mod 4). div_lia.
Qed.

Lemma yoe_of_doe yoe doy :
  0 <= yoe <= 399 -> 0 <= doy <= 364 + Z.b2z (mar_leap yoe) ->
  yoe_of (doe_of yoe doy) = yoe /\ 0 <= doe_of yoe doy <= 146096.
Proof.
  intros Hy Hd. unfold yoe_of, doe_of, mar_leap in *.
  destruct (yoe_split yoe Hy) as (c & r & q & s & ? & ? & ? & ? & ? & ? & H4 & H100 & M4 & M100).
  rewrite H4, H100. rewrite M4, M100 in Hd.
  destruct (Z.eqb_spec s 3), (Z.eqb_spec r 99), (Z.eqb_spec yoe 399); cbn in Hd; div_lia.
Qed.

Lemma doe_of_yoe doe :
  0 <= doe <= 146096 ->
  let yoe := yoe_of doe in
  let doy := doe - (365 * yoe + yoe / 4 - yoe / 100) in
  0 <= yoe <= 399 /\ 0 <= doy <= 364 + Z.b2z (mar_leap yoe).
Proof.
  intros Hd yoe doy.
  assert (0 <= yoe <= 399) as Hy by (unfold yoe, yoe_of; div_lia).
  split; [done |].
  destruct (yoe_split yoe Hy) as (c & r & q & s & ? & ? & ? & ? & ? & ? & H4 & H100 & M4 & M100).
  subst doy. unfold mar_leap. rewrite H4, H100, M4, M100.
  assert (yoe = yoe_of doe) as E by done. clearbody yoe. unfold yoe_of in E.
  destruct (Z.eqb_spec s 3), (Z.eqb_spec r 99), (Z.eqb_spec yoe 399); cbn; div_lia.
Qed.
(** Months counted from March, and the day of a year that starts on 1 March. *)
Definition mp_of (m : Z) : Z := if m >? 2 then m - 3 else m + 9.
Definition m_of (mp : Z) : Z := if mp <? 10 then mp + 3 else mp - 9.
Definition mar_year (y m : Z) : Z := if m <=? 2 then y - 1 else y.
Definition doy_of (m d : Z) : Z := (153 * mp_of m + 2) / 5 + d - 1.

Lemma days_in_month_mar y m :
  days_in_month y m = if m =? 2 then 28 + Z.b2z (is_leap (mar_year y m + 1))
                      else days_in_month 1 m.
Proof.
  destruct (Z.eqb_spec m 2) as [-> | Hm].
  - change (mar_year y 2) with (y - 1). rewrite Z.sub_add.
    unfold days_in_month. by destruct (is_leap y).
  - destruct m as [| p | p]; try done. destruct p as [p | p |]; try done.
    by destruct p as [p | p |].
Qed.

Ltac month_cases m :=
  assert (m = 1 \/ m = 2 \/ m = 3 \/ m = 4 \/ m = 5 \/ m = 6 \/ m = 7 \/ m = 8 \/ m = 9
          \/ m = 10 \/ m = 11 \/ m = 12) as
    [-> | [-> | [-> | [-> | [-> | [-> | [-> | [-> | [-> | [-> | [-> | ->]]]]]]]]]]] by lia.

Lemma m_of_mp_of m : 1 <= m <= 12 -> m_of (mp_of m) = m.
Proof. intros. month_cases m; reflexivity. Qed.

Lemma doy_of_bounds y m d :
  1 <= m <= 12 -> 1 <= d <= days_in_month y m ->
  0 <= doy_of m d <= 364 + Z.b2z (is_leap (mar_year y m + 1))
  /\ (5 * doy_of m d + 2) / 153 = mp_of m /\ 0 <= mp_of m <= 11.
Proof.
  intros Hm. rewrite days_in_month_mar.
  pose proof (b2z_range (is_leap (mar_year y m + 1))) as Hb.
  set (l := Z.b2z _) in *. clearbody l. intros Hd. unfold doy_of.
  month_cases m; cbn in Hd |- *; revert Hd; unfold mp_of; z_eval; cbn [days_in_month]; div_lia.
Qed.

Lemma m_of_bounds y doy :
  0 <= doy <= 364 + Z.b2z (is_leap (y + 1)) ->
  let mp := (5 * doy + 2) / 153 in
  let m := m_of mp in
  let d := doy - (153 * mp + 2) / 5 + 1 in
  0 <= mp <= 11 /\ 1 <= m <= 12 /\ mp_of m = mp /\
  1 <= d <= days_in_month (if m <=? 2 then y + 1 else y) m.
Proof.
  intros Hd mp m d.
  assert (0 <= mp <= 11) as Hmp by (pose proof (b2z_range (is_leap (y + 1))); unfold mp; div_lia).
  assert (153 * mp <= 5 * doy + 2 < 153 * mp + 153) as Hq by (unfold mp; div_lia).
  clearbody mp. split; [done |].
  unfold d, m. clear d m.
  assert (mp = 0 \/ mp = 1 \/ mp = 2 \/ mp = 3 \/ mp = 4 \/ mp = 5 \/ mp = 6 \/ mp = 7 \/ mp = 8
          \/ mp = 9 \/ mp = 10 \/ mp = 11) as
    [-> | [-> | [-> | [-> | [-> | [-> | [-> | [-> | [-> | [-> | [-> | ->]]]]]]]]]]] by lia;
    unfold m_of; z_eval; unfold mp_of; z_eval; cbn [days_in_month]; try lia.
  destruct (is_leap (y + 1)); cbn in Hd; lia.
Qed.

(** Day number (0 for 1970-01-01) of a date, with flooring divisions. *)
Definition civil_days (y m d : Z) : Z :=
  mar_year y m / 400 * 146097 + doe_of (mar_year y m mod 400) (doy_of m d) - 719468.

Lemma posix_time_from_utc_eq y m d h mi s :
  posix_time_from_utc y m d h mi s =
  if is_valid_date y m d && is_valid_time h mi s
  then Some (civil_days y m d * 86400 + h * 3600 + mi * 60 + s) else None.
Proof.
  unfold posix_time_from_utc. rewrite <- negb_andb.
  destruct (is_valid_date y m d) eqn:E1, (is_valid_time h mi s) eqn:E2; try done. cbn [negb andb].
  apply is_valid_date_spec in E1. fold (mar_year y m) (mp_of m). f_equal.
  rewrite era_of_year. unfold civil_days, doe_of, doy_of.
  assert (0 <= mp_of m <= 11) as Hmp
    by (unfold mp_of; rewrite Z.gtb_ltb; destruct (Z.ltb_spec 2 m); lia).
  replace (mar_year y m - mar_year y m / 400 * 400) with (mar_year y m mod 400)
    by (rewrite Z.mod_eq by lia; lia).
  pose proof (Z.mod_pos_bound (mar_year y m) 400 ltac:(lia)).
  rewrite !Z.quot_div_nonneg by lia. reflexivity.
Qed.

(** The date of day number [D] (0 for 1 March 0000), with flooring divisions. *)
Definition days_civil (D : Z) : Z * Z * Z :=
  let yoe := yoe_of (D mod 146097) in
  let doy := D mod 146097 - (365 * yoe + yoe / 4 - yoe / 100) in
  let mp := (5 * doy + 2) / 153 in
  let y := yoe + D / 146097 * 400 in
  (if m_of mp <=? 2 then y + 1 else y, m_of mp, doy - (153 * mp + 2) / 5 + 1).

Lemma utc_from_posix_time_eq t :
  utc_from_posix_time t =
  if is_valid_posix_time t
  then let '(y, m, d) := days_civil (t / 86400 + 719468) in
       Some (y, m, d, t mod 86400 / 3600, t mod 86400 mod 3600 / 60, t mod 86400 mod 3600 mod 60)
  else None.
Proof.
  unfold utc_from_posix_time. destruct (is_valid_posix_time t); [cbn [negb] | done].
  change SECS_PER_DAY with 86400. change SECS_PER_HOUR with 3600.
  assert ((if Z.rem t 86400 <? 0 then (Z.quot t 86400 - 1, Z.rem t 86400 + 86400)
           else (Z.quot t 86400, Z.rem t 86400)) = (t / 86400, t mod 86400)) as ->.
  { destruct (Z.ltb_spec (Z.rem t 86400) 0); f_equal; div_lia. }
  cbv zeta. rewrite !era_of_days.
  set (D := t / 86400 + 719468).
  replace (D - D / 146097 * 146097) with (D mod 146097) by (rewrite Z.mod_eq by lia; lia).
  pose proof (Z.mod_pos_bound D 146097 ltac:(lia)) as Hdoe.
  pose proof (doe_of_yoe (D mod 146097) ltac:(lia)) as [Hyoe Hdoy].
  pose proof (b2z_range (mar_leap (yoe_of (D mod 146097)))).
  rewrite !(Z.quot_div_nonneg (D mod 146097)) by lia.
  rewrite (Z.quot_div_nonneg _ 365) by (lia || (Z.to_euclidean_division_equations; lia)).
  fold (yoe_of (D mod 146097)).
  rewrite !(Z.quot_div_nonneg (yoe_of (D mod 146097))) by lia.
  rewrite (Z.quot_div_nonneg _ 153) by lia.
  unfold days_civil. cbv zeta.
  set (mp := _ / 153). assert (0 <= mp) by (apply Z.div_pos; lia).
  rewrite (Z.quot_div_nonneg _ 5) by lia.
  pose proof (Z.mod_pos_bound t 86400 ltac:(lia)).
  rewrite (Z.quot_div_nonneg _ 3600), (Z.rem_mod_nonneg _ 3600) by lia.
  pose proof (Z.mod_pos_bound (t mod 86400) 3600 ltac:(lia)).
  rewrite (Z.quot_div_nonneg _ 60), (Z.rem_mod_nonneg _ 60) by lia.
  reflexivity.
Qed.

(** Dates and day numbers are in bijection. *)
Lemma days_civil_inv y m d :
  1 <= m <= 12 -> 1 <= d <= days_in_month y m ->
  days_civil (civil_days y m d + 719468) = (y, m, d).
Proof.
  intros Hm Hd. destruct (doy_of_bounds y m d Hm Hd) as (Hdoy & Hmp & Hmp').
  rewrite <- mar_leap_spec in Hdoy.
  pose proof (Z.mod_pos_bound (mar_year y m) 400 ltac:(lia)) as Hy.
  destruct (yoe_of_doe (mar_year y m mod 400) (doy_of m d) ltac:(lia) Hdoy) as [Hyoe Hdoe].
  unfold days_civil, civil_days. cbv zeta.
  set (doe := doe_of _ _) in *.
  replace ((mar_year y m / 400 * 146097 + doe - 719468 + 719468) mod 146097) with doe by div_lia.
  replace ((mar_year y m / 400 * 146097 + doe - 719468 + 719468) / 146097)
    with (mar_year y m / 400) by div_lia.
  rewrite Hyoe.
  replace (doe - (365 * (mar_year y m mod 400) + mar_year y m mod 400 / 4 - mar_year y m mod 400 / 100))
    with (doy_of m d) by (unfold doe, doe_of; lia).
  rewrite Hmp.
  rewrite m_of_mp_of by lia.
  replace (mar_year y m mod 400 + mar_year y m / 400 * 400) with (mar_year y m)
    by (rewrite Z.mod_eq by lia; lia).
  f_equal; [f_equal |]; [unfold mar_year; destruct (Z.leb_spec m 2); lia | unfold doy_of; lia].
Qed.

Lemma civil_days_inv D y m d :
  days_civil D = (y, m, d) ->
  1 <= m <= 12 /\ 1 <= d <= days_in_month y m /\ civil_days y m d = D - 719468.
Proof.
  unfold days_civil. cbv zeta.
  pose proof (Z.mod_pos_bound D 146097 ltac:(lia)) as Hdoe.
  destruct (doe_of_yoe (D mod 146097) ltac:(lia)) as [Hyoe Hdoy].
  set (yoe := yoe_of (D mod 146097)) in *.
  set (doy := D mod 146097 - _) in *.
  assert (mar_leap yoe = is_leap (yoe + D / 146097 * 400 + 1)) as Hl.
  { rewrite <- mar_leap_spec. f_equal. rewrite Z.mod_add, Z.mod_small; lia. }
  rewrite Hl in Hdoy.
  destruct (m_of_bounds _ doy Hdoy) as (Hmp & Hm & Hmm & Hd).
  set (mp := (5 * doy + 2) / 153) in *. set (yr := yoe + D / 146097 * 400) in *.
  intros [= <- <- <-]. split_and!; try lia.
  unfold civil_days.
  assert (mar_year (if m_of mp <=? 2 then yr + 1 else yr) (m_of mp) = yr) as ->.
  { unfold mar_year. destruct (m_of mp <=? 2); lia. }
  unfold yr. rewrite Z.mod_add, Z.div_add, (Z.mod_small yoe), (Z.div_small yoe) by lia.
  unfold doy_of. rewrite Hmm. unfold doe_of.
  transitivity (D / 146097 * 146097 + D mod 146097 - 719468); [unfold doy; lia |].
  rewrite (Z.mod_eq D) by lia. lia.
Qed.

Lemma civil_days_range y m d :
  1 <= m <= 12 -> 1 <= d <= days_in_month y m ->
  (0 <= y <= 9999 <-> -719528 <= civil_days y m d <= 2932896).
Proof.
  intros Hm Hd. destruct (doy_of_bounds y m d Hm Hd) as (Hdoy & Hmp & Hmp').
  rewrite <- mar_leap_spec in Hdoy.
  pose proof (Z.mod_pos_bound (mar_year y m) 400 ltac:(lia)) as Hy.
  destruct (yoe_of_doe (mar_year y m mod 400) (doy_of m d) ltac:(lia) Hdoy) as [_ Hdoe].
  unfold civil_days.
  assert (m <= 2 -> 306 <= doy_of m d).
  { intros. unfold doy_of, mp_of. replace (m >? 2) with false by lia. div_lia. }
  assert (2 < m -> doy_of m d <= 305).
  { clear -Hm Hd. intros. unfold doy_of. rewrite days_in_month_mar in Hd.
    month_cases m; try lia; unfold mp_of; z_eval; cbn in Hd; div_lia. }
  unfold mar_year in *. destruct (Z.leb_spec m 2); unfold doe_of in *; div_lia.
Qed.

Lemma days_in_month_le y m : days_in_month y m <= 31.
Proof. unfold days_in_month. repeat case_match; lia. Qed.

Lemma is_valid_time_spec h mi s :
  is_valid_time h mi s = true <-> 0 <= h <= 23 /\ 0 <= mi <= 59 /\ 0 <= s <= 59.
Proof.
  unfold is_valid_time.
  destruct ((h <? 0) || (mi <? 0) || (s <? 0) || (h >? 23) || (mi >? 59) || (s >? 59)) eqn:E;
    lia.
Qed.

(** What [posix_time_from_utc] accepts and computes. *)
Lemma posix_time_from_utc_Some y m d h mi s t :
  posix_time_from_utc y m d h mi s = Some t <->
  0 <= y <= 9999 /\ 1 <= m <= 12 /\ 1 <= d <= days_in_month y m
  /\ (0 <= h <= 23 /\ 0 <= mi <= 59 /\ 0 <= s <= 59)
  /\ t = civil_days y m d * 86400 + h * 3600 + mi * 60 + s.
Proof.
  rewrite posix_time_from_utc_eq, <- is_valid_time_spec.
  pose proof (is_valid_date_spec y m d) as Hv.
  destruct (is_valid_date y m d), (is_valid_time h mi s); cbn [andb]; split;
    try discriminate; try (intros (? & ? & ? & ? & ->); tauto || (exfalso; intuition discriminate)).
  intros [= <-]. tauto.
Qed.

(** A valid time is in [int64_t] range with room for any [int] day offset. *)
Lemma posix_time_from_utc_range y m d h mi s t :
  posix_time_from_utc y m d h mi s = Some t -> MIN_POSIX_TIME <= t <= MAX_POSIX_TIME.
Proof.
  intros (Hy & Hm & Hd & Ht & ->)%posix_time_from_utc_Some.
  apply (civil_days_range y m d Hm Hd) in Hy.
  unfold MIN_POSIX_TIME, MAX_POSIX_TIME. lia.
Qed.

Lemma utc_from_posix_time_Some y m d h mi s t :
  utc_from_posix_time t = Some (y, m, d, h, mi, s) <->
  posix_time_from_utc y m d h mi s = Some t.
Proof.
  rewrite utc_from_posix_time_eq, posix_time_from_utc_Some. split.
  - destruct (is_valid_posix_time t) eqn:Hv; [| done].
    destruct (days_civil (t / 86400 + 719468)) as [[y' m'] d'] eqn:E.
    intros [= -> -> -> <- <- <-].
    apply civil_days_inv in E as (Hm & Hd & Hc).
    pose proof (civil_days_range y m d Hm Hd) as Hr.
    unfold is_valid_posix_time, MIN_POSIX_TIME, MAX_POSIX_TIME in Hv.
    rewrite Hc in Hr |- *. clear Hc.
    split_and!; try lia; div_lia.
  - intros (Hy & Hm & Hd & Ht & ->).
    pose proof (proj1 (civil_days_range y m d Hm Hd) Hy) as Hr.
    replace (is_valid_posix_time _) with true.
    2: { unfold is_valid_posix_time, MIN_POSIX_TIME, MAX_POSIX_TIME. lia. }
    set (c := civil_days y m d) in *.
    replace ((c * 86400 + h * 3600 + mi * 60 + s) / 86400) with c by div_lia.
    unfold c at 1. rewrite days_civil_inv by done.
    replace ((c * 86400 + h * 3600 + mi * 60 + s) mod 86400) with (h * 3600 + mi * 60 + s) by div_lia.
    repeat f_equal; div_lia.
Qed.

Lemma posix_to_tm_Some t time :
  OPENSSL_posix_to_tm time = Some t <-> OPENSSL_tm_to_posix t = Some time.
Proof.
  unfold OPENSSL_posix_to_tm, OPENSSL_tm_to_posix. rewrite <- utc_from_posix_time_Some.
  destruct t as [y m d h mi s]; cbn.
  destruct (utc_from_posix_time time) as [[[[[[y' m'] d'] h'] mi'] s'] |].
  - split; [intros [= <- <- <- <- <- <-] | intros [= -> -> -> -> -> ->]]; repeat f_equal; lia.
  - split; discriminate.
Qed.

Lemma gmtime_adj_no_overflow t od os p :
  OPENSSL_tm_to_posix t = Some p -> - 2 ^ 31 <= od < 2 ^ 31 ->
  INT64_MIN <= os <= INT64_MAX ->
  OPENSSL_gmtime_adj t od os = OPENSSL_posix_to_tm (p + od * SECS_PER_DAY + os).
Proof.
  intros Hp Hod Hos. unfold OPENSSL_gmtime_adj. rewrite Hp.
  apply posix_time_from_utc_range in Hp. unfold MIN_POSIX_TIME, MAX_POSIX_TIME in Hp.
  change SECS_PER_DAY with 86400. unfold INT64_MIN, INT64_MAX in *.
  assert (forall q, q < MIN_POSIX_TIME \/ MAX_POSIX_TIME < q -> OPENSSL_posix_to_tm q = None) as Hout.
  { intros q Hq. unfold OPENSSL_posix_to_tm. rewrite utc_from_posix_time_eq.
    replace (is_valid_posix_time q) with false by (unfold is_valid_posix_time; lia). done. }
  unfold MIN_POSIX_TIME, MAX_POSIX_TIME in Hout.
  destruct (_ && _) eqn:E1; [symmetry; apply Hout; lia |].
  destruct ((_ <? 0) && _) eqn:E2; [symmetry; apply Hout; lia | done].
Qed.

Lemma civil_days_next_year y : civil_days y 2 (days_in_month y 2) + 1 = civil_days y 3 1.
Proof.
  unfold civil_days, doy_of, doe_of. change (mar_year y 2) with (y - 1). change (mar_year y 3) with y.
  unfold mp_of. z_eval. cbn [days_in_month]. unfold is_leap.
  destruct (Z.eqb_spec (y mod 4) 0), (Z.eqb_spec (y mod 100) 0), (Z.eqb_spec (y mod 400) 0);
    cbn [andb orb negb]; div_lia.
Qed.

Lemma next_day_spec y m d y' m' d' :
  1 <= m <= 12 -> 1 <= d <= days_in_month y m -> next_day y m d = (y', m', d') ->
  1 <= m' <= 12 /\ 1 <= d' <= days_in_month y' m' /\ y <= y'
  /\ civil_days y' m' d' = civil_days y m d + 1.
Proof.
  intros Hm Hd. unfold next_day.
  destruct (Z.ltb_spec d (days_in_month y m)) as [Hlt | Hge].
  { intros [= <- <- <-]. split_and!; try lia. unfold civil_days, doe_of, doy_of. lia. }
  assert (d = days_in_month y m) as -> by lia.
  assert (forall y m, 1 <= days_in_month y m) as Hpos.
  { intros. rewrite days_in_month_mar. destruct (_ =? 2).
    - pose proof (b2z_range (is_leap (mar_year y0 m0 + 1))). lia.
    - unfold days_in_month. repeat case_match; lia. }
  destruct (decide (m = 2)) as [-> | Hm2].
  { intros [= <- <- <-]. split_and!; try lia; [apply Hpos | symmetry; apply civil_days_next_year]. }
  rewrite (days_in_month_mar y m), (proj2 (Z.eqb_neq m 2) Hm2). clear Hge Hd.
  destruct (Z.ltb_spec m 12); intros [= <- <- <-]; split_and!; try lia; try apply Hpos;
    unfold civil_days, doe_of, doy_of, mar_year, mp_of;
    month_cases m; try lia; z_eval; cbn [days_in_month]; try rewrite Z.add_simpl_r; div_lia.
Qed.

(** * Properties *)

(** C4: [posix_time_from_utc] and [utc_from_posix_time] are inverse to each other:
    a broken-down UTC time converts to [t] exactly when [t] converts back to that
    very time, so on years 0000 to 9999 the two routines are a bijection between
    valid dates and [MIN_POSIX_TIME .. MAX_POSIX_TIME], and both reject everything
    else. *)
Theorem posix_utc_bijection y m d h mi s t :
  posix_time_from_utc y m d h mi s = Some t <->
  utc_from_posix_time t = Some (y, m, d, h, mi, s).
Proof. symmetry. apply utc_from_posix_time_Some. Qed.

(** The closed-form day arithmetic agrees with the Gregorian calendar: 1970-01-01
    00:00:00 is time 0, and the same time of the calendar's next day is exactly
    86400 seconds later, or rejected when that day is beyond year 9999. *)
Theorem posix_time_calendar :
  posix_time_from_utc 1970 1 1 0 0 0 = Some 0 /\
  forall y m d h mi s t y' m' d',
    posix_time_from_utc y m d h mi s = Some t ->
    next_day y m d = (y', m', d') ->
    posix_time_from_utc y' m' d' h mi s = if y' <=? 9999 then Some (t + 86400) else None.
Proof.
  split; [reflexivity |]. intros * (Hy & Hm & Hd & Ht & ->)%posix_time_from_utc_Some Hn.
  assert (1 <= m' <= 12 /\ 1 <= d' <= days_in_month y' m' /\ y <= y'
          /\ civil_days y' m' d' = civil_days y m d + 1) as (Hm' & Hd' & Hy' & Hc).
  { apply next_day_spec; auto. }
  destruct (Z.leb_spec y' 9999) as [Hle | Hgt].
  - apply posix_time_from_utc_Some. split_and!; lia.
  - destruct (posix_time_from_utc y' m' d' h mi s) eqn:E; [| done].
    apply posix_time_from_utc_Some in E. lia.
Qed.

Lemma posix_time_calendar_witness :
  posix_time_from_utc 2000 2 28 23 59 59 = Some 951782399 /\
  posix_time_from_utc 2000 2 29 23 59 59 = Some (951782399 + 86400).
Proof.
  split; [reflexivity |].
  apply (proj2 posix_time_calendar 2000 2 28 23 59 59 951782399 2000 2 29); reflexivity.
Defined.

(** [OPENSSL_gmtime_adj] moves a time by any [int] number of days and any [int64_t]
    number of seconds: it yields [t'] exactly when the exact, unbounded sum of the
    POSIX times is the POSIX time of [t'].  Its overflow guards never reject a
    representable result and never let a wrapped sum through. *)
Theorem gmtime_adj_correct t od os t' :
  - 2 ^ 31 <= od < 2 ^ 31 -> INT64_MIN <= os <= INT64_MAX ->
  OPENSSL_gmtime_adj t od os = Some t' <->
  exists p, OPENSSL_tm_to_posix t = Some p /\
            OPENSSL_tm_to_posix t' = Some (p + od * SECS_PER_DAY + os).
Proof.
  intros Hod Hos. destruct (OPENSSL_tm_to_posix t) as [p |] eqn:Hp.
  - rewrite (gmtime_adj_no_overflow t od os p), posix_to_tm_Some by done. naive_solver.
  - unfold OPENSSL_gmtime_adj. rewrite Hp. naive_solver.
Qed.

Lemma gmtime_adj_correct_witness :
  OPENSSL_gmtime_adj (mk_tm 99 11 31 23 59 59) 0 1 = Some (mk_tm 100 0 1 0 0 0).
Proof.
  apply (gmtime_adj_correct (mk_tm 99 11 31 23 59 59) 0 1 (mk_tm 100 0 1 0 0 0));
    [unfold INT64_MIN; lia | unfold INT64_MIN, INT64_MAX; lia |].
  exists 946684799. split; reflexivity.
Defined.

(** [OPENSSL_gmtime_diff] is inverted by [OPENSSL_gmtime_adj]: adding the reported
    days and seconds to [from] gives back [to]; the seconds are less than a day in
    magnitude and never of the opposite sign to the days. *)
Theorem gmtime_diff_adj from to days secs :
  OPENSSL_gmtime_diff from to = Some (days, secs) ->
  OPENSSL_gmtime_adj from days secs = Some to
  /\ Z.abs secs < SECS_PER_DAY /\ 0 <= days * secs.
Proof.
  unfold OPENSSL_gmtime_diff.
  destruct (OPENSSL_tm_to_posix to) as [b |] eqn:Hb; [| done].
  destruct (OPENSSL_tm_to_posix from) as [a |] eqn:Ha; [| done].
  pose proof (posix_time_from_utc_range _ _ _ _ _ _ _ Ha) as Hra.
  pose proof (posix_time_from_utc_range _ _ _ _ _ _ _ Hb) as Hrb.
  unfold MIN_POSIX_TIME, MAX_POSIX_TIME in *. change SECS_PER_DAY with 86400.
  intros [= <- <-]. split.
  - rewrite (gmtime_adj_no_overflow from _ _ a); auto;
      try (unfold INT64_MIN, INT64_MAX; div_lia).
    apply posix_to_tm_Some. rewrite Hb. f_equal. change SECS_PER_DAY with 86400. div_lia.
  - split; [div_lia |].
    pose proof (Z.quot_rem' (b - a) 86400). pose proof (Z.rem_bound_abs (b - a) 86400).
    destruct (Z_le_gt_dec 0 (b - a)).
    + apply Z.mul_nonneg_nonneg; div_lia.
    + apply Z.mul_nonpos_nonpos; div_lia.
Qed.

Lemma gmtime_diff_adj_witness :
  OPENSSL_gmtime_diff (mk_tm 100 0 1 0 0 0) (mk_tm 99 11 31 12 0 0) = Some (0, -43200) /\
  OPENSSL_gmtime_adj (mk_tm 100 0 1 0 0 0) 0 (-43200) = Some (mk_tm 99 11 31 12 0 0).
Proof.
  split; [reflexivity |].
  apply (gmtime_diff_adj (mk_tm 100 0 1 0 0 0) (mk_tm 99 11 31 12 0 0)). reflexivity.
Defined.

End PosixTime.
