(* ===== verification/Cbs.v ===== *)
(** CBS, the bounds-checked byte-string reader (crypto/bytestring/cbs.c).

    A [CBS] is the string of [len] bytes its [data] pointer designates; the memory
    is never written through it, so a CBS is that list of bytes.  (That the pointer and
    the length never leave the memory is the subject of [CbsMem].)  A C function
    [int f(CBS *cbs, T *out)] is a [parser T]: it returns the value written to
    [*out], or [None] for the return value 0, together with the new [*cbs], which
    a failing call may have advanced.  Out parameters of failing calls are
    unspecified by the API and not modelled. *)

From S2P Require Import Prelude Internal PosixTime.
Import Internal.

(** * The reader monad *)

Abbreviation CBS := bytes.
Definition parser (A : Type) : Type := CBS -> option A * CBS.

Definition p_ret {A} (a : A) : parser A := fun cbs => (Some a, cbs).
Definition p_fail {A} : parser A := fun cbs => (None, cbs).
Definition p_bind {A B} (m : parser A) (k : A -> parser B) : parser B :=
  fun cbs => match m cbs with
             | (Some a, cbs') => k a cbs'
             | (None, cbs') => (None, cbs')
             end.
Definition p_guard (b : bool) : parser unit := if b then p_ret tt else p_fail.

Notation "'let!' x := m 'in' k" := (p_bind m (fun x => k))
  (at level 10, x name, m at level 100, k at level 200) : c_scope.
Notation "'check' b ';;' k" := (p_bind (p_guard b) (fun _ => k))
  (at level 10, b at level 99, k at level 200) : c_scope.
Local Open Scope c_scope.

Module Cbs.

(** * Tags *)

Definition CBS_ASN1_TAG_SHIFT : Z := 24.
Definition CBS_ASN1_CONSTRUCTED : Z := Z.shiftl 0x20 CBS_ASN1_TAG_SHIFT.
Definition CBS_ASN1_TAG_NUMBER_MASK : Z := Z.shiftl 1 (5 + CBS_ASN1_TAG_SHIFT) - 1.
Definition CBS_ASN1_BOOLEAN : Z := 0x1.
Definition CBS_ASN1_INTEGER : Z := 0x2.
Definition CBS_ASN1_OCTETSTRING : Z := 0x4.
Definition UINT64_MAX : Z := 2 ^ 64 - 1.

(** * Bytes and fixed-width integers *)

Definition CBS_init (data : bytes) (n : Z) : CBS := take (Z.to_nat n) data.

Definition cbs_get (n : Z) : parser bytes := fun cbs =>
  if len cbs <? n then (None, cbs)
  else (Some (take (Z.to_nat n) cbs), drop (Z.to_nat n) cbs).

Definition CBS_skip (n : Z) : parser unit := let! _ := cbs_get n in p_ret tt.

Definition CBS_contains_zero_byte (cbs : CBS) : bool := existsb (Z.eqb 0) cbs.

Definition CBS_mem_equal (cbs : CBS) (data : bytes) : bool :=
  if negb (len data =? len cbs) then false else CRYPTO_memcmp cbs data =? 0.

(** [result <<= 8; result |= data[i]] on a [uint64_t]. *)
Definition cbs_get_u (n : Z) : parser Z :=
  let! data := cbs_get n in
  p_ret (foldl (fun result b => Z.lor (u64 (Z.shiftl result 8)) b) 0 data).

Definition CBS_get_u8 : parser Z := fun cbs =>
  match cbs with
  | [] => (None, cbs)
  | v :: rest => (Some v, rest)
  end.

Definition CBS_get_u16 : parser Z := let! v := cbs_get_u 2 in p_ret (u16 v).
Definition CBS_get_u16le : parser Z := let! v := CBS_get_u16 in p_ret (CRYPTO_bswap2 v).
Definition CBS_get_u24 : parser Z := let! v := cbs_get_u 3 in p_ret (u32 v).
Definition CBS_get_u32 : parser Z := let! v := cbs_get_u 4 in p_ret (u32 v).
Definition CBS_get_u32le : parser Z := let! v := CBS_get_u32 in p_ret (CRYPTO_bswap4 v).
Definition CBS_get_u64 : parser Z := cbs_get_u 8.
Definition CBS_get_u64le : parser Z := let! v := cbs_get_u 8 in p_ret (CRYPTO_bswap8 v).

Definition CBS_get_last_u8 : parser Z := fun cbs =>
  match list.last cbs with
  | None => (None, cbs)
  | Some v => (Some v, take (length cbs - 1) cbs)
  end.

Definition CBS_get_bytes (n : Z) : parser CBS :=
  let! v := cbs_get n in p_ret (CBS_init v n).

Definition CBS_copy_bytes (n : Z) : parser bytes := cbs_get n.

Definition cbs_get_length_prefixed (len_len : Z) : parser CBS :=
  let! n := cbs_get_u len_len in CBS_get_bytes n.

Definition CBS_get_u8_length_prefixed : parser CBS := cbs_get_length_prefixed 1.
Definition CBS_get_u16_length_prefixed : parser CBS := cbs_get_length_prefixed 2.
Definition CBS_get_u24_length_prefixed : parser CBS := cbs_get_length_prefixed 3.

Definition CBS_get_until_first (c : Z) : parser CBS := fun cbs =>
  match OPENSSL_memchr cbs c with
  | None => (None, cbs)
  | Some split => CBS_get_bytes split cbs
  end.

(** The loop of [CBS_get_u64_decimal], with its locals [v] and [seen_digit]. *)
Fixpoint decimal_loop (v : Z) (seen_digit : bool) (cbs : CBS) : option Z * CBS :=
  let done := (if seen_digit then Some v else None, cbs) in
  match cbs with
  | [] => done
  | c :: rest =>
      if negb (OPENSSL_isdigit c) then done
      else if ((v =? 0) && seen_digit) || (v >? UINT64_MAX / 10)
              || (u64 (v * 10) >? UINT64_MAX - (c - 48))
      then (None, rest)
      else decimal_loop (u64 (v * 10 + (c - 48))) true rest
  end.

Definition CBS_get_u64_decimal : parser Z := decimal_loop 0 false.

(** * ASN.1 tags and elements *)

Fixpoint base128_loop (v : Z) (cbs : CBS) : option Z * CBS :=
  match cbs with
  | [] => (None, cbs)
  | b :: rest =>
      if negb (Z.shiftr v (64 - 7) =? 0) then (None, rest)
      else if (v =? 0) && (b =? 0x80) then (None, rest)
      else let v := Z.lor (u64 (Z.shiftl v 7)) (Z.land b 0x7f) in
           if negb (Z.land b 0x80 =? 0) then base128_loop v rest else (Some v, rest)
  end.

Definition parse_base128_integer : parser Z := base128_loop 0.

Definition parse_asn1_tag (universal_tag_ok : bool) : parser Z :=
  let! tag_byte := CBS_get_u8 in
  let tag := Z.shiftl (Z.land tag_byte 0xe0) CBS_ASN1_TAG_SHIFT in
  let tag_number := Z.land tag_byte 0x1f in
  let! tag_number :=
    (if tag_number =? 0x1f then
       let! v := parse_base128_integer in
       check negb ((v >? CBS_ASN1_TAG_NUMBER_MASK) || (v <? 0x1f)) ;;
       p_ret v
     else p_ret tag_number) in
  let tag := Z.lor tag tag_number in
  check negb (negb universal_tag_ok && (Z.land tag (wnot 32 CBS_ASN1_CONSTRUCTED) =? 0)) ;;
  p_ret tag.

(** The out parameters of [cbs_get_any_asn1_element]. *)
Record asn1_element := mk_element {
  el_out : CBS; el_tag : Z; el_header_len : Z; el_ber_found : bool; el_indefinite : bool
}.

(** [header] is the C function's working copy of [*cbs]; a failure before the final
    [CBS_get_bytes] leaves [*cbs] as it was. *)
Definition cbs_get_any_asn1_element (ber_ok universal_tag_ok : bool) : parser asn1_element :=
  fun cbs =>
  match parse_asn1_tag universal_tag_ok cbs with
  | (None, _) => (None, cbs)
  | (Some tag, header) =>
  match CBS_get_u8 header with
  | (None, _) => (None, cbs)
  | (Some length_byte, header) =>
  let header_len := len cbs - len header in
  if Z.land length_byte 0x80 =? 0 then
    (let! out := CBS_get_bytes (length_byte + header_len) in
     p_ret (mk_element out tag header_len false false)) cbs
  else
  let num_bytes := Z.land length_byte 0x7f in
  if ber_ok && negb (Z.land tag CBS_ASN1_CONSTRUCTED =? 0) && (num_bytes =? 0) then
    (let! out := CBS_get_bytes header_len in
     p_ret (mk_element out tag header_len true true)) cbs
  else if (num_bytes =? 0) || (num_bytes >? 4) then (None, cbs)
  else
  match cbs_get_u num_bytes header with
  | (None, _) => (None, cbs)
  | (Some len64, _) =>
  let long_form_bad := len64 <? 128 in
  let not_minimal := Z.shiftr len64 ((num_bytes - 1) * 8) =? 0 in
  if negb ber_ok && (long_form_bad || not_minimal) then (None, cbs)
  else if u64 (len64 + header_len + num_bytes) <? len64 then (None, cbs)
  else
    (let! out := CBS_get_bytes (u64 (len64 + header_len + num_bytes)) in
     p_ret (mk_element out tag (header_len + num_bytes) (long_form_bad || not_minimal) false)) cbs
  end end end.

Definition CBS_get_any_asn1_element : parser asn1_element := cbs_get_any_asn1_element false false.
Definition CBS_get_any_ber_asn1_element : parser asn1_element := cbs_get_any_asn1_element true false.

(** [CBS_skip(out, n)] on a sub-string just obtained. *)
Definition skip_out (out : CBS) (n : Z) : parser CBS := fun cbs =>
  match CBS_skip n out with
  | (Some _, out') => (Some out', cbs)
  | (None, _) => (None, cbs)
  end.

Definition CBS_get_any_asn1 : parser (CBS * Z) :=
  let! e := CBS_get_any_asn1_element in
  let! out := skip_out (el_out e) (el_header_len e) in
  p_ret (out, el_tag e).

Definition cbs_get_asn1 (tag_value : Z) (skip_header : bool) : parser CBS :=
  let! e := CBS_get_any_asn1_element in
  check (el_tag e =? tag_value) ;;
  if skip_header then skip_out (el_out e) (el_header_len e) else p_ret (el_out e).

Definition CBS_get_asn1 (tag_value : Z) : parser CBS := cbs_get_asn1 tag_value true.
Definition CBS_get_asn1_element (tag_value : Z) : parser CBS := cbs_get_asn1 tag_value false.

Definition CBS_peek_asn1_tag (cbs : CBS) (tag_value : Z) : bool :=
  match parse_asn1_tag false cbs with
  | (Some actual_tag, _) => tag_value =? actual_tag
  | (None, _) => false
  end.

(** * ASN.1 types *)

Definition CBS_is_valid_asn1_integer (cbs : CBS) : option bool :=
  match cbs with
  | [] => None
  | first_byte :: copy =>
      let is_negative := negb (Z.land first_byte 0x80 =? 0) in
      match copy with
      | [] => Some is_negative
      | second_byte :: _ =>
          if ((first_byte =? 0x00) && (Z.land second_byte 0x80 =? 0))
             || ((first_byte =? 0xff) && negb (Z.land second_byte 0x80 =? 0))
          then None else Some is_negative
      end
  end.

Definition CBS_is_unsigned_asn1_integer (cbs : CBS) : bool :=
  match CBS_is_valid_asn1_integer cbs with
  | Some is_negative => negb is_negative
  | None => false
  end.

(** The loop of [CBS_get_asn1_uint64]. *)
Fixpoint uint64_loop (out : Z) (data : bytes) : option Z :=
  match data with
  | [] => Some out
  | b :: rest =>
      if negb (Z.shiftr out 56 =? 0) then None
      else uint64_loop (Z.lor (u64 (Z.shiftl out 8)) b) rest
  end.

Definition p_option {A} (o : option A) : parser A := fun cbs => (o, cbs).

Definition CBS_get_asn1_uint64 : parser Z :=
  let! bytes := CBS_get_asn1 CBS_ASN1_INTEGER in
  check CBS_is_unsigned_asn1_integer bytes ;;
  p_option (uint64_loop 0 bytes).

(** The little-endian bytes of an [int64_t] on a little-endian host. *)
Definition int64_of_le_bytes (bs : bytes) : Z := to_signed 64 (be_value (reverse bs)).

Definition CBS_get_asn1_int64 : parser Z :=
  let! data := CBS_get_asn1 CBS_ASN1_INTEGER in
  let! is_negative := p_option (CBS_is_valid_asn1_integer data) in
  check negb (len data >? 8) ;;
  let n := length data in
  let sign_extend := replicate 8 (if is_negative : bool then 0xff else 0) in
  let sign_extend :=
    foldl (fun arr i => <[i := data !!! (n - i - 1)%nat]> arr) sign_extend (seq 0 n) in
  p_ret (int64_of_le_bytes sign_extend).

Definition CBS_get_asn1_bool : parser bool :=
  let! bytes := CBS_get_asn1 CBS_ASN1_BOOLEAN in
  match bytes with
  | [value] => check negb (negb (value =? 0) && negb (value =? 0xff)) ;; p_ret (negb (value =? 0))
  | _ => p_fail
  end.

Definition CBS_get_optional_asn1 (tag : Z) : parser (option CBS) := fun cbs =>
  if CBS_peek_asn1_tag cbs tag then (let! out := CBS_get_asn1 tag in p_ret (Some out)) cbs
  else (Some None, cbs).

(** Runs [m] on the whole of the sub-string [child]. *)
Definition p_whole {A} (m : parser A) (child : CBS) : parser A := fun cbs =>
  match m child with
  | (Some a, rest) => if len rest =? 0 then (Some a, cbs) else (None, cbs)
  | (None, _) => (None, cbs)
  end.

(** [Some out] when present, [None] (an empty [out], [out_present] 0) when absent. *)
Definition CBS_get_optional_asn1_octet_string (tag : Z) : parser (option CBS) :=
  let! child := CBS_get_optional_asn1 tag in
  match child with
  | Some child => let! out := p_whole (CBS_get_asn1 CBS_ASN1_OCTETSTRING) child in p_ret (Some out)
  | None => p_ret None
  end.

Definition CBS_get_optional_asn1_uint64 (tag default_value : Z) : parser Z :=
  let! child := CBS_get_optional_asn1 tag in
  match child with
  | Some child => p_whole CBS_get_asn1_uint64 child
  | None => p_ret default_value
  end.

Definition CBS_get_optional_asn1_int64 (tag default_value : Z) : parser Z :=
  let! child := CBS_get_optional_asn1 tag in
  match child with
  | Some child => p_whole CBS_get_asn1_int64 child
  | None => p_ret default_value
  end.

Definition CBS_get_optional_asn1_bool (tag : Z) (default_value : bool) : parser bool :=
  let! child := CBS_get_optional_asn1 tag in
  match child with
  | Some child =>
      let! child2 := p_whole (CBS_get_asn1 CBS_ASN1_BOOLEAN) child in
      match child2 with
      | [boolean] => if boolean =? 0 then p_ret false
                     else if boolean =? 0xff then p_ret true else p_fail
      | _ => p_fail
      end
  | None => p_ret default_value
  end.

Definition CBS_is_valid_asn1_bitstring (cbs : CBS) : bool :=
  match CBS_get_u8 cbs with
  | (None, _) => false
  | (Some num_unused_bits, in_) =>
      if num_unused_bits >? 7 then false
      else if num_unused_bits =? 0 then true
      else match CBS_get_last_u8 in_ with
           | (None, _) => false
           | (Some last, _) => Z.land last (Z.shiftl 1 num_unused_bits - 1) =? 0
           end
  end.

Definition CBS_asn1_bitstring_has_bit (cbs : CBS) (bit : Z) : bool :=
  if negb (CBS_is_valid_asn1_bitstring cbs) then false
  else let byte_num := Z.shiftr bit 3 + 1 in
       let bit_num := 7 - Z.land bit 7 in
       (byte_num <? len cbs)
       && negb (Z.land (cbs !!! Z.to_nat byte_num) (Z.shiftl 1 bit_num) =? 0).

Fixpoint oid_loop (prev : Z) (copy : CBS) : bool :=
  match copy with
  | [] => Z.land prev 0x80 =? 0
  | v :: rest => if (Z.land prev 0x80 =? 0) && (v =? 0x80) then false else oid_loop v rest
  end.

Definition CBS_is_valid_asn1_oid (cbs : CBS) : bool :=
  if len cbs =? 0 then false else oid_loop 0 cbs.

(** * Times *)

Definition cbs_get_two_digits : parser Z :=
  let! first_digit := CBS_get_u8 in
  check OPENSSL_isdigit first_digit ;;
  let! second_digit := CBS_get_u8 in
  check OPENSSL_isdigit second_digit ;;
  p_ret ((first_digit - 48) * 10 + (second_digit - 48)).

Definition is_valid_day (year month day : Z) : bool :=
  if day <? 1 then false
  else match month with
       | 1 | 3 | 5 | 7 | 8 | 10 | 12 => day <=? 31
       | 4 | 6 | 9 | 11 => day <=? 30
       | 2 => if ((Z.rem year 4 =? 0) && negb (Z.rem year 100 =? 0)) || (Z.rem year 400 =? 0)
              then day <=? 29 else day <=? 28
       | _ => false
       end.

(** The year of a GeneralizedTime or UTCTime. *)
Definition parse_year (is_gentime : bool) : parser Z :=
  if is_gentime then
    let! century := cbs_get_two_digits in
    let! tmp := cbs_get_two_digits in
    p_ret (century * 100 + tmp)
  else
    let! tmp := cbs_get_two_digits in
    let year := 1900 + tmp in
    let year := if year <? 1950 then year + 100 else year in
    check negb (year >=? 2050) ;;
    p_ret year.

(** The time zone offset in seconds after the designator [tz]. *)
Definition parse_offset (allow_timezone_offset : bool) (tz : Z) : parser Z :=
  if tz =? 90 then p_ret 0
  else if (tz =? 43) || (tz =? 45) then
    let offset_sign := if tz =? 43 then 1 else -1 in
    check allow_timezone_offset ;;
    let! offset_hours := cbs_get_two_digits in
    check negb (offset_hours >? 23) ;;
    let! offset_minutes := cbs_get_two_digits in
    check negb (offset_minutes >? 59) ;;
    p_ret (offset_sign * (offset_hours * 3600 + offset_minutes * 60))
  else p_fail.

Definition rfc5280_time (is_gentime allow_timezone_offset : bool) : parser PosixTime.tm :=
  let! year := parse_year is_gentime in
  let! month := cbs_get_two_digits in
  check negb ((month <? 1) || (month >? 12)) ;;
  let! day := cbs_get_two_digits in
  check is_valid_day year month day ;;
  let! hour := cbs_get_two_digits in
  check negb (hour >? 23) ;;
  let! min := cbs_get_two_digits in
  check negb (min >? 59) ;;
  let! sec := cbs_get_two_digits in
  check negb (sec >? 59) ;;
  let! tz := CBS_get_u8 in
  let! offset_seconds := parse_offset allow_timezone_offset tz in
  let! rest := (fun cbs => (Some cbs, cbs)) in
  check (len rest =? 0) ;;
  let out_tm := PosixTime.mk_tm (year - 1900) (month - 1) day hour min sec in
  if negb (offset_seconds =? 0)
  then p_option (PosixTime.OPENSSL_gmtime_adj out_tm 0 offset_seconds)
  else p_ret out_tm.

(** With a non-NULL [out_tm]; the C function parses a copy of [*cbs]. *)
Definition CBS_parse_rfc5280_time_internal (cbs : CBS) (is_gentime allow_timezone_offset : bool)
    : option PosixTime.tm :=
  fst (rfc5280_time is_gentime allow_timezone_offset cbs).

Definition CBS_parse_generalized_time (cbs : CBS) (allow_timezone_offset : bool) :=
  CBS_parse_rfc5280_time_internal cbs true allow_timezone_offset.

Definition CBS_parse_utc_time (cbs : CBS) (allow_timezone_offset : bool) :=
  CBS_parse_rfc5280_time_internal cbs false allow_timezone_offset.

End Cbs.
