(* ===== verification/Der.v ===== *)
(** The DER grammar and the CBS parsers of crypto/bytestring/cbs.c.

    [der_element] is the X.690 definite-length, minimal encoding of one element, as a
    plain printer.  The theorems say that the ASN.1 readers of [Cbs] accept exactly the
    image of that printer, so they decode it (round trip) and accept nothing else
    (canonicity). *)

From S2P Require Import Prelude Internal Cbs.
Import Internal Cbs.

Module Der.

(** * The grammar *)

(** The continuation octets of a base-128 number, most significant group first, with
    no leading zero group; ten groups hold any 64-bit number. *)
Fixpoint base128_hi (fuel : nat) (v : Z) : bytes :=
  match fuel with
  | O => []
  | S fuel => if v =? 0 then [] else base128_hi fuel (v / 128) ++ [128 + v mod 128]
  end.

Definition base128 (v : Z) : bytes := base128_hi 10 (v / 128) ++ [v mod 128].

(** Identifier octets: three class/constructed bits and the number, or 31 followed by
    the number in base 128. *)
Definition number_octets (number : Z) : bytes := if number <? 31 then [] else base128 number.

Definition der_tag (tag : Z) : bytes :=
  let number := tag mod 2 ^ 29 in
  (tag / 2 ^ 29 * 32 + (if number <? 31 then number else 31)) :: number_octets number.

Definition der_len_len (n : Z) : nat :=
  if n <? 0x80 then 0 else if n <? 0x100 then 1 else if n <? 0x10000 then 2
  else if n <? 0x1000000 then 3 else 4.

(** Length octets for a length below 2^32. *)
Definition der_len (n : Z) : bytes :=
  if n <? 0x80 then [n] else (0x80 + Z.of_nat (der_len_len n)) :: be_bytes (der_len_len n) n.

Definition der_header (tag : Z) (contents : bytes) : bytes := der_tag tag ++ der_len (len contents).

Definition der_element (tag : Z) (contents : bytes) : bytes := der_header tag contents ++ contents.

(** Any 32-bit tag but the reserved [UNIVERSAL 0], primitive or constructed. *)
Definition valid_tag (tag : Z) : Prop := fits 32 tag /\ Z.land tag (wnot 32 CBS_ASN1_CONSTRUCTED) <> 0.

(** * Octet arithmetic *)

Lemma land_80 b : byte_ok b -> (Z.land b 0x80 =? 0) = (b <? 128).
Proof.
  intros H. apply eqb_prop. revert b H. apply byte_forall. vm_compute. reflexivity.
Qed.

Lemma land_7f b : Z.land b 0x7f = b mod 128.
Proof. change 0x7f with (Z.ones 7). by rewrite Z.land_ones by lia. Qed.

Lemma land_1f b : Z.land b 0x1f = b mod 32.
Proof. change 0x1f with (Z.ones 5). by rewrite Z.land_ones by lia. Qed.

Lemma land_e0 b : byte_ok b -> Z.land b 0xe0 = b / 32 * 32.
Proof.
  intros H. apply Z.eqb_eq. revert b H. apply byte_forall. vm_compute. reflexivity.
Qed.

(** [cbs_get_u] reads big-endian numbers. *)
Lemma foldl_lor_be acc data :
  bytes_ok data -> 0 <= acc -> acc * 256 ^ len data + 256 ^ len data <= 2 ^ 64 ->
  foldl (fun result b => Z.lor (u64 (Z.shiftl result 8)) b) acc data
  = acc * 256 ^ len data + be_value data.
Proof.
  intros Hd. revert acc. induction Hd as [| b data Hb Hd IH]; intros acc Ha Hlt; cbn [foldl].
  - change (256 ^ len []) with 1. change (be_value []) with 0. lia.
  - rewrite len_cons, Z.pow_add_r, Z.pow_1_r in Hlt by (pose proof (len_nonneg data); lia).
    rewrite be_value_cons, len_cons, Z.pow_add_r, Z.pow_1_r by (pose proof (len_nonneg data); lia).
    assert (1 <= 256 ^ len data) by (pose proof (Z.pow_pos_nonneg 256 (len data)); pose proof (len_nonneg data); lia).
    unfold byte_ok in Hb.
    assert (Z.lor (u64 (Z.shiftl acc 8)) b = acc * 256 + b) as ->.
    { rewrite wrap_id; [apply (lor_shiftl_add acc b 8); unfold fits; lia |].
      rewrite Z.shiftl_mul_pow2 by lia. unfold fits. change (2 ^ 8) with 256. nia. }
    rewrite IH; nia.
Qed.

Lemma pow256_le n : 0 <= n <= 8 -> 256 ^ n <= 2 ^ 64.
Proof. intros. change (2 ^ 64) with (256 ^ 8). apply Z.pow_le_mono_r; lia. Qed.

Lemma len_take n (cbs : bytes) : 0 <= n <= len cbs -> len (take (Z.to_nat n) cbs) = n.
Proof. intros. unfold len in *. rewrite length_take. lia. Qed.

Lemma len_drop n (cbs : bytes) : 0 <= n <= len cbs -> len (drop (Z.to_nat n) cbs) = len cbs - n.
Proof. intros. unfold len in *. rewrite length_drop. lia. Qed.

Lemma cbs_get_u_eq n cbs :
  0 <= n <= 8 -> bytes_ok cbs ->
  cbs_get_u n cbs =
  if len cbs <? n then (None, cbs)
  else (Some (be_value (take (Z.to_nat n) cbs)), drop (Z.to_nat n) cbs).
Proof.
  intros Hn Hb. unfold cbs_get_u, p_bind, cbs_get. destruct (Z.ltb_spec (len cbs) n); [done |].
  unfold p_ret. do 2 f_equal. pose proof (pow256_le n Hn).
  rewrite foldl_lor_be, Z.mul_0_l, Z.add_0_l; auto with bytes_db; [lia |].
  rewrite len_take by lia. lia.
Qed.

(** * Base-128 numbers *)

Lemma base128_hi_fuel n m v : 0 <= v < 128 ^ Z.of_nat n -> (n <= m)%nat -> base128_hi m v = base128_hi n v.
Proof.
  revert m v. induction n as [| n IH]; intros m v Hv Hm.
  - change (128 ^ Z.of_nat 0) with 1 in Hv. assert (v = 0) as -> by lia. by destruct m.
  - destruct m as [| m]; [lia |]. cbn [base128_hi]. destruct (v =? 0); [done |].
    rewrite IH; [done | | lia]. rewrite Nat2Z.inj_succ, Z.pow_succ_r in Hv by lia.
    split; [apply Z.div_pos; lia | apply Z.div_lt_upper_bound; lia].
Qed.

Lemma base128_hi_step v d :
  0 <= v < 2 ^ 57 -> 0 <= d < 128 -> v * 128 + d <> 0 ->
  base128_hi 10 (v * 128 + d) = base128_hi 10 v ++ [128 + d].
Proof.
  intros Hv Hd H0.
  change (base128_hi 10 (v * 128 + d)) with
    (if v * 128 + d =? 0 then [] else
       base128_hi 9 ((v * 128 + d) / 128) ++ [128 + (v * 128 + d) mod 128]).
  destruct (Z.eqb_spec (v * 128 + d) 0); [lia |].
  rewrite div_quot_rem, mod_quot_rem by lia.
  f_equal. symmetry. apply base128_hi_fuel; [| lia].
  change (128 ^ Z.of_nat 9) with (2 ^ 63). lia.
Qed.

(** One iteration of the parser's loop. *)
Lemma base128_loop_cons v b rest :
  0 <= v < 2 ^ 64 -> byte_ok b ->
  base128_loop v (b :: rest) =
  if negb (v <? 2 ^ 57) then (None, rest)
  else if (v =? 0) && (b =? 128) then (None, rest)
  else if b <? 128 then (Some (v * 128 + b), rest)
  else base128_loop (v * 128 + (b - 128)) rest.
Proof.
  intros Hv Hb. cbn [base128_loop]. rewrite Z.shiftr_div_pow2 by lia. change (64 - 7) with 57.
  replace (v / 2 ^ 57 =? 0) with (v <? 2 ^ 57).
  2: { destruct (Z.ltb_spec v (2 ^ 57)), (Z.eqb_spec (v / 2 ^ 57) 0); try done; Z.div_mod_to_equations; lia. }
  destruct (Z.ltb_spec v (2 ^ 57)) as [Hlt |]; [cbn [negb] | done].
  destruct ((v =? 0) && (b =? 128)); [done |].
  rewrite land_7f, land_80 by done. unfold byte_ok in Hb.
  rewrite wrap_id by (unfold fits; rewrite Z.shiftl_mul_pow2 by lia; lia).
  rewrite (lor_shiftl_add v _ 7) by (unfold fits; Z.div_mod_to_equations; lia).
  destruct (Z.ltb_spec b 128); cbn [negb].
  - rewrite Z.mod_small by lia. done.
  - f_equal. f_equal. rewrite <- (Z_mod_plus_full b (-1)), Z.mod_small; lia.
Qed.

Lemma base128_loop_sound v cbs r rest :
  bytes_ok cbs -> 0 <= v < 2 ^ 64 -> base128_loop v cbs = (Some r, rest) ->
  base128_hi 10 v ++ cbs = base128 r ++ rest /\ 0 <= r < 2 ^ 64.
Proof.
  intros Hb. revert v. induction Hb as [| b cbs Hb Hbs IH]; intros v Hv; [done |].
  rewrite base128_loop_cons by done. unfold byte_ok in Hb.
  destruct (Z.ltb_spec v (2 ^ 57)) as [Hlt |]; [cbn [negb] | done].
  destruct ((v =? 0) && (b =? 128)) eqn:E0; [done |].
  destruct (Z.ltb_spec b 128).
  - intros [= <- <-]. split; [| lia]. unfold base128.
    rewrite div_quot_rem, mod_quot_rem by lia. by rewrite <- app_assoc.
  - intros Hr. apply IH in Hr as [He Hr]; [| lia]. split; [| done].
    rewrite base128_hi_step, <- app_assoc in He by lia. rewrite <- He. cbn. do 2 f_equal. lia.
Qed.

Lemma base128_loop_hi v tail :
  0 <= v < 2 ^ 64 -> base128_loop 0 (base128_hi 10 v ++ tail) = base128_loop v tail.
Proof.
  enough (forall n v tail, 0 <= v < 2 ^ 64 -> v < 128 ^ Z.of_nat n ->
            base128_loop 0 (base128_hi n v ++ tail) = base128_loop v tail) as H.
  { intros Hv. apply H; [done |]. change (128 ^ Z.of_nat 10) with (2 ^ 70). lia. }
  clear. induction n as [| n IH]; intros v tail Hv Hn.
  - change (128 ^ Z.of_nat 0) with 1 in Hn. by assert (v = 0) as -> by lia.
  - cbn [base128_hi]. destruct (Z.eqb_spec v 0) as [-> |]; [done |].
    rewrite Nat2Z.inj_succ, Z.pow_succ_r in Hn by lia.
    rewrite <- app_assoc, IH by (Z.div_mod_to_equations; lia). cbn [app].
    rewrite base128_loop_cons by (unfold byte_ok; Z.div_mod_to_equations; lia).
    assert (v / 128 < 2 ^ 57) by (Z.div_mod_to_equations; lia).
    replace (negb (v / 128 <? 2 ^ 57)) with false by lia.
    replace ((v / 128 =? 0) && (128 + v mod 128 =? 128)) with false by (Z.div_mod_to_equations; lia).
    replace (128 + v mod 128 <? 128) with false by (Z.div_mod_to_equations; lia).
    f_equal. Z.div_mod_to_equations; lia.
Qed.

Lemma parse_base128_spec cbs v rest :
  bytes_ok cbs ->
  parse_base128_integer cbs = (Some v, rest) <-> cbs = base128 v ++ rest /\ 0 <= v < 2 ^ 64.
Proof.
  intros Hb. unfold parse_base128_integer. split.
  - intros H. apply base128_loop_sound in H as [H Hv]; [| done | lia]. by rewrite <- H.
  - intros [-> Hv]. unfold base128. rewrite <- app_assoc, base128_loop_hi by (Z.div_mod_to_equations; lia).
    cbn [app]. rewrite base128_loop_cons by (unfold byte_ok; Z.div_mod_to_equations; lia).
    replace (negb (v / 128 <? 2 ^ 57)) with false by (Z.div_mod_to_equations; lia).
    replace ((v / 128 =? 0) && (v mod 128 =? 128)) with false by (Z.div_mod_to_equations; lia).
    replace (v mod 128 <? 128) with true by (Z.div_mod_to_equations; lia).
    do 2 f_equal. Z.div_mod_to_equations; lia.
Qed.

Lemma base128_ok v : 0 <= v -> bytes_ok (base128 v).
Proof.
  intros Hv. unfold base128. apply bytes_ok_app. split.
  - assert (0 <= v / 128) as H by (apply Z.div_pos; lia). revert H.
    generalize (v / 128), 10%nat. intros u n. revert u.
    induction n as [| n IH]; intros u Hu; cbn [base128_hi]; [constructor |].
    destruct (u =? 0); [constructor |]. apply bytes_ok_app. split; [apply IH; apply Z.div_pos; lia |].
    repeat constructor; Z.div_mod_to_equations; lia.
  - repeat constructor; Z.div_mod_to_equations; lia.
Qed.

(** * Tags *)

(** The tag number behind the low five bits [m] of the identifier octet. *)
Lemma tag_number_spec m cbs number c :
  bytes_ok cbs -> 0 <= m < 32 ->
  (if m =? 0x1f then
     let! v := parse_base128_integer in
     check negb ((v >? CBS_ASN1_TAG_NUMBER_MASK) || (v <? 0x1f)) ;;
     p_ret v
   else p_ret m)%c cbs = (Some number, c) <->
  m = (if number <? 31 then number else 31) /\ cbs = number_octets number ++ c /\ 0 <= number < 2 ^ 29.
Proof.
  intros Hb Hm. unfold number_octets. change CBS_ASN1_TAG_NUMBER_MASK with (2 ^ 29 - 1).
  destruct (Z.eqb_spec m 31) as [-> | Hm31].
  - unfold p_bind at 1. destruct (parse_base128_integer cbs) as [[v |] c'] eqn:E.
    + unfold p_bind, p_guard. pose proof E as [-> Hv]%parse_base128_spec; [| done].
      destruct ((v >? 2 ^ 29 - 1) || (v <? 31)) eqn:Ev; cbn [negb p_fail].
      * split; [done |]. destruct (Z.ltb_spec number 31) as [? | Hge]; [lia |]. intros (_ & H & Hn).
        rewrite (proj2 (parse_base128_spec _ number c Hb)) in E by (split; [done | lia]).
        injection E as -> _. lia.
      * unfold p_ret. split.
        -- intros [= <- <-]. replace (v <? 31) with false by lia. split_and!; auto; lia.
        -- destruct (Z.ltb_spec number 31) as [? | Hge]; [lia |]. intros (_ & H & Hn).
           rewrite (proj2 (parse_base128_spec _ number c Hb)) in E by (split; [done | lia]).
           by injection E as -> ->.
    + split; [done |]. destruct (Z.ltb_spec number 31) as [? | Hge]; [lia |]. intros (_ & H & Hn).
      rewrite (proj2 (parse_base128_spec _ number c Hb)) in E by (split; [done | lia]). done.
  - unfold p_ret. split.
    + intros [= <- <-]. replace (m <? 31) with true by lia. split_and!; auto; lia.
    + destruct (Z.ltb_spec number 31); [| lia]. by intros (-> & -> & _).
Qed.

Lemma low_bits_split tag b :
  b = tag / 2 ^ 29 * 32 + (if tag mod 2 ^ 29 <? 31 then tag mod 2 ^ 29 else 31) ->
  b mod 32 = (if tag mod 2 ^ 29 <? 31 then tag mod 2 ^ 29 else 31)
  /\ b / 32 = tag / 2 ^ 29 /\ 0 <= tag mod 2 ^ 29 < 2 ^ 29.
Proof.
  intros ->. pose proof (Z.mod_pos_bound tag (2 ^ 29) ltac:(lia)).
  rewrite mod_quot_rem, div_quot_rem by (destruct (Z.ltb_spec (tag mod 2 ^ 29) 31); lia). done.
Qed.

Lemma parse_asn1_tag_spec cbs tag rest :
  bytes_ok cbs ->
  parse_asn1_tag false cbs = (Some tag, rest) <-> cbs = der_tag tag ++ rest /\ valid_tag tag.
Proof.
  intros Hb. unfold parse_asn1_tag, p_bind at 1. destruct cbs as [| b cbs].
  { cbn. split; [done |]. by intros [H _]. }
  apply bytes_ok_cons in Hb as [Hb Hbs]. cbn [CBS_get_u8]. rewrite land_1f.
  unfold p_bind at 1. unfold der_tag, valid_tag. cbn [app].
  assert (0 <= b / 32 < 8) as Hq by (unfold byte_ok in Hb; Z.div_mod_to_equations; lia).
  pose proof (Z.mod_pos_bound b 32 ltac:(lia)) as Hm.
  pose proof (Z.div_mod b 32 ltac:(lia)) as Hbe.
  pose proof (fun num c => tag_number_spec (b mod 32) cbs num c Hbs Hm) as Hnum.
  set (parse_number := if _ =? _ then _ else _) in *. clearbody parse_number.
  destruct (parse_number cbs) as [[number |] c].
  - destruct (proj1 (Hnum number c) eq_refl) as (Hm' & Hcbs & Hn).
    assert (Z.lor (Z.shiftl (Z.land b 0xe0) CBS_ASN1_TAG_SHIFT) number = b / 32 * 2 ^ 29 + number) as Hlor.
    { rewrite land_e0 by done. change CBS_ASN1_TAG_SHIFT with 24.
      replace (Z.shiftl (b / 32 * 32) 24) with (Z.shiftl (b / 32) 29)
        by (rewrite !Z.shiftl_mul_pow2 by lia; lia).
      by apply lor_shiftl_add. }
    cbv zeta. rewrite Hlor. unfold p_bind, p_guard. cbn [negb andb].
    set (t := b / 32 * 2 ^ 29 + number).
    assert (t / 2 ^ 29 = b / 32 /\ t mod 2 ^ 29 = number) as [Ht1 Ht2]
      by (unfold t; rewrite div_quot_rem, mod_quot_rem by lia; done).
    assert (forall r, b :: cbs = tag / 2 ^ 29 * 32 + (if tag mod 2 ^ 29 <? 31 then tag mod 2 ^ 29 else 31)
              :: number_octets (tag mod 2 ^ 29) ++ r -> tag = t /\ c = r) as Hinj.
    { intros r [= H1 H2]. destruct (low_bits_split tag b H1) as (Hlo & Hhi & Hr).
      assert (Some number = Some (tag mod 2 ^ 29) /\ c = r) as [[= ->] ->].
      { enough ((Some number, c) = (Some (tag mod 2 ^ 29), r)) as [= -> ->] by done.
        apply Hnum. split_and!; auto; lia. }
      split; [| done]. unfold t. rewrite Hhi. Z.div_mod_to_equations; lia. }
    destruct (Z.eqb_spec (Z.land t (wnot 32 CBS_ASN1_CONSTRUCTED)) 0) as [E | E]; cbn [negb p_fail].
    + split; [done |]. intros (H & _ & Hne). by apply Hinj in H as [-> _].
    + unfold p_ret. split.
      * intros [= <- <-]. rewrite Ht1, Ht2, <- Hm', <- Hcbs. split_and!; auto.
        -- f_equal. lia.
        -- unfold fits, t. lia.
      * intros (H & _). by apply Hinj in H as [-> ->].
  - split; [done |]. intros ([= H1 H2] & _). exfalso.
    destruct (low_bits_split tag b H1) as (Hlo & Hhi & Hr).
    enough ((@None Z, c) = (Some (tag mod 2 ^ 29), rest)) by done.
    apply Hnum. split_and!; auto; lia.
Qed.

(** * Lengths *)

(** The DER length at the front of [h] and the number of octets it takes. *)
Definition der_length (h : bytes) : option (Z * Z) :=
  match h with
  | [] => None
  | lb :: h2 =>
      if lb <? 128 then Some (lb, 1)
      else let nb := lb - 128 in
           if (nb =? 0) || (nb >? 4) || (len h2 <? nb) then None
           else let v := be_value (take (Z.to_nat nb) h2) in
                if (v <? 128) || (v <? 256 ^ (nb - 1)) then None else Some (v, 1 + nb)
  end.

Lemma der_len_len_bounds n :
  128 <= n < 2 ^ 32 ->
  1 <= Z.of_nat (der_len_len n) <= 4 /\ n < 256 ^ Z.of_nat (der_len_len n)
  /\ 256 ^ (Z.of_nat (der_len_len n) - 1) <= n.
Proof.
  intros Hn. unfold der_len_len.
  repeat match goal with |- context [?a <? ?b] => destruct (Z.ltb_spec a b) end; z_eval; lia.
Qed.

Lemma der_len_len_unique n k :
  128 <= n -> 1 <= k <= 4 -> 256 ^ (k - 1) <= n < 256 ^ k -> Z.of_nat (der_len_len n) = k.
Proof.
  intros Hn Hk. assert (k = 1 \/ k = 2 \/ k = 3 \/ k = 4) as [-> | [-> | [-> | ->]]] by lia;
    z_eval; intros Hr; unfold der_len_len;
    repeat match goal with |- context [?a <? ?b] => destruct (Z.ltb_spec a b) end; lia.
Qed.

Lemma der_length_spec h n k :
  bytes_ok h ->
  der_length h = Some (n, k) <->
  (exists tl, h = der_len n ++ tl) /\ k = len (der_len n) /\ 0 <= n < 2 ^ 32.
Proof.
  intros Hb. split.
  - destruct h as [| lb h2]; [done |]. apply bytes_ok_cons in Hb as [Hlb Hb]. unfold byte_ok in Hlb.
    cbn [der_length]. destruct (Z.ltb_spec lb 128).
    + intros [= <- <-]. unfold der_len. replace (lb <? 128) with true by lia.
      split_and!; [by exists h2 | done | lia | lia].
    + cbv zeta. set (nb := lb - 128). destruct (_ || _) eqn:E1; [done |].
      assert (len (take (Z.to_nat nb) h2) = nb) as Hl by (apply len_take; lia).
      pose proof (be_value_bound (take (Z.to_nat nb) h2) ltac:(auto with bytes_db)) as Hv.
      rewrite Hl in Hv. set (v := be_value _) in *.
      destruct ((v <? 128) || _) eqn:E2; [done |]. intros [= <- <-].
      assert (256 ^ nb <= 256 ^ 4) by (apply Z.pow_le_mono_r; lia). change (256 ^ 4) with (2 ^ 32) in *.
      pose proof (der_len_len_unique v nb ltac:(lia) ltac:(lia) ltac:(lia)) as Hk.
      unfold der_len. replace (v <? 128) with false by lia. rewrite Hk.
      assert (be_bytes (der_len_len v) v = take (Z.to_nat nb) h2) as Hbe.
      { rewrite <- (be_bytes_value (take (Z.to_nat nb) h2)) by auto with bytes_db.
        f_equal. unfold len in Hl. lia. }
      rewrite Hbe. split_and!; [| rewrite len_cons, Hl; lia | lia | lia].
      exists (drop (Z.to_nat nb) h2). cbn. rewrite take_drop. f_equal. lia.
  - intros ((tl & ->) & -> & Hn). unfold der_len in *.
    destruct (Z.ltb_spec n 128) as [Hs | Hl]; [cbn; by replace (n <? 128) with true by lia |].
    destruct (der_len_len_bounds n ltac:(lia)) as (Hk & Hhi & Hlo).
    cbn [app der_length]. set (k := der_len_len n) in *.
    replace (128 + Z.of_nat k <? 128) with false by lia.
    replace (128 + Z.of_nat k - 128) with (Z.of_nat k) by lia. cbv zeta.
    rewrite len_app. unfold len at 1. rewrite length_be_bytes. pose proof (len_nonneg tl).
    replace ((Z.of_nat k =? 0) || _ || _) with false by lia.
    rewrite Nat2Z.id, take_app_length' by (by rewrite length_be_bytes).
    rewrite be_value_bytes, Z.mod_small by lia.
    replace ((n <? 128) || (n <? 256 ^ (Z.of_nat k - 1))) with false by lia.
    rewrite len_cons. unfold len. by rewrite length_be_bytes.
Qed.

Lemma base128_len v : 1 <= len (base128 v) <= 11.
Proof.
  assert (forall n u, len (base128_hi n u) <= Z.of_nat n) as H.
  { induction n as [| n IH]; intros u; cbn [base128_hi]; [done |].
    destruct (u =? 0); [done |]. rewrite len_app. specialize (IH (u / 128)).
    change (len [128 + u mod 128]) with 1. lia. }
  unfold base128. rewrite len_app. change (len [v mod 128]) with 1.
  pose proof (H 10%nat (v / 128)). pose proof (len_nonneg (base128_hi 10 (v / 128))). lia.
Qed.

Lemma der_tag_len tag : 1 <= len (der_tag tag) <= 12.
Proof.
  unfold der_tag. rewrite len_cons. unfold number_octets.
  destruct (_ <? 31); [done |]. pose proof (base128_len (tag mod 2 ^ 29)). lia.
Qed.

(** * Elements *)

Lemma ok_inj {A B} (a a' : A) (b b' : B) : (Some a, b) = (Some a', b') -> a = a' /\ b = b'.
Proof. by intros [= -> ->]. Qed.

Lemma get_bytes_element n tag k bf c :
  (let! out := CBS_get_bytes n in p_ret (mk_element out tag k bf false))%c c =
  if len c <? n then (None, c)
  else (Some (mk_element (take (Z.to_nat n) c) tag k bf false), drop (Z.to_nat n) c).
Proof.
  unfold CBS_get_bytes, p_bind, cbs_get, p_ret, CBS_init. destruct (len c <? n); [done |].
  by rewrite take_take, Nat.min_id.
Qed.

(** The reader is tag, then length, then one bounds check. *)
Lemma get_any_element_eq cbs :
  bytes_ok cbs ->
  CBS_get_any_asn1_element cbs =
  match parse_asn1_tag false cbs with
  | (None, _) => (None, cbs)
  | (Some tag, h) =>
      match der_length h with
      | None => (None, cbs)
      | Some (n, k) =>
          let hl := len (der_tag tag) + k in
          if len cbs <? hl + n then (None, cbs)
          else (Some (mk_element (take (Z.to_nat (hl + n)) cbs) tag hl false false),
                drop (Z.to_nat (hl + n)) cbs)
      end
  end.
Proof.
  intros Hb. unfold CBS_get_any_asn1_element, cbs_get_any_asn1_element.
  destruct (parse_asn1_tag false cbs) as [[tag |] h] eqn:Etag; [| done].
  apply parse_asn1_tag_spec in Etag as [-> Hval]; [| done].
  pose proof Hb as [_ Hbh]%bytes_ok_app.
  pose proof (der_tag_len tag) as Htl.
  destruct h as [| lb h2]; [done |]. apply bytes_ok_cons in Hbh as [Hlb Hbh].
  cbn [CBS_get_u8]. rewrite len_app, len_cons.
  replace (len (der_tag tag) + (1 + len h2) - len h2) with (len (der_tag tag) + 1) by lia.
  pose proof (fun n k c => get_bytes_element n tag k false c) as Hget.
  unfold byte_ok in Hlb. cbn [der_length]. rewrite land_80 by done.
  destruct (Z.ltb_spec lb 128) as [Hs | Hl].
  { rewrite Hget, len_app, len_cons. replace (lb + (len (der_tag tag) + 1)) with (len (der_tag tag) + 1 + lb) by lia.
    done. }
  cbn [andb]. rewrite land_7f.
  replace (lb mod 128) with (lb - 128) by (Z.div_mod_to_equations; lia).
  set (nb := lb - 128). cbv zeta.
  destruct ((nb =? 0) || (nb >? 4)) eqn:E1; cbn [orb]; [done |].
  rewrite cbs_get_u_eq by (auto; lia).
  destruct (Z.ltb_spec (len h2) nb) as [| Hlen]; [done |].
  pose proof (be_value_bound (take (Z.to_nat nb) h2) ltac:(auto with bytes_db)) as Hv.
  rewrite len_take in Hv by lia. set (v := be_value _) in *.
  assert (256 ^ nb <= 256 ^ 4) by (apply Z.pow_le_mono_r; lia). change (256 ^ 4) with (2 ^ 32) in *.
  replace (Z.shiftr v ((nb - 1) * 8) =? 0) with (v <? 256 ^ (nb - 1)).
  2: { rewrite Z.shiftr_div_pow2, Z.mul_comm, Z.pow_mul_r by lia. change (2 ^ 8) with 256.
       assert (0 < 256 ^ (nb - 1)) by (apply Z.pow_pos_nonneg; lia).
       destruct (Z.ltb_spec v (256 ^ (nb - 1))), (Z.eqb_spec (v / 256 ^ (nb - 1)) 0) as [E | E]; try done.
       - exfalso. apply E, Z.div_small. lia.
       - apply Z.div_small_iff in E; lia. }
  destruct ((v <? 128) || _); cbn [negb andb]; [done |].
  rewrite wrap_id by (unfold fits; lia).
  replace (v + (len (der_tag tag) + 1) + nb <? v) with false by lia.
  rewrite Hget, len_app, len_cons.
  replace (v + (len (der_tag tag) + 1) + nb) with (len (der_tag tag) + (1 + nb) + v) by lia.
  replace (len (der_tag tag) + 1 + nb) with (len (der_tag tag) + (1 + nb)) by lia. done.
Qed.

Lemma der_header_len_pos tag contents : 0 <= len (der_header tag contents).
Proof. apply len_nonneg. Qed.

(** The reader of one element, as a relation with the printer. *)
Lemma get_any_element_spec cbs e rest :
  bytes_ok cbs ->
  CBS_get_any_asn1_element cbs = (Some e, rest) <->
  exists tag contents,
    cbs = der_element tag contents ++ rest /\ valid_tag tag /\ len contents < 2 ^ 32 /\
    e = mk_element (der_element tag contents) tag (len (der_header tag contents)) false false.
Proof.
  intros Hb. rewrite get_any_element_eq by done. split.
  - destruct (parse_asn1_tag false cbs) as [[tag |] h] eqn:Etag; [| done].
    apply parse_asn1_tag_spec in Etag as [-> Hval]; [| done].
    pose proof Hb as [_ Hbh]%bytes_ok_app.
    destruct (der_length h) as [[n k] |] eqn:El; [| done].
    apply der_length_spec in El as ((tl & ->) & -> & Hn); [| done].
    cbv zeta. destruct (Z.ltb_spec (len (der_tag tag ++ der_len n ++ tl))
                          (len (der_tag tag) + len (der_len n) + n)) as [| Hge]; [done |].
    intros [<- <-]%ok_inj. rewrite !len_app in Hge.
    set (contents := take (Z.to_nat n) tl).
    assert (len contents = n) as Hc by (unfold contents; apply len_take; lia).
    exists tag, contents. unfold der_element, der_header. rewrite Hc.
    assert (Z.to_nat (len (der_tag tag) + len (der_len n) + n)
            = (length (der_tag tag ++ der_len n) + Z.to_nat n)%nat) as ->
      by (unfold len; rewrite length_app; lia).
    rewrite (app_assoc (der_tag tag) (der_len n) tl). rewrite take_app_add, drop_app_add by done.
    split_and!; [| done | lia | by rewrite len_app].
    unfold contents. by rewrite <- (app_assoc (der_tag tag ++ der_len n)), take_drop.
  - intros (tag & contents & -> & Hval & Hc & ->). unfold der_element in *.
    rewrite <- app_assoc in *. unfold der_header in *. rewrite <- app_assoc in *.
    rewrite (proj2 (parse_asn1_tag_spec _ tag _ Hb)) by done.
    pose proof Hb as [_ Hbh]%bytes_ok_app. pose proof (len_nonneg contents).
    rewrite (proj2 (der_length_spec _ (len contents) (len (der_len (len contents))) Hbh))
      by (split_and!; eauto).
    cbv zeta. rewrite !len_app. pose proof (len_nonneg rest).
    replace (_ <? _) with false by lia.
    assert (Z.to_nat (len (der_tag tag) + len (der_len (len contents)) + len contents)
            = length ((der_tag tag ++ der_len (len contents)) ++ contents)) as ->
      by (unfold len; rewrite !length_app; lia).
    rewrite !app_assoc, take_app_length, drop_app_length. done.
Qed.

(** Encodings are self-delimiting: what follows an element does not matter. *)
Lemma der_element_app_inj tag cs rest tag' cs' rest' :
  bytes_ok (der_element tag cs ++ rest) -> valid_tag tag -> valid_tag tag' ->
  len cs < 2 ^ 32 -> len cs' < 2 ^ 32 ->
  der_element tag cs ++ rest = der_element tag' cs' ++ rest' -> tag = tag' /\ cs = cs' /\ rest = rest'.
Proof.
  intros Hb Hv Hv' Hl Hl' He.
  pose proof (proj2 (get_any_element_spec _ _ rest Hb)
    (ex_intro _ tag (ex_intro _ cs (conj eq_refl (conj Hv (conj Hl eq_refl)))))) as H1.
  rewrite He in Hb, H1.
  pose proof (proj2 (get_any_element_spec _ _ rest' Hb)
    (ex_intro _ tag' (ex_intro _ cs' (conj eq_refl (conj Hv' (conj Hl' eq_refl)))))) as H2.
  rewrite H1 in H2. apply ok_inj in H2 as [H2 ->].
  pose proof (f_equal el_out H2) as Ho. pose proof (f_equal el_tag H2) as Ht.
  pose proof (f_equal el_header_len H2) as Hh. cbn [el_out el_tag el_header_len] in *.
  unfold der_element in Ho. apply app_inj_1 in Ho as [_ ->]; [done |]. unfold len in Hh. lia.
Qed.

Lemma skip_header tag cs rest :
  skip_out (der_element tag cs) (len (der_header tag cs)) rest = (Some cs, rest).
Proof.
  unfold skip_out, CBS_skip, p_bind, cbs_get, p_ret, der_element.
  rewrite len_app. pose proof (len_nonneg cs). replace (_ <? _) with false by lia.
  unfold len. by rewrite Nat2Z.id, drop_app_length.
Qed.

Lemma get_asn1_spec tag cbs contents rest :
  bytes_ok cbs ->
  CBS_get_asn1 tag cbs = (Some contents, rest) <->
  cbs = der_element tag contents ++ rest /\ valid_tag tag /\ len contents < 2 ^ 32.
Proof.
  intros Hb. unfold CBS_get_asn1, cbs_get_asn1, p_bind at 1.
  destruct (CBS_get_any_asn1_element cbs) as [[e |] c] eqn:E.
  - apply get_any_element_spec in E as (t & cs & -> & Hval & Hl & ->); [| done].
    cbn [el_tag el_out el_header_len]. unfold p_bind, p_guard.
    assert (forall rest, der_element t cs ++ c = der_element tag contents ++ rest /\ valid_tag tag
              /\ len contents < 2 ^ 32 -> t = tag /\ cs = contents /\ c = rest) as Hinj.
    { intros r (H & Hv & Hl'). by apply der_element_app_inj in H. }
    destruct (Z.eqb_spec t tag) as [-> | Hne].
    + unfold p_ret at 1. rewrite skip_header. split; [by intros [<- <-]%ok_inj |].
      by intros (_ & -> & ->)%Hinj.
    + split; [done |]. by intros (-> & _ & _)%Hinj.
  - split; [done |]. intros (-> & Hv & Hl).
    rewrite (proj2 (get_any_element_spec _ _ rest Hb)
      (ex_intro _ tag (ex_intro _ contents (conj eq_refl (conj Hv (conj Hl eq_refl)))))) in E. done.
Qed.

(** * Integers *)

(** The two's complement value of a big-endian octet string. *)
Definition signed_value (cs : bytes) : Z :=
  be_value cs - match cs with b :: _ => if b <? 128 then 0 else 256 ^ len cs | [] => 0 end.

(** A shortest octet string of its value. *)
Definition minimal_integer (cs : bytes) : Prop :=
  cs <> [] /\ forall cs', cs' <> [] -> bytes_ok cs' -> signed_value cs' = signed_value cs -> len cs <= len cs'.

Lemma signed_value_cons b cs :
  signed_value (b :: cs) = (if b <? 128 then b else b - 256) * 256 ^ len cs + be_value cs.
Proof.
  unfold signed_value. rewrite be_value_cons, len_cons.
  rewrite Z.pow_add_r, Z.pow_1_r by (pose proof (len_nonneg cs); lia). destruct (_ <? _); lia.
Qed.

Lemma pow256_pos n : 0 <= n -> 0 < 256 ^ n.
Proof. intros. by apply Z.pow_pos_nonneg. Qed.

Lemma signed_value_range b cs :
  bytes_ok (b :: cs) -> -128 * 256 ^ len cs <= signed_value (b :: cs) < 128 * 256 ^ len cs.
Proof.
  intros [Hb Hcs]%bytes_ok_cons. rewrite signed_value_cons.
  pose proof (be_value_bound cs Hcs). pose proof (pow256_pos (len cs) (len_nonneg cs)).
  unfold byte_ok in Hb. destruct (Z.ltb_spec b 128); nia.
Qed.

Lemma valid_integer_negative cs neg :
  bytes_ok cs -> CBS_is_valid_asn1_integer cs = Some neg -> neg = (signed_value cs <? 0).
Proof.
  destruct cs as [| b cs]; [done |]. intros [Hb Hcs]%bytes_ok_cons H.
  assert (neg = negb (Z.land b 0x80 =? 0)) as ->.
  { revert H. unfold CBS_is_valid_asn1_integer. destruct cs as [| c cs]; [by intros [= <-] |].
    destruct (_ || _); [done | by intros [= <-]]. }
  rewrite land_80, signed_value_cons by done. pose proof (be_value_bound cs Hcs).
  pose proof (pow256_pos (len cs) (len_nonneg cs)). unfold byte_ok in Hb.
  destruct (Z.ltb_spec b 128); cbn [negb]; symmetry; [apply Z.ltb_ge | apply Z.ltb_lt]; nia.
Qed.

(** [CBS_is_valid_asn1_integer] accepts exactly the shortest encodings. *)
Lemma valid_integer_minimal cs :
  bytes_ok cs -> is_Some (CBS_is_valid_asn1_integer cs) <-> minimal_integer cs.
Proof.
  intros Hok. unfold minimal_integer. destruct cs as [| b cs]; [split; [by intros [? ?] | by intros [? _]] |].
  pose proof Hok as [Hb Hcs]%bytes_ok_cons. unfold CBS_is_valid_asn1_integer.
  destruct cs as [| c r].
  { split; [intros _ | by eauto]. split; [done |]. intros [| b' cs'] H _ _; [done |].
    rewrite !len_cons. pose proof (len_nonneg cs'). change (len []) with 0. lia. }
  pose proof Hcs as [Hc Hr]%bytes_ok_cons. rewrite !land_80 by done.
  pose proof (be_value_bound r Hr) as Hbe. pose proof (pow256_pos (len r) (len_nonneg r)) as Hp.
  assert (256 ^ len (c :: r) = 256 * 256 ^ len r) as Hpow.
  { rewrite len_cons, Z.pow_add_r, Z.pow_1_r by (pose proof (len_nonneg r); lia). done. }
  assert (signed_value (b :: c :: r)
          = (if b <? 128 then b else b - 256) * (256 * 256 ^ len r) + c * 256 ^ len r + be_value r) as Hsv.
  { rewrite signed_value_cons, Hpow, be_value_cons. lia. }
  unfold byte_ok in Hb, Hc. destruct (_ || _) eqn:E; (split; [intros [n Hn] | intros [_ Hmin]]); try done.
  - exfalso. assert (len (b :: c :: r) <= len (c :: r)) as Habs; [| rewrite len_cons in Habs; lia].
    apply Hmin; [done | by apply bytes_ok_cons | rewrite Hsv, signed_value_cons].
    destruct (Z.ltb_spec b 128), (Z.ltb_spec c 128); nia.
  - split; [done |]. intros [| b' cs'] H Hok' Heq; [done |].
    apply signed_value_range in Hok'. rewrite Heq, Hsv in Hok'. rewrite !len_cons.
    destruct (Z_le_gt_dec (1 + len r) (len cs')) as [Hle | Hgt]; [lia |].
    assert (256 ^ len cs' <= 256 ^ len r) by (apply Z.pow_le_mono_r; lia). exfalso.
    pose proof (pow256_pos (len cs') (len_nonneg cs')).
    destruct (Z.ltb_spec b 128), (Z.ltb_spec c 128); nia.
Qed.

Lemma uint64_loop_spec out cs v :
  bytes_ok cs -> 0 <= out < 2 ^ 64 ->
  uint64_loop out cs = Some v <-> v = out * 256 ^ len cs + be_value cs /\ v < 2 ^ 64.
Proof.
  intros Hcs. revert out. induction Hcs as [| b cs Hb Hcs IH]; intros out Hout; cbn [uint64_loop].
  - change (256 ^ len []) with 1. change (be_value []) with 0. split; [intros [= ->]; lia | intros [-> _]; f_equal; lia].
  - rewrite Z.shiftr_div_pow2 by lia. rewrite be_value_cons, len_cons, Z.pow_add_r, Z.pow_1_r
      by (pose proof (len_nonneg cs); lia).
    pose proof (be_value_bound cs Hcs). pose proof (pow256_pos (len cs) (len_nonneg cs)).
    unfold byte_ok in Hb. destruct (Z.eqb_spec (out / 2 ^ 56) 0) as [E | E]; cbn [negb].
    + assert (out < 2 ^ 56) as Ho by (Z.div_mod_to_equations; lia).
      rewrite wrap_id by (unfold fits; rewrite Z.shiftl_mul_pow2 by lia; lia).
      rewrite (lor_shiftl_add out b 8), IH by (unfold fits; lia). change (2 ^ 8) with 256.
      split; intros [-> ?]; (split; [nia |]); nia.
    + assert (2 ^ 56 <= out) as Ho by (Z.div_mod_to_equations; lia).
      split; [done |]. intros [-> Hlt]. exfalso. nia.
Qed.

(** The sign extension loop of [CBS_get_asn1_int64]. *)
Lemma sign_extend_loop (data : bytes) (f : Z) k :
  (length data <= 8)%nat -> (k <= length data)%nat ->
  foldl (fun arr i => <[i := data !!! (length data - i - 1)%nat]> arr) (replicate 8 f) (seq 0 k)
  = take k (reverse data) ++ replicate (8 - k) f.
Proof.
  intros H8. induction k as [| k IH]; intros Hk; [done |].
  rewrite seq_S, foldl_app, IH by lia. cbn [foldl Nat.add].
  assert (length (take k (reverse data)) = k) as Hl by (rewrite length_take, length_reverse; lia).
  rewrite insert_app_r_alt by lia. rewrite Hl, Nat.sub_diag.
  replace (8 - k)%nat with (S (8 - S k)) by lia. cbn [replicate list_insert].
  change (<[0%nat := data !!! (length data - k - 1)%nat]> (f :: replicate (8 - S k) f))
    with (data !!! (length data - k - 1)%nat :: replicate (8 - S k) f).
  assert (is_Some (data !! (length data - k - 1)%nat)) as [x Hx] by (apply lookup_lt_is_Some; lia).
  rewrite (list_lookup_total_correct _ _ _ Hx).
  rewrite (take_S_r _ _ x), <- app_assoc; [done |].
  rewrite list.reverse_lookup by lia. by replace (length data - S k)%nat with (length data - k - 1)%nat by lia.
Qed.

Lemma be_value_replicate n f cs :
  be_value (replicate n f ++ cs) = be_value (replicate n f) * 256 ^ len cs + be_value cs.
Proof. apply be_value_app. Qed.

Lemma be_value_ff n : be_value (replicate n 255) = 256 ^ Z.of_nat n - 1.
Proof.
  induction n as [| n IH]; [done |]. cbn [replicate]. rewrite be_value_cons, IH.
  unfold len. rewrite length_replicate, Nat2Z.inj_succ, Z.pow_succ_r by lia. lia.
Qed.

Lemma be_value_00 n : be_value (replicate n 0) = 0.
Proof. induction n as [| n IH]; [done |]. cbn [replicate]. by rewrite be_value_cons, IH. Qed.

Lemma sign_extend_value cs (neg : bool) :
  bytes_ok cs -> cs <> [] -> (length cs <= 8)%nat -> neg = (signed_value cs <? 0) ->
  int64_of_le_bytes (reverse cs ++ replicate (8 - length cs) (if neg then 255 else 0)) = signed_value cs.
Proof.
  intros Hok Hne Hl ->. destruct cs as [| b cs]; [done |].
  pose proof (signed_value_range b cs Hok) as Hr. pose proof (be_value_bound _ Hok) as Hbe.
  unfold int64_of_le_bytes. rewrite reverse_app, reverse_involutive, reverse_replicate, be_value_app.
  set (n := (8 - length (b :: cs))%nat).
  assert (256 ^ Z.of_nat n * 256 ^ len (b :: cs) = 2 ^ 64) as Hp.
  { rewrite <- Z.pow_add_r by (unfold len; lia). change (2 ^ 64) with (256 ^ 8). f_equal. unfold len, n. lia. }
  assert (256 ^ len (b :: cs) = 256 * 256 ^ len cs) as Hp1.
  { rewrite len_cons, Z.pow_add_r, Z.pow_1_r by (pose proof (len_nonneg cs); lia). done. }
  assert (256 ^ len (b :: cs) <= 2 ^ 64) by (apply pow256_le; unfold len; lia).
  pose proof (pow256_pos (len cs) (len_nonneg cs)).
  assert (signed_value (b :: cs) = be_value (b :: cs) - if signed_value (b :: cs) <? 0 then 256 ^ len (b :: cs) else 0) as Hsv.
  { pose proof Hok as [Hb Hcs]%bytes_ok_cons. unfold byte_ok in Hb.
    pose proof (be_value_bound cs Hcs). pose proof (signed_value_cons b cs) as Hc.
    unfold signed_value at 1. destruct (Z.ltb_spec b 128), (Z.ltb_spec (signed_value (b :: cs)) 0); nia. }
  unfold to_signed. change (2 ^ (64 - 1)) with (2 ^ 63).
  destruct (Z.ltb_spec (signed_value (b :: cs)) 0).
  - rewrite be_value_ff. destruct (Z.ltb_spec ((256 ^ Z.of_nat n - 1) * 256 ^ len (b :: cs) + be_value (b :: cs)) (2 ^ 63)); lia.
  - rewrite be_value_00. destruct (Z.ltb_spec (0 * 256 ^ len (b :: cs) + be_value (b :: cs)) (2 ^ 63)); lia.
Qed.

Lemma get_asn1_bytes_ok tag cbs cs rest :
  bytes_ok cbs -> CBS_get_asn1 tag cbs = (Some cs, rest) -> bytes_ok cs.
Proof.
  intros Hb (-> & _ & _)%get_asn1_spec; [| done]. unfold der_element in Hb.
  rewrite !bytes_ok_app in Hb. tauto.
Qed.

Lemma minimal_integer_length cs :
  bytes_ok cs -> minimal_integer cs -> - 2 ^ 63 <= signed_value cs < 2 ^ 63 -> (length cs <= 8)%nat.
Proof.
  intros Hok [Hne Hmin] Hv. specialize (Hmin (be_bytes 8 (signed_value cs))).
  enough (len cs <= len (be_bytes 8 (signed_value cs))) as H
    by (unfold len in H; rewrite length_be_bytes in H; lia).
  apply Hmin; [intros H; apply (f_equal length) in H; by rewrite length_be_bytes in H | apply be_bytes_ok |].
  set (v := signed_value cs) in *.
  pose proof (be_value_bytes 8 v) as Hbe. change (256 ^ Z.of_nat 8) with (2 ^ 64) in Hbe.
  pose proof (length_be_bytes 8 v) as Hl. pose proof (be_bytes_ok 8 v) as Hok8.
  destruct (be_bytes 8 v) as [| b r]; [done |].
  assert (256 ^ len (b :: r) = 2 ^ 64) as Hp by (unfold len; by rewrite Hl).
  pose proof Hok8 as [Hb Hr]%bytes_ok_cons. pose proof (be_value_bound r Hr).
  assert (256 ^ len r = 2 ^ 56) as Hp' by (unfold len; cbn in Hl; by replace (length r) with 7%nat by lia).
  pose proof (be_value_cons b r). unfold signed_value. rewrite Hp, Hbe in *. unfold byte_ok in Hb.
  destruct (Z.ltb_spec b 128); Z.div_mod_to_equations; lia.
Qed.

(** * BER *)

Lemma ber_element_der cbs e rest :
  bytes_ok cbs ->
  CBS_get_any_asn1_element cbs = (Some e, rest) <->
  CBS_get_any_ber_asn1_element cbs = (Some e, rest) /\ el_ber_found e = false.
Proof.
  intros Hb. unfold CBS_get_any_asn1_element, CBS_get_any_ber_asn1_element, cbs_get_any_asn1_element.
  assert (forall n tag k bf ind c, (let! out := CBS_get_bytes n in p_ret (mk_element out tag k bf ind))%c c
            = (Some e, rest) -> el_ber_found e = bf) as Hbf.
  { intros n tag k bf ind c. unfold p_bind. destruct (CBS_get_bytes n c) as [[o |] c']; [| done].
    intros [<- _]%ok_inj. done. }
  destruct (parse_asn1_tag false cbs) as [[tag |] h1]; [| split; [done | by intros [? _]]].
  destruct (CBS_get_u8 h1) as [[lb |] h2]; [| split; [done | by intros [? _]]]. cbv zeta. cbn [andb negb].
  destruct (_ =? 0); [split; [intros H; split; [done | by apply Hbf in H] | tauto] |].
  destruct (negb (Z.land tag CBS_ASN1_CONSTRUCTED =? 0) && (Z.land lb 127 =? 0)) eqn:Ei.
  { apply andb_prop in Ei as [_ ->]. cbn [orb]. split; [done |]. intros [H Hf].
    apply Hbf in H. congruence. }
  destruct (_ || _); [split; [done | by intros [? _]] |].
  destruct (cbs_get_u _ h2) as [[v |] h3]; [| split; [done | by intros [? _]]].
  set (bad := (v <? 128) || _). destruct bad eqn:Ebad.
  - split; [done |]. intros [H Hf]. destruct (_ <? v); [done |]. apply Hbf in H. congruence.
  - destruct (_ <? v); [split; [done | by intros [? _]] |]. split; [intros H; split; [done | by apply Hbf in H] | tauto].
Qed.

(** A BER read splits the input into the element and the rest. *)
Lemma ber_element_app cbs e rest :
  CBS_get_any_ber_asn1_element cbs = (Some e, rest) -> cbs = el_out e ++ rest.
Proof.
  unfold CBS_get_any_ber_asn1_element, cbs_get_any_asn1_element.
  assert (forall n tag k bf ind c, (let! out := CBS_get_bytes n in p_ret (mk_element out tag k bf ind))%c c
            = (Some e, rest) -> c = el_out e ++ rest) as Hb.
  { intros n tag k bf ind c. unfold CBS_get_bytes, p_bind, cbs_get, p_ret, CBS_init.
    destruct (len c <? n); [done |]. rewrite take_take, Nat.min_id.
    intros [<- <-]%ok_inj. cbn [el_out]. by rewrite take_drop. }
  destruct (parse_asn1_tag false cbs) as [[tag |] h1]; [| done].
  destruct (CBS_get_u8 h1) as [[lb |] h2]; [| done]. cbv zeta.
  repeat (case_match; try discriminate); apply Hb.
Qed.

(** What the two integer readers do with the contents. *)
Lemma uint64_tail cs c v rest :
  bytes_ok cs ->
  (check CBS_is_unsigned_asn1_integer cs ;; p_option (uint64_loop 0 cs))%c c = (Some v, rest) <->
  is_Some (CBS_is_valid_asn1_integer cs) /\ v = signed_value cs /\ 0 <= v < 2 ^ 64 /\ c = rest.
Proof.
  intros Hok. unfold CBS_is_unsigned_asn1_integer, p_bind, p_guard, p_option.
  destruct (CBS_is_valid_asn1_integer cs) as [neg |] eqn:Ev; [| split; [done | by intros [[? ?] _]]].
  pose proof (valid_integer_negative _ _ Hok Ev) as ->.
  pose proof (be_value_bound cs Hok).
  destruct (Z.ltb_spec (signed_value cs) 0) as [Hn | Hn]; cbn [negb p_fail].
  { split; [done |]. intros (_ & -> & ? & _). lia. }
  assert (signed_value cs = be_value cs) as Hs.
  { unfold signed_value in *. destruct cs as [| b cs]; [lia |]. destruct (b <? 128); lia. }
  rewrite Hs. unfold p_ret. split.
  - destruct (uint64_loop 0 cs) as [v' |] eqn:El; [| done]. intros [-> ->]%ok_inj.
    apply uint64_loop_spec in El as [-> ?]; [| done | lia]. split_and!; eauto; lia.
  - intros (_ & -> & ? & ->).
    rewrite (proj2 (uint64_loop_spec 0 cs (be_value cs) Hok ltac:(lia))) by (split; lia). done.
Qed.

Lemma int64_tail cs c v rest :
  bytes_ok cs ->
  (let! is_negative := p_option (CBS_is_valid_asn1_integer cs) in
   check negb (len cs >? 8) ;;
   let n := length cs in
   let sign_extend := replicate 8 (if is_negative : bool then 0xff else 0) in
   let sign_extend :=
     foldl (fun arr i => <[i := cs !!! (n - i - 1)%nat]> arr) sign_extend (seq 0 n) in
   p_ret (int64_of_le_bytes sign_extend))%c c = (Some v, rest) <->
  is_Some (CBS_is_valid_asn1_integer cs) /\ v = signed_value cs /\ - 2 ^ 63 <= v < 2 ^ 63 /\ c = rest.
Proof.
  intros Hok. unfold p_bind, p_guard, p_option. cbv zeta.
  destruct (CBS_is_valid_asn1_integer cs) as [neg |] eqn:Ev; [| split; [done | by intros [[? ?] _]]].
  pose proof (valid_integer_negative _ _ Hok Ev) as Hneg.
  assert (minimal_integer cs) as Hmin by (apply valid_integer_minimal; [done | by eexists]).
  destruct (Z.gtb_spec (len cs) 8) as [Hgt | Hle]; cbn [negb p_fail].
  { split; [done |]. intros (_ & -> & Hr & _).
    pose proof (minimal_integer_length cs Hok Hmin Hr). unfold len in Hgt. lia. }
  unfold p_ret. unfold len in Hle.
  rewrite sign_extend_loop, take_ge by (rewrite ?length_reverse; lia).
  rewrite sign_extend_value by (auto; try apply Hmin; lia).
  split; [intros [<- <-]%ok_inj | by intros (_ & -> & _ & ->)].
  split_and!; eauto; destruct Hmin as [Hne _]; destruct cs as [| b cs]; try done;
    pose proof (signed_value_range b cs Hok) as Hr;
    assert (256 ^ len cs <= 256 ^ 7) by (apply Z.pow_le_mono_r; [lia |]; unfold len; cbn in Hle; lia);
    change (256 ^ 7) with (2 ^ 56) in *; lia.
Qed.

Lemma int_readers_spec cbs v rest :
  bytes_ok cbs ->
  (CBS_get_asn1_uint64 cbs = (Some v, rest) <->
   exists cs, cbs = der_element CBS_ASN1_INTEGER cs ++ rest /\ len cs < 2 ^ 32 /\ minimal_integer cs
              /\ v = signed_value cs /\ 0 <= v < 2 ^ 64) /\
  (CBS_get_asn1_int64 cbs = (Some v, rest) <->
   exists cs, cbs = der_element CBS_ASN1_INTEGER cs ++ rest /\ len cs < 2 ^ 32 /\ minimal_integer cs
              /\ v = signed_value cs /\ - 2 ^ 63 <= v < 2 ^ 63).
Proof.
  intros Hb.
  assert (valid_tag CBS_ASN1_INTEGER) as Hvt by (split; [by unfold fits | done]).
  unfold CBS_get_asn1_uint64, CBS_get_asn1_int64, p_bind at 1. unfold p_bind at 2.
  destruct (CBS_get_asn1 CBS_ASN1_INTEGER cbs) as [[cs |] c] eqn:E.
  - pose proof (get_asn1_bytes_ok _ _ _ _ Hb E) as Hok.
    apply get_asn1_spec in E as (-> & _ & Hl); [| done].
    assert (forall (P : Z -> Prop), (exists cs', der_element CBS_ASN1_INTEGER cs ++ c
        = der_element CBS_ASN1_INTEGER cs' ++ rest /\ len cs' < 2 ^ 32 /\ minimal_integer cs'
        /\ v = signed_value cs' /\ P v)
      <-> minimal_integer cs /\ v = signed_value cs /\ P v /\ c = rest) as Hex.
    { intros P. split; [| intros (? & ? & ? & ->); eauto 10].
      intros (cs' & He & Hl' & ?). apply der_element_app_inj in He as (_ & -> & ->); tauto. }
    rewrite (Hex (fun v => 0 <= v < 2 ^ 64)), (Hex (fun v => - 2 ^ 63 <= v < 2 ^ 63)).
    rewrite <- !valid_integer_minimal by done.
    split; [by apply uint64_tail | by apply int64_tail].
  - assert (forall cs, cbs = der_element CBS_ASN1_INTEGER cs ++ rest -> len cs < 2 ^ 32 -> False) as Hno.
    { intros cs -> Hl.
      rewrite (proj2 (get_asn1_spec CBS_ASN1_INTEGER _ cs rest Hb)) in E by done. done. }
    split; (split; [done |]); intros (cs & Hcs & Hl & _); by destruct (Hno cs).
Qed.

(** * Properties *)

(** C1: the DER reader is exactly the inverse of the DER grammar: on any input,
    [CBS_get_any_asn1_element] succeeds precisely when the input starts with the
    minimal definite-length encoding of some element, and then returns that element,
    its tag and its header length and leaves exactly what follows; [CBS_get_asn1]
    likewise returns the contents of an element of the requested tag. *)
Theorem der_reader_exact cbs :
  bytes_ok cbs ->
  (forall e rest,
     CBS_get_any_asn1_element cbs = (Some e, rest) <->
     exists tag contents,
       cbs = der_element tag contents ++ rest /\ valid_tag tag /\ len contents < 2 ^ 32 /\
       e = mk_element (der_element tag contents) tag (len (der_header tag contents)) false false) /\
  (forall tag contents rest,
     CBS_get_asn1 tag cbs = (Some contents, rest) <->
     cbs = der_element tag contents ++ rest /\ valid_tag tag /\ len contents < 2 ^ 32).
Proof. intros Hb. split; intros; [by apply get_any_element_spec | by apply get_asn1_spec]. Qed.

Lemma der_reader_exact_witness :
  CBS_get_asn1 CBS_ASN1_OCTETSTRING [4; 2; 7; 8; 9] = (Some [7; 8], [9]).
Proof.
  apply (proj2 (der_reader_exact [4; 2; 7; 8; 9] ltac:(apply (bool_decide_unpack _); vm_compute; exact I))).
  split_and!; [reflexivity | | reflexivity]. split; [unfold fits; vm_compute; split; [discriminate | reflexivity] |].
  vm_compute. discriminate.
Defined.

(** the BER reader extends the DER reader and its [ber_found] flag is exact: the DER
    reader returns [e] exactly when the BER reader returns it with [*out_ber_found] clear,
    and the flag of an element read as BER is clear exactly when the bytes of the element
    are a DER encoding. *)
Theorem ber_found_exact cbs e rest :
  bytes_ok cbs ->
  (CBS_get_any_asn1_element cbs = (Some e, rest) <->
   CBS_get_any_ber_asn1_element cbs = (Some e, rest) /\ el_ber_found e = false) /\
  (CBS_get_any_ber_asn1_element cbs = (Some e, rest) ->
   el_ber_found e = false <->
   exists tag contents, el_out e = der_element tag contents /\ valid_tag tag /\ len contents < 2 ^ 32).
Proof.
  intros Hok. split; [by apply ber_element_der |]. intros Hber. split.
  - intros Hf. pose proof (proj2 (ber_element_der cbs e rest Hok) (conj Hber Hf)) as H.
    apply get_any_element_spec in H as (tag & contents & _ & ? & ? & ->); [| done]. by exists tag, contents.
  - intros (tag & contents & E & Ht & Hl). pose proof (ber_element_app _ _ _ Hber) as Hc. rewrite E in Hc.
    destruct (proj1 (ber_element_der cbs _ rest Hok) (proj2 (get_any_element_spec cbs _ rest Hok)
      (ex_intro _ tag (ex_intro _ contents (conj Hc (conj Ht (conj Hl eq_refl))))))) as [H _].
    rewrite Hber in H. by injection H as ->.
Qed.

Lemma ber_found_exact_witness :
  CBS_get_any_asn1_element [48; 1; 5; 0] = (Some (mk_element [48; 1; 5] (2 ^ 29 + 16) 2 false false), [0]) /\
  ~ exists tag contents, [48; 129; 1; 5] = der_element tag contents /\ valid_tag tag /\ len contents < 2 ^ 32.
Proof.
  split.
  - apply (ber_found_exact [48; 1; 5; 0]); [apply (bool_decide_unpack _); vm_compute; exact I |].
    split; reflexivity.
  - intros H. apply (proj2 (ber_found_exact [48; 129; 1; 5; 0] (mk_element [48; 129; 1; 5] (2 ^ 29 + 16) 3 true false) [0]
      ltac:(apply (bool_decide_unpack _); vm_compute; exact I)) eq_refl) in H.
    discriminate H.
Defined.

(** [CBS_is_valid_asn1_integer] accepts exactly the non-empty octet strings that are
    a shortest two's complement representation of their value, and reports its sign. *)
Theorem asn1_integer_minimal cs :
  bytes_ok cs ->
  (is_Some (CBS_is_valid_asn1_integer cs) <-> minimal_integer cs) /\
  (forall neg, CBS_is_valid_asn1_integer cs = Some neg -> neg = (signed_value cs <? 0)).
Proof.
  intros Hok. split; [by apply valid_integer_minimal |]. intros neg. by apply valid_integer_negative.
Qed.

Lemma asn1_integer_minimal_witness :
  CBS_is_valid_asn1_integer [0x80; 1] = Some true /\ minimal_integer [0x80; 1].
Proof.
  split; [reflexivity |]. apply (asn1_integer_minimal [0x80; 1]); [| by eexists].
  apply (bool_decide_unpack _); vm_compute; exact I.
Defined.

(** [CBS_get_asn1_uint64] and [CBS_get_asn1_int64] succeed exactly on a DER INTEGER,
    shortest form, whose value fits [uint64_t] respectively [int64_t], and return that
    value: no value in range is refused, none out of range wraps around. *)
Theorem asn1_int_readers_exact cbs v rest :
  bytes_ok cbs ->
  (CBS_get_asn1_uint64 cbs = (Some v, rest) <->
   exists cs, cbs = der_element CBS_ASN1_INTEGER cs ++ rest /\ len cs < 2 ^ 32 /\ minimal_integer cs
              /\ v = signed_value cs /\ 0 <= v < 2 ^ 64) /\
  (CBS_get_asn1_int64 cbs = (Some v, rest) <->
   exists cs, cbs = der_element CBS_ASN1_INTEGER cs ++ rest /\ len cs < 2 ^ 32 /\ minimal_integer cs
              /\ v = signed_value cs /\ - 2 ^ 63 <= v < 2 ^ 63).
Proof. apply int_readers_spec. Qed.

Lemma asn1_int_readers_exact_witness :
  CBS_get_asn1_int64 [2; 1; 0xff; 5] = (Some (-1), [5]) /\
  CBS_get_asn1_uint64 [2; 2; 0; 0xff] = (Some 255, []).
Proof.
  split.
  - apply (asn1_int_readers_exact [2; 1; 0xff; 5] (-1) [5]);
      [apply (bool_decide_unpack _); vm_compute; exact I |].
    exists [0xff]. split_and!; try reflexivity; try (vm_compute; discriminate).
    apply valid_integer_minimal; [apply (bool_decide_unpack _); vm_compute; exact I | by eexists].
  - apply (asn1_int_readers_exact [2; 2; 0; 0xff] 255 []);
      [apply (bool_decide_unpack _); vm_compute; exact I |].
    exists [0; 0xff]. split_and!; try reflexivity; try (vm_compute; discriminate).
    apply valid_integer_minimal; [apply (bool_decide_unpack _); vm_compute; exact I | by eexists].
Defined.

End Der.
