(* ===== verification/CbsMem.v ===== *)
(** The CBS reader on memory (crypto/bytestring/cbs.c).

    [Cbs] reads a list of bytes, which has no outside.  Here a CBS is what the C
    structure is, a pointer and a length, over the buffer [buf] it was initialised
    with: [load] and [ptr_add] return [None], which stops the program, when a byte is
    read or a pointer formed outside the buffer, and so does a failing [assert].  Every
    length is a [size_t] and wraps.  A reading function is a [reader]: [None] for such
    an error (or for a loop that outlives its fuel), otherwise the value written to the
    out parameter, [None] for the return value 0, and the new [*cbs].

    A client holds a pool of CBSs, calls any function on any of them, and adds to the
    pool the strings it is handed.  The theorem: no call of any such client makes an
    error, and the answers are those of the list model of [Cbs]. *)

From S2P Require Import Prelude Internal PosixTime Cbs.
Import Internal.
Local Open Scope c_scope.

Module CbsMem.

(** [struct cbs_st]; [data] is an offset into the buffer. *)
Record cbs_st := mk_cbs { data : Z; clen : Z }.

(** * The reader monad, with memory errors *)

Definition reader (A : Type) : Type := cbs_st -> option (option A * cbs_st).

Definition r_ret {A} (a : A) : reader A := fun cbs => Some (Some a, cbs).
Definition r_fail {A} : reader A := fun cbs => Some (None, cbs).
Definition r_bind {A B} (m : reader A) (k : A -> reader B) : reader B :=
  fun cbs => match m cbs with
             | Some (Some a, cbs') => k a cbs'
             | Some (None, cbs') => Some (None, cbs')
             | None => None
             end.
Definition r_guard (b : bool) : reader unit := if b then r_ret tt else r_fail.

(** A memory access, and an [assert]. *)
Definition r_mem {A} (o : option A) : reader A :=
  fun cbs => match o with Some a => Some (Some a, cbs) | None => None end.
Definition r_assert (b : bool) : reader unit := r_mem (if b then Some tt else None).

(** A function called on another CBS object [h], with the object it leaves. *)
Definition r_on {A} (h : cbs_st) (m : reader A) : reader (A * cbs_st) :=
  fun cbs => match m h with
             | Some (Some a, h') => Some (Some (a, h'), cbs)
             | Some (None, _) => Some (None, cbs)
             | None => None
             end.

Notation "'let*' x := m 'in' k" := (r_bind m (fun x => k))
  (at level 10, x pattern, m at level 100, k at level 200).
Notation "'require' b ';;' k" := (r_bind (r_guard b) (fun _ => k))
  (at level 10, b at level 99, k at level 200).

(** * Calls and answers

    One constructor per reading function.  An answer holds what the call wrote to its
    out parameters; [S] is the type of strings, CBSs or lists of bytes. *)

Inductive cbs_call :=
  | Call_skip (n : Z) | Call_u8 | Call_u16 | Call_u16le | Call_u24 | Call_u32 | Call_u32le
  | Call_u64 | Call_u64le | Call_last_u8 | Call_bytes (n : Z) | Call_copy_bytes (n : Z)
  | Call_u8_prefixed | Call_u16_prefixed | Call_u24_prefixed | Call_until_first (c : Z)
  | Call_u64_decimal | Call_any_asn1 | Call_any_asn1_element | Call_any_ber_asn1_element
  | Call_asn1 (tag : Z) | Call_asn1_element (tag : Z) | Call_asn1_uint64 | Call_asn1_int64
  | Call_asn1_bool | Call_optional_asn1 (tag : Z) | Call_optional_octet_string (tag : Z)
  | Call_optional_uint64 (tag d : Z) | Call_optional_int64 (tag d : Z)
  | Call_optional_bool (tag : Z) (d : bool) | Call_peek_asn1_tag (tag : Z)
  | Call_contains_zero_byte | Call_is_valid_bitstring | Call_bitstring_has_bit (bit : Z)
  | Call_is_unsigned_integer | Call_is_valid_oid.

Inductive answer (S : Type) :=
  | Failed
  | Done
  | Word (v : Z)
  | Flag (b : bool)
  | Copied (bs : bytes)
  | Str (s : S)
  | Tagged (s : S) (tag : Z)
  | Element (s : S) (tag header_len : Z) (ber_found indefinite : bool)
  | Optional (o : option S).
#[global] Arguments Failed {S}.
#[global] Arguments Done {S}.
#[global] Arguments Word {S} v.
#[global] Arguments Flag {S} b.
#[global] Arguments Copied {S} bs.
#[global] Arguments Str {S} s.
#[global] Arguments Tagged {S} s tag.
#[global] Arguments Element {S} s tag header_len ber_found indefinite.
#[global] Arguments Optional {S} o.

(** The strings an answer hands out. *)
Definition strings {S} (a : answer S) : list S :=
  match a with
  | Str s | Tagged s _ | Element s _ _ _ _ | Optional (Some s) => [s]
  | _ => []
  end.

(** An argument that a [size_t] or an [unsigned] holds. *)
Definition call_ok (c : cbs_call) : Prop :=
  match c with
  | Call_skip n | Call_bytes n | Call_copy_bytes n => fits 64 n
  | Call_bitstring_has_bit bit => fits 32 bit
  | _ => True
  end.

Section Buffer.
Context (buf : bytes).

(** [*p], and [p + n]: a pointer may be one past the end. *)
Definition load (p : Z) : option Z := if p <? 0 then None else buf !! Z.to_nat p.
Definition ptr_add (p n : Z) : option Z :=
  if (0 <=? p + n) && (p + n <=? len buf) then Some (p + n) else None.

(** * Bytes and fixed-width integers *)

Definition CBS_init (p n : Z) : cbs_st := mk_cbs p n.

Definition cbs_get (n : Z) : reader Z := fun cbs =>
  if clen cbs <? n then Some (None, cbs)
  else match ptr_add (data cbs) n with
       | Some d => Some (Some (data cbs), mk_cbs d (u64 (clen cbs - n)))
       | None => None
       end.

Definition CBS_skip (n : Z) : reader unit := let* _ := cbs_get n in r_ret tt.

Fixpoint get_u_loop (k : nat) (p result : Z) : option Z :=
  match k with
  | O => Some result
  | S k => match load p with
           | Some b => get_u_loop k (p + 1) (Z.lor (u64 (Z.shiftl result 8)) b)
           | None => None
           end
  end.

Definition cbs_get_u (n : Z) : reader Z :=
  let* p := cbs_get n in r_mem (get_u_loop (Z.to_nat n) p 0).

Definition CBS_get_u8 : reader Z := let* v := cbs_get 1 in r_mem (load v).
Definition CBS_get_u16 : reader Z := let* v := cbs_get_u 2 in r_ret (u16 v).
Definition CBS_get_u16le : reader Z := let* v := CBS_get_u16 in r_ret (CRYPTO_bswap2 v).
Definition CBS_get_u24 : reader Z := let* v := cbs_get_u 3 in r_ret (u32 v).
Definition CBS_get_u32 : reader Z := let* v := cbs_get_u 4 in r_ret (u32 v).
Definition CBS_get_u32le : reader Z := let* v := CBS_get_u32 in r_ret (CRYPTO_bswap4 v).
Definition CBS_get_u64 : reader Z := cbs_get_u 8.
Definition CBS_get_u64le : reader Z := let* v := cbs_get_u 8 in r_ret (CRYPTO_bswap8 v).

Definition CBS_get_last_u8 : reader Z := fun cbs =>
  if clen cbs =? 0 then Some (None, cbs)
  else match load (data cbs + u64 (clen cbs - 1)) with
       | Some v => Some (Some v, mk_cbs (data cbs) (u64 (clen cbs - 1)))
       | None => None
       end.

Definition CBS_get_bytes (n : Z) : reader cbs_st :=
  let* v := cbs_get n in r_ret (CBS_init v n).

(** The source of [OPENSSL_memcpy(out, p, k)]. *)
Fixpoint load_bytes (k : nat) (p : Z) : option bytes :=
  match k with
  | O => Some []
  | S k => match load p, load_bytes k (p + 1) with
           | Some b, Some bs => Some (b :: bs)
           | _, _ => None
           end
  end.

Definition CBS_copy_bytes (n : Z) : reader bytes :=
  let* v := cbs_get n in r_mem (load_bytes (Z.to_nat n) v).

Definition cbs_get_length_prefixed (len_len : Z) : reader cbs_st :=
  let* n := cbs_get_u len_len in
  let* _ := r_assert (len_len <=? 3) in
  CBS_get_bytes n.

Definition CBS_get_u8_length_prefixed : reader cbs_st := cbs_get_length_prefixed 1.
Definition CBS_get_u16_length_prefixed : reader cbs_st := cbs_get_length_prefixed 2.
Definition CBS_get_u24_length_prefixed : reader cbs_st := cbs_get_length_prefixed 3.

(** [memchr(p, c, k)]: reads up to the first match. *)
Fixpoint memchr (k : nat) (p c : Z) : option (option Z) :=
  match k with
  | O => Some None
  | S k => match load p with
           | Some b => if b =? c then Some (Some p) else memchr k (p + 1) c
           | None => None
           end
  end.

(** The CBS itself, for the functions that read its fields. *)
Definition r_this : reader cbs_st := fun cbs => Some (Some cbs, cbs).

Definition CBS_contains_zero_byte : reader bool :=
  let* cbs := r_this in
  let* found := r_mem (memchr (Z.to_nat (clen cbs)) (data cbs) 0) in
  r_ret (match found with Some _ => true | None => false end).

Definition CBS_get_until_first (c : Z) : reader cbs_st :=
  let* cbs := r_this in
  let* split := r_mem (memchr (Z.to_nat (clen cbs)) (data cbs) c) in
  match split with
  | None => r_fail
  | Some split => CBS_get_bytes (u64 (split - data cbs))
  end.

(** The loop of [CBS_get_u64_decimal]; [fuel] bounds its rounds. *)
Fixpoint decimal_loop (fuel : nat) (v : Z) (seen_digit : bool) : reader Z :=
  match fuel with
  | O => r_mem None
  | S fuel =>
      let* cbs := r_this in
      let done := if seen_digit then r_ret v else r_fail in
      if clen cbs =? 0 then done
      else
        let* c := r_mem (load (data cbs)) in
        if negb (OPENSSL_isdigit c) then done
        else
          let* _ := CBS_skip 1 in
          if ((v =? 0) && seen_digit) || (v >? Cbs.UINT64_MAX / 10)
             || (u64 (v * 10) >? Cbs.UINT64_MAX - (c - 48))
          then r_fail
          else decimal_loop fuel (u64 (v * 10 + (c - 48))) true
  end.

Definition CBS_get_u64_decimal : reader Z :=
  let* cbs := r_this in decimal_loop (S (Z.to_nat (clen cbs))) 0 false.

(** * ASN.1 tags and elements *)

Fixpoint base128_loop (fuel : nat) (v : Z) : reader Z :=
  match fuel with
  | O => r_mem None
  | S fuel =>
      let* b := CBS_get_u8 in
      require (Z.shiftr v (64 - 7) =? 0) ;;
      require negb ((v =? 0) && (b =? 0x80)) ;;
      let v := Z.lor (u64 (Z.shiftl v 7)) (Z.land b 0x7f) in
      if negb (Z.land b 0x80 =? 0) then base128_loop fuel v else r_ret v
  end.

Definition parse_base128_integer : reader Z :=
  let* cbs := r_this in base128_loop (S (Z.to_nat (clen cbs))) 0.

Definition parse_asn1_tag (universal_tag_ok : bool) : reader Z :=
  let* tag_byte := CBS_get_u8 in
  let tag := Z.shiftl (Z.land tag_byte 0xe0) Cbs.CBS_ASN1_TAG_SHIFT in
  let tag_number := Z.land tag_byte 0x1f in
  let* tag_number :=
    (if tag_number =? 0x1f then
       let* v := parse_base128_integer in
       require negb ((v >? Cbs.CBS_ASN1_TAG_NUMBER_MASK) || (v <? 0x1f)) ;;
       r_ret v
     else r_ret tag_number) in
  let tag := Z.lor tag tag_number in
  require negb (negb universal_tag_ok && (Z.land tag (wnot 32 Cbs.CBS_ASN1_CONSTRUCTED) =? 0)) ;;
  r_ret tag.

(** The out parameters of [cbs_get_any_asn1_element]. *)
Record asn1_element := mk_element {
  el_out : cbs_st; el_tag : Z; el_header_len : Z; el_ber_found : bool; el_indefinite : bool
}.

Definition cbs_get_any_asn1_element (ber_ok universal_tag_ok : bool) : reader asn1_element :=
  let* cbs := r_this in
  let* (tag, header) := r_on cbs (parse_asn1_tag universal_tag_ok) in
  let* (length_byte, header) := r_on header CBS_get_u8 in
  let header_len := u64 (clen cbs - clen header) in
  if Z.land length_byte 0x80 =? 0 then
    let* out := CBS_get_bytes (u64 (length_byte + header_len)) in
    r_ret (mk_element out tag header_len false false)
  else
    let num_bytes := Z.land length_byte 0x7f in
    if ber_ok && negb (Z.land tag Cbs.CBS_ASN1_CONSTRUCTED =? 0) && (num_bytes =? 0) then
      let* out := CBS_get_bytes header_len in
      r_ret (mk_element out tag header_len true true)
    else
      require negb ((num_bytes =? 0) || (num_bytes >? 4)) ;;
      let* (len64, header) := r_on header (cbs_get_u num_bytes) in
      let long_form_bad := len64 <? 128 in
      require (ber_ok || negb long_form_bad) ;;
      let not_minimal := Z.shiftr len64 ((num_bytes - 1) * 8) =? 0 in
      require (ber_ok || negb not_minimal) ;;
      let len := len64 in
      require negb (u64 (len + header_len + num_bytes) <? len) ;;
      let len := u64 (len + u64 (header_len + num_bytes)) in
      let* out := CBS_get_bytes len in
      r_ret (mk_element out tag (u64 (header_len + num_bytes)) (long_form_bad || not_minimal) false).

Definition CBS_get_any_asn1_element : reader asn1_element := cbs_get_any_asn1_element false false.
Definition CBS_get_any_ber_asn1_element : reader asn1_element := cbs_get_any_asn1_element true false.

(** [if (!CBS_skip(out, n)) { assert(0); return 0; }]: a failure is an error. *)
Definition skip_out (out : cbs_st) (n : Z) : reader cbs_st := fun cbs =>
  match CBS_skip n out with
  | Some (Some _, out') => Some (Some out', cbs)
  | _ => None
  end.

Definition CBS_get_any_asn1 : reader (cbs_st * Z) :=
  let* e := CBS_get_any_asn1_element in
  let* out := skip_out (el_out e) (el_header_len e) in
  r_ret (out, el_tag e).

Definition cbs_get_asn1 (tag_value : Z) (skip_header : bool) : reader cbs_st :=
  let* e := CBS_get_any_asn1_element in
  require (el_tag e =? tag_value) ;;
  if skip_header then skip_out (el_out e) (el_header_len e) else r_ret (el_out e).

Definition CBS_get_asn1 (tag_value : Z) : reader cbs_st := cbs_get_asn1 tag_value true.
Definition CBS_get_asn1_element (tag_value : Z) : reader cbs_st := cbs_get_asn1 tag_value false.

(** A function of a [const CBS *] that works on a copy: its verdict, and the CBS as it was. *)
Definition r_const (m : reader bool) : reader bool := fun cbs =>
  match m cbs with
  | Some (Some b, _) => Some (Some b, cbs)
  | Some (None, _) => Some (Some false, cbs)
  | None => None
  end.

Definition CBS_peek_asn1_tag (tag_value : Z) : reader bool :=
  r_const (let* actual_tag := parse_asn1_tag false in r_ret (tag_value =? actual_tag)).

(** * ASN.1 types *)

Definition CBS_is_valid_asn1_integer : reader bool :=
  let* cbs := r_this in
  let* (first_byte, copy) := r_on cbs CBS_get_u8 in
  let is_negative := negb (Z.land first_byte 0x80 =? 0) in
  fun cbs =>
  match CBS_get_u8 copy with
  | None => None
  | Some (None, _) => Some (Some is_negative, cbs)
  | Some (Some second_byte, _) =>
      if ((first_byte =? 0x00) && (Z.land second_byte 0x80 =? 0))
         || ((first_byte =? 0xff) && negb (Z.land second_byte 0x80 =? 0))
      then Some (None, cbs) else Some (Some is_negative, cbs)
  end.

Definition CBS_is_unsigned_asn1_integer : reader bool :=
  r_const (let* is_negative := CBS_is_valid_asn1_integer in r_ret (negb is_negative)).

(** The loop of [CBS_get_asn1_uint64], at [data + i] with [k] bytes left. *)
Fixpoint uint64_loop (k : nat) (p out : Z) : option (option Z) :=
  match k with
  | O => Some (Some out)
  | S k =>
      if negb (Z.shiftr out 56 =? 0) then Some None
      else match load p with
           | Some b => uint64_loop k (p + 1) (Z.lor (u64 (Z.shiftl out 8)) b)
           | None => None
           end
  end.

Definition r_option {A} (o : option A) : reader A := fun cbs => Some (o, cbs).

Definition CBS_get_asn1_uint64 : reader Z :=
  let* bytes := CBS_get_asn1 Cbs.CBS_ASN1_INTEGER in
  let* (ok, _) := r_on bytes CBS_is_unsigned_asn1_integer in
  require ok ;;
  let* out := r_mem (uint64_loop (Z.to_nat (clen bytes)) (data bytes) 0) in
  r_option out.

(** The loop of [CBS_get_asn1_int64]: [i < len && i < sizeof(int64_t)]. *)
Fixpoint int64_loop (k : nat) (data n i : Z) (sign_extend : bytes) : option bytes :=
  match k with
  | O => Some sign_extend
  | S k =>
      if (i <? n) && (i <? 8) then
        match load (data + u64 (n - i - 1)) with
        | Some b => int64_loop k data n (i + 1) (<[Z.to_nat i := b]> sign_extend)
        | None => None
        end
      else Some sign_extend
  end.

Definition CBS_get_asn1_int64 : reader Z :=
  let* bytes := CBS_get_asn1 Cbs.CBS_ASN1_INTEGER in
  let* (is_negative, _) := r_on bytes CBS_is_valid_asn1_integer in
  require negb (clen bytes >? 8) ;;
  let sign_extend := replicate 8 (if is_negative : bool then 0xff else 0) in
  let* sign_extend := r_mem (int64_loop 8 (data bytes) (clen bytes) 0 sign_extend) in
  r_ret (Cbs.int64_of_le_bytes sign_extend).

Definition CBS_get_asn1_bool : reader bool :=
  let* bytes := CBS_get_asn1 Cbs.CBS_ASN1_BOOLEAN in
  require (clen bytes =? 1) ;;
  let* value := r_mem (load (data bytes)) in
  require negb (negb (value =? 0) && negb (value =? 0xff)) ;;
  r_ret (negb (value =? 0)).

Definition CBS_get_optional_asn1 (tag : Z) : reader (option cbs_st) :=
  let* present := CBS_peek_asn1_tag tag in
  if present then let* out := CBS_get_asn1 tag in r_ret (Some out) else r_ret None.

(** [m(&child, out) && CBS_len(&child) == 0]. *)
Definition r_whole {A} (m : reader A) (child : cbs_st) : reader A :=
  let* (a, child) := r_on child m in
  require (clen child =? 0) ;;
  r_ret a.

(** [None] is the [CBS_init(out, NULL, 0)] of an absent element. *)
Definition CBS_get_optional_asn1_octet_string (tag : Z) : reader (option cbs_st) :=
  let* child := CBS_get_optional_asn1 tag in
  match child with
  | Some child => let* out := r_whole (CBS_get_asn1 Cbs.CBS_ASN1_OCTETSTRING) child in r_ret (Some out)
  | None => r_ret None
  end.

Definition CBS_get_optional_asn1_uint64 (tag default_value : Z) : reader Z :=
  let* child := CBS_get_optional_asn1 tag in
  match child with
  | Some child => r_whole CBS_get_asn1_uint64 child
  | None => r_ret default_value
  end.

Definition CBS_get_optional_asn1_int64 (tag default_value : Z) : reader Z :=
  let* child := CBS_get_optional_asn1 tag in
  match child with
  | Some child => r_whole CBS_get_asn1_int64 child
  | None => r_ret default_value
  end.

Definition CBS_get_optional_asn1_bool (tag : Z) (default_value : bool) : reader bool :=
  let* child := CBS_get_optional_asn1 tag in
  match child with
  | Some child =>
      let* (child2, child) := r_on child (CBS_get_asn1 Cbs.CBS_ASN1_BOOLEAN) in
      require (clen child2 =? 1) ;;
      require (clen child =? 0) ;;
      let* boolean := r_mem (load (data child2)) in
      if boolean =? 0 then r_ret false
      else if boolean =? 0xff then r_ret true else r_fail
  | None => r_ret default_value
  end.

Definition CBS_is_valid_asn1_bitstring : reader bool :=
  r_const (
    let* num_unused_bits := CBS_get_u8 in
    require negb (num_unused_bits >? 7) ;;
    if num_unused_bits =? 0 then r_ret true
    else let* last := CBS_get_last_u8 in
         r_ret (Z.land last (Z.shiftl 1 num_unused_bits - 1) =? 0)).

Definition CBS_asn1_bitstring_has_bit (bit : Z) : reader bool :=
  let* cbs := r_this in
  let* valid := CBS_is_valid_asn1_bitstring in
  if negb valid then r_ret false
  else
    let byte_num := u32 (Z.shiftr bit 3 + 1) in
    let bit_num := 7 - Z.land bit 7 in
    if byte_num <? clen cbs then
      let* b := r_mem (load (data cbs + byte_num)) in
      r_ret (negb (Z.land b (Z.shiftl 1 bit_num) =? 0))
    else r_ret false.

(** The loop of [CBS_is_valid_asn1_oid] on its copy of the CBS. *)
Fixpoint oid_loop (fuel : nat) (prev : Z) (copy : cbs_st) : option bool :=
  match fuel with
  | O => None
  | S fuel =>
      match CBS_get_u8 copy with
      | None => None
      | Some (None, _) => Some (Z.land prev 0x80 =? 0)
      | Some (Some v, copy) =>
          if (Z.land prev 0x80 =? 0) && (v =? 0x80) then Some false else oid_loop fuel v copy
      end
  end.

Definition CBS_is_valid_asn1_oid : reader bool :=
  let* cbs := r_this in
  if clen cbs =? 0 then r_ret false
  else r_mem (oid_loop (S (Z.to_nat (clen cbs))) 0 cbs).

(** * Clients

    A client calls any function on any CBS of its pool, whether earlier calls failed or
    not, and adds the strings it is handed to the pool. *)

Definition ask {A} (f : A -> answer cbs_st) (m : reader A) : cbs_st -> option (answer cbs_st * cbs_st) :=
  fun cbs => match m cbs with
             | Some (Some a, cbs') => Some (f a, cbs')
             | Some (None, cbs') => Some (Failed, cbs')
             | None => None
             end.

Definition element (e : asn1_element) : answer cbs_st :=
  Element (el_out e) (el_tag e) (el_header_len e) (el_ber_found e) (el_indefinite e).

Definition do_call (c : cbs_call) : cbs_st -> option (answer cbs_st * cbs_st) :=
  match c with
  | Call_skip n => ask (fun _ => Done) (CBS_skip n)
  | Call_u8 => ask Word CBS_get_u8
  | Call_u16 => ask Word CBS_get_u16
  | Call_u16le => ask Word CBS_get_u16le
  | Call_u24 => ask Word CBS_get_u24
  | Call_u32 => ask Word CBS_get_u32
  | Call_u32le => ask Word CBS_get_u32le
  | Call_u64 => ask Word CBS_get_u64
  | Call_u64le => ask Word CBS_get_u64le
  | Call_last_u8 => ask Word CBS_get_last_u8
  | Call_bytes n => ask Str (CBS_get_bytes n)
  | Call_copy_bytes n => ask Copied (CBS_copy_bytes n)
  | Call_u8_prefixed => ask Str CBS_get_u8_length_prefixed
  | Call_u16_prefixed => ask Str CBS_get_u16_length_prefixed
  | Call_u24_prefixed => ask Str CBS_get_u24_length_prefixed
  | Call_until_first c => ask Str (CBS_get_until_first c)
  | Call_u64_decimal => ask Word CBS_get_u64_decimal
  | Call_any_asn1 => ask (fun '(s, tag) => Tagged s tag) CBS_get_any_asn1
  | Call_any_asn1_element => ask element CBS_get_any_asn1_element
  | Call_any_ber_asn1_element => ask element CBS_get_any_ber_asn1_element
  | Call_asn1 tag => ask Str (CBS_get_asn1 tag)
  | Call_asn1_element tag => ask Str (CBS_get_asn1_element tag)
  | Call_asn1_uint64 => ask Word CBS_get_asn1_uint64
  | Call_asn1_int64 => ask Word CBS_get_asn1_int64
  | Call_asn1_bool => ask Flag CBS_get_asn1_bool
  | Call_optional_asn1 tag => ask Optional (CBS_get_optional_asn1 tag)
  | Call_optional_octet_string tag => ask Optional (CBS_get_optional_asn1_octet_string tag)
  | Call_optional_uint64 tag d => ask Word (CBS_get_optional_asn1_uint64 tag d)
  | Call_optional_int64 tag d => ask Word (CBS_get_optional_asn1_int64 tag d)
  | Call_optional_bool tag d => ask Flag (CBS_get_optional_asn1_bool tag d)
  | Call_peek_asn1_tag tag => ask Flag (CBS_peek_asn1_tag tag)
  | Call_contains_zero_byte => ask Flag CBS_contains_zero_byte
  | Call_is_valid_bitstring => ask Flag CBS_is_valid_asn1_bitstring
  | Call_bitstring_has_bit bit => ask Flag (CBS_asn1_bitstring_has_bit bit)
  | Call_is_unsigned_integer => ask Flag CBS_is_unsigned_asn1_integer
  | Call_is_valid_oid => ask Flag CBS_is_valid_asn1_oid
  end.

Fixpoint do_calls (cs : list (nat * cbs_call)) (pool : list cbs_st)
    : option (list (answer cbs_st) * list cbs_st) :=
  match cs with
  | [] => Some ([], pool)
  | (i, c) :: cs =>
      match pool !! i with
      | None => do_calls cs pool
      | Some cbs =>
          match do_call c cbs with
          | None => None
          | Some (a, cbs') =>
              match do_calls cs (<[i := cbs']> pool ++ strings a) with
              | None => None
              | Some (answers, pool') => Some (a :: answers, pool')
              end
          end
      end
  end.

End Buffer.

(** The same client of the list model. *)
Definition list_ask {A} (f : A -> answer bytes) (m : parser A) : bytes -> answer bytes * bytes :=
  fun cbs => match m cbs with
             | (Some a, cbs') => (f a, cbs')
             | (None, cbs') => (Failed, cbs')
             end.

Definition list_element (e : Cbs.asn1_element) : answer bytes :=
  Element (Cbs.el_out e) (Cbs.el_tag e) (Cbs.el_header_len e) (Cbs.el_ber_found e) (Cbs.el_indefinite e).

Definition list_call (c : cbs_call) : bytes -> answer bytes * bytes :=
  match c with
  | Call_skip n => list_ask (fun _ => Done) (Cbs.CBS_skip n)
  | Call_u8 => list_ask Word Cbs.CBS_get_u8
  | Call_u16 => list_ask Word Cbs.CBS_get_u16
  | Call_u16le => list_ask Word Cbs.CBS_get_u16le
  | Call_u24 => list_ask Word Cbs.CBS_get_u24
  | Call_u32 => list_ask Word Cbs.CBS_get_u32
  | Call_u32le => list_ask Word Cbs.CBS_get_u32le
  | Call_u64 => list_ask Word Cbs.CBS_get_u64
  | Call_u64le => list_ask Word Cbs.CBS_get_u64le
  | Call_last_u8 => list_ask Word Cbs.CBS_get_last_u8
  | Call_bytes n => list_ask Str (Cbs.CBS_get_bytes n)
  | Call_copy_bytes n => list_ask Copied (Cbs.CBS_copy_bytes n)
  | Call_u8_prefixed => list_ask Str Cbs.CBS_get_u8_length_prefixed
  | Call_u16_prefixed => list_ask Str Cbs.CBS_get_u16_length_prefixed
  | Call_u24_prefixed => list_ask Str Cbs.CBS_get_u24_length_prefixed
  | Call_until_first c => list_ask Str (Cbs.CBS_get_until_first c)
  | Call_u64_decimal => list_ask Word Cbs.CBS_get_u64_decimal
  | Call_any_asn1 => list_ask (fun '(s, tag) => Tagged s tag) Cbs.CBS_get_any_asn1
  | Call_any_asn1_element => list_ask list_element Cbs.CBS_get_any_asn1_element
  | Call_any_ber_asn1_element => list_ask list_element Cbs.CBS_get_any_ber_asn1_element
  | Call_asn1 tag => list_ask Str (Cbs.CBS_get_asn1 tag)
  | Call_asn1_element tag => list_ask Str (Cbs.CBS_get_asn1_element tag)
  | Call_asn1_uint64 => list_ask Word Cbs.CBS_get_asn1_uint64
  | Call_asn1_int64 => list_ask Word Cbs.CBS_get_asn1_int64
  | Call_asn1_bool => list_ask Flag Cbs.CBS_get_asn1_bool
  | Call_optional_asn1 tag => list_ask Optional (Cbs.CBS_get_optional_asn1 tag)
  | Call_optional_octet_string tag => list_ask Optional (Cbs.CBS_get_optional_asn1_octet_string tag)
  | Call_optional_uint64 tag d => list_ask Word (Cbs.CBS_get_optional_asn1_uint64 tag d)
  | Call_optional_int64 tag d => list_ask Word (Cbs.CBS_get_optional_asn1_int64 tag d)
  | Call_optional_bool tag d => list_ask Flag (Cbs.CBS_get_optional_asn1_bool tag d)
  | Call_peek_asn1_tag tag => fun cbs => (Flag (Cbs.CBS_peek_asn1_tag cbs tag), cbs)
  | Call_contains_zero_byte => fun cbs => (Flag (Cbs.CBS_contains_zero_byte cbs), cbs)
  | Call_is_valid_bitstring => fun cbs => (Flag (Cbs.CBS_is_valid_asn1_bitstring cbs), cbs)
  | Call_bitstring_has_bit bit => fun cbs => (Flag (Cbs.CBS_asn1_bitstring_has_bit cbs bit), cbs)
  | Call_is_unsigned_integer => fun cbs => (Flag (Cbs.CBS_is_unsigned_asn1_integer cbs), cbs)
  | Call_is_valid_oid => fun cbs => (Flag (Cbs.CBS_is_valid_asn1_oid cbs), cbs)
  end.

Fixpoint list_calls (cs : list (nat * cbs_call)) (pool : list bytes)
    : list (answer bytes) * list bytes :=
  match cs with
  | [] => ([], pool)
  | (i, c) :: cs =>
      match pool !! i with
      | None => list_calls cs pool
      | Some cbs =>
          let '(a, cbs') := list_call c cbs in
          let '(answers, pool') := list_calls cs (<[i := cbs']> pool ++ strings a) in
          (a :: answers, pool')
      end
  end.

(** * The list model is what the memory holds *)

(** The bytes a CBS designates lie in the buffer. *)
Definition valid (buf : bytes) (c : cbs_st) : Prop :=
  0 <= data c /\ 0 <= clen c /\ data c + clen c <= len buf.

Definition view (buf : bytes) (c : cbs_st) : bytes :=
  take (Z.to_nat (clen c)) (drop (Z.to_nat (data c)) buf).

(** [c] designates the string [l]. *)
Definition rep (buf : bytes) (c : cbs_st) (l : bytes) : Prop := valid buf c /\ view buf c = l.

(** A call that made no error, against a result of the list model: both fail or both
    succeed with related values, and the CBS left designates the string left. *)
Inductive sim (buf : bytes) {A B} (R : A -> B -> Prop) (c0 : cbs_st)
    : option (option A * cbs_st) -> option B * bytes -> Prop :=
  | sim_some a b c l : R a b -> rep buf c l -> clen c <= clen c0 ->
      sim buf R c0 (Some (Some a, c)) (Some b, l)
  | sim_none c l : rep buf c l -> clen c <= clen c0 -> sim buf R c0 (Some (None, c)) (None, l).

Definition refines (buf : bytes) {A B} (R : A -> B -> Prop) (m : reader A) (p : parser B) : Prop :=
  forall c l, rep buf c l -> sim buf R c (m c) (p l).

(** Values: equal, or equal and of a width. *)
Definition word_rep (w x y : Z) : Prop := x = y /\ fits w x.

Section Refinement.
Context (buf : bytes) (Hbuf : bytes_ok buf) (Hlen : len buf < 2 ^ 63).

Lemma rep_len c l : rep buf c l -> clen c = len l.
Proof.
  intros [(H0 & H1 & H2) <-]. unfold view, len in *. rewrite length_take, length_drop. lia.
Qed.

Lemma rep_bounds c l : rep buf c l -> 0 <= clen c < 2 ^ 63.
Proof. intros [(H0 & H1 & H2) _]. lia. Qed.

Lemma rep_ok c l : rep buf c l -> bytes_ok l.
Proof. intros [_ <-]. unfold view. auto with bytes_db. Qed.

Lemma load_rep c l i b : rep buf c l -> 0 <= i -> l !! Z.to_nat i = Some b -> load buf (data c + i) = Some b.
Proof.
  intros [(H0 & H1 & H2) <-] Hi. unfold view, load. intros Hb.
  apply lookup_take_Some in Hb as [Hb _]. rewrite lookup_drop in Hb.
  destruct (Z.ltb_spec (data c + i) 0); [lia |].
  by rewrite Z2Nat.inj_add by lia.
Qed.

Lemma rep_cons c b l : rep buf c (b :: l) ->
  load buf (data c) = Some b /\ byte_ok b /\ 0 < clen c
  /\ rep buf (mk_cbs (data c + 1) (clen c - 1)) l.
Proof.
  intros H. pose proof (rep_len _ _ H) as Hl. rewrite len_cons in Hl. pose proof (len_nonneg l) as Hnn.
  split; [rewrite <- (Z.add_0_r (data c)); by eapply load_rep |].
  split; [by apply rep_ok, bytes_ok_cons in H as [? _] |]. split; [lia |].
  destruct H as [(H0 & H1 & H2) H3]. split; [unfold valid; cbn; lia |].
  unfold view in *; cbn [data clen].
  replace (Z.to_nat (clen c)) with (S (Z.to_nat (clen c - 1))) in H3 by lia.
  replace (Z.to_nat (data c + 1)) with (S (Z.to_nat (data c))) by lia.
  destruct (drop (Z.to_nat (data c)) buf) as [| x r] eqn:E; [done |].
  injection H3 as -> <-. f_equal. rewrite <- Nat.add_1_r, <- drop_drop, E. done.
Qed.

Lemma rep_nil c : rep buf c [] -> clen c = 0.
Proof. intros H. by apply rep_len in H. Qed.

(** The string is cut where the pointer is moved. *)
Lemma rep_take c l n : rep buf c l -> 0 <= n <= clen c -> rep buf (mk_cbs (data c) n) (take (Z.to_nat n) l).
Proof.
  intros [(H0 & H1 & H2) <-] Hn. split; [unfold valid; cbn; lia |].
  unfold view; cbn [data clen]. rewrite take_take. f_equal. lia.
Qed.

Lemma rep_drop c l n :
  rep buf c l -> 0 <= n <= clen c -> rep buf (mk_cbs (data c + n) (clen c - n)) (drop (Z.to_nat n) l).
Proof.
  intros [(H0 & H1 & H2) <-] Hn. split; [unfold valid; cbn; lia |].
  unfold view; cbn [data clen]. rewrite skipn_firstn_comm, drop_drop. f_equal; [| f_equal]; lia.
Qed.

Lemma ptr_add_rep c l n : rep buf c l -> 0 <= n <= clen c -> ptr_add buf (data c) n = Some (data c + n).
Proof.
  intros [(H0 & H1 & H2) _] Hn. unfold ptr_add.
  destruct (Z.leb_spec 0 (data c + n)), (Z.leb_spec (data c + n) (len buf)); [done | lia ..].
Qed.

Lemma u64_small z : 0 <= z < 2 ^ 64 -> u64 z = z.
Proof. intros. by apply wrap_id. Qed.

Lemma sim_le {A B} (R : A -> B -> Prop) c c' x y : clen c' <= clen c -> sim buf R c' x y -> sim buf R c x y.
Proof. intros Hle []; constructor; auto; lia. Qed.

(** ** Sequencing *)

Lemma refines_bind {A B A' B'} (R : A -> B -> Prop) (R' : A' -> B' -> Prop) m p k k' :
  refines buf R m p -> (forall a b, R a b -> refines buf R' (k a) (k' b)) ->
  refines buf R' (r_bind m k) (p_bind p k').
Proof.
  intros Hm Hk c l Hc. unfold r_bind, p_bind.
  destruct (Hm c l Hc) as [a b c1 l1 Hab H1 Hle | c1 l1 H1 Hle]; [| by constructor].
  eapply sim_le; [exact Hle | by apply Hk].
Qed.

Lemma refines_ret {A B} (R : A -> B -> Prop) a b : R a b -> refines buf R (r_ret a) (p_ret b).
Proof. intros HR c l Hc. by constructor. Qed.

Lemma refines_fail {A B} (R : A -> B -> Prop) : refines buf R r_fail p_fail.
Proof. intros c l Hc. by constructor. Qed.

Lemma refines_if {A B} (R : A -> B -> Prop) (b : bool) m m' p p' :
  refines buf R m p -> refines buf R m' p' -> refines buf R (if b then m else m') (if b then p else p').
Proof. by destruct b. Qed.

Lemma refines_mono {A B} (R S : A -> B -> Prop) m p :
  (forall a b, R a b -> S a b) -> refines buf R m p -> refines buf S m p.
Proof. intros HRS H c l Hc. destruct (H c l Hc); constructor; auto. Qed.

(** [let* x := m in r_ret (f x)] against the same in the list model. *)
Lemma refines_map {A B A' B'} (R : A -> B -> Prop) (R' : A' -> B' -> Prop) m p f g :
  refines buf R m p -> (forall a b, R a b -> R' (f a) (g b)) ->
  refines buf R' (r_bind m (fun x => r_ret (f x))) (p_bind p (fun x => p_ret (g x))).
Proof. intros Hm Hf. eapply refines_bind; [exact Hm |]. intros a b Hab. by apply refines_ret, Hf. Qed.

Lemma refines_check_true {A B} (R : A -> B -> Prop) b b' m p :
  b = b' -> (b = true -> refines buf R m p) ->
  refines buf R (r_bind (r_guard b) (fun _ => m)) (p_bind (p_guard b') (fun _ => p)).
Proof. intros <- H c l Hc. destruct b; [by apply H | by constructor]. Qed.

Lemma refines_check {A B} (R : A -> B -> Prop) b b' m p :
  b = b' -> refines buf R m p ->
  refines buf R (r_bind (r_guard b) (fun _ => m)) (p_bind (p_guard b') (fun _ => p)).
Proof. intros Hb H. by apply refines_check_true. Qed.

(** ** Bytes and fixed-width integers *)

(** A pointer to [n] bytes, and these bytes. *)
Definition ptr_rep (n p : Z) (bs : bytes) : Prop := rep buf (mk_cbs p n) bs /\ len bs = n.

Lemma cbs_get_refines n : 0 <= n -> refines buf (ptr_rep n) (cbs_get buf n) (Cbs.cbs_get n).
Proof.
  intros Hn c l Hc. pose proof (rep_len _ _ Hc) as Hl. pose proof (rep_bounds _ _ Hc) as Hbd.
  unfold cbs_get, Cbs.cbs_get. rewrite <- Hl. destruct (Z.ltb_spec (clen c) n) as [Hlt | Hlt]; [by constructor |].
  rewrite (ptr_add_rep c l), u64_small by (done || lia). constructor.
  - pose proof (rep_take c l n Hc ltac:(lia)) as Ht. split; [done |]. by apply rep_len in Ht.
  - apply rep_drop; [done | lia].
  - cbn. lia.
Qed.

Lemma get_u_loop_rep l : forall c result, rep buf c l -> fits 64 result ->
  exists v, get_u_loop buf (Z.to_nat (clen c)) (data c) result = Some v /\ fits 64 v
    /\ v = foldl (fun result b => Z.lor (u64 (Z.shiftl result 8)) b) result l.
Proof.
  induction l as [| b l IH]; intros c result Hc Hr.
  - rewrite (rep_nil _ Hc). by exists result.
  - apply rep_cons in Hc as (Hb & Hok & Hpos & Hc).
    replace (Z.to_nat (clen c)) with (S (Z.to_nat (clen c - 1))) by lia.
    cbn [get_u_loop foldl]. rewrite Hb. apply (IH _ _ Hc).
    apply fits_lor; [lia | apply wrap_fits; lia |]. unfold byte_ok in Hok. unfold fits. lia.
Qed.

Lemma cbs_get_u_refines n : 0 <= n -> refines buf (word_rep 64) (cbs_get_u buf n) (Cbs.cbs_get_u n).
Proof.
  intros Hn. eapply refines_bind; [by apply cbs_get_refines |].
  intros p bs [Hp Hl] c l Hc.
  destruct (get_u_loop_rep _ _ 0 Hp ltac:(unfold fits; lia)) as (v & Hv & Hf & Heq).
  cbn [data clen] in Hv. unfold r_mem. rewrite Hv. subst v. by constructor.
Qed.

Lemma get_u8_nil c : rep buf c [] -> CBS_get_u8 buf c = Some (None, c).
Proof. intros Hc. unfold CBS_get_u8, r_bind, cbs_get. by rewrite (rep_nil _ Hc). Qed.

Lemma get_u8_cons c b l : rep buf c (b :: l) ->
  CBS_get_u8 buf c = Some (Some b, mk_cbs (data c + 1) (clen c - 1)).
Proof.
  intros Hc. pose proof (rep_cons _ _ _ Hc) as (Hb & _ & Hpos & _). pose proof (rep_bounds _ _ Hc) as Hbd.
  unfold CBS_get_u8, r_bind, cbs_get. destruct (Z.ltb_spec (clen c) 1); [lia |].
  rewrite (ptr_add_rep c (b :: l)), u64_small by (done || lia). unfold r_mem. by rewrite Hb.
Qed.

Lemma CBS_get_u8_refines : refines buf (word_rep 8) (CBS_get_u8 buf) Cbs.CBS_get_u8.
Proof.
  intros c [| b l] Hc; [rewrite (get_u8_nil c Hc); by constructor |].
  rewrite (get_u8_cons c b l Hc). apply rep_cons in Hc as (_ & Hok & _ & Hc).
  constructor; [done | done | cbn; lia].
Qed.

Lemma CBS_skip_refines n : 0 <= n -> refines buf eq (CBS_skip buf n) (Cbs.CBS_skip n).
Proof. intros. eapply refines_map; [by apply cbs_get_refines | done]. Qed.

(** A [uint64_t] read from the string, changed by [f]. *)
Lemma get_u_map_refines n (f : Z -> Z) : 0 <= n ->
  refines buf eq (r_bind (cbs_get_u buf n) (fun v => r_ret (f v))) (p_bind (Cbs.cbs_get_u n) (fun v => p_ret (f v))).
Proof. intros. eapply refines_map; [by apply cbs_get_u_refines |]. by intros a b [-> _]. Qed.

Lemma refines_map_eq {A B} (m : reader A) p (f : A -> B) :
  refines buf eq m p -> refines buf eq (r_bind m (fun v => r_ret (f v))) (p_bind p (fun v => p_ret (f v))).
Proof. intros. eapply refines_map; [done |]. by intros a b ->. Qed.

Lemma CBS_get_last_u8_refines : refines buf (word_rep 8) (CBS_get_last_u8 buf) Cbs.CBS_get_last_u8.
Proof.
  intros c l Hc. pose proof (rep_len _ _ Hc) as Hl. pose proof (rep_bounds _ _ Hc) as Hbd.
  unfold CBS_get_last_u8, Cbs.CBS_get_last_u8. destruct (list.last l) as [v |] eqn:E.
  - destruct l as [| x l]; [done |]. rewrite len_cons in Hl. pose proof (len_nonneg l) as Hnn.
    destruct (Z.eqb_spec (clen c) 0); [lia |]. rewrite u64_small by lia.
    rewrite list.last_lookup in E. rewrite (load_rep c (x :: l) (clen c - 1) v Hc ltac:(lia)).
    + constructor; [split; [done |] | | cbn; lia].
      * apply rep_ok in Hc. eapply Forall_lookup_1 in Hc; [exact Hc | exact E].
      * replace (length (x :: l) - 1)%nat with (Z.to_nat (clen c - 1)).
        -- apply rep_take; [done | lia].
        -- unfold len in Hl. cbn [length]. lia.
    + rewrite <- E. f_equal. unfold len in Hl. cbn [length]. lia.
  - apply list.last_None in E as ->. rewrite (rep_nil _ Hc). by constructor.
Qed.

Lemma CBS_get_bytes_refines n :
  0 <= n -> refines buf (fun s bs => rep buf s bs /\ clen s = n) (CBS_get_bytes buf n) (Cbs.CBS_get_bytes n).
Proof.
  intros Hn. eapply refines_map; [by apply cbs_get_refines |]. intros p bs [Hp Hl].
  unfold CBS_init, Cbs.CBS_init. rewrite firstn_all2; [done |]. unfold len in Hl. lia.
Qed.

Lemma CBS_get_bytes_rep n : 0 <= n -> refines buf (rep buf) (CBS_get_bytes buf n) (Cbs.CBS_get_bytes n).
Proof. intros Hn. eapply refines_mono; [| by apply CBS_get_bytes_refines]. by intros a b []. Qed.

Lemma load_bytes_rep l : forall c, rep buf c l -> load_bytes buf (Z.to_nat (clen c)) (data c) = Some l.
Proof.
  induction l as [| b l IH]; intros c Hc; [by rewrite (rep_nil _ Hc) |].
  apply rep_cons in Hc as (Hb & _ & Hpos & Hc).
  replace (Z.to_nat (clen c)) with (S (Z.to_nat (clen c - 1))) by lia.
  cbn [load_bytes]. specialize (IH _ Hc). cbn [data clen] in IH. by rewrite Hb, IH.
Qed.

Lemma CBS_copy_bytes_refines n : 0 <= n -> refines buf eq (CBS_copy_bytes buf n) (Cbs.CBS_copy_bytes n).
Proof.
  intros Hn c l Hc. unfold CBS_copy_bytes, Cbs.CBS_copy_bytes, r_bind.
  destruct (cbs_get_refines n Hn c l Hc) as [p bs c' l' [Hp _] Hc' Hle |]; [| by constructor].
  apply load_bytes_rep in Hp. cbn [data clen] in Hp. unfold r_mem. rewrite Hp. by constructor.
Qed.

Lemma cbs_get_length_prefixed_refines n :
  0 <= n <= 3 -> refines buf (rep buf) (cbs_get_length_prefixed buf n) (Cbs.cbs_get_length_prefixed n).
Proof.
  intros Hn. eapply refines_bind; [apply cbs_get_u_refines; lia |]. intros v ? [<- Hv] c l Hc.
  unfold r_bind, r_assert, r_mem. destruct (Z.leb_spec n 3); [| lia].
  apply CBS_get_bytes_rep; [unfold fits in Hv; lia | done].
Qed.

Lemma memchr_rep ch l : forall c, rep buf c l ->
  memchr buf (Z.to_nat (clen c)) (data c) ch
  = Some (option_map (Z.add (data c)) (OPENSSL_memchr l ch)).
Proof.
  induction l as [| b l IH]; intros c Hc; [by rewrite (rep_nil _ Hc) |].
  apply rep_cons in Hc as (Hb & _ & Hpos & Hc).
  replace (Z.to_nat (clen c)) with (S (Z.to_nat (clen c - 1))) by lia.
  cbn [memchr OPENSSL_memchr]. rewrite Hb. destruct (b =? ch); [cbn; do 2 f_equal; lia |].
  specialize (IH _ Hc). cbn [data clen] in IH. rewrite IH.
  destruct (OPENSSL_memchr l ch); cbn; do 2 f_equal. lia.
Qed.

Lemma memchr_range l ch i : OPENSSL_memchr l ch = Some i -> 0 <= i < len l.
Proof.
  revert i. induction l as [| b l IH]; intros i; cbn [OPENSSL_memchr]; [done |].
  rewrite len_cons. pose proof (len_nonneg l). destruct (b =? ch); [intros [= <-]; lia |].
  destruct (OPENSSL_memchr l ch) as [j |]; intros [= <-]. specialize (IH j eq_refl). lia.
Qed.

Lemma CBS_get_until_first_refines ch :
  refines buf (rep buf) (CBS_get_until_first buf ch) (Cbs.CBS_get_until_first ch).
Proof.
  intros c l Hc. pose proof (rep_len _ _ Hc) as Hl. pose proof (rep_bounds _ _ Hc).
  unfold CBS_get_until_first, Cbs.CBS_get_until_first, r_bind, r_this, r_mem.
  rewrite (memchr_rep ch l) by done.
  destruct (OPENSSL_memchr l ch) as [i |] eqn:E; cbn [option_map]; [| by constructor].
  apply memchr_range in E. replace (data c + i - data c) with i by lia. rewrite u64_small by lia.
  apply CBS_get_bytes_rep; [lia | done].
Qed.

Lemma existsb_memchr l :
  existsb (Z.eqb 0) l = match OPENSSL_memchr l 0 with Some _ => true | None => false end.
Proof.
  induction l as [| b l IH]; [done |]. cbn [existsb OPENSSL_memchr]. rewrite Z.eqb_sym, IH.
  destruct (b =? 0); [done |]. by destruct (OPENSSL_memchr l 0).
Qed.

(** A verdict on the string, which stays. *)
Definition judges (m : reader bool) (f : bytes -> bool) : Prop :=
  refines buf eq m (fun l => (Some (f l), l)).

Lemma pure_run {A} (m : reader A) f c l : refines buf eq m (fun l => (f l, l)) -> rep buf c l ->
  exists c', m c = Some (f l, c') /\ rep buf c' l /\ clen c' <= clen c.
Proof.
  intros Hm Hc. pose proof (Hm c l Hc) as H.
  inversion H as [a b c' l' -> Hc' Hle Hr [Hb Hl] | c' l' Hc' Hle Hr [Hb Hl]]; subst; by exists c'.
Qed.

Lemma judges_run m f c l : judges m f -> rep buf c l ->
  exists c', m c = Some (Some (f l), c') /\ rep buf c' l /\ clen c' <= clen c.
Proof. apply (pure_run m (fun l => Some (f l))). Qed.

(** A verdict on another string. *)
Lemma judges_on {A B} (R : A -> B -> Prop) m f h lh k (p : parser B) :
  judges m f -> rep buf h lh -> (forall h', refines buf R (k (f lh, h')) p) ->
  refines buf R (r_bind (r_on h m) k) p.
Proof.
  intros Hm Hh Hk c l Hc. destruct (judges_run m f h lh Hm Hh) as (h' & E & _).
  unfold r_bind, r_on. rewrite E. by apply Hk.
Qed.

Lemma CBS_contains_zero_byte_judges : judges (CBS_contains_zero_byte buf) Cbs.CBS_contains_zero_byte.
Proof.
  intros c l Hc. unfold CBS_contains_zero_byte, r_bind, r_this, r_mem.
  rewrite (memchr_rep 0 l) by done. unfold Cbs.CBS_contains_zero_byte. rewrite existsb_memchr.
  destruct (OPENSSL_memchr l 0); by constructor.
Qed.

(** The CBS after its first byte. *)
Lemma skip_one c b l : rep buf c (b :: l) ->
  CBS_skip buf 1 c = Some (Some tt, mk_cbs (data c + 1) (clen c - 1)).
Proof.
  intros Hc. pose proof (rep_cons _ _ _ Hc) as (_ & _ & Hpos & _). pose proof (rep_bounds _ _ Hc).
  unfold CBS_skip, r_bind, cbs_get. destruct (Z.ltb_spec (clen c) 1); [lia |].
  by rewrite (ptr_add_rep c (b :: l)), u64_small by (done || lia).
Qed.

Lemma decimal_loop_refines l : forall fuel c v seen,
  rep buf c l -> (length l < fuel)%nat ->
  sim buf eq c (decimal_loop buf fuel v seen c) (Cbs.decimal_loop v seen l).
Proof.
  induction l as [| b l IH]; intros fuel c v seen Hc Hfuel; (destruct fuel as [| fuel]; [lia |]);
    cbn [decimal_loop Cbs.decimal_loop]; unfold r_bind at 1, r_this.
  - rewrite (rep_nil _ Hc). cbn. destruct seen; by constructor.
  - pose proof (rep_cons _ _ _ Hc) as (Hb & _ & Hpos & Hc').
    destruct (Z.eqb_spec (clen c) 0); [lia |]. unfold r_bind at 1, r_mem. rewrite Hb.
    destruct (negb (OPENSSL_isdigit b)); [destruct seen; by constructor |].
    unfold r_bind. rewrite (skip_one c b l Hc).
    destruct (_ || _); [constructor; [done | cbn; lia] |].
    cbn [length] in Hfuel. eapply sim_le; [| apply IH; [exact Hc' | lia]]. cbn. lia.
Qed.

(** Fuel of one more than the length is enough. *)
Lemma rep_fuel c l : rep buf c l -> (length l < S (Z.to_nat (clen c)))%nat.
Proof. intros Hc%rep_len. unfold len in Hc. lia. Qed.

Lemma CBS_get_u64_decimal_refines : refines buf eq (CBS_get_u64_decimal buf) Cbs.CBS_get_u64_decimal.
Proof. intros c l Hc. apply decimal_loop_refines; [done | by apply rep_fuel]. Qed.

(** ** ASN.1 tags and elements *)

Lemma base128_loop_refines l : forall fuel c v,
  rep buf c l -> (length l < fuel)%nat ->
  sim buf eq c (base128_loop buf fuel v c) (Cbs.base128_loop v l).
Proof.
  induction l as [| b l IH]; intros fuel c v Hc Hfuel; (destruct fuel as [| fuel]; [lia |]);
    cbn [base128_loop Cbs.base128_loop]; unfold r_bind.
  - rewrite (get_u8_nil c Hc). by constructor.
  - rewrite (get_u8_cons c b l Hc). apply rep_cons in Hc as (_ & _ & _ & Hc).
    cbn [length] in Hfuel. unfold r_guard.
    destruct (_ =? 0); [| constructor; [done | cbn; lia]]. cbn [negb r_ret].
    destruct ((v =? 0) && _); [constructor; [done | cbn; lia] |]. cbn [negb r_ret].
    destruct (negb _); [| constructor; [done | done | cbn; lia]].
    eapply sim_le; [| apply IH; [exact Hc | lia]]. cbn. lia.
Qed.

Lemma parse_base128_integer_refines :
  refines buf eq (parse_base128_integer buf) Cbs.parse_base128_integer.
Proof. intros c l Hc. apply base128_loop_refines; [done | by apply rep_fuel]. Qed.

Lemma parse_asn1_tag_refines uok :
  refines buf eq (parse_asn1_tag buf uok) (Cbs.parse_asn1_tag uok).
Proof.
  eapply refines_bind; [apply CBS_get_u8_refines |]. intros b ? [<- _]. cbv zeta.
  eapply refines_bind.
  - apply refines_if; [| by apply (refines_ret eq)].
    eapply refines_bind; [apply parse_base128_integer_refines |]. intros v ? <-.
    apply refines_check; [done |]. by apply refines_ret.
  - intros n ? <-. apply refines_check; [done |]. by apply refines_ret.
Qed.

(** Elements: the header is within the element. *)
Definition elem_rep (e : asn1_element) (e' : Cbs.asn1_element) : Prop :=
  rep buf (el_out e) (Cbs.el_out e') /\ el_tag e = Cbs.el_tag e'
  /\ el_header_len e = Cbs.el_header_len e' /\ 0 <= el_header_len e <= clen (el_out e)
  /\ el_ber_found e = Cbs.el_ber_found e' /\ el_indefinite e = Cbs.el_indefinite e'.

Lemma get_element_refines n tag hl bf ind : 0 <= hl <= n ->
  refines buf elem_rep (r_bind (CBS_get_bytes buf n) (fun out => r_ret (mk_element out tag hl bf ind)))
    (p_bind (Cbs.CBS_get_bytes n) (fun out => p_ret (Cbs.mk_element out tag hl bf ind))).
Proof.
  intros Hn. eapply refines_map; [apply CBS_get_bytes_refines; lia |].
  intros s bs [Hs Hl]. unfold elem_rep; cbn. repeat split; try done; try apply Hs; lia.
Qed.

(** The length checks of the long form: an element that does not wrap covers its header. *)
Lemma u64_no_wrap x y : fits 64 x -> 0 <= y < 2 ^ 64 -> x <= u64 (x + y) -> y <= u64 (x + y).
Proof.
  unfold fits, wrap. intros Hx Hy. change (2 ^ 64) with 18446744073709551616 in *.
  intros. Z.div_mod_to_equations. lia.
Qed.

Lemma long_form_refines (ber_ok : bool) tag hl nb len64 c l :
  rep buf c l -> fits 64 len64 -> 0 <= hl < 2 ^ 63 -> 0 <= nb < 2 ^ 8 ->
  let long_form_bad := len64 <? 128 in
  let not_minimal := Z.shiftr len64 ((nb - 1) * 8) =? 0 in
  sim buf elem_rep c
    ((require (ber_ok || negb long_form_bad) ;;
      require (ber_ok || negb not_minimal) ;;
      require negb (u64 (len64 + hl + nb) <? len64) ;;
      let* out := CBS_get_bytes buf (u64 (len64 + u64 (hl + nb))) in
      r_ret (mk_element out tag (u64 (hl + nb)) (long_form_bad || not_minimal) false)) c)
    (if negb ber_ok && (long_form_bad || not_minimal) then (None, l)
     else if u64 (len64 + hl + nb) <? len64 then (None, l)
     else (p_bind (Cbs.CBS_get_bytes (u64 (len64 + hl + nb))) (fun out =>
             p_ret (Cbs.mk_element out tag (hl + nb) (long_form_bad || not_minimal) false))) l).
Proof.
  intros Hc H64 Hhl Hnb long_form_bad not_minimal. rewrite (u64_small (hl + nb)) by lia.
  rewrite <- Z.add_assoc. unfold r_bind at 1 2 3, r_guard.
  destruct ber_ok, long_form_bad, not_minimal; cbn [orb andb negb r_ret];
    try (by constructor);
    (destruct (Z.ltb_spec (u64 (len64 + (hl + nb))) len64) as [Hlt | Hlt];
      [by constructor | apply get_element_refines; [| done]]);
    (split; [lia | apply u64_no_wrap; [done | lia | done]]).
Qed.

Lemma cbs_get_any_asn1_element_refines ber_ok uok :
  refines buf elem_rep (cbs_get_any_asn1_element buf ber_ok uok) (Cbs.cbs_get_any_asn1_element ber_ok uok).
Proof.
  intros c l Hc. unfold cbs_get_any_asn1_element, Cbs.cbs_get_any_asn1_element.
  unfold r_bind at 1, r_this, r_bind at 1, r_on.
  pose proof (rep_len _ _ Hc) as Hl. pose proof (rep_bounds _ _ Hc) as Hbd.
  destruct (parse_asn1_tag_refines uok c l Hc) as [tag ? h1 l1 <- Hh1 Hle1 |]; [| by constructor].
  unfold r_bind at 1.
  destruct (CBS_get_u8_refines h1 l1 Hh1) as [lb ? h2 l2 [<- Hlb] Hh2 Hle2 |]; [| by constructor].
  pose proof (rep_len _ _ Hh2) as Hl2. pose proof (rep_bounds _ _ Hh2) as Hbd2.
  rewrite <- Hl, <- Hl2. rewrite (u64_small (clen c - clen h2)) by lia. cbv zeta.
  unfold fits in Hlb.
  destruct (Z.land lb 128 =? 0).
  { rewrite u64_small by lia. apply get_element_refines; [lia | done]. }
  destruct (ber_ok && _ && _); [apply get_element_refines; [lia | done] |].
  assert (fits 8 (Z.land lb 127)) as Hnb by (apply fits_land; [lia | done | lia]).
  unfold fits in Hnb. set (nb := Z.land lb 127) in *. clearbody nb.
  unfold r_bind at 1, r_guard at 1. destruct ((nb =? 0) || _); [by constructor |]. cbn [negb r_ret].
  unfold r_bind at 1.
  destruct (cbs_get_u_refines nb ltac:(lia) h2 l2 Hh2) as [len64 ? h3 l3 [<- H64] Hh3 Hle3 |];
    [| by constructor].
  apply long_form_refines; [done | done | lia | lia].
Qed.

Lemma skip_out_refines e e' : elem_rep e e' ->
  refines buf (rep buf) (skip_out buf (el_out e) (el_header_len e))
    (Cbs.skip_out (Cbs.el_out e') (Cbs.el_header_len e')).
Proof.
  intros (Ho & _ & Hh & Hle & _) c l Hc. rewrite <- Hh. pose proof (rep_bounds _ _ Ho).
  unfold skip_out, Cbs.skip_out, CBS_skip, Cbs.CBS_skip, r_bind, p_bind, cbs_get, Cbs.cbs_get.
  rewrite <- (rep_len _ _ Ho). destruct (Z.ltb_spec (clen (el_out e)) (el_header_len e)); [lia |].
  rewrite (ptr_add_rep _ _ _ Ho), u64_small by lia. constructor; [| done | done].
  by apply rep_drop.
Qed.

(** Strings with a tag. *)
Definition tagged_rep (x : cbs_st * Z) (y : bytes * Z) : Prop := rep buf x.1 y.1 /\ x.2 = y.2.

Lemma CBS_get_any_asn1_refines : refines buf tagged_rep (CBS_get_any_asn1 buf) Cbs.CBS_get_any_asn1.
Proof.
  eapply refines_bind; [apply cbs_get_any_asn1_element_refines |]. intros e e' He.
  eapply refines_map; [by apply skip_out_refines |]. intros s l Hs. split; [done | apply He].
Qed.

Lemma cbs_get_asn1_refines tag skip :
  refines buf (rep buf) (cbs_get_asn1 buf tag skip) (Cbs.cbs_get_asn1 tag skip).
Proof.
  eapply refines_bind; [apply cbs_get_any_asn1_element_refines |]. intros e e' He.
  apply refines_check; [f_equal; apply He |].
  apply refines_if; [by apply skip_out_refines | apply refines_ret, He].
Qed.

Lemma r_const_judges m (p : parser bool) f :
  refines buf eq m p -> (forall l, bytes_ok l -> f l = match p l with (Some b, _) => b | (None, _) => false end) ->
  judges (r_const m) f.
Proof.
  intros Hm Hf c l Hc. unfold r_const. rewrite (Hf l) by eauto using rep_ok.
  destruct (Hm c l Hc) as [a b c' l' -> |]; by constructor.
Qed.

Lemma CBS_peek_asn1_tag_judges tag : judges (CBS_peek_asn1_tag buf tag) (fun l => Cbs.CBS_peek_asn1_tag l tag).
Proof.
  eapply r_const_judges; [apply refines_map_eq, parse_asn1_tag_refines |].
  intros l _. unfold Cbs.CBS_peek_asn1_tag, p_bind. by destruct (Cbs.parse_asn1_tag false l) as [[?|] ?].
Qed.

(** ** ASN.1 types *)

Lemma CBS_is_valid_asn1_integer_refines :
  refines buf eq (CBS_is_valid_asn1_integer buf) (fun l => (Cbs.CBS_is_valid_asn1_integer l, l)).
Proof.
  intros c l Hc. unfold CBS_is_valid_asn1_integer, r_bind, r_this, r_on.
  destruct l as [| b l]; [rewrite (get_u8_nil c Hc); by constructor |].
  rewrite (get_u8_cons c b l Hc). pose proof (rep_cons _ _ _ Hc) as (_ & _ & _ & Hc').
  cbn [Cbs.CBS_is_valid_asn1_integer]. destruct l as [| b' l].
  - rewrite (get_u8_nil _ Hc'). by constructor.
  - rewrite (get_u8_cons _ b' l Hc'). destruct (_ || _); by constructor.
Qed.

Lemma CBS_is_unsigned_asn1_integer_judges :
  judges (CBS_is_unsigned_asn1_integer buf) Cbs.CBS_is_unsigned_asn1_integer.
Proof.
  eapply r_const_judges; [apply refines_map_eq, CBS_is_valid_asn1_integer_refines |].
  intros l _. unfold Cbs.CBS_is_unsigned_asn1_integer, p_bind. by destruct (Cbs.CBS_is_valid_asn1_integer l).
Qed.

(** A function called on another string, which the caller then keeps or not. *)
Lemma refines_on {A B A' B'} (R : A -> B -> Prop) (R' : A' -> B' -> Prop) m p h lh k k' :
  refines buf R m p -> rep buf h lh ->
  (forall a b h' lh', R a b -> rep buf h' lh' -> refines buf R' (k (a, h')) (k' b lh')) ->
  refines buf R' (r_bind (r_on h m) k)
    (fun l => match p lh with (Some b, lh') => k' b lh' l | (None, _) => (None, l) end).
Proof.
  intros Hm Hh Hk c l Hc. unfold r_bind, r_on.
  destruct (Hm h lh Hh) as [a b h' lh' Hab Hh' _ |]; [by apply Hk | by constructor].
Qed.

Lemma uint64_loop_rep l : forall c out, rep buf c l ->
  uint64_loop buf (Z.to_nat (clen c)) (data c) out = Some (Cbs.uint64_loop out l).
Proof.
  induction l as [| b l IH]; intros c out Hc; [by rewrite (rep_nil _ Hc) |].
  apply rep_cons in Hc as (Hb & _ & Hpos & Hc).
  replace (Z.to_nat (clen c)) with (S (Z.to_nat (clen c - 1))) by lia.
  cbn [uint64_loop Cbs.uint64_loop]. destruct (negb _); [done |]. rewrite Hb. apply (IH _ _ Hc).
Qed.

Lemma refines_option {A} (o o' : option A) : o = o' -> refines buf eq (r_option o) (Cbs.p_option o').
Proof. intros <- c l Hc. unfold r_option, Cbs.p_option. destruct o; by constructor. Qed.

Lemma CBS_get_asn1_uint64_refines : refines buf eq (CBS_get_asn1_uint64 buf) Cbs.CBS_get_asn1_uint64.
Proof.
  eapply refines_bind; [apply cbs_get_asn1_refines |]. intros s bs Hs.
  eapply judges_on; [apply CBS_is_unsigned_asn1_integer_judges | exact Hs |]. intros _.
  apply refines_check; [done |]. intros c l Hc. unfold r_bind, r_mem.
  rewrite (uint64_loop_rep bs) by done. by apply refines_option.
Qed.

Lemma int64_loop_rep c l : rep buf c l -> clen c <= 8 -> forall k i arr, (i + k = 8)%nat -> (i <= length l)%nat ->
  int64_loop buf k (data c) (clen c) (Z.of_nat i) arr
  = Some (foldl (fun arr i => <[i := l !!! (length l - i - 1)%nat]> arr) arr (seq i (length l - i))).
Proof.
  intros Hc H8. pose proof (rep_len _ _ Hc) as Hl. unfold len in Hl.
  induction k as [| k IH]; intros i arr Hk Hi; cbn [int64_loop].
  - replace (length l - i)%nat with 0%nat by lia. done.
  - destruct (Z.ltb_spec (Z.of_nat i) (clen c)), (Z.ltb_spec (Z.of_nat i) 8); cbn [andb]; try lia.
    + rewrite u64_small by lia.
      destruct (lookup_lt_is_Some_2 l (length l - i - 1)) as [b Hb]; [lia |].
      rewrite (load_rep c l _ b Hc); [| lia | rewrite <- Hb; f_equal; lia].
      replace (length l - i)%nat with (S (length l - S i)) by lia. cbn [seq foldl].
      rewrite (list_lookup_total_correct _ _ _ Hb), Nat2Z.id.
      replace (Z.of_nat i + 1) with (Z.of_nat (S i)) by lia. apply IH; lia.
    + replace (length l - i)%nat with 0%nat by lia. done.
Qed.

Lemma CBS_get_asn1_int64_refines : refines buf eq (CBS_get_asn1_int64 buf) Cbs.CBS_get_asn1_int64.
Proof.
  eapply refines_bind; [apply cbs_get_asn1_refines |]. intros s bs Hs c l Hc.
  pose proof (rep_len _ _ Hs) as Hl. unfold r_bind at 1, r_on, p_bind at 1, Cbs.p_option.
  destruct (pure_run _ _ _ _ CBS_is_valid_asn1_integer_refines Hs) as (h & -> & _).
  destruct (Cbs.CBS_is_valid_asn1_integer bs) as [neg |]; [| by constructor].
  revert c l Hc. apply refines_check_true; [by rewrite Hl |]. intros H8 c l Hc.
  unfold r_bind, r_mem.
  pose proof (int64_loop_rep s bs Hs ltac:(lia) 8 0 (replicate 8 (if neg then 255 else 0))
                ltac:(lia) ltac:(lia)) as Hloop.
  change (Z.of_nat 0) with 0 in Hloop. rewrite Hloop, Nat.sub_0_r. by constructor.
Qed.

(** The first byte of a string of one byte. *)
Lemma CBS_get_asn1_bool_refines : refines buf eq (CBS_get_asn1_bool buf) Cbs.CBS_get_asn1_bool.
Proof.
  eapply refines_bind; [apply cbs_get_asn1_refines |]. intros s bs Hs c l Hc.
  rewrite (rep_len _ _ Hs). destruct bs as [| b [| b' bs]].
  - by constructor.
  - apply rep_cons in Hs as (Hb & _). unfold r_bind at 1 2, r_guard at 1, r_mem. cbn [len length]. rewrite Hb.
    revert c l Hc. apply refines_check; [done |]. by apply refines_ret.
  - rewrite !len_cons. pose proof (len_nonneg bs). unfold r_bind at 1.
    destruct (Z.eqb_spec (1 + (1 + len bs)) 1); [lia | by constructor].
Qed.

(** Optional strings. *)
Definition opt_rep (o : option cbs_st) (o' : option bytes) : Prop :=
  match o, o' with
  | Some s, Some bs => rep buf s bs
  | None, None => True
  | _, _ => False
  end.

Lemma CBS_get_optional_asn1_refines tag :
  refines buf opt_rep (CBS_get_optional_asn1 buf tag) (Cbs.CBS_get_optional_asn1 tag).
Proof.
  intros c l Hc. unfold CBS_get_optional_asn1, Cbs.CBS_get_optional_asn1, r_bind at 1.
  destruct (judges_run _ _ _ _ (CBS_peek_asn1_tag_judges tag) Hc) as (c' & -> & Hc' & Hle).
  destruct (Cbs.CBS_peek_asn1_tag l tag); [| by constructor].
  eapply sim_le; [exact Hle |].
  by apply (refines_map (rep buf) opt_rep _ _ Some Some (cbs_get_asn1_refines tag true)).
Qed.

Lemma r_whole_refines {A B} (R : A -> B -> Prop) m p s bs :
  refines buf R m p -> rep buf s bs -> refines buf R (r_whole m s) (Cbs.p_whole p bs).
Proof.
  intros Hm Hs c l Hc. unfold r_whole, Cbs.p_whole, r_bind, r_on.
  destruct (Hm s bs Hs) as [a b s' bs' Hab Hs' _ |]; [| by constructor].
  rewrite (rep_len _ _ Hs'). destruct (len bs' =? 0); by constructor.
Qed.

(** An optional child read to its end, or a default. *)
Lemma optional_refines {A B} (R : A -> B -> Prop) tag k k' d d' :
  (forall s bs, rep buf s bs -> refines buf R (k s) (k' bs)) -> R d d' ->
  refines buf R
    (r_bind (CBS_get_optional_asn1 buf tag)
       (fun child => match child with Some child => k child | None => r_ret d end))
    (p_bind (Cbs.CBS_get_optional_asn1 tag)
       (fun child => match child with Some child => k' child | None => p_ret d' end)).
Proof.
  intros Hk Hd. eapply refines_bind; [apply CBS_get_optional_asn1_refines |].
  intros [s |] [bs |] Ho; try done; [by apply Hk | by apply refines_ret].
Qed.

Lemma CBS_get_optional_asn1_octet_string_refines tag :
  refines buf opt_rep (CBS_get_optional_asn1_octet_string buf tag) (Cbs.CBS_get_optional_asn1_octet_string tag).
Proof.
  apply optional_refines; [| done]. intros s bs Hs.
  eapply refines_map; [apply r_whole_refines; [apply cbs_get_asn1_refines | exact Hs] |]. done.
Qed.

Lemma CBS_get_optional_asn1_uint64_refines tag d :
  refines buf eq (CBS_get_optional_asn1_uint64 buf tag d) (Cbs.CBS_get_optional_asn1_uint64 tag d).
Proof.
  apply (optional_refines eq tag (r_whole (CBS_get_asn1_uint64 buf)) (Cbs.p_whole Cbs.CBS_get_asn1_uint64));
    [| done]. intros s bs Hs. by apply r_whole_refines; [apply CBS_get_asn1_uint64_refines |].
Qed.

Lemma CBS_get_optional_asn1_int64_refines tag d :
  refines buf eq (CBS_get_optional_asn1_int64 buf tag d) (Cbs.CBS_get_optional_asn1_int64 tag d).
Proof.
  apply (optional_refines eq tag (r_whole (CBS_get_asn1_int64 buf)) (Cbs.p_whole Cbs.CBS_get_asn1_int64));
    [| done]. intros s bs Hs. by apply r_whole_refines; [apply CBS_get_asn1_int64_refines |].
Qed.

Lemma CBS_get_optional_asn1_bool_refines tag d :
  refines buf eq (CBS_get_optional_asn1_bool buf tag d) (Cbs.CBS_get_optional_asn1_bool tag d).
Proof.
  apply optional_refines; [| done]. intros s bs Hs c l Hc. unfold r_bind at 1, r_on, p_bind at 1, Cbs.p_whole.
  unfold CBS_get_asn1, Cbs.CBS_get_asn1.
  destruct (cbs_get_asn1_refines Cbs.CBS_ASN1_BOOLEAN true s bs Hs) as [s2 bs2 s' bs' H2 Hs' _ |];
    [| by constructor].
  rewrite (rep_len _ _ Hs'), (rep_len _ _ H2). unfold r_bind, r_guard, r_mem.
  destruct bs2 as [| b [| b' bs2]].
  - destruct (len bs' =? 0); by constructor.
  - apply rep_cons in H2 as (Hb & _). rewrite Hb. cbn [len length].
    destruct (len bs' =? 0); [| by constructor]. cbn.
    destruct (b =? 0); [by constructor |]. destruct (b =? 255); by constructor.
  - rewrite !len_cons. pose proof (len_nonneg bs2).
    destruct (Z.eqb_spec (1 + (1 + len bs2)) 1); [lia |]. destruct (len bs' =? 0); by constructor.
Qed.

Lemma CBS_is_valid_asn1_bitstring_judges :
  judges (CBS_is_valid_asn1_bitstring buf) Cbs.CBS_is_valid_asn1_bitstring.
Proof.
  eapply (r_const_judges _ (p_bind Cbs.CBS_get_u8 (fun n => p_bind (p_guard (negb (n >? 7))) (fun _ =>
    if n =? 0 then p_ret true
    else p_bind Cbs.CBS_get_last_u8 (fun last => p_ret (Z.land last (Z.shiftl 1 n - 1) =? 0)))))).
  - eapply refines_bind; [apply CBS_get_u8_refines |]. intros n ? [<- _].
    apply refines_check; [done |]. apply refines_if; [by apply refines_ret |].
    eapply refines_map; [apply CBS_get_last_u8_refines |]. by intros a b [-> _].
  - intros l _. unfold Cbs.CBS_is_valid_asn1_bitstring, p_bind, p_guard.
    destruct (Cbs.CBS_get_u8 l) as [[n |] l']; [| done]. destruct (n >? 7); [done |]. cbn.
    destruct (n =? 0); [done |]. by destruct (Cbs.CBS_get_last_u8 l') as [[? |] ?].
Qed.

Lemma CBS_asn1_bitstring_has_bit_judges bit : fits 32 bit ->
  judges (CBS_asn1_bitstring_has_bit buf bit) (fun l => Cbs.CBS_asn1_bitstring_has_bit l bit).
Proof.
  intros Hbit c l Hc. unfold CBS_asn1_bitstring_has_bit, Cbs.CBS_asn1_bitstring_has_bit.
  unfold r_bind at 1, r_this, r_bind at 1.
  destruct (judges_run _ _ _ _ CBS_is_valid_asn1_bitstring_judges Hc) as (c' & -> & Hc' & Hle).
  destruct (negb _); [by constructor |]. rewrite <- (rep_len _ _ Hc). cbv zeta.
  assert (0 <= Z.shiftr bit 3 + 1 < 2 ^ 32) as Hb.
  { unfold fits in Hbit. rewrite Z.shiftr_div_pow2 by lia. Z.div_mod_to_equations. lia. }
  rewrite (wrap_id 32) by done. set (n := Z.shiftr bit 3 + 1) in *. clearbody n.
  destruct (Z.ltb_spec n (clen c)) as [Hlt | Hlt]; [| by constructor].
  pose proof (rep_len _ _ Hc) as Hl. unfold len in Hl.
  destruct (lookup_lt_is_Some_2 l (Z.to_nat n)) as [b Hlk]; [lia |].
  unfold r_bind, r_mem. rewrite (load_rep c l n b Hc) by (done || lia).
  rewrite (list_lookup_total_correct _ _ _ Hlk). by constructor.
Qed.

Lemma oid_loop_rep l : forall fuel c prev, rep buf c l -> (length l < fuel)%nat ->
  oid_loop buf fuel prev c = Some (Cbs.oid_loop prev l).
Proof.
  induction l as [| b l IH]; intros fuel c prev Hc Hfuel; (destruct fuel as [| fuel]; [lia |]);
    cbn [oid_loop Cbs.oid_loop].
  - by rewrite (get_u8_nil c Hc).
  - rewrite (get_u8_cons c b l Hc). apply rep_cons in Hc as (_ & _ & _ & Hc).
    cbn [length] in Hfuel. destruct (_ && _); [done |]. apply IH; [done | lia].
Qed.

Lemma CBS_is_valid_asn1_oid_judges : judges (CBS_is_valid_asn1_oid buf) Cbs.CBS_is_valid_asn1_oid.
Proof.
  intros c l Hc. unfold CBS_is_valid_asn1_oid, Cbs.CBS_is_valid_asn1_oid, r_bind, r_this, r_mem.
  rewrite <- (rep_len _ _ Hc). destruct (clen c =? 0); [by constructor |].
  rewrite (oid_loop_rep l) by eauto using rep_fuel. by constructor.
Qed.

(** ** Calls *)

(** An answer of the memory model, and the same answer with the strings read out. *)
Definition answer_rep (a : answer cbs_st) (b : answer bytes) : Prop :=
  match a, b with
  | Failed, Failed | Done, Done => True
  | Word v, Word v' => v = v'
  | Flag x, Flag x' => x = x'
  | Copied bs, Copied bs' => bs = bs'
  | Str s, Str l => rep buf s l
  | Tagged s tag, Tagged l tag' => rep buf s l /\ tag = tag'
  | Element s tag hl bf ind, Element l tag' hl' bf' ind' =>
      rep buf s l /\ tag = tag' /\ hl = hl' /\ bf = bf' /\ ind = ind'
  | Optional o, Optional o' => opt_rep o o'
  | _, _ => False
  end.

(** A call without error, against the list model's. *)
Definition call_refines (m : cbs_st -> option (answer cbs_st * cbs_st)) (p : bytes -> answer bytes * bytes) :=
  forall c l, rep buf c l -> exists a c', m c = Some (a, c') /\ answer_rep a (p l).1 /\ rep buf c' (p l).2.

Lemma ask_refines {A B} (R : A -> B -> Prop) f g m p :
  refines buf R m p -> (forall a b, R a b -> answer_rep (f a) (g b)) ->
  call_refines (ask f m) (list_ask g p).
Proof.
  intros Hm Hf c l Hc. unfold ask, list_ask.
  destruct (Hm c l Hc) as [a b c' l' Hab Hc' _ | c' l' Hc' _];
    eexists _, _; (split; [reflexivity |]); cbn; auto.
Qed.

Lemma ask_judges m f : judges m f -> call_refines (ask Flag m) (fun l => (Flag (f l), l)).
Proof.
  intros Hm c l Hc. destruct (judges_run m f c l Hm Hc) as (c' & E & Hc' & _).
  unfold ask. rewrite E. by eexists _, _.
Qed.

Create HintDb cbs_refines.
#[local] Hint Resolve CBS_skip_refines CBS_get_u8_refines CBS_get_last_u8_refines cbs_get_u_refines
  CBS_get_bytes_rep CBS_copy_bytes_refines cbs_get_length_prefixed_refines CBS_get_until_first_refines
  CBS_get_u64_decimal_refines CBS_get_any_asn1_refines cbs_get_any_asn1_element_refines
  cbs_get_asn1_refines CBS_get_asn1_uint64_refines CBS_get_asn1_int64_refines CBS_get_asn1_bool_refines
  CBS_get_optional_asn1_refines CBS_get_optional_asn1_octet_string_refines
  CBS_get_optional_asn1_uint64_refines CBS_get_optional_asn1_int64_refines
  CBS_get_optional_asn1_bool_refines get_u_map_refines refines_map_eq : cbs_refines.
#[local] Hint Resolve CBS_peek_asn1_tag_judges CBS_contains_zero_byte_judges
  CBS_is_valid_asn1_bitstring_judges CBS_asn1_bitstring_has_bit_judges
  CBS_is_unsigned_asn1_integer_judges CBS_is_valid_asn1_oid_judges : cbs_refines.

(** Values that are equal, whatever their width. *)
Lemma word_answer w a b : word_rep w a b -> answer_rep (Word a) (Word b).
Proof. by intros [-> _]. Qed.

Lemma element_answer e e' : elem_rep e e' -> answer_rep (element e) (list_element e').
Proof. intros (H1 & H2 & H3 & _ & H4 & H5). exact (conj H1 (conj H2 (conj H3 (conj H4 H5)))). Qed.

Ltac ask_word :=
  apply (ask_refines eq); [| by intros ? ? <-];
  first [ apply get_u_map_refines; lia | apply refines_map_eq, get_u_map_refines; lia ].

Lemma do_call_refines c : call_ok c -> call_refines (do_call buf c) (list_call c).
Proof.
  intros Hok. unfold call_ok, fits in Hok.
  destruct c; cbn [do_call list_call];
    try (apply ask_judges; by auto with cbs_refines);
    try (apply (ask_refines (rep buf)); [| done]; by auto with cbs_refines lia);
    try (apply (ask_refines opt_rep); [| done]; by auto with cbs_refines);
    try (apply (ask_refines elem_rep); [apply cbs_get_any_asn1_element_refines | apply element_answer]);
    try (eapply (ask_refines (word_rep _)); [| apply word_answer]; by auto with cbs_refines lia);
    try (apply (ask_refines eq); [| by intros ? ? <-]; by auto with cbs_refines lia);
    try ask_word;
    try (apply (ask_refines (rep buf)); [| done]; apply cbs_get_length_prefixed_refines; lia);
    try (apply (ask_refines (rep buf)); [apply cbs_get_asn1_refines | done]).
  - eapply (ask_refines (word_rep _)); [apply cbs_get_u_refines; lia | apply word_answer].
  - apply (ask_refines tagged_rep); [apply CBS_get_any_asn1_refines |].
    intros [s tag] [l tag'] [Hs Ht]. done.
Qed.

(** The strings of related answers are related. *)
Lemma strings_rep a b : answer_rep a b -> Forall2 (rep buf) (strings a) (strings b).
Proof.
  destruct a, b; try done; cbn [answer_rep strings]; try (intros H; repeat constructor; apply H).
  destruct o, o0; cbn [opt_rep]; try done; intros H; repeat constructor; apply H.
Qed.

Lemma do_calls_refines cs : Forall (fun ic => call_ok ic.2) cs -> forall pool lpool,
  Forall2 (rep buf) pool lpool ->
  exists answers pool', do_calls buf cs pool = Some (answers, pool')
    /\ Forall2 answer_rep answers (list_calls cs lpool).1
    /\ Forall2 (rep buf) pool' (list_calls cs lpool).2.
Proof.
  induction 1 as [| [i c] cs Hok _ IH]; intros pool lpool Hp; cbn [do_calls list_calls].
  { by exists [], pool. }
  destruct (pool !! i) as [s |] eqn:E.
  - destruct (Forall2_lookup_l _ _ _ _ _ Hp E) as (l & -> & Hs).
    destruct (do_call_refines c Hok s l Hs) as (a & s' & -> & Ha & Hs').
    destruct (list_call c l) as [b l'] eqn:El. cbn [fst snd] in Ha, Hs'.
    destruct (IH (<[i := s']> pool ++ strings a) (<[i := l']> lpool ++ strings b))
      as (answers & pool' & -> & Hans & Hp').
    { apply Forall2_app; [by apply Forall2_insert | by apply strings_rep]. }
    destruct (list_calls cs _) as [banswers lpool'].
    exists (a :: answers), pool'. split; [done |]. split; [by constructor | done].
  - assert (lpool !! i = None) as ->; [| by apply IH].
    apply lookup_ge_None. apply lookup_ge_None in E. by rewrite <- (Forall2_length Hp).
Qed.

End Refinement.

(** * Properties *)

(** C32: a CBS initialised with a buffer keeps every client inside it.  Whatever sequence
    of calls a client makes, on that CBS and on the strings it is handed, and whether
    earlier calls failed or not, the code reads no byte and forms no pointer outside the
    buffer, no [assert] fails, every loop ends, and every CBS the client ends up with
    lies in the buffer; the answers, and what the CBSs designate, are those of the list
    model of [Cbs]. *)
Theorem cbs_memory_safe buf cs :
  bytes_ok buf -> len buf < 2 ^ 63 -> Forall (fun ic => call_ok ic.2) cs ->
  exists answers pool, do_calls buf cs [CBS_init 0 (len buf)] = Some (answers, pool)
    /\ Forall (valid buf) pool
    /\ Forall2 (answer_rep buf) answers (list_calls cs [buf]).1
    /\ map (view buf) pool = (list_calls cs [buf]).2.
Proof.
  intros Hok Hlen Hcs.
  assert (rep buf (CBS_init 0 (len buf)) buf) as Hinit.
  { split; [split; cbn; pose proof (len_nonneg buf); lia |].
    unfold view, CBS_init, len; cbn. by rewrite Nat2Z.id, firstn_all. }
  destruct (do_calls_refines buf Hok Hlen cs Hcs [CBS_init 0 (len buf)] [buf] ltac:(constructor; [done | constructor]))
    as (answers & pool & E & Ha & Hp).
  exists answers, pool. split; [done |]. split; [| split; [done |]].
  - clear - Hp. induction Hp as [| s l ? ? [Hv _]]; by constructor.
  - clear - Hp. induction Hp as [| s l pool' ls [_ Hv] _ IH]; [done |]. cbn [map]. by rewrite Hv, IH.
Qed.

(** A SEQUENCE of an INTEGER and a BOOLEAN; a length that runs past the end of the buffer. *)
Definition sample : bytes := [0x30; 0x06; 0x02; 0x01; 0x05; 0x01; 0x01; 0xff; 0x04; 0x7f].
Definition sample_calls : list (nat * cbs_call) :=
  [(0%nat, Call_asn1 0x20000010); (1%nat, Call_asn1_uint64); (1%nat, Call_asn1_bool);
   (0%nat, Call_any_asn1); (0%nat, Call_u8); (0%nat, Call_bytes (2 ^ 64 - 1));
   (0%nat, Call_u8_prefixed)].

Lemma cbs_memory_safe_witness :
  exists answers pool, do_calls sample sample_calls [CBS_init 0 (len sample)] = Some (answers, pool)
    /\ Forall (valid sample) pool
    /\ Forall2 (answer_rep sample) answers
         [Str [2; 1; 5; 1; 1; 255]; Word 5; Flag true; Failed; Word 4; Failed; Failed]
    /\ map (view sample) pool = [[]; []].
Proof.
  apply (cbs_memory_safe sample sample_calls); [repeat (constructor; [unfold byte_ok; lia |]); constructor | reflexivity |].
  repeat constructor; unfold fits; cbn; lia.
Defined.

End CbsMem.
