(* ===== verification/CbsText.v ===== *)
(** Numbers, object identifiers and times read from a CBS (crypto/bytestring/cbs.c):
    what [CBS_get_u*], [CBS_get_u64_decimal], [CBS_is_valid_asn1_oid] and the RFC 5280
    time parsers accept, against independent descriptions of their formats. *)

From S2P Require Import Prelude Internal PosixTime Cbs Der.
Import Internal Cbs Der.

Module CbsText.

(** * Decimal numbers *)

Fixpoint decimal_hi (fuel : nat) (v : Z) : bytes :=
  match fuel with
  | O => []
  | S fuel => if v =? 0 then [] else decimal_hi fuel (v / 10) ++ [48 + v mod 10]
  end.

(** The ASCII decimal form of a 64-bit number: at most twenty digits. *)
Definition decimal (v : Z) : bytes := if v =? 0 then [48] else decimal_hi 20 v.

(** A string that does not continue a number. *)
Definition no_digit (cbs : bytes) : Prop :=
  match cbs with c :: _ => OPENSSL_isdigit c = false | [] => True end.

Lemma decimal_hi_fuel n m v : 0 <= v < 10 ^ Z.of_nat n -> (n <= m)%nat -> decimal_hi m v = decimal_hi n v.
Proof.
  revert m v. induction n as [| n IH]; intros m v Hv Hm.
  - change (10 ^ Z.of_nat 0) with 1 in Hv. assert (v = 0) as -> by lia. by destruct m.
  - destruct m as [| m]; [lia |]. cbn [decimal_hi]. destruct (v =? 0); [done |].
    rewrite IH; [done | | lia]. rewrite Nat2Z.inj_succ, Z.pow_succ_r in Hv by lia.
    split; [apply Z.div_pos; lia | apply Z.div_lt_upper_bound; lia].
Qed.

Lemma decimal_step v d :
  0 < v -> v * 10 + d < 2 ^ 64 -> 0 <= d < 10 -> decimal (v * 10 + d) = decimal v ++ [48 + d].
Proof.
  intros Hv Hlt Hd. unfold decimal.
  replace (v * 10 + d =? 0) with false by lia. replace (v =? 0) with false by lia.
  change (decimal_hi 20 (v * 10 + d)) with
    (if v * 10 + d =? 0 then [] else decimal_hi 19 ((v * 10 + d) / 10) ++ [48 + (v * 10 + d) mod 10]).
  replace (v * 10 + d =? 0) with false by lia. rewrite div_quot_rem, mod_quot_rem by lia.
  rewrite (decimal_hi_fuel 19 20 v); [reflexivity | | lia].
  change (10 ^ Z.of_nat 19) with 10000000000000000000. lia.
Qed.

Lemma decimal_digit d : 0 <= d < 10 -> decimal d = [48 + d].
Proof.
  intros. assert (d = 0 \/ d = 1 \/ d = 2 \/ d = 3 \/ d = 4 \/ d = 5 \/ d = 6 \/ d = 7 \/ d = 8 \/ d = 9)
    as [-> | [-> | [-> | [-> | [-> | [-> | [-> | [-> | [-> | ->]]]]]]]]] by lia; reflexivity.
Qed.

Lemma decimal_loop_digit v seen d rest :
  0 <= v < 2 ^ 64 -> 0 <= d < 10 ->
  decimal_loop v seen ((48 + d) :: rest) =
  if ((v =? 0) && seen) || (v * 10 + d >=? 2 ^ 64) then (None, rest)
  else decimal_loop (v * 10 + d) true rest.
Proof.
  intros Hv Hd. cbn [decimal_loop]. unfold OPENSSL_isdigit.
  replace (negb ((48 + d >=? 48) && (48 + d <=? 57))) with false by lia.
  replace (48 + d - 48) with d by lia. unfold UINT64_MAX.
  change ((2 ^ 64 - 1) / 10) with 1844674407370955161.
  destruct ((v =? 0) && seen); cbn [orb]; [done |].
  destruct (v >? 1844674407370955161) eqn:E; cbn [orb].
  - replace (v * 10 + d >=? 2 ^ 64) with true by lia. done.
  - rewrite (wrap_id 64 (v * 10)) by (unfold fits; lia).
    replace (v * 10 >? 2 ^ 64 - 1 - d) with (v * 10 + d >=? 2 ^ 64) by lia.
    destruct (v * 10 + d >=? 2 ^ 64) eqn:E2; [done |].
    by rewrite wrap_id by (unfold fits; lia).
Qed.

Lemma isdigit_inv c : OPENSSL_isdigit c = true -> exists d, c = 48 + d /\ 0 <= d < 10.
Proof. unfold OPENSSL_isdigit. intros. exists (c - 48). lia. Qed.

Lemma decimal_loop_stop v cbs : no_digit cbs -> decimal_loop v true cbs = (Some v, cbs).
Proof. destruct cbs as [| c cbs]; [done |]. cbn [no_digit decimal_loop]. by intros ->. Qed.

Lemma decimal_loop_sound v cbs r rest :
  0 <= v < 2 ^ 64 -> decimal_loop v true cbs = (Some r, rest) ->
  decimal v ++ cbs = decimal r ++ rest /\ 0 <= r < 2 ^ 64 /\ no_digit rest.
Proof.
  revert v. induction cbs as [| c cbs IH]; intros v Hv H.
  - injection H as <- <-. done.
  - destruct (OPENSSL_isdigit c) eqn:Ec.
    + apply isdigit_inv in Ec as (d & -> & Hd). rewrite decimal_loop_digit in H by lia.
      destruct (_ || _) eqn:E; [done |]. apply IH in H as [H1 H2]; [| lia]. split; [| done].
      rewrite decimal_step, <- app_assoc in H1 by lia. done.
    + rewrite decimal_loop_stop in H by done. injection H as <- <-. done.
Qed.

Lemma decimal_loop_complete v tail :
  0 < v < 2 ^ 64 -> decimal_loop 0 false (decimal v ++ tail) = decimal_loop v true tail.
Proof.
  enough (forall n v tail, 0 < v < 2 ^ 64 -> v < 10 ^ Z.of_nat n ->
            decimal_loop 0 false (decimal_hi n v ++ tail) = decimal_loop v true tail) as H.
  { intros Hv. unfold decimal. replace (v =? 0) with false by lia. apply H; [done |].
    change (10 ^ Z.of_nat 20) with 100000000000000000000. lia. }
  clear. induction n as [| n IH]; intros v tail Hv Hn; [change (10 ^ Z.of_nat 0) with 1 in Hn; lia |].
  cbn [decimal_hi]. replace (v =? 0) with false by lia.
  rewrite Nat2Z.inj_succ, Z.pow_succ_r in Hn by lia. rewrite <- app_assoc. cbn [app].
  pose proof (Z.mod_pos_bound v 10 ltac:(lia)). pose proof (Z.div_mod v 10 ltac:(lia)).
  destruct (decide (v / 10 = 0)) as [E | E].
  - rewrite E in *. replace (decimal_hi n 0) with (@nil Z) by (by destruct n). cbn [app].
    rewrite decimal_loop_digit by lia. cbn [andb orb]. replace (_ >=? _) with false by lia.
    f_equal. lia.
  - rewrite IH, decimal_loop_digit by (Z.div_mod_to_equations; lia).
    replace (v / 10 =? 0) with false by lia. cbn [andb orb]. replace (_ >=? _) with false by lia.
    f_equal. lia.
Qed.

Lemma get_u64_decimal_spec cbs v rest :
  CBS_get_u64_decimal cbs = (Some v, rest) <->
  cbs = decimal v ++ rest /\ 0 <= v < 2 ^ 64 /\ no_digit rest.
Proof.
  unfold CBS_get_u64_decimal. split.
  - destruct cbs as [| c cbs]; [done |]. destruct (OPENSSL_isdigit c) eqn:Ec.
    + apply isdigit_inv in Ec as (d & -> & Hd). rewrite decimal_loop_digit by lia. cbn [andb orb].
      replace (_ >=? _) with false by lia. intros H. apply decimal_loop_sound in H as [H ?]; [| lia].
      rewrite Z.mul_0_l, Z.add_0_l, decimal_digit in H by done. done.
    + cbn [decimal_loop]. by rewrite Ec.
  - intros (-> & Hv & Hn). destruct (decide (v = 0)) as [-> | Hne].
    + change (decimal 0) with [48 + 0]. cbn [app]. rewrite decimal_loop_digit by lia.
      by apply decimal_loop_stop.
    + rewrite decimal_loop_complete by lia. by apply decimal_loop_stop.
Qed.

(** * Object identifiers *)

(** One base-128 arc of any size: continuation octets, no leading zero group, one final
    octet. *)
Definition oid_arc (bs : bytes) : Prop :=
  exists hi lo, bs = hi ++ [lo] /\ Forall (fun b => 128 <= b < 256) hi /\ 0 <= lo < 128
                /\ head hi <> Some 128.

Definition oid (cs : bytes) : Prop :=
  exists arcs, arcs <> [] /\ Forall oid_arc arcs /\ cs = concat arcs.

(** The part of an OID that is left after the octet [prev]. *)
Inductive oid_tail : Z -> bytes -> Prop :=
  | oid_tail_end prev : prev < 128 -> oid_tail prev []
  | oid_tail_more prev v rest :
      ~ (prev < 128 /\ v = 128) -> byte_ok v -> oid_tail v rest -> oid_tail prev (v :: rest).

Lemma oid_loop_tail prev cs : byte_ok prev -> bytes_ok cs -> oid_loop prev cs = true <-> oid_tail prev cs.
Proof.
  intros Hp Hcs. revert prev Hp. induction Hcs as [| v cs Hv Hcs IH]; intros prev Hp; cbn [oid_loop].
  - rewrite land_80 by done. split; [constructor; lia | inversion 1; lia].
  - rewrite land_80 by done. destruct ((prev <? 128) && (v =? 128)) eqn:E.
    + split; [done |]. inversion 1; lia.
    + rewrite IH by done. split; [constructor; [lia | done | done] | by inversion 1].
Qed.

Lemma oid_tail_arcs prev cs :
  oid_tail prev cs ->
  exists hi arcs, cs = hi ++ concat arcs /\ Forall oid_arc arcs /\
    if prev <? 128 then hi = [] else
      exists mid lo, hi = mid ++ [lo] /\ Forall (fun b => 128 <= b < 256) mid /\ 0 <= lo < 128.
Proof.
  induction 1 as [prev H | prev v rest Hne Hv Ht (hi & arcs & -> & Harcs & Hhi)].
  - exists [], []. split_and!; [done | constructor |]. by replace (prev <? 128) with true by lia.
  - unfold byte_ok in Hv. destruct (Z.ltb_spec v 128) as [Hlt | Hge].
    + subst hi. destruct (Z.ltb_spec prev 128).
      * exists [], ([v] :: arcs). split_and!; [done | constructor; [| done] | done].
        exists [], v. split_and!; try done; try lia; constructor.
      * exists [v], arcs. split_and!; [done | done |]. exists [], v. split_and!; try done; try lia; constructor.
    + destruct Hhi as (mid & lo & -> & Hmid & Hlo). destruct (Z.ltb_spec prev 128).
      * exists [], ((v :: mid ++ [lo]) :: arcs). split_and!; [done | constructor; [| done] | done].
        exists (v :: mid), lo. split_and!; try done; try lia; [constructor; [lia | done] | intros [= Hv']; lia].
      * exists (v :: mid ++ [lo]), arcs. split_and!; [done | done |].
        exists (v :: mid), lo. split_and!; try done; try lia. constructor; [lia | done].
Qed.

Lemma oid_tail_hi prev hi lo cs :
  128 <= prev -> Forall (fun b => 128 <= b < 256) hi -> 0 <= lo < 128 -> oid_tail lo cs ->
  oid_tail prev (hi ++ lo :: cs).
Proof.
  intros Hp Hhi Hlo Ht. revert prev Hp. induction Hhi as [| b hi Hb Hhi IH]; intros prev Hp; cbn.
  - constructor; [lia | unfold byte_ok; lia | done].
  - constructor; [lia | unfold byte_ok; lia | apply IH; lia].
Qed.

Lemma arcs_oid_tail arcs prev : 0 <= prev < 128 -> Forall oid_arc arcs -> oid_tail prev (concat arcs).
Proof.
  intros Hp Ha. revert prev Hp. induction Ha as [| a arcs (hi & lo & -> & Hhi & Hlo & Hh) Ha IH];
    intros prev Hp; cbn [concat]; [constructor; lia |].
  rewrite <- app_assoc. cbn [app]. destruct hi as [| b hi]; cbn [app].
  - constructor; [lia | unfold byte_ok; lia | by apply IH].
  - inversion Hhi; subst. constructor; [| unfold byte_ok; lia |].
    + intros [_ ->]. by apply Hh.
    + apply oid_tail_hi; auto; lia.
Qed.

Lemma valid_oid_spec cs : bytes_ok cs -> CBS_is_valid_asn1_oid cs = true <-> oid cs.
Proof.
  intros Hok. unfold CBS_is_valid_asn1_oid, oid.
  destruct (Z.eqb_spec (len cs) 0) as [E | E].
  - apply len_nil_inv in E as ->. split; [done |]. intros (arcs & Hne & Ha & Hc).
    destruct Ha as [| a arcs (hi & lo & -> & _) _]; [done |]. cbn in Hc. by destruct hi.
  - rewrite oid_loop_tail by (try done; unfold byte_ok; lia). split.
    + intros (hi & arcs & -> & Ha & ->)%oid_tail_arcs. exists arcs. split_and!; auto. by intros ->.
    + intros (arcs & _ & Ha & ->). apply arcs_oid_tail; [lia | done].
Qed.

(** * Times *)

(** Two decimal digits. *)
Definition two (n : Z) : bytes := [48 + n / 10; 48 + n mod 10].

Definition year_string (is_gentime : bool) (y : Z) : bytes :=
  if is_gentime then two (y / 100) ++ two (y mod 100) else two (y mod 100).

(** Time zone designators and the seconds they stand for: [Z], or a sign and hhmm. *)
Inductive zone : bool -> bytes -> Z -> Prop :=
  | zone_Z allow : zone allow [90] 0
  | zone_plus hh mm : 0 <= hh <= 23 -> 0 <= mm <= 59 -> zone true (43 :: two hh ++ two mm) (hh * 3600 + mm * 60)
  | zone_minus hh mm : 0 <= hh <= 23 -> 0 <= mm <= 59 ->
      zone true (45 :: two hh ++ two mm) (- (hh * 3600 + mm * 60)).

Definition time_string (is_gentime : bool) (y mo d h mi s : Z) (z : bytes) : bytes :=
  year_string is_gentime y ++ two mo ++ two d ++ two h ++ two mi ++ two s ++ z.

Lemma p_bind_Some {A B} (m : parser A) (k : A -> parser B) cbs b rest :
  p_bind m k cbs = (Some b, rest) <-> exists a c, m cbs = (Some a, c) /\ k a c = (Some b, rest).
Proof.
  unfold p_bind. destruct (m cbs) as [[a |] c]; [| naive_solver]. split; [eauto |].
  by intros (a' & c' & [= <- <-] & ?).
Qed.

Lemma p_guard_Some b cbs u rest : p_guard b cbs = (Some u, rest) <-> b = true /\ cbs = rest.
Proof. destruct b, u; unfold p_guard, p_ret, p_fail; naive_solver. Qed.

Lemma two_digits_Some cbs n rest :
  cbs_get_two_digits cbs = (Some n, rest) <-> cbs = two n ++ rest /\ 0 <= n <= 99.
Proof.
  unfold cbs_get_two_digits, p_bind, p_guard, p_ret, p_fail. split.
  - destruct cbs as [| a cbs]; [done |]. cbn [CBS_get_u8].
    destruct (OPENSSL_isdigit a) eqn:Ea; [| done]. apply isdigit_inv in Ea as (x & -> & Hx).
    destruct cbs as [| b cbs]; [done |]. cbn [CBS_get_u8].
    destruct (OPENSSL_isdigit b) eqn:Eb; [| done]. apply isdigit_inv in Eb as (y & -> & Hy).
    intros [<- <-]%ok_inj. replace ((48 + x - 48) * 10 + (48 + y - 48)) with (x * 10 + y) by lia.
    unfold two. rewrite div_quot_rem, mod_quot_rem by lia. split; [done | lia].
  - intros [-> Hn]. unfold two. cbn [app CBS_get_u8]. unfold OPENSSL_isdigit.
    pose proof (Z.mod_pos_bound n 10 ltac:(lia)). pose proof (Z.div_mod n 10 ltac:(lia)).
    replace ((48 + n / 10 >=? 48) && (48 + n / 10 <=? 57)) with true by lia. cbn [CBS_get_u8].
    replace ((48 + n mod 10 >=? 48) && (48 + n mod 10 <=? 57)) with true by lia.
    replace ((48 + n / 10 - 48) * 10 + (48 + n mod 10 - 48)) with n by lia. done.
Qed.

#[local] Opaque cbs_get_two_digits.

Lemma parse_year_Some gen cbs y rest :
  parse_year gen cbs = (Some y, rest) <->
  cbs = year_string gen y ++ rest /\ if gen then 0 <= y <= 9999 else 1950 <= y <= 2049.
Proof.
  unfold parse_year, year_string. destruct gen.
  - rewrite p_bind_Some. setoid_rewrite p_bind_Some. setoid_rewrite two_digits_Some. unfold p_ret. split.
    + intros (c & r1 & (-> & Hc) & t & r2 & (-> & Ht) & [<- <-]%ok_inj).
      rewrite div_quot_rem, mod_quot_rem by lia. rewrite <- app_assoc. split; [done | lia].
    + intros [-> Hy]. exists (y / 100), (two (y mod 100) ++ rest).
      split; [rewrite <- app_assoc; split; [done | Z.div_mod_to_equations; lia] |].
      exists (y mod 100), rest. split; [split; [done | Z.div_mod_to_equations; lia] |].
      do 2 f_equal. Z.div_mod_to_equations; lia.
  - rewrite p_bind_Some. setoid_rewrite two_digits_Some. unfold p_ret. split.
    + intros (t & r & (-> & Ht) & H). rewrite p_bind_Some in H.
      destruct H as (u & r' & [Hg ->]%p_guard_Some & [<- <-]%ok_inj).
      destruct (Z.ltb_spec (1900 + t) 1950); (split; [| lia]).
      * replace ((1900 + t + 100) mod 100) with t by (Z.div_mod_to_equations; lia). done.
      * replace ((1900 + t) mod 100) with t by (Z.div_mod_to_equations; lia). done.
    + intros [-> Hy]. exists (y mod 100), rest. split; [split; [done | Z.div_mod_to_equations; lia] |].
      assert ((if 1900 + y mod 100 <? 1950 then 1900 + y mod 100 + 100 else 1900 + y mod 100) = y) as ->
        by (destruct (Z.ltb_spec (1900 + y mod 100) 1950); Z.div_mod_to_equations; lia).
      rewrite p_bind_Some. exists tt, rest. rewrite p_guard_Some. split; [split; [lia | done] | done].
Qed.

Lemma parse_offset_Some allow tz cbs off rest :
  parse_offset allow tz cbs = (Some off, rest) <->
  exists z, tz :: cbs = z ++ rest /\ zone allow z off.
Proof.
  unfold parse_offset. destruct (Z.eqb_spec tz 90) as [-> | H90].
  - unfold p_ret. split.
    + intros [<- <-]%ok_inj. exists [90]. split; [done | constructor].
    + intros (z & Hz & Hzone). destruct Hzone; cbn in Hz; try done. by injection Hz as ->.
  - destruct ((tz =? 43) || (tz =? 45)) eqn:Etz.
    + repeat setoid_rewrite p_bind_Some. setoid_rewrite p_guard_Some. setoid_rewrite two_digits_Some.
      unfold p_ret. split.
      * intros (? & c0 & [-> ->] & hh & c & [-> Hh] & ? & c1 & [Hh' ->] & mm & c2 & [-> Hm]
                & ? & c3 & [Hm' ->] & [<- <-]%ok_inj).
        destruct (Z.eqb_spec tz 43) as [-> | Hne].
        -- exists (43 :: two hh ++ two mm). split; [done |].
           rewrite Z.mul_1_l. constructor; lia.
        -- assert (tz = 45) as -> by lia. exists (45 :: two hh ++ two mm).
           split; [done |].
           replace (-1 * (hh * 3600 + mm * 60)) with (- (hh * 3600 + mm * 60)) by lia. constructor; lia.
      * intros (z & Hz & Hzone). destruct Hzone as [allow | hh mm Hh Hm | hh mm Hh Hm]; cbn in Hz; [by injection Hz | |];
          injection Hz as -> ->; z_eval;
          exists tt, (two hh ++ two mm ++ rest); (split; [done |]);
          exists hh, (two mm ++ rest); (split; [split; [done | lia] |]);
          exists tt, (two mm ++ rest); (split; [split; [lia | done] |]);
          exists mm, rest; (split; [split; [done | lia] |]);
          exists tt, rest; (split; [split; [lia | done] |]); do 2 f_equal; lia.
    + split; [done |]. intros (z & Hz & Hzone). destruct Hzone; cbn in Hz; injection Hz; lia.
Qed.

Lemma is_valid_day_date y m d :
  0 <= y <= 9999 -> 1 <= m <= 12 -> is_valid_day y m d = PosixTime.is_valid_date y m d.
Proof.
  intros Hy Hm. unfold is_valid_day, PosixTime.is_valid_date.
  destruct (Z.ltb_spec d 1); [done |].
  replace (false || (m <? 1) || (y <? 0) || (y >? 9999)) with false by lia.
  replace (d >? 0) with true by lia. reflexivity.
Qed.

(** The tail of the parser: the result as a POSIX time. *)
Lemma adjusted_time y mo d h mi s off t p :
  PosixTime.posix_time_from_utc y mo d h mi s = Some p -> -86400 < off < 86400 ->
  (if negb (off =? 0)
   then PosixTime.OPENSSL_gmtime_adj (PosixTime.mk_tm (y - 1900) (mo - 1) d h mi s) 0 off
   else Some (PosixTime.mk_tm (y - 1900) (mo - 1) d h mi s)) = Some t <->
  PosixTime.OPENSSL_tm_to_posix t = Some (p + off).
Proof.
  intros Hp Hoff. set (t0 := PosixTime.mk_tm _ _ _ _ _ _).
  assert (PosixTime.OPENSSL_tm_to_posix t0 = Some p) as Ht0.
  { unfold PosixTime.OPENSSL_tm_to_posix, t0; cbn. rewrite !Z.sub_add. exact Hp. }
  rewrite <- PosixTime.posix_to_tm_Some. destruct (Z.eqb_spec off 0) as [-> | Hne]; cbn [negb].
  - rewrite Z.add_0_r. rewrite (proj2 (PosixTime.posix_to_tm_Some t0 p) Ht0). done.
  - rewrite (PosixTime.gmtime_adj_no_overflow t0 0 off p);
      [by rewrite Z.mul_0_l, Z.add_0_r | done | lia | unfold PosixTime.INT64_MIN, PosixTime.INT64_MAX; lia].
Qed.

Lemma zone_range allow z off : zone allow z off -> -86400 < off < 86400.
Proof. destruct 1; lia. Qed.

Lemma get_u8_Some cbs b rest : CBS_get_u8 cbs = (Some b, rest) <-> cbs = b :: rest.
Proof.
  destruct cbs as [| c cbs]; cbn [CBS_get_u8]; [done |].
  split; [by intros [-> ->]%ok_inj | by intros [= -> ->]].
Qed.

(** The fields the parser reads and the checks it makes on them. *)
Lemma rfc5280_fields gen allow cbs t rest :
  rfc5280_time gen allow cbs = (Some t, rest) <->
  exists y mo d h mi s z off,
    cbs = time_string gen y mo d h mi s z /\ rest = [] /\ zone allow z off /\
    (if gen then 0 <= y <= 9999 else 1950 <= y <= 2049) /\ 1 <= mo <= 12 /\
    is_valid_day y mo d = true /\ 0 <= d <= 99 /\ 0 <= h <= 23 /\ 0 <= mi <= 59 /\ 0 <= s <= 59 /\
    (if negb (off =? 0)
     then PosixTime.OPENSSL_gmtime_adj (PosixTime.mk_tm (y - 1900) (mo - 1) d h mi s) 0 off
     else Some (PosixTime.mk_tm (y - 1900) (mo - 1) d h mi s)) = Some t.
Proof.
  unfold rfc5280_time, time_string. repeat setoid_rewrite p_bind_Some. setoid_rewrite p_guard_Some.
  setoid_rewrite parse_year_Some. setoid_rewrite two_digits_Some. setoid_rewrite get_u8_Some.
  setoid_rewrite parse_offset_Some. split.
  - intros (y & ? & [-> Hy] & mo & ? & [-> Hmo] & _ & ? & [Hmo' <-] & d & ? & [-> Hd] & _ & ? & [Hd' <-]
      & h & ? & [-> Hh] & _ & ? & [Hh' <-] & mi & ? & [-> Hmi] & _ & ? & [Hmi' <-]
      & s & ? & [-> Hs] & _ & ? & [Hs' <-] & tz & c & -> & off & c' & (z & Hz & Hzone)
      & ? & ? & [<- <-]%ok_inj & _ & ? & [Hl <-] & E).
    apply Z.eqb_eq, len_nil_inv in Hl as ->. rewrite app_nil_r in Hz. subst z.
    exists y, mo, d, h, mi, s, (tz :: c), off. split_and!; try done; try lia.
    + destruct (off =? 0); cbn [negb] in *; unfold p_option, p_ret in E; congruence.
    + destruct (off =? 0); cbn [negb] in *; unfold p_option, p_ret in E; congruence.
  - intros (y & mo & d & h & mi & s & z & off & -> & -> & Hz & Hy & Hmo & Hday & Hd & Hh & Hmi & Hs & E).
    assert (exists tz c, z = tz :: c) as (tz & c & ->) by (destruct Hz; eauto).
    exists y, (two mo ++ two d ++ two h ++ two mi ++ two s ++ tz :: c). split; [done |].
    exists mo, (two d ++ two h ++ two mi ++ two s ++ tz :: c). split; [split; [done | lia] |].
    exists tt, (two d ++ two h ++ two mi ++ two s ++ tz :: c). split; [split; [lia | done] |].
    exists d, (two h ++ two mi ++ two s ++ tz :: c). split; [done |].
    exists tt, (two h ++ two mi ++ two s ++ tz :: c). split; [done |].
    exists h, (two mi ++ two s ++ tz :: c). split; [split; [done | lia] |].
    exists tt, (two mi ++ two s ++ tz :: c). split; [split; [lia | done] |].
    exists mi, (two s ++ tz :: c). split; [split; [done | lia] |].
    exists tt, (two s ++ tz :: c). split; [split; [lia | done] |].
    exists s, (tz :: c). split; [split; [done | lia] |].
    exists tt, (tz :: c). split; [split; [lia | done] |].
    exists tz, c. split; [done |].
    exists off, []. split; [exists (tz :: c); by rewrite app_nil_r |].
    exists [], []. split; [done |]. exists tt, []. split; [done |].
    destruct (off =? 0); cbn [negb] in *; unfold p_option, p_ret; [by injection E as -> | by rewrite E].
Qed.

Lemma rfc5280_time_Some gen allow cbs t :
  CBS_parse_rfc5280_time_internal cbs gen allow = Some t <->
  exists y mo d h mi s z off p,
    cbs = time_string gen y mo d h mi s z /\ zone allow z off /\
    (if gen then True else 1950 <= y <= 2049) /\
    PosixTime.posix_time_from_utc y mo d h mi s = Some p /\
    PosixTime.OPENSSL_tm_to_posix t = Some (p + off).
Proof.
  unfold CBS_parse_rfc5280_time_internal.
  transitivity (exists rest, rfc5280_time gen allow cbs = (Some t, rest)).
  { destruct (rfc5280_time gen allow cbs) as [r rest]; cbn [fst]. naive_solver. }
  setoid_rewrite rfc5280_fields. split.
  - intros (_ & y & mo & d & h & mi & s & z & off & -> & -> & Hz & Hy & Hmo & Hday & Hd & Hh & Hmi & Hs & E).
    rewrite is_valid_day_date in Hday by (destruct gen; lia).
    assert (exists p, PosixTime.posix_time_from_utc y mo d h mi s = Some p) as [p Hp].
    { rewrite PosixTime.posix_time_from_utc_eq, Hday. rewrite (proj2 (PosixTime.is_valid_time_spec h mi s)) by lia.
      by eexists. }
    exists y, mo, d, h, mi, s, z, off, p. split_and!; auto; [by destruct gen |].
    eapply adjusted_time; eauto using zone_range.
  - intros (y & mo & d & h & mi & s & z & off & p & -> & Hz & Hy & Hp & Ht).
    pose proof Hp as (Hy' & Hmo & Hd & (Hh & Hmi & Hs) & _)%PosixTime.posix_time_from_utc_Some.
    exists [], y, mo, d, h, mi, s, z, off. split_and!; auto; try lia.
    + by destruct gen.
    + rewrite is_valid_day_date, PosixTime.is_valid_date_spec by lia. done.
    + pose proof (PosixTime.days_in_month_le y mo). lia.
    + eapply adjusted_time; eauto using zone_range.
Qed.

#[local] Transparent cbs_get_two_digits.

(** * Properties *)

(** [CBS_get_u64_decimal] is the exact inverse of decimal printing: it succeeds with
    [v] precisely when the input starts with the decimal form of [v] (no leading zeros),
    not followed by a further digit, and [v] fits [uint64_t]; its overflow tests refuse
    every larger number. *)
Theorem u64_decimal_exact cbs v rest :
  CBS_get_u64_decimal cbs = (Some v, rest) <->
  cbs = decimal v ++ rest /\ 0 <= v < 2 ^ 64 /\ no_digit rest.
Proof. apply get_u64_decimal_spec. Qed.

(** [CBS_is_valid_asn1_oid] accepts exactly the non-empty concatenations of minimally
    encoded base-128 arcs of any size. *)
Theorem asn1_oid_exact cs : bytes_ok cs -> CBS_is_valid_asn1_oid cs = true <-> oid cs.
Proof. apply valid_oid_spec. Qed.

Lemma asn1_oid_exact_witness : CBS_is_valid_asn1_oid [0x2a; 0x86; 0x48] = true.
Proof.
  apply (asn1_oid_exact [0x2a; 0x86; 0x48]); [apply (bool_decide_unpack _); vm_compute; exact I |].
  exists [[0x2a]; [0x86; 0x48]]. split_and!; [done | | reflexivity].
  constructor; [exists [], 0x2a | constructor; [exists [0x86], 0x48 | constructor]];
    split_and!; try reflexivity; try lia; try done; repeat constructor; lia.
Defined.

(** The RFC 5280 time parsers accept exactly the fixed-width GeneralizedTime and
    UTCTime strings (years 0000-9999, respectively 1950-2049 as two digits) of valid
    dates and times with [Z] or, if allowed, a signed hhmm offset, and nothing else;
    the resulting time is the written one *plus* the signed offset. *)
Theorem rfc5280_time_exact gen allow cbs t :
  CBS_parse_rfc5280_time_internal cbs gen allow = Some t <->
  exists y mo d h mi s z off p,
    cbs = time_string gen y mo d h mi s z /\ zone allow z off /\
    (if gen then True else 1950 <= y <= 2049) /\
    PosixTime.posix_time_from_utc y mo d h mi s = Some p /\
    PosixTime.OPENSSL_tm_to_posix t = Some (p + off).
Proof. apply rfc5280_time_Some. Qed.

End CbsText.
