(* ===== verification/Cbb.v ===== *)
(** CBB, the byte-string builder (crypto/bytestring/cbb.c).

    A root CBB owns the buffer ([cbb_buffer_st]); a child CBB stands for a length-prefixed
    region whose prefix is still to be written.  Every CBB has at most one pending child,
    so the live CBBs of a tree form a chain from the root; [children] lists its child
    structures, outermost first.  A [CBB *] argument is the position of its object in the
    chain: 0 for the root, [d + 1] for the child of the CBB at [d].  An object that is not
    in the chain is one whose [base] was set to NULL by a flush or a discard, and a call on
    it fails; that is a position beyond the end of the chain.

    [buf] holds the [len] valid bytes of the buffer.  [realloc_ok] stands for the outcome
    of [OPENSSL_realloc] at a given new capacity.  The bytes a caller stores through the
    pointer it gets from [CBB_add_space] are an argument of the operation. *)

From S2P Require Import Prelude Internal Cbs Der CbsText.
Import Internal.

Module Cbb.

Record cbb_buffer_st := mk_buffer { buf : bytes; cap : Z; can_resize : bool; error : bool }.

Record cbb_child_st := mk_child { offset : Z; pending_len_len : Z; pending_is_asn1 : bool }.

Record CBB := mk_cbb { base : cbb_buffer_st; children : list cbb_child_st }.

Definition set_buf (b : cbb_buffer_st) (bs : bytes) : cbb_buffer_st :=
  mk_buffer bs (cap b) (can_resize b) (error b).
Definition set_error (b : cbb_buffer_st) : cbb_buffer_st :=
  mk_buffer (buf b) (cap b) (can_resize b) true.

(** [for (i = n - 1; i < n; i--) { p[off + i] = v; v >>= 8; }] *)
Fixpoint put_be (p : bytes) (off n : nat) (v : Z) : bytes * Z :=
  match n with
  | O => (p, v)
  | S i => put_be (<[(off + i)%nat := u8 v]> p) off i (Z.shiftr v 8)
  end.

Section Cbb.
Context (realloc_ok : Z -> bool).

(** * The buffer *)

Definition CBB_init (initial_capacity : Z) : option CBB :=
  if (initial_capacity >? 0) && negb (realloc_ok initial_capacity) then None
  else Some (mk_cbb (mk_buffer [] initial_capacity true false) []).

Definition CBB_init_fixed (n : Z) : CBB := mk_cbb (mk_buffer [] n false false) [].

Definition cbb_buffer_reserve (b : cbb_buffer_st) (n : Z) : bool * cbb_buffer_st :=
  let newlen := u64 (len (buf b) + n) in
  if newlen <? len (buf b) then (false, set_error b)
  else if newlen >? cap b then
    if negb (can_resize b) then (false, set_error b)
    else
      let newcap := u64 (cap b * 2) in
      let newcap := if (newcap <? cap b) || (newcap <? newlen) then newlen else newcap in
      if negb (realloc_ok newcap) then (false, set_error b)
      else (true, mk_buffer (buf b) newcap (can_resize b) (error b))
  else (true, b).

(** [cbb_buffer_add], then the caller stores [fill]. *)
Definition cbb_buffer_add (b : cbb_buffer_st) (fill : bytes) : bool * cbb_buffer_st :=
  match cbb_buffer_reserve b (len fill) with
  | (false, b) => (false, b)
  | (true, b) => (true, set_buf b (buf b ++ fill))
  end.

(** * Flushing *)

(** The prefix length and first octet of an ASN.1 length, [None] if it is too large; the
    third component is the length left to write after it. *)
Definition asn1_len_len (n : Z) : option (Z * Z * Z) :=
  if n >? 0xfffffffe then None
  else if n >? 0xffffff then Some (5, Z.lor 0x80 4, n)
  else if n >? 0xffff then Some (4, Z.lor 0x80 3, n)
  else if n >? 0xff then Some (3, Z.lor 0x80 2, n)
  else if n >? 0x7f then Some (2, Z.lor 0x80 1, n)
  else Some (1, n, 0).

(** Writes [n] big-endian at [off]; an error if it does not fit [len_len] bytes. *)
Definition write_prefix (b : cbb_buffer_st) (off len_len n : Z) : bool * cbb_buffer_st :=
  let '(p, rest) := put_be (buf b) (Z.to_nat off) (Z.to_nat len_len) n in
  if negb (rest =? 0) then (false, set_error (set_buf b p)) else (true, set_buf b p).

(** The part of [CBB_flush] after the recursive call: closes the region [child], which is
    now the end of the buffer. *)
Definition flush_child (b : cbb_buffer_st) (child : cbb_child_st) : bool * cbb_buffer_st :=
  let child_start := u64 (offset child + pending_len_len child) in
  if (child_start <? offset child) || (len (buf b) <? child_start) then (false, set_error b)
  else
    let n := len (buf b) - child_start in
    if pending_is_asn1 child then
      match asn1_len_len n with
      | None => (false, set_error b)
      | Some (len_len, initial_length_byte, n') =>
          let extra_bytes := len_len - 1 in
          let '(ok, b) :=
            if negb (len_len =? 1) then
              match cbb_buffer_add b (replicate (Z.to_nat extra_bytes) 0) with
              | (false, b) => (false, set_error b)
              | (true, b) =>
                  (true, set_buf b (memmove (buf b) (Z.to_nat (child_start + extra_bytes))
                                      (Z.to_nat child_start) (Z.to_nat n)))
              end
            else (true, b) in
          if negb ok then (false, b)
          else
            let b := set_buf b (<[Z.to_nat (offset child) := u8 initial_length_byte]> (buf b)) in
            write_prefix b (offset child + 1) (len_len - 1) n'
      end
    else write_prefix b (offset child) (pending_len_len child) n.

(** [CBB_flush] of the CBB whose descendants are [cs]. *)
Fixpoint flush_chain (b : cbb_buffer_st) (cs : list cbb_child_st) : bool * cbb_buffer_st :=
  if error b then (false, b) else
  match cs with
  | [] => (true, b)
  | child :: rest =>
      match flush_chain b rest with
      | (false, b) => (false, set_error b)
      | (true, b) => flush_child b child
      end
  end.

(** C functions [int f(CBB *cbb, ...)]: the return value and the new state. *)
Definition op : Type := CBB -> bool * CBB.

Definition op_and (m k : op) : op := fun st =>
  match m st with
  | (false, st) => (false, st)
  | (true, st) => k st
  end.

(** Lifts an operation on the buffer. *)
Definition on_base (f : cbb_buffer_st -> bool * cbb_buffer_st) : op := fun st =>
  let '(ok, b) := f (base st) in (ok, mk_cbb b (children st)).

Definition cbb_on_error (d : nat) (st : CBB) : CBB :=
  mk_cbb (set_error (base st)) (take d (children st)).

Definition CBB_flush (d : nat) : op := fun st =>
  if (length (children st) <? d)%nat || error (base st) then (false, st)
  else let '(ok, b) := flush_chain (base st) (drop d (children st)) in
       (ok, mk_cbb b (take d (children st))).

Definition CBB_len (d : nat) (st : CBB) : Z :=
  match d, children st !! (d - 1)%nat with
  | S _, Some c => len (buf (base st)) - offset c - pending_len_len c
  | _, _ => len (buf (base st))
  end.

Definition CBB_data (d : nat) (st : CBB) : bytes :=
  match d, children st !! (d - 1)%nat with
  | S _, Some c => drop (Z.to_nat (offset c + pending_len_len c)) (buf (base st))
  | _, _ => buf (base st)
  end.

(** [CBB_finish] on the root; the buffer is handed to the caller. *)
Definition CBB_finish (st : CBB) : option bytes :=
  match CBB_flush 0 st with
  | (true, st) => Some (buf (base st))
  | (false, _) => None
  end.

(** * Appending *)

Definition CBB_add_space (d : nat) (fill : bytes) : op :=
  op_and (CBB_flush d) (on_base (fun b => cbb_buffer_add b fill)).

Definition CBB_add_bytes (d : nat) (data : bytes) : op := CBB_add_space d data.

Definition CBB_add_zeros (d : nat) (n : Z) : op := CBB_add_space d (replicate (Z.to_nat n) 0).

Definition CBB_reserve (d : nat) (n : Z) : op :=
  op_and (CBB_flush d) (on_base (fun b => cbb_buffer_reserve b n)).

(** [written] are the bytes the caller stored into the reserved space. *)
Definition CBB_did_write (d : nat) (written : bytes) : op := fun st =>
  let newlen := u64 (len (buf (base st)) + len written) in
  if (d <? length (children st))%nat || (newlen <? len (buf (base st))) || (newlen >? cap (base st))
  then (false, st)
  else (true, mk_cbb (set_buf (base st) (buf (base st) ++ written)) (children st)).

Definition cbb_add_u (d : nat) (v : Z) (len_len : nat) : op := fun st =>
  match CBB_flush d st with
  | (false, st) => (false, st)
  | (true, st) =>
      let off := length (buf (base st)) in
      match on_base (fun b => cbb_buffer_add b (replicate len_len 0)) st with
      | (false, st) => (false, st)
      | (true, st) =>
          let '(p, rest) := put_be (buf (base st)) off len_len v in
          let st := mk_cbb (set_buf (base st) p) (children st) in
          if negb (rest =? 0) then (false, cbb_on_error d st) else (true, st)
      end
  end.

Definition CBB_add_u8 (d : nat) (value : Z) : op := cbb_add_u d value 1.
Definition CBB_add_u16 (d : nat) (value : Z) : op := cbb_add_u d value 2.
Definition CBB_add_u16le (d : nat) (value : Z) : op := CBB_add_u16 d (CRYPTO_bswap2 value).
Definition CBB_add_u24 (d : nat) (value : Z) : op := cbb_add_u d value 3.
Definition CBB_add_u32 (d : nat) (value : Z) : op := cbb_add_u d value 4.
Definition CBB_add_u32le (d : nat) (value : Z) : op := CBB_add_u32 d (CRYPTO_bswap4 value).
Definition CBB_add_u64 (d : nat) (value : Z) : op := cbb_add_u d value 8.
Definition CBB_add_u64le (d : nat) (value : Z) : op := CBB_add_u64 d (CRYPTO_bswap8 value).

(** * Children *)

Definition cbb_add_child (d : nat) (len_len : Z) (is_asn1 : bool) : op := fun st =>
  let off := len (buf (base st)) in
  match cbb_buffer_add (base st) (replicate (Z.to_nat len_len) 0) with
  | (false, b) => (false, mk_cbb b (children st))
  | (true, b) => (true, mk_cbb b (take d (children st) ++ [mk_child off len_len is_asn1]))
  end.

Definition cbb_add_length_prefixed (d : nat) (len_len : Z) : op :=
  op_and (CBB_flush d) (cbb_add_child d len_len false).

Definition CBB_add_u8_length_prefixed (d : nat) : op := cbb_add_length_prefixed d 1.
Definition CBB_add_u16_length_prefixed (d : nat) : op := cbb_add_length_prefixed d 2.
Definition CBB_add_u24_length_prefixed (d : nat) : op := cbb_add_length_prefixed d 3.

Fixpoint base128_len_loop (fuel : nat) (copy : Z) : nat :=
  match fuel with
  | O => O
  | S fuel => if copy >? 0 then S (base128_len_loop fuel (Z.shiftr copy 7)) else O
  end.

(** [i] counts the bytes left; the C index is one less. *)
Fixpoint add_base128_loop (d : nat) (v : Z) (i : nat) : op :=
  match i with
  | O => fun st => (true, st)
  | S i' =>
      let byte := Z.land (Z.shiftr v (7 * Z.of_nat i')) 0x7f in
      let byte := if (i' =? 0)%nat then byte else Z.lor byte 0x80 in
      op_and (CBB_add_u8 d byte) (add_base128_loop d v i')
  end.

(** A 64-bit number has at most ten groups of seven bits. *)
Definition add_base128_integer (d : nat) (v : Z) : op :=
  let len_len := base128_len_loop 10 v in
  add_base128_loop d v (if (len_len =? 0)%nat then 1%nat else len_len).

Definition CBB_add_asn1 (d : nat) (tag : Z) : op :=
  let tag_bits := Z.land (Z.shiftr tag Cbs.CBS_ASN1_TAG_SHIFT) 0xe0 in
  let tag_number := Z.land tag Cbs.CBS_ASN1_TAG_NUMBER_MASK in
  op_and (CBB_flush d)
    (op_and
       (if tag_number >=? 0x1f
        then op_and (CBB_add_u8 d (Z.lor tag_bits 0x1f)) (add_base128_integer d tag_number)
        else CBB_add_u8 d (Z.lor tag_bits tag_number))
       (cbb_add_child d 1 true)).

Definition CBB_discard_child (d : nat) (st : CBB) : CBB :=
  match children st !! d with
  | None => st
  | Some c => mk_cbb (set_buf (base st) (take (Z.to_nat (offset c)) (buf (base st)))) (take d (children st))
  end.

(** * ASN.1 values *)

(** [if (!m) { goto err; }] where [err] calls [cbb_on_error(cbb)]. *)
Definition or_error (d : nat) (m : op) : op := fun st =>
  match m st with
  | (false, st) => (false, cbb_on_error d st)
  | (true, st) => (true, st)
  end.

Definition op_true : op := fun st => (true, st).

(** The loop over the eight bytes of [value], most significant first; the child is at [d]. *)
Fixpoint uint64_bytes_loop (d : nat) (bs : bytes) (started : bool) : op :=
  match bs with
  | [] => if negb started then CBB_add_u8 d 0 else op_true
  | byte :: bs =>
      if negb started then
        if byte =? 0 then uint64_bytes_loop d bs false
        else op_and (if negb (Z.land byte 0x80 =? 0) then CBB_add_u8 d 0 else op_true)
               (op_and (CBB_add_u8 d byte) (uint64_bytes_loop d bs true))
      else op_and (CBB_add_u8 d byte) (uint64_bytes_loop d bs true)
  end.

(** [(value >> 8 * (7 - i)) & 0xff] for [i] from 0 to 7 *)
Definition uint64_bytes (value : Z) : bytes :=
  map (fun i => Z.land (Z.shiftr value (8 * (7 - i))) 0xff) (seqZ 0 8).

Definition CBB_add_asn1_uint64_with_tag (d : nat) (value tag : Z) : op :=
  op_and (or_error d (op_and (CBB_add_asn1 d tag) (uint64_bytes_loop (S d) (uint64_bytes value) false)))
    (CBB_flush d).

Definition CBB_add_asn1_uint64 (d : nat) (value : Z) : op :=
  CBB_add_asn1_uint64_with_tag d value Cbs.CBS_ASN1_INTEGER.

(** [while (start > 0 && bytes[start] == 0xff && (bytes[start - 1] & 0x80)) start--;] on the
    little-endian bytes of a [int64_t] *)
Fixpoint skip_sign_loop (bs : bytes) (start : nat) : nat :=
  match start with
  | O => O
  | S prev =>
      if (bs !!! start =? 0xff) && negb (Z.land (bs !!! prev) 0x80 =? 0) then skip_sign_loop bs prev
      else start
  end.

(** [for (i = start; i >= 0; i--) CBB_add_u8(&child, bytes[i])] *)
Fixpoint add_down_loop (d : nat) (bs : bytes) (i : nat) : op :=
  op_and (CBB_add_u8 d (bs !!! i))
    match i with O => op_true | S i => add_down_loop d bs i end.

Definition CBB_add_asn1_int64_with_tag (d : nat) (value tag : Z) : op :=
  if value >=? 0 then CBB_add_asn1_uint64_with_tag d value tag
  else
    let bs := reverse (be_bytes 8 value) in
    let start := skip_sign_loop bs 7 in
    op_and (or_error d (op_and (CBB_add_asn1 d tag) (add_down_loop (S d) bs start))) (CBB_flush d).

Definition CBB_add_asn1_int64 (d : nat) (value : Z) : op :=
  CBB_add_asn1_int64_with_tag d value Cbs.CBS_ASN1_INTEGER.

Definition CBB_add_asn1_octet_string (d : nat) (data : bytes) : op :=
  or_error d (op_and (CBB_add_asn1 d Cbs.CBS_ASN1_OCTETSTRING)
                (op_and (CBB_add_bytes (S d) data) (CBB_flush d))).

Definition CBB_add_asn1_bool (d : nat) (value : Z) : op :=
  or_error d (op_and (CBB_add_asn1 d Cbs.CBS_ASN1_BOOLEAN)
                (op_and (CBB_add_u8 (S d) (if negb (value =? 0) then 0xff else 0)) (CBB_flush d))).

(** * Object identifiers as text *)

Definition parse_dotted_decimal : parser Z := fun cbs =>
  match Cbs.CBS_get_u64_decimal cbs with
  | (None, cbs) => (None, cbs)
  | (Some out, cbs) =>
      match Cbs.CBS_get_u8 cbs with
      | (None, cbs) => (Some out, cbs)
      | (Some dot, cbs) => (if (dot =? 46) && (len cbs >? 0) then Some out else None, cbs)
      end
  end.

(** Every component takes a byte of the text, whose length is the fuel. *)
Fixpoint oid_components_loop (fuel : nat) (d : nat) (cbs : CBS) : op := fun st =>
  match fuel with
  | O => (true, st)
  | S fuel =>
      if len cbs >? 0 then
        match parse_dotted_decimal cbs with
        | (None, _) => (false, st)
        | (Some a, cbs) => op_and (add_base128_integer d a) (oid_components_loop fuel d cbs) st
        end
      else (true, st)
  end.

Definition CBB_add_asn1_oid_from_text (d : nat) (text : bytes) : op :=
  op_and (CBB_flush d) (fun st =>
    if len text >? 32767 then (false, st)
    else
      match parse_dotted_decimal text with
      | (None, _) => (false, st)
      | (Some a, cbs) =>
          match parse_dotted_decimal cbs with
          | (None, _) => (false, st)
          | (Some b, cbs) =>
              if (a >? 2) || ((a <? 2) && (b >? 39)) || (b >? Cbs.UINT64_MAX - 80) then (false, st)
              else op_and (add_base128_integer d (40 * a + b))
                     (oid_components_loop (length cbs) d cbs) st
          end
      end).

(** [snprintf("%" PRIu64)] *)
Definition add_decimal (d : nat) (v : Z) : op := CBB_add_bytes d (CbsText.decimal v).

Fixpoint oid_to_text_loop (fuel : nat) (copy : CBS) : op := fun st =>
  match fuel with
  | O => (true, st)
  | S fuel =>
      if negb (len copy =? 0) then
        match Cbs.parse_base128_integer copy with
        | (None, _) => (false, st)
        | (Some v, copy) =>
            op_and (CBB_add_u8 0 46) (op_and (add_decimal 0 v) (oid_to_text_loop fuel copy)) st
        end
      else (true, st)
  end.

(** The NUL-terminated text. *)
Definition CBS_asn1_oid_to_text (cbs : CBS) : option bytes :=
  match CBB_init 32 with
  | None => None
  | Some cbb =>
      match Cbs.parse_base128_integer cbs with
      | (None, _) => None
      | (Some v, copy) =>
          match op_and
                  (if v >=? 80 then op_and (CBB_add_bytes 0 [50; 46]) (add_decimal 0 (v - 80))
                   else op_and (add_decimal 0 (v / 40)) (op_and (CBB_add_u8 0 46) (add_decimal 0 (v mod 40))))
                  (op_and (oid_to_text_loop (length copy) copy) (CBB_add_u8 0 0)) cbb with
          | (false, _) => None
          | (true, cbb) => CBB_finish cbb
          end
      end
  end.

(** * SET OF *)

Definition compare_set_of_element (a b : bytes) : Z :=
  let min_len := if len a <? len b then len a else len b in
  let ret := OPENSSL_memcmp (take (Z.to_nat min_len) a) (take (Z.to_nat min_len) b) in
  if negb (ret =? 0) then ret
  else if len a =? len b then 0
  else if len a <? len b then -1 else 1.

(** The elements of [cbs]; every element takes a byte, so its length is enough fuel. *)
Fixpoint elements_loop (fuel : nat) (cbs : CBS) : option (list bytes) :=
  match fuel with
  | O => Some []
  | S fuel =>
      if negb (len cbs =? 0) then
        match Cbs.CBS_get_any_asn1_element cbs with
        | (None, _) => None
        | (Some e, cbs) => es ← elements_loop fuel cbs; Some (Cbs.el_out e :: es)
        end
      else Some []
  end.

(** [qsort] with [compare_set_of_element]; elements that compare equal are equal, so the
    result does not depend on the algorithm. *)
Fixpoint sort_insert (e : bytes) (es : list bytes) : list bytes :=
  match es with
  | [] => [e]
  | x :: rest => if compare_set_of_element e x <=? 0 then e :: es else x :: sort_insert e rest
  end.
Definition sort_elements : list bytes -> list bytes := foldr sort_insert [].

(** [alloc_ok] is the outcome of the two temporary allocations. *)
Definition CBB_flush_asn1_set_of (d : nat) (alloc_ok : bool) : op := fun st =>
  match CBB_flush d st with
  | (false, st) => (false, st)
  | (true, st) =>
      let data := CBB_data d st in
      match elements_loop (length data) data with
      | None => (false, st)
      | Some es =>
          if (length es <? 2)%nat then (true, st)
          else if negb alloc_ok then (false, st)
          else
            let out := take (Z.to_nat (len (buf (base st)) - CBB_len d st)) (buf (base st)) in
            (true, mk_cbb (set_buf (base st) (out ++ concat (sort_elements es))) (children st))
      end
  end.

(** [CBB_finish_i2d]: the return value, and the bytes stored through [outp]. *)
Definition CBB_finish_i2d (st : CBB) : Z * option bytes :=
  match CBB_finish st with
  | None => (-1, None)
  | Some der => if len der >? 2147483647 then (-1, None) else (len der, Some der)
  end.

End Cbb.
End Cbb.
