(* ===== verification/CbbSpec.v ===== *)
(** The contract of the CBB builder and the proof that cbb.c implements it.

    A builder in progress is the bytes of its root and, outermost first, the open
    length-prefixed regions with the bytes written to each so far.  No offsets, no reserved
    prefix bytes, no moves: closing a region prepends the encoding of its final length. *)

From S2P Require Import Prelude Internal Cbs Der CbsText Cbb.
Import Internal Der Cbb.

Module CbbSpec.

(** * The abstract builder *)

Inductive kind := Len (n : nat) | Asn1.

Abbreviation frames := (list (kind * bytes)).
Abbreviation builder := (bytes * frames)%type.

Definition prefix_len (k : kind) : nat := match k with Len n => n | Asn1 => 1 end.
Definition is_asn1 (k : kind) : bool := match k with Len _ => false | Asn1 => true end.

Definition prefix (k : kind) (n : Z) : option bytes :=
  match k with
  | Len m => if n <? 256 ^ Z.of_nat m then Some (be_bytes m n) else None
  | Asn1 => if n <=? 0xfffffffe then Some (der_len n) else None
  end.

Fixpoint close (fs : frames) : option bytes :=
  match fs with
  | [] => Some []
  | (k, bs) :: fs =>
      tail ← close fs;
      p ← prefix k (len (bs ++ tail));
      Some (p ++ bs ++ tail)
  end.

(** Closes the regions inside the one at depth [d]. *)
Fixpoint a_flush (d : nat) (a : builder) : option builder :=
  match d, snd a with
  | O, fs => tail ← close fs; Some (fst a ++ tail, [])
  | S d, [] => None
  | S d, (k, bs) :: fs => a' ← a_flush d (bs, fs); Some (fst a, (k, fst a') :: snd a')
  end.

(** Appends to the innermost region. *)
Fixpoint a_append (b : bytes) (fs : frames) (x : bytes) : builder :=
  match fs with
  | [] => (b ++ x, [])
  | (k, bs) :: fs => let a := a_append bs fs x in (b, (k, fst a) :: snd a)
  end.

Definition a_open (a : builder) (k : kind) : builder := (fst a, snd a ++ [(k, [])]).

Definition a_add (d : nat) (x : bytes) (a : builder) : option builder :=
  a ← a_flush d a; Some (a_append (fst a) (snd a) x).

Definition a_child (d : nat) (header : bytes) (k : kind) (a : builder) : option builder :=
  a ← a_add d header a; Some (a_open a k).

(** * Its representation *)

(** The buffer holds every region with its prefix still zero. *)
Fixpoint layout (b : bytes) (fs : frames) : bytes :=
  b ++ match fs with
       | [] => []
       | (k, bs) :: fs => replicate (prefix_len k) 0 ++ layout bs fs
       end.

Fixpoint chain (off : Z) (b : bytes) (fs : frames) : list cbb_child_st :=
  match fs with
  | [] => []
  | (k, bs) :: fs =>
      mk_child (off + len b) (Z.of_nat (prefix_len k)) (is_asn1 k)
      :: chain (off + len b + Z.of_nat (prefix_len k)) bs fs
  end.

Definition live (b : cbb_buffer_st) (bs : bytes) : Prop :=
  buf b = bs /\ error b = false /\ can_resize b = true.

Definition repr (st : CBB) (a : builder) : Prop :=
  live (base st) (layout (fst a) (snd a)) /\ children st = chain 0 (fst a) (snd a).

(** A bound on the size of the buffer once everything is closed. *)
Definition size (a : builder) : Z := len (layout (fst a) (snd a)) + 4 * Z.of_nat (length (snd a)).

(** * Buffer operations *)

Lemma put_be_spec p x s v :
  0 <= v ->
  put_be (p ++ x ++ s) (length p) (length x) v
  = (p ++ be_bytes (length x) v ++ s, v / 256 ^ len x).
Proof.
  revert s v. induction x as [| y x IH] using rev_ind; intros s v Hv.
  - cbn. by rewrite Z.div_1_r.
  - rewrite length_app, Nat.add_comm. cbn [length Nat.add put_be be_bytes].
    rewrite insert_app_r, <- (app_assoc x). rewrite (insert_app_r_alt x) by lia.
    rewrite Nat.sub_diag. cbn [app insert list_insert].
    rewrite IH by (apply Z.shiftr_nonneg; lia).
    rewrite Z.shiftr_div_pow2 by lia. change (2 ^ 8) with 256.
    rewrite len_app. change (len [y]) with 1.
    rewrite Z.pow_add_r by (pose proof (len_nonneg x); lia).
    rewrite Z.div_div by (try lia; apply Z.pow_pos_nonneg; pose proof (len_nonneg x); lia).
    rewrite <- !app_assoc. unfold wrap. f_equal. f_equal. lia.
Qed.

Section Refine.
Context (realloc_ok : Z -> bool) (Hrealloc : forall n, realloc_ok n = true).

Lemma buffer_reserve_live b bs n :
  live b bs -> 0 <= n -> len bs + n < 2 ^ 64 ->
  exists b', cbb_buffer_reserve realloc_ok b n = (true, b') /\ live b' bs.
Proof.
  intros (Hb & He & Hr) Hn Hs. pose proof (len_nonneg bs). unfold cbb_buffer_reserve. rewrite Hb.
  rewrite (wrap_id 64) by (unfold fits; lia). replace (_ <? _) with false by lia.
  rewrite Hr, Hrealloc. cbn [negb]. destruct (_ >? _); eexists; (split; [reflexivity |]); done.
Qed.

Lemma buffer_add_live b bs fill :
  live b bs -> len bs + len fill < 2 ^ 64 ->
  exists b', cbb_buffer_add realloc_ok b fill = (true, b') /\ live b' (bs ++ fill).
Proof.
  intros Hb Hs. destruct (buffer_reserve_live b bs (len fill)) as (b' & E & Hb');
    [done | apply len_nonneg | done |].
  unfold cbb_buffer_add. rewrite E. eexists. split; [reflexivity |].
  destruct Hb' as (<- & ? & ?). done.
Qed.

Lemma write_prefix_live b p x s v :
  live b (p ++ x ++ s) -> 0 <= v ->
  exists b', write_prefix b (len p) (len x) v = (v <? 256 ^ len x, b') /\
    (if v <? 256 ^ len x then live b' (p ++ be_bytes (length x) v ++ s) else error b' = true).
Proof.
  intros (Hb & He & Hr) Hv. unfold write_prefix, len. rewrite !Nat2Z.id, Hb, put_be_spec by done.
  fold (len x). pose proof (pow256_pos (len x) (len_nonneg x)).
  destruct (Z.ltb_spec v (256 ^ len x)).
  - rewrite Z.div_small by lia. eexists. split; [reflexivity |]. done.
  - replace (v / 256 ^ len x =? 0) with false; [eexists; split; reflexivity |].
    assert (1 <= v / 256 ^ len x) by (apply Z.div_le_lower_bound; lia). lia.
Qed.

Lemma asn1_len_len_spec n :
  0 <= n ->
  match asn1_len_len n with
  | None => (n <=? 0xfffffffe) = false
  | Some (ll, first, n') =>
      (n <=? 0xfffffffe) = true /\ ll = 1 + Z.of_nat (der_len_len n) /\ byte_ok first /\
      first :: be_bytes (der_len_len n) n' = der_len n /\ 0 <= n' < 256 ^ Z.of_nat (der_len_len n)
  end.
Proof.
  intros Hn. unfold asn1_len_len, der_len, der_len_len, byte_ok.
  destruct (Z.gtb_spec n 0xfffffffe); [lia |].
  destruct (Z.gtb_spec n 0xffffff).
  { replace (n <? 128) with false by lia. replace (n <? 256) with false by lia.
    replace (n <? 65536) with false by lia. replace (n <? 16777216) with false by lia.
    split_and!; try reflexivity; z_eval; lia. }
  destruct (Z.gtb_spec n 0xffff).
  { replace (n <? 128) with false by lia. replace (n <? 256) with false by lia.
    replace (n <? 65536) with false by lia. replace (n <? 16777216) with true by lia.
    split_and!; try reflexivity; z_eval; lia. }
  destruct (Z.gtb_spec n 0xff).
  { replace (n <? 128) with false by lia. replace (n <? 256) with false by lia.
    replace (n <? 65536) with true by lia. split_and!; try reflexivity; z_eval; lia. }
  destruct (Z.gtb_spec n 0x7f).
  { replace (n <? 128) with false by lia. replace (n <? 256) with true by lia.
    split_and!; try reflexivity; z_eval; lia. }
  replace (n <? 128) with true by lia. split_and!; try reflexivity; z_eval; lia.
Qed.

Lemma flush_chain_cons b child cs :
  error b = false ->
  flush_chain realloc_ok b (child :: cs) =
  match flush_chain realloc_ok b cs with
  | (false, b) => (false, set_error b)
  | (true, b) => flush_child realloc_ok b child
  end.
Proof. intros He. cbn [flush_chain]. by rewrite He. Qed.

(** The move that makes room for a long-form length. *)
Lemma make_room_live b p y content (extra : nat) :
  live b (p ++ [y] ++ content) -> len (p ++ [y] ++ content) + Z.of_nat extra < 2 ^ 64 ->
  exists b' gap,
    (if negb (1 + Z.of_nat extra =? 1) then
       match cbb_buffer_add realloc_ok b (replicate extra 0) with
       | (false, b) => (false, set_error b)
       | (true, b) =>
           (true, set_buf b (memmove (buf b) (length p + 1 + extra) (length p + 1) (length content)))
       end
     else (true, b)) = (true, b') /\ live b' (p ++ [y] ++ gap ++ content) /\ length gap = extra.
Proof.
  intros Hb Hs. destruct (Z.eqb_spec (1 + Z.of_nat extra) 1) as [E | E].
  - exists b, []. assert (extra = O) as -> by lia. done.
  - destruct (buffer_add_live b _ (replicate extra 0) Hb) as (b' & -> & Hb').
    { unfold len at 2. rewrite length_replicate. lia. }
    destruct Hb' as (Hbuf & He & Hr).
    destruct (memmove_spec (p ++ [y]) content (replicate extra 0)) as (gap & Hm & Hgap).
    rewrite length_replicate in Hm, Hgap. rewrite length_app in Hm. cbn [length] in Hm.
    eexists _, gap. split; [reflexivity |]. split; [| done]. split; [| done].
    cbn [buf set_buf]. rewrite Hbuf. rewrite <- !app_assoc in Hm |- *. exact Hm.
Qed.

Lemma flush_child_spec b k pre content :
  live b (pre ++ replicate (prefix_len k) 0 ++ content) ->
  len (pre ++ replicate (prefix_len k) 0 ++ content) + 4 < 2 ^ 64 ->
  exists b', flush_child realloc_ok b (mk_child (len pre) (Z.of_nat (prefix_len k)) (is_asn1 k))
             = (bool_decide (is_Some (prefix k (len content))), b') /\
    match prefix k (len content) with
    | Some p => live b' (pre ++ p ++ content)
    | None => error b' = true
    end.
Proof.
  intros Hb Hs. pose proof (len_nonneg pre). pose proof (len_nonneg content). rewrite !len_app in Hs.
  assert (len (replicate (prefix_len k) 0) = Z.of_nat (prefix_len k)) as Hz
    by (unfold len; by rewrite length_replicate). rewrite Hz in Hs.
  unfold flush_child. cbn [offset pending_len_len pending_is_asn1].
  rewrite (wrap_id 64) by (unfold fits; lia). destruct Hb as (Hbuf & He & Hr). rewrite Hbuf, !len_app, Hz.
  replace (_ || _) with false by lia.
  replace (len pre + (Z.of_nat (prefix_len k) + len content) - (len pre + Z.of_nat (prefix_len k)))
    with (len content) by lia.
  destruct k as [m |]; cbn [is_asn1 prefix prefix_len] in *.
  - destruct (write_prefix_live b pre (replicate m 0) content (len content)) as (b' & E & Hb'); [done | lia |].
    rewrite Hz in E, Hb'. rewrite length_replicate in Hb'. exists b'. rewrite E. by destruct (_ <? _).
  - pose proof (asn1_len_len_spec (len content)) as Hl.
    destruct (asn1_len_len (len content)) as [[[ll first] n'] |]; specialize (Hl ltac:(lia)).
    2: { rewrite Hl. eexists. split; [reflexivity |]. done. }
    destruct Hl as (-> & -> & Hfirst & Hder & Hn').
    set (extra := der_len_len (len content)) in *.
    assert ((extra <= 4)%nat) by (unfold extra, der_len_len; repeat case_match; lia).
    destruct (make_room_live b pre 0 content extra) as (b1 & gap & E & Hb1 & Hgap); [done | rewrite !len_app; change (len [0]) with 1; lia |].
    replace (Z.to_nat (1 + Z.of_nat extra - 1)) with extra by lia.
    replace (Z.to_nat (len pre + Z.of_nat 1 + (1 + Z.of_nat extra - 1))) with (length pre + 1 + extra)%nat by (unfold len; lia).
    replace (Z.to_nat (len pre + Z.of_nat 1)) with (length pre + 1)%nat by (unfold len; lia).
    replace (Z.to_nat (len content)) with (length content) by (unfold len; lia).
    rewrite E. cbn [negb]. destruct Hb1 as (Hb1 & He1 & Hr1).
    replace (1 + Z.of_nat extra - 1) with (len gap) by (unfold len; lia).
    destruct (write_prefix_live (set_buf b1 (<[Z.to_nat (len pre):=u8 first]> (buf b1)))
                (pre ++ [first]) gap content n') as (b2 & E2 & Hb2).
    { split; [| done]. cbn [buf set_buf]. rewrite Hb1. unfold len. rewrite Nat2Z.id.
      rewrite insert_app_r_alt, Nat.sub_diag by lia. cbn. rewrite <- app_assoc. cbn.
      by rewrite (wrap_id 8). }
    { lia. }
    rewrite len_app in E2. change (len [first]) with 1 in E2.
    assert (len gap = Z.of_nat extra) as Hg by (unfold len; lia).
    replace (n' <? 256 ^ len gap) with true in E2, Hb2 by (rewrite Hg; lia).
    exists b2. rewrite E2. split; [done |]. rewrite <- Hder, Hgap in *. by rewrite <- app_assoc in Hb2.
Qed.

Lemma der_len_bound n : len (der_len n) <= 5.
Proof.
  unfold der_len. destruct (_ <? _); [done |]. rewrite len_cons. unfold len. rewrite length_be_bytes.
  unfold der_len_len. repeat case_match; lia.
Qed.

Lemma prefix_bound k n p : prefix k n = Some p -> len p <= Z.of_nat (prefix_len k) + 4.
Proof.
  destruct k as [m |]; cbn [prefix prefix_len]; case_match; try done; intros [= <-].
  - unfold len. rewrite length_be_bytes. lia.
  - pose proof (der_len_bound n). lia.
Qed.

Lemma len_zeros n : len (replicate n 0) = Z.of_nat n.
Proof. unfold len. by rewrite length_replicate. Qed.

Lemma layout_cons b k bs fs :
  layout b ((k, bs) :: fs) = b ++ replicate (prefix_len k) 0 ++ layout bs fs.
Proof. done. Qed.

Lemma size_cons b k bs fs :
  size (b, (k, bs) :: fs) = len b + Z.of_nat (prefix_len k) + 4 + size (bs, fs).
Proof.
  unfold size. cbn [fst snd]. rewrite layout_cons, !len_app, len_zeros. cbn [length]. lia.
Qed.

Lemma close_bound b fs tail : close fs = Some tail -> len (b ++ tail) <= size (b, fs).
Proof.
  revert b tail. induction fs as [| [k bs] fs IH]; intros b tail; cbn [close].
  - intros [= <-]. unfold size. cbn [fst snd layout length]. lia.
  - destruct (close fs) as [t |] eqn:Et; [| done]. cbn [mbind option_bind].
    destruct (prefix k _) as [p |] eqn:Ep; [| done]. cbn [mbind option_bind]. intros [= <-].
    specialize (IH bs t eq_refl). rewrite size_cons. apply prefix_bound in Ep. rewrite !len_app in *. lia.
Qed.

(** Flushing a whole chain writes exactly the closed regions. *)
Lemma flush_chain_spec b pre bs fs :
  live b (pre ++ layout bs fs) -> len pre + size (bs, fs) < 2 ^ 64 ->
  exists b', flush_chain realloc_ok b (chain (len pre) bs fs)
             = (bool_decide (is_Some (close fs)), b') /\
    match close fs with
    | Some tail => live b' (pre ++ bs ++ tail)
    | None => error b' = true
    end.
Proof.
  revert b pre bs. induction fs as [| [k bs'] fs IH]; intros b pre bs Hb Hs.
  - exists b. cbn [chain flush_chain close]. destruct Hb as (Hb & He & Hr). rewrite He. done.
  - cbn [chain]. rewrite flush_chain_cons by apply Hb. rewrite layout_cons in Hb. rewrite size_cons in Hs.
    destruct (IH b (pre ++ bs ++ replicate (prefix_len k) 0) bs') as (b1 & E1 & Hb1).
    { by rewrite <- !app_assoc. }
    { rewrite !len_app, len_zeros. lia. }
    rewrite !len_app, len_zeros, Z.add_assoc in E1. rewrite E1. cbn [close].
    destruct (close fs) as [tail |] eqn:Et; cbn [mbind option_bind].
    2: { eexists. split; reflexivity. }
    rewrite <- !app_assoc in Hb1. apply (close_bound bs') in Et.
    destruct (flush_child_spec b1 k (pre ++ bs) (bs' ++ tail)) as (b2 & E2 & Hb2).
    { by rewrite <- !app_assoc. }
    { rewrite !len_app, len_zeros in *. lia. }
    rewrite len_app in E2. exists b2. rewrite bool_decide_eq_true_2 by eauto. rewrite E2.
    destruct (prefix k _) as [p |]; cbn [mbind option_bind]; [| done].
    split; [done |]. by rewrite <- !app_assoc in Hb2.
Qed.

(** ** Flushing at a depth *)

Lemma a_flush_spec d b pre bs fs :
  live b (pre ++ layout bs fs) -> len pre + size (bs, fs) < 2 ^ 64 -> (d <= length fs)%nat ->
  exists b', flush_chain realloc_ok b (drop d (chain (len pre) bs fs))
             = (bool_decide (is_Some (a_flush d (bs, fs))), b') /\
    match a_flush d (bs, fs) with
    | Some (bs', fs') => live b' (pre ++ layout bs' fs') /\
                         take d (chain (len pre) bs fs) = chain (len pre) bs' fs'
    | None => error b' = true
    end.
Proof.
  revert pre bs fs. induction d as [| d IH]; intros pre bs fs Hb Hs Hd.
  - destruct (flush_chain_spec b pre bs fs Hb Hs) as (b' & E & Hb'). exists b'. rewrite drop_0, E.
    cbn [a_flush snd fst]. destruct (close fs) as [tail |]; cbn [mbind option_bind]; [| done].
    split; [done |]. rewrite take_0. split; [| done]. cbn [layout]. by rewrite app_nil_r.
  - destruct fs as [| [k bs'] fs]; [cbn in Hd; lia |]. rewrite layout_cons in Hb. rewrite size_cons in Hs.
    cbn [chain drop take a_flush snd fst].
    destruct (IH (pre ++ bs ++ replicate (prefix_len k) 0) bs' fs) as (b1 & E1 & Hb1).
    { by rewrite <- !app_assoc. }
    { rewrite !len_app, len_zeros. lia. }
    { cbn in Hd. lia. }
    rewrite !len_app, len_zeros, Z.add_assoc in E1, Hb1. exists b1. rewrite E1.
    destruct (a_flush d (bs', fs)) as [[bs1 fs1] |]; cbn [mbind option_bind fst snd]; [| done].
    split; [done |]. destruct Hb1 as [Hb1 Hc]. rewrite <- !app_assoc in Hb1.
    rewrite Hc. done.
Qed.

Lemma chain_length off bs fs : length (chain off bs fs) = length fs.
Proof. revert off bs. induction fs as [| [k bs'] fs IH]; intros; cbn; [done |]. by rewrite IH. Qed.

Lemma a_flush_depth d a a' : a_flush d a = Some a' -> length (snd a') = d /\ size a' <= size a.
Proof.
  revert a a'. induction d as [| d IH]; intros [bs fs] a'; cbn [a_flush fst snd].
  - destruct (close fs) as [tail |] eqn:E; [| done]. cbn. intros [= <-]. split; [done |].
    apply (close_bound bs) in E. unfold size at 1. cbn [fst snd layout length]. rewrite app_nil_r. lia.
  - destruct fs as [| [k bs'] fs]; [done |]. destruct (a_flush d (bs', fs)) as [[b1 f1] |] eqn:E; [| done].
    cbn. intros [= <-]. apply IH in E as [Hl Hs]. cbn [snd length] in *. split; [lia |].
    rewrite !size_cons. lia.
Qed.

Lemma a_flush_too_deep d a : (length (snd a) < d)%nat -> a_flush d a = None.
Proof.
  revert a. induction d as [| d IH]; intros [bs fs] H; [cbn in H; lia |]. cbn [a_flush fst snd] in *.
  destruct fs as [| [k bs'] fs]; [done |]. by rewrite IH by (cbn in *; lia).
Qed.

(** An operation of the code does what an operation of the abstract builder does, and fails
    when that one does. *)
Definition implements (m : op) (f : builder -> option builder) (grow : Z) : Prop :=
  forall st a, repr st a -> size a + grow < 2 ^ 64 ->
  exists st', m st = (bool_decide (is_Some (f a)), st') /\
    match f a with
    | Some a' => repr st' a' /\ size a' <= size a + grow
    | None => True
    end.

Lemma flush_implements d : implements (CBB_flush realloc_ok d) (a_flush d) 0.
Proof.
  intros st [bs fs] [Hb Hc] Hs. cbn [fst snd] in *. unfold CBB_flush. rewrite Hc, chain_length.
  destruct (Nat.ltb_spec (length fs) d) as [Hd | Hd].
  { rewrite a_flush_too_deep by done. by eexists. }
  destruct (a_flush_spec d (base st) [] bs fs) as (b' & E & Hb'); [done | change (len []) with 0; lia | done |].
  change (len []) with 0 in *. rewrite E. destruct Hb as (_ & -> & _). cbn [orb].
  eexists. split; [reflexivity |]. destruct (a_flush d (bs, fs)) as [[bs' fs'] |] eqn:Ef; [| done].
  destruct Hb' as [Hb' Ht]. split; [by split |]. apply a_flush_depth in Ef as [_ Hsz]. lia.
Qed.

Lemma implements_and m f g1 k f2 g2 :
  0 <= g2 ->
  implements m f g1 -> implements k f2 g2 -> implements (op_and m k) (fun a => f a ≫= f2) (g1 + g2).
Proof.
  intros Hg H1 H2 st a Hr Hs. destruct (H1 st a Hr) as (st1 & E1 & Hr1); [lia |].
  unfold op_and. rewrite E1. destruct (f a) as [a1 |]; cbn [mbind option_bind]; [| by eexists].
  destruct Hr1 as [Hr1 Hs1]. rewrite bool_decide_eq_true_2 by eauto.
  destruct (H2 st1 a1 Hr1) as (st2 & E2 & Hr2); [lia |]. exists st2. split; [done |].
  destruct (f2 a1); [| done]. split; [easy | lia].
Qed.

(** ** Appending *)

Lemma a_append_layout b fs x : 
  layout (fst (a_append b fs x)) (snd (a_append b fs x)) = layout b fs ++ x.
Proof.
  revert b. induction fs as [| [k bs] fs IH]; intros b; cbn [a_append fst snd layout].
  - by rewrite !app_nil_r.
  - by rewrite IH, <- !app_assoc.
Qed.

Lemma a_append_chain off b fs x :
  chain off (fst (a_append b fs x)) (snd (a_append b fs x)) = chain off b fs.
Proof.
  revert off b. induction fs as [| [k bs] fs IH]; intros off b; cbn [a_append fst snd chain]; [done |].
  by rewrite IH.
Qed.

Lemma a_append_depth b fs x : length (snd (a_append b fs x)) = length fs.
Proof. revert b. induction fs as [| [k bs] fs IH]; intros b; cbn; [done |]. by rewrite IH. Qed.

Lemma a_append_app b fs x y :
  a_append (fst (a_append b fs x)) (snd (a_append b fs x)) y = a_append b fs (x ++ y).
Proof.
  revert b. induction fs as [| [k bs] fs IH]; intros b; cbn [a_append fst snd].
  - by rewrite app_assoc.
  - by rewrite IH.
Qed.

Lemma a_append_size a x : size (a_append (fst a) (snd a) x) = size a + len x.
Proof. unfold size. rewrite a_append_layout, a_append_depth, len_app. lia. Qed.

Lemma a_flush_id d a : length (snd a) = d -> a_flush d a = Some a.
Proof.
  revert a. induction d as [| d IH]; intros [b [| [k bs] fs]] Hd; cbn [snd length] in Hd; try lia;
    cbn [a_flush fst snd close mbind option_bind].
  - by rewrite app_nil_r.
  - by rewrite IH by (cbn; lia).
Qed.

Lemma a_add_depth d x a a' : a_add d x a = Some a' -> length (snd a') = d.
Proof.
  unfold a_add. destruct (a_flush d a) as [a1 |] eqn:E; [| done]. intros [= <-].
  rewrite a_append_depth. by apply a_flush_depth in E as [? _].
Qed.

Lemma a_add_add d x y a : a_add d x a ≫= a_add d y = a_add d (x ++ y) a.
Proof.
  destruct (a_add d x a) as [a1 |] eqn:E; cbn [mbind option_bind].
  - unfold a_add at 1. rewrite a_flush_id by (by eapply a_add_depth). cbn [mbind option_bind].
    unfold a_add in *. destruct (a_flush d a); [| done]. injection E as <-. cbn [mbind option_bind].
    by rewrite a_append_app.
  - unfold a_add in *. by destruct (a_flush d a).
Qed.

(** [m] appends [x] to the region at [d]. *)
Definition adds (d : nat) (x : bytes) (m : op) : Prop := implements m (a_add d x) (len x).

Lemma implements_ext m f f' g : (forall a, f a = f' a) -> implements m f g -> implements m f' g.
Proof. intros Hf H st a Hr Hs. rewrite <- Hf. by apply H. Qed.

Lemma adds_and d x y m k : adds d x m -> adds d y k -> adds d (x ++ y) (op_and m k).
Proof.
  intros H1 H2. unfold adds. rewrite len_app.
  eapply implements_ext; [apply a_add_add |]. apply implements_and; [apply len_nonneg | done | done].
Qed.

Lemma append_implements x :
  implements (on_base (fun b => cbb_buffer_add realloc_ok b x))
    (fun a => Some (a_append (fst a) (snd a) x)) (len x).
Proof.
  intros st a [Hb Hc] Hs. destruct (buffer_add_live (base st) _ x Hb) as (b' & E & Hb').
  { unfold size in Hs. lia. }
  unfold on_base. rewrite E. eexists. split; [reflexivity |]. rewrite a_append_size. split; [| lia].
  split; [by rewrite a_append_layout | by rewrite a_append_chain].
Qed.

Lemma add_space_adds d x : adds d x (CBB_add_space realloc_ok d x).
Proof.
  unfold adds, CBB_add_space. rewrite <- (Z.add_0_l (len x)).
  apply (implements_and _ _ 0 _ _ (len x)); [apply len_nonneg | apply flush_implements | apply append_implements].
Qed.

Lemma add_u_implements d v n :
  0 <= v ->
  implements (cbb_add_u realloc_ok d v n)
    (fun a => if v <? 256 ^ Z.of_nat n then a_add d (be_bytes n v) a else None) (Z.of_nat n).
Proof.
  intros Hv st a Hr Hs. unfold cbb_add_u.
  destruct (flush_implements d st a Hr) as (st1 & E1 & Hr1); [lia |]. rewrite E1.
  unfold a_add. destruct (a_flush d a) as [a1 |]; cbn [mbind option_bind].
  2: { eexists. split; [by destruct (_ <? _) | by destruct (_ <? _)]. }
  destruct Hr1 as [Hr1 Hs1]. rewrite bool_decide_eq_true_2 by eauto.
  destruct (append_implements (replicate n 0) st1 a1 Hr1) as (st2 & E2 & Hr2 & _); [rewrite len_zeros; lia |].
  rewrite E2. rewrite bool_decide_eq_true_2 by eauto.
  destruct Hr1 as [(Hb1 & _) _]. destruct Hr2 as [(Hb2 & He2 & Hr2) Hc2].
  rewrite a_append_layout in Hb2. rewrite Hb1, Hb2, <- (app_nil_r (replicate n 0)).
  pose proof (put_be_spec (layout (fst a1) (snd a1)) (replicate n 0) [] v Hv) as Hp.
  rewrite length_replicate, len_zeros in Hp. rewrite Hp. pose proof (pow256_pos (Z.of_nat n) ltac:(lia)).
  destruct (Z.ltb_spec v (256 ^ Z.of_nat n)).
  - rewrite Z.div_small by lia. eexists. split; [reflexivity |]. rewrite a_append_size.
    unfold len. rewrite length_be_bytes. split; [| lia]. split.
    + rewrite a_append_layout, app_nil_r. done.
    + rewrite a_append_chain in *. done.
  - replace (_ / _ =? 0) with false; [by eexists |].
    assert (1 <= v / 256 ^ Z.of_nat n) by (apply Z.div_le_lower_bound; lia). lia.
Qed.

Lemma add_u_adds d v n : 0 <= v < 256 ^ Z.of_nat n -> adds d (be_bytes n v) (cbb_add_u realloc_ok d v n).
Proof.
  intros Hv. unfold adds, len. rewrite length_be_bytes.
  eapply implements_ext; [| apply add_u_implements; lia]. intros a. cbn.
  by replace (v <? _) with true by lia.
Qed.

Lemma add_u8_adds d b : byte_ok b -> adds d [b] (CBB_add_u8 realloc_ok d b).
Proof.
  intros Hb. pose proof (add_u_adds d b 1) as H. cbn [be_bytes app] in H.
  rewrite Z.mod_small in H by exact Hb. apply H. exact Hb.
Qed.

(** ** Base 128 *)

Definition group (v : Z) (i : nat) : Z := Z.land (Z.shiftr v (7 * Z.of_nat i)) 0x7f.

Fixpoint hi_groups (v : Z) (i : nat) : bytes :=
  match i with O => [] | S i => Z.lor (group v i) 0x80 :: hi_groups v i end.

Lemma group_ok v i : 0 <= group v i < 128.
Proof. unfold group. rewrite land_7f. apply Z.mod_pos_bound. lia. Qed.

Lemma group_succ v i : group v (S i) = group (Z.shiftr v 7) i.
Proof. unfold group. rewrite Z.shiftr_shiftr by lia. do 2 f_equal. lia. Qed.

Lemma lor_80 b : 0 <= b < 128 -> Z.lor b 0x80 = 128 + b.
Proof.
  intros Hb. assert (byte_ok b) as Hok by (unfold byte_ok; lia).
  pose proof (byte_forall (fun b => negb (b <? 128) || (Z.lor b 0x80 =? 128 + b)) eq_refl b Hok) as H.
  cbv beta in H. lia.
Qed.

Lemma hi_groups_succ v i : hi_groups v (S i) = hi_groups (Z.shiftr v 7) i ++ [128 + v mod 128].
Proof.
  induction i as [| i IH].
  - cbn [hi_groups app]. rewrite lor_80 by apply group_ok. unfold group. by rewrite land_7f, Z.shiftr_0_r.
  - change (hi_groups v (S (S i))) with (Z.lor (group v (S i)) 0x80 :: hi_groups v (S i)).
    rewrite IH, group_succ. done.
Qed.

Lemma hi_groups_base128 fuel v : 0 <= v -> hi_groups v (base128_len_loop fuel v) = base128_hi fuel v.
Proof.
  revert v. induction fuel as [| fuel IH]; intros v Hv; [done |]. cbn [base128_len_loop base128_hi].
  destruct (Z.gtb_spec v 0); [| by replace (v =? 0) with true by lia].
  replace (v =? 0) with false by lia. rewrite hi_groups_succ, IH by (apply Z.shiftr_nonneg; lia).
  by rewrite Z.shiftr_div_pow2 by lia.
Qed.

Lemma op_true_implements : implements op_true Some 0.
Proof. intros st a Hr Hs. exists st. split; [done |]. split; [done | lia]. Qed.

Lemma adds_true d x m : adds d x m -> adds d x (op_and m op_true).
Proof.
  intros H. unfold adds. rewrite <- (Z.add_0_r (len x)).
  eapply implements_ext; [| apply (implements_and _ _ _ _ _ 0 ltac:(lia) H op_true_implements)].
  intros a. cbn. by destruct (a_add d x a).
Qed.

Lemma add_base128_loop_adds d v i :
  adds d (hi_groups (Z.shiftr v 7) i ++ [v mod 128]) (add_base128_loop realloc_ok d v (S i)).
Proof.
  induction i as [| i IH].
  - replace (v mod 128) with (group v 0) by (unfold group; by rewrite land_7f, Z.shiftr_0_r).
    pose proof (group_ok v 0). apply (adds_true d [_]), add_u8_adds. change (byte_ok (group v 0)). unfold byte_ok. lia.
  - change (add_base128_loop realloc_ok d v (S (S i))) with
      (op_and (CBB_add_u8 realloc_ok d (Z.lor (group v (S i)) 0x80)) (add_base128_loop realloc_ok d v (S i))).
    cbn [hi_groups]. rewrite <- group_succ. apply (adds_and d [_]); [| exact IH].
    pose proof (group_ok v (S i)). apply add_u8_adds. rewrite lor_80 by done. unfold byte_ok. lia.
Qed.

Lemma add_base128_adds d v : 0 <= v < 2 ^ 64 -> adds d (base128 v) (add_base128_integer realloc_ok d v).
Proof.
  intros Hv. unfold add_base128_integer, base128.
  change (base128_len_loop 10 v) with (if v >? 0 then S (base128_len_loop 9 (Z.shiftr v 7)) else O).
  destruct (Z.gtb_spec v 0).
  - cbn [Nat.eqb]. rewrite <- Z.shiftr_div_pow2 with (n := 7) by lia.
    rewrite (base128_hi_fuel 9 10), <- hi_groups_base128.
    + apply add_base128_loop_adds.
    + apply Z.shiftr_nonneg. lia.
    + rewrite Z.shiftr_div_pow2 by lia. change (128 ^ Z.of_nat 9) with (2 ^ 63).
      split; [apply Z.div_pos; lia |]. apply Z.div_lt_upper_bound; lia.
    + lia.
  - assert (v = 0) as -> by lia. apply (add_base128_loop_adds d 0 0).
Qed.

(** ** Tags and child regions *)

Lemma tag_bits_eq tag :
  fits 32 tag -> Z.land (Z.shiftr tag Cbs.CBS_ASN1_TAG_SHIFT) 0xe0 = tag / 2 ^ 29 * 32.
Proof.
  intros Ht. unfold fits in Ht. unfold Cbs.CBS_ASN1_TAG_SHIFT. rewrite Z.shiftr_div_pow2 by lia.
  rewrite land_e0.
  - rewrite Z.div_div by lia. done.
  - unfold byte_ok. split; [apply Z.div_pos; lia | apply Z.div_lt_upper_bound; lia].
Qed.

Lemma tag_number_eq tag : Z.land tag Cbs.CBS_ASN1_TAG_NUMBER_MASK = tag mod 2 ^ 29.
Proof. change Cbs.CBS_ASN1_TAG_NUMBER_MASK with (Z.ones 29). by rewrite Z.land_ones by lia. Qed.

Lemma lor_tag_bits t n : 0 <= t < 8 -> 0 <= n < 32 -> Z.lor (t * 32) n = t * 32 + n.
Proof.
  intros Ht Hn. change 32 with (2 ^ 5). rewrite <- (Z.shiftl_mul_pow2 t 5) by lia.
  rewrite lor_shiftl_add by (unfold fits; z_eval; lia). rewrite Z.shiftl_mul_pow2 by lia. done.
Qed.

Lemma child_implements d k :
  forall st a, repr st a -> length (snd a) = d -> size a + (4 + Z.of_nat (prefix_len k)) < 2 ^ 64 ->
  exists st', cbb_add_child realloc_ok d (Z.of_nat (prefix_len k)) (is_asn1 k) st = (true, st') /\
    repr st' (a_open a k) /\ size (a_open a k) <= size a + (4 + Z.of_nat (prefix_len k)).
Proof.
  intros st [b fs] [Hb Hc] Hd Hs. cbn [fst snd] in *. unfold cbb_add_child. rewrite Nat2Z.id.
  destruct (buffer_add_live (base st) _ (replicate (prefix_len k) 0) Hb) as (b' & E & Hb').
  { rewrite len_zeros. unfold size in Hs. cbn [fst snd] in Hs. lia. }
  rewrite E. destruct Hb as (-> & _). rewrite Hc, take_ge by (rewrite chain_length; lia).
  assert (forall fs b off,
    layout b (fs ++ [(k, [])]) = layout b fs ++ replicate (prefix_len k) 0 /\
    chain off b (fs ++ [(k, [])]) = chain off b fs ++ [mk_child (off + len (layout b fs)) (Z.of_nat (prefix_len k)) (is_asn1 k)])
    as Hopen.
  { clear. induction fs as [| [k' bs] fs IH]; intros b off; cbn [app layout chain].
    - by rewrite !app_nil_r.
    - destruct (IH bs (off + len b + Z.of_nat (prefix_len k'))) as [-> ->].
      rewrite !len_app, len_zeros, <- !app_assoc. split; [done |]. cbn [app]. do 4 f_equal. lia. }
  destruct (Hopen fs b 0) as [Hl Hch]. unfold a_open. eexists. split; [reflexivity |]. split.
  - split; cbn [base children fst snd]; [by rewrite Hl | by rewrite Hch].
  - unfold size. cbn [fst snd]. rewrite Hl, len_app, len_zeros, length_app. cbn [length]. lia.
Qed.

Lemma add_child_implements d x k m :
  adds d x m ->
  implements (op_and m (cbb_add_child realloc_ok d (Z.of_nat (prefix_len k)) (is_asn1 k)))
    (a_child d x k) (len x + (4 + Z.of_nat (prefix_len k))).
Proof.
  intros H st a Hr Hs. destruct (H st a Hr) as (st1 & E1 & Hr1); [lia |]. unfold op_and, a_child. rewrite E1.
  destruct (a_add d x a) as [a1 |] eqn:Ea; cbn [mbind option_bind]; [| by eexists].
  rewrite bool_decide_eq_true_2 by eauto. destruct Hr1 as [Hr1 Hs1].
  destruct (child_implements d k st1 a1 Hr1) as (st2 & E2 & Hr2 & Hs2);
    [by eapply a_add_depth | lia |].
  exists st2. rewrite E2. split; [done |]. split; [done | lia].
Qed.

Lemma flush_adds d : adds d [] (CBB_flush realloc_ok d).
Proof.
  unfold adds. eapply implements_ext; [| apply flush_implements]. intros a. unfold a_add.
  destruct (a_flush d a) as [[b fs] |] eqn:E; [| done]. cbn [mbind option_bind fst snd]. f_equal. clear E.
  revert b. induction fs as [| [k bs] fs IH]; intros b; cbn [a_append]; [by rewrite app_nil_r |].
  by rewrite <- IH.
Qed.

Lemma length_prefixed_implements d n :
  implements (cbb_add_length_prefixed realloc_ok d (Z.of_nat n)) (a_child d [] (Len n)) (4 + Z.of_nat n).
Proof. apply (add_child_implements d [] (Len n)), flush_adds. Qed.

Lemma implements_mono m f g g' : g <= g' -> implements m f g -> implements m f g'.
Proof.
  intros Hg H st a Hr Hs. destruct (H st a Hr) as (st' & E & Hf); [lia |]. exists st'. split; [done |].
  destruct (f a); [| done]. split; [easy | lia].
Qed.

Lemma implements_op m m' f g : (forall st, m st = m' st) -> implements m f g -> implements m' f g.
Proof. intros Hm H st a Hr Hs. rewrite <- Hm. by apply H. Qed.

Lemma op_and_assoc m k l st : op_and (op_and m k) l st = op_and m (op_and k l) st.
Proof. unfold op_and. destruct (m st) as [[] ?]; done. Qed.

Lemma tag_adds d tag :
  fits 32 tag ->
  adds d (der_tag tag)
    (if tag mod 2 ^ 29 >=? 0x1f
     then op_and (CBB_add_u8 realloc_ok d (Z.lor (tag / 2 ^ 29 * 32) 0x1f)) (add_base128_integer realloc_ok d (tag mod 2 ^ 29))
     else CBB_add_u8 realloc_ok d (Z.lor (tag / 2 ^ 29 * 32) (tag mod 2 ^ 29))).
Proof.
  unfold fits. intros Ht.
  assert (0 <= tag / 2 ^ 29 < 8) by (split; [apply Z.div_pos; lia | apply Z.div_lt_upper_bound; lia]).
  assert (0 <= tag mod 2 ^ 29 < 2 ^ 29) by (apply Z.mod_pos_bound; lia).
  unfold der_tag, number_octets. destruct (Z.geb_spec (tag mod 2 ^ 29) 0x1f).
  - replace (_ <? 31) with false by lia. rewrite lor_tag_bits by lia. apply (adds_and d [_]).
    + apply add_u8_adds. unfold byte_ok. lia.
    + apply add_base128_adds. lia.
  - replace (_ <? 31) with true by lia. rewrite lor_tag_bits by lia.
    apply add_u8_adds. unfold byte_ok. lia.
Qed.

Lemma add_asn1_implements d tag :
  fits 32 tag -> implements (CBB_add_asn1 realloc_ok d tag) (a_child d (der_tag tag) Asn1) 17.
Proof.
  intros Ht. pose proof (der_tag_len tag).
  eapply implements_op; [intros st; symmetry; unfold CBB_add_asn1; symmetry; apply op_and_assoc |].
  apply (implements_mono _ _ (len (der_tag tag) + 5)); [lia |].
  rewrite tag_bits_eq, tag_number_eq by done.
  apply (add_child_implements d (der_tag tag) Asn1).
  apply (adds_and d [] (der_tag tag)); [apply flush_adds | by apply tag_adds].
Qed.

(** ** ASN.1 values *)

Lemma or_error_implements d m f g : implements m f g -> implements (or_error d m) f g.
Proof.
  intros H st a Hr Hs. destruct (H st a Hr Hs) as (st' & E & Hf). unfold or_error. rewrite E.
  destruct (f a); [exists st' | eexists]; done.
Qed.

Lemma a_flush_open d k b fs x :
  length fs = d ->
  a_flush d (a_append b (fs ++ [(k, [])]) x) = p ← prefix k (len x); Some (a_append b fs (p ++ x)).
Proof.
  revert b d. induction fs as [| [k' bs] fs IH]; intros b d <-.
  - cbn [app a_append a_flush snd fst length close mbind option_bind]. rewrite app_nil_r.
    by destruct (prefix k (len x)).
  - cbn [app a_append a_flush snd fst length]. rewrite <- surjective_pairing, (IH bs _ eq_refl).
    by destruct (prefix k (len x)).
Qed.

Lemma a_element d hdr k x a :
  (a_child d hdr k a ≫= a_add (S d) x) ≫= a_flush d
  = p ← prefix k (len x); a_add d (hdr ++ p ++ x) a.
Proof.
  unfold a_child. destruct (a_add d hdr a) as [[b fs] |] eqn:E; cbn [mbind option_bind].
  - pose proof (a_add_depth _ _ _ _ E) as Hd. cbn [snd] in Hd. unfold a_open. cbn [fst snd].
    unfold a_add at 1. rewrite a_flush_id by (cbn [snd]; rewrite length_app; cbn; lia).
    cbn [mbind option_bind fst snd]. rewrite a_flush_open by done.
    destruct (prefix k (len x)) as [p |]; cbn [mbind option_bind]; [| done].
    rewrite <- a_add_add, E. cbn [mbind option_bind]. unfold a_add. by rewrite a_flush_id.
  - destruct (prefix k (len x)) as [p |]; cbn [mbind option_bind]; [| done].
    by rewrite <- a_add_add, E.
Qed.

(** A whole element: the header, the contents written by [m] to the child, the flush. *)
Definition a_asn1 (d : nat) (tag : Z) (x : bytes) (a : builder) : option builder :=
  if len x <=? 0xfffffffe then a_add d (der_element tag x) a else None.

Lemma element_implements d tag x m :
  fits 32 tag -> adds (S d) x m ->
  implements (op_and (CBB_add_asn1 realloc_ok d tag) (op_and m (CBB_flush realloc_ok d)))
    (a_asn1 d tag x) (17 + len x).
Proof.
  intros Ht Hm. eapply implements_op; [apply op_and_assoc |].
  eapply (implements_ext _ (fun a => (a_child d (der_tag tag) Asn1 a ≫= a_add (S d) x) ≫= a_flush d)).
  { intros a. rewrite a_element. unfold a_asn1, prefix, der_element, der_header.
    destruct (_ <=? _); [| done]. cbn [mbind option_bind]. by rewrite <- app_assoc. }
  replace (17 + len x) with (17 + len x + 0) by lia. pose proof (len_nonneg x).
  apply (implements_and _ (fun a => a_child d (der_tag tag) Asn1 a ≫= a_add (S d) x)); [lia | | apply flush_implements].
  apply implements_and; [lia | by apply add_asn1_implements | done].
Qed.

Lemma op_and_or_error m k d st :
  fst (op_and (or_error d m) k st) = fst (op_and m k st) /\
  (fst (op_and m k st) = true -> op_and (or_error d m) k st = op_and m k st).
Proof. unfold op_and, or_error. by destruct (m st) as [[] ?]. Qed.

Lemma implements_weaken m m' f g :
  (forall st, fst (m' st) = fst (m st) /\ (fst (m st) = true -> m' st = m st)) ->
  implements m f g -> implements m' f g.
Proof.
  intros Hm H st a Hr Hs. destruct (H st a Hr Hs) as (st' & E & Hf). destruct (Hm st) as [H1 H2].
  rewrite E in H1, H2. cbn [fst] in H1, H2. destruct (f a) as [a' |].
  - exists st'. rewrite bool_decide_eq_true_2 in * by eauto. by rewrite H2.
  - destruct (m' st) as [ok st1]. cbn [fst] in H1. exists st1. by rewrite H1.
Qed.

(** The contents octets of an unsigned number given by its bytes. *)
Fixpoint unsigned_contents (bs : bytes) : bytes :=
  match bs with
  | [] => [0]
  | b :: rest => if b =? 0 then unsigned_contents rest else if b <? 128 then b :: rest else 0 :: b :: rest
  end.

Lemma byte_list_adds d bs :
  bytes_ok bs -> bs <> [] -> adds d bs (uint64_bytes_loop realloc_ok d bs true).
Proof.
  induction 1 as [| b bs Hb Hbs IH]; [done |]. intros _. cbn [uint64_bytes_loop negb].
  destruct bs as [| b' bs].
  - by apply adds_true, add_u8_adds.
  - apply (adds_and d [b]); [by apply add_u8_adds | by apply IH].
Qed.

Lemma uint64_loop_adds d bs :
  bytes_ok bs -> adds d (unsigned_contents bs) (uint64_bytes_loop realloc_ok d bs false).
Proof.
  induction 1 as [| b bs Hb Hbs IH]; cbn [uint64_bytes_loop unsigned_contents negb].
  - by apply add_u8_adds.
  - destruct (Z.eqb_spec b 0) as [-> | Hne]; [done |]. rewrite land_80 by done.
    assert (adds d (b :: bs) (op_and (CBB_add_u8 realloc_ok d b) (uint64_bytes_loop realloc_ok d bs true))) as Hbb.
    { apply (byte_list_adds d (b :: bs)); [by constructor | done]. }
    destruct (b <? 128); cbn [negb].
    + by eapply implements_op; [| apply Hbb].
    + apply (adds_and d [0]); [by apply add_u8_adds | done].
Qed.

Lemma unsigned_contents_spec bs :
  bytes_ok bs ->
  is_Some (Cbs.CBS_is_valid_asn1_integer (unsigned_contents bs)) /\
  signed_value (unsigned_contents bs) = be_value bs /\
  bytes_ok (unsigned_contents bs) /\ (length (unsigned_contents bs) <= S (length bs))%nat.
Proof.
  induction 1 as [| b bs Hb Hbs IH]; cbn [unsigned_contents].
  - split_and!; [by eexists | done | by repeat constructor | done].
  - destruct (Z.eqb_spec b 0) as [-> | Hne].
    + rewrite be_value_cons. destruct IH as (? & ? & ? & ?). split_and!; [done | lia | done | cbn [length]; lia].
    + destruct (Z.ltb_spec b 128).
      * split_and!; [| | by constructor | lia].
        -- cbn [Cbs.CBS_is_valid_asn1_integer]. destruct bs; [by eexists |].
           replace (b =? 0) with false by lia. replace (b =? 255) with false by lia. by eexists.
        -- unfold signed_value. replace (b <? 128) with true by lia. lia.
      * split_and!; [| | do 2 (constructor; [done |]); done | cbn [length]; lia].
        -- cbn [Cbs.CBS_is_valid_asn1_integer]. rewrite land_80 by done.
           replace (b <? 128) with false by lia. by eexists.
        -- unfold signed_value. change (0 <? 128) with true. cbv iota. rewrite (be_value_cons 0). lia.
Qed.

Lemma uint64_bytes_eq v : uint64_bytes v = be_bytes 8 v.
Proof.
  unfold uint64_bytes. change 0xff with (Z.ones 8). cbn [be_bytes app]. cbn [seqZ].
  change (seqZ 0 8) with [0; 1; 2; 3; 4; 5; 6; 7]. cbn [map].
  rewrite !Z.land_ones, !Z.shiftr_div_pow2 by lia. rewrite !Z.div_div by lia.
  change (2 ^ 8) with 256. change (v / 2 ^ (8 * (7 - 7))) with (v / 1). rewrite Z.div_1_r. reflexivity.
Qed.

(** The loop drops the leading 0xff octets that only repeat the sign. *)
Fixpoint strip_ff (bs : bytes) : bytes :=
  match bs with
  | x :: (y :: _) as rest => if (x =? 0xff) && (y >=? 128) then strip_ff rest else bs
  | _ => bs
  end.

Lemma skip_sign_loop_app xs ys n :
  (n < length xs)%nat -> skip_sign_loop (xs ++ ys) n = skip_sign_loop xs n.
Proof.
  induction n as [| n IH]; intros Hn; [done |]. cbn [skip_sign_loop].
  rewrite !lookup_total_app_l by lia. by rewrite IH by lia.
Qed.

Lemma skip_sign_loop_le l n : (skip_sign_loop l n <= n)%nat.
Proof. induction n as [| n IH]; cbn [skip_sign_loop]; [done |]. destruct (_ && _); lia. Qed.

Lemma skip_sign_spec bs :
  bytes_ok bs -> bs <> [] ->
  reverse (take (S (skip_sign_loop (reverse bs) (length bs - 1))) (reverse bs)) = strip_ff bs.
Proof.
  induction 1 as [| x bs Hx Hbs IH]; [done |]. intros _. destruct bs as [| y bs]; [done |].
  specialize (IH ltac:(done)). cbn [length] in *. rewrite Nat.sub_succ, Nat.sub_0_r in *.
  rewrite (reverse_cons _ x). pose proof (length_reverse (y :: bs)) as Hlr. cbn [length] in Hlr.
  cbn [skip_sign_loop]. rewrite lookup_total_app_r by lia. rewrite Hlr, Nat.sub_diag.
  rewrite lookup_total_app_l by lia. rewrite (reverse_cons bs y) at 1. rewrite lookup_total_app_r by (rewrite length_reverse; lia).
  rewrite length_reverse, Nat.sub_diag. change ([?a] !!! O) with a.
  rewrite land_80 by (by inversion Hbs).
  replace (negb (y <? 128)) with (y >=? 128) by lia. cbn [strip_ff].
  destruct ((x =? 255) && (y >=? 128)).
  - rewrite skip_sign_loop_app by lia. rewrite take_app_le; [exact IH |].
    rewrite Hlr. pose proof (skip_sign_loop_le (reverse (y :: bs)) (length bs)). lia.
  - rewrite take_ge by (rewrite length_app, Hlr; cbn; lia). by rewrite reverse_app, reverse_involutive.
Qed.

Lemma add_down_loop_adds d bs i :
  bytes_ok bs -> (i < length bs)%nat ->
  adds d (reverse (take (S i) bs)) (add_down_loop realloc_ok d bs i).
Proof.
  intros Hok. induction i as [| i IH]; intros Hi;
    destruct (lookup_lt_is_Some_2 bs _ Hi) as [b Hb]; rewrite (take_S_r _ _ _ Hb), reverse_app;
    cbn [add_down_loop]; rewrite (list_lookup_total_correct _ _ _ Hb);
    (assert (byte_ok b) by (by eapply Forall_lookup_1)).
  - rewrite take_0. apply (adds_true d [b]). by apply add_u8_adds.
  - apply (adds_and d [b]); [by apply add_u8_adds | apply IH; lia].
Qed.

Lemma strip_ff_spec bs b rest :
  bytes_ok bs -> bs = b :: rest -> 128 <= b ->
  is_Some (Cbs.CBS_is_valid_asn1_integer (strip_ff bs)) /\ signed_value (strip_ff bs) = signed_value bs /\
  bytes_ok (strip_ff bs) /\ (length (strip_ff bs) <= length bs)%nat.
Proof.
  intros Hok. revert b rest. induction Hok as [| x bs Hx Hbs IH]; intros b rest E Hb; [done |].
  injection E as -> ->. destruct rest as [| y rest].
  - split_and!; [by eexists | done | by constructor | done].
  - change (strip_ff (b :: y :: rest)) with
      (if (b =? 0xff) && (y >=? 128) then strip_ff (y :: rest) else b :: y :: rest).
    destruct (Z.eqb_spec b 0xff) as [-> | Hne]; cbn [andb].
    + destruct (Z.geb_spec y 128) as [Hy | Hy].
      * destruct (IH y rest eq_refl Hy) as (? & -> & ? & ?). split_and!; [done | | done | cbn [length] in *; lia].
        rewrite !signed_value_cons, be_value_cons. replace (y <? 128) with false by lia.
        change (255 <? 128) with false. cbv iota.
        rewrite len_cons, Z.pow_add_r by (pose proof (len_nonneg rest); lia). lia.
      * split_and!; [| done | by constructor | done]. cbn [Cbs.CBS_is_valid_asn1_integer].
        rewrite land_80 by (by inversion Hbs). replace (y <? 128) with true by lia. by eexists.
    + split_and!; [| done | by constructor | done]. cbn [Cbs.CBS_is_valid_asn1_integer].
      replace (b =? 0) with false by lia. replace (b =? 255) with false by lia. by eexists.
Qed.

Lemma be_bytes8_negative v :
  - 2 ^ 63 <= v < 0 ->
  signed_value (be_bytes 8 v) = v /\ exists b rest, be_bytes 8 v = b :: rest /\ 128 <= b.
Proof.
  intros Hv. pose proof (be_value_bytes 8 v) as Hval. pose proof (length_be_bytes 8 v) as Hl.
  pose proof (be_bytes_ok 8 v) as Hok. destruct (be_bytes 8 v) as [| b rest]; [done |].
  change (256 ^ Z.of_nat 8) with (2 ^ 64) in Hval.
  assert (v mod 2 ^ 64 = v + 2 ^ 64) as E by (rewrite <- (Z.mod_add v 1) by lia; apply Z.mod_small; lia).
  rewrite E in Hval. rewrite be_value_cons in Hval. apply bytes_ok_cons in Hok as [Hb Hr].
  assert (len rest = 7) as Hlr by (unfold len; cbn [length] in Hl; lia).
  pose proof (be_value_bound rest Hr) as Hbr. rewrite Hlr in *. change (256 ^ 7) with (2 ^ 56) in *.
  assert (128 <= b) by lia. split; [| by exists b, rest].
  rewrite signed_value_cons, Hlr. replace (b <? 128) with false by lia. change (256 ^ 7) with (2 ^ 56). lia.
Qed.

(** The contents octets of the INTEGER [v]. *)
Definition int_contents (v : Z) : bytes :=
  if v >=? 0 then unsigned_contents (be_bytes 8 v) else strip_ff (be_bytes 8 v).

Lemma int_contents_spec v :
  - 2 ^ 63 <= v < 2 ^ 64 ->
  minimal_integer (int_contents v) /\ signed_value (int_contents v) = v /\
  bytes_ok (int_contents v) /\ len (int_contents v) <= 9.
Proof.
  intros Hv. unfold int_contents. pose proof (be_bytes_ok 8 v) as Hok.
  destruct (Z.geb_spec v 0).
  - destruct (unsigned_contents_spec _ Hok) as (H1 & H2 & H3 & H4). split_and!.
    + by apply valid_integer_minimal.
    + rewrite H2, be_value_bytes. change (256 ^ Z.of_nat 8) with (2 ^ 64). apply Z.mod_small. lia.
    + done.
    + unfold len. rewrite length_be_bytes in H4. lia.
  - destruct (be_bytes8_negative v) as (Hs & b & rest & E & Hb); [lia |].
    destruct (strip_ff_spec _ b rest Hok E Hb) as (H1 & H2 & H3 & H4). split_and!.
    + by apply valid_integer_minimal.
    + by rewrite H2.
    + done.
    + unfold len. rewrite length_be_bytes in H4. lia.
Qed.

Lemma add_uint64_implements d v tag :
  0 <= v < 2 ^ 64 -> fits 32 tag ->
  implements (CBB_add_asn1_uint64_with_tag realloc_ok d v tag) (a_asn1 d tag (int_contents v)) 26.
Proof.
  intros Hv Ht. unfold CBB_add_asn1_uint64_with_tag. rewrite uint64_bytes_eq.
  destruct (int_contents_spec v) as (_ & _ & _ & Hlen); [lia |].
  apply (implements_mono _ _ (17 + len (int_contents v))); [lia |].
  eapply implements_weaken; [intros st; apply op_and_or_error |].
  eapply implements_op; [intros st; symmetry; apply op_and_assoc |].
  apply element_implements; [done |]. unfold int_contents. replace (v >=? 0) with true by lia.
  apply uint64_loop_adds, be_bytes_ok.
Qed.

Lemma add_int64_implements d v tag :
  - 2 ^ 63 <= v < 2 ^ 63 -> fits 32 tag ->
  implements (CBB_add_asn1_int64_with_tag realloc_ok d v tag) (a_asn1 d tag (int_contents v)) 26.
Proof.
  intros Hv Ht. unfold CBB_add_asn1_int64_with_tag. destruct (Z.geb_spec v 0) as [Hp | Hn].
  { apply add_uint64_implements; [lia | done]. }
  destruct (int_contents_spec v) as (_ & _ & _ & Hlen); [lia |].
  apply (implements_mono _ _ (17 + len (int_contents v))); [lia |].
  eapply implements_weaken; [intros st; apply op_and_or_error |].
  eapply implements_op; [intros st; symmetry; apply op_and_assoc |].
  apply element_implements; [done |]. unfold int_contents. replace (v >=? 0) with false by lia.
  pose proof (be_bytes_ok 8 v) as Hok. pose proof (length_be_bytes 8 v) as Hl.
  rewrite <- skip_sign_spec; [| done | by destruct (be_bytes 8 v)].
  rewrite Hl. apply add_down_loop_adds; [by apply Forall_reverse |].
  rewrite length_reverse, Hl.
  pose proof (skip_sign_loop_le (reverse (be_bytes 8 v)) 7). lia.
Qed.

Lemma add_octet_string_implements d data :
  implements (CBB_add_asn1_octet_string realloc_ok d data)
    (a_asn1 d Cbs.CBS_ASN1_OCTETSTRING data) (17 + len data).
Proof.
  apply or_error_implements, element_implements; [by unfold fits | apply add_space_adds].
Qed.

Lemma add_bool_implements d v :
  implements (CBB_add_asn1_bool realloc_ok d v)
    (a_asn1 d Cbs.CBS_ASN1_BOOLEAN [if negb (v =? 0) then 0xff else 0]) 18.
Proof.
  apply or_error_implements, (element_implements d _ [_]); [by unfold fits |].
  apply add_u8_adds. by destruct (v =? 0).
Qed.

(** ** Discarding a child *)

Definition a_discard (d : nat) (a : builder) : builder := (fst a, take d (snd a)).

Lemma discard_layout d fs pre b k bs rest :
  drop d fs = (k, bs) :: rest ->
  exists c, chain (len pre) b fs !! d = Some c /\ 
    take (Z.to_nat (offset c)) (pre ++ layout b fs) = pre ++ layout b (take d fs) /\
    take d (chain (len pre) b fs) = chain (len pre) b (take d fs).
Proof.
  revert d pre b. induction fs as [| [k' b'] fs IH]; intros [| d] pre b; cbn [drop]; try done.
  - intros _. eexists. split; [reflexivity |]. cbn [offset take layout chain]. split; [| done].
    rewrite app_nil_r, app_assoc, <- len_app. unfold len. by rewrite Nat2Z.id, take_app_length.
  - intros Hd. destruct (IH d (pre ++ b ++ replicate (prefix_len k') 0) b' Hd) as (c & Hc & Ht & Hch).
    rewrite !len_app, len_zeros, Z.add_assoc in *. exists c. cbn [chain take layout lookup list_lookup].
    rewrite <- !app_assoc in Ht. split_and!; [done | done |]. by rewrite Hch.
Qed.

Lemma discard_repr d st a :
  repr st a -> repr (CBB_discard_child d st) (a_discard d a) /\ size (a_discard d a) <= size a.
Proof.
  intros [Hb Hc]. destruct a as [b fs]. cbn [fst snd] in *. unfold CBB_discard_child, a_discard. cbn [fst snd].
  rewrite Hc. destruct (drop d fs) as [| [k bs] rest] eqn:Ed.
  - assert (length fs <= d)%nat as Hd.
    { pose proof (length_drop fs d) as H. rewrite Ed in H. cbn in H. lia. }
    rewrite lookup_ge_None_2 by (rewrite chain_length; lia). rewrite take_ge by lia. by split; [split |].
  - destruct (discard_layout d fs [] b k bs rest Ed) as (c & Hl & Ht & Hch). change (len []) with 0 in *.
    rewrite Hl. destruct Hb as (Hb & He & Hr). split.
    + split; cbn [base children set_buf fst snd]; [| by rewrite Hch].
      split; [| done]. cbn [buf set_buf]. rewrite Hb. exact Ht.
    + unfold size. cbn [fst snd]. cbn [app] in Ht. rewrite <- Ht. unfold len. rewrite !length_take. lia.
Qed.

(** * Sequences of calls *)

Inductive cbb_call :=
| Flush (d : nat)
| AddBytes (d : nat) (data : bytes)
| AddZeros (d : nat) (n : nat)
| AddU (d : nat) (n : nat) (v : Z)          (* CBB_add_u8, u16, u24, u32, u64: [n] bytes *)
| AddLengthPrefixed (d : nat) (n : nat)     (* CBB_add_u8/u16/u24_length_prefixed *)
| AddAsn1 (d : nat) (tag : Z)
| AddAsn1Uint64 (d : nat) (v tag : Z)
| AddAsn1Int64 (d : nat) (v tag : Z)
| AddAsn1OctetString (d : nat) (data : bytes)
| AddAsn1Bool (d : nat) (v : Z)
| Discard (d : nat).

Definition do_call (c : cbb_call) : op :=
  match c with
  | Flush d => CBB_flush realloc_ok d
  | AddBytes d data => CBB_add_bytes realloc_ok d data
  | AddZeros d n => CBB_add_zeros realloc_ok d (Z.of_nat n)
  | AddU d n v => cbb_add_u realloc_ok d v n
  | AddLengthPrefixed d n => cbb_add_length_prefixed realloc_ok d (Z.of_nat n)
  | AddAsn1 d tag => CBB_add_asn1 realloc_ok d tag
  | AddAsn1Uint64 d v tag => CBB_add_asn1_uint64_with_tag realloc_ok d v tag
  | AddAsn1Int64 d v tag => CBB_add_asn1_int64_with_tag realloc_ok d v tag
  | AddAsn1OctetString d data => CBB_add_asn1_octet_string realloc_ok d data
  | AddAsn1Bool d v => CBB_add_asn1_bool realloc_ok d v
  | Discard d => fun st => (true, CBB_discard_child d st)
  end.

(** A caller stops at the first call that fails. *)
Fixpoint do_calls (cs : list cbb_call) : op :=
  match cs with [] => op_true | c :: cs => op_and (do_call c) (do_calls cs) end.

(** The arguments are in the range of their C types. *)
Definition call_ok (c : cbb_call) : Prop :=
  match c with
  | AddU _ _ v => fits 64 v
  | AddAsn1 _ tag => fits 32 tag
  | AddAsn1Uint64 _ v tag => fits 64 v /\ fits 32 tag
  | AddAsn1Int64 _ v tag => - 2 ^ 63 <= v < 2 ^ 63 /\ fits 32 tag
  | _ => True
  end.

Definition call_spec (c : cbb_call) (a : builder) : option builder :=
  match c with
  | Flush d => a_flush d a
  | AddBytes d data => a_add d data a
  | AddZeros d n => a_add d (replicate n 0) a
  | AddU d n v => if v <? 256 ^ Z.of_nat n then a_add d (be_bytes n v) a else None
  | AddLengthPrefixed d n => a_child d [] (Len n) a
  | AddAsn1 d tag => a_child d (der_tag tag) Asn1 a
  | AddAsn1Uint64 d v tag | AddAsn1Int64 d v tag => a_asn1 d tag (int_contents v) a
  | AddAsn1OctetString d data => a_asn1 d Cbs.CBS_ASN1_OCTETSTRING data a
  | AddAsn1Bool d v => a_asn1 d Cbs.CBS_ASN1_BOOLEAN [if negb (v =? 0) then 0xff else 0] a
  | Discard d => Some (a_discard d a)
  end.

Fixpoint calls_spec (cs : list cbb_call) (a : builder) : option builder :=
  match cs with [] => Some a | c :: cs => call_spec c a ≫= calls_spec cs end.

(** How much a call can make the buffer grow. *)
Definition call_cost (c : cbb_call) : Z :=
  match c with
  | Flush _ | Discard _ => 0
  | AddBytes _ data => len data
  | AddZeros _ n | AddU _ n _ => Z.of_nat n
  | AddLengthPrefixed _ n => 4 + Z.of_nat n
  | AddAsn1 _ _ => 17
  | AddAsn1Uint64 _ _ _ | AddAsn1Int64 _ _ _ => 26
  | AddAsn1OctetString _ data => 17 + len data
  | AddAsn1Bool _ _ => 18
  end.

Definition calls_cost (cs : list cbb_call) : Z := foldr (fun c n => call_cost c + n) 0 cs.

Lemma call_implements c : call_ok c -> implements (do_call c) (call_spec c) (call_cost c).
Proof.
  destruct c; cbn [call_ok do_call call_spec call_cost]; intros Hok.
  - apply flush_implements.
  - apply add_space_adds.
  - unfold CBB_add_zeros. rewrite Nat2Z.id, <- len_zeros. apply add_space_adds.
  - apply add_u_implements. apply Hok.
  - apply length_prefixed_implements.
  - by apply add_asn1_implements.
  - by apply add_uint64_implements; destruct Hok.
  - by apply add_int64_implements; destruct Hok.
  - apply add_octet_string_implements.
  - apply add_bool_implements.
  - intros st a Hr Hs. eexists. split; [reflexivity |].
    destruct (discard_repr d st a Hr). split; [done | lia].
Qed.

Lemma call_cost_nonneg c : 0 <= call_cost c.
Proof. destruct c; cbn [call_cost]; try lia; pose proof (len_nonneg data); lia. Qed.

Lemma calls_cost_nonneg cs : 0 <= calls_cost cs.
Proof.
  induction cs as [| c cs IH]; cbn [calls_cost foldr]; [done |]. fold (calls_cost cs).
  pose proof (call_cost_nonneg c). lia.
Qed.

Lemma calls_implement cs :
  Forall call_ok cs -> implements (do_calls cs) (calls_spec cs) (calls_cost cs).
Proof.
  induction 1 as [| c cs Hc Hcs IH]; [apply op_true_implements |]. cbn [do_calls calls_spec].
  apply (implements_and _ (call_spec c) (call_cost c) _ _ (calls_cost cs)); [| by apply call_implements | done].
  apply calls_cost_nonneg.
Qed.

Lemma finish_spec st a :
  repr st a -> size a < 2 ^ 64 -> CBB_finish realloc_ok st = tail ← close (snd a); Some (fst a ++ tail).
Proof.
  intros Hr Hs. destruct (flush_implements 0 st a Hr) as (st' & E & Hf); [lia |].
  unfold CBB_finish. rewrite E. destruct a as [b fs]. cbn [a_flush fst snd] in *.
  destruct (close fs) as [tail |]; cbn [mbind option_bind] in *; [| done].
  destruct Hf as [[(Hb & _) _] _]. cbn [fst snd layout] in Hb. cbn. by rewrite Hb, app_nil_r.
Qed.

Lemma init_repr cap : exists st, CBB_init realloc_ok cap = Some st /\ repr st ([], []).
Proof.
  unfold CBB_init. rewrite Hrealloc, andb_false_r. eexists. split; [reflexivity |]. done.
Qed.

(** * Writing, then reading *)

(** The output of [m] on a fresh growable CBB. *)
Definition built (m : op) : option bytes :=
  match CBB_init realloc_ok 0 with
  | None => None
  | Some st => match m st with (true, st) => CBB_finish realloc_ok st | (false, _) => None end
  end.

Lemma built_spec m f g :
  implements m f g -> 0 <= g < 2 ^ 64 ->
  built m = a ← f ([], []); tail ← close (snd a); Some (fst a ++ tail).
Proof.
  intros H Hg. unfold built. destruct (init_repr 0) as (st & -> & Hr).
  destruct (H st _ Hr) as (st' & E & Hf); [change (size ([], [])) with 0; lia |]. rewrite E.
  destruct (f ([], [])) as [a |]; [| done]. destruct Hf as [Hr' Hs].
  rewrite bool_decide_eq_true_2 by eauto. cbn [mbind option_bind].
  apply finish_spec; [done |]. change (size ([], [])) with 0 in Hs. lia.
Qed.

Lemma built_adds m x g : implements m (a_add 0 x) g -> 0 <= g < 2 ^ 64 -> built m = Some x.
Proof.
  intros H Hg. rewrite (built_spec _ _ _ H Hg). cbn. by rewrite app_nil_r.
Qed.

Lemma built_asn1 m tag x g :
  implements m (a_asn1 0 tag x) g -> 0 <= g < 2 ^ 64 -> len x <= 0xfffffffe ->
  built m = Some (der_element tag x).
Proof.
  intros H Hg Hx. apply (built_adds _ _ g); [| done]. eapply implements_ext; [| exact H].
  intros a. unfold a_asn1. by replace (len x <=? _) with true by lia.
Qed.

Lemma der_tag_ok tag : fits 32 tag -> bytes_ok (der_tag tag).
Proof.
  unfold fits. intros Ht. unfold der_tag, number_octets.
  assert (0 <= tag / 2 ^ 29 < 8) by (split; [apply Z.div_pos; lia | apply Z.div_lt_upper_bound; lia]).
  assert (0 <= tag mod 2 ^ 29) by (apply Z.mod_pos_bound; lia).
  constructor; [unfold byte_ok; destruct (Z.ltb_spec (tag mod 2 ^ 29) 31); lia |].
  destruct (_ <? 31); [constructor | by apply base128_ok].
Qed.

Lemma der_element_ok tag x :
  fits 32 tag -> bytes_ok x -> len x < 2 ^ 32 -> bytes_ok (der_element tag x).
Proof.
  intros Ht Hx Hl. unfold der_element, der_header. rewrite !bytes_ok_app. split_and!; [by apply der_tag_ok | | done].
  pose proof (len_nonneg x). unfold der_len. destruct (Z.ltb_spec (len x) 0x80).
  - repeat constructor; lia.
  - constructor; [| apply be_bytes_ok]. pose proof (der_len_len_bounds (len x)). unfold byte_ok. lia.
Qed.

Lemma integer_tag : valid_tag Cbs.CBS_ASN1_INTEGER.
Proof. split; [by unfold fits | done]. Qed.

Lemma read_integer v rest :
  - 2 ^ 63 <= v < 2 ^ 64 -> bytes_ok rest ->
  let bs := der_element Cbs.CBS_ASN1_INTEGER (int_contents v) in
  (0 <= v -> Cbs.CBS_get_asn1_uint64 (bs ++ rest) = (Some v, rest)) /\
  (v < 2 ^ 63 -> Cbs.CBS_get_asn1_int64 (bs ++ rest) = (Some v, rest)).
Proof.
  intros Hv Hr bs. destruct (int_contents_spec v Hv) as (Hmin & Hs & Hok & Hl).
  assert (bytes_ok (bs ++ rest)) as Hb.
  { apply bytes_ok_app. split; [| done]. apply der_element_ok; [by unfold fits | done | lia]. }
  destruct (int_readers_spec (bs ++ rest) v rest Hb) as [H1 H2].
  split; intros; [apply H1 | apply H2]; exists (int_contents v); split_and!; try done; lia.
Qed.

Lemma read_element tag x rest :
  valid_tag tag -> bytes_ok x -> bytes_ok rest -> len x < 2 ^ 32 ->
  Cbs.CBS_get_asn1 tag (der_element tag x ++ rest) = (Some x, rest).
Proof.
  intros Ht Hx Hr Hl. apply get_asn1_spec; [| done]. apply bytes_ok_app. split; [| done].
  apply der_element_ok; [apply Ht | done | done].
Qed.

Lemma built_element tag x :
  fits 32 tag -> len x <= 0xfffffffe ->
  built (op_and (CBB_add_asn1 realloc_ok 0 tag) (CBB_add_bytes realloc_ok 1 x)) = Some (der_element tag x).
Proof.
  intros Ht Hl. pose proof (len_nonneg x).
  rewrite (built_spec _ (fun a => a_child 0 (der_tag tag) Asn1 a ≫= a_add 1 x) (17 + len x)).
  - cbn. rewrite app_nil_r. replace (len x <=? 4294967294) with true by lia. cbn.
    unfold der_element, der_header. by rewrite app_assoc.
  - apply implements_and; [lia | by apply add_asn1_implements | apply add_space_adds].
  - lia.
Qed.

Lemma read_be n v rest :
  (n <= 8)%nat -> 0 <= v < 256 ^ Z.of_nat n -> bytes_ok rest ->
  Cbs.cbs_get_u (Z.of_nat n) (be_bytes n v ++ rest) = (Some v, rest).
Proof.
  intros Hn Hv Hr. rewrite cbs_get_u_eq; [| lia | apply bytes_ok_app; split; [apply be_bytes_ok | done]].
  rewrite len_app. unfold len at 1. rewrite length_be_bytes. pose proof (len_nonneg rest).
  replace (_ <? _) with false by lia. rewrite Nat2Z.id.
  rewrite take_app_length', drop_app_length' by (by rewrite length_be_bytes).
  by rewrite be_value_bytes, Z.mod_small.
Qed.

Lemma built_be n v :
  0 <= v < 256 ^ Z.of_nat n -> Z.of_nat n < 2 ^ 64 ->
  built (cbb_add_u realloc_ok 0 v n) = Some (be_bytes n v).
Proof.
  intros Hv Hn. eapply built_adds; [by apply add_u_adds |]. unfold len. rewrite length_be_bytes. lia.
Qed.

Lemma built_prefixed n data :
  (1 <= n <= 3)%nat -> len data < 256 ^ Z.of_nat n ->
  built (op_and (cbb_add_length_prefixed realloc_ok 0 (Z.of_nat n)) (CBB_add_bytes realloc_ok 1 data))
  = Some (be_bytes n (len data) ++ data).
Proof.
  intros Hn Hl. pose proof (len_nonneg data).
  assert (256 ^ Z.of_nat n <= 2 ^ 24) by (change (2 ^ 24) with (256 ^ 3); apply Z.pow_le_mono_r; lia).
  rewrite (built_spec _ (fun a => a_child 0 [] (Len n) a ≫= a_add 1 data) (4 + Z.of_nat n + len data)).
  - cbn. rewrite app_nil_r. replace (len data <? _) with true by lia. done.
  - apply implements_and; [lia | apply length_prefixed_implements | apply add_space_adds].
  - lia.
Qed.

End Refine.

Lemma read_prefixed n data rest :
  (1 <= n <= 3)%nat -> len data < 256 ^ Z.of_nat n -> bytes_ok data -> bytes_ok rest ->
  Cbs.cbs_get_length_prefixed (Z.of_nat n) ((be_bytes n (len data) ++ data) ++ rest) = (Some data, rest).
Proof.
  intros Hn Hl Hd Hr. pose proof (len_nonneg data). unfold Cbs.cbs_get_length_prefixed, p_bind at 1.
  rewrite <- app_assoc, read_be; [| lia | lia | by apply bytes_ok_app].
  unfold Cbs.CBS_get_bytes, Cbs.cbs_get, p_bind, p_ret, Cbs.CBS_init. rewrite len_app.
  pose proof (len_nonneg rest). replace (_ <? _) with false by lia. unfold len. rewrite Nat2Z.id.
  rewrite take_app_length, drop_app_length. by rewrite firstn_all.
Qed.

Lemma get_u8_of_u cbs v rest : Cbs.cbs_get_u 1 cbs = (Some v, rest) -> Cbs.CBS_get_u8 cbs = (Some v, rest).
Proof.
  unfold Cbs.cbs_get_u, Cbs.cbs_get, p_bind, p_ret. destruct cbs as [| b cbs]; [done |].
  rewrite len_cons. pose proof (len_nonneg cbs). replace (_ <? 1) with false by lia.
  change (Z.to_nat 1) with 1%nat. cbn. intros [<- <-]%ok_inj. done.
Qed.

Lemma fits_be_bytes n v :
  fits (8 * Z.of_nat n) v -> exists bs, be_value bs = v /\ length bs = n /\ bytes_ok bs.
Proof.
  unfold fits. rewrite Z.pow_mul_r by lia. change (2 ^ 8) with 256. intros Hv.
  exists (be_bytes n v). split_and!; [| apply length_be_bytes | apply be_bytes_ok].
  by rewrite be_value_bytes, Z.mod_small.
Qed.

Lemma bswap2_involutive v : fits 16 v -> fits 16 (CRYPTO_bswap2 v) /\ CRYPTO_bswap2 (CRYPTO_bswap2 v) = v.
Proof.
  intros Hv. destruct (fits_be_bytes 2 v Hv) as (bs & <- & Hl & Hok).
  do 2 (destruct bs as [| ? bs]; [done |]). destruct bs; [| done].
  pose proof (bytes_ok_reverse _ Hok) as Hr. cbn in Hr. rewrite bswap2_bytes, bswap2_bytes by done.
  split; [| done]. by apply (be_value_bound _ Hr).
Qed.

Lemma bswap4_involutive v : fits 32 v -> fits 32 (CRYPTO_bswap4 v) /\ CRYPTO_bswap4 (CRYPTO_bswap4 v) = v.
Proof.
  intros Hv. destruct (fits_be_bytes 4 v Hv) as (bs & <- & Hl & Hok).
  do 4 (destruct bs as [| ? bs]; [done |]). destruct bs; [| done].
  pose proof (bytes_ok_reverse _ Hok) as Hr. cbn in Hr. rewrite bswap4_bytes, bswap4_bytes by done.
  split; [| done]. by apply (be_value_bound _ Hr).
Qed.

Lemma bswap8_involutive v : fits 64 v -> fits 64 (CRYPTO_bswap8 v) /\ CRYPTO_bswap8 (CRYPTO_bswap8 v) = v.
Proof.
  intros Hv. destruct (fits_be_bytes 8 v Hv) as (bs & <- & Hl & Hok).
  do 8 (destruct bs as [| ? bs]; [done |]). destruct bs; [| done].
  pose proof (bytes_ok_reverse _ Hok) as Hr. cbn in Hr. rewrite bswap8_bytes, bswap8_bytes by done.
  split; [| done]. by apply (be_value_bound _ Hr).
Qed.

(** * Properties *)

(** C2: cbb.c implements the abstract builder.  Take any sequence of calls on a fresh
    growable CBB and its children (appending bytes and integers, opening and flushing nested
    length-prefixed and ASN.1 regions, writing whole ASN.1 values, discarding a child), with
    no allocation failure and less than 2^64 bytes of output.  Every call succeeds exactly
    when the abstract call does, and [CBB_finish] returns the root bytes followed by the
    open regions, each behind the encoding of its final length, or fails when one of them
    is too long for its prefix. *)
Theorem cbb_refines_builder realloc_ok cap cs :
  (forall n, realloc_ok n = true) -> Forall call_ok cs -> calls_cost cs < 2 ^ 64 ->
  exists st st',
    CBB_init realloc_ok cap = Some st /\
    do_calls realloc_ok cs st = (bool_decide (is_Some (calls_spec cs ([], []))), st') /\
    (forall a, calls_spec cs ([], []) = Some a ->
       CBB_finish realloc_ok st' = tail ← close (snd a); Some (fst a ++ tail)).
Proof.
  intros Hr Hcs Hs. destruct (init_repr realloc_ok Hr cap) as (st & Hi & Hrep). exists st.
  destruct (calls_implement realloc_ok Hr cs Hcs st _ Hrep) as (st' & E & Hf); [done |].
  exists st'. split_and!; [done | done |]. intros a Ha. rewrite Ha in Hf. destruct Hf as [Hrep' Hs'].
  apply finish_spec; [done | done |]. change (size ([], [])) with 0 in Hs'. lia.
Qed.

Lemma cbb_refines_builder_witness :
  exists st st',
    CBB_init (fun _ => true) 4 = Some st /\
    do_calls (fun _ => true) [AddAsn1 0 (2 ^ 29 + 16); AddAsn1Bool 1 1; AddLengthPrefixed 1 2; AddU 2 1 7] st = (true, st') /\
    CBB_finish (fun _ => true) st' = Some [48; 6; 1; 1; 255; 0; 1; 7].
Proof.
  destruct (cbb_refines_builder (fun _ => true) 4
              [AddAsn1 0 (2 ^ 29 + 16); AddAsn1Bool 1 1; AddLengthPrefixed 1 2; AddU 2 1 7])
    as (st & st' & H1 & H2 & H3).
  - done.
  - repeat constructor; vm_compute; (split; [discriminate | reflexivity]) || discriminate || reflexivity.
  - reflexivity.
  - exists st, st'. split_and!; [done | done |]. erewrite H3 by (vm_compute; reflexivity). reflexivity.
Defined.

(** C3: whatever value a builder writes, the readers of cbs.c give back, leaving exactly
    the bytes that follow: [CBB_add_asn1_uint64] / [CBS_get_asn1_uint64] on every
    [uint64_t], the [int64_t] pair on every [int64_t], BOOLEAN and OCTET STRING, and
    [CBB_add_asn1] with contents below the 2^32-2 limit / [CBS_get_asn1] for every tag. *)
Theorem cbb_asn1_roundtrip realloc_ok rest :
  (forall n, realloc_ok n = true) -> bytes_ok rest ->
  (forall v, fits 64 v -> exists bs,
     built realloc_ok (CBB_add_asn1_uint64 realloc_ok 0 v) = Some bs /\
     Cbs.CBS_get_asn1_uint64 (bs ++ rest) = (Some v, rest)) /\
  (forall v, - 2 ^ 63 <= v < 2 ^ 63 -> exists bs,
     built realloc_ok (CBB_add_asn1_int64 realloc_ok 0 v) = Some bs /\
     Cbs.CBS_get_asn1_int64 (bs ++ rest) = (Some v, rest)) /\
  (forall v, exists bs,
     built realloc_ok (CBB_add_asn1_bool realloc_ok 0 v) = Some bs /\
     Cbs.CBS_get_asn1_bool (bs ++ rest) = (Some (negb (v =? 0)), rest)) /\
  (forall data, bytes_ok data -> len data <= 0xfffffffe -> exists bs,
     built realloc_ok (CBB_add_asn1_octet_string realloc_ok 0 data) = Some bs /\
     Cbs.CBS_get_asn1 Cbs.CBS_ASN1_OCTETSTRING (bs ++ rest) = (Some data, rest)) /\
  (forall tag data, valid_tag tag -> bytes_ok data -> len data <= 0xfffffffe -> exists bs,
     built realloc_ok (op_and (CBB_add_asn1 realloc_ok 0 tag) (CBB_add_bytes realloc_ok 1 data)) = Some bs /\
     Cbs.CBS_get_asn1 tag (bs ++ rest) = (Some data, rest)).
Proof.
  intros Hr Hrest. split_and!.
  - intros v Hv. unfold fits in Hv. destruct (int_contents_spec v) as (_ & _ & _ & Hl); [lia |]. eexists. split.
    + eapply built_asn1; [done | by apply (add_uint64_implements _ Hr); [| unfold fits] | lia | lia].
    + apply read_integer; [lia | done | lia].
  - intros v Hv. destruct (int_contents_spec v) as (_ & _ & _ & Hl); [lia |]. eexists. split.
    + eapply built_asn1; [done | by apply (add_int64_implements _ Hr); [| unfold fits] | lia | lia].
    + apply read_integer; [lia | done | lia].
  - intros v. eexists. split; [eapply built_asn1; [done | by apply add_bool_implements | lia | done] |].
    unfold Cbs.CBS_get_asn1_bool, p_bind. rewrite read_element; [| split; [by unfold fits | done] | | done | done].
    + by destruct (v =? 0).
    + by destruct (v =? 0); repeat constructor.
  - intros data Hd Hl. pose proof (len_nonneg data). eexists. split.
    + eapply built_asn1; [done | by apply add_octet_string_implements | lia | lia].
    + apply read_element; [split; [by unfold fits | done] | done | done | lia].
  - intros tag data Ht Hd Hl. eexists. split; [apply built_element; [done | apply Ht | done] |].
    apply read_element; [done | done | done | lia].
Qed.

Lemma cbb_asn1_roundtrip_witness :
  exists bs, built (fun _ => true) (CBB_add_asn1_int64 (fun _ => true) 0 (-129)) = Some bs /\
    Cbs.CBS_get_asn1_int64 (bs ++ [5]) = (Some (-129), [5]).
Proof.
  destruct (cbb_asn1_roundtrip (fun _ => true) [5]) as (_ & H & _); [done | | apply H; lia].
  apply (bool_decide_unpack _); vm_compute; exact I.
Defined.

(** the fixed-width integers and the length prefixes of the builder and of the parser
    agree, big-endian and little-endian: reading back gives the number, respectively the
    contents, and leaves what follows. *)
Theorem cbb_fixed_width_roundtrip realloc_ok rest :
  (forall n, realloc_ok n = true) -> bytes_ok rest ->
  let roundtrip (put : Z -> op) (get : parser Z) (w : Z) :=
    forall v, fits w v -> exists bs, built realloc_ok (put v) = Some bs /\ get (bs ++ rest) = (Some v, rest) in
  let prefixed (open : op) (get : parser CBS) (limit : Z) :=
    forall data, bytes_ok data -> len data < limit -> exists bs,
      built realloc_ok (op_and open (CBB_add_bytes realloc_ok 1 data)) = Some bs /\
      get (bs ++ rest) = (Some data, rest) in
  roundtrip (CBB_add_u8 realloc_ok 0) Cbs.CBS_get_u8 8 /\
  roundtrip (CBB_add_u16 realloc_ok 0) Cbs.CBS_get_u16 16 /\
  roundtrip (CBB_add_u16le realloc_ok 0) Cbs.CBS_get_u16le 16 /\
  roundtrip (CBB_add_u24 realloc_ok 0) Cbs.CBS_get_u24 24 /\
  roundtrip (CBB_add_u32 realloc_ok 0) Cbs.CBS_get_u32 32 /\
  roundtrip (CBB_add_u32le realloc_ok 0) Cbs.CBS_get_u32le 32 /\
  roundtrip (CBB_add_u64 realloc_ok 0) Cbs.CBS_get_u64 64 /\
  roundtrip (CBB_add_u64le realloc_ok 0) Cbs.CBS_get_u64le 64 /\
  prefixed (CBB_add_u8_length_prefixed realloc_ok 0) Cbs.CBS_get_u8_length_prefixed (2 ^ 8) /\
  prefixed (CBB_add_u16_length_prefixed realloc_ok 0) Cbs.CBS_get_u16_length_prefixed (2 ^ 16) /\
  prefixed (CBB_add_u24_length_prefixed realloc_ok 0) Cbs.CBS_get_u24_length_prefixed (2 ^ 24).
Proof.
  intros Hr Hrest roundtrip prefixed.
  assert (forall n v, (n <= 8)%nat -> 0 <= v < 256 ^ Z.of_nat n -> exists bs,
            built realloc_ok (cbb_add_u realloc_ok 0 v n) = Some bs /\
            Cbs.cbs_get_u (Z.of_nat n) (bs ++ rest) = (Some v, rest)) as Hu.
  { intros n v Hn Hv. exists (be_bytes n v). split; [apply built_be; [done | done | lia] | by apply read_be]. }
  assert (forall n, (1 <= n <= 3)%nat ->
            prefixed (cbb_add_length_prefixed realloc_ok 0 (Z.of_nat n))
              (Cbs.cbs_get_length_prefixed (Z.of_nat n)) (256 ^ Z.of_nat n)) as Hp.
  { intros n Hn data Hd Hl. exists (be_bytes n (len data) ++ data). pose proof (len_nonneg data).
    split; [by apply built_prefixed |]. by apply read_prefixed. }
  split_and!; try (intros v Hv; unfold fits in Hv).
  - destruct (Hu 1%nat v) as (bs & H1 & H2); [lia | done |]. change (Z.of_nat 1) with 1 in H2. exists bs. split; [done |].
    apply (get_u8_of_u _ _ _ H2).
  - destruct (Hu 2%nat v) as (bs & H1 & H2); [lia | done |]. change (Z.of_nat 2) with 2 in H2. exists bs. split; [done |].
    unfold Cbs.CBS_get_u16, p_bind. by rewrite H2, (wrap_id 16).
  - destruct (bswap2_involutive v Hv) as [Hf Hi]. destruct (Hu 2%nat (CRYPTO_bswap2 v)) as (bs & H1 & H2); [lia | done |]. change (Z.of_nat 2) with 2 in H2.
    exists bs. split; [done |]. unfold Cbs.CBS_get_u16le, Cbs.CBS_get_u16, p_bind, p_ret. rewrite H2. by rewrite (wrap_id 16), Hi.
  - destruct (Hu 3%nat v) as (bs & H1 & H2); [lia | done |]. change (Z.of_nat 3) with 3 in H2. exists bs. split; [done |].
    unfold Cbs.CBS_get_u24, p_bind. by rewrite H2, (wrap_id 32) by (unfold fits; lia).
  - destruct (Hu 4%nat v) as (bs & H1 & H2); [lia | done |]. change (Z.of_nat 4) with 4 in H2. exists bs. split; [done |].
    unfold Cbs.CBS_get_u32, p_bind. by rewrite H2, (wrap_id 32).
  - destruct (bswap4_involutive v Hv) as [Hf Hi]. destruct (Hu 4%nat (CRYPTO_bswap4 v)) as (bs & H1 & H2); [lia | done |]. change (Z.of_nat 4) with 4 in H2.
    exists bs. split; [done |]. unfold Cbs.CBS_get_u32le, Cbs.CBS_get_u32, p_bind, p_ret. rewrite H2. by rewrite (wrap_id 32), Hi.
  - destruct (Hu 8%nat v) as (bs & H1 & H2); [lia | done |]. by exists bs.
  - destruct (bswap8_involutive v Hv) as [Hf Hi]. destruct (Hu 8%nat (CRYPTO_bswap8 v)) as (bs & H1 & H2); [lia | done |]. change (Z.of_nat 8) with 8 in H2.
    exists bs. split; [done |]. unfold Cbs.CBS_get_u64le, p_bind, p_ret. rewrite H2. by rewrite Hi.
  - revert v Hv. apply (Hp 1%nat). lia.
  - revert v Hv. apply (Hp 2%nat). lia.
  - revert v Hv. apply (Hp 3%nat). lia.
Qed.

Lemma cbb_fixed_width_roundtrip_witness :
  exists bs, built (fun _ => true) (CBB_add_u24 (fun _ => true) 0 0x10203) = Some bs /\
    Cbs.CBS_get_u24 (bs ++ [5]) = (Some 0x10203, [5]).
Proof.
  destruct (cbb_fixed_width_roundtrip (fun _ => true) [5]) as (_ & _ & _ & H & _);
    [done | | apply H; by unfold fits].
  apply (bool_decide_unpack _); vm_compute; exact I.
Defined.

End CbbSpec.
