(* ===== verification/CbbText.v ===== *)
(** OBJECT IDENTIFIERs as dotted text and the DER order of SET OF, the two parts of the
    builder that also parse: [CBB_add_asn1_oid_from_text], [CBS_asn1_oid_to_text] and
    [CBB_flush_asn1_set_of]. *)

From stdpp Require Import sorting.
From S2P Require Import Prelude Internal Cbs Der CbsText Cbb CbbSpec.
Import Internal Der CbsText Cbb CbbSpec.

Module CbbText.

(** * Object identifiers *)

(** Components separated by dots. *)
Definition dot_then (rest : bytes) : bytes := match rest with [] => [] | _ => 46 :: rest end.

Fixpoint dotted (arcs : list Z) : bytes :=
  match arcs with [] => [] | v :: arcs => decimal v ++ dot_then (dotted arcs) end.

Record arcs_ok (a b : Z) (arcs : list Z) : Prop := {
  ok_a : 0 <= a <= 2;
  ok_b : 0 <= b <= 2 ^ 64 - 1 - 80;
  ok_ab : a < 2 -> b <= 39;
  ok_arcs : Forall (fits 64) arcs }.

Definition oid_contents (a b : Z) (arcs : list Z) : bytes :=
  base128 (40 * a + b) ++ concat (map base128 arcs).

Lemma decimal_hi_nonempty v : 0 < v -> decimal_hi 20 v <> [].
Proof.
  intros Hv. change (decimal_hi 20 v) with
    (if v =? 0 then [] else decimal_hi 19 (v / 10) ++ [48 + v mod 10]).
  replace (v =? 0) with false by lia. by destruct (decimal_hi 19 (v / 10)).
Qed.

Lemma decimal_nonempty v : 0 <= v -> decimal v <> [].
Proof.
  intros Hv. unfold decimal. destruct (Z.eqb_spec v 0); [done |]. apply decimal_hi_nonempty. lia.
Qed.

Lemma dotted_nil arcs : Forall (fits 64) arcs -> dotted arcs = [] -> arcs = [].
Proof.
  destruct 1 as [| v arcs Hv]; [done |]. cbn. intros [E _]%app_nil. by apply decimal_nonempty in E; [| apply Hv].
Qed.

Lemma parse_dotted_spec cbs v rest :
  parse_dotted_decimal cbs = (Some v, rest) <-> cbs = decimal v ++ dot_then rest /\ fits 64 v.
Proof.
  unfold parse_dotted_decimal. split.
  - destruct (Cbs.CBS_get_u64_decimal cbs) as [[v' |] r] eqn:E; [| done].
    apply get_u64_decimal_spec in E as (-> & Hv & Hn). destruct r as [| c r]; cbn [Cbs.CBS_get_u8].
    + intros [<- <-]%ok_inj. done.
    + destruct ((c =? 46) && (len r >? 0)) eqn:Ec; [| done]. intros [<- <-]%ok_inj.
      destruct r as [| c' r]; [change (len []) with 0 in Ec; lia |]. assert (c = 46) as -> by lia. done.
  - intros [-> Hv]. rewrite (proj2 (get_u64_decimal_spec _ v (dot_then rest))).
    + destruct rest as [| c rest]; [done |]. cbn [dot_then Cbs.CBS_get_u8]. rewrite len_cons.
      pose proof (len_nonneg rest). by replace (_ && _) with true by lia.
    + split_and!; [done | apply Hv | apply Hv | by destruct rest].
Qed.

Section Oid.
Context (realloc_ok : Z -> bool) (Hrealloc : forall n, realloc_ok n = true).

Lemma oid_loop_adds fuel d arcs :
  Forall (fits 64) arcs -> (length (dotted arcs) <= fuel)%nat -> arcs <> [] ->
  adds d (concat (map base128 arcs)) (oid_components_loop realloc_ok fuel d (dotted arcs)).
Proof.
  intros Ha. revert fuel. induction Ha as [| v arcs Hv Ha IH]; intros fuel Hf Hne; [done |].
  pose proof (decimal_nonempty v ltac:(apply Hv)) as Hd. destruct fuel as [| fuel].
  { cbn [dotted] in Hf. rewrite length_app in Hf. destruct (decimal v); [done | cbn in Hf; lia]. }
  assert ((len (dotted (v :: arcs)) >? 0) = true) as Hlen.
  { cbn [dotted]. rewrite len_app. destruct (decimal v) as [| c ds]; [done |]. rewrite len_cons.
    pose proof (len_nonneg ds). pose proof (len_nonneg (dot_then (dotted arcs))). lia. }
  assert (parse_dotted_decimal (dotted (v :: arcs)) = (Some v, dotted arcs)) as Hp
    by (by apply parse_dotted_spec).
  eapply implements_op; [intros st; symmetry; cbn [oid_components_loop]; by rewrite Hlen, Hp |].
  cbn [map concat]. destruct arcs as [| w arcs].
  - cbn [dotted map concat]. rewrite app_nil_r. eapply implements_op; [| by apply adds_true, add_base128_adds].
    intros st. by destruct fuel.
  - apply adds_and; [by apply add_base128_adds |]. apply IH; [| done].
    cbn [dotted] in Hf |- *. rewrite length_app in Hf. destruct (decimal v); [done |]. cbn [length] in Hf.
    destruct (decimal w ++ dot_then (dotted arcs)) as [| c' r] eqn:E; cbn [dot_then length] in *; lia.
Qed.

Lemma dotted_cons_first a b arcs text :
  text = dotted (a :: b :: arcs) -> fits 64 a -> fits 64 b -> Forall (fits 64) arcs ->
  parse_dotted_decimal text = (Some a, dotted (b :: arcs)) /\
  parse_dotted_decimal (dotted (b :: arcs)) = (Some b, dotted arcs).
Proof. intros -> Ha Hb Harcs. by split; apply parse_dotted_spec. Qed.

Lemma oid_from_text_adds d a b arcs :
  arcs_ok a b arcs -> len (dotted (a :: b :: arcs)) <= 32767 ->
  adds d (oid_contents a b arcs) (CBB_add_asn1_oid_from_text realloc_ok d (dotted (a :: b :: arcs))).
Proof.
  intros [Ha Hb Hab Harcs] Hl.
  destruct (dotted_cons_first a b arcs _ eq_refl) as [H1 H2]; [unfold fits; lia | unfold fits; lia | done |].
  apply (adds_and d [] (oid_contents a b arcs)); [by apply flush_adds |].
  eapply implements_op.
  { intros st. replace (_ >? 32767) with false by lia. rewrite H1, H2. unfold Cbs.UINT64_MAX.
    symmetry. replace (_ || _ || _) with false by lia. reflexivity. }
  destruct arcs as [| v arcs].
  - replace (oid_contents a b []) with (base128 (40 * a + b)) by (unfold oid_contents; by rewrite app_nil_r).
    eapply implements_op; [| apply adds_true, add_base128_adds; [done | lia]]. intros st. done.
  - apply adds_and; [apply add_base128_adds; [done | lia] |]. by apply oid_loop_adds.
Qed.

(** Text the conversion accepts is of that form. *)
Lemma oid_loop_text fuel d cbs st st' :
  (length cbs <= fuel)%nat -> oid_components_loop realloc_ok fuel d cbs st = (true, st') ->
  exists arcs, cbs = dotted arcs /\ Forall (fits 64) arcs.
Proof.
  revert cbs st. induction fuel as [| fuel IH]; intros cbs st Hf H.
  - destruct cbs; [| cbn in Hf; lia]. exists []. by split.
  - cbn [oid_components_loop] in H. destruct (Z.gtb_spec (len cbs) 0) as [Hlen | Hlen].
    + destruct (parse_dotted_decimal cbs) as [[v |] rest] eqn:E; [| done].
      apply parse_dotted_spec in E as [-> Hv]. unfold op_and in H.
      destruct (add_base128_integer realloc_ok d v st) as [[] st1]; [| done].
      apply IH in H as (arcs & -> & Ha); [| ].
      * exists (v :: arcs). split; [done | by constructor].
      * rewrite length_app in Hf. pose proof (decimal_nonempty v ltac:(apply Hv)).
        destruct (decimal v); [done |]. cbn [length] in Hf. destruct rest; cbn [dot_then length] in *; lia.
    + exists []. split; [| done]. unfold len in Hlen. destruct cbs; [done | cbn in Hlen; lia].
Qed.

Lemma oid_from_text_text d text st st' :
  CBB_add_asn1_oid_from_text realloc_ok d text st = (true, st') ->
  exists a b arcs, text = dotted (a :: b :: arcs) /\ arcs_ok a b arcs /\ len text <= 32767.
Proof.
  unfold CBB_add_asn1_oid_from_text, op_and at 1. destruct (CBB_flush realloc_ok d st) as [[] st1]; [| done].
  destruct (Z.gtb_spec (len text) 32767); [done |].
  destruct (parse_dotted_decimal text) as [[a |] c1] eqn:E1; [| done].
  destruct (parse_dotted_decimal c1) as [[b |] c2] eqn:E2; [| done].
  apply parse_dotted_spec in E1 as [-> Ha]. apply parse_dotted_spec in E2 as [-> Hb].
  unfold Cbs.UINT64_MAX, fits in *. destruct (_ || _ || _) eqn:Ec; [done |]. unfold op_and.
  destruct (add_base128_integer realloc_ok d (40 * a + b) st1) as [[] st2]; [| done].
  intros (arcs & -> & Harcs)%oid_loop_text; [| done]. exists a, b, arcs.
  split_and!; [done | constructor; [lia | lia | lia | done] | done].
Qed.

(** ** To text *)

Definition dots (arcs : list Z) : bytes := concat (map (fun v => 46 :: decimal v) arcs).

Lemma dotted_dots v arcs : Forall (fits 64) arcs -> dotted (v :: arcs) = decimal v ++ dots arcs.
Proof.
  intros Ha. revert v. induction Ha as [| w arcs Hw Ha IH]; intros v; [done |].
  change (dotted (v :: w :: arcs)) with (decimal v ++ dot_then (dotted (w :: arcs))). rewrite IH.
  cbn [dots map concat]. f_equal. fold (dots arcs).
  pose proof (decimal_nonempty w ltac:(apply Hw)). by destruct (decimal w).
Qed.

Lemma decimal_len v : 0 <= v -> 1 <= len (decimal v) <= 20.
Proof.
  intros Hv. pose proof (decimal_nonempty v Hv) as Hne. split.
  - destruct (decimal v) as [| c ds]; [done |]. rewrite len_cons. pose proof (len_nonneg ds). lia.
  - unfold decimal. destruct (v =? 0); [done |].
    assert (forall n u, len (decimal_hi n u) <= Z.of_nat n) as H; [| apply (H 20%nat)].
    induction n as [| n IH]; intros u; cbn [decimal_hi]; [done |]. destruct (u =? 0); [change (len []) with 0; lia |].
    rewrite len_app. specialize (IH (u / 10)). change (len [_]) with 1. lia.
Qed.

Lemma arcs_len arcs :
  Forall (fits 64) arcs ->
  len (dots arcs) <= 21 * len (concat (map base128 arcs)) /\
  len (concat (map base128 arcs)) <= 11 * len (dots arcs).
Proof.
  unfold dots. induction 1 as [| v arcs Hv Ha IH]; [done |]. cbn [map concat]. rewrite !len_app, !len_cons.
  pose proof (decimal_len v ltac:(apply Hv)). pose proof (base128_len v). lia.
Qed.

Lemma to_text_loop_adds fuel arcs :
  Forall (fits 64) arcs -> (length (concat (map base128 arcs)) <= fuel)%nat -> arcs <> [] ->
  adds 0 (dots arcs) (oid_to_text_loop realloc_ok fuel (concat (map base128 arcs))).
Proof.
  intros Ha. revert fuel. induction Ha as [| v arcs Hv Ha IH]; intros fuel Hf Hne; [done |].
  cbn [map concat] in *. pose proof (base128_len v) as Hb. rewrite length_app in Hf. unfold len in Hb.
  destruct fuel as [| fuel]; [lia |].
  assert (bytes_ok (base128 v ++ concat (map base128 arcs))) as Hok.
  { apply bytes_ok_app. split; [apply base128_ok, Hv |]. clear -Ha.
    induction Ha as [| w arcs Hw Ha IH]; cbn; [constructor |]. apply bytes_ok_app. split; [apply base128_ok, Hw | done]. }
  assert ((len (base128 v ++ concat (map base128 arcs)) =? 0) = false) as Hz
    by (apply Z.eqb_neq; unfold len; rewrite length_app; lia).
  eapply implements_op.
  { intros st. symmetry. cbn [oid_to_text_loop]. rewrite Hz.
    rewrite (proj2 (parse_base128_spec _ v (concat (map base128 arcs)) Hok)) by done. reflexivity. }
  change (dots (v :: arcs)) with ([46] ++ decimal v ++ dots arcs).
  apply adds_and; [by apply add_u8_adds |]. destruct arcs as [| w arcs].
  - cbn [dots map concat]. rewrite app_nil_r. eapply implements_op; [| by apply adds_true, add_space_adds].
    intros st. by destruct fuel.
  - apply adds_and; [by apply add_space_adds |]. apply IH; [lia | done].
Qed.

Lemma to_text_loop_inv fuel copy st st' :
  bytes_ok copy -> (length copy <= fuel)%nat ->
  oid_to_text_loop realloc_ok fuel copy st = (true, st') ->
  exists arcs, copy = concat (map base128 arcs) /\ Forall (fits 64) arcs.
Proof.
  revert copy st. induction fuel as [| fuel IH]; intros copy st Hok Hf H.
  - destruct copy; [| cbn in Hf; lia]. by exists [].
  - cbn [oid_to_text_loop] in H. destruct (Z.eqb_spec (len copy) 0) as [Hl | Hl].
    { apply len_nil_inv in Hl as ->. by exists []. }
    cbn [negb] in H. destruct (Cbs.parse_base128_integer copy) as [[v |] rest] eqn:E; [| done].
    apply parse_base128_spec in E as [-> Hv]; [| done]. pose proof (base128_len v) as Hb.
    rewrite length_app in Hf. unfold len in Hb. apply bytes_ok_app in Hok as [_ Hok].
    unfold op_and in H. destruct (CBB_add_u8 _ _ _ _) as [[] st1]; [| done].
    destruct (add_decimal _ _ _ _) as [[] st2]; [| done].
    apply IH in H as (arcs & -> & Ha); [| done | lia]. exists (v :: arcs). split; [done | by constructor].
Qed.

(** The first component of the contents, as the two components of the text. *)
Lemma first_arcs v :
  0 <= v < 2 ^ 64 ->
  exists a b, arcs_ok a b [] /\ v = 40 * a + b /\ 
    if v >=? 80 then a = 2 /\ b = v - 80 else a = v / 40 /\ b = v mod 40.
Proof.
  intros Hv. destruct (Z.geb_spec v 80).
  - exists 2, (v - 80). split_and!; [constructor; [lia | lia | lia | constructor] | lia | done | done].
  - exists (v / 40), (v mod 40).
    split_and!; [constructor; [| | | constructor] | | done | done]; Z.to_euclidean_division_equations; lia.
Qed.

Lemma first_arcs_unique a b : 
  arcs_ok a b [] -> if 40 * a + b >=? 80 then a = 2 /\ b = 40 * a + b - 80 
                    else a = (40 * a + b) / 40 /\ b = (40 * a + b) mod 40.
Proof.
  intros [Ha Hb Hab _]. destruct (Z.geb_spec (40 * a + b) 80); Z.to_euclidean_division_equations; lia.
Qed.

Lemma head_text_adds a b arcs :
  arcs_ok a b arcs ->
  adds 0 (decimal a ++ 46 :: decimal b)
    (if 40 * a + b >=? 80
     then op_and (CBB_add_bytes realloc_ok 0 [50; 46]) (add_decimal realloc_ok 0 (40 * a + b - 80))
     else op_and (add_decimal realloc_ok 0 ((40 * a + b) / 40))
            (op_and (CBB_add_u8 realloc_ok 0 46) (add_decimal realloc_ok 0 ((40 * a + b) mod 40)))).
Proof.
  intros [Ha Hb Hab _]. pose proof (first_arcs_unique a b ltac:(by constructor)) as Hu.
  destruct (40 * a + b >=? 80); destruct Hu as [E1 E2].
  - rewrite <- E2, E1. apply (adds_and 0 [50; 46]); apply add_space_adds; done.
  - rewrite <- E1, <- E2. apply adds_and; [by apply add_space_adds |].
    apply (adds_and 0 [46]); [by apply add_u8_adds | by apply add_space_adds].
Qed.

Lemma tail_text_adds arcs :
  Forall (fits 64) arcs ->
  adds 0 (dots arcs ++ [0])
    (op_and (oid_to_text_loop realloc_ok (length (concat (map base128 arcs))) (concat (map base128 arcs)))
       (CBB_add_u8 realloc_ok 0 0)).
Proof.
  intros Ha. destruct arcs as [| v arcs]; [by apply add_u8_adds |].
  apply adds_and; [by apply to_text_loop_adds | by apply add_u8_adds].
Qed.

(** The code after the first component has been read. *)
Definition write_text (v : Z) (copy : bytes) : op :=
  op_and
    (if v >=? 80 then op_and (CBB_add_bytes realloc_ok 0 [50; 46]) (add_decimal realloc_ok 0 (v - 80))
     else op_and (add_decimal realloc_ok 0 (v / 40))
            (op_and (CBB_add_u8 realloc_ok 0 46) (add_decimal realloc_ok 0 (v mod 40))))
    (op_and (oid_to_text_loop realloc_ok (length copy) copy) (CBB_add_u8 realloc_ok 0 0)).

Lemma text_eq a b arcs :
  arcs_ok a b arcs -> (decimal a ++ 46 :: decimal b) ++ dots arcs ++ [0] = dotted (a :: b :: arcs) ++ [0].
Proof.
  intros [Ha Hb _ Harcs]. rewrite (dotted_dots a (b :: arcs)) by (constructor; [unfold fits; lia | done]).
  cbn [dots map concat]. fold (dots arcs). rewrite <- !app_assoc. cbn [app]. rewrite <- ?app_assoc. done.
Qed.

Lemma write_text_spec a b arcs st :
  arcs_ok a b arcs -> len (oid_contents a b arcs) < 2 ^ 56 -> repr st ([], []) ->
  exists st', write_text (40 * a + b) (concat (map base128 arcs)) st = (true, st') /\
    CBB_finish realloc_ok st' = Some (dotted (a :: b :: arcs) ++ [0]).
Proof.
  intros Ha Hl Hr. pose proof (ok_arcs _ _ _ Ha) as Harcs.
  pose proof (adds_and _ _ _ _ _ (head_text_adds a b arcs Ha) (tail_text_adds arcs Harcs)) as H.
  rewrite text_eq in H by done. destruct (arcs_len arcs Harcs) as [Hd _].
  assert (len (dotted (a :: b :: arcs) ++ [0]) < 2 ^ 64) as Hs.
  { rewrite <- text_eq by done. unfold oid_contents in Hl. rewrite !len_app, len_cons in *.
    pose proof (decimal_len a ltac:(apply Ha)). pose proof (decimal_len b ltac:(apply Ha)).
    pose proof (base128_len (40 * a + b)). change (len [0]) with 1. lia. }
  destruct (H st _ Hr) as (st' & E & Hr' & Hs'); [change (size ([], [])) with 0; lia |].
  exists st'. split; [exact E |].
  rewrite (finish_spec _ Hrealloc st' _ Hr') by (change (size ([], [])) with 0 in Hs'; lia).
  cbn. by rewrite app_nil_r.
Qed.

Lemma write_text_inv v copy st st' :
  bytes_ok copy -> write_text v copy st = (true, st') ->
  exists arcs, copy = concat (map base128 arcs) /\ Forall (fits 64) arcs.
Proof.
  intros Hok. unfold write_text. match goal with |- op_and ?m _ _ = _ -> _ => generalize m end. intros m.
  unfold op_and. destruct (m st) as [[] st1]; [| done]. destruct (oid_to_text_loop _ _ _ _) as [[] st2] eqn:E; [| done].
  intros _. by eapply to_text_loop_inv.
Qed.

Lemma to_text_spec cs t :
  bytes_ok cs -> len cs < 2 ^ 56 ->
  CBS_asn1_oid_to_text realloc_ok cs = Some t <->
  exists a b arcs, arcs_ok a b arcs /\ cs = oid_contents a b arcs /\ t = dotted (a :: b :: arcs) ++ [0].
Proof.
  intros Hok Hl. unfold CBS_asn1_oid_to_text. destruct (init_repr realloc_ok Hrealloc 32) as (st & -> & Hr). split.
  - destruct (Cbs.parse_base128_integer cs) as [[v |] copy] eqn:E; [| done]. fold (write_text v copy).
    destruct (write_text v copy st) as [[] st'] eqn:Ew; [| done].
    apply parse_base128_spec in E as [-> Hv]; [| done]. pose proof Hok as [_ Hc]%bytes_ok_app.
    destruct (write_text_inv _ _ _ _ Hc Ew) as (arcs & -> & Harcs).
    destruct (first_arcs v Hv) as (a & b & [Ha Hb Hab _] & -> & _). intros Hf.
    assert (arcs_ok a b arcs) as Hok' by (by constructor).
    destruct (write_text_spec a b arcs st Hok' Hl Hr) as (st2 & E2 & Hf2). exists a, b, arcs.
    split_and!; [done | done |]. rewrite Ew in E2. injection E2 as <-. congruence.
  - intros (a & b & arcs & Ha & -> & ->). pose proof Ha as [Ha1 Hb Hab Harcs].
    rewrite (proj2 (parse_base128_spec _ (40 * a + b) (concat (map base128 arcs)) Hok)) by (split; [done | lia]).
    fold (write_text (40 * a + b) (concat (map base128 arcs))).
    by destruct (write_text_spec a b arcs st Ha Hl Hr) as (st' & -> & ->).
Qed.

Lemma from_text_spec cs t :
  built realloc_ok (CBB_add_asn1_oid_from_text realloc_ok 0 t) = Some cs <->
  exists a b arcs, arcs_ok a b arcs /\ cs = oid_contents a b arcs /\ t = dotted (a :: b :: arcs) /\ len t <= 32767.
Proof.
  assert (forall a b arcs, arcs_ok a b arcs -> len (dotted (a :: b :: arcs)) <= 32767 ->
    built realloc_ok (CBB_add_asn1_oid_from_text realloc_ok 0 (dotted (a :: b :: arcs)))
    = Some (oid_contents a b arcs)) as Hb.
  { intros a b arcs Ha Hl. eapply built_adds; [done | by apply oid_from_text_adds |].
    pose proof Ha as [Ha1 Hb1 _ Harcs]. rewrite (dotted_dots a (b :: arcs)) in Hl by (constructor; [unfold fits; lia | done]).
    cbn [dots map concat] in Hl. fold (dots arcs) in Hl. rewrite !len_app, len_cons in Hl.
    unfold oid_contents. rewrite len_app. pose proof (base128_len (40 * a + b)).
    destruct (arcs_len arcs Harcs) as [_ H2]. pose proof (len_nonneg (dots arcs)).
    pose proof (len_nonneg (decimal a)). pose proof (len_nonneg (decimal b)).
    pose proof (len_nonneg (concat (map base128 arcs))). lia. }
  split.
  - intros H. unfold built in H. destruct (CBB_init realloc_ok 0) as [st |] eqn:Ei; [| done].
    destruct (CBB_add_asn1_oid_from_text realloc_ok 0 t st) as [[] st'] eqn:E; [| done].
    pose proof E as (a & b & arcs & -> & Ha & Hl)%oid_from_text_text. exists a, b, arcs.
    split_and!; [done | | done | done]. specialize (Hb a b arcs Ha Hl). unfold built in Hb.
    rewrite Ei, E in Hb. congruence.
  - intros (a & b & arcs & Ha & -> & -> & Hl). by apply Hb.
Qed.

End Oid.

(** [CBS_asn1_oid_to_text] and [CBB_add_asn1_oid_from_text] are inverse to each other:
    for text within the 32767-byte limit, an encoded OBJECT IDENTIFIER prints as [t] (with
    its NUL) exactly when parsing [t] writes that encoding; and [t] is then the dotted
    decimal form of its components. *)
Theorem oid_text_roundtrip realloc_ok cs t :
  (forall n, realloc_ok n = true) -> bytes_ok cs -> len cs < 2 ^ 56 -> len t <= 32767 ->
  (CBS_asn1_oid_to_text realloc_ok cs = Some (t ++ [0]) <->
   built realloc_ok (CBB_add_asn1_oid_from_text realloc_ok 0 t) = Some cs) /\
  (built realloc_ok (CBB_add_asn1_oid_from_text realloc_ok 0 t) = Some cs <->
   exists a b arcs, arcs_ok a b arcs /\ cs = oid_contents a b arcs /\ t = dotted (a :: b :: arcs)).
Proof.
  intros Hr Hok Hl Ht. rewrite to_text_spec, from_text_spec by done. split; [| naive_solver].
  split; intros (a & b & arcs & Ha & -> & H); exists a, b, arcs; split_and!; try done.
  - by apply app_inj_tail in H as [-> _].
  - destruct H as [-> _]. done.
Qed.

Lemma oid_text_roundtrip_witness :
  CBS_asn1_oid_to_text (fun _ => true) [42; 134; 72] = Some ([49; 46; 50; 46; 56; 52; 48] ++ [0]).
Proof.
  apply (oid_text_roundtrip (fun _ => true) [42; 134; 72] [49; 46; 50; 46; 56; 52; 48]);
    [done | | reflexivity | vm_compute; discriminate | reflexivity].
  apply (bool_decide_unpack _); vm_compute; exact I.
Defined.

(** * SET OF *)

(** Lexicographic order on octet strings, a prefix first. *)
Fixpoint lex_le (a b : bytes) : bool :=
  match a, b with
  | [], _ => true
  | _ :: _, [] => false
  | x :: a, y :: b => if x =? y then lex_le a b else x <? y
  end.

Lemma lex_le_refl a : lex_le a a = true.
Proof. induction a as [| x a IH]; [done |]. cbn. by rewrite Z.eqb_refl. Qed.

Lemma lex_le_total a b : lex_le a b = true \/ lex_le b a = true.
Proof.
  revert b. induction a as [| x a IH]; intros [| y b]; cbn; auto.
  rewrite (Z.eqb_sym y x). destruct (Z.eqb_spec x y); [apply IH | lia].
Qed.

Lemma lex_le_antisym a b : lex_le a b = true -> lex_le b a = true -> a = b.
Proof.
  revert b. induction a as [| x a IH]; intros [| y b]; cbn; try done.
  rewrite (Z.eqb_sym y x). destruct (Z.eqb_spec x y) as [-> |]; [| lia]. intros. f_equal. auto.
Qed.

Lemma lex_le_trans a b c : lex_le a b = true -> lex_le b c = true -> lex_le a c = true.
Proof.
  revert b c. induction a as [| x a IH]; intros [| y b] [| z c]; cbn; try done.
  destruct (Z.eqb_spec x y) as [-> |]; destruct (Z.eqb_spec y z) as [-> |]; intros H1 H2;
    try (rewrite ?Z.eqb_refl; by eauto); try (destruct (Z.eqb_spec x z); lia); try lia.
  all: destruct (Z.eqb_spec y z); lia.
Qed.

Lemma first_diff_take a b (n : nat) :
  (n = length a \/ n = length b) -> (n <= length a)%nat -> (n <= length b)%nat ->
  first_diff (take n a) (take n b) = first_diff a b.
Proof.
  revert a b. induction n as [| n IH]; intros a b Hn Ha Hb.
  - destruct a, b; cbn in *; try done; lia.
  - destruct a as [| x a], b as [| y b]; cbn in *; try lia. destruct (x =? y); [apply IH; lia | done].
Qed.

Lemma lex_le_first_diff a b :
  lex_le a b = if first_diff a b =? 0 then len a <=? len b else first_diff a b <=? 0.
Proof.
  revert b. induction a as [| x a IH]; intros [| y b]; cbn [lex_le first_diff].
  - done.
  - rewrite len_cons. change (len []) with 0. pose proof (len_nonneg b). cbn. lia.
  - rewrite len_cons. change (len []) with 0. pose proof (len_nonneg a). cbn. lia.
  - rewrite !len_cons, IH. destruct (Z.eqb_spec x y); [repeat case_match; lia |].
    destruct (Z.eqb_spec (x - y) 0); lia.
Qed.

Lemma compare_lex a b :
  bytes_ok a -> bytes_ok b -> (compare_set_of_element a b <=? 0) = lex_le a b.
Proof.
  intros Ha Hb. unfold compare_set_of_element.
  set (n := Z.to_nat (if len a <? len b then len a else len b)).
  assert ((n = length a \/ n = length b) /\ n <= length a /\ n <= length b)%nat as (Hn & Hna & Hnb).
  { unfold n, len. destruct (Z.ltb_spec (Z.of_nat (length a)) (Z.of_nat (length b))); lia. }
  rewrite memcmp_first_diff; [| by apply bytes_ok_take | by apply bytes_ok_take | rewrite !length_take; lia].
  rewrite first_diff_take, lex_le_first_diff by done.
  destruct (Z.eqb_spec (first_diff a b) 0); cbn [negb]; [| done].
  destruct (Z.eqb_spec (len a) (len b)); [lia |]. destruct (Z.ltb_spec (len a) (len b)); lia.
Qed.

Definition lex (a b : bytes) : Prop := lex_le a b = true.

Lemma sort_insert_spec e es :
  bytes_ok e -> Forall bytes_ok es -> StronglySorted lex es ->
  StronglySorted lex (sort_insert e es) /\ sort_insert e es ≡ₚ e :: es.
Proof.
  intros He Hes Hs. revert Hes. induction Hs as [| x es Hs IH Hx]; intros Hes.
  - split; [repeat constructor | done].
  - apply Forall_cons_iff in Hes as [Hxo Hes]. cbn [sort_insert]. rewrite compare_lex by done.
    destruct (lex_le e x) eqn:E.
    + split; [| done]. constructor; [by constructor |]. constructor; [done |].
      eapply Forall_impl; [| exact Hx]. intros y Hy. by eapply lex_le_trans.
    + destruct (IH Hes) as [IHs IHp]. split.
      * constructor; [done |]. rewrite IHp. constructor; [| done].
        destruct (lex_le_total x e); [done | congruence].
      * rewrite IHp. apply Permutation_swap.
Qed.

Lemma sort_elements_spec es :
  Forall bytes_ok es -> StronglySorted lex (sort_elements es) /\ sort_elements es ≡ₚ es.
Proof.
  induction 1 as [| e es He Hes [IHs IHp]]; [split; [constructor | done] |].
  destruct (sort_insert_spec e (sort_elements es) He) as [H1 H2]; [by rewrite IHp | done |].
  split; [done |]. change (sort_elements (e :: es)) with (sort_insert e (sort_elements es)). by rewrite H2, IHp.
Qed.

(** A sorted list is determined by its elements. *)
Lemma sorted_unique es es' :
  StronglySorted lex es -> StronglySorted lex es' -> es ≡ₚ es' -> es = es'.
Proof.
  intros Hs. revert es'. induction Hs as [| x es Hs IH Hx]; intros es' Hs' Hp.
  - symmetry. by apply Permutation_nil.
  - destruct Hs' as [| y es' Hs' Hy]; [by symmetry in Hp; apply Permutation_nil in Hp |].
    assert (x = y) as ->.
    { assert (lex x y) as Hxy.
      { assert (y ∈ x :: es) as [-> | H]%elem_of_cons by (rewrite Hp; by left); [apply lex_le_refl |].
        rewrite list_elem_of_In in H. rewrite List.Forall_forall in Hx. by apply Hx. }
      assert (lex y x) as Hyx.
      { assert (x ∈ y :: es') as [-> | H]%elem_of_cons by (rewrite <- Hp; by left); [apply lex_le_refl |].
        rewrite list_elem_of_In in H. rewrite List.Forall_forall in Hy. by apply Hy. }
      by apply lex_le_antisym. }
    f_equal. apply IH; [done |]. by apply Permutation_cons_inv in Hp.
Qed.

(** One complete DER element. *)
Definition element (e : bytes) : Prop :=
  exists tag contents, e = der_element tag contents /\ valid_tag tag /\ len contents < 2 ^ 32.

Lemma elements_loop_spec fuel cbs es :
  bytes_ok cbs -> (length cbs <= fuel)%nat ->
  elements_loop fuel cbs = Some es <-> cbs = concat es /\ Forall element es.
Proof.
  intros Hok. revert cbs es Hok. induction fuel as [| fuel IH]; intros cbs es Hok Hf.
  - destruct cbs; [| cbn in Hf; lia]. cbn. split; [by intros [= <-] |].
    intros [Hc He]. destruct He as [| e es (t & c & -> & _)]; [done |]. by cbn in Hc.
  - cbn [elements_loop]. destruct (Z.eqb_spec (len cbs) 0) as [Hz | Hz]; cbn [negb].
    { apply len_nil_inv in Hz as ->. split; [by intros [= <-] |].
      intros [Hc He]. destruct He as [| e es (t & c & -> & _)]; [done |]. by cbn in Hc. }
    split.
    + destruct (Cbs.CBS_get_any_asn1_element cbs) as [[e |] rest] eqn:E; [| done].
      apply get_any_element_spec in E as (t & c & -> & Ht & Hl & ->); [| done]. cbn [Cbs.el_out].
      apply bytes_ok_app in Hok as [_ Hok].
      assert (length rest <= fuel)%nat by (rewrite length_app in Hf; cbn in Hf; lia).
      destruct (elements_loop fuel rest) as [es' |] eqn:El; [| done]. cbn. intros [= <-].
      apply IH in El as [-> He]; [| done | done]. split; [done |]. constructor; [by exists t, c | done].
    + intros [-> He]. destruct He as [| e es He Hes]; [done |]. pose proof He as (t & c & E & Ht & Hl).
      cbn [concat] in *. rewrite (proj2 (get_any_element_spec _ (Cbs.mk_element e t (len (der_header t c)) false false) (concat es) Hok))
        by (exists t, c; by rewrite E).
      assert (length (concat es) <= fuel)%nat
        by (rewrite E, length_app in Hf; cbn in Hf; lia).
      cbn [Cbs.el_out]. rewrite (proj2 (IH (concat es) es ltac:(by apply bytes_ok_app in Hok as [_ ?]) ltac:(done)));
        done.
Qed.

(** The part of the buffer before the region at [d]. *)
Lemma region_split d st pre x :
  (d <= length (children st))%nat -> Forall (fun c => 0 <= offset c /\ 0 <= pending_len_len c) (children st) ->
  CBB_data d st = x -> buf (base st) = pre ++ x ->
  take (Z.to_nat (len (buf (base st)) - CBB_len d st)) (buf (base st)) = pre.
Proof.
  intros Hd Hc Hx Hb. assert (exists k : nat, CBB_data d st = drop k (buf (base st)) /\
    Z.to_nat (len (buf (base st)) - CBB_len d st) = k) as (k & Hk & ->).
  { unfold CBB_data, CBB_len. destruct d as [| d].
    - exists O. split; [done | lia].
    - rewrite Nat.sub_succ, Nat.sub_0_r. destruct (lookup_lt_is_Some_2 (children st) d) as [c Hl]; [lia |].
      rewrite Hl. eexists. split; [reflexivity |]. f_equal. lia. }
  rewrite Hk in Hx. rewrite <- (take_drop k (buf (base st))), Hx in Hb at 1. by apply app_inj_2 in Hb as [? _].
Qed.

Lemma set_of_spec realloc_ok d st st1 pre es :
  CBB_flush realloc_ok d st = (true, st1) ->
  (d <= length (children st1))%nat -> Forall (fun c => 0 <= offset c /\ 0 <= pending_len_len c) (children st1) ->
  buf (base st1) = pre ++ concat es -> CBB_data d st1 = concat es ->
  Forall element es -> Forall bytes_ok es ->
  exists es', CBB_flush_asn1_set_of realloc_ok d true st
              = (true, mk_cbb (set_buf (base st1) (pre ++ concat es')) (children st1)) /\
              es' ≡ₚ es /\ StronglySorted lex es'.
Proof.
  intros Hf Hd Hc Hb Hx He Hok. unfold CBB_flush_asn1_set_of. rewrite Hf, (region_split d st1 pre _ Hd Hc Hx Hb), Hx.
  assert (bytes_ok (concat es)) as Hcok by (by apply Forall_concat).
  rewrite (proj2 (elements_loop_spec _ (concat es) es Hcok (le_n _)) (conj eq_refl He)).
  destruct (Nat.ltb_spec (length es) 2) as [H2 | H2].
  - exists es. split_and!; [| done |].
    + rewrite <- Hb. by destruct st1 as [[] ?].
    + destruct es as [| e [| e' es]]; [constructor | repeat constructor | cbn in H2; lia].
  - exists (sort_elements es). split; [done |]. by destruct (sort_elements_spec es Hok).
Qed.

(** C34: [CBB_flush_asn1_set_of] puts a SET OF into DER order.  When the region holds any
    sequence [es] of complete DER elements, it succeeds and rewrites the region in place as
    the same elements in ascending lexicographic order, leaving the rest of the buffer and
    the other regions alone; the bytes it produces are therefore the same for every order in
    which the elements were added. *)
Theorem set_of_canonical realloc_ok d st st' st1 st1' pre es es' :
  CBB_flush realloc_ok d st = (true, st1) -> CBB_flush realloc_ok d st' = (true, st1') ->
  (d <= length (children st1))%nat -> Forall (fun c => 0 <= offset c /\ 0 <= pending_len_len c) (children st1) ->
  (d <= length (children st1'))%nat -> Forall (fun c => 0 <= offset c /\ 0 <= pending_len_len c) (children st1') ->
  buf (base st1) = pre ++ concat es -> CBB_data d st1 = concat es ->
  buf (base st1') = pre ++ concat es' -> CBB_data d st1' = concat es' ->
  Forall element es -> Forall bytes_ok es -> es ≡ₚ es' ->
  exists sorted, sorted ≡ₚ es /\ StronglySorted lex sorted /\
    CBB_flush_asn1_set_of realloc_ok d true st
    = (true, mk_cbb (set_buf (base st1) (pre ++ concat sorted)) (children st1)) /\
    CBB_flush_asn1_set_of realloc_ok d true st'
    = (true, mk_cbb (set_buf (base st1') (pre ++ concat sorted)) (children st1')).
Proof.
  intros Hf Hf' Hd Hc Hd' Hc' Hb Hx Hb' Hx' He Hok Hp.
  destruct (set_of_spec realloc_ok d st st1 pre es) as (s1 & E1 & P1 & S1); try done.
  destruct (set_of_spec realloc_ok d st' st1' pre es') as (s2 & E2 & P2 & S2); rewrite <- ?Hp; try done.
  assert (s2 = s1) as -> by (apply sorted_unique; [done | done | by rewrite P1, P2, Hp]).
  by exists s1.
Qed.

Lemma set_of_canonical_witness :
  let st bs := mk_cbb (mk_buffer ([9] ++ bs) 100 true false) [mk_child 0 1 true] in
  exists sorted, sorted ≡ₚ [[2; 1; 5]; [2; 1; 3]] /\ StronglySorted lex sorted /\
    CBB_flush_asn1_set_of (fun _ => true) 1 true (st ([2; 1; 5] ++ [2; 1; 3]))
    = (true, st (concat sorted)) /\
    CBB_flush_asn1_set_of (fun _ => true) 1 true (st ([2; 1; 3] ++ [2; 1; 5]))
    = (true, st (concat sorted)).
Proof.
  intros st.
  apply (set_of_canonical (fun _ => true) 1 (st ([2; 1; 5] ++ [2; 1; 3])) (st ([2; 1; 3] ++ [2; 1; 5]))
           (st ([2; 1; 5] ++ [2; 1; 3])) (st ([2; 1; 3] ++ [2; 1; 5])) [9]
           [[2; 1; 5]; [2; 1; 3]] [[2; 1; 3]; [2; 1; 5]]); try reflexivity;
    try (repeat constructor; cbn; lia); try (apply (bool_decide_unpack _); vm_compute; exact I).
  constructor; [| constructor; [| constructor]]; eexists 2, [_]; split_and!; try reflexivity; apply integer_tag.
Defined.

End CbbText.
