(* ===== verification/Ber.v ===== *)
(** BER to DER (crypto/bytestring/ber.c), on the reader of [Cbs] and the builder of [Cbb].

    The two walks call themselves on the contents of constructed elements and loop over
    the elements of their input; each round and each call is given one unit of fuel, and
    every round consumes input, so the length of the input is enough.  An outer [None] is
    a walk without fuel. *)

From S2P Require Import Prelude Internal Cbs Der CbsText Cbb CbbSpec.
Import Internal Cbs Der Cbb CbbSpec.

Module Ber.

Definition kMaxDepth : Z := 128.

(** [tag & ~CBS_ASN1_CONSTRUCTED] *)
Definition primitive_tag (tag : Z) : Z := Z.land tag (wnot 32 CBS_ASN1_CONSTRUCTED).
(** [tag & CBS_ASN1_CONSTRUCTED] *)
Definition is_constructed (tag : Z) : bool := negb (Z.land tag CBS_ASN1_CONSTRUCTED =? 0).

Definition CBS_ASN1_UTF8STRING : Z := 0xc.
Definition CBS_ASN1_NUMERICSTRING : Z := 0x12.
Definition CBS_ASN1_PRINTABLESTRING : Z := 0x13.
Definition CBS_ASN1_T61STRING : Z := 0x14.
Definition CBS_ASN1_VIDEOTEXSTRING : Z := 0x15.
Definition CBS_ASN1_IA5STRING : Z := 0x16.
Definition CBS_ASN1_GRAPHICSTRING : Z := 0x19.
Definition CBS_ASN1_VISIBLESTRING : Z := 0x1a.
Definition CBS_ASN1_GENERALSTRING : Z := 0x1b.
Definition CBS_ASN1_UNIVERSALSTRING : Z := 0x1c.
Definition CBS_ASN1_BMPSTRING : Z := 0x1e.

Definition is_string_type (tag : Z) : bool :=
  existsb (Z.eqb (primitive_tag tag))
    [CBS_ASN1_OCTETSTRING; CBS_ASN1_UTF8STRING; CBS_ASN1_NUMERICSTRING; CBS_ASN1_PRINTABLESTRING;
     CBS_ASN1_T61STRING; CBS_ASN1_VIDEOTEXSTRING; CBS_ASN1_IA5STRING; CBS_ASN1_GRAPHICSTRING;
     CBS_ASN1_VISIBLESTRING; CBS_ASN1_GENERALSTRING; CBS_ASN1_UNIVERSALSTRING; CBS_ASN1_BMPSTRING].

(** * Looking for BER *)

(** The loop of [cbs_find_ber]: [None] for a return value of 0, [Some ber_found] for 1. *)
Fixpoint find_loop (fuel : nat) (depth : Z) (inp : CBS) : option (option bool) :=
  match fuel with
  | O => None
  | S fuel =>
      if len inp >? 0 then
        match CBS_get_any_ber_asn1_element inp with
        | (None, _) => Some None
        | (Some e, inp) =>
            if el_ber_found e then Some (Some true)
            else if is_constructed (el_tag e) then
              if is_string_type (el_tag e) then Some (Some true)
              else
                match CBS_skip (el_header_len e) (el_out e) with
                | (None, _) => Some None
                | (Some _, contents) =>
                    match (if depth + 1 >? kMaxDepth then Some None else find_loop fuel (depth + 1) contents) with
                    | None => None
                    | Some None => Some None
                    | Some (Some true) => Some (Some true)
                    | Some (Some false) => find_loop fuel depth inp
                    end
                end
            else find_loop fuel depth inp
        end
      else Some (Some false)
  end.

Definition cbs_find_ber (inp : CBS) (depth : Z) : option (option bool) :=
  if depth >? kMaxDepth then Some None else find_loop (S (length inp)) depth inp.

(** * Conversion *)

Definition cbs_get_eoc (cbs : CBS) : option CBS :=
  match cbs with
  | 0 :: 0 :: rest => Some rest
  | _ => None
  end.

Section Convert.
Context (realloc_ok : Z -> bool).

(** The return value, the new [*in] and the new state of the CBB; [None] is a walk without
    fuel. *)
Definition walk := option (bool * CBS * CBB).

(** The contents of the element [e], written to the CBB at [d']: [call] is the call of
    [cbs_convert_ber] on [CBS]es at the next depth, and [flush] what follows. *)
Definition convert_contents (call : nat -> Z -> bool -> CBS -> CBB -> walk) (flush : CBS -> CBB -> walk)
    (e : asn1_element) (inp : CBS) (d' : nat) (child_string_tag : Z) (st : CBB) : walk :=
  if el_indefinite e then
    match call d' child_string_tag true inp st with
    | None => None
    | Some (false, inp, st) => Some (false, inp, st)
    | Some (true, inp, st) => flush inp st
    end
  else
    match CBS_skip (el_header_len e) (el_out e) with
    | (None, _) => Some (false, inp, st)
    | (Some _, contents) =>
        if is_constructed (el_tag e) then
          match call d' child_string_tag false contents st with
          | None => None
          | Some (false, _, st) => Some (false, inp, st)
          | Some (true, _, st) => flush inp st
          end
        else
          match CBB_add_bytes realloc_ok d' contents st with
          | (false, st) => Some (false, inp, st)
          | (true, st) => flush inp st
          end
    end.

(** The loop of [cbs_convert_ber], writing to the CBB at [d]. *)
Fixpoint convert_loop (fuel : nat) (d : nat) (string_tag : Z) (looking_for_eoc : bool) (depth : Z)
    (inp : CBS) (st : CBB) : walk :=
  match fuel with
  | O => None
  | S fuel =>
      if len inp >? 0 then
        match (if looking_for_eoc then cbs_get_eoc inp else None) with
        | Some rest => Some (true, rest, st)
        | None =>
        match CBS_get_any_ber_asn1_element inp with
        | (None, inp) => Some (false, inp, st)
        | (Some e, inp) =>
            let tag := el_tag e in
            let flush inp st :=
              match CBB_flush realloc_ok d st with
              | (false, st) => Some (false, inp, st)
              | (true, st) => convert_loop fuel d string_tag looking_for_eoc depth inp st
              end in
            let call d' tag eoc inp st :=
              if depth + 1 >? kMaxDepth then Some (false, inp, st)
              else convert_loop fuel d' tag eoc (depth + 1) inp st in
            if negb (string_tag =? 0) then
              if negb (primitive_tag tag =? string_tag) then Some (false, inp, st)
              else convert_contents call flush e inp d string_tag st
            else
              let is_string := is_constructed tag && is_string_type tag in
              let out_tag := if is_string then primitive_tag tag else tag in
              let child_string_tag := if is_string then out_tag else string_tag in
              match CBB_add_asn1 realloc_ok d out_tag st with
              | (false, st) => Some (false, inp, st)
              | (true, st) => convert_contents call flush e inp (S d) child_string_tag st
              end
        end
        end
      else Some (negb looking_for_eoc, inp, st)
  end.

Definition cbs_convert_ber (inp : CBS) (d : nat) (string_tag : Z) (looking_for_eoc : bool) (depth : Z)
    (st : CBB) : option (bool * CBS * CBB) :=
  if depth >? kMaxDepth then Some (false, inp, st)
  else convert_loop (S (length inp)) d string_tag looking_for_eoc depth inp st.

(** The outer option is the fuel.  On success [*out], whether [*out_storage] is an allocated
    buffer, and the new [*in]. *)
Definition CBS_asn1_ber_to_der (inp : CBS) : option (option (CBS * bool * CBS)) :=
  match cbs_find_ber inp 0 with
  | None => None
  | Some None => Some None
  | Some (Some false) =>
      match CBS_get_any_asn1_element inp with
      | (None, _) => Some None
      | (Some e, rest) => Some (Some (el_out e, false, rest))
      end
  | Some (Some true) =>
      match CBB_init realloc_ok (len inp) with
      | None => Some None
      | Some st =>
          match cbs_convert_ber inp 0 0 false 0 st with
          | None => None
          | Some (false, _, _) => Some None
          | Some (true, rest, st) =>
              match CBB_finish realloc_ok st with
              | None => Some None
              | Some out => Some (Some (out, true, rest))
              end
          end
      end
  end.

(** The loop of [CBS_get_asn1_implicit_string] over the chunks. *)
Fixpoint implicit_loop (fuel : nat) (inner_tag : Z) (child : CBS) (st : CBB) : option (bool * CBB) :=
  match fuel with
  | O => None
  | S fuel =>
      if len child >? 0 then
        match CBS_get_asn1 inner_tag child with
        | (None, _) => Some (false, st)
        | (Some chunk, child) =>
            match CBB_add_bytes realloc_ok 0 chunk st with
            | (false, st) => Some (false, st)
            | (true, st) => implicit_loop fuel inner_tag child st
            end
        end
      else Some (true, st)
  end.

Definition CBS_get_asn1_implicit_string (inp : CBS) (outer_tag inner_tag : Z) : option (option (CBS * bool) * CBS) :=
  if CBS_peek_asn1_tag inp outer_tag then
    match CBS_get_asn1 outer_tag inp with
    | (Some out, rest) => Some (Some (out, false), rest)
    | (None, rest) => Some (None, rest)
    end
  else
    match CBB_init realloc_ok (len inp) with
    | None => Some (None, inp)
    | Some st =>
        match CBS_get_asn1 (Z.lor outer_tag CBS_ASN1_CONSTRUCTED) inp with
        | (None, rest) => Some (None, rest)
        | (Some child, rest) =>
            match implicit_loop (S (length child)) inner_tag child st with
            | None => None
            | Some (false, _) => Some (None, rest)
            | Some (true, st) =>
                match CBB_finish realloc_ok st with
                | None => Some (None, rest)
                | Some data => Some (Some (data, true), rest)
                end
            end
        end
    end.
End Convert.
(** * The grammar *)

(** The grammar of X.690, for tag numbers below 2^29, has three bounds for parameters: [maxd] on the
    nesting depth, [octets] on the length octets after the first, and [maxlen] on the length of the
    converted contents.  BER itself allows 126 length octets and any depth and length. *)

(** The length octets [lo] of a definite length [n], not necessarily minimal. *)
Definition ber_len_to (octets : nat) (lo : bytes) (n : Z) : Prop :=
  (lo = [n] /\ 0 <= n < 128) \/
  (exists k : nat, (1 <= k <= octets)%nat /\ 0 <= n < 256 ^ Z.of_nat k /\ lo = (128 + Z.of_nat k) :: be_bytes k n).

(** The strings an element of tag [tag] may be part of: [st] is 0 outside of constructed
    strings, and the tag of the string inside of one. *)
Definition fragment_ok (st tag : Z) : Prop := st = 0 \/ primitive_tag tag = st.

Definition child_tag (st tag : Z) : Z :=
  if negb (st =? 0) then st
  else if is_constructed tag && is_string_type tag then primitive_tag tag else 0.

(** The DER of an element of tag [tag] whose converted contents are [out]: the contents alone
    inside of a string, and a primitive element for a constructed string. *)
Definition converted (st tag : Z) (out : bytes) : bytes :=
  if negb (st =? 0) then out
  else der_element (if is_constructed tag && is_string_type tag then primitive_tag tag else tag) out.

Definition fits_len_to (maxlen : Z) (st : Z) (out : bytes) : Prop := st = 0 -> len out <= maxlen.

(** [ber_elem_to maxd octets maxlen st k x out]: [x] is a BER element at nesting depth [k],
    converted to [out]; [ber_elems_to] is the same of a sequence of elements. *)
Inductive ber_elem_to (maxd : Z) (octets : nat) (maxlen : Z) : Z -> Z -> bytes -> bytes -> Prop :=
  | ber_prim st k tag lo cs :
      valid_tag tag -> is_constructed tag = false -> fragment_ok st tag -> ber_len_to octets lo (len cs) -> fits_len_to maxlen st cs ->
      ber_elem_to maxd octets maxlen st k (der_tag tag ++ lo ++ cs) (converted st tag cs)
  | ber_cons st k tag lo cs out :
      valid_tag tag -> is_constructed tag = true -> fragment_ok st tag -> ber_len_to octets lo (len cs) ->
      k + 1 <= maxd -> ber_elems_to maxd octets maxlen (child_tag st tag) (k + 1) cs out -> fits_len_to maxlen st out ->
      ber_elem_to maxd octets maxlen st k (der_tag tag ++ lo ++ cs) (converted st tag out)
  | ber_indef st k tag cs out :
      valid_tag tag -> is_constructed tag = true -> fragment_ok st tag ->
      k + 1 <= maxd -> ber_elems_to maxd octets maxlen (child_tag st tag) (k + 1) cs out -> fits_len_to maxlen st out ->
      ber_elem_to maxd octets maxlen st k (der_tag tag ++ [128] ++ cs ++ [0; 0]) (converted st tag out)
with ber_elems_to (maxd : Z) (octets : nat) (maxlen : Z) : Z -> Z -> bytes -> bytes -> Prop :=
  | ber_nil st k : ber_elems_to maxd octets maxlen st k [] []
  | ber_more st k x xs out outs :
      ber_elem_to maxd octets maxlen st k x out -> ber_elems_to maxd octets maxlen st k xs outs ->
      ber_elems_to maxd octets maxlen st k (x ++ xs) (out ++ outs).

Scheme ber_elem_ind2 := Induction for ber_elem_to Sort Prop
  with ber_elems_ind2 := Induction for ber_elems_to Sort Prop.
Combined Scheme ber_mutind from ber_elem_ind2, ber_elems_ind2.

(** The bounds of the implementation: [kMaxDepth], four length octets, and contents that [CBB] can
    give a length of four octets. *)
Abbreviation ber_len := (ber_len_to 4).
Abbreviation fits_len := (fits_len_to 0xfffffffe).
Abbreviation ber_elem := (ber_elem_to kMaxDepth 4 0xfffffffe).
Abbreviation ber_elems := (ber_elems_to kMaxDepth 4 0xfffffffe).

(** [inp] is a sequence of BER elements, of any depth and length, converted to [out]. *)
Definition is_ber (inp out : bytes) : Prop := exists maxd maxlen, ber_elems_to maxd 126 maxlen 0 0 inp out.

(** The same within the bounds of the implementation. *)
Definition ber_within_bounds (inp out : bytes) : Prop := ber_elems 0 0 inp out.

(** DER: definite minimal lengths, of at most four octets after the first, and no constructed
    strings, nested up to the depth [maxd]. *)
Inductive der_elem_to (maxd : Z) : Z -> bytes -> Prop :=
  | der_prim k tag cs :
      valid_tag tag -> is_constructed tag = false -> len cs < 2 ^ 32 -> der_elem_to maxd k (der_element tag cs)
  | der_cons k tag cs :
      valid_tag tag -> is_constructed tag = true -> is_string_type tag = false -> len cs < 2 ^ 32 ->
      k + 1 <= maxd -> der_elems_to maxd (k + 1) cs -> der_elem_to maxd k (der_element tag cs)
with der_elems_to (maxd : Z) : Z -> bytes -> Prop :=
  | der_nil k : der_elems_to maxd k []
  | der_more k x xs : der_elem_to maxd k x -> der_elems_to maxd k xs -> der_elems_to maxd k (x ++ xs).

Scheme der_elem_ind2 := Induction for der_elem_to Sort Prop
  with der_elems_ind2 := Induction for der_elems_to Sort Prop.
Combined Scheme der_mutind from der_elem_ind2, der_elems_ind2.

Abbreviation der_elem := (der_elem_to kMaxDepth).
Abbreviation der_elems := (der_elems_to kMaxDepth).

(** BER within some bounds is BER within larger ones. *)
Lemma ber_mono maxd octets maxlen maxd' octets' maxlen' :
  maxd <= maxd' -> (octets <= octets')%nat -> maxlen <= maxlen' ->
  (forall st k x out, ber_elem_to maxd octets maxlen st k x out -> ber_elem_to maxd' octets' maxlen' st k x out) /\
  (forall st k x out, ber_elems_to maxd octets maxlen st k x out -> ber_elems_to maxd' octets' maxlen' st k x out).
Proof.
  intros Hd Ho Hl.
  assert (forall lo n, ber_len_to octets lo n -> ber_len_to octets' lo n) as Hlen.
  { intros lo n [H | (k & Hk & H)]; [by left | right; exists k; split; [lia | done]]. }
  assert (forall st out, fits_len_to maxlen st out -> fits_len_to maxlen' st out) as Hfit by (intros st out H E; specialize (H E); lia).
  apply ber_mutind; intros; [apply ber_prim | apply ber_cons | apply ber_indef | apply ber_nil | apply ber_more]; auto; lia.
Qed.

(** * The reader of BER elements *)

Lemma ber_len_nonneg lo n : ber_len lo n -> 0 <= n /\ 1 <= len lo.
Proof.
  intros [[-> Hn] | (k & Hk & Hn & ->)]; [change (len [n]) with 1; lia |].
  rewrite len_cons. pose proof (len_nonneg (be_bytes k n)). lia.
Qed.

Lemma get_bytes_any n tag k bf ind c :
  (let! out := CBS_get_bytes n in p_ret (mk_element out tag k bf ind))%c c =
  if len c <? n then (None, c)
  else (Some (mk_element (take (Z.to_nat n) c) tag k bf ind), drop (Z.to_nat n) c).
Proof.
  unfold CBS_get_bytes, p_bind, cbs_get, p_ret, CBS_init. destruct (len c <? n); [done |].
  by rewrite take_take, Nat.min_id.
Qed.

(** The BER length at the front of [h]: the length, [None] if indefinite, and the number of
    its octets. *)
Definition ber_length (constructed : bool) (h : bytes) : option (option Z * Z) :=
  match h with
  | [] => None
  | lb :: h2 =>
      if lb <? 128 then Some (Some lb, 1)
      else let nb := lb - 128 in
           if constructed && (nb =? 0) then Some (None, 1)
           else if (nb =? 0) || (nb >? 4) || (len h2 <? nb) then None
           else Some (Some (be_value (take (Z.to_nat nb) h2)), 1 + nb)
  end.

Lemma ber_read_eq cbs :
  bytes_ok cbs ->
  match parse_asn1_tag false cbs with
  | (None, _) => CBS_get_any_ber_asn1_element cbs = (None, cbs)
  | (Some tag, h) =>
      match ber_length (is_constructed tag) h with
      | None => CBS_get_any_ber_asn1_element cbs = (None, cbs)
      | Some (n, k) =>
          let hl := len (der_tag tag) + k in
          let total := hl + default 0 n in
          if len cbs <? total then CBS_get_any_ber_asn1_element cbs = (None, cbs)
          else exists bf, CBS_get_any_ber_asn1_element cbs =
            (Some (mk_element (take (Z.to_nat total) cbs) tag hl bf (bool_decide (n = None))), drop (Z.to_nat total) cbs)
      end
  end.
Proof.
  intros Hb. unfold CBS_get_any_ber_asn1_element, cbs_get_any_asn1_element.
  destruct (parse_asn1_tag false cbs) as [[tag |] h] eqn:Etag; [| done].
  apply parse_asn1_tag_spec in Etag as [-> Hval]; [| done].
  pose proof Hb as [_ Hbh]%bytes_ok_app. pose proof (der_tag_len tag) as Htl.
  destruct h as [| lb h2]; [done |]. apply bytes_ok_cons in Hbh as [Hlb Hbh].
  cbn [CBS_get_u8 ber_length]. rewrite len_app, len_cons.
  replace (len (der_tag tag) + (1 + len h2) - len h2) with (len (der_tag tag) + 1) by lia.
  unfold byte_ok in Hlb. rewrite land_80 by done. destruct (Z.ltb_spec lb 128) as [Hs | Hl].
  { rewrite get_bytes_any, len_app, len_cons. cbv zeta. cbn [default from_option id].
    replace (lb + (len (der_tag tag) + 1)) with (len (der_tag tag) + 1 + lb) by lia.
    destruct (_ <? _); [done |]. by exists false. }
  rewrite land_7f. replace (lb mod 128) with (lb - 128) by (Z.div_mod_to_equations; lia).
  set (nb := lb - 128). cbv zeta. cbn [andb]. fold (is_constructed tag).
  destruct (is_constructed tag && (nb =? 0)) eqn:Ei.
  { rewrite get_bytes_any, len_app, len_cons. cbn [default from_option id]. rewrite Z.add_0_r. destruct (_ <? _); [done |]. by exists true. }
  destruct ((nb =? 0) || (nb >? 4)) eqn:E1; cbn [orb]; [done |].
  rewrite cbs_get_u_eq by (auto; lia). destruct (Z.ltb_spec (len h2) nb) as [| Hlen]; [done |].
  pose proof (be_value_bound (take (Z.to_nat nb) h2) ltac:(auto with bytes_db)) as Hv.
  rewrite len_take in Hv by lia. set (v := be_value _) in *.
  assert (256 ^ nb <= 256 ^ 4) by (apply Z.pow_le_mono_r; lia). change (256 ^ 4) with (2 ^ 32) in *.
  cbn [negb andb]. rewrite wrap_id by (unfold fits; lia). replace (v + (len (der_tag tag) + 1) + nb <? v) with false by lia.
  rewrite get_bytes_any, len_app, len_cons. cbn [default from_option id].
  replace (v + (len (der_tag tag) + 1) + nb) with (len (der_tag tag) + (1 + nb) + v) by lia.
  replace (len (der_tag tag) + 1 + nb) with (len (der_tag tag) + (1 + nb)) by lia.
  destruct (_ <? _); [done |]. eexists. done.
Qed.

Lemma ber_length_sound c h n k :
  bytes_ok h -> ber_length c h = Some (n, k) ->
  match n with
  | Some n => exists lo tl, h = lo ++ tl /\ len lo = k /\ ber_len lo n
  | None => c = true /\ k = 1 /\ exists tl, h = 128 :: tl
  end.
Proof.
  intros Hb. destruct h as [| lb h2]; [done |]. apply bytes_ok_cons in Hb as [Hlb Hb]. unfold byte_ok in Hlb. cbn [ber_length].
  destruct (Z.ltb_spec lb 128); [intros [= <- <-]; exists [lb], h2; split_and!; [done | done | left; split; [done | lia]] |].
  cbv zeta. set (nb := lb - 128). destruct (c && (nb =? 0)) eqn:Ec.
  { apply andb_prop in Ec as [-> ?%Z.eqb_eq]. intros [= <- <-]. split_and!; [done | done |]. exists h2. f_equal. lia. }
  destruct ((nb =? 0) || (nb >? 4) || (len h2 <? nb)) eqn:E; [done |]. intros [= <- <-].
  assert (1 <= nb <= 4 /\ nb <= len h2) as [Hnb Hlen] by lia.
  pose proof (be_value_bound (take (Z.to_nat nb) h2) ltac:(auto with bytes_db)) as Hv. rewrite len_take in Hv by lia.
  exists (lb :: take (Z.to_nat nb) h2), (drop (Z.to_nat nb) h2). split_and!.
  - cbn [app]. by rewrite take_drop.
  - rewrite len_cons, len_take by lia. lia.
  - right. exists (Z.to_nat nb). rewrite Z2Nat.id by lia. split_and!; [lia | lia | lia | lia |]. f_equal; [lia |].
    rewrite <- (be_bytes_value (take (Z.to_nat nb) h2)) at 1 by (auto with bytes_db). f_equal. rewrite length_take. unfold len in Hlen. lia.
Qed.

Lemma ber_length_complete c lo n tl : ber_len lo n -> ber_length c (lo ++ tl) = Some (Some n, len lo).
Proof.
  intros [[-> Hn] | (k & Hk & Hn & ->)]; cbn [app ber_length].
  - by rewrite (proj2 (Z.ltb_lt _ _)) by lia.
  - rewrite (proj2 (Z.ltb_ge _ _)) by lia. cbv zeta. replace (128 + Z.of_nat k - 128) with (Z.of_nat k) by lia.
    rewrite (proj2 (Z.eqb_neq _ _)), andb_false_r by lia. rewrite Z.gtb_ltb, (proj2 (Z.ltb_ge _ _)) by lia. cbn [orb].
    rewrite (proj2 (Z.ltb_ge _ _)) by (unfold len; rewrite length_app, length_be_bytes; lia).
    rewrite len_cons, Nat2Z.id. unfold len. rewrite length_be_bytes.
    rewrite take_app_length' by (by rewrite length_be_bytes). rewrite be_value_bytes, Z.mod_small by lia. done.
Qed.

Lemma skip_prefix hdr cs : CBS_skip (len hdr) (hdr ++ cs) = (Some tt, cs).
Proof.
  unfold CBS_skip, p_bind, cbs_get, p_ret. rewrite len_app. pose proof (len_nonneg cs). replace (_ <? _) with false by lia.
  unfold len. by rewrite Nat2Z.id, drop_app_length.
Qed.

(** What a successful read gives. *)
Definition element_read (e : asn1_element) (cbs rest : bytes) : Prop :=
  valid_tag (el_tag e) /\
  if el_indefinite e then is_constructed (el_tag e) = true /\ cbs = der_tag (el_tag e) ++ [128] ++ rest
  else exists lo cs, ber_len lo (len cs) /\ cbs = der_tag (el_tag e) ++ lo ++ cs ++ rest /\
         CBS_skip (el_header_len e) (el_out e) = (Some tt, cs).

Lemma ber_read_sound cbs e rest :
  bytes_ok cbs -> CBS_get_any_ber_asn1_element cbs = (Some e, rest) -> element_read e cbs rest.
Proof.
  intros Hb E. pose proof (ber_read_eq cbs Hb) as H. destruct (parse_asn1_tag false cbs) as [[tag |] h] eqn:Etag; [| congruence].
  apply parse_asn1_tag_spec in Etag as [Ec Hval]; [| done]. rewrite Ec in Hb. pose proof Hb as [_ Hbh]%bytes_ok_app.
  destruct (ber_length (is_constructed tag) h) as [[n k] |] eqn:El; [| congruence]. apply ber_length_sound in El; [| done]. cbv zeta in H.
  destruct (Z.ltb_spec (len cbs) (len (der_tag tag) + k + default 0 n)) as [| Hlen]; [congruence |].
  destruct H as (bf & H). rewrite H in E. injection E as <- <-. split; cbn [el_tag el_indefinite el_header_len el_out]; [done |].
  destruct n as [n |]; cbn [default from_option id] in *.
  - rewrite bool_decide_eq_false_2 by done. destruct El as (lo & tl & -> & <- & Hlo). pose proof (ber_len_nonneg lo n Hlo) as [Hn _].
    assert (Z.to_nat (len (der_tag tag) + len lo + n) = (length (der_tag tag ++ lo) + Z.to_nat n)%nat) as Hnat
      by (unfold len; rewrite length_app; lia).
    rewrite Ec, !len_app in Hlen. exists lo, (take (Z.to_nat n) tl). rewrite Ec, app_assoc, Hnat, take_app_add, drop_app_add by done.
    assert (len (take (Z.to_nat n) tl) = n) as Hct by (apply len_take; lia). rewrite Hct.
    split_and!; [done | by rewrite take_drop, app_assoc |]. rewrite <- len_app. apply skip_prefix.
  - rewrite bool_decide_eq_true_2 by done. destruct El as (Hc & -> & tl & ->). split; [done |]. rewrite Z.add_0_r, Ec.
    replace (Z.to_nat (len (der_tag tag) + 1)) with (length (der_tag tag ++ [128])) by (unfold len; rewrite length_app; cbn; lia).
    rewrite cons_middle, (app_assoc (der_tag tag)), drop_app_length, <- app_assoc. done.
Qed.

Lemma ber_read_complete tag lo cs rest :
  bytes_ok (der_tag tag ++ lo ++ cs ++ rest) -> valid_tag tag -> ber_len lo (len cs) ->
  exists e, CBS_get_any_ber_asn1_element (der_tag tag ++ lo ++ cs ++ rest) = (Some e, rest) /\ el_tag e = tag /\
    el_indefinite e = false /\ CBS_skip (el_header_len e) (el_out e) = (Some tt, cs).
Proof.
  intros Hb Hval Hlo. pose proof (ber_read_eq _ Hb) as H. rewrite (proj2 (parse_asn1_tag_spec _ tag _ Hb)) in H by done.
  rewrite (ber_length_complete _ lo (len cs)) in H by done. cbv zeta in H. cbn [default from_option id] in H. pose proof (ber_len_nonneg lo _ Hlo).
  pose proof (len_nonneg rest). rewrite (proj2 (Z.ltb_ge _ _)) in H by (rewrite !len_app; lia). destruct H as (bf & H).
  assert (Z.to_nat (len (der_tag tag) + len lo + len cs) = length (der_tag tag ++ lo ++ cs)) as Hnat by (unfold len; rewrite !length_app; lia).
  rewrite Hnat, !app_assoc, take_app_length, drop_app_length in H. rewrite <- !app_assoc in H.
  eexists. split; [exact H |]. cbn [el_tag el_indefinite el_header_len el_out]. split_and!; [done | by rewrite bool_decide_eq_false_2 |].
  rewrite app_assoc, <- len_app. apply skip_prefix.
Qed.

Lemma ber_read_indefinite tag rest :
  bytes_ok (der_tag tag ++ [128] ++ rest) -> valid_tag tag -> is_constructed tag = true ->
  exists e, CBS_get_any_ber_asn1_element (der_tag tag ++ [128] ++ rest) = (Some e, rest) /\ el_tag e = tag /\ el_indefinite e = true.
Proof.
  intros Hb Hval Hc. pose proof (ber_read_eq _ Hb) as H. rewrite (proj2 (parse_asn1_tag_spec _ tag _ Hb)) in H by done.
  rewrite Hc in H. cbn [app ber_length] in H. change (128 <? 128) with false in H. change (128 - 128 =? 0) with true in H. cbv zeta in H.
  cbn [andb default from_option id] in H. pose proof (len_nonneg rest). rewrite Z.add_0_r in H.
  rewrite (proj2 (Z.ltb_ge _ _)) in H by (rewrite len_app, len_cons; lia). destruct H as (bf & H).
  replace (Z.to_nat (len (der_tag tag) + 1)) with (length (der_tag tag ++ [128])) in H by (unfold len; rewrite length_app; cbn; lia).
  rewrite cons_middle, (app_assoc (der_tag tag)), take_app_length, drop_app_length, <- app_assoc in H.
  eexists. split; [exact H |]. by rewrite bool_decide_eq_true_2.
Qed.
Lemma bytes_ok_middle x y z : bytes_ok (x ++ y ++ z) -> bytes_ok y /\ bytes_ok z.
Proof. intros [_ H]%bytes_ok_app. by apply bytes_ok_app. Qed.

(** A read consumes input, and the contents are shorter than the element. *)
Lemma read_shorter e cbs rest :
  element_read e cbs rest -> bytes_ok cbs -> bytes_ok rest /\ (length rest < length cbs)%nat.
Proof.
  intros [_ H] Hb. pose proof (der_tag_len (el_tag e)) as Ht. unfold len in Ht. destruct (el_indefinite e).
  - destruct H as (_ & ->). rewrite !length_app. apply bytes_ok_middle in Hb as [_ Hb]. cbn [length]. split; [done | lia].
  - destruct H as (lo & cs & _ & -> & _). rewrite !length_app. apply bytes_ok_middle in Hb as [_ [_ Hb]%bytes_ok_app]. split; [done | lia].
Qed.

Lemma contents_shorter e cbs rest lo cs :
  cbs = der_tag (el_tag e) ++ lo ++ cs ++ rest -> bytes_ok cbs -> bytes_ok cs /\ (length cs < length cbs)%nat.
Proof.
  intros -> Hb. pose proof (der_tag_len (el_tag e)) as Ht. unfold len in Ht. rewrite !length_app.
  apply bytes_ok_middle in Hb as [_ [Hb _]%bytes_ok_app]. split; [done | lia].
Qed.

(** ** Looking for BER *)

Definition der_read (tag : Z) (cs : bytes) : asn1_element :=
  mk_element (der_element tag cs) tag (len (der_header tag cs)) false false.

Lemma read_der cbs e rest :
  bytes_ok cbs ->
  (CBS_get_any_ber_asn1_element cbs = (Some e, rest) /\ el_ber_found e = false) <->
  exists tag cs, cbs = der_element tag cs ++ rest /\ valid_tag tag /\ len cs < 2 ^ 32 /\ e = der_read tag cs.
Proof. intros Hb. rewrite <- (ber_element_der cbs e rest Hb). by apply get_any_element_spec. Qed.

Lemma der_element_length tag cs : (length cs < length (der_element tag cs))%nat.
Proof.
  unfold der_element, der_header. rewrite !length_app. pose proof (der_tag_len tag) as Ht. unfold len in Ht. lia.
Qed.

(** The first element of a DER sequence, and what follows. *)
Lemma der_elems_head maxd k cbs e rest tag cs :
  bytes_ok cbs -> cbs = der_element tag cs ++ rest -> valid_tag tag -> len cs < 2 ^ 32 ->
  e = der_read tag cs -> der_elems_to maxd k cbs ->
  (is_constructed tag = true -> is_string_type tag = false /\ k + 1 <= maxd /\ der_elems_to maxd (k + 1) cs) /\ der_elems_to maxd k rest.
Proof.
  intros Hb E Ht Hl _ Hd. destruct Hd as [k | k x xs Hx Hxs].
  { pose proof (der_element_length tag cs) as H. apply (f_equal length) in E. rewrite length_app in E. cbn [length] in E. lia. }
  destruct Hx as [k t c Hv Hc Hlc | k t c Hv Hc Hstr Hlc Hk Hsub];
    apply der_element_app_inj in E as (-> & -> & ->); try done; split; try done. intros Hc'. congruence.
Qed.

Lemma der_elems_read maxd k cbs :
  bytes_ok cbs -> cbs <> [] -> der_elems_to maxd k cbs ->
  exists tag cs rest, CBS_get_any_ber_asn1_element cbs = (Some (der_read tag cs), rest).
Proof.
  intros Hb Hne Hd. destruct Hd as [k | k x xs Hx Hxs]; [done |].
  assert (exists tag cs, x = der_element tag cs /\ valid_tag tag /\ len cs < 2 ^ 32) as (tag & cs & -> & Hv & Hl)
    by (destruct Hx; eauto).
  exists tag, cs, xs. by apply (read_der _ (der_read tag cs) xs Hb); eauto 10.
Qed.

Lemma find_loop_spec fuel depth inp :
  bytes_ok inp -> (length inp < fuel)%nat ->
  exists r, find_loop fuel depth inp = Some r /\ (r = Some false <-> der_elems depth inp).
Proof.
  revert depth inp. induction fuel as [| fuel IH]; intros depth inp Hb Hf; [lia |]. cbn [find_loop].
  destruct inp as [| b inp0] eqn:Einp; [exists (Some false); split; [done | split; [intros _; apply der_nil | done]] |]. rewrite <- Einp in *.
  rewrite Z.gtb_ltb, (proj2 (Z.ltb_lt 0 (len inp))) by (subst inp; rewrite len_cons; pose proof (len_nonneg inp0); lia).
  assert (inp <> []) as Hne by (by subst inp). clear Einp b inp0.
  destruct (CBS_get_any_ber_asn1_element inp) as [[e |] rest] eqn:Eread.
  2: { exists None. split; [done |]. split; [done |]. intros Hd.
       destruct (der_elems_read _ depth inp Hb Hne Hd) as (tag & cs & r & E). congruence. }
  pose proof (ber_read_sound inp e rest Hb Eread) as Hread. destruct (read_shorter e inp rest Hread Hb) as [Hbr Hlr].
  destruct (el_ber_found e) eqn:Hbf.
  { exists (Some true). split; [done |]. split; [done |]. intros Hd.
    destruct (der_elems_read _ depth inp Hb Hne Hd) as (tag & cs & r & E). rewrite Eread in E. by injection E as ->. }
  pose proof (proj1 (read_der inp e rest Hb) (conj Eread Hbf)) as (tag & cs & Ec & Hv & Hl & ->). cbn [el_tag el_header_len el_out der_read].
  pose proof (der_element_length tag cs) as Hlc. assert (length inp = length (der_element tag cs) + length rest)%nat as Hli by (rewrite Ec, length_app; done).
  assert (bytes_ok cs) as Hbc by (rewrite Ec in Hb; apply bytes_ok_app in Hb as [[_ Hb]%bytes_ok_app _]; done).
  assert (forall P : Prop, (P /\ der_elems depth rest -> der_elems depth inp) -> (der_elems depth inp -> P) ->
    exists r, match find_loop fuel depth rest with None => None | Some x => Some x end = Some r /\ (P -> (r = Some false <-> der_elems depth inp))) as Hnext.
  { intros P HP HP'. destruct (IH depth rest Hbr ltac:(lia)) as (r & -> & Hr). exists r. split; [done |]. intros Hp. rewrite Hr. split; [tauto |].
    intros Hd. by destruct (der_elems_head _ depth inp _ rest tag cs Hb Ec Hv Hl eq_refl Hd). }
  unfold der_element at 1. rewrite skip_prefix. destruct (is_constructed tag) eqn:Hcons.
  - destruct (is_string_type tag) eqn:Hstr.
    { exists (Some true). split; [done |]. split; [done |]. intros Hd.
      destruct (der_elems_head _ depth inp _ rest tag cs Hb Ec Hv Hl eq_refl Hd) as [H _]. destruct (H Hcons) as [? _]. congruence. }
    assert (forall Hd : der_elems depth inp, depth + 1 <= kMaxDepth /\ der_elems (depth + 1) cs) as Hsub.
    { intros Hd. destruct (der_elems_head _ depth inp _ rest tag cs Hb Ec Hv Hl eq_refl Hd) as [H _]. by destruct (H Hcons). }
    rewrite Z.gtb_ltb. destruct (Z.ltb_spec kMaxDepth (depth + 1)) as [Hdeep | Hdeep].
    { exists None. split; [done |]. split; [done |]. intros Hd. destruct (Hsub Hd). lia. }
    destruct (IH (depth + 1) cs Hbc ltac:(lia)) as (r & -> & Hr). destruct r as [[] |].
    { exists (Some true). split; [done |]. split; [done |]. intros Hd. destruct (Hsub Hd) as [_ H]. by apply Hr in H. }
    2: { exists None. split; [done |]. split; [done |]. intros Hd. destruct (Hsub Hd) as [_ H]. by apply Hr in H. }
    destruct (Hnext (der_elems (depth + 1) cs)) as (r & E & Hr2).
    { intros [H1 H2]. rewrite Ec. apply der_more; [by apply der_cons | done]. }
    { intros Hd. by destruct (Hsub Hd). }
    exists r. destruct (find_loop fuel depth rest); [| done]. split; [done |]. apply Hr2. by apply Hr.
  - destruct (Hnext True) as (r & E & Hr2).
    { intros [_ H2]. rewrite Ec. apply der_more; [by apply der_prim | done]. }
    { done. }
    exists r. destruct (find_loop fuel depth rest); [| done]. split; [done |]. by apply Hr2.
Qed.

(** What is reported as BER is not DER, however deep. *)
Lemma find_true maxd fuel k inp : bytes_ok inp -> find_loop fuel k inp = Some (Some true) -> ~ der_elems_to maxd k inp.
Proof.
  revert k inp. induction fuel as [| fuel IH]; intros k inp Hb; [done |]. cbn [find_loop]. intros E Hd.
  destruct (decide (inp = [])) as [-> | Hne]; [done |]. destruct (len inp >? 0); [| done].
  destruct (der_elems_read maxd k inp Hb Hne Hd) as (tag0 & cs0 & rest & Er).
  destruct (proj1 (read_der inp _ rest Hb) (conj Er eq_refl)) as (tag & cs & Ec & Hv & Hl & He). rewrite Er, He in E. clear Er He tag0 cs0.
  cbn [der_read el_ber_found el_tag el_header_len el_out] in E.
  destruct (der_elems_head maxd k inp _ rest tag cs Hb Ec Hv Hl eq_refl Hd) as [Hsub Hrest]. rewrite Ec in Hb. apply bytes_ok_app in Hb as [Hbc Hbr].
  unfold der_element at 1 in E. rewrite skip_prefix in E. destruct (is_constructed tag); [| by eapply (IH k rest)].
  destruct (Hsub eq_refl) as (Hs & _ & Hcs). rewrite Hs in E. destruct (_ >? kMaxDepth); [done |]. apply bytes_ok_app in Hbc as [_ Hbc].
  destruct (find_loop fuel (k + 1) cs) as [[[] |] |] eqn:Ef; try done; [by eapply (IH (k + 1) cs) | by eapply (IH k rest)].
Qed.

(** ** Conversion *)

Lemma der_tag_head tag : valid_tag tag -> exists b r, der_tag tag = b :: r /\ b <> 0.
Proof.
  intros [Hf Hv]. unfold der_tag. eexists _, _. split; [done |]. cbv zeta. intros E. apply Hv. unfold fits in Hf.
  pose proof (Z.mod_pos_bound tag (2 ^ 29) ltac:(lia)). pose proof (Z.div_mod tag (2 ^ 29) ltac:(lia)).
  assert (0 <= tag / 2 ^ 29) by (apply Z.div_pos; lia). destruct (Z.ltb_spec (tag mod 2 ^ 29) 31); [| lia].
  assert (tag = 0) as -> by lia. done.
Qed.

Lemma no_eoc tag tail : valid_tag tag -> cbs_get_eoc (der_tag tag ++ tail) = None.
Proof. intros Hv. destruct (der_tag_head tag Hv) as (b & r & -> & Hb). cbn [app cbs_get_eoc]. by destruct b. Qed.

Lemma cbs_get_eoc_some inp rest : cbs_get_eoc inp = Some rest -> inp = [0; 0] ++ rest.
Proof.
  unfold cbs_get_eoc. intros H. destruct inp as [| [] inp]; try done. destruct inp as [| [] inp]; try done. by injection H as ->.
Qed.

(** The output is at most 17 times as long as the input. *)
Lemma ber_out_bound :
  (forall st k x out, ber_elem st k x out -> len out <= 17 * (len x - 1)) /\
  (forall st k x out, ber_elems st k x out -> len out <= 17 * len x).
Proof.
  assert (forall st tag out, len (converted st tag out) <= 17 + len out) as Hconv.
  { intros st tag out. unfold converted. destruct (negb (st =? 0)); [lia |]. unfold der_element, der_header. rewrite !len_app.
    set (t := if is_constructed tag && is_string_type tag then primitive_tag tag else tag).
    pose proof (der_tag_len t). pose proof (der_len_bound (len out)). lia. }
  apply ber_mutind; intros; rewrite ?len_app in *.
  all: try (match goal with |- len (converted ?s ?t ?o) <= _ => specialize (Hconv s t o); pose proof (der_tag_len t); pose proof (len_nonneg o) end).
  all: repeat match goal with H : ber_len _ _ |- _ => apply ber_len_nonneg in H end.
  all: try change (len [128]) with 1; try change (len [0; 0]) with 2; try change (len []) with 0; lia.
Qed.

Lemma primitive_tag_fits tag : fits 32 tag -> fits 32 (primitive_tag tag).
Proof. intros H. unfold primitive_tag. apply fits_land; [lia | done |]. by apply wnot_fits. Qed.

(** A walk that returns, with a suffix no longer than [n]. *)
Definition returns (n : nat) (w : walk) : Prop :=
  exists ok rest st, w = Some (ok, rest, st) /\ bytes_ok rest /\ (length rest <= n)%nat.

Lemma returns_now n ok rest st : bytes_ok rest -> (length rest <= n)%nat -> returns n (Some (ok, rest, st)).
Proof. intros. by exists ok, rest, st. Qed.

Lemma contents_return realloc_ok call flush e inp rest d' stg st :
  element_read e inp rest -> bytes_ok inp ->
  (forall d' stg' eoc inp' st, bytes_ok inp' -> (length inp' < length inp)%nat -> returns (length inp') (call d' stg' eoc inp' st)) ->
  (forall inp' st, bytes_ok inp' -> (length inp' < length inp)%nat -> returns (length inp) (flush inp' st)) ->
  returns (length inp) (convert_contents realloc_ok call flush e rest d' stg st).
Proof.
  intros Hread Hb Hcall Hflush. destruct (read_shorter e inp rest Hread Hb) as [Hbr Hlr]. unfold convert_contents.
  destruct Hread as [_ Hread]. destruct (el_indefinite e).
  - destruct (Hcall d' stg true rest st Hbr Hlr) as (ok & r & s & -> & Hr & Hl). destruct ok; [apply Hflush | apply returns_now]; (done || lia).
  - destruct Hread as (lo & cs & _ & Ec & ->). destruct (contents_shorter e inp rest lo cs Ec Hb) as [Hbc Hlc].
    destruct (is_constructed (el_tag e)).
    + destruct (Hcall d' stg false cs st Hbc Hlc) as (ok & r & s & -> & _ & _). destruct ok; [apply Hflush | apply returns_now]; (done || lia).
    + destruct (CBB_add_bytes realloc_ok d' cs st) as [[] s]; [apply Hflush | apply returns_now]; (done || lia).
Qed.

Lemma read_failed_same inp rest : bytes_ok inp -> CBS_get_any_ber_asn1_element inp = (None, rest) -> rest = inp.
Proof.
  intros Hb E. pose proof (ber_read_eq inp Hb) as Heq. repeat case_match; try congruence.
  cbv zeta in Heq. destruct (_ <? _); [congruence |]. destruct Heq as [? Heq]. congruence.
Qed.

(** With more fuel than there are bytes the conversion returns, whatever the allocator does. *)
Lemma convert_total realloc_ok fuel d stg eoc depth inp st :
  bytes_ok inp -> (length inp < fuel)%nat -> returns (length inp) (convert_loop realloc_ok fuel d stg eoc depth inp st).
Proof.
  revert d stg eoc depth inp st. induction fuel as [| fuel IH]; intros d stg eoc depth inp st Hb Hf; [lia |]. cbn [convert_loop].
  destruct (len inp >? 0); [| by apply returns_now].
  destruct (if eoc then cbs_get_eoc inp else None) as [rest |] eqn:Ee.
  { destruct eoc; [| done]. apply cbs_get_eoc_some in Ee as ->. apply bytes_ok_app in Hb as [_ Hb].
    apply returns_now; [done |]. rewrite length_app. lia. }
  destruct (CBS_get_any_ber_asn1_element inp) as [[e |] rest] eqn:Eread.
  2: { rewrite (read_failed_same inp rest Hb Eread). by apply returns_now. }
  pose proof (ber_read_sound inp e rest Hb Eread) as Hread. destruct (read_shorter e inp rest Hread Hb) as [Hbr Hlr].
  cbv zeta. match goal with |- context [convert_contents _ ?c ?f] => set (call := c); set (flush := f) end.
  assert (forall d' stg' st', returns (length inp) (convert_contents realloc_ok call flush e rest d' stg' st')) as Hcontents.
  { intros d' stg' st'. apply contents_return; [done | done | |].
    - intros d0 stg0 eoc0 inp0 st0 Hb0 Hl0. unfold call. destruct (_ >? _); [by apply returns_now |]. apply IH; [done | lia].
    - intros inp0 st0 Hb0 Hl0. unfold flush. destruct (CBB_flush realloc_ok d st0) as [[] st1]; [| apply returns_now; [done | lia]].
      destruct (IH d stg eoc depth inp0 st1 Hb0 ltac:(lia)) as (ok & r & s & -> & Hr & Hlen). apply returns_now; [done | lia]. }
  destruct (negb (stg =? 0)).
  - destruct (negb _); [apply returns_now; [done | lia] | apply Hcontents].
  - destruct (CBB_add_asn1 _ _ _ _) as [[] s]; [apply Hcontents | apply returns_now; [done | lia]].
Qed.

Section Refine.
Context (realloc_ok : Z -> bool) (Hrealloc : forall n, realloc_ok n = true).

Definition grown (a : builder) (x : bytes) : builder := a_append (fst a) (snd a) x.

Lemma size_grown a x : size (grown a x) = size a + len x.
Proof. apply a_append_size. Qed.

Lemma depth_grown a x : length (snd (grown a x)) = length (snd a).
Proof. apply a_append_depth. Qed.

Lemma grown_grown a x y : grown (grown a x) y = grown a (x ++ y).
Proof. apply a_append_app. Qed.

(** The tag of the output element. *)
Definition out_tag (tag : Z) : Z := if is_constructed tag && is_string_type tag then primitive_tag tag else tag.

(** Where the contents of an element of tag [tag] go: the position of the CBB and the state
    of the builder once the header is written. *)
Definition opened (stg tag : Z) (a : builder) : builder :=
  if negb (stg =? 0) then a else a_open (grown a (der_tag (out_tag tag))) Asn1.

Definition inside (stg : Z) (d : nat) : nat := if negb (stg =? 0) then d else S d.

Lemma depth_opened stg tag a d : length (snd a) = d -> length (snd (opened stg tag a)) = inside stg d.
Proof.
  intros Hd. unfold opened, inside. destruct (negb (stg =? 0)); [done |]. unfold a_open. cbn [snd]. rewrite length_app, depth_grown. cbn. lia.
Qed.

Lemma out_tag_fits tag : valid_tag tag -> fits 32 (out_tag tag).
Proof. intros [H _]. unfold out_tag. destruct (_ && _); [by apply primitive_tag_fits | done]. Qed.

Lemma open_element tag a d st :
  valid_tag tag -> repr st a -> length (snd a) = d -> size a + 17 < 2 ^ 64 ->
  exists st1, CBB_add_asn1 realloc_ok d (out_tag tag) st = (true, st1) /\ repr st1 (opened 0 tag a) /\ size (opened 0 tag a) <= size a + 17.
Proof.
  intros Hv Hr Hd Hs. destruct (add_asn1_implements realloc_ok Hrealloc d (out_tag tag) (out_tag_fits tag Hv) st a Hr Hs) as (st1 & E & H).
  unfold a_child, a_add in E, H. rewrite a_flush_id in E, H by done. cbn [mbind option_bind] in E, H. by exists st1.
Qed.

(** Flushing closes the element. *)
Lemma close_element stg tag a d st2 out :
  repr st2 (grown (opened stg tag a) out) -> length (snd a) = d -> size (grown (opened stg tag a) out) < 2 ^ 64 ->
  exists st3, CBB_flush realloc_ok d st2 = (bool_decide (fits_len stg out), st3) /\
    (fits_len stg out -> repr st3 (grown a (converted stg tag out))).
Proof.
  intros Hr Hd Hs. destruct (flush_implements realloc_ok Hrealloc d st2 _ Hr) as (st3 & E & H); [lia |]. exists st3. rewrite E. clear E.
  unfold opened, converted, fits_len_to in *. destruct (Z.eqb_spec stg 0) as [E0 | E0]; cbn [negb] in *.
  - assert (a_flush d (grown (a_open (grown a (der_tag (out_tag tag))) Asn1) out) =
      if len out <=? 0xfffffffe then Some (grown a (der_element (out_tag tag) out)) else None) as Ef.
    { unfold a_open, grown at 1. cbn [fst snd]. rewrite a_flush_open by (rewrite depth_grown; done). unfold prefix.
      destruct (_ <=? _); [| done]. cbn [mbind option_bind]. f_equal. fold (grown (grown a (der_tag (out_tag tag))) (der_len (len out) ++ out)).
      rewrite grown_grown. unfold der_element, der_header. by rewrite <- app_assoc. }
    rewrite Ef in H |- *. destruct (Z.leb_spec (len out) 0xfffffffe).
    + rewrite !bool_decide_eq_true_2 by (done || eauto). split; [done |]. intros _. by destruct H.
    + rewrite !bool_decide_eq_false_2; [split; [done | intros Hx; specialize (Hx E0); lia] | intros Hx; specialize (Hx E0); lia | by intros [? ?]].
  - rewrite a_flush_id in H |- * by (by rewrite depth_grown). rewrite !bool_decide_eq_true_2 by (done || eauto). split; [done |]. intros _. by destruct H.
Qed.

Lemma grown_nil a : grown a [] = a.
Proof.
  destruct a as [b fs]. unfold grown. cbn [fst snd]. revert b. induction fs as [| [k bs] fs IH]; intros b; cbn [a_append].
  - by rewrite app_nil_r.
  - by rewrite IH.
Qed.

Definition call_at (fuel : nat) (depth : Z) (d' : nat) (tag : Z) (eoc : bool) (inp : CBS) (st : CBB) : walk :=
  if depth + 1 >? kMaxDepth then Some (false, inp, st)
  else convert_loop realloc_ok fuel d' tag eoc (depth + 1) inp st.

Definition flush_at (fuel d : nat) (stg : Z) (eoc : bool) (depth : Z) (inp : CBS) (st : CBB) : walk :=
  match CBB_flush realloc_ok d st with
  | (false, st) => Some (false, inp, st)
  | (true, st) => convert_loop realloc_ok fuel d stg eoc depth inp st
  end.

Lemma nonempty_gt (x : bytes) : x <> [] -> (len x >? 0) = true.
Proof. destruct x as [| b x]; [done |]. intros _. rewrite len_cons. pose proof (len_nonneg x). lia. Qed.

(** A round: the element is refused in a string of another type, and its header is written
    otherwise. *)
Lemma convert_step fuel d stg (eoc : bool) depth (inp : bytes) st a e rest :
  inp <> [] -> (if eoc then cbs_get_eoc inp else None) = None ->
  CBS_get_any_ber_asn1_element inp = (Some e, rest) -> valid_tag (el_tag e) ->
  repr st a -> length (snd a) = d -> size a + 17 < 2 ^ 64 ->
  ~ fragment_ok stg (el_tag e) /\ convert_loop realloc_ok (S fuel) d stg eoc depth inp st = Some (false, rest, st) \/
  fragment_ok stg (el_tag e) /\ exists st1, repr st1 (opened stg (el_tag e) a) /\
    convert_loop realloc_ok (S fuel) d stg eoc depth inp st =
    convert_contents realloc_ok (call_at fuel depth) (flush_at fuel d stg eoc depth) e rest (inside stg d) (child_tag stg (el_tag e)) st1.
Proof.
  intros Hne Heoc Eread Hv Hr Hd Hs. cbn [convert_loop]. rewrite (nonempty_gt inp Hne), Heoc, Eread. cbv zeta.
  unfold inside, child_tag, fragment_ok, opened. destruct (Z.eqb_spec stg 0) as [-> | Hstg]; cbn [negb].
  - right. split; [by left |]. destruct (open_element (el_tag e) a d st Hv Hr Hd Hs) as (st1 & E & Hr1 & _). unfold out_tag in E. rewrite E.
    exists st1. split; [exact Hr1 |]. by destruct (_ && _).
  - destruct (Z.eqb_spec (primitive_tag (el_tag e)) stg); cbn [negb]; [right | left; split; [tauto | done]]. split; [by right |]. by exists st.
Qed.

Lemma size_opened stg tag a d st :
  valid_tag tag -> repr st a -> length (snd a) = d -> size a + 17 < 2 ^ 64 -> size (opened stg tag a) <= size a + 17.
Proof.
  intros Hv Hr Hd Hs. unfold opened at 1. destruct (Z.eqb_spec stg 0); cbn [negb]; [| lia].
  by destruct (open_element tag a d st Hv Hr Hd Hs) as (st1 & _ & _ & ?).
Qed.

(** Primitive contents. *)
Lemma add_contents a d st x :
  repr st a -> length (snd a) = d -> size a + len x < 2 ^ 64 ->
  exists st1, CBB_add_bytes realloc_ok d x st = (true, st1) /\ repr st1 (grown a x).
Proof.
  intros Hr Hd Hs. destruct (add_space_adds realloc_ok Hrealloc d x st a Hr Hs) as (st1 & E & H). unfold a_add in E, H.
  rewrite a_flush_id in E, H by done. cbn [mbind option_bind] in E, H. exists st1. by destruct H.
Qed.

Lemma flush_closes fuel d stg eoc depth tag inp st2 a out :
  repr st2 (grown (opened stg tag a) out) -> length (snd a) = d -> size (opened stg tag a) + len out < 2 ^ 64 ->
  exists st3, (fits_len stg out -> repr st3 (grown a (converted stg tag out))) /\
    flush_at fuel d stg eoc depth inp st2 =
    if bool_decide (fits_len stg out) then convert_loop realloc_ok fuel d stg eoc depth inp st3 else Some (false, inp, st3).
Proof.
  intros Hr Hd Hs. destruct (close_element stg tag a d st2 out Hr Hd) as (st3 & E & H); [rewrite size_grown; lia |].
  exists st3. split; [done |]. unfold flush_at. rewrite E. by destruct (bool_decide _).
Qed.

(** What a successful conversion of [inp] did. *)
Definition convert_post (stg : Z) (eoc : bool) (depth : Z) (a : builder) (inp rest : bytes) (st' : CBB) : Prop :=
  exists x out : bytes, inp = x ++ (if eoc then [0; 0] else []) ++ rest /\ (eoc = false -> rest = []) /\
    ber_elems stg depth x out /\ repr st' (grown a out).

(** The contents are converted: the element is closed, and the rounds that follow are those
    of the rest. *)
Lemma round_sound fuel d stg eoc depth tag x mid rest st2 st' a out :
  (forall a' st, repr st a' -> length (snd a') = d -> size a' + 17 * len mid < 2 ^ 64 ->
     convert_loop realloc_ok fuel d stg eoc depth mid st = Some (true, rest, st') -> convert_post stg eoc depth a' mid rest st') ->
  repr st2 (grown (opened stg tag a) out) -> length (snd a) = d -> size (opened stg tag a) + len out < 2 ^ 64 ->
  size a + 17 * len (x ++ mid) < 2 ^ 64 ->
  (fits_len stg out -> ber_elem stg depth x (converted stg tag out)) ->
  flush_at fuel d stg eoc depth mid st2 = Some (true, rest, st') -> convert_post stg eoc depth a (x ++ mid) rest st'.
Proof.
  intros IH Hr Hd Hs Hsa Helem E. destruct (flush_closes fuel d stg eoc depth tag mid st2 a out Hr Hd Hs) as (st3 & Hr3 & Ef).
  rewrite Ef in E. case_bool_decide as Hfit; [| done]. specialize (Helem Hfit). rewrite len_app in Hsa.
  pose proof (proj1 ber_out_bound _ _ _ _ Helem). destruct (IH _ st3 (Hr3 Hfit)) as (xs & outs & -> & Hrest & Helems & Hr').
  { by rewrite depth_grown. } { rewrite size_grown. lia. } { done. }
  exists (x ++ xs), (converted stg tag out ++ outs). split_and!; [by rewrite <- app_assoc | done | by apply ber_more |].
  by rewrite <- grown_grown.
Qed.

(** The bytes of an element, at least two more than its contents. *)
Lemma header_len tag lo n : ber_len lo n -> 2 <= len (der_tag tag ++ lo).
Proof. intros [_ H]%ber_len_nonneg. rewrite len_app. pose proof (der_tag_len tag). lia. Qed.

Lemma contents_sound fuel d stg eoc depth inp e mid st1 st' a rest :
  (forall d stg eoc depth inp st a rest st', repr st a -> length (snd a) = d -> bytes_ok inp -> size a + 17 * len inp < 2 ^ 64 ->
     convert_loop realloc_ok fuel d stg eoc depth inp st = Some (true, rest, st') -> convert_post stg eoc depth a inp rest st') ->
  element_read e inp mid -> fragment_ok stg (el_tag e) ->
  repr st1 (opened stg (el_tag e) a) -> length (snd a) = d -> bytes_ok inp -> size a + 17 * len inp < 2 ^ 64 ->
  size (opened stg (el_tag e) a) <= size a + 17 ->
  convert_contents realloc_ok (call_at fuel depth) (flush_at fuel d stg eoc depth) e mid (inside stg d) (child_tag stg (el_tag e)) st1
    = Some (true, rest, st') ->
  convert_post stg eoc depth a inp rest st'.
Proof.
  intros IH [Hv Hread] Hfrag Hr1 Hd Hb Hs Hso E. unfold convert_contents, call_at in E.
  pose proof (depth_opened stg (el_tag e) a d Hd) as Hdo. pose proof (der_tag_len (el_tag e)) as Htl.
  destruct (el_indefinite e).
  - destruct Hread as (Hcons & ->). rewrite !len_app in Hs. change (len [128]) with 1 in Hs. pose proof (len_nonneg mid).
    rewrite Z.gtb_ltb in E. destruct (Z.ltb_spec kMaxDepth (depth + 1)); [done |].
    destruct (convert_loop realloc_ok fuel _ _ true _ _ _) as [[[[] r] st2] |] eqn:El; try done.
    apply bytes_ok_middle in Hb as [_ Hb]. apply (IH _ _ _ _ _ _ _ _ _ Hr1 Hdo Hb ltac:(lia)) in El as (x & out & -> & _ & Helems & Hr2).
    pose proof (proj2 ber_out_bound _ _ _ _ Helems). rewrite !len_app in Hs. change (len [0; 0]) with 2 in Hs. pose proof (len_nonneg r).
    apply bytes_ok_middle in Hb as [_ Hb].
    replace (der_tag (el_tag e) ++ [128] ++ x ++ [0; 0] ++ r) with ((der_tag (el_tag e) ++ [128] ++ x ++ [0; 0]) ++ r) by (by rewrite <- !app_assoc).
    eapply round_sound; [| done | done | lia | | | done].
    + intros a' st Ha' Hd' Hs' El'. by eapply IH.
    + rewrite !len_app. change (len [0; 0]) with 2. change (len [128]) with 1. lia.
    + intros Hfit. by apply ber_indef.
  - destruct Hread as (lo & cs & Hlo & -> & Hskip). rewrite Hskip in E. pose proof (header_len (el_tag e) lo _ Hlo) as Hh. rewrite len_app in Hh.
    pose proof (len_nonneg mid). pose proof (len_nonneg cs). rewrite !len_app in Hs. apply bytes_ok_middle in Hb as [_ [Hbc Hbm]%bytes_ok_app].
    assert (forall out st2, repr st2 (grown (opened stg (el_tag e) a) out) -> len out <= 17 * len cs ->
      (fits_len stg out -> ber_elem stg depth (der_tag (el_tag e) ++ lo ++ cs) (converted stg (el_tag e) out)) ->
      flush_at fuel d stg eoc depth mid st2 = Some (true, rest, st') ->
      convert_post stg eoc depth a (der_tag (el_tag e) ++ lo ++ cs ++ mid) rest st') as Hround.
    { intros out st2 Hr2 Hlen Helem Ef. replace (der_tag (el_tag e) ++ lo ++ cs ++ mid) with ((der_tag (el_tag e) ++ lo ++ cs) ++ mid) by (by rewrite <- !app_assoc).
      eapply round_sound; [| done | done | lia | rewrite !len_app; lia | done | done]. intros a' st Ha' Hd' Hs' El'. by eapply IH. }
    destruct (is_constructed (el_tag e)) eqn:Hcons.
    + rewrite Z.gtb_ltb in E. destruct (Z.ltb_spec kMaxDepth (depth + 1)); [done |].
      destruct (convert_loop realloc_ok fuel _ _ false _ _ _) as [[[[] r] st2] |] eqn:El; try done.
      apply (IH _ _ _ _ _ _ _ _ _ Hr1 Hdo Hbc ltac:(lia)) in El as (x & out & Ecs & Hnil & Helems & Hr2). rewrite (Hnil eq_refl), !app_nil_r in Ecs. subst x.
      pose proof (proj2 ber_out_bound _ _ _ _ Helems). apply (Hround out st2); [done | done | | done]. intros Hfit. by apply ber_cons.
    + destruct (add_contents _ _ st1 cs Hr1 Hdo ltac:(lia)) as (st2 & Eadd & Hr2). rewrite Eadd in E.
      apply (Hround cs st2); [done | lia | | done]. intros Hfit. by apply ber_prim.
Qed.

Lemma convert_sound fuel d stg eoc depth inp st a rest st' :
  repr st a -> length (snd a) = d -> bytes_ok inp -> size a + 17 * len inp < 2 ^ 64 ->
  convert_loop realloc_ok fuel d stg eoc depth inp st = Some (true, rest, st') -> convert_post stg eoc depth a inp rest st'.
Proof.
  revert d stg eoc depth inp st a rest st'. induction fuel as [| fuel IH]; intros d stg eoc depth inp st a rest st' Hr Hd Hb Hs E; [done |].
  assert (repr st (grown a [])) as Hr0 by (by rewrite grown_nil). destruct (decide (inp = [])) as [-> | Hne].
  { destruct eoc; [done |]. cbn in E. injection E as <- <-. exists [], []. split_and!; [done | done | apply ber_nil | done]. }
  destruct (if eoc then cbs_get_eoc inp else None) as [r |] eqn:Ee.
  { destruct eoc; [| done]. cbn [convert_loop] in E. rewrite (nonempty_gt inp Hne), Ee in E. injection E as <- <-. apply cbs_get_eoc_some in Ee as ->.
    exists [], []. split_and!; [done | done | apply ber_nil | done]. }
  destruct (CBS_get_any_ber_asn1_element inp) as [[e |] mid] eqn:Eread.
  2: { cbn [convert_loop] in E. by rewrite (nonempty_gt inp Hne), Ee, Eread in E. }
  pose proof (ber_read_sound inp e mid Hb Eread) as Hread.
  assert (0 < len inp) as Hpos by (pose proof (nonempty_gt inp Hne); lia).
  destruct (convert_step fuel d stg eoc depth inp st a e mid Hne Ee Eread (proj1 Hread) Hr Hd ltac:(lia)) as [[_ Estep] | (Hfrag & st1 & Hr1 & Estep)];
    rewrite Estep in E; [done |].
  eapply contents_sound; [exact IH | exact Hread | done | exact Hr1 | done | done | done | | exact E].
  eapply (size_opened stg (el_tag e) a d st); [apply Hread | done | done | lia].
Qed.

(** An element is one round; a sequence is the whole loop. *)
Definition elem_converts (stg k : Z) (x out : bytes) : Prop :=
  forall fuel d eoc tail st a,
    repr st a -> length (snd a) = d -> bytes_ok (x ++ tail) -> size a + 17 * len x < 2 ^ 64 -> (length x <= fuel)%nat ->
    exists st1, repr st1 (grown a out) /\
      convert_loop realloc_ok (S fuel) d stg eoc k (x ++ tail) st = convert_loop realloc_ok fuel d stg eoc k tail st1.

Definition elems_convert (stg k : Z) (x out : bytes) : Prop :=
  forall fuel d (eoc : bool) tail st a,
    repr st a -> length (snd a) = d -> bytes_ok (x ++ tail) -> size a + 17 * len x < 2 ^ 64 -> (length x < fuel)%nat ->
    exists st1, repr st1 (grown a out) /\
      convert_loop realloc_ok fuel d stg eoc k (x ++ if eoc then [0; 0] ++ tail else []) st =
      Some (true, if eoc then tail else [], st1).

(** The round of an element, given what its contents do. *)
Lemma round_complete fuel d stg (eoc : bool) k tag y e mid tail st a out :
  CBS_get_any_ber_asn1_element ((der_tag tag ++ y) ++ tail) = (Some e, mid) -> el_tag e = tag ->
  valid_tag tag -> fragment_ok stg tag -> fits_len stg out ->
  repr st a -> length (snd a) = d -> size a + 17 + len out < 2 ^ 64 ->
  (forall st1, repr st1 (opened stg tag a) -> length (snd (opened stg tag a)) = inside stg d -> size (opened stg tag a) <= size a + 17 ->
    exists st2, repr st2 (grown (opened stg tag a) out) /\
      convert_contents realloc_ok (call_at fuel k) (flush_at fuel d stg eoc k) e mid (inside stg d) (child_tag stg tag) st1
        = flush_at fuel d stg eoc k tail st2) ->
  exists st1, repr st1 (grown a (converted stg tag out)) /\
    convert_loop realloc_ok (S fuel) d stg eoc k ((der_tag tag ++ y) ++ tail) st = convert_loop realloc_ok fuel d stg eoc k tail st1.
Proof.
  intros Eread <- Hv Hfrag Hfit Hr Hd Hs Hcs. pose proof (len_nonneg out) as Hlen.
  assert (size a + 17 < 2 ^ 64) as Hs17 by lia. pose proof (size_opened stg (el_tag e) a d st Hv Hr Hd Hs17) as Hso.
  assert ((if eoc then cbs_get_eoc ((der_tag (el_tag e) ++ y) ++ tail) else None) = None) as Heoc.
  { destruct eoc; [| done]. rewrite <- app_assoc. by apply no_eoc. }
  assert ((der_tag (el_tag e) ++ y) ++ tail <> []) as Hne.
  { by destruct (der_tag_head (el_tag e) Hv) as (b & r & -> & _). }
  destruct (convert_step fuel d stg eoc k _ st a e mid Hne Heoc Eread Hv Hr Hd Hs17) as [[? _] | (_ & st1 & Hr1 & Estep)]; [done |].
  destruct (Hcs st1 Hr1 (depth_opened stg (el_tag e) a d Hd) Hso) as (st2 & Hr2 & Ec).
  destruct (flush_closes fuel d stg eoc k (el_tag e) tail st2 a out Hr2 Hd) as (st3 & Hr3 & Ef); [lia |].
  exists st3. split; [by apply Hr3 |]. rewrite Estep, Ec, Ef. by rewrite bool_decide_eq_true_2.
Qed.

Lemma prim_converts stg k tag lo cs :
  valid_tag tag -> is_constructed tag = false -> fragment_ok stg tag -> ber_len lo (len cs) -> fits_len stg cs ->
  elem_converts stg k (der_tag tag ++ lo ++ cs) (converted stg tag cs).
Proof.
  intros Hv Hc Hfrag Hlo Hfit fuel d eoc tail st a Hr Hd Hb Hs Hf. rewrite <- !app_assoc in Hb.
  destruct (ber_read_complete tag lo cs tail Hb Hv Hlo) as (e & Eread & Et & Ei & Eskip).
  pose proof (header_len tag lo _ Hlo) as Hh. rewrite !len_app in Hs. rewrite len_app in Hh. pose proof (len_nonneg cs).
  eapply (round_complete fuel d stg eoc k tag (lo ++ cs) e tail tail st a cs); try done; [by rewrite <- !app_assoc | lia |].
  intros st1 Hr1 Hd1 Hs1. destruct (add_contents _ _ st1 cs Hr1 Hd1 ltac:(lia)) as (st2 & Ea & Hr2). exists st2. split; [done |].
  unfold convert_contents. by rewrite Ei, Eskip, Et, Hc, Ea.
Qed.

Lemma call_at_ok fuel k d stg eoc inp st : k + 1 <= kMaxDepth ->
  call_at fuel k d stg eoc inp st = convert_loop realloc_ok fuel d stg eoc (k + 1) inp st.
Proof. intros Hk. unfold call_at. rewrite Z.gtb_ltb. by rewrite (proj2 (Z.ltb_ge _ _)). Qed.

Lemma cons_converts stg k tag lo cs out :
  valid_tag tag -> is_constructed tag = true -> fragment_ok stg tag -> ber_len lo (len cs) -> k + 1 <= kMaxDepth ->
  ber_elems (child_tag stg tag) (k + 1) cs out -> elems_convert (child_tag stg tag) (k + 1) cs out -> fits_len stg out ->
  elem_converts stg k (der_tag tag ++ lo ++ cs) (converted stg tag out).
Proof.
  intros Hv Hc Hfrag Hlo Hk Helems IH Hfit fuel d eoc tail st a Hr Hd Hb Hs Hf. rewrite <- !app_assoc in Hb.
  destruct (ber_read_complete tag lo cs tail Hb Hv Hlo) as (e & Eread & Et & Ei & Eskip).
  pose proof (header_len tag lo _ Hlo) as Hh. rewrite !len_app in Hs. rewrite len_app in Hh. pose proof (len_nonneg cs).
  pose proof (proj2 ber_out_bound _ _ _ _ Helems). pose proof Hh as Hh'. unfold len in Hh'. rewrite !length_app in Hf.
  apply bytes_ok_middle in Hb as [_ [Hbc _]%bytes_ok_app].
  eapply (round_complete fuel d stg eoc k tag (lo ++ cs) e tail tail st a out); try done; [by rewrite <- !app_assoc | lia |].
  intros st1 Hr1 Hd1 Hs1. destruct (IH fuel _ false [] st1 _ Hr1 Hd1) as (st2 & Hr2 & El); [by rewrite app_nil_r | lia | lia |].
  exists st2. split; [done |]. unfold convert_contents. rewrite Ei, Eskip, Et, Hc, call_at_ok by done. rewrite app_nil_r in El. by rewrite El.
Qed.

Lemma indef_converts stg k tag cs out :
  valid_tag tag -> is_constructed tag = true -> fragment_ok stg tag -> k + 1 <= kMaxDepth ->
  ber_elems (child_tag stg tag) (k + 1) cs out -> elems_convert (child_tag stg tag) (k + 1) cs out -> fits_len stg out ->
  elem_converts stg k (der_tag tag ++ [128] ++ cs ++ [0; 0]) (converted stg tag out).
Proof.
  intros Hv Hc Hfrag Hk Helems IH Hfit fuel d eoc tail st a Hr Hd Hb Hs Hf. rewrite <- !app_assoc in Hb.
  destruct (ber_read_indefinite tag (cs ++ [0; 0] ++ tail) Hb Hv Hc) as (e & Eread & Et & Ei).
  rewrite !len_app in Hs. change (len [128]) with 1 in Hs. change (len [0; 0]) with 2 in Hs. pose proof (len_nonneg cs). pose proof (der_tag_len tag).
  pose proof (proj2 ber_out_bound _ _ _ _ Helems). rewrite !length_app in Hf. cbn [length] in Hf.
  apply bytes_ok_middle in Hb as [_ [Hbc [_ Hbt]%bytes_ok_app]%bytes_ok_app].
  eapply (round_complete fuel d stg eoc k tag ([128] ++ cs ++ [0; 0]) e _ tail st a out); try done; [by rewrite <- !app_assoc | lia |].
  intros st1 Hr1 Hd1 Hs1. destruct (IH fuel _ true tail st1 _ Hr1 Hd1) as (st2 & Hr2 & El); [by apply bytes_ok_app | lia | lia |].
  exists st2. split; [done |]. unfold convert_contents. rewrite Ei, call_at_ok by done. by rewrite El.
Qed.

Lemma more_converts stg k x xs out outs :
  ber_elem stg k x out -> elem_converts stg k x out -> elems_convert stg k xs outs -> elems_convert stg k (x ++ xs) (out ++ outs).
Proof.
  intros Hx IHx IHxs fuel d eoc tail st a Hr Hd Hb Hs Hf. pose proof (proj1 ber_out_bound _ _ _ _ Hx) as Hlen. pose proof (len_nonneg out).
  assert (1 <= length x)%nat by (unfold len in *; lia). rewrite len_app in Hs. rewrite length_app in Hf. rewrite <- app_assoc in Hb |- *. pose proof (len_nonneg xs).
  destruct fuel as [| fuel]; [lia |]. apply bytes_ok_app in Hb as [Hbx [Hbxs Hbt]%bytes_ok_app].
  destruct (IHx fuel d eoc (xs ++ if eoc then [0; 0] ++ tail else []) st a Hr Hd) as (st1 & Hr1 & ->); [| lia | lia |].
  { rewrite !bytes_ok_app. split_and!; [done | done |]. destruct eoc; [| by apply Forall_nil]. apply bytes_ok_app. split; [by repeat constructor | done]. }
  destruct (IHxs fuel d eoc tail st1 (grown a out) Hr1) as (st2 & Hr2 & El).
  { by rewrite depth_grown. } { by apply bytes_ok_app. } { rewrite size_grown. lia. } { lia. }
  exists st2. rewrite <- grown_grown. done.
Qed.

Lemma nil_converts stg k : elems_convert stg k [] [].
Proof.
  intros fuel d eoc tail st a Hr Hd _ _ Hf. exists st. rewrite grown_nil. split; [done |]. destruct fuel as [| fuel]; [cbn in Hf; lia |].
  by destruct eoc.
Qed.

Lemma convert_complete :
  (forall stg k x out, ber_elem stg k x out -> elem_converts stg k x out) /\
  (forall stg k x out, ber_elems stg k x out -> elems_convert stg k x out).
Proof.
  apply ber_mutind; intros; [by apply prim_converts | by apply cons_converts | by apply indef_converts | apply nil_converts | by apply more_converts].
Qed.
End Refine.

(** ** What the walks say of the whole input *)

Lemma primitive_tag_valid tag : valid_tag tag -> valid_tag (primitive_tag tag).
Proof. intros [Hf Hv]. split; [by apply primitive_tag_fits |]. unfold primitive_tag. by rewrite <- Z.land_assoc, Z.land_diag. Qed.

Lemma primitive_tag_primitive tag : is_constructed (primitive_tag tag) = false.
Proof.
  unfold is_constructed, primitive_tag. rewrite <- Z.land_assoc.
  replace (Z.land (wnot 32 CBS_ASN1_CONSTRUCTED) CBS_ASN1_CONSTRUCTED) with 0 by (by vm_compute). by rewrite Z.land_0_r.
Qed.

(** The output is DER. *)
Lemma ber_out_der :
  (forall stg k x out, ber_elem stg k x out -> stg = 0 -> der_elem k out) /\
  (forall stg k x out, ber_elems stg k x out -> stg = 0 -> der_elems k out).
Proof.
  assert (forall stg k tag out, valid_tag tag -> is_constructed tag = true -> k + 1 <= kMaxDepth ->
    (child_tag stg tag = 0 -> der_elems (k + 1) out) -> fits_len stg out -> stg = 0 -> der_elem k (converted stg tag out)) as Hcons.
  { intros stg k tag out Hv Hc Hk IH Hfit ->. specialize (Hfit eq_refl). unfold child_tag, converted in *. cbn [Z.eqb negb] in *. rewrite Hc in *. cbn [andb] in *.
    destruct (is_string_type tag) eqn:Hs; [apply der_prim; [by apply primitive_tag_valid | by apply primitive_tag_primitive | lia] |].
    apply der_cons; [done | done | done | lia | done | by apply IH]. }
  assert (forall stg k tag cs, valid_tag tag -> is_constructed tag = false -> fits_len stg cs -> stg = 0 -> der_elem k (converted stg tag cs)) as Hprim.
  { intros stg k tag cs Hv Hc Hfit ->. specialize (Hfit eq_refl). unfold converted. cbn [Z.eqb negb]. rewrite Hc. cbn [andb].
    apply der_prim; [done | done | lia]. }
  apply ber_mutind; intros; [by apply Hprim | by eapply Hcons | by eapply Hcons | apply der_nil | by apply der_more; auto].
Qed.

(** The first element of a BER sequence, read. *)
Lemma ber_elems_head k inp out :
  bytes_ok inp -> inp <> [] -> ber_elems 0 k inp out ->
  exists e rest, CBS_get_any_ber_asn1_element inp = (Some e, rest) /\
    (el_indefinite e = false -> exists outs, ber_elems 0 k rest outs) /\
    (el_indefinite e = false -> is_constructed (el_tag e) = true -> is_string_type (el_tag e) = false ->
      k + 1 <= kMaxDepth /\ exists cs outs, CBS_skip (el_header_len e) (el_out e) = (Some tt, cs) /\ ber_elems 0 (k + 1) cs outs).
Proof.
  intros Hb Hne Hd. remember 0 as stg eqn:Estg. destruct Hd as [stg k | stg k x xs out outs Hx Hxs]; [done |].
  destruct Hx as [stg k tag lo cs Hv Hc Hfrag Hlo Hfit | stg k tag lo cs out Hv Hc Hfrag Hlo Hk Hsub Hfit | stg k tag cs out Hv Hc Hfrag Hk Hsub Hfit];
    rewrite <- !app_assoc in *; subst stg.
  - destruct (ber_read_complete tag lo cs xs Hb Hv Hlo) as (e & E & Et & Ei & Esk). exists e, xs. split_and!; [done | eauto |]. intros. congruence.
  - destruct (ber_read_complete tag lo cs xs Hb Hv Hlo) as (e & E & Et & Ei & Esk). exists e, xs. split_and!; [done | eauto |]. intros _ _ Hs. split; [done |].
    exists cs, out. split; [done |]. subst tag. unfold child_tag in Hsub. cbn [Z.eqb negb] in Hsub. by rewrite Hs, andb_false_r in Hsub.
  - destruct (ber_read_indefinite tag _ Hb Hv Hc) as (e & E & Et & Ei). eexists e, _. split_and!; [done | congruence | congruence].
Qed.

Lemma find_error fuel k inp out : bytes_ok inp -> find_loop fuel k inp = Some None -> ~ ber_elems 0 k inp out.
Proof.
  revert k inp out. induction fuel as [| fuel IH]; intros k inp out Hb; [done |]. cbn [find_loop]. intros E Hber.
  destruct (decide (inp = [])) as [-> | Hne]; [done |]. rewrite (nonempty_gt inp Hne) in E.
  destruct (ber_elems_head k inp out Hb Hne Hber) as (e & rest & Eread & Hrest & Hsub). rewrite Eread in E.
  pose proof (ber_read_sound inp e rest Hb Eread) as Hread. destruct (read_shorter e inp rest Hread Hb) as [Hbr _].
  destruct (el_ber_found e) eqn:Hbf; [done |]. pose proof (proj1 (read_der inp e rest Hb) (conj Eread Hbf)) as (tag & cs & Ec & _ & _ & He).
  assert (el_indefinite e = false) as Hi by (by subst e). destruct (Hrest Hi) as (outs & Houts).
  assert (find_loop fuel k rest <> Some None) as Hnext by (intros H; by eapply (IH k rest)).
  destruct (is_constructed (el_tag e)) eqn:Hc; [| done]. destruct (is_string_type (el_tag e)) eqn:Hs; [done |].
  destruct (Hsub Hi eq_refl eq_refl) as (Hk & c & o & Esk & Hco). rewrite Esk in E. rewrite Z.gtb_ltb, (proj2 (Z.ltb_ge _ _)) in E by lia.
  assert (bytes_ok c) as Hbc.
  { subst e. cbn [der_read el_header_len el_out] in Esk. unfold der_element in Esk. rewrite skip_prefix in Esk. injection Esk as <-.
    rewrite Ec in Hb. by apply bytes_ok_app in Hb as [[_ Hb]%bytes_ok_app _]. }
  destruct (find_loop fuel (k + 1) c) as [[[] |] |] eqn:Ef; try done. by eapply (IH (k + 1) c).
Qed.

(** ** Strings in chunks *)

(** [child] is a sequence of elements of tag [inner_tag] with the contents [chunks]. *)
Definition is_chunks (inner_tag : Z) (child : bytes) (chunks : list bytes) : Prop :=
  child = concat (map (der_element inner_tag) chunks) /\ Forall (fun c => len c < 2 ^ 32) chunks.

Lemma is_chunks_cons tag c rest chunks :
  is_chunks tag (der_element tag c ++ rest) (c :: chunks) <-> len c < 2 ^ 32 /\ is_chunks tag rest chunks.
Proof.
  unfold is_chunks. cbn [map concat]. rewrite Forall_cons_iff. split.
  - intros [E%app_inv_head [Hc Hcs]]. done.
  - intros (Hc & -> & Hcs). done.
Qed.

(** The first chunk is what [CBS_get_asn1] reads. *)
Lemma is_chunks_head tag child chunks :
  valid_tag tag -> bytes_ok child -> is_chunks tag child chunks ->
  match chunks with
  | [] => child = []
  | c :: chunks => exists rest, CBS_get_asn1 tag child = (Some c, rest) /\ is_chunks tag rest chunks
  end.
Proof.
  intros Hv Hb H. pose proof H as [E _]. destruct chunks as [| c chunks]; [done |]. cbn [map concat] in E.
  rewrite E in H. apply is_chunks_cons in H as [Hc H]. eexists. split; [| exact H]. by apply get_asn1_spec.
Qed.

Lemma implicit_total realloc_ok fuel inner_tag child st :
  bytes_ok child -> (length child < fuel)%nat -> is_Some (implicit_loop realloc_ok fuel inner_tag child st).
Proof.
  revert child st. induction fuel as [| fuel IH]; intros child st Hb Hf; [lia |]. cbn [implicit_loop].
  destruct (len child >? 0); [| done]. destruct (CBS_get_asn1 inner_tag child) as [[c |] rest] eqn:E; [| done].
  destruct (CBB_add_bytes realloc_ok 0 c st) as [[] st1]; [| done]. apply get_asn1_spec in E as (-> & _); [| done].
  apply bytes_ok_app in Hb as [_ Hb]. rewrite length_app in Hf. pose proof (der_element_length inner_tag c). apply IH; [done | lia].
Qed.

Lemma implicit_loop_spec realloc_ok (Hrealloc : forall n, realloc_ok n = true) fuel tag child st a :
  valid_tag tag -> bytes_ok child -> repr st a -> snd a = [] -> size a + len child < 2 ^ 64 -> (length child < fuel)%nat ->
  exists ok st', implicit_loop realloc_ok fuel tag child st = Some (ok, st') /\
    if ok then exists chunks, is_chunks tag child chunks /\ repr st' (grown a (concat chunks))
    else forall chunks, ~ is_chunks tag child chunks.
Proof.
  intros Hv. revert child st a. induction fuel as [| fuel IH]; intros child st a Hb Hr Ha Hs Hf; [lia |]. cbn [implicit_loop].
  destruct (decide (child = [])) as [-> | Hne].
  { eexists _, _. split; [done |]. exists []. split; [by split; [| apply Forall_nil] |]. by rewrite grown_nil. }
  rewrite (nonempty_gt child Hne). destruct (CBS_get_asn1 tag child) as [[c |] rest] eqn:E.
  2: { eexists _, _. split; [done |]. intros chunks H%is_chunks_head; [| done | done]. destruct chunks; [done |]. destruct H as (r & E' & _). congruence. }
  assert (forall chunks, is_chunks tag child chunks -> exists cs, chunks = c :: cs /\ is_chunks tag rest cs) as Hinv.
  { intros chunks H%is_chunks_head; [| done | done]. destruct chunks as [| c' cs]; [done |]. destruct H as (r & E' & H). rewrite E in E'. injection E' as -> ->. eauto. }
  apply get_asn1_spec in E as (-> & _ & Hl); [| done]. apply bytes_ok_app in Hb as [_ Hb]. rewrite len_app in Hs. rewrite length_app in Hf.
  pose proof (der_element_length tag c) as Hlc. assert (len c < len (der_element tag c)) by (unfold len; lia). pose proof (len_nonneg rest).
  destruct (add_contents realloc_ok Hrealloc a 0 st c Hr) as (st1 & -> & Hr1); [by rewrite Ha | lia |].
  destruct (IH rest st1 (grown a c) Hb Hr1) as (ok & st' & El & H').
  { apply nil_length_inv. by rewrite depth_grown, Ha. } { rewrite size_grown. lia. } { lia. }
  exists ok, st'. split; [done |]. destruct ok.
  - destruct H' as (cs & Hcs & Hr'). exists (c :: cs). split; [by apply is_chunks_cons |]. cbn [concat]. by rewrite <- grown_grown.
  - intros chunks (cs & -> & Hcs)%Hinv. by eapply H'.
Qed.

Lemma constructed_valid tag : valid_tag tag -> valid_tag (Z.lor tag CBS_ASN1_CONSTRUCTED).
Proof.
  intros [Hf Hv]. split; [apply fits_lor; [lia | done | by vm_compute] |]. rewrite Z.land_lor_distr_l.
  replace (Z.land CBS_ASN1_CONSTRUCTED (wnot 32 CBS_ASN1_CONSTRUCTED)) with 0 by (by vm_compute). by rewrite Z.lor_0_r.
Qed.

Lemma constructed_other tag : is_constructed tag = false -> Z.lor tag CBS_ASN1_CONSTRUCTED <> tag.
Proof.
  unfold is_constructed. intros H E. apply negb_false_iff, Z.eqb_eq in H. rewrite <- E, Z.land_lor_distr_l, Z.land_diag in H.
  by apply Z.lor_eq_0_iff in H as [_ ?].
Qed.

(** The tag at the front of an element. *)
Lemma peek_element inp tag outer cs rest :
  bytes_ok inp -> valid_tag tag -> inp = der_element tag cs ++ rest -> CBS_peek_asn1_tag inp outer = (outer =? tag).
Proof.
  intros Hb Hv ->. unfold CBS_peek_asn1_tag. unfold der_element, der_header in *. rewrite <- !app_assoc in *.
  by rewrite (proj2 (parse_asn1_tag_spec _ tag (der_len (len cs) ++ cs ++ rest) Hb)).
Qed.

Lemma finish_grown realloc_ok (Hrealloc : forall n, realloc_ok n = true) st x :
  repr st (grown ([], []) x) -> len x < 2 ^ 64 -> CBB_finish realloc_ok st = Some x.
Proof.
  intros Hr Hs. rewrite (finish_spec realloc_ok Hrealloc st _ Hr) by (rewrite size_grown; change (size ([], [])) with 0; lia).
  cbn. by rewrite app_nil_r.
Qed.

Lemma chunks_len tag child chunks : is_chunks tag child chunks -> len (concat chunks) <= len child.
Proof.
  intros [-> _]. induction chunks as [| c cs IH]; cbn [map concat]; [lia |]. rewrite !len_app.
  pose proof (der_element_length tag c). unfold len in *. lia.
Qed.

(** * Properties *)

(** C29: the walks over BER always return: looking for BER at any depth, the conversion into
    any builder, with a string tag and an end-of-contents or without, and the two entry
    points, also when the allocator fails. *)
Theorem ber_walks_terminate (realloc_ok : Z -> bool) (inp : bytes) :
  bytes_ok inp ->
  (forall depth, is_Some (cbs_find_ber inp depth)) /\
  (forall d string_tag eoc depth st, exists ok rest st',
     cbs_convert_ber realloc_ok inp d string_tag eoc depth st = Some (ok, rest, st') /\ (length rest <= length inp)%nat) /\
  is_Some (CBS_asn1_ber_to_der realloc_ok inp) /\
  (forall outer_tag inner_tag, is_Some (CBS_get_asn1_implicit_string realloc_ok inp outer_tag inner_tag)).
Proof.
  intros Hb.
  assert (forall depth, is_Some (cbs_find_ber inp depth)) as Hfind.
  { intros depth. unfold cbs_find_ber. destruct (_ >? _); [done |]. destruct (find_loop_spec (S (length inp)) depth inp Hb ltac:(lia)) as (r & -> & _). done. }
  assert (forall d string_tag eoc depth st, exists ok rest st',
     cbs_convert_ber realloc_ok inp d string_tag eoc depth st = Some (ok, rest, st') /\ (length rest <= length inp)%nat) as Hconv.
  { intros d stg eoc depth st. unfold cbs_convert_ber. destruct (_ >? _); [by eexists _, _, _ |].
    destruct (convert_total realloc_ok (S (length inp)) d stg eoc depth inp st Hb ltac:(lia)) as (ok & r & s & E & _ & Hl). eauto. }
  split_and!; [done | done | |].
  - unfold CBS_asn1_ber_to_der. destruct (Hfind 0) as [[[] |] ->]; [| by destruct (CBS_get_any_asn1_element inp) as [[] ?] | done].
    destruct (CBB_init realloc_ok (len inp)) as [st |]; [| done]. destruct (Hconv 0%nat 0 false 0 st) as (ok & r & s & -> & _).
    destruct ok; [| done]. by destruct (CBB_finish realloc_ok s).
  - intros outer inner. unfold CBS_get_asn1_implicit_string. destruct (CBS_peek_asn1_tag inp outer); [by destruct (CBS_get_asn1 outer inp) as [[] ?] |].
    destruct (CBB_init realloc_ok (len inp)) as [st |]; [| done]. destruct (CBS_get_asn1 _ inp) as [[child |] rest] eqn:E; [| done].
    pose proof (get_asn1_bytes_ok _ _ _ _ Hb E) as Hc. destruct (implicit_total realloc_ok (S (length child)) inner child st Hc ltac:(lia)) as [[[] s] ->]; [| done].
    by destruct (CBB_finish realloc_ok s).
Qed.

Lemma ber_walks_terminate_witness : is_Some (CBS_asn1_ber_to_der (fun _ => false) [48; 128; 4; 1; 65; 0; 0]).
Proof.
  by destruct (ber_walks_terminate (fun _ => false) [48; 128; 4; 1; 65; 0; 0] ltac:(apply (bool_decide_unpack _); vm_compute; exact I)) as (_ & _ & H & _).
Defined.

(** C28: [CBS_asn1_ber_to_der] is exact, when no allocation fails.  Without storage, the input was
    DER throughout, nested at most 128 deep, and the output is its first element.  With storage, the
    input was not DER at any depth, all of it was a sequence of BER elements, and the output is their
    conversion, which is DER.  It fails only on the empty input and on what is not BER within the
    bounds of the implementation: nested at most 128 deep, with lengths of at most four octets after
    the first and converted contents of fewer than 2^32 - 1 bytes. *)
Theorem ber_to_der_exact (realloc_ok : Z -> bool) (inp : bytes) :
  (forall n, realloc_ok n = true) -> bytes_ok inp -> 17 * len inp < 2 ^ 64 ->
  exists r, CBS_asn1_ber_to_der realloc_ok inp = Some r /\
  match r with
  | Some (out, false, rest) => inp = out ++ rest /\ der_elem 0 out /\ der_elems 0 rest
  | Some (out, true, rest) => rest = [] /\ (forall maxd, ~ der_elems_to maxd 0 inp) /\ is_ber inp out /\ der_elems 0 out
  | None => inp = [] \/ forall out, ~ ber_within_bounds inp out
  end.
Proof.
  intros Hre Hb Hl. destruct (find_loop_spec (S (length inp)) 0 inp Hb ltac:(lia)) as (r & Ef & Hder).
  unfold CBS_asn1_ber_to_der, cbs_find_ber, cbs_convert_ber. change (0 >? kMaxDepth) with false. cbv iota. rewrite Ef. destruct r as [[] |].
  - assert (forall maxd, ~ der_elems_to maxd 0 inp) as Hnd by (intros maxd; by eapply find_true).
    destruct (init_repr realloc_ok Hre (len inp)) as (st & -> & Hr).
    destruct (convert_total realloc_ok (S (length inp)) 0 0 false 0 inp st Hb ltac:(lia)) as (ok & rest & st' & E & _). rewrite E.
    destruct ok.
    + pose proof (convert_sound realloc_ok Hre _ _ _ _ _ _ _ _ _ _ Hr eq_refl Hb ltac:(change (size ([], [])) with 0; lia) E) as (x & out & Einp & Hrest & Hber & Hr').
      rewrite (Hrest eq_refl), !app_nil_r in Einp. subst x. pose proof (proj2 ber_out_bound _ _ _ _ Hber). rewrite (finish_grown realloc_ok Hre st' out Hr') by lia.
      eexists. split; [done |]. split_and!; [by apply Hrest | done | | by eapply (proj2 ber_out_der)].
      exists kMaxDepth, 0xfffffffe. by apply (ber_mono kMaxDepth 4 0xfffffffe); [lia | lia | lia |].
    + eexists. split; [done |]. right. intros out Hber.
      destruct (proj2 (convert_complete realloc_ok Hre) _ _ _ _ Hber (S (length inp)) 0%nat false [] st _ Hr eq_refl) as (st1 & _ & Ec);
        [by rewrite app_nil_r | change (size ([], [])) with 0; lia | lia |]. rewrite app_nil_r in Ec. congruence.
  - pose proof (proj1 Hder eq_refl) as Hd. destruct (decide (inp = [])) as [-> | Hne]; [eexists; split; [done | by left] |].
    destruct Hd as [k | k x xs Hx Hxs] eqn:Ed; [done |].
    assert (exists tag cs, x = der_element tag cs /\ valid_tag tag /\ len cs < 2 ^ 32) as (tag & cs & -> & Hv & Hlc) by (destruct Hx; eauto).
    rewrite (proj2 (get_any_element_spec _ (der_read tag cs) xs Hb)) by eauto 10. eexists. split; [done |]. done.
  - eexists. split; [done |]. right. intros out. by apply (find_error (S (length inp))).
Qed.

(** A DER string followed by a constructed one: both are converted. *)
Lemma ber_to_der_exact_witness :
  CBS_asn1_ber_to_der (fun _ => true) [4; 1; 65; 36; 128; 4; 1; 66; 36; 3; 4; 1; 67; 0; 0] = Some (Some ([4; 1; 65; 4; 2; 66; 67], true, [])) /\
  is_ber [4; 1; 65; 36; 128; 4; 1; 66; 36; 3; 4; 1; 67; 0; 0] [4; 1; 65; 4; 2; 66; 67] /\ der_elems 0 [4; 1; 65; 4; 2; 66; 67].
Proof.
  destruct (ber_to_der_exact (fun _ => true) [4; 1; 65; 36; 128; 4; 1; 66; 36; 3; 4; 1; 67; 0; 0] ltac:(reflexivity)
    ltac:(apply (bool_decide_unpack _); vm_compute; exact I) ltac:(reflexivity)) as (r & E & H).
  assert (r = Some ([4; 1; 65; 4; 2; 66; 67], true, [])) as -> by (vm_compute in E; congruence). tauto.
Defined.

(** SEQUENCEs of indefinite length, one in the other. *)
Fixpoint nested (n : nat) : bytes :=
  match n with O => [] | S n => [48; 128] ++ nested n ++ [0; 0] end.

Lemma nested_ber n k : exists out maxlen, ber_elems_to (k + Z.of_nat n) 126 maxlen 0 k (nested n) out.
Proof.
  revert k. induction n as [| n IH]; intros k; [exists [], 0; apply ber_nil |]. destruct (IH (k + 1)) as (out & ml & H).
  replace (k + 1 + Z.of_nat n) with (k + Z.of_nat (S n)) in H by lia. exists (der_element 0x20000010 out ++ []), (Z.max ml (len out)).
  cbn [nested]. rewrite <- (app_nil_r (_ ++ _)). apply ber_more; [| apply ber_nil].
  apply (ber_indef _ _ _ 0 k 0x20000010 (nested n) out); [by split; vm_compute | done | by left | lia | | intros _; lia].
  apply (ber_mono (k + Z.of_nat (S n)) 126 ml); [lia | lia | lia | exact H].
Qed.

(** The bounds of the implementation exclude some BER: SEQUENCEs nested 129 deep, and a length
    written in five octets. *)
Theorem ber_bounds_refuse :
  (exists out, is_ber (nested 129) out) /\ CBS_asn1_ber_to_der (fun _ => true) (nested 129) = Some None /\
  is_ber [4; 133; 0; 0; 0; 0; 1; 65] [4; 1; 65] /\ CBS_asn1_ber_to_der (fun _ => true) [4; 133; 0; 0; 0; 0; 1; 65] = Some None.
Proof.
  split_and!.
  - destruct (nested_ber 129 0) as (out & ml & H). exists out. by eexists _, ml.
  - by vm_compute.
  - exists 0, 1. apply (ber_more _ _ _ 0 0 [4; 133; 0; 0; 0; 0; 1; 65] [] [4; 1; 65] []); [| apply ber_nil].
    apply (ber_prim _ _ _ 0 0 4 [133; 0; 0; 0; 0; 1] [65]); [by split; vm_compute | done | by left | | by intros _].
    right. exists 5%nat. split_and!; [lia | lia | by vm_compute | by vm_compute | by vm_compute].
  - by vm_compute.
Qed.

(** [CBS_get_asn1_implicit_string] returns the contents of a primitive element of the
    outer tag as they are, and of a constructed element of the outer tag the concatenation
    of the contents of its elements of the inner tag, in a buffer; it fails on anything
    else. *)
Theorem implicit_string_exact (realloc_ok : Z -> bool) (inp : bytes) (outer_tag inner_tag : Z) :
  (forall n, realloc_ok n = true) -> bytes_ok inp -> len inp < 2 ^ 64 ->
  valid_tag outer_tag -> valid_tag inner_tag -> is_constructed outer_tag = false ->
  exists r rest, CBS_get_asn1_implicit_string realloc_ok inp outer_tag inner_tag = Some (r, rest) /\
  match r with
  | Some (out, false) => inp = der_element outer_tag out ++ rest /\ len out < 2 ^ 32
  | Some (out, true) => exists child chunks, inp = der_element (Z.lor outer_tag CBS_ASN1_CONSTRUCTED) child ++ rest /\
      len child < 2 ^ 32 /\ is_chunks inner_tag child chunks /\ out = concat chunks
  | None => (forall out tl, inp = der_element outer_tag out ++ tl -> ~ len out < 2 ^ 32) /\
      (forall child chunks tl, inp = der_element (Z.lor outer_tag CBS_ASN1_CONSTRUCTED) child ++ tl -> len child < 2 ^ 32 ->
        ~ is_chunks inner_tag child chunks)
  end.
Proof.
  intros Hre Hb Hl Hvo Hvi Hc. pose proof (constructed_valid outer_tag Hvo) as Hvc. pose proof (constructed_other outer_tag Hc) as Hne.
  unfold CBS_get_asn1_implicit_string. destruct (CBS_peek_asn1_tag inp outer_tag) eqn:Ep.
  - assert (forall child tl, inp <> der_element (Z.lor outer_tag CBS_ASN1_CONSTRUCTED) child ++ tl) as Hno.
    { intros child tl E. rewrite (peek_element _ _ outer_tag _ _ Hb Hvc E) in Ep. lia. }
    destruct (CBS_get_asn1 outer_tag inp) as [[out |] rest] eqn:E.
    + apply get_asn1_spec in E as (-> & _ & Hlo); [| done]. by eexists _, _.
    + eexists _, _. split; [done |]. split; [| intros child chunks tl Hi; by apply Hno in Hi].
      intros out tl Ei Hlo. by rewrite (proj2 (get_asn1_spec outer_tag inp out tl Hb)) in E.
  - assert (forall out tl, inp <> der_element outer_tag out ++ tl) as Hno.
    { intros out tl E. rewrite (peek_element _ _ outer_tag _ _ Hb Hvo E) in Ep. lia. }
    destruct (init_repr realloc_ok Hre (len inp)) as (st & -> & Hr).
    destruct (CBS_get_asn1 _ inp) as [[child |] rest] eqn:E.
    2: { eexists _, _. split; [done |]. split; [intros out tl Hi; by apply Hno in Hi |]. intros child chunks tl Ei Hlc _.
         by rewrite (proj2 (get_asn1_spec _ inp child tl Hb)) in E. }
    pose proof (get_asn1_bytes_ok _ _ _ _ Hb E) as Hbc. apply get_asn1_spec in E as (Ei & _ & Hlc); [| done].
    destruct (implicit_loop_spec realloc_ok Hre (S (length child)) inner_tag child st _ Hvi Hbc Hr eq_refl) as (ok & st' & -> & Hok);
      [change (size ([], [])) with 0; lia | lia |].
    destruct ok.
    + destruct Hok as (chunks & Hch & Hr'). pose proof (chunks_len _ _ _ Hch). rewrite (finish_grown realloc_ok Hre st' _ Hr') by lia.
      eexists _, _. split; [done |]. by exists child, chunks.
    + eexists _, _. split; [done |]. split; [intros out tl Hi; by apply Hno in Hi |]. intros child' chunks tl Ei' Hlc'.
      rewrite Ei in Ei', Hb. apply der_element_app_inj in Ei' as (_ & <- & _); try done.
Qed.

Lemma implicit_string_exact_witness :
  CBS_get_asn1_implicit_string (fun _ => true) [160; 6; 4; 1; 65; 4; 1; 66; 9] 0x80000000 CBS_ASN1_OCTETSTRING = Some (Some ([65; 66], true), [9]) /\
  exists child chunks, [160; 6; 4; 1; 65; 4; 1; 66; 9] = der_element 0xa0000000 child ++ [9] /\
    is_chunks CBS_ASN1_OCTETSTRING child chunks /\ [65; 66] = concat chunks.
Proof.
  destruct (implicit_string_exact (fun _ => true) [160; 6; 4; 1; 65; 4; 1; 66; 9] 0x80000000 CBS_ASN1_OCTETSTRING ltac:(reflexivity)
    ltac:(apply (bool_decide_unpack _); vm_compute; exact I) ltac:(reflexivity) ltac:(split; [split; vm_compute; congruence | vm_compute; congruence])
    ltac:(split; [split; vm_compute; congruence | vm_compute; congruence]) ltac:(reflexivity)) as (r & rest & E & H).
  assert (r = Some ([65; 66], true) /\ rest = [9]) as [-> ->] by (vm_compute in E; split; congruence).
  split; [exact E |]. destruct H as (child & chunks & H1 & _ & H2 & H3). eauto.
Defined.

End Ber.
