(* ===== verification/Unicode.v ===== *)
(** Unicode transcoding (crypto/bytestring/unicode.c): the readers and writers of single
    code points in UTF-8, Latin-1, UCS-2 and UTF-32. *)

From S2P Require Import Prelude Internal Cbs Der Cbb CbsText CbbSpec.
Import Internal Cbs Der CbsText Cbb CbbSpec.
Local Open Scope c_scope.

Module Unicode.

Definition is_valid_code_point (v : Z) : bool :=
  if (v >? 0x10ffff) || (Z.land v 0xfffe =? 0xfffe) || ((v >=? 0xfdd0) && (v <=? 0xfdef))
     || ((v >=? 0xd800) && (v <=? 0xdfff))
  then false else true.

Definition BOTTOM_BITS (n : Z) : Z := u8 (Z.shiftl 1 n - 1).
Definition TOP_BITS (n : Z) : Z := wnot 8 (BOTTOM_BITS (8 - n)).

(** * Readers *)

(** The loop over the [n] continuation bytes. *)
Fixpoint utf8_loop (n : nat) (v : Z) : parser Z :=
  match n with
  | O => p_ret v
  | S n =>
      let! c := CBS_get_u8 in
      check Z.land c (TOP_BITS 2) =? TOP_BITS 1 ;;
      utf8_loop n (Z.lor (u32 (Z.shiftl v 6)) (Z.land c (BOTTOM_BITS 6)))
  end.

Definition utf8_tail (v : Z) (n : nat) (lower_bound : Z) : parser Z :=
  let! v := utf8_loop n v in
  check negb (negb (is_valid_code_point v) || (v <? lower_bound)) ;;
  p_ret v.

Definition cbs_get_utf8 : parser Z :=
  let! c := CBS_get_u8 in
  if c <=? 0x7f then p_ret c
  else if Z.land c (TOP_BITS 3) =? TOP_BITS 2 then utf8_tail (Z.land c (BOTTOM_BITS 5)) 1 0x80
  else if Z.land c (TOP_BITS 4) =? TOP_BITS 3 then utf8_tail (Z.land c (BOTTOM_BITS 4)) 2 0x800
  else if Z.land c (TOP_BITS 5) =? TOP_BITS 4 then utf8_tail (Z.land c (BOTTOM_BITS 3)) 3 0x10000
  else p_fail.

Definition cbs_get_latin1 : parser Z := let! c := CBS_get_u8 in p_ret c.

Definition cbs_get_ucs2_be : parser Z :=
  let! c := CBS_get_u16 in check is_valid_code_point c ;; p_ret c.

Definition cbs_get_utf32_be : parser Z :=
  let! out := CBS_get_u32 in check is_valid_code_point out ;; p_ret out.

(** * Writers *)

Definition cbb_get_utf8_len (u : Z) : Z :=
  if u <=? 0x7f then 1 else if u <=? 0x7ff then 2 else if u <=? 0xffff then 3 else 4.

Section Writers.
Context (realloc_ok : Z -> bool).

Definition op_false : op := fun st => (false, st).

Definition cbb_add_utf8 (d : nat) (u : Z) : op :=
  let add b := CBB_add_u8 realloc_ok d (u8 b) in
  if negb (is_valid_code_point u) then op_false
  else if u <=? 0x7f then add u
  else if u <=? 0x7ff then
    op_and (add (Z.lor (TOP_BITS 2) (Z.shiftr u 6)))
      (add (Z.lor (TOP_BITS 1) (Z.land u (BOTTOM_BITS 6))))
  else if u <=? 0xffff then
    op_and (add (Z.lor (TOP_BITS 3) (Z.shiftr u 12)))
      (op_and (add (Z.lor (TOP_BITS 1) (Z.land (Z.shiftr u 6) (BOTTOM_BITS 6))))
         (add (Z.lor (TOP_BITS 1) (Z.land u (BOTTOM_BITS 6)))))
  else if u <=? 0x10ffff then
    op_and (add (Z.lor (TOP_BITS 4) (Z.shiftr u 18)))
      (op_and (add (Z.lor (TOP_BITS 1) (Z.land (Z.shiftr u 12) (BOTTOM_BITS 6))))
         (op_and (add (Z.lor (TOP_BITS 1) (Z.land (Z.shiftr u 6) (BOTTOM_BITS 6))))
            (add (Z.lor (TOP_BITS 1) (Z.land u (BOTTOM_BITS 6))))))
  else op_false.

Definition cbb_add_latin1 (d : nat) (u : Z) : op :=
  if u <=? 0xff then CBB_add_u8 realloc_ok d (u8 u) else op_false.

Definition cbb_add_ucs2_be (d : nat) (u : Z) : op :=
  if (u <=? 0xffff) && is_valid_code_point u then CBB_add_u16 realloc_ok d (u16 u) else op_false.

Definition cbb_add_utf32_be (d : nat) (u : Z) : op :=
  if is_valid_code_point u then CBB_add_u32 realloc_ok d u else op_false.

End Writers.

(** * UTF-8 *)

(** The table of RFC 3629. *)
Definition utf8 (u : Z) : bytes :=
  if u <? 0x80 then [u]
  else if u <? 0x800 then [0xc0 + u / 64; 0x80 + u mod 64]
  else if u <? 0x10000 then [0xe0 + u / 4096; 0x80 + u / 64 mod 64; 0x80 + u mod 64]
  else [0xf0 + u / 262144; 0x80 + u / 4096 mod 64; 0x80 + u / 64 mod 64; 0x80 + u mod 64].

(** Unicode scalar values that are not noncharacters. *)
Definition scalar (u : Z) : Prop :=
  0 <= u <= 0x10ffff /\ ~ (0xd800 <= u <= 0xdfff) /\ ~ (0xfdd0 <= u <= 0xfdef) /\ u mod 0x10000 < 0xfffe.

Lemma valid_code_point_spec u : 0 <= u -> is_valid_code_point u = true <-> scalar u.
Proof.
  intros Hu. unfold is_valid_code_point, scalar.
  assert (Z.land u 0xfffe = u mod 0x10000 / 2 * 2) as ->.
  { change 0xfffe with (Z.ldiff (Z.ones 16) (Z.ones 1)). rewrite Z.ldiff_land, Z.land_assoc.
    rewrite Z.land_ones by lia. rewrite <- Z.ldiff_land. rewrite Z.ldiff_ones_r by lia.
    rewrite Z.shiftl_mul_pow2, Z.shiftr_div_pow2 by lia. done. }
  assert (0 <= u mod 0x10000 < 0x10000) by (apply Z.mod_pos_bound; lia).
  destruct (_ || _ || _ || _) eqn:E; (split; [intros H0; try done | intros H0]);
    Z.to_euclidean_division_equations; lia.
Qed.

Lemma valid_range u : 0 <= u -> is_valid_code_point u = true -> u <= 0x10ffff.
Proof. intros Hu H%valid_code_point_spec; [apply H | done]. Qed.

(** The masks, on a byte. *)
Lemma lead_bits c :
  byte_ok c ->
  (Z.land c (TOP_BITS 2) =? TOP_BITS 1) = ((128 <=? c) && (c <? 192)) /\
  (Z.land c (TOP_BITS 3) =? TOP_BITS 2) = ((192 <=? c) && (c <? 224)) /\
  (Z.land c (TOP_BITS 4) =? TOP_BITS 3) = ((224 <=? c) && (c <? 240)) /\
  (Z.land c (TOP_BITS 5) =? TOP_BITS 4) = ((240 <=? c) && (c <? 248)).
Proof.
  intros Hc. pose proof (byte_forall (fun c =>
    eqb (Z.land c (TOP_BITS 2) =? TOP_BITS 1) ((128 <=? c) && (c <? 192)) &&
    eqb (Z.land c (TOP_BITS 3) =? TOP_BITS 2) ((192 <=? c) && (c <? 224)) &&
    eqb (Z.land c (TOP_BITS 4) =? TOP_BITS 3) ((224 <=? c) && (c <? 240)) &&
    eqb (Z.land c (TOP_BITS 5) =? TOP_BITS 4) ((240 <=? c) && (c <? 248))) eq_refl c Hc) as H.
  cbv beta in H. rewrite !andb_true_iff in H. destruct H as [[[H1 H2] H3] H4].
  apply eqb_prop in H1, H2, H3, H4. done.
Qed.

Lemma land_bottom c n : 0 <= n <= 8 -> Z.land c (BOTTOM_BITS n) = c mod 2 ^ n.
Proof.
  intros Hn. replace (BOTTOM_BITS n) with (Z.ones n); [by rewrite Z.land_ones by lia |].
  unfold BOTTOM_BITS. rewrite wrap_id.
  - by rewrite Z.ones_equiv, Z.shiftl_mul_pow2, Z.mul_1_l by lia.
  - unfold fits. rewrite Z.shiftl_mul_pow2, Z.mul_1_l by lia.
    pose proof (Z.pow_le_mono_r 2 n 8). pose proof (Z.pow_pos_nonneg 2 n). lia.
Qed.

Lemma utf8_loop_step n v c rest :
  byte_ok c -> 0 <= v < 2 ^ 26 ->
  utf8_loop (S n) v (c :: rest) =
  if (128 <=? c) && (c <? 192) then utf8_loop n (v * 64 + (c - 128)) rest else (None, rest).
Proof.
  intros Hc Hv. cbn [utf8_loop]. unfold p_bind, CBS_get_u8, p_guard, p_ret, p_fail.
  destruct (lead_bits c Hc) as [-> _]. destruct (_ && _) eqn:E; [| done]. rewrite land_bottom by lia.
  rewrite wrap_id by (unfold fits; rewrite Z.shiftl_mul_pow2 by lia; lia).
  rewrite lor_shiftl_add by (try lia; apply Z.mod_pos_bound; lia).
  replace (c mod 2 ^ 6) with (c - 128); [done |]. change (2 ^ 6) with 64.
  Z.to_euclidean_division_equations; lia.
Qed.

(** [n] continuation bytes, six bits each. *)
Fixpoint continuation (n : nat) (u : Z) : bytes :=
  match n with O => [] | S m => continuation m (u / 64) ++ [0x80 + u mod 64] end.

Lemma continuation_cons n u :
  continuation (S n) u = (0x80 + u / 64 ^ Z.of_nat n mod 64) :: continuation n u.
Proof.
  revert u. induction n as [| n IH]; intros u; [cbn; by rewrite Z.div_1_r |].
  change (continuation (S (S n)) u) with (continuation (S n) (u / 64) ++ [0x80 + u mod 64]). rewrite IH.
  rewrite Z.div_div by (try lia; apply Z.pow_pos_nonneg; lia).
  rewrite Nat2Z.inj_succ, Z.pow_succ_r by lia. done.
Qed.

Lemma utf8_loop_spec n v cbs u rest :
  bytes_ok cbs -> 0 <= v -> (n <= 3)%nat -> v < 2 ^ 8 * 64 ^ (3 - Z.of_nat n) ->
  utf8_loop n v cbs = (Some u, rest) <-> cbs = continuation n u ++ rest /\ u / 64 ^ Z.of_nat n = v.
Proof.
  revert v cbs. induction n as [| n IH]; intros v cbs Hok Hv Hn Hlt.
  - cbn. unfold p_ret. rewrite Z.div_1_r. split; [by intros [-> ->]%ok_inj | by intros [-> ->]].
  - assert (64 ^ (3 - Z.of_nat n) = 64 * 64 ^ (3 - Z.of_nat (S n))) as E64.
    { rewrite <- Z.pow_succ_r by lia. f_equal. lia. }
    assert (64 ^ (3 - Z.of_nat (S n)) <= 64 ^ 2) by (apply Z.pow_le_mono_r; lia).
    assert (0 < 64 ^ (3 - Z.of_nat (S n))) by (apply Z.pow_pos_nonneg; lia).
    rewrite continuation_cons, Nat2Z.inj_succ, Z.pow_succ_r, Z.mul_comm by lia.
    rewrite <- Z.div_div by (try lia; apply Z.pow_nonzero; lia).
    destruct cbs as [| c cbs]; [split; [done | by intros [? _]] |]. apply bytes_ok_cons in Hok as [Hc Hok].
    rewrite utf8_loop_step by (try done; lia). destruct ((128 <=? c) && (c <? 192)) eqn:Ec.
    + rewrite IH by (try done; lia). split.
      * intros [-> Hu]. rewrite Hu. split; [| Z.to_euclidean_division_equations; lia].
        cbn [app]. f_equal. Z.to_euclidean_division_equations; lia.
      * cbn [app]. intros [[= E ->] Hu]. split; [done |]. Z.to_euclidean_division_equations; lia.
    + split; [done |]. cbn [app]. intros [[= E _] _].
      pose proof (Z.mod_pos_bound (u / 64 ^ Z.of_nat n) 64). lia.
Qed.

Lemma utf8_tail_spec v n lower cbs u rest :
  bytes_ok cbs -> 0 <= v < 2 ^ 8 -> (n <= 3)%nat ->
  utf8_tail v n lower cbs = (Some u, rest) <->
  cbs = continuation n u ++ rest /\ u / 64 ^ Z.of_nat n = v /\ is_valid_code_point u = true /\ lower <= u.
Proof.
  intros Hok Hv Hn. unfold utf8_tail. rewrite p_bind_Some. setoid_rewrite p_bind_Some. unfold p_ret.
  assert (forall w c, utf8_loop n v cbs = (Some w, c) <-> cbs = continuation n w ++ c /\ w / 64 ^ Z.of_nat n = v) as Hloop.
  { intros w c. apply utf8_loop_spec; [done | lia | done |].
    pose proof (Z.pow_pos_nonneg 64 (3 - Z.of_nat n)). nia. }
  split.
  - intros (w & c & Hl & [] & c' & Hg & [-> ->]%ok_inj). apply Hloop in Hl as [-> Hw].
    apply p_guard_Some in Hg as [Hg ->]. destruct (is_valid_code_point u); [| done]. cbn in Hg.
    split_and!; [done | done | done | lia].
  - intros (-> & Hw & Hval & Hlow). exists u, rest. split; [by apply Hloop |]. exists tt, rest.
    rewrite p_guard_Some, Hval. cbn [negb orb]. split; [split; [lia | done] | done].
Qed.

Lemma utf8_eq u :
  utf8 u = if u <? 0x80 then [u]
           else if u <? 0x800 then (0xc0 + u / 64 ^ Z.of_nat 1) :: continuation 1 u
           else if u <? 0x10000 then (0xe0 + u / 64 ^ Z.of_nat 2) :: continuation 2 u
           else (0xf0 + u / 64 ^ Z.of_nat 3) :: continuation 3 u.
Proof.
  unfold utf8. cbn [continuation app]. rewrite !Z.div_div by lia. done.
Qed.

(** The reader after its first byte, with the masks as intervals. *)
Lemma get_utf8_cons c cs :
  byte_ok c ->
  cbs_get_utf8 (c :: cs) =
  if c <? 128 then (Some c, cs)
  else if (192 <=? c) && (c <? 224) then utf8_tail (c - 192) 1 0x80 cs
  else if (224 <=? c) && (c <? 240) then utf8_tail (c - 224) 2 0x800 cs
  else if (240 <=? c) && (c <? 248) then utf8_tail (c - 240) 3 0x10000 cs
  else (None, cs).
Proof.
  intros Hc. unfold cbs_get_utf8, p_bind at 1, CBS_get_u8, p_ret, p_fail.
  destruct (lead_bits c Hc) as (_ & -> & -> & ->). rewrite !land_bottom by lia. unfold byte_ok in Hc.
  replace (c <=? 0x7f) with (c <? 128) by lia. destruct (Z.ltb_spec c 128); [done |].
  destruct ((192 <=? c) && (c <? 224)) eqn:C2.
  { replace (c mod 2 ^ 5) with (c - 192); [done |]. change (2 ^ 5) with 32. Z.to_euclidean_division_equations; lia. }
  destruct ((224 <=? c) && (c <? 240)) eqn:C3.
  { replace (c mod 2 ^ 4) with (c - 224); [done |]. change (2 ^ 4) with 16. Z.to_euclidean_division_equations; lia. }
  destruct ((240 <=? c) && (c <? 248)) eqn:C4; [| done].
  replace (c mod 2 ^ 3) with (c - 240); [done |]. change (2 ^ 3) with 8. Z.to_euclidean_division_equations; lia.
Qed.

Lemma get_utf8_sound cbs u rest :
  bytes_ok cbs -> cbs_get_utf8 cbs = (Some u, rest) -> cbs = utf8 u ++ rest /\ scalar u.
Proof.
  intros Hok. destruct cbs as [| c cs]; [done |]. apply bytes_ok_cons in Hok as [Hc Hok].
  rewrite get_utf8_cons, utf8_eq by done. unfold byte_ok in Hc. destruct (Z.ltb_spec c 128).
  { intros [-> ->]%ok_inj. replace (u <? 128) with true by lia.
    split; [done |]. unfold scalar. rewrite Z.mod_small by lia. lia. }
  destruct ((192 <=? c) && (c <? 224)) eqn:C2; [| destruct ((224 <=? c) && (c <? 240)) eqn:C3;
    [| destruct ((240 <=? c) && (c <? 248)) eqn:C4; [| done]]];
    (intros Hrun; apply utf8_tail_spec in Hrun as (-> & Hu & Hval & Hlow); [| done | lia | lia]);
    (apply valid_code_point_spec in Hval; [| lia]); (split; [| done]);
    [change (64 ^ Z.of_nat 1) with 64 in * | change (64 ^ Z.of_nat 2) with 4096 in *
    | change (64 ^ Z.of_nat 3) with 262144 in *]; pose proof (Z.div_mod u 64); pose proof (Z.mod_pos_bound u 64).
  - replace (u <? 128) with false by lia. replace (u <? 2048) with true by lia.
    rewrite Hu. cbn [app]. f_equal. lia.
  - pose proof (Z.div_mod u 4096). pose proof (Z.mod_pos_bound u 4096).
    replace (u <? 128) with false by lia. replace (u <? 2048) with false by lia.
    replace (u <? 65536) with true by lia. rewrite Hu. cbn [app]. f_equal. lia.
  - replace (u <? 128) with false by lia. replace (u <? 2048) with false by lia.
    replace (u <? 65536) with false by lia. rewrite Hu. cbn [app]. f_equal. lia.
Qed.

Lemma get_utf8_complete u rest :
  bytes_ok (utf8 u ++ rest) -> scalar u -> cbs_get_utf8 (utf8 u ++ rest) = (Some u, rest).
Proof.
  rewrite utf8_eq. intros Hok Hs. pose proof Hs as (Hu & _).
  pose proof (proj2 (valid_code_point_spec u ltac:(lia)) Hs) as Hval.
  change (64 ^ Z.of_nat 1) with 64 in *. change (64 ^ Z.of_nat 2) with 4096 in *. change (64 ^ Z.of_nat 3) with 262144 in *.
  destruct (Z.ltb_spec u 128); [| destruct (Z.ltb_spec u 2048); [| destruct (Z.ltb_spec u 65536)]];
    cbn [app] in *; apply bytes_ok_cons in Hok as [Hc Hok]; rewrite get_utf8_cons by done.
  - by replace (u <? 128) with true by lia.
  - pose proof (Z.div_mod u 64 ltac:(lia)). pose proof (Z.mod_pos_bound u 64 ltac:(lia)).
    set (q := u / 64) in *. replace (192 + q <? 128) with false by lia. replace (_ && _) with true by lia.
    replace (192 + q - 192) with q by lia. apply utf8_tail_spec; [done | lia | lia |]. done.
  - pose proof (Z.div_mod u 4096 ltac:(lia)). pose proof (Z.mod_pos_bound u 4096 ltac:(lia)).
    set (q := u / 4096) in *. replace (224 + q <? 128) with false by lia.
    replace ((192 <=? 224 + q) && _) with false by lia. replace (_ && _) with true by lia.
    replace (224 + q - 224) with q by lia. apply utf8_tail_spec; [done | lia | lia |]. done.
  - pose proof (Z.div_mod u 262144 ltac:(lia)). pose proof (Z.mod_pos_bound u 262144 ltac:(lia)).
    set (q := u / 262144) in *. replace (240 + q <? 128) with false by lia.
    replace ((192 <=? 240 + q) && _) with false by lia. replace ((224 <=? 240 + q) && _) with false by lia.
    replace (_ && _) with true by lia.
    replace (240 + q - 240) with q by lia. apply utf8_tail_spec; [done | lia | lia |]. done.
Qed.

(** ** The writer *)

Lemma lor_top n x : 1 <= n <= 4 -> 0 <= x < 2 ^ (8 - n) -> Z.lor (TOP_BITS n) x = 2 ^ 8 - 2 ^ (8 - n) + x.
Proof.
  intros Hn Hx.
  assert (TOP_BITS n = Z.shiftl (2 ^ n - 1) (8 - n)) as ->.
  { assert (n = 1 \/ n = 2 \/ n = 3 \/ n = 4) as [-> | [-> | [-> | ->]]] by lia; reflexivity. }
  rewrite lor_shiftl_add by (unfold fits; lia). rewrite Z.mul_sub_distr_r, <- Z.pow_add_r by lia.
  replace (n + (8 - n)) with 8 by lia. lia.
Qed.

Lemma lor_cont u : Z.lor (TOP_BITS 1) (Z.land u (BOTTOM_BITS 6)) = 0x80 + u mod 64.
Proof.
  rewrite land_bottom by lia. change (2 ^ 6) with 64. pose proof (Z.mod_pos_bound u 64).
  rewrite lor_top by (z_eval; lia). done.
Qed.

Lemma add_utf8_adds realloc_ok d u :
  (forall n, realloc_ok n = true) -> scalar u -> adds d (utf8 u) (cbb_add_utf8 realloc_ok d u).
Proof.
  intros Hr Hs. pose proof Hs as (Hu & _).
  pose proof (proj2 (valid_code_point_spec u ltac:(lia)) Hs) as Hval.
  assert (forall b b', b = b' -> 0 <= b' < 256 -> adds d [b'] (CBB_add_u8 realloc_ok d (u8 b))) as Hadd.
  { intros b b' -> Hb. rewrite wrap_id by exact Hb. by apply add_u8_adds. }
  assert (forall w, adds d [0x80 + w mod 64]
            (CBB_add_u8 realloc_ok d (u8 (Z.lor (TOP_BITS 1) (Z.land w (BOTTOM_BITS 6)))))) as Hcont.
  { intros w. apply Hadd; [apply lor_cont |]. pose proof (Z.mod_pos_bound w 64). lia. }
  unfold cbb_add_utf8, utf8. rewrite Hval. cbn [negb]. cbv zeta.
  rewrite !Z.shiftr_div_pow2 by lia. change (2 ^ 6) with 64. change (2 ^ 12) with 4096. change (2 ^ 18) with 262144.
  replace (u <=? 0x7f) with (u <? 128) by lia. destruct (Z.ltb_spec u 128); [apply Hadd; [done | lia] |].
  replace (u <=? 0x7ff) with (u <? 2048) by lia. destruct (Z.ltb_spec u 2048).
  { apply (adds_and d [_]); [| apply Hcont]. pose proof (Z.div_mod u 64). pose proof (Z.mod_pos_bound u 64).
    apply Hadd; [rewrite lor_top by (z_eval; lia); done | lia]. }
  replace (u <=? 0xffff) with (u <? 65536) by lia. destruct (Z.ltb_spec u 65536).
  { apply (adds_and d [_]); [| apply (adds_and d [_]); apply Hcont].
    pose proof (Z.div_mod u 4096). pose proof (Z.mod_pos_bound u 4096).
    apply Hadd; [rewrite lor_top by (z_eval; lia); done | lia]. }
  replace (u <=? 0x10ffff) with true by lia.
  apply (adds_and d [_]); [| apply (adds_and d [_]); [apply Hcont | apply (adds_and d [_]); apply Hcont]].
  pose proof (Z.div_mod u 262144). pose proof (Z.mod_pos_bound u 262144).
  apply Hadd; [rewrite lor_top by (z_eval; lia); done | lia].
Qed.

Lemma invalid_fails u : 0 <= u -> ~ scalar u -> is_valid_code_point u = false.
Proof.
  intros Hu Hn. destruct (is_valid_code_point u) eqn:E; [| done].
  by apply valid_code_point_spec in E.
Qed.

Lemma utf8_len u : 0 <= u -> len (utf8 u) = cbb_get_utf8_len u.
Proof.
  intros Hu. unfold utf8, cbb_get_utf8_len. replace (u <=? 0x7f) with (u <? 128) by lia.
  replace (u <=? 0x7ff) with (u <? 2048) by lia. replace (u <=? 0xffff) with (u <? 65536) by lia.
  by repeat case_match.
Qed.

Lemma utf8_ok u : scalar u -> bytes_ok (utf8 u).
Proof.
  intros (Hu & _). unfold utf8. assert (forall w, 0 <= w mod 64 < 64) as Hm by (intros; apply Z.mod_pos_bound; lia).
  assert (forall w, byte_ok (0x80 + w mod 64)) as Hc by (intros w; specialize (Hm w); unfold byte_ok; lia).
  repeat case_match; repeat (constructor; try apply Hc); unfold byte_ok; Z.to_euclidean_division_equations; lia.
Qed.

(** ** Fixed-width encodings *)

Lemma get_u_spec n cbs u rest :
  (n <= 8)%nat -> bytes_ok cbs ->
  cbs_get_u (Z.of_nat n) cbs = (Some u, rest) <-> cbs = be_bytes n u ++ rest /\ 0 <= u < 256 ^ Z.of_nat n.
Proof.
  intros Hn Hok. split.
  - rewrite cbs_get_u_eq by (try done; lia). destruct (Z.ltb_spec (len cbs) (Z.of_nat n)); [done |].
    intros [<- <-]%ok_inj. rewrite Nat2Z.id.
    pose proof (be_value_bound (take n cbs) ltac:(by apply bytes_ok_take)) as Hb.
    assert (length (take n cbs) = n) as Hl by (rewrite length_take; unfold len in *; lia).
    unfold len in Hb. rewrite Hl in Hb. split; [| exact Hb].
    pose proof (be_bytes_value (take n cbs) ltac:(by apply bytes_ok_take)) as E. rewrite Hl in E.
    by rewrite E, take_drop.
  - intros [-> Hu]. apply bytes_ok_app in Hok as [_ Hr]. by apply read_be.
Qed.

Lemma get_be16 cbs u rest :
  bytes_ok cbs -> CBS_get_u16 cbs = (Some u, rest) <-> cbs = be_bytes 2 u ++ rest /\ fits 16 u.
Proof.
  intros Hok. rewrite <- (get_u_spec 2) by (try done; lia). unfold CBS_get_u16. rewrite p_bind_Some. unfold p_ret.
  change (Z.of_nat 2) with 2. split.
  - intros (v & c & H & [<- <-]%ok_inj). pose proof H as [_ Hv]%(get_u_spec 2); [| lia | done].
    by rewrite wrap_id.
  - intros H. exists u, rest. split; [done |]. apply (get_u_spec 2) in H as [_ Hv]; [| lia | done]. by rewrite wrap_id.
Qed.

Lemma get_be32 cbs u rest :
  bytes_ok cbs -> CBS_get_u32 cbs = (Some u, rest) <-> cbs = be_bytes 4 u ++ rest /\ fits 32 u.
Proof.
  intros Hok. rewrite <- (get_u_spec 4) by (try done; lia). unfold CBS_get_u32. rewrite p_bind_Some. unfold p_ret.
  change (Z.of_nat 4) with 4. split.
  - intros (v & c & H & [<- <-]%ok_inj). pose proof H as [_ Hv]%(get_u_spec 4); [| lia | done].
    by rewrite wrap_id.
  - intros H. exists u, rest. split; [done |]. apply (get_u_spec 4) in H as [_ Hv]; [| lia | done]. by rewrite wrap_id.
Qed.

Lemma checked_code_point (m : parser Z) cbs u rest :
  (let! c := m in check is_valid_code_point c ;; p_ret c) cbs = (Some u, rest) <->
  m cbs = (Some u, rest) /\ is_valid_code_point u = true.
Proof.
  rewrite p_bind_Some. setoid_rewrite p_bind_Some. setoid_rewrite p_guard_Some. unfold p_ret. split.
  - intros (v & c & H & [] & c' & [Hv ->] & [-> ->]%ok_inj). done.
  - intros [H Hv]. exists u, rest. split; [done |]. exists tt, rest. done.
Qed.

(** * Properties *)

(** C33: UTF-8 is exact in both directions.  [cbs_get_utf8] accepts exactly the RFC 3629
    encodings of Unicode scalar values that are not noncharacters, shortest form only, and
    consumes exactly that encoding; [cbb_add_utf8] writes that encoding and fails on every
    other 32-bit value; [cbb_get_utf8_len] is its length. *)
Theorem utf8_exact realloc_ok cbs u rest :
  (forall n, realloc_ok n = true) -> bytes_ok cbs -> fits 32 u ->
  (cbs_get_utf8 cbs = (Some u, rest) <-> cbs = utf8 u ++ rest /\ scalar u) /\
  (scalar u -> built realloc_ok (cbb_add_utf8 realloc_ok 0 u) = Some (utf8 u) /\
               len (utf8 u) = cbb_get_utf8_len u) /\
  (~ scalar u -> forall st, cbb_add_utf8 realloc_ok 0 u st = (false, st)).
Proof.
  intros Hr Hok [Hu _]. split_and!.
  - split; [by apply get_utf8_sound |]. intros [-> Hs]. by apply get_utf8_complete.
  - intros Hs. split; [| by apply utf8_len]. eapply built_adds; [done | by apply add_utf8_adds |].
    rewrite utf8_len by done. unfold cbb_get_utf8_len. repeat case_match; lia.
  - intros Hs st. unfold cbb_add_utf8. by rewrite invalid_fails.
Qed.

Lemma utf8_exact_witness :
  cbs_get_utf8 [0xe2; 0x82; 0xac; 7] = (Some 0x20ac, [7]) /\
  built (fun _ => true) (cbb_add_utf8 (fun _ => true) 0 0x20ac) = Some [0xe2; 0x82; 0xac].
Proof.
  assert (scalar 0x20ac) as Hs by (unfold scalar; vm_compute; repeat split; discriminate || intros []; congruence).
  destruct (utf8_exact (fun _ => true) [0xe2; 0x82; 0xac; 7] 0x20ac [7]) as (H1 & H2 & _);
    [done | apply (bool_decide_unpack _); vm_compute; exact I | by unfold fits |].
  split; [by apply H1 | by apply H2].
Defined.

(** the fixed-width readers accept exactly what the fixed-width writers write: Latin-1
    every byte, UCS-2 (big-endian) the valid code points below 2^16, surrogates excluded,
    UTF-32 (big-endian) every valid code point; the writers fail on all other values. *)
Theorem fixed_width_unicode_exact realloc_ok cbs u rest :
  (forall n, realloc_ok n = true) -> bytes_ok cbs -> fits 32 u ->
  let exact (get : parser Z) (add : Z -> op) (enc : Z -> bytes) (P : Prop) :=
    (get cbs = (Some u, rest) <-> cbs = enc u ++ rest /\ P) /\
    (P -> built realloc_ok (add u) = Some (enc u)) /\
    (~ P -> forall st, add u st = (false, st)) in
  exact cbs_get_latin1 (cbb_add_latin1 realloc_ok 0) (be_bytes 1) (u < 0x100) /\
  exact cbs_get_ucs2_be (cbb_add_ucs2_be realloc_ok 0) (be_bytes 2) (scalar u /\ u < 0x10000) /\
  exact cbs_get_utf32_be (cbb_add_utf32_be realloc_ok 0) (be_bytes 4) (scalar u).
Proof.
  intros Hr Hok Hu exact. pose proof Hu as [Hu0 Hu1]. unfold exact. split_and!.
  - unfold cbs_get_latin1. rewrite p_bind_Some. setoid_rewrite get_u8_Some. unfold p_ret. split.
    + intros (c & cs & -> & [-> ->]%ok_inj). apply bytes_ok_cons in Hok as [Hc _]. unfold byte_ok in Hc.
      cbn. rewrite Z.mod_small by lia. split; [done | lia].
    + intros [-> Hlt]. cbn. rewrite Z.mod_small by lia. eauto.
  - intros Hlt. unfold cbb_add_latin1. replace (u <=? 0xff) with true by lia.
    rewrite wrap_id by (unfold fits; lia). by apply built_be.
  - intros Hge st. unfold cbb_add_latin1. by replace (u <=? 0xff) with false by lia.
  - unfold cbs_get_ucs2_be. rewrite checked_code_point, get_be16, valid_code_point_spec by done.
    unfold fits. change (2 ^ 16) with 0x10000. naive_solver lia.
  - intros [Hs Hlt]. unfold cbb_add_ucs2_be. rewrite (proj2 (valid_code_point_spec u Hu0) Hs).
    replace (_ && _) with true by lia. rewrite wrap_id by (unfold fits; lia). by apply built_be.
  - intros Hn st. unfold cbb_add_ucs2_be. destruct (is_valid_code_point u) eqn:E; [| by rewrite andb_false_r].
    apply valid_code_point_spec in E; [| done]. replace (u <=? 0xffff) with false; [done |].
    destruct (Z.leb_spec u 0xffff); [| done]. exfalso. apply Hn. split; [done | lia].
  - unfold cbs_get_utf32_be. by rewrite checked_code_point, get_be32, valid_code_point_spec by done; naive_solver.
  - intros Hs. unfold cbb_add_utf32_be. rewrite (proj2 (valid_code_point_spec u Hu0) Hs). by apply built_be.
  - intros Hn st. unfold cbb_add_utf32_be. by rewrite invalid_fails.
Qed.

Lemma fixed_width_unicode_exact_witness :
  cbs_get_ucs2_be [0x20; 0xac; 7] = (Some 0x20ac, [7]).
Proof.
  destruct (fixed_width_unicode_exact (fun _ => true) [0x20; 0xac; 7] 0x20ac [7]) as (_ & (H & _) & _);
    [done | apply (bool_decide_unpack _); vm_compute; exact I | by unfold fits |].
  apply H. split; [reflexivity |]. split; [| reflexivity].
  unfold scalar. vm_compute. repeat split; discriminate || intros []; congruence.
Defined.

End Unicode.
