(* ===== verification/Base64.v ===== *)
(** Base64 (crypto/base64/base64.c): block and streaming encoder and decoder.

    An output pointer is the list of bytes stored through it; the terminating NUL the
    encoder also stores is not part of it.  [data] of an [EVP_ENCODE_CTX] is the list of
    its [data_used] valid bytes. *)

From S2P Require Import Prelude Internal.
Import Internal.

Module Base64.

Definition INT_MAX : Z := 2 ^ 31 - 1.

(** * Characters *)

Definition constant_time_lt_args_8 (a b : Z) : Z := u8 (constant_time_msb_w (u64 (a - b))).

Definition constant_time_in_range_8 (a min max : Z) : Z :=
  constant_time_lt_args_8 (u8 (a - min)) (u8 (max - min + 1)).

Definition conv_bin2ascii (a : Z) : Z :=
  let a := Z.land a 0x3f in
  let ret := constant_time_select_8 (constant_time_eq_8 a 62) 43 47 in
  let ret := constant_time_select_8 (constant_time_lt_args_8 a 62) (u8 (a - 52 + 48)) ret in
  let ret := constant_time_select_8 (constant_time_lt_args_8 a 52) (u8 (a - 26 + 97)) ret in
  constant_time_select_8 (constant_time_lt_args_8 a 26) (u8 (a + 65)) ret.

Definition base64_ascii_to_bin (a : Z) : Z :=
  let is_upper := constant_time_in_range_8 a 65 90 in
  let is_lower := constant_time_in_range_8 a 97 122 in
  let is_digit := constant_time_in_range_8 a 48 57 in
  let is_plus := constant_time_eq_8 a 43 in
  let is_slash := constant_time_eq_8 a 47 in
  let is_equals := constant_time_eq_8 a 61 in
  let ret := u8 (Z.land is_upper (u64 (a - 65))) in
  let ret := Z.lor ret (Z.land is_lower (u64 (a - 97 + 26))) in
  let ret := Z.lor ret (Z.land is_digit (u64 (a - 48 + 52))) in
  let ret := Z.lor ret (Z.land is_plus 62) in
  let ret := Z.lor ret (Z.land is_slash 63) in
  let is_valid := Z.lor (Z.lor (Z.lor (Z.lor (Z.lor is_upper is_lower) is_digit) is_plus) is_slash) is_equals in
  Z.lor ret (wnot 8 is_valid).

(** * Encoding *)

Definition EVP_EncodedLength (n : Z) : option Z :=
  if u64 (n + 2) <? n then None
  else
    let n := u64 (n + 2) / 3 in
    if negb (Z.shiftr (u64 (Z.shiftl n 2)) 2 =? n) then None
    else
      let n := u64 (Z.shiftl n 2) in
      if u64 (n + 1) <? n then None else Some (u64 (n + 1)).

Fixpoint EVP_EncodeBlock (src : bytes) : bytes :=
  match src with
  | [] => []
  | s0 :: s1 :: s2 :: src =>
      let l := Z.lor (Z.lor (Z.shiftl s0 16) (Z.shiftl s1 8)) s2 in
      conv_bin2ascii (u8 (Z.shiftr l 18)) :: conv_bin2ascii (u8 (Z.shiftr l 12))
      :: conv_bin2ascii (u8 (Z.shiftr l 6)) :: conv_bin2ascii (u8 l) :: EVP_EncodeBlock src
  | [s0; s1] =>
      let l := Z.lor (Z.shiftl s0 16) (Z.shiftl s1 8) in
      [conv_bin2ascii (u8 (Z.shiftr l 18)); conv_bin2ascii (u8 (Z.shiftr l 12));
       conv_bin2ascii (u8 (Z.shiftr l 6)); 61]
  | [s0] =>
      let l := Z.shiftl s0 16 in
      [conv_bin2ascii (u8 (Z.shiftr l 18)); conv_bin2ascii (u8 (Z.shiftr l 12)); 61; 61]
  end.

Record EVP_ENCODE_CTX := mk_ctx { data : bytes; eof_seen : bool; error_encountered : bool }.

Definition EVP_EncodeInit : EVP_ENCODE_CTX := mk_ctx [] false false.

Definition set_data (ctx : EVP_ENCODE_CTX) (d : bytes) : EVP_ENCODE_CTX :=
  mk_ctx d (eof_seen ctx) (error_encountered ctx).

(** [while (in_len >= sizeof(ctx->data))]; the length of the input is enough fuel.  [None]
    is the overflow of [total]. *)
Fixpoint encode_update_loop (fuel : nat) (inp out : bytes) : option (bytes * bytes) :=
  match fuel with
  | O => Some (out, inp)
  | S fuel =>
      if len inp >=? 48 then
        let encoded := EVP_EncodeBlock (take 48 inp) in
        if u64 (len out + len encoded + 1) <? len out then None
        else encode_update_loop fuel (drop 48 inp) (out ++ encoded ++ [10])
      else Some (out, inp)
  end.

(** The return value, the [*out_len] bytes of output and the new context. *)
Definition EVP_EncodeUpdate (ctx : EVP_ENCODE_CTX) (inp : bytes) : bool * bytes * EVP_ENCODE_CTX :=
  if len inp =? 0 then (false, [], ctx)
  else if 48 - len (data ctx) >? len inp then (true, [], set_data ctx (data ctx ++ inp))
  else
    let '(out, inp) :=
      if negb (len (data ctx) =? 0) then
        let todo := Z.to_nat (48 - len (data ctx)) in
        (EVP_EncodeBlock (data ctx ++ take todo inp) ++ [10], drop todo inp)
      else ([], inp) in
    match encode_update_loop (length inp) inp out with
    | None => (false, [], set_data ctx [])
    | Some (out, inp) =>
        if len out >? INT_MAX then (false, [], set_data ctx inp)
        else (true, out, set_data ctx inp)
    end.

Definition EVP_EncodeFinal (ctx : EVP_ENCODE_CTX) : bytes * EVP_ENCODE_CTX :=
  if len (data ctx) =? 0 then ([], ctx)
  else (EVP_EncodeBlock (data ctx) ++ [10], set_data ctx []).

(** * Decoding *)

Definition EVP_DecodedLength (n : Z) : option Z :=
  if negb (n mod 4 =? 0) then None else Some (n / 4 * 3).

Definition EVP_DecodeInit : EVP_ENCODE_CTX := mk_ctx [] false false.

(** Four characters. *)
Definition base64_decode_quad (i0 i1 i2 i3 : Z) : option bytes :=
  let a := base64_ascii_to_bin i0 in
  let b := base64_ascii_to_bin i1 in
  let c := base64_ascii_to_bin i2 in
  let d := base64_ascii_to_bin i3 in
  if (a =? 0xff) || (b =? 0xff) || (c =? 0xff) || (d =? 0xff) then None
  else
    let v := Z.lor (Z.lor (Z.lor (Z.shiftl a 18) (Z.shiftl b 12)) (Z.shiftl c 6)) d in
    let padding_pattern :=
      Z.lor (Z.lor (Z.lor (Z.shiftl (Z.b2z (i0 =? 61)) 3) (Z.shiftl (Z.b2z (i1 =? 61)) 2))
               (Z.shiftl (Z.b2z (i2 =? 61)) 1)) (Z.b2z (i3 =? 61)) in
    if padding_pattern =? 0 then Some [u8 (Z.shiftr v 16); u8 (Z.shiftr v 8); u8 v]
    else if padding_pattern =? 1 then Some [u8 (Z.shiftr v 16); u8 (Z.shiftr v 8)]
    else if padding_pattern =? 3 then Some [u8 (Z.shiftr v 16)]
    else None.

Definition is_whitespace (c : Z) : bool := (c =? 32) || (c =? 9) || (c =? 13) || (c =? 10).

Definition set_error (ctx : EVP_ENCODE_CTX) : EVP_ENCODE_CTX := mk_ctx (data ctx) (eof_seen ctx) true.

(** The loop of [EVP_DecodeUpdate]; [None] is its early return. *)
Fixpoint decode_update_loop (inp : bytes) (ctx : EVP_ENCODE_CTX) (out : bytes) : option bytes * EVP_ENCODE_CTX :=
  match inp with
  | [] => (Some out, ctx)
  | c :: inp =>
      if is_whitespace c then decode_update_loop inp ctx out
      else if eof_seen ctx then (None, set_error ctx)
      else
        let ctx := set_data ctx (data ctx ++ [c]) in
        match data ctx with
        | [i0; i1; i2; i3] =>
            match base64_decode_quad i0 i1 i2 i3 with
            | None => (None, set_error ctx)
            | Some bs =>
                decode_update_loop inp
                  (mk_ctx [] (if len bs <? 3 then true else eof_seen ctx) (error_encountered ctx))
                  (out ++ bs)
            end
        | _ => decode_update_loop inp ctx out
        end
  end.

(** The return value, the [*out_len] bytes of output and the new context. *)
Definition EVP_DecodeUpdate (ctx : EVP_ENCODE_CTX) (inp : bytes) : Z * bytes * EVP_ENCODE_CTX :=
  if error_encountered ctx then (-1, [], ctx)
  else
    match decode_update_loop inp ctx [] with
    | (None, ctx) => (-1, [], ctx)
    | (Some out, ctx) =>
        if len out >? INT_MAX then (-1, [], set_error ctx)
        else (if eof_seen ctx then 0 else 1, out, ctx)
    end.

Definition EVP_DecodeFinal (ctx : EVP_ENCODE_CTX) : Z :=
  if error_encountered ctx || negb (len (data ctx) =? 0) then -1 else 1.

(** The loop of [EVP_DecodeBase64] over an input whose length is a multiple of four. *)
Fixpoint decode_base64_loop (inp out : bytes) : option bytes :=
  match inp with
  | i0 :: i1 :: i2 :: i3 :: rest =>
      match base64_decode_quad i0 i1 i2 i3 with
      | None => None
      | Some bs =>
          if negb (len bs =? 3) && negb (len rest =? 0) then None
          else decode_base64_loop rest (out ++ bs)
      end
  | _ => Some out
  end.

Definition EVP_DecodeBase64 (max_out : Z) (inp : bytes) : option bytes :=
  if negb (len inp mod 4 =? 0) then None
  else
    match EVP_DecodedLength (len inp) with
    | None => None
    | Some max_len => if max_out <? max_len then None else decode_base64_loop inp []
    end.

Fixpoint trim_front (src : bytes) : bytes :=
  match src with
  | c :: rest => if negb (c =? 32) && negb (c =? 9) then src else trim_front rest
  | [] => []
  end.

(** [src_len--] while the last byte is white space; the length is enough fuel. *)
Fixpoint trim_back (fuel : nat) (src : bytes) : bytes :=
  match fuel with
  | O => src
  | S fuel =>
      match list.last src with
      | Some c => if is_whitespace c then trim_back fuel (take (length src - 1) src) else src
      | None => src
      end
  end.

(** [while (dst_len % 3 != 0) dst[dst_len++] = 0]; runs at most twice *)
Fixpoint pad_loop (fuel : nat) (dst : bytes) : bytes :=
  match fuel with
  | O => dst
  | S fuel => if negb (len dst mod 3 =? 0) then pad_loop fuel (dst ++ [0]) else dst
  end.

(** The [-1] return is [None]; otherwise the bytes stored, whose number is returned. *)
Definition EVP_DecodeBlock (src : bytes) : option bytes :=
  let src := trim_front src in
  let src := trim_back (length src) src in
  match EVP_DecodedLength (len src) with
  | None => None
  | Some dst_len =>
      if dst_len >? INT_MAX then None
      else match EVP_DecodeBase64 dst_len src with
           | None => None
           | Some dst => Some (pad_loop 3 dst)
           end
  end.

Example encode_man : EVP_EncodeBlock [77; 97; 110; 77] = [84; 87; 70; 117; 84; 81; 61; 61].
Proof. reflexivity. Qed.

Example decode_man : EVP_DecodeBase64 100 [84; 87; 70; 117; 84; 81; 61; 61] = Some [77; 97; 110; 77].
Proof. reflexivity. Qed.

(** * The alphabet *)

(** The characters of RFC 4648, table 1. *)
Definition alphabet : bytes := seqZ 65 26 ++ seqZ 97 26 ++ seqZ 48 10 ++ [43; 47].

Definition ch (v : Z) : Z := alphabet !!! Z.to_nat v.

Definition sextet (v : Z) : Prop := 0 <= v < 64.

Lemma conv_bin2ascii_ch a : byte_ok a -> conv_bin2ascii a = ch (a mod 64).
Proof.
  intros Ha. apply Z.eqb_eq. revert a Ha. apply byte_forall. vm_compute. reflexivity.
Qed.

Lemma conv_u8 x : conv_bin2ascii (u8 x) = ch (x mod 64).
Proof.
  rewrite conv_bin2ascii_ch by apply byte_ok_wrap. unfold wrap. f_equal.
  change (2 ^ 8) with (64 * 4). rewrite Z.rem_mul_r, Z.mul_comm, Z.mod_add, Z.mod_mod by lia. done.
Qed.

Lemma ch_facts v :
  sextet v -> byte_ok (ch v) /\ base64_ascii_to_bin (ch v) = v /\ ch v <> 61 /\ is_whitespace (ch v) = false.
Proof.
  intros Hv. unfold sextet in Hv. assert (byte_ok v) as Hb by (unfold byte_ok; lia).
  pose proof (byte_forall (fun v => negb (v <? 64) || ((0 <=? ch v) && (ch v <? 256) && (base64_ascii_to_bin (ch v) =? v)
    && negb (ch v =? 61) && negb (is_whitespace (ch v)))) eq_refl v Hb) as H.
  cbv beta in H. replace (v <? 64) with true in H by lia. cbn [negb orb] in H. rewrite !andb_true_iff in H.
  destruct H as [[[[H1 H2] H3] H4] H5]. unfold byte_ok. split_and!; [lia | lia | lia | lia | by apply negb_true_iff].
Qed.

Lemma bin_of_ch v : sextet v -> base64_ascii_to_bin (ch v) = v.
Proof. apply ch_facts. Qed.

Lemma ascii_to_bin_inv i :
  byte_ok i -> base64_ascii_to_bin i <> 0xff -> i = 61 \/ exists v, sextet v /\ i = ch v.
Proof.
  intros Hi Hv. pose proof (byte_forall (fun i => (base64_ascii_to_bin i =? 0xff) || (i =? 61)
    || ((0 <=? base64_ascii_to_bin i) && (base64_ascii_to_bin i <? 64) && (ch (base64_ascii_to_bin i) =? i))) eq_refl i Hi) as H.
  cbv beta in H. destruct (Z.eqb_spec i 61); [by left |]. right. exists (base64_ascii_to_bin i). unfold sextet. lia.
Qed.

(** * Quads *)

(** Four characters and the one to three bytes they stand for. *)
Inductive quad : bytes -> bytes -> Prop :=
| quad_full a b c d :
    sextet a -> sextet b -> sextet c -> sextet d ->
    quad [ch a; ch b; ch c; ch d] [a * 4 + b / 16; b mod 16 * 16 + c / 4; c mod 4 * 64 + d]
| quad_pad1 a b c :
    sextet a -> sextet b -> sextet c -> quad [ch a; ch b; ch c; 61] [a * 4 + b / 16; b mod 16 * 16 + c / 4]
| quad_pad2 a b :
    sextet a -> sextet b -> quad [ch a; ch b; 61; 61] [a * 4 + b / 16].

Lemma quad_value a b c d :
  sextet a -> sextet b -> sextet c -> sextet d ->
  Z.lor (Z.lor (Z.lor (Z.shiftl a 18) (Z.shiftl b 12)) (Z.shiftl c 6)) d = a * 2 ^ 18 + b * 2 ^ 12 + c * 2 ^ 6 + d.
Proof.
  unfold sextet. intros Ha Hb Hc Hd.
  rewrite (lor_shiftl_add a (Z.shiftl b 12) 18) by (unfold fits; rewrite ?Z.shiftl_mul_pow2 by lia; lia).
  replace (a * 2 ^ 18 + Z.shiftl b 12) with (Z.shiftl (a * 64 + b) 12) by (rewrite !Z.shiftl_mul_pow2 by lia; lia).
  rewrite (lor_shiftl_add _ (Z.shiftl c 6) 12) by (unfold fits; rewrite ?Z.shiftl_mul_pow2 by lia; lia).
  replace ((a * 64 + b) * 2 ^ 12 + Z.shiftl c 6) with (Z.shiftl ((a * 64 + b) * 64 + c) 6)
    by (rewrite !Z.shiftl_mul_pow2 by lia; lia).
  rewrite lor_shiftl_add by (unfold fits; lia). lia.
Qed.

Lemma quad_bytes a b c d :
  sextet a -> sextet b -> sextet c -> sextet d ->
  let v := a * 2 ^ 18 + b * 2 ^ 12 + c * 2 ^ 6 + d in
  u8 (Z.shiftr v 16) = a * 4 + b / 16 /\ u8 (Z.shiftr v 8) = b mod 16 * 16 + c / 4 /\ u8 v = c mod 4 * 64 + d.
Proof.
  unfold sextet, wrap. intros Ha Hb Hc Hd. cbn zeta. rewrite !Z.shiftr_div_pow2 by lia.
  z_eval. split_and!; Z.to_euclidean_division_equations; lia.
Qed.

(** A valid character is the padding or stands for a sextet. *)
Definition chr (x : option Z) : Z := match x with Some v => ch v | None => 61 end.
Definition chr_value (x : option Z) : Z := match x with Some v => v | None => 0 end.
Definition chr_ok (x : option Z) : Prop := match x with Some v => sextet v | None => True end.

Lemma chr_facts x :
  chr_ok x -> base64_ascii_to_bin (chr x) = chr_value x /\ (chr x =? 61) = bool_decide (x = None) /\ sextet (chr_value x).
Proof.
  destruct x as [v |]; cbn; intros Hx; [| done]. destruct (ch_facts v Hx) as (_ & H1 & H2 & _).
  split_and!; [done | by apply Z.eqb_neq in H2 as -> | apply Hx].
Qed.

Lemma decode_quad_eval x0 x1 x2 x3 :
  chr_ok x0 -> chr_ok x1 -> chr_ok x2 -> chr_ok x3 ->
  base64_decode_quad (chr x0) (chr x1) (chr x2) (chr x3) =
  match x0, x1, x2, x3 with
  | Some a, Some b, Some c, Some d => Some [a * 4 + b / 16; b mod 16 * 16 + c / 4; c mod 4 * 64 + d]
  | Some a, Some b, Some c, None => Some [a * 4 + b / 16; b mod 16 * 16 + c / 4]
  | Some a, Some b, None, None => Some [a * 4 + b / 16]
  | _, _, _, _ => None
  end.
Proof.
  intros H0 H1 H2 H3. unfold base64_decode_quad.
  destruct (chr_facts x0 H0) as (-> & -> & S0). destruct (chr_facts x1 H1) as (-> & -> & S1).
  destruct (chr_facts x2 H2) as (-> & -> & S2). destruct (chr_facts x3 H3) as (-> & -> & S3).
  rewrite quad_value by done. destruct (quad_bytes _ _ _ _ S0 S1 S2 S3) as (-> & -> & ->).
  unfold sextet in *. replace (_ || _ || _ || _) with false by lia.
  destruct x0, x1, x2, x3; reflexivity.
Qed.

Lemma decode_quad_spec i0 i1 i2 i3 out :
  bytes_ok [i0; i1; i2; i3] -> base64_decode_quad i0 i1 i2 i3 = Some out <-> quad [i0; i1; i2; i3] out.
Proof.
  rewrite !bytes_ok_cons. intros (H0 & H1 & H2 & H3 & _). split.
  - intros H. assert (forall i, byte_ok i -> base64_ascii_to_bin i <> 0xff -> exists x, chr_ok x /\ i = chr x) as Hinv.
    { intros i Hi Hv. destruct (ascii_to_bin_inv i Hi Hv) as [-> | (v & Hs & ->)]; [by exists None | by exists (Some v)]. }
    destruct ((base64_ascii_to_bin i0 =? 0xff) || (base64_ascii_to_bin i1 =? 0xff)
              || (base64_ascii_to_bin i2 =? 0xff) || (base64_ascii_to_bin i3 =? 0xff)) eqn:E;
      [unfold base64_decode_quad in H; by rewrite E in H |].
    destruct (Hinv i0 H0) as (x0 & V0 & ->); [lia |]. destruct (Hinv i1 H1) as (x1 & V1 & ->); [lia |].
    destruct (Hinv i2 H2) as (x2 & V2 & ->); [lia |]. destruct (Hinv i3 H3) as (x3 & V3 & ->); [lia |].
    rewrite decode_quad_eval in H by done.
    destruct x0, x1, x2, x3; try done; injection H as <-; by constructor.
  - inversion 1 as [a b c d | a b c | a b]; subst.
    + by apply (decode_quad_eval (Some a) (Some b) (Some c) (Some d)).
    + by apply (decode_quad_eval (Some a) (Some b) (Some c) None).
    + by apply (decode_quad_eval (Some a) (Some b) None None).
Qed.

Lemma quad_ok text out : quad text out -> bytes_ok text /\ bytes_ok out /\ length text = 4%nat /\ (1 <= length out <= 3)%nat.
Proof.
  assert (forall v, sextet v -> byte_ok (ch v)) as Hch by (intros v Hv; apply ch_facts, Hv).
  assert (byte_ok 61) as Hp by (by unfold byte_ok).
  destruct 1 as [a b c d Ha Hb Hc Hd | a b c Ha Hb Hc | a b Ha Hb]; pose proof Ha; pose proof Hb;
    (split_and!; [repeat (constructor; [by auto |]); constructor | | done | cbn; lia | cbn; lia]);
    repeat constructor; unfold sextet in *; Z.to_euclidean_division_equations; lia.
Qed.

(** * Whole texts *)

(** Full quads, then possibly a padded one. *)
Inductive base64_text : bytes -> bytes -> Prop :=
| text_nil : base64_text [] []
| text_last t o : quad t o -> base64_text t o
| text_cons t o text out :
    quad t o -> length o = 3%nat -> base64_text text out -> base64_text (t ++ text) (o ++ out).

Lemma decode_loop_app inp acc :
  decode_base64_loop inp acc = out ← decode_base64_loop inp []; Some (acc ++ out).
Proof.
  revert acc. induction inp as [inp IH] using (induction_ltof1 _ length); intros acc.
  destruct inp as [| i0 [| i1 [| i2 [| i3 rest]]]]; cbn; try by rewrite app_nil_r.
  destruct (base64_decode_quad i0 i1 i2 i3) as [bs |]; [| done]. destruct (_ && _); [done |].
  assert (ltof _ length rest (i0 :: i1 :: i2 :: i3 :: rest)) as Hlt by (unfold ltof; cbn; lia).
  rewrite (IH rest Hlt (acc ++ bs)), (IH rest Hlt bs).
  destruct (decode_base64_loop rest []); cbn; [by rewrite app_assoc | done].
Qed.

Lemma quad_length t o : quad t o -> length t = 4%nat.
Proof. intros H. by apply quad_ok in H as (_ & _ & ? & _). Qed.

Lemma text_nil_inv out : base64_text [] out <-> out = [].
Proof.
  split; [| intros ->; constructor]. inversion 1 as [| t o Hq | t o text out' Hq]; subst; [done | |].
  - by apply quad_length in Hq.
  - apply quad_length in Hq. by destruct t.
Qed.

Lemma text_quad_inv i0 i1 i2 i3 rest out :
  base64_text ([i0; i1; i2; i3] ++ rest) out <->
  exists o, quad [i0; i1; i2; i3] o /\
    ((rest = [] /\ out = o) \/ (length o = 3%nat /\ exists out', base64_text rest out' /\ out = o ++ out')).
Proof.
  split.
  - intros H. remember ([i0; i1; i2; i3] ++ rest) as inp eqn:E. destruct H as [| t o Hq | t o text out' Hq Ho Ht].
    + done.
    + pose proof (quad_length _ _ Hq) as Hl. apply (f_equal length) in E as El.
      destruct rest; [| rewrite length_app in El; cbn in El; lia]. rewrite app_nil_r in E. subst t. eauto.
    + pose proof (quad_length _ _ Hq) as Hl. apply app_inj_1 in E as [-> ->]; [| done]. eauto 10.
  - intros (o & Hq & [[-> ->] | (Ho & out' & Ht & ->)]); [rewrite app_nil_r; by constructor | by constructor].
Qed.

Lemma decode_loop_spec inp out :
  bytes_ok inp -> len inp mod 4 = 0 ->
  decode_base64_loop inp [] = Some out <-> base64_text inp out.
Proof.
  revert out. induction inp as [inp IH] using (induction_ltof1 _ length); intros out Hok Hlen.
  destruct inp as [| i0 [| i1 [| i2 [| i3 rest]]]]; try done; [rewrite text_nil_inv; cbn; naive_solver |].
  change (i0 :: i1 :: i2 :: i3 :: rest) with ([i0; i1; i2; i3] ++ rest) in Hok |- *.
  apply bytes_ok_app in Hok as [Hok4 Hok].
  assert (ltof _ length rest (i0 :: i1 :: i2 :: i3 :: rest)) as Hlt by (unfold ltof; cbn; lia).
  assert (len rest mod 4 = 0) as Hr by (rewrite !len_cons in Hlen; Z.to_euclidean_division_equations; lia).
  rewrite text_quad_inv. setoid_rewrite <- decode_quad_spec; [| done].
  setoid_rewrite <- (IH rest Hlt _ Hok Hr). cbn [app decode_base64_loop].
  destruct (base64_decode_quad i0 i1 i2 i3) as [bs |]; [| naive_solver]. cbn [app].
  rewrite decode_loop_app. destruct (Z.eqb_spec (len bs) 3) as [H3 | H3]; cbn [negb andb].
  - assert (length bs = 3%nat) by (unfold len in H3; lia).
    destruct (decode_base64_loop rest []) as [o |] eqn:Er; cbn [mbind option_bind].
    + split; [intros [= <-]; eauto 10 |]. intros (? & [= <-] & [[-> ->] | (_ & ? & [= <-] & ->)]); [| done].
      cbn in Er. injection Er as <-. by rewrite app_nil_r.
    + split; [done |]. intros (? & [= <-] & [[-> ->] | (_ & ? & ? & _)]); done.
  - destruct (Z.eqb_spec (len rest) 0) as [E0 | E0]; cbn [negb].
    + apply len_nil_inv in E0 as ->. cbn. rewrite app_nil_r. split; [intros [= <-]; eauto 10 |].
      intros (? & [= <-] & [[_ ->] | (Ho & _)]); [done |]. unfold len in H3. lia.
    + split; [done |]. intros (? & [= <-] & [[-> ->] | (Ho & _)]); [done |]. unfold len in H3. lia.
Qed.

(** ** Encoding *)

Lemma encode3 s0 s1 s2 :
  bytes_ok [s0; s1; s2] -> exists t, quad t [s0; s1; s2] /\
    forall src, EVP_EncodeBlock (s0 :: s1 :: s2 :: src) = t ++ EVP_EncodeBlock src.
Proof.
  rewrite !bytes_ok_cons. unfold byte_ok. intros (H0 & H1 & H2 & _).
  exists [ch (s0 / 4); ch (s0 mod 4 * 16 + s1 / 16); ch (s1 mod 16 * 4 + s2 / 64); ch (s2 mod 64)]. split.
  - replace [s0; s1; s2] with
      [s0 / 4 * 4 + (s0 mod 4 * 16 + s1 / 16) / 16;
       (s0 mod 4 * 16 + s1 / 16) mod 16 * 16 + (s1 mod 16 * 4 + s2 / 64) / 4;
       (s1 mod 16 * 4 + s2 / 64) mod 4 * 64 + s2 mod 64]
      by (repeat f_equal; Z.to_euclidean_division_equations; lia).
    constructor; unfold sextet; Z.to_euclidean_division_equations; lia.
  - intros src. cbn [EVP_EncodeBlock]. cbv zeta. rewrite !conv_u8.
    rewrite (lor_shiftl_add s0 (Z.shiftl s1 8) 16) by (unfold fits; rewrite ?Z.shiftl_mul_pow2 by lia; lia).
    replace (s0 * 2 ^ 16 + Z.shiftl s1 8) with (Z.shiftl (s0 * 256 + s1) 8) by (rewrite !Z.shiftl_mul_pow2 by lia; lia).
    rewrite lor_shiftl_add by (unfold fits; lia). rewrite !Z.shiftr_div_pow2 by lia. z_eval. cbn [app].
    set (l := (s0 * 256 + s1) * 256 + s2).
    replace (l / 262144 mod 64) with (s0 / 4) by (unfold l; Z.to_euclidean_division_equations; lia).
    replace (l / 4096 mod 64) with (s0 mod 4 * 16 + s1 / 16) by (unfold l; Z.to_euclidean_division_equations; lia).
    replace (l / 64 mod 64) with (s1 mod 16 * 4 + s2 / 64) by (unfold l; Z.to_euclidean_division_equations; lia).
    replace (l mod 64) with (s2 mod 64) by (unfold l; Z.to_euclidean_division_equations; lia). done.
Qed.

Lemma encode2 s0 s1 : bytes_ok [s0; s1] -> quad (EVP_EncodeBlock [s0; s1]) [s0; s1].
Proof.
  rewrite !bytes_ok_cons. unfold byte_ok. intros (H0 & H1 & _). cbn [EVP_EncodeBlock]. cbv zeta. rewrite !conv_u8.
  rewrite (lor_shiftl_add s0 (Z.shiftl s1 8) 16) by (unfold fits; rewrite ?Z.shiftl_mul_pow2 by lia; lia).
  rewrite !Z.shiftl_mul_pow2, !Z.shiftr_div_pow2 by lia. z_eval.
  replace ((s0 * 65536 + s1 * 256) / 262144 mod 64) with (s0 / 4) by (Z.to_euclidean_division_equations; lia).
  replace ((s0 * 65536 + s1 * 256) / 4096 mod 64) with (s0 mod 4 * 16 + s1 / 16) by (Z.to_euclidean_division_equations; lia).
  replace ((s0 * 65536 + s1 * 256) / 64 mod 64) with (s1 mod 16 * 4) by (Z.to_euclidean_division_equations; lia).
  replace [s0; s1] with [s0 / 4 * 4 + (s0 mod 4 * 16 + s1 / 16) / 16; (s0 mod 4 * 16 + s1 / 16) mod 16 * 16 + s1 mod 16 * 4 / 4]
    by (repeat f_equal; Z.to_euclidean_division_equations; lia).
  constructor; unfold sextet; Z.to_euclidean_division_equations; lia.
Qed.

Lemma encode1 s0 : byte_ok s0 -> quad (EVP_EncodeBlock [s0]) [s0].
Proof.
  unfold byte_ok. intros H0. cbn [EVP_EncodeBlock]. cbv zeta. rewrite !conv_u8.
  rewrite !Z.shiftl_mul_pow2, !Z.shiftr_div_pow2 by lia. z_eval.
  replace (s0 * 65536 / 262144 mod 64) with (s0 / 4) by (Z.to_euclidean_division_equations; lia).
  replace (s0 * 65536 / 4096 mod 64) with (s0 mod 4 * 16) by (Z.to_euclidean_division_equations; lia).
  replace [s0] with [s0 / 4 * 4 + s0 mod 4 * 16 / 16] by (repeat f_equal; Z.to_euclidean_division_equations; lia).
  constructor; unfold sextet; Z.to_euclidean_division_equations; lia.
Qed.

Lemma encode_text src : bytes_ok src -> base64_text (EVP_EncodeBlock src) src.
Proof.
  induction src as [src IH] using (induction_ltof1 _ length). intros Hok.
  destruct src as [| s0 [| s1 [| s2 src]]].
  - constructor.
  - apply text_last, encode1. by apply bytes_ok_cons in Hok as [? _].
  - by apply text_last, encode2.
  - change (s0 :: s1 :: s2 :: src) with ([s0; s1; s2] ++ src) in Hok. apply bytes_ok_app in Hok as [H3 Hok].
    destruct (encode3 s0 s1 s2 H3) as (t & Hq & ->). apply (text_cons t [s0; s1; s2]); [done | done |].
    apply IH; [unfold ltof; cbn; lia | done].
Qed.

Lemma text_facts t o :
  base64_text t o -> bytes_ok t /\ len t mod 4 = 0 /\ len o <= len t / 4 * 3 /\ Forall (fun c => is_whitespace c = false) t.
Proof.
  assert (forall t o, quad t o -> Forall (fun c => is_whitespace c = false) t) as Hws.
  { assert (forall v, sextet v -> is_whitespace (ch v) = false) by (intros v Hv; apply ch_facts, Hv).
    destruct 1; repeat (constructor; [by auto |]); constructor. }
  induction 1 as [| t o Hq | t o text out Hq Ho Ht (IH1 & IH2 & IH3 & IH4)].
  - split_and!; [constructor | reflexivity | reflexivity | constructor].
  - apply Hws in Hq as Hw. apply quad_ok in Hq as (H1 & _ & H3 & H4). unfold len. rewrite H3. split_and!; [done | done | | done].
    change (Z.of_nat 4 / 4 * 3) with 3. lia.
  - apply Hws in Hq as Hw. apply quad_ok in Hq as (H1 & _ & H3 & _). rewrite !len_app.
    assert (len t = 4) as -> by (unfold len; lia). assert (len o = 3) as -> by (unfold len; lia).
    split_and!; [by apply bytes_ok_app | | | by apply Forall_app];
      Z.to_euclidean_division_equations; lia.
Qed.

Lemma encode_len src : len (EVP_EncodeBlock src) = (len src + 2) / 3 * 4.
Proof.
  induction src as [src IH] using (induction_ltof1 _ length).
  destruct src as [| s0 [| s1 [| s2 src]]]; try reflexivity.
  cbn [EVP_EncodeBlock]. cbv zeta. rewrite !len_cons, (IH src) by (unfold ltof; cbn; lia).
  Z.to_euclidean_division_equations; lia.
Qed.

Lemma encoded_length_spec n :
  0 <= n < 2 ^ 64 -> EVP_EncodedLength n = if (n + 2) / 3 * 4 + 1 <? 2 ^ 64 then Some ((n + 2) / 3 * 4 + 1) else None.
Proof.
  intros Hn. unfold EVP_EncodedLength, wrap.
  destruct (Z.lt_ge_cases (n + 2) (2 ^ 64)) as [H1 | H1].
  - rewrite (Z.mod_small (n + 2)) by lia. replace (n + 2 <? n) with false by lia.
    set (q := (n + 2) / 3). assert (0 <= q) by (apply Z.div_pos; lia).
    rewrite Z.shiftl_mul_pow2, Z.shiftr_div_pow2 by lia. change (2 ^ 2) with 4.
    destruct (Z.lt_ge_cases (q * 4) (2 ^ 64)) as [H2 | H2].
    + rewrite (Z.mod_small (q * 4)), Z.div_mul, Z.eqb_refl by lia. cbn [negb].
      rewrite (Z.mod_small (q * 4 + 1)) by (Z.to_euclidean_division_equations; lia).
      replace (q * 4 + 1 <? q * 4) with false by lia.
      replace (q * 4 + 1 <? 2 ^ 64) with true by (Z.to_euclidean_division_equations; lia). done.
    + replace (q * 4 + 1 <? 2 ^ 64) with false by lia.
      replace (_ =? q) with false; [done |]. pose proof (Z.mod_pos_bound (q * 4) (2 ^ 64)).
      Z.to_euclidean_division_equations; lia.
  - replace ((n + 2) mod 2 ^ 64) with (n + 2 - 2 ^ 64) by (Z.to_euclidean_division_equations; lia).
    replace (_ <? n) with true by lia.
    replace (_ <? 2 ^ 64) with false by (Z.to_euclidean_division_equations; lia). done.
Qed.

Lemma decode_base64_spec max_out inp out :
  bytes_ok inp -> EVP_DecodeBase64 max_out inp = Some out <-> base64_text inp out /\ len inp / 4 * 3 <= max_out.
Proof.
  intros Hok. unfold EVP_DecodeBase64, EVP_DecodedLength. destruct (Z.eqb_spec (len inp mod 4) 0) as [E | E]; cbn [negb].
  - rewrite <- (decode_loop_spec inp out) by done. destruct (Z.ltb_spec max_out (len inp / 4 * 3)); [| naive_solver].
    split; [done | intros [_ ?]; lia].
  - split; [done |]. by intros [(_ & ? & _)%text_facts _].
Qed.

(** ** The block decoder *)

Lemma trim_front_id t : Forall (fun c => is_whitespace c = false) t -> trim_front t = t.
Proof.
  destruct 1 as [| c t Hc _]; [done |]. cbn. unfold is_whitespace in Hc.
  by replace (negb (c =? 32) && negb (c =? 9)) with true by lia.
Qed.

Lemma trim_back_id fuel t : Forall (fun c => is_whitespace c = false) t -> trim_back fuel t = t.
Proof.
  intros Ht. destruct fuel; [done |]. cbn. destruct (list.last t) as [c |] eqn:E; [| done].
  apply last_Some in E as [t' ->]. apply Forall_app in Ht as [_ [Hc _]%Forall_cons_iff]. by rewrite Hc.
Qed.

Lemma pad_loop_spec dst : pad_loop 3 dst = dst ++ replicate (Z.to_nat ((- len dst) mod 3)) 0.
Proof.
  assert (forall bs : bytes, (len (bs ++ [0])) mod 3 = (len bs mod 3 + 1) mod 3) as Hstep.
  { intros bs. rewrite len_app. change (len [0]) with 1. by rewrite Zplus_mod_idemp_l. }
  assert (0 <= len dst mod 3 < 3) as Hm by (apply Z.mod_pos_bound; lia).
  assert ((- len dst) mod 3 = (3 - len dst mod 3) mod 3) as ->.
  { rewrite <- (Z.mod_add (- len dst) (len dst / 3 + 1)) by lia. f_equal. pose proof (Z.div_mod (len dst) 3). lia. }
  cbn [pad_loop]. rewrite !Hstep.
  assert (len dst mod 3 = 0 \/ len dst mod 3 = 1 \/ len dst mod 3 = 2) as [-> | [-> | ->]] by lia; z_eval; cbn [negb].
  - by rewrite app_nil_r.
  - rewrite <- app_assoc. reflexivity.
  - reflexivity.
Qed.

(** ** Streams *)

(** The lines of full 48-byte blocks and what is left. *)
Fixpoint full_lines (fuel : nat) (s : bytes) : bytes * bytes :=
  match fuel with
  | O => ([], s)
  | S fuel =>
      if len s >=? 48 then
        let r := full_lines fuel (drop 48 s) in (EVP_EncodeBlock (take 48 s) ++ [10] ++ fst r, snd r)
      else ([], s)
  end.

Definition last_line (s : bytes) : bytes := match s with [] => [] | _ => EVP_EncodeBlock s ++ [10] end.

(** The text PEM writes: lines of 64 characters. *)
Definition base64_lines (s : bytes) : bytes :=
  let r := full_lines (length s) s in fst r ++ last_line (snd r).

Lemma full_lines_fuel n m s : (length s <= n)%nat -> (length s <= m)%nat -> full_lines n s = full_lines m s.
Proof.
  revert m s. induction n as [| n IH]; intros m s Hn Hm.
  - destruct s; [| cbn in Hn; lia]. by destruct m.
  - destruct m as [| m]; [destruct s; [done | cbn in Hm; lia] |]. cbn [full_lines].
    destruct (Z.geb_spec (len s) 48); [| done]. unfold len in *.
    rewrite (IH m) by (rewrite length_drop; lia). done.
Qed.

Lemma full_lines_short fuel s : len s < 48 -> full_lines fuel s = ([], s).
Proof. intros H. destruct fuel; [done |]. cbn. by replace (_ >=? _) with false by lia. Qed.

Lemma full_lines_rest fuel s : (length s <= fuel)%nat -> len (snd (full_lines fuel s)) < 48.
Proof.
  revert s. induction fuel as [| fuel IH]; intros s Hf; [destruct s; [done | cbn in Hf; lia] |]. cbn [full_lines].
  destruct (Z.geb_spec (len s) 48); [| done]. cbn. apply IH. rewrite length_drop. unfold len in *. lia.
Qed.

Lemma full_lines_S fuel s :
  full_lines (S fuel) s =
  if len s >=? 48 then
    let r := full_lines fuel (drop 48 s) in (EVP_EncodeBlock (take 48 s) ++ [10] ++ fst r, snd r)
  else ([], s).
Proof. done. Qed.

Lemma full_lines_le fuel s : (length (snd (full_lines fuel s)) <= length s)%nat.
Proof.
  revert s. induction fuel as [| fuel IH]; intros s; [done |]. cbn [full_lines].
  destruct (_ >=? _); [| done]. cbn [snd]. etrans; [apply IH |]. rewrite length_drop. lia.
Qed.

Lemma full_lines_app fuel s1 s2 :
  (length (s1 ++ s2) <= fuel)%nat ->
  let r1 := full_lines fuel s1 in
  let r2 := full_lines fuel (snd r1 ++ s2) in
  full_lines fuel (s1 ++ s2) = (fst r1 ++ fst r2, snd r2).
Proof.
  cbn zeta. revert s1. induction fuel as [| fuel IH]; intros s1 Hf.
  { destruct s1; [| cbn in Hf; lia]. done. }
  rewrite (full_lines_S fuel s1). destruct (Z.geb_spec (len s1) 48) as [H | H].
  - rewrite length_app in Hf. unfold len in H. cbn [fst snd].
    rewrite (full_lines_S fuel (s1 ++ s2)). replace (len (s1 ++ s2) >=? 48) with true by (rewrite len_app; unfold len; lia).
    rewrite take_app_le, drop_app_le by lia. rewrite IH by (rewrite length_app, length_drop; lia). cbn [fst snd].
    rewrite (full_lines_fuel (S fuel) fuel).
    + by rewrite <- !app_assoc.
    + rewrite length_app. pose proof (full_lines_le fuel (drop 48 s1)). rewrite length_drop in *. lia.
    + rewrite length_app. pose proof (full_lines_le fuel (drop 48 s1)). rewrite length_drop in *. lia.
  - cbn [fst snd app]. by destruct (full_lines (S fuel) (s1 ++ s2)).
Qed.

Lemma full_lines_len fuel s :
  (length s <= fuel)%nat -> len (fst (full_lines fuel s)) * 48 + len (snd (full_lines fuel s)) * 65 = len s * 65.
Proof.
  revert s. induction fuel as [| fuel IH]; intros s Hf; [destruct s; [done | cbn in Hf; lia] |].
  rewrite full_lines_S. destruct (Z.geb_spec (len s) 48) as [H | H]; [| cbn [fst snd]; change (len []) with 0; lia].
  cbn zeta. cbn [fst snd]. rewrite !len_app, encode_len. unfold len in H.
  specialize (IH (drop 48 s) ltac:(rewrite length_drop; lia)).
  assert (len (take 48 s) = 48) as -> by (unfold len; rewrite length_take; lia).
  assert (len (drop 48 s) = len s - 48) as Hd by (unfold len; rewrite length_drop; lia). rewrite Hd in IH.
  change ((48 + 2) / 3 * 4) with 64. change (len [10]) with 1. lia.
Qed.

Lemma encode_loop_spec fuel inp out :
  (length inp <= fuel)%nat -> len out + len inp * 2 < 2 ^ 63 ->
  encode_update_loop fuel inp out
  = Some (out ++ fst (full_lines fuel inp), snd (full_lines fuel inp)).
Proof.
  revert inp out. induction fuel as [| fuel IH]; intros inp out Hf Hs.
  { cbn. by rewrite app_nil_r. }
  cbn [encode_update_loop full_lines]. destruct (Z.geb_spec (len inp) 48) as [H | H]; [| cbn; by rewrite app_nil_r].
  cbv zeta. cbn [fst snd]. unfold len in H. rewrite encode_len.
  assert (len (take 48 inp) = 48) as E by (unfold len; rewrite length_take; lia). rewrite E.
  change ((48 + 2) / 3 * 4) with 64. pose proof (len_nonneg out). pose proof (len_nonneg inp).
  rewrite wrap_id by (unfold fits; lia). replace (_ <? _) with false by lia.
  rewrite IH; [by rewrite <- !app_assoc | rewrite length_drop; lia |].
  rewrite !len_app, encode_len, E. change ((48 + 2) / 3 * 4) with 64. change (len [10]) with 1.
  assert (len (drop 48 inp) = len inp - 48) as -> by (unfold len; rewrite length_drop; lia). lia.
Qed.

(** An update encodes the complete lines of the pending and the new bytes. *)
Lemma encode_update_spec ctx inp :
  len (data ctx) < 48 -> inp <> [] -> len inp < 2 ^ 29 ->
  let r := full_lines (length (data ctx ++ inp)) (data ctx ++ inp) in
  EVP_EncodeUpdate ctx inp = (true, fst r, set_data ctx (snd r)).
Proof.
  intros Hd Hne Hi. cbn zeta. unfold EVP_EncodeUpdate. pose proof (len_nonneg (data ctx)).
  assert (0 < len inp) by (unfold len; destruct inp; [done | cbn; lia]).
  replace (len inp =? 0) with false by lia. destruct (Z.gtb_spec (48 - len (data ctx)) (len inp)) as [Hs | Hl].
  { by rewrite full_lines_short by (rewrite len_app; lia). }
  set (r := full_lines (length (data ctx ++ inp)) (data ctx ++ inp)).
  assert (len (fst r) <= INT_MAX) as Hmax.
  { pose proof (full_lines_len (length (data ctx ++ inp)) (data ctx ++ inp) ltac:(done)) as E.
    rewrite len_app in E. pose proof (len_nonneg (snd r)). fold r in E. unfold INT_MAX. lia. }
  destruct (Z.eqb_spec (len (data ctx)) 0) as [Hz | Hz]; cbn [negb].
  - apply len_nil_inv in Hz as E. rewrite encode_loop_spec; [| done | change (len []) with 0; lia].
    unfold r in *. rewrite E in *. cbn [app] in *. by replace (_ >? INT_MAX) with false by lia.
  - set (todo := Z.to_nat (48 - len (data ctx))).
    assert (todo + length (data ctx) = 48)%nat as Ht by (unfold todo, len in *; lia).
    assert (todo <= length inp)%nat as Hti by (unfold len in *; lia).
    rewrite encode_loop_spec; [| done |].
    2: { rewrite len_app, encode_len, len_app. change (len [10]) with 1.
         assert (len (take todo inp) = Z.of_nat todo) as -> by (unfold len; rewrite length_take; lia).
         assert (len (data ctx) + Z.of_nat todo = 48) as -> by (unfold len; lia).
         assert (len (drop todo inp) = len inp - Z.of_nat todo) as -> by (unfold len; rewrite length_drop; lia).
         change ((48 + 2) / 3 * 4) with 64. lia. }
    assert (r = ((EVP_EncodeBlock (data ctx ++ take todo inp) ++ [10])
                 ++ fst (full_lines (length (drop todo inp)) (drop todo inp)),
                 snd (full_lines (length (drop todo inp)) (drop todo inp)))) as Er.
    { unfold r. rewrite (full_lines_fuel _ (S (length (data ctx ++ inp)))) by lia. rewrite full_lines_S.
      replace (len (data ctx ++ inp) >=? 48) with true by (rewrite len_app; lia). cbn zeta.
      rewrite drop_app_ge, take_app_ge by lia. replace (48 - length (data ctx))%nat with todo by lia.
      rewrite (full_lines_fuel _ (length (drop todo inp))) by (rewrite ?length_app, ?length_drop; lia).
      by rewrite <- !app_assoc. }
    rewrite Er in *. cbn [fst snd] in *. by replace (_ >? INT_MAX) with false by lia.
Qed.

(** [EVP_EncodeUpdate] on each chunk, then [EVP_EncodeFinal]. *)
Fixpoint encode_stream (ctx : EVP_ENCODE_CTX) (chunks : list bytes) (acc : bytes) : option bytes :=
  match chunks with
  | [] => Some (acc ++ fst (EVP_EncodeFinal ctx))
  | c :: chunks =>
      let '(ok, out, ctx) := EVP_EncodeUpdate ctx c in
      if ok then encode_stream ctx chunks (acc ++ out) else None
  end.

Lemma encode_stream_spec ctx chunks acc :
  len (data ctx) < 48 -> Forall (fun c => c <> [] /\ len c < 2 ^ 29) chunks ->
  encode_stream ctx chunks acc = Some (acc ++ base64_lines (data ctx ++ concat chunks)).
Proof.
  intros Hd Hc. revert ctx Hd acc. induction Hc as [| c chunks [Hne Hlen] Hc IH]; intros ctx Hd acc.
  - cbn [encode_stream concat]. rewrite app_nil_r. unfold base64_lines, EVP_EncodeFinal.
    rewrite full_lines_short by done. cbn [fst snd app]. destruct (data ctx) as [| b bs] eqn:E; [done |].
    rewrite len_cons. pose proof (len_nonneg bs). replace (_ =? 0) with false by lia. done.
  - cbn [encode_stream concat]. rewrite encode_update_spec by done. cbv zeta iota.
    set (r := full_lines (length (data ctx ++ c)) (data ctx ++ c)).
    rewrite IH; [| by apply full_lines_rest]. unfold base64_lines. cbn [data set_data].
    set (whole := data ctx ++ c ++ concat chunks).
    assert (length (data ctx ++ c) <= length whole)%nat by (unfold whole; rewrite !length_app; lia).
    pose proof (full_lines_app (length whole) (data ctx ++ c) (concat chunks)) as Happ.
    cbn zeta in Happ. unfold whole in Happ at 1 2. rewrite <- app_assoc in Happ. specialize (Happ ltac:(done)).
    fold whole in Happ. rewrite Happ. cbn [fst snd].
    rewrite (full_lines_fuel (length whole) (length (data ctx ++ c)) (data ctx ++ c)) by lia. fold r.
    assert (length (snd r) <= length (data ctx ++ c))%nat by apply full_lines_le.
    rewrite (full_lines_fuel (length whole) (length (snd r ++ concat chunks)))
      by (unfold whole in *; rewrite ?length_app in *; lia).
    by rewrite <- !app_assoc.
Qed.

(** ** Decoding streams *)

Lemma decode_loop_chunks a b ctx out :
  decode_update_loop (a ++ b) ctx out =
  match decode_update_loop a ctx out with
  | (Some out, ctx) => decode_update_loop b ctx out
  | (None, ctx) => (None, ctx)
  end.
Proof.
  revert ctx out. induction a as [| c a IH]; intros ctx out; [done |]. cbn [app decode_update_loop].
  destruct (is_whitespace c); [apply IH |]. destruct (eof_seen ctx); [done |]. cbn zeta.
  repeat (case_match; try apply IH; try done).
Qed.

Lemma decode_loop_acc inp ctx out :
  decode_update_loop inp ctx out =
  let r := decode_update_loop inp ctx [] in
  (o ← fst r; Some (out ++ o), snd r).
Proof.
  cbn zeta. revert ctx out. induction inp as [| c inp IH]; intros ctx out; cbn [decode_update_loop].
  { cbn. by rewrite app_nil_r. }
  destruct (is_whitespace c); [apply IH |]. destruct (eof_seen ctx); [done |]. cbn zeta.
  destruct (data (set_data ctx (data ctx ++ [c]))) as [| i0 [| i1 [| i2 [| i3 [|]]]]]; try apply IH.
  destruct (base64_decode_quad i0 i1 i2 i3) as [bs |]; [| done].
  rewrite (IH _ (out ++ bs)), (IH _ ([] ++ bs)). cbn [fst snd app].
  destruct (fst (decode_update_loop inp _ [])); cbn; [by rewrite app_assoc | done].
Qed.

Lemma decode_loop_quad t o rest e out :
  quad t o ->
  decode_update_loop (t ++ rest) (mk_ctx [] false e) out
  = decode_update_loop rest (mk_ctx [] (len o <? 3) e) (out ++ o).
Proof.
  intros Hq. pose proof (text_facts t o (text_last t o Hq)) as (Hok & _ & _ & Hws).
  pose proof (quad_length t o Hq). destruct t as [| i0 [| i1 [| i2 [| i3 [|]]]]]; try done.
  rewrite !Forall_cons_iff in Hws. destruct Hws as (W0 & W1 & W2 & W3 & _).
  apply decode_quad_spec in Hq; [| done]. cbn [app decode_update_loop].
  rewrite W0, W1, W2, W3. cbn [eof_seen data set_data app]. rewrite Hq. cbn [error_encountered set_data].
  by destruct (len o <? 3).
Qed.

Lemma decode_loop_text t o rest e out :
  base64_text t o ->
  decode_update_loop (t ++ rest) (mk_ctx [] false e) out
  = decode_update_loop rest (mk_ctx [] (negb (len o mod 3 =? 0)) e) (out ++ o).
Proof.
  intros Ht. revert out. induction Ht as [| t o Hq | t o text o' Hq Ho Ht IH]; intros out.
  - cbn. by rewrite app_nil_r.
  - rewrite (decode_loop_quad t o) by done. apply quad_ok in Hq as (_ & _ & _ & Ho). do 2 f_equal.
    assert (len o = 1 \/ len o = 2 \/ len o = 3) as [-> | [-> | ->]] by (unfold len; lia); done.
  - rewrite <- app_assoc, (decode_loop_quad t o) by done.
    assert (len o = 3) as E by (unfold len; lia). rewrite E, IH, <- app_assoc, len_app, E.
    change (3 <? 3) with false. do 4 f_equal. rewrite Z.add_comm, <- (Z.mod_add (len o') 1 3) by lia. done.
Qed.

Lemma decode_loop_lines fuel s rest e out :
  bytes_ok s ->
  decode_update_loop (fst (full_lines fuel s) ++ rest) (mk_ctx [] false e) out
  = decode_update_loop rest (mk_ctx [] false e) (out ++ take (length s - length (snd (full_lines fuel s))) s).
Proof.
  intros Hok. revert s Hok out. induction fuel as [| fuel IH]; intros s Hok out.
  { cbn [full_lines fst snd app]. by rewrite Nat.sub_diag, take_0, app_nil_r. }
  rewrite full_lines_S. destruct (Z.geb_spec (len s) 48) as [H | H]; cbn zeta; cbn [fst snd].
  - unfold len in H. rewrite <- !app_assoc.
    rewrite (decode_loop_text _ (take 48 s)) by (by apply encode_text, bytes_ok_take).
    assert (len (take 48 s) = 48) as -> by (unfold len; rewrite length_take; lia). change (negb (48 mod 3 =? 0)) with false.
    cbn [app decode_update_loop]. change (is_whitespace 10) with true. cbv iota.
    rewrite IH by (by apply bytes_ok_drop). rewrite <- app_assoc. do 2 f_equal.
    pose proof (full_lines_le fuel (drop 48 s)) as Hle. rewrite length_drop in *.
    set (k := length (snd (full_lines fuel (drop 48 s)))) in *.
    rewrite take_take_drop. do 2 f_equal. lia.
  - cbn [app]. by rewrite Nat.sub_diag, take_0, app_nil_r.
Qed.

Lemma full_lines_suffix fuel s :
  exists n, snd (full_lines fuel s) = drop n s /\ length (snd (full_lines fuel s)) = (length s - n)%nat /\ (n <= length s)%nat.
Proof.
  revert s. induction fuel as [| fuel IH]; intros s; [exists O; cbn [full_lines snd]; rewrite drop_0; split_and!; [done | lia | lia] |].
  rewrite full_lines_S. destruct (Z.geb_spec (len s) 48) as [H | H]; cbn zeta; cbn [snd].
  - destruct (IH (drop 48 s)) as (n & H1 & H2 & H3). rewrite length_drop in *. unfold len in H.
    exists (48 + n)%nat. rewrite H1, drop_drop in *. split_and!; [done | lia | lia].
  - exists O. rewrite drop_0. split_and!; [done | lia | lia].
Qed.

Lemma decode_loop_all s e :
  bytes_ok s ->
  exists eof, decode_update_loop (base64_lines s) (mk_ctx [] false e) [] = (Some s, mk_ctx [] eof e).
Proof.
  intros Hok. unfold base64_lines. cbn zeta. rewrite decode_loop_lines by done.
  destruct (full_lines_suffix (length s) s) as (n & H1 & H2 & H3). rewrite H2.
  replace (length s - (length s - n))%nat with n by lia. cbn [app].
  destruct (snd (full_lines (length s) s)) as [| b bs] eqn:E; cbn [last_line].
  - exists false. cbn [decode_update_loop]. cbn [length] in H2. by rewrite take_ge by lia.
  - rewrite H1. rewrite (decode_loop_text _ (drop n s)) by (by apply encode_text, bytes_ok_drop).
    rewrite take_drop. eexists. cbn [decode_update_loop]. change (is_whitespace 10) with true. reflexivity.
Qed.

(** [EVP_DecodeUpdate] on each chunk, then [EVP_DecodeFinal]. *)
Fixpoint decode_stream (ctx : EVP_ENCODE_CTX) (chunks : list bytes) (acc : bytes) : option bytes :=
  match chunks with
  | [] => if EVP_DecodeFinal ctx =? 1 then Some acc else None
  | c :: chunks =>
      let '(ret, out, ctx) := EVP_DecodeUpdate ctx c in
      if ret <? 0 then None else decode_stream ctx chunks (acc ++ out)
  end.

Lemma decode_loop_error inp ctx out o ctx' :
  decode_update_loop inp ctx out = (Some o, ctx') -> error_encountered ctx' = error_encountered ctx.
Proof.
  revert ctx out. induction inp as [| c inp IH]; intros ctx out; cbn [decode_update_loop]; [congruence |].
  destruct (is_whitespace c); [apply IH |]. destruct (eof_seen ctx); [done |]. cbn zeta.
  destruct (data (set_data ctx (data ctx ++ [c]))) as [| i0 [| i1 [| i2 [| i3 [|]]]]];
    try (intros H; by apply IH in H).
  destruct (base64_decode_quad i0 i1 i2 i3) as [bs |]; [| done]. intros H. by apply IH in H.
Qed.

(** The chunks do not matter. *)
Lemma decode_stream_spec ctx chunks acc out eof :
  error_encountered ctx = false ->
  decode_update_loop (concat chunks) ctx [] = (Some out, mk_ctx [] eof false) ->
  len out <= INT_MAX -> decode_stream ctx chunks acc = Some (acc ++ out).
Proof.
  revert ctx acc out. induction chunks as [| c chunks IH]; intros ctx acc out He H Hlen; cbn [concat] in H.
  - cbn in H. injection H as <- ->. cbn. by rewrite app_nil_r.
  - rewrite decode_loop_chunks in H. cbn [decode_stream]. unfold EVP_DecodeUpdate. rewrite He.
    destruct (decode_update_loop c ctx []) as [[o1 |] ctx1] eqn:E1; [| done].
    rewrite decode_loop_acc in H. cbn zeta in H.
    destruct (decode_update_loop (concat chunks) ctx1 []) as [[o2 |] ctx2] eqn:E2; [| done].
    cbn in H. injection H as <- ->. rewrite len_app in Hlen. pose proof (len_nonneg o1). pose proof (len_nonneg o2).
    replace (len o1 >? INT_MAX) with false by lia.
    replace ((if eof_seen ctx1 then 0 else 1) <? 0) with false by (by destruct (eof_seen ctx1)).
    rewrite (IH ctx1 (acc ++ o1) o2); [by rewrite <- app_assoc | | done | lia].
    apply decode_loop_error in E1. congruence.
Qed.

(** * Properties *)

(** The decoder is exact: [EVP_DecodeBase64] accepts exactly the texts made of full
    quads of the RFC 4648 alphabet followed by at most one padded quad, when the output
    buffer has room for three bytes per quad, and returns the bytes they stand for.  (The
    unused low bits of a padded quad are not required to be zero.) *)
Theorem base64_decode_exact max_out inp out :
  bytes_ok inp ->
  EVP_DecodeBase64 max_out inp = Some out <-> base64_text inp out /\ len inp / 4 * 3 <= max_out.
Proof. apply decode_base64_spec. Qed.

Lemma base64_decode_exact_witness :
  exists out, EVP_DecodeBase64 6 [84; 87; 70; 117; 84; 81; 61; 61] = Some out /\
              base64_text [84; 87; 70; 117; 84; 81; 61; 61] out.
Proof.
  exists [77; 97; 110; 77]. split; [reflexivity |].
  apply (base64_decode_exact 6 [84; 87; 70; 117; 84; 81; 61; 61]); [| reflexivity].
  apply (bool_decide_unpack _); vm_compute; exact I.
Defined.

(** decoding an encoded block gives the block back, with [EVP_DecodeBase64] exactly and
    with [EVP_DecodeBlock] padded with zeros to a multiple of three; the encoding has the
    length [EVP_EncodedLength] announces (less its NUL), and that function fails exactly
    when the length does not fit [size_t]. *)
Theorem base64_roundtrip src max_out :
  bytes_ok src -> len src < 2 ^ 64 -> (len src + 2) / 3 * 3 <= max_out ->
  EVP_DecodeBase64 max_out (EVP_EncodeBlock src) = Some src /\
  (len src < 2 ^ 30 -> EVP_DecodeBlock (EVP_EncodeBlock src) = Some (src ++ replicate (Z.to_nat ((- len src) mod 3)) 0)) /\
  EVP_EncodedLength (len src)
  = if len (EVP_EncodeBlock src) + 1 <? 2 ^ 64 then Some (len (EVP_EncodeBlock src) + 1) else None.
Proof.
  intros Hok Hs Hmax. pose proof (encode_text src Hok) as Ht. pose proof (text_facts _ _ Ht) as (Hb & Hmod & _ & Hws).
  pose proof (encode_len src) as Hel. pose proof (len_nonneg src). split_and!.
  - apply decode_base64_spec; [done |]. split; [done |]. rewrite Hel, Z.div_mul by lia. lia.
  - intros Hsmall. unfold EVP_DecodeBlock. rewrite trim_front_id, trim_back_id by done.
    unfold EVP_DecodedLength. rewrite Hmod. cbn [Z.eqb negb].
    replace (_ >? INT_MAX) with false
      by (rewrite Hel, Z.div_mul by lia; unfold INT_MAX; Z.to_euclidean_division_equations; lia).
    rewrite (proj2 (decode_base64_spec _ _ src Hb)) by (split; [done | lia]). by rewrite pad_loop_spec.
  - rewrite Hel. apply encoded_length_spec. lia.
Qed.

Lemma base64_roundtrip_witness :
  EVP_DecodeBase64 6 (EVP_EncodeBlock [1; 2; 3; 255]) = Some [1; 2; 3; 255].
Proof.
  apply (base64_roundtrip [1; 2; 3; 255] 6); [| reflexivity | vm_compute; discriminate].
  apply (bool_decide_unpack _); vm_compute; exact I.
Defined.

(** C30: streaming does not depend on the chunks.  Feeding the data to the encoder in any
    non-empty chunks and finishing gives the base64 lines (48 bytes, 64 characters each) of
    their concatenation; and feeding those lines to the decoder cut in any other way,
    inside a quad or a line included, gives the data back. *)
Theorem base64_stream_roundtrip chunks texts :
  Forall (fun c => c <> [] /\ len c < 2 ^ 29) chunks -> bytes_ok (concat chunks) ->
  len (concat chunks) <= INT_MAX ->
  concat texts = base64_lines (concat chunks) ->
  encode_stream EVP_EncodeInit chunks [] = Some (base64_lines (concat chunks)) /\
  decode_stream EVP_DecodeInit texts [] = Some (concat chunks).
Proof.
  intros Hc Hok Hlen Ht. split; [by rewrite encode_stream_spec |].
  destruct (decode_loop_all (concat chunks) false Hok) as (eof & E). rewrite <- Ht in E.
  by rewrite (decode_stream_spec EVP_DecodeInit texts [] _ eof eq_refl E).
Qed.

Lemma base64_stream_roundtrip_witness :
  encode_stream EVP_EncodeInit [[1]; [2; 3]] [] = Some [65; 81; 73; 68; 10] /\
  decode_stream EVP_DecodeInit [[65; 81; 73]; [68]; [10]] [] = Some [1; 2; 3].
Proof.
  apply (base64_stream_roundtrip [[1]; [2; 3]] [[65; 81; 73]; [68]; [10]]);
    [repeat constructor; discriminate | | vm_compute; discriminate | reflexivity].
  apply (bool_decide_unpack _); vm_compute; exact I.
Defined.

End Base64.
