(* ===== verification/Stack.v ===== *)
(** OPENSSL_STACK, the growable array of pointers (crypto/stack/stack.c).

    A pointer is its address, 0 for NULL, and a comparison function is its address too:
    [call_cmp f a b] is the result of calling it.  [data] is the whole allocated array,
    [num_alloc] entries of which the first [num] are valid; [junk] is what fresh memory
    holds.  [realloc_ok] is the outcome of [OPENSSL_realloc] for a size in bytes, and
    [qsort] the C library's, of which only its contract is assumed. *)

From stdpp Require Import sorting.
From S2P Require Import Prelude.

Module Stack.

Record stack_st := mk_stack {
  num : Z; data : list Z; sorted : bool; num_alloc : Z; comp : Z }.

(** A [OPENSSL_STACK *], possibly NULL. *)
Abbreviation OPENSSL_STACK := (option stack_st).

Definition NULL : Z := 0.
Definition INT_MAX : Z := 2 ^ 31 - 1.
Definition kMinSize : Z := 4.

Section Ops.
Context (realloc_ok : Z -> bool) (junk : Z) (call_cmp : Z -> Z -> Z -> Z)
        (qsort : (Z -> Z -> Z) -> list Z -> list Z).

(** [alloc_ok] is the outcome of the two allocations. *)
Definition OPENSSL_sk_new (alloc_ok : bool) (cmp : Z) : OPENSSL_STACK :=
  if alloc_ok then Some (mk_stack 0 (replicate (Z.to_nat kMinSize) 0) false kMinSize cmp) else None.

Definition OPENSSL_sk_new_null (alloc_ok : bool) : OPENSSL_STACK := OPENSSL_sk_new alloc_ok NULL.

Definition OPENSSL_sk_num (sk : OPENSSL_STACK) : Z :=
  match sk with None => 0 | Some sk => num sk end.

Definition OPENSSL_sk_zero (sk : OPENSSL_STACK) : OPENSSL_STACK :=
  match sk with
  | None => None
  | Some sk =>
      if num sk =? 0 then Some sk
      else Some (mk_stack 0 (replicate (Z.to_nat (num sk)) 0 ++ drop (Z.to_nat (num sk)) (data sk))
                   false (num_alloc sk) (comp sk))
  end.

Definition OPENSSL_sk_value (sk : OPENSSL_STACK) (i : Z) : Z :=
  match sk with
  | None => NULL
  | Some sk => if i >=? num sk then NULL else data sk !!! Z.to_nat i
  end.

Definition OPENSSL_sk_set (sk : OPENSSL_STACK) (i value : Z) : Z * OPENSSL_STACK :=
  match sk with
  | None => (NULL, None)
  | Some sk =>
      if i >=? num sk then (NULL, Some sk)
      else (value, Some (mk_stack (num sk) (<[Z.to_nat i := value]> (data sk)) (sorted sk) (num_alloc sk) (comp sk)))
  end.

(** The pointers handed to the free function, in order. *)
Definition OPENSSL_sk_pop_free_ex (sk : OPENSSL_STACK) : list Z :=
  match sk with
  | None => []
  | Some sk => filter (fun p => p <> NULL) (take (Z.to_nat (num sk)) (data sk))
  end.

(** The growth at the start of [OPENSSL_sk_insert]; [None] when it returns 0. *)
Definition sk_grow (sk : stack_st) : option stack_st :=
  if num_alloc sk <=? u64 (num sk + 1) then
    let new_alloc := u64 (Z.shiftl (num_alloc sk) 1) in
    let alloc_size := u64 (new_alloc * 8) in
    let '(new_alloc, alloc_size) :=
      if (new_alloc <? num_alloc sk) || negb (alloc_size / 8 =? new_alloc)
      then let new_alloc := u64 (num_alloc sk + 1) in (new_alloc, u64 (new_alloc * 8))
      else (new_alloc, alloc_size) in
    if (new_alloc <? num_alloc sk) || negb (alloc_size / 8 =? new_alloc) then None
    else if negb (realloc_ok alloc_size) then None
    else Some (mk_stack (num sk) (data sk ++ replicate (Z.to_nat (new_alloc - num_alloc sk)) junk)
                 (sorted sk) new_alloc (comp sk))
  else Some sk.

Definition OPENSSL_sk_insert (sk : OPENSSL_STACK) (p where_ : Z) : Z * OPENSSL_STACK :=
  match sk with
  | None => (0, None)
  | Some sk =>
      if num sk >=? INT_MAX then (0, Some sk)
      else
        match sk_grow sk with
        | None => (0, Some sk)
        | Some sk =>
            let data' :=
              if where_ >=? num sk then <[Z.to_nat (num sk) := p]> (data sk)
              else <[Z.to_nat where_ := p]>
                     (memmove (data sk) (Z.to_nat (where_ + 1)) (Z.to_nat where_) (Z.to_nat (num sk - where_))) in
            (num sk + 1, Some (mk_stack (num sk + 1) data' false (num_alloc sk) (comp sk)))
        end
  end.

Definition OPENSSL_sk_delete (sk : OPENSSL_STACK) (where_ : Z) : Z * OPENSSL_STACK :=
  match sk with
  | None => (NULL, None)
  | Some sk =>
      if where_ >=? num sk then (NULL, Some sk)
      else
        let ret := data sk !!! Z.to_nat where_ in
        let data' :=
          if negb (where_ =? num sk - 1)
          then memmove (data sk) (Z.to_nat where_) (Z.to_nat (where_ + 1)) (Z.to_nat (num sk - where_ - 1))
          else data sk in
        (ret, Some (mk_stack (num sk - 1) data' (sorted sk) (num_alloc sk) (comp sk)))
  end.

(** [for (i = from; i < from + n; i++) if (f(data[i])) return i;] *)
Fixpoint scan_from (arr : list Z) (f : Z -> bool) (from n : nat) : option nat :=
  match n with
  | O => None
  | S n => if f (arr !!! from) then Some from else scan_from arr f (S from) n
  end.

Definition sk_scan (sk : stack_st) (f : Z -> bool) : option nat :=
  scan_from (data sk) f 0 (Z.to_nat (num sk)).

Definition OPENSSL_sk_delete_ptr (sk : OPENSSL_STACK) (p : Z) : Z * OPENSSL_STACK :=
  match sk with
  | None => (NULL, None)
  | Some s =>
      match sk_scan s (fun q => q =? p) with
      | Some i => OPENSSL_sk_delete sk (Z.of_nat i)
      | None => (NULL, sk)
      end
  end.

(** The loop of [OPENSSL_sk_delete_if], which compacts the array in place. *)
Fixpoint delete_if_loop (func : Z -> bool) (arr : list Z) (i n new_num : nat) : list Z * nat :=
  match n with
  | O => (arr, new_num)
  | S n =>
      if negb (func (arr !!! i))
      then delete_if_loop func (<[new_num := arr !!! i]> arr) (S i) n (S new_num)
      else delete_if_loop func arr (S i) n new_num
  end.

Definition OPENSSL_sk_delete_if (sk : OPENSSL_STACK) (func : Z -> bool) : OPENSSL_STACK :=
  match sk with
  | None => None
  | Some sk =>
      let '(arr, new_num) := delete_if_loop func (data sk) 0 (Z.to_nat (num sk)) 0 in
      Some (mk_stack (Z.of_nat new_num) arr (sorted sk) (num_alloc sk) (comp sk))
  end.

Definition OPENSSL_sk_is_sorted (sk : OPENSSL_STACK) : bool :=
  match sk with
  | None => true
  | Some sk => sorted sk || (negb (comp sk =? NULL) && (num sk <? 2))
  end.

(** The binary search; the interval shrinks in every round, so [num] rounds are enough. *)
Fixpoint bsearch_loop (fuel : nat) (cmp : Z -> Z) (arr : list Z) (lo hi : Z) : option Z :=
  match fuel with
  | O => None
  | S fuel =>
      if lo <? hi then
        let mid := lo + (hi - lo - 1) / 2 in
        let r := cmp (arr !!! Z.to_nat mid) in
        if r >? 0 then bsearch_loop fuel cmp arr (mid + 1) hi
        else if r <? 0 then bsearch_loop fuel cmp arr lo mid
        else if hi - lo =? 1 then Some mid
        else bsearch_loop fuel cmp arr lo (mid + 1)
      else None
  end.

(** [Some i] is a return of 1 with [*out_index = i]. *)
Definition OPENSSL_sk_find (sk : OPENSSL_STACK) (p : Z) : option Z :=
  match sk with
  | None => None
  | Some s =>
      if comp s =? NULL then Z.of_nat <$> sk_scan s (fun q => q =? p)
      else if p =? NULL then None
      else if negb (OPENSSL_sk_is_sorted sk)
      then Z.of_nat <$> sk_scan s (fun q => call_cmp (comp s) p q =? 0)
      else bsearch_loop (Z.to_nat (num s)) (call_cmp (comp s) p) (data s) 0 (num s)
  end.

(** The conversion of [size_t] to [int] cannot lose anything: [num] is at most [INT_MAX]. *)
Definition OPENSSL_sk_unshift (sk : OPENSSL_STACK) (p : Z) : Z * OPENSSL_STACK := OPENSSL_sk_insert sk p 0.

Definition OPENSSL_sk_shift (sk : OPENSSL_STACK) : Z * OPENSSL_STACK :=
  match sk with
  | None => (NULL, None)
  | Some s => if num s =? 0 then (NULL, sk) else OPENSSL_sk_delete sk 0
  end.

(** [sk] is not NULL here. *)
Definition OPENSSL_sk_push (sk : OPENSSL_STACK) (p : Z) : Z * OPENSSL_STACK :=
  OPENSSL_sk_insert sk p (OPENSSL_sk_num sk).

Definition OPENSSL_sk_pop (sk : OPENSSL_STACK) : Z * OPENSSL_STACK :=
  match sk with
  | None => (NULL, None)
  | Some s => if num s =? 0 then (NULL, sk) else OPENSSL_sk_delete sk (num s - 1)
  end.

Definition OPENSSL_sk_dup (alloc_ok : bool) (sk : OPENSSL_STACK) : OPENSSL_STACK :=
  match sk with
  | None => None
  | Some s => if alloc_ok then Some s else None
  end.

Definition OPENSSL_sk_sort (sk : OPENSSL_STACK) : OPENSSL_STACK :=
  match sk with
  | None => None
  | Some s =>
      if (comp s =? NULL) || sorted s then sk
      else
        let n := Z.to_nat (num s) in
        let data' := if num s >=? 2 then qsort (call_cmp (comp s)) (take n (data s)) ++ drop n (data s) else data s in
        Some (mk_stack (num s) data' true (num_alloc s) (comp s))
  end.

(** [sk] is not NULL here; the old function and the stack. *)
Definition OPENSSL_sk_set_cmp_func (s : stack_st) (cmp : Z) : Z * stack_st :=
  (comp s, mk_stack (num s) (data s) (if negb (comp s =? cmp) then false else sorted s) (num_alloc s) cmp).

(** The loop of [OPENSSL_sk_deep_copy] from [i] on: the array, or the copies freed. *)
Fixpoint deep_copy_loop (copy : Z -> Z) (arr : list Z) (i n : nat) : list Z + list Z :=
  match n with
  | O => inl arr
  | S n =>
      if arr !!! i =? NULL then deep_copy_loop copy arr (S i) n
      else
        let p := copy (arr !!! i) in
        if p =? NULL then inr (filter (fun p => p <> NULL) (take i arr))
        else deep_copy_loop copy (<[i := p]> arr) (S i) n
  end.

(** The new stack, or the pointers that were freed. *)
Definition OPENSSL_sk_deep_copy (alloc_ok : bool) (copy : Z -> Z) (sk : OPENSSL_STACK) : OPENSSL_STACK * list Z :=
  match OPENSSL_sk_dup alloc_ok sk with
  | None => (None, [])
  | Some s =>
      match deep_copy_loop copy (data s) 0 (Z.to_nat (num s)) with
      | inl arr => (Some (mk_stack (num s) arr (sorted s) (num_alloc s) (comp s)), [])
      | inr freed => (None, freed)
      end
  end.

End Ops.
(** * The list of valid pointers *)

Definition elems (s : stack_st) : list Z := take (Z.to_nat (num s)) (data s).

Record wf (s : stack_st) : Prop := {
  wf_num : 0 <= num s <= INT_MAX;
  wf_alloc : num s <= num_alloc s < 2 ^ 61;
  wf_pos : 1 <= num_alloc s;
  wf_data : Z.of_nat (length (data s)) = num_alloc s }.

Lemma length_elems s : wf s -> Z.of_nat (length (elems s)) = num s.
Proof. intros [? ? ? ?]. unfold elems. rewrite length_take. lia. Qed.

Lemma data_split s : wf s -> exists x, data s = elems s ++ x.
Proof. intros _. exists (drop (Z.to_nat (num s)) (data s)). unfold elems. by rewrite take_drop. Qed.

Lemma elems_app n l x sorted alloc cmp :
  Z.of_nat (length l) = n -> elems (mk_stack n (l ++ x) sorted alloc cmp) = l.
Proof. intros <-. unfold elems. cbn. by rewrite Nat2Z.id, take_app_length. Qed.

Lemma lookup_data s i : wf s -> 0 <= i < num s -> data s !!! Z.to_nat i = elems s !!! Z.to_nat i.
Proof.
  intros Hwf Hi. destruct (data_split s Hwf) as [x ->]. pose proof (length_elems s Hwf).
  by rewrite lookup_total_app_l by lia.
Qed.

(** ** Shifting elements *)

Lemma shift_up {A} (l1 l2 x : list A) (y p : A) :
  <[length l1 := p]> (memmove (l1 ++ l2 ++ y :: x) (length l1 + 1) (length l1) (length l2)) = l1 ++ p :: l2 ++ x.
Proof.
  unfold memmove. rewrite take_app_add, drop_app_length, take_app_length.
  assert (drop (length l1 + 1 + length l2) (l1 ++ l2 ++ y :: x) = x) as ->.
  { rewrite (app_assoc l1 l2), (cons_middle y), app_assoc. rewrite drop_app_length'; [done |].
    rewrite !length_app. cbn. lia. }
  rewrite <- app_assoc, insert_app_r_alt, Nat.sub_diag by lia. f_equal.
  destruct l2 as [| z l2]; reflexivity.
Qed.

Lemma shift_down {A} (l1 l2 x : list A) (v : A) :
  exists y, memmove (l1 ++ v :: l2 ++ x) (length l1) (length l1 + 1) (length l2) = l1 ++ l2 ++ y
            /\ length y = S (length x).
Proof.
  eexists. unfold memmove. rewrite take_app_length.
  assert (drop (length l1 + 1) (l1 ++ v :: l2 ++ x) = l2 ++ x) as ->.
  { rewrite (cons_middle v), app_assoc. rewrite drop_app_length'; [done |]. rewrite length_app. cbn. lia. }
  rewrite take_app_length. split; [done |]. rewrite length_drop, !length_app. cbn. rewrite length_app. lia.
Qed.

Section Spec.
Context (realloc_ok : Z -> bool) (junk : Z).

Abbreviation sk_grow := (sk_grow realloc_ok junk).
Abbreviation OPENSSL_sk_insert := (OPENSSL_sk_insert realloc_ok junk).

Lemma grow_spec s :
  wf s -> num s < INT_MAX ->
  match sk_grow s with
  | Some s' => wf s' /\ elems s' = elems s /\ num s' = num s /\ num s + 1 <= num_alloc s'
               /\ sorted s' = sorted s /\ comp s' = comp s
  | None => exists n, realloc_ok n = false
  end.
Proof.
  intros Hwf Hn. pose proof Hwf as [H1 H2 Hp H3]. unfold INT_MAX in *. unfold Stack.sk_grow, wrap.
  rewrite (Z.mod_small (num s + 1)) by lia.
  destruct (Z.leb_spec (num_alloc s) (num s + 1)); [| by split_and!; [| | | lia | |]].
  rewrite Z.shiftl_mul_pow2 by lia. change (2 ^ 1) with 2.
  rewrite (Z.mod_small (num_alloc s * 2)), (Z.mod_small (num_alloc s * 2 * 8)) by lia.
  rewrite Z.div_mul, Z.eqb_refl by lia. replace (num_alloc s * 2 <? num_alloc s) with false by lia. cbn [negb orb].
  replace (num_alloc s * 2 <? num_alloc s) with false by lia. cbn [orb].
  rewrite Z.div_mul, Z.eqb_refl by lia. cbn [negb].
  destruct (realloc_ok (num_alloc s * 2 * 8)) eqn:E; cbn [negb]; [| by eexists].
  split_and!; try done; cbn [num data num_alloc].
  - constructor; cbn; [unfold INT_MAX; lia | lia | lia |]. rewrite length_app, length_replicate. lia.
  - unfold elems. cbn. rewrite take_app_le by lia. done.
  - lia.
Qed.

Definition clamp (w : Z) (l : list Z) : nat := Nat.min (Z.to_nat w) (length l).

Definition l_insert (w p : Z) (l : list Z) : list Z := take (clamp w l) l ++ p :: drop (clamp w l) l.

Lemma sk_insert_spec s p w :
  wf s -> 0 <= w ->
  exists s', snd (OPENSSL_sk_insert (Some s) p w) = Some s' /\ wf s' /\
    ((fst (OPENSSL_sk_insert (Some s) p w) = 0 /\ s' = s /\ (num s = INT_MAX \/ exists n, realloc_ok n = false)) \/
     (fst (OPENSSL_sk_insert (Some s) p w) = num s + 1 /\ elems s' = l_insert w p (elems s)
      /\ sorted s' = false /\ comp s' = comp s /\ num s < INT_MAX)).
Proof.
  intros Hwf Hw. cbn [Stack.OPENSSL_sk_insert]. destruct (Z.geb_spec (num s) INT_MAX) as [Hmax | Hmax].
  { exists s. split_and!; [done | done |]. left. split_and!; [done | done | left]. destruct Hwf. lia. }
  pose proof (grow_spec s Hwf Hmax) as Hg. destruct (sk_grow s) as [s1 |].
  2: { exists s. split_and!; [done | done |]. left. by split_and!; [| | right]. }
  destruct Hg as (Hwf1 & He & Hn & Ha & _ & Hcmp). eexists. split; [reflexivity |].
  pose proof (length_elems s1 Hwf1) as Hl. pose proof Hwf1 as [W1 W2 Wp W3].
  destruct (data_split s1 Hwf1) as [x Hx]. rewrite Hx in W3. rewrite length_app in W3.
  destruct x as [| y x]; [cbn in W3; lia |]. cbn [length] in W3.
  assert ((if w >=? num s1 then <[Z.to_nat (num s1) := p]> (data s1)
           else <[Z.to_nat w := p]> (memmove (data s1) (Z.to_nat (w + 1)) (Z.to_nat w) (Z.to_nat (num s1 - w))))
          = l_insert w p (elems s) ++ x) as E.
  { rewrite Hx, <- He. unfold l_insert, clamp. destruct (Z.geb_spec w (num s1)).
    - rewrite Nat.min_r by lia. rewrite firstn_all, drop_all.
      replace (Z.to_nat (num s1)) with (length (elems s1)) by lia.
      rewrite insert_app_r_alt, Nat.sub_diag by lia. by rewrite <- app_assoc.
    - rewrite Nat.min_l by lia. set (k := Z.to_nat w).
      assert (length (take k (elems s1)) = k) as Hk by (rewrite length_take; lia).
      pose proof (shift_up (take k (elems s1)) (drop k (elems s1)) x y p) as Hs.
      rewrite app_assoc, take_drop, Hk in Hs. rewrite length_drop in Hs.
      replace (Z.to_nat (w + 1)) with (k + 1)%nat by lia.
      replace (Z.to_nat (num s1 - w)) with (length (elems s1) - k)%nat by lia.
      rewrite Hs. by rewrite <- app_assoc. }
  assert (Z.of_nat (length (l_insert w p (elems s))) = num s1 + 1) as Hli.
  { unfold l_insert. rewrite length_app. cbn [length]. rewrite length_take, length_drop, <- He. lia. }
  rewrite E. split.
  - constructor; cbn; [lia | lia | lia |]. rewrite length_app. lia.
  - right. cbn [fst sorted comp]. split_and!; [lia | by apply elems_app | done | done | done].
Qed.

Lemma sk_delete_spec s w :
  wf s -> 0 <= w ->
  exists s', snd (OPENSSL_sk_delete (Some s) w) = Some s' /\ wf s' /\ sorted s' = sorted s /\ comp s' = comp s /\
    (if w >=? num s then s' = s /\ fst (OPENSSL_sk_delete (Some s) w) = NULL
     else elems s' = delete (Z.to_nat w) (elems s) /\ fst (OPENSSL_sk_delete (Some s) w) = elems s !!! Z.to_nat w).
Proof.
  intros Hwf Hw. cbn [OPENSSL_sk_delete]. destruct (Z.geb_spec w (num s)) as [Hge | Hlt]; [by exists s |].
  pose proof (length_elems s Hwf) as Hl. destruct (data_split s Hwf) as [x Hx]. pose proof Hwf as [W1 W2 Wp W3].
  destruct (lookup_lt_is_Some_2 (elems s) (Z.to_nat w)) as [v Hv]; [lia |].
  pose proof (take_drop_middle _ _ _ Hv) as Hm. set (l1 := take (Z.to_nat w) (elems s)) in *.
  set (l2 := drop (S (Z.to_nat w)) (elems s)) in *.
  assert (length l1 = Z.to_nat w) as Hl1 by (unfold l1; rewrite length_take; lia).
  assert (length l2 = Z.to_nat (num s - w - 1)) as Hl2 by (unfold l2; rewrite length_drop; lia).
  assert (delete (Z.to_nat w) (elems s) = l1 ++ l2) as Hd.
  { rewrite <- Hm, <- Hl1. by rewrite delete_middle. }
  assert (exists y, (if negb (w =? num s - 1)
     then memmove (data s) (Z.to_nat w) (Z.to_nat (w + 1)) (Z.to_nat (num s - w - 1)) else data s) = (l1 ++ l2) ++ y
     /\ length y = S (length x)) as (y & Ey & Hy).
  { rewrite Hx, <- Hm. destruct (Z.eqb_spec w (num s - 1)); cbn [negb].
    - exists (v :: x). destruct l2; [| cbn in Hl2; lia]. by rewrite app_nil_r, <- app_assoc.
    - rewrite <- app_assoc. destruct (shift_down l1 l2 x v) as (y & Hy & Hlen). exists y.
      rewrite Hl1, Hl2 in Hy. replace (Z.to_nat (w + 1)) with (Z.to_nat w + 1)%nat by lia.
      cbn [app]. rewrite Hy. by rewrite <- app_assoc. }
  eexists. split; [reflexivity |]. rewrite Ey. rewrite Hx, length_app in W3.
  assert (Z.of_nat (length (l1 ++ l2)) = num s - 1) as Hlen by (rewrite length_app; lia).
  split; [constructor; cbn; [lia | lia | lia |] |].
  - rewrite length_app. lia.
  - cbn [sorted comp]. split_and!; [done | done | |].
    + rewrite Hd. by apply elems_app.
    + by apply lookup_data.
Qed.

End Spec.

Lemma set_spec s i v :
  wf s -> 0 <= i ->
  exists s', snd (OPENSSL_sk_set (Some s) i v) = Some s' /\ wf s' /\ elems s' = <[Z.to_nat i := v]> (elems s) /\
    sorted s' = sorted s /\ comp s' = comp s /\ fst (OPENSSL_sk_set (Some s) i v) = if i >=? num s then NULL else v.
Proof.
  intros Hwf Hi. pose proof (length_elems s Hwf) as Hl. cbn [OPENSSL_sk_set]. destruct (Z.geb_spec i (num s)).
  - exists s. rewrite list_insert_ge by lia. done.
  - eexists. split; [reflexivity |]. destruct Hwf as [W1 W2 Wp W3]. split_and!; try done.
    + constructor; cbn; try lia. by rewrite length_insert.
    + unfold elems. cbn. by rewrite take_insert_lt by lia.
Qed.

Lemma zero_spec s :
  wf s -> exists s', OPENSSL_sk_zero (Some s) = Some s' /\ wf s' /\ elems s' = [] /\ comp s' = comp s.
Proof.
  intros Hwf. cbn [OPENSSL_sk_zero]. destruct (Z.eqb_spec (num s) 0) as [E | E].
  - exists s. split_and!; try done. unfold elems. by rewrite E.
  - eexists. split; [reflexivity |]. destruct Hwf as [W1 W2 Wp W3]. split_and!; try done.
    constructor; cbn; [unfold INT_MAX; lia | lia | lia |]. rewrite length_app, length_replicate, length_drop. lia.
Qed.

(** ** Compaction *)

Lemma delete_if_loop_spec func arr i n k :
  (k <= i)%nat -> (i + n <= length arr)%nat ->
  let r := delete_if_loop func arr i n k in
  take (snd r) (fst r) = take k arr ++ filter (fun p => func p = false) (take n (drop i arr)) /\
  length (fst r) = length arr /\ (snd r <= i + n)%nat.
Proof.
  cbn zeta. revert arr i k. induction n as [| n IH]; intros arr i k Hk Hn.
  - cbn [delete_if_loop fst snd]. rewrite take_0, app_nil_r. split_and!; [done | done | lia].
  - cbn [delete_if_loop]. destruct (lookup_lt_is_Some_2 arr i) as [v Hv]; [lia |].
    rewrite (list_lookup_total_correct _ _ _ Hv), (drop_S _ _ _ Hv). cbn [take].
    destruct (func v) eqn:Ef; cbn [negb].
    + destruct (IH arr (S i) k) as (-> & H2 & H3); [lia | lia |]. rewrite filter_cons_False by (rewrite Ef; done).
      split_and!; [done | done | lia].
    + destruct (IH (<[k := v]> arr) (S i) (S k)) as (-> & H2 & H3); [lia | rewrite length_insert; lia |].
      rewrite filter_cons_True by done. rewrite length_insert in H2. split_and!; [| done | lia].
      rewrite drop_insert_lt by lia.
      rewrite (take_S_r _ _ v) by (apply list_lookup_insert_eq; lia).
      rewrite take_insert_ge by lia. by rewrite <- app_assoc.
Qed.

Lemma delete_if_spec s func :
  wf s -> exists s', OPENSSL_sk_delete_if (Some s) func = Some s' /\ wf s' /\
    elems s' = filter (fun p => func p = false) (elems s) /\ sorted s' = sorted s /\ comp s' = comp s.
Proof.
  intros Hwf. cbn [OPENSSL_sk_delete_if]. pose proof Hwf as [W1 W2 Wp W3].
  destruct (delete_if_loop_spec func (data s) 0 (Z.to_nat (num s)) 0) as (H1 & H2 & H3); [lia | lia |].
  destruct (delete_if_loop func (data s) 0 (Z.to_nat (num s)) 0) as [arr n]. cbn [fst snd] in *.
  eexists. split; [reflexivity |]. split_and!; try done.
  - constructor; cbn; [lia | lia | lia |]. by rewrite H2.
  - unfold elems. cbn. by rewrite Nat2Z.id, H1, take_0, drop_0.
Qed.

(** ** Searching *)

Definition first_match (f : Z -> bool) (l : list Z) (i : nat) : Prop :=
  (exists v, l !! i = Some v /\ f v = true) /\ forall j v, (j < i)%nat -> l !! j = Some v -> f v = false.

Lemma first_match_unique f l i j : first_match f l i -> first_match f l j -> i = j.
Proof.
  intros [(v & Hv & Fv) Hi] [(w & Hw & Fw) Hj]. destruct (Nat.lt_trichotomy i j) as [H | [H | H]]; [| done |].
  - specialize (Hj i v H Hv). congruence.
  - specialize (Hi j w H Hw). congruence.
Qed.

Lemma scan_from_spec arr f from n :
  (from + n <= length arr)%nat ->
  match scan_from arr f from n with
  | Some i => first_match f (take n (drop from arr)) (i - from) /\ (from <= i)%nat
  | None => Forall (fun v => f v = false) (take n (drop from arr))
  end.
Proof.
  revert from. induction n as [| n IH]; intros from Hn; cbn [scan_from]; [rewrite take_0; constructor |].
  destruct (lookup_lt_is_Some_2 arr from) as [v Hv]; [lia |].
  rewrite (list_lookup_total_correct _ _ _ Hv), (drop_S _ _ _ Hv). cbn [take]. destruct (f v) eqn:Ef.
  - rewrite Nat.sub_diag. split; [| done]. split; [by exists v | intros; lia].
  - specialize (IH (S from) ltac:(lia)). destruct (scan_from arr f (S from) n) as [i |]; [| by constructor].
    destruct IH as [[(w & Hw & Fw) Hi] Hle]. split; [| lia].
    replace (i - from)%nat with (S (i - S from)) by lia. split; [by exists w |].
    intros [| j] u Hj Hu; cbn in Hu; [congruence |]. apply (Hi j); [lia | done].
Qed.

Lemma sk_scan_spec s f :
  wf s ->
  match sk_scan s f with
  | Some i => first_match f (elems s) i
  | None => Forall (fun v => f v = false) (elems s)
  end.
Proof.
  intros [W1 W2 Wp W3]. pose proof (scan_from_spec (data s) f 0 (Z.to_nat (num s)) ltac:(lia)) as H.
  unfold sk_scan. destruct (scan_from _ _ _ _) as [i |]; rewrite drop_0 in H; [| done].
  rewrite Nat.sub_0_r in H. apply H.
Qed.

(** The keys a search compares with decrease along a sorted array. *)
Definition decreasing (cmp : Z -> Z) (l : list Z) : Prop :=
  forall i j v w, (i <= j)%nat -> l !! i = Some v -> l !! j = Some w ->
    (cmp v < 0 -> cmp w < 0) /\ (cmp w > 0 -> cmp v > 0).

Lemma bsearch_spec fuel cmp arr l lo hi :
  decreasing cmp l -> (forall i, (i < length l)%nat -> arr !!! i = l !!! i) ->
  0 <= lo <= hi -> hi <= Z.of_nat (length l) -> hi - lo <= Z.of_nat fuel ->
  (forall i v, Z.of_nat i < lo -> l !! i = Some v -> cmp v > 0) ->
  (forall i v, hi <= Z.of_nat i -> l !! i = Some v -> cmp v <> 0 \/ 
     exists j w, lo <= Z.of_nat j < hi /\ l !! j = Some w /\ cmp w = 0) ->
  match bsearch_loop fuel cmp arr lo hi with
  | Some i => 0 <= i /\ first_match (fun v => cmp v =? 0) l (Z.to_nat i)
  | None => Forall (fun v => (cmp v =? 0) = false) l
  end.
Proof.
  intros Hdec Harr. revert lo hi. induction fuel as [| fuel IH]; intros lo hi Hlo Hhi Hfuel Hlow Hhigh.
  - cbn. assert (lo = hi) as <- by lia. apply Forall_lookup_2. intros i v Hv.
    destruct (Z.lt_ge_cases (Z.of_nat i) lo) as [H | H]; [specialize (Hlow i v H Hv); lia |].
    destruct (Hhigh i v H Hv) as [| (j & w & ? & _)]; lia.
  - cbn [bsearch_loop]. destruct (Z.ltb_spec lo hi) as [Hlt | Hge].
    2: { assert (lo = hi) as <- by lia. apply Forall_lookup_2. intros i v Hv.
         destruct (Z.lt_ge_cases (Z.of_nat i) lo) as [H | H]; [specialize (Hlow i v H Hv); lia |].
         destruct (Hhigh i v H Hv) as [| (j & w & ? & _)]; lia. }
    set (mid := lo + (hi - lo - 1) / 2).
    assert (lo <= mid < hi /\ (1 < hi - lo -> mid + 1 < hi)) as [Hmid Hmid2]
      by (unfold mid; Z.to_euclidean_division_equations; lia).
    destruct (lookup_lt_is_Some_2 l (Z.to_nat mid)) as [m Hm]; [lia |].
    rewrite Harr, (list_lookup_total_correct _ _ _ Hm) by lia.
    destruct (Z.gtb_spec (cmp m) 0) as [Hpos | Hnp]; [| destruct (Z.ltb_spec (cmp m) 0) as [Hneg | Hnn]].
    + apply IH; [lia | lia | lia | |].
      * intros i v Hi Hv. destruct (Hdec i (Z.to_nat mid) v m) as [_ H]; [lia | done | done |]. lia.
      * intros i v Hi Hv. destruct (Hhigh i v Hi Hv) as [| (j & w & Hj & Hw & Hz)]; [by left |]. right.
        exists j, w. split_and!; [| lia | done | done].
        destruct (Z.lt_ge_cases (Z.of_nat j) (mid + 1)) as [H |]; [| done].
        destruct (Hdec j (Z.to_nat mid) w m) as [_ Hd]; [lia | done | done | lia].
    + apply IH; [lia | lia | lia | done |]. intros i v Hi Hv. left.
      destruct (Hdec (Z.to_nat mid) i m v) as [Hd _]; [lia | done | done | lia].
    + assert (cmp m = 0) as Hz by lia. destruct (Z.eqb_spec (hi - lo) 1) as [H1 | H1].
      * assert (mid = lo) as E by lia. split; [lia |]. split; [exists m; split; [done | lia] |].
        intros j v Hj Hv. specialize (Hlow j v ltac:(lia) Hv). lia.
      * apply IH; [lia | lia | lia | done |]. intros i v Hi Hv. right. exists (Z.to_nat mid), m.
        split_and!; [lia | lia | done | done].
Qed.

(** * Sorted stacks *)

(** What the documentation asks of a comparison function. *)
Class Comparison (call_cmp : Z -> Z -> Z -> Z) : Prop := {
  cmp_flip f a b : call_cmp f a b < 0 <-> call_cmp f b a > 0;
  cmp_trans f a b c : call_cmp f a b <= 0 -> call_cmp f b c <= 0 -> call_cmp f a c <= 0 }.

(** The contract of the C library's [qsort] with such a function. *)
Class Qsort (call_cmp : Z -> Z -> Z -> Z) (qsort : (Z -> Z -> Z) -> list Z -> list Z) : Prop := {
  qsort_perm f l : qsort (call_cmp f) l ≡ₚ l;
  qsort_sorted f l : StronglySorted (fun a b => call_cmp f a b <= 0) (qsort (call_cmp f) l) }.

Section Sorted.
Context (call_cmp : Z -> Z -> Z -> Z) {Hcmp : Comparison call_cmp}.

Definition ascending (f : Z) : list Z -> Prop := StronglySorted (fun a b => call_cmp f a b <= 0).

(** The flag never lies. *)
Definition truthful (s : stack_st) : Prop := sorted s = true -> ascending (comp s) (elems s).

Lemma cmp_refl f a : call_cmp f a a = 0.
Proof. pose proof (cmp_flip f a a). lia. Qed.

Lemma ascending_lookup f l i j v w :
  ascending f l -> (i <= j)%nat -> l !! i = Some v -> l !! j = Some w -> call_cmp f v w <= 0.
Proof.
  intros Hs. revert i j. induction Hs as [| x l Hs IH Hx]; intros i j Hij Hv Hw; [done |].
  destruct i as [| i], j as [| j]; cbn in Hv, Hw; [| | lia | by apply (IH i j); [lia | |]].
  - injection Hv as ->. injection Hw as ->. by rewrite cmp_refl.
  - injection Hv as ->. rewrite Forall_lookup in Hx. by eapply Hx.
Qed.

Lemma ascending_decreasing f p l : ascending f l -> decreasing (call_cmp f p) l.
Proof.
  intros Hs i j v w Hij Hv Hw. pose proof (ascending_lookup f l i j v w Hs Hij Hv Hw) as Hvw.
  pose proof (cmp_flip f p v) as F1. pose proof (cmp_flip f p w) as F2.
  pose proof (cmp_trans f v w p Hvw) as T1. pose proof (fun H => cmp_trans f p v w H Hvw) as T2.
  pose proof (cmp_flip f v p). pose proof (cmp_flip f w p). lia.
Qed.

Lemma ascending_sublist f l k : sublist k l -> ascending f l -> ascending f k.
Proof.
  induction 1 as [| x k l Hsub IH | x k l Hsub IH]; intros Hs; [done | |].
  - apply StronglySorted_inv in Hs as [Hs Hx]. constructor; [by apply IH |].
    rewrite !Forall_forall in *. intros y Hy. apply Hx. apply list_elem_of_In.
    eapply elem_of_sublist; [by apply list_elem_of_In | done].
  - apply StronglySorted_inv in Hs as [Hs _]. by apply IH.
Qed.

Lemma find_spec s p :
  wf s -> truthful s ->
  let eq q := if comp s =? NULL then q =? p else call_cmp (comp s) p q =? 0 in
  match OPENSSL_sk_find call_cmp (Some s) p with
  | Some i => 0 <= i /\ first_match eq (elems s) (Z.to_nat i)
  | None => Forall (fun q => eq q = false) (elems s) \/ (comp s <> NULL /\ p = NULL)
  end.
Proof.
  intros Hwf Ht. cbn zeta. unfold OPENSSL_sk_find. pose proof (length_elems s Hwf) as Hl.
  destruct (Z.eqb_spec (comp s) NULL) as [Hc | Hc].
  { pose proof (sk_scan_spec s (fun q => q =? p) Hwf) as H. destruct (sk_scan s _) as [i |]; cbn; [| by left].
    rewrite Nat2Z.id. split; [lia | done]. }
  destruct (Z.eqb_spec p NULL) as [Hp | Hp]; [by right |].
  destruct (OPENSSL_sk_is_sorted (Some s)) eqn:Es; cbn [negb].
  - assert (ascending (comp s) (elems s)) as Hs.
    { cbn in Es. apply orb_true_iff in Es as [Es | Es]; [by apply Ht |]. apply andb_true_iff in Es as [_ Es].
      destruct (elems s) as [| x [| y l]]; [constructor | repeat constructor | cbn in Hl; lia]. }
    pose proof (bsearch_spec (Z.to_nat (num s)) (call_cmp (comp s) p) (data s) (elems s) 0 (num s)) as H.
    pose proof Hwf as [W1 _ _ _].
    destruct (bsearch_loop _ _ _ _ _).
    + apply H; try lia; [by apply ascending_decreasing | |].
      * intros i Hi. rewrite <- (Nat2Z.id i) at 1 2. apply lookup_data; [done | lia].
      * intros i v Hi Hv. apply lookup_lt_Some in Hv. lia.
    + left. apply H; try lia; [by apply ascending_decreasing | |].
      * intros i Hi. rewrite <- (Nat2Z.id i) at 1 2. apply lookup_data; [done | lia].
      * intros i v Hi Hv. apply lookup_lt_Some in Hv. lia.
  - pose proof (sk_scan_spec s (fun q => call_cmp (comp s) p q =? 0) Hwf) as H.
    destruct (sk_scan s _) as [i |]; cbn; [| by left]. rewrite Nat2Z.id. split; [lia | done].
Qed.

Lemma sort_spec qsort `{!Qsort call_cmp qsort} s :
  wf s -> truthful s ->
  exists s', OPENSSL_sk_sort call_cmp qsort (Some s) = Some s' /\ wf s' /\ truthful s' /\ elems s' ≡ₚ elems s /\
    comp s' = comp s /\ (comp s <> NULL -> sorted s' = true).
Proof.
  intros Hwf Ht. cbn [OPENSSL_sk_sort]. destruct (Z.eqb_spec (comp s) NULL) as [Hc | Hc]; cbn [orb]; [by exists s |].
  destruct (sorted s) eqn:Es; [by exists s |]. pose proof (length_elems s Hwf) as Hl. pose proof Hwf as [W1 W2 Wp W3].
  eexists. split; [reflexivity |]. fold (elems s). destruct (Z.geb_spec (num s) 2) as [H2 | H2].
  - pose proof (qsort_perm (comp s) (elems s)) as Hp. apply Permutation_length in Hp as Hpl.
    assert (elems (mk_stack (num s) (qsort (call_cmp (comp s)) (elems s) ++ drop (Z.to_nat (num s)) (data s)) true (num_alloc s) (comp s))
            = qsort (call_cmp (comp s)) (elems s)) as E by (apply elems_app; lia).
    split_and!; try done.
    + constructor; cbn; try lia. rewrite length_app, length_drop. lia.
    + intros _. rewrite E. apply qsort_sorted.
    + by rewrite E.
  - split_and!; try done. intros _. unfold elems. cbn. fold (elems s).
    destruct (elems s) as [| x [| y l]]; [constructor | repeat constructor | cbn in Hl; lia].
Qed.

End Sorted.

(** * Sequences of calls *)

Inductive sk_call :=
| Insert (p w : Z) | Push (p : Z) | Unshift (p : Z)
| Delete (w : Z) | DeletePtr (p : Z) | DeleteIf (func : Z -> bool) | Pop | Shift
| SetAt (i v : Z) | Zero.

Definition do_call (realloc_ok : Z -> bool) (junk : Z) (c : sk_call) (sk : OPENSSL_STACK) : Z * OPENSSL_STACK :=
  match c with
  | Insert p w => OPENSSL_sk_insert realloc_ok junk sk p w
  | Push p => OPENSSL_sk_push realloc_ok junk sk p
  | Unshift p => OPENSSL_sk_unshift realloc_ok junk sk p
  | Delete w => OPENSSL_sk_delete sk w
  | DeletePtr p => OPENSSL_sk_delete_ptr sk p
  | DeleteIf func => (0, OPENSSL_sk_delete_if sk func)
  | Pop => OPENSSL_sk_pop sk
  | Shift => OPENSSL_sk_shift sk
  | SetAt i v => OPENSSL_sk_set sk i v
  | Zero => (0, OPENSSL_sk_zero sk)
  end.

Definition call_ok (c : sk_call) : Prop :=
  match c with Insert _ w | Delete w => 0 <= w | SetAt i _ => 0 <= i | _ => True end.

(** The same calls on a list of pointers. *)
Definition l_insert_call (w p : Z) (l : list Z) : Z * list Z :=
  if len l >=? INT_MAX then (0, l) else (len l + 1, l_insert w p l).

Definition l_delete_call (w : Z) (l : list Z) : Z * list Z :=
  if w >=? len l then (NULL, l) else (l !!! Z.to_nat w, delete (Z.to_nat w) l).

Definition list_call (c : sk_call) (l : list Z) : Z * list Z :=
  match c with
  | Insert p w => l_insert_call w p l
  | Push p => l_insert_call (len l) p l
  | Unshift p => l_insert_call 0 p l
  | Delete w => l_delete_call w l
  | DeletePtr p =>
      match list_find (fun q => q = p) l with Some (i, _) => (p, delete i l) | None => (NULL, l) end
  | DeleteIf func => (0, filter (fun p => func p = false) l)
  | Pop => match l with [] => (NULL, l) | _ => l_delete_call (len l - 1) l end
  | Shift => match l with [] => (NULL, l) | x :: l => (x, l) end
  | SetAt i v => (if i >=? len l then NULL else v, <[Z.to_nat i := v]> l)
  | Zero => (0, [])
  end.

Lemma find_first_match p l i :
  first_match (fun q => q =? p) l i -> list_find (fun q => q = p) l = Some (i, p).
Proof.
  intros [(v & Hv & Fv) Hi]. apply list_find_Some. split_and!.
  - rewrite Hv. f_equal. lia.
  - done.
  - intros j y Hj Hlt. specialize (Hi j y Hlt Hj). lia.
Qed.

Lemma sk_call_refines realloc_ok junk c s :
  wf s -> call_ok c ->
  exists ret s', do_call realloc_ok junk c (Some s) = (ret, Some s') /\ wf s' /\
    ((ret, elems s') = list_call c (elems s) \/ (ret = 0 /\ s' = s /\ exists n, realloc_ok n = false)).
Proof.
  intros Hwf Hc. pose proof (length_elems s Hwf) as Hl. fold (len (elems s)) in Hl.
  assert (forall p w, 0 <= w -> exists ret s', OPENSSL_sk_insert realloc_ok junk (Some s) p w = (ret, Some s') /\ wf s' /\
    ((ret, elems s') = l_insert_call w p (elems s) \/ (ret = 0 /\ s' = s /\ exists n, realloc_ok n = false))) as Hins.
  { intros p w Hw. destruct (sk_insert_spec realloc_ok junk s p w Hwf Hw) as (s' & E & Hwf' & H).
    destruct (OPENSSL_sk_insert realloc_ok junk (Some s) p w) as [ret sk'] eqn:Eq. cbn [fst snd] in *. subst sk'.
    exists ret, s'. split_and!; [done | done |]. unfold l_insert_call. rewrite Hl.
    destruct H as [(-> & -> & [Hm | Hf]) | (-> & -> & _ & _ & Hm)].
    - left. by replace (num s >=? INT_MAX) with true by lia.
    - by right.
    - left. by replace (num s >=? INT_MAX) with false by lia. }
  assert (forall w, 0 <= w -> exists ret s', OPENSSL_sk_delete (Some s) w = (ret, Some s') /\ wf s' /\
    (ret, elems s') = l_delete_call w (elems s)) as Hdel.
  { intros w Hw. destruct (sk_delete_spec s w Hwf Hw) as (s' & E & Hwf' & _ & _ & H).
    destruct (OPENSSL_sk_delete (Some s) w) as [ret sk']. cbn [fst snd] in *. subst sk'.
    exists ret, s'. split_and!; [done | done |]. unfold l_delete_call. rewrite Hl.
    destruct (w >=? num s); destruct H as [-> ->]; done. }
  pose proof (wf_num s Hwf) as Hn. destruct c; cbn [do_call list_call call_ok] in *.
  - by apply Hins.
  - unfold OPENSSL_sk_push. cbn [OPENSSL_sk_num]. rewrite Hl. apply Hins. lia.
  - by apply Hins.
  - destruct (Hdel w Hc) as (ret & s' & E & H1 & H2). exists ret, s'. auto.
  - unfold OPENSSL_sk_delete_ptr. pose proof (sk_scan_spec s (fun q => q =? p) Hwf) as H.
    destruct (sk_scan s _) as [i |].
    + rewrite (find_first_match _ _ _ H). destruct (Hdel (Z.of_nat i)) as (ret & s' & E & H1 & H2); [lia |].
      exists ret, s'. split_and!; [done | done |]. left. rewrite H2. unfold l_delete_call.
      destruct H as [(v & Hv & Fv) _]. apply lookup_lt_Some in Hv as Hlt. unfold len.
      replace (_ >=? _) with false by lia. rewrite Nat2Z.id, (list_lookup_total_correct _ _ _ Hv). f_equal. lia.
    + exists NULL, s. split_and!; [done | done |]. left.
      replace (list_find (fun q => q = p) (elems s)) with (@None (nat * Z)); [done |]. symmetry.
      apply list_find_None. eapply Forall_impl; [| exact H]. cbn. intros q Hq. lia.
  - destruct (delete_if_spec s func Hwf) as (s' & E & H1 & H2 & _). exists 0, s'. rewrite E, H2. auto.
  - unfold OPENSSL_sk_pop. destruct (elems s) as [| x l] eqn:El.
    + replace (num s =? 0) with true by (change (len []) with 0 in Hl; lia). exists NULL, s. rewrite El. auto.
    + replace (num s =? 0) with false by (rewrite len_cons in Hl; pose proof (len_nonneg l); lia).
      rewrite len_cons in Hl. pose proof (len_nonneg l). destruct (Hdel (num s - 1)) as (ret & s' & E & H1 & H2); [lia |].
      exists ret, s'. split_and!; [done | done |]. left. rewrite H2, len_cons, Hl. done.
  - unfold OPENSSL_sk_shift. destruct (elems s) as [| x l] eqn:El.
    + replace (num s =? 0) with true by (change (len []) with 0 in Hl; lia). exists NULL, s. rewrite El. auto.
    + rewrite len_cons in Hl. pose proof (len_nonneg l). replace (num s =? 0) with false by lia.
      destruct (Hdel 0) as (ret & s' & E & H1 & H2); [lia |]. exists ret, s'. split_and!; [done | done |]. left.
      rewrite H2. unfold l_delete_call. rewrite len_cons. by replace (0 >=? _) with false by lia.
  - destruct (set_spec s i v Hwf Hc) as (s' & E & H1 & H2 & _ & _ & H3).
    destruct (OPENSSL_sk_set (Some s) i v) as [ret sk']. cbn [fst snd] in *. subst sk'.
    exists ret, s'. split_and!; [done | done |]. left. by rewrite H2, H3, Hl.
  - destruct (zero_spec s Hwf) as (s' & E & H1 & H2 & _). exists 0, s'. rewrite E, H2. auto.
Qed.

(** The results of the calls, in order. *)
Fixpoint do_calls (realloc_ok : Z -> bool) (junk : Z) (cs : list sk_call) (sk : OPENSSL_STACK) : list Z * OPENSSL_STACK :=
  match cs with
  | [] => ([], sk)
  | c :: cs =>
      let '(ret, sk) := do_call realloc_ok junk c sk in
      let '(rets, sk) := do_calls realloc_ok junk cs sk in (ret :: rets, sk)
  end.

Fixpoint list_calls (cs : list sk_call) (l : list Z) : list Z * list Z :=
  match cs with
  | [] => ([], l)
  | c :: cs =>
      let '(ret, l) := list_call c l in
      let '(rets, l) := list_calls cs l in (ret :: rets, l)
  end.

Lemma sk_calls_refine realloc_ok junk cs s :
  (forall n, realloc_ok n = true) -> wf s -> Forall call_ok cs ->
  exists s', do_calls realloc_ok junk cs (Some s) = (fst (list_calls cs (elems s)), Some s') /\ wf s' /\
    elems s' = snd (list_calls cs (elems s)).
Proof.
  intros Hr Hwf Hcs. revert s Hwf. induction Hcs as [| c cs Hc Hcs IH]; intros s Hwf; [by exists s |].
  cbn [do_calls list_calls]. destruct (sk_call_refines realloc_ok junk c s Hwf Hc) as (ret & s1 & E & Hwf1 & H).
  rewrite E. destruct H as [H | (_ & _ & n & Hn)]; [| by rewrite Hr in Hn].
  rewrite <- H. destruct (IH s1 Hwf1) as (s2 & E2 & Hwf2 & H2). rewrite E2. exists s2.
  destruct (list_calls cs (elems s1)) as [rets l]. done.
Qed.

Lemma sk_new_wf cmp s : OPENSSL_sk_new true cmp = Some s -> wf s /\ elems s = [].
Proof. intros [= <-]. split; [| done]. constructor; cbn; unfold INT_MAX, kMinSize; lia. Qed.

(** ** Copies *)

Definition copied (copy : Z -> Z) (p : Z) : Z := if p =? NULL then NULL else copy p.

Lemma deep_copy_loop_spec copy arr i n :
  (i + n <= length arr)%nat ->
  match deep_copy_loop copy arr i n with
  | inl arr' => arr' = take i arr ++ map (copied copy) (take n (drop i arr)) ++ drop (i + n) arr /\
                Forall (fun p => p <> NULL -> copy p <> NULL) (take n (drop i arr))
  | inr freed => exists k, (k < n)%nat /\ (exists p, arr !! (i + k)%nat = Some p /\ p <> NULL /\ copy p = NULL) /\
                 freed = filter (fun p => p <> NULL) (take i arr ++ map (copied copy) (take k (drop i arr)))
  end.
Proof.
  revert arr i. induction n as [| n IH]; intros arr i Hn; cbn [deep_copy_loop].
  { rewrite take_0, Nat.add_0_r. split; [cbn; by rewrite take_drop | constructor]. }
  destruct (lookup_lt_is_Some_2 arr i) as [v Hv]; [lia |].
  rewrite (list_lookup_total_correct _ _ _ Hv), (drop_S _ _ _ Hv). cbn [take map].
  pose proof (take_S_r _ _ _ Hv) as Hts. unfold copied at 1. destruct (Z.eqb_spec v NULL) as [Hz | Hz].
  - specialize (IH arr (S i) ltac:(lia)). destruct (deep_copy_loop copy arr (S i) n) as [arr' | freed].
    + destruct IH as [-> Hf]. rewrite Hts, Hz, <- app_assoc. replace (i + S n)%nat with (S i + n)%nat by lia.
      split; [done | by constructor].
    + destruct IH as (k & Hk & Hp & ->). exists (S k). split; [lia |]. rewrite Nat.add_succ_r. split; [done |].
      rewrite Hts, <- app_assoc. cbn [take map app]. unfold copied at 2. by rewrite Hz.
  - destruct (Z.eqb_spec (copy v) NULL) as [Hc | Hc].
    + exists O. split; [lia |]. rewrite Nat.add_0_r. split; [by exists v |]. cbn. by rewrite app_nil_r.
    + specialize (IH (<[i := copy v]> arr) (S i)). rewrite length_insert in IH. specialize (IH ltac:(lia)).
      assert (take (S i) (<[i := copy v]> arr) = take i arr ++ [copy v]) as Ht.
      { rewrite (take_S_r _ _ (copy v)) by (apply list_lookup_insert_eq; lia). by rewrite take_insert_ge. }
      rewrite Ht, !drop_insert_lt in IH by lia.
      destruct (deep_copy_loop copy (<[i := copy v]> arr) (S i) n) as [arr' | freed].
      * destruct IH as [-> Hf]. rewrite <- app_assoc. replace (i + S n)%nat with (S i + n)%nat by lia.
        split; [done | by constructor].
      * destruct IH as (k & Hk & (p & Hp & Hp') & ->). exists (S k). split; [lia |]. rewrite Nat.add_succ_r. split.
        -- exists p. rewrite list_lookup_insert_ne in Hp by lia. done.
        -- rewrite <- app_assoc. cbn [take map app]. unfold copied at 2. by apply Z.eqb_neq in Hz as ->.
Qed.

(** * Properties *)

(** C6: a stack is a list.  After [OPENSSL_sk_new], any sequence of insertions (at any
    index, push, unshift), deletions (by index, by pointer, by predicate, pop, shift),
    stores and resets returns the results and leaves the elements of the same operations on
    a list, whatever array growth and shifting they cause; a failed growth is the only other
    outcome, in which the insertion returns 0 and the stack is unchanged. *)
Theorem stack_refines_list realloc_ok junk cmp cs s0 :
  OPENSSL_sk_new true cmp = Some s0 -> Forall call_ok cs ->
  ((forall n, realloc_ok n = true) ->
   exists s, do_calls realloc_ok junk cs (Some s0) = (fst (list_calls cs []), Some s) /\ wf s /\
     elems s = snd (list_calls cs [])) /\
  (forall s c, wf s -> call_ok c ->
   exists ret s', do_call realloc_ok junk c (Some s) = (ret, Some s') /\ wf s' /\
     ((ret, elems s') = list_call c (elems s) \/ (ret = 0 /\ s' = s /\ exists n, realloc_ok n = false))).
Proof.
  intros Hnew Hcs. apply sk_new_wf in Hnew as [Hwf He]. split.
  - intros Hr. rewrite <- He. by apply sk_calls_refine.
  - intros s c Hs Hc. by apply sk_call_refines.
Qed.

Lemma stack_refines_list_witness :
  exists s, do_calls (fun _ => true) 77 [Push 5; Push 6; Insert 7 1; Unshift 8; Push 9; DeletePtr 6; Pop]
              (OPENSSL_sk_new true 0) = ([1; 2; 3; 4; 5; 6; 9], Some s) /\ wf s /\ elems s = [8; 5; 7].
Proof.
  destruct (stack_refines_list (fun _ => true) 77 0 [Push 5; Push 6; Insert 7 1; Unshift 8; Push 9; DeletePtr 6; Pop]
              (mk_stack 0 [0; 0; 0; 0] false 4 0)) as [H _];
    [reflexivity | repeat constructor; discriminate |]. by apply H.
Defined.

(** [OPENSSL_sk_find] returns the first match.  On a stack whose [sorted] flag is
    truthful, whether it scans by pointer, scans with the comparison function or searches
    by bisection, it returns the smallest index whose element matches, and fails exactly
    when no element matches (or when NULL is looked up with a comparison function set). *)
Theorem sk_find_correct call_cmp s p :
  Comparison call_cmp -> wf s -> truthful call_cmp s ->
  let eq q := if comp s =? NULL then q =? p else call_cmp (comp s) p q =? 0 in
  match OPENSSL_sk_find call_cmp (Some s) p with
  | Some i => 0 <= i /\ first_match eq (elems s) (Z.to_nat i)
  | None => Forall (fun q => eq q = false) (elems s) \/ (comp s <> NULL /\ p = NULL)
  end.
Proof. intros. by apply find_spec. Qed.

Definition minus (_ a b : Z) : Z := a - b.

Lemma minus_comparison : Comparison minus.
Proof. constructor; unfold minus; lia. Qed.

Lemma sk_find_correct_witness :
  first_match (fun q => 5 - q =? 0) [3; 5; 5; 9] 1.
Proof.
  pose proof (sk_find_correct minus (mk_stack 4 [3; 5; 5; 9; 0] true 5 1) 5 minus_comparison) as H.
  assert (wf (mk_stack 4 [3; 5; 5; 9; 0] true 5 1)) as Hwf by (constructor; cbn; unfold INT_MAX; lia).
  assert (truthful minus (mk_stack 4 [3; 5; 5; 9; 0] true 5 1)) as Ht.
  { intros _. unfold ascending, elems, minus. cbn. repeat constructor; lia. }
  apply (H Hwf Ht).
Defined.

(** The [sorted] flag stays truthful (the elements are ascending under the current
    comparison function whenever it is set) through every operation of the stack but
    [OPENSSL_sk_set]: insertion clears it, deletion keeps the order, changing the function
    clears it, and [OPENSSL_sk_sort] sets it after permuting the elements into order. *)
Theorem sorted_flag_truthful realloc_ok junk call_cmp qsort s :
  Comparison call_cmp -> Qsort call_cmp qsort -> wf s -> truthful call_cmp s ->
  (forall c, call_ok c -> (forall i v, c <> SetAt i v) ->
     exists s', snd (do_call realloc_ok junk c (Some s)) = Some s' /\ truthful call_cmp s') /\
  (exists s', OPENSSL_sk_sort call_cmp qsort (Some s) = Some s' /\ truthful call_cmp s' /\ elems s' ≡ₚ elems s /\
     (comp s <> NULL -> OPENSSL_sk_is_sorted (Some s') = true)) /\
  (forall cmp, truthful call_cmp (snd (OPENSSL_sk_set_cmp_func s cmp))).
Proof.
  intros Hcmp Hq Hwf Ht.
  assert (forall s', sorted s' = sorted s -> comp s' = comp s -> sublist (elems s') (elems s) -> truthful call_cmp s') as Hsub.
  { intros s' E1 E2 Hs H. rewrite E2. eapply ascending_sublist; [done |]. apply Ht. congruence. }
  assert (forall w, 0 <= w -> exists s', snd (OPENSSL_sk_delete (Some s) w) = Some s' /\ truthful call_cmp s') as Hdel.
  { intros w Hw. destruct (sk_delete_spec s w Hwf Hw) as (s' & E & _ & E1 & E2 & H). exists s'. split; [done |].
    apply Hsub; [done | done |]. destruct (w >=? num s); [by destruct H as [-> _] |].
    destruct H as [-> _]. apply sublist_delete. }
  assert (forall p w, 0 <= w -> exists s', snd (OPENSSL_sk_insert realloc_ok junk (Some s) p w) = Some s' /\ truthful call_cmp s') as Hins.
  { intros p w Hw. destruct (sk_insert_spec realloc_ok junk s p w Hwf Hw) as (s' & E & _ & H). exists s'. split; [done |].
    destruct H as [(_ & -> & _) | (_ & _ & H & _)]; [done |]. intros H'. congruence. }
  pose proof (wf_num s Hwf) as Hn. split_and!.
  - intros c Hc Hne. destruct c; cbn [do_call call_ok snd] in *; try (by eauto).
    + apply Hins. cbn. lia.
    + apply Hins. lia.
    + unfold OPENSSL_sk_delete_ptr. destruct (sk_scan s _); [apply Hdel; lia | by eauto].
    + destruct (delete_if_spec s func Hwf) as (s' & E & _ & E3 & E1 & E2). exists s'. split; [done |].
      apply Hsub; [done | done |]. rewrite E3. apply sublist_filter.
    + unfold OPENSSL_sk_pop. destruct (num s =? 0) eqn:E; [by eauto |]. apply Hdel. lia.
    + unfold OPENSSL_sk_shift. destruct (num s =? 0); [by eauto |]. apply Hdel. lia.
    + by destruct (Hne i v).
    + destruct (zero_spec s Hwf) as (s' & E & _ & E3 & _). exists s'. split; [done |]. intros _. rewrite E3. constructor.
  - destruct (sort_spec call_cmp qsort s Hwf Ht) as (s' & E & _ & Ht' & Hp & _ & Hs). exists s'.
    split_and!; [done | done | done |]. intros Hc. cbn. by rewrite Hs.
  - intros cmp. unfold truthful. cbn. destruct (Z.eqb_spec (comp s) cmp) as [<- |]; cbn [negb]; [exact Ht | done].
Qed.

(** An insertion sort, to show the contract of [qsort] can be met. *)
Definition sort_with (f : Z -> Z -> Z) : list Z -> list Z :=
  foldr (fix ins x l := match l with [] => [x] | y :: l' => if f x y <=? 0 then x :: l else y :: ins x l' end) [].

Lemma sort_with_minus l : sort_with (minus 0) l ≡ₚ l /\ StronglySorted (fun a b => minus 0 a b <= 0) (sort_with (minus 0) l).
Proof.
  set (ins := fix ins x l := match l with [] => [x] | y :: l' => if minus 0 x y <=? 0 then x :: l else y :: ins x l' end).
  assert (forall x l, StronglySorted (fun a b => minus 0 a b <= 0) l ->
    ins x l ≡ₚ x :: l /\ StronglySorted (fun a b => minus 0 a b <= 0) (ins x l)) as Hins.
  { intros x l0 Hs. induction Hs as [| y l0 Hs [IHp IHs] Hy]; [split; [done | repeat constructor] |]. cbn.
    destruct (Z.leb_spec (minus 0 x y) 0) as [Hle | Hgt].
    - split; [done |]. constructor; [by constructor |]. constructor; [done |].
      eapply Forall_impl; [| exact Hy]. unfold minus in *. cbn. intros; lia.
    - split; [rewrite IHp; apply Permutation_swap |]. constructor; [done |]. rewrite IHp.
      constructor; [unfold minus in *; lia | done]. }
  induction l as [| x l [IHp IHs]]; [split; [done | constructor] |].
  destruct (Hins x (sort_with (minus 0) l) IHs) as [H1 H2]. split; [| done].
  change (sort_with (minus 0) (x :: l)) with (ins x (sort_with (minus 0) l)). by rewrite H1, IHp.
Qed.

Lemma sort_with_qsort : Qsort minus sort_with.
Proof. constructor; intros f l; apply sort_with_minus. Qed.

Lemma sorted_flag_truthful_witness :
  exists s', OPENSSL_sk_sort minus sort_with (Some (mk_stack 3 [9; 3; 5; 0] false 4 1)) = Some s' /\
    ascending minus 1 (elems s').
Proof.
  destruct (sorted_flag_truthful (fun _ => true) 0 minus sort_with (mk_stack 3 [9; 3; 5; 0] false 4 1)
              minus_comparison sort_with_qsort) as (_ & (s' & E & Ht & _) & _).
  - constructor; cbn; unfold INT_MAX; lia.
  - done.
  - exists s'. split; [done |]. vm_compute in E. injection E as <-. by apply Ht.
Defined.

(** [OPENSSL_sk_set] does not clear the flag: after a store into a sorted stack
    [OPENSSL_sk_is_sorted] still answers 1, and bisection misses an element that is there. *)
Example sk_set_stale_sorted :
  let s := mk_stack 3 [3; 5; 9; 0] true 4 1 in
  exists s', OPENSSL_sk_set (Some s) 0 7 = (7, Some s') /\ elems s' = [7; 5; 9] /\
    OPENSSL_sk_is_sorted (Some s') = true /\ OPENSSL_sk_find minus (Some s') 7 = None /\
    ~ truthful minus s'.
Proof.
  cbn. eexists. split; [reflexivity |]. split_and!; try reflexivity. intros H. specialize (H eq_refl).
  unfold ascending, elems, minus in H. cbn in H. inversion H as [| ? ? _ Hf]; subst. inversion Hf; subst. lia.
Qed.

(** [OPENSSL_sk_deep_copy] is all or nothing: it yields a stack of the same shape whose
    non-NULL elements are the copies, or, when some copy fails, NULL after freeing exactly
    the copies made before it (never an original, never twice). *)
Theorem deep_copy_correct copy s :
  wf s ->
  match OPENSSL_sk_deep_copy true copy (Some s) with
  | (Some s', freed) => freed = [] /\ wf s' /\ elems s' = map (copied copy) (elems s) /\
      sorted s' = sorted s /\ comp s' = comp s /\ Forall (fun p => p <> NULL -> copy p <> NULL) (elems s)
  | (None, freed) => exists k p, elems s !! k = Some p /\ p <> NULL /\ copy p = NULL /\
      freed = filter (fun p => p <> NULL) (map (copied copy) (take k (elems s)))
  end.
Proof.
  intros Hwf. pose proof Hwf as [W1 W2 Wp W3]. unfold OPENSSL_sk_deep_copy, OPENSSL_sk_dup.
  pose proof (deep_copy_loop_spec copy (data s) 0 (Z.to_nat (num s)) ltac:(lia)) as H.
  destruct (deep_copy_loop _ _ _ _) as [arr | freed]; rewrite ?take_0, ?drop_0 in H; cbn [app Nat.add] in H; fold (elems s) in H.
  - destruct H as [-> Hf]. pose proof (length_elems s Hwf).
    split_and!; try done.
    + constructor; cbn; try lia. rewrite length_app, length_map, length_drop. lia.
    + apply elems_app. rewrite length_map. done.
  - destruct H as (k & Hk & (p & Hp & Hp1 & Hp2) & ->). exists k, p. unfold elems.
    rewrite lookup_take_lt by lia. split_and!; [done | done | done |]. rewrite take_take, Nat.min_l by lia. done.
Qed.

Lemma deep_copy_correct_witness :
  OPENSSL_sk_deep_copy true (fun p => if p =? 6 then 0 else p + 100) (Some (mk_stack 3 [5; 0; 6; 9] false 4 0))
  = (None, [105]) /\
  exists k p, [5; 0; 6] !! k = Some p /\ p <> NULL /\ (if p =? 6 then 0 else p + 100) = NULL /\
    [105] = filter (fun p => p <> NULL) (map (copied (fun p => if p =? 6 then 0 else p + 100)) (take k [5; 0; 6])).
Proof.
  split; [reflexivity |].
  apply (deep_copy_correct (fun p => if p =? 6 then 0 else p + 100) (mk_stack 3 [5; 0; 6; 9] false 4 0)).
  constructor; cbn; unfold INT_MAX; lia.
Defined.

End Stack.
