(* ===== verification/Lhash.v ===== *)
(** LHASH, the chained hash table (crypto/lhash/lhash.c).

    A pointer is its address, 0 for NULL.  The table's hash and comparison functions are the
    caller's: [hashf] and [cmpf] are the results of calling them.  A chain is the list of its
    items from the bucket's head on; a [LHASH_ITEM **] is a bucket and a position in its
    chain.  [alloc_ok] is the outcome of an allocation of so many bytes. *)

From S2P Require Import Prelude.

Module Lhash.

Record LHASH_ITEM := mk_item { item_data : Z; item_hash : Z }.

Record lhash_st := mk_lhash {
  num_items : Z; buckets : list (list LHASH_ITEM); num_buckets : Z; callback_depth : Z }.

Definition NULL : Z := 0.
Definition UINT_MAX : Z := 2 ^ 32 - 1.
Definition kMinNumBuckets : Z := 16.
Definition kMaxAverageChainLength : Z := 2.
Definition kMinAverageChainLength : Z := 1.

Section Ops.
Context (hashf : Z -> Z) (cmpf : Z -> Z -> Z) (alloc_ok : Z -> bool).

Definition OPENSSL_lh_new : option lhash_st :=
  if alloc_ok (kMinNumBuckets * 8)
  then Some (mk_lhash 0 (replicate (Z.to_nat kMinNumBuckets) []) kMinNumBuckets 0) else None.

(** The items [OPENSSL_lh_free] releases, in order. *)
Definition OPENSSL_lh_free (lh : lhash_st) : list LHASH_ITEM := concat (buckets lh).

Definition OPENSSL_lh_num_items (lh : lhash_st) : Z := num_items lh.

(** The first position of [chain] whose item satisfies [f], or its end. *)
Fixpoint chain_pos (f : Z -> bool) (chain : list LHASH_ITEM) : nat :=
  match chain with
  | [] => O
  | cur :: chain => if f (item_data cur) then O else S (chain_pos f chain)
  end.

Definition chain_at (lh : lhash_st) (hash : Z) : list LHASH_ITEM :=
  buckets lh !!! Z.to_nat (hash mod num_buckets lh).

(** The hash, and the position in the chain of its bucket. *)
Definition get_next_ptr_and_hash (lh : lhash_st) (data : Z) : Z * nat :=
  let hash := hashf data in
  (hash, chain_pos (fun d => cmpf d data =? 0) (chain_at lh hash)).

Definition get_next_ptr_by_key (lh : lhash_st) (key_hash : Z) (cmp_key : Z -> Z) : nat :=
  chain_pos (fun d => cmp_key d =? 0) (chain_at lh key_hash).

Definition data_at (chain : list LHASH_ITEM) (pos : nat) : Z :=
  match chain !! pos with None => NULL | Some item => item_data item end.

Definition OPENSSL_lh_retrieve (lh : lhash_st) (data : Z) : Z :=
  let '(hash, pos) := get_next_ptr_and_hash lh data in data_at (chain_at lh hash) pos.

Definition OPENSSL_lh_retrieve_key (lh : lhash_st) (key_hash : Z) (cmp_key : Z -> Z) : Z :=
  data_at (chain_at lh key_hash) (get_next_ptr_by_key lh key_hash cmp_key).

(** Moves one item to the front of its new chain. *)
Definition move_item (new_num_buckets : Z) (new_buckets : list (list LHASH_ITEM)) (cur : LHASH_ITEM)
    : list (list LHASH_ITEM) :=
  let new_bucket := Z.to_nat (item_hash cur mod new_num_buckets) in
  <[new_bucket := cur :: new_buckets !!! new_bucket]> new_buckets.

Definition lh_rebucket (lh : lhash_st) (new_num_buckets : Z) : lhash_st :=
  let alloc_size := u64 (8 * new_num_buckets) in
  if negb (alloc_size / 8 =? new_num_buckets) then lh
  else if negb (alloc_ok alloc_size) then lh
  else
    let new_buckets :=
      foldl (foldl (move_item new_num_buckets)) (replicate (Z.to_nat new_num_buckets) []) (buckets lh) in
    mk_lhash (num_items lh) new_buckets new_num_buckets (callback_depth lh).

Definition lh_maybe_resize (lh : lhash_st) : lhash_st :=
  if callback_depth lh >? 0 then lh
  else
    let avg_chain_length := num_items lh / num_buckets lh in
    if avg_chain_length >? kMaxAverageChainLength then
      let new_num_buckets := u64 (num_buckets lh * 2) in
      if new_num_buckets >? num_buckets lh then lh_rebucket lh new_num_buckets else lh
    else if (avg_chain_length <? kMinAverageChainLength) && (num_buckets lh >? kMinNumBuckets) then
      let new_num_buckets := num_buckets lh / 2 in
      let new_num_buckets := if new_num_buckets <? kMinNumBuckets then kMinNumBuckets else new_num_buckets in
      lh_rebucket lh new_num_buckets
    else lh.

Definition set_chain (lh : lhash_st) (hash : Z) (chain : list LHASH_ITEM) (items : Z) : lhash_st :=
  mk_lhash items (<[Z.to_nat (hash mod num_buckets lh) := chain]> (buckets lh)) (num_buckets lh) (callback_depth lh).

(** The return value, [*old_data] and the table. *)
Definition OPENSSL_lh_insert (lh : lhash_st) (data : Z) : bool * Z * lhash_st :=
  let '(hash, pos) := get_next_ptr_and_hash lh data in
  let chain := chain_at lh hash in
  match chain !! pos with
  | Some item =>
      (true, item_data item,
       set_chain lh hash (<[pos := mk_item data (item_hash item)]> chain) (num_items lh))
  | None =>
      if negb (alloc_ok 24) then (false, NULL, lh)
      else (true, NULL,
            lh_maybe_resize (set_chain lh hash (chain ++ [mk_item data hash]) (num_items lh + 1)))
  end.

Definition OPENSSL_lh_delete (lh : lhash_st) (data : Z) : Z * lhash_st :=
  let '(hash, pos) := get_next_ptr_and_hash lh data in
  let chain := chain_at lh hash in
  match chain !! pos with
  | None => (NULL, lh)
  | Some item => (item_data item, lh_maybe_resize (set_chain lh hash (delete pos chain) (num_items lh - 1)))
  end.

(** With a callback that does not change the table: the pointers it is called on. *)
Definition OPENSSL_lh_doall_arg (lh : lhash_st) : list Z * lhash_st :=
  let enter d := if d <? UINT_MAX then d + 1 else d in
  let leave d := if d <? UINT_MAX then d - 1 else d in
  let lh := mk_lhash (num_items lh) (buckets lh) (num_buckets lh) (enter (callback_depth lh)) in
  let visited := map item_data (concat (buckets lh)) in
  let lh := mk_lhash (num_items lh) (buckets lh) (num_buckets lh) (leave (callback_depth lh)) in
  (visited, lh_maybe_resize lh).

End Ops.

(** * Invariant *)

(** What the documentation asks of the functions of a table: the comparison is zero on equal
    elements, and equal elements have the same 32-bit hash. *)
Class HashFunctions (hashf : Z -> Z) (cmpf : Z -> Z -> Z) : Prop := {
  hash_range d : fits 32 (hashf d);
  cmp_refl d : cmpf d d = 0;
  cmp_sym a b : cmpf a b = 0 -> cmpf b a = 0;
  cmp_trans a b c : cmpf a b = 0 -> cmpf b c = 0 -> cmpf a c = 0;
  hash_equal a b : cmpf a b = 0 -> hashf a = hashf b }.

Definition contents (lh : lhash_st) : list Z := map item_data (concat (buckets lh)).

(** No two equal elements. *)
Fixpoint distinct (cmpf : Z -> Z -> Z) (l : list Z) : Prop :=
  match l with [] => True | x :: l => Forall (fun y => cmpf x y <> 0) l /\ distinct cmpf l end.

Record wf (hashf : Z -> Z) (cmpf : Z -> Z -> Z) (lh : lhash_st) : Prop := {
  wf_buckets : Z.of_nat (length (buckets lh)) = num_buckets lh;
  wf_num_buckets : kMinNumBuckets <= num_buckets lh < 2 ^ 61;
  wf_placed : forall i chain item, buckets lh !! i = Some chain -> item ∈ chain ->
      item_hash item = hashf (item_data item) /\ Z.of_nat i = item_hash item mod num_buckets lh;
  wf_items : num_items lh = Z.of_nat (length (contents lh));
  wf_distinct : distinct cmpf (contents lh) }.

(** ** Buckets as a bag *)

Lemma concat_bucket {A} (bs : list (list A)) i chain :
  bs !! i = Some chain ->
  exists rest, concat bs ≡ₚ chain ++ rest /\ forall chain', concat (<[i := chain']> bs) ≡ₚ chain' ++ rest.
Proof.
  intros H. exists (concat (take i bs) ++ concat (drop (S i) bs)).
  assert (i < length bs)%nat as Hi by (by eapply lookup_lt_Some). split.
  - rewrite <- (take_drop_middle _ _ _ H) at 1. rewrite concat_app. cbn. rewrite !app_assoc.
    by rewrite (Permutation_app_comm _ chain).
  - intros chain'. rewrite insert_take_drop, concat_app by done. cbn. rewrite !app_assoc.
    by rewrite (Permutation_app_comm _ chain').
Qed.

Lemma delete_insert_same {A} (l : list A) i x : delete i (<[i := x]> l) = delete i l.
Proof. revert i. induction l as [| y l IH]; intros [| i]; cbn; [done | done | done | by f_equal]. Qed.

Section Laws.
Context (hashf : Z -> Z) (cmpf : Z -> Z -> Z) {Hfun : HashFunctions hashf cmpf}.

Abbreviation wf := (wf hashf cmpf).
Abbreviation distinct := (distinct cmpf).

#[export] Instance distinct_perm : Proper ((≡ₚ) ==> iff) distinct.
Proof.
  assert (forall l l', l ≡ₚ l' -> distinct l -> distinct l') as H; [| by intros l l' Hp; split; apply H].
  induction 1 as [| x l l' Hp IH | x y l | l l' l'' _ IH1 _ IH2]; cbn [Lhash.distinct].
  - done.
  - intros [Hx Hl]. split; [by rewrite <- Hp | auto].
  - rewrite !Forall_cons_iff. intros ((Hyx & Hy) & Hx & Hl). split_and!; [| done | done | done].
    intros E. by apply Hyx, (cmp_sym _ _ E).
  - auto.
Qed.

Definition matches (d x : Z) : bool := cmpf x d =? 0.

Lemma matches_excl x d l : distinct (x :: l) -> matches d x = true -> Forall (fun y => matches d y = false) l.
Proof.
  unfold matches. intros [Hx _] Hm. eapply Forall_impl; [| exact Hx]. cbn. intros y Hy.
  apply Z.eqb_neq. intros E. apply Hy. eapply cmp_trans; [| by apply cmp_sym]. lia.
Qed.

(** ** The reference: a bag of elements *)

Definition bag_find (d : Z) (l : list Z) : Z :=
  match filter (fun x => matches d x = true) l with x :: _ => x | [] => NULL end.
Definition bag_remove (d : Z) (l : list Z) : list Z := filter (fun x => matches d x = false) l.

Lemma filter_none (d : Z) l : Forall (fun y => matches d y = false) l ->
  filter (fun x => matches d x = true) l = [] /\ bag_remove d l = l.
Proof.
  unfold bag_remove. induction 1 as [| y l Hy Hl [IH1 IH2]]; [done |].
  rewrite filter_cons_False, filter_cons_True by (rewrite Hy; done). by rewrite IH1, IH2.
Qed.

Lemma bag_find_match d x l l' :
  l ≡ₚ x :: l' -> distinct l -> matches d x = true -> bag_find d l = x /\ bag_remove d l ≡ₚ l'.
Proof.
  intros Hp Hd Hm. rewrite Hp in Hd. pose proof (matches_excl _ _ _ Hd Hm) as Hn.
  destruct (filter_none d l' Hn) as [F1 F2]. unfold bag_find, bag_remove in *. split.
  - assert (filter (fun x => matches d x = true) l ≡ₚ [x]) as ->%Permutation_singleton_r; [| done].
    rewrite Hp, filter_cons_True by done. by rewrite F1.
  - rewrite Hp, filter_cons_False by (rewrite Hm; done). by rewrite F2.
Qed.

Lemma bag_find_none d l : Forall (fun y => matches d y = false) l -> bag_find d l = NULL /\ bag_remove d l = l.
Proof. intros H. destruct (filter_none d l H) as [F1 F2]. unfold bag_find. by rewrite F1. Qed.

Lemma bag_remove_excl d l : Forall (fun y => cmpf d y <> 0) (bag_remove d l).
Proof.
  unfold bag_remove, matches. apply Forall_forall. intros y Hy. apply list_elem_of_In, list_elem_of_filter in Hy as [Hy _].
  intros E. apply (cmp_sym (hashf := hashf)) in E. lia.
Qed.

Lemma distinct_filter d l : distinct l -> distinct (bag_remove d l).
Proof.
  unfold bag_remove. induction l as [| x l IH]; [done |]. intros [Hx Hl]. destruct (matches d x) eqn:E.
  - rewrite filter_cons_False by (rewrite E; done). auto.
  - rewrite filter_cons_True by done. split; [| auto]. apply Forall_forall. intros y Hy.
    apply list_elem_of_In, list_elem_of_filter in Hy as [_ Hy]. rewrite Forall_forall in Hx. by apply Hx, list_elem_of_In.
Qed.

(** ** Lookups *)

Lemma chain_pos_spec f chain :
  match chain !! chain_pos f chain with
  | Some item => f (item_data item) = true
  | None => chain_pos f chain = length chain /\ Forall (fun item => f (item_data item) = false) chain
  end.
Proof.
  induction chain as [| c chain IH]; cbn [chain_pos]; [done |]. destruct (f (item_data c)) eqn:E; cbn; [done |].
  destruct (chain !! chain_pos f chain); [done |]. destruct IH as [-> IH]. split; [done | by constructor].
Qed.

Lemma bucket_lookup lh h : wf lh -> 0 <= h ->
  buckets lh !! Z.to_nat (h mod num_buckets lh) = Some (chain_at lh h).
Proof.
  intros [W1 W2 _ _ _] Hh. unfold kMinNumBuckets in W2. pose proof (Z.mod_pos_bound h (num_buckets lh) ltac:(lia)).
  apply list_lookup_lookup_total_lt. lia.
Qed.

(** An element equal to [d] can only be in the chain of [d]'s hash. *)
Lemma not_in_chain lh d :
  wf lh -> Forall (fun item => matches d (item_data item) = false) (chain_at lh (hashf d)) ->
  Forall (fun x => matches d x = false) (contents lh).
Proof.
  intros Hwf Hn. pose proof (hash_range d) as [Hr _]. apply Forall_forall. intros x Hx.
  apply list_elem_of_In, list_elem_of_fmap in Hx as (item & -> & Hi).
  apply list_elem_of_In, in_concat in Hi as (chain & Hc & Hi).
  apply list_elem_of_In in Hc, Hi. apply list_elem_of_lookup in Hc as [i Hc].
  destruct (matches d (item_data item)) eqn:E; [| done]. exfalso.
  destruct (wf_placed _ _ _ Hwf i chain item Hc Hi) as [Hh Hidx]. unfold matches in E.
  assert (item_hash item = hashf d) as Eh by (rewrite Hh; apply hash_equal; lia). rewrite Eh in Hidx.
  rewrite <- (Nat2Z.id i), Hidx in Hc. rewrite bucket_lookup in Hc by done. injection Hc as <-.
  rewrite Forall_forall in Hn. apply list_elem_of_In in Hi. specialize (Hn item Hi). unfold matches in Hn. lia.
Qed.

Lemma lookup_spec lh d :
  wf lh ->
  let chain := chain_at lh (hashf d) in
  let pos := chain_pos (matches d) chain in
  exists rest,
    concat (buckets lh) ≡ₚ chain ++ rest /\
    (forall c n, concat (buckets (set_chain lh (hashf d) c n)) ≡ₚ c ++ rest) /\
    match chain !! pos with
    | Some item => matches d (item_data item) = true /\
                   bag_find d (contents lh) = item_data item /\
                   bag_remove d (contents lh) ≡ₚ map item_data (delete pos chain ++ rest)
    | None => pos = length chain /\ bag_find d (contents lh) = NULL /\ bag_remove d (contents lh) = contents lh
    end.
Proof.
  intros Hwf chain pos. pose proof (hash_range d) as [Hr _]. pose proof (bucket_lookup lh (hashf d) Hwf Hr) as Hb.
  destruct (concat_bucket _ _ _ Hb) as (rest & H1 & H2). exists rest. split_and!; [done | intros; apply H2 |].
  pose proof (chain_pos_spec (matches d) chain) as Hp. fold pos in Hp. fold chain in H1.
  destruct (chain !! pos) as [item |] eqn:E.
  - split; [done |]. apply bag_find_match; [| by apply (wf_distinct hashf) | done].
    unfold contents. rewrite H1. rewrite (delete_Permutation _ _ _ E) at 1. done.
  - destruct Hp as [-> Hp]. split; [done |]. apply bag_find_none, not_in_chain; done.
Qed.

(** ** Resizing *)

Lemma foldl_concat {A B} (f : B -> A -> B) (acc : B) (ls : list (list A)) :
  foldl (foldl f) acc ls = foldl f acc (concat ls).
Proof. revert acc. induction ls as [| l ls IH]; intros acc; cbn; [done |]. by rewrite IH, foldl_app. Qed.

Definition placed (n : Z) (bs : list (list LHASH_ITEM)) : Prop :=
  forall i chain item, bs !! i = Some chain -> item ∈ chain ->
    item_hash item = hashf (item_data item) /\ Z.of_nat i = item_hash item mod n.

Lemma placed_insert n bs i chain :
  placed n bs -> (forall item, item ∈ chain -> item_hash item = hashf (item_data item) /\ Z.of_nat i = item_hash item mod n) ->
  placed n (<[i := chain]> bs).
Proof.
  intros Hp Hc j c item Hj Hi. destruct (decide (i = j)) as [<- | Hne].
  - apply list_lookup_insert_Some in Hj as [(_ & <- & _) | [? _]]; [by apply Hc | done].
  - rewrite list_lookup_insert_ne in Hj by done. by eapply Hp.
Qed.

Lemma move_items_spec n items bs :
  0 < n -> Z.of_nat (length bs) = n -> placed n bs ->
  Forall (fun item => item_hash item = hashf (item_data item)) items ->
  let bs' := foldl (move_item n) bs items in
  Z.of_nat (length bs') = n /\ placed n bs' /\ concat bs' ≡ₚ items ++ concat bs.
Proof.
  intros Hn Hl Hp Hi. cbn zeta. revert bs Hl Hp. induction Hi as [| item items Hh Hi IH]; intros bs Hl Hp; [done |].
  cbn [foldl]. set (i := Z.to_nat (item_hash item mod n)). pose proof (Z.mod_pos_bound (item_hash item) n Hn).
  assert (bs !! i = Some (bs !!! i)) as Hb by (apply list_lookup_lookup_total_lt; lia).
  destruct (IH (move_item n bs item)) as (H1 & H2 & H3).
  - unfold move_item. by rewrite length_insert.
  - apply placed_insert; [done |]. intros it [-> | Hit]%elem_of_cons; [split; [done | lia] | by eapply Hp].
  - split_and!; [done | done |]. rewrite H3. destruct (concat_bucket bs i _ Hb) as (rest & R1 & R2).
    unfold move_item. fold i. rewrite R2, R1. cbn. symmetry. apply Permutation_middle.
Qed.

Lemma wf_hashes lh : wf lh -> Forall (fun item => item_hash item = hashf (item_data item)) (concat (buckets lh)).
Proof.
  intros Hwf. apply Forall_forall. intros item Hi. apply in_concat in Hi as (chain & Hc & Hi).
  apply list_elem_of_In in Hc, Hi. apply list_elem_of_lookup in Hc as [i Hc].
  by destruct (wf_placed _ _ _ Hwf i chain item Hc Hi).
Qed.

Lemma rebucket_spec alloc_ok lh n :
  wf lh -> kMinNumBuckets <= n < 2 ^ 61 ->
  let lh' := lh_rebucket alloc_ok lh n in
  wf lh' /\ contents lh' ≡ₚ contents lh /\ num_items lh' = num_items lh /\ callback_depth lh' = callback_depth lh /\
  num_buckets lh' = if alloc_ok (8 * n) then n else num_buckets lh.
Proof.
  intros Hwf Hn. cbn zeta. unfold lh_rebucket, kMinNumBuckets in *. rewrite (wrap_id 64) by (unfold fits; lia).
  rewrite (Z.mul_comm 8 n), Z.div_mul, Z.eqb_refl by lia. cbn [negb]. destruct (alloc_ok (n * 8)); [| done]. cbn [negb].
  rewrite foldl_concat.
  destruct (move_items_spec n (concat (buckets lh)) (replicate (Z.to_nat n) [])) as (H1 & H2 & H3).
  - lia.
  - rewrite length_replicate. lia.
  - intros i chain item H Hi. apply lookup_replicate in H as [-> _]. by apply elem_of_nil in Hi.
  - by apply wf_hashes.
  - assert (concat (replicate (Z.to_nat n) []) = @nil LHASH_ITEM) as Ez.
    { generalize (Z.to_nat n). intros k. by induction k. }
    rewrite Ez, app_nil_r in H3.
    assert (contents (mk_lhash (num_items lh) (foldl (move_item n) (replicate (Z.to_nat n) []) (concat (buckets lh))) n (callback_depth lh))
            ≡ₚ contents lh) as Hc by (unfold contents; cbn [buckets]; by rewrite H3).
    split_and!; try done. destruct Hwf as [W1 W2 W3 W4 W5]. constructor.
    + done.
    + unfold kMinNumBuckets. cbn. lia.
    + exact H2.
    + cbn [num_items]. rewrite W4. f_equal. by apply Permutation_length.
    + by rewrite Hc.
Qed.

Definition new_size (lh : lhash_st) : Z :=
  let avg := num_items lh / num_buckets lh in
  if avg >? 2 then num_buckets lh * 2
  else if (avg <? 1) && (num_buckets lh >? 16) then Z.max 16 (num_buckets lh / 2) else num_buckets lh.

Lemma maybe_resize_spec alloc_ok lh :
  wf lh -> num_items lh < 2 ^ 60 ->
  let lh' := lh_maybe_resize alloc_ok lh in
  wf lh' /\ contents lh' ≡ₚ contents lh /\ num_items lh' = num_items lh /\ callback_depth lh' = callback_depth lh /\
  ((forall n, alloc_ok n = true) -> callback_depth lh <= 0 -> num_buckets lh' = new_size lh).
Proof.
  intros Hwf Hi. cbn zeta. unfold lh_maybe_resize, new_size, kMaxAverageChainLength, kMinAverageChainLength, kMinNumBuckets.
  pose proof Hwf as [W1 W2 W3 W4 W5]. unfold kMinNumBuckets in W2.
  destruct (Z.gtb_spec (callback_depth lh) 0); [by split_and!; [| | | | lia] |].
  destruct (Z.gtb_spec (num_items lh / num_buckets lh) 2) as [Ha | Ha].
  - assert (num_buckets lh * 2 < 2 ^ 60) by (Z.to_euclidean_division_equations; nia).
    rewrite (wrap_id 64) by (unfold fits; lia). replace (_ >? _) with true by lia.
    destruct (rebucket_spec alloc_ok lh (num_buckets lh * 2) Hwf) as (? & ? & ? & ? & E); [unfold kMinNumBuckets; lia |].
    split_and!; try done. intros Hal _. by rewrite E, Hal.
  - destruct (_ && _) eqn:Ec; [| done].
    assert (16 <= (if num_buckets lh / 2 <? 16 then 16 else num_buckets lh / 2) < 2 ^ 61) as Hr
      by (destruct (Z.ltb_spec (num_buckets lh / 2) 16); Z.to_euclidean_division_equations; lia).
    destruct (rebucket_spec alloc_ok lh _ Hwf Hr) as (? & ? & ? & ? & E).
    split_and!; try done. intros Hal _. rewrite E, Hal. destruct (Z.ltb_spec (num_buckets lh / 2) 16); lia.
Qed.

(** ** Operations *)

Lemma set_chain_wf lh d chain rest n :
  wf lh -> concat (buckets (set_chain lh (hashf d) chain n)) ≡ₚ chain ++ rest ->
  (forall item, item ∈ chain -> item_hash item = hashf (item_data item) /\ item_hash item mod num_buckets lh = hashf d mod num_buckets lh) ->
  n = Z.of_nat (length (chain ++ rest)) -> distinct (map item_data (chain ++ rest)) ->
  wf (set_chain lh (hashf d) chain n).
Proof.
  intros Hwf Hc Hch Hn Hd. pose proof Hwf as [W1 W2 W3 W4 W5]. pose proof (hash_range d) as [Hr _].
  unfold kMinNumBuckets in W2. pose proof (Z.mod_pos_bound (hashf d) (num_buckets lh) ltac:(lia)). constructor.
  - cbn. by rewrite length_insert.
  - done.
  - apply placed_insert; [exact W3 |]. intros item Hi. destruct (Hch item Hi) as [E1 E2].
    split; [done |]. cbn [num_buckets set_chain]. rewrite E2. lia.
  - cbn [num_items set_chain]. unfold contents. by rewrite length_map, Hc.
  - unfold contents. by rewrite Hc.
Qed.

Lemma chain_items lh d item :
  wf lh -> item ∈ chain_at lh (hashf d) ->
  item_hash item = hashf (item_data item) /\ item_hash item mod num_buckets lh = hashf d mod num_buckets lh.
Proof.
  intros Hwf Hi. pose proof (hash_range d) as [Hr _]. pose proof (bucket_lookup lh (hashf d) Hwf Hr) as Hb.
  destruct (wf_placed _ _ _ Hwf _ _ _ Hb Hi) as [H1 H2]. split; [done |].
  pose proof (wf_num_buckets _ _ _ Hwf). unfold kMinNumBuckets in *.
  pose proof (Z.mod_pos_bound (hashf d) (num_buckets lh) ltac:(lia)). lia.
Qed.

Lemma existsb_present d x l : x ∈ l -> matches d x = true -> existsb (matches d) l = true.
Proof. intros Hx Hm. apply existsb_exists. exists x. split; [by apply list_elem_of_In | done]. Qed.

Lemma existsb_absent d l : bag_remove d l = l -> existsb (matches d) l = false.
Proof.
  intros E. apply not_true_is_false. intros (x & Hx & Hm)%existsb_exists. apply list_elem_of_In in Hx. rewrite <- E in Hx.
  apply list_elem_of_filter in Hx as [Hf _]. congruence.
Qed.

Lemma existsb_perm d l l' : l ≡ₚ l' -> existsb (matches d) l = existsb (matches d) l'.
Proof.
  intros Hp. apply eq_true_iff_eq. rewrite !existsb_exists. setoid_rewrite <- list_elem_of_In. by setoid_rewrite Hp.
Qed.

Lemma lh_insert_spec alloc_ok lh d :
  wf lh -> num_items lh < 2 ^ 60 - 1 ->
  let '(ok, old, lh') := OPENSSL_lh_insert hashf cmpf alloc_ok lh d in
  wf lh' /\ callback_depth lh' = callback_depth lh /\ ok = existsb (matches d) (contents lh) || alloc_ok 24 /\
  (if ok then old = bag_find d (contents lh) /\ contents lh' ≡ₚ d :: bag_remove d (contents lh)
   else lh' = lh /\ old = NULL /\ alloc_ok 24 = false).
Proof.
  intros Hwf Hn. unfold OPENSSL_lh_insert, get_next_ptr_and_hash. cbn zeta.
  destruct (lookup_spec lh d Hwf) as (rest & H1 & H2 & H3). unfold matches in H2, H3 at 1 2. fold (matches d) in *.
  set (chain := chain_at lh (hashf d)) in *. set (pos := chain_pos _ chain) in *.
  pose proof (wf_distinct _ _ _ Hwf) as Hd. pose proof (wf_items _ _ _ Hwf) as Hni. unfold contents in Hni. rewrite length_map, H1 in Hni.
  destruct (chain !! pos) as [item |] eqn:E.
  - destruct H3 as (Hm & Hf & Hrem). unfold matches in Hm.
    assert (item ∈ chain) as Hin by (by eapply list_elem_of_lookup_2).
    assert (pos < length chain)%nat as Hpos by (by eapply lookup_lt_Some).
    set (chain' := <[pos := mk_item d (item_hash item)]> chain).
    assert (chain' ≡ₚ mk_item d (item_hash item) :: delete pos chain) as Hp.
    { unfold chain'. rewrite (delete_Permutation _ pos (mk_item d (item_hash item))) by (by apply list_lookup_insert_eq).
      by rewrite delete_insert_same. }
    assert (map item_data (chain' ++ rest) ≡ₚ d :: bag_remove d (contents lh)) as Hc by (by rewrite Hp, Hrem).
    assert (contents (set_chain lh (hashf d) chain' (num_items lh)) ≡ₚ d :: bag_remove d (contents lh)) as Hc'
      by (unfold contents at 1; by rewrite H2).
    assert (item_data item ∈ contents lh) as Hit by (unfold contents; rewrite H1; apply list_elem_of_fmap_2, elem_of_app; by left).
    rewrite (existsb_present d (item_data item)) by (done || unfold matches; lia).
    split_and!; [| done | done | done | done]. eapply set_chain_wf; [done | apply H2 | | |].
    + clear Hit. intros it Hit. rewrite Hp in Hit. destruct (chain_items lh d item Hwf Hin) as [Eh Em].
      apply elem_of_cons in Hit as [-> | Hit]; cbn [item_hash item_data].
      * split; [| done]. rewrite Eh. apply (hash_equal (cmpf := cmpf)). lia.
      * apply chain_items; [done |]. by eapply elem_of_sublist; [| apply sublist_delete].
    + rewrite length_app in *. unfold chain'. by rewrite length_insert.
    + rewrite Hc. split; [apply bag_remove_excl |]. by apply distinct_filter.
  - destruct H3 as (Hpos & Hf & Hrem). destruct (alloc_ok 24) eqn:Eal; cbn [negb]; [| by rewrite existsb_absent].
    set (chain' := chain ++ [mk_item d (hashf d)]).
    assert (map item_data (chain' ++ rest) ≡ₚ d :: contents lh) as Hc.
    { unfold chain', contents. rewrite H1. rewrite <- app_assoc. cbn. by rewrite <- Permutation_middle. }
    assert (wf (set_chain lh (hashf d) chain' (num_items lh + 1))) as Hwf'.
    { eapply set_chain_wf; [done | apply H2 | | |].
      - intros it [Hit | ->%list_elem_of_singleton]%elem_of_app; [by apply chain_items | done].
      - rewrite length_app in *. unfold chain'. rewrite length_app. cbn. lia.
      - rewrite Hc. split; [| done]. rewrite <- Hrem. apply bag_remove_excl. }
    destruct (maybe_resize_spec alloc_ok _ Hwf') as (R1 & R2 & _ & R4 & _); [cbn; lia |].
    split_and!; [done | done | by rewrite orb_true_r | by rewrite Hf |]. rewrite R2, Hrem. unfold contents at 1. by rewrite H2.
Qed.

Lemma lh_delete_spec alloc_ok lh d :
  wf lh -> num_items lh < 2 ^ 60 ->
  let '(ret, lh') := OPENSSL_lh_delete hashf cmpf alloc_ok lh d in
  wf lh' /\ callback_depth lh' = callback_depth lh /\
  ret = bag_find d (contents lh) /\ contents lh' ≡ₚ bag_remove d (contents lh).
Proof.
  intros Hwf Hn. unfold OPENSSL_lh_delete, get_next_ptr_and_hash. cbn zeta.
  destruct (lookup_spec lh d Hwf) as (rest & H1 & H2 & H3). fold (matches d) in *.
  set (chain := chain_at lh (hashf d)) in *. set (pos := chain_pos _ chain) in *.
  pose proof (wf_items _ _ _ Hwf) as Hni. unfold contents in Hni. rewrite length_map, H1 in Hni.
  destruct (chain !! pos) as [item |] eqn:E.
  - destruct H3 as (Hm & Hf & Hrem). assert (pos < length chain)%nat as Hpos by (by eapply lookup_lt_Some).
    assert (wf (set_chain lh (hashf d) (delete pos chain) (num_items lh - 1))) as Hwf'.
    { eapply set_chain_wf; [done | apply H2 | | |].
      - intros it Hit. apply chain_items; [done |]. by eapply elem_of_sublist; [| apply sublist_delete].
      - rewrite length_app in *. rewrite length_delete by done. lia.
      - rewrite <- Hrem. apply distinct_filter. by apply (wf_distinct hashf). }
    destruct (maybe_resize_spec alloc_ok _ Hwf') as (R1 & R2 & _ & R4 & _); [cbn; lia |].
    split_and!; [done | done | done |]. rewrite R2, Hrem. unfold contents at 1. by rewrite H2.
  - destruct H3 as (_ & Hf & Hrem). split_and!; [done | done | done | by rewrite Hrem].
Qed.

Lemma retrieve_spec lh d : wf lh -> OPENSSL_lh_retrieve hashf cmpf lh d = bag_find d (contents lh).
Proof.
  intros Hwf. unfold OPENSSL_lh_retrieve, get_next_ptr_and_hash, data_at. cbn zeta.
  destruct (lookup_spec lh d Hwf) as (rest & _ & _ & H3). fold (matches d).
  destruct (chain_at lh (hashf d) !! _) as [item |]; [by destruct H3 as (_ & -> & _) | by destruct H3 as (_ & -> & _)].
Qed.

Lemma retrieve_key_spec lh key_hash cmp_key d :
  wf lh -> hashf d = key_hash -> (forall x, cmp_key x = 0 <-> cmpf x d = 0) ->
  OPENSSL_lh_retrieve_key lh key_hash cmp_key = bag_find d (contents lh).
Proof.
  intros Hwf <- Hk. rewrite <- retrieve_spec by done. unfold OPENSSL_lh_retrieve_key, OPENSSL_lh_retrieve.
  cbn. f_equal. unfold get_next_ptr_by_key. induction (chain_at lh (hashf d)) as [| c l IH]; [done |]. cbn.
  assert ((cmp_key (item_data c) =? 0) = (cmpf (item_data c) d =? 0)) as -> by (specialize (Hk (item_data c)); lia).
  by rewrite IH.
Qed.

(** ** Sequences of calls *)

Inductive lh_call := Insert (d : Z) | Delete (d : Z) | Retrieve (d : Z).

(** A call: its return value, success and the element it returns, and the table. *)
Definition do_call (alloc_ok : Z -> bool) (c : lh_call) (lh : lhash_st) : bool * Z * lhash_st :=
  match c with
  | Insert d => OPENSSL_lh_insert hashf cmpf alloc_ok lh d
  | Delete d => let '(old, lh) := OPENSSL_lh_delete hashf cmpf alloc_ok lh d in (true, old, lh)
  | Retrieve d => (true, OPENSSL_lh_retrieve hashf cmpf lh d, lh)
  end.

(** The same of a bag; an insertion that needs an item it cannot have fails. *)
Definition bag_call (alloc_ok : Z -> bool) (c : lh_call) (l : list Z) : bool * Z * list Z :=
  match c with
  | Insert d =>
      if existsb (matches d) l || alloc_ok 24 then (true, bag_find d l, d :: bag_remove d l) else (false, NULL, l)
  | Delete d => (true, bag_find d l, bag_remove d l)
  | Retrieve d => (true, bag_find d l, l)
  end.

(** Each call comes with the outcomes of the allocations it makes. *)
Fixpoint do_calls (cs : list ((Z -> bool) * lh_call)) (lh : lhash_st) : list (bool * Z) * lhash_st :=
  match cs with
  | [] => ([], lh)
  | (alloc_ok, c) :: cs =>
      let '(ret, lh) := do_call alloc_ok c lh in
      let '(rets, lh) := do_calls cs lh in (ret :: rets, lh)
  end.

Fixpoint bag_calls (cs : list ((Z -> bool) * lh_call)) (l : list Z) : list (bool * Z) * list Z :=
  match cs with
  | [] => ([], l)
  | (alloc_ok, c) :: cs =>
      let '(ret, l) := bag_call alloc_ok c l in
      let '(rets, l) := bag_calls cs l in (ret :: rets, l)
  end.

Lemma bag_find_perm d l l' : l ≡ₚ l' -> distinct l -> bag_find d l = bag_find d l' /\ bag_remove d l ≡ₚ bag_remove d l'.
Proof.
  intros Hp Hd. split; [| unfold bag_remove; by rewrite Hp]. destruct (filter (fun x => matches d x = true) l) as [| x r] eqn:E.
  - assert (Forall (fun y => matches d y = false) l) as Hn.
    { apply Forall_forall. intros y Hy. destruct (matches d y) eqn:Em; [| done]. exfalso.
      apply (not_elem_of_nil (A := Z) y). rewrite <- E. apply list_elem_of_filter. by rewrite list_elem_of_In. }
    pose proof Hn as Hn'. rewrite Hp in Hn'.
    destruct (bag_find_none d l Hn) as [-> _]. by destruct (bag_find_none d l' Hn') as [-> _].
  - assert (x ∈ filter (fun x => matches d x = true) l) as Hx by (rewrite E; by left).
    apply list_elem_of_filter in Hx as [Hm Hx]. apply elem_of_Permutation in Hx as [l0 H0].
    destruct (bag_find_match d x l l0 H0 Hd Hm) as [-> _]. rewrite Hp in H0, Hd.
    by destruct (bag_find_match d x l' l0 H0 Hd Hm) as [-> _].
Qed.

Lemma lh_call_refines alloc_ok c lh l :
  wf lh -> num_items lh < 2 ^ 60 - 1 -> contents lh ≡ₚ l ->
  exists ret lh', do_call alloc_ok c lh = (ret, lh') /\ wf lh' /\ callback_depth lh' = callback_depth lh /\
    ret = fst (bag_call alloc_ok c l) /\ contents lh' ≡ₚ snd (bag_call alloc_ok c l) /\ num_items lh' <= num_items lh + 1.
Proof.
  intros Hwf Hn Hl. pose proof (wf_distinct _ _ _ Hwf) as Hd.
  assert (forall lh' l', wf lh' -> contents lh' ≡ₚ l' -> Z.of_nat (length l') <= num_items lh + 1 ->
    num_items lh' <= num_items lh + 1) as Hitems.
  { intros lh' l' W Hc Hl'. rewrite (wf_items _ _ _ W), Hc. done. }
  assert (forall d, Z.of_nat (length (bag_remove d l)) <= num_items lh) as Hrem.
  { intros d. rewrite (wf_items _ _ _ Hwf), Hl. unfold bag_remove. pose proof (length_filter (fun x => matches d x = false) l). lia. }
  destruct c as [d | d | d]; cbn [do_call bag_call]; destruct (bag_find_perm d _ _ Hl Hd) as [Ef Er].
  - pose proof (lh_insert_spec alloc_ok lh d Hwf Hn) as H.
    destruct (OPENSSL_lh_insert hashf cmpf alloc_ok lh d) as [[ok old] lh']. exists (ok, old), lh'. split; [done |].
    destruct H as (W & C & Hok & H). rewrite <- (existsb_perm d _ _ Hl), <- Hok. destruct ok; cbn [fst snd].
    + destruct H as [-> Hc]. rewrite Er in Hc. rewrite Ef. split_and!; [done | done | done | done |].
      eapply Hitems; [done | exact Hc |]. cbn. specialize (Hrem d). lia.
    + destruct H as (-> & -> & _). split_and!; [done | done | done | done | lia].
  - pose proof (lh_delete_spec alloc_ok lh d Hwf ltac:(lia)) as H.
    destruct (OPENSSL_lh_delete hashf cmpf alloc_ok lh d) as [ret lh']. exists (true, ret), lh'. split; [done |].
    destruct H as (W & C & -> & Hc). rewrite Er in Hc. cbn [fst snd]. rewrite Ef. split_and!; [done | done | done | done |].
    eapply Hitems; [done | exact Hc |]. specialize (Hrem d). lia.
  - eexists _, lh. split; [reflexivity |]. rewrite retrieve_spec, Ef by done. split_and!; try done. lia.
Qed.

Lemma lh_calls_refine cs lh l :
  wf lh -> num_items lh + Z.of_nat (length cs) < 2 ^ 60 -> contents lh ≡ₚ l ->
  exists lh', do_calls cs lh = (fst (bag_calls cs l), lh') /\ wf lh' /\ contents lh' ≡ₚ snd (bag_calls cs l).
Proof.
  revert lh l. induction cs as [| [alloc_ok c] cs IH]; intros lh l Hwf Hn Hl; [by exists lh |].
  cbn [do_calls bag_calls]. cbn [length] in Hn.
  destruct (lh_call_refines alloc_ok c lh l Hwf ltac:(lia) Hl) as (ret & lh1 & -> & W & _ & -> & Hc & Hi).
  destruct (bag_call alloc_ok c l) as [ret' l1]. cbn [fst snd] in *.
  destruct (IH lh1 l1 W ltac:(lia) Hc) as (lh2 & -> & W2 & Hc2). exists lh2.
  by destruct (bag_calls cs l1).
Qed.

Lemma lh_new_wf alloc_ok lh : OPENSSL_lh_new alloc_ok = Some lh -> wf lh /\ contents lh = [] /\ num_items lh = 0 /\ callback_depth lh = 0 /\ num_buckets lh = 16.
Proof.
  unfold OPENSSL_lh_new. destruct (alloc_ok _); [| done]. intros [= <-]. split_and!; try done.
  constructor; try done. cbn [buckets]. intros i chain item H Hi. apply (lookup_replicate 16 [] chain i) in H as [-> _]. by apply elem_of_nil in Hi.
Qed.

(** ** Load *)

Definition balanced (lh : lhash_st) : Prop :=
  num_items lh < 3 * num_buckets lh /\ (num_buckets lh = 16 \/ num_buckets lh <= num_items lh).

Lemma resize_balanced alloc_ok lh :
  (forall n, alloc_ok n = true) -> wf lh -> num_items lh < 2 ^ 60 -> callback_depth lh = 0 ->
  num_items lh <= 3 * num_buckets lh -> (num_buckets lh = 16 \/ num_buckets lh <= num_items lh + 1) ->
  balanced (lh_maybe_resize alloc_ok lh).
Proof.
  intros Hal Hwf Hn Hcb H1 H2. pose proof (wf_items _ _ _ Hwf) as Hi. pose proof (wf_num_buckets _ _ _ Hwf) as Hb.
  unfold kMinNumBuckets in Hb. destruct (maybe_resize_spec alloc_ok lh Hwf Hn) as (_ & _ & E & _ & Hnb).
  unfold balanced. rewrite E, (Hnb Hal) by lia. unfold new_size. cbn zeta.
  destruct (Z.gtb_spec (num_items lh / num_buckets lh) 2); [Z.to_euclidean_division_equations; nia |].
  destruct (Z.ltb_spec (num_items lh / num_buckets lh) 1); destruct (Z.gtb_spec (num_buckets lh) 16); cbn [andb];
    Z.to_euclidean_division_equations; nia.
Qed.

Lemma call_balanced alloc_ok c lh :
  (forall n, alloc_ok n = true) -> wf lh -> num_items lh < 2 ^ 60 - 1 -> callback_depth lh = 0 -> balanced lh ->
  balanced (snd (do_call alloc_ok c lh)).
Proof.
  intros Hal Hwf Hn Hcb [B1 B2]. destruct c as [d | d | d]; cbn [do_call]; [| | done].
  - unfold OPENSSL_lh_insert, get_next_ptr_and_hash. cbn zeta. fold (matches d).
    destruct (lookup_spec lh d Hwf) as (rest & H1 & H2 & H3).
    destruct (chain_at lh (hashf d) !! _) as [item |] eqn:E; [done |]. rewrite Hal. cbn [negb snd].
    destruct H3 as (_ & _ & Hrem).
    apply resize_balanced; [done | | cbn; lia | done | cbn; lia | cbn; lia].
    eapply set_chain_wf; [done | apply H2 | | |].
    + intros it [Hit | ->%list_elem_of_singleton]%elem_of_app; [by apply chain_items | done].
    + rewrite (wf_items _ _ _ Hwf). unfold contents. rewrite length_map, H1, !length_app. cbn. lia.
    + assert (map item_data ((chain_at lh (hashf d) ++ [mk_item d (hashf d)]) ++ rest) ≡ₚ d :: contents lh) as ->.
      { unfold contents. rewrite H1, <- app_assoc. cbn. by rewrite <- Permutation_middle. }
      split; [rewrite <- Hrem; apply bag_remove_excl | by apply (wf_distinct hashf)].
  - unfold OPENSSL_lh_delete, get_next_ptr_and_hash. cbn zeta. fold (matches d).
    destruct (lookup_spec lh d Hwf) as (rest & H1 & H2 & H3).
    destruct (chain_at lh (hashf d) !! _) as [item |] eqn:E; [| done]. cbn [snd].
    destruct H3 as (_ & _ & Hrem).
    apply resize_balanced; [done | | cbn; lia | done | cbn; lia | cbn; lia].
    assert (chain_pos (matches d) (chain_at lh (hashf d)) < length (chain_at lh (hashf d)))%nat by (by eapply lookup_lt_Some).
    eapply set_chain_wf; [done | apply H2 | | |].
    + intros it Hit. apply chain_items; [done |]. by eapply elem_of_sublist; [| apply sublist_delete].
    + rewrite (wf_items _ _ _ Hwf). unfold contents. rewrite length_map, H1, !length_app, length_delete by done. lia.
    + rewrite <- Hrem. apply distinct_filter. by apply (wf_distinct hashf).
Qed.

Lemma calls_balanced cs lh :
  Forall (fun x => forall n, fst x n = true) cs -> wf lh -> num_items lh + Z.of_nat (length cs) < 2 ^ 60 -> callback_depth lh = 0 ->
  balanced lh -> balanced (snd (do_calls cs lh)).
Proof.
  intros Hal. revert lh. induction Hal as [| [alloc_ok c] cs Hx Hal IH]; intros lh Hwf Hn Hcb Hb; [done |]. cbn [do_calls].
  cbn [length fst] in *. pose proof (call_balanced alloc_ok c lh Hx Hwf ltac:(lia) Hcb Hb) as Hb1.
  destruct (lh_call_refines alloc_ok c lh _ Hwf ltac:(lia) (reflexivity _)) as (ret & lh1 & E & W & C & _ & _ & Hi).
  rewrite E in *. cbn [snd] in *. specialize (IH lh1 W ltac:(lia) ltac:(lia) Hb1).
  by destruct (do_calls cs lh1).
Qed.

End Laws.

(** * Properties *)

(** C5: the hash table is a set of elements up to the table's equality.  From
    [OPENSSL_lh_new], any sequence of insertions, deletions and lookups, with any outcomes of the
    allocations each of them makes, returns what a plain bag returns (an insertion or deletion the
    element it displaced, a lookup the stored equal element), and the table ends with exactly the
    bag's elements, each in the bucket of its hash and none twice, however often it was resized or
    could not be resized on the way.  An insertion fails exactly if the element is new and no item
    can be allocated, and then leaves the bag alone; [lh_retrieve_key] agrees with the bag too. *)
Theorem lhash_refines_bag hashf cmpf new_ok cs lh0 :
  HashFunctions hashf cmpf ->
  OPENSSL_lh_new new_ok = Some lh0 -> Z.of_nat (length cs) < 2 ^ 60 ->
  (exists lh, do_calls hashf cmpf cs lh0 = (fst (bag_calls cmpf cs []), lh) /\
     wf hashf cmpf lh /\ contents lh ≡ₚ snd (bag_calls cmpf cs []) /\
     OPENSSL_lh_num_items lh = Z.of_nat (length (snd (bag_calls cmpf cs [])))) /\
  (forall lh d, wf hashf cmpf lh ->
     OPENSSL_lh_retrieve hashf cmpf lh d = bag_find cmpf d (contents lh) /\
     (forall cmp_key, (forall x, cmp_key x = 0 <-> cmpf x d = 0) ->
        OPENSSL_lh_retrieve_key lh (hashf d) cmp_key = bag_find cmpf d (contents lh))).
Proof.
  intros Hf Hnew Hlen. split.
  - destruct (lh_new_wf hashf cmpf _ _ Hnew) as (W & Hc & Hi & _).
    destruct (lh_calls_refine hashf cmpf cs lh0 []) as (lh & E & W' & Hc'); [done | lia | by rewrite Hc |].
    exists lh. split_and!; [done | done | done |]. unfold OPENSSL_lh_num_items. by rewrite (wf_items _ _ _ W'), Hc'.
  - intros lh d W. split; [by apply retrieve_spec | intros; by apply (retrieve_key_spec hashf)].
Qed.

(** Numbers, equal when they are, hashed to their low decimal digit. *)
Lemma digit_hash : HashFunctions (fun d => d mod 10) Z.sub.
Proof.
  constructor; try lia.
  - intros d. unfold fits. pose proof (Z.mod_pos_bound d 10). lia.
  - intros a b H. by replace a with b by lia.
Qed.

(** Allocations that succeed, that never do, and that do for items only. *)
Definition always : Z -> bool := fun _ => true.
Definition never : Z -> bool := fun _ => false.
Definition items_only : Z -> bool := fun n => n =? 24.

Lemma lhash_refines_bag_witness :
  exists lh, do_calls (fun d => d mod 10) Z.sub
      (map (pair items_only) (map Insert (seqZ 1 48)) ++ [(never, Insert 60); (never, Insert 13); (always, Delete 3); (always, Retrieve 13)])
      (mk_lhash 0 (replicate 16 []) 16 0) = (replicate 48 (true, 0) ++ [(false, 0); (true, 13); (true, 3); (true, 13)], lh) /\
    OPENSSL_lh_num_items lh = 47.
Proof.
  destruct (lhash_refines_bag (fun d => d mod 10) Z.sub always
    (map (pair items_only) (map Insert (seqZ 1 48)) ++ [(never, Insert 60); (never, Insert 13); (always, Delete 3); (always, Retrieve 13)])
    (mk_lhash 0 (replicate 16 []) 16 0) digit_hash) as [(lh & E & _ & _ & Hn) _]; [reflexivity | reflexivity |].
  exists lh. split; [rewrite E; vm_compute; reflexivity | rewrite Hn; vm_compute; reflexivity].
Defined.

(** the load stays bounded: with no allocation failure and outside of an iteration, after
    any sequence of calls the table has fewer than three items per bucket on average, and it
    has the minimal sixteen buckets or no more buckets than items. *)
Theorem lhash_load_bounded hashf cmpf cs lh0 :
  HashFunctions hashf cmpf ->
  OPENSSL_lh_new (fun _ => true) = Some lh0 -> Z.of_nat (length cs) < 2 ^ 60 ->
  let lh := snd (do_calls hashf cmpf (map (pair always) cs) lh0) in
  num_items lh < 3 * num_buckets lh /\ (num_buckets lh = kMinNumBuckets \/ num_buckets lh <= num_items lh).
Proof.
  intros Hf Hnew Hlen. destruct (lh_new_wf hashf cmpf _ _ Hnew) as (W & _ & Hi & Hcb & Hb).
  apply calls_balanced; [done | by apply Forall_map, Forall_true | done | rewrite length_map; lia | done |]. unfold balanced. lia.
Qed.

Lemma lhash_load_bounded_witness :
  let lh := snd (do_calls (fun d => d mod 10) Z.sub (map (pair always) (map Insert (seqZ 1 48))) (mk_lhash 0 (replicate 16 []) 16 0)) in
  num_buckets lh = 32 /\ num_items lh < 3 * num_buckets lh.
Proof.
  split; [vm_compute; reflexivity |].
  apply (lhash_load_bounded (fun d => d mod 10) Z.sub (map Insert (seqZ 1 48)) (mk_lhash 0 (replicate 16 []) 16 0) digit_hash);
    reflexivity.
Defined.

End Lhash.
