(* ===== verification/Store.v ===== *)
(** Programs over a store of objects.

    A store maps addresses to objects of one C type.  A program returns its result and the
    new store, or [None] where the C code would fail an assertion, dereference a dangling
    pointer or not terminate. *)

From S2P Require Import Prelude.
From stdpp Require Export gmap.

Open Scope Z_scope.

Section Programs.
Context {V : Type}.

Definition prog (A : Type) : Type := gmap nat V -> option (A * gmap nat V).
Definition r_ret {A} (x : A) : prog A := fun h => Some (x, h).
Definition r_bind {A B} (p : prog A) (f : A -> prog B) : prog B := fun h =>
  match p h with None => None | Some (x, h) => f x h end.
(** A failed [assert], or undefined behaviour. *)
Definition r_undefined {A} : prog A := fun _ => None.
Definition r_assert (b : bool) : prog unit := if b then r_ret tt else r_undefined.
Definition r_some {A} (x : option A) : prog A :=
  match x with Some x => r_ret x | None => r_undefined end.
Definition r_load (i : nat) : prog V := fun h =>
  match h !! i with Some b => Some (b, h) | None => None end.
Definition r_modify (i : nat) (f : V -> V) : prog unit := fun h =>
  match h !! i with Some b => Some (tt, <[i := f b]> h) | None => None end.

Lemma bind_eq {A B} (p : prog A) (f : A -> prog B) h x h' : p h = Some (x, h') -> r_bind p f h = f x h'.
Proof. intros H. unfold r_bind. by rewrite H. Qed.

Lemma bind_some {A B} (x : option A) y (f : A -> prog B) h : x = Some y -> r_bind (r_some x) f h = f y h.
Proof. by intros ->. Qed.

Lemma bind_assert {B} b (f : unit -> prog B) h : b = true -> r_bind (r_assert b) f h = f tt h.
Proof. by intros ->. Qed.

Lemma load_cell i b (h : gmap nat V) : r_load i (<[i := b]> h) = Some (b, <[i := b]> h).
Proof. unfold r_load. by rewrite lookup_insert_eq. Qed.

Lemma modify_cell i f b (h : gmap nat V) : r_modify i f (<[i := b]> h) = Some (tt, <[i := f b]> h).
Proof. unfold r_modify. by rewrite lookup_insert_eq, insert_insert_eq. Qed.

Lemma load_eq i b (h : gmap nat V) : h !! i = Some b -> r_load i h = Some (b, h).
Proof. intros H. unfold r_load. by rewrite H. Qed.

Lemma modify_eq i f b (h : gmap nat V) : h !! i = Some b -> r_modify i f h = Some (tt, <[i := f b]> h).
Proof. intros H. unfold r_modify. by rewrite H. Qed.
End Programs.
Arguments prog : clear implicits.

Notation "'do' x <- p ; q" := (r_bind p (fun x => q))
  (at level 100, x name, p at level 100, q at level 200, right associativity) : c_scope.
Notation "'do_' p ; q" := (r_bind p (fun _ => q))
  (at level 100, p at level 100, q at level 200, right associativity) : c_scope.
