(* ===== verification/BioPair.v ===== *)
(** The BIO object and BIO pairs (include/openssl/bio.h, crypto/bio/pair.c).

    BIOs live in a store [heap] from addresses to objects, because the two halves of a pair
    point to each other: reading from one half changes the ring buffer of the other.  An
    operation is a [prog] over that store.  The application's callbacks are functions of the numbers they are passed. *)

From S2P Require Import Prelude Store.

Open Scope Z_scope.

Module BioPair.

(** * The objects *)

(** The ring buffer of the bytes this half has written and its peer has not read yet. *)
Record bio_bio_st := mk_bio_bio {
  b_peer : option nat; b_closed : bool; b_len : Z; b_offset : Z; b_size : Z;
  b_buf : option bytes; b_request : Z }.

(** The arguments of a [BIO_callback_fn_ex]; [cb_processed] is what [processed] points to. *)
Record cb_args := mk_cb_args {
  cb_oper : Z; cb_len : Z; cb_argi : Z; cb_argl : Z; cb_bio_ret : Z; cb_processed : option Z }.

(** The [BIO_METHOD] tables. *)
Inductive BIO_METHOD := methods_biop.

Record BIO := mk_bio {
  method : option BIO_METHOD;
  callback_ex : option (cb_args -> Z * option Z);
  callback : option (Z -> Z -> Z -> Z -> Z);
  init : bool; shutdown : Z; flags : Z; retry_reason : Z; references : Z;
  ptr : option bio_bio_st; next_bio : option nat; num_read : Z; num_write : Z }.

Abbreviation heap := (gmap nat BIO).

Abbreviation prog := (prog BIO).
Open Scope c_scope.

Definition set_ptr (p : option bio_bio_st) (b : BIO) : BIO :=
  mk_bio (method b) (callback_ex b) (callback b) (init b) (shutdown b) (flags b) (retry_reason b)
    (references b) p (next_bio b) (num_read b) (num_write b).
Definition set_init (v : bool) (b : BIO) : BIO :=
  mk_bio (method b) (callback_ex b) (callback b) v (shutdown b) (flags b) (retry_reason b)
    (references b) (ptr b) (next_bio b) (num_read b) (num_write b).
Definition set_flags (v reason : Z) (b : BIO) : BIO :=
  mk_bio (method b) (callback_ex b) (callback b) (init b) (shutdown b) v reason
    (references b) (ptr b) (next_bio b) (num_read b) (num_write b).
Definition set_shutdown (v : Z) (b : BIO) : BIO :=
  mk_bio (method b) (callback_ex b) (callback b) (init b) v (flags b) (retry_reason b)
    (references b) (ptr b) (next_bio b) (num_read b) (num_write b).

(** [bio->ptr] as a [struct bio_bio_st *]. *)
Definition load_st (i : nat) : prog bio_bio_st := do b <- r_load i; r_some (ptr b).
Definition store_st (i : nat) (st : bio_bio_st) : prog unit := r_modify i (set_ptr (Some st)).

Definition st_peer (p : option nat) (s : bio_bio_st) : bio_bio_st :=
  mk_bio_bio p (b_closed s) (b_len s) (b_offset s) (b_size s) (b_buf s) (b_request s).
Definition st_closed (c : bool) (s : bio_bio_st) : bio_bio_st :=
  mk_bio_bio (b_peer s) c (b_len s) (b_offset s) (b_size s) (b_buf s) (b_request s).
Definition st_ring (len offset : Z) (buf : option bytes) (s : bio_bio_st) : bio_bio_st :=
  mk_bio_bio (b_peer s) (b_closed s) len offset (b_size s) buf (b_request s).
Definition st_size (size : Z) (s : bio_bio_st) : bio_bio_st :=
  mk_bio_bio (b_peer s) (b_closed s) (b_len s) (b_offset s) size (b_buf s) (b_request s).
Definition st_request (r : Z) (s : bio_bio_st) : bio_bio_st :=
  mk_bio_bio (b_peer s) (b_closed s) (b_len s) (b_offset s) (b_size s) (b_buf s) r.

(** * Flags (bio.c) *)

Definition BIO_FLAGS_READ : Z := 1.
Definition BIO_FLAGS_WRITE : Z := 2.
Definition BIO_FLAGS_IO_SPECIAL : Z := 4.
Definition BIO_FLAGS_SHOULD_RETRY : Z := 8.
Definition kRetryFlags : Z :=
  Z.lor (Z.lor (Z.lor BIO_FLAGS_READ BIO_FLAGS_WRITE) BIO_FLAGS_IO_SPECIAL) BIO_FLAGS_SHOULD_RETRY.

Definition BIO_set_flags (i : nat) (f : Z) : prog unit :=
  r_modify i (fun b => set_flags (Z.lor (flags b) f) (retry_reason b) b).
Definition BIO_test_flags (i : nat) (f : Z) : prog Z := do b <- r_load i; r_ret (Z.land (flags b) f).
Definition BIO_clear_flags (i : nat) (f : Z) : prog unit :=
  r_modify i (fun b => set_flags (Z.land (flags b) (Z.lnot f)) (retry_reason b) b).
Definition BIO_set_retry_read (i : nat) : prog unit :=
  r_modify i (fun b => set_flags (Z.lor (flags b) (Z.lor BIO_FLAGS_READ BIO_FLAGS_SHOULD_RETRY)) (retry_reason b) b).
Definition BIO_set_retry_write (i : nat) : prog unit :=
  r_modify i (fun b => set_flags (Z.lor (flags b) (Z.lor BIO_FLAGS_WRITE BIO_FLAGS_SHOULD_RETRY)) (retry_reason b) b).
Definition BIO_get_retry_flags (i : nat) : prog Z :=
  do b <- r_load i; r_ret (Z.land (flags b) kRetryFlags).
Definition BIO_clear_retry_flags (i : nat) : prog unit :=
  r_modify i (fun b => set_flags (Z.land (flags b) (Z.lnot kRetryFlags)) 0 b).
Definition BIO_should_read (i : nat) : prog Z := BIO_test_flags i BIO_FLAGS_READ.
Definition BIO_should_write (i : nat) : prog Z := BIO_test_flags i BIO_FLAGS_WRITE.
Definition BIO_should_retry (i : nat) : prog Z := BIO_test_flags i BIO_FLAGS_SHOULD_RETRY.
Definition BIO_should_io_special (i : nat) : prog Z := BIO_test_flags i BIO_FLAGS_IO_SPECIAL.

(** * The pair methods (pair.c) *)

(** [alloc_ok] is the outcome of allocating the [struct bio_bio_st]. *)
Definition bio_new (i : nat) (alloc_ok : bool) : prog bool :=
  if alloc_ok then
    do_ store_st i (mk_bio_bio None false 0 0 (17 * 1024) None 0); r_ret true
  else r_ret false.

(** Both halves drop their bytes and become unusable; the buffers stay allocated. *)
Definition bio_destroy_pair (i : nat) : prog unit :=
  do bio <- r_load i;
  match ptr bio with
  | None => r_ret tt
  | Some b =>
      match b_peer b with
      | None => r_ret tt
      | Some j =>
          do peer_b <- load_st j;
          do_ r_assert (bool_decide (b_peer peer_b = Some i));
          do_ store_st j (st_peer None peer_b);
          do_ r_modify j (set_init false);
          do_ r_assert (bool_decide (b_buf peer_b <> None));
          do peer_b <- load_st j;
          do_ store_st j (st_ring 0 0 (b_buf peer_b) peer_b);
          do b <- load_st i;
          do_ store_st i (st_peer None b);
          do_ r_modify i (set_init false);
          do_ r_assert (bool_decide (b_buf b <> None));
          do b <- load_st i;
          store_st i (st_ring 0 0 (b_buf b) b)
      end
  end.

Definition bio_free (i : nat) : prog Z :=
  do b <- load_st i;
  do_ match b_peer b with Some _ => bio_destroy_pair i | None => r_ret tt end;
  do_ r_modify i (set_ptr None);
  r_ret 1.

(** [memcpy] out of and into an array. *)
Definition read_at (buf : bytes) (offset n : Z) : bytes := take (Z.to_nat n) (drop (Z.to_nat offset) buf).
Definition write_at (buf : bytes) (offset : Z) (data : bytes) : bytes :=
  take (Z.to_nat offset) buf ++ data ++ drop (Z.to_nat offset + length data) buf.

(** The copying loop of [bio_read] on the peer's ring; it needs one or two iterations. *)
Fixpoint read_loop (fuel : nat) (s : bio_bio_st) (ring : bytes) (rest : Z) (out : bytes)
  : option (bytes * bio_bio_st) :=
  match fuel with
  | O => None
  | S fuel =>
      if rest >? b_len s then None
      else
        let chunk := if u64 (b_offset s + rest) <=? b_size s then rest else b_size s - b_offset s in
        if u64 (b_offset s + chunk) >? b_size s then None
        else
          let out := out ++ read_at ring (b_offset s) chunk in
          let len := b_len s - chunk in
          let offset :=
            if negb (len =? 0) then
              let offset := b_offset s + chunk in if offset =? b_size s then 0 else offset
            else 0 in
          if (len =? 0) && negb (chunk =? rest) then None
          else
            let s := st_ring len offset (b_buf s) s in
            let rest := rest - chunk in
            if rest =? 0 then Some (out, s) else read_loop fuel s ring rest out
  end.

(** [bio_read(bio, buf, size_)]; [buf_null] says that [buf] is NULL.  The result is the
    return value and the bytes stored in [buf]. *)
Definition bio_read (i : nat) (buf_null : bool) (size_ : Z) : prog (Z * bytes) :=
  let size := u64 size_ in
  do_ BIO_clear_retry_flags i;
  do bio <- r_load i;
  if negb (init bio) then r_ret (0, [])
  else
    do b <- r_some (ptr bio);
    do j <- r_some (b_peer b);
    do peer_b <- load_st j;
    do ring <- r_some (b_buf peer_b);
    do_ store_st j (st_request 0 peer_b);
    if buf_null || (size =? 0) then r_ret (0, [])
    else if b_len peer_b =? 0 then
      if b_closed peer_b then r_ret (0, [])
      else
        do_ BIO_set_retry_read i;
        do peer_b <- load_st j;
        do_ store_st j (st_request (if size <=? b_size peer_b then size else b_size peer_b) peer_b);
        r_ret (-1, [])
    else
      do peer_b <- load_st j;
      let size := if b_len peer_b <? size then b_len peer_b else size in
      do r <- r_some (read_loop 3 peer_b ring size []);
      do_ store_st j r.2;
      r_ret (size, r.1).

(** The copying loop of [bio_write] on its own ring. *)
Fixpoint write_loop (fuel : nat) (s : bio_bio_st) (ring : bytes) (rest : Z) (data : bytes)
  : option bio_bio_st :=
  match fuel with
  | O => None
  | S fuel =>
      if u64 (b_len s + rest) >? b_size s then None
      else
        let write_offset := u64 (b_offset s + b_len s) in
        let write_offset := if write_offset >=? b_size s then write_offset - b_size s else write_offset in
        let chunk := if u64 (write_offset + rest) <=? b_size s then rest else b_size s - write_offset in
        let ring := write_at ring write_offset (take (Z.to_nat chunk) data) in
        let len := b_len s + chunk in
        if len >? b_size s then None
        else
          let s := st_ring len (b_offset s) (Some ring) s in
          let rest := rest - chunk in
          if rest =? 0 then Some s else write_loop fuel s ring rest (drop (Z.to_nat chunk) data)
  end.

(** [bio_write(bio, buf, num_)]; [buf] is [None] for NULL, and holds at least [num_] bytes. *)
Definition bio_write (i : nat) (buf : option bytes) (num_ : Z) : prog Z :=
  let num := u64 num_ in
  do_ BIO_clear_retry_flags i;
  do bio <- r_load i;
  match buf with
  | None => r_ret 0
  | Some data =>
      if negb (init bio) || (num =? 0) then r_ret 0
      else
        do b <- r_some (ptr bio);
        do_ r_assert (bool_decide (b_peer b <> None));
        do ring <- r_some (b_buf b);
        do_ store_st i (st_request 0 b);
        if b_closed b then r_ret (-1)
        else
          do_ r_assert (b_len b <=? b_size b);
          if b_len b =? b_size b then do_ BIO_set_retry_write i; r_ret (-1)
          else
            let num := if num >? b_size b - b_len b then b_size b - b_len b else num in
            do b <- load_st i;
            do s <- r_some (write_loop 3 b ring num data);
            do_ store_st i s;
            r_ret num
  end.

(** One half of [bio_make_pair]: give it a buffer of [writebuf_len] bytes, whose initial
    contents are [junk]. *)
Definition make_half (alloc_ok : Z -> bool) (junk : Z -> bytes) (i : nat) (writebuf_len : Z) : prog bool :=
  do b <- load_st i;
  match b_buf b with
  | Some _ => r_ret true
  | None =>
      let size := if negb (writebuf_len =? 0) then writebuf_len else b_size b in
      do_ store_st i (st_size size b);
      if alloc_ok size then
        do b <- load_st i;
        do_ store_st i (st_ring 0 0 (Some (junk size)) b);
        r_ret true
      else r_ret false
  end.

Definition link_half (i j : nat) : prog unit :=
  do b <- load_st i;
  store_st i (st_peer (Some j) (st_closed false (st_request 0 b))).

Definition bio_make_pair (alloc_ok : Z -> bool) (junk : Z -> bytes) (i1 i2 : nat)
    (writebuf1_len writebuf2_len : Z) : prog bool :=
  do b1 <- load_st i1;
  do b2 <- load_st i2;
  if bool_decide (b_peer b1 <> None) || bool_decide (b_peer b2 <> None) then r_ret false
  else
    do ok1 <- make_half alloc_ok junk i1 writebuf1_len;
    if negb ok1 then r_ret false
    else
      do ok2 <- make_half alloc_ok junk i2 writebuf2_len;
      if negb ok2 then r_ret false
      else
        do_ link_half i1 i2;
        do_ link_half i2 i1;
        do_ r_modify i1 (set_init true);
        do_ r_modify i2 (set_init true);
        r_ret true.

Definition BIO_C_GET_WRITE_BUF_SIZE : Z := 137.
Definition BIO_C_GET_WRITE_GUARANTEE : Z := 140.
Definition BIO_C_GET_READ_REQUEST : Z := 141.
Definition BIO_C_SHUTDOWN_WR : Z := 142.
Definition BIO_C_RESET_READ_REQUEST : Z := 147.
Definition BIO_CTRL_EOF : Z := 2.
Definition BIO_CTRL_GET_CLOSE : Z := 8.
Definition BIO_CTRL_SET_CLOSE : Z := 9.
Definition BIO_CTRL_PENDING : Z := 10.
Definition BIO_CTRL_FLUSH : Z := 11.
Definition BIO_CTRL_WPENDING : Z := 13.

(** [(long)x] of a [size_t]. *)
Definition to_long (x : Z) : Z := to_signed 64 (u64 x).

Definition bio_ctrl (i : nat) (cmd num : Z) : prog Z :=
  do bio <- r_load i;
  do b <- r_some (ptr bio);
  if cmd =? BIO_C_GET_WRITE_BUF_SIZE then r_ret (to_long (b_size b))
  else if cmd =? BIO_C_GET_WRITE_GUARANTEE then
    if bool_decide (b_peer b = None) || b_closed b then r_ret 0
    else r_ret (to_long (b_size b - b_len b))
  else if cmd =? BIO_C_GET_READ_REQUEST then r_ret (to_long (b_request b))
  else if cmd =? BIO_C_RESET_READ_REQUEST then do_ store_st i (st_request 0 b); r_ret 1
  else if cmd =? BIO_C_SHUTDOWN_WR then do_ store_st i (st_closed true b); r_ret 1
  else if cmd =? BIO_CTRL_GET_CLOSE then r_ret (shutdown bio)
  else if cmd =? BIO_CTRL_SET_CLOSE then do_ r_modify i (set_shutdown (to_signed 32 (u32 num))); r_ret 1
  else if cmd =? BIO_CTRL_PENDING then
    match b_peer b with
    | Some j => do peer_b <- load_st j; r_ret (to_long (b_len peer_b))
    | None => r_ret 0
    end
  else if cmd =? BIO_CTRL_WPENDING then
    r_ret (if bool_decide (b_buf b <> None) then to_long (b_len b) else 0)
  else if cmd =? BIO_CTRL_FLUSH then r_ret 1
  else if cmd =? BIO_CTRL_EOF then
    match b_peer b with
    | Some j => do peer_b <- load_st j; r_ret (Z.b2z ((b_len peer_b =? 0) && b_closed peer_b))
    | None => r_ret 1
    end
  else r_ret 0.

(** * The ring buffer as a queue *)

(** The bytes in the ring, oldest first. *)
Definition queue (s : bio_bio_st) : bytes :=
  match b_buf s with
  | Some ring => (fun k => ring !!! Z.to_nat ((b_offset s + k) mod b_size s)) <$> seqZ 0 (b_len s)
  | None => []
  end.

Record ring_wf (s : bio_bio_st) : Prop := mk_ring_wf {
  ring_buf : exists ring, b_buf s = Some ring /\ len ring = b_size s;
  ring_size : 0 < b_size s < 2 ^ 63;
  ring_offset : 0 <= b_offset s < b_size s;
  ring_len : 0 <= b_len s <= b_size s }.

Lemma mod_wrap x n : 0 <= x < 2 * n -> x mod n = if x <? n then x else x - n.
Proof.
  intros H. destruct (Z.ltb_spec x n); [apply Z.mod_small; lia |].
  symmetry. apply (Z.mod_unique_pos x n 1); lia.
Qed.

Lemma queue_length s : ring_wf s -> len (queue s) = b_len s.
Proof.
  intros [(ring & Hb & _) _ _ ?]. unfold queue, len. rewrite Hb, length_fmap, length_seqZ. lia.
Qed.

Lemma lookup_queue s ring k :
  b_buf s = Some ring -> 0 <= Z.of_nat k < b_len s ->
  queue s !! k = Some (ring !!! Z.to_nat ((b_offset s + Z.of_nat k) mod b_size s)).
Proof.
  intros Hb Hk. unfold queue. rewrite Hb, list_lookup_fmap.
  rewrite (proj2 (lookup_seqZ 0 (b_len s) k (Z.of_nat k))) by lia. done.
Qed.

Lemma lookup_queue_ge s k : ring_wf s -> b_len s <= Z.of_nat k -> queue s !! k = None.
Proof. intros Hw Hk. apply lookup_ge_None. pose proof (queue_length s Hw). unfold len in *. lia. Qed.

(** A chunk that does not wrap around is a prefix of the queue. *)
Lemma read_at_queue s ring c :
  ring_wf s -> b_buf s = Some ring -> 0 <= c <= b_len s -> b_offset s + c <= b_size s ->
  read_at ring (b_offset s) c = take (Z.to_nat c) (queue s).
Proof.
  intros Hw Hb Hc Ho. destruct Hw as [(ring' & Hb' & Hl) Hs Hoff Hlen].
  rewrite Hb in Hb'. injection Hb' as <-. unfold len in Hl.
  apply list_eq. intros k. unfold read_at.
  destruct (decide (k < Z.to_nat c)%nat) as [Hk | Hk].
  - rewrite !lookup_take_lt, lookup_drop by lia. rewrite (lookup_queue s ring) by (done || lia).
    rewrite Z.mod_small by lia. replace (Z.to_nat (b_offset s + Z.of_nat k)) with (Z.to_nat (b_offset s) + k)%nat by lia.
    apply list_lookup_lookup_total_lt. lia.
  - by rewrite !lookup_take_ge by lia.
Qed.

(** The ring after [c] bytes were read from it. *)
Definition after_read (c : Z) (s : bio_bio_st) : bio_bio_st :=
  let len := b_len s - c in
  st_ring len (if negb (len =? 0) then if b_offset s + c =? b_size s then 0 else b_offset s + c else 0) (b_buf s) s.

Lemma after_read_spec s c :
  ring_wf s -> 0 <= c <= b_len s -> b_offset s + c <= b_size s ->
  ring_wf (after_read c s) /\ queue (after_read c s) = drop (Z.to_nat c) (queue s).
Proof.
  intros Hw Hc Ho. assert (ring_wf (after_read c s)) as Hw'.
  { destruct Hw as [Hb Hs Hoff Hlen]. constructor; cbn; [done | done | | lia].
    destruct (Z.eqb_spec (b_len s - c) 0), (Z.eqb_spec (b_offset s + c) (b_size s)); cbn; lia. }
  split; [done |]. apply list_eq. intros k. rewrite lookup_drop.
  destruct (decide (Z.of_nat k < b_len s - c)) as [Hk | Hk].
  - destruct Hw as [(ring & Hb & _) Hs Hoff Hlen].
    rewrite (lookup_queue _ ring), (lookup_queue s ring) by (done || cbn; lia). cbn.
    do 3 f_equal. rewrite (proj2 (Z.eqb_neq _ _)) by lia. cbn [negb].
    replace (b_offset s + Z.of_nat (Z.to_nat c + k)) with (b_offset s + c + Z.of_nat k) by lia.
    destruct (Z.eqb_spec (b_offset s + c) (b_size s)) as [-> | ]; [| done].
    rewrite Z.add_0_l, <- Z.add_mod_idemp_l, Z_mod_same_full by lia. done.
  - rewrite !lookup_queue_ge; [done | done | lia | done | cbn; lia].
Qed.

Lemma read_once fuel s ring rest out :
  ring_wf s -> b_buf s = Some ring -> 0 < rest <= b_len s -> b_offset s + rest <= b_size s ->
  read_loop (S fuel) s ring rest out = Some (out ++ take (Z.to_nat rest) (queue s), after_read rest s).
Proof.
  intros Hw Hb Hr Ho. pose proof Hw as [_ Hs Hoff Hlen]. cbn [read_loop].
  rewrite (wrap_id 64 (b_offset s + rest)) by (unfold fits; lia).
  destruct (Z.gtb_spec rest (b_len s)); [lia |]. destruct (Z.leb_spec (b_offset s + rest) (b_size s)); [| lia].
  rewrite (wrap_id 64 (b_offset s + rest)) by (unfold fits; lia). destruct (Z.gtb_spec (b_offset s + rest) (b_size s)); [lia |].
  rewrite Z.eqb_refl, andb_false_r, Z.sub_diag by done. cbn [Z.eqb].
  rewrite (read_at_queue s ring) by (done || lia). done.
Qed.

(** The reading loop takes bytes from the front of the queue. *)
Lemma read_loop_spec s ring n :
  ring_wf s -> b_buf s = Some ring -> 0 < n <= b_len s ->
  exists s', read_loop 3 s ring n [] = Some (take (Z.to_nat n) (queue s), s') /\
    ring_wf s' /\ queue s' = drop (Z.to_nat n) (queue s) /\
    exists l o, s' = st_ring l o (b_buf s) s.
Proof.
  intros Hw Hb Hn. pose proof Hw as [_ Hs Hoff Hlen].
  destruct (Z.leb_spec (b_offset s + n) (b_size s)) as [Hle | Hgt].
  - exists (after_read n s). rewrite read_once by done.
    destruct (after_read_spec s n Hw ltac:(lia) Hle) as [? ?]. split_and!; [done | done | done | by do 2 eexists].
  - set (c := b_size s - b_offset s).
    destruct (after_read_spec s c Hw ltac:(lia) ltac:(lia)) as [Hw' Hq'].
    destruct (after_read_spec (after_read c s) (n - c) Hw') as [Hw2 Hq2]; [cbn; lia | |].
    { cbn. rewrite (proj2 (Z.eqb_neq _ _)) by lia. cbn. rewrite (proj2 (Z.eqb_eq _ _)) by lia. lia. }
    exists (after_read (n - c) (after_read c s)).
    assert (read_loop 3 s ring n [] = read_loop 2 (after_read c s) ring (n - c) (take (Z.to_nat c) (queue s))) as ->.
    { cbn [read_loop]. rewrite (wrap_id 64 (b_offset s + n)) by (unfold fits; lia).
      destruct (Z.gtb_spec n (b_len s)); [lia |]. destruct (Z.leb_spec (b_offset s + n) (b_size s)); [lia |].
      fold c. rewrite (wrap_id 64 (b_offset s + c)) by (unfold fits; lia).
      destruct (Z.gtb_spec (b_offset s + c) (b_size s)); [lia |].
      rewrite (read_at_queue s ring) by (done || lia). cbn [app].
      rewrite (proj2 (Z.eqb_neq (b_len s - c) 0)) by lia. cbn [negb andb].
      rewrite (proj2 (Z.eqb_neq (n - c) 0)) by lia. unfold after_read.
      rewrite (proj2 (Z.eqb_neq (b_len s - c) 0)) by lia. done. }
    rewrite read_once; [| done | done | cbn; lia |].
    2: { cbn. rewrite (proj2 (Z.eqb_neq _ _)) by lia. cbn. rewrite (proj2 (Z.eqb_eq _ _)) by lia. lia. }
    rewrite Hq', Hq2, Hq', drop_drop. split_and!; [| done | f_equal; lia | by do 2 eexists].
    do 2 f_equal. replace (Z.to_nat n) with (Z.to_nat c + Z.to_nat (n - c))%nat by lia. by rewrite take_take_drop.
Qed.

Lemma lookup_write_at ring o data j :
  (Z.to_nat o + length data <= length ring)%nat ->
  write_at ring o data !! j =
  if decide (Z.to_nat o <= j < Z.to_nat o + length data)%nat then data !! (j - Z.to_nat o)%nat else ring !! j.
Proof.
  intros Hl. unfold write_at. assert (length (take (Z.to_nat o) ring) = Z.to_nat o) as Ht by (rewrite length_take; lia).
  destruct (decide (j < Z.to_nat o)%nat).
  - rewrite decide_False by lia. rewrite lookup_app_l by lia. by rewrite lookup_take_lt.
  - rewrite lookup_app_r by lia. rewrite Ht. case_decide.
    + by rewrite lookup_app_l by lia.
    + rewrite lookup_app_r, lookup_drop by lia. f_equal. lia.
Qed.

Lemma length_write_at ring o data :
  (Z.to_nat o + length data <= length ring)%nat -> length (write_at ring o data) = length ring.
Proof. intros. unfold write_at. rewrite !length_app, length_take, length_drop. lia. Qed.

Lemma lookup_total_write_at ring o data j :
  (Z.to_nat o + length data <= length ring)%nat ->
  write_at ring o data !!! j =
  if decide (Z.to_nat o <= j < Z.to_nat o + length data)%nat then data !!! (j - Z.to_nat o)%nat else ring !!! j.
Proof. intros. rewrite !list_lookup_total_alt, lookup_write_at by done. by case_decide. Qed.

(** The first free position of the ring. *)
Definition write_pos (s : bio_bio_st) : Z :=
  if b_offset s + b_len s >=? b_size s then b_offset s + b_len s - b_size s else b_offset s + b_len s.

Definition after_write (ring data : bytes) (s : bio_bio_st) : bio_bio_st :=
  st_ring (b_len s + len data) (b_offset s) (Some (write_at ring (write_pos s) data)) s.

(** The byte of the queue at [k] is not where a chunk that fits is written. *)
Lemma write_pos_index s k :
  ring_wf s -> 0 <= k < b_size s ->
  (b_offset s + k) mod b_size s =
  (if write_pos s + (k - b_len s) <? 0 then write_pos s + (k - b_len s) + b_size s
   else if write_pos s + (k - b_len s) <? b_size s then write_pos s + (k - b_len s)
   else write_pos s + (k - b_len s) - b_size s).
Proof.
  intros [_ Hs Ho Hl] Hk. rewrite mod_wrap by lia. unfold write_pos.
  destruct (Z.geb_spec (b_offset s + b_len s) (b_size s)), (Z.ltb_spec (b_offset s + k) (b_size s));
    repeat match goal with |- context [?a <? ?b] => destruct (Z.ltb_spec a b) end; lia.
Qed.

Lemma write_pos_range s : ring_wf s -> 0 <= write_pos s <= b_size s /\ (b_len s < b_size s -> write_pos s < b_size s).
Proof.
  intros [_ ? ? ?]. unfold write_pos. destruct (Z.geb_spec (b_offset s + b_len s) (b_size s)); lia.
Qed.

Lemma after_write_spec s ring data :
  ring_wf s -> b_buf s = Some ring -> len data <= b_size s - b_len s -> write_pos s + len data <= b_size s ->
  ring_wf (after_write ring data s) /\ queue (after_write ring data s) = queue s ++ data.
Proof.
  intros Hw Hb Hd Hp. pose proof Hw as [(ring' & Hb' & Hr) Hs Ho Hl]. rewrite Hb in Hb'. injection Hb' as <-.
  assert (0 <= write_pos s) as Hpos by (unfold write_pos; destruct (Z.geb_spec (b_offset s + b_len s) (b_size s)); lia).
  assert (Z.to_nat (write_pos s) + length data <= length ring)%nat as Hfit by (unfold len in *; lia).
  pose proof (len_nonneg data) as Hd0.
  assert (ring_wf (after_write ring data s)) as Hw'.
  { constructor; cbn; [| done | done | lia]. eexists. split; [done |]. unfold len. by rewrite length_write_at. }
  split; [done |]. apply list_eq. intros k.
  destruct (decide (Z.of_nat k < b_len s + len data)) as [Hk | Hk].
  2: { rewrite lookup_queue_ge by (done || cbn; lia). symmetry. apply lookup_ge_None.
       pose proof (queue_length s Hw). rewrite length_app. unfold len in *. lia. }
  rewrite (lookup_queue _ (write_at ring (write_pos s) data)) by (done || cbn; lia). cbn.
  rewrite lookup_total_write_at, (write_pos_index s) by (done || lia).
  pose proof (queue_length s Hw) as Hq. unfold len in *.
  destruct (decide (Z.of_nat k < b_len s)) as [Hk' | Hk'].
  - rewrite lookup_app_l by lia. rewrite (lookup_queue s ring) by (done || lia).
    rewrite (write_pos_index s) by (done || lia). f_equal. rewrite decide_False; [done |].
    repeat match goal with |- context [?a <? ?b] => destruct (Z.ltb_spec a b) end; lia.
  - rewrite lookup_app_r by lia. rewrite decide_True.
    2: { repeat match goal with |- context [?a <? ?b] => destruct (Z.ltb_spec a b) end; lia. }
    rewrite (proj2 (Z.ltb_ge _ _)) by lia. rewrite (proj2 (Z.ltb_lt _ _)) by lia.
    rewrite <- list_lookup_lookup_total_lt by lia. f_equal. lia.
Qed.

(** One iteration of the writing loop. *)
Lemma write_step fuel s ring rest data :
  ring_wf s -> b_buf s = Some ring -> 0 < rest <= b_size s - b_len s -> rest <= len data ->
  let chunk := if write_pos s + rest <=? b_size s then rest else b_size s - write_pos s in
  let t := take (Z.to_nat chunk) data in
  write_loop (S fuel) s ring rest data =
  if rest - chunk =? 0 then Some (after_write ring t s)
  else write_loop fuel (after_write ring t s) (write_at ring (write_pos s) t) (rest - chunk) (drop (Z.to_nat chunk) data).
Proof.
  intros Hw Hb Hr Hd chunk t. pose proof Hw as [_ Hs Ho Hl]. pose proof (write_pos_range s Hw) as Hp. cbn [write_loop].
  rewrite (wrap_id 64 (b_len s + rest)) by (unfold fits; lia).
  destruct (Z.gtb_spec (b_len s + rest) (b_size s)); [lia |].
  rewrite (wrap_id 64 (b_offset s + b_len s)) by (unfold fits; lia). fold (write_pos s).
  rewrite (wrap_id 64 (write_pos s + rest)) by (unfold fits; lia). fold chunk. fold t.
  assert (0 <= chunk <= rest) as Hc by (unfold chunk; destruct (Z.leb_spec (write_pos s + rest) (b_size s)); lia).
  assert (len t = chunk) as Ht by (unfold t, len in *; rewrite length_take; lia).
  destruct (Z.gtb_spec (b_len s + chunk) (b_size s)); [lia |]. unfold after_write. by rewrite Ht.
Qed.

(** The writing loop appends to the queue. *)
Lemma write_loop_spec s ring n data :
  ring_wf s -> b_buf s = Some ring -> 0 < n <= b_size s - b_len s -> n <= len data ->
  exists s', write_loop 3 s ring n data = Some s' /\ ring_wf s' /\
    queue s' = queue s ++ take (Z.to_nat n) data /\
    exists l o buf, s' = st_ring l o buf s.
Proof.
  intros Hw Hb Hn Hd. pose proof Hw as [_ Hs Ho Hl]. pose proof (write_pos_range s Hw) as Hp.
  rewrite write_step by done. cbv zeta.
  destruct (Z.leb_spec (write_pos s + n) (b_size s)) as [Hle | Hgt].
  - rewrite Z.sub_diag. cbn [Z.eqb]. set (t := take (Z.to_nat n) data).
    assert (len t = n) as Ht by (unfold t, len in *; rewrite length_take; lia).
    exists (after_write ring t s). destruct (after_write_spec s ring t Hw Hb ltac:(lia) ltac:(lia)) as [? ?].
    split_and!; [done | done | done | by do 3 eexists].
  - set (c := b_size s - write_pos s). set (t := take (Z.to_nat c) data).
    assert (len t = c) as Ht by (unfold t, len in *; rewrite length_take; lia).
    destruct (after_write_spec s ring t Hw Hb ltac:(lia) ltac:(lia)) as [Hw' Hq'].
    rewrite (proj2 (Z.eqb_neq (n - c) 0)) by lia.
    set (s1 := after_write ring t s) in *. set (d2 := drop (Z.to_nat c) data).
    assert (len d2 = len data - c) as Hd2 by (unfold d2, len in *; rewrite length_drop; lia).
    assert (write_pos s1 = 0) as Hp1.
    { unfold write_pos in *. cbn. rewrite Ht.
      destruct (Z.geb_spec (b_offset s + b_len s) (b_size s)), (Z.geb_spec (b_offset s + (b_len s + c)) (b_size s)); lia. }
    assert (b_len s1 = b_len s + c) as Hl1 by (cbn; lia). assert (b_size s1 = b_size s) as Hs1 by done.
    rewrite (write_step 1 s1 (write_at ring (write_pos s) t) (n - c) d2 Hw' eq_refl ltac:(lia) ltac:(lia)). cbv zeta.
    rewrite Hp1. destruct (Z.leb_spec (0 + (n - c)) (b_size s1)); [| lia]. rewrite Z.sub_diag. cbn [Z.eqb].
    set (t2 := take (Z.to_nat (n - c)) d2).
    assert (len t2 = n - c) as Ht2 by (unfold t2, len in *; rewrite length_take; lia).
    destruct (after_write_spec s1 (write_at ring (write_pos s) t) t2 Hw' eq_refl ltac:(lia) ltac:(lia)) as [Hw2 Hq2].
    eexists. split_and!; [done | done | | by do 3 eexists].
    rewrite Hq2, Hq', <- app_assoc. f_equal. unfold t, t2, d2.
    replace (Z.to_nat n) with (Z.to_nat c + Z.to_nat (n - c))%nat by lia. by rewrite take_take_drop.
Qed.

(** * Running a program on a store with the two halves of a pair *)

Definition cells (i j : nat) (bi bj : BIO) (h : heap) : heap := <[i := bi]> (<[j := bj]> h).

Lemma cells_swap i j bi bj h : i <> j -> cells i j bi bj h = cells j i bj bi h.
Proof. intros. unfold cells. by rewrite insert_insert_ne. Qed.

Section Cells.
Context (i j : nat) (Hij : i <> j) (h : heap).

Lemma load_near bi bj : r_load i (cells i j bi bj h) = Some (bi, cells i j bi bj h).
Proof. unfold r_load, cells. by rewrite lookup_insert_eq. Qed.

Lemma load_far bi bj : r_load j (cells i j bi bj h) = Some (bj, cells i j bi bj h).
Proof. unfold r_load, cells. by rewrite lookup_insert_ne, lookup_insert_eq. Qed.

Lemma modify_near f bi bj : r_modify i f (cells i j bi bj h) = Some (tt, cells i j (f bi) bj h).
Proof. unfold r_modify, cells. rewrite lookup_insert_eq. by rewrite insert_insert_eq. Qed.

Lemma modify_far f bi bj : r_modify j f (cells i j bi bj h) = Some (tt, cells i j bi (f bj) h).
Proof.
  unfold r_modify, cells. rewrite lookup_insert_ne, lookup_insert_eq by done.
  by rewrite (insert_insert_ne _ j i), insert_insert_eq by done.
Qed.

Lemma load_st_near bi bj s : ptr bi = Some s -> load_st i (cells i j bi bj h) = Some (s, cells i j bi bj h).
Proof. intros H. unfold load_st, r_bind. rewrite load_near. by rewrite H. Qed.

Lemma load_st_far bi bj s : ptr bj = Some s -> load_st j (cells i j bi bj h) = Some (s, cells i j bi bj h).
Proof. intros H. unfold load_st, r_bind. rewrite load_far. by rewrite H. Qed.
End Cells.

(** Executes the next statement of a program. *)
Ltac step :=
  first
    [ erewrite bind_some by (first [eassumption | reflexivity])
    | erewrite bind_assert by (first [eassumption | reflexivity])
    | erewrite bind_eq by
        (first [ apply load_near | apply load_far; done | apply modify_near | apply modify_far; done
               | eapply load_st_near; (reflexivity || eassumption)
               | eapply load_st_far; [done | (reflexivity || eassumption)]
               | reflexivity ])
    | rewrite load_near | rewrite load_far by done | rewrite modify_near | rewrite modify_far by done ];
  cbv beta iota.
Ltac steps := unfold store_st; repeat step.

(** * The two halves as objects *)

(** [b] is a half of a pair, linked to [other] or not, with the ring [s]. *)
Record half (b : BIO) (other : option nat) (s : bio_bio_st) : Prop := mk_half {
  half_method : method b = Some methods_biop;
  half_callbacks : callback_ex b = None /\ callback b = None;
  half_init : init b = bool_decide (other <> None);
  half_ptr : ptr b = Some s;
  half_peer : b_peer s = other;
  half_ring : ring_wf s;
  half_request : 0 <= b_request s <= b_size s }.

Definition retry (b : BIO) : Z := Z.land (flags b) kRetryFlags.

Lemma retry_set f r : Z.land (Z.lor (Z.land f (Z.lnot kRetryFlags)) r) kRetryFlags = Z.land r kRetryFlags.
Proof.
  rewrite Z.land_lor_distr_l, <- Z.land_assoc. change (Z.land (Z.lnot kRetryFlags) kRetryFlags) with 0.
  by rewrite Z.land_0_r.
Qed.

Lemma retry_clear f : Z.land (Z.land f (Z.lnot kRetryFlags)) kRetryFlags = 0.
Proof. rewrite <- Z.land_assoc. change (Z.land (Z.lnot kRetryFlags) kRetryFlags) with 0. apply Z.land_0_r. Qed.
End BioPair.
