(* ===== verification/Bio.v ===== *)
(** The BIO layer (crypto/bio/bio.c) over the pair method, and BIO pairs as pipes.

    Each BIO function checks its arguments, offers the operation to the application's
    callback, calls the method and hands the result to the callback again.  An object is an
    address, [None] for NULL. *)

From S2P Require Import Prelude Store BioPair.

Open Scope Z_scope.

Module Bio.
Import BioPair.
Open Scope c_scope.

Definition INT_MAX : Z := 2 ^ 31 - 1.
Definition INT_MIN : Z := - 2 ^ 31.
(** Conversion to [int]. *)
Definition to_int (x : Z) : Z := to_signed 32 (u32 x).

Definition BIO_CB_FREE : Z := 1.
Definition BIO_CB_READ : Z := 2.
Definition BIO_CB_WRITE : Z := 3.
Definition BIO_CB_PUTS : Z := 4.
Definition BIO_CB_GETS : Z := 5.
Definition BIO_CB_CTRL : Z := 6.
Definition BIO_CB_RETURN : Z := 0x80.

(** * Callbacks *)

(** A legacy callback called through the extended interface; [None] where [processed] is
    dereferenced while NULL. *)
Definition callback_fn_wrap_ex (cb : Z -> Z -> Z -> Z -> Z) (a : cb_args) : option (Z * option Z) :=
  let oper := cb_oper a in
  let bareoper := Z.land oper (Z.lnot BIO_CB_RETURN) in
  let has_len := (bareoper =? BIO_CB_READ) || (bareoper =? BIO_CB_WRITE) || (bareoper =? BIO_CB_GETS) in
  if has_len && (cb_len a >? INT_MAX) then Some (-1, cb_processed a)
  else
    let argi := if has_len then to_int (cb_len a) else cb_argi a in
    let returning := negb (Z.land oper BIO_CB_RETURN =? 0) && negb (bareoper =? BIO_CB_CTRL) in
    let finish bio_ret :=
      let ret := cb oper argi (cb_argl a) bio_ret in
      if (ret >? 0) && returning then
        match cb_processed a with Some _ => Some (1, Some (u64 ret)) | None => None end
      else Some (ret, cb_processed a) in
    if (cb_bio_ret a >? 0) && returning then
      match cb_processed a with
      | None => None
      | Some processed => if processed >? INT_MAX then Some (-1, cb_processed a) else finish (to_int processed)
      end
    else finish (cb_bio_ret a).

Definition get_callback (bio : BIO) : option (cb_args -> option (Z * option Z)) :=
  match callback_ex bio with
  | Some cb => Some (fun a => Some (cb a))
  | None =>
      match callback bio with
      | Some cb => Some (callback_fn_wrap_ex cb)
      | None => None
      end
  end.

Definition set_counts (r w : Z) (b : BIO) : BIO :=
  mk_bio (method b) (callback_ex b) (callback b) (init b) (shutdown b) (flags b) (retry_reason b)
    (references b) (ptr b) (next_bio b) r w.

(** The result of a transfer: the counters, then the callback. *)
Definition handle_callback_return (i : nat) (oper blen ret : Z) : prog Z :=
  do_ (if ret >? 0 then
         r_modify i (fun b =>
           if (oper =? BIO_CB_READ) || (oper =? BIO_CB_GETS) then set_counts (u64 (num_read b + ret)) (num_write b) b
           else if (oper =? BIO_CB_WRITE) || (oper =? BIO_CB_PUTS) then set_counts (num_read b) (u64 (num_write b + ret)) b
           else b)
       else r_ret tt);
  let processed := if ret >? 0 then ret else 0 in
  let ret := if ret >? 0 then 1 else ret in
  let finish ret processed := if ret >? 0 then if processed >? INT_MAX then -1 else to_int processed else ret in
  do bio <- r_load i;
  match get_callback bio with
  | None => r_ret (finish ret processed)
  | Some cb =>
      do r <- r_some (cb (mk_cb_args (Z.lor oper BIO_CB_RETURN) (u64 blen) 0 0 ret (Some processed)));
      if (r.1 >? INT_MAX) || (r.1 <? INT_MIN) then r_ret (-1)
      else r_ret (finish (to_int r.1) (default processed r.2))
  end.

(** The call of the callback before an operation: [Some] the value to return at once. *)
Definition callback_before (i : nat) (oper blen : Z) : prog (option Z) :=
  do bio <- r_load i;
  match get_callback bio with
  | None => r_ret None
  | Some cb =>
      do r <- r_some (cb (mk_cb_args oper (u64 blen) 0 0 1 None));
      if r.1 <=? 0 then r_ret (Some (if r.1 >=? INT_MIN then to_int r.1 else INT_MIN)) else r_ret None
  end.

(** * Methods *)

Definition bread (m : BIO_METHOD) : option (nat -> bool -> Z -> prog (Z * bytes)) :=
  match m with methods_biop => Some bio_read end.
Definition bwrite (m : BIO_METHOD) : option (nat -> option bytes -> Z -> prog Z) :=
  match m with methods_biop => Some bio_write end.
Definition bputs (m : BIO_METHOD) : option (nat -> bytes -> prog Z) :=
  match m with methods_biop => None end.
Definition bgets (m : BIO_METHOD) : option (nat -> Z -> prog (Z * bytes)) :=
  match m with methods_biop => None end.
Definition ctrl (m : BIO_METHOD) : option (nat -> Z -> Z -> prog Z) :=
  match m with methods_biop => Some bio_ctrl end.
Definition create (m : BIO_METHOD) : option (nat -> bool -> prog bool) :=
  match m with methods_biop => Some bio_new end.
Definition destroy (m : BIO_METHOD) : option (nat -> prog Z) :=
  match m with methods_biop => Some bio_free end.

(** The method entry of an object, [None] if the object, its method or the entry is NULL. *)
Definition entry {A} (e : BIO_METHOD -> option A) (bio : option nat) : prog (option (nat * A)) :=
  match bio with
  | None => r_ret None
  | Some i =>
      do b <- r_load i;
      r_ret (m ← method b; f ← e m; Some (i, f))
  end.

(** * Creation and destruction *)

Definition BIO_new (alloc_ok : bool) (create_ok : bool) (m : BIO_METHOD) : prog (option nat) :=
  if negb alloc_ok then r_ret None
  else
    do i <- (fun h => Some (fresh (dom h), h));
    do_ (fun h => Some (tt, <[i := mk_bio (Some m) None None false 1 0 0 1 None None 0 0]> h));
    match create m with
    | None => r_ret (Some i)
    | Some f =>
        do ok <- f i create_ok;
        if ok then r_ret (Some i)
        else do_ (fun h => Some (tt, delete i h)); r_ret None
    end.

Definition CRYPTO_REFCOUNT_MAX : Z := 0xffffffff.

Definition set_references (r : Z) (b : BIO) : BIO :=
  mk_bio (method b) (callback_ex b) (callback b) (init b) (shutdown b) (flags b) (retry_reason b)
    r (ptr b) (next_bio b) (num_read b) (num_write b).
Definition set_next (n : option nat) (b : BIO) : BIO :=
  mk_bio (method b) (callback_ex b) (callback b) (init b) (shutdown b) (flags b) (retry_reason b)
    (references b) (ptr b) n (num_read b) (num_write b).

Definition CRYPTO_refcount_inc (i : nat) : prog unit :=
  r_modify i (fun b => if references b <? CRYPTO_REFCOUNT_MAX then set_references (references b + 1) b else b).

(** [None] on a zero count, where the C code aborts. *)
Definition CRYPTO_refcount_dec_and_test_zero (i : nat) : prog bool :=
  do b <- r_load i;
  if references b =? 0 then r_undefined
  else if references b <? CRYPTO_REFCOUNT_MAX then
    do_ r_modify i (set_references (references b - 1));
    r_ret (references b - 1 =? 0)
  else r_ret false.

Definition BIO_up_ref (i : nat) : prog Z := do_ CRYPTO_refcount_inc i; r_ret 1.

Definition BIO_pop (bio : option nat) : prog (option nat) :=
  match bio with
  | None => r_ret None
  | Some i =>
      do b <- r_load i;
      do_ r_modify i (set_next None);
      r_ret (next_bio b)
  end.

Definition BIO_next (bio : option nat) : prog (option nat) :=
  match bio with None => r_ret None | Some i => do b <- r_load i; r_ret (next_bio b) end.

(** Along a chain of [fuel] objects at most. *)
Fixpoint last_bio (fuel : nat) (i : nat) : prog nat :=
  match fuel with
  | O => r_undefined
  | S fuel =>
      do b <- r_load i;
      match next_bio b with None => r_ret i | Some n => last_bio fuel n end
  end.

Definition BIO_push (bio appended_bio : option nat) : prog (option nat) :=
  match bio with
  | None => r_ret None
  | Some i =>
      do fuel <- (fun h => Some (size h, h));
      do last <- last_bio fuel i;
      do_ r_modify last (set_next appended_bio);
      r_ret (Some i)
  end.

Fixpoint free_loop (fuel : nat) (bio : option nat) : prog Z :=
  match fuel, bio with
  | _, None => r_ret 1
  | O, Some _ => r_undefined
  | S fuel, Some i =>
      do last <- CRYPTO_refcount_dec_and_test_zero i;
      if negb last then r_ret 0
      else
        do next <- BIO_pop (Some i);
        do b <- r_load i;
        do_ match m ← method b; destroy m with Some f => do_ f i; r_ret tt | None => r_ret tt end;
        do b <- r_load i;
        let release := do_ (fun h => Some (tt, delete i h)); free_loop fuel next in
        match get_callback b with
        | None => release
        | Some cb =>
            do r <- r_some (cb (mk_cb_args BIO_CB_FREE 0 0 0 1 None));
            if r.1 <=? 0 then r_ret (if r.1 >=? INT_MIN then to_int r.1 else INT_MIN) else release
        end
  end.

(** The chain has no more objects than the store. *)
Definition BIO_free (bio : option nat) : prog Z := fun h => free_loop (size h) bio h.

(** * Transfers *)

Definition BIO_read (bio : option nat) (buf_null : bool) (blen : Z) : prog (Z * bytes) :=
  do e <- entry bread bio;
  match e with
  | None => r_ret (-2, [])
  | Some (i, f) =>
      if blen <=? 0 then r_ret (0, [])
      else
        do early <- callback_before i BIO_CB_READ blen;
        match early with
        | Some ret => r_ret (ret, [])
        | None =>
            do b <- r_load i;
            if negb (init b) then r_ret (-2, [])
            else
              do r <- f i buf_null blen;
              do ret <- handle_callback_return i BIO_CB_READ blen r.1;
              r_ret (ret, r.2)
        end
  end.

Definition BIO_gets (bio : option nat) (blen : Z) : prog (Z * bytes) :=
  do e <- entry bgets bio;
  match e with
  | None => r_ret (-2, [])
  | Some (i, f) =>
      if blen <=? 0 then r_ret (0, [])
      else
        do early <- callback_before i BIO_CB_GETS blen;
        match early with
        | Some ret => r_ret (ret, [])
        | None =>
            do b <- r_load i;
            if negb (init b) then r_ret (-2, [])
            else
              do r <- f i blen;
              do ret <- handle_callback_return i BIO_CB_GETS blen r.1;
              r_ret (ret, r.2)
        end
  end.

Definition BIO_write (bio : option nat) (buf : option bytes) (inl : Z) : prog Z :=
  do e <- entry bwrite bio;
  match e with
  | None => r_ret (-2)
  | Some (i, f) =>
      if inl <=? 0 then r_ret 0
      else
        do early <- callback_before i BIO_CB_WRITE inl;
        match early with
        | Some ret => r_ret ret
        | None =>
            do b <- r_load i;
            if negb (init b) then r_ret (-2)
            else
              do ret <- f i buf inl;
              handle_callback_return i BIO_CB_WRITE inl ret
        end
  end.

(** [in] is the string without its NUL. *)
Definition BIO_puts (bio : option nat) (str : bytes) : prog Z :=
  do w <- entry bwrite bio;
  do p <- entry bputs bio;
  match w, p with
  | None, None => r_ret (-2)
  | _, _ =>
      do i <- r_some bio;
      do early <- callback_before i BIO_CB_PUTS 0;
      match early with
      | Some ret => r_ret ret
      | None =>
          do b <- r_load i;
          if negb (init b) then r_ret (-2)
          else
            match p, w with
            | Some (_, f), _ => do ret <- f i str; handle_callback_return i BIO_CB_PUTS 0 ret
            | None, Some (_, f) =>
                if len str >? INT_MAX then r_ret (-1)
                else do ret <- f i (Some str) (len str); handle_callback_return i BIO_CB_PUTS 0 ret
            | None, None => r_undefined
            end
      end
  end.

(** The return value, the bytes, and [*read_bytes] (which is not NULL). *)
Definition BIO_read_ex (bio : option nat) (data_len : Z) : prog (Z * bytes * Z) :=
  match bio with
  | None => r_ret (0, [], 0)
  | Some _ =>
      let read_len := if data_len >? INT_MAX then INT_MAX else data_len in
      do r <- BIO_read bio false read_len;
      if r.1 >? 0 then r_ret (1, r.2, r.1) else r_ret (0, r.2, 0)
  end.

Definition BIO_write_ex (bio : option nat) (data : bytes) : prog (Z * Z) :=
  match bio with
  | None => r_ret (0, 0)
  | Some _ =>
      let write_len := if len data >? INT_MAX then INT_MAX else len data in
      do ret <- BIO_write bio (Some data) write_len;
      if ret >? 0 then r_ret (1, ret) else r_ret (0, 0)
  end.

(** Every iteration writes a byte; [fuel] is the number of bytes. *)
Fixpoint write_all_loop (fuel : nat) (bio : option nat) (data : bytes) : prog Z :=
  match data with
  | [] => r_ret 1
  | _ =>
      match fuel with
      | O => r_undefined
      | S fuel =>
          let write_len := if len data >? INT_MAX then INT_MAX else len data in
          do ret <- BIO_write bio (Some data) write_len;
          do_ r_assert (ret <=? write_len);
          if ret <=? 0 then r_ret 0
          else write_all_loop fuel bio (drop (Z.to_nat ret) data)
      end
  end.

Definition BIO_write_all (bio : option nat) (data : bytes) : prog Z := write_all_loop (length data) bio data.

(** The result, the bytes read so far and [*out_eof_on_first_read] on failure. *)
Fixpoint read_full_loop (fuel : nat) (bio : option nat) (first_read : bool) (blen : Z) (out : bytes)
  : prog (bool * bytes * bool) :=
  if blen <=? 0 then r_ret (true, out, false)
  else
    match fuel with
    | O => r_undefined
    | S fuel =>
        let todo := if blen <=? INT_MAX then blen else INT_MAX in
        do r <- BIO_read bio false todo;
        if r.1 <=? 0 then r_ret (false, out, first_read && (r.1 =? 0))
        else read_full_loop fuel bio false (blen - r.1) (out ++ r.2)
    end.

Definition bio_read_full (bio : option nat) (blen : Z) : prog (bool * bytes * bool) :=
  read_full_loop (Z.to_nat blen) bio true blen [].

(** * Control *)

Definition BIO_ctrl (bio : option nat) (cmd larg : Z) : prog Z :=
  match bio with
  | None => r_ret 0
  | Some i =>
      do e <- entry ctrl bio;
      match e with
      | None => r_ret (-2)
      | Some (_, f) =>
          do b <- r_load i;
          do early <- match get_callback b with
                      | None => r_ret None
                      | Some cb =>
                          do r <- r_some (cb (mk_cb_args BIO_CB_CTRL 0 cmd larg 1 None));
                          r_ret (if r.1 <=? 0 then Some r.1 else None)
                      end;
          match early with
          | Some ret => r_ret ret
          | None =>
              do ret <- f i cmd larg;
              do b <- r_load i;
              match get_callback b with
              | None => r_ret ret
              | Some cb =>
                  do r <- r_some (cb (mk_cb_args (Z.lor BIO_CB_CTRL BIO_CB_RETURN) 0 cmd larg (to_int ret) None));
                  r_ret r.1
              end
          end
      end
  end.

Definition BIO_flush (bio : option nat) : prog Z := do r <- BIO_ctrl bio BIO_CTRL_FLUSH 0; r_ret (to_int r).
Definition BIO_eof (bio : option nat) : prog Z := do r <- BIO_ctrl bio BIO_CTRL_EOF 0; r_ret (to_int r).
Definition BIO_pending (bio : option nat) : prog Z :=
  do r <- BIO_ctrl bio BIO_CTRL_PENDING 0;
  do_ r_assert (r >=? 0);
  r_ret (if r <? 0 then 0 else r).
Definition BIO_wpending (bio : option nat) : prog Z :=
  do r <- BIO_ctrl bio BIO_CTRL_WPENDING 0;
  do_ r_assert (r >=? 0);
  r_ret (if r <? 0 then 0 else r).
Definition BIO_set_close (bio : option nat) (close_flag : Z) : prog Z :=
  do r <- BIO_ctrl bio BIO_CTRL_SET_CLOSE close_flag; r_ret (to_int r).
Definition BIO_get_close (bio : option nat) : prog Z := do r <- BIO_ctrl bio BIO_CTRL_GET_CLOSE 0; r_ret (to_int r).
Definition BIO_number_read (i : nat) : prog Z := do b <- r_load i; r_ret (num_read b).
Definition BIO_number_written (i : nat) : prog Z := do b <- r_load i; r_ret (num_write b).

(** * Pairs *)

(** [alloc] lists the outcomes of the four object allocations. *)
Definition BIO_new_bio_pair (alloc : bool * bool * bool * bool) (alloc_ok : Z -> bool) (junk : Z -> bytes)
    (writebuf1_len writebuf2_len : Z) : prog (option (nat * nat)) :=
  let '(a1, c1, a2, c2) := alloc in
  do bio1 <- BIO_new a1 c1 methods_biop;
  do bio2 <- BIO_new a2 c2 methods_biop;
  let fail := do_ BIO_free bio1; do_ BIO_free bio2; r_ret None in
  match bio1, bio2 with
  | Some i1, Some i2 =>
      do ok <- bio_make_pair alloc_ok junk i1 i2 writebuf1_len writebuf2_len;
      if ok then r_ret (Some (i1, i2)) else fail
  | _, _ => fail
  end.

Definition BIO_destroy_bio_pair (bio : option nat) : prog Z :=
  match bio with None => r_ret 0 | Some i => do_ bio_destroy_pair i; r_ret 1 end.

Definition BIO_ctrl_get_read_request (bio : option nat) : prog Z :=
  do r <- BIO_ctrl bio BIO_C_GET_READ_REQUEST 0; r_ret (u64 r).
Definition BIO_ctrl_get_write_guarantee (bio : option nat) : prog Z :=
  do r <- BIO_ctrl bio BIO_C_GET_WRITE_GUARANTEE 0; r_ret (u64 r).
Definition BIO_shutdown_wr (bio : option nat) : prog Z :=
  do r <- BIO_ctrl bio BIO_C_SHUTDOWN_WR 0; r_ret (to_int r).

(** * The specification: two pipes *)

(** What one end has written and the other has not read: a bounded queue, whether the writer
    has closed it, and how many bytes the reader last asked for in vain. *)
Record line := mk_line { l_queue : bytes; l_cap : Z; l_shut : bool; l_want : Z }.

(** One end: its outgoing line, its retry flags, its close flag and its byte counters. *)
Record pend := mk_end { e_out : line; e_retry : Z; e_close : Z; e_read : Z; e_written : Z }.

(** Both ends, and whether they are still connected. *)
Record duplex := mk_duplex { d_left : pend; d_right : pend; d_linked : bool }.

Definition with_retry (r : Z) (e : pend) : pend := mk_end (e_out e) r (e_close e) (e_read e) (e_written e).
Definition with_want (w : Z) (e : pend) : pend :=
  mk_end (mk_line (l_queue (e_out e)) (l_cap (e_out e)) (l_shut (e_out e)) w) (e_retry e) (e_close e) (e_read e) (e_written e).
Definition with_queue (q : bytes) (e : pend) : pend :=
  mk_end (mk_line q (l_cap (e_out e)) (l_shut (e_out e)) (l_want (e_out e))) (e_retry e) (e_close e) (e_read e) (e_written e).
Definition with_shut (e : pend) : pend :=
  mk_end (mk_line (l_queue (e_out e)) (l_cap (e_out e)) true (l_want (e_out e))) (e_retry e) (e_close e) (e_read e) (e_written e).
Definition with_close (c : Z) (e : pend) : pend := mk_end (e_out e) (e_retry e) c (e_read e) (e_written e).
Definition add_read (k : Z) (e : pend) : pend := mk_end (e_out e) (e_retry e) (e_close e) (u64 (e_read e + k)) (e_written e).
Definition add_written (k : Z) (e : pend) : pend := mk_end (e_out e) (e_retry e) (e_close e) (e_read e) (u64 (e_written e + k)).

Definition RETRY_READ : Z := 9.
Definition RETRY_WRITE : Z := 10.

(** A read takes from the front of the far line. *)
Definition s_take (n : Z) (near far : pend) : (Z * bytes) * pend * pend :=
  match l_queue (e_out far) with
  | [] =>
      if l_shut (e_out far) then ((0, []), with_retry 0 near, with_want 0 far)
      else ((-1, []), with_retry RETRY_READ near, with_want (Z.min n (l_cap (e_out far))) far)
  | q =>
      let k := Z.min n (len q) in
      ((k, take (Z.to_nat k) q), with_retry 0 near, with_want 0 (with_queue (drop (Z.to_nat k) q) far))
  end.

Definition s_read (linked : bool) (n : Z) (near far : pend) : (Z * bytes) * pend * pend :=
  if n <=? 0 then ((0, []), near, far)
  else if negb linked then ((-2, []), near, far)
  else
    let '(r, near, far) := s_take n near far in
    (r, if r.1 >? 0 then add_read r.1 near else near, far).

(** A write appends what fits to the near line. *)
Definition s_put (data : bytes) (near : pend) : Z * pend :=
  let q := l_queue (e_out near) in
  let room := l_cap (e_out near) - len q in
  if l_shut (e_out near) then (-1, with_retry 0 (with_want 0 near))
  else if room =? 0 then (-1, with_retry RETRY_WRITE (with_want 0 near))
  else
    let k := Z.min (len data) room in
    (k, with_retry 0 (with_want 0 (with_queue (q ++ take (Z.to_nat k) data) near))).

Definition s_write (linked : bool) (data : bytes) (near : pend) : Z * pend :=
  if len data <=? 0 then (0, near)
  else if negb linked then (-2, near)
  else
    let '(r, near) := s_put data near in
    (r, if r >? 0 then add_written r near else near).

Definition s_ctrl (linked : bool) (cmd num : Z) (near far : pend) : Z * pend :=
  if cmd =? BIO_C_GET_WRITE_BUF_SIZE then (l_cap (e_out near), near)
  else if cmd =? BIO_C_GET_WRITE_GUARANTEE then
    (if linked && negb (l_shut (e_out near)) then l_cap (e_out near) - len (l_queue (e_out near)) else 0, near)
  else if cmd =? BIO_C_GET_READ_REQUEST then (l_want (e_out near), near)
  else if cmd =? BIO_C_RESET_READ_REQUEST then (1, with_want 0 near)
  else if cmd =? BIO_C_SHUTDOWN_WR then (1, with_shut near)
  else if cmd =? BIO_CTRL_GET_CLOSE then (e_close near, near)
  else if cmd =? BIO_CTRL_SET_CLOSE then (1, with_close (to_int num) near)
  else if cmd =? BIO_CTRL_PENDING then (if linked then len (l_queue (e_out far)) else 0, near)
  else if cmd =? BIO_CTRL_WPENDING then (len (l_queue (e_out near)), near)
  else if cmd =? BIO_CTRL_FLUSH then (1, near)
  else if cmd =? BIO_CTRL_EOF then
    (if linked then Z.b2z ((len (l_queue (e_out far)) =? 0) && l_shut (e_out far)) else 1, near)
  else (0, near).

(** * Calls on a pair *)

(** The calls of an application; [false] is the first end. *)
Inductive bio_call :=
  | Read (e : bool) (n : Z)
  | Write (e : bool) (data : bytes)
  | Ctrl (e : bool) (cmd num : Z)
  | RetryFlags (e : bool)
  | Destroy (e : bool).

Definition call_ok (c : bio_call) : Prop :=
  match c with
  | Read _ n => INT_MIN <= n <= INT_MAX
  | Write _ data => len data <= INT_MAX
  | _ => True
  end.

Definition call_end (c : bio_call) : bool :=
  match c with Read e _ | Write e _ | Ctrl e _ _ | RetryFlags e | Destroy e => e end.

(** The call at the object [k]. *)
Definition do_at (k : nat) (c : bio_call) : prog (Z * bytes) :=
  match c with
  | Read _ n => BIO_read (Some k) false n
  | Write _ data => do r <- BIO_write (Some k) (Some data) (len data); r_ret (r, [])
  | Ctrl _ cmd num => do r <- BIO_ctrl (Some k) cmd num; r_ret (r, [])
  | RetryFlags _ => do r <- BIO_get_retry_flags k; r_ret (r, [])
  | Destroy _ => do r <- BIO_destroy_bio_pair (Some k); r_ret (r, [])
  end.

(** Calls on the pair of the objects [i] and [j]. *)
Fixpoint do_calls (i j : nat) (cs : list bio_call) : prog (list (Z * bytes)) :=
  match cs with
  | [] => r_ret []
  | c :: cs => do r <- do_at (if call_end c then j else i) c; do rs <- do_calls i j cs; r_ret (r :: rs)
  end.

(** The call at the first of two ends. *)
Definition s_call_near (c : bio_call) (linked : bool) (near far : pend) : (Z * bytes) * pend * pend * bool :=
  match c with
  | Read _ n => (s_read linked n near far, linked)
  | Write _ data => let '(r, near) := s_write linked data near in ((r, []), near, far, linked)
  | Ctrl _ cmd num => let '(r, near) := s_ctrl linked cmd num near far in ((r, []), near, far, linked)
  | RetryFlags _ => ((e_retry near, []), near, far, linked)
  | Destroy _ => ((1, []), with_queue [] near, with_queue [] far, false)
  end.

Definition s_call (c : bio_call) (d : duplex) : (Z * bytes) * duplex :=
  if call_end c then
    let '(r, near, far, linked) := s_call_near c (d_linked d) (d_right d) (d_left d) in (r, mk_duplex far near linked)
  else
    let '(r, near, far, linked) := s_call_near c (d_linked d) (d_left d) (d_right d) in (r, mk_duplex near far linked).

Fixpoint s_calls (cs : list bio_call) (d : duplex) : list (Z * bytes) * duplex :=
  match cs with
  | [] => ([], d)
  | c :: cs => let '(r, d) := s_call c d in let '(rs, d) := s_calls cs d in (r :: rs, d)
  end.

Definition fresh_end (cap : Z) : pend := mk_end (mk_line [] cap false 0) 0 1 0 0.

(** * Refinement *)

Definition abs_end (b : BIO) (s : bio_bio_st) : pend :=
  mk_end (mk_line (queue s) (b_size s) (b_closed s) (b_request s)) (retry b) (shutdown b) (num_read b) (num_write b).

Definition link (linked : bool) (k : nat) : option nat := if linked then Some k else None.

(** The store, which is [h0] but for the two objects, represents two ends. *)
Definition repr (i j : nat) (h0 : heap) (linked : bool) (near far : pend) (h : heap) : Prop :=
  exists bi bj si sj,
    h = cells i j bi bj h0 /\ half bi (link linked j) si /\ half bj (link linked i) sj /\
    near = abs_end bi si /\ far = abs_end bj sj /\ (linked = false -> queue si = [] /\ queue sj = []).

Lemma repr_swap i j h0 linked near far h :
  i <> j -> repr i j h0 linked near far h -> repr j i h0 linked far near h.
Proof.
  intros Hij (bi & bj & si & sj & -> & Hi & Hj & -> & -> & Hq). exists bj, bi, sj, si.
  rewrite cells_swap by done. split_and!; try done. intros H. destruct (Hq H). done.
Qed.

Lemma to_int_id z : INT_MIN <= z <= INT_MAX -> to_int z = z.
Proof.
  unfold INT_MIN, INT_MAX, to_int, to_signed, wrap. intros H.
  destruct (Z.leb_spec 0 z).
  - rewrite Z.mod_small by lia. destruct (Z.ltb_spec z (2 ^ (32 - 1))); lia.
  - rewrite <- (Z.mod_unique_pos z (2 ^ 32) (-1) (z + 2 ^ 32)) by lia.
    destruct (Z.ltb_spec (z + 2 ^ 32) (2 ^ (32 - 1))); lia.
Qed.

Lemma to_long_id z : 0 <= z < 2 ^ 63 -> to_long z = z.
Proof.
  intros H. unfold to_long, to_signed, wrap. rewrite Z.mod_small by lia.
  destruct (Z.ltb_spec z (2 ^ (64 - 1))); lia.
Qed.

Section Refine.
Context (i j : nat) (Hij : i <> j) (h0 : heap).

Lemma entry_near {A} (e : BIO_METHOD -> option A) bi bj o s :
  half bi o s ->
  entry e (Some i) (cells i j bi bj h0) = Some (f ← e methods_biop; Some (i, f), cells i j bi bj h0).
Proof. intros [Hm _ _ _ _ _ _]. unfold entry. steps. by rewrite Hm. Qed.

Lemma callback_before_near oper blen bi bj o s :
  half bi o s -> callback_before i oper blen (cells i j bi bj h0) = Some (None, cells i j bi bj h0).
Proof.
  intros [_ [H1 H2] _ _ _ _ _]. unfold callback_before. steps. unfold get_callback. by rewrite H1, H2.
Qed.

Definition counted (oper ret : Z) (b : BIO) : BIO :=
  if ret >? 0 then
    if (oper =? BIO_CB_READ) || (oper =? BIO_CB_GETS) then set_counts (u64 (num_read b + ret)) (num_write b) b
    else if (oper =? BIO_CB_WRITE) || (oper =? BIO_CB_PUTS) then set_counts (num_read b) (u64 (num_write b + ret)) b
    else b
  else b.

Lemma handle_return_near oper blen ret bi bj o s :
  half bi o s -> ret <= INT_MAX ->
  handle_callback_return i oper blen ret (cells i j bi bj h0) = Some (ret, cells i j (counted oper ret bi) bj h0).
Proof.
  intros [_ [H1 H2] _ _ _ _ _] Hr. unfold handle_callback_return, counted.
  assert (forall b, callback_ex b = None -> callback b = None -> get_callback b = None) as Hcb
    by (intros b E1 E2; unfold get_callback; by rewrite E1, E2).
  destruct (Z.gtb_spec ret 0).
  - steps. rewrite Hcb by (repeat case_match; done). cbn [Z.gtb Z.compare].
    destruct (Z.gtb_spec ret INT_MAX); [lia |]. rewrite to_int_id by (unfold INT_MIN, INT_MAX in *; lia). done.
  - steps. rewrite Hcb by done. destruct (Z.gtb_spec ret 0); [lia | done].
Qed.

Lemma half_counted oper ret b o s : half b o s -> half (counted oper ret b) o s.
Proof. intros []. constructor; unfold counted; repeat case_match; done. Qed.

Lemma half_flags v r b o s : half b o s -> half (set_flags v r b) o s.
Proof. by intros []. Qed.

Lemma half_set_ring b o s s' :
  half b o s -> ring_wf s' -> b_peer s' = b_peer s -> 0 <= b_request s' <= b_size s' ->
  half (set_ptr (Some s') b) o s'.
Proof. intros [] Hr Hp Hq. constructor; cbn; try done. by rewrite Hp. Qed.

Lemma ring_request r s : ring_wf s -> ring_wf (st_request r s).
Proof. by intros []. Qed.

Lemma queue_nil s : ring_wf s -> b_len s = 0 <-> queue s = [].
Proof.
  intros Hw. pose proof (queue_length s Hw) as Hl. rewrite <- Hl. unfold len.
  destruct (queue s); cbn; split; intros; (done || lia).
Qed.

(** The objects of a linked pair. *)
Lemma linked_init b k s : half b (Some k) s -> init b = true /\ ptr b = Some s /\ b_peer s = Some k /\ ring_wf s.
Proof. intros [? ? Hi ? ? ? ?]. by rewrite bool_decide_true in Hi by done. Qed.

Lemma bio_read_near n near far h :
  repr i j h0 true near far h -> 0 < n <= INT_MAX ->
  exists h', bio_read i false n h = Some ((s_take n near far).1.1, h') /\
    repr i j h0 true (s_take n near far).1.2 (s_take n near far).2 h'.
Proof.
  intros (bi & bj & si & sj & -> & Hi & Hj & -> & -> & _) Hn. unfold bio_read, s_take. cbn [e_out abs_end l_queue].
  rewrite (wrap_id 64 n) by (unfold fits, INT_MAX in *; lia).
  destruct (linked_init _ _ _ Hi) as (Ei & Epi & Epe & _), (linked_init _ _ _ Hj) as (_ & Epj & _ & Hr).
  pose proof (half_request _ _ _ Hj) as Hreq.
  destruct (ring_buf _ Hr) as (ring & Eb & _).
  unfold BIO_clear_retry_flags. steps. cbn [init set_flags negb]. rewrite Ei. cbn [negb]. steps.
  rewrite (proj2 (Z.eqb_neq n 0)) by lia. cbn [orb].
  destruct (queue sj) as [| z q] eqn:Eq.
  - rewrite (proj2 (Z.eqb_eq _ _)) by (by apply queue_nil). cbn [l_shut].
    destruct (b_closed sj) eqn:Ec.
    + eexists. split; [done |]. do 4 eexists. split_and!; [done | by apply half_flags |
        eapply half_set_ring; [done | by apply ring_request | done | cbn; destruct Hr; lia] | | | done].
      * unfold abs_end, with_retry, retry. cbn. by rewrite retry_clear.
      * unfold abs_end, with_want. cbn. unfold queue in *. cbn. by rewrite Eq.
    + unfold BIO_set_retry_read. steps. eexists. split; [done |]. do 4 eexists. split_and!; [done | by do 2 apply half_flags | | | | done].
      * apply (half_set_ring bj _ sj); [done | by do 2 apply ring_request | done |].
        cbn. destruct Hr. destruct (Z.leb_spec n (b_size sj)); lia.
      * unfold abs_end, with_retry, retry. cbn. by rewrite retry_set.
      * unfold abs_end, with_want, queue in *. cbn. rewrite Eq. do 2 f_equal. destruct (Z.leb_spec n (b_size sj)); lia.
  - assert (0 < b_len sj) as Hl.
    { pose proof (queue_length sj Hr) as Hl. rewrite Eq, len_cons in Hl. pose proof (len_nonneg q). lia. }
    rewrite (proj2 (Z.eqb_neq _ _)) by lia. steps. cbn [b_len st_request].
    rewrite <- Eq. pose proof (queue_length sj Hr) as Hlen.
    set (k := if b_len sj <? n then b_len sj else n).
    assert (k = Z.min n (len (queue sj))) as Ek by (unfold k; destruct (Z.ltb_spec (b_len sj) n); lia).
    destruct (read_loop_spec (st_request 0 sj) ring k) as (s' & E & Hw' & Hq' & l & o & Es');
      [by apply ring_request | done | cbn; lia |].
    rewrite E. steps. cbn [fst snd]. rewrite <- Ek. eexists. split; [done |]. do 4 eexists.
    split_and!; [done | by apply half_flags | | | | done].
    + apply (half_set_ring bj _ sj); [done | done | by rewrite Es' |]. rewrite Es'. cbn. destruct Hr; lia.
    + unfold abs_end, with_retry, retry. cbn. by rewrite retry_clear.
    + unfold abs_end, with_want, with_queue. cbn [e_out l_queue]. rewrite Hq', Es'. done.
Qed.

Lemma abs_counted oper ret b s :
  abs_end (counted oper ret b) s =
  if ret >? 0 then
    if (oper =? BIO_CB_READ) || (oper =? BIO_CB_GETS) then add_read ret (abs_end b s)
    else if (oper =? BIO_CB_WRITE) || (oper =? BIO_CB_PUTS) then add_written ret (abs_end b s)
    else abs_end b s
  else abs_end b s.
Proof. unfold counted. by repeat case_match. Qed.

(** Counting the bytes of a transfer, and returning its result. *)
Lemma return_near oper blen ret linked near far h :
  repr i j h0 linked near far h -> ret <= INT_MAX ->
  exists h', handle_callback_return i oper blen ret h = Some (ret, h') /\
    repr i j h0 linked
      (if ret >? 0 then
         if (oper =? BIO_CB_READ) || (oper =? BIO_CB_GETS) then add_read ret near
         else if (oper =? BIO_CB_WRITE) || (oper =? BIO_CB_PUTS) then add_written ret near
         else near
       else near) far h'.
Proof.
  intros (bi & bj & si & sj & -> & Hi & Hj & -> & -> & Hq) Hr. erewrite handle_return_near by done.
  eexists. split; [done |]. exists (counted oper ret bi), bj, si, sj.
  split_and!; [done | by apply half_counted | done | by rewrite abs_counted | done | done].
Qed.

(** The checks before a transfer: the callback, then [init]. *)
Lemma before_near oper blen linked near far h :
  repr i j h0 linked near far h ->
  callback_before i oper blen h = Some (None, h) /\
  exists b, r_load i h = Some (b, h) /\ init b = linked.
Proof.
  intros (bi & bj & si & sj & -> & Hi & _). split; [by eapply callback_before_near |].
  exists bi. rewrite load_near. split; [done |]. rewrite (half_init _ _ _ Hi). by destruct linked.
Qed.

Lemma read_near linked n near far h :
  repr i j h0 linked near far h -> INT_MIN <= n <= INT_MAX ->
  exists h', BIO_read (Some i) false n h = Some ((s_read linked n near far).1.1, h') /\
    repr i j h0 linked (s_read linked n near far).1.2 (s_read linked n near far).2 h'.
Proof.
  intros Hr Hn. unfold BIO_read, s_read.
  assert (entry bread (Some i) h = Some (Some (i, bio_read), h)) as He
    by (destruct Hr as (bi & bj & si & sj & -> & Hi & _); exact (entry_near bread _ _ _ _ Hi)).
  erewrite bind_eq by done. cbv beta iota. destruct (Z.leb_spec n 0) as [Hn0 | Hn0]; [by eexists |].
  destruct (before_near BIO_CB_READ n linked near far h Hr) as (Hb & b & Hl & Hi).
  erewrite bind_eq by done. cbv beta iota. erewrite bind_eq by done. rewrite Hi.
  destruct linked; cbn [negb]; [| by eexists].
  destruct (bio_read_near n near far h Hr ltac:(lia)) as (h1 & E & Hr1). erewrite bind_eq by done.
  assert ((s_take n near far).1.1.1 <= INT_MAX) as Hle.
  { unfold s_take, INT_MAX in *. repeat case_match; cbn; lia. }
  destruct (s_take n near far) as [[r near1] far1]. cbn [fst snd] in *.
  destruct (return_near BIO_CB_READ n r.1 true near1 far1 h1 Hr1 Hle) as (h2 & E2 & Hr2).
  erewrite bind_eq by done. exists h2. split; [by destruct r | done].
Qed.

Lemma bio_write_near data near far h :
  repr i j h0 true near far h -> 0 < len data <= INT_MAX ->
  exists h', bio_write i (Some data) (len data) h = Some ((s_put data near).1, h') /\
    repr i j h0 true (s_put data near).2 far h'.
Proof.
  intros (bi & bj & si & sj & -> & Hi & Hj & -> & -> & _) Hn. unfold bio_write, s_put. cbn [e_out abs_end l_queue l_cap l_shut].
  rewrite (wrap_id 64 (len data)) by (unfold fits, INT_MAX in *; lia).
  destruct (linked_init _ _ _ Hi) as (Ei & Epi & Epe & Hr). destruct (ring_buf _ Hr) as (ring & Eb & _).
  pose proof (queue_length si Hr) as Hlen. pose proof Hr as [_ Hs _ Hl].
  unfold BIO_clear_retry_flags. steps. cbn [init set_flags]. rewrite Ei, (proj2 (Z.eqb_neq (len data) 0)) by lia.
  cbn [negb orb]. steps. erewrite bind_assert by (by rewrite Epe). steps. rewrite Hlen.
  assert (forall v r s', half (set_flags v r (set_ptr (Some s') bi)) (Some j) s' <-> half (set_ptr (Some s') bi) (Some j) s') as Hfl
    by (intros; split; intros []; by constructor).
  destruct (b_closed si) eqn:Ec.
  { eexists. split; [done |]. do 4 eexists. split_and!; [done | | done | | done | done].
    - apply Hfl, (half_set_ring bi _ si); [done | by apply ring_request | done | cbn; lia].
    - unfold abs_end, with_retry, with_want, retry, queue. cbn. by rewrite retry_clear. }
  rewrite bind_assert by (apply Z.leb_le; lia).
  destruct (Z.eqb_spec (b_len si) (b_size si)) as [Ef | Ef].
  { rewrite (proj2 (Z.eqb_eq (b_size si - b_len si) 0)) by lia.
    unfold BIO_set_retry_write. steps. eexists. split; [done |]. do 4 eexists. split_and!; [done | | done | | done | done].
    - apply Hfl, (half_set_ring bi _ si); [done | by apply ring_request | done | cbn; lia].
    - unfold abs_end, with_retry, with_want, retry, queue. cbn. by rewrite retry_set, Ec. }
  rewrite (proj2 (Z.eqb_neq (b_size si - b_len si) 0)) by lia. steps.
  set (k := if len data >? b_size si - b_len si then b_size si - b_len si else len data).
  assert (k = Z.min (len data) (b_size si - b_len si)) as Ek
    by (unfold k; destruct (Z.gtb_spec (len data) (b_size si - b_len si)); lia).
  destruct (write_loop_spec (st_request 0 si) ring k data) as (s' & E & Hw' & Hq' & l & o & buf & Es');
    [by apply ring_request | done | cbn; lia | lia |].
  rewrite E. steps. rewrite <- Ek. eexists. split; [done |]. do 4 eexists. split_and!; [done | | done | | done | done].
  - apply Hfl, (half_set_ring bi _ si); [done | done | by rewrite Es' | rewrite Es'; cbn; lia].
  - unfold abs_end, with_retry, with_want, with_queue, retry. cbn [e_out l_queue]. rewrite Hq', Es'. cbn. by rewrite retry_clear.
Qed.

Lemma write_near linked data near far h :
  repr i j h0 linked near far h -> len data <= INT_MAX ->
  exists h', BIO_write (Some i) (Some data) (len data) h = Some ((s_write linked data near).1, h') /\
    repr i j h0 linked (s_write linked data near).2 far h'.
Proof.
  intros Hr Hn. unfold BIO_write, s_write.
  assert (entry bwrite (Some i) h = Some (Some (i, bio_write), h)) as He
    by (destruct Hr as (bi & bj & si & sj & -> & Hi & _); exact (entry_near bwrite _ _ _ _ Hi)).
  erewrite bind_eq by done. cbv beta iota. destruct (Z.leb_spec (len data) 0) as [Hn0 | Hn0]; [by eexists |].
  destruct (before_near BIO_CB_WRITE (len data) linked near far h Hr) as (Hb & b & Hl & Hi).
  erewrite bind_eq by done. cbv beta iota. erewrite bind_eq by done. rewrite Hi.
  destruct linked; cbn [negb]; [| by eexists].
  destruct (bio_write_near data near far h Hr ltac:(lia)) as (h1 & E & Hr1). erewrite bind_eq by done.
  assert ((s_put data near).1 <= INT_MAX) as Hle.
  { unfold s_put, INT_MAX in *. repeat case_match; cbn; lia. }
  destruct (s_put data near) as [r near1]. cbn [fst snd] in *.
  destruct (return_near BIO_CB_WRITE (len data) r true near1 far h1 Hr1 Hle) as (h2 & E2 & Hr2).
  exists h2. by rewrite E2.
Qed.

Lemma bio_ctrl_near cmd num linked near far h :
  repr i j h0 linked near far h ->
  exists h', bio_ctrl i cmd num h = Some ((s_ctrl linked cmd num near far).1, h') /\
    repr i j h0 linked (s_ctrl linked cmd num near far).2 far h'.
Proof.
  intros (bi & bj & si & sj & -> & Hi & Hj & -> & -> & Hq). unfold bio_ctrl, s_ctrl.
  pose proof (half_ptr _ _ _ Hi) as Epi. pose proof (half_ptr _ _ _ Hj) as Epj.
  pose proof (half_peer _ _ _ Hi) as Epe. pose proof (half_request _ _ _ Hi) as Hreq.
  pose proof (half_ring _ _ _ Hi) as Wi. pose proof (half_ring _ _ _ Hj) as Wj.
  pose proof (queue_length si Wi) as Li. pose proof (queue_length sj Wj) as Lj.
  pose proof Wi as [(ring & Eb & _) Hs _ Hl]. pose proof Wj as [_ Hs' _ Hl'].
  assert (repr i j h0 linked (abs_end bi si) (abs_end bj sj) (cells i j bi bj h0)) as Hsame by (by exists bi, bj, si, sj).
  steps. cbn [e_out abs_end l_queue l_cap l_shut l_want e_close]. rewrite Li, Lj, Epe, Eb.
  repeat (destruct (_ =? _); [
    first
      [ eexists; split; [by rewrite ?to_long_id by lia | exact Hsame]
      | destruct linked; cbn [link andb]; [destruct (b_closed si) | ]; cbn; eexists; (split; [by rewrite ?to_long_id by lia | exact Hsame])
      | destruct linked; cbn [link]; [steps | ]; eexists; (split; [by rewrite ?to_long_id by lia | exact Hsame])
      | steps; eexists; split; [done |]; do 4 eexists;
        (split_and!; [done | eapply (half_set_ring bi _ si); [done | by destruct Wi | done | cbn; lia] | done | done | done |
          intros E; by destruct (Hq E)])
      | steps; eexists; split; [done |]; exists (set_shutdown (to_int num) bi), bj, si, sj;
        (split_and!; [done | by destruct Hi | done | done | done | done]) ] |]).
  by eexists.
Qed.

Lemma no_callback b o s : half b o s -> get_callback b = None.
Proof. intros [_ [H1 H2] _ _ _ _ _]. unfold get_callback. by rewrite H1, H2. Qed.

Lemma ctrl_near cmd num linked near far h :
  repr i j h0 linked near far h ->
  exists h', BIO_ctrl (Some i) cmd num h = Some ((s_ctrl linked cmd num near far).1, h') /\
    repr i j h0 linked (s_ctrl linked cmd num near far).2 far h'.
Proof.
  intros Hr. destruct (bio_ctrl_near cmd num linked near far h Hr) as (h' & E & Hr'). exists h'. split; [| done].
  destruct Hr as (bi & bj & si & sj & -> & Hi & _), Hr' as (bi' & bj' & si' & sj' & -> & Hi' & _).
  unfold BIO_ctrl. rewrite (bind_eq _ _ _ _ _ (entry_near ctrl _ _ _ _ Hi)). cbn [ctrl mbind option_bind].
  steps. rewrite (no_callback _ _ _ Hi). steps. erewrite bind_eq by exact E. steps. by rewrite (no_callback _ _ _ Hi').
Qed.

Lemma retry_flags_near linked near far h :
  repr i j h0 linked near far h -> BIO_get_retry_flags i h = Some (e_retry near, h).
Proof. intros (bi & bj & si & sj & -> & _ & _ & -> & _). unfold BIO_get_retry_flags. by steps. Qed.

Lemma ring_drained o s : ring_wf s -> ring_wf (st_peer o (st_ring 0 0 (b_buf s) s)) /\ queue (st_peer o (st_ring 0 0 (b_buf s) s)) = [].
Proof. intros [? ? ? ?]. split; [constructor; cbn; (done || lia) |]. unfold queue. cbn. by destruct (b_buf s). Qed.

Lemma half_destroyed b k s :
  half b (Some k) s ->
  half (set_ptr (Some (st_ring 0 0 (b_buf s) (st_peer None s))) (set_init false (set_ptr (Some (st_peer None s)) b))) None
    (st_ring 0 0 (b_buf s) (st_peer None s)).
Proof. intros [? ? ? ? ? Hr ?]. destruct (ring_drained None s Hr) as [H _]. by constructor. Qed.

Lemma destroy_near linked near far h :
  repr i j h0 linked near far h ->
  exists h', BIO_destroy_bio_pair (Some i) h = Some (1, h') /\
    repr i j h0 false (with_queue [] near) (with_queue [] far) h'.
Proof.
  intros (bi & bj & si & sj & -> & Hi & Hj & -> & -> & Hq). unfold BIO_destroy_bio_pair, bio_destroy_pair.
  pose proof (half_ptr _ _ _ Hi) as Epi. pose proof (half_ptr _ _ _ Hj) as Epj.
  pose proof (half_peer _ _ _ Hi) as Epe. pose proof (half_peer _ _ _ Hj) as Epe'.
  destruct (ring_buf _ (half_ring _ _ _ Hi)) as (ri & Ebi & _), (ring_buf _ (half_ring _ _ _ Hj)) as (rj & Ebj & _).
  unfold r_bind at 1. unfold r_bind at 1. rewrite load_near, Epi. destruct linked; cbn [link] in *; rewrite Epe.
  - step. erewrite bind_assert by (by rewrite Epe', bool_decide_true). steps.
    erewrite bind_assert by (by rewrite Ebj). steps. erewrite bind_assert by (by rewrite Ebi). steps.
    eexists. split; [done |]. do 4 eexists.
    split_and!; [done | exact (half_destroyed bi j si Hi) | exact (half_destroyed bj i sj Hj) | | |].
    + unfold abs_end, with_queue. cbn. by rewrite Ebi.
    + unfold abs_end, with_queue. cbn. by rewrite Ebj.
    + intros _. cbn. by rewrite Ebi, Ebj.
  - destruct (Hq eq_refl) as [Ei Ej]. eexists. split; [done |]. exists bi, bj, si, sj.
    split_and!; try done; unfold abs_end, with_queue; cbn; by rewrite ?Ei, ?Ej.
Qed.

Lemma call_near c linked near far h :
  repr i j h0 linked near far h -> call_ok c ->
  let '(r, near', far', linked') := s_call_near c linked near far in
  exists h', do_at i c h = Some (r, h') /\ repr i j h0 linked' near' far' h'.
Proof.
  intros Hr Hc. destruct c as [e n | e data | e cmd num | e | e]; cbn [s_call_near do_at call_ok] in *.
  - destruct (read_near linked n near far h Hr Hc) as (h' & E & Hr').
    destruct (s_read linked n near far) as [[r near'] far']. by exists h'.
  - destruct (write_near linked data near far h Hr Hc) as (h' & E & Hr').
    destruct (s_write linked data near) as [r near']. exists h'. by erewrite bind_eq by exact E.
  - destruct (ctrl_near cmd num linked near far h Hr) as (h' & E & Hr').
    destruct (s_ctrl linked cmd num near far) as [r near']. exists h'. by erewrite bind_eq by exact E.
  - exists h. by erewrite bind_eq by (by eapply retry_flags_near).
  - destruct (destroy_near linked near far h Hr) as (h' & E & Hr'). exists h'. by erewrite bind_eq by exact E.
Qed.
End Refine.

(** The store represents the two connected ends [d]. *)
Definition represents (i j : nat) (h0 : heap) (d : duplex) (h : heap) : Prop :=
  repr i j h0 (d_linked d) (d_left d) (d_right d) h.

Lemma pair_call i j h0 c d h :
  i <> j -> represents i j h0 d h -> call_ok c ->
  exists h', do_at (if call_end c then j else i) c h = Some ((s_call c d).1, h') /\ represents i j h0 (s_call c d).2 h'.
Proof.
  intros Hij Hr Hc. unfold s_call, represents in *. destruct (call_end c).
  - pose proof (call_near j i ltac:(done) h0 c _ _ _ h (repr_swap _ _ _ _ _ _ _ Hij Hr) Hc) as H.
    destruct (s_call_near c _ _ _) as [[[r near] far] linked]. destruct H as (h' & E & H). exists h'.
    split; [done |]. by apply repr_swap.
  - pose proof (call_near i j Hij h0 c _ _ _ h Hr Hc) as H.
    destruct (s_call_near c _ _ _) as [[[r near] far] linked]. done.
Qed.

Lemma pair_calls i j h0 cs d h :
  i <> j -> represents i j h0 d h -> Forall call_ok cs ->
  exists h', do_calls i j cs h = Some ((s_calls cs d).1, h') /\ represents i j h0 (s_calls cs d).2 h'.
Proof.
  intros Hij. revert d h. induction cs as [| c cs IH]; intros d h Hr Hcs; cbn [do_calls s_calls]; [by eexists |].
  apply Forall_cons in Hcs as [Hc Hcs]. destruct (pair_call i j h0 c d h Hij Hr Hc) as (h1 & E1 & Hr1).
  erewrite bind_eq by exact E1. destruct (s_call c d) as [r d1]. cbn [fst snd] in *.
  destruct (IH d1 h1 Hr1 Hcs) as (h2 & E2 & Hr2). erewrite bind_eq by exact E2.
  destruct (s_calls cs d1) as [rs d2]. by exists h2.
Qed.

(** * Creating a pair *)

(** A new object of the pair method, with the ring buffer [buf] of [n] bytes if any. *)
Definition new_half (init : bool) (peer : option nat) (n : Z) (buf : option bytes) : BIO :=
  mk_bio (Some methods_biop) None None init 1 0 0 1 (Some (mk_bio_bio peer false 0 0 n buf 0)) None 0 0.

Lemma BIO_new_spec h :
  BIO_new true true methods_biop h = Some (Some (fresh (dom h)), <[fresh (dom h) := new_half false None (17 * 1024) None]> h).
Proof.
  unfold BIO_new. cbn [negb create]. do 2 (erewrite bind_eq by reflexivity). unfold bio_new, store_st.
  unfold r_bind, r_modify. rewrite lookup_insert_eq. unfold r_ret. by rewrite insert_insert_eq.
Qed.

Definition capacity (writebuf_len : Z) : Z := if writebuf_len =? 0 then 17 * 1024 else writebuf_len.

Lemma make_half_near i j h0 alloc_ok junk n b :
  make_half alloc_ok junk i n (cells i j (new_half false None (17 * 1024) None) b h0) =
  Some (alloc_ok (capacity n),
    cells i j (new_half false None (capacity n) (if alloc_ok (capacity n) then Some (junk (capacity n)) else None)) b h0).
Proof.
  unfold make_half, capacity. steps. cbn [b_buf b_size]. steps.
  replace (if negb (n =? 0) then n else 17 * 1024) with (if n =? 0 then 17 * 1024 else n) by (by destruct (n =? 0)).
  set (m := if n =? 0 then 17 * 1024 else n). destruct (alloc_ok m); [by steps | done].
Qed.

Lemma make_pair_spec i j h0 alloc_ok junk n1 n2 :
  i <> j ->
  let fresh_half := new_half false None (17 * 1024) None in
  bio_make_pair alloc_ok junk i j n1 n2 (cells i j fresh_half fresh_half h0) =
  let half n := new_half false None (capacity n) (if alloc_ok (capacity n) then Some (junk (capacity n)) else None) in
  if alloc_ok (capacity n1) then
    if alloc_ok (capacity n2) then
      Some (true, cells i j (new_half true (Some j) (capacity n1) (Some (junk (capacity n1))))
                    (new_half true (Some i) (capacity n2) (Some (junk (capacity n2)))) h0)
    else Some (false, cells i j (half n1) (half n2) h0)
  else Some (false, cells i j (half n1) fresh_half h0).
Proof.
  intros Hij fresh_half. cbv zeta. unfold bio_make_pair. do 2 step. cbn [b_peer]. rewrite !bool_decide_false by naive_solver.
  cbn [orb]. erewrite bind_eq by apply make_half_near. destruct (alloc_ok (capacity n1)) eqn:E1; cbn [negb]; [| done].
  rewrite cells_swap by done. erewrite bind_eq by apply make_half_near. rewrite cells_swap by done.
  destruct (alloc_ok (capacity n2)) eqn:E2; cbn [negb]; [| done].
  unfold link_half. unfold store_st. do 2 (erewrite bind_eq by (by steps)). by steps.
Qed.

(** Freeing an unconnected half removes it from the store. *)
Lemma free_half i h n buf :
  h !! i = None -> BIO_free (Some i) (<[i := new_half false None n buf]> h) = Some (1, h).
Proof.
  intros Hi. unfold BIO_free. rewrite map_size_insert_None by done. cbn [free_loop].
  erewrite bind_eq.
  2: { unfold CRYPTO_refcount_dec_and_test_zero. erewrite bind_eq by apply load_cell. cbn [references new_half].
       change (1 =? 0) with false. change (1 <? CRYPTO_REFCOUNT_MAX) with true. cbv iota.
       erewrite bind_eq by apply modify_cell. reflexivity. }
  change (1 - 1 =? 0) with true. cbn [negb]. erewrite bind_eq.
  2: { unfold BIO_pop. erewrite bind_eq by apply load_cell. erewrite bind_eq by apply modify_cell. reflexivity. }
  erewrite bind_eq by apply load_cell. erewrite bind_eq.
  2: { cbn [method mbind option_bind destroy set_next set_references new_half].
       erewrite bind_eq; [reflexivity |]. unfold bio_free, load_st.
       erewrite bind_eq by (erewrite bind_eq by apply load_cell; reflexivity). erewrite bind_eq by reflexivity.
       erewrite bind_eq by apply modify_cell. reflexivity. }
  erewrite bind_eq by apply load_cell. 
  change (get_callback _) with (@None (cb_args -> option (Z * option Z))). cbv iota.
  erewrite bind_eq by reflexivity. rewrite delete_insert_id by done. by destruct (size h).
Qed.

Definition all_ok (alloc : bool * bool * bool * bool) : bool :=
  let '(a1, c1, a2, c2) := alloc in a1 && c1 && a2 && c2.

(** What creating a pair needs of [malloc]: blocks of the requested size. *)
Definition malloc_blocks (junk : Z -> bytes) : Prop := forall n, 0 <= n -> len (junk n) = n.

Lemma new_half_linked k n junk :
  malloc_blocks junk -> 0 <= n < 2 ^ 63 ->
  let s := mk_bio_bio (Some k) false 0 0 (capacity n) (Some (junk (capacity n))) 0 in
  half (new_half true (Some k) (capacity n) (Some (junk (capacity n)))) (Some k) s /\
  abs_end (new_half true (Some k) (capacity n) (Some (junk (capacity n)))) s = fresh_end (capacity n).
Proof.
  intros Hj Hn s. assert (0 < capacity n < 2 ^ 63) as Hc by (unfold capacity; destruct (Z.eqb_spec n 0); lia).
  split; [| done]. constructor; try done; [| cbn; lia].
  constructor; cbn; [| done | lia | lia]. eexists. split; [done |]. apply Hj. lia.
Qed.

Lemma BIO_new_fails a c h : a && c = false -> BIO_new a c methods_biop h = Some (None, h).
Proof.
  intros H. unfold BIO_new. destruct a; cbn [negb]; [| done]. cbn in H. subst c. cbn [create].
  do 2 (erewrite bind_eq by reflexivity). unfold bio_new. erewrite bind_eq by reflexivity. cbv iota.
  erewrite bind_eq by reflexivity. rewrite delete_insert_id; [done |]. apply not_elem_of_dom, is_fresh.
Qed.

Lemma free_none h : BIO_free None h = Some (1, h).
Proof. unfold BIO_free. by destruct (size h). Qed.

Lemma new_pair_spec alloc alloc_ok junk n1 n2 h :
  malloc_blocks junk -> 0 <= n1 < 2 ^ 63 -> 0 <= n2 < 2 ^ 63 ->
  if all_ok alloc && alloc_ok (capacity n1) && alloc_ok (capacity n2) then
    exists i j h', BIO_new_bio_pair alloc alloc_ok junk n1 n2 h = Some (Some (i, j), h') /\
      i <> j /\ h !! i = None /\ h !! j = None /\
      represents i j h (mk_duplex (fresh_end (capacity n1)) (fresh_end (capacity n2)) true) h'
  else BIO_new_bio_pair alloc alloc_ok junk n1 n2 h = Some (None, h).
Proof.
  intros Hj H1 H2. destruct alloc as [[[a1 c1] a2] c2]. unfold BIO_new_bio_pair, all_ok.
  rewrite <- (andb_assoc (a1 && c1) a2 c2).
  assert (h !! fresh (dom h) = None) as Hi by apply not_elem_of_dom, is_fresh.
  destruct (a1 && c1) eqn:E1; cbn [andb].
  2: { erewrite bind_eq by (by apply BIO_new_fails). destruct (a2 && c2) eqn:E2.
       - apply andb_prop in E2 as [-> ->]. erewrite bind_eq by apply BIO_new_spec.
         erewrite bind_eq by apply free_none. erewrite bind_eq by (by apply free_half). done.
       - erewrite bind_eq by (by apply BIO_new_fails). by do 2 (erewrite bind_eq by apply free_none). }
  apply andb_prop in E1 as [-> ->]. erewrite bind_eq by apply BIO_new_spec. set (i := fresh (dom h)) in *.
  set (h1 := <[i := _]> h). destruct (a2 && c2) eqn:E2; cbn [andb].
  2: { erewrite bind_eq by (by apply BIO_new_fails). cbv iota. unfold h1.
       erewrite bind_eq by (by apply free_half). by erewrite bind_eq by apply free_none. }
  apply andb_prop in E2 as [-> ->].
  erewrite bind_eq by apply BIO_new_spec. set (j := fresh (dom h1)).
  assert (h1 !! j = None) as Hj1 by apply not_elem_of_dom, is_fresh.
  assert (j <> i) as Hne by (intros E; rewrite E in Hj1; unfold h1 in Hj1; by rewrite lookup_insert_eq in Hj1).
  assert (h !! j = None) as Hj0 by (unfold h1 in Hj1; by rewrite lookup_insert_ne in Hj1).
  unfold h1. fold (cells j i (new_half false None (17 * 1024) None) (new_half false None (17 * 1024) None) h).
  rewrite cells_swap by done.
  pose proof (make_pair_spec i j h alloc_ok junk n1 n2 ltac:(done)) as Hm. cbv zeta in Hm.
  assert (forall m1 b1 m2 b2, (do_ BIO_free (Some i); do_ BIO_free (Some j); r_ret (@None (nat * nat)))
      (cells i j (new_half false None m1 b1) (new_half false None m2 b2) h) = Some (None, h)) as Hfree.
  { intros. unfold cells. erewrite bind_eq by (apply free_half; by rewrite lookup_insert_ne).
    erewrite bind_eq by (by apply free_half). done. }
  destruct (alloc_ok (capacity n1)); [destruct (alloc_ok (capacity n2)) |]; cbn [andb];
    erewrite bind_eq by exact Hm; [| apply Hfree | apply Hfree].
  exists i, j. eexists. split_and!; [done | done | done | done |].
  destruct (new_half_linked j n1 junk Hj H1) as [Hh1 Ha1], (new_half_linked i n2 junk Hj H2) as [Hh2 Ha2].
  do 4 eexists. split_and!; [done | exact Hh1 | exact Hh2 | done | done | done].
Qed.

(** * First in, first out *)

Definition end_of (e : bool) (d : duplex) : pend := if e then d_right d else d_left d.

(** The bytes the calls wrote at the end [e], according to their results. *)
Fixpoint accepted (e : bool) (cs : list bio_call) (rs : list (Z * bytes)) : bytes :=
  match cs, rs with
  | c :: cs, r :: rs =>
      match c with
      | Write e' data => if eqb e e' && (r.1 >? 0) then take (Z.to_nat r.1) data else []
      | _ => []
      end ++ accepted e cs rs
  | _, _ => []
  end.

(** The bytes the calls read at the end [e]. *)
Fixpoint received (e : bool) (cs : list bio_call) (rs : list (Z * bytes)) : bytes :=
  match cs, rs with
  | c :: cs, r :: rs =>
      match c with Read e' _ => if eqb e e' then r.2 else [] | _ => [] end ++ received e cs rs
  | _, _ => []
  end.

Definition keeps_link (c : bio_call) : bool := match c with Destroy _ => false | _ => true end.

Lemma s_take_fifo n near far :
  let '(r, near', far') := s_take n near far in
  l_queue (e_out near') = l_queue (e_out near) /\ l_cap (e_out near') = l_cap (e_out near) /\
  r.2 ++ l_queue (e_out far') = l_queue (e_out far) /\ l_cap (e_out far') = l_cap (e_out far).
Proof.
  unfold s_take. destruct (l_queue (e_out far)) as [| z q] eqn:E; [destruct (l_shut (e_out far)) |];
    split_and!; try done. cbn [snd fst with_want with_queue e_out l_queue]. apply take_drop.
Qed.

Lemma s_read_fifo linked n near far :
  let '(r, near', far') := s_read linked n near far in
  l_queue (e_out near') = l_queue (e_out near) /\ l_cap (e_out near') = l_cap (e_out near) /\
  r.2 ++ l_queue (e_out far') = l_queue (e_out far) /\ l_cap (e_out far') = l_cap (e_out far).
Proof.
  unfold s_read. destruct (n <=? 0), linked; cbn [negb]; try done. pose proof (s_take_fifo n near far) as H.
  destruct (s_take n near far) as [[r near'] far']. by destruct (r.1 >? 0).
Qed.

Lemma s_write_fifo linked data near :
  let '(r, near') := s_write linked data near in
  l_queue (e_out near') = l_queue (e_out near) ++ (if r >? 0 then take (Z.to_nat r) data else []) /\
  l_cap (e_out near') = l_cap (e_out near).
Proof.
  unfold s_write, s_put. destruct (len data <=? 0), linked; cbn [negb]; try (cbn; by rewrite app_nil_r).
  destruct (l_shut (e_out near)); [cbn; by rewrite app_nil_r |].
  destruct (_ =? 0); [cbn; by rewrite app_nil_r |]. cbv zeta beta iota.
  set (k := Z.min _ _). destruct (Z.gtb_spec k 0); [done |]. cbn.
  by replace (Z.to_nat k) with 0%nat by lia.
Qed.

Lemma s_ctrl_fifo linked cmd num near far :
  let near' := (s_ctrl linked cmd num near far).2 in
  l_queue (e_out near') = l_queue (e_out near) /\ l_cap (e_out near') = l_cap (e_out near).
Proof. unfold s_ctrl. by repeat (destruct (_ =? _)). Qed.

Lemma s_call_fifo e c d :
  keeps_link c = true ->
  let r := (s_call c d).1 in let d' := (s_call c d).2 in
  l_queue (e_out (end_of e d)) ++ accepted e [c] [r] = received (negb e) [c] [r] ++ l_queue (e_out (end_of e d')) /\
  l_cap (e_out (end_of e d')) = l_cap (e_out (end_of e d)) /\ d_linked d' = d_linked d.
Proof.
  intros Hc. destruct d as [dl dr linked]. unfold s_call.
  destruct c as [e' n | e' data | e' cmd num | e' | e']; cbn [call_end d_linked d_left d_right s_call_near keeps_link] in *; [| | | | done].
  - destruct e'.
    + pose proof (s_read_fifo linked n dr dl) as H. destruct (s_read linked n dr dl) as [[r x] y].
      destruct H as (H1 & H2 & H3 & H4). destruct e; cbn; rewrite ?app_nil_r; done.
    + pose proof (s_read_fifo linked n dl dr) as H. destruct (s_read linked n dl dr) as [[r x] y].
      destruct H as (H1 & H2 & H3 & H4). destruct e; cbn; rewrite ?app_nil_r; done.
  - destruct e'.
    + pose proof (s_write_fifo linked data dr) as H. destruct (s_write linked data dr) as [r x].
      destruct H as (H1 & H2). destruct e; cbn; rewrite ?app_nil_r; done.
    + pose proof (s_write_fifo linked data dl) as H. destruct (s_write linked data dl) as [r x].
      destruct H as (H1 & H2). destruct e; cbn; rewrite ?app_nil_r; done.
  - destruct e'.
    + pose proof (s_ctrl_fifo linked cmd num dr dl) as H. destruct (s_ctrl linked cmd num dr dl) as [r x].
      destruct H as (H1 & H2). destruct e; cbn in *; rewrite ?app_nil_r; done.
    + pose proof (s_ctrl_fifo linked cmd num dl dr) as H. destruct (s_ctrl linked cmd num dl dr) as [r x].
      destruct H as (H1 & H2). destruct e; cbn in *; rewrite ?app_nil_r; done.
  - destruct e', e; cbn; by rewrite app_nil_r.
Qed.

Lemma s_calls_fifo e cs d :
  forallb keeps_link cs = true ->
  let rs := (s_calls cs d).1 in let d' := (s_calls cs d).2 in
  l_queue (e_out (end_of e d)) ++ accepted e cs rs = received (negb e) cs rs ++ l_queue (e_out (end_of e d')) /\
  l_cap (e_out (end_of e d')) = l_cap (e_out (end_of e d)) /\ d_linked d' = d_linked d.
Proof.
  revert d. induction cs as [| c cs IH]; intros d Hcs; [cbn; by rewrite app_nil_r |].
  cbn [forallb] in Hcs. apply andb_prop in Hcs as [Hc Hcs]. cbn [s_calls].
  destruct (s_call_fifo e c d Hc) as (H1 & H2 & H3). destruct (s_call c d) as [r d1]. cbn [fst snd] in *.
  destruct (IH d1 Hcs) as (I1 & I2 & I3). destruct (s_calls cs d1) as [rs d2]. cbn [fst snd] in *.
  split_and!; [| congruence | congruence]. cbn [accepted received] in *. rewrite !app_nil_r in H1.
  by rewrite app_assoc, H1, <- app_assoc, I1, app_assoc.
Qed.

(** [BIO_pending] reports the bytes in flight towards an end. *)
Lemma pending_near i j h0 near far h :
  i <> j -> repr i j h0 true near far h -> BIO_pending (Some i) h = Some (len (l_queue (e_out far)), h).
Proof.
  intros Hij Hr. assert (BIO_ctrl (Some i) BIO_CTRL_PENDING 0 h = Some (len (l_queue (e_out far)), h)) as E.
  { destruct Hr as (bi & bj & si & sj & -> & Hi & Hj & -> & -> & _).
    pose proof (half_ring _ _ _ Hj) as Hw. pose proof (queue_length _ Hw) as Hl. pose proof Hw as [_ ? _ ?].
    destruct (linked_init _ _ _ Hi) as (_ & Epi & Epe & _). pose proof (half_ptr _ _ _ Hj) as Epj.
    unfold BIO_ctrl. rewrite (bind_eq _ _ _ _ _ (entry_near i j h0 ctrl _ _ _ _ Hi)). cbn [ctrl mbind option_bind].
    steps. rewrite (no_callback _ _ _ Hi). steps. erewrite bind_eq.
    2: { unfold bio_ctrl. steps.
         repeat match goal with |- context [BIO_CTRL_PENDING =? ?x] =>
           let v := eval vm_compute in (BIO_CTRL_PENDING =? x) in change (BIO_CTRL_PENDING =? x) with v end.
         cbv iota. rewrite Epe. steps. reflexivity. }
    steps. rewrite (no_callback _ _ _ Hi). cbn. by rewrite Hl, to_long_id by lia. }
  unfold BIO_pending. erewrite bind_eq by exact E. pose proof (len_nonneg (l_queue (e_out far))).
  rewrite bind_assert by (apply Z.geb_le; lia). by rewrite (proj2 (Z.ltb_ge _ _)) by lia.
Qed.

(** * Properties *)

(** Creating a BIO pair is all or nothing.  If every allocation succeeds the result is
    two new, distinct, connected objects with empty buffers of the requested sizes (17 KiB by
    default) and nothing else in the store changes; if any allocation fails the result is
    NULL and the store is exactly as before, both halves freed. *)
Theorem bio_pair_create alloc alloc_ok junk n1 n2 h :
  malloc_blocks junk -> 0 <= n1 < 2 ^ 63 -> 0 <= n2 < 2 ^ 63 ->
  if all_ok alloc && alloc_ok (capacity n1) && alloc_ok (capacity n2) then
    exists i j h', BIO_new_bio_pair alloc alloc_ok junk n1 n2 h = Some (Some (i, j), h') /\
      i <> j /\ h !! i = None /\ h !! j = None /\
      represents i j h (mk_duplex (fresh_end (capacity n1)) (fresh_end (capacity n2)) true) h'
  else BIO_new_bio_pair alloc alloc_ok junk n1 n2 h = Some (None, h).
Proof. apply new_pair_spec. Qed.

Definition zero_junk (n : Z) : bytes := replicate (Z.to_nat n) 0.

Lemma zero_junk_blocks : malloc_blocks zero_junk.
Proof. intros n Hn. unfold zero_junk, len. rewrite length_replicate. lia. Qed.

Lemma bio_pair_create_witness :
  (exists i j h', BIO_new_bio_pair (true, true, true, true) (fun _ => true) zero_junk 4 0 ∅ = Some (Some (i, j), h') /\
     represents i j ∅ (mk_duplex (fresh_end 4) (fresh_end (17 * 1024)) true) h') /\
  BIO_new_bio_pair (true, true, true, true) (fun n => n <? 100) zero_junk 4 0 ∅ = Some (None, ∅).
Proof.
  split.
  - destruct (bio_pair_create (true, true, true, true) (fun _ => true) zero_junk 4 0 ∅ zero_junk_blocks ltac:(lia) ltac:(lia))
      as (i & j & h' & E & _ & _ & _ & Hr). by exists i, j, h'.
  - exact (bio_pair_create (true, true, true, true) (fun n => n <? 100) zero_junk 4 0 ∅ zero_junk_blocks ltac:(lia) ltac:(lia)).
Defined.

(** C7: a BIO pair is two pipes.  On a connected pair, any sequence of reads, writes, control
    calls and flag queries at either end, and of [BIO_destroy_bio_pair], runs without failing
    an assertion, touches no other object, and returns exactly what two bounded queues
    return: writes accept what fits and ask to retry when the queue is full, reads take from
    the front and ask to retry, recording the request, when it is empty, reads return 0 after
    the writer's shutdown, all transfers return -2 once the pair is destroyed. *)
Theorem bio_pair_refines_pipes i j h0 d h cs :
  i <> j -> represents i j h0 d h -> Forall call_ok cs ->
  exists h', do_calls i j cs h = Some ((s_calls cs d).1, h') /\ represents i j h0 (s_calls cs d).2 h'.
Proof. apply pair_calls. Qed.

(** A conversation over a ring of four bytes, which wraps around. *)
Definition sample_calls : list bio_call :=
  [Read true 3; Ctrl false BIO_C_GET_READ_REQUEST 0; Write false [1; 2; 3]; Read true 2; Write false [4; 5; 6; 7];
   Write false [8]; RetryFlags false; Read true 10; Ctrl false BIO_C_SHUTDOWN_WR 0; Read true 1].

Lemma bio_pair_refines_pipes_witness :
  exists i j h h',
    do_calls i j sample_calls h =
    Some ([(-1, []); (3, []); (3, []); (2, [1; 2]); (3, []); (-1, []); (10, []); (4, [3; 4; 5; 6]); (1, []); (0, [])], h').
Proof.
  destruct (new_pair_spec (true, true, true, true) (fun _ => true) zero_junk 4 0 ∅ zero_junk_blocks ltac:(lia) ltac:(lia))
    as (i & j & h & _ & Hij & _ & _ & Hr).
  destruct (bio_pair_refines_pipes i j ∅ _ h sample_calls Hij Hr) as (h' & E & _).
  - repeat apply Forall_cons_2; try apply Forall_nil_2; cbn; unfold INT_MIN, INT_MAX; done || lia.
  - exists i, j, h, h'. rewrite E. vm_compute. reflexivity.
Defined.

(** C39: what is written at one end comes out at the other, in order, without loss or
    duplication.  From a new pair, after any sequence of calls at both ends that does not
    destroy it, the bytes accepted at an end are the bytes received at the other followed by
    the bytes in flight, which fit the buffer and whose number is what [BIO_pending] reports
    at the receiving end. *)
Theorem bio_pair_fifo alloc_ok junk n1 n2 h cs e i j h1 :
  malloc_blocks junk -> 0 <= n1 < 2 ^ 63 -> 0 <= n2 < 2 ^ 63 ->
  BIO_new_bio_pair (true, true, true, true) alloc_ok junk n1 n2 h = Some (Some (i, j), h1) ->
  Forall call_ok cs -> forallb keeps_link cs = true ->
  exists rs h2 in_flight,
    do_calls i j cs h1 = Some (rs, h2) /\
    accepted e cs rs = received (negb e) cs rs ++ in_flight /\
    len in_flight <= capacity (if e then n2 else n1) /\
    BIO_pending (Some (if e then i else j)) h2 = Some (len in_flight, h2).
Proof.
  intros Hj H1 H2 Hnew Hcs Hk.
  pose proof (new_pair_spec (true, true, true, true) alloc_ok junk n1 n2 h Hj H1 H2) as Hs. cbn [all_ok andb] in Hs.
  destruct (alloc_ok (capacity n1) && alloc_ok (capacity n2)); [| congruence].
  destruct Hs as (i' & j' & h' & E & Hij & _ & _ & Hr). rewrite E in Hnew. injection Hnew as -> -> ->.
  destruct (pair_calls i j h cs _ h1 Hij Hr Hcs) as (h2 & E2 & Hr2).
  destruct (s_calls_fifo e cs (mk_duplex (fresh_end (capacity n1)) (fresh_end (capacity n2)) true) Hk) as (F1 & F2 & F3).
  set (d2 := (s_calls cs _).2) in *. set (rs := (s_calls cs _).1) in *.
  exists rs, h2, (l_queue (e_out (end_of e d2))). unfold represents in Hr2. rewrite F3 in Hr2. cbn [d_linked] in Hr2.
  split_and!; [done | by destruct e; cbn in F1 | |].
  - destruct Hr2 as (bi & bj & si & sj & _ & Hi & Hj' & El & Er & _).
    assert (forall b o s, half b o s -> len (queue s) <= b_size s) as Hlen.
    { intros b o s [_ _ _ _ _ Hw _]. rewrite (queue_length s Hw). destruct Hw; lia. }
    destruct e; cbn [end_of d_left d_right fresh_end e_out l_cap] in *.
    + rewrite <- F2, Er. cbn. by eapply Hlen.
    + rewrite <- F2, El. cbn. by eapply Hlen.
  - destruct e; cbn [end_of]; [by eapply pending_near |].
    eapply pending_near; [| by eapply repr_swap]. done.
Qed.

Lemma bio_pair_fifo_witness :
  exists i j h1 rs h2 in_flight,
    BIO_new_bio_pair (true, true, true, true) (fun _ => true) zero_junk 4 0 ∅ = Some (Some (i, j), h1) /\
    do_calls i j sample_calls h1 = Some (rs, h2) /\
    accepted false sample_calls rs = received true sample_calls rs ++ in_flight.
Proof.
  destruct (new_pair_spec (true, true, true, true) (fun _ => true) zero_junk 4 0 ∅ zero_junk_blocks ltac:(lia) ltac:(lia))
    as (i & j & h1 & E & _).
  destruct (bio_pair_fifo (fun _ => true) zero_junk 4 0 ∅ sample_calls false i j h1 zero_junk_blocks ltac:(lia) ltac:(lia) E)
    as (rs & h2 & in_flight & E2 & Hf & _).
  - repeat apply Forall_cons_2; try apply Forall_nil_2; cbn; unfold INT_MIN, INT_MAX; done || lia.
  - reflexivity.
  - by exists i, j, h1, rs, h2, in_flight.
Defined.

End Bio.
