(* ===== verification/BnWords.v ===== *)
(** Word arrays (crypto/fipsmodule/bn/generic.c, cmp.c, shift.c, bytes.c, bn.c): the little-endian
    arrays of 64-bit words the bignum layer computes with, and their value.  The functions are
    those compiled without assembly, [BN_ULONG] being 64 bits wide. *)

From S2P Require Import Prelude Internal.

Module BnWords.
Import Internal.

Abbreviation words := (list Z).

(** * Addition and subtraction (generic.c) *)

(** The first loop takes four words at a time, the second one. *)
Fixpoint add_words_loop (a b : words) (carry : Z) : words * Z :=
  match a, b with
  | a0 :: a1 :: a2 :: a3 :: a, b0 :: b1 :: b2 :: b3 :: b =>
      let '(r0, carry) := CRYPTO_addc_u64 a0 b0 carry in
      let '(r1, carry) := CRYPTO_addc_u64 a1 b1 carry in
      let '(r2, carry) := CRYPTO_addc_u64 a2 b2 carry in
      let '(r3, carry) := CRYPTO_addc_u64 a3 b3 carry in
      let '(r, carry) := add_words_loop a b carry in
      (r0 :: r1 :: r2 :: r3 :: r, carry)
  | a0 :: a, b0 :: b =>
      let '(r0, carry) := CRYPTO_addc_u64 a0 b0 carry in
      let '(r, carry) := add_words_loop a b carry in
      (r0 :: r, carry)
  | _, _ => ([], carry)
  end.

Definition bn_add_words (a b : words) : words * Z := add_words_loop a b 0.

Fixpoint sub_words_loop (a b : words) (borrow : Z) : words * Z :=
  match a, b with
  | a0 :: a1 :: a2 :: a3 :: a, b0 :: b1 :: b2 :: b3 :: b =>
      let '(r0, borrow) := CRYPTO_subc_u64 a0 b0 borrow in
      let '(r1, borrow) := CRYPTO_subc_u64 a1 b1 borrow in
      let '(r2, borrow) := CRYPTO_subc_u64 a2 b2 borrow in
      let '(r3, borrow) := CRYPTO_subc_u64 a3 b3 borrow in
      let '(r, borrow) := sub_words_loop a b borrow in
      (r0 :: r1 :: r2 :: r3 :: r, borrow)
  | a0 :: a, b0 :: b =>
      let '(r0, borrow) := CRYPTO_subc_u64 a0 b0 borrow in
      let '(r, borrow) := sub_words_loop a b borrow in
      (r0 :: r, borrow)
  | _, _ => ([], borrow)
  end.

Definition bn_sub_words (a b : words) : words * Z := sub_words_loop a b 0.

(** Carrying on through the words the other operand does not have (add.c). *)
Fixpoint carry_loop (a : words) (carry : Z) : words * Z :=
  match a with
  | [] => ([], carry)
  | a0 :: a =>
      let '(r0, carry) := CRYPTO_addc_u64 a0 0 carry in
      let '(r, carry) := carry_loop a carry in
      (r0 :: r, carry)
  end.

Fixpoint borrow_loop (a : words) (borrow : Z) : words * Z :=
  match a with
  | [] => ([], borrow)
  | a0 :: a =>
      let '(r0, borrow) := CRYPTO_subc_u64 a0 0 borrow in
      let '(r, borrow) := borrow_loop a borrow in
      (r0 :: r, borrow)
  end.

(** * Comparison (cmp.c) *)

Definition or_words (a : words) : Z := foldl Z.lor 0 a.

Definition bn_cmp_words_consttime (a b : words) : Z :=
  let ret :=
    foldl (fun ret '(ai, bi) =>
             let eq := constant_time_eq_w ai bi in
             let lt := constant_time_lt_w ai bi in
             constant_time_select_int eq ret (constant_time_select_int lt (-1) 1))
      0 (zip a b) in
  if (length a <? length b)%nat then
    constant_time_select_int (constant_time_is_zero_w (or_words (drop (length a) b))) ret (-1)
  else if (length b <? length a)%nat then
    constant_time_select_int (constant_time_is_zero_w (or_words (drop (length b) a))) ret 1
  else ret.

Definition bn_less_than_words (a b : words) : bool := bn_cmp_words_consttime a b <? 0.

(** * Selection and widths (bn.c) *)

Definition bn_select_words (mask : Z) (a b : words) : words :=
  zip_with (fun ai bi => constant_time_select_w mask ai bi) a b.

(** [while (ret > 0 && d[ret - 1] == 0) ret--;] *)
Fixpoint minimal_width_loop (d : words) (ret : nat) : nat :=
  match ret with
  | O => O
  | S prev => if d !!! prev =? 0 then minimal_width_loop d prev else S prev
  end.

(** * Values *)

Fixpoint value (a : words) : Z :=
  match a with [] => 0 | w :: a => w + 2 ^ 64 * value a end.

Definition words_ok (a : words) : Prop := Forall (fits 64) a.

Lemma words_ok_cons w a : words_ok (w :: a) <-> fits 64 w /\ words_ok a.
Proof. apply Forall_cons_iff. Qed.

Lemma words_ok_app a b : words_ok (a ++ b) <-> words_ok a /\ words_ok b.
Proof. apply Forall_app. Qed.

Lemma words_ok_take n a : words_ok a -> words_ok (take n a).
Proof. apply Forall_take. Qed.

Lemma words_ok_drop n a : words_ok a -> words_ok (drop n a).
Proof. apply Forall_drop. Qed.

Lemma words_ok_zeros n : words_ok (replicate n 0).
Proof. apply Forall_replicate. unfold fits. lia. Qed.

Lemma words_ok_lookup a i w : words_ok a -> a !! i = Some w -> fits 64 w.
Proof. intros Ha Hi. by eapply Forall_lookup_1. Qed.

Lemma value_app a b : value (a ++ b) = value a + 2 ^ (64 * Z.of_nat (length a)) * value b.
Proof.
  induction a as [| w a IH]; cbn [value app length]; [rewrite Z.mul_0_r, Z.pow_0_r; lia |].
  rewrite IH. replace (64 * Z.of_nat (S (length a))) with (64 + 64 * Z.of_nat (length a)) by lia.
  rewrite Z.pow_add_r by lia. lia.
Qed.

Lemma value_nonneg a : words_ok a -> 0 <= value a.
Proof. intros H. induction H as [| w a [Hw _] Ha IH]; cbn [value]; lia. Qed.

Lemma value_bound a : words_ok a -> value a < 2 ^ (64 * Z.of_nat (length a)).
Proof.
  intros H. induction H as [| w a [Hw Hw'] Ha IH]; cbn [value length]; [rewrite Z.mul_0_r; cbn; lia |].
  replace (64 * Z.of_nat (S (length a))) with (64 + 64 * Z.of_nat (length a)) by lia.
  rewrite Z.pow_add_r by lia. nia.
Qed.

Lemma value_zeros n : value (replicate n 0) = 0.
Proof. induction n as [| n IH]; cbn [value replicate]; lia. Qed.

Lemma value_zero a : words_ok a -> value a = 0 <-> Forall (fun w => w = 0) a.
Proof.
  intros H. induction H as [| w a [Hw _] Ha IH]; cbn [value]; [by split |].
  pose proof (value_nonneg a Ha). rewrite Forall_cons_iff, <- IH. lia.
Qed.

#[export] Hint Resolve words_ok_take words_ok_drop words_ok_zeros : word_db.

(** * Carries *)

Lemma addc_spec x y c :
  fits 64 x -> fits 64 y -> 0 <= c <= 1 ->
  let '(r, c') := CRYPTO_addc_u64 x y c in r + 2 ^ 64 * c' = x + y + c /\ fits 64 r /\ 0 <= c' <= 1.
Proof.
  intros [Hx Hx'] [Hy Hy'] Hc. unfold CRYPTO_addc_u64, wrap, fits.
  assert (forall z, 0 <= z < 2 * 2 ^ 64 -> z mod 2 ^ 64 = if z <? 2 ^ 64 then z else z - 2 ^ 64) as Hm.
  { intros z Hz. destruct (Z.ltb_spec z (2 ^ 64)); [apply Z.mod_small; lia |]. symmetry. apply (Z.mod_unique_pos z (2 ^ 64) 1); lia. }
  rewrite (Hm (x + c)) by lia. destruct (Z.ltb_spec (x + c) (2 ^ 64)).
  - rewrite (Hm (x + c + y)) by lia. destruct (Z.ltb_spec (x + c) c); [lia |].
    destruct (Z.ltb_spec (x + c + y) (2 ^ 64)).
    + destruct (Z.ltb_spec (x + c + y) (x + c)); cbn; lia.
    + destruct (Z.ltb_spec (x + c + y - 2 ^ 64) (x + c)); cbn; lia.
  - rewrite (Hm (x + c - 2 ^ 64 + y)) by lia. destruct (Z.ltb_spec (x + c - 2 ^ 64) c); [| lia].
    destruct (Z.ltb_spec (x + c - 2 ^ 64 + y) (2 ^ 64)); [| lia].
    destruct (Z.ltb_spec (x + c - 2 ^ 64 + y) (x + c - 2 ^ 64)); cbn; lia.
Qed.

Lemma subc_spec x y b :
  fits 64 x -> fits 64 y -> 0 <= b <= 1 ->
  let '(r, b') := CRYPTO_subc_u64 x y b in r - 2 ^ 64 * b' = x - y - b /\ fits 64 r /\ 0 <= b' <= 1.
Proof.
  intros [Hx Hx'] [Hy Hy'] Hb. unfold CRYPTO_subc_u64, wrap, fits.
  assert (forall z, - 2 ^ 64 <= z < 2 ^ 64 -> z mod 2 ^ 64 = if z <? 0 then z + 2 ^ 64 else z) as Hm.
  { intros z Hz. destruct (Z.ltb_spec z 0); [| apply Z.mod_small; lia]. symmetry. apply (Z.mod_unique_pos z (2 ^ 64) (-1)); lia. }
  rewrite (Hm (x - y - b)) by lia. assert (b = 0 \/ b = 1) as [-> | ->] by lia;
    destruct (Z.ltb_spec x y), (Z.eqb_spec x y), (Z.ltb_spec (x - y - 0) 0), (Z.ltb_spec (x - y - 1) 0);
    cbn [Z.b2z]; change (Z.land 1 1) with 1; rewrite ?Z.land_0_r, ?Z.land_0_l, ?Z.lor_0_r, ?Z.lor_0_l;
    change (Z.lor 1 1) with 1; lia.
Qed.

(** The word-by-word loops the unrolled ones amount to. *)
Fixpoint add_each (a b : words) (carry : Z) : words * Z :=
  match a, b with
  | a0 :: a, b0 :: b =>
      let '(r0, carry) := CRYPTO_addc_u64 a0 b0 carry in
      let '(r, carry) := add_each a b carry in (r0 :: r, carry)
  | _, _ => ([], carry)
  end.

Fixpoint sub_each (a b : words) (borrow : Z) : words * Z :=
  match a, b with
  | a0 :: a, b0 :: b =>
      let '(r0, borrow) := CRYPTO_subc_u64 a0 b0 borrow in
      let '(r, borrow) := sub_each a b borrow in (r0 :: r, borrow)
  | _, _ => ([], borrow)
  end.

Lemma add_words_each n a b c : (length a <= n)%nat -> add_words_loop a b c = add_each a b c.
Proof.
  revert a b c. induction n as [| n IH]; intros a b c Hn; [by destruct a; [| cbn in Hn; lia] |].
  destruct a as [| a0 [| a1 [| a2 [| a3 a]]]], b as [| b0 [| b1 [| b2 [| b3 b]]]]; try done;
    cbn in Hn; cbn [add_words_loop add_each];
    repeat match goal with |- context [CRYPTO_addc_u64 ?x ?y ?c] => is_var c; destruct (CRYPTO_addc_u64 x y c) end;
    first [done | by destruct a as [| ? [| ? [| ? a]]] | rewrite (IH a b) by lia; match goal with |- context [add_each a b ?c] => by destruct (add_each a b c) end].
Qed.

Lemma sub_words_each n a b c : (length a <= n)%nat -> sub_words_loop a b c = sub_each a b c.
Proof.
  revert a b c. induction n as [| n IH]; intros a b c Hn; [by destruct a; [| cbn in Hn; lia] |].
  destruct a as [| a0 [| a1 [| a2 [| a3 a]]]], b as [| b0 [| b1 [| b2 [| b3 b]]]]; try done;
    cbn in Hn; cbn [sub_words_loop sub_each];
    repeat match goal with |- context [CRYPTO_subc_u64 ?x ?y ?c] => is_var c; destruct (CRYPTO_subc_u64 x y c) end;
    first [done | by destruct a as [| ? [| ? [| ? a]]] | rewrite (IH a b) by lia; match goal with |- context [sub_each a b ?c] => by destruct (sub_each a b c) end].
Qed.

(** Addition of two numbers of as many words. *)
Lemma add_each_spec a b c :
  length a = length b -> words_ok a -> words_ok b -> 0 <= c <= 1 ->
  let '(r, c') := add_each a b c in
  value r + 2 ^ (64 * Z.of_nat (length a)) * c' = value a + value b + c /\
  length r = length a /\ words_ok r /\ 0 <= c' <= 1.
Proof.
  revert b c. induction a as [| x a IH]; intros [| y b] c Hl Ha Hb Hc; try done;
    cbn [add_each value length].
  { rewrite Z.mul_0_r, Z.pow_0_r. split_and!; (done || lia). }
  apply words_ok_cons in Ha as [Hx Ha], Hb as [Hy Hb]. injection Hl as Hl.
  pose proof (addc_spec x y c Hx Hy Hc) as H. destruct (CRYPTO_addc_u64 x y c) as [r0 c0]. destruct H as (E0 & Hr0 & Hc0).
  pose proof (IH b c0 Hl Ha Hb Hc0) as H. destruct (add_each a b c0) as [r c1]. destruct H as (E1 & Hlr & Hr & Hc1).
  cbn [value length]. split_and!; [| lia | by apply words_ok_cons | lia | lia].
  replace (64 * Z.of_nat (S (length a))) with (64 + 64 * Z.of_nat (length a)) by lia.
  rewrite Z.pow_add_r by lia. lia.
Qed.

Lemma sub_each_spec a b c :
  length a = length b -> words_ok a -> words_ok b -> 0 <= c <= 1 ->
  let '(r, c') := sub_each a b c in
  value r - 2 ^ (64 * Z.of_nat (length a)) * c' = value a - value b - c /\
  length r = length a /\ words_ok r /\ 0 <= c' <= 1.
Proof.
  revert b c. induction a as [| x a IH]; intros [| y b] c Hl Ha Hb Hc; try done;
    cbn [sub_each value length].
  { rewrite Z.mul_0_r, Z.pow_0_r. split_and!; (done || lia). }
  apply words_ok_cons in Ha as [Hx Ha], Hb as [Hy Hb]. injection Hl as Hl.
  pose proof (subc_spec x y c Hx Hy Hc) as H. destruct (CRYPTO_subc_u64 x y c) as [r0 c0]. destruct H as (E0 & Hr0 & Hc0).
  pose proof (IH b c0 Hl Ha Hb Hc0) as H. destruct (sub_each a b c0) as [r c1]. destruct H as (E1 & Hlr & Hr & Hc1).
  cbn [value length]. split_and!; [| lia | by apply words_ok_cons | lia | lia].
  replace (64 * Z.of_nat (S (length a))) with (64 + 64 * Z.of_nat (length a)) by lia.
  rewrite Z.pow_add_r by lia. lia.
Qed.

(** Carrying through zeros is adding them. *)
Lemma carry_loop_each a c : carry_loop a c = add_each a (replicate (length a) 0) c.
Proof. revert c. induction a as [| x a IH]; intros c; cbn [carry_loop add_each replicate length]; [done |]. case_match. by rewrite IH. Qed.

Lemma borrow_loop_each a c : borrow_loop a c = sub_each a (replicate (length a) 0) c.
Proof. revert c. induction a as [| x a IH]; intros c; cbn [borrow_loop sub_each replicate length]; [done |]. case_match. by rewrite IH. Qed.

Lemma add_each_app a1 a2 b1 b2 c :
  length a1 = length b1 ->
  add_each (a1 ++ a2) (b1 ++ b2) c =
  let '(r1, c) := add_each a1 b1 c in let '(r2, c) := add_each a2 b2 c in (r1 ++ r2, c).
Proof.
  revert b1 c. induction a1 as [| x a1 IH]; intros [| y b1] c Hl; try done; cbn [add_each app].
  - by destruct (add_each a2 b2 c).
  - destruct (CRYPTO_addc_u64 x y c) as [r0 c0]. rewrite IH by (by injection Hl).
    destruct (add_each a1 b1 c0) as [r1 c1]. by destruct (add_each a2 b2 c1).
Qed.

Lemma sub_each_app a1 a2 b1 b2 c :
  length a1 = length b1 ->
  sub_each (a1 ++ a2) (b1 ++ b2) c =
  let '(r1, c) := sub_each a1 b1 c in let '(r2, c) := sub_each a2 b2 c in (r1 ++ r2, c).
Proof.
  revert b1 c. induction a1 as [| x a1 IH]; intros [| y b1] c Hl; try done; cbn [sub_each app].
  - by destruct (sub_each a2 b2 c).
  - destruct (CRYPTO_subc_u64 x y c) as [r0 c0]. rewrite IH by (by injection Hl).
    destruct (sub_each a1 b1 c0) as [r1 c1]. by destruct (sub_each a2 b2 c1).
Qed.

(** * Comparison *)

Lemma or_words_zero acc a :
  fits 64 acc -> words_ok a -> fits 64 (foldl Z.lor acc a) /\ (foldl Z.lor acc a = 0 <-> acc = 0 /\ value a = 0).
Proof.
  intros Hacc Ha. revert acc Hacc. induction Ha as [| w a Hw Ha IH]; intros acc Hacc; cbn [foldl value]; [by split; [| lia] |].
  destruct (IH (Z.lor acc w)) as [H1 H2]; [apply fits_lor; (done || lia) |]. split; [done |].
  rewrite H2, Z.lor_eq_0_iff. pose proof (value_nonneg a Ha). destruct Hw. lia.
Qed.

(** The sign of a comparison. *)
Definition sign (c : comparison) : Z := match c with Lt => -1 | Eq => 0 | Gt => 1 end.

Lemma cmp_loop_spec a b ret acc :
  length a = length b -> words_ok a -> words_ok b -> ret = sign acc ->
  foldl (fun ret '(ai, bi) =>
           let eq := constant_time_eq_w ai bi in
           let lt := constant_time_lt_w ai bi in
           constant_time_select_int eq ret (constant_time_select_int lt (-1) 1)) ret (zip a b) =
  sign (if value a =? value b then acc else (value a ?= value b)).
Proof.
  revert b ret acc. induction a as [| x a IH]; intros [| y b] ret acc Hl Ha Hb Hr; try done.
  apply words_ok_cons in Ha as [Hx Ha], Hb as [Hy Hb]. injection Hl as Hl. cbn [zip zip_with foldl value].
  rewrite eq_w_mask, lt_w_mask by done. rewrite (select_int_mask _ (-1) 1) by lia.
  rewrite select_int_mask by (subst ret; destruct acc, (x <? y); cbn; lia).
  rewrite (IH b _ (if x =? y then acc else x ?= y)) by
    (done || (subst ret; destruct (Z.eqb_spec x y), (Z.compare_spec x y), (Z.ltb_spec x y); (done || lia))).
  destruct Hx, Hy. f_equal.
  destruct (Z.eqb_spec (value a) (value b)) as [E | E].
  - rewrite E. destruct (Z.eqb_spec x y) as [-> | Hne]; [by rewrite Z.eqb_refl |].
    rewrite (proj2 (Z.eqb_neq _ _)) by lia. symmetry. rewrite !(Z.add_comm _ (2 ^ 64 * value b)). apply Z.add_compare_mono_l.
  - rewrite (proj2 (Z.eqb_neq _ _)) by lia. destruct (Z.compare_spec (value a) (value b));
      [lia | symmetry; apply Z.compare_lt_iff; nia | symmetry; apply Z.compare_gt_iff; nia].
Qed.

Lemma zip_take_r {A B} (a : list A) (b : list B) : zip a b = zip a (take (length a) b).
Proof. revert b. induction a as [| x a IH]; intros [| y b]; cbn; [done | done | done |]. f_equal. apply IH. Qed.

Lemma zip_take_l {A B} (a : list A) (b : list B) : zip a b = zip (take (length b) a) b.
Proof. revert b. induction a as [| x a IH]; intros [| y b]; cbn; [done | done | done |]. f_equal. apply IH. Qed.

(** A number against the value [hi] of the words it does not have. *)
Lemma high_words (a b : words) : words_ok b -> (length a <= length b)%nat ->
  value b = value (take (length a) b) + 2 ^ (64 * Z.of_nat (length a)) * value (drop (length a) b).
Proof.
  intros Hb Hl. rewrite <- (take_drop (length a) b) at 1. rewrite value_app, length_take.
  by replace (length a `min` length b)%nat with (length a) by lia.
Qed.

Lemma is_zero_or_words l : words_ok l -> constant_time_is_zero_w (or_words l) = mask (value l =? 0).
Proof.
  intros Hl. unfold or_words. destruct (or_words_zero 0 l ltac:(unfold fits; lia) Hl) as [Hf Hiff].
  rewrite is_zero_w_mask by done. f_equal. apply eq_true_iff_eq. rewrite !Z.eqb_eq. tauto.
Qed.

Lemma sign_range c : -(2 ^ 31) <= sign c < 2 ^ 31.
Proof. destruct c; cbn; lia. Qed.

Lemma cmp_equal_length a b :
  words_ok a -> words_ok b -> length a = length b ->
  foldl (fun ret '(ai, bi) =>
           let eq := constant_time_eq_w ai bi in
           let lt := constant_time_lt_w ai bi in
           constant_time_select_int eq ret (constant_time_select_int lt (-1) 1)) 0 (zip a b) = sign (value a ?= value b).
Proof.
  intros Ha Hb Hl. rewrite (cmp_loop_spec a b 0 Eq) by done.
  destruct (Z.eqb_spec (value a) (value b)) as [-> |]; [by rewrite Z.compare_refl | done].
Qed.

Lemma cmp_words_spec a b :
  words_ok a -> words_ok b -> bn_cmp_words_consttime a b = sign (value a ?= value b).
Proof.
  intros Ha Hb. unfold bn_cmp_words_consttime. cbv zeta.
  destruct (Nat.ltb_spec (length a) (length b)) as [Hlt |]; [| destruct (Nat.ltb_spec (length b) (length a)) as [Hlt |]].
  - rewrite zip_take_r, cmp_equal_length, is_zero_or_words by (auto with word_db || rewrite length_take; lia).
    rewrite select_int_mask by (apply sign_range || lia). pose proof (high_words a b Hb ltac:(lia)) as Hh.
    pose proof (value_nonneg _ (words_ok_drop (length a) b Hb)). pose proof (value_bound a Ha).
    pose proof (value_nonneg _ (words_ok_take (length a) b Hb)).
    destruct (Z.eqb_spec (value (drop (length a) b)) 0) as [E | E]; [f_equal; f_equal; lia |].
    symmetry. rewrite (proj2 (Z.compare_lt_iff _ _)); [done | nia].
  - rewrite zip_take_l, cmp_equal_length, is_zero_or_words by (auto with word_db || rewrite length_take; lia).
    rewrite select_int_mask by (apply sign_range || lia). pose proof (high_words b a Ha ltac:(lia)) as Hh.
    pose proof (value_nonneg _ (words_ok_drop (length b) a Ha)). pose proof (value_bound b Hb).
    pose proof (value_nonneg _ (words_ok_take (length b) a Ha)).
    destruct (Z.eqb_spec (value (drop (length b) a)) 0) as [E | E]; [f_equal; f_equal; lia |].
    symmetry. rewrite (proj2 (Z.compare_gt_iff _ _)); [done | nia].
  - apply cmp_equal_length; (done || lia).
Qed.

(** * Minimal widths *)

(** The loop drops the leading zero words. *)
Lemma minimal_width_spec d n :
  (n <= length d)%nat ->
  let m := minimal_width_loop d n in
  (m <= n)%nat /\ value (take m d) = value (take n d) /\ (m = O \/ d !!! (m - 1)%nat <> 0).
Proof.
  induction n as [| n IH]; intros Hn; cbn [minimal_width_loop]; [by split_and!; [| | left] |].
  destruct (Z.eqb_spec (d !!! n) 0) as [E | E].
  - destruct (IH ltac:(lia)) as (H1 & H2 & H3). split_and!; [lia | | done].
    rewrite H2, (take_S_r d n 0), value_app; [cbn; lia |]. rewrite <- E. apply list_lookup_lookup_total_lt. lia.
  - split_and!; [done | done | right]. by replace (S n - 1)%nat with n by lia.
Qed.

Lemma minimal_width_zero d n :
  words_ok d -> (n <= length d)%nat -> minimal_width_loop d n = O <-> value (take n d) = 0.
Proof.
  intros Hd Hn. destruct (minimal_width_spec d n Hn) as (H1 & H2 & H3). rewrite <- H2. split; [by intros -> |].
  intros Hv. destruct H3 as [H3 | H3]; [done |]. destruct (minimal_width_loop d n) as [| m] eqn:E; [done |].
  cbn in H3. rewrite Nat.sub_0_r in H3. apply value_zero in Hv; [| by apply words_ok_take].
  destruct H3. apply (Forall_lookup_1 (fun w => w = 0) _ m _ Hv). rewrite lookup_take_lt by lia.
  apply list_lookup_lookup_total_lt. lia.
Qed.
(** * Selection *)

Lemma select_words_mask (c : bool) x y :
  words_ok x -> words_ok y -> length x = length y -> bn_select_words (mask c) x y = if c then x else y.
Proof.
  intros Hx Hy Hl. apply (zip_with_select _ c (fits 64)); try done. intros. by apply select_w_mask.
Qed.

End BnWords.
