(* ===== verification/Bn.v ===== *)
(** BIGNUM (crypto/fipsmodule/bn/bn.c, add.c, cmp.c): sign and magnitude integers over word
    arrays.

    BIGNUMs live in a store, so that a result may be one of the operands, as the callers of
    these functions do.  [d] has [dmax] elements, the first [width] of which are the
    magnitude, least significant word first; an access outside of the array is undefined.
    A function that only reads its BIGNUMs is a function of their contents. *)

From S2P Require Import Prelude Internal Store BnWords.

Open Scope Z_scope.

Module Bn.
Import Internal BnWords.
Open Scope c_scope.

Record BIGNUM := mk_bn { d : words; width : nat; neg : bool; malloced : bool; static_data : bool }.

Abbreviation prog := (prog BIGNUM).

Definition set_d (ws : words) (bn : BIGNUM) : BIGNUM := mk_bn ws (width bn) (neg bn) (malloced bn) (static_data bn).
Definition set_width (n : nat) (bn : BIGNUM) : BIGNUM := mk_bn (d bn) n (neg bn) (malloced bn) (static_data bn).
Definition set_neg (b : bool) (bn : BIGNUM) : BIGNUM := mk_bn (d bn) (width bn) b (malloced bn) (static_data bn).

(** The words of the number. *)
Definition limbs (bn : BIGNUM) : words := take (width bn) (d bn).

(** Reads [n] words of [bn->d] from index [off] on. *)
Definition read_words (i off n : nat) : prog words :=
  do bn <- r_load i;
  do_ r_assert (off + n <=? length (d bn))%nat;
  r_ret (take n (drop off (d bn))).

Definition overwrite (p : words) (off : nat) (ws : words) : words :=
  take off p ++ ws ++ drop (off + length ws) p.

(** Stores [ws] in [bn->d] from index [off] on. *)
Definition put_words (i off : nat) (ws : words) : prog unit :=
  do bn <- r_load i;
  do_ r_assert (off + length ws <=? length (d bn))%nat;
  r_modify i (fun bn => set_d (overwrite (d bn) off ws) bn).

Definition BN_MAX_WORDS : Z := (2 ^ 31 - 1) / (4 * 64).

(** * Reading functions (bn.c, cmp.c) *)

Definition bn_minimal_width (bn : BIGNUM) : nat := minimal_width_loop (d bn) (width bn).

(** [mask = 0u - x; mask = 0u - (mask >> 63)]: all ones if the half [x] is not zero. *)
Definition half_mask (x : Z) : Z := u64 (0 - Z.shiftr (u64 (0 - x)) 63).

(** One round of the bisection: the state is [l] and [bits]. *)
Definition num_bits_round (k : Z) (s : Z * Z) : Z * Z :=
  let '(l, bits) := s in
  let x := Z.shiftr l k in
  let mask := half_mask x in
  (Z.lxor l (Z.land (Z.lxor x l) mask), bits + Z.land k mask).

Definition BN_num_bits_word (l : Z) : Z :=
  let bits := Z.b2z (negb (l =? 0)) in
  let s := num_bits_round 2 (num_bits_round 4 (num_bits_round 8 (num_bits_round 16 (num_bits_round 32 (l, bits))))) in
  s.2 + Z.land 1 (half_mask (Z.shiftr s.1 1)).

Definition BN_num_bits (bn : BIGNUM) : Z :=
  match bn_minimal_width bn with
  | O => 0
  | S w => Z.of_nat w * 64 + BN_num_bits_word (d bn !!! w)
  end.

Definition BN_num_bytes (bn : BIGNUM) : Z := (BN_num_bits bn + 7) / 8.

Definition bn_fits_in_words (bn : BIGNUM) (num : nat) : bool := or_words (drop num (limbs bn)) =? 0.

Definition BN_is_zero (bn : BIGNUM) : bool := bn_fits_in_words bn 0.
Definition BN_is_negative (bn : BIGNUM) : bool := neg bn.

(** The [num] words of [out]. *)
Definition bn_copy_words (num : nat) (bn : BIGNUM) : option words :=
  if neg bn then None
  else if (num <? width bn)%nat && negb (bn_fits_in_words bn num) then None
  else
    let w := if (num <? width bn)%nat then num else width bn in
    Some (take w (d bn) ++ replicate (num - w) 0).

Definition BN_ucmp (a b : BIGNUM) : Z := bn_cmp_words_consttime (limbs a) (limbs b).

(** [None] is NULL. *)
Definition BN_cmp (a b : option BIGNUM) : Z :=
  match a, b with
  | Some _, None => -1
  | None, Some _ => 1
  | None, None => 0
  | Some a, Some b =>
      if negb (eqb (neg a) (neg b)) then if neg a then -1 else 1
      else let ret := BN_ucmp a b in if neg a then - ret else ret
  end.

Definition BN_abs_is_word (bn : BIGNUM) (w : Z) : bool :=
  match limbs bn with
  | [] => w =? 0
  | d0 :: rest => foldl Z.lor (Z.lxor d0 w) rest =? 0
  end.

Definition BN_cmp_word (a : BIGNUM) (b : Z) : Z :=
  BN_cmp (Some a) (Some (mk_bn [b] (if b >? 0 then 1 else 0) false false true)).

Definition BN_is_one (bn : BIGNUM) : bool := negb (neg bn) && BN_abs_is_word bn 1.
Definition BN_is_word (bn : BIGNUM) (w : Z) : bool := BN_abs_is_word bn w && ((w =? 0) || negb (neg bn)).
Definition BN_is_odd (bn : BIGNUM) : bool := (0 <? width bn)%nat && (Z.land (d bn !!! 0%nat) 1 =? 1).

Definition BN_is_pow2 (bn : BIGNUM) : bool :=
  match bn_minimal_width bn with
  | O => false
  | S w =>
      if neg bn then false
      else forallb (fun x => x =? 0) (take w (d bn)) && (Z.land (d bn !!! w) (u64 (d bn !!! w - 1)) =? 0)
  end.

(** [mask |= (a->neg ^ b->neg)] *)
Definition BN_equal_consttime (a b : BIGNUM) : bool :=
  let mask := foldl Z.lor 0 (drop (width a) (limbs b)) in
  let mask := foldl Z.lor mask (drop (width b) (limbs a)) in
  let mask := foldl (fun m '(x, y) => Z.lor m (Z.lxor x y)) mask (zip (limbs a) (limbs b)) in
  let mask := Z.lor mask (Z.b2z (xorb (neg a) (neg b))) in
  mask =? 0.

Definition BN_get_word (bn : BIGNUM) : Z :=
  match bn_minimal_width bn with O => 0 | 1%nat => d bn !!! 0%nat | _ => 2 ^ 64 - 1 end.

Definition BN_get_u64 (bn : BIGNUM) : option Z :=
  match bn_minimal_width bn with O => Some 0 | 1%nat => Some (d bn !!! 0%nat) | _ => None end.

(** * Writing functions (bn.c, add.c) *)

Section Ops.
(** The outcome of allocating an array of so many words. *)
Context (alloc_ok : nat -> bool).

Definition BN_new : BIGNUM := mk_bn [] 0 false true false.
Definition BN_init (bn : BIGNUM) : BIGNUM := mk_bn [] 0 false false false.

Definition BN_zero (i : nat) : prog unit := r_modify i (fun bn => set_neg false (set_width 0 bn)).

Definition BN_clear (i : nat) : prog unit :=
  r_modify i (fun bn => set_neg false (set_width 0 (set_d (replicate (length (d bn)) 0) bn))).

Definition bn_set_minimal_width (i : nat) : prog unit :=
  r_modify i (fun bn =>
    let bn := set_width (bn_minimal_width bn) bn in
    if (width bn =? 0)%nat then set_neg false bn else bn).

Definition bn_wexpand (i words : nat) : prog bool :=
  do bn <- r_load i;
  if (words <=? length (d bn))%nat then r_ret true
  else if Z.of_nat words >? BN_MAX_WORDS then r_ret false
  else if static_data bn then r_ret false
  else if negb (alloc_ok words) then r_ret false
  else
    do_ r_modify i (set_d (limbs bn ++ replicate (words - width bn) 0));
    r_ret true.

Definition bn_expand (i : nat) (bits : Z) : prog bool :=
  if u64 (bits + 63) <? bits then r_ret false else bn_wexpand i (Z.to_nat ((bits + 63) / 64)).

Definition BN_set_negative (i : nat) (sign : bool) : prog unit :=
  r_modify i (fun bn => set_neg (sign && negb (BN_is_zero bn)) bn).

Definition BN_set_word (i : nat) (v : Z) : prog bool :=
  if v =? 0 then do_ BN_zero i; r_ret true
  else
    do ok <- bn_wexpand i 1;
    if negb ok then r_ret false
    else
      do_ r_modify i (set_neg false);
      do_ put_words i 0 [v];
      do_ r_modify i (set_width 1);
      r_ret true.

Definition BN_one (i : nat) : prog bool := BN_set_word i 1.
Definition BN_set_u64 (i : nat) (v : Z) : prog bool := BN_set_word i v.

Definition bn_set_words (i : nat) (ws : words) : prog bool :=
  do ok <- bn_wexpand i (length ws);
  if negb ok then r_ret false
  else
    do_ put_words i 0 ws;
    do_ r_modify i (fun bn => set_neg false (set_width (length ws) bn));
    r_ret true.

Definition BN_copy (dest src : nat) : prog bool :=
  if (src =? dest)%nat then r_ret true
  else
    do s <- r_load src;
    do ok <- bn_wexpand dest (width s);
    if negb ok then r_ret false
    else
      do ws <- read_words src 0 (width s);
      do_ put_words dest 0 ws;
      do_ r_modify dest (fun bn => set_neg (neg s) (set_width (width s) bn));
      r_ret true.

Definition bn_resize_words (i words : nat) : prog bool :=
  do bn <- r_load i;
  if (width bn <=? words)%nat then
    do ok <- bn_wexpand i words;
    if negb ok then r_ret false
    else
      do_ put_words i (width bn) (replicate (words - width bn) 0);
      do_ r_modify i (set_width words);
      r_ret true
  else if negb (bn_fits_in_words bn words) then r_ret false
  else do_ r_modify i (set_width words); r_ret true.
End Ops.

(** * Values and well-formedness *)

Definition mag (bn : BIGNUM) : Z := value (limbs bn).
Definition val (bn : BIGNUM) : Z := if neg bn then - mag bn else mag bn.

Record wf (bn : BIGNUM) : Prop := mk_wf {
  wf_words : words_ok (d bn);
  wf_width : (width bn <= length (d bn))%nat;
  wf_dmax : Z.of_nat (length (d bn)) <= BN_MAX_WORDS }.

(** No leading zero words and no negative zero. *)
Definition canonical (bn : BIGNUM) : Prop :=
  (width bn = O \/ d bn !!! (width bn - 1)%nat <> 0) /\ (mag bn = 0 -> neg bn = false).

Lemma limbs_ok bn : wf bn -> words_ok (limbs bn).
Proof. intros [Hd _ _]. by apply words_ok_take. Qed.

Lemma length_limbs bn : wf bn -> length (limbs bn) = width bn.
Proof. intros [_ Hw _]. unfold limbs. rewrite length_take. lia. Qed.

Lemma mag_nonneg bn : wf bn -> 0 <= mag bn.
Proof. intros Hw. by apply value_nonneg, limbs_ok. Qed.

Lemma mag_bound bn : wf bn -> mag bn < 2 ^ (64 * Z.of_nat (width bn)).
Proof. intros Hw. rewrite <- (length_limbs bn) by done. by apply value_bound, limbs_ok. Qed.

#[export] Hint Resolve limbs_ok mag_nonneg : word_db.

Lemma fits_in_words_spec bn n :
  wf bn -> (n <= width bn)%nat -> bn_fits_in_words bn n = true <-> mag bn = value (take n (d bn)).
Proof.
  intros Hw Hn. unfold bn_fits_in_words, or_words.
  destruct (or_words_zero 0 (drop n (limbs bn))) as [_ H]; [unfold fits; lia | auto with word_db |].
  rewrite Z.eqb_eq, H. unfold mag. rewrite <- (take_drop n (limbs bn)) at 2. rewrite value_app.
  replace (take n (limbs bn)) with (take n (d bn)).
  2: { unfold limbs. rewrite take_take. f_equal. lia. }
  pose proof (value_nonneg (drop n (limbs bn)) ltac:(auto with word_db)).
  assert (0 < 2 ^ (64 * Z.of_nat (length (take n (d bn))))) by (apply Z.pow_pos_nonneg; lia). nia.
Qed.

Lemma is_zero_spec bn : wf bn -> BN_is_zero bn = true <-> mag bn = 0.
Proof. intros Hw. unfold BN_is_zero. rewrite fits_in_words_spec by (done || lia). by rewrite take_0. Qed.

(** * The store *)

(** [bn->d] of the object [a] holds [ws] from index [off] on. *)
Definition holds (h : gmap nat BIGNUM) (a off : nat) (ws : words) : Prop :=
  exists A, h !! a = Some A /\ take (length ws) (drop off (d A)) = ws /\ (off + length ws <= length (d A))%nat.

Lemma read_holds h a off n ws :
  holds h a off ws -> n = length ws -> read_words a off n h = Some (ws, h).
Proof.
  intros (A & Ha & Hw & Hl) ->. unfold read_words. erewrite bind_eq by (by apply load_eq).
  rewrite bind_assert by (by apply Nat.leb_le). by rewrite Hw.
Qed.

Lemma put_eq h r R off ws :
  h !! r = Some R -> (off + length ws <= length (d R))%nat ->
  put_words r off ws h = Some (tt, <[r := set_d (overwrite (d R) off ws) R]> h).
Proof.
  intros Hr Hl. unfold put_words. erewrite bind_eq by (by apply load_eq).
  rewrite bind_assert by (by apply Nat.leb_le). by rewrite (modify_eq r _ R h Hr).
Qed.

Lemma overwrite_app p ws x : overwrite (p ++ x) (length p) ws = p ++ ws ++ drop (length ws) x.
Proof. unfold overwrite. by rewrite take_app_length, drop_app_add. Qed.

Lemma length_overwrite p off ws : (off + length ws <= length p)%nat -> length (overwrite p off ws) = length p.
Proof. intros. unfold overwrite. rewrite !length_app, length_take, length_drop. lia. Qed.

(** Writing below [off] does not change what is read from [off] on. *)
Lemma holds_put h a off ws r R off' ws' :
  h !! r = Some R -> (off' + length ws' <= off)%nat -> holds h a off ws ->
  holds (<[r := set_d (overwrite (d R) off' ws') R]> h) a off ws.
Proof.
  intros Hr Ho (A & Ha & Hw & Hl). destruct (decide (a = r)) as [-> | Hne].
  - assert (A = R) as -> by congruence. eexists. split; [by rewrite lookup_insert_eq |]. cbn [d set_d].
    split; [| rewrite length_overwrite by lia; lia]. rewrite <- Hw at 2. f_equal.
    apply list_eq. intros k. rewrite !lookup_drop. unfold overwrite.
    rewrite lookup_app_r by (rewrite length_take; lia). rewrite lookup_app_r by (rewrite length_take; lia).
    rewrite lookup_drop, length_take. f_equal. lia.
  - exists A. by rewrite lookup_insert_ne by done.
Qed.

(** Changing the other fields does not change the words. *)
Lemma holds_modify h a off ws r R R' :
  h !! r = Some R -> d R' = d R -> holds h a off ws -> holds (<[r := R']> h) a off ws.
Proof.
  intros Hr Hd (A & Ha & Hw). destruct (decide (a = r)) as [-> | Hne].
  - assert (A = R) as -> by congruence. exists R'. rewrite lookup_insert_eq, Hd. done.
  - exists A. by rewrite lookup_insert_ne by done.
Qed.

Lemma holds_sub h a ws off n :
  holds h a 0 ws -> (off + n <= length ws)%nat -> holds h a off (take n (drop off ws)).
Proof.
  intros (A & Ha & Hw & Hl) Hn. exists A. rewrite length_take, length_drop.
  replace (n `min` (length ws - off))%nat with n by lia. rewrite drop_0 in Hw. split_and!; [done | | lia].
  rewrite !take_drop_commute. f_equal. transitivity (take (off + n) (take (length ws) (d A))); [rewrite take_take; f_equal; lia | by rewrite Hw].
Qed.

Definition minimized (bn : BIGNUM) : BIGNUM :=
  let bn := set_width (bn_minimal_width bn) bn in if (width bn =? 0)%nat then set_neg false bn else bn.

Lemma set_minimal_width_eq h i bn :
  h !! i = Some bn -> bn_set_minimal_width i h = Some (tt, <[i := minimized bn]> h).
Proof. intros H. unfold bn_set_minimal_width. by rewrite (modify_eq i _ bn h H). Qed.

Lemma minimized_spec bn :
  wf bn -> wf (minimized bn) /\ mag (minimized bn) = mag bn /\ canonical (minimized bn) /\
           neg (minimized bn) = neg bn && negb (mag bn =? 0).
Proof.
  intros Hw. pose proof Hw as [Hd Hwd Hm]. unfold minimized, bn_minimal_width.
  destruct (minimal_width_spec (d bn) (width bn) Hwd) as (H1 & H2 & H3).
  pose proof (minimal_width_zero (d bn) (width bn) Hd Hwd) as H0. fold (limbs bn) in *. fold (mag bn) in *.
  set (m := minimal_width_loop (d bn) (width bn)) in *. cbn [width set_width].
  destruct (Nat.eqb_spec m 0) as [E | E].
  - assert (mag bn = 0) as Hz by tauto. rewrite Hz, Z.eqb_refl, andb_false_r. unfold canonical, mag, limbs. cbn. rewrite E.
    split_and!; [constructor; cbn; (done || lia) | done | by left | done | done].
  - assert (mag bn <> 0) as Hz by tauto. rewrite (proj2 (Z.eqb_neq _ _)) by done. rewrite andb_true_r.
    unfold canonical, mag, limbs in *. cbn.
    split_and!; [constructor; cbn; (done || lia) | done | tauto | congruence | done].
Qed.

(** What an operation leaves in the store: the result [v] in the object [r], in canonical
    form, and everything else as it was. *)
Definition result (h h' : gmap nat BIGNUM) (r : nat) (v : Z) : Prop :=
  exists R', h' = <[r := R']> h /\ wf R' /\ canonical R' /\ val R' = v.
(** What the caller can rely on after a failure: only the result object may have changed. *)
Definition only_touched (h h' : gmap nat BIGNUM) (r : nat) : Prop :=
  exists R', h' = <[r := R']> h /\ wf R'.

Lemma only_touched_refl h r R : h !! r = Some R -> wf R -> only_touched h h r.
Proof. intros Hr HR. exists R. by rewrite insert_id. Qed.

Lemma canonical_set_neg bn b : canonical bn -> (mag bn = 0 -> b = false) -> canonical (set_neg b bn).
Proof. intros [H1 _] H. by split. Qed.

Lemma wf_set_neg bn b : wf bn -> wf (set_neg b bn).
Proof. by intros [H1 H2 H3]. Qed.

Lemma val_set_neg bn b : val (set_neg b bn) = if b then - mag bn else mag bn.
Proof. done. Qed.

(** A number without a negative zero. *)
Definition signed_ok (bn : BIGNUM) : Prop := mag bn = 0 -> neg bn = false.

(** Replacing all the words. *)
Lemma put_all A ws :
  wf A -> length ws = width A -> words_ok ws ->
  let R := set_d (overwrite (d A) 0 ws) A in wf R /\ limbs R = ws /\ length (d R) = length (d A).
Proof.
  intros [Hd Hw Hm] Hl Hok. cbv zeta. unfold limbs. cbn [d set_d width].
  assert (length (overwrite (d A) 0 ws) = length (d A)) as Hlen by (apply length_overwrite; lia).
  split_and!; [| | done].
  - constructor; cbn [d set_d width]; rewrite ?Hlen; [| done | done]. unfold overwrite. rewrite take_0, app_nil_l. apply words_ok_app; auto with word_db.
  - unfold overwrite. rewrite take_0, app_nil_l. by rewrite take_app_length'.
Qed.

(** Appending a word. *)
Lemma put_top E n c :
  wf E -> width E = n -> (S n <= length (d E))%nat -> fits 64 c ->
  let R := set_d (overwrite (d E) n [c]) (set_width (S n) E) in wf R /\ limbs R = limbs E ++ [c].
Proof.
  intros [Hd Hw Hm] Hn Hl Hc. cbv zeta. unfold limbs. cbn [d set_d width set_width].
  assert (length (overwrite (d E) n [c]) = length (d E)) as Hlen by (apply length_overwrite; cbn; lia).
  split.
  - constructor; cbn [d set_d width set_width]; rewrite ?Hlen; [| done | done]. unfold overwrite.
    apply words_ok_app. split; [auto with word_db |]. apply words_ok_app. split; [| auto with word_db].
    apply words_ok_cons. split; [done | by apply Forall_nil].
  - unfold overwrite. rewrite app_assoc, take_app_length' by (rewrite length_app, length_take; cbn; lia). by rewrite Hn.
Qed.

(** ** Comparison *)

Lemma ucmp_spec A B : wf A -> wf B -> BN_ucmp A B = sign (mag A ?= mag B).
Proof. intros HA HB. apply cmp_words_spec; auto with word_db. Qed.

Lemma BN_cmp_spec A B : wf A -> wf B -> signed_ok A -> signed_ok B -> BN_cmp (Some A) (Some B) = sign (val A ?= val B).
Proof.
  intros HA HB SA SB. unfold BN_cmp, val. cbv zeta. rewrite (ucmp_spec A B) by done.
  pose proof (mag_nonneg A HA) as PA. pose proof (mag_nonneg B HB) as PB.
  assert (neg A = true -> mag A <> 0) as NA by (intros E Hz; rewrite (SA Hz) in E; done).
  assert (neg B = true -> mag B <> 0) as NB by (intros E Hz; rewrite (SB Hz) in E; done).
  destruct (neg A), (neg B); cbn [eqb negb]; try specialize (NA eq_refl); try specialize (NB eq_refl).
  - rewrite Z.compare_opp. rewrite (Z.compare_antisym (mag A) (mag B)). by destruct (mag A ?= mag B).
  - by rewrite (proj2 (Z.compare_lt_iff _ _)) by lia.
  - by rewrite (proj2 (Z.compare_gt_iff _ _)) by lia.
  - done.
Qed.

(** ** Expansion *)

Section Specs.
Context {alloc_ok : nat -> bool}.

(** Whether there is room for [n] words, after reallocation if need be. *)
Definition room (bn : BIGNUM) (n : nat) : bool :=
  (n <=? length (d bn))%nat || ((Z.of_nat n <=? BN_MAX_WORDS) && negb (static_data bn) && alloc_ok n).

Definition expanded (bn : BIGNUM) (n : nat) : BIGNUM :=
  if (n <=? length (d bn))%nat then bn else set_d (limbs bn ++ replicate (n - width bn) 0) bn.

Lemma wexpand_eq h i bn n :
  h !! i = Some bn ->
  bn_wexpand alloc_ok i n h = Some (room bn n, if room bn n then <[i := expanded bn n]> h else h).
Proof.
  intros Hi. unfold bn_wexpand, room, expanded. erewrite bind_eq by (by apply load_eq).
  destruct (Nat.leb_spec n (length (d bn))); cbn [orb]; [by rewrite insert_id |].
  rewrite Z.gtb_ltb, Z.ltb_antisym. destruct (Z.of_nat n <=? BN_MAX_WORDS); cbn [negb andb]; [| done].
  destruct (static_data bn); cbn [negb andb]; [done |]. destruct (alloc_ok n); cbn [negb]; [| done].
  by erewrite bind_eq by (by apply modify_eq).
Qed.

Lemma expanded_spec bn n :
  wf bn -> room bn n = true ->
  wf (expanded bn n) /\ (n <= length (d (expanded bn n)))%nat /\ limbs (expanded bn n) = limbs bn /\
  width (expanded bn n) = width bn /\ neg (expanded bn n) = neg bn.
Proof.
  intros Hw Hr. unfold expanded, room in *. destruct (Nat.leb_spec n (length (d bn))); [done |].
  cbn [orb] in Hr. apply andb_prop in Hr as [[Hm%Z.leb_le _]%andb_prop _].
  pose proof (length_limbs bn Hw) as Hl. pose proof (limbs_ok bn Hw) as Hok. destruct Hw as [Hd Hwd Hmax].
  assert (length (limbs bn ++ replicate (n - width bn) 0) = n) as Hn by (rewrite length_app, length_replicate; lia).
  split_and!; cbn; try done; [| lia |].
  - constructor; cbn; [apply words_ok_app; auto with word_db | lia | lia].
  - unfold limbs at 1. cbn. by rewrite take_app_length' by done.
Qed.

(** An operand keeps its words when the result is expanded. *)
Lemma holds_expanded h a A r R n :
  h !! a = Some A -> wf A -> h !! r = Some R -> wf R -> room R n = true ->
  holds (<[r := expanded R n]> h) a 0 (limbs A).
Proof.
  intros Ha HA Hr HR Hroom. destruct (expanded_spec R n HR Hroom) as (Hw & _ & Hl & Hwd & _).
  destruct (decide (a = r)) as [-> | Hne].
  - assert (A = R) as -> by congruence. exists (expanded R n). rewrite lookup_insert_eq, drop_0.
    rewrite (length_limbs R HR), <- Hwd. split_and!; [done | done |]. by destruct Hw.
  - exists A. rewrite lookup_insert_ne, drop_0, length_limbs by done. split_and!; [done | done |]. by destruct HA.
Qed.

(** The outcome of an operation on the object [r], whose contents are [R]: [v] on success,
    and success if [r] can be given up to [n] words. *)
Definition outcome (p : prog bool) (h : gmap nat BIGNUM) (r : nat) (R : BIGNUM) (n : nat) (v : Z) : Prop :=
  exists ok h', p h = Some (ok, h') /\ (if ok then result h h' r v else only_touched h h' r) /\
    ((forall k, (k <= n)%nat -> room R k = true) -> ok = true).

Lemma outcome_mono p h r R n m v : (n <= m)%nat -> outcome p h r R n v -> outcome p h r R m v.
Proof.
  intros Hle (ok & h' & E & H & Hok). exists ok, h'. split_and!; [done | done |]. intros Hall. apply Hok. intros. apply Hall. lia.
Qed.

Lemma set_word_spec h a A v :
  h !! a = Some A -> wf A -> 0 < v < 2 ^ 64 ->
  exists h', BN_set_word alloc_ok a v h = Some (room A 1, h') /\
    if room A 1 then exists R', h' = <[a := R']> h /\ wf R' /\ mag R' = v /\ neg R' = false else h' = h.
Proof.
  intros Ha HA Hv. unfold BN_set_word. rewrite (proj2 (Z.eqb_neq v 0)) by lia. erewrite bind_eq by (by apply wexpand_eq).
  destruct (room A 1) eqn:Hroom; cbn [negb]; [| by eexists]. destruct (expanded_spec A 1 HA Hroom) as ([Hd Hw Hm] & Hl & _).
  set (E := expanded A 1) in *. erewrite bind_eq by apply modify_cell.
  erewrite bind_eq by (apply put_eq; [by rewrite lookup_insert_eq | cbn; lia]). rewrite insert_insert_eq.
  erewrite bind_eq by apply modify_cell. eexists. split; [done |]. eexists. split; [done |].
  unfold overwrite. cbn [d set_neg take app length Nat.add]. split_and!; [| apply Z.add_0_r | done].
  constructor; cbn [d width set_neg set_d set_width]; rewrite take_0, app_nil_l; cbn [length];
    [apply words_ok_cons; split; [unfold fits; lia | by apply words_ok_drop] | lia | rewrite length_drop; lia].
Qed.

Lemma room_one A : wf A -> room A (S (width A)) = true -> room A 1 = true.
Proof.
  intros [_ Hw _]. unfold room. destruct (width A); [done |]. intros _. by rewrite (proj2 (Nat.leb_le 1 _)) by lia.
Qed.
End Specs.
Arguments room : clear implicits.
Arguments outcome : clear implicits.
(** * Reading functions *)

Lemma half_mask_spec x : 0 <= x < 2 ^ 63 -> half_mask x = if x =? 0 then 0 else 2 ^ 64 - 1.
Proof.
  intros Hx. unfold half_mask, u64, wrap. destruct (Z.eqb_spec x 0) as [-> | Hx0]; [done |].
  replace ((0 - x) mod 2 ^ 64) with (2 ^ 64 - x) by (apply (Z.mod_unique_pos _ _ (-1)); lia).
  rewrite Z.shiftr_div_pow2 by lia. by replace ((2 ^ 64 - x) / 2 ^ 63) with 1 by (apply (Z.div_unique_pos _ _ _ (2 ^ 63 - x)); lia).
Qed.

Lemma land_all_ones x : 0 <= x < 2 ^ 64 -> Z.land x (2 ^ 64 - 1) = x.
Proof. intros Hx. change (2 ^ 64 - 1) with (Z.ones 64). rewrite Z.land_ones by lia. apply Z.mod_small. lia. Qed.

(** A round halves the bound and keeps [bits] plus the logarithm. *)
Lemma num_bits_round_spec k l bits :
  0 < k <= 32 -> 0 <= l < 2 ^ (2 * k) ->
  let '(l', bits') := num_bits_round k (l, bits) in
  0 <= l' < 2 ^ k /\ bits' + Z.log2 l' = bits + Z.log2 l.
Proof.
  intros Hk Hl. cbn [num_bits_round]. rewrite Z.shiftr_div_pow2 by lia.
  replace (2 * k) with (k + k) in Hl by lia. rewrite Z.pow_add_r in Hl by lia.
  assert (0 < 2 ^ k <= 2 ^ 32) as Hp by (split; [apply Z.pow_pos_nonneg; lia | apply Z.pow_le_mono_r; lia]).
  assert (0 <= l / 2 ^ k < 2 ^ k) as Hx by (split; [apply Z.div_pos; lia | apply Z.div_lt_upper_bound; lia]).
  rewrite half_mask_spec by lia. destruct (Z.eqb_spec (l / 2 ^ k) 0) as [E | E].
  - rewrite !Z.land_0_r, Z.lxor_0_r, Z.add_0_r. apply Z.div_small_iff in E; lia.
  - rewrite (land_all_ones k) by lia.
    rewrite land_all_ones by (apply fits_lxor; [lia | unfold fits; lia | unfold fits; nia]).
    rewrite (Z.lxor_comm l), Z.lxor_assoc, Z.lxor_nilpotent, Z.lxor_0_r. split; [done |].
    assert (2 ^ k <= l) as Hkl by (apply Z.nlt_ge; intros ?; apply E, Z.div_small; lia).
    rewrite <- Z.shiftr_div_pow2 by lia. rewrite Z.log2_shiftr by lia.
    assert (k <= Z.log2 l) by (apply Z.log2_le_pow2; lia). lia.
Qed.

(** The number of bits of a word, [0] for zero. *)
Definition bit_length (z : Z) : Z := if z =? 0 then 0 else Z.log2 z + 1.

Lemma num_bits_word_spec l : fits 64 l -> BN_num_bits_word l = bit_length l.
Proof.
  intros [Hl Hl']. unfold BN_num_bits_word, bit_length. cbv zeta.
  set (b := Z.b2z (negb (l =? 0))).
  pose proof (num_bits_round_spec 32 l b ltac:(lia) ltac:(lia)) as H. destruct (num_bits_round 32 (l, b)) as [l1 b1]. destruct H as [H1 E1].
  pose proof (num_bits_round_spec 16 l1 b1 ltac:(lia) ltac:(lia)) as H. destruct (num_bits_round 16 (l1, b1)) as [l2 b2]. destruct H as [H2 E2].
  pose proof (num_bits_round_spec 8 l2 b2 ltac:(lia) ltac:(lia)) as H. destruct (num_bits_round 8 (l2, b2)) as [l3 b3]. destruct H as [H3 E3].
  pose proof (num_bits_round_spec 4 l3 b3 ltac:(lia) ltac:(lia)) as H. destruct (num_bits_round 4 (l3, b3)) as [l4 b4]. destruct H as [H4 E4].
  pose proof (num_bits_round_spec 2 l4 b4 ltac:(lia) ltac:(lia)) as H. destruct (num_bits_round 2 (l4, b4)) as [l5 b5]. destruct H as [H5 E5].
  cbn [fst snd]. assert (b5 + Z.land 1 (half_mask (Z.shiftr l5 1)) = b5 + Z.log2 l5) as ->.
  { assert (l5 = 0 \/ l5 = 1 \/ l5 = 2 \/ l5 = 3) as [-> | [-> | [-> | ->]]] by lia; done. }
  unfold b in *. destruct (Z.eqb_spec l 0) as [-> | Hne]; cbn in E1; lia.
Qed.

(** The words below the top one, and the top word. *)
Lemma minimal_width_top A m :
  wf A -> bn_minimal_width A = S m ->
  mag A = value (take m (d A)) + 2 ^ (64 * Z.of_nat m) * (d A !!! m) /\ 0 < d A !!! m < 2 ^ 64 /\
  0 <= value (take m (d A)) < 2 ^ (64 * Z.of_nat m) /\ (m < length (d A))%nat.
Proof.
  intros HA Hm. pose proof HA as [Hd Hw _]. unfold bn_minimal_width in Hm.
  destruct (minimal_width_spec (d A) (width A) Hw) as (H1 & H2 & H3). rewrite Hm in *.
  destruct H3 as [| H3]; [done |]. rewrite Nat.sub_succ, Nat.sub_0_r in H3. fold (limbs A) in H2. fold (mag A) in H2.
  assert (d A !! m = Some (d A !!! m)) as Hn by (apply list_lookup_lookup_total_lt; lia).
  rewrite <- H2, (take_S_r _ _ _ Hn), value_app, length_take. replace (m `min` length (d A))%nat with m by lia. cbn [value].
  pose proof (words_ok_lookup _ _ _ Hd Hn) as [? ?]. pose proof (value_nonneg (take m (d A)) ltac:(auto with word_db)).
  pose proof (value_bound (take m (d A)) ltac:(auto with word_db)) as Hb. rewrite length_take in Hb. replace (m `min` length (d A))%nat with m in Hb by lia.
  split_and!; lia.
Qed.

Lemma minimal_width_none A : wf A -> bn_minimal_width A = O <-> mag A = 0.
Proof. intros [Hd Hw _]. by apply minimal_width_zero. Qed.

Lemma log2_split lo t n : 0 <= n -> 0 <= lo < 2 ^ n -> 0 < t -> Z.log2 (lo + 2 ^ n * t) = n + Z.log2 t.
Proof.
  intros Hn Hlo Ht. apply Z.log2_unique; [pose proof (Z.log2_nonneg t); lia |].
  pose proof (Z.log2_spec t Ht) as [H1 H2]. pose proof (Z.log2_nonneg t). rewrite <- Z.add_succ_r, !Z.pow_add_r by lia. nia.
Qed.

Lemma num_bits_spec A : wf A -> BN_num_bits A = bit_length (mag A).
Proof.
  intros HA. unfold BN_num_bits. destruct (bn_minimal_width A) as [| m] eqn:Hm.
  - apply minimal_width_none in Hm; [| done]. by rewrite Hm.
  - destruct (minimal_width_top A m HA Hm) as (Hv & Ht & Hlo & _). rewrite num_bits_word_spec by (unfold fits; lia).
    unfold bit_length. rewrite !(proj2 (Z.eqb_neq _ _)) by nia. rewrite Hv, log2_split by lia. lia.
Qed.

Lemma value_inj a b : words_ok a -> words_ok b -> length a = length b -> value a = value b -> a = b.
Proof.
  intros Ha. revert b. induction Ha as [| x a [Hx Hx'] Ha IH]; intros [| y b] Hb Hl Hv; try done.
  apply words_ok_cons in Hb as [[Hy Hy'] Hb]. cbn [value] in Hv. injection Hl as Hl.
  assert (value a = value b) by nia. f_equal; [lia | by apply IH].
Qed.

Lemma xor_words_zero acc a b :
  0 <= acc -> words_ok a -> words_ok b -> length a = length b ->
  let m := foldl (fun m '(x, y) => Z.lor m (Z.lxor x y)) acc (zip a b) in 0 <= m /\ (m = 0 <-> acc = 0 /\ a = b).
Proof.
  intros Hacc Ha. revert acc b Hacc. induction Ha as [| x a [Hx _] Ha IH]; intros acc [| y b] Hacc Hb Hl; try done; [cbn; tauto |].
  apply words_ok_cons in Hb as [[Hy _] Hb]. injection Hl as Hl. cbn [zip zip_with foldl].
  assert (0 <= Z.lxor x y) by (apply Z.lxor_nonneg; lia).
  destruct (IH (Z.lor acc (Z.lxor x y)) b) as [H1 H2]; [apply Z.lor_nonneg; lia | done | done |]. split; [done |].
  rewrite H2, Z.lor_eq_0_iff, Z.lxor_eq_0_iff. split; [intros [[-> ->] ->]; done | intros [-> [= -> ->]]; done].
Qed.

(** Equal values: equal common words, and zeros in the rest. *)
Lemma equal_words a b :
  words_ok a -> words_ok b -> (length a <= length b)%nat ->
  value a = value b <-> a = take (length a) b /\ value (drop (length a) b) = 0.
Proof.
  intros Ha Hb Hl. pose proof (high_words a b Hb Hl) as Hh. split.
  - intros Hv. pose proof (value_bound a Ha). pose proof (value_nonneg a Ha).
    pose proof (value_nonneg _ (words_ok_take (length a) b Hb)). pose proof (value_nonneg _ (words_ok_drop (length a) b Hb)).
    assert (value (drop (length a) b) = 0) as Hz by nia. split; [| done]. apply value_inj; [done | auto with word_db | rewrite length_take; lia | nia].
  - intros [E Hz]. rewrite Hh, <- E, Hz. lia.
Qed.

Lemma or_nonneg acc a : 0 <= acc -> words_ok a -> 0 <= foldl Z.lor acc a /\ (foldl Z.lor acc a = 0 <-> acc = 0 /\ value a = 0).
Proof.
  intros Hacc Ha. revert acc Hacc. induction Ha as [| w a [Hw _] Ha IH]; intros acc Hacc; cbn [foldl value]; [lia |].
  destruct (IH (Z.lor acc w)) as [H1 H2]; [apply Z.lor_nonneg; lia |]. split; [done |].
  rewrite H2, Z.lor_eq_0_iff. pose proof (value_nonneg a Ha). lia.
Qed.

Lemma equal_consttime_spec A B :
  wf A -> wf B -> BN_equal_consttime A B = true <-> mag A = mag B /\ neg A = neg B.
Proof.
  intros HA HB. unfold BN_equal_consttime. cbv zeta. rewrite Z.eqb_eq, Z.lor_eq_0_iff.
  set (a := limbs A). set (b := limbs B). assert (words_ok a) as Ha by (unfold a; auto with word_db). assert (words_ok b) as Hb by (unfold b; auto with word_db).
  rewrite <- (length_limbs A HA), <- (length_limbs B HB). fold a b.
  destruct (or_nonneg 0 (drop (length a) b)) as [P1 E1]; [lia | auto with word_db |].
  destruct (or_nonneg (foldl Z.lor 0 (drop (length a) b)) (drop (length b) a)) as [P2 E2]; [lia | auto with word_db |].
  set (m := foldl Z.lor (foldl Z.lor 0 (drop (length a) b)) (drop (length b) a)) in *.
  assert (Z.b2z (xorb (neg A) (neg B)) = 0 <-> neg A = neg B) as -> by (by destruct (neg A), (neg B)).
  change (mag A = mag B) with (value a = value b). destruct (Nat.le_ge_cases (length a) (length b)) as [Hl | Hl].
  - rewrite zip_take_r. destruct (xor_words_zero m a (take (length a) b)) as [_ E3]; [done | done | auto with word_db | rewrite length_take; lia |].
    rewrite E3, (equal_words a b) by done. rewrite (drop_ge a) in E2 by done. cbn [value] in E2. tauto.
  - rewrite zip_take_l. destruct (xor_words_zero m (take (length b) a) b) as [_ E3]; [done | auto with word_db | done | rewrite length_take; lia |].
    rewrite E3. pose proof (equal_words b a Hb Ha Hl) as E4. rewrite (drop_ge b) in E1 by done. cbn [value] in E1.
    split; [intros [[Hm Et] ?] | intros [Hv ?]]; (split; [| done]).
    + symmetry. apply E4. split; [done |]. tauto.
    + destruct E4 as [E4 _]. destruct (E4 (eq_sym Hv)) as [Eb Hz]. split; [| done]. apply E2. by rewrite (drop_ge b) by done.
Qed.
Lemma get_u64_spec A : wf A -> BN_get_u64 A = if mag A <? 2 ^ 64 then Some (mag A) else None.
Proof.
  intros HA. unfold BN_get_u64. destruct (bn_minimal_width A) as [| m] eqn:Hm.
  - apply minimal_width_none in Hm; [| done]. by rewrite Hm.
  - destruct (minimal_width_top A m HA Hm) as (Hv & Ht & Hlo & _). destruct m as [| m].
    + cbn [take value] in Hv. rewrite take_0 in Hv. change (2 ^ (64 * Z.of_nat 0)) with 1 in Hv. cbn [value] in Hv.
      replace (mag A) with (d A !!! 0%nat) by lia. by rewrite (proj2 (Z.ltb_lt _ _)) by lia.
    + assert (2 ^ 64 <= 2 ^ (64 * Z.of_nat (S m))) by (apply Z.pow_le_mono_r; lia).
      by rewrite (proj2 (Z.ltb_ge _ _)) by nia.
Qed.

Lemma is_odd_spec A : wf A -> BN_is_odd A = Z.odd (val A).
Proof.
  intros HA. assert (Z.odd (val A) = Z.odd (mag A)) as -> by (unfold val; destruct (neg A); [apply Z.odd_opp | done]).
  destruct HA as [Hd Hw _]. unfold BN_is_odd, mag, limbs. destruct (width A) as [| n]; [done |].
  destruct (d A) as [| x rest]; [cbn in Hw; lia |]. cbn [take value lookup_total list_lookup_total].
  rewrite Z.odd_add, Z.odd_mul. change (Z.odd (2 ^ 64)) with false. cbn [andb xorb]. rewrite xorb_false_r.
  change 1 with (Z.ones 1) at 1. rewrite Z.land_ones by lia. rewrite Zodd_mod. change (2 ^ 1) with 2.
  done.
Qed.

Lemma land_pred x : 0 < x -> Z.land x (x - 1) = 0 <-> x = 2 ^ Z.log2 x.
Proof.
  intros Hx. pose proof (Z.log2_spec x Hx) as [H1 H2]. pose proof (Z.log2_nonneg x) as H0. set (k := Z.log2 x) in *. split.
  - intros Hl. destruct (Z.eq_dec x (2 ^ k)) as [| Hne]; [done |]. exfalso.
    assert (Z.testbit (Z.land x (x - 1)) k = true) as Hb.
    { rewrite Z.land_spec. unfold k at 1. rewrite Z.bit_log2 by done. replace k with (Z.log2 (x - 1)) by (apply Z.log2_unique; lia).
      apply Z.bit_log2. assert (0 < 2 ^ k) by (apply Z.pow_pos_nonneg; lia). lia. }
    rewrite Hl, Z.testbit_0_l in Hb. done.
  - intros E. clearbody k. subst x. rewrite Z.sub_1_r, <- Z.ones_equiv, Z.land_ones by done. apply Z.mod_same. lia.
Qed.

Lemma all_zero_words ws : words_ok ws -> forallb (fun x => x =? 0) ws = (value ws =? 0).
Proof.
  intros Hok. apply eq_true_iff_eq. rewrite Z.eqb_eq, (value_zero ws Hok), <- Is_true_true, forallb_True. apply Forall_iff. intros x.
  by rewrite Is_true_true, Z.eqb_eq.
Qed.

Lemma is_pow2_spec A : wf A -> BN_is_pow2 A = true <-> exists k, 0 <= k /\ val A = 2 ^ k.
Proof.
  intros HA. unfold BN_is_pow2, val. destruct (bn_minimal_width A) as [| m] eqn:Hm.
  { apply minimal_width_none in Hm; [| done]. split; [done |]. intros (k & Hk & E).
    assert (0 < 2 ^ k) by (apply Z.pow_pos_nonneg; lia). destruct (neg A); lia. }
  pose proof (mag_nonneg A HA) as HA0. destruct (neg A).
  { split; [done |]. intros (k & Hk & E). assert (0 < 2 ^ k) by (apply Z.pow_pos_nonneg; lia). lia. }
  destruct (minimal_width_top A m HA Hm) as (Hv & Ht & Hlo & _).
  rewrite andb_true_iff, Z.eqb_eq, all_zero_words, Z.eqb_eq by (destruct HA; auto with word_db).
  unfold u64, wrap. rewrite Z.mod_small by lia. rewrite land_pred by lia. set (t := d A !!! m) in *. set (lo := value (take m (d A))) in *.
  pose proof (Z.log2_nonneg t). split.
  - intros [Hz Ht2]. exists (64 * Z.of_nat m + Z.log2 t). split; [lia |]. rewrite Hv, Hz, Z.pow_add_r by lia. rewrite <- Ht2. lia.
  - intros (k & Hk & E). assert (k = 64 * Z.of_nat m + Z.log2 t) as ->.
    { rewrite <- (log2_split lo t) by lia. rewrite <- Hv, E. symmetry. by apply Z.log2_pow2. }
    rewrite Z.pow_add_r in E by lia. assert (t = 2 ^ Z.log2 t) by nia. nia.
Qed.

(** Reading a BIGNUM is reading the integer it stands for, whatever its leading zero
    words: [BN_cmp] is the order of the integers (NULL after everything), [BN_equal_consttime]
    their equality, [BN_num_bits] the bit length of the magnitude, and the predicates and
    the conversion to a 64-bit word are those of the integer. *)
Theorem bn_readers_exact A B :
  wf A -> wf B -> signed_ok A -> signed_ok B ->
  BN_cmp (Some A) (Some B) = sign (val A ?= val B) /\
  BN_cmp (Some A) None = -1 /\ BN_cmp None (Some A) = 1 /\
  (BN_equal_consttime A B = true <-> val A = val B) /\
  BN_num_bits A = (if val A =? 0 then 0 else Z.log2 (Z.abs (val A)) + 1) /\
  (BN_is_zero A = true <-> val A = 0) /\
  BN_is_odd A = Z.odd (val A) /\
  (BN_is_pow2 A = true <-> exists k, 0 <= k /\ val A = 2 ^ k) /\
  BN_get_u64 A = (if Z.abs (val A) <? 2 ^ 64 then Some (Z.abs (val A)) else None).
Proof.
  intros HA HB SA SB. pose proof (mag_nonneg A HA) as PA. pose proof (mag_nonneg B HB) as PB.
  assert (Z.abs (val A) = mag A) as Habs by (unfold val; destruct (neg A); lia).
  assert (val A = 0 <-> mag A = 0) as Hz by (unfold val; destruct (neg A); lia).
  split_and!; [by apply BN_cmp_spec | done | done | | | | by apply is_odd_spec | by apply is_pow2_spec | rewrite Habs; by apply get_u64_spec].
  - rewrite equal_consttime_spec by done. unfold val, signed_ok in *. destruct (neg A), (neg B); split; try lia; intros H;
      destruct (Z.eq_dec (mag A) 0); try (assert (mag B = 0) by lia); split; try done; try lia; (exfalso; (discriminate SA || discriminate SB || lia)).
  - rewrite num_bits_spec by done. unfold bit_length. rewrite Habs. destruct (Z.eqb_spec (mag A) 0), (Z.eqb_spec (val A) 0); tauto.
  - rewrite is_zero_spec by done. tauto.
Qed.

(** Well-formedness of a concrete object. *)
Ltac solve_wf :=
  constructor; [repeat first [apply Forall_nil_2 | apply Forall_cons_2; [unfold fits; lia |]] | cbn; lia | vm_compute; discriminate].

Lemma bn_readers_exact_witness :
  let A := mk_bn [5; 0; 7] 2 true true false in
  let B := mk_bn [3; 2; 0; 0] 4 false true false in
  val A = -5 /\ BN_cmp (Some A) (Some B) = sign (val A ?= val B).
Proof.
  split; [done |].
  apply (bn_readers_exact (mk_bn [5; 0; 7] 2 true true false) (mk_bn [3; 2; 0; 0] 4 false true false)); [solve_wf | solve_wf | by vm_compute | by vm_compute].
Defined.
End Bn.
