(* ===== verification/BnAdd.v ===== *)
(** BIGNUM addition and subtraction (crypto/fipsmodule/bn/add.c): exact on the integers the
    objects stand for, whichever of the operands the result is, and the objects canonical. *)

From S2P Require Import Prelude Internal Store BnWords Bn.

Open Scope Z_scope.

Module BnAdd.
Import Internal BnWords Bn.
Open Scope c_scope.

Section Ops.
Context (alloc_ok : nat -> bool).

(** ** Addition and subtraction *)

(** Once [a] is the wider operand, of [max] words, and [b] has [min] words. *)
Definition uadd_sorted (r a b max min : nat) : prog bool :=
  do ok <- bn_wexpand alloc_ok r (S max);
  if negb ok then r_ret false
  else
    do_ r_modify r (set_width (S max));
    do x <- read_words a 0 min;
    do y <- read_words b 0 min;
    let '(lo, carry) := bn_add_words x y in
    do_ put_words r 0 lo;
    do z <- read_words a min (max - min);
    let '(hi, carry) := carry_loop z carry in
    do_ put_words r min hi;
    do_ put_words r max [carry];
    r_ret true.

Definition bn_uadd_consttime (r a b : nat) : prog bool :=
  do A <- r_load a;
  do B <- r_load b;
  if (width A <? width B)%nat then uadd_sorted r b a (width B) (width A)
  else uadd_sorted r a b (width A) (width B).

Definition BN_uadd (r a b : nat) : prog bool :=
  do ok <- bn_uadd_consttime r a b;
  if negb ok then r_ret false else do_ bn_set_minimal_width r; r_ret true.

Definition bn_usub_consttime (r a b : nat) : prog bool :=
  do A <- r_load a;
  do B <- r_load b;
  if (width A <? width B)%nat && negb (bn_fits_in_words B (width A)) then r_ret false
  else
    let b_width := if (width A <? width B)%nat then width A else width B in
    do ok <- bn_wexpand alloc_ok r (width A);
    if negb ok then r_ret false
    else
      do x <- read_words a 0 b_width;
      do y <- read_words b 0 b_width;
      let '(lo, borrow) := bn_sub_words x y in
      do_ put_words r 0 lo;
      do z <- read_words a b_width (width A - b_width);
      let '(hi, borrow) := borrow_loop z borrow in
      do_ put_words r b_width hi;
      if negb (borrow =? 0) then r_ret false
      else do_ r_modify r (fun bn => set_neg false (set_width (width A) bn)); r_ret true.

Definition BN_usub (r a b : nat) : prog bool :=
  do ok <- bn_usub_consttime r a b;
  if negb ok then r_ret false else do_ bn_set_minimal_width r; r_ret true.

(** [r = a - b] of the magnitudes, with its sign. *)
Definition usub_signed (r a b : nat) : prog bool :=
  do A <- r_load a;
  do B <- r_load b;
  if BN_ucmp A B <? 0 then
    do ok <- BN_usub r b a;
    if negb ok then r_ret false else do_ r_modify r (set_neg true); r_ret true
  else
    do ok <- BN_usub r a b;
    if negb ok then r_ret false else do_ r_modify r (set_neg false); r_ret true.

Definition BN_add (r a b : nat) : prog bool :=
  do A <- r_load a;
  do B <- r_load b;
  let a_neg := neg A in
  if xorb a_neg (neg B) then
    let '(a, b) := if a_neg then (b, a) else (a, b) in
    usub_signed r a b
  else
    do ret <- BN_uadd r a b;
    do_ r_modify r (set_neg a_neg);
    r_ret ret.

Definition BN_sub (r a b : nat) : prog bool :=
  do A <- r_load a;
  do B <- r_load b;
  let '(a, b, add, sgn) :=
    if neg A then if neg B then (b, a, false, false) else (a, b, true, true)
    else if neg B then (a, b, true, false) else (a, b, false, false) in
  if add then
    do ok <- BN_uadd r a b;
    if negb ok then r_ret false else do_ r_modify r (set_neg sgn); r_ret true
  else usub_signed r a b.

(** ** Words *)

(** The loop of [BN_add_word] over the words, with the carry left. *)
Fixpoint add_word_loop (ws : words) (w : Z) : words * Z :=
  match ws with
  | [] => ([], w)
  | x :: rest =>
      if w =? 0 then (ws, w)
      else
        let l := u64 (x + w) in
        let '(rest, w) := add_word_loop rest (if w >? l then 1 else 0) in
        (l :: rest, w)
  end.

(** The loop of [BN_sub_word]: the words and the index it stops at; [None] past the end. *)
Fixpoint sub_word_loop (ws : words) (w : Z) : option (words * nat) :=
  match ws with
  | [] => None
  | x :: rest =>
      if x >=? w then Some (u64 (x - w) :: rest, O)
      else
        match sub_word_loop rest 1 with
        | None => None
        | Some (rest, i) => Some (u64 (x - w) :: rest, S i)
        end
  end.

(** The two functions call each other at most once, on the magnitude of a negative number. *)
Fixpoint add_word (fuel : nat) (a : nat) (w : Z) : prog bool :=
  match fuel with
  | O => r_undefined
  | S fuel =>
      if w =? 0 then r_ret true
      else
        do A <- r_load a;
        if BN_is_zero A then BN_set_word alloc_ok a w
        else if neg A then
          do_ r_modify a (set_neg false);
          do ok <- sub_word fuel a w;
          do_ r_modify a (fun bn => if negb (BN_is_zero bn) then set_neg (negb (neg bn)) bn else bn);
          r_ret ok
        else
          do ws <- read_words a 0 (width A);
          let '(ws, w) := add_word_loop ws w in
          do_ put_words a 0 ws;
          if negb (w =? 0) then
            do ok <- bn_wexpand alloc_ok a (S (width A));
            if negb ok then r_ret false
            else
              do_ r_modify a (set_width (S (width A)));
              do_ put_words a (width A) [w];
              r_ret true
          else r_ret true
  end
with sub_word (fuel : nat) (a : nat) (w : Z) : prog bool :=
  match fuel with
  | O => r_undefined
  | S fuel =>
      if w =? 0 then r_ret true
      else
        do A <- r_load a;
        if BN_is_zero A then
          do ok <- BN_set_word alloc_ok a w;
          if ok then do_ BN_set_negative a true; r_ret ok else r_ret ok
        else if neg A then
          do_ r_modify a (set_neg false);
          do ok <- add_word fuel a w;
          do_ r_modify a (set_neg true);
          r_ret ok
        else if (bn_minimal_width A =? 1)%nat && (d A !!! 0%nat <? w) then
          do_ put_words a 0 [w - d A !!! 0%nat];
          do_ r_modify a (set_neg true);
          r_ret true
        else
          do r <- r_some (sub_word_loop (d A) w);
          do_ put_words a 0 r.1;
          do A <- r_load a;
          if (d A !!! r.2 =? 0) && (r.2 =? width A - 1)%nat then
            do_ r_modify a (set_width (width A - 1));
            r_ret true
          else r_ret true
  end.

Definition BN_add_word (a : nat) (w : Z) : prog bool := add_word 2 a w.
Definition BN_sub_word (a : nat) (w : Z) : prog bool := sub_word 2 a w.
End Ops.

(** * Specifications *)

Section Specs.
Context (alloc_ok : nat -> bool).
Local Abbreviation room := (room alloc_ok).
Local Abbreviation outcome := (outcome alloc_ok).

(** Adding in two pieces, the common words and the rest. *)
Lemma add_pieces A B lo c hi c' :
  words_ok A -> words_ok B -> (length B <= length A)%nat ->
  bn_add_words (take (length B) A) B = (lo, c) -> carry_loop (drop (length B) A) c = (hi, c') ->
  value (lo ++ hi ++ [c']) = value A + value B /\ length lo = length B /\ length hi = (length A - length B)%nat /\
  words_ok (lo ++ hi ++ [c']).
Proof.
  intros HA HB Hl Hlo Hhi. unfold bn_add_words in Hlo. rewrite (add_words_each (length A)) in Hlo by (rewrite length_take; lia).
  rewrite carry_loop_each in Hhi.
  set (B' := B ++ replicate (length (drop (length B) A)) 0).
  assert (length A = length B') as HlB by (unfold B'; rewrite length_app, length_replicate, length_drop; lia).
  assert (add_each A B' 0 = (lo ++ hi, c')) as E.
  { rewrite <- (take_drop (length B) A). unfold B'. rewrite add_each_app by (rewrite length_take; lia). by rewrite Hlo, Hhi. }
  assert (words_ok B') as HB' by (apply words_ok_app; auto with word_db).
  pose proof (add_each_spec A B' 0 HlB HA HB' ltac:(lia)) as H. rewrite E in H. destruct H as (Hv & Hlen & Hok & Hc).
  pose proof (add_each_spec (take (length B) A) B 0 ltac:(rewrite length_take; lia) ltac:(auto with word_db) HB ltac:(lia)) as H.
  rewrite Hlo in H. destruct H as (_ & Hlen1 & _). rewrite length_take in Hlen1. rewrite length_app in Hlen.
  assert (value B' = value B) as HvB by (unfold B'; rewrite value_app, value_zeros; lia).
  rewrite app_assoc. split_and!; [| lia | lia |].
  - rewrite value_app, length_app, Hlen, <- HvB, <- (Z.add_0_r (value A + value B')), <- Hv. cbn [value]. lia.
  - apply words_ok_app. split; [done |]. apply words_ok_cons. split; [unfold fits; lia | by apply Forall_nil].
Qed.

Lemma uadd_sorted_spec h r a b R A B :
  h !! r = Some R -> h !! a = Some A -> h !! b = Some B -> wf R -> wf A -> wf B -> (width B <= width A)%nat ->
  exists h', uadd_sorted alloc_ok r a b (width A) (width B) h = Some (room R (S (width A)), h') /\
    if room R (S (width A)) then
      exists R', h' = <[r := R']> h /\ wf R' /\ mag R' = mag A + mag B /\ width R' = S (width A) /\ neg R' = neg R
    else h' = h.
Proof.
  intros Hr Ha Hb HR HA HB Hle. unfold uadd_sorted. erewrite bind_eq by (by apply wexpand_eq).
  destruct (room R (S (width A))) eqn:Hroom; cbn [negb]; [| by eexists].
  destruct (expanded_spec R _ HR Hroom) as (HE & Hlen & _ & _ & Hneg). set (E := expanded R (S (width A))) in *.
  pose proof (length_limbs A HA) as LA. pose proof (length_limbs B HB) as LB.
  assert (forall x X, h !! x = Some X -> wf X ->
    holds (<[r := set_width (S (width A)) E]> h) x 0 (limbs X)) as Hh.
  { intros x X Hx HX. rewrite <- (insert_insert_eq h r _ E). apply (holds_modify _ _ _ _ r E); [by rewrite lookup_insert_eq | done |].
    by apply (holds_expanded (alloc_ok := alloc_ok)). }
  erewrite bind_eq by apply modify_cell.
  erewrite bind_eq.
  2: { apply read_holds; [apply (holds_sub _ _ (limbs A) 0 (width B)); [by apply Hh | lia] |]. rewrite length_take, length_drop; lia. }
  erewrite bind_eq by (apply read_holds; [by apply (Hh b B) | lia]).
  rewrite drop_0. destruct (bn_add_words (take (width B) (limbs A)) (limbs B)) as [lo c] eqn:Elo.
  destruct (carry_loop (drop (width B) (limbs A)) c) as [hi c'] eqn:Ehi.
  rewrite <- LB in Elo, Ehi.
  destruct (add_pieces (limbs A) (limbs B) lo c hi c') as (Hv & Hl1 & Hl2 & Hok); [auto with word_db | auto with word_db | lia | done | done |].
  set (R1 := set_width (S (width A)) E). assert (length (d R1) = length (d E)) as HlR1 by done.
  erewrite bind_eq by (apply put_eq; [by rewrite lookup_insert_eq | lia]). rewrite insert_insert_eq.
  erewrite bind_eq.
  2: { apply (read_holds _ _ _ _ (take (width A - width B) (drop (width B) (limbs A)))); [| by rewrite length_take, length_drop; lia].
       rewrite <- (insert_insert_eq h r _ R1). apply holds_put; [by rewrite lookup_insert_eq | lia |].
       apply (holds_sub _ _ (limbs A)); [by apply Hh | lia]. }
  rewrite take_ge by (rewrite length_drop; lia). rewrite <- LB, Ehi.
  erewrite bind_eq by (apply put_eq; [by rewrite lookup_insert_eq | cbn [d set_d]; rewrite length_overwrite; lia]). rewrite insert_insert_eq.
  erewrite bind_eq by (apply put_eq; [by rewrite lookup_insert_eq | cbn [d set_d length]; rewrite !length_overwrite; rewrite ?length_overwrite; lia]).
  rewrite insert_insert_eq. eexists. split; [done |]. eexists. split; [done |]. cbn [d set_d R1 set_width E].
  assert (overwrite (overwrite (overwrite (d E) 0 lo) (length (limbs B)) hi) (width A) [c'] =
          (lo ++ hi ++ [c']) ++ drop (S (width A)) (d E)) as Hd.
  { unfold overwrite at 3. rewrite take_0, app_nil_l, Nat.add_0_l, <- Hl1, overwrite_app.
    rewrite drop_drop, app_assoc. replace (width A) with (length (lo ++ hi)) at 1 by (rewrite length_app; lia).
    rewrite overwrite_app, drop_drop, <- !app_assoc. do 4 f_equal. cbn. lia. }
  assert (length (lo ++ hi ++ [c']) = S (width A)) as Hl3 by (rewrite !length_app; cbn; lia).
  fold E. rewrite Hd. split_and!; [| | done | done].
  - destruct HE as [HEd HEw HEm]. constructor; cbn; [apply words_ok_app; auto with word_db | |]; rewrite length_app, Hl3, length_drop; lia.
  - unfold mag. unfold limbs at 1. cbn. by rewrite take_app_length'.
Qed.

Lemma uadd_consttime_spec h r a b R A B :
  h !! r = Some R -> h !! a = Some A -> h !! b = Some B -> wf R -> wf A -> wf B ->
  let n := S (Nat.max (width A) (width B)) in
  exists h', bn_uadd_consttime alloc_ok r a b h = Some (room R n, h') /\
    if room R n then
      exists R', h' = <[r := R']> h /\ wf R' /\ mag R' = mag A + mag B /\ width R' = n /\ neg R' = neg R
    else h' = h.
Proof.
  intros Hr Ha Hb HR HA HB. cbv zeta. unfold bn_uadd_consttime. do 2 erewrite bind_eq by (by apply load_eq).
  destruct (Nat.ltb_spec (width A) (width B)).
  - rewrite Nat.max_r by lia. rewrite (Z.add_comm (mag A)). apply uadd_sorted_spec; (done || lia).
  - rewrite Nat.max_l by lia. apply uadd_sorted_spec; (done || lia).
Qed.

Lemma uadd_spec h r a b R A B :
  h !! r = Some R -> h !! a = Some A -> h !! b = Some B -> wf R -> wf A -> wf B ->
  let n := S (Nat.max (width A) (width B)) in
  exists h', BN_uadd alloc_ok r a b h = Some (room R n, h') /\
    if room R n then
      exists R', h' = <[r := R']> h /\ wf R' /\ canonical R' /\ mag R' = mag A + mag B
    else h' = h.
Proof.
  intros Hr Ha Hb HR HA HB n. unfold BN_uadd.
  destruct (uadd_consttime_spec h r a b R A B Hr Ha Hb HR HA HB) as (h1 & E & H). fold n in E, H.
  erewrite bind_eq by exact E. destruct (room R n); cbn [negb]; [| by eexists].
  destruct H as (R1 & -> & HR1 & Hv & _). destruct (minimized_spec R1 HR1) as (H1 & H2 & H3 & _).
  erewrite bind_eq by (apply set_minimal_width_eq, lookup_insert_eq). rewrite insert_insert_eq.
  eexists. split; [done |]. eexists. split_and!; [done | done | done | congruence].
Qed.

(** Subtracting in two pieces. *)
Lemma sub_pieces A B lo c hi c' :
  words_ok A -> words_ok B -> (length B <= length A)%nat ->
  bn_sub_words (take (length B) A) B = (lo, c) -> borrow_loop (drop (length B) A) c = (hi, c') ->
  value (lo ++ hi) - 2 ^ (64 * Z.of_nat (length A)) * c' = value A - value B /\ length lo = length B /\
  length hi = (length A - length B)%nat /\ words_ok (lo ++ hi) /\ 0 <= c' <= 1.
Proof.
  intros HA HB Hl Hlo Hhi. unfold bn_sub_words in Hlo. rewrite (sub_words_each (length A)) in Hlo by (rewrite length_take; lia).
  rewrite borrow_loop_each in Hhi.
  set (B' := B ++ replicate (length (drop (length B) A)) 0).
  assert (length A = length B') as HlB by (unfold B'; rewrite length_app, length_replicate, length_drop; lia).
  assert (sub_each A B' 0 = (lo ++ hi, c')) as E.
  { rewrite <- (take_drop (length B) A). unfold B'. rewrite sub_each_app by (rewrite length_take; lia). by rewrite Hlo, Hhi. }
  assert (words_ok B') as HB' by (apply words_ok_app; auto with word_db).
  pose proof (sub_each_spec A B' 0 HlB HA HB' ltac:(lia)) as H. rewrite E in H. destruct H as (Hv & Hlen & Hok & Hc).
  pose proof (sub_each_spec (take (length B) A) B 0 ltac:(rewrite length_take; lia) ltac:(auto with word_db) HB ltac:(lia)) as H.
  rewrite Hlo in H. destruct H as (_ & Hlen1 & _). rewrite length_take in Hlen1. rewrite length_app in Hlen.
  assert (value B' = value B) as HvB by (unfold B'; rewrite value_app, value_zeros; lia).
  split_and!; (done || lia).
Qed.
(** When the loop leaves a borrow, the difference is negative. *)
Lemma borrow_sign A B ws n c :
  words_ok ws -> length ws = n -> 0 <= c <= 1 -> value ws - 2 ^ (64 * Z.of_nat n) * c = A - B ->
  (c =? 0) = (B <=? A) /\ (B <= A -> value ws = A - B).
Proof.
  intros Hok Hl Hc Hv. pose proof (value_nonneg ws Hok). pose proof (value_bound ws Hok) as Hb. rewrite Hl in Hb.
  destruct (Z.eqb_spec c 0), (Z.leb_spec B A); split; intros; (done || nia).
Qed.

(** The words of the result of a subtraction, in the array [p]. *)
Lemma two_puts p lo hi n :
  (length lo + length hi = n)%nat -> overwrite (overwrite p 0 lo) (length lo) hi = (lo ++ hi) ++ drop n p.
Proof.
  intros Hn. unfold overwrite at 2. rewrite take_0, app_nil_l, Nat.add_0_l, overwrite_app, drop_drop, <- app_assoc.
  do 3 f_equal. lia.
Qed.

(** The words [x] and [y] the subtraction reads: [y] is [b], cut to the words of [a]. *)
Lemma usub_operand A B :
  wf A -> wf B -> (width A <? width B)%nat && negb (bn_fits_in_words B (width A)) = false ->
  let b_width := if (width A <? width B)%nat then width A else width B in
  (b_width <= width A)%nat /\ (b_width <= width B)%nat /\ value (take b_width (limbs B)) = mag B.
Proof.
  intros HA HB Hfit. destruct (Nat.ltb_spec (width A) (width B)); cbn [andb negb] in *.
  - apply negb_false_iff in Hfit. apply fits_in_words_spec in Hfit; [| done | lia]. split_and!; [lia | lia |].
    rewrite Hfit. f_equal. unfold limbs. rewrite take_take. f_equal. lia.
  - split_and!; [lia | lia |]. by rewrite take_ge by (rewrite length_limbs; done).
Qed.

Lemma not_fits_larger A B :
  wf A -> wf B -> (width A < width B)%nat -> bn_fits_in_words B (width A) = false -> mag A < mag B.
Proof.
  intros HA HB Hlt Hfit. pose proof (fits_in_words_spec B (width A) HB ltac:(lia)) as Hf. rewrite Hfit in Hf.
  pose proof (high_words (limbs A) (limbs B) ltac:(auto with word_db) ltac:(rewrite !length_limbs by done; lia)) as Hh.
  rewrite length_limbs in Hh by done. pose proof (mag_bound A HA). pose proof (mag_nonneg A HA).
  pose proof (value_nonneg (take (width A) (limbs B)) ltac:(auto with word_db)).
  pose proof (value_nonneg (drop (width A) (limbs B)) ltac:(auto with word_db)). fold (mag B) in Hh.
  replace (take (width A) (limbs B)) with (take (width A) (d B)) in * by (unfold limbs; rewrite take_take; f_equal; lia).
  destruct (decide (value (drop (width A) (limbs B)) = 0)) as [E | E]; [| nia].
  destruct Hf as [_ Hf]. discriminate Hf. rewrite Hh, E. lia.
Qed.

Lemma usub_consttime_spec h r a b R A B :
  h !! r = Some R -> h !! a = Some A -> h !! b = Some B -> wf R -> wf A -> wf B ->
  let ok := (mag B <=? mag A) && room R (width A) in
  exists h', bn_usub_consttime alloc_ok r a b h = Some (ok, h') /\
    if ok then
      exists R', h' = <[r := R']> h /\ wf R' /\ mag R' = mag A - mag B /\ width R' = width A /\ neg R' = false
    else only_touched h h' r.
Proof.
  intros Hr Ha Hb HR HA HB. cbv zeta. unfold bn_usub_consttime. do 2 erewrite bind_eq by (by apply load_eq).
  destruct ((width A <? width B)%nat && negb (bn_fits_in_words B (width A))) eqn:Hfit.
  { apply andb_prop in Hfit as [Hlt%Nat.ltb_lt Hfit%negb_true_iff].
    pose proof (not_fits_larger A B HA HB Hlt Hfit) as Hm.
    rewrite (proj2 (Z.leb_gt _ _) Hm). eexists. split; [done |]. cbn [andb]. by apply (only_touched_refl _ _ R). }
  destruct (usub_operand A B HA HB Hfit) as (HwA & HwB & Hval).
  set (n := if (width A <? width B)%nat then width A else width B) in *.
  erewrite bind_eq by (by apply wexpand_eq).
  destruct (room R (width A)) eqn:Hroom; cbn [negb].
  2: { rewrite andb_false_r. eexists. split; [done |]. by apply (only_touched_refl _ _ R). }
  destruct (expanded_spec R _ HR Hroom) as (HE & Hlen & _). set (E := expanded R (width A)) in *.
  pose proof (length_limbs A HA) as LA. pose proof (length_limbs B HB) as LB.
  assert (forall x X, h !! x = Some X -> wf X -> holds (<[r := E]> h) x 0 (limbs X)) as Hh
    by (intros; by apply (holds_expanded (alloc_ok := alloc_ok))).
  erewrite bind_eq by (apply read_holds; [apply (holds_sub _ _ (limbs A) 0 n); [by apply Hh | lia] | rewrite length_take, length_drop; lia]).
  erewrite bind_eq by (apply read_holds; [apply (holds_sub _ _ (limbs B) 0 n); [by apply Hh | lia] | rewrite length_take, length_drop; lia]).
  rewrite !drop_0. set (y := take n (limbs B)) in *. assert (length y = n) as Ly by (unfold y; rewrite length_take; lia).
  destruct (bn_sub_words (take n (limbs A)) y) as [lo c] eqn:Elo.
  destruct (borrow_loop (drop n (limbs A)) c) as [hi c'] eqn:Ehi.
  rewrite <- Ly in Elo, Ehi.
  destruct (sub_pieces (limbs A) y lo c hi c') as (Hv & Hl1 & Hl2 & Hok & Hc');
    [auto with word_db | unfold y; auto with word_db | lia | done | done |].
  erewrite bind_eq by (apply put_eq; [by rewrite lookup_insert_eq | lia]). rewrite insert_insert_eq.
  erewrite bind_eq.
  2: { apply (read_holds _ _ _ _ (take (width A - n) (drop n (limbs A)))); [| by rewrite length_take, length_drop; lia].
       rewrite <- (insert_insert_eq h r _ E). apply holds_put; [by rewrite lookup_insert_eq | lia |].
       apply (holds_sub _ _ (limbs A)); [by apply Hh | lia]. }
  rewrite take_ge by (rewrite length_drop; lia). rewrite <- Ly, Ehi.
  erewrite bind_eq by (apply put_eq; [by rewrite lookup_insert_eq | cbn [d set_d]; rewrite length_overwrite; lia]). rewrite insert_insert_eq.
  cbn [d set_d]. rewrite <- Hl1, (two_puts (d E) lo hi (width A)) by lia.
  destruct (borrow_sign (mag A) (mag B) (lo ++ hi) (width A) c') as [Hsign Hdiff];
    [done | rewrite length_app; lia | done | rewrite <- LA, Hv, Hval; done |].
  assert (length (lo ++ hi) = width A) as Hl3 by (rewrite length_app; lia).
  assert (forall ng wd, (wd <= length (d E))%nat -> wf (mk_bn ((lo ++ hi) ++ drop (width A) (d E)) wd ng (malloced E) (static_data E))) as Hwf.
  { intros ng wd Hwd. destruct HE as [HEd HEw HEm].
    constructor; cbn; [apply words_ok_app; auto with word_db | |]; rewrite length_app, Hl3, length_drop; lia. }
  rewrite Hsign, andb_true_r. destruct (Z.leb_spec (mag B) (mag A)) as [Hle | Hgt]; cbn [negb].
  - erewrite bind_eq by apply modify_cell. eexists. split; [done |]. eexists. split; [done |]. cbn.
    split_and!; [exact (Hwf false (width A) Hlen) | | done | done]. unfold mag at 1, limbs. cbn. rewrite take_app_length' by done. auto.
  - eexists. split; [done |]. eexists. split; [done |]. apply Hwf. by destruct HE.
Qed.

Lemma usub_spec h r a b R A B :
  h !! r = Some R -> h !! a = Some A -> h !! b = Some B -> wf R -> wf A -> wf B ->
  let ok := (mag B <=? mag A) && room R (width A) in
  exists h', BN_usub alloc_ok r a b h = Some (ok, h') /\
    if ok then exists R', h' = <[r := R']> h /\ wf R' /\ canonical R' /\ mag R' = mag A - mag B /\ neg R' = false
    else only_touched h h' r.
Proof.
  intros Hr Ha Hb HR HA HB ok. unfold BN_usub.
  destruct (usub_consttime_spec h r a b R A B Hr Ha Hb HR HA HB) as (h1 & E & H). fold ok in E, H.
  erewrite bind_eq by exact E. destruct ok; cbn [negb]; [| by eexists].
  destruct H as (R1 & -> & HR1 & Hv & _ & Hn). destruct (minimized_spec R1 HR1) as (H1 & H2 & H3 & H4).
  erewrite bind_eq by (apply set_minimal_width_eq, lookup_insert_eq). rewrite insert_insert_eq.
  eexists. split; [done |]. eexists. split_and!; [done | done | done | congruence | by rewrite H4, Hn].
Qed.

(** ** Signed addition *)

(** The magnitudes subtracted, whichever is larger. *)
Lemma usub_larger_spec h r a b R A B sg :
  h !! r = Some R -> h !! a = Some A -> h !! b = Some B -> wf R -> wf A -> wf B ->
  mag B <= mag A -> (sg = true -> mag B < mag A) ->
  outcome (do ok <- BN_usub alloc_ok r a b; if negb ok then r_ret false else do_ r_modify r (set_neg sg); r_ret true)
    h r R (width A) (if sg then mag B - mag A else mag A - mag B).
Proof.
  intros Hr Ha Hb HR HA HB Hle Hsg. destruct (usub_spec h r a b R A B Hr Ha Hb HR HA HB) as (h' & E & H).
  rewrite (proj2 (Z.leb_le _ _) Hle) in E, H. cbn [andb] in E, H. unfold outcome.
  exists (room R (width A)). erewrite bind_eq by exact E. destruct (room R (width A)) eqn:Hroom; cbn [negb].
  - destruct H as (R' & -> & HR' & Hc & Hm & _). erewrite bind_eq by apply modify_cell. eexists. split; [done |].
    split; [| done]. eexists. split_and!; [done | by apply wf_set_neg | apply canonical_set_neg; [done |] |].
    + intros Hz. destruct sg; [| done]. specialize (Hsg eq_refl). lia.
    + rewrite val_set_neg. destruct sg; lia.
  - exists h'. split_and!; [done | done |]. intros Hall. rewrite <- Hroom. by apply Hall.
Qed.

Lemma usub_signed_spec h r a b R A B :
  h !! r = Some R -> h !! a = Some A -> h !! b = Some B -> wf R -> wf A -> wf B ->
  outcome (usub_signed alloc_ok r a b) h r R (S (Nat.max (width A) (width B))) (mag A - mag B).
Proof.
  intros Hr Ha Hb HR HA HB. unfold usub_signed.
  assert (forall v (p : BIGNUM -> BIGNUM -> prog bool) n, outcome (p A B) h r R n v ->
    outcome (do A <- r_load a; do B <- r_load b; p A B) h r R n v) as Hload.
  { intros v p n (ok & h' & E & H). exists ok, h'. do 2 erewrite bind_eq by (by apply load_eq). done. }
  apply Hload. rewrite (ucmp_spec A B HA HB). destruct (Z.compare_spec (mag A) (mag B)); cbn.
  - apply (outcome_mono _ _ _ _ (width A)); [lia |]. apply (usub_larger_spec _ _ _ _ _ A B false); (done || lia).
  - apply (outcome_mono _ _ _ _ (width B)); [lia |]. apply (usub_larger_spec _ _ _ _ _ B A true); (done || lia).
  - apply (outcome_mono _ _ _ _ (width A)); [lia |]. apply (usub_larger_spec _ _ _ _ _ A B false); (done || lia).
Qed.

(** The magnitudes added, with a sign that is not negative for a sum of zero. *)
Lemma uadd_signed_spec h r a b R A B sg (q : bool -> prog bool) :
  h !! r = Some R -> h !! a = Some A -> h !! b = Some B -> wf R -> wf A -> wf B ->
  (mag A + mag B = 0 -> sg = false) ->
  (forall R', wf R' -> q true (<[r := R']> h) = Some (true, <[r := set_neg sg R']> h)) ->
  (exists h', q false h = Some (false, h') /\ only_touched h h' r) ->
  outcome (do ok <- BN_uadd alloc_ok r a b; q ok) h r R (S (Nat.max (width A) (width B)))
    (if sg then - (mag A + mag B) else mag A + mag B).
Proof.
  intros Hr Ha Hb HR HA HB Hsg Hq1 (h0 & Hq0 & Ht). destruct (uadd_spec h r a b R A B Hr Ha Hb HR HA HB) as (h' & E & H).
  set (n := S (width A `max` width B)) in *. exists (room R n). erewrite bind_eq by exact E.
  destruct (room R n) eqn:Hroom.
  - destruct H as (R' & -> & HR' & Hc & Hm). eexists. split; [by apply Hq1 |]. split; [| done].
    eexists. split_and!; [done | by apply wf_set_neg | apply canonical_set_neg; [done | rewrite Hm; done] |].
    rewrite val_set_neg, Hm. by destruct sg.
  - subst h'. exists h0. split_and!; [done | done |]. intros Hall. rewrite <- Hroom. by apply Hall.
Qed.

Lemma add_outcome h r a b R A B :
  h !! r = Some R -> h !! a = Some A -> h !! b = Some B -> wf R -> wf A -> wf B -> signed_ok A ->
  outcome (BN_add alloc_ok r a b) h r R (S (Nat.max (width A) (width B))) (val A + val B).
Proof.
  intros Hr Ha Hb HR HA HB HsA. unfold BN_add, outcome. do 2 erewrite bind_eq by (by apply load_eq). cbv zeta.
  unfold val. destruct (neg A) eqn:NA, (neg B) eqn:NB; cbn [xorb].
  - replace (- mag A + - mag B) with (- (mag A + mag B)) by lia.
    apply (uadd_signed_spec _ _ _ _ R A B true (fun ret => do_ r_modify r (set_neg true); r_ret ret)); try done.
    + intros Hz. pose proof (mag_nonneg A HA). pose proof (mag_nonneg B HB).
      assert (neg A = false) by (apply HsA; lia). congruence.
    + intros R' _. by erewrite bind_eq by apply modify_cell.
    + erewrite bind_eq by (by apply modify_eq). eexists. split; [done |]. eexists. split; [done |]. by apply wf_set_neg.
  - rewrite Z.add_comm, Z.add_opp_r, Nat.max_comm. by apply usub_signed_spec.
  - rewrite Z.add_opp_r. by apply usub_signed_spec.
  - apply (uadd_signed_spec _ _ _ _ R A B false (fun ret => do_ r_modify r (set_neg false); r_ret ret)); try done.
    + intros R' _. by erewrite bind_eq by apply modify_cell.
    + erewrite bind_eq by (by apply modify_eq). eexists. split; [done |]. eexists. split; [done |]. by apply wf_set_neg.
Qed.

Lemma sub_outcome h r a b R A B :
  h !! r = Some R -> h !! a = Some A -> h !! b = Some B -> wf R -> wf A -> wf B -> signed_ok A ->
  outcome (BN_sub alloc_ok r a b) h r R (S (Nat.max (width A) (width B))) (val A - val B).
Proof.
  intros Hr Ha Hb HR HA HB HsA. unfold BN_sub, outcome. do 2 erewrite bind_eq by (by apply load_eq).
  unfold val. destruct (neg A) eqn:NA, (neg B) eqn:NB; cbv iota beta.
  - replace (- mag A - - mag B) with (mag B - mag A) by lia. rewrite Nat.max_comm. by apply usub_signed_spec.
  - replace (- mag A - mag B) with (- (mag A + mag B)) by lia.
    apply (uadd_signed_spec _ _ _ _ R A B true (fun ok => if negb ok then r_ret false else do_ r_modify r (set_neg true); r_ret true)); try done.
    + intros Hz. pose proof (mag_nonneg A HA). pose proof (mag_nonneg B HB).
      assert (neg A = false) by (apply HsA; lia). congruence.
    + intros R' _. cbn [negb]. by erewrite bind_eq by apply modify_cell.
    + eexists. split; [done |]. by apply (only_touched_refl _ _ R).
  - replace (mag A - - mag B) with (mag A + mag B) by lia.
    apply (uadd_signed_spec _ _ _ _ R A B false (fun ok => if negb ok then r_ret false else do_ r_modify r (set_neg false); r_ret true)); try done.
    + intros R' _. cbn [negb]. by erewrite bind_eq by apply modify_cell.
    + eexists. split; [done |]. by apply (only_touched_refl _ _ R).
  - by apply usub_signed_spec.
Qed.


(** ** Adding and subtracting a word *)

Lemma u64_add_carry x w :
  fits 64 x -> fits 64 w -> let c := if w >? u64 (x + w) then 1 else 0 in u64 (x + w) + 2 ^ 64 * c = x + w /\ 0 <= c <= 1.
Proof.
  intros [Hx Hx'] [Hw Hw']. cbv zeta. unfold u64, wrap. destruct (Z.ltb_spec (x + w) (2 ^ 64)).
  - rewrite Z.mod_small by lia. rewrite Z.gtb_ltb. destruct (Z.ltb_spec (x + w) w); lia.
  - replace ((x + w) mod 2 ^ 64) with (x + w - 2 ^ 64) by (apply (Z.mod_unique_pos _ _ 1); lia).
    rewrite Z.gtb_ltb. destruct (Z.ltb_spec (x + w - 2 ^ 64) w); lia.
Qed.

Lemma add_word_loop_spec ws w :
  words_ok ws -> fits 64 w ->
  let '(ws', c) := add_word_loop ws w in
  value ws' + 2 ^ (64 * Z.of_nat (length ws)) * c = value ws + w /\ length ws' = length ws /\ words_ok ws' /\ fits 64 c.
Proof.
  intros Hok. revert w. induction Hok as [| x ws Hx Hok IH]; intros w Hw; cbn [add_word_loop length value].
  { rewrite Z.mul_0_r, Z.pow_0_r. cbn [value length]. split_and!; [lia | done | by apply Forall_nil | done]. }
  destruct (Z.eqb_spec w 0) as [-> | Hw0].
  { cbn [value length]. split_and!; [lia | done | by apply words_ok_cons | done]. }
  destruct (u64_add_carry x w Hx Hw) as [E0 Hc0]. cbv zeta in E0, Hc0 |- *.
  set (c0 := if w >? u64 (x + w) then 1 else 0) in *.
  pose proof (IH c0 ltac:(unfold fits; lia)) as H. destruct (add_word_loop ws c0) as [ws' c].
  destruct H as (E & Hl & Hok' & Hc). cbn [value length]. split_and!; [| lia | apply words_ok_cons; split; [apply wrap_fits; lia | done] | done].
  replace (64 * Z.of_nat (S (length ws))) with (64 + 64 * Z.of_nat (length ws)) by lia.
  rewrite Z.pow_add_r by lia. lia.
Qed.

Lemma sub_word_loop_spec p q w :
  words_ok p -> 0 < w < 2 ^ 64 -> w <= value p ->
  exists p' i, sub_word_loop (p ++ q) w = Some (p' ++ q, i) /\ length p' = length p /\ words_ok p' /\
    value p' = value p - w /\ (i < length p)%nat.
Proof.
  intros Hok. revert w. induction Hok as [| x p [Hx Hx'] Hok IH]; intros w Hw Hle; cbn [value app sub_word_loop length] in *; [lia |].
  rewrite Z.geb_leb. destruct (Z.leb_spec w x).
  - exists (x - w :: p), O. unfold u64, wrap. rewrite Z.mod_small by lia. cbn [value length app].
    split_and!; [done | done | apply words_ok_cons; split; [unfold fits; lia | done] | lia | lia].
  - pose proof (value_nonneg p Hok). destruct (IH 1) as (p' & i & E & Hl & Hok' & Hv & Hi); [lia | lia |]. rewrite E.
    exists (u64 (x - w) :: p'), (S i). cbn [value length app].
    split_and!; [done | lia | apply words_ok_cons; split; [apply wrap_fits; lia | done] | | lia].
    unfold u64, wrap. replace ((x - w) mod 2 ^ 64) with (x - w + 2 ^ 64) by (apply (Z.mod_unique_pos _ _ (-1)); lia). lia.
Qed.

(** The outcome of adding to, or subtracting from, the object [a]: [v], with room for one
    more word. *)
Definition word_outcome (p : prog bool) (h : gmap nat BIGNUM) (a : nat) (A : BIGNUM) (v : Z) : Prop :=
  exists ok h', p h = Some (ok, h') /\
    (if ok then exists R', h' = <[a := R']> h /\ wf R' /\ signed_ok R' /\ val R' = v else only_touched h h' a) /\
    (room A (S (width A)) = true -> ok = true).

Lemma add_word_positive fuel h a A w :
  h !! a = Some A -> wf A -> neg A = false -> mag A <> 0 -> 0 < w < 2 ^ 64 ->
  word_outcome (add_word alloc_ok (S fuel) a w) h a A (mag A + w).
Proof.
  intros Ha HA Hn Hm Hw. unfold word_outcome. cbn [add_word]. rewrite (proj2 (Z.eqb_neq w 0)) by lia.
  erewrite bind_eq by (by apply load_eq).
  rewrite (not_true_is_false _ (fun H => Hm (proj1 (is_zero_spec A HA) H))). rewrite Hn.
  erewrite bind_eq by (apply (read_holds _ _ _ _ (limbs A)); [exists A; rewrite drop_0, length_limbs by done; split_and!; [done | done | by destruct HA] | by rewrite length_limbs]).
  pose proof (add_word_loop_spec (limbs A) w ltac:(auto with word_db) ltac:(unfold fits; lia)) as H.
  destruct (add_word_loop (limbs A) w) as [ws c]. destruct H as (Hv & Hl & Hok & Hc). rewrite length_limbs in Hv, Hl by done.
  destruct (put_all A ws HA Hl Hok) as (HR & HlR & Hlen). set (R := set_d (overwrite (d A) 0 ws) A) in *.
  erewrite bind_eq by (apply put_eq; [done | destruct HA; lia]). fold R.
  destruct (Z.eqb_spec c 0) as [-> | Hc0]; cbn [negb].
  - exists true. eexists. split; [done |]. split; [| done]. exists R. split_and!; [done | done | by intros _ |].
    unfold val, mag. cbn [neg R set_d]. rewrite Hn, HlR. lia.
  - erewrite bind_eq by (by apply wexpand_eq; rewrite lookup_insert_eq).
    assert (room R (S (width A)) = room A (S (width A))) as Hroom by (unfold room; by rewrite Hlen). rewrite Hroom.
    exists (room A (S (width A))). destruct (room A (S (width A))); cbn [negb].
    2: { eexists. split; [done |]. split; [by exists R | done]. }
    destruct (expanded_spec R (S (width A)) HR Hroom) as (HE & Hl2 & HlE & HwE & HnE). set (E := expanded R (S (width A))) in *.
    rewrite insert_insert_eq. erewrite bind_eq by apply modify_cell.
    erewrite bind_eq by (apply put_eq; [by rewrite lookup_insert_eq | cbn [d set_width length]; lia]). rewrite insert_insert_eq.
    destruct (put_top E (width A) c HE HwE Hl2 Hc) as (HR' & HlR').
    eexists. split; [done |]. split; [| done]. eexists. split_and!; [done | exact HR' | intros _; cbn [neg set_d set_width]; rewrite HnE; exact Hn |].
    unfold val, mag. cbn [neg set_d set_width]. rewrite HnE. cbn [neg R set_d]. rewrite Hn.
    cbn [d set_width] in HlR' |- *. rewrite HlR', HlE, HlR, value_app, Hl. cbn [value]. lia.
Qed.

(** The words of the magnitude from the array, when only the lowest is not zero. *)
Lemma minimal_width_one A :
  wf A -> bn_minimal_width A = 1%nat ->
  exists x rest, d A = x :: rest /\ mag A = x /\ fits 64 x /\ (1 <= width A)%nat /\ value (take (width A - 1) rest) = 0.
Proof.
  intros HA Hm. pose proof HA as [Hd Hw _]. unfold bn_minimal_width in Hm.
  destruct (minimal_width_spec (d A) (width A) Hw) as (H1 & H2 & _). rewrite Hm in H1, H2. fold (limbs A) in H2. fold (mag A) in H2.
  unfold mag, limbs in *. destruct (d A) as [| x rest]; [cbn in Hw; lia |]. apply words_ok_cons in Hd as [Hx _].
  exists x, rest. destruct (width A) as [| n]; [lia |]. rewrite Nat.sub_succ, Nat.sub_0_r. cbn [take value] in *.
  rewrite take_0 in H2. cbn [value] in H2. split_and!; [done | lia | done | lia | lia].
Qed.

(** With more than one word, the magnitude is larger than any word. *)
Lemma minimal_width_more A w :
  wf A -> mag A <> 0 -> bn_minimal_width A <> 1%nat -> w < 2 ^ 64 -> w <= mag A.
Proof.
  intros HA Hm H1 Hw. pose proof HA as [Hd Hwd _]. unfold bn_minimal_width in H1.
  destruct (minimal_width_spec (d A) (width A) Hwd) as (Hle & Hv & Hlast).
  pose proof (minimal_width_zero (d A) (width A) Hd Hwd) as Hz. fold (limbs A) in *. fold (mag A) in *.
  destruct (minimal_width_loop (d A) (width A)) as [| [| n]]; [tauto | done |]. destruct Hlast as [| Hlast]; [done |].
  cbn [Nat.sub] in Hlast. rewrite <- Hv.
  assert (d A !! S n = Some (d A !!! S n)) as Hn by (apply list_lookup_lookup_total_lt; lia).
  rewrite (take_S_r _ _ _ Hn), value_app, length_take. replace (S n `min` length (d A))%nat with (S n) by lia.
  pose proof (value_nonneg (take (S n) (d A)) ltac:(auto with word_db)). cbn [value].
  pose proof (words_ok_lookup _ _ _ Hd Hn) as [? _].
  assert (2 ^ 64 <= 2 ^ (64 * Z.of_nat (S n))) by (apply Z.pow_le_mono_r; lia). nia.
Qed.

(** Dropping the top word when it is zero. *)
Lemma drop_top A :
  wf A -> (1 <= width A)%nat -> d A !!! (width A - 1)%nat = 0 -> wf (set_width (width A - 1) A) /\ mag (set_width (width A - 1) A) = mag A.
Proof.
  intros [Hd Hw Hm] H1 Hz. split; [constructor; cbn; (done || lia) |]. unfold mag, limbs. cbn [d width set_width].
  replace (take (width A) (d A)) with (take (S (width A - 1)) (d A)) by (f_equal; lia).
  rewrite (take_S_r (d A) (width A - 1) 0), value_app; [cbn; lia |]. rewrite <- Hz. apply list_lookup_lookup_total_lt. lia.
Qed.

Lemma sub_word_positive fuel h a A w :
  h !! a = Some A -> wf A -> neg A = false -> mag A <> 0 -> 0 < w < 2 ^ 64 ->
  exists R', sub_word alloc_ok (S fuel) a w h = Some (true, <[a := R']> h) /\ wf R' /\ signed_ok R' /\ val R' = mag A - w.
Proof.
  intros Ha HA Hn Hm Hw. cbn [sub_word]. rewrite (proj2 (Z.eqb_neq w 0)) by lia. erewrite bind_eq by (by apply load_eq).
  rewrite (not_true_is_false _ (fun H => Hm (proj1 (is_zero_spec A HA) H))). rewrite Hn.
  destruct ((bn_minimal_width A =? 1)%nat && (d A !!! 0%nat <? w)) eqn:Hone.
  - apply andb_prop in Hone as [Hmw%Nat.eqb_eq Hlt%Z.ltb_lt].
    destruct (minimal_width_one A HA Hmw) as (x & rest & Hd & Hmag & [Hx Hx'] & Hwd & Hz). rewrite Hd in Hlt. cbn in Hlt.
    erewrite bind_eq by (apply put_eq; [done | rewrite Hd; cbn; lia]). erewrite bind_eq by apply modify_cell.
    rewrite Hd. exists (set_neg true (set_d (w - x :: rest) A)). split; [done |].
    assert (limbs (set_neg true (set_d (w - x :: rest) A)) = w - x :: take (width A - 1) rest) as Hl.
    { unfold limbs. cbn [d width set_neg set_d]. by destruct (width A) as [| n]; [lia |]; rewrite Nat.sub_succ, Nat.sub_0_r. }
    unfold signed_ok, val, mag at 1 2 3. rewrite Hl. cbn [neg set_neg value]. rewrite Hz. split_and!; [| lia | lia].
    destruct HA as [Hok Hw1 Hw2]. rewrite Hd in *. apply words_ok_cons in Hok as [_ Hok].
    constructor; cbn [d width set_neg set_d] in *; [| done | done]. apply words_ok_cons. split; [unfold fits; lia | done].
  - assert (w <= mag A) as Hle.
    { destruct (Nat.eqb_spec (bn_minimal_width A) 1) as [E | E]; [| apply minimal_width_more; (done || lia)].
      destruct (minimal_width_one A HA E) as (x & rest & Hd & Hmag & _). rewrite Hd in Hone. cbn in Hone. apply Z.ltb_ge in Hone. lia. }
    destruct (sub_word_loop_spec (limbs A) (drop (width A) (d A)) w) as (p & k & E & Hl & Hok & Hv & Hk); [auto with word_db | done | done |].
    rewrite length_limbs in Hl, Hk by done. unfold limbs in E at 1. rewrite take_drop in E. rewrite (bind_some _ _ _ _ E). cbn [fst snd].
    destruct HA as [HAd HAw HAm].
    assert (length (p ++ drop (width A) (d A)) = length (d A)) as Hlen by (rewrite length_app, length_drop; lia).
    erewrite bind_eq by (apply put_eq; [done | lia]).
    replace (overwrite (d A) 0 (p ++ drop (width A) (d A))) with (p ++ drop (width A) (d A))
      by (unfold overwrite; rewrite take_0, app_nil_l, Nat.add_0_l, Hlen, drop_all, app_nil_r; done).
    set (A1 := set_d (p ++ drop (width A) (d A)) A). erewrite bind_eq by apply load_cell.
    assert (wf A1) as HA1 by (constructor; cbn [d width set_d A1]; [apply words_ok_app; auto with word_db | lia | lia]).
    assert (mag A1 = mag A - w) as Hm1 by (unfold mag at 1, limbs; cbn [d width set_d A1]; rewrite take_app_length' by done; exact Hv).
    destruct ((d A1 !!! k =? 0) && (k =? width A1 - 1)%nat) eqn:Htop.
    + apply andb_prop in Htop as [H0%Z.eqb_eq Hk'%Nat.eqb_eq]. rewrite Hk' in H0. destruct (drop_top A1 HA1) as [H1 H2]; [cbn; lia | done |].
      erewrite bind_eq by apply modify_cell. eexists. split; [done |]. split_and!; [done | by intros _ |].
      unfold val. cbn [neg set_width A1 set_d]. rewrite Hn. fold A1. lia.
    + eexists. split; [done |]. split_and!; [done | by intros _ |]. unfold val. cbn [neg A1 set_d]. rewrite Hn. fold A1. lia.
Qed.


Lemma add_word_outcome h a A w :
  h !! a = Some A -> wf A -> signed_ok A -> 0 <= w < 2 ^ 64 ->
  word_outcome (BN_add_word alloc_ok a w) h a A (val A + w).
Proof.
  intros Ha HA HsA Hw. unfold BN_add_word. destruct (decide (w = 0)) as [-> | Hw0].
  { exists true, h. split_and!; [done | exists A; rewrite insert_id by done; split_and!; (done || lia) | done]. }
  destruct (decide (mag A = 0)) as [Hz | Hz].
  - unfold word_outcome. cbn [add_word]. rewrite (proj2 (Z.eqb_neq w 0)) by lia. erewrite bind_eq by (by apply load_eq).
    rewrite (proj2 (is_zero_spec A HA) Hz). destruct (set_word_spec (alloc_ok := alloc_ok) h a A w Ha HA ltac:(lia)) as (h' & E & H). rewrite E.
    exists (room A 1), h'. split_and!; [done | | by apply room_one].
    destruct (room A 1); [| subst h'; by apply (only_touched_refl _ _ A)]. destruct H as (R' & -> & HR & Hm & Hn).
    exists R'. split_and!; [done | done | by intros _ |]. unfold val. rewrite Hn, (HsA Hz). lia.
  - destruct (neg A) eqn:Hn.
    + unfold word_outcome. change (add_word alloc_ok 2 a w) with (add_word alloc_ok (S 1) a w). cbn [add_word].
      rewrite (proj2 (Z.eqb_neq w 0)) by lia. erewrite bind_eq by (by apply load_eq).
      rewrite (not_true_is_false _ (fun H => Hz (proj1 (is_zero_spec A HA) H))), Hn. erewrite bind_eq by (by apply modify_eq).
      destruct (sub_word_positive 0 (<[a := set_neg false A]> h) a (set_neg false A) w) as (R & E & HR & HsR & HvR);
        [by rewrite lookup_insert_eq | by apply wf_set_neg | done | done | lia |].
      erewrite bind_eq by exact E. rewrite insert_insert_eq. erewrite bind_eq by apply modify_cell.
      exists true. eexists. split; [done |]. split; [| done]. eexists. split; [done |].
      change (mag (set_neg false A)) with (mag A) in HvR. unfold val in HvR |- *. rewrite Hn.
      pose proof (is_zero_spec R HR) as Hzero. destruct (BN_is_zero R); cbn [negb].
      * split_and!; [done | done |]. destruct (neg R); lia.
      * split_and!; [by apply wf_set_neg | |].
        -- intros Hm. change (mag (set_neg (negb (neg R)) R)) with (mag R) in Hm. destruct Hzero as [_ Hzero]. by discriminate (Hzero Hm).
        -- change (mag (set_neg (negb (neg R)) R)) with (mag R). cbn [neg set_neg]. destruct (neg R); cbn [negb]; lia.
    + replace (val A + w) with (mag A + w) by (unfold val; by rewrite Hn). apply add_word_positive; (done || lia).
Qed.

Lemma sub_word_outcome h a A w :
  h !! a = Some A -> wf A -> signed_ok A -> 0 <= w < 2 ^ 64 ->
  word_outcome (BN_sub_word alloc_ok a w) h a A (val A - w).
Proof.
  intros Ha HA HsA Hw. unfold BN_sub_word. destruct (decide (w = 0)) as [-> | Hw0].
  { exists true, h. split_and!; [done | exists A; rewrite insert_id by done; split_and!; (done || lia) | done]. }
  destruct (decide (mag A = 0)) as [Hz | Hz].
  - unfold word_outcome. cbn [sub_word]. rewrite (proj2 (Z.eqb_neq w 0)) by lia. erewrite bind_eq by (by apply load_eq).
    rewrite (proj2 (is_zero_spec A HA) Hz). destruct (set_word_spec (alloc_ok := alloc_ok) h a A w Ha HA ltac:(lia)) as (h' & E & H). erewrite bind_eq by exact E.
    exists (room A 1). destruct (room A 1) eqn:Hroom.
    2: { subst h'. eexists. split_and!; [done | by apply (only_touched_refl _ _ A) |]. intros H. by rewrite (room_one A HA H) in Hroom. }
    destruct H as (R & -> & HR & Hm & Hn). unfold BN_set_negative. erewrite bind_eq by apply modify_cell.
    eexists. split; [done |]. split; [| done]. eexists. split; [done |].
    rewrite (not_true_is_false (BN_is_zero R)) by (rewrite is_zero_spec by done; lia). cbn [andb negb].
    split_and!; [by apply wf_set_neg | |].
    + intros H. change (mag (set_neg true R)) with (mag R) in H. lia.
    + unfold val at 1. change (mag (set_neg true R)) with (mag R). cbn [neg set_neg]. unfold val. rewrite (HsA Hz). lia.
  - destruct (neg A) eqn:Hn.
    + unfold word_outcome. change (sub_word alloc_ok 2 a w) with (sub_word alloc_ok (S 1) a w). cbn [sub_word].
      rewrite (proj2 (Z.eqb_neq w 0)) by lia. erewrite bind_eq by (by apply load_eq).
      rewrite (not_true_is_false _ (fun H => Hz (proj1 (is_zero_spec A HA) H))), Hn. erewrite bind_eq by (by apply modify_eq).
      destruct (add_word_positive 0 (<[a := set_neg false A]> h) a (set_neg false A) w) as (ok & h' & E & H & Hroom);
        [by rewrite lookup_insert_eq | by apply wf_set_neg | done | done | lia |].
      erewrite bind_eq by exact E. change (mag (set_neg false A)) with (mag A) in H.
      exists ok. destruct ok.
      * destruct H as (R & -> & HR & HsR & HvR). rewrite insert_insert_eq. erewrite bind_eq by apply modify_cell.
        eexists. split; [done |]. split; [| done]. exists (set_neg true R). split; [done |]. split; [by apply wf_set_neg |].
        unfold val in HvR. pose proof (mag_nonneg R HR). pose proof (mag_nonneg A HA). split.
        -- intros H1. change (mag (set_neg true R)) with (mag R) in H1. destruct (neg R); lia.
        -- unfold val. change (mag (set_neg true R)) with (mag R). cbn [neg set_neg]. rewrite Hn. destruct (neg R); lia.
      * destruct H as (R & -> & HR). rewrite insert_insert_eq. erewrite bind_eq by apply modify_cell.
        eexists. split; [done |]. split; [| exact Hroom]. eexists. split; [done |]. by apply wf_set_neg.
    + unfold word_outcome. destruct (sub_word_positive 1 h a A w Ha HA Hn Hz ltac:(lia)) as (R & E & HR & HsR & HvR).
      exists true. eexists. split; [exact E |]. split; [| done]. exists R. split_and!; [done | done | done |]. unfold val at 2. rewrite Hn. lia.
Qed.
End Specs.

(** C18: [BN_add] and [BN_sub] compute the sum and the difference of the integers, whether
    or not the result is one of the operands, or both operands are one object: on success the
    result object holds the exact value, without leading zero words or a negative zero, and no
    other object changes; they fail only if the result cannot be given the words (one more
    than the wider operand), and then no other object has changed. *)
Theorem bn_add_sub_exact alloc_ok h r a b R A B :
  h !! r = Some R -> h !! a = Some A -> h !! b = Some B -> wf R -> wf A -> wf B -> signed_ok A ->
  let n := S (Nat.max (width A) (width B)) in
  outcome alloc_ok (BN_add alloc_ok r a b) h r R n (val A + val B) /\
  outcome alloc_ok (BN_sub alloc_ok r a b) h r R n (val A - val B).
Proof. intros. split; [by apply add_outcome | by apply sub_outcome]. Qed.

Lemma bn_add_sub_exact_witness :
  let A := mk_bn [2 ^ 64 - 1] 1 true true false in
  let B := mk_bn [1; 0] 2 true true false in
  let h : gmap nat BIGNUM := <[1%nat := A]> (<[2%nat := B]> ∅) in
  outcome (fun _ => true) (BN_add (fun _ => true) 1 1 2) h 1 A 3 (- 2 ^ 64).
Proof.
  apply (bn_add_sub_exact (fun _ => true) _ 1 1 2 (mk_bn [2 ^ 64 - 1] 1 true true false)
           (mk_bn [2 ^ 64 - 1] 1 true true false) (mk_bn [1; 0] 2 true true false));
    [done | done | done | solve_wf | solve_wf | solve_wf | by vm_compute].
Defined.

(** [BN_add_word] and [BN_sub_word] add and subtract a word exactly, for either sign and
    through zero, without ever storing a negative zero; they fail only if one more word is
    needed and cannot be had. *)
Theorem bn_word_exact alloc_ok h a A w :
  h !! a = Some A -> wf A -> signed_ok A -> 0 <= w < 2 ^ 64 ->
  word_outcome alloc_ok (BN_add_word alloc_ok a w) h a A (val A + w) /\
  word_outcome alloc_ok (BN_sub_word alloc_ok a w) h a A (val A - w).
Proof. intros. split; [by apply add_word_outcome | by apply sub_word_outcome]. Qed.

Lemma bn_word_exact_witness :
  let A := mk_bn [5; 0] 2 true true false in
  let h : gmap nat BIGNUM := <[1%nat := A]> ∅ in
  word_outcome (fun _ => true) (BN_add_word (fun _ => true) 1 7) h 1 A 2.
Proof.
  apply (bn_word_exact (fun _ => true) _ 1 (mk_bn [5; 0] 2 true true false) 7); [done | solve_wf | by vm_compute | lia].
Defined.
End BnAdd.
