(* ===== verification/BnShift.v ===== *)
(** BIGNUM shifts and bits (crypto/fipsmodule/bn/shift.c).

    The loop of [BN_lshift] goes from the top word down, updating words it has already
    written; it runs on the store, as the result may be the operand.  The loops of the right
    shifts and of [BN_lshift1] store a word at an index no later round reads, so the words are
    read at once. *)

From S2P Require Import Prelude Internal Store BnWords Bn.

Open Scope Z_scope.

Module BnShift.
Import Internal BnWords Bn.
Open Scope c_scope.

(** * Word arrays *)

(** The loop of [bn_rshift_words], from the word [shift_words] on, and the last word. *)
Fixpoint rshift_loop (a : words) (shift_bits : Z) : words :=
  match a with
  | [] => []
  | [x] => [Z.shiftr x shift_bits]
  | x :: (y :: _) as a => Z.lor (Z.shiftr x shift_bits) (u64 (Z.shiftl y (64 - shift_bits))) :: rshift_loop a shift_bits
  end.

Definition bn_rshift_words (a : words) (shift : Z) : words :=
  let num := length a in
  let shift_bits := shift mod 64 in
  let shift_words := Z.to_nat (shift / 64) in
  if (num <=? shift_words)%nat then replicate num 0
  else
    (if shift_bits =? 0 then drop shift_words a else rshift_loop (drop shift_words a) shift_bits)
    ++ replicate shift_words 0.

Fixpoint bn_rshift1_words (a : words) : words :=
  match a with
  | [] => []
  | [x] => [Z.shiftr x 1]
  | x :: (y :: _) as a => Z.lor (Z.shiftr x 1) (u64 (Z.shiftl y 63)) :: bn_rshift1_words a
  end.

(** The loop of [BN_lshift1], with the bit carried out. *)
Fixpoint lshift1_loop (a : words) (c : Z) : words * Z :=
  match a with
  | [] => ([], c)
  | t :: a =>
      let '(r, c') := lshift1_loop a (Z.shiftr t 63) in
      (Z.lor (u64 (Z.shiftl t 1)) c :: r, c')
  end.

Definition bn_is_bit_set_words (a : words) (bit : Z) : bool :=
  let i := Z.to_nat (bit / 64) in
  let j := bit mod 64 in
  if (length a <=? i)%nat then false else Z.land (Z.shiftr (a !!! i) j) 1 =? 1.

(** One round of [bn_count_low_zero_bits_word]: the state is [l] and [bits]. *)
Definition low_zero_round (k : Z) (s : Z * Z) : Z * Z :=
  let '(l, bits) := s in
  let mask := constant_time_is_zero_w (u64 (Z.shiftl l (64 - k))) in
  (constant_time_select_w mask (Z.shiftr l k) l, bits + Z.land k mask).

Definition bn_count_low_zero_bits_word (l : Z) : Z :=
  let s := low_zero_round 2 (low_zero_round 4 (low_zero_round 8 (low_zero_round 16 (low_zero_round 32 (l, 0))))) in
  s.2 + Z.land 1 (constant_time_is_zero_w (u64 (Z.shiftl s.1 63))).

(** * Reading functions *)

Definition BN_is_bit_set (a : BIGNUM) (n : Z) : bool :=
  if n <? 0 then false else bn_is_bit_set_words (limbs a) n.

Fixpoint low_zero_loop (ws : words) (i : Z) (saw_nonzero ret : Z) : Z :=
  match ws with
  | [] => ret
  | w :: ws =>
      let nonzero := wnot 64 (constant_time_is_zero_w w) in
      let first_nonzero := Z.land (wnot 64 saw_nonzero) nonzero in
      let saw_nonzero := Z.lor saw_nonzero nonzero in
      let bits := bn_count_low_zero_bits_word w in
      low_zero_loop ws (i + 1) saw_nonzero (Z.lor ret (Z.land first_nonzero (i * 64 + bits)))
  end.

Definition BN_count_low_zero_bits (bn : BIGNUM) : Z := low_zero_loop (limbs bn) 0 0 0.

(** * Writing functions *)

Section Ops.
Context (alloc_ok : nat -> bool).

Definition read_word (i k : nat) : prog Z :=
  do ws <- read_words i k 1;
  r_ret (ws !!! 0%nat).

(** [for (i = a->width - 1; i >= 0; i--) t[nw + i] = f[i];] *)
Fixpoint lshift_move (r a nw i : nat) : prog unit :=
  match i with
  | O => r_ret tt
  | S i =>
      do l <- read_word a i;
      do_ put_words r (nw + i) [l];
      lshift_move r a nw i
  end.

Fixpoint lshift_bits (r a nw : nat) (lb : Z) (i : nat) : prog unit :=
  match i with
  | O => r_ret tt
  | S i =>
      do l <- read_word a i;
      do t <- read_word r (nw + i + 1);
      do_ put_words r (nw + i + 1) [Z.lor t (Z.shiftr l (64 - lb))];
      do_ put_words r (nw + i) [u64 (Z.shiftl l lb)];
      lshift_bits r a nw lb i
  end.

Definition BN_lshift (r a : nat) (n : Z) : prog bool :=
  if n <? 0 then r_ret false
  else
    do A <- r_load a;
    do_ r_modify r (set_neg (neg A));
    let nw := Z.to_nat (n / 64) in
    do ok <- bn_wexpand alloc_ok r (width A + nw + 1);
    if negb ok then r_ret false
    else
      let lb := n mod 64 in
      do_ put_words r (width A + nw) [0];
      do_ (if lb =? 0 then lshift_move r a nw (width A) else lshift_bits r a nw lb (width A));
      do_ put_words r 0 (replicate nw 0);
      do_ r_modify r (set_width (width A + nw + 1));
      do_ bn_set_minimal_width r;
      r_ret true.

Definition BN_lshift1 (r a : nat) : prog bool :=
  do A <- r_load a;
  do ok <-
    (if negb (r =? a)%nat then
       do_ r_modify r (set_neg (neg A));
       do ok <- bn_wexpand alloc_ok r (width A + 1);
       if negb ok then r_ret false
       else do_ r_modify r (set_width (width A)); r_ret true
     else bn_wexpand alloc_ok r (width A + 1));
  if negb ok then r_ret false
  else
    do ws <- read_words a 0 (width A);
    let '(ws, c) := lshift1_loop ws 0 in
    do_ put_words r 0 ws;
    if negb (c =? 0) then
      do_ put_words r (width A) [1];
      do_ r_modify r (fun bn => set_width (S (width bn)) bn);
      r_ret true
    else r_ret true.

(** The common part of the right shifts: [f] gives the words of the result. *)
Definition rshift_with (f : words -> words) (r a : nat) : prog bool :=
  do A <- r_load a;
  do ok <- bn_wexpand alloc_ok r (width A);
  if negb ok then r_ret false
  else
    do ws <- read_words a 0 (width A);
    do_ put_words r 0 (f ws);
    do_ r_modify r (fun bn => set_neg (neg A) (set_width (width A) bn));
    do_ bn_set_minimal_width r;
    r_ret true.

Definition BN_rshift (r a : nat) (n : Z) : prog bool :=
  if n <? 0 then r_ret false else rshift_with (fun ws => bn_rshift_words ws n) r a.

Definition BN_rshift1 (r a : nat) : prog bool := rshift_with bn_rshift1_words r a.

(** The rounds of [bn_rshift_secret_shift]; [i] is at most 31, so 32 rounds are enough. *)
Fixpoint secret_shift_loop (fuel : nat) (r tmp : nat) (n max_bits i : Z) (num : nat) : prog unit :=
  if Z.shiftr max_bits i =? 0 then r_ret tt
  else
    match fuel with
    | O => r_undefined
    | S fuel =>
        let mask := u64 (0 - Z.land (Z.shiftr n i) 1) in
        do ws <- read_words r 0 num;
        do_ put_words tmp 0 (bn_rshift_words ws (2 ^ i));
        do ts <- read_words tmp 0 num;
        do_ put_words r 0 (bn_select_words mask ts ws);
        secret_shift_loop fuel r tmp n max_bits (i + 1) num
    end.

(** [tmp] is what [BN_CTX_get] returns. *)
Definition bn_rshift_secret_shift (r a : nat) (n : Z) (tmp : option nat) : prog bool :=
  match tmp with
  | None => r_ret false
  | Some tmp =>
      do ok <- BN_copy alloc_ok r a;
      if negb ok then r_ret false
      else
        do R <- r_load r;
        do ok <- bn_wexpand alloc_ok tmp (width R);
        if negb ok then r_ret false
        else
          do_ secret_shift_loop 32 r tmp n (64 * Z.of_nat (width R)) 0 (width R);
          r_ret true
  end.

Definition BN_set_bit (a : nat) (n : Z) : prog bool :=
  if n <? 0 then r_ret false
  else
    let i := Z.to_nat (n / 64) in
    let j := n mod 64 in
    do A <- r_load a;
    do ok <-
      (if (width A <=? i)%nat then
         do ok <- bn_wexpand alloc_ok a (S i);
         if negb ok then r_ret false
         else
           do_ put_words a (width A) (replicate (S i - width A) 0);
           do_ r_modify a (set_width (S i));
           r_ret true
       else r_ret true);
    if negb ok then r_ret false
    else
      do x <- read_word a i;
      do_ put_words a i [Z.lor x (Z.shiftl 1 j)];
      r_ret true.

Definition BN_clear_bit (a : nat) (n : Z) : prog bool :=
  if n <? 0 then r_ret false
  else
    let i := Z.to_nat (n / 64) in
    let j := n mod 64 in
    do A <- r_load a;
    if (width A <=? i)%nat then r_ret false
    else
      do x <- read_word a i;
      do_ put_words a i [Z.land x (wnot 64 (Z.shiftl 1 j))];
      do_ bn_set_minimal_width a;
      r_ret true.

Definition BN_mask_bits (a : nat) (n : Z) : prog bool :=
  if n <? 0 then r_ret false
  else
    let w := Z.to_nat (n / 64) in
    let b := n mod 64 in
    do A <- r_load a;
    if (width A <=? w)%nat then r_ret true
    else
      do_ (if b =? 0 then r_modify a (set_width w)
           else
             do_ r_modify a (set_width (S w));
             do x <- read_word a w;
             put_words a w [Z.land x (wnot 64 (u64 (Z.shiftl (2 ^ 64 - 1) b)))]);
      do_ bn_set_minimal_width a;
      r_ret true.
End Ops.
(** * Word arrays: values *)

(** The low bits of a word, moved to the top. *)
Lemma u64_shiftl y k : 0 <= k < 64 -> u64 (Z.shiftl y k) = (y mod 2 ^ (64 - k)) * 2 ^ k.
Proof.
  intros Hk. unfold u64, wrap. rewrite Z.shiftl_mul_pow2 by lia. replace (2 ^ 64) with (2 ^ (64 - k) * 2 ^ k) by (rewrite <- Z.pow_add_r by lia; f_equal; lia).
  assert (0 < 2 ^ k) by (apply Z.pow_pos_nonneg; lia). assert (0 < 2 ^ (64 - k)) by (apply Z.pow_pos_nonneg; lia).
  apply Z.mul_mod_distr_r; lia.
Qed.

Lemma pow_split n k : 0 <= k <= n -> 2 ^ n = 2 ^ k * 2 ^ (n - k).
Proof. intros H. rewrite <- Z.pow_add_r by lia. f_equal. lia. Qed.

(** A word of the shifted number: its own high bits and the low bits of the next word. *)
Lemma join_words x y b :
  0 < b < 64 -> fits 64 x -> fits 64 y ->
  let r := Z.lor (Z.shiftr x b) (u64 (Z.shiftl y (64 - b))) in
  r = x / 2 ^ b + 2 ^ (64 - b) * (y mod 2 ^ b) /\ fits 64 r.
Proof.
  intros Hb [Hx Hx'] [Hy Hy']. cbv zeta. rewrite u64_shiftl by lia. replace (64 - (64 - b)) with b by lia.
  rewrite Z.shiftr_div_pow2 by lia. rewrite (pow_split 64 b) in Hx' by lia.
  assert (0 < 2 ^ b) by (apply Z.pow_pos_nonneg; lia). assert (0 < 2 ^ (64 - b)) by (apply Z.pow_pos_nonneg; lia).
  assert (0 <= x / 2 ^ b < 2 ^ (64 - b)) by (split; [apply Z.div_pos; lia | apply Z.div_lt_upper_bound; lia]).
  pose proof (Z.mod_pos_bound y (2 ^ b) ltac:(lia)).
  rewrite Z.lor_comm, <- Z.shiftl_mul_pow2 by lia. rewrite lor_shiftl_add by (unfold fits; lia).
  unfold fits. rewrite (pow_split 64 b) by lia. split; [lia | nia].
Qed.

Lemma value_div_word x V b :
  0 <= b <= 64 -> (x + 2 ^ 64 * V) / 2 ^ b = x / 2 ^ b + 2 ^ (64 - b) * V.
Proof.
  intros Hb. rewrite (pow_split 64 b) by lia. assert (0 < 2 ^ b) by (apply Z.pow_pos_nonneg; lia).
  rewrite <- Z.mul_assoc, (Z.mul_comm (2 ^ b)), Z.div_add by lia. done.
Qed.

Lemma value_mod_word x V b : 0 <= b <= 64 -> (x + 2 ^ 64 * V) mod 2 ^ b = x mod 2 ^ b.
Proof.
  intros Hb. rewrite (pow_split 64 b) by lia. assert (0 < 2 ^ b) by (apply Z.pow_pos_nonneg; lia).
  rewrite <- Z.mul_assoc, (Z.mul_comm (2 ^ b)), Z.mod_add by lia. done.
Qed.

Lemma rshift_loop_spec a b :
  0 < b < 64 -> words_ok a ->
  value (rshift_loop a b) = value a / 2 ^ b /\ length (rshift_loop a b) = length a /\ words_ok (rshift_loop a b).
Proof.
  intros Hb Ha. assert (0 < 2 ^ b) by (apply Z.pow_pos_nonneg; lia). induction Ha as [| x a Hx Ha IH]; [by split_and!; [| | apply Forall_nil] |].
  destruct a as [| y a].
  - cbn [rshift_loop value length]. rewrite Z.shiftr_div_pow2, Z.mul_0_r, !Z.add_0_r by lia. split_and!; [done | done |].
    apply words_ok_cons. split; [| by apply Forall_nil]. destruct Hx. split; [apply Z.div_pos; lia | apply Z.div_lt_upper_bound; nia].
  - pose proof (proj1 (words_ok_cons _ _) Ha) as [Hy _]. destruct IH as (Hv & Hl & Hok). destruct (join_words x y b Hb Hx Hy) as [E F].
    change (rshift_loop (x :: y :: a) b) with (Z.lor (Z.shiftr x b) (u64 (Z.shiftl y (64 - b))) :: rshift_loop (y :: a) b).
    cbn [value length]. rewrite Hl, Hv, E. split_and!; [| done | apply words_ok_cons; split; [by rewrite <- E | done]]. rewrite value_div_word by lia.
    cbn [value]. set (V := y + 2 ^ 64 * value a). rewrite <- (value_mod_word y (value a) b) by lia. fold V.
    rewrite (pow_split 64 b) by lia. pose proof (Z.div_mod V (2 ^ b) ltac:(lia)). nia.
Qed.

Lemma value_drop n a : words_ok a -> (n <= length a)%nat -> value (drop n a) = value a / 2 ^ (64 * Z.of_nat n).
Proof.
  intros Ha Hn. rewrite <- (take_drop n a) at 2. rewrite value_app, length_take, Nat.min_l by lia.
  apply (Z.div_unique_pos _ _ _ (value (take n a))); [| lia].
  pose proof (value_bound (take n a) ltac:(auto with word_db)) as Hb. rewrite length_take, Nat.min_l in Hb by lia.
  split; [apply value_nonneg; auto with word_db | done].
Qed.

Lemma rshift_words_spec a shift :
  0 <= shift -> words_ok a ->
  value (bn_rshift_words a shift) = value a / 2 ^ shift /\ length (bn_rshift_words a shift) = length a /\
  words_ok (bn_rshift_words a shift).
Proof.
  intros Hs Ha. unfold bn_rshift_words. cbv zeta. pose proof (Z.div_mod shift 64 ltac:(lia)) as E.
  pose proof (Z.mod_pos_bound shift 64 ltac:(lia)) as Hm. assert (0 <= shift / 64) by (apply Z.div_pos; lia).
  set (q := shift / 64) in *. set (b := shift mod 64) in *. set (n := Z.to_nat q).
  destruct (Nat.leb_spec (length a) n) as [Hle | Hlt].
  - rewrite value_zeros, length_replicate. split_and!; [| done | auto with word_db].
    symmetry. apply Z.div_small. split; [by apply value_nonneg |]. pose proof (value_bound a Ha).
    assert (2 ^ (64 * Z.of_nat (length a)) <= 2 ^ shift) by (apply Z.pow_le_mono_r; lia). lia.
  - assert (value a / 2 ^ shift = value (drop n a) / 2 ^ b) as ->.
    { rewrite value_drop by (done || lia). rewrite Z.div_div by (apply Z.neq_sym, Z.lt_neq, Z.pow_pos_nonneg || apply Z.pow_pos_nonneg; lia).
      f_equal. rewrite <- Z.pow_add_r by lia. f_equal. lia. }
    assert (forall l, value (l ++ replicate n 0) = value l) as Hz by (intros; rewrite value_app, value_zeros; lia).
    rewrite Hz, length_app, length_replicate. destruct (Z.eqb_spec b 0) as [Eb | Eb].
    + rewrite Eb, Z.pow_0_r, Z.div_1_r, length_drop. split_and!; [done | lia | apply words_ok_app; auto with word_db].
    + destruct (rshift_loop_spec (drop n a) b) as (Hv & Hl & Hok); [lia | auto with word_db |]. rewrite Hl, length_drop.
      split_and!; [done | lia | apply words_ok_app; auto with word_db].
Qed.

Lemma rshift1_words_eq a : bn_rshift1_words a = rshift_loop a 1.
Proof. induction a as [| x [| y a] IH]; [done | done |]. cbn [bn_rshift1_words rshift_loop] in *. by rewrite IH. Qed.

Lemma lshift1_loop_spec a c :
  words_ok a -> 0 <= c <= 1 ->
  let '(r, c') := lshift1_loop a c in
  value r + 2 ^ (64 * Z.of_nat (length a)) * c' = 2 * value a + c /\ length r = length a /\ words_ok r /\ 0 <= c' <= 1.
Proof.
  intros Ha. revert c. induction Ha as [| t a [Ht Ht'] Ha IH]; intros c Hc; cbn [lshift1_loop length value].
  { rewrite Z.mul_0_r, Z.pow_0_r. cbn [value]. split_and!; [lia | done | by apply Forall_nil | lia | lia]. }
  assert (Z.shiftr t 63 = t / 2 ^ 63) as -> by (apply Z.shiftr_div_pow2; lia).
  pose proof (Z.div_mod t (2 ^ 63) ltac:(lia)) as Et. pose proof (Z.mod_pos_bound t (2 ^ 63) ltac:(lia)) as Hm.
  assert (0 <= t / 2 ^ 63 <= 1) as Hq by lia. specialize (IH _ Hq). destruct (lshift1_loop a (t / 2 ^ 63)) as [r c'].
  destruct IH as (E & Hl & Hok & Hc'). cbn [value length]. rewrite Hl, u64_shiftl by lia. change (64 - 1) with 63.
  rewrite <- Z.shiftl_mul_pow2, lor_shiftl_add by (unfold fits; lia). replace (Z.of_nat (S (length a))) with (1 + Z.of_nat (length a)) by lia.
  rewrite Z.mul_add_distr_l, Z.pow_add_r by lia.
  split_and!; [lia | done | apply words_ok_cons; split; [unfold fits; lia | done] | lia | lia].
Qed.
(** * The store *)

(** Writing above [off + length ws] does not change what is read there. *)
Lemma holds_put_above h a off ws r R off' ws' :
  h !! r = Some R -> (off + length ws <= off')%nat -> (off' + length ws' <= length (d R))%nat -> holds h a off ws ->
  holds (<[r := set_d (overwrite (d R) off' ws') R]> h) a off ws.
Proof.
  intros Hr Ho Hl (A & Ha & Hw & Hl'). destruct (decide (a = r)) as [-> | Hne].
  - assert (A = R) as -> by congruence. eexists. split; [by rewrite lookup_insert_eq |]. cbn [d set_d].
    split; [| rewrite length_overwrite by lia; lia]. rewrite <- Hw at 2.
    apply list_eq. intros k. destruct (decide (k < length ws)%nat) as [Hk | Hk]; [| by rewrite !lookup_take_ge by lia].
    rewrite !lookup_take_lt, !lookup_drop by done. unfold overwrite.
    rewrite lookup_app_l by (rewrite length_take; lia). rewrite lookup_take_lt by lia. done.
  - exists A. by rewrite lookup_insert_ne by done.
Qed.

(** The array of [r] is [pre], of [k] words, the word [x] and the rest. *)
Lemma read_word_at (h : gmap nat BIGNUM) r X pre x post k :
  d X = pre ++ x :: post -> k = length pre -> read_word r k (<[r := X]> h) = Some (x, <[r := X]> h).
Proof.
  intros Hd ->. unfold read_word. erewrite bind_eq; [| apply (read_holds _ _ _ _ [x]); [| done]]; [done |].
  exists X. rewrite lookup_insert_eq, Hd, drop_app_length, length_app. cbn. split_and!; [done | done | lia].
Qed.

Lemma put_word_at (h : gmap nat BIGNUM) r X pre x post k v :
  d X = pre ++ x :: post -> k = length pre ->
  put_words r k [v] (<[r := X]> h) = Some (tt, <[r := set_d (pre ++ v :: post) X]> h).
Proof.
  intros Hd ->. erewrite put_eq; [| by rewrite lookup_insert_eq | rewrite Hd, length_app; cbn; lia].
  rewrite insert_insert_eq, Hd, overwrite_app. done.
Qed.

Lemma holds_read_word h a ws i x : holds h a 0 ws -> ws !! i = Some x -> read_word a i h = Some (x, h).
Proof.
  intros (A & Ha & Hw & Hl) Hi. pose proof (lookup_lt_Some _ _ _ Hi) as Hlt. unfold read_word.
  erewrite bind_eq; [| apply (read_holds _ _ _ _ [x]); [| done]]; [done |].
  exists A. split_and!; [done | | cbn; lia]. rewrite drop_0 in Hw.
  assert (d A !! i = Some x) as E by (rewrite <- Hw, lookup_take_lt in Hi by lia; done).
  cbn [length]. by rewrite (drop_S _ _ _ E).
Qed.

Lemma holds_shorter h a ws n : holds h a 0 ws -> holds h a 0 (take n ws).
Proof.
  intros (A & Ha & Hw & Hl). exists A. rewrite length_take. split_and!; [done | | lia].
  rewrite drop_0 in *. rewrite <- Hw at 2. rewrite take_take. done.
Qed.

(** A whole array written, in the object [r]. *)
Lemma put_low E ws ng :
  wf E -> (length ws <= length (d E))%nat -> words_ok ws ->
  let R := set_neg ng (set_width (length ws) (set_d (overwrite (d E) 0 ws) E)) in wf R /\ limbs R = ws.
Proof.
  intros [Hd Hw Hm] Hl Hok. cbv zeta. unfold overwrite. rewrite take_0, app_nil_l, Nat.add_0_l. split.
  - constructor; cbn [d width set_neg set_width set_d]; [apply words_ok_app; auto with word_db | |]; rewrite length_app, length_drop; lia.
  - unfold limbs. cbn [d width set_neg set_width set_d]. by rewrite take_app_length.
Qed.

Lemma minimized_val R : wf R -> val (minimized R) = val R.
Proof.
  intros HR. destruct (minimized_spec R HR) as (_ & Hm & _ & Hn). unfold val. rewrite Hm, Hn.
  destruct (neg R), (Z.eqb_spec (mag R) 0); cbn; lia.
Qed.

(** The end of an operation: the words are in place, and the width is made minimal. *)
Lemma finish_result h r R v :
  wf R -> val R = v ->
  exists h', (do_ bn_set_minimal_width r; r_ret true) (<[r := R]> h) = Some (true, h') /\ result h h' r v.
Proof.
  intros HR Hv. erewrite bind_eq by (apply set_minimal_width_eq, lookup_insert_eq). rewrite insert_insert_eq.
  eexists. split; [done |]. destruct (minimized_spec R HR) as (H1 & _ & H3 & _). eexists. split_and!; [done | done | done |].
  by rewrite minimized_val.
Qed.

(** ** Left shifts *)

(** The words of [r] once the rounds for the words of index at least [i] are done. *)
Record shifted (LA : words) (nw : nat) (lb : Z) (i : nat) (p : words) : Prop := mk_shifted {
  sh_ok : words_ok p;
  sh_len : (nw + length LA + 1 <= length p)%nat;
  sh_low : exists t q, drop (nw + i) p = t * 2 ^ lb :: q;
  sh_value : value (take (length LA + 1 - i) (drop (nw + i) p)) = 2 ^ lb * value (drop i LA) }.

(** The array around the words [nw + i] and [nw + i + 1]. *)
Lemma shifted_split LA nw lb i p :
  shifted LA nw lb (S i) p -> (S i <= length LA)%nat ->
  exists pre w t q, p = pre ++ w :: t * 2 ^ lb :: q /\ length pre = (nw + i)%nat /\
    value (t * 2 ^ lb :: take (length LA - i - 1) q) = 2 ^ lb * value (drop (S i) LA).
Proof.
  intros [Hok Hlen (t & q & Hd) Hv] Hi.
  assert (is_Some (p !! (nw + i)%nat)) as [w Hw] by (apply lookup_lt_is_Some; lia).
  exists (take (nw + i) p), w, t, q. split_and!; [| rewrite length_take; lia |].
  - rewrite <- (take_drop (nw + i) p) at 1. f_equal. rewrite (drop_S _ _ _ Hw). f_equal. by replace (S (nw + i)) with (nw + S i)%nat by lia.
  - rewrite Hd in Hv. replace (length LA + 1 - S i)%nat with (S (length LA - i - 1)) in Hv by lia. done.
Qed.

Lemma shift_word_value l lb t :
  0 < lb < 64 -> fits 64 l -> fits 64 (t * 2 ^ lb) ->
  let v := Z.lor (t * 2 ^ lb) (Z.shiftr l (64 - lb)) in
  fits 64 v /\ v = t * 2 ^ lb + l / 2 ^ (64 - lb) /\ u64 (Z.shiftl l lb) + 2 ^ 64 * (l / 2 ^ (64 - lb)) = 2 ^ lb * l.
Proof.
  intros Hlb [Hl Hl'] Ht. cbv zeta. rewrite u64_shiftl, Z.shiftr_div_pow2 by lia.
  assert (0 < 2 ^ (64 - lb)) by (apply Z.pow_pos_nonneg; lia).
  assert (fits lb (l / 2 ^ (64 - lb))) as Hq.
  { split; [apply Z.div_pos; lia | apply Z.div_lt_upper_bound; [lia |]]. rewrite <- Z.pow_add_r by lia. by replace (64 - lb + lb) with 64 by lia. }
  assert (2 ^ lb <= 2 ^ 64) by (apply Z.pow_le_mono_r; lia).
  split_and!.
  - apply fits_lor; [lia | done |]. destruct Hq. split; lia.
  - rewrite <- Z.shiftl_mul_pow2 by lia. rewrite lor_shiftl_add by (done || lia). by rewrite Z.shiftl_mul_pow2 by lia.
  - rewrite (pow_split 64 lb) by lia. pose proof (Z.div_mod l (2 ^ (64 - lb)) ltac:(lia)). nia.
Qed.

Lemma lshift_bits_spec h r a LA nw lb i X :
  0 < lb < 64 -> words_ok LA -> (i <= length LA)%nat -> holds (<[r := X]> h) a 0 (take i LA) -> shifted LA nw lb i (d X) ->
  exists p, lshift_bits r a nw lb i (<[r := X]> h) = Some (tt, <[r := set_d p X]> h) /\ length p = length (d X) /\ shifted LA nw lb 0 p.
Proof.
  intros Hlb HLA. revert X. induction i as [| i IH]; intros X Hi Hh Hs; cbn [lshift_bits].
  { exists (d X). split_and!; [| done | done]. by destruct X. }
  assert (is_Some (LA !! i)) as [l El] by (apply lookup_lt_is_Some; lia).
  pose proof (words_ok_lookup _ _ _ HLA El) as Hl.
  erewrite bind_eq by (apply (holds_read_word _ _ _ _ l Hh); by rewrite lookup_take_lt by lia).
  destruct (shifted_split LA nw lb i (d X) Hs Hi) as (pre & w & t & q & Hd & Hpre & Hv). destruct Hs as [Hok Hlen _ _].
  rewrite Hd in Hok. apply words_ok_app in Hok as [Hok1 Hok2]. apply words_ok_cons in Hok2 as [Hw Hok2]. apply words_ok_cons in Hok2 as [Ht Hok2].
  destruct (shift_word_value l lb t Hlb Hl Ht) as (Fv & Ev & Eu). cbv zeta in Fv, Ev.
  set (v := Z.lor (t * 2 ^ lb) (Z.shiftr l (64 - lb))) in *.
  erewrite bind_eq by (apply (read_word_at _ _ _ (pre ++ [w]) _ q); [rewrite <- app_assoc; exact Hd | rewrite length_app; cbn; lia]).
  fold v. erewrite bind_eq by (apply (put_word_at _ _ _ (pre ++ [w]) (t * 2 ^ lb) q); [rewrite <- app_assoc; exact Hd | rewrite length_app; cbn; lia]).
  erewrite bind_eq by (apply (put_word_at _ _ _ pre w (v :: q)); [by rewrite <- app_assoc | lia]).
  set (u := u64 (Z.shiftl l lb)) in *. set (p1 := pre ++ u :: v :: q). set (X1 := set_d p1 (set_d _ X)).
  assert (X1 = set_d p1 X) as EX by done. clearbody X1. subst X1.
  assert (length p1 = length (d X)) as Hlp by (rewrite Hd; unfold p1; rewrite !length_app; done).
  assert (holds (<[r := set_d p1 X]> h) a 0 (take i LA)) as Hh1.
  { replace (set_d p1 X) with (set_d (overwrite (d X) (nw + i) [u; v]) X)
      by (f_equal; rewrite Hd, <- Hpre, overwrite_app; done).
    rewrite <- (insert_insert_eq h r _ X). apply holds_put_above; [by rewrite lookup_insert_eq | rewrite length_take; lia | cbn; lia |].
    replace (take i LA) with (take i (take (S i) LA)) by (rewrite take_take; f_equal; lia). by apply holds_shorter. }
  destruct (IH (set_d p1 X)) as (p & E & Hl1 & Hsh); [lia | done | | exists p; split_and!; [exact E | cbn [d set_d] in Hl1; lia | done]].
  assert (drop (nw + i) p1 = u :: v :: q) as Hdrop by (unfold p1; rewrite <- Hpre; apply drop_app_length).
  constructor; cbn [d set_d].
  - apply words_ok_app. split; [done |]. apply words_ok_cons. split; [apply wrap_fits; lia |]. by apply words_ok_cons.
  - lia.
  - exists (l mod 2 ^ (64 - lb)), (v :: q). rewrite Hdrop. unfold u. by rewrite u64_shiftl by lia.
  - rewrite Hdrop. replace (length LA + 1 - i)%nat with (S (S (length LA - i - 1))) by lia. cbn [take value].
    rewrite (drop_S _ _ _ El). cbn [value] in *. rewrite Ev. lia.
Qed.

Lemma lshift_move_spec h r a LA nw i X :
  words_ok LA -> (i <= length LA)%nat -> holds (<[r := X]> h) a 0 (take i LA) -> shifted LA nw 0 i (d X) ->
  exists p, lshift_move r a nw i (<[r := X]> h) = Some (tt, <[r := set_d p X]> h) /\ length p = length (d X) /\ shifted LA nw 0 0 p.
Proof.
  intros HLA. revert X. induction i as [| i IH]; intros X Hi Hh Hs; cbn [lshift_move].
  { exists (d X). split_and!; [| done | done]. by destruct X. }
  assert (is_Some (LA !! i)) as [l El] by (apply lookup_lt_is_Some; lia).
  pose proof (words_ok_lookup _ _ _ HLA El) as Hl.
  erewrite bind_eq by (apply (holds_read_word _ _ _ _ l Hh); by rewrite lookup_take_lt by lia).
  destruct (shifted_split LA nw 0 i (d X) Hs Hi) as (pre & w & t & q & Hd & Hpre & Hv). destruct Hs as [Hok Hlen _ _].
  rewrite Hd in Hok. apply words_ok_app in Hok as [Hok1 Hok2]. apply words_ok_cons in Hok2 as [Hw Hok2].
  erewrite bind_eq by (apply (put_word_at _ _ _ pre w (t * 2 ^ 0 :: q)); [exact Hd | lia]).
  set (p1 := pre ++ l :: t * 2 ^ 0 :: q). assert (length p1 = length (d X)) as Hlp by (rewrite Hd; unfold p1; rewrite !length_app; done).
  assert (holds (<[r := set_d p1 X]> h) a 0 (take i LA)) as Hh1.
  { replace (set_d p1 X) with (set_d (overwrite (d X) (nw + i) [l]) X)
      by (f_equal; rewrite Hd, <- Hpre, overwrite_app; done).
    rewrite <- (insert_insert_eq h r _ X). apply holds_put_above; [by rewrite lookup_insert_eq | rewrite length_take; lia | cbn; lia |].
    replace (take i LA) with (take i (take (S i) LA)) by (rewrite take_take; f_equal; lia). by apply holds_shorter. }
  destruct (IH (set_d p1 X)) as (p & E & Hl1 & Hsh); [lia | done | | exists p; split_and!; [exact E | cbn [d set_d] in Hl1; lia | done]].
  assert (drop (nw + i) p1 = l :: t * 2 ^ 0 :: q) as Hdrop by (unfold p1; rewrite <- Hpre; apply drop_app_length).
  constructor; cbn [d set_d].
  - apply words_ok_app. split; [done |]. by apply words_ok_cons.
  - lia.
  - exists l, (t * 2 ^ 0 :: q). by rewrite Hdrop, (Z.pow_0_r 2), !Z.mul_1_r.
  - rewrite Hdrop. replace (length LA + 1 - i)%nat with (S (S (length LA - i - 1))) by lia. cbn [take value].
    rewrite (drop_S _ _ _ El). cbn [value] in *. rewrite Z.pow_0_r in *. lia.
Qed.

(** * Bits *)

(** Bit [n] of the number is bit [n mod 64] of word [n / 64]. *)
Lemma value_testbit a n :
  words_ok a -> 0 <= n -> Z.testbit (value a) n = Z.testbit (default 0 (a !! Z.to_nat (n / 64))) (n mod 64).
Proof.
  intros Ha. revert n. induction Ha as [| w a [Hw Hw'] Ha IH]; intros n Hn; [by cbn; rewrite !Z.testbit_0_l |].
  cbn [value]. destruct (Z.ltb_spec n 64) as [Hlt | Hge].
  - rewrite Z.div_small, Z.mod_small by lia. cbn [lookup list_lookup default]. rewrite <- (Z.mod_pow2_bits_low _ 64) by lia.
    rewrite (Z.mul_comm (2 ^ 64)), Z_mod_plus_full, Z.mod_small by lia. done.
  - replace n with (n - 64 + 64) at 1 by lia. rewrite <- Z.div_pow2_bits by lia.
    rewrite (Z.mul_comm (2 ^ 64)), Z.div_add, Z.div_small, Z.add_0_l, IH by lia.
    replace (n / 64) with ((n - 64) / 64 + 1) by (rewrite <- (Z.div_add _ 1) by lia; f_equal; lia).
    replace (n mod 64) with ((n - 64) mod 64) by (rewrite <- (Z_mod_plus_full (n - 64) 1); f_equal; lia).
    rewrite Z2Nat.inj_add, Nat.add_1_r by (try apply Z.div_pos; lia). done.
Qed.

Lemma is_bit_set_spec A n : wf A -> BN_is_bit_set A n = Z.testbit (mag A) n.
Proof.
  intros HA. unfold BN_is_bit_set, bn_is_bit_set_words. cbv zeta. destruct (Z.ltb_spec n 0) as [Hlt | Hge]; [by rewrite Z.testbit_neg_r |].
  unfold mag. rewrite value_testbit by (auto with word_db). pose proof (Z.mod_pos_bound n 64 ltac:(lia)).
  destruct (Nat.leb_spec (length (limbs A)) (Z.to_nat (n / 64))) as [Hle | Hlt].
  - rewrite (lookup_ge_None_2 _ _ Hle). cbn. by rewrite Z.testbit_0_l.
  - rewrite list_lookup_lookup_total_lt by done. cbn [default]. rewrite Z.testbit_eqb, <- Z.shiftr_div_pow2 by lia.
    change 1 with (Z.ones 1) at 1. by rewrite Z.land_ones by lia.
Qed.

(** Replacing a word. *)
Lemma word_update X i v :
  wf X -> (i < width X)%nat -> fits 64 v ->
  let R := set_d (overwrite (d X) i [v]) X in wf R /\ limbs R = <[i := v]> (limbs X).
Proof.
  intros [Hd Hw Hm] Hi Hv. cbv zeta. assert (overwrite (d X) i [v] = <[i := v]> (d X)) as E.
  { unfold overwrite. rewrite insert_take_drop by lia. cbn [length app]. by rewrite Nat.add_1_r. }
  rewrite E. split; [constructor; cbn [d width set_d]; rewrite ?length_insert; try done; by apply Forall_insert |].
  unfold limbs. cbn [d width set_d]. by rewrite take_insert_lt by lia.
Qed.

Lemma read_limb (h : gmap nat BIGNUM) a X i :
  h !! a = Some X -> wf X -> (i < width X)%nat -> read_word a i h = Some (limbs X !!! i, h).
Proof.
  intros Ha HX Hi. apply (holds_read_word _ _ (limbs X)).
  - exists X. rewrite drop_0, length_limbs by done. split_and!; [done | done | by destruct HX].
  - apply list_lookup_lookup_total_lt. by rewrite length_limbs.
Qed.

(** Changing bit [j] of word [i] changes bit [64 * i + j] of the number. *)
Lemma update_bits X n (g : Z -> Z) (bit : bool -> bool) :
  words_ok X -> 0 <= n -> (Z.to_nat (n / 64) < length X)%nat ->
  let i := Z.to_nat (n / 64) in
  fits 64 (g (X !!! i)) ->
  (forall m, 0 <= m < 64 -> Z.testbit (g (X !!! i)) m = if m =? n mod 64 then bit (Z.testbit (X !!! i) m) else Z.testbit (X !!! i) m) ->
  forall m, 0 <= m -> Z.testbit (value (<[i := g (X !!! i)]> X)) m = if m =? n then bit (Z.testbit (value X) m) else Z.testbit (value X) m.
Proof.
  intros HX Hn Hi i Hf Hg m Hm. rewrite !value_testbit by (done || apply Forall_insert; done).
  pose proof (Z.mod_pos_bound m 64 ltac:(lia)). pose proof (Z.div_mod m 64 ltac:(lia)). pose proof (Z.div_mod n 64 ltac:(lia)).
  assert (0 <= m / 64) by (apply Z.div_pos; lia). assert (0 <= n / 64) by (apply Z.div_pos; lia).
  destruct (decide (Z.to_nat (m / 64) = i)) as [E | E].
  - rewrite E, list_lookup_insert_eq, (list_lookup_lookup_total_lt X i) by done. cbn [default]. rewrite Hg by lia. unfold i in E.
    destruct (Z.eqb_spec (m mod 64) (n mod 64)), (Z.eqb_spec m n); (done || lia).
  - rewrite list_lookup_insert_ne by done. by destruct (Z.eqb_spec m n) as [-> |].
Qed.

Lemma value_set_bit X n :
  words_ok X -> 0 <= n -> (Z.to_nat (n / 64) < length X)%nat ->
  let i := Z.to_nat (n / 64) in let v := Z.lor (X !!! i) (Z.shiftl 1 (n mod 64)) in
  fits 64 v /\ value (<[i := v]> X) = Z.setbit (value X) n.
Proof.
  intros HX Hn Hi. cbv zeta. set (i := Z.to_nat (n / 64)) in *. pose proof (Z.mod_pos_bound n 64 ltac:(lia)) as Hj.
  assert (fits 64 (X !!! i)) as Hx by (eapply words_ok_lookup; [done | by apply list_lookup_lookup_total_lt]).
  assert (fits 64 (Z.lor (X !!! i) (Z.shiftl 1 (n mod 64)))) as Hf.
  { apply fits_lor; [lia | done |]. rewrite Z.shiftl_1_l. split; [apply Z.pow_nonneg; lia | apply Z.pow_lt_mono_r; lia]. }
  split; [done |]. apply Z.bits_inj'. intros m Hm. rewrite Z.setbit_eqb by lia.
  rewrite (update_bits X n (fun x => Z.lor x (Z.shiftl 1 (n mod 64))) (fun _ => true)); try done.
  - rewrite (Z.eqb_sym m). by destruct (Z.eqb_spec n m).
  - intros k Hk. rewrite Z.lor_spec, Z.shiftl_1_l, Z.pow2_bits_eqb by lia. rewrite (Z.eqb_sym k).
    destruct (Z.eqb_spec (n mod 64) k); [apply orb_true_r | apply orb_false_r].
Qed.

Lemma value_clear_bit X n :
  words_ok X -> 0 <= n -> (Z.to_nat (n / 64) < length X)%nat ->
  let i := Z.to_nat (n / 64) in let v := Z.land (X !!! i) (wnot 64 (Z.shiftl 1 (n mod 64))) in
  fits 64 v /\ value (<[i := v]> X) = Z.clearbit (value X) n.
Proof.
  intros HX Hn Hi. cbv zeta. set (i := Z.to_nat (n / 64)) in *. pose proof (Z.mod_pos_bound n 64 ltac:(lia)) as Hj.
  assert (fits 64 (X !!! i)) as Hx by (eapply words_ok_lookup; [done | by apply list_lookup_lookup_total_lt]).
  assert (fits 64 (Z.shiftl 1 (n mod 64))) as Hs.
  { rewrite Z.shiftl_1_l. split; [apply Z.pow_nonneg; lia | apply Z.pow_lt_mono_r; lia]. }
  assert (fits 64 (Z.land (X !!! i) (wnot 64 (Z.shiftl 1 (n mod 64))))) as Hf.
  { apply fits_land; [lia | done |]. apply wnot_fits; done. }
  split; [done |]. apply Z.bits_inj'. intros m Hm. rewrite Z.clearbit_eqb by lia.
  rewrite (update_bits X n (fun x => Z.land x (wnot 64 (Z.shiftl 1 (n mod 64)))) (fun _ => false)); try done.
  - rewrite (Z.eqb_sym m). destruct (Z.eqb_spec n m); cbn; [by rewrite andb_false_r | by rewrite andb_true_r].
  - intros k Hk. rewrite Z.land_spec, wnot_testbit, Z.shiftl_1_l, Z.pow2_bits_eqb by (done || lia). rewrite (Z.eqb_sym k).
    destruct (Z.eqb_spec (n mod 64) k); [apply andb_false_r | apply andb_true_r].
Qed.

(** ** Trailing zeros *)

(** [t] is the number of low zero bits of [l]. *)
Definition low_zeros (l t : Z) : Prop := 0 <= t /\ Z.testbit l t = true /\ l mod 2 ^ t = 0.

Lemma low_zeros_unique l t t' : low_zeros l t -> low_zeros l t' -> t = t'.
Proof.
  assert (forall t t', low_zeros l t -> low_zeros l t' -> t < t' -> False) as H.
  { intros u u' (Hu & Hb & _) (_ & _ & Hm) Hlt. rewrite <- (Z.mod_pow2_bits_low l u') in Hb by lia.
    by rewrite Hm, Z.testbit_0_l in Hb. }
  intros H1 H2. destruct (Z.lt_trichotomy t t') as [Hlt | [-> | Hlt]]; [by destruct (H t t') | done | by destruct (H t' t)].
Qed.

Lemma low_zero_round_spec k l t bits :
  0 < k < 64 -> fits 64 l -> low_zeros l t -> t < 2 * k ->
  let '(l', bits') := low_zero_round k (l, bits) in
  exists t', fits 64 l' /\ low_zeros l' t' /\ t' < k /\ bits' + t' = bits + t.
Proof.
  intros Hk Hl (Ht & Hb & Hm) Hlt. cbn [low_zero_round]. rewrite u64_shiftl by lia. replace (64 - (64 - k)) with k by lia.
  assert (0 < 2 ^ k) by (apply Z.pow_pos_nonneg; lia). assert (0 < 2 ^ (64 - k)) by (apply Z.pow_pos_nonneg; lia).
  pose proof (Z.mod_pos_bound l (2 ^ k) ltac:(lia)) as Hmb.
  rewrite is_zero_w_mask by (unfold fits; rewrite (pow_split 64 k) by lia; nia).
  assert (((l mod 2 ^ k * 2 ^ (64 - k)) =? 0) = (l mod 2 ^ k =? 0)) as ->.
  { destruct (Z.eqb_spec (l mod 2 ^ k) 0) as [-> | E]; [done |]. apply Z.eqb_neq. nia. }
  assert (fits 64 (Z.shiftr l k)) as Hs.
  { rewrite Z.shiftr_div_pow2 by lia. destruct Hl. split; [apply Z.div_pos; lia | apply Z.div_lt_upper_bound; nia]. }
  rewrite select_w_mask by done. rewrite (Z.land_comm k), land_mask by (unfold fits; lia).
  destruct (Z.eqb_spec (l mod 2 ^ k) 0) as [E | E].
  - assert (k <= t) as Hkt.
    { apply Z.nlt_ge. intros Hlt'. rewrite <- (Z.mod_pow2_bits_low l k), E, Z.testbit_0_l in Hb by lia. done. }
    exists (t - k). split_and!; [done | | lia | lia]. split_and!; [lia | |].
    + rewrite Z.shiftr_spec by lia. by replace (t - k + k) with t by lia.
    + rewrite Z.shiftr_div_pow2 by lia. rewrite (pow_split t k) in Hm by lia.
      apply Z.mod_divide in Hm as [q Hq]; [| apply Z.neq_mul_0; split; apply Z.pow_nonzero; lia].
      rewrite Hq, Z.mul_assoc, (Z.mul_comm _ (2 ^ k)), <- !Z.mul_assoc, (Z.mul_comm (2 ^ k)), Z.div_mul by lia.
      apply Z.mod_mul, Z.pow_nonzero; lia.
  - exists t. split_and!; [done | done | | lia]. apply Z.nle_gt. intros Hkt. apply E.
    rewrite (pow_split t k) in Hm by lia. apply Z.mod_divide in Hm as [q Hq]; [| apply Z.neq_mul_0; split; apply Z.pow_nonzero; lia].
    rewrite Hq, Z.mul_assoc, (Z.mul_comm _ (2 ^ k)), <- !Z.mul_assoc, (Z.mul_comm (2 ^ k)). apply Z.mod_mul. lia.
Qed.

Lemma low_zeros_exists l : 0 < l -> exists t, low_zeros l t /\ t <= Z.log2 l.
Proof.
  intros Hl. pattern l. apply (Z_lt_induction (fun l => 0 < l -> exists t, low_zeros l t /\ t <= Z.log2 l)); [| lia | done].
  clear l Hl. intros l IH Hl. destruct (Z.odd l) eqn:Ho.
  - exists 0. pose proof (Z.log2_nonneg l). split; [| done]. split_and!; [lia | by rewrite Z.bit0_odd | by rewrite Z.pow_0_r, Z.mod_1_r].
  - rewrite Zodd_mod in Ho. pose proof (Z.div_mod l 2 ltac:(lia)). pose proof (Z.mod_pos_bound l 2 ltac:(lia)).
    assert (l mod 2 = 0) as E by (destruct (Z.eqb_spec (l mod 2) 1); [done | lia]). assert (0 < l / 2 < l) as Hq by lia.
    destruct (IH (l / 2)) as (t & (Ht & Hb & Hm) & Hlog); [lia | lia |]. exists (Z.succ t).
    assert (l = 2 * (l / 2)) as El by lia. set (q := l / 2) in *. rewrite El. split; [split_and!; [lia | |] |].
    + rewrite Z.testbit_even_succ by lia. done.
    + rewrite Z.pow_succ_r, Z.mul_mod_distr_l by (try apply Z.pow_nonzero; lia). rewrite Hm. done.
    + rewrite Z.log2_double by lia. lia.
Qed.

Lemma low_zero_word_spec l t : fits 64 l -> low_zeros l t -> t < 64 -> bn_count_low_zero_bits_word l = t.
Proof.
  intros Hl Ht Hlt. unfold bn_count_low_zero_bits_word. cbv zeta.
  pose proof (low_zero_round_spec 32 l t 0 ltac:(lia) Hl Ht ltac:(lia)) as H. destruct (low_zero_round 32 (l, 0)) as [l1 b1]. destruct H as (t1 & F1 & Z1 & L1 & E1).
  pose proof (low_zero_round_spec 16 l1 t1 b1 ltac:(lia) F1 Z1 ltac:(lia)) as H. destruct (low_zero_round 16 (l1, b1)) as [l2 b2]. destruct H as (t2 & F2 & Z2 & L2 & E2).
  pose proof (low_zero_round_spec 8 l2 t2 b2 ltac:(lia) F2 Z2 ltac:(lia)) as H. destruct (low_zero_round 8 (l2, b2)) as [l3 b3]. destruct H as (t3 & F3 & Z3 & L3 & E3).
  pose proof (low_zero_round_spec 4 l3 t3 b3 ltac:(lia) F3 Z3 ltac:(lia)) as H. destruct (low_zero_round 4 (l3, b3)) as [l4 b4]. destruct H as (t4 & F4 & Z4 & L4 & E4).
  pose proof (low_zero_round_spec 2 l4 t4 b4 ltac:(lia) F4 Z4 ltac:(lia)) as H. destruct (low_zero_round 2 (l4, b4)) as [l5 b5]. destruct H as (t5 & F5 & Z5 & L5 & E5).
  cbn [fst snd]. pose proof (low_zero_round_spec 1 l5 t5 b5 ltac:(lia) F5 Z5 ltac:(lia)) as H. cbn [low_zero_round] in H.
  change (64 - 1) with 63 in H. destruct H as (t6 & _ & (? & _) & L6 & E6). lia.
Qed.

Lemma low_zero_loop_done ws i ret : words_ok ws -> low_zero_loop ws i (mask true) ret = ret.
Proof.
  intros Hok. revert i ret. induction Hok as [| w ws Hw Hok IH]; intros i ret; cbn [low_zero_loop]; [done |].
  rewrite is_zero_w_mask, !wnot_mask by done. cbn [negb].
  assert (Z.land (mask false) (mask (negb (w =? 0))) = 0) as -> by apply Z.land_0_l.
  rewrite Z.land_0_l, Z.lor_0_r. replace (Z.lor (mask true) (mask (negb (w =? 0)))) with (mask true) by (by destruct (w =? 0)). apply IH.
Qed.

Lemma low_zero_loop_spec ws i :
  words_ok ws -> 0 <= i -> (i + Z.of_nat (length ws)) * 64 < 2 ^ 64 ->
  (value ws = 0 -> low_zero_loop ws i (mask false) 0 = 0) /\
  (forall t, low_zeros (value ws) t -> low_zero_loop ws i (mask false) 0 = i * 64 + t).
Proof.
  intros Hok. revert i. induction Hok as [| w ws Hw Hok IH]; intros i Hi Hb; cbn [low_zero_loop length value] in *.
  { split; [done |]. intros t (_ & Hbit & _). by rewrite Z.testbit_0_l in Hbit. }
  rewrite is_zero_w_mask, !wnot_mask by done. cbn [negb]. pose proof (value_nonneg ws Hok) as Hnn. destruct Hw as [Hw Hw'].
  destruct (Z.eqb_spec w 0) as [-> | Hne]; cbn [negb].
  - replace (Z.land (mask true) (mask false)) with 0 by done. rewrite Z.land_0_l. change (Z.lor (mask false) (mask false)) with (mask false).
    change (Z.lor 0 0) with 0. destruct (IH (i + 1)) as [H0 H1]; [lia | lia |]. split; [intros; apply H0; lia |].
    intros t (Ht & Hbit & Hm). rewrite Z.add_0_l in Hbit, Hm.
    assert (64 <= t) as H64.
    { apply Z.nlt_ge. intros Hlt. rewrite Z.mul_comm, Z.mul_pow2_bits_low in Hbit by lia. done. }
    rewrite (H1 (t - 64)); [lia |]. split_and!; [lia | |].
    + rewrite <- Hbit, Z.mul_comm, Z.mul_pow2_bits by lia. done.
    + rewrite (pow_split t 64) in Hm by lia. rewrite Z.mul_mod_distr_l in Hm by (try apply Z.pow_nonzero; lia). nia.
  - split; [intros; nia |]. intros t Ht. destruct (low_zeros_exists w) as (u & Hu & Hlog); [lia |].
    assert (Z.log2 w < 64) by (apply Z.log2_lt_pow2; lia).
    assert (low_zeros (w + 2 ^ 64 * value ws) u) as Hu'.
    { destruct Hu as (H1 & H2 & H3). split_and!; [done | | by rewrite value_mod_word by lia].
      rewrite <- (Z.mod_pow2_bits_low _ 64) by lia. rewrite (Z.mul_comm (2 ^ 64)), Z_mod_plus_full, Z.mod_small by lia. done. }
    rewrite (low_zeros_unique _ _ _ Ht Hu'). rewrite (low_zero_word_spec w u) by (done || lia).
    change (Z.land (mask true) (mask true)) with (mask true). change (Z.lor (mask false) (mask true)) with (mask true).
    rewrite low_zero_loop_done by done. rewrite Z.lor_0_l. destruct Hu. apply land_mask. unfold fits. lia.
Qed.

Lemma count_low_zero_bits_spec A :
  wf A -> (mag A = 0 -> BN_count_low_zero_bits A = 0) /\ (forall t, low_zeros (mag A) t -> BN_count_low_zero_bits A = t).
Proof.
  intros HA. unfold BN_count_low_zero_bits. destruct (low_zero_loop_spec (limbs A) 0) as [H1 H2]; [auto with word_db | lia | |].
  - rewrite length_limbs by done. destruct HA as [_ Hw Hm]. change BN_MAX_WORDS with 8388607 in Hm. lia.
  - split; [done |]. intros t Ht. exact (H2 t Ht).
Qed.

Section Specs.
Context (alloc_ok : nat -> bool).
Local Abbreviation outcome := (outcome alloc_ok).

Lemma rshift_with_spec h r a R A f :
  h !! r = Some R -> h !! a = Some A -> wf R -> wf A ->
  length (f (limbs A)) = width A -> words_ok (f (limbs A)) ->
  outcome (rshift_with alloc_ok f r a) h r R (width A) (if neg A then - value (f (limbs A)) else value (f (limbs A))).
Proof.
  intros Hr Ha HR HA Hl Hok. unfold rshift_with, Bn.outcome. erewrite bind_eq by (by apply load_eq).
  erewrite bind_eq by (by apply wexpand_eq). exists (room alloc_ok R (width A)).
  destruct (room alloc_ok R (width A)) eqn:Hroom; cbn [negb].
  2: { exists h. split_and!; [done | by apply (only_touched_refl _ _ R) |]. intros Hall. rewrite <- Hroom. by apply Hall. }
  destruct (expanded_spec R _ HR Hroom) as (HE & Hlen & _). set (E := expanded R (width A)) in *.
  erewrite bind_eq by (apply read_holds; [by apply (holds_expanded (alloc_ok := alloc_ok) _ _ A) | by rewrite length_limbs]).
  erewrite bind_eq by (apply put_eq; [by rewrite lookup_insert_eq | lia]). rewrite insert_insert_eq.
  erewrite bind_eq by apply modify_cell.
  destruct (put_low E (f (limbs A)) (neg A) HE) as (H1 & H2); [lia | done |]. rewrite Hl in H1, H2.
  destruct (finish_result h r _ (if neg A then - value (f (limbs A)) else value (f (limbs A))) H1) as (h' & E1 & E2).
  { unfold val, mag. rewrite H2. done. }
  exists h'. done.
Qed.

Lemma quot_sign A p : wf A -> 0 < p -> (if neg A then - (mag A / p) else mag A / p) = Z.quot (val A) p.
Proof.
  intros HA Hp. pose proof (mag_nonneg A HA). unfold val. destruct (neg A).
  - rewrite Z.quot_opp_l by lia. by rewrite Z.quot_div_nonneg by lia.
  - by rewrite Z.quot_div_nonneg by lia.
Qed.

Lemma rshift_outcome h r a R A n :
  h !! r = Some R -> h !! a = Some A -> wf R -> wf A -> 0 <= n ->
  outcome (BN_rshift alloc_ok r a n) h r R (width A) (Z.quot (val A) (2 ^ n)).
Proof.
  intros Hr Ha HR HA Hn. unfold BN_rshift. rewrite (proj2 (Z.ltb_ge n 0)) by lia.
  destruct (rshift_words_spec (limbs A) n Hn) as (Hv & Hl & Hok); [auto with word_db |]. rewrite length_limbs in Hl by done.
  rewrite <- quot_sign by (done || apply Z.pow_pos_nonneg; lia). unfold mag. rewrite <- Hv.
  by apply (rshift_with_spec h r a R A (fun ws => bn_rshift_words ws n)).
Qed.

Lemma rshift1_outcome h r a R A :
  h !! r = Some R -> h !! a = Some A -> wf R -> wf A ->
  outcome (BN_rshift1 alloc_ok r a) h r R (width A) (Z.quot (val A) 2).
Proof.
  intros Hr Ha HR HA. unfold BN_rshift1.
  destruct (rshift_loop_spec (limbs A) 1) as (Hv & Hl & Hok); [lia | auto with word_db |]. rewrite length_limbs in Hl by done.
  rewrite <- rshift1_words_eq in Hv, Hl, Hok.
  rewrite <- quot_sign by (done || lia). unfold mag. change (2 ^ 1) with 2 in Hv. rewrite <- Hv. by apply rshift_with_spec.
Qed.

Lemma signed_pow A n : (if neg A then - (mag A * 2 ^ n) else mag A * 2 ^ n) = val A * 2 ^ n.
Proof. unfold val. destruct (neg A); lia. Qed.

(** The array of [r] before the first round: the top word is zero. *)
Lemma shifted_init LA nw lb p :
  0 <= lb -> words_ok p -> (nw + length LA + 1 <= length p)%nat ->
  shifted LA nw lb (length LA) (overwrite p (length LA + nw) [0]).
Proof.
  intros Hlb Hok Hlen. assert (length (overwrite p (length LA + nw) [0]) = length p) as Hl by (apply length_overwrite; cbn; lia).
  assert (drop (nw + length LA) (overwrite p (length LA + nw) [0]) = 0 :: drop (length LA + nw + 1) p) as Hd.
  { unfold overwrite. replace (nw + length LA)%nat with (length (take (length LA + nw) p)) at 1 by (rewrite length_take; lia).
    rewrite drop_app_length. done. }
  constructor.
  - unfold overwrite. apply words_ok_app. split; [auto with word_db |]. apply words_ok_cons. split; [unfold fits; lia | auto with word_db].
  - lia.
  - exists 0, (drop (length LA + nw + 1) p). by rewrite Hd.
  - rewrite Hd, drop_all. replace (length LA + 1 - length LA)%nat with 1%nat by lia. cbn [take value]. rewrite take_0. cbn [value]. lia.
Qed.

(** The words once the low ones have been cleared. *)
Lemma shifted_final LA nw lb p :
  shifted LA nw lb 0 p -> 
  words_ok (overwrite p 0 (replicate nw 0)) /\
  value (take (length LA + nw + 1) (overwrite p 0 (replicate nw 0))) = 2 ^ (64 * Z.of_nat nw) * (2 ^ lb * value LA).
Proof.
  intros [Hok Hlen _ Hv]. rewrite Nat.add_0_r, Nat.sub_0_r, drop_0 in Hv. unfold overwrite.
  rewrite take_0, app_nil_l, length_replicate, Nat.add_0_l. split; [apply words_ok_app; auto with word_db |].
  rewrite take_app_ge by (rewrite length_replicate; lia). rewrite length_replicate, value_app, value_zeros, length_replicate.
  replace (length LA + nw + 1 - nw)%nat with (length LA + 1)%nat by lia. rewrite Hv. lia.
Qed.

Lemma lshift_outcome h r a R A n :
  h !! r = Some R -> h !! a = Some A -> wf R -> wf A -> 0 <= n ->
  outcome (BN_lshift alloc_ok r a n) h r R (width A + Z.to_nat (n / 64) + 1) (val A * 2 ^ n).
Proof.
  intros Hr Ha HR HA Hn. unfold BN_lshift, Bn.outcome. rewrite (proj2 (Z.ltb_ge n 0)) by lia.
  erewrite bind_eq by (by apply load_eq). erewrite bind_eq by (by apply modify_eq). cbv zeta.
  pose proof (Z.div_mod n 64 ltac:(lia)) as En. pose proof (Z.mod_pos_bound n 64 ltac:(lia)) as Hlb.
  assert (0 <= n / 64) by (apply Z.div_pos; lia). set (nw := Z.to_nat (n / 64)). set (lb := n mod 64) in *.
  set (R0 := set_neg (neg A) R). assert (wf R0) as HR0 by (by apply wf_set_neg).
  erewrite bind_eq by (apply wexpand_eq; by rewrite lookup_insert_eq).
  assert (room alloc_ok R0 (width A + nw + 1) = room alloc_ok R (width A + nw + 1)) as Hroom0 by done. rewrite Hroom0.
  exists (room alloc_ok R (width A + nw + 1)). destruct (room alloc_ok R (width A + nw + 1)) eqn:Hroom; cbn [negb].
  2: { eexists. split; [done |]. split; [by exists R0 |]. intros Hall. rewrite <- Hroom. by apply Hall. }
  rewrite insert_insert_eq. destruct (expanded_spec R0 _ HR0 Hroom0) as (HE & Hlen & HlE & HwE & HnE). set (E := expanded R0 (width A + nw + 1)) in *.
  pose proof (length_limbs A HA) as LA. erewrite bind_eq by (apply put_eq; [by rewrite lookup_insert_eq | cbn; lia]). rewrite insert_insert_eq.
  set (p0 := overwrite (d E) (width A + nw) [0]).
  assert (holds (<[r := E]> h) a 0 (limbs A)) as HhE.
  { destruct (decide (a = r)) as [-> | Hne].
    - assert (A = R) as -> by congruence. exists E. rewrite lookup_insert_eq, drop_0, LA. split_and!; [done | | lia].
      transitivity (limbs E); [unfold limbs; by rewrite HwE | by rewrite HlE].
    - exists A. rewrite lookup_insert_ne, drop_0, LA by done. split_and!; [done | done | by destruct HA]. }
  assert (holds (<[r := set_d p0 E]> h) a 0 (take (width A) (limbs A))) as Hh.
  { rewrite take_ge by lia. rewrite <- (insert_insert_eq h r _ E). apply holds_put_above; [by rewrite lookup_insert_eq | lia | cbn; lia | done]. }
  assert (shifted (limbs A) nw lb (width A) p0) as Hs.
  { unfold p0. rewrite <- LA. apply shifted_init; [lia | by destruct HE | lia]. }
  assert (exists p, (if lb =? 0 then lshift_move r a nw (width A) else lshift_bits r a nw lb (width A)) (<[r := set_d p0 E]> h)
    = Some (tt, <[r := set_d p E]> h) /\ length p = length (d E) /\ shifted (limbs A) nw lb 0 p) as (p & Ep & Hlp & Hsp).
  { assert (length p0 = length (d E)) as Hl0 by (apply length_overwrite; cbn; lia).
    destruct (Z.eqb_spec lb 0) as [E0 | E0].
    - rewrite E0 in *. destruct (lshift_move_spec h r a (limbs A) nw (width A) (set_d p0 E)) as (p & H1 & H2 & H3);
        [auto with word_db | lia | done | done |]. exists p. cbn [d set_d] in H2. split_and!; [exact H1 | lia | done].
    - destruct (lshift_bits_spec h r a (limbs A) nw lb (width A) (set_d p0 E)) as (p & H1 & H2 & H3);
        [lia | auto with word_db | lia | done | done |]. exists p. cbn [d set_d] in H2. split_and!; [exact H1 | lia | done]. }
  erewrite bind_eq by exact Ep. destruct (shifted_final (limbs A) nw lb p Hsp) as (Hok & Hv).
  erewrite bind_eq by (apply put_eq; [by rewrite lookup_insert_eq | cbn [d set_d]; rewrite length_replicate; lia]). rewrite insert_insert_eq.
  erewrite bind_eq by apply modify_cell. cbn [d set_d]. set (p2 := overwrite p 0 (replicate nw 0)) in *.
  assert (length p2 = length (d E)) as Hl2 by (unfold p2; rewrite length_overwrite; rewrite ?length_replicate; lia).
  destruct (finish_result h r (set_width (width A + nw + 1) (set_d p2 (set_d p E))) (val A * 2 ^ n)) as (h' & E1 & E2).
  - destruct HE as [_ _ HEm]. constructor; cbn [d width set_width set_d]; [done | lia | lia].
  - rewrite <- signed_pow. unfold val. cbn [neg set_width set_d]. rewrite HnE. cbn [neg R0 set_neg].
    assert (mag (set_width (width A + nw + 1) (set_d p2 (set_d p E))) = mag A * 2 ^ n) as ->; [| done].
    unfold mag, limbs at 1. cbn [d width set_width set_d]. rewrite <- LA, Hv, En, Z.pow_add_r by lia.
    unfold nw. rewrite Z2Nat.id by lia. lia.
  - exists h'. done.
Qed.

(** The outcome of an operation that does not make the width minimal. *)
Definition value_outcome (p : prog bool) (h : gmap nat BIGNUM) (r : nat) (R : BIGNUM) (n : nat) (v : Z) : Prop :=
  exists ok h', p h = Some (ok, h') /\
    (if ok then exists R', h' = <[r := R']> h /\ wf R' /\ signed_ok R' /\ val R' = v else only_touched h h' r) /\
    (room alloc_ok R n = true -> ok = true).

(** Before the loop of [BN_lshift1], in place or not. *)
Lemma lshift1_setup h r a R A :
  h !! r = Some R -> h !! a = Some A -> wf R -> wf A ->
  let p := (if negb (r =? a)%nat then
       do_ r_modify r (set_neg (neg A));
       do ok <- bn_wexpand alloc_ok r (width A + 1);
       if negb ok then r_ret false
       else do_ r_modify r (set_width (width A)); r_ret true
     else bn_wexpand alloc_ok r (width A + 1)) in
  if room alloc_ok R (width A + 1) then
    exists E, p h = Some (true, <[r := E]> h) /\ wf E /\ width E = width A /\ neg E = neg A /\
      (width A + 1 <= length (d E))%nat /\ holds (<[r := E]> h) a 0 (limbs A)
  else exists h', p h = Some (false, h') /\ only_touched h h' r.
Proof.
  intros Hr Ha HR HA. cbv zeta. destruct (Nat.eqb_spec r a) as [-> | Hne]; cbn [negb].
  - assert (A = R) as -> by congruence. rewrite (wexpand_eq h a R (width R + 1) Ha).
    destruct (room alloc_ok R (width R + 1)) eqn:Hroom; [| exists h; split; [done | by apply (only_touched_refl _ _ R)]].
    destruct (expanded_spec R _ HR Hroom) as (HE & Hlen & _ & HwE & HnE). eexists. split_and!; [done | done | done | done | done |].
    by apply (holds_expanded (alloc_ok := alloc_ok)).
  - erewrite bind_eq by (by apply modify_eq). set (R0 := set_neg (neg A) R). assert (wf R0) as HR0 by (by apply wf_set_neg).
    erewrite bind_eq by (apply wexpand_eq; by rewrite lookup_insert_eq).
    assert (room alloc_ok R0 (width A + 1) = room alloc_ok R (width A + 1)) as -> by done.
    destruct (room alloc_ok R (width A + 1)) eqn:Hroom; cbn [negb]; [| eexists; split; [done | by exists R0]].
    destruct (expanded_spec R0 (width A + 1) HR0 Hroom) as ([Hd Hw Hm] & Hlen & _ & _ & HnE).
    rewrite insert_insert_eq. erewrite bind_eq by apply modify_cell.
    eexists. split; [done |]. split_and!; [constructor; cbn; (done || lia) | done | done | done |].
    exists A. rewrite lookup_insert_ne, drop_0, length_limbs by done. split_and!; [done | done | by destruct HA].
Qed.

Lemma lshift1_result h r a R A :
  h !! r = Some R -> h !! a = Some A -> wf R -> wf A -> signed_ok A ->
  exists ok h', BN_lshift1 alloc_ok r a h = Some (ok, h') /\
    (if ok then exists R', h' = <[r := R']> h /\ wf R' /\ signed_ok R' /\ val R' = val A * 2 /\ (width R' <= width A + 1)%nat else only_touched h h' r) /\
    (room alloc_ok R (width A + 1) = true -> ok = true).
Proof.
  intros Hr Ha HR HA HsA. unfold BN_lshift1. erewrite bind_eq by (by apply load_eq).
  pose proof (lshift1_setup h r a R A Hr Ha HR HA) as H. cbv zeta in H. exists (room alloc_ok R (width A + 1)).
  destruct (room alloc_ok R (width A + 1)).
  2: { destruct H as (h' & E & Ht). erewrite bind_eq by exact E. by exists h'. }
  destruct H as (E & Ep & HE & HwE & HnE & Hlen & Hh). erewrite bind_eq by exact Ep. cbn [negb].
  erewrite bind_eq by (apply read_holds; [exact Hh | by rewrite length_limbs]).
  pose proof (lshift1_loop_spec (limbs A) 0 ltac:(auto with word_db) ltac:(lia)) as H. destruct (lshift1_loop (limbs A) 0) as [ws c].
  destruct H as (Hv & Hl & Hok & Hc). rewrite length_limbs in Hv, Hl by done.
  destruct (put_all E ws HE ltac:(lia) Hok) as (HR1 & Hl1 & Hd1). set (R1 := set_d (overwrite (d E) 0 ws) E) in *.
  erewrite bind_eq by (apply put_eq; [by rewrite lookup_insert_eq | lia]). fold R1. rewrite insert_insert_eq.
  assert (forall X, neg X = neg A -> mag X = 2 * mag A -> signed_ok X /\ val X = val A * 2) as Hend.
  { intros X HnX HmX. unfold signed_ok, val. rewrite HnX, HmX. split; [intros; apply HsA; lia | destruct (neg A); lia]. }
  destruct (Z.eqb_spec c 0) as [-> | Hc0]; cbn [negb].
  - eexists. split; [done |]. split; [| done]. exists R1. destruct (Hend R1) as [H1 H2]; [done | unfold mag; rewrite Hl1; lia |]. split_and!; try done. cbn [width R1 set_d]. lia.
  - assert (c = 1) as -> by lia. erewrite bind_eq by (apply put_eq; [by rewrite lookup_insert_eq | cbn [length]; lia]).
    rewrite insert_insert_eq. erewrite bind_eq by apply modify_cell.
    destruct (put_top R1 (width A) 1 HR1) as (H1 & H2); [done | lia | unfold fits; lia |].
    eexists. split; [done |]. split; [| done]. exists (set_d (overwrite (d R1) (width A) [1]) (set_width (S (width A)) R1)).
    split; [cbn; by rewrite HwE |]. split; [done |].
    apply and_assoc. split; [| cbn; lia]. apply Hend; [done |]. unfold mag. rewrite H2, Hl1, value_app, Hl. cbn [value]. lia.
Qed.

Lemma lshift1_outcome h r a R A :
  h !! r = Some R -> h !! a = Some A -> wf R -> wf A -> signed_ok A ->
  value_outcome (BN_lshift1 alloc_ok r a) h r R (width A + 1) (val A * 2).
Proof.
  intros Hr Ha HR HA HsA. destruct (lshift1_result h r a R A Hr Ha HR HA HsA) as (ok & h' & E & H & Hok). exists ok, h'. split_and!; [done | | done].
  destruct ok; [| done]. destruct H as (R' & H1 & H2 & H3 & H4 & _). by exists R'.
Qed.

(** ** Single bits and masks *)

(** The magnitude [v] with the sign of [A]. *)
Definition with_sign (A : BIGNUM) (v : Z) : Z := if neg A then - v else v.

Lemma setbit_pos m n : 0 <= m -> 0 <= n -> 0 < Z.setbit m n.
Proof.
  intros Hm Hn. assert (Z.setbit m n <> 0) as H.
  { intros H. pose proof (Z.setbit_eq m n Hn) as E. by rewrite H, Z.testbit_0_l in E. }
  assert (0 <= Z.setbit m n) by (unfold Z.setbit; apply Z.lor_nonneg; split; [done | apply Z.shiftl_nonneg; lia]). lia.
Qed.

(** The object once it has the word [i]. *)
Lemma set_bit_setup h a A i :
  h !! a = Some A -> wf A ->
  let p := (if (width A <=? i)%nat then
         do ok <- bn_wexpand alloc_ok a (S i);
         if negb ok then r_ret false
         else
           do_ put_words a (width A) (replicate (S i - width A) 0);
           do_ r_modify a (set_width (S i));
           r_ret true
       else r_ret true) in
  exists ok h', p h = Some (ok, h') /\ (room alloc_ok A (S i) = true -> ok = true) /\
    if ok then exists X, h' = <[a := X]> h /\ wf X /\ neg X = neg A /\ mag X = mag A /\ (i < width X)%nat else only_touched h h' a.
Proof.
  intros Ha HA. cbv zeta. destruct (Nat.leb_spec (width A) i) as [Hle | Hgt].
  2: { exists true, h. split_and!; [done | done |]. exists A. by rewrite insert_id. }
  erewrite bind_eq by (by apply wexpand_eq). exists (room alloc_ok A (S i)). destruct (room alloc_ok A (S i)) eqn:Hroom; cbn [negb].
  2: { exists h. split_and!; [done | done | by apply (only_touched_refl _ _ A)]. }
  destruct (expanded_spec A (S i) HA Hroom) as ([Hd Hw Hm] & Hlen & HlE & HwE & HnE). set (E := expanded A (S i)) in *.
  erewrite bind_eq by (apply put_eq; [by rewrite lookup_insert_eq | rewrite length_replicate; lia]). rewrite insert_insert_eq.
  erewrite bind_eq by apply modify_cell. eexists. split; [done |]. split; [done |]. eexists. split; [done |].
  assert (length (overwrite (d E) (width A) (replicate (S i - width A) 0)) = length (d E)) as Hl by (apply length_overwrite; rewrite length_replicate; lia).
  split_and!; [| done | | cbn; lia].
  - constructor; cbn [d width set_d set_width]; rewrite ?Hl; [| lia | lia]. unfold overwrite. apply words_ok_app; split; [auto with word_db |].
    apply words_ok_app. auto with word_db.
  - unfold mag. unfold limbs at 1. cbn [d width set_d set_width]. unfold overwrite.
    rewrite app_assoc, take_app_length' by (rewrite length_app, length_take, length_replicate; lia).
    rewrite value_app, value_zeros, <- HlE. unfold limbs. rewrite HwE. lia.
Qed.

Lemma set_bit_outcome h a A n :
  h !! a = Some A -> wf A -> 0 <= n ->
  value_outcome (BN_set_bit alloc_ok a n) h a A (S (Z.to_nat (n / 64))) (with_sign A (Z.setbit (mag A) n)).
Proof.
  intros Ha HA Hn. unfold BN_set_bit, value_outcome. rewrite (proj2 (Z.ltb_ge n 0)) by lia. cbv zeta.
  set (i := Z.to_nat (n / 64)). erewrite bind_eq by (by apply load_eq).
  destruct (set_bit_setup h a A i Ha HA) as (ok & h' & E & Hok & H). erewrite bind_eq by exact E. exists ok.
  destruct ok; cbn [negb]; [| by exists h'].
  destruct H as (X & -> & HX & HnX & HmX & Hi).
  erewrite bind_eq by (apply read_limb; [by rewrite lookup_insert_eq | done | done]).
  destruct (value_set_bit (limbs X) n) as (Hf & Hv); [auto with word_db | done | by rewrite length_limbs |]. fold i in Hf, Hv.
  set (v := Z.lor (limbs X !!! i) (Z.shiftl 1 (n mod 64))) in *.
  erewrite bind_eq by (apply put_eq; [by rewrite lookup_insert_eq | destruct HX; cbn; lia]). rewrite insert_insert_eq.
  destruct (word_update X i v HX Hi Hf) as (H1 & H2).
  assert (mag (set_d (overwrite (d X) i [v]) X) = Z.setbit (mag A) n) as Hmag by (unfold mag at 1; rewrite H2, Hv, <- HmX; done).
  eexists. split; [done |]. split; [| done]. eexists. split_and!; [done | done | |].
  - intros Hz. pose proof (setbit_pos (mag A) n (mag_nonneg A HA) Hn). lia.
  - unfold val, with_sign. rewrite Hmag. cbn [neg set_d]. by rewrite HnX.
Qed.

Lemma clear_bit_outcome h a A n :
  h !! a = Some A -> wf A -> 0 <= n ->
  if (width A <=? Z.to_nat (n / 64))%nat then BN_clear_bit a n h = Some (false, h)
  else exists h', BN_clear_bit a n h = Some (true, h') /\ result h h' a (with_sign A (Z.clearbit (mag A) n)).
Proof.
  intros Ha HA Hn. unfold BN_clear_bit. rewrite (proj2 (Z.ltb_ge n 0)) by lia. cbv zeta. set (i := Z.to_nat (n / 64)).
  erewrite bind_eq by (by apply load_eq). destruct (Nat.leb_spec (width A) i) as [Hle | Hi]; [done |].
  erewrite bind_eq by (by apply read_limb).
  destruct (value_clear_bit (limbs A) n) as (Hf & Hv); [auto with word_db | done | by rewrite length_limbs |]. fold i in Hf, Hv.
  set (v := Z.land (limbs A !!! i) (wnot 64 (Z.shiftl 1 (n mod 64)))) in *.
  erewrite bind_eq by (apply put_eq; [done | destruct HA; cbn; lia]). destruct (word_update A i v HA Hi Hf) as (H1 & H2).
  apply finish_result; [done |]. unfold val, mag at 1 2, with_sign. rewrite H2, Hv. done.
Qed.

Lemma value_take n a : words_ok a -> (n <= length a)%nat -> value (take n a) = value a mod 2 ^ (64 * Z.of_nat n).
Proof.
  intros Ha Hn. rewrite <- (take_drop n a) at 2. rewrite value_app, length_take, Nat.min_l by lia.
  rewrite Z.mul_comm, Z_mod_plus_full. symmetry. apply Z.mod_small.
  pose proof (value_bound (take n a) ltac:(auto with word_db)) as Hb. rewrite length_take, Nat.min_l in Hb by lia.
  split; [apply value_nonneg; auto with word_db | done].
Qed.

(** The mask of [BN_mask_bits] keeps the low [b] bits. *)
Lemma mask_word x b : 0 <= b < 64 -> Z.land x (wnot 64 (u64 (Z.shiftl (2 ^ 64 - 1) b))) = x mod 2 ^ b.
Proof.
  intros Hb. rewrite u64_shiftl by lia. assert (0 < 2 ^ (64 - b)) by (apply Z.pow_pos_nonneg; lia).
  assert ((2 ^ 64 - 1) mod 2 ^ (64 - b) = 2 ^ (64 - b) - 1) as ->.
  { symmetry. apply (Z.mod_unique_pos _ _ (2 ^ b - 1)); [lia |]. rewrite (pow_split 64 b) by lia. lia. }
  unfold wnot. rewrite <- Z.land_ones by lia. f_equal. rewrite Z.ones_equiv, (pow_split 64 b) by lia. lia.
Qed.

Lemma mask_bits_outcome h a A n :
  h !! a = Some A -> wf A -> signed_ok A -> 0 <= n ->
  exists R, BN_mask_bits a n h = Some (true, <[a := R]> h) /\ wf R /\ signed_ok R /\ val R = with_sign A (mag A mod 2 ^ n).
Proof.
  intros Ha HA HsA Hn. unfold BN_mask_bits. rewrite (proj2 (Z.ltb_ge n 0)) by lia. cbv zeta.
  pose proof (Z.div_mod n 64 ltac:(lia)) as En. pose proof (Z.mod_pos_bound n 64 ltac:(lia)) as Hb.
  assert (0 <= n / 64) by (apply Z.div_pos; lia). set (w := Z.to_nat (n / 64)). set (b := n mod 64) in *.
  erewrite bind_eq by (by apply load_eq). destruct (Nat.leb_spec (width A) w) as [Hle | Hw].
  { exists A. rewrite insert_id by done. split_and!; [done | done | done |]. rewrite Z.mod_small; [done |].
    pose proof (mag_bound A HA). split; [by apply mag_nonneg |].
    assert (2 ^ (64 * Z.of_nat (width A)) <= 2 ^ n) by (apply Z.pow_le_mono_r; lia). lia. }
  pose proof HA as [HAd HAw HAm]. pose proof (length_limbs A HA) as LA.
  assert (forall X, wf X -> mag X = mag A mod 2 ^ n -> neg X = neg A -> 
    exists R, (do_ bn_set_minimal_width a; r_ret true) (<[a := X]> h) = Some (true, <[a := R]> h) /\ wf R /\ signed_ok R /\ val R = with_sign A (mag A mod 2 ^ n)) as Hend.
  { intros X HX Hm HnX. destruct (finish_result h a X (with_sign A (mag A mod 2 ^ n)) HX) as (h' & E & R & -> & H1 & [_ H2] & H3).
    - unfold val, with_sign. by rewrite Hm, HnX.
    - by exists R. }
  assert (take w (d A) = take w (limbs A)) as Et by (unfold limbs; rewrite take_take; f_equal; lia).
  destruct (Z.eqb_spec b 0) as [E0 | E0].
  - erewrite bind_eq by (by apply modify_eq). apply Hend; [constructor; cbn; (done || lia) | | done].
    unfold mag at 1, limbs. cbn [d width set_width]. rewrite Et, value_take by (auto with word_db; lia). unfold mag. do 2 f_equal. lia.
  - erewrite bind_eq. 2: {
      erewrite bind_eq by (by apply modify_eq).
      erewrite bind_eq by (apply read_limb; [by rewrite lookup_insert_eq | constructor; cbn; (done || lia) | cbn; lia]).
      apply put_eq; [by rewrite lookup_insert_eq | cbn; lia]. }
    rewrite insert_insert_eq, mask_word by lia. set (X := set_width (S w) A). assert (wf X) as HX by (constructor; cbn; (done || lia)).
    assert (limbs X = take w (limbs A) ++ [limbs A !!! w]) as HlX.
    { unfold X, limbs at 1. cbn [d width set_width]. rewrite <- Et. apply take_S_r.
      rewrite <- (list_lookup_lookup_total_lt (limbs A)) by lia. unfold limbs. by rewrite lookup_take_lt by lia. }
    assert (limbs X !!! w = limbs A !!! w) as Hx by (rewrite HlX, list_lookup_total_middle; [done | rewrite length_take; lia]).
    pose proof (Z.mod_pos_bound (limbs X !!! w) (2 ^ b) ltac:(apply Z.pow_pos_nonneg; lia)) as Hm.
    assert (2 ^ b <= 2 ^ 64) by (apply Z.pow_le_mono_r; lia).
    destruct (word_update X w ((limbs X !!! w) mod 2 ^ b) HX) as (H1 & H2); [cbn; lia | unfold fits; lia |].
    apply Hend; [exact H1 | | done]. unfold mag at 1. rewrite H2, HlX, insert_app_r_alt, length_take by (rewrite length_take; lia).
    rewrite Nat.min_l, Nat.sub_diag by lia. cbn [insert list_insert]. rewrite <- HlX, Hx, value_app, length_take, Nat.min_l by lia. cbn [value].
    rewrite En, Z.pow_add_r, Z.rem_mul_r by (try apply Z.pow_nonzero; try apply Z.pow_pos_nonneg; lia).
    replace (64 * (n / 64)) with (64 * Z.of_nat w) by lia. unfold mag.
    rewrite value_take by (auto with word_db; lia). rewrite <- value_drop by (auto with word_db; lia).
    rewrite (drop_S (limbs A) (limbs A !!! w)) by (apply list_lookup_lookup_total_lt; lia). cbn [value]. rewrite value_mod_word by lia. lia.
Qed.

(** ** The shift with a secret amount *)

Lemma copy_outcome h r a R A :
  h !! r = Some R -> h !! a = Some A -> wf R -> wf A ->
  exists ok h', BN_copy alloc_ok r a h = Some (ok, h') /\ (room alloc_ok R (width A) = true -> ok = true) /\
    if ok then exists X, h' = <[r := X]> h /\ wf X /\ limbs X = limbs A /\ width X = width A /\ neg X = neg A else h' = h.
Proof.
  intros Hr Ha HR HA. unfold BN_copy. destruct (Nat.eqb_spec a r) as [-> | Hne].
  { assert (R = A) as -> by congruence. exists true, h. split_and!; [done | done |]. exists A. by rewrite insert_id. }
  erewrite bind_eq by (by apply load_eq). erewrite bind_eq by (by apply wexpand_eq). exists (room alloc_ok R (width A)).
  destruct (room alloc_ok R (width A)) eqn:Hroom; cbn [negb]; [| by exists h].
  destruct (expanded_spec R _ HR Hroom) as (HE & Hlen & _). set (E := expanded R (width A)) in *.
  erewrite bind_eq by (apply read_holds; [by apply (holds_expanded (alloc_ok := alloc_ok) _ _ A) | by rewrite length_limbs]).
  pose proof (length_limbs A HA) as LA. erewrite bind_eq by (apply put_eq; [by rewrite lookup_insert_eq | lia]). rewrite insert_insert_eq.
  erewrite bind_eq by apply modify_cell. destruct (put_low E (limbs A) (neg A) HE) as (H1 & H2); [lia | auto with word_db |].
  rewrite LA in H1, H2. eexists. split; [done |]. split; [done |]. eexists. split_and!; [done | exact H1 | exact H2 | done | done].
Qed.

(** Reading back the words put in an array. *)
Lemma put_then_read (h : gmap nat BIGNUM) i X ws :
  h !! i = Some X -> (length ws <= length (d X))%nat ->
  holds (<[i := set_d (overwrite (d X) 0 ws) X]> h) i 0 ws.
Proof.
  intros Hi Hl. eexists. split; [by rewrite lookup_insert_eq |]. cbn [d set_d]. rewrite length_overwrite by lia.
  split; [| lia]. unfold overwrite. rewrite take_0, app_nil_l, drop_0. apply take_app_length.
Qed.

Lemma secret_bits n i m : 0 <= n -> 0 <= i -> 0 <= m ->
  2 ^ i * ((n / 2 ^ i) mod 2 ^ (m + 1)) = 2 ^ i * ((n / 2 ^ i) mod 2) + 2 ^ (i + 1) * ((n / 2 ^ (i + 1)) mod 2 ^ m).
Proof.
  intros Hn Hi Hm. rewrite (Z.add_comm m 1), !Z.pow_add_r by lia. change (2 ^ 1) with 2.
  assert (0 < 2 ^ i) by (apply Z.pow_pos_nonneg; lia). assert (0 < 2 ^ m) by (apply Z.pow_pos_nonneg; lia).
  rewrite Z.rem_mul_r by lia. rewrite Z.div_div by lia. lia.
Qed.

(** The rounds from bit [i] on, for [k] bits in all. *)
Lemma secret_shift_loop_spec h r tmp n max_bits k fuel i X T :
  0 <= n -> 0 <= i <= k -> (forall j, 0 <= j < k -> Z.shiftr max_bits j <> 0) -> Z.shiftr max_bits k = 0 ->
  (Z.to_nat (k - i) <= fuel)%nat -> r <> tmp -> wf X -> wf T -> (width X <= length (d T))%nat ->
  exists X' T', secret_shift_loop fuel r tmp n max_bits i (width X) (<[tmp := T]> (<[r := X]> h)) =
      Some (tt, <[tmp := T']> (<[r := X']> h)) /\ wf X' /\ wf T' /\ width X' = width X /\ neg X' = neg X /\
      mag X' = mag X / 2 ^ (2 ^ i * ((n / 2 ^ i) mod 2 ^ (k - i))).
Proof.
  intros Hn Hi Hnz Hz Hfuel Hne. revert i X T Hi Hfuel. induction fuel as [| fuel IH]; intros i X T Hi Hfuel HX HT Hlen.
  1: assert (i = k) as -> by lia.
  2: destruct (decide (i = k)) as [-> | Hik].
  1, 2: exists X, T; cbn [secret_shift_loop]; rewrite Hz, Z.eqb_refl, Z.sub_diag, Z.pow_0_r, Z.mod_1_r, Z.mul_0_r, Z.pow_0_r, Z.div_1_r; done.
  cbn [secret_shift_loop]. rewrite (proj2 (Z.eqb_neq _ _)) by (apply Hnz; lia). cbv zeta.
  pose proof (length_limbs X HX) as LX.
  erewrite bind_eq by (apply (read_holds _ _ _ _ (limbs X)); [exists X; rewrite lookup_insert_ne, lookup_insert_eq, drop_0, LX by done; split_and!; [done | done | by destruct HX] | done]).
  assert (0 <= 2 ^ i) by (apply Z.pow_nonneg; lia).
  destruct (rshift_words_spec (limbs X) (2 ^ i)) as (Hv & Hl & Hok); [done | auto with word_db |]. rewrite LX in Hl.
  set (ts := bn_rshift_words (limbs X) (2 ^ i)) in *.
  erewrite bind_eq by (apply put_eq; [by rewrite lookup_insert_eq | lia]).
  erewrite bind_eq by (apply (read_holds _ _ _ _ ts); [apply put_then_read; [by rewrite lookup_insert_eq | lia] | done]).
  rewrite insert_insert_eq. set (T1 := set_d (overwrite (d T) 0 ts) T).
  assert (wf T1 /\ length (d T1) = length (d T)) as [HT1 HlT1].
  { assert (length (d T1) = length (d T)) as Hl1 by (cbn; apply length_overwrite; lia). split; [| done]. destruct HT as [Hd Hw Hm].
    constructor; [| rewrite Hl1; done | rewrite Hl1; done]. cbn [T1 d set_d]. unfold overwrite. rewrite take_0, app_nil_l. apply words_ok_app. auto with word_db. }
  pose proof (Z.mod_pos_bound (n / 2 ^ i) 2 ltac:(lia)) as Hbit.
  assert (u64 (0 - Z.land (Z.shiftr n i) 1) = mask ((n / 2 ^ i) mod 2 =? 1)) as ->.
  { change 1 with (Z.ones 1) at 1. rewrite Z.land_ones, Z.shiftr_div_pow2 by lia. change (2 ^ 1) with 2.
    assert ((n / 2 ^ i) mod 2 = 0 \/ (n / 2 ^ i) mod 2 = 1) as [-> | ->] by lia; done. }
  rewrite select_words_mask by (auto with word_db; lia). set (ws := if (n / 2 ^ i) mod 2 =? 1 then ts else limbs X).
  assert (length ws = width X /\ words_ok ws /\ value ws = mag X / 2 ^ (2 ^ i * ((n / 2 ^ i) mod 2))) as (Hlw & Hokw & Hvw).
  { unfold ws. assert ((n / 2 ^ i) mod 2 = 0 \/ (n / 2 ^ i) mod 2 = 1) as [-> | ->] by lia; cbn [Z.eqb Pos.eqb].
    - rewrite Z.mul_0_r, Z.pow_0_r, Z.div_1_r. split_and!; [done | auto with word_db | done].
    - rewrite Z.mul_1_r. split_and!; [lia | done | done]. }
  erewrite bind_eq by (apply put_eq; [by rewrite lookup_insert_ne, lookup_insert_eq | destruct HX; lia]).
  rewrite (insert_insert_ne (<[r := X]> h)) by done. rewrite insert_insert_eq.
  destruct (put_all X ws HX Hlw Hokw) as (HX1 & HlX1 & HdX1). set (X1 := set_d (overwrite (d X) 0 ws) X) in *.
  destruct (IH (i + 1) X1 T1) as (X' & T' & E & H1 & H2 & H3 & H4 & H5); [lia | lia | done | done | rewrite HlT1; exact Hlen |].
  exists X', T'. change (width X1) with (width X) in *. change (neg X1) with (neg X) in *. split_and!; try done.
  rewrite H5. unfold mag at 1. rewrite HlX1, Hvw. replace (k - i) with (k - (i + 1) + 1) by lia. rewrite secret_bits by lia.
  assert (0 < 2 ^ (i + 1)) by (apply Z.pow_pos_nonneg; lia). 
  pose proof (Z.mod_pos_bound (n / 2 ^ (i + 1)) (2 ^ (k - (i + 1))) ltac:(apply Z.pow_pos_nonneg; lia)).
  rewrite (Z.pow_add_r 2 (_ * _)) by nia. rewrite Z.div_div by (try apply Z.pow_nonzero; try apply Z.pow_pos_nonneg; nia). done.
Qed.

Lemma shiftr_bit_length m j : 0 <= m -> 0 <= j -> Z.shiftr m j = 0 <-> bit_length m <= j.
Proof.
  intros Hm Hj. unfold bit_length. destruct (Z.eqb_spec m 0) as [-> | Hne]; [by rewrite Z.shiftr_0_l; split |].
  rewrite Z.shiftr_eq_0_iff. lia.
Qed.

Lemma bit_length_bound m k : 0 <= m < 2 ^ k -> 0 <= k -> 0 <= bit_length m <= k.
Proof.
  intros Hm Hk. unfold bit_length. destruct (Z.eqb_spec m 0); [lia |]. pose proof (Z.log2_nonneg m).
  assert (Z.log2 m < k) by (apply Z.log2_lt_pow2; lia). lia.
Qed.

Lemma secret_shift_outcome h r a tmp R A T n :
  h !! r = Some R -> h !! a = Some A -> h !! tmp = Some T -> wf R -> wf A -> wf T -> r <> tmp -> 0 <= n ->
  exists ok h', bn_rshift_secret_shift alloc_ok r a n (Some tmp) h = Some (ok, h') /\
    (room alloc_ok R (width A) = true -> room alloc_ok T (width A) = true -> ok = true) /\
    if ok then
      exists R' T', h' = <[tmp := T']> (<[r := R']> h) /\ wf R' /\ wf T' /\ width R' = width A /\
        val R' = Z.quot (val A) (2 ^ (n mod 2 ^ bit_length (64 * Z.of_nat (width A))))
    else exists R', h' = <[r := R']> h /\ wf R'.
Proof.
  intros Hr Ha Ht HR HA HT Hne Hn. unfold bn_rshift_secret_shift.
  destruct (copy_outcome h r a R A Hr Ha HR HA) as (ok & h1 & E & Hok & H). erewrite bind_eq by exact E.
  destruct ok; cbn [negb].
  2: { exists false, h1. subst h1. split_and!; [done | intros H1; specialize (Hok H1); done | by apply (only_touched_refl _ _ R)]. }
  destruct H as (X & -> & HX & HlX & HwX & HnX). erewrite bind_eq by apply load_cell.
  erewrite bind_eq by (apply wexpand_eq; by rewrite lookup_insert_ne). rewrite HwX. exists (room alloc_ok T (width A)).
  destruct (room alloc_ok T (width A)) eqn:HroomT; cbn [negb].
  2: { eexists. split_and!; [done | done | by exists X]. }
  destruct (expanded_spec T (width A) HT HroomT) as (HE & Hlen & _). set (E1 := expanded T (width A)) in *.
  set (m := 64 * Z.of_nat (width A)). assert (0 <= m < 2 ^ 32) as Hm.
  { unfold m. destruct HA as [_ Hw Hmax]. change BN_MAX_WORDS with 8388607 in Hmax. lia. }
  pose proof (bit_length_bound m 32 Hm ltac:(lia)) as Hk. set (k := bit_length m) in *.
  destruct (secret_shift_loop_spec h r tmp n m k 32 0 X E1) as (X' & T' & El & H1 & H2 & H3 & H4 & H5);
    [done | lia | | | lia | done | done | done | lia |].
  - intros j Hj. rewrite shiftr_bit_length by lia. unfold k in Hj. lia.
  - apply shiftr_bit_length; unfold k in *; lia.
  - rewrite HwX in El. erewrite bind_eq by exact El. eexists. split_and!; [done | done |]. exists X', T'. split_and!; [done | done | done | lia |].
    rewrite Z.pow_0_r, Z.div_1_r, Z.mul_1_l, Z.sub_0_r in H5. pose proof (Z.mod_pos_bound n (2 ^ k) ltac:(apply Z.pow_pos_nonneg; lia)).
    rewrite <- quot_sign by (done || apply Z.pow_pos_nonneg; lia). unfold val. rewrite H4, HnX, H5. unfold mag. by rewrite HlX.
Qed.
End Specs.

(** The shifts multiply by a power of two and divide by one, rounding towards zero, for
    any shift amount, in place or into another object, and fail only for want of room;
    [BN_lshift], [BN_rshift] and [BN_rshift1] leave the result without leading zero words or
    a negative zero, [BN_lshift1] without a negative zero.  A negative amount is refused. *)
Theorem bn_shift_exact alloc_ok h r a R A n :
  h !! r = Some R -> h !! a = Some A -> wf R -> wf A -> signed_ok A -> 0 <= n ->
  outcome alloc_ok (BN_lshift alloc_ok r a n) h r R (width A + Z.to_nat (n / 64) + 1) (val A * 2 ^ n) /\
  outcome alloc_ok (BN_rshift alloc_ok r a n) h r R (width A) (Z.quot (val A) (2 ^ n)) /\
  outcome alloc_ok (BN_rshift1 alloc_ok r a) h r R (width A) (Z.quot (val A) 2) /\
  value_outcome alloc_ok (BN_lshift1 alloc_ok r a) h r R (width A + 1) (val A * 2) /\
  BN_lshift alloc_ok r a (-1 - n) h = Some (false, h) /\ BN_rshift alloc_ok r a (-1 - n) h = Some (false, h).
Proof.
  intros. split_and!; [by apply lshift_outcome | by apply rshift_outcome | by apply rshift1_outcome | by apply lshift1_outcome | |].
  - unfold BN_lshift. by rewrite (proj2 (Z.ltb_lt _ _)) by lia.
  - unfold BN_rshift. by rewrite (proj2 (Z.ltb_lt _ _)) by lia.
Qed.

Lemma bn_shift_exact_witness :
  let A := mk_bn [2 ^ 63 + 1; 3] 2 true true false in
  let h : gmap nat BIGNUM := <[1%nat := A]> ∅ in
  outcome (fun _ => true) (BN_lshift (fun _ => true) 1 1 65) h 1 A 4 (val A * 2 ^ 65).
Proof.
  apply (bn_shift_exact (fun _ => true) _ 1 1 (mk_bn [2 ^ 63 + 1; 3] 2 true true false) (mk_bn [2 ^ 63 + 1; 3] 2 true true false) 65);
    [done | done | solve_wf | solve_wf | by vm_compute | lia].
Defined.

(** The bit functions act on the bits of the magnitude, across word boundaries:
    [BN_is_bit_set] reads bit [n], [BN_set_bit] sets it, giving the object the words it needs,
    [BN_clear_bit] clears it, failing without a change if the object has no word for it,
    [BN_mask_bits] reduces the magnitude modulo [2 ^ n], and [BN_count_low_zero_bits], computed
    without branches, counts the trailing zeros. *)
Theorem bn_bits_exact alloc_ok h a A n :
  h !! a = Some A -> wf A -> signed_ok A -> 0 <= n ->
  BN_is_bit_set A n = Z.testbit (mag A) n /\
  value_outcome alloc_ok (BN_set_bit alloc_ok a n) h a A (S (Z.to_nat (n / 64))) (with_sign A (Z.setbit (mag A) n)) /\
  (if (width A <=? Z.to_nat (n / 64))%nat then BN_clear_bit a n h = Some (false, h)
   else exists h', BN_clear_bit a n h = Some (true, h') /\ result h h' a (with_sign A (Z.clearbit (mag A) n))) /\
  (exists R, BN_mask_bits a n h = Some (true, <[a := R]> h) /\ wf R /\ signed_ok R /\ val R = with_sign A (mag A mod 2 ^ n)) /\
  (mag A = 0 -> BN_count_low_zero_bits A = 0) /\ (forall t, low_zeros (mag A) t -> BN_count_low_zero_bits A = t).
Proof.
  intros. split_and!; [by apply is_bit_set_spec | by apply set_bit_outcome | by apply clear_bit_outcome | by apply mask_bits_outcome | |];
    by apply count_low_zero_bits_spec.
Qed.

Lemma bn_bits_exact_witness :
  let A := mk_bn [0; 12] 2 false true false in BN_count_low_zero_bits A = 66.
Proof.
  apply (bn_bits_exact (fun _ => true) (<[1%nat := mk_bn [0; 12] 2 false true false]> ∅) 1 (mk_bn [0; 12] 2 false true false) 67);
    [done | solve_wf | by vm_compute | lia | split_and!; (done || lia)].
Defined.

(** The shift that hides its amount from timing, by conditional shifts with powers of two,
    divides by [2 ^ (n mod 2 ^ k)], where [k] is the bit length of the number of bits of the
    operand's words; for an amount below [2 ^ k], so for every amount up to the width in bits,
    the value is that of [BN_rshift]. *)
Theorem bn_secret_shift_equiv alloc_ok h r a tmp R A T n :
  h !! r = Some R -> h !! a = Some A -> h !! tmp = Some T -> wf R -> wf A -> wf T -> r <> tmp -> 0 <= n ->
  exists ok h', bn_rshift_secret_shift alloc_ok r a n (Some tmp) h = Some (ok, h') /\
    (room alloc_ok R (width A) = true -> room alloc_ok T (width A) = true -> ok = true) /\
    if ok then
      let k := bit_length (64 * Z.of_nat (width A)) in
      exists R' T', h' = <[tmp := T']> (<[r := R']> h) /\ wf R' /\ wf T' /\ width R' = width A /\
        val R' = Z.quot (val A) (2 ^ (n mod 2 ^ k)) /\
        (forall h2, n < 2 ^ k -> BN_rshift alloc_ok r a n h = Some (true, h2) -> result h h2 r (val R'))
    else exists R', h' = <[r := R']> h /\ wf R'.
Proof.
  intros Hr Ha Ht HR HA HT Hne Hn. destruct (secret_shift_outcome alloc_ok h r a tmp R A T n) as (ok & h' & E & Hok & H); [done.. |].
  exists ok, h'. split_and!; [done | done |]. destruct ok; [| done]. cbv zeta. set (k := bit_length (64 * Z.of_nat (width A))) in *.
  destruct H as (R' & T' & -> & H1 & H2 & H3 & H4). exists R', T'. split_and!; try done.
  intros h2 Hlt E3. destruct (rshift_outcome alloc_ok h r a R A n Hr Ha HR HA Hn) as (ok2 & h3 & E2 & H5 & _).
  assert (ok2 = true /\ h3 = h2) as [-> ->] by (rewrite E2 in E3; by simplify_eq). rewrite H4, Z.mod_small by lia. done.
Qed.

Lemma bn_secret_shift_equiv_witness :
  let A := mk_bn [5] 1 false true false in
  let h : gmap nat BIGNUM := <[1%nat := A]> (<[2%nat := BN_new]> ∅) in
  exists ok h', bn_rshift_secret_shift (fun _ => true) 1 1 128 (Some 2%nat) h = Some (ok, h') /\
    (if ok then exists R', h' !! 1%nat = Some R' /\ val R' = 5 else True).
Proof.
  destruct (bn_secret_shift_equiv (fun _ => true) (<[1%nat := mk_bn [5] 1 false true false]> (<[2%nat := BN_new]> ∅)) 1 1 2
    (mk_bn [5] 1 false true false) (mk_bn [5] 1 false true false) BN_new 128) as (ok & h' & E & _ & H);
    [done | done | done | solve_wf | solve_wf | solve_wf | done | lia |].
  exists ok, h'. split; [done |]. destruct ok; [| done]. destruct H as (R' & T' & -> & _ & _ & _ & Hv & _).
  exists R'. split; [by rewrite lookup_insert_ne, lookup_insert_eq | exact Hv].
Defined.
End BnShift.
