(* ===== verification/BnBytes.v ===== *)
(** BIGNUMs as byte strings (crypto/fipsmodule/bn/bytes.c), on a little-endian machine: the
    bytes of a word array in memory are those of its words, least significant first. *)

From S2P Require Import Prelude Internal Store BnWords Bn.

Open Scope Z_scope.

Module BnBytes.
Import Internal BnWords Bn.
Open Scope c_scope.

(** * Words and bytes in memory *)

Definition word_bytes (w : Z) : bytes := reverse (be_bytes 8 w).
Definition words_bytes (ws : words) : bytes := concat (map word_bytes ws).

(** The words whose bytes in memory are [bs], a multiple of eight of them. *)
Fixpoint bytes_words (n : nat) (bs : bytes) : words :=
  match n with
  | O => []
  | S n => CRYPTO_load_word_le (take 8 bs) :: bytes_words n (drop 8 bs)
  end.

(** The loads of [bn_big_endian_to_words]: whole words from the end, then a partial word. *)
Fixpoint be_words_loop (fuel : nat) (inp : bytes) : words :=
  match fuel with
  | O => []
  | S fuel =>
      let in_len := length inp in
      if (8 <=? in_len)%nat then CRYPTO_load_word_be (drop (in_len - 8) inp) :: be_words_loop fuel (take (in_len - 8) inp)
      else if (in_len =? 0)%nat then []
      else [foldl (fun word b => Z.lor (u64 (Z.shiftl word 8)) b) 0 inp]
  end.

(** [None] is a failed [BSSL_CHECK]. *)
Definition bn_big_endian_to_words (out_len : nat) (inp : bytes) : option words :=
  if (length inp <=? out_len * 8)%nat then
    let ws := be_words_loop (S (length inp)) inp in
    Some (ws ++ replicate (out_len - length ws) 0)
  else None.

(** [None] is a failed assertion, or a copy that does not fit. *)
Definition bn_little_endian_to_words (out_len : nat) (inp : bytes) : option words :=
  if (out_len =? 0)%nat || (out_len * 8 <? length inp)%nat then None
  else Some (bytes_words out_len (inp ++ replicate (out_len * 8 - length inp) 0)).

Definition fits_in_bytes (ws : words) (num_bytes : nat) : bool :=
  foldl Z.lor 0 (drop num_bytes (words_bytes ws)) =? 0.

(** [None] is a failed assertion. *)
Definition bn_words_to_big_endian (out_len : nat) (ws : words) : option bytes :=
  if negb (fits_in_bytes ws out_len) then None
  else
    let num_bytes := (length ws * 8)%nat in
    let num_bytes := if (out_len <? num_bytes)%nat then out_len else num_bytes in
    Some (replicate (out_len - num_bytes) 0 ++ reverse (take num_bytes (words_bytes ws))).

Definition bn_words_to_little_endian (out_len : nat) (ws : words) : option bytes :=
  if negb (fits_in_bytes ws out_len) then None
  else
    let num_bytes := (length ws * 8)%nat in
    let num_bytes := if (out_len <? num_bytes)%nat then out_len else num_bytes in
    Some (take num_bytes (words_bytes ws) ++ replicate (out_len - num_bytes) 0).

(** * BIGNUMs *)

(** The outer option is the failed assertion, the inner one the error return. *)
Definition BN_bn2bin (a : BIGNUM) : option bytes :=
  bn_words_to_big_endian (Z.to_nat (BN_num_bytes a)) (limbs a).

Definition BN_bn2bin_padded (len : nat) (a : BIGNUM) : option (option bytes) :=
  if negb (fits_in_bytes (limbs a) len) then Some None
  else match bn_words_to_big_endian len (limbs a) with Some bs => Some (Some bs) | None => None end.

Definition BN_bn2le_padded (len : nat) (a : BIGNUM) : option (option bytes) :=
  if negb (fits_in_bytes (limbs a) len) then Some None
  else match bn_words_to_little_endian len (limbs a) with Some bs => Some (Some bs) | None => None end.

Section Ops.
Context (alloc_ok : nat -> bool).

(** The object to store in: [ret], or a new one at the address [fresh], [None] if
    [BN_new] fails. *)
Definition get_ret (ret fresh : option nat) : prog (option nat) :=
  match ret, fresh with
  | Some r, _ => r_ret (Some r)
  | None, Some r => fun h => Some (Some r, <[r := BN_new]> h)
  | None, None => r_ret None
  end.

(** [BN_free(bn)], where [bn] is NULL unless the object is new. *)
Definition free_new (ret : option nat) (r : nat) : prog unit :=
  match ret with Some _ => r_ret tt | None => fun h => Some (tt, delete r h) end.

Definition BN_bin2bn (inp : bytes) (ret fresh : option nat) : prog (option nat) :=
  do r <- get_ret ret fresh;
  match r with
  | None => r_ret None
  | Some r =>
      if (length inp =? 0)%nat then do_ r_modify r (set_width 0); r_ret (Some r)
      else
        let num_words := ((length inp - 1) / 8 + 1)%nat in
        do ok <- bn_wexpand alloc_ok r num_words;
        if negb ok then do_ free_new ret r; r_ret None
        else
          do_ r_assert (Z.of_nat num_words <=? 2 ^ 31 - 1);
          do_ r_modify r (fun bn => set_neg false (set_width num_words bn));
          do ws <- r_some (bn_big_endian_to_words num_words inp);
          do_ put_words r 0 ws;
          r_ret (Some r)
  end.

Definition BN_le2bn (inp : bytes) (ret fresh : option nat) : prog (option nat) :=
  do r <- get_ret ret fresh;
  match r with
  | None => r_ret None
  | Some r =>
      if (length inp =? 0)%nat then do_ r_modify r (fun bn => set_neg false (set_width 0 bn)); r_ret (Some r)
      else
        let num_words := ((length inp - 1) / 8 + 1)%nat in
        do ok <- bn_wexpand alloc_ok r num_words;
        if negb ok then do_ free_new ret r; r_ret None
        else
          do_ r_modify r (fun bn => set_neg false (set_width num_words bn));
          do ws <- r_some (bn_little_endian_to_words num_words inp);
          do_ put_words r 0 ws;
          r_ret (Some r)
  end.
End Ops.

(** * Values *)

(** The number a little-endian string denotes. *)
Definition le_value (bs : bytes) : Z := be_value (reverse bs).

Lemma len_reverse (bs : bytes) : len (reverse bs) = len bs.
Proof. unfold len. by rewrite length_reverse. Qed.

Lemma le_value_app xs ys : le_value (xs ++ ys) = le_value xs + 256 ^ len xs * le_value ys.
Proof. unfold le_value. rewrite reverse_app, be_value_app, len_reverse. lia. Qed.

Lemma le_value_bound bs : bytes_ok bs -> 0 <= le_value bs < 256 ^ len bs.
Proof. intros H. unfold le_value. rewrite <- len_reverse. apply be_value_bound. auto with bytes_db. Qed.

Lemma pow256 n : 0 <= n -> 256 ^ n = 2 ^ (8 * n).
Proof. intros Hn. change 256 with (2 ^ 8). by rewrite <- Z.pow_mul_r by lia. Qed.

Lemma length_word_bytes w : length (word_bytes w) = 8%nat.
Proof. unfold word_bytes. by rewrite length_reverse, length_be_bytes. Qed.

Lemma length_words_bytes ws : length (words_bytes ws) = (length ws * 8)%nat.
Proof. unfold words_bytes. induction ws as [| w ws IH]; [done |]. cbn [map concat length]. rewrite length_app, IH, length_word_bytes. lia. Qed.

Lemma words_bytes_ok ws : bytes_ok (words_bytes ws).
Proof.
  unfold words_bytes. induction ws as [| w ws IH]; [apply bytes_ok_nil |]. cbn [map concat]. apply bytes_ok_app. split; [| done].
  apply bytes_ok_reverse, be_bytes_ok.
Qed.
#[local] Hint Resolve words_bytes_ok : bytes_db.

Lemma le_value_words ws : words_ok ws -> le_value (words_bytes ws) = value ws.
Proof.
  intros H. unfold words_bytes. induction H as [| w ws [Hw Hw'] Hws IH]; [done |]. cbn [map concat value].
  rewrite le_value_app, IH. unfold len. rewrite length_word_bytes. unfold le_value, word_bytes. rewrite reverse_involutive, be_value_bytes.
  change (256 ^ Z.of_nat 8) with (2 ^ 64). rewrite Z.mod_small by lia. lia.
Qed.

Lemma le_value_zero bs : bytes_ok bs -> le_value bs = 0 <-> foldl Z.lor 0 bs = 0.
Proof.
  intros Hok. assert (words_ok bs) as Hw.
  { eapply Forall_impl; [exact Hok |]. intros b Hb. unfold byte_ok in Hb. unfold fits. lia. }
  rewrite (proj2 (or_nonneg 0 bs ltac:(lia) Hw)), (value_zero bs Hw). clear Hw.
  induction Hok as [| b bs Hb Hok IH]; [split; [by split; [| apply Forall_nil] | done] |].
  change (b :: bs) with ([b] ++ bs) at 1. rewrite le_value_app, Forall_cons_iff. pose proof (le_value_bound bs Hok).
  change (le_value [b]) with b. change (256 ^ len [b]) with 256. unfold byte_ok in Hb.
  split; [intros; split_and!; [done | lia | apply IH; lia] | intros (_ & -> & H0); rewrite (proj2 IH (conj eq_refl H0)); lia].
Qed.

Lemma le_value_zeros n : le_value (replicate n 0) = 0.
Proof. apply le_value_zero; [apply bytes_ok_replicate; unfold byte_ok; lia |]. induction n; done. Qed.

(** The bytes cut off are zeros exactly if the number fits. *)
Lemma le_value_cut bs n :
  bytes_ok bs -> (n <= length bs)%nat ->
  le_value bs = le_value (take n bs) + 256 ^ Z.of_nat n * le_value (drop n bs).
Proof.
  intros Hok Hn. rewrite <- (take_drop n bs) at 1. rewrite le_value_app. unfold len. rewrite length_take, Nat.min_l by lia. done.
Qed.

Lemma fits_in_bytes_spec ws n :
  words_ok ws -> fits_in_bytes ws n = true <-> value ws < 256 ^ Z.of_nat n.
Proof.
  intros Hok. unfold fits_in_bytes. rewrite Z.eqb_eq, <- le_value_zero by (auto with bytes_db). rewrite <- (le_value_words ws Hok).
  destruct (Nat.le_gt_cases n (length (words_bytes ws))) as [Hle | Hgt].
  - rewrite (le_value_cut (words_bytes ws) n) by (auto with bytes_db).
    pose proof (le_value_bound (take n (words_bytes ws)) ltac:(auto with bytes_db)) as Hb. unfold len in Hb. rewrite length_take, Nat.min_l in Hb by lia.
    pose proof (le_value_bound (drop n (words_bytes ws)) ltac:(auto with bytes_db)).
    assert (0 < 256 ^ Z.of_nat n) by (apply Z.pow_pos_nonneg; lia). split; [intros ->; lia | intros; nia].
  - rewrite drop_ge by lia. split; [intros _ | done]. pose proof (le_value_bound (words_bytes ws) ltac:(auto with bytes_db)) as Hb. unfold len in Hb.
    assert (256 ^ Z.of_nat (length (words_bytes ws)) <= 256 ^ Z.of_nat n) by (apply Z.pow_le_mono_r; lia). lia.
Qed.

(** What both output functions keep of the bytes. *)
Lemma take_fitting ws n :
  words_ok ws -> fits_in_bytes ws n = true ->
  let m := if (n <? length ws * 8)%nat then n else (length ws * 8)%nat in
  (m <= n)%nat /\ length (take m (words_bytes ws)) = m /\ le_value (take m (words_bytes ws)) = value ws.
Proof.
  intros Hok Hf. pose proof (length_words_bytes ws) as Hl. cbv zeta. destruct (Nat.ltb_spec n (length ws * 8)) as [Hlt | Hge].
  - rewrite length_take, Nat.min_l by lia. split_and!; [done | done |]. rewrite <- (le_value_words ws Hok).
    unfold fits_in_bytes in Hf. apply Z.eqb_eq in Hf. apply le_value_zero in Hf; [| auto with bytes_db].
    rewrite (le_value_cut (words_bytes ws) n) by (auto with bytes_db; lia). rewrite Hf. lia.
  - rewrite take_ge by lia. split_and!; [lia | lia |]. by apply le_value_words.
Qed.

Lemma to_big_endian_spec ws n :
  words_ok ws -> value ws < 256 ^ Z.of_nat n -> bn_words_to_big_endian n ws = Some (be_bytes n (value ws)).
Proof.
  intros Hok Hlt. apply fits_in_bytes_spec in Hlt as Hf; [| done]. unfold bn_words_to_big_endian. rewrite Hf. cbn [negb]. cbv zeta.
  destruct (take_fitting ws n Hok Hf) as (H1 & H2 & H3). set (m := if (n <? length ws * 8)%nat then n else (length ws * 8)%nat) in *.
  f_equal. assert (length (replicate (n - m) 0 ++ reverse (take m (words_bytes ws))) = n) as Hl.
  { rewrite length_app, length_replicate, length_reverse, H2. lia. }
  apply be_value_inj; [| auto with bytes_db | by rewrite length_be_bytes |].
  - apply bytes_ok_app. split; [apply bytes_ok_replicate; unfold byte_ok; lia | auto with bytes_db].
  - rewrite be_value_app, be_value_bytes, Z.mod_small by (split; [by apply value_nonneg | done]). fold (le_value (take m (words_bytes ws))). rewrite H3.
    replace (be_value (replicate (n - m) 0)) with (le_value (replicate (n - m) 0)) by (unfold le_value; by rewrite reverse_replicate).
    rewrite le_value_zeros. lia.
Qed.

Lemma to_little_endian_spec ws n :
  words_ok ws -> value ws < 256 ^ Z.of_nat n -> bn_words_to_little_endian n ws = Some (reverse (be_bytes n (value ws))).
Proof.
  intros Hok Hlt. pose proof (to_big_endian_spec ws n Hok Hlt) as H. unfold bn_words_to_big_endian in H. unfold bn_words_to_little_endian.
  destruct (negb (fits_in_bytes ws n)); [done |]. cbv zeta in *. injection H as H. rewrite <- H, reverse_app, reverse_involutive, reverse_replicate. done.
Qed.

(** ** Reading *)

Lemma partial_word_spec k inp acc :
  (k + length inp <= 8)%nat -> bytes_ok inp -> 0 <= acc < 256 ^ Z.of_nat k ->
  foldl (fun word b => Z.lor (u64 (Z.shiftl word 8)) b) acc inp = foldl (fun acc b => acc * 256 + b) acc inp.
Proof.
  revert k acc. induction inp as [| b inp IH]; intros k acc Hk Hok Hacc; [done |]. apply bytes_ok_cons in Hok as [Hb Hok]. cbn [foldl length] in *.
  assert (256 ^ Z.of_nat (S k) <= 2 ^ 64) as Hp by (rewrite pow256 by lia; apply Z.pow_le_mono_r; lia).
  replace (Z.of_nat (S k)) with (Z.of_nat k + 1) in Hp by lia. rewrite Z.pow_add_r in Hp by lia.
  unfold u64, wrap. rewrite Z.mod_small by (rewrite Z.shiftl_mul_pow2 by lia; change (2 ^ 8) with 256; lia).
  rewrite lor_shiftl_add by (done || lia). change (2 ^ 8) with 256. unfold byte_ok in Hb. apply (IH (S k)); [lia | done |].
  replace (Z.of_nat (S k)) with (Z.of_nat k + 1) by lia. rewrite Z.pow_add_r by lia. lia.
Qed.

Lemma be_words_loop_spec fuel inp :
  (length inp < fuel)%nat -> bytes_ok inp ->
  let ws := be_words_loop fuel inp in value ws = be_value inp /\ words_ok ws /\ length ws = ((length inp + 7) / 8)%nat.
Proof.
  revert inp. induction fuel as [| fuel IH]; intros inp Hf Hok; [lia |]. cbn [be_words_loop]. cbv zeta.
  pose proof (be_value_bound inp Hok) as Hb. unfold len in Hb. destruct (Nat.leb_spec 8 (length inp)) as [Hge | Hlt].
  - set (k := (length inp - 8)%nat). assert (length (take k inp) = k) as Hlk by (rewrite length_take; lia).
    destruct (IH (take k inp)) as (Hv & Hw & Hl); [lia | auto with bytes_db |]. cbn [value length]. rewrite Hv, Hl, Hlk.
    assert (length (drop k inp) = 8%nat) as Hld by (rewrite length_drop; lia).
    pose proof (be_value_bound (drop k inp) ltac:(auto with bytes_db)) as Hbd. unfold len in Hbd. rewrite Hld in Hbd. change (256 ^ Z.of_nat 8) with (2 ^ 64) in Hbd.
    split_and!.
    + rewrite <- (take_drop k inp) at 3. rewrite be_value_app. unfold len. rewrite Hld. unfold CRYPTO_load_word_be. change (256 ^ Z.of_nat 8) with (2 ^ 64). lia.
    + apply words_ok_cons. split; [| done]. unfold fits, CRYPTO_load_word_be. lia.
    + replace (length inp + 7)%nat with (k + 7 + 1 * 8)%nat by lia. rewrite Nat.div_add by lia. lia.
  - destruct (Nat.eqb_spec (length inp) 0) as [E | E].
    + destruct inp; [| done]. split_and!; [done | by apply Forall_nil | done].
    + cbn [value length]. rewrite (partial_word_spec 0) by (done || lia). fold (be_value inp).
      assert (256 ^ Z.of_nat (length inp) <= 2 ^ 64) by (rewrite pow256 by lia; apply Z.pow_le_mono_r; lia).
      split_and!; [lia | apply words_ok_cons; split; [unfold fits; lia | by apply Forall_nil] |].
      replace ((length inp + 7) / 8)%nat with 1%nat; [done |]. apply (Nat.div_unique _ 8 1 (length inp - 1)); lia.
Qed.

Lemma bytes_words_spec n bs :
  bytes_ok bs -> length bs = (n * 8)%nat ->
  value (bytes_words n bs) = le_value bs /\ words_ok (bytes_words n bs) /\ length (bytes_words n bs) = n.
Proof.
  revert bs. induction n as [| n IH]; intros bs Hok Hl; cbn [bytes_words].
  { destruct bs; [| done]. split_and!; [done | by apply Forall_nil | done]. }
  destruct (IH (drop 8 bs)) as (Hv & Hw & Hlen); [auto with bytes_db | rewrite length_drop; lia |]. cbn [value length].
  rewrite (le_value_cut bs 8) by (done || lia). change (256 ^ Z.of_nat 8) with (2 ^ 64). unfold CRYPTO_load_word_le. fold (le_value (take 8 bs)).
  pose proof (le_value_bound (take 8 bs) ltac:(auto with bytes_db)) as Hb. unfold len in Hb. rewrite length_take, Nat.min_l in Hb by lia. change (256 ^ Z.of_nat 8) with (2 ^ 64) in Hb.
  split_and!; [lia | apply words_ok_cons; split; [done | done] | lia].
Qed.

Lemma num_words_eq n : (n <> 0 -> (n - 1) / 8 + 1 = (n + 7) / 8)%nat.
Proof. intros Hn. rewrite <- Nat.div_add by lia. f_equal. lia. Qed.

Lemma num_words_enough n : (n <= (n + 7) / 8 * 8)%nat.
Proof. pose proof (Nat.div_mod (n + 7) 8 ltac:(lia)). pose proof (Nat.mod_upper_bound (n + 7) 8 ltac:(lia)). lia. Qed.

Lemma big_endian_to_words_spec inp :
  bytes_ok inp -> exists ws, bn_big_endian_to_words ((length inp + 7) / 8) inp = Some ws /\
    value ws = be_value inp /\ words_ok ws /\ length ws = ((length inp + 7) / 8)%nat.
Proof.
  intros Hok. unfold bn_big_endian_to_words. rewrite (proj2 (Nat.leb_le _ _)) by apply num_words_enough.
  destruct (be_words_loop_spec (S (length inp)) inp) as (Hv & Hw & Hl); [lia | done |]. cbv zeta. eexists. split; [done |].
  rewrite Hl, Nat.sub_diag. cbn [replicate]. rewrite app_nil_r. done.
Qed.

Lemma little_endian_to_words_spec inp :
  bytes_ok inp -> inp <> [] -> exists ws, bn_little_endian_to_words ((length inp + 7) / 8) inp = Some ws /\
    value ws = le_value inp /\ words_ok ws /\ length ws = ((length inp + 7) / 8)%nat.
Proof.
  intros Hok Hne. unfold bn_little_endian_to_words. pose proof (num_words_enough (length inp)) as He.
  assert (0 < length inp)%nat by (destruct inp; [done | cbn; lia]). set (n := ((length inp + 7) / 8)%nat) in *.
  rewrite (proj2 (Nat.eqb_neq n 0)), (proj2 (Nat.ltb_ge _ _)) by lia. cbn [orb].
  destruct (bytes_words_spec n (inp ++ replicate (n * 8 - length inp) 0)) as (Hv & Hw & Hl).
  - apply bytes_ok_app. split; [done | apply bytes_ok_replicate; unfold byte_ok; lia].
  - rewrite length_app, length_replicate. lia.
  - eexists. split_and!; [done | | done | done]. rewrite Hv, le_value_app, le_value_zeros. lia.
Qed.

Section Specs.
Context (alloc_ok : nat -> bool).

(** Both readers, once the words are known: [r] is the object, given or new. *)
Lemma store_words h r R ws :
  h !! r = Some R -> wf R -> room alloc_ok R (length ws) = true -> words_ok ws ->
  exists R', (do_ r_modify r (fun bn => set_neg false (set_width (length ws) bn)); do_ put_words r 0 ws; r_ret (Some r))
      (<[r := expanded R (length ws)]> h) = Some (Some r, <[r := R']> h) /\
    wf R' /\ mag R' = value ws /\ neg R' = false.
Proof.
  intros Hr HR Hroom Hok. destruct (expanded_spec R (length ws) HR Hroom) as (HE & Hlen & _). set (E := expanded R (length ws)) in *.
  erewrite bind_eq by apply modify_cell. erewrite bind_eq by (apply put_eq; [by rewrite lookup_insert_eq | cbn; lia]).
  rewrite insert_insert_eq. eexists. split; [done |]. cbn [d set_neg set_width].
  unfold overwrite. rewrite take_0, app_nil_l, Nat.add_0_l. destruct HE as [Hd Hw Hm]. split_and!; [| | done].
  - constructor; cbn [d width set_neg set_width set_d]; [apply words_ok_app; auto with word_db | |]; rewrite length_app, length_drop; lia.
  - unfold mag, limbs. cbn [d width set_neg set_width set_d]. by rewrite take_app_length.
Qed.

Lemma words_below_int R n : room alloc_ok R n = true -> wf R -> (Z.of_nat n <=? 2 ^ 31 - 1) = true.
Proof.
  intros Hroom [_ _ Hm]. change BN_MAX_WORDS with 8388607 in Hm. unfold room in Hroom. change BN_MAX_WORDS with 8388607 in Hroom.
  apply Z.leb_le. apply orb_prop in Hroom as [H%Nat.leb_le | H]; [lia |]. apply andb_prop in H as [[H%Z.leb_le _]%andb_prop _]. lia.
Qed.

Lemma bin2bn_spec h r R inp fresh :
  h !! r = Some R -> wf R -> bytes_ok inp -> inp <> [] ->
  let n := ((length inp + 7) / 8)%nat in
  if room alloc_ok R n then
    exists R', BN_bin2bn alloc_ok inp (Some r) fresh h = Some (Some r, <[r := R']> h) /\ wf R' /\ mag R' = be_value inp /\ neg R' = false
  else BN_bin2bn alloc_ok inp (Some r) fresh h = Some (None, h).
Proof.
  intros Hr HR Hok Hne. cbv zeta. assert (length inp <> 0)%nat as Hl by (by destruct inp).
  destruct (big_endian_to_words_spec inp Hok) as (ws & E & Hv & Hw & Hlw). rewrite <- Hlw in E |- *.
  destruct (room alloc_ok R (length ws)) eqn:Hroom.
  - destruct (store_words h r R ws Hr HR Hroom Hw) as (R' & Er & H1 & H2 & H3). exists R'. rewrite <- Hv. split_and!; [| done | done | done].
    unfold BN_bin2bn. erewrite bind_eq by done. rewrite (proj2 (Nat.eqb_neq _ _) Hl), num_words_eq, <- Hlw by done. cbv zeta.
    erewrite bind_eq by (by apply wexpand_eq). rewrite Hroom. cbn [negb]. rewrite bind_assert by (by apply (words_below_int R)).
    erewrite bind_eq by apply modify_cell. rewrite (bind_some _ _ _ _ E). erewrite bind_eq in Er by apply modify_cell. exact Er.
  - unfold BN_bin2bn. erewrite bind_eq by done. rewrite (proj2 (Nat.eqb_neq _ _) Hl), num_words_eq, <- Hlw by done. cbv zeta.
    erewrite bind_eq by (by apply wexpand_eq). rewrite Hroom. done.
Qed.

Lemma le2bn_spec h r R inp fresh :
  h !! r = Some R -> wf R -> bytes_ok inp -> inp <> [] ->
  let n := ((length inp + 7) / 8)%nat in
  if room alloc_ok R n then
    exists R', BN_le2bn alloc_ok inp (Some r) fresh h = Some (Some r, <[r := R']> h) /\ wf R' /\ mag R' = le_value inp /\ neg R' = false
  else BN_le2bn alloc_ok inp (Some r) fresh h = Some (None, h).
Proof.
  intros Hr HR Hok Hne. cbv zeta. assert (length inp <> 0)%nat as Hl by (by destruct inp).
  destruct (little_endian_to_words_spec inp Hok Hne) as (ws & E & Hv & Hw & Hlw). rewrite <- Hlw in E |- *.
  destruct (room alloc_ok R (length ws)) eqn:Hroom.
  - destruct (store_words h r R ws Hr HR Hroom Hw) as (R' & Er & H1 & H2 & H3). exists R'. rewrite <- Hv. split_and!; [| done | done | done].
    unfold BN_le2bn. erewrite bind_eq by done. rewrite (proj2 (Nat.eqb_neq _ _) Hl), num_words_eq, <- Hlw by done. cbv zeta.
    erewrite bind_eq by (by apply wexpand_eq). rewrite Hroom. cbn [negb].
    erewrite bind_eq by apply modify_cell. rewrite (bind_some _ _ _ _ E). erewrite bind_eq in Er by apply modify_cell. exact Er.
  - unfold BN_le2bn. erewrite bind_eq by done. rewrite (proj2 (Nat.eqb_neq _ _) Hl), num_words_eq, <- Hlw by done. cbv zeta.
    erewrite bind_eq by (by apply wexpand_eq). rewrite Hroom. done.
Qed.
(** Reading any string, the empty one included. *)
Lemma bin2bn_any h r R inp fresh :
  h !! r = Some R -> wf R -> bytes_ok inp -> room alloc_ok R ((length inp + 7) / 8) = true ->
  exists R', BN_bin2bn alloc_ok inp (Some r) fresh h = Some (Some r, <[r := R']> h) /\ wf R' /\ mag R' = be_value inp /\
    neg R' = neg R && (length inp =? 0)%nat.
Proof.
  intros Hr HR Hok Hroom. destruct inp as [| b inp].
  - unfold BN_bin2bn. erewrite bind_eq by done. cbn [length Nat.eqb]. erewrite bind_eq by (by apply modify_eq).
    exists (set_width 0 R). rewrite andb_true_r. split_and!; [done | | done | done]. destruct HR as [Hd Hw Hm]. constructor; cbn; [done | lia | done].
  - pose proof (bin2bn_spec h r R (b :: inp) fresh Hr HR Hok ltac:(done)) as H. cbv zeta in H. rewrite Hroom in H.
    destruct H as (R' & E & H1 & H2 & H3). exists R'. cbn [length Nat.eqb]. rewrite andb_false_r. by split_and!.
Qed.

Lemma le2bn_any h r R inp fresh :
  h !! r = Some R -> wf R -> bytes_ok inp -> room alloc_ok R ((length inp + 7) / 8) = true ->
  exists R', BN_le2bn alloc_ok inp (Some r) fresh h = Some (Some r, <[r := R']> h) /\ wf R' /\ mag R' = le_value inp /\ neg R' = false.
Proof.
  intros Hr HR Hok Hroom. destruct inp as [| b inp].
  - unfold BN_le2bn. erewrite bind_eq by done. cbn [length Nat.eqb]. erewrite bind_eq by (by apply modify_eq).
    eexists. split_and!; [done | | done | done]. destruct HR as [Hd Hw Hm]. constructor; cbn; [done | lia | done].
  - pose proof (le2bn_spec h r R (b :: inp) fresh Hr HR Hok ltac:(done)) as H. cbv zeta in H. rewrite Hroom in H.
    destruct H as (R' & E & H1 & H2 & H3). exists R'. by split_and!.
Qed.
End Specs.

Lemma num_bytes_fit A : wf A -> mag A < 256 ^ Z.of_nat (Z.to_nat (BN_num_bytes A)).
Proof.
  intros HA. pose proof (mag_nonneg A HA). unfold BN_num_bytes. rewrite num_bits_spec by done. unfold bit_length.
  destruct (Z.eqb_spec (mag A) 0) as [-> | Hne]; [done |]. pose proof (Z.log2_nonneg (mag A)).
  rewrite Z2Nat.id by (apply Z.div_pos; lia). rewrite pow256 by (apply Z.div_pos; lia). apply Z.log2_lt_pow2; [lia |].
  pose proof (Z.div_mod (Z.log2 (mag A) + 1 + 7) 8 ltac:(lia)). pose proof (Z.mod_pos_bound (Z.log2 (mag A) + 1 + 7) 8 ltac:(lia)). lia.
Qed.

(** C27: Writing a BIGNUM gives the big-endian, respectively little-endian string of its
    magnitude; the sign is not written.  The padded functions fail exactly if the magnitude does not
    fit in [n] bytes, [BN_bn2bin] writes [BN_num_bytes] bytes, and no assertion fails.  Reading what
    any of them wrote, the empty string of zero included, into any object with room gives the
    magnitude back, with a positive sign, except that [BN_bin2bn] of the empty string keeps the sign
    the object had. *)
Theorem bn_bytes_roundtrip alloc_ok h r R A n fresh :
  wf A -> h !! r = Some R -> wf R ->
  let fit := mag A <? 256 ^ Z.of_nat n in
  let m := Z.to_nat (BN_num_bytes A) in
  let be k := be_bytes k (mag A) in
  BN_bn2bin_padded n A = Some (if fit then Some (be n) else None) /\
  BN_bn2le_padded n A = Some (if fit then Some (reverse (be n)) else None) /\
  BN_bn2bin A = Some (be m) /\
  forall k, (k = n /\ fit = true) \/ k = m -> room alloc_ok R ((k + 7) / 8) = true ->
    (exists R', BN_bin2bn alloc_ok (be k) (Some r) fresh h = Some (Some r, <[r := R']> h) /\ wf R' /\ mag R' = mag A /\ neg R' = neg R && (k =? 0)%nat) /\
    (exists R', BN_le2bn alloc_ok (reverse (be k)) (Some r) fresh h = Some (Some r, <[r := R']> h) /\ wf R' /\ mag R' = mag A /\ neg R' = false).
Proof.
  intros HA Hr HR fit m be. pose proof (limbs_ok A HA) as Hok. pose proof (mag_nonneg A HA) as Hnn. pose proof (num_bytes_fit A HA) as Hm. fold m in Hm.
  assert (fits_in_bytes (limbs A) n = fit) as Hf.
  { apply eq_true_iff_eq. unfold fit. by rewrite fits_in_bytes_spec, Z.ltb_lt. }
  split_and!.
  - unfold BN_bn2bin_padded. rewrite Hf. unfold fit. destruct (Z.ltb_spec (mag A) (256 ^ Z.of_nat n)); cbn [negb]; [| done].
    by rewrite to_big_endian_spec.
  - unfold BN_bn2le_padded. rewrite Hf. unfold fit. destruct (Z.ltb_spec (mag A) (256 ^ Z.of_nat n)); cbn [negb]; [| done].
    by rewrite to_little_endian_spec.
  - unfold BN_bn2bin. by apply to_big_endian_spec.
  - intros k Hk Hroom. assert (mag A < 256 ^ Z.of_nat k) as Hfit by (destruct Hk as [[-> E%Z.ltb_lt] | ->]; done).
    assert (be_value (be k) = mag A) as Hv by (unfold be; rewrite be_value_bytes; apply Z.mod_small; lia).
    assert (length (be k) = k) as Hl by apply length_be_bytes. pose proof (be_bytes_ok k (mag A)) as Hb. fold (be k) in Hb. split.
    + destruct (bin2bn_any alloc_ok h r R (be k) fresh Hr HR Hb) as (R' & E & H1 & H2 & H3); [by rewrite Hl |].
      exists R'. rewrite Hl in H3. split_and!; [done | done | congruence | done].
    + destruct (le2bn_any alloc_ok h r R (reverse (be k)) fresh Hr HR (bytes_ok_reverse _ Hb)) as (R' & E & H1 & H2 & H3); [by rewrite length_reverse, Hl |].
      unfold le_value in H2. rewrite reverse_involutive in H2. exists R'. split_and!; [done | done | congruence | done].
Qed.

Lemma bn_bytes_roundtrip_witness :
  let A := mk_bn [258; 1; 0] 3 true true false in
  BN_bn2bin_padded 9 A = Some (Some [1; 0; 0; 0; 0; 0; 0; 1; 2]) /\
  exists R', BN_bin2bn (fun _ => true) (be_bytes 9 (mag A)) (Some 1%nat) None (<[1%nat := BN_new]> ∅) = Some (Some 1%nat, <[1%nat := R']> (<[1%nat := BN_new]> ∅)) /\
    wf R' /\ mag R' = mag A /\ neg R' = false.
Proof.
  split; [by vm_compute |].
  destruct (bn_bytes_roundtrip (fun _ => true) (<[1%nat := BN_new]> ∅) 1 BN_new (mk_bn [258; 1; 0] 3 true true false) 9 None) as (_ & _ & _ & H); [solve_wf | done | solve_wf |].
  apply (H 9%nat); [left; split; [done | by vm_compute] | done].
Defined.

(** Reading no bytes: [BN_le2bn] gives zero, but [BN_bin2bn] leaves the sign of the
    object, so that a negative object becomes a negative zero, which [BN_cmp] orders below
    zero and [BN_equal_consttime] tells apart from it. *)
Theorem bin2bn_empty_keeps_sign alloc_ok h r R fresh :
  h !! r = Some R -> neg R = true ->
  (exists R', BN_le2bn alloc_ok [] (Some r) fresh h = Some (Some r, <[r := R']> h) /\ val R' = 0 /\ neg R' = false) /\
  (exists R', BN_bin2bn alloc_ok [] (Some r) fresh h = Some (Some r, <[r := R']> h) /\ val R' = 0 /\ neg R' = true /\
     BN_is_zero R' = true /\ BN_cmp (Some R') (Some BN_new) = -1 /\ BN_equal_consttime R' BN_new = false).
Proof.
  intros Hr Hn. split.
  - unfold BN_le2bn. erewrite bind_eq by done. cbn [length Nat.eqb]. erewrite bind_eq by (by apply modify_eq). by eexists.
  - unfold BN_bin2bn. erewrite bind_eq by done. cbn [length Nat.eqb]. erewrite bind_eq by (by apply modify_eq).
    exists (set_width 0 R). unfold val, BN_cmp, BN_equal_consttime. cbn [neg set_width]. rewrite Hn. done.
Qed.

Lemma bin2bn_empty_keeps_sign_witness :
  let h : gmap nat BIGNUM := <[1%nat := mk_bn [5] 1 true true false]> ∅ in
  exists R', BN_le2bn (fun _ => true) [] (Some 1%nat) None h = Some (Some 1%nat, <[1%nat := R']> h) /\ val R' = 0 /\ neg R' = false.
Proof.
  apply (bin2bn_empty_keeps_sign (fun _ => true) (<[1%nat := mk_bn [5] 1 true true false]> ∅) 1 (mk_bn [5] 1 true true false) None); done.
Defined.
End BnBytes.
