(* ===== verification/BnCtx.v ===== *)
(** BN_CTX (crypto/fipsmodule/bn/ctx.c): the pool of temporary BIGNUMs, in frames, that the functions
    with temporaries take them from, and its refinement of a stack of frames.

    The BIGNUMs live in the store; an object [BN_new] makes gets an address that is not in use.  The
    outcomes of the allocations are arguments. *)

From S2P Require Import Prelude Internal Store BnWords Bn.

Open Scope Z_scope.

Module BnCtx.
Import BnWords Bn.

(** [indexes] holds the [depth] indexes in use, the last one first. *)
Record BN_STACK := mk_stack { indexes : list nat; size : Z }.

(** [bignums] is [None] for NULL. *)
Record BN_CTX := mk_ctx { bignums : option (list nat); stack : BN_STACK; used : nat; error : bool; defer_error : bool }.

Definition BN_STACK_init : BN_STACK := mk_stack [] 0.

Definition BN_CTX_START_FRAMES : Z := 32.

(** [realloc_ok]: the outcome of [OPENSSL_realloc]. *)
Definition BN_STACK_push (realloc_ok : bool) (st : BN_STACK) (idx : nat) : option BN_STACK :=
  if Z.of_nat (length (indexes st)) =? size st then
    let new_size := if negb (size st =? 0) then wrap 64 (size st * 3) / 2 else BN_CTX_START_FRAMES in
    if (new_size <=? size st) || (new_size >? size_max / 8) then None
    else if negb realloc_ok then None
    else Some (mk_stack (idx :: indexes st) new_size)
  else Some (mk_stack (idx :: indexes st) (size st)).

(** [None]: the assertion that there is a frame fails. *)
Definition BN_STACK_pop (st : BN_STACK) : option (nat * BN_STACK) :=
  match indexes st with [] => None | i :: rest => Some (i, mk_stack rest (size st)) end.

Definition BN_CTX_new : BN_CTX := mk_ctx None BN_STACK_init 0 false false.

Definition BN_CTX_start (realloc_ok : bool) (ctx : BN_CTX) : BN_CTX :=
  if error ctx then ctx
  else
    match BN_STACK_push realloc_ok (stack ctx) (used ctx) with
    | None => mk_ctx (bignums ctx) (stack ctx) (used ctx) true true
    | Some st => mk_ctx (bignums ctx) st (used ctx) (error ctx) (defer_error ctx)
    end.

Definition fail (ctx : BN_CTX) : BN_CTX := mk_ctx (bignums ctx) (stack ctx) (used ctx) true (defer_error ctx).
Definition set_bignums (l : list nat) (ctx : BN_CTX) : BN_CTX := mk_ctx (Some l) (stack ctx) (used ctx) (error ctx) (defer_error ctx).

(** The outcomes of [sk_BIGNUM_new_null], [BN_new] and [sk_BIGNUM_push]. *)
Record outcomes := mk_outcomes { sk_new_ok : bool; bn_new_ok : bool; push_ok : bool }.

(** [BN_zero] of the BIGNUM at [used], which is returned; [None] is undefined. *)
Definition take_next (ctx : BN_CTX) (l : list nat) (h : gmap nat BIGNUM) : option (option nat * BN_CTX * gmap nat BIGNUM) :=
  ret ← l !! used ctx;
  bn ← h !! ret;
  Some (Some ret, mk_ctx (Some l) (stack ctx) (S (used ctx)) (error ctx) (defer_error ctx), <[ret := set_neg false (set_width 0 bn)]> h).

Definition BN_CTX_get (o : outcomes) (ctx : BN_CTX) (h : gmap nat BIGNUM) : option (option nat * BN_CTX * gmap nat BIGNUM) :=
  if error ctx then
    Some (None, if defer_error ctx then mk_ctx (bignums ctx) (stack ctx) (used ctx) true false else ctx, h)
  else
    match (match bignums ctx with Some l => Some l | None => if sk_new_ok o then Some [] else None end) with
    | None => Some (None, fail ctx, h)
    | Some l =>
        let ctx := set_bignums l ctx in
        if (used ctx =? length l)%nat then
          if negb (bn_new_ok o) then Some (None, fail ctx, h)
          else
            let x := fresh (dom h) in
            let h' := <[x := BN_new]> h in
            if negb (push_ok o) then Some (None, fail ctx, delete x h')
            else take_next ctx (l ++ [x]) h'
        else take_next ctx l h
    end.

Definition BN_CTX_end (ctx : BN_CTX) : option BN_CTX :=
  if error ctx then Some ctx
  else
    '(i, st) ← BN_STACK_pop (stack ctx);
    Some (mk_ctx (bignums ctx) st i (error ctx) (defer_error ctx)).

(** [None]: the assertion that the frames are closed fails. *)
Definition BN_CTX_free (ctx : BN_CTX) (h : gmap nat BIGNUM) : option (gmap nat BIGNUM) :=
  if negb ((used ctx =? 0)%nat || error ctx) then None
  else Some (foldr delete h (default [] (bignums ctx))).

(** * Calls *)

(** A call, with the outcomes of the allocations it makes. *)
Inductive call := Start (realloc_ok : bool) | Get (o : outcomes) | End.

(** The result is what [BN_CTX_get] returns. *)
Definition step (c : call) (s : BN_CTX * gmap nat BIGNUM) : option (option nat * (BN_CTX * gmap nat BIGNUM)) :=
  let '(ctx, h) := s in
  match c with
  | Start ok => Some (None, (BN_CTX_start ok ctx, h))
  | Get o => '(r, ctx, h) ← BN_CTX_get o ctx h; Some (r, (ctx, h))
  | End => ctx ← BN_CTX_end ctx; Some (None, (ctx, h))
  end.

(** The caller works on the BIGNUMs, and may make others. *)
Definition keeps (h h' : gmap nat BIGNUM) : Prop := forall x X, h !! x = Some X -> wf X -> exists X', h' !! x = Some X' /\ wf X'.

(** Calls, with the caller's work in between. *)
Inductive exec : BN_CTX * gmap nat BIGNUM -> list call -> list (option nat) -> BN_CTX * gmap nat BIGNUM -> Prop :=
| exec_nil s : exec s [] [] s
| exec_call s c r s' cs rs s'' : step c s = Some (r, s') -> exec s' cs rs s'' -> exec s (c :: cs) (r :: rs) s''
| exec_work ctx h h' cs rs s : keeps h h' -> exec (ctx, h') cs rs s -> exec (ctx, h) cs rs s.

(** * The specification: a stack of frames *)

(** The frames, the innermost first, with what each has been given; [Failed] once an allocation failed. *)
Inductive frames := Frames (inner : list (list nat)) (base : list nat) | Failed.

Definition given (f : frames) : list nat :=
  match f with Frames inner base => concat (reverse (inner ++ [base])) | Failed => [] end.

(** The innermost frame is given [x]. *)
Definition give (x : nat) (inner : list (list nat)) (base : list nat) : frames :=
  match inner with [] => Frames [] (base ++ [x]) | f :: inner => Frames ((f ++ [x]) :: inner) base end.

(** What a call may do: [BN_CTX_get] gives an object nobody has, or fails for good; the end of a frame takes
    back what the frame was given. *)
Inductive spec_step : frames -> call -> option nat -> frames -> Prop :=
| spec_start ok inner base : spec_step (Frames inner base) (Start ok) None (Frames ([] :: inner) base)
| spec_start_fails ok inner base : ok = false \/ 2 ^ 60 < Z.of_nat (length inner) -> spec_step (Frames inner base) (Start ok) None Failed
| spec_get o inner base x : x ∉ given (Frames inner base) -> spec_step (Frames inner base) (Get o) (Some x) (give x inner base)
| spec_get_fails o inner base : sk_new_ok o && bn_new_ok o && push_ok o = false -> spec_step (Frames inner base) (Get o) None Failed
| spec_end f inner base : spec_step (Frames (f :: inner) base) End None (Frames inner base)
| spec_failed c : spec_step Failed c None Failed.

Inductive spec_run : frames -> list call -> list (option nat) -> frames -> Prop :=
| spec_nil f : spec_run f [] [] f
| spec_cons f c r f' cs rs f'' : spec_step f c r f' -> spec_run f' cs rs f'' -> spec_run f (c :: cs) (r :: rs) f''.

(** * Refinement *)

(** The indexes the frames start at. *)
Fixpoint starts (inner : list (list nat)) (base : list nat) : list nat :=
  match inner with [] => [] | _ :: inner => length (given (Frames inner base)) :: starts inner base end.

Record related (ctx : BN_CTX) (h : gmap nat BIGNUM) (inner : list (list nat)) (base : list nat) : Prop := mk_related {
  rel_error : error ctx = false;
  rel_used : (used ctx <= length (default [] (bignums ctx)))%nat;
  rel_given : given (Frames inner base) = take (used ctx) (default [] (bignums ctx));
  rel_distinct : NoDup (default [] (bignums ctx));
  rel_objects : forall x, x ∈ default [] (bignums ctx) -> exists X, h !! x = Some X /\ wf X;
  rel_starts : indexes (stack ctx) = starts inner base;
  rel_size : (size (stack ctx) = 0 \/ 32 <= size (stack ctx)) /\ Z.of_nat (length (indexes (stack ctx))) <= size (stack ctx) }.

Definition refines (ctx : BN_CTX) (h : gmap nat BIGNUM) (f : frames) : Prop :=
  match f with Frames inner base => related ctx h inner base | Failed => error ctx = true end.

Lemma given_push inner base : given (Frames ([] :: inner) base) = given (Frames inner base).
Proof. unfold given. cbn [app]. rewrite reverse_cons, concat_app. cbn. by rewrite !app_nil_r. Qed.

Lemma given_give x inner base : given (give x inner base) = given (Frames inner base) ++ [x].
Proof.
  destruct inner as [| f inner]; unfold give, given; cbn [app].
  - rewrite !reverse_singleton. cbn. by rewrite !app_nil_r.
  - rewrite !reverse_cons, !concat_app. cbn [concat]. by rewrite !app_nil_r, app_assoc.
Qed.

Lemma starts_give x inner base : match give x inner base with Frames inner' base' => starts inner' base' = starts inner base | Failed => False end.
Proof. by destruct inner. Qed.

Lemma length_starts inner base : length (starts inner base) = length inner.
Proof. induction inner as [| f inner IH]; cbn; [done | by rewrite IH]. Qed.

(** The array of frames grows unless it is refused. *)
Lemma push_spec ok st idx :
  (size st = 0 \/ 32 <= size st) -> Z.of_nat (length (indexes st)) <= size st ->
  match BN_STACK_push ok st idx with
  | Some st' => indexes st' = idx :: indexes st /\ (size st' = 0 \/ 32 <= size st') /\ Z.of_nat (length (indexes st')) <= size st'
  | None => ok = false \/ 2 ^ 60 < Z.of_nat (length (indexes st))
  end.
Proof.
  intros Hs Hl. unfold BN_STACK_push. destruct (Z.eqb_spec (Z.of_nat (length (indexes st))) (size st)) as [E | E].
  2: { cbn [indexes size length]. split_and!; [done | lia | lia]. }
  set (n := if negb (size st =? 0) then wrap 64 (size st * 3) / 2 else BN_CTX_START_FRAMES).
  assert (size st <= 2 ^ 60 -> size st < n <= size_max / 8) as Hgrow.
  { intros Hsm. unfold n, wrap, BN_CTX_START_FRAMES. change (size_max / 8) with (2 ^ 61 - 1). destruct (Z.eqb_spec (size st) 0); cbn [negb]; [lia |].
    rewrite Z.mod_small by lia. pose proof (Z.div_mod (size st * 3) 2 ltac:(lia)). pose proof (Z.mod_pos_bound (size st * 3) 2 ltac:(lia)). lia. }
  destruct ((n <=? size st) || (n >? size_max / 8)) eqn:En.
  - right. rewrite orb_true_iff, Z.leb_le, Z.gtb_lt in En. lia.
  - rewrite orb_false_iff, Z.leb_gt in En. destruct ok; cbn [negb]; [| by left]. cbn [indexes size length]. split_and!; [done | | lia].
    right. unfold n, BN_CTX_START_FRAMES in *. destruct (Z.eqb_spec (size st) 0); cbn [negb] in *; lia.
Qed.

Lemma fresh_not_in (h : gmap nat BIGNUM) : h !! fresh (dom h) = None.
Proof. apply not_elem_of_dom, is_fresh. Qed.

Lemma wf_new : wf BN_new.
Proof. constructor; [apply Forall_nil_2 | done | by vm_compute]. Qed.

Lemma wf_zeroed bn : wf bn -> wf (set_neg false (set_width 0 bn)).
Proof. intros [Hd Hw Hm]. constructor; cbn; [done | lia | done]. Qed.

(** The BIGNUM at [used] is taken. *)
Lemma take_next_spec ctx l h inner base :
  related (set_bignums l ctx) h inner base -> (used ctx < length l)%nat ->
  exists x ctx' h', take_next (set_bignums l ctx) l h = Some (Some x, ctx', h') /\ (x ∉ given (Frames inner base)) /\ refines ctx' h' (give x inner base) /\
    exists X, h' !! x = Some X /\ wf X /\ val X = 0.
Proof.
  intros [R1 R2 R3 R4 R5 R6 R7] Hlt. cbn [set_bignums bignums stack used error default from_option id] in *.
  destruct (lookup_lt_is_Some_2 l (used ctx) Hlt) as [x Hx]. destruct (R5 x) as (X & HX & HwX); [by apply list_elem_of_lookup_2 in Hx |].
  unfold take_next. cbn [set_bignums used stack error defer_error]. rewrite Hx. cbn [mbind option_bind]. rewrite HX. cbn [mbind option_bind].
  eexists _, _, _. split; [done |]. split_and!.
  - rewrite R3. intros (i & Hi)%list_elem_of_lookup. apply lookup_take_Some in Hi as [Hi Hlt']. pose proof (NoDup_lookup _ _ _ _ R4 Hi Hx). lia.
  - pose proof (given_give x inner base) as Hg. pose proof (starts_give x inner base) as Hs. destruct (give x inner base) as [inner' base' |]; [| done].
    constructor; cbn [bignums stack used error default from_option id]; [done | lia | | done | | congruence | done].
    + rewrite Hg, R3. by rewrite (take_S_r _ _ _ Hx).
    + intros y Hy. destruct (decide (y = x)) as [-> | Hne]; [rewrite lookup_insert_eq; eexists; split; [done | by apply wf_zeroed] |].
      rewrite lookup_insert_ne by done. by apply R5.
  - eexists. rewrite lookup_insert_eq. split_and!; [done | by apply wf_zeroed | done].
Qed.

(** A new BIGNUM at the end of the pool. *)
Lemma related_new ctx l h inner base :
  related (set_bignums l ctx) h inner base -> used ctx = length l ->
  related (set_bignums (l ++ [fresh (dom h)]) ctx) (<[fresh (dom h) := BN_new]> h) inner base.
Proof.
  intros [R1 R2 R3 R4 R5 R6 R7] Hu. cbn [set_bignums bignums stack used error default from_option id] in *. pose proof (fresh_not_in h) as Hf.
  constructor; cbn [set_bignums bignums stack used error default from_option id]; [done | rewrite length_app; lia | | | | done | done].
  - rewrite R3. by rewrite take_app_le by lia.
  - apply NoDup_app. split_and!; [done | | apply NoDup_singleton]. intros x Hx ->%list_elem_of_singleton. destruct (R5 _ Hx) as (X & HX & _). congruence.
  - intros x [Hx | ->%list_elem_of_singleton]%elem_of_app; [| exists BN_new; rewrite lookup_insert_eq; split; [done | apply wf_new]].
    destruct (R5 x Hx) as (X & HX & HwX). exists X. rewrite lookup_insert_ne; [done |]. intros <-. congruence.
Qed.

Lemma get_spec o ctx h inner base :
  related ctx h inner base ->
  exists r ctx' h' f, BN_CTX_get o ctx h = Some (r, ctx', h') /\ spec_step (Frames inner base) (Get o) r f /\ refines ctx' h' f /\
    (forall x, r = Some x -> exists X, h' !! x = Some X /\ wf X /\ val X = 0).
Proof.
  intros R. unfold BN_CTX_get. rewrite (rel_error _ _ _ _ R).
  assert (forall l c, l = default [] (bignums ctx) -> c = set_bignums l ctx -> related c h inner base) as HR.
  { intros l c -> ->. by destruct R; constructor. }
  destruct (match bignums ctx with Some l => Some l | None => if sk_new_ok o then Some [] else None end) as [l |] eqn:El.
  2: { exists None, (fail ctx), h, Failed. split_and!; [done | | done | done]. apply spec_get_fails. destruct (bignums ctx); [done |]. by destruct (sk_new_ok o). }
  assert (l = default [] (bignums ctx)) as Hl by (destruct (bignums ctx); [by injection El as <- | destruct (sk_new_ok o); [by injection El as <- | done]]).
  specialize (HR l (set_bignums l ctx) Hl eq_refl). cbn [used set_bignums].
  assert (forall l' h', related (set_bignums l' ctx) h' inner base -> (used ctx < length l')%nat ->
    exists r ctx' h'' f, take_next (set_bignums l' ctx) l' h' = Some (r, ctx', h'') /\ spec_step (Frames inner base) (Get o) r f /\ refines ctx' h'' f /\
      (forall x, r = Some x -> exists X, h'' !! x = Some X /\ wf X /\ val X = 0)) as Htake.
  { intros l' h' HR' Hlt. destruct (take_next_spec ctx l' h' inner base HR' Hlt) as (x & ctx' & h'' & E & Hx & Hr & HX).
    exists (Some x), ctx', h'', (give x inner base). split_and!; [done | by apply spec_get | done |]. by intros y [= <-]. }
  destruct (Nat.eqb_spec (used ctx) (length l)) as [Eu | Eu].
  - destruct (bn_new_ok o) eqn:Enew; cbn [negb].
    2: { exists None, (fail (set_bignums l ctx)), h, Failed. split_and!; [done | | done | done]. apply spec_get_fails. by rewrite Enew, andb_false_r. }
    destruct (push_ok o) eqn:Epush; cbn [negb].
    2: { eexists None, _, _, Failed. split_and!; [done | | done | done]. apply spec_get_fails. by rewrite Epush, andb_false_r. }
    pose proof (related_new ctx l h inner base HR Eu) as Hnew. destruct (Htake _ _ Hnew) as (r & ctx' & h'' & f & E & Hrest); [rewrite length_app; cbn; lia |].
    by exists r, ctx', h'', f.
  - apply Htake; [done |]. pose proof (rel_used _ _ _ _ HR) as Hle. cbn [set_bignums used bignums default from_option id] in Hle. lia.
Qed.

Lemma start_spec ok ctx h inner base :
  related ctx h inner base -> exists f, spec_step (Frames inner base) (Start ok) None f /\ refines (BN_CTX_start ok ctx) h f.
Proof.
  intros [R1 R2 R3 R4 R5 R6 [R7 R8]]. unfold BN_CTX_start. rewrite R1. pose proof (push_spec ok (stack ctx) (used ctx) R7 R8) as H.
  destruct (BN_STACK_push ok (stack ctx) (used ctx)) as [st |].
  - destruct H as (H1 & H2 & H3). exists (Frames ([] :: inner) base). split; [apply spec_start |].
    constructor; cbn [bignums stack used error]; [done | done | by rewrite given_push | done | done | | done].
    cbn [starts]. rewrite H1, R6. f_equal. rewrite R3, length_take. lia.
  - exists Failed. split; [apply spec_start_fails | done]. by rewrite R6, length_starts in H.
Qed.

Lemma end_spec ctx h f inner base :
  related ctx h (f :: inner) base -> exists ctx', BN_CTX_end ctx = Some ctx' /\ related ctx' h inner base.
Proof.
  intros [R1 R2 R3 R4 R5 R6 [R7 R8]]. unfold BN_CTX_end, BN_STACK_pop. rewrite R1, R6. cbn [starts mbind option_bind]. eexists. split; [done |].
  set (n := length (given (Frames inner base))).
  assert (given (Frames (f :: inner) base) = given (Frames inner base) ++ f) as Hg.
  { unfold given. cbn [app]. rewrite reverse_cons, concat_app. cbn. by rewrite app_nil_r. }
  rewrite Hg in R3. assert (n <= used ctx)%nat as Hn by (apply (f_equal length) in R3; rewrite length_app, length_take in R3; lia).
  constructor; cbn [bignums stack used error indexes size]; [done | lia | | done | done | done |].
  - apply (f_equal (take n)) in R3. rewrite take_app_length', take_take, Nat.min_l in R3 by done. done.
  - split; [done |]. rewrite R6 in R8. cbn [starts length] in R8. lia.
Qed.

Lemma related_keeps ctx h h' inner base : keeps h h' -> related ctx h inner base -> related ctx h' inner base.
Proof. intros Hk [R1 R2 R3 R4 R5 R6 R7]. constructor; try done. intros x Hx. destruct (R5 x Hx) as (X & HX & HwX). by apply (Hk x X). Qed.

(** Every call does what the specification allows. *)
Lemma step_spec c ctx h f r ctx' h' :
  refines ctx h f -> step c (ctx, h) = Some (r, (ctx', h')) -> exists f', spec_step f c r f' /\ refines ctx' h' f'.
Proof.
  intros Hr E. destruct f as [inner base |]; cbn [refines] in Hr.
  - destruct c as [ok | o |]; cbn [step] in E.
    + injection E as <- <- <-. destruct (start_spec ok ctx h inner base Hr) as (f' & H1 & H2). by exists f'.
    + destruct (get_spec o ctx h inner base Hr) as (r' & ctx1 & h1 & f' & E' & H1 & H2 & _). rewrite E' in E. injection E as <- <- <-. by exists f'.
    + destruct inner as [| f inner].
      * exfalso. destruct Hr as [R1 _ _ _ _ R6 _]. unfold BN_CTX_end, BN_STACK_pop in E. by rewrite R1, R6 in E.
      * destruct (end_spec ctx h f inner base Hr) as (ctx1 & E' & H). rewrite E' in E. injection E as <- <- <-. exists (Frames inner base). split; [apply spec_end | done].
  - exists Failed. destruct c as [ok | o |]; cbn [step] in E.
    + injection E as <- <- <-. split; [apply spec_failed |]. unfold BN_CTX_start. by rewrite Hr.
    + unfold BN_CTX_get in E. rewrite Hr in E. injection E as <- <- <-. split; [apply spec_failed |]. by destruct (defer_error ctx).
    + unfold BN_CTX_end in E. rewrite Hr in E. injection E as <- <- <-. split; [apply spec_failed | done].
Qed.

Lemma exec_refines s cs rs s' f : exec s cs rs s' -> refines s.1 s.2 f -> exists f', spec_run f cs rs f' /\ refines s'.1 s'.2 f'.
Proof.
  intros H. revert f. induction H as [s | [ctx h] c r [ctx' h'] cs rs s'' E H IH | ctx h h' cs rs s Hk H IH]; intros f Hr.
  - exists f. split; [apply spec_nil | done].
  - destruct (step_spec c ctx h f r ctx' h' Hr E) as (f1 & H1 & H2). destruct (IH f1 H2) as (f2 & H3 & H4). exists f2. split; [by eapply spec_cons | done].
  - apply IH. cbn [fst snd] in *. destruct f; [by apply (related_keeps _ h) | done].
Qed.

Lemma related_init h : related BN_CTX_new h [] [].
Proof. constructor; cbn; [done | lia | done | apply NoDup_nil_2 | set_solver | done | lia]. Qed.

(** The object [BN_CTX_get] returns is none of those in use. *)
Lemma get_apart o ctx h inner base x ctx' h' y :
  related ctx h inner base -> BN_CTX_get o ctx h = Some (Some x, ctx', h') ->
  y ∈ given (Frames inner base) \/ (y ∈ dom h /\ (y ∉ default [] (bignums ctx))) -> x <> y.
Proof.
  intros R E Hy ->. destruct Hy as [Hy | [Hd Hy]].
  { destruct (get_spec o ctx h inner base R) as (r & ctx1 & h1 & f & E' & Hs & _). rewrite E' in E. injection E as -> _ _. by inversion Hs. }
  unfold BN_CTX_get in E. rewrite (rel_error _ _ _ _ R) in E.
  destruct (match bignums ctx with Some l => Some l | None => if sk_new_ok o then Some [] else None end) as [l |] eqn:El; [| done].
  assert (l = default [] (bignums ctx)) as Hl by (destruct (bignums ctx); [by injection El as <- | destruct (sk_new_ok o); [by injection El as <- | done]]).
  rewrite <- Hl in Hy. cbn [used set_bignums] in E.
  assert (forall l' g c1 g1, take_next (set_bignums l ctx) l' g = Some (Some y, c1, g1) -> y ∈ l') as Hin.
  { intros l' g c1 g1 Et. unfold take_next in Et. cbn [used set_bignums] in Et. destruct (l' !! used ctx) as [z |] eqn:Ez; [| done]. cbn [mbind option_bind] in Et.
    destruct (g !! z); [| done]. cbn [mbind option_bind] in Et. injection Et as -> _ _. by apply list_elem_of_lookup_2 in Ez. }
  destruct (used ctx =? length l)%nat; [| by apply Hin in E].
  destruct (bn_new_ok o); cbn [negb] in E; [| done]. destruct (push_ok o); cbn [negb] in E; [| done].
  apply Hin in E as [Hin' | ->%list_elem_of_singleton]%elem_of_app; [done |]. by apply is_fresh in Hd.
Qed.

(** C26: A BN_CTX is a stack of frames.  For every sequence of calls from a new one, with the caller's work on the
    BIGNUMs in between and whatever allocations fail, there is a run of the specification with the same
    results: an object is given to one frame only, until the end of that frame, and a failure is for good.
    The next call is then defined unless it ends a frame that was not started, and an object it gives is
    zero, well formed, and none of those in use or of the caller's own. *)
Theorem bn_ctx_refines_frames h0 cs rs ctx h :
  exec (BN_CTX_new, h0) cs rs (ctx, h) ->
  exists f, spec_run (Frames [] []) cs rs f /\ NoDup (given f) /\
    (forall c, match f, c with Frames [] _, End => step c (ctx, h) = None | _, _ => is_Some (step c (ctx, h)) end) /\
    (forall o x ctx' h', step (Get o) (ctx, h) = Some (Some x, (ctx', h')) ->
       (exists X, h' !! x = Some X /\ wf X /\ val X = 0) /\
       forall y, y ∈ given f \/ (y ∈ dom h /\ (y ∉ default [] (bignums ctx))) -> x <> y).
Proof.
  intros Hex. destruct (exec_refines _ _ _ _ (Frames [] []) Hex (related_init h0)) as (f & Hrun & Hr). exists f. split; [done |]. cbn [fst snd] in Hr.
  destruct f as [inner base |]; cbn [refines] in Hr.
  - split_and!.
    + rewrite (rel_given _ _ _ _ Hr). apply (sublist_NoDup _ (default [] (bignums ctx))); [by destruct Hr | apply sublist_take].
    + intros [ok | o |]; [destruct inner; by eexists | |].
      * destruct (get_spec o ctx h inner base Hr) as (r & ctx' & h' & f & E & _). cbn [step]. rewrite E. destruct inner; by eexists.
      * destruct inner as [| f inner]; cbn [step].
        -- destruct Hr as [R1 _ _ _ _ R6 _]. unfold BN_CTX_end, BN_STACK_pop. by rewrite R1, R6.
        -- destruct (end_spec ctx h f inner base Hr) as (ctx' & E & _). rewrite E. by eexists.
    + intros o x ctx' h' E. destruct (get_spec o ctx h inner base Hr) as (r & ctx1 & h1 & f & E' & _ & _ & HX). cbn [step] in E. rewrite E' in E. injection E as -> <- <-.
      split; [by apply HX |]. intros y Hy. by apply (get_apart o ctx h inner base x ctx1 h1 y).
  - split_and!; [apply NoDup_nil_2 | |].
    + intros [ok | o |]; cbn [step]; [by eexists | |]; unfold BN_CTX_get, BN_CTX_end; rewrite Hr; by eexists.
    + intros o x ctx' h' E. cbn [step] in E. unfold BN_CTX_get in E. rewrite Hr in E. done.
Qed.

Lemma bn_ctx_refines_frames_witness :
  let all_ok := mk_outcomes true true true in
  exists x y s, exec (BN_CTX_new, ∅) [Start true; Get all_ok; Start true; Get all_ok; End; Get all_ok] [None; Some x; None; Some y; None; Some y] s /\
    exists f, spec_run (Frames [] []) [Start true; Get all_ok; Start true; Get all_ok; End; Get all_ok] [None; Some x; None; Some y; None; Some y] f /\ NoDup (given f).
Proof.
  intros all_ok. assert (exists x y ctx h, exec (BN_CTX_new, ∅) [Start true; Get all_ok; Start true; Get all_ok; End; Get all_ok] [None; Some x; None; Some y; None; Some y] (ctx, h)) as (x & y & ctx & h & H).
  { eexists _, _, _, _. do 6 (eapply exec_call; [vm_compute; reflexivity |]). apply exec_nil. }
  exists x, y, (ctx, h). split; [exact H |]. destruct (bn_ctx_refines_frames ∅ _ _ _ _ H) as (f & H1 & H2 & _). by exists f.
Defined.

(** After a failure every [BN_CTX_get] returns NULL, in the frames that follow too: [BN_CTX_end] does not
    make the BN_CTX usable again. *)
Theorem bn_ctx_failure_sticks ctx h cs rs s :
  error ctx = true -> exec (ctx, h) cs rs s -> Forall (fun r => r = None) rs /\ error s.1 = true.
Proof.
  intros He Hex. destruct (exec_refines _ _ _ _ Failed Hex He) as (f & Hrun & Hr).
  assert (f = Failed /\ Forall (fun r => r = None) rs) as [-> H]; [| by split]. clear - Hrun. remember Failed as g eqn:Eg. revert Eg.
  induction Hrun as [g | g c r g' cs rs g'' Hs Hrun IH]; intros ->; [by split |]. inversion Hs; subst. destruct (IH eq_refl) as [-> H]. split; [done | by constructor].
Qed.

End BnCtx.
