(* ===== verification/Modes.v ===== *)
(** Block cipher modes (crypto/fipsmodule/modes/cbc.c, ctr.c, ofb.c and cfb.c) over any block
    cipher: [block] is the function pointer of the C code together with its key.

    CBC works in a memory with the addresses of the input and of the output, because the
    code allows them to overlap and depends on how.  The stream modes read their input
    before they write the same bytes, and are functions from input to output. *)

From S2P Require Import Prelude Internal.

Open Scope Z_scope.

Module Modes.
Import Internal.

(** * Memory *)

Definition ld (m : bytes) (p n : nat) : bytes := take n (drop p m).
Definition store (m : bytes) (p : nat) (x : bytes) : bytes := take p m ++ x ++ drop (p + length x) m.
Definition byte_at (bs : bytes) (n : nat) : Z := nth n bs 0.

(** The pointer [iv]: at the caller's [ivec], or at an address in memory. *)
Inductive ptr := Ivec | Mem (p : nat).

Definition rd (m ivec : bytes) (p : ptr) (off n : nat) : bytes :=
  match p with
  | Ivec => ld ivec off n
  | Mem p => ld m (p + off) n
  end.

(** The offsets of the loop over words, [for (; n < 16; n += sizeof(crypto_word_t))]. *)
Definition word_offsets (n : nat) : list nat := map (fun k => (n + 8 * k)%nat) (seq 0 ((16 - n + 7) / 8)).

Definition xor_word (a b : bytes) : bytes :=
  CRYPTO_store_word_le (Z.lxor (CRYPTO_load_word_le a) (CRYPTO_load_word_le b)).

Definition CRYPTO_xor16 (m ivec : bytes) (out : nat) (a b : ptr) : bytes :=
  foldl (fun m i => store m (out + i) (xor_word (rd m ivec a i 8) (rd m ivec b i 8))) m (word_offsets 0).

(** The same between two blocks that are not in memory. *)
Definition xor16 (a b : bytes) : bytes := CRYPTO_xor16 a b 0 (Mem 0) Ivec.

Section Modes.
Context (block : bytes -> bytes).

(** * CBC *)

Fixpoint cbc_encrypt_loop (fuel : nat) (m ivec : bytes) (inp out len : nat) (iv : ptr) : bytes * nat * nat * nat * ptr :=
  match fuel with
  | O => (m, inp, out, len, iv)
  | S fuel =>
      if (16 <=? len)%nat then
        let m := CRYPTO_xor16 m ivec out (Mem inp) iv in
        let m := store m out (block (ld m out 16)) in
        cbc_encrypt_loop fuel m ivec (inp + 16) (out + 16) (len - 16) (Mem out)
      else (m, inp, out, len, iv)
  end.

(** The memory and [ivec] on return. *)
Definition CRYPTO_cbc128_encrypt (m : bytes) (inp out len : nat) (ivec : bytes) : bytes * bytes :=
  if (len =? 0)%nat then (m, ivec)
  else
    let '(m, inp, out, len, iv) := cbc_encrypt_loop len m ivec inp out len Ivec in
    let '(m, iv) :=
      if (0 <? len)%nat then
        let n := Nat.min 16 len in
        let m := foldl (fun m n => store m (out + n) [Z.lxor (byte_at m (inp + n)) (byte_at (rd m ivec iv n 1) 0)]) m (seq 0 n) in
        let m := foldl (fun m n => store m (out + n) [byte_at (rd m ivec iv n 1) 0]) m (seq n (16 - n)) in
        (store m out (block (ld m out 16)), Mem out)
      else (m, iv) in
    (m, rd m ivec iv 0 16).

(** The loop without a temporary block. *)
Fixpoint cbc_decrypt_direct (fuel : nat) (m ivec : bytes) (inp out len : nat) (iv : ptr) : bytes * nat * nat * nat * ptr :=
  match fuel with
  | O => (m, inp, out, len, iv)
  | S fuel =>
      if (16 <=? len)%nat then
        let m := store m out (block (ld m inp 16)) in
        let m := CRYPTO_xor16 m ivec out (Mem out) iv in
        cbc_decrypt_direct fuel m ivec (inp + 16) (out + 16) (len - 16) (Mem inp)
      else (m, inp, out, len, iv)
  end.

(** The loop through a temporary block. *)
Fixpoint cbc_decrypt_tmp (fuel : nat) (m ivec : bytes) (inp out len : nat) : bytes * bytes * nat * nat * nat :=
  match fuel with
  | O => (m, ivec, inp, out, len)
  | S fuel =>
      if (16 <=? len)%nat then
        let tmp := block (ld m inp 16) in
        let '(m, ivec) :=
          foldl (fun '(m, ivec) n =>
            let c := CRYPTO_load_word_le (ld m (inp + n) 8) in
            let m := store m (out + n) (xor_word (ld tmp n 8) (ld ivec n 8)) in
            (m, store ivec n (CRYPTO_store_word_le c))) (m, ivec) (word_offsets 0) in
        cbc_decrypt_tmp fuel m ivec (inp + 16) (out + 16) (len - 16)
      else (m, ivec, inp, out, len)
  end.

(** The last loop, over bytes. *)
Fixpoint cbc_decrypt_tail (fuel : nat) (m ivec : bytes) (inp out len : nat) : bytes * bytes :=
  match fuel with
  | O => (m, ivec)
  | S fuel =>
      if (len =? 0)%nat then (m, ivec)
      else
        let tmp := block (ld m inp 16) in
        let n := Nat.min 16 len in
        let '(m, ivec) :=
          foldl (fun '(m, ivec) n =>
            let c := byte_at m (inp + n) in
            let m := store m (out + n) [Z.lxor (byte_at tmp n) (byte_at ivec n)] in
            (m, store ivec n [c])) (m, ivec) (seq 0 n) in
        if (len <=? 16)%nat then
          (m, foldl (fun ivec n => store ivec n [byte_at m (inp + n)]) ivec (seq n (16 - n)))
        else cbc_decrypt_tail fuel m ivec (inp + 16) (out + 16) (len - 16)
  end.

(** [None] is the failed assertion on the overlap. *)
Definition CRYPTO_cbc128_decrypt (m : bytes) (inp out len : nat) (ivec : bytes) : option (bytes * bytes) :=
  if (len =? 0)%nat then Some (m, ivec)
  else if negb ((out <=? inp) || (inp + len <=? out))%nat then None
  else
    let '(m, ivec, inp, out, len) :=
      if (((32 <=? inp) && (out <=? inp - 32)) || (inp <? out))%nat then
        let '(m, inp, out, len, iv) := cbc_decrypt_direct len m ivec inp out len Ivec in
        (m, rd m ivec iv 0 16, inp, out, len)
      else cbc_decrypt_tmp len m ivec inp out len in
    Some (cbc_decrypt_tail (S len) m ivec inp out len).

(** * CTR *)

(** The carry loop over the bytes of a counter, from the last one. *)
Definition inc_loop (counter : bytes) : bytes * Z :=
  foldr (fun b '(acc, c) => let c := c + b in (u8 c :: acc, Z.shiftr c 8)) ([], 1) counter.

Definition ctr128_inc (counter : bytes) : bytes := fst (inc_loop counter).
Definition ctr96_inc (counter : bytes) : bytes := fst (inc_loop (take 12 counter)) ++ drop 12 counter.

(** The first loop of the stream modes, [while (n && len)]: the output, the remaining input
    and [n]. *)
Fixpoint xor_partial (buf : bytes) (n : nat) (inp : bytes) : bytes * bytes * nat :=
  match inp with
  | [] => ([], [], n)
  | b :: inp' =>
      if (n =? 0)%nat then ([], inp, n)
      else let '(out, rest, n') := xor_partial buf ((n + 1) mod 16) inp' in
           (Z.lxor b (byte_at buf n) :: out, rest, n')
  end.

(** The last loop of the stream modes, [while (len--)]. *)
Definition xor_tail (buf : bytes) (n : nat) (inp : bytes) : bytes :=
  map (fun i => Z.lxor (byte_at inp i) (byte_at buf i)) (seq n (length inp)).

Record ctr_state := mk_ctr { ctr_ivec : bytes; ecount_buf : bytes; ctr_num : nat }.

Fixpoint ctr_blocks (fuel : nat) (s : ctr_state) (inp : bytes) : bytes * bytes * ctr_state :=
  match fuel with
  | O => ([], inp, s)
  | S fuel =>
      if (16 <=? length inp)%nat then
        let ecount := block (ctr_ivec s) in
        let s := mk_ctr (ctr128_inc (ctr_ivec s)) ecount 0 in
        let o := xor16 (take 16 inp) ecount in
        let '(out, rest, s) := ctr_blocks fuel s (drop 16 inp) in
        (o ++ out, rest, s)
      else ([], inp, s)
  end.

Definition CRYPTO_ctr128_encrypt (s : ctr_state) (inp : bytes) : bytes * ctr_state :=
  let '(out1, inp, n) := xor_partial (ecount_buf s) (ctr_num s) inp in
  let '(out2, inp, s) := ctr_blocks (length inp) (mk_ctr (ctr_ivec s) (ecount_buf s) n) inp in
  if (length inp =? 0)%nat then (out1 ++ out2, s)
  else
    let ecount := block (ctr_ivec s) in
    (out1 ++ out2 ++ xor_tail ecount (ctr_num s) inp,
     mk_ctr (ctr128_inc (ctr_ivec s)) ecount (ctr_num s + length inp)).

(** [func inp blocks ivec] is the function of type [ctr128_f]: it encrypts [blocks] blocks. *)
Context (func : bytes -> Z -> bytes -> bytes).

Definition set_ctr32 (ivec : bytes) (ctr32 : Z) : bytes :=
  let ivec := store ivec 12 (CRYPTO_store_u32_be ctr32) in
  if ctr32 =? 0 then ctr96_inc ivec else ivec.

Fixpoint ctr32_blocks (fuel : nat) (ivec : bytes) (ctr32 : Z) (inp : bytes) : bytes * bytes * bytes * Z :=
  match fuel with
  | O => ([], inp, ivec, ctr32)
  | S fuel =>
      if (16 <=? length inp)%nat then
        let blocks := len inp / 16 in
        let blocks := if blocks >? 2 ^ 28 then 2 ^ 28 else blocks in
        let ctr32 := u32 (ctr32 + u32 blocks) in
        let '(blocks, ctr32) := if ctr32 <? blocks then (blocks - ctr32, 0) else (blocks, ctr32) in
        let o := func inp blocks ivec in
        let ivec := set_ctr32 ivec ctr32 in
        let n := Z.to_nat (blocks * 16) in
        let '(out, rest, ivec, ctr32) := ctr32_blocks fuel ivec ctr32 (drop n inp) in
        (o ++ out, rest, ivec, ctr32)
      else ([], inp, ivec, ctr32)
  end.

Definition CRYPTO_ctr128_encrypt_ctr32 (s : ctr_state) (inp : bytes) : bytes * ctr_state :=
  let '(out1, inp, n) := xor_partial (ecount_buf s) (ctr_num s) inp in
  let ctr32 := CRYPTO_load_u32_be (ld (ctr_ivec s) 12 4) in
  let '(out2, inp, ivec, ctr32) := ctr32_blocks (length inp) (ctr_ivec s) ctr32 inp in
  if (length inp =? 0)%nat then (out1 ++ out2, mk_ctr ivec (ecount_buf s) n)
  else
    let ecount := func (replicate 16 0) 1 ivec in
    let ctr32 := u32 (ctr32 + 1) in
    (out1 ++ out2 ++ xor_tail ecount n inp, mk_ctr (set_ctr32 ivec ctr32) ecount (n + length inp)).

(** * OFB *)

Record ofb_state := mk_ofb { ofb_ivec : bytes; ofb_num : nat }.

Fixpoint ofb_blocks (fuel : nat) (s : ofb_state) (inp : bytes) : bytes * bytes * ofb_state :=
  match fuel with
  | O => ([], inp, s)
  | S fuel =>
      if (16 <=? length inp)%nat then
        let ivec := block (ofb_ivec s) in
        let o := xor16 (take 16 inp) ivec in
        let '(out, rest, s) := ofb_blocks fuel (mk_ofb ivec 0) (drop 16 inp) in
        (o ++ out, rest, s)
      else ([], inp, s)
  end.

Definition CRYPTO_ofb128_encrypt (s : ofb_state) (inp : bytes) : bytes * ofb_state :=
  let '(out1, inp, n) := xor_partial (ofb_ivec s) (ofb_num s) inp in
  let '(out2, inp, s) := ofb_blocks (length inp) (mk_ofb (ofb_ivec s) n) inp in
  if (length inp =? 0)%nat then (out1 ++ out2, s)
  else
    let ivec := block (ofb_ivec s) in
    (out1 ++ out2 ++ xor_tail ivec (ofb_num s) inp, mk_ofb ivec (ofb_num s + length inp)).

(** * CFB *)

Record cfb_state := mk_cfb { cfb_ivec : bytes; cfb_num : nat }.

(** One byte of CFB: [ivec[n] ^= in], or the exchange when decrypting. *)
Definition cfb_byte (enc : bool) (ivec : bytes) (n : nat) (c : Z) : Z * bytes :=
  let o := Z.lxor (byte_at ivec n) c in
  (o, store ivec n [if enc then o else c]).

Fixpoint cfb_partial (enc : bool) (ivec : bytes) (n : nat) (inp : bytes) : bytes * bytes * cfb_state :=
  match inp with
  | [] => ([], [], mk_cfb ivec n)
  | c :: inp' =>
      if (n =? 0)%nat then ([], inp, mk_cfb ivec n)
      else
        let '(o, ivec) := cfb_byte enc ivec n c in
        let '(out, rest, s) := cfb_partial enc ivec ((n + 1) mod 16) inp' in
        (o :: out, rest, s)
  end.

(** A whole block, by words: the output and the new [ivec]. *)
Definition cfb_words (enc : bool) (ivec : bytes) (n : nat) (inp : bytes) : bytes * bytes :=
  foldl (fun '(out, ivec) n =>
    let t := CRYPTO_load_word_le (ld inp n 8) in
    let x := Z.lxor (CRYPTO_load_word_le (ld ivec n 8)) t in
    (out ++ CRYPTO_store_word_le x, store ivec n (CRYPTO_store_word_le (if enc then x else t)))) ([], ivec) (word_offsets n).

Fixpoint cfb_blocks (fuel : nat) (enc : bool) (s : cfb_state) (inp : bytes) : bytes * bytes * cfb_state :=
  match fuel with
  | O => ([], inp, s)
  | S fuel =>
      if (16 <=? length inp)%nat then
        let '(o, ivec) := cfb_words enc (block (cfb_ivec s)) (cfb_num s) inp in
        let '(out, rest, s) := cfb_blocks fuel enc (mk_cfb ivec 0) (drop 16 inp) in
        (o ++ out, rest, s)
      else ([], inp, s)
  end.

Definition cfb_tail (enc : bool) (ivec : bytes) (n : nat) (inp : bytes) : bytes * bytes :=
  foldl (fun '(out, ivec) n => let '(o, ivec) := cfb_byte enc ivec n (byte_at inp n) in (out ++ [o], ivec))
    ([], ivec) (seq n (length inp)).

Definition CRYPTO_cfb128_encrypt (enc : bool) (s : cfb_state) (inp : bytes) : bytes * cfb_state :=
  let '(out1, inp, s) := cfb_partial enc (cfb_ivec s) (cfb_num s) inp in
  let '(out2, inp, s) := cfb_blocks (length inp) enc s inp in
  if (length inp =? 0)%nat then (out1 ++ out2, s)
  else
    let '(out3, ivec) := cfb_tail enc (block (cfb_ivec s)) (cfb_num s) inp in
    (out1 ++ out2 ++ out3, mk_cfb ivec (cfb_num s + length inp)).

(** CFB with a feedback of [nbits] bits: the output, whole bytes of it, and [ivec].  The
    last byte of [ovec] is read and shifted out. *)
Definition cfbr_encrypt_block (enc : bool) (inp : bytes) (nbits : Z) (ivec : bytes) (ovec_end : Z) : bytes * bytes :=
  if (nbits <=? 0) || (nbits >? 128) then ([], ivec)
  else
    let ovec := ivec in
    let ivec := block ivec in
    let num := Z.to_nat ((nbits + 7) / 8) in
    let x := map (fun n => Z.lxor (byte_at inp n) (byte_at ivec n)) (seq 0 num) in
    let c := if enc then x else take num inp in
    let ovec := ovec ++ c ++ replicate (17 - num) ovec_end in
    let rem := nbits mod 8 in
    let num := Z.to_nat (nbits / 8) in
    (x, if rem =? 0 then ld ovec num 16
        else map (fun n => u8 (Z.lor (Z.shiftl (byte_at ovec (n + num)) rem) (Z.shiftr (byte_at ovec (n + num + 1)) (8 - rem)))) (seq 0 16)).

Definition CRYPTO_cfb128_8_encrypt (enc : bool) (ivec : bytes) (ovec_end : Z) (inp : bytes) : bytes * bytes :=
  foldl (fun '(out, ivec) b =>
    let '(o, ivec) := cfbr_encrypt_block enc [b] 8 ivec ovec_end in (out ++ o, ivec)) ([], ivec) inp.

(** [out] is the output buffer before the call. *)
Definition CRYPTO_cfb128_1_encrypt (enc : bool) (ivec : bytes) (ovec_end : Z) (out inp : bytes) (bits : nat) : bytes * bytes :=
  foldl (fun '(out, ivec) n =>
    let i := (n / 8)%nat in
    let k := Z.of_nat (n mod 8) in
    let c := if negb (Z.land (byte_at inp i) (Z.shiftl 1 (7 - k)) =? 0) then 0x80 else 0 in
    let '(d, ivec) := cfbr_encrypt_block enc [c] 1 ivec ovec_end in
    (store out i [u8 (Z.lor (Z.land (byte_at out i) (Z.lnot (Z.shiftl 1 (7 - k)))) (Z.shiftr (Z.land (byte_at d 0) 0x80) k))], ivec))
    (out, ivec) (seq 0 bits).
End Modes.

(** * Lemmas on memory *)

Lemma length_store m p x : (p + length x <= length m)%nat -> length (store m p x) = length m.
Proof. intros. unfold store. rewrite !length_app, length_take, length_drop. lia. Qed.

Lemma length_ld m p n : (p + n <= length m)%nat -> length (ld m p n) = n.
Proof. intros. unfold ld. rewrite length_take, length_drop. lia. Qed.

Lemma ld_bytes_ok m p n : bytes_ok m -> bytes_ok (ld m p n).
Proof. intros. unfold ld. auto with bytes_db. Qed.

Lemma store_bytes_ok m p x : bytes_ok m -> bytes_ok x -> bytes_ok (store m p x).
Proof. intros. unfold store. rewrite !bytes_ok_app. auto with bytes_db. Qed.

Lemma ld_split m p n k : (k <= n)%nat -> ld m p n = ld m p k ++ ld m (p + k) (n - k).
Proof.
  intros Hk. unfold ld. rewrite <- (take_drop k (take n (drop p m))). rewrite take_take, Nat.min_l by lia. f_equal.
  by rewrite skipn_firstn_comm, drop_drop.
Qed.

Lemma ld_halves m : ld m 0 16 = ld m 0 8 ++ ld m 8 8.
Proof. apply (ld_split m 0 16 8). lia. Qed.

Lemma ld_ld m p n q k : (q + k <= n)%nat -> ld (ld m p n) q k = ld m (p + q) k.
Proof. intros. unfold ld. rewrite skipn_firstn_comm, drop_drop, take_take. f_equal. lia. Qed.

Lemma ld_store_before m p x q n : (q + n <= p)%nat -> (p <= length m)%nat -> ld (store m p x) q n = ld m q n.
Proof.
  intros Hq Hp. unfold ld, store. rewrite drop_app_le by (rewrite length_take; lia). rewrite take_app_le by (rewrite length_drop, length_take; lia).
  by rewrite skipn_firstn_comm, take_take, Nat.min_l by lia.
Qed.

Lemma ld_store_after m p x q n : (p + length x <= q)%nat -> (p + length x <= length m)%nat -> ld (store m p x) q n = ld m q n.
Proof.
  intros Hq Hp. unfold ld, store. rewrite drop_app_ge by (rewrite length_take; lia). rewrite length_take, Nat.min_l by lia.
  rewrite drop_app_ge by lia. rewrite drop_drop. do 2 f_equal. lia.
Qed.

Lemma ld_store_same m p x n : length x = n -> (p + n <= length m)%nat -> ld (store m p x) p n = x.
Proof.
  intros <- Hp. unfold ld, store. rewrite drop_app_length' by (rewrite length_take; lia). by rewrite take_app_length.
Qed.

Lemma ld_all m n : length m = n -> ld m 0 n = m.
Proof. intros <-. apply firstn_all. Qed.

Lemma take_ld m n : take n m = ld m 0 n.
Proof. done. Qed.

Lemma store_all m x : length x = length m -> store m 0 x = x.
Proof. intros H. unfold store. change (take 0 m) with (@nil Z). rewrite drop_ge by lia. apply app_nil_r. Qed.

(** Outside of [p, p + k). *)
Definition apart (p k q n : nat) : Prop := (q + n <= p \/ p + k <= q)%nat.

Lemma ld_store_apart m p x q n :
  apart p (length x) q n -> (p + length x <= length m)%nat -> ld (store m p x) q n = ld m q n.
Proof. intros [H | H] Hm; [apply ld_store_before; lia | by apply ld_store_after]. Qed.

Lemma store_app m p x y :
  (p + length x + length y <= length m)%nat -> store (store m p x) (p + length x) y = store m p (x ++ y).
Proof.
  intros. unfold store. rewrite take_app_ge by (rewrite length_take; lia). rewrite length_take, Nat.min_l by lia.
  replace (p + length x - p)%nat with (length x) by lia. rewrite take_app_length. rewrite drop_app_ge by (rewrite length_take; lia).
  rewrite length_take, Nat.min_l by lia. rewrite drop_app_ge by lia. rewrite drop_drop, length_app, <- !app_assoc. do 3 f_equal. f_equal. lia.
Qed.

Lemma store_app_n m p x y n :
  length x = n -> (p + n + length y <= length m)%nat -> store (store m p x) (p + n) y = store m p (x ++ y).
Proof. intros <-. apply store_app. Qed.

Lemma store_nil m p : store m p [] = m.
Proof. unfold store. cbn [app length]. by rewrite Nat.add_0_r, take_drop. Qed.

Lemma store_twice m p x y : length x = length y -> (p + length x <= length m)%nat -> store (store m p x) p y = store m p y.
Proof.
  intros Hl Hp. unfold store. rewrite take_app_le, take_take, Nat.min_id by (rewrite length_take; lia).
  rewrite drop_app_ge by (rewrite length_take; lia). rewrite length_take, Nat.min_l by lia. rewrite drop_app_ge by lia. rewrite drop_drop.
  do 3 f_equal. lia.
Qed.

Lemma byte_at_ld1 m p : (p < length m)%nat -> [byte_at m p] = ld m p 1.
Proof.
  intros Hp. unfold byte_at, ld. rewrite <- (take_drop p m) at 1. rewrite app_nth2; rewrite length_take; [| lia].
  rewrite Nat.min_l, Nat.sub_diag by lia. destruct (drop p m) as [| b l] eqn:E; [| done].
  apply (f_equal length) in E. rewrite length_drop in E. cbn in E. lia.
Qed.

(** Stores of consecutive pieces, each a function of what the memory was. *)
Lemma fold_store {A} (f : bytes -> A -> bytes) (g : A -> bytes) (off : A -> nat) (l : list A) m p :
  (forall pre a post, l = pre ++ a :: post -> off a = (p + length (concat (map g pre)))%nat /\
     f (store m p (concat (map g pre))) a = g a) ->
  (p + length (concat (map g l)) <= length m)%nat ->
  foldl (fun m a => store m (off a) (f m a)) m l = store m p (concat (map g l)).
Proof.
  revert m p. induction l as [| a l IH] using rev_ind; intros m p Hf Hl; [by rewrite store_nil |].
  rewrite foldl_app. cbn [foldl]. rewrite map_app, concat_app in Hl |- *. cbn [map concat] in Hl |- *. rewrite app_nil_r in Hl |- *. rewrite length_app in Hl.
  rewrite (IH m p) by (try lia; intros pre a' post E; apply (Hf pre a' (post ++ [a])); by rewrite E, <- app_assoc).
  destruct (Hf l a [] eq_refl) as [-> ->]. rewrite store_app by lia. done.
Qed.

Lemma byte_at_ld m p n i : (i < n)%nat -> byte_at (ld m p n) i = byte_at m (p + i).
Proof.
  intros Hi. unfold byte_at, ld. rewrite nth_firstn. rewrite (proj2 (Nat.ltb_lt i n) Hi). by rewrite nth_skipn.
Qed.

Lemma byte_at_store_apart m p x q : apart p (length x) q 1 -> (p + length x <= length m)%nat -> byte_at (store m p x) q = byte_at m q.
Proof.
  intros Ha Hm. replace q with (q + 0)%nat by lia. rewrite <- !(byte_at_ld _ q 1 0) by lia. by rewrite ld_store_apart.
Qed.

Lemma map_byte_at (bs : bytes) s k : (s + k <= length bs)%nat -> map (byte_at bs) (seq s k) = ld bs s k.
Proof.
  revert s. induction k as [| k IH]; intros s Hk; [done |]. cbn [seq map]. rewrite IH by lia.
  rewrite (ld_split bs s (S k) 1) by lia. rewrite <- byte_at_ld1 by lia. replace (s + 1)%nat with (S s) by lia. by replace (S k - 1)%nat with k by lia.
Qed.

(** Stores of single bytes. *)
Lemma fold_store_bytes (f : bytes -> nat -> Z) (g : nat -> Z) s k m p :
  (forall i, (i < k)%nat -> f (store m (p + s) (map g (seq s i))) (s + i)%nat = g (s + i)%nat) -> (p + s + k <= length m)%nat ->
  foldl (fun m n => store m (p + n) [f m n]) m (seq s k) = store m (p + s) (map g (seq s k)).
Proof.
  intros Hf Hk. induction k as [| k IH]; [by rewrite store_nil |]. rewrite seq_S, foldl_app, map_app. cbn [foldl map].
  rewrite IH by (try lia; intros i Hi; apply Hf; lia). rewrite Hf by lia.
  assert (length (map g (seq s k)) = k) as Hl by (by rewrite length_map, length_seq).
  rewrite <- store_app by (rewrite Hl; cbn; lia). rewrite Hl. f_equal. lia.
Qed.

(** * Exclusive or *)

Definition xor_bytes (a b : bytes) : bytes := zip_with Z.lxor a b.

Lemma lxor_fields n a b c d : 0 <= n -> fits n b -> fits n d ->
  Z.lxor (a * 2 ^ n + b) (c * 2 ^ n + d) = Z.lxor a c * 2 ^ n + Z.lxor b d.
Proof.
  intros Hn Hb Hd. pose proof (fits_lxor n Hn b d Hb Hd) as Hx. rewrite <- !lor_shiftl_add by done.
  apply Z.bits_inj'. intros i Hi. rewrite Z.lxor_spec, !Z.lor_spec, Z.lxor_spec, !Z.shiftl_spec, Z.lxor_spec by done.
  destruct (Z.ltb_spec i n) as [Hlt | Hge].
  - by rewrite !(Z.testbit_neg_r _ (i - n)) by lia.
  - rewrite (fits_testbit n Hn b), (fits_testbit n Hn d) by (auto; lia). by rewrite !orb_false_r.
Qed.

Lemma xor_bytes_ok a b : bytes_ok a -> bytes_ok b -> bytes_ok (xor_bytes a b).
Proof.
  intros Ha. revert b. induction a as [| x a IH]; intros b Hb; [done |]. destruct b as [| y b]; [done |].
  apply bytes_ok_cons in Ha as [Hx Ha], Hb as [Hy Hb]. cbn. apply bytes_ok_cons. split; [| by apply IH].
  change byte_ok with (fits 8) in *. by apply (fits_lxor 8).
Qed.

Lemma length_xor a b : length a = length b -> length (xor_bytes a b) = length a.
Proof. intros. unfold xor_bytes. rewrite length_zip_with. lia. Qed.

Lemma xor_app a a' b b' : length a = length b -> xor_bytes (a ++ a') (b ++ b') = xor_bytes a b ++ xor_bytes a' b'.
Proof. intros. unfold xor_bytes. by rewrite zip_with_app. Qed.

Lemma xor_comm a b : xor_bytes a b = xor_bytes b a.
Proof. revert b. induction a as [| x a IH]; intros [| y b]; try done. cbn. by rewrite Z.lxor_comm, IH. Qed.

Lemma xor_cancel a b : length a = length b -> xor_bytes (xor_bytes a b) b = a.
Proof.
  revert b. induction a as [| x a IH]; intros [| y b] Hl; try done. cbn. f_equal; [| apply IH; by injection Hl].
  by rewrite Z.lxor_assoc, Z.lxor_nilpotent, Z.lxor_0_r.
Qed.

Lemma xor_reverse a b : length a = length b -> reverse (xor_bytes a b) = xor_bytes (reverse a) (reverse b).
Proof.
  revert b. induction a as [| x a IH]; intros [| y b] Hl; try done. cbn [xor_bytes zip_with]. rewrite !reverse_cons. injection Hl as Hl.
  fold (xor_bytes a b). rewrite IH by done. by rewrite xor_app by (by rewrite !length_reverse).
Qed.

Lemma be_value_xor a b : length a = length b -> bytes_ok a -> bytes_ok b -> be_value (xor_bytes a b) = Z.lxor (be_value a) (be_value b).
Proof.
  revert b. induction a as [| x a IH] using rev_ind; intros b Hl Ha Hb; [by destruct b |]. destruct b as [| y b _] using rev_ind; [rewrite length_app in Hl; cbn in Hl; lia |].
  rewrite !length_app in Hl. cbn in Hl. rewrite xor_app by lia. cbn [xor_bytes zip_with]. rewrite !be_value_snoc.
  apply bytes_ok_app in Ha as [Ha [Hx _]%bytes_ok_cons], Hb as [Hb [Hy _]%bytes_ok_cons].
  change 256 with (2 ^ 8). rewrite lxor_fields by (done || lia). f_equal. f_equal. apply IH; [lia | done | done].
Qed.

Lemma xor_word_eq a b : length a = 8%nat -> length b = 8%nat -> bytes_ok a -> bytes_ok b -> xor_word a b = xor_bytes a b.
Proof.
  intros Hla Hlb Ha Hb. unfold xor_word, CRYPTO_store_word_le, CRYPTO_load_word_le.
  rewrite <- be_value_xor by (rewrite ?length_reverse; auto with bytes_db; lia). rewrite <- xor_reverse by lia.
  assert (length (reverse (xor_bytes a b)) = 8%nat) as Hl by (rewrite length_reverse, length_xor; lia).
  rewrite <- Hl, be_bytes_value, reverse_involutive; [done |]. apply bytes_ok_reverse. by apply xor_bytes_ok.
Qed.

Lemma store_load_word a : length a = 8%nat -> bytes_ok a -> CRYPTO_store_word_le (CRYPTO_load_word_le a) = a.
Proof.
  intros Hl Ha. unfold CRYPTO_store_word_le, CRYPTO_load_word_le. rewrite <- (length_reverse a) in Hl. rewrite <- Hl, be_bytes_value by auto with bytes_db.
  by rewrite reverse_involutive.
Qed.

(** ** Whole blocks in memory *)

Definition ptr_ok (m ivec : bytes) (p : ptr) (n : nat) : Prop :=
  match p with
  | Ivec => (n <= length ivec)%nat
  | Mem p => (p + n <= length m)%nat
  end.

(** The second word is not overwritten by the first store. *)
Definition word_safe (out : nat) (p : ptr) : Prop :=
  match p with
  | Ivec => True
  | Mem p => apart out 8 (p + 8) 8
  end.

Lemma rd_ok m ivec p off n : bytes_ok m -> bytes_ok ivec -> bytes_ok (rd m ivec p off n).
Proof. intros. destruct p; by apply ld_bytes_ok. Qed.

Lemma length_rd m ivec p off n : ptr_ok m ivec p (off + n) -> length (rd m ivec p off n) = n.
Proof. destruct p; cbn [ptr_ok rd]; intros; apply length_ld; lia. Qed.

Lemma rd_split m ivec p : rd m ivec p 0 16 = rd m ivec p 0 8 ++ rd m ivec p 8 8.
Proof. destruct p as [| p]; cbn [rd]; rewrite (ld_split _ _ 16 8) by lia; [done |]. do 2 f_equal; lia. Qed.

Lemma rd_store_word m ivec p out x :
  word_safe out p -> length x = 8%nat -> (out + 8 <= length m)%nat -> rd (store m out x) ivec p 8 8 = rd m ivec p 8 8.
Proof. intros Hs Hx Hm. destruct p as [| p]; [done |]. cbn [rd word_safe] in *. apply ld_store_apart; rewrite Hx; [done | lia]. Qed.

Lemma xor16_mem m ivec out a b :
  bytes_ok m -> bytes_ok ivec -> ptr_ok m ivec a 16 -> ptr_ok m ivec b 16 -> word_safe out a -> word_safe out b ->
  (out + 16 <= length m)%nat ->
  CRYPTO_xor16 m ivec out a b = store m out (xor_bytes (rd m ivec a 0 16) (rd m ivec b 0 16)).
Proof.
  intros Hm Hi Ha Hb Hsa Hsb Ho.
  assert (forall p off, ptr_ok m ivec p 16 -> (off + 8 <= 16)%nat -> length (rd m ivec p off 8) = 8%nat) as Hlen.
  { intros p off Hp Hoff. apply length_rd. destruct p; cbn [ptr_ok] in *; lia. }
  assert (forall off, (off + 8 <= 16)%nat -> length (xor_bytes (rd m ivec a off 8) (rd m ivec b off 8)) = 8%nat) as Hx.
  { intros off Hoff. rewrite length_xor; rewrite !Hlen; done || lia. }
  unfold CRYPTO_xor16. change (word_offsets 0) with [0%nat; 8%nat].
  rewrite (fold_store (fun m i => xor_word (rd m ivec a i 8) (rd m ivec b i 8)) (fun i => xor_bytes (rd m ivec a i 8) (rd m ivec b i 8))
    (fun i => (out + i)%nat) [0; 8]%nat m out).
  - cbn [map concat]. rewrite app_nil_r, !rd_split, xor_app by (rewrite !Hlen; done || lia). done.
  - intros pre i post E. destruct pre as [| i0 [| i1 pre]].
    + injection E as <- <-. cbn [map concat length]. rewrite store_nil. split; [lia |]. apply xor_word_eq; try apply Hlen; try done; try lia; by apply rd_ok.
    + injection E as <- <- <-. cbn [map concat]. rewrite app_nil_r, Hx by lia. split; [done |].
      rewrite !rd_store_word by (done || (apply Hx; lia) || lia). apply xor_word_eq; try apply Hlen; try done; try lia; by apply rd_ok.
    + by destruct pre.
  - cbn [map concat]. rewrite app_nil_r, length_app, !Hx by lia. lia.
Qed.

Lemma xor16_eq a b : length a = 16%nat -> length b = 16%nat -> bytes_ok a -> bytes_ok b -> xor16 a b = xor_bytes a b.
Proof.
  intros Hla Hlb Ha Hb. unfold xor16. rewrite xor16_mem; try done; cbn [ptr_ok word_safe]; try lia.
  2: { right. lia. }
  cbn [rd]. rewrite !ld_all by done. apply store_all. rewrite length_xor; lia.
Qed.

(** * CBC, as a specification *)

Section CbcSpec.
Context (block : bytes -> bytes).

(** [n] blocks of [x]. *)
Fixpoint cbc_enc (n : nat) (iv x : bytes) : bytes :=
  match n with
  | O => []
  | S n => let c := block (xor_bytes (take 16 x) iv) in c ++ cbc_enc n c (drop 16 x)
  end.

Fixpoint cbc_dec (n : nat) (iv x : bytes) : bytes :=
  match n with
  | O => []
  | S n => xor_bytes (block (take 16 x)) iv ++ cbc_dec n (take 16 x) (drop 16 x)
  end.
End CbcSpec.

(** The chaining value after the ciphertext [c]. *)
Definition next_iv (iv c : bytes) : bytes := let x := iv ++ c in drop (length x - 16) x.

(** A block cipher maps blocks to blocks. *)
Class BlockCipher (block : bytes -> bytes) : Prop := {
  block_length x : length x = 16%nat -> length (block x) = 16%nat;
  block_ok x : bytes_ok x -> length x = 16%nat -> bytes_ok (block x)
}.

Lemma next_iv_nil iv : length iv = 16%nat -> next_iv iv [] = iv.
Proof. intros H. unfold next_iv. cbv zeta. rewrite app_nil_r, H. done. Qed.

Lemma next_iv_block iv c rest : length iv = 16%nat -> length c = 16%nat -> next_iv iv (c ++ rest) = next_iv c rest.
Proof.
  intros Hi Hc. unfold next_iv. cbv zeta. rewrite drop_app_ge by (rewrite !length_app; lia).
  f_equal. rewrite !length_app. lia.
Qed.

Lemma next_iv_length iv c : length iv = 16%nat -> length (next_iv iv c) = 16%nat.
Proof. intros H. unfold next_iv. rewrite length_drop, length_app. lia. Qed.

Lemma next_iv_ok iv c : bytes_ok iv -> bytes_ok c -> bytes_ok (next_iv iv c).
Proof. intros. unfold next_iv. apply bytes_ok_drop. by apply bytes_ok_app. Qed.

Section Cbc.
Context (block : bytes -> bytes) `{HB : BlockCipher block}.

Lemma cbc_enc_length n iv x : length iv = 16%nat -> (16 * n <= length x)%nat -> length (cbc_enc block n iv x) = (16 * n)%nat.
Proof.
  revert iv x. induction n as [| n IH]; intros iv x Hi Hx; [done |]. cbn [cbc_enc]. cbv zeta. rewrite length_app.
  assert (length (block (xor_bytes (take 16 x) iv)) = 16%nat) as Hc by (apply block_length; rewrite length_xor; rewrite length_take; lia).
  rewrite IH by (rewrite ?length_drop; lia). lia.
Qed.

Lemma cbc_enc_ok n iv x : length iv = 16%nat -> bytes_ok iv -> length x = (16 * n)%nat -> bytes_ok x -> bytes_ok (cbc_enc block n iv x).
Proof.
  revert iv x. induction n as [| n IH]; intros iv x Hi Hio Hx Hxo; [apply bytes_ok_nil |]. cbn [cbc_enc]. cbv zeta.
  assert (length (xor_bytes (take 16 x) iv) = 16%nat) as Hl by (rewrite length_xor; rewrite length_take; lia).
  assert (bytes_ok (xor_bytes (take 16 x) iv)) as Ho by (apply xor_bytes_ok; auto with bytes_db).
  apply bytes_ok_app. split; [by apply block_ok |]. apply IH; [by apply block_length | by apply block_ok | rewrite length_drop; lia | auto with bytes_db].
Qed.

Lemma cbc_dec_length n iv x : length iv = 16%nat -> (16 * n <= length x)%nat -> length (cbc_dec block n iv x) = (16 * n)%nat.
Proof.
  revert iv x. induction n as [| n IH]; intros iv x Hi Hx; [done |]. cbn [cbc_dec]. rewrite length_app.
  assert (length (take 16 x) = 16%nat) as Ht by (rewrite length_take; lia).
  rewrite length_xor by (rewrite block_length; lia). rewrite block_length, IH by (rewrite ?length_drop; lia). lia.
Qed.
End Cbc.

(** ** The code computes CBC *)

(** The input stays ahead of what is written, or apart from it. *)
Definition ahead (inp out len : nat) : Prop := (out <= inp \/ inp + len <= out)%nat.

Definition iv_before (iv : ptr) (out : nat) : Prop :=
  match iv with
  | Ivec => True
  | Mem p => (p + 16 <= out)%nat
  end.

Lemma ld_take m p n : (16 <= n)%nat -> take 16 (ld m p n) = ld m p 16.
Proof. intros. unfold ld. rewrite take_take. f_equal. lia. Qed.

Lemma ld_drop m p n : drop 16 (ld m p n) = ld m (p + 16) (n - 16).
Proof. unfold ld. by rewrite skipn_firstn_comm, drop_drop. Qed.

Lemma rd_store_before m ivec iv out x :
  iv_before iv out -> (out <= length m)%nat -> rd (store m out x) ivec iv 0 16 = rd m ivec iv 0 16.
Proof. intros Hb Ho. destruct iv as [| p]; [done |]. cbn [rd iv_before] in *. apply ld_store_before; lia. Qed.

Lemma ptr_ok_store m ivec p n out x : (out + length x <= length m)%nat -> ptr_ok m ivec p n -> ptr_ok (store m out x) ivec p n.
Proof. intros Hx. destruct p; cbn [ptr_ok]; [done |]. by rewrite length_store. Qed.

Section CbcEncrypt.
Context (block : bytes -> bytes) `{HB : BlockCipher block}.

(** A round: the block written and read back. *)
Lemma encrypt_round m ivec inp out iv n :
  bytes_ok m -> bytes_ok ivec -> ptr_ok m ivec iv 16 -> iv_before iv out -> (16 <= n)%nat -> ahead inp out n ->
  (inp + 16 <= length m)%nat -> (out + 16 <= length m)%nat ->
  let c := block (xor_bytes (ld m inp 16) (rd m ivec iv 0 16)) in
  let m1 := CRYPTO_xor16 m ivec out (Mem inp) iv in
  store m1 out (block (ld m1 out 16)) = store m out c /\ length c = 16%nat /\ bytes_ok c.
Proof.
  intros Hm Hi Hp Hb Hn Ha Hin Hout. cbv zeta.
  assert (length (xor_bytes (ld m inp 16) (rd m ivec iv 0 16)) = 16%nat) as Hx.
  { rewrite length_xor; rewrite length_ld by lia; [done |]. by rewrite length_rd. }
  assert (bytes_ok (xor_bytes (ld m inp 16) (rd m ivec iv 0 16))) as Hxo by (apply xor_bytes_ok; [by apply ld_bytes_ok | by apply rd_ok]).
  rewrite xor16_mem; [| done | done | cbn; lia | done | | | lia].
  - cbn [rd]. rewrite Nat.add_0_r. rewrite ld_store_same by (done || lia). pose proof (block_length _ Hx) as Hc.
    rewrite store_twice by lia. split_and!; [done | done | by apply block_ok].
  - cbn. unfold apart. destruct Ha; [right | left]; lia.
  - destruct iv; [done |]. cbn in Hb |- *. left. lia.
Qed.

Lemma cbc_encrypt_loop_spec fuel m ivec inp out n r iv :
  (n <= fuel)%nat -> (r < 16)%nat -> bytes_ok m -> bytes_ok ivec -> ptr_ok m ivec iv 16 -> iv_before iv out ->
  ahead inp out (16 * n + r) -> (inp + (16 * n + r) <= length m)%nat -> (out + 16 * n <= length m)%nat ->
  let c := cbc_enc block n (rd m ivec iv 0 16) (ld m inp (16 * n)) in
  exists iv', cbc_encrypt_loop block fuel m ivec inp out (16 * n + r) iv = (store m out c, inp + 16 * n, out + 16 * n, r, iv')%nat /\
    length c = (16 * n)%nat /\ bytes_ok c /\
    ptr_ok (store m out c) ivec iv' 16 /\ iv_before iv' (out + 16 * n) /\
    rd (store m out c) ivec iv' 0 16 = next_iv (rd m ivec iv 0 16) c.
Proof.
  revert m inp out n iv. induction fuel as [| fuel IH]; intros m inp out n iv Hn Hr Hm Hi Hp Hb Ha Hin Hout; cbv zeta.
  1: assert (n = 0%nat) as -> by lia.
  2: destruct n as [| n].
  1-2: exists iv; cbn [cbc_enc]; rewrite !store_nil, !Nat.mul_0_r, !Nat.add_0_r, !Nat.add_0_l, next_iv_nil by (by apply length_rd);
    cbn [cbc_encrypt_loop]; rewrite ?(proj2 (Nat.leb_gt 16 r)) by lia; split_and!; (done || apply bytes_ok_nil).
  cbn [cbc_encrypt_loop cbc_enc]. rewrite (proj2 (Nat.leb_le 16 _)) by lia.
  destruct (encrypt_round m ivec inp out iv (16 * S n + r) Hm Hi Hp Hb ltac:(lia) Ha ltac:(lia) ltac:(lia)) as (-> & Hc & Hco).
  rewrite ld_take, ld_drop by lia. set (c := block _) in *.
  destruct (IH (store m out c) (inp + 16) (out + 16) n (Mem out))%nat as (iv' & E & Hl & Hok & Hp' & Hb' & Hrd); try done; try lia.
  { by apply store_bytes_ok. } { cbn. rewrite length_store; lia. } { cbn. lia. } { destruct Ha; [left | right]; lia. } { rewrite length_store; lia. } { rewrite length_store; lia. }
  assert (rd (store m out c) ivec (Mem out) 0 16 = c) as Hrc by (cbn [rd]; rewrite Nat.add_0_r; apply ld_store_same; [done | lia]).
  rewrite Hrc in *. assert (ld (store m out c) (inp + 16) (16 * n) = ld m (inp + 16) (16 * n)) as Hld.
  { apply ld_store_apart; rewrite Hc; [| lia]. destruct Ha; [right | left]; lia. }
  rewrite Hld in *. replace (16 * S n - 16)%nat with (16 * n)%nat by lia. set (cs := cbc_enc block n c _) in *.
  assert (store (store m out c) (out + 16) cs = store m out (c ++ cs)) as Hst by (rewrite <- Hc; apply store_app; lia). rewrite Hst in *.
  exists iv'. split_and!.
  - replace (16 * S n + r - 16)%nat with (16 * n + r)%nat by lia. rewrite E. replace (inp + 16 + 16 * n)%nat with (inp + 16 * S n)%nat by lia. by replace (out + 16 + 16 * n)%nat with (out + 16 * S n)%nat by lia.
  - rewrite length_app. lia.
  - by apply bytes_ok_app.
  - done.
  - replace (out + 16 * S n)%nat with (out + 16 + 16 * n)%nat by lia. done.
  - rewrite Hrd. by rewrite next_iv_block by (done || by apply length_rd).
Qed.
End CbcEncrypt.

(** ** The last, partial block *)

Lemma xor_map a b k : (k <= length a)%nat -> (k <= length b)%nat ->
  map (fun n => Z.lxor (byte_at a n) (byte_at b n)) (seq 0 k) = xor_bytes (take k a) (take k b).
Proof.
  revert a b. induction k as [| k IH]; intros a b Ha Hb; [done |]. destruct a as [| x a]; [cbn in Ha; lia |]. destruct b as [| y b]; [cbn in Hb; lia |].
  cbn [length] in Ha, Hb. cbn [seq map]. rewrite <- seq_shift, map_map. cbn [take xor_bytes zip_with]. f_equal. apply IH; lia.
Qed.

Lemma xor_zeros b : xor_bytes (replicate (length b) 0) b = b.
Proof. induction b as [| x b IH]; [done |]. cbn [length replicate xor_bytes zip_with]. rewrite Z.lxor_0_l. f_equal. exact IH. Qed.

Lemma rd_byte m ivec iv n out x :
  iv_before iv out -> (out <= length m)%nat -> (n < 16)%nat ->
  byte_at (rd (store m out x) ivec iv n 1) 0 = byte_at (rd m ivec iv 0 16) n.
Proof.
  intros Hb Ho Hn. rewrite <- (rd_store_before m ivec iv out x Hb Ho). destruct iv as [| p]; cbn [rd]; rewrite !byte_at_ld by lia; f_equal; lia.
Qed.

Definition tail_xor (m ivec : bytes) (inp out r : nat) (iv : ptr) : bytes :=
  let m := foldl (fun m n => store m (out + n) [Z.lxor (byte_at m (inp + n)) (byte_at (rd m ivec iv n 1) 0)]) m (seq 0 r) in
  foldl (fun m n => store m (out + n) [byte_at (rd m ivec iv n 1) 0]) m (seq r (16 - r)).

Lemma tail_xor_eq m ivec inp out r iv :
  (r < 16)%nat -> ptr_ok m ivec iv 16 -> iv_before iv out -> ahead inp out r ->
  (inp + r <= length m)%nat -> (out + 16 <= length m)%nat ->
  tail_xor m ivec inp out r iv = store m out (xor_bytes (ld m inp r ++ replicate (16 - r) 0) (rd m ivec iv 0 16)).
Proof.
  intros Hr Hp Hb Ha Hin Hout. unfold tail_xor. set (v := rd m ivec iv 0 16). assert (length v = 16%nat) as Hv by (by apply length_rd).
  rewrite (fold_store_bytes (fun m n => Z.lxor (byte_at m (inp + n)) (byte_at (rd m ivec iv n 1) 0))
    (fun n => Z.lxor (byte_at (ld m inp r) n) (byte_at v n))).
  2: { intros i Hi. change (0 + i)%nat with i. rewrite Nat.add_0_r, rd_byte by (done || lia). rewrite byte_at_ld by done. f_equal.
       apply byte_at_store_apart; rewrite length_map, length_seq; [| lia]. destruct Ha; [right | left]; lia. }
  2: lia. rewrite Nat.add_0_r. set (g := map _ (seq 0 r)). assert (length g = r) as Hg by (unfold g; by rewrite length_map, length_seq).
  rewrite (fold_store_bytes _ (byte_at v)).
  2: { intros i Hi. rewrite (store_app_n _ _ _ _ _ Hg) by (rewrite length_map, length_seq; lia). rewrite rd_byte by (done || lia). done. }
  2: { rewrite length_store; lia. }
  rewrite (store_app_n _ _ _ _ _ Hg) by (rewrite length_map, length_seq; lia). f_equal.
  rewrite map_byte_at by lia. unfold g. rewrite xor_map by (rewrite ?length_ld; lia). rewrite <- (take_drop r v) at 3.
  rewrite xor_app by (rewrite length_ld, length_take; lia). rewrite (take_ge (ld m inp r)) by (rewrite length_ld; lia). f_equal.
  assert (length (drop r v) = 16 - r)%nat as Hd by (rewrite length_drop; lia). unfold ld. rewrite <- Hd, firstn_all. by rewrite xor_zeros.
Qed.

Definition blocks_of (len : nat) : nat := ((len + 15) / 16)%nat.
Definition zero_pad (x : bytes) : bytes := x ++ replicate (16 * blocks_of (length x) - length x) 0.

Lemma blocks_of_exact n : blocks_of (16 * n) = n.
Proof. unfold blocks_of. rewrite Nat.add_comm, Nat.mul_comm, Nat.div_add by lia. done. Qed.

Lemma blocks_of_partial n r : (0 < r < 16)%nat -> blocks_of (16 * n + r) = S n.
Proof.
  intros. unfold blocks_of. replace (16 * n + r + 15)%nat with ((r - 1) + (n + 1) * 16)%nat by lia.
  rewrite Nat.div_add, Nat.div_small by lia. lia.
Qed.

Lemma cbc_enc_app block `{HB : BlockCipher block} n k iv x y :
  length iv = 16%nat -> length x = (16 * n)%nat ->
  cbc_enc block (n + k) iv (x ++ y) = cbc_enc block n iv x ++ cbc_enc block k (next_iv iv (cbc_enc block n iv x)) y.
Proof.
  revert iv x. induction n as [| n IH]; intros iv x Hi Hx.
  - destruct x; [| done]. cbn [cbc_enc Nat.add app]. by rewrite next_iv_nil.
  - cbn [cbc_enc Nat.add]. cbv zeta. rewrite take_app_le, drop_app_le by lia.
    assert (length (block (xor_bytes (take 16 x) iv)) = 16%nat) as Hc by (apply block_length; rewrite length_xor; rewrite length_take; lia).
    rewrite IH by (rewrite ?length_drop; lia). by rewrite <- app_assoc, next_iv_block.
Qed.

Lemma cbc_encrypt_spec block `{HB : BlockCipher block} m inp out len ivec :
  bytes_ok m -> bytes_ok ivec -> length ivec = 16%nat -> ahead inp out len ->
  (inp + len <= length m)%nat -> (out + 16 * blocks_of len <= length m)%nat ->
  let c := cbc_enc block (blocks_of len) ivec (zero_pad (ld m inp len)) in
  CRYPTO_cbc128_encrypt block m inp out len ivec = (store m out c, next_iv ivec c).
Proof.
  intros Hm Hi Hl Ha Hin Hout. cbv zeta. unfold CRYPTO_cbc128_encrypt. destruct (Nat.eqb_spec len 0) as [-> | Hlen].
  { cbn [cbc_enc blocks_of]. change (blocks_of 0) with 0%nat. cbn [cbc_enc]. by rewrite store_nil, next_iv_nil. }
  pose proof (Nat.div_mod_eq len 16) as Hdm. pose proof (Nat.mod_upper_bound len 16 ltac:(lia)) as Hr.
  set (n := (len / 16)%nat) in *. set (r := (len mod 16)%nat) in *. clearbody n r. subst len.
  assert (16 * n <= 16 * blocks_of (16 * n + r))%nat as Hbl.
  { destruct (decide (r = 0%nat)) as [-> |]; [rewrite Nat.add_0_r, blocks_of_exact; lia | rewrite blocks_of_partial; lia]. }
  destruct (cbc_encrypt_loop_spec block (16 * n + r) m ivec inp out n r Ivec) as (iv' & E & Hcl & Hcok & Hp & Hb & Hrd); try done; try lia.
  { cbn. lia. }
  rewrite E. clear E. change (rd m ivec Ivec 0 16) with (ld ivec 0 16) in *. rewrite ld_all in * by done. unfold zero_pad. rewrite length_ld by lia.
  set (c := cbc_enc block n ivec (ld m inp (16 * n))) in *. destruct (Nat.ltb_spec 0 r) as [Hpos | Hz].
  2: { assert (r = 0%nat) as -> by lia. rewrite Nat.add_0_r, blocks_of_exact, Nat.sub_diag. cbn [replicate]. rewrite app_nil_r. fold c. by rewrite Hrd. }
  rewrite Nat.min_r by lia. rewrite blocks_of_partial in * by lia. set (m1 := store m out c) in *.
  assert (length m1 = length m) as Hlm by (apply length_store; lia).
  fold (tail_xor m1 ivec (inp + 16 * n) (out + 16 * n) r iv'). rewrite tail_xor_eq; [| lia | done | done | | lia | lia].
  2: { destruct Ha; [left | right]; lia. }
  assert (ld m1 (inp + 16 * n) r = ld m (inp + 16 * n) r) as Hld.
  { apply ld_store_apart; rewrite Hcl; [| lia]. destruct Ha; [right | left]; lia. }
  rewrite Hld, Hrd. set (y := xor_bytes _ _).
  assert (length (ld m (inp + 16 * n) r ++ replicate (16 - r) 0) = 16%nat) as Hx16 by (rewrite length_app, length_ld, length_replicate; lia).
  assert (length y = 16%nat) as Hy by (unfold y; rewrite length_xor; rewrite ?next_iv_length; lia).
  rewrite ld_store_same, store_twice by (rewrite ?block_length; lia). pose proof (block_length y Hy) as Hby.
  replace (S n) with (n + 1)%nat by lia. replace (16 * (n + 1) - (16 * n + r))%nat with (16 - r)%nat by lia.
  rewrite (ld_split m inp (16 * n + r) (16 * n)), <- app_assoc by lia. replace (16 * n + r - 16 * n)%nat with r by lia.
  rewrite cbc_enc_app by (done || rewrite length_ld; lia). fold c. cbn [cbc_enc]. rewrite app_nil_r, take_ge by lia. fold y.
  unfold m1. rewrite (store_app_n _ _ _ _ _ Hcl) by lia. f_equal. cbn [rd]. rewrite Nat.add_0_r.
  rewrite <- (store_app_n _ _ _ _ _ Hcl) by lia. rewrite ld_store_same by (rewrite ?length_store; lia).
  unfold next_iv. cbv zeta. rewrite !app_assoc, drop_app_ge by (rewrite !length_app; lia). rewrite !length_app.
  replace (length ivec + length c + length (block y) - 16 - (length ivec + length c))%nat with 0%nat by lia. done.
Qed.

(** ** Decryption *)

(** [out] is two blocks behind [inp], or the two are apart. *)
Definition far (inp out len : nat) : Prop := (out + 32 <= inp \/ inp + len <= out)%nat.

Definition iv_apart (iv : ptr) (out : nat) : Prop :=
  match iv with
  | Ivec => True
  | Mem p => apart out 16 p 16
  end.

Lemma rd_store_apart m ivec iv out x :
  iv_apart iv out -> length x = 16%nat -> (out + 16 <= length m)%nat -> rd (store m out x) ivec iv 0 16 = rd m ivec iv 0 16.
Proof.
  intros Ha Hx Ho. destruct iv as [| p]; [done |]. cbn [rd iv_apart] in *. rewrite Nat.add_0_r. apply ld_store_apart; rewrite Hx; [done | lia].
Qed.

Lemma word_safe_apart iv out : iv_apart iv out -> word_safe out iv.
Proof. destruct iv as [| p]; [done |]. cbn. intros [H | H]; [left | right]; lia. Qed.

Section CbcDecrypt.
Context (block : bytes -> bytes) `{HB : BlockCipher block}.

Lemma direct_round m ivec inp out iv :
  bytes_ok m -> bytes_ok ivec -> ptr_ok m ivec iv 16 -> iv_apart iv out ->
  (inp + 16 <= length m)%nat -> (out + 16 <= length m)%nat ->
  let p := xor_bytes (block (ld m inp 16)) (rd m ivec iv 0 16) in
  CRYPTO_xor16 (store m out (block (ld m inp 16))) ivec out (Mem out) iv = store m out p /\ length p = 16%nat /\ bytes_ok p.
Proof.
  intros Hm Hi Hp Ha Hin Hout. cbv zeta. assert (length (ld m inp 16) = 16%nat) as Hx by (by apply length_ld).
  pose proof (block_length _ Hx) as Hb. pose proof (block_ok _ (ld_bytes_ok m inp 16 Hm) Hx) as Hbo.
  assert (length (rd m ivec iv 0 16) = 16%nat) as Hv by (by apply length_rd).
  split_and!; [| rewrite length_xor; lia | apply xor_bytes_ok; [done | by apply rd_ok]].
  rewrite xor16_mem; [| by apply store_bytes_ok | done | | | | by apply word_safe_apart | ].
  - cbn [rd]. rewrite Nat.add_0_r, ld_store_same by (done || lia). rewrite rd_store_apart, store_twice by (done || lia || (rewrite length_xor; lia)). done.
  - cbn [ptr_ok]. rewrite length_store; lia.
  - apply ptr_ok_store; [lia | done].
  - cbn. right. lia.
  - rewrite length_store; lia.
Qed.

Lemma cbc_decrypt_direct_spec fuel m ivec inp out n r iv :
  (n <= fuel)%nat -> (r < 16)%nat -> bytes_ok m -> bytes_ok ivec -> ptr_ok m ivec iv 16 -> iv_apart iv out ->
  far inp out (16 * n) -> (inp + 16 * n <= length m)%nat -> (out + 16 * n <= length m)%nat ->
  let x := ld m inp (16 * n) in
  let p := cbc_dec block n (rd m ivec iv 0 16) x in
  exists iv', cbc_decrypt_direct block fuel m ivec inp out (16 * n + r) iv = (store m out p, inp + 16 * n, out + 16 * n, r, iv')%nat /\
    bytes_ok p /\ rd (store m out p) ivec iv' 0 16 = next_iv (rd m ivec iv 0 16) x.
Proof.
  revert m inp out n iv. induction fuel as [| fuel IH]; intros m inp out n iv Hn Hr Hm Hi Hp Ha Hf Hin Hout; cbv zeta.
  1: assert (n = 0%nat) as -> by lia.
  2: destruct n as [| n].
  1-2: exists iv; cbn [cbc_dec]; rewrite !store_nil, !Nat.mul_0_r, !Nat.add_0_r, !Nat.add_0_l;
    change (ld m inp 0) with (@nil Z); rewrite next_iv_nil by (by apply length_rd);
    cbn [cbc_decrypt_direct]; rewrite ?(proj2 (Nat.leb_gt 16 r)) by lia; split_and!; (done || apply bytes_ok_nil).
  cbn [cbc_decrypt_direct cbc_dec]. rewrite (proj2 (Nat.leb_le 16 _)) by lia. rewrite ld_take, ld_drop by lia.
  destruct (direct_round m ivec inp out iv Hm Hi Hp Ha ltac:(lia) ltac:(lia)) as (-> & Hc & Hco).
  set (p := xor_bytes _ _) in *. assert (apart out 16 inp 16) as Hap by (destruct Hf; [right | left]; lia).
  destruct (IH (store m out p) (inp + 16) (out + 16) n (Mem inp))%nat as (iv' & E & Hok & Hrd); try done; try lia.
  { by apply store_bytes_ok. } { cbn. rewrite length_store; lia. } { cbn. destruct Hf; [right | left]; lia. } { destruct Hf; [left | right]; lia. }
  { rewrite length_store; lia. } { rewrite length_store; lia. }
  assert (rd (store m out p) ivec (Mem inp) 0 16 = ld m inp 16) as Hrc.
  { cbn [rd]. rewrite Nat.add_0_r. apply ld_store_apart; rewrite Hc; [done | lia]. }
  rewrite Hrc in *. assert (ld (store m out p) (inp + 16) (16 * n) = ld m (inp + 16) (16 * n)) as Hld.
  { apply ld_store_apart; rewrite Hc; [| lia]. destruct Hf; [right | left]; lia. }
  rewrite Hld in *. replace (16 * S n - 16)%nat with (16 * n)%nat by lia. set (ps := cbc_dec block n _ _) in *.
  assert (length ps = (16 * n)%nat) as Hps by (apply cbc_dec_length; [done | |]; rewrite length_ld; lia).
  assert (store (store m out p) (out + 16) ps = store m out (p ++ ps)) as Hst by (apply store_app_n; [done | lia]). rewrite Hst in *. exists iv'. split_and!.
  - replace (16 * S n + r - 16)%nat with (16 * n + r)%nat by lia. rewrite E. replace (inp + 16 + 16 * n)%nat with (inp + 16 * S n)%nat by lia.
    by replace (out + 16 + 16 * n)%nat with (out + 16 * S n)%nat by lia.
  - by apply bytes_ok_app.
  - rewrite Hrd, (ld_split m inp (16 * S n) 16) by lia. replace (16 * S n - 16)%nat with (16 * n)%nat by lia.
    by rewrite next_iv_block by (by apply length_rd || (apply length_ld; lia)).
Qed.

(** The word loop through the temporary block. *)
Lemma tmp_round m ivec inp out tmp :
  bytes_ok m -> bytes_ok ivec -> bytes_ok tmp -> length ivec = 16%nat -> length tmp = 16%nat -> (out <= inp)%nat ->
  (inp + 16 <= length m)%nat ->
  foldl (fun '(m, ivec) n =>
    let c := CRYPTO_load_word_le (ld m (inp + n) 8) in
    let m := store m (out + n) (xor_word (ld tmp n 8) (ld ivec n 8)) in
    (m, store ivec n (CRYPTO_store_word_le c))) (m, ivec) (word_offsets 0) =
  (store m out (xor_bytes tmp ivec), ld m inp 16).
Proof.
  intros Hm Hi Ht Hli Hlt Ho Hin. change (word_offsets 0) with [0%nat; 8%nat]. cbn [foldl]. cbv zeta. rewrite !Nat.add_0_r.
  assert (forall x off, bytes_ok x -> (off + 8 <= length x)%nat -> CRYPTO_store_word_le (CRYPTO_load_word_le (ld x off 8)) = ld x off 8) as Hsl.
  { intros x off Hx Hoff. apply store_load_word; [by apply length_ld | by apply ld_bytes_ok]. }
  assert (forall off, (off + 8 <= 16)%nat -> xor_word (ld tmp off 8) (ld ivec off 8) = xor_bytes (ld tmp off 8) (ld ivec off 8)) as Hxw.
  { intros off Hoff. apply xor_word_eq; try (apply length_ld; lia); by apply ld_bytes_ok. }
  assert (forall off, (off + 8 <= 16)%nat -> length (xor_bytes (ld tmp off 8) (ld ivec off 8)) = 8%nat) as Hxl.
  { intros off Hoff. rewrite length_xor; rewrite !length_ld; lia. }
  rewrite (Hsl m inp), (Hxw 0%nat) by (done || lia). rewrite (ld_store_after ivec) by (rewrite ?length_ld; lia). rewrite Hxw by lia.
  rewrite (ld_store_apart m) by (rewrite Hxl by lia; try lia; right; lia). rewrite Hsl by (done || lia).
  assert (length (ld m inp 8) = 8%nat) as Hl8 by (apply length_ld; lia). f_equal.
  - rewrite (store_app_n _ _ _ _ _ (Hxl 0%nat ltac:(lia))) by (rewrite Hxl; lia). f_equal. rewrite <- xor_app by (rewrite !length_ld; lia). f_equal.
    + rewrite <- (ld_all tmp 16) at 3 by done. by rewrite (ld_split tmp 0 16 8) by lia.
    + rewrite <- (ld_all ivec 16) at 3 by done. by rewrite (ld_split ivec 0 16 8) by lia.
  - transitivity (store (store ivec 0 (ld m inp 8)) (0 + 8) (ld m (inp + 8) 8)); [done |]. rewrite (store_app_n _ _ _ _ _ Hl8) by (rewrite length_ld; lia).
    rewrite store_all by (rewrite length_app, !length_ld; lia). by rewrite (ld_split m inp 16 8) by lia.
Qed.

Lemma cbc_decrypt_tmp_spec fuel m ivec inp out n r :
  (n <= fuel)%nat -> (r < 16)%nat -> bytes_ok m -> bytes_ok ivec -> length ivec = 16%nat -> (out <= inp)%nat ->
  (inp + 16 * n <= length m)%nat ->
  let x := ld m inp (16 * n) in
  let p := cbc_dec block n ivec x in
  cbc_decrypt_tmp block fuel m ivec inp out (16 * n + r) = (store m out p, next_iv ivec x, inp + 16 * n, out + 16 * n, r)%nat /\ bytes_ok p.
Proof.
  revert m ivec inp out n. induction fuel as [| fuel IH]; intros m ivec inp out n Hn Hr Hm Hi Hli Ho Hin; cbv zeta.
  1: assert (n = 0%nat) as -> by lia.
  2: destruct n as [| n].
  1-2: cbn [cbc_dec]; rewrite !store_nil, !Nat.mul_0_r, !Nat.add_0_r, !Nat.add_0_l;
    change (ld m inp 0) with (@nil Z); rewrite next_iv_nil by done;
    cbn [cbc_decrypt_tmp]; rewrite ?(proj2 (Nat.leb_gt 16 r)) by lia; split_and!; (done || apply bytes_ok_nil).
  cbn [cbc_decrypt_tmp cbc_dec]. rewrite (proj2 (Nat.leb_le 16 _)) by lia. rewrite ld_take, ld_drop by lia.
  assert (length (ld m inp 16) = 16%nat) as Hx by (apply length_ld; lia). pose proof (block_length _ Hx) as Hb.
  pose proof (block_ok _ (ld_bytes_ok m inp 16 Hm) Hx) as Hbo.
  cbv zeta. rewrite tmp_round by (done || lia). set (p := xor_bytes _ _). assert (length p = 16%nat) as Hc by (unfold p; rewrite length_xor; lia).
  assert (bytes_ok p) as Hpo by (by apply xor_bytes_ok).
  assert (ld (store m out p) (inp + 16) (16 * n) = ld m (inp + 16) (16 * n)) as Hld by (apply ld_store_apart; rewrite Hc; [right; lia | lia]).
  replace (16 * S n + r - 16)%nat with (16 * n + r)%nat by lia. replace (16 * S n - 16)%nat with (16 * n)%nat by lia.
  destruct (IH (store m out p) (ld m inp 16) (inp + 16)%nat (out + 16)%nat n) as (E & Hok); try done; try lia.
  { by apply store_bytes_ok. } { by apply ld_bytes_ok. } { rewrite length_store; lia. }
  rewrite E, Hld in *. assert (length (cbc_dec block n (ld m inp 16) (ld m (inp + 16) (16 * n))) = (16 * n)%nat) as Hps by (apply cbc_dec_length; [done | |]; rewrite length_ld; lia).
  rewrite (store_app_n _ _ _ _ _ Hc) by lia. split; [| by apply bytes_ok_app]. rewrite (ld_split m inp (16 * S n) 16) by lia.
  replace (16 * S n - 16)%nat with (16 * n)%nat by lia. rewrite next_iv_block by done.
  replace (inp + 16 + 16 * n)%nat with (inp + 16 * S n)%nat by lia. by replace (out + 16 + 16 * n)%nat with (out + 16 * S n)%nat by lia.
Qed.
End CbcDecrypt.

Lemma tail_fold m ivec inp out tmp r k :
  (k <= r)%nat -> (r <= 16)%nat -> length ivec = 16%nat -> ahead inp out r -> (inp + r <= length m)%nat -> (out + r <= length m)%nat ->
  foldl (fun '(m, ivec) n =>
    let c := byte_at m (inp + n) in
    let m := store m (out + n) [Z.lxor (byte_at tmp n) (byte_at ivec n)] in
    (m, store ivec n [c])) (m, ivec) (seq 0 k) =
  (store m out (map (fun n => Z.lxor (byte_at tmp n) (byte_at ivec n)) (seq 0 k)), store ivec 0 (ld m inp k)).
Proof.
  intros Hk Hr Hi Ha Hin Hout. induction k as [| k IH]; [cbn [seq foldl map]; by rewrite !store_nil |].
  rewrite seq_S, foldl_app, IH by lia. cbn [foldl]. cbv zeta. change (0 + k)%nat with k. set (g := fun n : nat => _).
  assert (length (map g (seq 0 k)) = k) as Hg by (by rewrite length_map, length_seq). assert (length (ld m inp k) = k) as Hl by (apply length_ld; lia).
  rewrite (byte_at_store_apart m) by (rewrite Hg; lia || (destruct Ha; [right | left]; lia)).
  rewrite (byte_at_store_apart ivec) by (rewrite Hl; lia || (right; lia)). rewrite (store_app_n _ _ _ _ _ Hg) by (cbn; lia). rewrite map_app. f_equal.
  transitivity (store (store ivec 0 (ld m inp k)) (0 + k) [byte_at m (inp + k)]); [done |]. rewrite (store_app_n _ _ _ _ _ Hl) by (cbn; lia).
  rewrite byte_at_ld1 by lia. rewrite (ld_split m inp (S k) k) by lia. by replace (S k - k)%nat with 1%nat by lia.
Qed.

Lemma cbc_decrypt_tail_spec block `{HB : BlockCipher block} fuel m ivec inp out r :
  (0 < r < 16)%nat -> length ivec = 16%nat -> (out <= inp \/ inp + 16 <= out)%nat -> (inp + 16 <= length m)%nat -> (out + r <= length m)%nat ->
  cbc_decrypt_tail block (S fuel) m ivec inp out r = (store m out (take r (xor_bytes (block (ld m inp 16)) ivec)), ld m inp 16).
Proof.
  intros Hr Hi Ha Hin Hout. cbn [cbc_decrypt_tail]. rewrite (proj2 (Nat.eqb_neq r 0)) by lia. cbv zeta. rewrite Nat.min_r by lia.
  rewrite (tail_fold m ivec inp out _ r r) by (done || lia || (destruct Ha; [left | right]; lia)). rewrite (proj2 (Nat.leb_le r 16)) by lia.
  assert (length (ld m inp 16) = 16%nat) as Hx by (by apply length_ld). pose proof (block_length _ Hx) as Hb. rewrite xor_map by lia.
  assert (forall k (a b : bytes), take k (xor_bytes a b) = xor_bytes (take k a) (take k b)) as Htx by (intros; apply zip_with_take).
  rewrite <- Htx. set (p := take r _). assert (length p = r) as Hp by (unfold p; rewrite length_take, length_xor; lia). f_equal.
  assert (length (ld m inp r) = r) as Hl by (apply length_ld; lia).
  rewrite (fold_store_bytes (fun _ n => byte_at (store m out p) (inp + n)) (byte_at (ld m inp 16)) r (16 - r) _ 0).
  - rewrite (store_app_n _ 0 _ _ _ Hl) by (rewrite length_map, length_seq; lia). rewrite map_byte_at, ld_ld by lia.
    rewrite <- ld_split by lia. apply store_all. lia.
  - intros i Hii. rewrite byte_at_ld by lia. apply byte_at_store_apart; rewrite Hp; [| lia]. destruct Ha; [right | left]; lia.
  - rewrite length_store; lia.
Qed.

Lemma next_iv_app iv x y : length iv = 16%nat -> (16 <= length y)%nat -> next_iv iv (x ++ y) = next_iv iv y.
Proof.
  intros Hi Hy. unfold next_iv. cbv zeta. rewrite app_assoc, !drop_app_ge by (rewrite !length_app; lia). rewrite !length_app. f_equal. lia.
Qed.

Lemma next_iv_last iv y : length iv = 16%nat -> length y = 16%nat -> next_iv iv y = y.
Proof. intros Hi Hy. unfold next_iv. cbv zeta. rewrite drop_app_ge by (rewrite length_app; lia). rewrite length_app, Hi, Hy. done. Qed.

Lemma cbc_dec_app block n k iv x y :
  length x = (16 * n)%nat -> length iv = 16%nat -> cbc_dec block (n + k) iv (x ++ y) = cbc_dec block n iv x ++ cbc_dec block k (next_iv iv x) y.
Proof.
  revert iv x. induction n as [| n IH]; intros iv x Hx Hi.
  - destruct x; [| done]. cbn [cbc_dec Nat.add app]. by rewrite next_iv_nil.
  - cbn [cbc_dec Nat.add]. rewrite take_app_le, drop_app_le by lia. rewrite IH by (rewrite ?length_take, ?length_drop; lia). rewrite <- app_assoc.
    do 3 f_equal. rewrite <- (take_drop 16 x) at 3. by rewrite next_iv_block by (rewrite ?length_take; lia).
Qed.

(** The loops over whole blocks, either way. *)
Lemma cbc_decrypt_blocks block `{HB : BlockCipher block} m inp out n r ivec :
  (r < 16)%nat -> bytes_ok m -> bytes_ok ivec -> length ivec = 16%nat -> (out <= inp \/ inp + 16 * n <= out)%nat ->
  (inp + 16 * n <= length m)%nat -> (out + 16 * n <= length m)%nat ->
  (if (((32 <=? inp) && (out <=? inp - 32)) || (inp <? out))%nat then
     let '(m, inp, out, len, iv) := cbc_decrypt_direct block (16 * n + r) m ivec inp out (16 * n + r) Ivec in
     (m, rd m ivec iv 0 16, inp, out, len)
   else cbc_decrypt_tmp block (16 * n + r) m ivec inp out (16 * n + r)) =
  (store m out (cbc_dec block n ivec (ld m inp (16 * n))), next_iv ivec (ld m inp (16 * n)), inp + 16 * n, out + 16 * n, r)%nat.
Proof.
  intros Hr Hm Hi Hli Ha Hin Hout. destruct (_ || _) eqn:Ebr.
  - assert (far inp out (16 * n)) as Hf.
    { unfold far. apply orb_prop in Ebr as [[H1%Nat.leb_le H2%Nat.leb_le]%andb_prop | H%Nat.ltb_lt]; destruct Ha; lia. }
    destruct (cbc_decrypt_direct_spec block (16 * n + r) m ivec inp out n r Ivec) as (iv' & -> & _ & ->); try done; try lia.
    { cbn. lia. } change (rd m ivec Ivec 0 16) with (ld ivec 0 16). by rewrite ld_all.
  - assert (out <= inp)%nat as Ho by (apply orb_false_elim in Ebr as [_ H%Nat.ltb_ge]; lia).
    destruct (cbc_decrypt_tmp_spec block (16 * n + r) m ivec inp out n r) as [-> _]; try done; lia.
Qed.

Lemma cbc_decrypt_spec block `{HB : BlockCipher block} m inp out len ivec :
  bytes_ok m -> bytes_ok ivec -> length ivec = 16%nat -> (out <= inp \/ inp + 16 * blocks_of len <= out)%nat ->
  (inp + 16 * blocks_of len <= length m)%nat -> (out + len <= length m)%nat ->
  let x := ld m inp (16 * blocks_of len) in
  CRYPTO_cbc128_decrypt block m inp out len ivec = Some (store m out (take len (cbc_dec block (blocks_of len) ivec x)), next_iv ivec x).
Proof.
  intros Hm Hi Hl Ha Hin Hout. cbv zeta. unfold CRYPTO_cbc128_decrypt. destruct (Nat.eqb_spec len 0) as [-> | Hlen].
  { change (blocks_of 0) with 0%nat. cbn [cbc_dec take]. change (16 * 0)%nat with 0%nat. change (ld m inp 0) with (@nil Z). by rewrite store_nil, next_iv_nil. }
  pose proof (Nat.div_mod_eq len 16) as Hdm. pose proof (Nat.mod_upper_bound len 16 ltac:(lia)) as Hr.
  set (n := (len / 16)%nat) in *. set (r := (len mod 16)%nat) in *. clearbody n r. subst len.
  assert (16 * n + r <= 16 * blocks_of (16 * n + r))%nat as Hbl.
  { destruct (decide (r = 0%nat)) as [-> |]; [rewrite Nat.add_0_r, blocks_of_exact; lia | rewrite blocks_of_partial; lia]. }
  replace (negb _) with false by (destruct (Nat.leb_spec out inp), (Nat.leb_spec (inp + (16 * n + r)) out); cbn; (done || lia)).
  rewrite cbc_decrypt_blocks by (done || lia). assert (length (ld m inp (16 * n)) = 16 * n)%nat as Hx by (apply length_ld; lia).
  assert (length (cbc_dec block n ivec (ld m inp (16 * n))) = 16 * n)%nat as Hd by (apply cbc_dec_length; [done | done | lia]).
  destruct (decide (r = 0%nat)) as [-> | Hr0].
  { rewrite Nat.add_0_r in *. rewrite blocks_of_exact. cbn [cbc_decrypt_tail]. change (0 =? 0)%nat with true. by rewrite (take_ge (cbc_dec _ _ _ _)) by lia. }
  rewrite blocks_of_partial in * by lia. set (d := cbc_dec block n ivec _) in *. set (iv1 := next_iv ivec _).
  assert (length iv1 = 16%nat) as Hiv1 by (by apply next_iv_length).
  rewrite cbc_decrypt_tail_spec by (done || (rewrite length_store; lia) || lia).
  assert (ld (store m out d) (inp + 16 * n) 16 = ld m (inp + 16 * n) 16) as Hld by (apply ld_store_apart; rewrite Hd; [destruct Ha; [right | left]; lia | lia]).
  rewrite Hld. assert (length (ld m (inp + 16 * n) 16) = 16%nat) as Hx16 by (apply length_ld; lia). pose proof (block_length _ Hx16) as Hb16.
  rewrite (ld_split m inp (16 * S n) (16 * n)) by lia. replace (16 * S n - 16 * n)%nat with 16%nat by lia.
  rewrite next_iv_app, next_iv_last by (done || lia). replace (S n) with (n + 1)%nat by lia.
  rewrite cbc_dec_app by done. cbn [cbc_dec]. rewrite app_nil_r, (take_ge (ld m (inp + 16 * n) 16)) by lia. fold d iv1.
  rewrite take_app_ge by lia. replace (16 * n + r - length d)%nat with r by lia.
  rewrite (store_app_n _ _ _ _ _ Hd) by (rewrite length_take, length_xor; lia). done.
Qed.

(** ** Decryption inverts encryption *)

Class InverseCipher (enc dec : bytes -> bytes) : Prop := {
  inverse_enc :: BlockCipher enc;
  inverse_dec :: BlockCipher dec;
  inverse_block x : length x = 16%nat -> bytes_ok x -> dec (enc x) = x
}.

Lemma cbc_inverse enc dec `{HI : InverseCipher enc dec} n iv x :
  length iv = 16%nat -> bytes_ok iv -> length x = (16 * n)%nat -> bytes_ok x -> cbc_dec dec n iv (cbc_enc enc n iv x) = x.
Proof.
  revert iv x. induction n as [| n IH]; intros iv x Hi Hio Hx Hxo; [by destruct x |]. cbn [cbc_enc cbc_dec]. cbv zeta.
  assert (length (take 16 x) = 16%nat) as Ht by (rewrite length_take; lia).
  assert (length (xor_bytes (take 16 x) iv) = 16%nat) as Hl by (rewrite length_xor; lia).
  assert (bytes_ok (xor_bytes (take 16 x) iv)) as Ho by (apply xor_bytes_ok; auto with bytes_db).
  pose proof (block_length (block := enc) _ Hl) as Hc. pose proof (block_ok (block := enc) _ Ho Hl) as Hco.
  rewrite take_app_le, drop_app_le, (take_ge (enc _)), (drop_ge (enc _)) by lia. cbn [app].
  rewrite (inverse_block (enc := enc) (dec := dec)), xor_cancel, IH by (done || (rewrite ?length_drop; lia) || auto with bytes_db). apply take_drop.
Qed.

(** * Stream modes, byte by byte *)

Fixpoint run {S : Type} (step : S -> Z -> Z * S) (s : S) (inp : bytes) : bytes * S :=
  match inp with
  | [] => ([], s)
  | b :: inp =>
      let '(o, s) := step s b in
      let '(out, s) := run step s inp in
      (o :: out, s)
  end.

Lemma run_app {S} (step : S -> Z -> Z * S) s x y :
  run step s (x ++ y) = let '(o, s) := run step s x in let '(o', s) := run step s y in (o ++ o', s).
Proof.
  revert s. induction x as [| b x IH]; intros s; cbn [app run]; [by destruct (run step s y) |].
  destruct (step s b) as [o s1]. rewrite IH. destruct (run step s1 x) as [os s2]. by destruct (run step s2 y).
Qed.

Lemma run_length {S} (step : S -> Z -> Z * S) s x : length (fst (run step s x)) = length x.
Proof.
  revert s. induction x as [| b x IH]; intros s; cbn [run]; [done |]. destruct (step s b) as [o s1]. specialize (IH s1).
  destruct (run step s1 x) as [os s2]. cbn in IH |- *. by rewrite IH.
Qed.

(** A block of key stream at a time: [refill] makes the next one, [buf] is the current one. *)
Section Keystream.
Context {A : Type} (refill : A -> A) (buf : A -> bytes) (Inv : A -> Prop).
Context (Hinv : forall a, Inv a -> Inv (refill a) /\ length (buf (refill a)) = 16%nat /\ bytes_ok (buf (refill a))).

Definition ks_step (s : A * nat) (b : Z) : Z * (A * nat) :=
  let '(a, n) := s in
  let a := if (n =? 0)%nat then refill a else a in
  (Z.lxor b (byte_at (buf a) n), (a, (n + 1) mod 16)%nat).

Lemma ks_inside a k x :
  length (buf a) = 16%nat -> (0 < k < 16)%nat -> (k + length x <= 16)%nat ->
  run ks_step (a, k) x = (xor_bytes x (ld (buf a) k (length x)), (a, (k + length x) mod 16)%nat).
Proof.
  intros Ha. revert k. induction x as [| b x IH]; intros k Hk Hx; cbn [length] in Hx.
  { cbn [run length]. by rewrite Nat.add_0_r, Nat.mod_small by lia. }
  cbn [run ks_step]. rewrite (proj2 (Nat.eqb_neq k 0)) by lia. cbn [length].
  rewrite (ld_split (buf a) k (S (length x)) 1), <- byte_at_ld1 by lia. cbn [app xor_bytes zip_with]. replace (S (length x) - 1)%nat with (length x) by lia.
  destruct x as [| b' x]; [done |]. rewrite (Nat.mod_small (k + 1)) by (cbn in Hx; lia). rewrite IH by (cbn [length] in *; lia).
  do 3 f_equal. cbn [length]. lia.
Qed.

(** From the start of a block. *)
Lemma ks_start a x :
  Inv a -> (0 < length x <= 16)%nat ->
  run ks_step (a, 0%nat) x = (xor_bytes x (take (length x) (buf (refill a))), (refill a, (length x) mod 16)%nat).
Proof.
  intros (_ & Hbuf & _)%Hinv Hx. destruct x as [| b x]; [cbn in Hx; lia |]. cbn [run ks_step]. change (0 =? 0)%nat with true. cbv iota.
  change ((0 + 1) mod 16)%nat with 1%nat.
  cbn [length] in Hx. rewrite ks_inside by (done || lia). change (take (length (b :: x)) (buf (refill a))) with (ld (buf (refill a)) 0 (S (length x))).
  rewrite (ld_split (buf (refill a)) 0 (S (length x)) 1) by lia. rewrite <- byte_at_ld1 by (rewrite Hbuf; lia).
  cbn [app xor_bytes zip_with length]. by replace (S (length x) - 1)%nat with (length x) by lia.
Qed.

Lemma xor_partial_suffix b n inp o rest n' : xor_partial b n inp = (o, rest, n') -> rest `suffix_of` inp.
Proof.
  revert n o. induction inp as [| x inp IH]; intros n o E; cbn [xor_partial] in E; [by injection E as _ <- _ |].
  destruct (n =? 0)%nat; [by injection E as _ <- _ |]. destruct (xor_partial b ((n + 1) mod 16) inp) as [[o1 r1] n1] eqn:E1. injection E as <- <- <-.
  apply suffix_cons_r. by eapply IH.
Qed.

Lemma ks_partial a n inp o rest n' :
  (n < 16)%nat -> xor_partial (buf a) n inp = (o, rest, n') ->
  run ks_step (a, n) inp = (let '(os, s) := run ks_step (a, n') rest in (o ++ os, s)) /\ (n' < 16)%nat /\ (rest = [] \/ n' = 0%nat) /\
  (length o + length rest = length inp)%nat.
Proof.
  revert n o. induction inp as [| b inp IH]; intros n o Hn E; cbn [xor_partial] in E.
  { injection E as <- <- <-. split_and!; [done | done | by left | done]. }
  destruct (Nat.eqb_spec n 0) as [-> | Hn0].
  { injection E as <- <- <-. split_and!; [by destruct (run ks_step (a, 0%nat) (b :: inp)) | done | by right | done]. }
  destruct (xor_partial (buf a) ((n + 1) mod 16) inp) as [[o1 r1] n1] eqn:E1. injection E as <- <- <-.
  destruct (IH _ _ (Nat.mod_upper_bound (n + 1) 16 ltac:(lia)) E1) as (Hrun & Hlt & Hor & Hlen). split_and!; [| done | done | cbn [length]; lia].
  cbn [run ks_step]. rewrite (proj2 (Nat.eqb_neq n 0)) by done. rewrite Hrun. by destruct (run ks_step (a, n1) r1).
Qed.

Lemma ks_tail a inp :
  Inv a -> (0 < length inp < 16)%nat -> run ks_step (a, 0%nat) inp = (xor_tail (buf (refill a)) 0 inp, (refill a, length inp)).
Proof.
  intros Ha Hl. rewrite ks_start, Nat.mod_small by (done || lia). destruct (Hinv a Ha) as (_ & Hbuf & _).
  unfold xor_tail. rewrite xor_map by (rewrite ?Hbuf; lia). by rewrite (take_ge inp).
Qed.

Lemma ks_block a x :
  Inv a -> length x = 16%nat -> bytes_ok x -> run ks_step (a, 0%nat) x = (xor16 x (buf (refill a)), (refill a, 0%nat)).
Proof.
  intros Ha Hx Hxo. destruct (Hinv a Ha) as (_ & Hbuf & Hok). rewrite ks_start, Hx, take_ge, xor16_eq by (done || lia). done.
Qed.

(** The three loops of the stream modes. *)
Fixpoint ks_blocks (fuel : nat) (a : A) (n : nat) (inp : bytes) : bytes * bytes * (A * nat) :=
  match fuel with
  | O => ([], inp, (a, n))
  | S fuel =>
      if (16 <=? length inp)%nat then
        let '(out, rest, s) := ks_blocks fuel (refill a) 0 (drop 16 inp) in
        (xor16 (take 16 inp) (buf (refill a)) ++ out, rest, s)
      else ([], inp, (a, n))
  end.

Definition ks_encrypt (a : A) (n : nat) (inp : bytes) : bytes * (A * nat) :=
  let '(out1, inp, n) := xor_partial (buf a) n inp in
  let '(out2, inp, (a, n)) := ks_blocks (length inp) a n inp in
  if (length inp =? 0)%nat then (out1 ++ out2, (a, n))
  else (out1 ++ out2 ++ xor_tail (buf (refill a)) n inp, (refill a, n + length inp)%nat).

Lemma ks_blocks_run fuel a n inp o rest a' n' :
  Inv a -> bytes_ok inp -> (inp = [] \/ n = 0%nat) -> (length inp <= fuel)%nat -> ks_blocks fuel a n inp = (o, rest, (a', n')) ->
  run ks_step (a, n) inp = (let '(os, s) := run ks_step (a', n') rest in (o ++ os, s)) /\
  Inv a' /\ (length rest < 16)%nat /\ (rest = [] \/ n' = 0%nat).
Proof.
  revert a n inp o. induction fuel as [| fuel IH]; intros a n inp o Ha Hok Hn Hf E; cbn [ks_blocks] in E.
  { injection E as <- <- <- <-. destruct inp; [| cbn in Hf; lia]. split_and!; [done | done | cbn; lia | by left]. }
  destruct (Nat.leb_spec 16 (length inp)) as [Hl | Hl].
  2: { injection E as <- <- <- <-. split_and!; [by destruct (run ks_step (a, n) inp) | done | done | done]. }
  destruct Hn as [-> | ->]; [cbn in Hl; lia |]. destruct (ks_blocks fuel (refill a) 0 (drop 16 inp)) as [[o1 r1] [a1 n1]] eqn:E1. injection E as <- <- <- <-.
  destruct (Hinv a Ha) as (Ha' & _ & _).
  destruct (IH (refill a) 0%nat (drop 16 inp) o1 Ha' ltac:(auto with bytes_db) ltac:(by right) ltac:(rewrite length_drop; lia) E1) as (Hrun & Hrest).
  split; [| done]. rewrite <- (take_drop 16 inp) at 1. rewrite run_app, ks_block by (done || (rewrite length_take; lia) || auto with bytes_db). rewrite Hrun.
  destruct (run ks_step (a1, n1) r1). by rewrite app_assoc.
Qed.

Lemma ks_encrypt_run a n inp : Inv a -> (n < 16)%nat -> bytes_ok inp -> ks_encrypt a n inp = run ks_step (a, n) inp.
Proof.
  intros Ha Hn Hok. unfold ks_encrypt. destruct (xor_partial (buf a) n inp) as [[o1 r1] n1] eqn:E1.
  destruct (ks_partial a n inp o1 r1 n1 Hn E1) as (-> & Hn1 & Hor1 & Hlen).
  assert (bytes_ok r1) as Hok1 by (apply (bytes_ok_suffix r1 inp); [eapply xor_partial_suffix; exact E1 | done]).
  destruct (ks_blocks (length r1) a n1 r1) as [[o2 r2] [a2 n2]] eqn:E2.
  destruct (ks_blocks_run _ _ _ _ _ _ _ _ Ha Hok1 Hor1 (Nat.le_refl _) E2) as (-> & Ha2 & Hl2 & Hor2).
  destruct (Nat.eqb_spec (length r2) 0) as [H0 | H0].
  - apply nil_length_inv in H0 as ->. cbn [run]. by rewrite app_nil_r.
  - destruct Hor2 as [-> | ->]; [done |]. rewrite ks_tail by (done || lia). done.
Qed.
(** The stream modes are their own inverse. *)
Lemma ks_inverse s x : run ks_step s (fst (run ks_step s x)) = (x, snd (run ks_step s x)).
Proof.
  revert s. induction x as [| b x IH]; intros s; [done |]. cbn [run]. destruct (ks_step s b) as [o s1] eqn:E1. specialize (IH s1).
  destruct (run ks_step s1 x) as [os s2]. cbn [fst snd run] in IH |- *. assert (ks_step s o = (b, s1)) as ->; [| by rewrite IH].
  destruct s as [a n]. unfold ks_step in *. injection E1 as <- <-. by rewrite Z.lxor_assoc, Z.lxor_nilpotent, Z.lxor_0_r.
Qed.
End Keystream.

(** ** Counters *)

Lemma inc_loop_spec bs : bytes_ok bs ->
  let '(r, c) := inc_loop bs in
  length r = length bs /\ bytes_ok r /\ 0 <= c <= 1 /\ be_value r + c * 256 ^ len bs = be_value bs + 1.
Proof.
  unfold inc_loop. induction bs as [| b bs IH]; intros Hok.
  { cbn [foldr length]. change (be_value []) with 0. change (256 ^ len []) with 1. split_and!; [done | apply bytes_ok_nil | lia | lia | lia]. }
  apply bytes_ok_cons in Hok as [Hb Hok]. specialize (IH Hok). cbn [foldr]. destruct (foldr _ _ bs) as [r c]. destruct IH as (Hl & Hr & Hc & Hv).
  unfold byte_ok in Hb. cbn [length]. rewrite Z.shiftr_div_pow2 by lia. change (2 ^ 8) with 256.
  split_and!; [by rewrite Hl | apply bytes_ok_cons; split; [auto with bytes_db | done] | Z.div_mod_to_equations; lia | Z.div_mod_to_equations; lia |].
  rewrite !be_value_cons, len_cons. unfold len at 1. rewrite Hl. fold (len bs). pose proof (len_nonneg bs). rewrite Z.pow_add_r, Z.pow_1_r by lia.
  unfold wrap. change (2 ^ 8) with 256. pose proof (Z.div_mod (c + b) 256 ltac:(lia)) as Hdm. nia.
Qed.

(** A counter of [n] bytes is a number modulo [256 ^ n]. *)
Definition counter (n : nat) (v : Z) : bytes := be_bytes n v.

Lemma counter_value bs : bytes_ok bs -> counter (length bs) (be_value bs) = bs.
Proof. apply be_bytes_value. Qed.

Lemma be_bytes_mod n v : be_bytes n (v mod 256 ^ Z.of_nat n) = be_bytes n v.
Proof.
  apply be_value_inj; [auto with bytes_db | auto with bytes_db | by rewrite !length_be_bytes |]. rewrite !be_value_bytes. by rewrite Z.mod_mod by lia.
Qed.

Lemma inc_loop_counter n v : fst (inc_loop (counter n v)) = counter n (v + 1).
Proof.
  unfold counter. pose proof (inc_loop_spec (be_bytes n v) (be_bytes_ok n v)) as H. destruct (inc_loop (be_bytes n v)) as [r c]. destruct H as (Hl & Hr & Hc & Hv).
  cbn [fst]. rewrite length_be_bytes in Hl. rewrite <- (be_bytes_value r Hr), Hl, <- (be_bytes_mod n (be_value r)), <- (be_bytes_mod n (v + 1)). f_equal.
  unfold len in Hv. rewrite length_be_bytes, be_value_bytes in Hv.
  rewrite <- (Z.add_mod_idemp_l v) by lia. rewrite <- Hv. by rewrite Z.mod_add by lia.
Qed.

Lemma ctr128_inc_counter v : ctr128_inc (counter 16 v) = counter 16 (v + 1).
Proof. apply inc_loop_counter. Qed.

Section StreamModes.
Context (block : bytes -> bytes) `{HB : BlockCipher block}.

Definition is_block (x : bytes) : Prop := length x = 16%nat /\ bytes_ok x.

Lemma block_is_block x : is_block x -> is_block (block x).
Proof. intros [Hl Ho]. split; [by apply block_length | by apply block_ok]. Qed.

Lemma ctr128_inc_block x : is_block x -> is_block (ctr128_inc x).
Proof.
  intros [Hl Ho]. pose proof (inc_loop_spec x Ho) as H. unfold ctr128_inc. destruct (inc_loop x) as [r c]. destruct H as (H1 & H2 & _).
  split; [cbn [fst]; lia | done].
Qed.

Definition ctr_refill (a : bytes * bytes) : bytes * bytes := (ctr128_inc (fst a), block (fst a)).

(** CTR, byte by byte: a new block of key stream when the last one is used up. *)
Definition ctr_stream (s : ctr_state) (inp : bytes) : bytes * ctr_state :=
  let '(out, (a, n)) := run (ks_step ctr_refill snd) ((ctr_ivec s, ecount_buf s), ctr_num s) inp in
  (out, mk_ctr (fst a) (snd a) n).

Lemma ctr_blocks_ks fuel iv e n inp :
  ctr_blocks block fuel (mk_ctr iv e n) inp =
  let '(out, rest, (a, n)) := ks_blocks ctr_refill snd fuel (iv, e) n inp in (out, rest, mk_ctr (fst a) (snd a) n).
Proof.
  revert iv e n inp. induction fuel as [| fuel IH]; intros iv e n inp; [done |]. cbn [ctr_blocks ks_blocks ctr_ivec].
  destruct (16 <=? length inp)%nat; [| done]. rewrite IH. unfold ctr_refill. cbn [fst snd].
  by destruct (ks_blocks _ _ _ _ _ _) as [[o r] [a k]].
Qed.

Lemma ctr_refill_inv a : is_block (fst a) ->
  is_block (fst (ctr_refill a)) /\ length (snd (ctr_refill a)) = 16%nat /\ bytes_ok (snd (ctr_refill a)).
Proof. intros H. split; [by apply ctr128_inc_block | apply (block_is_block _ H)]. Qed.

Lemma ctr128_encrypt_stream s inp :
  is_block (ctr_ivec s) -> (ctr_num s < 16)%nat -> bytes_ok inp -> CRYPTO_ctr128_encrypt block s inp = ctr_stream s inp.
Proof.
  intros Hi Hn Hok. unfold ctr_stream. rewrite <- (ks_encrypt_run ctr_refill snd (fun a => is_block (fst a)) ctr_refill_inv) by done.
  unfold CRYPTO_ctr128_encrypt, ks_encrypt. cbn [snd]. destruct (xor_partial _ _ inp) as [[o1 r1] n1]. rewrite ctr_blocks_ks.
  destruct (ks_blocks _ _ _ _ _ _) as [[o2 r2] [[iv e] n2]]. cbn [fst snd ctr_ivec ctr_num]. by destruct (length r2 =? 0)%nat.
Qed.

(** OFB, byte by byte. *)
Definition ofb_stream (s : ofb_state) (inp : bytes) : bytes * ofb_state :=
  let '(out, (iv, n)) := run (ks_step block id) (ofb_ivec s, ofb_num s) inp in (out, mk_ofb iv n).

Lemma ofb_blocks_ks fuel iv n inp :
  ofb_blocks block fuel (mk_ofb iv n) inp =
  let '(out, rest, (iv, n)) := ks_blocks block id fuel iv n inp in (out, rest, mk_ofb iv n).
Proof.
  revert iv n inp. induction fuel as [| fuel IH]; intros iv n inp; [done |]. cbn [ofb_blocks ks_blocks ofb_ivec].
  destruct (16 <=? length inp)%nat; [| done]. rewrite IH. by destruct (ks_blocks _ _ _ _ _ _) as [[o r] [a k]].
Qed.

Lemma ofb128_encrypt_stream s inp :
  is_block (ofb_ivec s) -> (ofb_num s < 16)%nat -> bytes_ok inp -> CRYPTO_ofb128_encrypt block s inp = ofb_stream s inp.
Proof.
  intros Hi Hn Hok. unfold ofb_stream.
  rewrite <- (ks_encrypt_run block id is_block) by (done || (intros a Ha; split; [by apply block_is_block | apply (block_is_block a Ha)])).
  unfold CRYPTO_ofb128_encrypt, ks_encrypt. unfold id at 1. destruct (xor_partial _ _ inp) as [[o1 r1] n1]. rewrite ofb_blocks_ks.
  destruct (ks_blocks _ _ _ _ _ _) as [[o2 r2] [iv n2]]. cbn [ofb_ivec ofb_num]. by destruct (length r2 =? 0)%nat.
Qed.
End StreamModes.

(** ** The 32-bit counter *)

Lemma load_u32_be bs : length bs = 4%nat -> bytes_ok bs -> CRYPTO_load_u32_be bs = be_value bs.
Proof.
  intros Hl Hok. destruct bs as [| a [| b [| c [| d [| ? ?]]]]]; try done. unfold CRYPTO_load_u32_be.
  change (reverse [a; b; c; d]) with [d; c; b; a]. apply bswap4_bytes. apply (bytes_ok_reverse [a; b; c; d] Hok).
Qed.

Lemma store_u32_be v : fits 32 v -> CRYPTO_store_u32_be v = be_bytes 4 v.
Proof.
  intros Hv. unfold CRYPTO_store_u32_be. pose proof (be_bytes_ok 4 v) as Hok. pose proof (length_be_bytes 4 v) as Hl. pose proof (be_value_bytes 4 v) as Hval.
  rewrite Z.mod_small in Hval by (unfold fits in Hv; change (256 ^ Z.of_nat 4) with (2 ^ 32); lia). rewrite <- Hval at 1.
  destruct (be_bytes 4 v) as [| a [| b [| c [| d [| ? ?]]]]]; try done. rewrite bswap4_bytes by done.
  change 4%nat with (length [d; c; b; a]). rewrite be_bytes_value; [done |]. apply (bytes_ok_reverse [a; b; c; d] Hok).
Qed.

Lemma counter_split n k v : counter (n + k) v = counter n (v / 256 ^ Z.of_nat k) ++ counter k v.
Proof.
  unfold counter. apply be_value_inj; [auto with bytes_db | rewrite bytes_ok_app; auto with bytes_db | rewrite length_app, !length_be_bytes; done |].
  rewrite be_value_app, !be_value_bytes. unfold len. rewrite length_be_bytes, Nat2Z.inj_add, Z.pow_add_r by lia.
  set (A := 256 ^ Z.of_nat n). set (B := 256 ^ Z.of_nat k). assert (0 < A) by (apply Z.pow_pos_nonneg; lia). assert (0 < B) by (apply Z.pow_pos_nonneg; lia).
  rewrite (Z.mul_comm A B), Z.rem_mul_r by lia. lia.
Qed.

Lemma counter_congr n u v : u mod 256 ^ Z.of_nat n = v mod 256 ^ Z.of_nat n -> counter n u = counter n v.
Proof. intros H. unfold counter. rewrite <- (be_bytes_mod n u), <- (be_bytes_mod n v). by rewrite H. Qed.

(** The upper 96 and the lower 32 bits. *)
Lemma counter_hi_lo v : counter 16 v = counter 12 (v / 2 ^ 32) ++ counter 4 (v mod 2 ^ 32).
Proof.
  rewrite (counter_split 12 4). change (256 ^ Z.of_nat 4) with (2 ^ 32). f_equal. apply counter_congr. change (256 ^ Z.of_nat 4) with (2 ^ 32).
  by rewrite Z.mod_mod.
Qed.

Lemma take_counter v : take 12 (counter 16 v) = counter 12 (v / 2 ^ 32).
Proof. rewrite counter_hi_lo. apply take_app_length'. symmetry. apply length_be_bytes. Qed.

Lemma drop_counter v : drop 12 (counter 16 v) = counter 4 (v mod 2 ^ 32).
Proof. rewrite counter_hi_lo. apply drop_app_length'. symmetry. apply length_be_bytes. Qed.

(** Adding [b] to a counter without passing [2 ^ 32] in the lower word, but perhaps reaching it. *)
Lemma set_ctr32_spec v b :
  0 < b -> v mod 2 ^ 32 + b <= 2 ^ 32 -> set_ctr32 (counter 16 v) ((v + b) mod 2 ^ 32) = counter 16 (v + b).
Proof.
  intros Hb Hc. unfold set_ctr32. rewrite store_u32_be by (apply Z.mod_pos_bound; lia). unfold store. rewrite length_be_bytes, take_counter.
  rewrite (drop_ge (counter 16 v)), app_nil_r by (unfold counter; rewrite length_be_bytes; lia). fold (counter 4 ((v + b) mod 2 ^ 32)).
  rewrite (counter_hi_lo (v + b)). pose proof (Z.div_mod v (2 ^ 32) ltac:(lia)) as Hdm. pose proof (Z.mod_pos_bound v (2 ^ 32) ltac:(lia)).
  destruct (Z.eqb_spec ((v + b) mod 2 ^ 32) 0) as [H0 | H0].
  - assert ((v + b) / 2 ^ 32 = v / 2 ^ 32 + 1) as ->.
    { apply Z.mod_divide in H0 as [q Hq]; [| lia]. rewrite Hq, Z.div_mul by lia. nia. }
    unfold ctr96_inc. rewrite take_app_length', drop_app_length' by (symmetry; apply length_be_bytes). by rewrite inc_loop_counter.
  - f_equal. f_equal. apply (Z.div_unique_pos _ _ _ (v mod 2 ^ 32 + b)); [| lia]. split; [lia |].
    destruct (Z.eq_dec (v mod 2 ^ 32 + b) (2 ^ 32)) as [E | E]; [| lia]. exfalso. apply H0.
    replace (v + b) with ((v / 2 ^ 32 + 1) * 2 ^ 32) by lia. by rewrite Z.mod_mul.
Qed.

Section Ctr32.
Context (block : bytes -> bytes) `{HB : BlockCipher block} (func : bytes -> Z -> bytes -> bytes).

(** What the function of type [ctr128_f] does: CTR with the lower 32 bits of the counter. *)
Class Ctr32 : Prop := ctr32_func inp n ivec :
  (16 * n <= length inp)%nat -> is_block ivec ->
  func inp (Z.of_nat n) ivec = xor_bytes (take (16 * n) inp)
    (concat (map (fun i => block (take 12 ivec ++ be_bytes 4 (be_value (drop 12 ivec) + Z.of_nat i))) (seq 0 n))).

(** The key stream of [n] blocks from the counter [v]. *)
Definition ctr_ks (v : Z) (n : nat) : bytes := concat (map (fun i => block (counter 16 (v + Z.of_nat i))) (seq 0 n)).

Lemma counter_is_block v : is_block (counter 16 v).
Proof. split; [apply length_be_bytes | apply be_bytes_ok]. Qed.

Lemma ctr_ks_S v n : ctr_ks v (S n) = block (counter 16 v) ++ ctr_ks (v + 1) n.
Proof.
  unfold ctr_ks. cbn [seq map concat]. rewrite Z.add_0_r, <- seq_shift, map_map. do 2 f_equal. apply map_ext. intros i. do 2 f_equal. lia.
Qed.

Lemma ctr_ks_length v n : length (ctr_ks v n) = (16 * n)%nat.
Proof.
  revert v. induction n as [| n IH]; intros v; [done |]. rewrite ctr_ks_S, length_app, IH. destruct (block_is_block block _ (counter_is_block v)) as [-> _]. lia.
Qed.

Lemma ctr_ks_app v n k : ctr_ks v (n + k) = ctr_ks v n ++ ctr_ks (v + Z.of_nat n) k.
Proof.
  revert v. induction n as [| n IH]; intros v; [by rewrite Z.add_0_r |]. cbn [Nat.add]. rewrite !ctr_ks_S, IH, <- app_assoc. do 3 f_equal. lia.
Qed.

Lemma ctr_run_blocks v e n x :
  length x = (16 * n)%nat -> bytes_ok x ->
  exists e', run (ks_step (ctr_refill block) snd) ((counter 16 v, e), 0%nat) x = (xor_bytes x (ctr_ks v n), ((counter 16 (v + Z.of_nat n), e'), 0%nat)).
Proof.
  revert v e x. induction n as [| n IH]; intros v e x Hx Ho; [destruct x; [| done]; exists e; cbn [run]; by rewrite Z.add_0_r |].
  rewrite <- (take_drop 16 x), run_app. assert (length (take 16 x) = 16%nat) as Ht by (rewrite length_take; lia).
  rewrite (ks_start (ctr_refill block) snd (fun a => is_block (fst a)) (ctr_refill_inv block)) by (apply counter_is_block || lia).
  rewrite Ht. change (16 mod 16)%nat with 0%nat.
  assert (ctr_refill block (counter 16 v, e) = (counter 16 (v + 1), block (counter 16 v))) as -> by (unfold ctr_refill; cbn [fst]; by rewrite ctr128_inc_counter).
  destruct (IH (v + 1) (block (counter 16 v)) (drop 16 x) ltac:(rewrite length_drop; lia) ltac:(auto with bytes_db)) as (e' & E).
  rewrite E. exists e'. cbn [snd]. destruct (block_is_block block _ (counter_is_block v)) as [Hb _].
  rewrite ctr_ks_S, xor_app, (take_ge (block _)) by lia. by replace (v + Z.of_nat (S n)) with (v + 1 + Z.of_nat n) by lia.
Qed.

Context `{HF : Ctr32}.

Lemma ctr32_call v inp n :
  (16 * n <= length inp)%nat -> v mod 2 ^ 32 + Z.of_nat n <= 2 ^ 32 ->
  func inp (Z.of_nat n) (counter 16 v) = xor_bytes (take (16 * n) inp) (ctr_ks v n).
Proof.
  intros Hn Hc. rewrite ctr32_func by (done || apply counter_is_block). f_equal. unfold ctr_ks. f_equal. apply map_ext_in. intros i [_ Hi]%in_seq. f_equal.
  rewrite take_counter, drop_counter. unfold counter at 2. rewrite be_value_bytes. change (256 ^ Z.of_nat 4) with (2 ^ 32). rewrite Z.mod_mod by lia.
  rewrite (counter_hi_lo (v + Z.of_nat i)). pose proof (Z.div_mod v (2 ^ 32) ltac:(lia)). pose proof (Z.mod_pos_bound v (2 ^ 32) ltac:(lia)).
  f_equal.
  - f_equal. apply (Z.div_unique_pos _ _ _ (v mod 2 ^ 32 + Z.of_nat i)); lia.
  - unfold counter. f_equal. apply (Z.mod_unique_pos _ _ (v / 2 ^ 32)); lia.
Qed.

(** The blocks of a call and the new lower word. *)
Lemma ctr32_limit c k :
  0 <= c < 2 ^ 32 -> 1 <= k ->
  let blocks := if k >? 2 ^ 28 then 2 ^ 28 else k in
  let ctr32 := u32 (c + u32 blocks) in
  let '(blocks, ctr32) := if ctr32 <? blocks then (blocks - ctr32, 0) else (blocks, ctr32) in
  1 <= blocks <= k /\ c + blocks <= 2 ^ 32 /\ ctr32 = (c + blocks) mod 2 ^ 32.
Proof.
  intros Hc Hk. cbv zeta. set (b := if k >? 2 ^ 28 then 2 ^ 28 else k).
  assert (1 <= b <= k /\ b <= 2 ^ 28) as [Hb Hb28] by (unfold b; rewrite Z.gtb_ltb; destruct (Z.ltb_spec (2 ^ 28) k); lia). clearbody b.
  rewrite (wrap_id 32 b) by (unfold fits; lia). unfold wrap. destruct (Z.lt_ge_cases (c + b) (2 ^ 32)) as [Hlt | Hge].
  - rewrite Z.mod_small by lia. destruct (Z.ltb_spec (c + b) b); [| split_and!; try lia; by rewrite Z.mod_small by lia].
    lia.
  - assert ((c + b) mod 2 ^ 32 = c + b - 2 ^ 32) as -> by (symmetry; apply (Z.mod_unique_pos _ _ 1); lia).
    destruct (Z.ltb_spec (c + b - 2 ^ 32) b); [| lia]. split_and!; try lia. replace (c + (b - (c + b - 2 ^ 32))) with (1 * 2 ^ 32) by lia. by rewrite Z.mod_mul by lia.
Qed.

Lemma ctr32_blocks_spec fuel v inp :
  (length inp <= fuel)%nat ->
  let n := (length inp / 16)%nat in
  ctr32_blocks func fuel (counter 16 v) (v mod 2 ^ 32) inp =
  (xor_bytes (take (16 * n) inp) (ctr_ks v n), drop (16 * n) inp, counter 16 (v + Z.of_nat n), (v + Z.of_nat n) mod 2 ^ 32).
Proof.
  revert v inp. induction fuel as [| fuel IH]; intros v inp Hf; cbv zeta.
  { destruct inp; [| cbn in Hf; lia]. cbn. by rewrite Z.add_0_r. }
  cbn [ctr32_blocks]. destruct (Nat.leb_spec 16 (length inp)) as [Hl | Hl].
  2: { rewrite Nat.div_small by lia. cbn [Nat.mul take]. by rewrite Z.add_0_r. }
  assert (len inp / 16 = Z.of_nat (length inp / 16)) as -> by (unfold len; by rewrite Nat2Z.inj_div). set (k := (length inp / 16)%nat).
  assert (1 <= k)%nat as Hk by (apply (Nat.div_le_lower_bound _ 16 1); lia). pose proof (Nat.Div0.mul_div_le (length inp) 16) as Hkl. fold k in Hkl.
  pose proof (ctr32_limit (v mod 2 ^ 32) (Z.of_nat k) (Z.mod_pos_bound v (2 ^ 32) ltac:(lia)) ltac:(lia)) as Hlim. cbv zeta in Hlim |- *.
  destruct (if u32 (_ + _) <? _ then _ else _) as [bl c'] eqn:E in Hlim |- *. clear E. destruct Hlim as (Hbl & Hc & ->).
  assert (exists b, bl = Z.of_nat b) as (b & ->) by (exists (Z.to_nat bl); lia). rewrite Z.add_mod_idemp_l by lia. rewrite set_ctr32_spec by lia.
  replace (Z.to_nat (Z.of_nat b * 16)) with (16 * b)%nat by lia. rewrite ctr32_call by lia. rewrite IH by (rewrite length_drop; lia). rewrite length_drop.
  assert ((length inp - 16 * b) / 16 = k - b)%nat as ->.
  { unfold k. replace (length inp) with ((length inp - 16 * b) + b * 16)%nat at 2 by lia. rewrite Nat.div_add by lia. lia. }
  replace k with (b + (k - b))%nat by lia. set (d := (k - b)%nat). rewrite ctr_ks_app. replace (b + d - b)%nat with d by lia.
  rewrite drop_drop. replace (16 * (b + d))%nat with (16 * b + 16 * d)%nat by lia.
  replace (v + Z.of_nat (b + d)) with (v + Z.of_nat b + Z.of_nat d) by lia. do 3 f_equal.
  assert (take (16 * b + 16 * d) inp = take (16 * b) inp ++ take (16 * d) (drop (16 * b) inp)) as ->.
  { rewrite <- (take_drop (16 * b) (take (16 * b + 16 * d) inp)). rewrite take_take, Nat.min_l by lia. f_equal. rewrite skipn_firstn_comm. f_equal. lia. }
  rewrite xor_app; [done |]. rewrite length_take, ctr_ks_length. unfold d in *. lia.
Qed.

(** A block of key stream that is used up does not matter. *)
Definition ctr_equiv (s s' : ctr_state) : Prop :=
  ctr_ivec s = ctr_ivec s' /\ ctr_num s = ctr_num s' /\ (ctr_num s <> 0%nat -> ecount_buf s = ecount_buf s').

Lemma is_block_counter iv : is_block iv -> iv = counter 16 (be_value iv).
Proof. intros [Hl Hok]. rewrite <- Hl. symmetry. by apply counter_value. Qed.

(** The rounds from the start of a block. *)
Lemma ctr_run_start v e x :
  bytes_ok x ->
  let n := (length x / 16)%nat in
  let rest := drop (16 * n) x in
  exists e', run (ks_step (ctr_refill block) snd) ((counter 16 v, e), 0%nat) x =
    if (length rest =? 0)%nat then (xor_bytes (take (16 * n) x) (ctr_ks v n), ((counter 16 (v + Z.of_nat n), e'), 0%nat))
    else (xor_bytes (take (16 * n) x) (ctr_ks v n) ++ xor_tail (block (counter 16 (v + Z.of_nat n))) 0 rest,
          ((counter 16 (v + Z.of_nat n + 1), block (counter 16 (v + Z.of_nat n))), length rest)).
Proof.
  intros Hok. cbv zeta. set (n := (length x / 16)%nat). pose proof (Nat.div_mod_eq (length x) 16) as Hdm. pose proof (Nat.mod_upper_bound (length x) 16 ltac:(lia)). fold n in Hdm.
  destruct (ctr_run_blocks v e n (take (16 * n) x) ltac:(rewrite length_take; lia) ltac:(auto with bytes_db)) as (e' & E). exists e'.
  rewrite <- (take_drop (16 * n) x) at 1. rewrite run_app, E. destruct (Nat.eqb_spec (length (drop (16 * n) x)) 0) as [H0 | H0].
  - apply nil_length_inv in H0 as ->. cbn [run]. by rewrite app_nil_r.
  - rewrite (ks_tail (ctr_refill block) snd (fun a => is_block (fst a)) (ctr_refill_inv block)) by (apply counter_is_block || (rewrite length_drop in *; lia)).
    unfold ctr_refill. cbn [fst snd]. by rewrite ctr128_inc_counter.
Qed.

Lemma ctr32_stream s inp :
  is_block (ctr_ivec s) -> (ctr_num s < 16)%nat -> bytes_ok inp ->
  fst (CRYPTO_ctr128_encrypt_ctr32 func s inp) = fst (ctr_stream block s inp) /\
  ctr_equiv (snd (CRYPTO_ctr128_encrypt_ctr32 func s inp)) (snd (ctr_stream block s inp)).
Proof.
  intros Hi Hn Hok. unfold CRYPTO_ctr128_encrypt_ctr32, ctr_stream. destruct s as [iv e n]. cbn [ctr_ivec ecount_buf ctr_num] in *.
  assert (exists v, iv = counter 16 v) as (v & ->) by (exists (be_value iv); by apply is_block_counter). clear Hi.
  destruct (xor_partial e n inp) as [[o1 r1] n1] eqn:E1. destruct (ks_partial (ctr_refill block) snd (counter 16 v, e) n inp o1 r1 n1 Hn E1) as (-> & Hn1 & Hor & _).
  assert (bytes_ok r1) as Hok1 by (apply (bytes_ok_suffix r1 inp); [eapply xor_partial_suffix; exact E1 | done]).
  assert (CRYPTO_load_u32_be (ld (counter 16 v) 12 4) = v mod 2 ^ 32) as ->.
  { rewrite load_u32_be by (apply length_ld, Nat.eq_le_incl, eq_sym, length_be_bytes || apply ld_bytes_ok, be_bytes_ok). unfold ld. rewrite drop_counter.
    rewrite take_ge by (apply Nat.eq_le_incl, length_be_bytes). unfold counter. rewrite be_value_bytes. change (256 ^ Z.of_nat 4) with (2 ^ 32). by rewrite Z.mod_mod. }
  rewrite ctr32_blocks_spec by done. set (k := (length r1 / 16)%nat). destruct (decide (r1 = [])) as [-> | Hne].
  { unfold k. cbn. rewrite Z.add_0_r. split; [done |]. split_and!; done. }
  destruct Hor as [? | ->]; [done |]. destruct (ctr_run_start v e r1 Hok1) as (e' & ->). fold k. destruct (Nat.eqb_spec (length (drop (16 * k) r1)) 0) as [H0 | H0].
  - cbn [fst snd]. split; [done |]. unfold ctr_equiv. cbn. split_and!; done.
  - assert (func (replicate 16 0) 1 (counter 16 (v + Z.of_nat k)) = block (counter 16 (v + Z.of_nat k))) as ->.
    { change 1 with (Z.of_nat 1). rewrite ctr32_call by (done || (pose proof (Z.mod_pos_bound (v + Z.of_nat k) (2 ^ 32) ltac:(lia)); lia)).
      destruct (block_is_block block _ (counter_is_block (v + Z.of_nat k))) as [Hb _]. unfold ctr_ks. cbn [seq map concat]. rewrite app_nil_r, Z.add_0_r.
      change (take (16 * 1) (replicate 16 0)) with (replicate 16 0). rewrite <- Hb at 1. apply xor_zeros. }
    cbn [fst snd]. split; [done |]. unfold ctr_equiv. cbn [ctr_ivec ctr_num ecount_buf]. unfold wrap. rewrite Z.add_mod_idemp_l by lia.
    rewrite set_ctr32_spec by (pose proof (Z.mod_pos_bound (v + Z.of_nat k) (2 ^ 32) ltac:(lia)); lia). split_and!; done.
Qed.
End Ctr32.

(** ** CFB *)

Section Cfb.
Context (block : bytes -> bytes) `{HB : BlockCipher block}.

(** CFB, byte by byte. *)
Definition cfb_step (enc : bool) (s : cfb_state) (c : Z) : Z * cfb_state :=
  let iv := if (cfb_num s =? 0)%nat then block (cfb_ivec s) else cfb_ivec s in
  let '(o, iv) := cfb_byte enc iv (cfb_num s) c in
  (o, mk_cfb iv ((cfb_num s + 1) mod 16)).

(** The register after the bytes [x] with the output [out]. *)
Definition feedback (enc : bool) (out x : bytes) : bytes := if enc then out else x.

Lemma store_bytes_snoc m p x b : (p + length x < length m)%nat -> store (store m p x) (p + length x) [b] = store m p (x ++ [b]).
Proof. intros. apply store_app. cbn. lia. Qed.

Lemma cfb_inside enc iv k x :
  length iv = 16%nat -> (0 < k < 16)%nat -> (k + length x <= 16)%nat ->
  let out := xor_bytes (ld iv k (length x)) x in
  run (cfb_step enc) (mk_cfb iv k) x = (out, mk_cfb (store iv k (feedback enc out x)) ((k + length x) mod 16)).
Proof.
  revert iv k. induction x as [| c x IH]; intros iv k Hi Hk Hx; cbn [length] in Hx; cbv zeta.
  { cbn [run length]. rewrite Nat.add_0_r, Nat.mod_small by lia. change (ld iv k 0) with (@nil Z). cbn [xor_bytes zip_with]. by destruct enc; cbn [feedback]; rewrite store_nil. }
  cbn [run]. unfold cfb_step at 1. cbn [cfb_num cfb_ivec]. rewrite (proj2 (Nat.eqb_neq k 0)) by lia. unfold cfb_byte. cbn [length].
  rewrite (ld_split iv k (S (length x)) 1), <- byte_at_ld1 by lia. cbn [app xor_bytes zip_with]. replace (S (length x) - 1)%nat with (length x) by lia.
  set (o := Z.lxor (byte_at iv k) c). set (f := if enc then o else c). fold (xor_bytes (ld iv (k + 1) (length x)) x).
  assert (feedback enc (o :: xor_bytes (ld iv (k + 1) (length x)) x) (c :: x) = f :: feedback enc (xor_bytes (ld iv (k + 1) (length x)) x) x) as ->
    by (by destruct enc).
  destruct x as [| c' x].
  { cbn [run length]. change (ld iv (k + 1) 0) with (@nil Z). cbn [xor_bytes zip_with]. by destruct enc. }
  rewrite (Nat.mod_small (k + 1)) by (cbn in Hx; lia). assert (length (store iv k [f]) = 16%nat) as Hl by (rewrite length_store; cbn; lia).
  rewrite IH by (cbn [length] in *; done || lia). rewrite ld_store_after by (cbn [length] in *; lia).
  f_equal. f_equal; [| cbn [length]; f_equal; lia]. set (fb := feedback enc _ _).
  assert (length fb = length (c' :: x)) as Hfb by (unfold fb, feedback; destruct enc; [rewrite length_xor |]; rewrite ?length_ld; cbn [length] in *; lia).
  change (k + 1)%nat with (k + length [f])%nat. rewrite store_app by (cbn [length] in *; lia). done.
Qed.

Lemma cfb_start enc s x :
  is_block (cfb_ivec s) -> cfb_num s = 0%nat -> (0 < length x <= 16)%nat ->
  let iv := block (cfb_ivec s) in
  let out := xor_bytes (take (length x) iv) x in
  run (cfb_step enc) s x = (out, mk_cfb (store iv 0 (feedback enc out x)) ((length x) mod 16)).
Proof.
  destruct s as [iv0 n]. cbn [cfb_ivec cfb_num]. intros Hi -> Hx. cbv zeta. destruct (block_is_block block iv0 Hi) as [Hl _]. set (iv := block iv0) in *.
  destruct x as [| c x]; [cbn in Hx; lia |]. cbn [length] in Hx. cbn [run]. unfold cfb_step at 1. cbn [cfb_num cfb_ivec]. change (0 =? 0)%nat with true. cbv iota.
  change ((0 + 1) mod 16)%nat with 1%nat. fold iv. unfold cfb_byte. set (o := Z.lxor (byte_at iv 0) c). set (f := if enc then o else c).
  assert (length (store iv 0 [f]) = 16%nat) as Hl' by (rewrite length_store; cbn; lia). rewrite cfb_inside by (done || lia).
  rewrite ld_store_after by (cbn; lia). rewrite (take_ld iv). cbn [length].
  rewrite (ld_split iv 0 (S (length x)) 1), <- byte_at_ld1 by lia. cbn [app xor_bytes zip_with]. replace (S (length x) - 1)%nat with (length x) by lia. change (0 + 1)%nat with 1%nat.
  fold (xor_bytes (ld iv 1 (length x)) x). fold o. f_equal. cbn [length]. change (1 + length x)%nat with (S (length x)). f_equal. set (out := xor_bytes _ _).
  assert (length (feedback enc out x) = length x) as Hfb by (unfold feedback, out; destruct enc; [rewrite length_xor |]; rewrite ?length_ld; lia).
  transitivity (store (store iv 0 [f]) (0 + length [f]) (feedback enc out x)); [done |]. rewrite store_app by (cbn [length]; lia). by destruct enc.
Qed.

Lemma cfb_words_eq enc iv x :
  is_block iv -> (16 <= length x)%nat -> bytes_ok x ->
  let out := xor_bytes iv (take 16 x) in cfb_words enc iv 0 x = (out, feedback enc out (take 16 x)).
Proof.
  intros [Hl Hok] Hx Hxo. cbv zeta. unfold cfb_words. change (word_offsets 0) with [0%nat; 8%nat]. cbn [foldl]. cbv zeta. cbn [app].
  assert (forall off, (off + 8 <= 16)%nat -> is_block iv -> CRYPTO_store_word_le (Z.lxor (CRYPTO_load_word_le (ld iv off 8)) (CRYPTO_load_word_le (ld x off 8))) =
    xor_bytes (ld iv off 8) (ld x off 8)) as Hxw.
  { intros off Hoff _. apply (xor_word_eq (ld iv off 8) (ld x off 8)); try (apply length_ld; lia); by apply ld_bytes_ok. }
  assert (forall off, (off + 8 <= 16)%nat -> CRYPTO_store_word_le (if enc then Z.lxor (CRYPTO_load_word_le (ld iv off 8)) (CRYPTO_load_word_le (ld x off 8)) else CRYPTO_load_word_le (ld x off 8)) =
    feedback enc (xor_bytes (ld iv off 8) (ld x off 8)) (ld x off 8)) as Hfw.
  { intros off Hoff. destruct enc; [by apply Hxw |]. apply store_load_word; [apply length_ld; lia | by apply ld_bytes_ok]. }
  assert (forall off, (off + 8 <= 16)%nat -> length (feedback enc (xor_bytes (ld iv off 8) (ld x off 8)) (ld x off 8)) = 8%nat) as Hfl.
  { intros off Hoff. unfold feedback. destruct enc; [rewrite length_xor |]; rewrite ?length_ld; lia. }
  rewrite Hfw by lia. rewrite ld_store_after by (rewrite Hfl; lia). rewrite Hfw, !Hxw by (done || lia).
  assert (xor_bytes iv (take 16 x) = xor_bytes (ld iv 0 8) (ld x 0 8) ++ xor_bytes (ld iv 8 8) (ld x 8 8)) as ->.
  { rewrite <- xor_app by (rewrite !length_ld; lia). rewrite <- !ld_halves. by rewrite ld_all. }
  f_equal. transitivity (store (store iv 0 (feedback enc (xor_bytes (ld iv 0 8) (ld x 0 8)) (ld x 0 8))) (0 + 8) (feedback enc (xor_bytes (ld iv 8 8) (ld x 8 8)) (ld x 8 8))); [done |].
  rewrite (store_app_n _ _ _ _ _ (Hfl 0%nat ltac:(lia))) by (rewrite Hfl; lia). rewrite store_all by (rewrite length_app, !Hfl; lia).
  destruct enc; [done |]. cbn [feedback]. by rewrite <- ld_halves.
Qed.

Lemma length_feedback enc out x : length out = length x -> length (feedback enc out x) = length x.
Proof. by destruct enc. Qed.

Lemma feedback_ok enc out x : bytes_ok out -> bytes_ok x -> bytes_ok (feedback enc out x).
Proof. by destruct enc. Qed.

Lemma cfb_tail_eq enc iv x j :
  length iv = 16%nat -> (j <= length x)%nat -> (length x <= 16)%nat ->
  foldl (fun '(out, ivec) n => let '(o, ivec) := cfb_byte enc ivec n (byte_at x n) in (out ++ [o], ivec)) ([], iv) (seq 0 j) =
  let out := xor_bytes (take j iv) (take j x) in (out, store iv 0 (feedback enc out (take j x))).
Proof.
  intros Hi Hj Hx. cbv zeta. induction j as [| j IH]; [cbn [seq foldl take]; destruct enc; cbn [feedback xor_bytes zip_with]; by rewrite store_nil |].
  rewrite seq_S, foldl_app, IH by lia. cbn [foldl]. change (0 + j)%nat with j. unfold cfb_byte.
  set (out := xor_bytes (take j iv) (take j x)). assert (length out = j) as Ho by (unfold out; rewrite length_xor; rewrite !length_take; lia).
  assert (length (feedback enc out (take j x)) = j) as Hf by (rewrite length_feedback; rewrite ?length_take; lia).
  rewrite byte_at_store_apart by (rewrite Hf; lia || (right; lia)).
  assert (forall m : bytes, (j < length m)%nat -> take (S j) m = take j m ++ [byte_at m j]) as Htk.
  { intros m Hm. rewrite byte_at_ld1 by done. rewrite !take_ld, (ld_split m 0 (S j) j) by lia. by replace (S j - j)%nat with 1%nat by lia. }
  rewrite !Htk, xor_app by (rewrite ?length_take; lia). cbn [xor_bytes zip_with]. fold out. f_equal.
  transitivity (store (store iv 0 (feedback enc out (take j x))) (0 + j) [if enc then Z.lxor (byte_at iv j) (byte_at x j) else byte_at x j]); [done |].
  rewrite (store_app_n _ _ _ _ _ Hf) by (cbn; lia). by destruct enc.
Qed.

Definition cfb_ok (s : cfb_state) : Prop := is_block (cfb_ivec s) /\ (cfb_num s < 16)%nat.

Lemma cfb_byte_ok enc iv n c : is_block iv -> (n < 16)%nat -> byte_ok c -> is_block (snd (cfb_byte enc iv n c)).
Proof.
  intros [Hl Ho] Hn Hc. unfold cfb_byte. cbn [snd]. split; [rewrite length_store; cbn; lia |]. apply store_bytes_ok; [done |].
  apply bytes_ok_cons. split; [| apply bytes_ok_nil]. destruct enc; [| done]. change byte_ok with (fits 8). apply fits_lxor; [lia | | done].
  change (fits 8) with byte_ok. unfold byte_at. apply Forall_nth; [done | lia].
Qed.

Lemma cfb_step_ok enc s c : cfb_ok s -> byte_ok c -> cfb_ok (snd (cfb_step enc s c)).
Proof.
  intros [Hi Hn] Hc. unfold cfb_step. set (iv := if (cfb_num s =? 0)%nat then block (cfb_ivec s) else cfb_ivec s). assert (is_block iv) as Hiv by (unfold iv; destruct (_ =? _)%nat; [by apply block_is_block | done]).
  pose proof (cfb_byte_ok enc iv (cfb_num s) c Hiv Hn Hc) as H. destruct (cfb_byte enc iv (cfb_num s) c) as [o iv']. split; [done |]. cbn [snd cfb_num].
  apply Nat.mod_upper_bound. lia.
Qed.

Lemma cfb_run_ok enc s x : cfb_ok s -> bytes_ok x -> cfb_ok (snd (run (cfb_step enc) s x)).
Proof.
  revert s. induction x as [| c x IH]; intros s Hs Hx; [done |]. apply bytes_ok_cons in Hx as [Hc Hx]. cbn [run].
  pose proof (cfb_step_ok enc s c Hs Hc) as H. destruct (cfb_step enc s c) as [o s1]. specialize (IH s1 H Hx). by destruct (run (cfb_step enc) s1 x).
Qed.

Lemma cfb_partial_run enc iv n inp o rest s' :
  cfb_ok (mk_cfb iv n) -> bytes_ok inp -> cfb_partial enc iv n inp = (o, rest, s') ->
  run (cfb_step enc) (mk_cfb iv n) inp = (let '(os, s) := run (cfb_step enc) s' rest in (o ++ os, s)) /\ cfb_ok s' /\
  (rest = [] \/ cfb_num s' = 0%nat) /\ bytes_ok rest.
Proof.
  revert iv n o. induction inp as [| c inp IH]; intros iv n o Hs Hok E; cbn [cfb_partial] in E.
  { injection E as <- <- <-. split_and!; [done | exact Hs | by left | done]. }
  destruct (Nat.eqb_spec n 0) as [-> | Hn0].
  { injection E as <- <- <-. split_and!; [by destruct (run _ _ (c :: inp)) | exact Hs | by right | done]. }
  apply bytes_ok_cons in Hok as [Hc Hok]. pose proof (cfb_step_ok enc (mk_cfb iv n) c Hs Hc) as Hs1. cbn [run].
  unfold cfb_step in Hs1 |- * at 1. cbn [cfb_num cfb_ivec] in Hs1 |- *. rewrite (proj2 (Nat.eqb_neq n 0)) in Hs1 |- * by done.
  destruct (cfb_byte enc iv n c) as [b iv1]. destruct (cfb_partial enc iv1 ((n + 1) mod 16) inp) as [[o1 r1] s1] eqn:E1. injection E as <- <- <-.
  destruct (IH _ _ _ Hs1 Hok E1) as (-> & Hrest). split; [| done]. by destruct (run (cfb_step enc) s1 r1).
Qed.

Lemma cfb_blocks_run fuel enc s inp o rest s' :
  cfb_ok s -> bytes_ok inp -> (inp = [] \/ cfb_num s = 0%nat) -> (length inp <= fuel)%nat -> cfb_blocks block fuel enc s inp = (o, rest, s') ->
  run (cfb_step enc) s inp = (let '(os, s) := run (cfb_step enc) s' rest in (o ++ os, s)) /\ cfb_ok s' /\
  (length rest < 16)%nat /\ (rest = [] \/ cfb_num s' = 0%nat) /\ bytes_ok rest.
Proof.
  revert s inp o. induction fuel as [| fuel IH]; intros s inp o Hs Hok Hn Hf E; cbn [cfb_blocks] in E.
  { injection E as <- <- <-. destruct inp; [| cbn in Hf; lia]. split_and!; [done | exact Hs | cbn; lia | by left | done]. }
  destruct (Nat.leb_spec 16 (length inp)) as [Hl | Hl].
  2: { injection E as <- <- <-. split_and!; [by destruct (run _ s inp) | exact Hs | done | done | done]. }
  destruct Hn as [-> | Hn]; [cbn in Hl; lia |]. rewrite Hn in E. pose proof (block_is_block block _ (proj1 Hs)) as Hb. rewrite cfb_words_eq in E by done.
  assert (length (take 16 inp) = 16%nat) as Ht by (rewrite length_take; lia).
  pose proof (cfb_start enc s (take 16 inp) (proj1 Hs) Hn ltac:(lia)) as Hstart. cbv zeta in Hstart. rewrite Ht in Hstart. change (16 mod 16)%nat with 0%nat in Hstart.
  rewrite (take_ge (block _)) in Hstart by (destruct Hb; lia). set (out := xor_bytes (block (cfb_ivec s)) (take 16 inp)) in *.
  assert (length out = 16%nat) as Hout by (unfold out; rewrite length_xor; destruct Hb; lia).
  rewrite store_all in Hstart by (rewrite length_feedback; destruct Hb; lia). cbv zeta in E.
  destruct (cfb_blocks block fuel enc _ (drop 16 inp)) as [[o1 r1] s1] eqn:E1. injection E as <- <- <-.
  pose proof (cfb_run_ok enc s (take 16 inp) Hs ltac:(auto with bytes_db)) as Hs1. rewrite Hstart in Hs1. cbn [snd] in Hs1.
  destruct (IH _ (drop 16 inp) _ Hs1 ltac:(auto with bytes_db) ltac:(by right) ltac:(rewrite length_drop; lia) E1) as (Hrun & Hrest).
  split; [| done]. rewrite <- (take_drop 16 inp) at 1. rewrite run_app, Hstart, Hrun. destruct (run (cfb_step enc) s1 r1). by rewrite app_assoc.
Qed.

Lemma cfb128_encrypt_stream enc s inp :
  cfb_ok s -> bytes_ok inp -> CRYPTO_cfb128_encrypt block enc s inp = run (cfb_step enc) s inp.
Proof.
  intros Hs Hok. unfold CRYPTO_cfb128_encrypt. destruct s as [iv n]. cbn [cfb_ivec cfb_num].
  destruct (cfb_partial enc iv n inp) as [[o1 r1] s1] eqn:E1. destruct (cfb_partial_run enc iv n inp o1 r1 s1 Hs Hok E1) as (-> & Hs1 & Hor & Hok1).
  destruct (cfb_blocks block (length r1) enc s1 r1) as [[o2 r2] s2] eqn:E2.
  destruct (cfb_blocks_run _ enc s1 r1 o2 r2 s2 Hs1 Hok1 Hor (Nat.le_refl _) E2) as (-> & Hs2 & Hl2 & Hor2 & Hok2).
  destruct (Nat.eqb_spec (length r2) 0) as [H0 | H0].
  { apply nil_length_inv in H0 as ->. cbn [run]. by rewrite app_nil_r. }
  destruct Hor2 as [-> | Hn2]; [done |]. rewrite (cfb_start enc s2 r2 (proj1 Hs2) Hn2) by lia. rewrite Hn2. unfold cfb_tail.
  destruct (block_is_block block _ (proj1 Hs2)) as [Hb _]. rewrite (cfb_tail_eq enc (block (cfb_ivec s2)) r2 (length r2)) by (done || lia). cbv zeta.
  rewrite (take_ge r2) by done. by rewrite Nat.mod_small by lia.
Qed.

(** Decryption of the output from the same state gives the input and the same state. *)
Lemma cfb_inverse s x : run (cfb_step false) s (fst (run (cfb_step true) s x)) = (x, snd (run (cfb_step true) s x)).
Proof.
  revert s. induction x as [| c x IH]; intros s; [done |]. cbn [run]. destruct (cfb_step true s c) as [o s1] eqn:E1.
  specialize (IH s1). destruct (run (cfb_step true) s1 x) as [os s2]. cbn [fst snd run] in IH |- *.
  assert (cfb_step false s o = (c, s1)) as ->; [| by rewrite IH].
  unfold cfb_step, cfb_byte in *. injection E1 as <- <-. rewrite <- Z.lxor_assoc, Z.lxor_nilpotent, Z.lxor_0_l. done.
Qed.
End Cfb.

(** ** CFB with a feedback of one byte or one bit *)

Section Cfbr.
Context (block : bytes -> bytes) `{HB : BlockCipher block}.

Definition cfb8_step (enc : bool) (iv : bytes) (b : Z) : Z * bytes :=
  let o := Z.lxor b (byte_at (block iv) 0) in (o, drop 1 iv ++ [if enc then o else b]).

Lemma cfbr_block_8 enc b iv e :
  length iv = 16%nat -> cfbr_encrypt_block block enc [b] 8 iv e = let '(o, iv) := cfb8_step enc iv b in ([o], iv).
Proof.
  intros Hl. unfold cfbr_encrypt_block, cfb8_step. change ((8 <=? 0) || (8 >? 128)) with false. cbv iota zeta. change (8 mod 8 =? 0) with true. cbv iota.
  change (Z.to_nat ((8 + 7) / 8)) with 1%nat. change (Z.to_nat (8 / 8)) with 1%nat. cbn [seq map]. f_equal. unfold ld. rewrite drop_app_le by lia.
  rewrite take_app_ge by (rewrite length_drop; lia). rewrite length_drop, Hl. f_equal. by destruct enc.
Qed.

Lemma cfb8_run enc iv e inp : length iv = 16%nat -> CRYPTO_cfb128_8_encrypt block enc iv e inp = run (cfb8_step enc) iv inp.
Proof.
  intros Hl. unfold CRYPTO_cfb128_8_encrypt. assert (forall acc, foldl (fun '(out, ivec) b => let '(o, ivec) := cfbr_encrypt_block block enc [b] 8 ivec e in (out ++ o, ivec)) (acc, iv) inp =
    let '(out, iv) := run (cfb8_step enc) iv inp in (acc ++ out, iv)) as H; [| rewrite H; by destruct (run _ iv inp)].
  revert iv Hl. induction inp as [| b inp IH]; intros iv Hl acc; [cbn; by rewrite app_nil_r |]. cbn [foldl run]. rewrite cfbr_block_8 by done.
  unfold cfb8_step at 1 2. cbv zeta iota. rewrite IH by (rewrite length_app, length_drop; cbn; lia). destruct (run (cfb8_step enc) _ inp) as [o iv']. by rewrite <- app_assoc.
Qed.

Lemma cfb8_inverse s x : run (cfb8_step false) s (fst (run (cfb8_step true) s x)) = (x, snd (run (cfb8_step true) s x)).
Proof.
  revert s. induction x as [| c x IH]; intros s; [done |]. cbn [run]. destruct (cfb8_step true s c) as [o s1] eqn:E1.
  specialize (IH s1). destruct (run (cfb8_step true) s1 x) as [os s2]. cbn [fst snd run] in IH |- *.
  assert (cfb8_step false s o = (c, s1)) as ->; [| by rewrite IH].
  unfold cfb8_step in *. injection E1 as <- <-. by rewrite Z.lxor_assoc, Z.lxor_nilpotent, Z.lxor_0_r.
Qed.

(** The bits of a byte string, the most significant first. *)
Definition bit_at (bs : bytes) (n : nat) : bool := Z.testbit (byte_at bs (n / 8)) (7 - Z.of_nat (n mod 8)).

(** The register shifted by one bit. *)
Definition shift1 (iv : bytes) (b : bool) : bytes :=
  map (fun n => u8 (Z.lor (Z.shiftl (byte_at iv n) 1) (if (n <? 15)%nat then Z.shiftr (byte_at iv (n + 1)) 7 else Z.b2z b))) (seq 0 16).

Definition cfb1_step (enc : bool) (iv : bytes) (b : bool) : bool * bytes :=
  let o := xorb b (Z.testbit (byte_at (block iv) 0) 7) in (o, shift1 iv (if enc then o else b)).

Fixpoint run1 (enc : bool) (iv : bytes) (bits : list bool) : list bool * bytes :=
  match bits with
  | [] => ([], iv)
  | b :: bits =>
      let '(o, iv) := cfb1_step enc iv b in
      let '(os, iv) := run1 enc iv bits in
      (o :: os, iv)
  end.

Lemma run1_snoc enc iv bits b :
  run1 enc iv (bits ++ [b]) = let '(os, iv) := run1 enc iv bits in let '(o, iv) := cfb1_step enc iv b in (os ++ [o], iv).
Proof.
  revert iv. induction bits as [| x bits IH]; intros iv; cbn [app run1]; [by destruct (cfb1_step enc iv b) |].
  destruct (cfb1_step enc iv x) as [o iv1]. rewrite IH. destruct (run1 enc iv1 bits) as [os iv2]. by destruct (cfb1_step enc iv2 b).
Qed.

Lemma run1_inverse iv bits : run1 false iv (fst (run1 true iv bits)) = (bits, snd (run1 true iv bits)).
Proof.
  revert iv. induction bits as [| b bits IH]; intros iv; [done |]. cbn [run1]. destruct (cfb1_step true iv b) as [o iv1] eqn:E1.
  specialize (IH iv1). destruct (run1 true iv1 bits) as [os iv2]. cbn [fst snd run1] in IH |- *.
  assert (cfb1_step false iv o = (b, iv1)) as ->; [| by rewrite IH].
  unfold cfb1_step in *. injection E1 as <- <-. by rewrite xorb_assoc, xorb_nilpotent, xorb_false_r.
Qed.

Lemma shift1_block iv b : is_block (shift1 iv b).
Proof.
  unfold shift1. split; [by rewrite length_map, length_seq |]. apply Forall_map, Forall_forall. intros n _. apply byte_ok_wrap.
Qed.

Lemma top_bit x : byte_ok x -> Z.shiftr x 7 = Z.b2z (Z.testbit x 7).
Proof. intros H. apply Z.eqb_eq. revert x H. apply byte_forall. vm_compute. reflexivity. Qed.

Lemma byte_at_ok bs i : bytes_ok bs -> byte_ok (byte_at bs i).
Proof.
  intros H. unfold byte_at. destruct (nth_in_or_default i bs 0) as [Hin | ->]; [| unfold byte_ok; lia]. unfold bytes_ok in H. rewrite List.Forall_forall in H. by apply H.
Qed.

Lemma cfbr_block_1 enc (b : bool) iv e :
  is_block iv -> exists d, byte_ok d /\ Z.testbit d 7 = fst (cfb1_step enc iv b) /\
    cfbr_encrypt_block block enc [if b then 0x80 else 0] 1 iv e = ([d], snd (cfb1_step enc iv b)).
Proof.
  intros Hi. destruct (block_is_block block iv Hi) as [Hbl Hbo]. destruct Hi as [Hl Ho]. set (c := if b then 0x80 else 0).
  assert (byte_ok c) as Hc by (unfold c, byte_ok; destruct b; lia). assert (Z.testbit c 7 = b) as Hcb by (by destruct b).
  set (d := Z.lxor c (byte_at (block iv) 0)). exists d. pose proof (byte_at_ok (block iv) 0 Hbo) as Hk.
  assert (byte_ok d) as Hd by (change byte_ok with (fits 8) in *; by apply (fits_lxor 8)).
  assert (Z.testbit d 7 = xorb b (Z.testbit (byte_at (block iv) 0) 7)) as Hdb by (unfold d; by rewrite Z.lxor_spec, Hcb).
  split_and!; [done | done |]. unfold cfbr_encrypt_block, cfb1_step. change ((1 <=? 0) || (1 >? 128)) with false. cbv iota zeta. change (1 mod 8 =? 0) with false. cbv iota.
  change (Z.to_nat ((1 + 7) / 8)) with 1%nat. change (Z.to_nat (1 / 8)) with 0%nat. change (1 mod 8) with 1. change (8 - 1) with 7.
  change (map (fun n => Z.lxor (byte_at [c] n) (byte_at (block iv) n)) (seq 0 1)) with [d]. cbn [snd]. f_equal. unfold shift1. apply map_ext_in. intros n [_ Hn]%in_seq. do 2 f_equal; [| destruct (Nat.ltb_spec n 15) as [Hlt | Hge]].
  - f_equal. unfold byte_at. rewrite app_nth1 by lia. f_equal. lia.
  - f_equal. unfold byte_at. rewrite app_nth1 by lia. f_equal. lia.
  - assert (n = 15%nat) as -> by (cbn in Hn; lia). unfold byte_at at 1. rewrite app_nth2, Hl by lia. cbn [Nat.add Nat.sub].
    destruct enc; cbn [app nth take]; rewrite top_bit by done; by rewrite ?Hdb, ?Hcb.
Qed.

Lemma test_mask x m : 0 <= m -> negb (Z.land x (Z.shiftl 1 m) =? 0) = Z.testbit x m.
Proof.
  intros Hm. rewrite Z.shiftl_1_l. destruct (Z.testbit x m) eqn:E.
  - destruct (Z.eqb_spec (Z.land x (2 ^ m)) 0) as [H0 |]; [| done]. apply (f_equal (fun z => Z.testbit z m)) in H0.
    by rewrite Z.land_spec, E, Z.pow2_bits_true, Z.bits_0 in H0.
  - replace (Z.land x (2 ^ m)) with 0; [done |]. symmetry. apply Z.bits_inj'. intros i Hi. rewrite Z.land_spec, Z.bits_0, Z.pow2_bits_eqb by done.
    destruct (Z.eqb_spec m i) as [<- |]; [by rewrite E | by rewrite andb_false_r].
Qed.

(** Replacing a bit of a byte. *)
Lemma replace_bit o d k i :
  0 <= k <= 7 -> 0 <= i <= 7 ->
  Z.testbit (u8 (Z.lor (Z.land o (Z.lnot (Z.shiftl 1 (7 - k)))) (Z.shiftr (Z.land d 0x80) k))) i =
  if i =? 7 - k then Z.testbit d 7 else Z.testbit o i.
Proof.
  intros Hk Hi. rewrite wrap_testbit by lia. rewrite (proj2 (Z.ltb_lt i 8)) by lia. cbn [andb]. change 0x80 with (2 ^ 7).
  rewrite Z.lor_spec, Z.land_spec, Z.lnot_spec, Z.shiftr_spec, Z.land_spec, Z.shiftl_1_l, !Z.pow2_bits_eqb by lia.
  destruct (Z.eqb_spec i (7 - k)) as [-> | Hne].
  - rewrite Z.eqb_refl, andb_false_r. cbn [orb]. replace (7 - k + k) with 7 by lia. by rewrite andb_true_r.
  - rewrite (proj2 (Z.eqb_neq (7 - k) i)), (proj2 (Z.eqb_neq 7 (i + k))) by lia. by rewrite andb_false_r, orb_false_r, andb_true_r.
Qed.

Lemma bit_at_store out n d m :
  (n / 8 < length out)%nat -> (m / 8 < length out)%nat ->
  let k := Z.of_nat (n mod 8) in
  bit_at (store out (n / 8) [u8 (Z.lor (Z.land (byte_at out (n / 8)) (Z.lnot (Z.shiftl 1 (7 - k)))) (Z.shiftr (Z.land d 0x80) k))]) m =
  if (m =? n)%nat then Z.testbit d 7 else bit_at out m.
Proof.
  intros Hn Hm. cbv zeta. unfold bit_at. pose proof (Nat.mod_upper_bound n 8 ltac:(lia)) as Hnk. pose proof (Nat.mod_upper_bound m 8 ltac:(lia)) as Hmk.
  pose proof (Nat.div_mod_eq n 8) as En. pose proof (Nat.div_mod_eq m 8) as Em. destruct (decide (m / 8 = n / 8)%nat) as [E | E].
  - rewrite E. set (b := u8 _). assert (byte_at (store out (n / 8) [b]) (n / 8) = b) as ->.
    { replace (n / 8)%nat with (n / 8 + 0)%nat at 2 by lia. rewrite <- (byte_at_ld _ (n / 8) 1 0) by lia. by rewrite ld_store_same by (done || lia). }
    unfold b. rewrite replace_bit by lia. destruct (Nat.eqb_spec m n) as [-> | Hne]; [by rewrite Z.eqb_refl |].
    rewrite (proj2 (Z.eqb_neq _ _)); [done |]. intros H. apply Hne. lia.
  - rewrite byte_at_store_apart by (cbn [length]; lia || (unfold apart; cbn [length]; lia)). destruct (Nat.eqb_spec m n); [congruence | done].
Qed.

Lemma map_bits_ext out out' k : (forall n, (n < k)%nat -> bit_at out n = bit_at out' n) -> map (bit_at out) (seq 0 k) = map (bit_at out') (seq 0 k).
Proof. intros H. apply map_ext_in. intros n [_ Hn]%in_seq. by apply H. Qed.

Lemma cfb1_run enc iv e out inp k :
  is_block iv -> bytes_ok out -> (k <= 8 * length out)%nat ->
  let '(out', iv') := CRYPTO_cfb128_1_encrypt block enc iv e out inp k in
  is_block iv' /\ length out' = length out /\ bytes_ok out' /\
  (map (bit_at out') (seq 0 k), iv') = run1 enc iv (map (bit_at inp) (seq 0 k)) /\
  (forall n, (k <= n < 8 * length out)%nat -> bit_at out' n = bit_at out n).
Proof.
  intros Hi Ho. unfold CRYPTO_cfb128_1_encrypt. induction k as [| k IH]; intros Hk; [cbn; by split_and!|]. specialize (IH ltac:(lia)).
  rewrite seq_S, foldl_app, !map_app. cbn [foldl map]. change (0 + k)%nat with k. destruct (foldl _ (out, iv) (seq 0 k)) as [out1 iv1].
  destruct IH as (Hi1 & Hl1 & Ho1 & Hrun & Hsame). rewrite run1_snoc, <- Hrun. pose proof (Nat.mod_upper_bound k 8 ltac:(lia)) as Hm.
  rewrite test_mask by lia. fold (bit_at inp k). destruct (cfbr_block_1 enc (bit_at inp k) iv1 e Hi1) as (d & Hd & Hdb & ->).
  change (byte_at [d] 0) with d. assert (k / 8 < length out1)%nat as Hk8 by (apply Nat.Div0.div_lt_upper_bound; lia).
  destruct (cfb1_step enc iv1 (bit_at inp k)) as [o iv2] eqn:Est. cbn [fst snd] in *. set (out2 := store out1 (k / 8) _).
  assert (forall m, (m < 8 * length out)%nat -> bit_at out2 m = if (m =? k)%nat then o else bit_at out1 m) as Hbit.
  { intros m Hm8. rewrite <- Hdb. apply bit_at_store; [done |]. apply Nat.Div0.div_lt_upper_bound; lia. }
  split_and!.
  - unfold cfb1_step in Est. injection Est as _ <-. apply shift1_block.
  - unfold out2. rewrite length_store; [done | cbn [length]; lia].
  - apply store_bytes_ok; [done |]. apply bytes_ok_cons. split; [apply byte_ok_wrap | apply bytes_ok_nil].
  - rewrite map_app. cbn [map]. rewrite Hbit, Nat.eqb_refl by lia. f_equal. f_equal. apply map_bits_ext. intros n Hn. rewrite Hbit by lia. by rewrite (proj2 (Nat.eqb_neq n k)) by lia.
  - intros n Hn. rewrite Hbit by lia. rewrite (proj2 (Nat.eqb_neq n k)) by lia. apply Hsame. lia.
Qed.
End Cfbr.

(** ** Sequences of calls *)

(** The calls of [f] on the pieces of a message. *)
Fixpoint calls {S I : Type} (f : S -> I -> bytes * S) (s : S) (l : list I) : bytes * S :=
  match l with
  | [] => ([], s)
  | x :: l =>
      let '(o, s) := f s x in
      let '(os, s) := calls f s l in
      (o ++ os, s)
  end.

(** Calls that agree with a machine that can be cut anywhere are one run of it. *)
Lemma calls_run {S} (f F : S -> bytes -> bytes * S) (Inv : S -> Prop) s chunks :
  (forall s, F s [] = ([], s)) ->
  (forall s x y, F s (x ++ y) = let '(o, s) := F s x in let '(o', s) := F s y in (o ++ o', s)) ->
  (forall s x, Inv s -> bytes_ok x -> f s x = F s x /\ Inv (snd (F s x))) ->
  Inv s -> Forall bytes_ok chunks -> calls f s chunks = F s (concat chunks).
Proof.
  intros Hnil Happ Hf. revert s. induction chunks as [| x chunks IH]; intros s Hs Hok; [by rewrite Hnil |]. apply Forall_cons_iff in Hok as [Hx Hok].
  cbn [calls concat]. rewrite Happ. destruct (Hf s x Hs Hx) as [-> Hs']. destruct (F s x) as [o s1]. by rewrite IH.
Qed.

Lemma concat_ok chunks : Forall bytes_ok chunks -> bytes_ok (concat chunks).
Proof. induction 1; [apply bytes_ok_nil |]. cbn [concat]. by apply bytes_ok_app. Qed.

Section CtrCalls.
Context (block : bytes -> bytes) `{HB : BlockCipher block} (func : bytes -> Z -> bytes -> bytes) `{HF : !Ctr32 block func}.

(** One call of CTR: with the 32-bit counter function or without. *)
Definition ctr_call (s : ctr_state) (c : bool * bytes) : bytes * ctr_state :=
  if fst c then CRYPTO_ctr128_encrypt_ctr32 func s (snd c) else CRYPTO_ctr128_encrypt block s (snd c).

Definition ctr_ok (s : ctr_state) : Prop := is_block (ctr_ivec s) /\ (ctr_num s < 16)%nat.

#[export] Instance ctr_equiv_equivalence : Equivalence ctr_equiv.
Proof.
  split.
  - intros s. by split_and!.
  - intros s s' (H1 & H2 & H3). split_and!; [done | done |]. intros Hn. symmetry. apply H3. congruence.
  - intros s1 s2 s3 (H1 & H2 & H3) (H4 & H5 & H6). split_and!; [congruence | congruence |]. intros Hn. rewrite H3 by done. apply H6. congruence.
Qed.

(** The byte-by-byte machine does not see used-up key stream. *)
Lemma ctr_stream_equiv s s' x : ctr_equiv s s' -> fst (ctr_stream block s x) = fst (ctr_stream block s' x) /\ ctr_equiv (snd (ctr_stream block s x)) (snd (ctr_stream block s' x)).
Proof.
  destruct s as [iv e n], s' as [iv' e' n']. intros (E1 & E2 & E3). cbn [ctr_ivec ctr_num ecount_buf] in *. subst iv' n'.
  destruct x as [| b x]; [by split |]. unfold ctr_stream. cbn [run ctr_ivec ecount_buf ctr_num]. unfold ks_step at 1 3 5 7.
  destruct (Nat.eqb_spec n 0) as [-> | Hn]; [done |]. by rewrite E3.
Qed.

Lemma ctr_stream_ok s x : ctr_ok s -> ctr_ok (snd (ctr_stream block s x)).
Proof.
  destruct s as [iv e n]. unfold ctr_stream. cbn [ctr_ivec ecount_buf ctr_num]. intros [Hi Hn]. cbn [ctr_ivec ctr_num] in *. revert iv e n Hi Hn.
  induction x as [| b x IH]; intros iv e n Hi Hn; [by split |]. cbn [run]. unfold ks_step at 1. set (a := if (n =? 0)%nat then _ else _).
  assert (is_block (fst a)) as Ha by (unfold a; destruct (n =? 0)%nat; [by apply (ctr_refill_inv block (iv, e)) | done]). destruct a as [iv1 e1].
  specialize (IH iv1 e1 ((n + 1) mod 16)%nat Ha (Nat.mod_upper_bound (n + 1) 16 ltac:(lia))). by destruct (run _ _ x) as [os [a1 n1]].
Qed.

Lemma ctr_call_stream s c :
  ctr_ok s -> bytes_ok (snd c) -> fst (ctr_call s c) = fst (ctr_stream block s (snd c)) /\ ctr_equiv (snd (ctr_call s c)) (snd (ctr_stream block s (snd c))).
Proof.
  intros [Hi Hn] Hok. unfold ctr_call. destruct (fst c); [by apply ctr32_stream |]. by rewrite ctr128_encrypt_stream.
Qed.

Lemma ctr_stream_app s x y :
  ctr_stream block s (x ++ y) = let '(o, s) := ctr_stream block s x in let '(o', s) := ctr_stream block s y in (o ++ o', s).
Proof.
  unfold ctr_stream. rewrite run_app. destruct (run _ _ x) as [o [[iv e] n]]. cbn [ctr_ivec ecount_buf ctr_num fst snd]. by destruct (run _ _ y) as [o' [a k]].
Qed.

Lemma ctr_calls_stream s s' l :
  ctr_equiv s s' -> ctr_ok s' -> Forall (fun c => bytes_ok (snd c)) l ->
  fst (calls ctr_call s l) = fst (ctr_stream block s' (concat (map snd l))) /\ ctr_equiv (snd (calls ctr_call s l)) (snd (ctr_stream block s' (concat (map snd l)))).
Proof.
  revert s s'. induction l as [| c l IH]; intros s s' He Hs Hok; [done |]. apply Forall_cons_iff in Hok as [Hc Hok]. cbn [calls map concat]. rewrite ctr_stream_app.
  assert (ctr_ok s) as Hs0 by (destruct He as (E1 & E2 & _); destruct Hs; split; [by rewrite E1 | by rewrite E2]).
  destruct (ctr_call_stream s c Hs0 Hc) as [E1 Q1]. destruct (ctr_stream_equiv s s' (snd c) He) as [E2 Q2]. pose proof (ctr_stream_ok s' (snd c) Hs) as Hs1.
  destruct (ctr_call s c) as [o s1], (ctr_stream block s' (snd c)) as [o' s1']. cbn [fst snd] in *. rewrite E2 in E1. rewrite Q2 in Q1.
  destruct (IH s1 s1' Q1 Hs1 Hok) as [E3 Q3]. destruct (calls ctr_call s1 l), (ctr_stream block s1' _). cbn [fst snd] in *. by subst.
Qed.
End CtrCalls.

Lemma ctr_stream_closed block `{HB : BlockCipher block} iv e x :
  is_block iv -> bytes_ok x ->
  fst (ctr_stream block (mk_ctr iv e 0) x) = xor_bytes x (take (length x) (ctr_ks block (be_value iv) (blocks_of (length x)))).
Proof.
  intros Hi Hok. unfold ctr_stream. cbn [ctr_ivec ecount_buf ctr_num]. rewrite (is_block_counter iv Hi) at 1. set (v := be_value iv).
  destruct (ctr_run_start block v e x Hok) as (e' & ->). set (n := (length x / 16)%nat). pose proof (Nat.div_mod_eq (length x) 16) as Hdm.
  pose proof (Nat.mod_upper_bound (length x) 16 ltac:(lia)) as Hm. fold n in Hdm. rewrite length_drop.
  assert (length (ctr_ks block v n) = 16 * n)%nat as Hk by (by apply ctr_ks_length).
  destruct (Nat.eqb_spec (length x - 16 * n) 0) as [H0 | H0]; cbn [fst].
  - assert (length x = 16 * n)%nat as Hl by lia. rewrite Hl, blocks_of_exact, !take_ge by lia. done.
  - assert (blocks_of (length x) = n + 1)%nat as -> by (rewrite Hdm at 1; rewrite blocks_of_partial by lia; lia).
    rewrite ctr_ks_app. unfold ctr_ks at 3. cbn [seq map concat]. rewrite app_nil_r, Z.add_0_r. rewrite take_app_ge by lia.
    destruct (block_is_block block _ (counter_is_block (v + Z.of_nat n))) as [Hb _].
    rewrite <- (take_drop (16 * n) x) at 3. rewrite xor_app by (rewrite length_take, Hk; lia). f_equal. unfold xor_tail.
    rewrite xor_map by (rewrite ?Hb, ?length_drop; lia). rewrite Hk, length_drop, take_ge by (rewrite length_drop; lia). done.
Qed.

(** * A block cipher for the examples *)

Definition sample_block (x : bytes) : bytes := Z.lxor 0x5a <$> reverse x.

#[export] Instance sample_cipher : InverseCipher sample_block sample_block.
Proof.
  assert (BlockCipher sample_block) as HB.
  { split; intros x H; [intros | intros Hl]; unfold sample_block; [by rewrite length_fmap, length_reverse |].
    apply Forall_fmap. apply bytes_ok_reverse in H. eapply Forall_impl; [| exact H]. intros b Hb. change byte_ok with (fits 8) in *. by apply (fits_lxor 8). }
  split; [done | done |]. intros x _ _. unfold sample_block. rewrite <- fmap_reverse, reverse_involutive, <- list_fmap_compose.
  rewrite <- (list_fmap_id x) at 2. apply list_fmap_ext. intros _ b _. unfold compose. cbn [id]. by rewrite <- Z.lxor_assoc, Z.lxor_nilpotent, Z.lxor_0_l.
Qed.

Definition sample_ctr32 (inp : bytes) (blocks : Z) (ivec : bytes) : bytes :=
  let n := Z.to_nat blocks in
  xor_bytes (take (16 * n) inp)
    (concat (map (fun i => sample_block (take 12 ivec ++ be_bytes 4 (be_value (drop 12 ivec) + Z.of_nat i))) (seq 0 n))).

#[export] Instance sample_ctr32_ok : Ctr32 sample_block sample_ctr32.
Proof. intros inp n ivec _ _. unfold sample_ctr32. by rewrite Nat2Z.id. Qed.

Section FeedbackCalls.
Context (block : bytes -> bytes) `{HB : BlockCipher block}.

Definition ofb_ok (s : ofb_state) : Prop := is_block (ofb_ivec s) /\ (ofb_num s < 16)%nat.

Lemma ofb_stream_app s x y :
  ofb_stream block s (x ++ y) = let '(o, s) := ofb_stream block s x in let '(o', s) := ofb_stream block s y in (o ++ o', s).
Proof.
  unfold ofb_stream. rewrite run_app. destruct (run _ _ x) as [o [iv n]]. cbn [ofb_ivec ofb_num]. by destruct (run _ _ y) as [o' [iv' k]].
Qed.

Lemma ofb_stream_ok s x : ofb_ok s -> ofb_ok (snd (ofb_stream block s x)).
Proof.
  destruct s as [iv n]. unfold ofb_stream. cbn [ofb_ivec ofb_num]. intros [Hi Hn]. cbn [ofb_ivec ofb_num] in *. revert iv n Hi Hn.
  induction x as [| b x IH]; intros iv n Hi Hn; [by split |]. cbn [run]. unfold ks_step at 1. set (iv1 := if (n =? 0)%nat then block iv else iv).
  assert (is_block iv1) as H1 by (unfold iv1; destruct (n =? 0)%nat; [by apply block_is_block | done]).
  specialize (IH iv1 ((n + 1) mod 16)%nat H1 (Nat.mod_upper_bound (n + 1) 16 ltac:(lia))). by destruct (run _ _ x) as [os [a1 n1]].
Qed.

Lemma ofb_calls s l : ofb_ok s -> Forall bytes_ok l -> calls (CRYPTO_ofb128_encrypt block) s l = ofb_stream block s (concat l).
Proof.
  intros Hs Hl. apply (calls_run _ _ ofb_ok); [by intros [] | apply ofb_stream_app | | done | done].
  intros s' x [Hi Hn] Hx. split; [by apply ofb128_encrypt_stream | by apply ofb_stream_ok].
Qed.

Lemma ofb_inverse s x : ofb_stream block s (fst (ofb_stream block s x)) = (x, snd (ofb_stream block s x)).
Proof.
  unfold ofb_stream. pose proof (ks_inverse block id (ofb_ivec s, ofb_num s) x) as H. destruct (run _ _ x) as [o [iv n]]. cbn [fst snd] in *. by rewrite H.
Qed.

Lemma cfb_calls enc s l : cfb_ok s -> Forall bytes_ok l -> calls (CRYPTO_cfb128_encrypt block enc) s l = run (cfb_step block enc) s (concat l).
Proof.
  intros Hs Hl. apply (calls_run _ (run (cfb_step block enc)) cfb_ok); [done | apply run_app | | done | done].
  intros s' x Hs' Hx. split; [by apply cfb128_encrypt_stream | by apply cfb_run_ok].
Qed.

Lemma cfb8_calls enc e iv l : length iv = 16%nat -> Forall bytes_ok l ->
  calls (fun iv => CRYPTO_cfb128_8_encrypt block enc iv e) iv l = run (cfb8_step block enc) iv (concat l).
Proof.
  intros Hi Hl. apply (calls_run _ (run (cfb8_step block enc)) (fun iv => length iv = 16%nat)); [done | apply run_app | | done | done].
  clear. intros iv x Hi _. split; [by apply cfb8_run |]. revert iv Hi. induction x as [| b x IH]; intros iv Hi; [done |]. cbn [run]. unfold cfb8_step at 1. cbv zeta iota.
  set (iv1 := drop 1 iv ++ _). assert (length iv1 = 16%nat) as H1 by (unfold iv1; rewrite length_app, length_drop; cbn; lia). specialize (IH iv1 H1). by destruct (run _ iv1 x).
Qed.
End FeedbackCalls.

(** * Properties *)

(** C35: CBC in memory is exact, also in place and with the output before the input.
    Encryption of [len] bytes writes the CBC encryption of the zero-padded input, and nothing
    else; decryption reads whole blocks and writes [len] bytes of their CBC decryption, in
    both of its loops; both leave the last block of ciphertext in [ivec]. *)
Theorem cbc_memory_exact (block : bytes -> bytes) (m ivec : bytes) (inp out len : nat) :
  BlockCipher block -> bytes_ok m -> bytes_ok ivec -> length ivec = 16%nat ->
  (inp + 16 * blocks_of len <= length m)%nat -> (out + 16 * blocks_of len <= length m)%nat ->
  (out <= inp \/ inp + 16 * blocks_of len <= out)%nat ->
  (let c := cbc_enc block (blocks_of len) ivec (zero_pad (ld m inp len)) in
   CRYPTO_cbc128_encrypt block m inp out len ivec = (store m out c, next_iv ivec c)) /\
  (let c := ld m inp (16 * blocks_of len) in
   CRYPTO_cbc128_decrypt block m inp out len ivec = Some (store m out (take len (cbc_dec block (blocks_of len) ivec c)), next_iv ivec c)).
Proof.
  intros HB Hm Hi Hl Hin Hout Ha. assert (len <= 16 * blocks_of len)%nat as Hlen.
  { unfold blocks_of. pose proof (Nat.div_mod_eq (len + 15) 16). pose proof (Nat.mod_upper_bound (len + 15) 16 ltac:(lia)). lia. }
  split; [apply cbc_encrypt_spec | apply cbc_decrypt_spec]; try done; try lia. destruct Ha; [left | right]; lia.
Qed.

(** Twenty bytes in place. *)
Lemma cbc_memory_exact_witness :
  let m := map Z.of_nat (seq 0 40) in let iv := replicate 16 7 in
  CRYPTO_cbc128_encrypt sample_block m 2 2 20 iv =
  (store m 2 (cbc_enc sample_block 2 iv (zero_pad (ld m 2 20))), next_iv iv (cbc_enc sample_block 2 iv (zero_pad (ld m 2 20)))).
Proof.
  apply (cbc_memory_exact sample_block (map Z.of_nat (seq 0 40)) (replicate 16 7) 2 2 20 (inverse_enc (dec := sample_block))
    ltac:(apply (bool_decide_unpack _); vm_compute; exact I) ltac:(apply (bool_decide_unpack _); vm_compute; exact I) eq_refl
    ltac:(apply Nat.leb_le; reflexivity) ltac:(apply Nat.leb_le; reflexivity) ltac:(left; apply Nat.leb_le; reflexivity)).
Defined.

(** decrypting what CBC encryption wrote, with the same IV, gives back the message and the
    same chaining value; the three buffers may coincide. *)
Theorem cbc_roundtrip (enc dec : bytes -> bytes) (m iv : bytes) (inp mid out len : nat) :
  InverseCipher enc dec -> bytes_ok m -> bytes_ok iv -> length iv = 16%nat ->
  (inp + len <= length m)%nat -> (mid + 16 * blocks_of len <= length m)%nat -> (out + len <= length m)%nat ->
  (mid <= inp \/ inp + len <= mid)%nat -> (out <= mid \/ mid + 16 * blocks_of len <= out)%nat ->
  exists m1 m2 iv1, CRYPTO_cbc128_encrypt enc m inp mid len iv = (m1, iv1) /\
    CRYPTO_cbc128_decrypt dec m1 mid out len iv = Some (m2, iv1) /\ ld m2 out len = ld m inp len.
Proof.
  intros HI Hm Hi Hl Hin Hmid Hout Ha1 Ha2. rewrite (cbc_encrypt_spec enc (HB := inverse_enc (dec := dec))) by (done || exact Ha1). set (x := zero_pad (ld m inp len)). set (n := blocks_of len).
  assert (len <= 16 * n)%nat as Hlen.
  { unfold n, blocks_of. pose proof (Nat.div_mod_eq (len + 15) 16). pose proof (Nat.mod_upper_bound (len + 15) 16 ltac:(lia)). lia. }
  assert (length (ld m inp len) = len) as Hld by (by apply length_ld).
  assert (length x = (16 * n)%nat) as Hx by (unfold x, zero_pad; rewrite length_app, length_replicate, Hld; fold n; lia).
  assert (bytes_ok x) as Hxo.
  { unfold x, zero_pad. apply bytes_ok_app. split; [by apply ld_bytes_ok |]. apply bytes_ok_replicate. unfold byte_ok. lia. }
  assert (length (cbc_enc enc n iv x) = 16 * n)%nat as Hc by (apply cbc_enc_length; [apply inverse_enc | done | lia]).
  eexists _, _, _. split; [done |]. assert (length (store m mid (cbc_enc enc n iv x)) = length m) as Hlm by (apply length_store; lia).
  assert (bytes_ok (cbc_enc enc n iv x)) as Hco by (apply cbc_enc_ok; try done; apply inverse_enc).
  rewrite (cbc_decrypt_spec dec (HB := inverse_dec (enc := enc))); try done; try lia; [| by apply store_bytes_ok]. fold n. rewrite ld_store_same by (done || lia). split; [done |].
  rewrite cbc_inverse by done. rewrite ld_store_same by (rewrite ?length_take; lia). unfold x, zero_pad. rewrite take_app_le by lia. by rewrite take_ge by lia.
Qed.

Lemma cbc_roundtrip_witness :
  let m := map Z.of_nat (seq 0 60) in
  exists m1 m2 iv1, CRYPTO_cbc128_encrypt sample_block m 20 10 25 (replicate 16 7) = (m1, iv1) /\
    CRYPTO_cbc128_decrypt sample_block m1 10 10 25 (replicate 16 7) = Some (m2, iv1) /\ ld m2 10 25 = ld m 20 25.
Proof.
  apply (cbc_roundtrip sample_block sample_block (map Z.of_nat (seq 0 60)) (replicate 16 7) 20 10 10 25 sample_cipher
    ltac:(apply (bool_decide_unpack _); vm_compute; exact I) ltac:(apply (bool_decide_unpack _); vm_compute; exact I) eq_refl
    ltac:(apply Nat.leb_le; reflexivity) ltac:(apply Nat.leb_le; reflexivity) ltac:(apply Nat.leb_le; reflexivity)
    ltac:(left; apply Nat.leb_le; reflexivity) ltac:(left; apply Nat.leb_le; reflexivity)).
Defined.

(** C36: however a message is cut into calls, and whichever of [CRYPTO_ctr128_encrypt] and
    [CRYPTO_ctr128_encrypt_ctr32] handles each of them, CTR mode gives the message xor the
    encryptions of the successive 128-bit counters, through every carry. *)
Theorem ctr_calls_exact (block : bytes -> bytes) (func : bytes -> Z -> bytes -> bytes) (iv ecount : bytes) (l : list (bool * bytes)) :
  BlockCipher block -> Ctr32 block func -> length iv = 16%nat -> bytes_ok iv -> Forall (fun c => bytes_ok (snd c)) l ->
  let msg := concat (map snd l) in
  fst (calls (ctr_call block func) (mk_ctr iv ecount 0) l) =
  xor_bytes msg (take (length msg) (ctr_ks block (be_value iv) (blocks_of (length msg)))).
Proof.
  intros HB HF Hl Hi Hok. cbv zeta. assert (is_block iv) as Hiv by done.
  assert (ctr_ok (mk_ctr iv ecount 0)) as Hs by (split; [done | cbn; lia]).
  destruct (ctr_calls_stream block func (mk_ctr iv ecount 0) _ l (reflexivity _) Hs Hok) as [-> _].
  apply ctr_stream_closed; [done | done |]. apply concat_ok. by apply Forall_map.
Qed.

(** Three calls across the wrap of the lower 32 bits. *)
Lemma ctr_calls_exact_witness :
  let iv := replicate 12 1 ++ [255; 255; 255; 254] in
  let l := [(true, replicate 33 9); (false, replicate 20 5); (true, replicate 40 3)] in
  fst (calls (ctr_call sample_block sample_ctr32) (mk_ctr iv (replicate 16 0) 0) l) =
  xor_bytes (concat (map snd l)) (take 93 (ctr_ks sample_block (be_value iv) 6)).
Proof.
  apply (ctr_calls_exact sample_block sample_ctr32 (replicate 12 1 ++ [255; 255; 255; 254]) (replicate 16 0)
    [(true, replicate 33 9); (false, replicate 20 5); (true, replicate 40 3)] (inverse_enc (dec := sample_block)) sample_ctr32_ok eq_refl
    ltac:(apply (bool_decide_unpack _); vm_compute; exact I) ltac:(apply (bool_decide_unpack _); vm_compute; exact I)).
Defined.

(** C37: OFB, CFB and CFB-8 decrypt what they encrypted, however the message was cut into calls
    and however the ciphertext is; CFB-1 does so bit for bit, in a buffer whose other bits it
    leaves alone. *)
Theorem feedback_modes_roundtrip (block : bytes -> bytes) (iv : bytes) (xs : list bytes) (ovec_end : Z) :
  BlockCipher block -> length iv = 16%nat -> bytes_ok iv -> Forall bytes_ok xs ->
  (forall ys, Forall bytes_ok ys -> concat ys = fst (calls (CRYPTO_ofb128_encrypt block) (mk_ofb iv 0) xs) ->
     fst (calls (CRYPTO_ofb128_encrypt block) (mk_ofb iv 0) ys) = concat xs) /\
  (forall ys, Forall bytes_ok ys -> concat ys = fst (calls (CRYPTO_cfb128_encrypt block true) (mk_cfb iv 0) xs) ->
     fst (calls (CRYPTO_cfb128_encrypt block false) (mk_cfb iv 0) ys) = concat xs) /\
  (forall ys, Forall bytes_ok ys -> concat ys = fst (calls (fun iv => CRYPTO_cfb128_8_encrypt block true iv ovec_end) iv xs) ->
     fst (calls (fun iv => CRYPTO_cfb128_8_encrypt block false iv ovec_end) iv ys) = concat xs) /\
  (forall bits c p, (bits <= 8 * length c)%nat -> (bits <= 8 * length p)%nat -> bytes_ok c -> bytes_ok p ->
     let c' := fst (CRYPTO_cfb128_1_encrypt block true iv ovec_end c (concat xs) bits) in
     let p' := fst (CRYPTO_cfb128_1_encrypt block false iv ovec_end p c' bits) in
     (forall n, (n < bits)%nat -> bit_at p' n = bit_at (concat xs) n) /\
     (forall n, (bits <= n < 8 * length p)%nat -> bit_at p' n = bit_at p n)).
Proof.
  intros HB Hl Hi Hxs. assert (is_block iv) as Hiv by done. split_and!.
  - intros ys Hys E. rewrite !ofb_calls in * by (done || (split; [done | cbn; lia])). by rewrite E, ofb_inverse.
  - intros ys Hys E. rewrite !cfb_calls in * by (done || (split; [done | cbn; lia])). by rewrite E, cfb_inverse.
  - intros ys Hys E. rewrite !cfb8_calls in * by done. by rewrite E, cfb8_inverse.
  - intros bits c p Hc Hp Hco Hpo. cbv zeta. pose proof (cfb1_run block true iv ovec_end c (concat xs) bits Hiv Hco Hc) as He.
    destruct (CRYPTO_cfb128_1_encrypt block true _ _ _ _ _) as [c' iv1]. destruct He as (_ & Hlc & Hc'o & Hrun & _). cbn [fst].
    pose proof (cfb1_run block false iv ovec_end p c' bits Hiv Hpo Hp) as Hd.
    destruct (CRYPTO_cfb128_1_encrypt block false _ _ _ _ _) as [p' iv2]. destruct Hd as (_ & Hlp & _ & Hrun2 & Hsame). cbn [fst]. split; [| done].
    pose proof (run1_inverse block iv (map (bit_at (concat xs)) (seq 0 bits))) as Hinv. rewrite <- Hrun in Hinv. cbn [fst] in Hinv. rewrite Hinv in Hrun2.
    injection Hrun2 as Hbits _. intros n Hn. apply (f_equal (fun l => nth n l false)) in Hbits.
    rewrite !(nth_indep (map _ _) false (bit_at [] 0)) in Hbits by (rewrite length_map, length_seq; lia).
    rewrite (nth_indep _ _ (bit_at p' 0%nat)) in Hbits by (rewrite length_map, length_seq; lia). rewrite map_nth in Hbits.
    rewrite (nth_indep _ _ (bit_at (concat xs) 0%nat)) in Hbits by (rewrite length_map, length_seq; lia). rewrite map_nth, !seq_nth in Hbits by lia. done.
Qed.

Lemma feedback_modes_roundtrip_witness :
  fst (calls (CRYPTO_cfb128_encrypt sample_block false) (mk_cfb (replicate 16 3) 0)
    [take 7 (fst (calls (CRYPTO_cfb128_encrypt sample_block true) (mk_cfb (replicate 16 3) 0) [replicate 20 1; replicate 30 2]));
     drop 7 (fst (calls (CRYPTO_cfb128_encrypt sample_block true) (mk_cfb (replicate 16 3) 0) [replicate 20 1; replicate 30 2]))])
  = replicate 20 1 ++ replicate 30 2.
Proof.
  destruct (feedback_modes_roundtrip sample_block (replicate 16 3) [replicate 20 1; replicate 30 2] 0 (inverse_enc (dec := sample_block)) eq_refl
    ltac:(apply (bool_decide_unpack _); vm_compute; exact I) ltac:(apply (bool_decide_unpack _); vm_compute; exact I)) as (_ & H & _ & _).
  apply H; [apply (bool_decide_unpack _); vm_compute; exact I | vm_compute; reflexivity].
Defined.
End Modes.
