(* ===== verification/BnMulWords.v ===== *)
(** Multiplication of word arrays (crypto/fipsmodule/bn/generic.c and mul.c): the word loops and the
    unrolled products of 4 and 8 words compiled without assembly, schoolbook multiplication, and
    Karatsuba multiplication and squaring in place.

    An array is a list of words, and a function that writes into the array [r] takes its contents
    and returns the new ones; a pointer into an array is an offset, and the parts of the scratch
    space [t] that a recursive call works on are cut out and put back.  [None] is a failed
    assertion or a loop that does not end. *)

From S2P Require Import Prelude Internal Modes BnWords.

Module BnMulWords.
Import Internal Modes BnWords.

(** [BN_ULLONG] has 128 bits. *)
Definition Lw (t : Z) : Z := u64 t.
Definition Hw (t : Z) : Z := u64 (Z.shiftr t 64).

(** * Words times a word (generic.c) *)

(** The new [r] and the carry. *)
Definition mul_add (r a w c : Z) : Z * Z := let t := wrap 128 (w * a + r + c) in (Lw t, Hw t).
Definition mul (a w c : Z) : Z * Z := let t := wrap 128 (w * a + c) in (Lw t, Hw t).
Definition sqr (a : Z) : Z * Z := let t := wrap 128 (a * a) in (Lw t, Hw t).

Fixpoint mul_add_loop (r a : words) (w c1 : Z) : words * Z :=
  match r, a with
  | r0 :: r1 :: r2 :: r3 :: r, a0 :: a1 :: a2 :: a3 :: a =>
      let '(r0, c1) := mul_add r0 a0 w c1 in
      let '(r1, c1) := mul_add r1 a1 w c1 in
      let '(r2, c1) := mul_add r2 a2 w c1 in
      let '(r3, c1) := mul_add r3 a3 w c1 in
      let '(r, c1) := mul_add_loop r a w c1 in
      (r0 :: r1 :: r2 :: r3 :: r, c1)
  | r0 :: r, a0 :: a =>
      let '(r0, c1) := mul_add r0 a0 w c1 in
      let '(r, c1) := mul_add_loop r a w c1 in
      (r0 :: r, c1)
  | _, _ => ([], c1)
  end.

Definition bn_mul_add_words (rp ap : words) (w : Z) : words * Z := mul_add_loop rp ap w 0.

Fixpoint mul_loop (a : words) (w c1 : Z) : words * Z :=
  match a with
  | a0 :: a1 :: a2 :: a3 :: a =>
      let '(r0, c1) := mul a0 w c1 in
      let '(r1, c1) := mul a1 w c1 in
      let '(r2, c1) := mul a2 w c1 in
      let '(r3, c1) := mul a3 w c1 in
      let '(r, c1) := mul_loop a w c1 in
      (r0 :: r1 :: r2 :: r3 :: r, c1)
  | a0 :: a =>
      let '(r0, c1) := mul a0 w c1 in
      let '(r, c1) := mul_loop a w c1 in
      (r0 :: r, c1)
  | [] => ([], c1)
  end.

Definition bn_mul_words (ap : words) (w : Z) : words * Z := mul_loop ap w 0.

Definition bn_sqr_words (a : words) : words := concat (map (fun x => let '(r0, r1) := sqr x in [r0; r1]) a).

(** * Products by columns (generic.c) *)

(** [c += a*b] and [c += 2*a*b] for a number [c] of three words. *)
Definition mul_add_c (a b : Z) (c : Z * Z * Z) : Z * Z * Z :=
  let '(c0, c1, c2) := c in
  let t := wrap 128 (a * b) in
  let t := wrap 128 (t + c0) in
  let c0 := Lw t in
  let hi := Hw t in
  let c1 := u64 (c1 + hi) in
  (c0, c1, u64 (c2 + Z.b2z (c1 <? hi))).

Definition mul_add_c2 (a b : Z) (c : Z * Z * Z) : Z * Z * Z :=
  let '(c0, c1, c2) := c in
  let t := wrap 128 (a * b) in
  let tt := wrap 128 (t + c0) in
  let c0 := Lw tt in
  let hi := Hw tt in
  let c1 := u64 (c1 + hi) in
  let c2 := u64 (c2 + Z.b2z (c1 <? hi)) in
  let t := wrap 128 (t + c0) in
  let c0 := Lw t in
  let hi := Hw t in
  let c1 := u64 (c1 + hi) in
  (c0, c1, u64 (c2 + Z.b2z (c1 <? hi))).

(** Column by column: the lowest of the three words is stored, its variable is cleared, and the
    three change places; after the last column the next word is stored too. *)
Fixpoint columns {A} (add : A -> Z * Z * Z -> Z * Z * Z) (cols : list (list A)) (c : Z * Z * Z) : words :=
  match cols with
  | [] => let '(c0, _, _) := c in [c0]
  | col :: cols => let '(c0, c1, c2) := foldl (fun c x => add x c) c col in c0 :: columns add cols (c1, c2, 0)
  end.

Definition mul_term (a b : words) (ij : nat * nat) : Z * Z * Z -> Z * Z * Z := mul_add_c (a !!! fst ij) (b !!! snd ij).

Definition comba8_columns : list (list (nat * nat)) :=
  [[(0, 0)];
   [(0, 1); (1, 0)];
   [(2, 0); (1, 1); (0, 2)];
   [(0, 3); (1, 2); (2, 1); (3, 0)];
   [(4, 0); (3, 1); (2, 2); (1, 3); (0, 4)];
   [(0, 5); (1, 4); (2, 3); (3, 2); (4, 1); (5, 0)];
   [(6, 0); (5, 1); (4, 2); (3, 3); (2, 4); (1, 5); (0, 6)];
   [(0, 7); (1, 6); (2, 5); (3, 4); (4, 3); (5, 2); (6, 1); (7, 0)];
   [(7, 1); (6, 2); (5, 3); (4, 4); (3, 5); (2, 6); (1, 7)];
   [(2, 7); (3, 6); (4, 5); (5, 4); (6, 3); (7, 2)];
   [(7, 3); (6, 4); (5, 5); (4, 6); (3, 7)];
   [(4, 7); (5, 6); (6, 5); (7, 4)];
   [(7, 5); (6, 6); (5, 7)];
   [(6, 7); (7, 6)];
   [(7, 7)]]%nat.

Definition comba4_columns : list (list (nat * nat)) :=
  [[(0, 0)];
   [(0, 1); (1, 0)];
   [(2, 0); (1, 1); (0, 2)];
   [(0, 3); (1, 2); (2, 1); (3, 0)];
   [(3, 1); (2, 2); (1, 3)];
   [(2, 3); (3, 2)];
   [(3, 3)]]%nat.

Definition bn_mul_comba8 (a b : words) : words := columns (mul_term a b) comba8_columns (0, 0, 0).
Definition bn_mul_comba4 (a b : words) : words := columns (mul_term a b) comba4_columns (0, 0, 0).

(** [sqr_add_c(a, i)] and [sqr_add_c2(a, i, j)]. *)
Inductive sqr_op := Sqr (i : nat) | Sqr2 (i j : nat).

Definition sqr_term (a : words) (x : sqr_op) : Z * Z * Z -> Z * Z * Z :=
  match x with Sqr i => mul_add_c (a !!! i) (a !!! i) | Sqr2 i j => mul_add_c2 (a !!! i) (a !!! j) end.

Definition sqr_comba8_columns : list (list sqr_op) :=
  [[Sqr 0];
   [Sqr2 1 0];
   [Sqr 1; Sqr2 2 0];
   [Sqr2 3 0; Sqr2 2 1];
   [Sqr 2; Sqr2 3 1; Sqr2 4 0];
   [Sqr2 5 0; Sqr2 4 1; Sqr2 3 2];
   [Sqr 3; Sqr2 4 2; Sqr2 5 1; Sqr2 6 0];
   [Sqr2 7 0; Sqr2 6 1; Sqr2 5 2; Sqr2 4 3];
   [Sqr 4; Sqr2 5 3; Sqr2 6 2; Sqr2 7 1];
   [Sqr2 7 2; Sqr2 6 3; Sqr2 5 4];
   [Sqr 5; Sqr2 6 4; Sqr2 7 3];
   [Sqr2 7 4; Sqr2 6 5];
   [Sqr 6; Sqr2 7 5];
   [Sqr2 7 6];
   [Sqr 7]]%nat.

Definition sqr_comba4_columns : list (list sqr_op) :=
  [[Sqr 0];
   [Sqr2 1 0];
   [Sqr 1; Sqr2 2 0];
   [Sqr2 3 0; Sqr2 2 1];
   [Sqr 2; Sqr2 3 1];
   [Sqr2 3 2];
   [Sqr 3]]%nat.

Definition bn_sqr_comba8 (a : words) : words := columns (sqr_term a) sqr_comba8_columns (0, 0, 0).
Definition bn_sqr_comba4 (a : words) : words := columns (sqr_term a) sqr_comba4_columns (0, 0, 0).

(** * Schoolbook multiplication (mul.c) *)

(** The loop over the words of [b] from [i] on. *)
Fixpoint mul_normal_loop (r a b : words) (i : nat) : words :=
  match b with
  | [] => r
  | w :: b =>
      let '(ws, c) := bn_mul_add_words (ld r i (length a)) a w in
      mul_normal_loop (store (store r i ws) (i + length a) [c]) a b (S i)
  end.

Definition bn_mul_normal (r a b : words) : words :=
  let '(a, b) := if (length a <? length b)%nat then (b, a) else (a, b) in
  match b with
  | [] => store r 0 (replicate (length a) 0)
  | w :: b =>
      let '(ws, c) := bn_mul_words a w in
      mul_normal_loop (store (store r 0 ws) (length a) [c]) a b 1
  end.

Definition bn_abs_sub_words (a b : words) : words * words :=
  let '(tmp, borrow) := bn_sub_words a b in
  let '(r, _) := bn_sub_words b a in
  (bn_select_words (u64 (0 - borrow)) r tmp, tmp).

(** [a] and [b] have [cl] words in common, and [a] has [dl] more, or [b] has [- dl] more. *)
Definition bn_sub_part_words (a b : words) (cl : nat) (dl : Z) : words * Z :=
  let '(r, borrow) := bn_sub_words (take cl a) (take cl b) in
  if dl =? 0 then (r, borrow)
  else
    let n := Z.to_nat (Z.abs dl) in
    let '(r', borrow) := if dl <? 0 then sub_words_loop (replicate n 0) (take n (drop cl b)) borrow else borrow_loop (take n (drop cl a)) borrow in
    (r ++ r', borrow).

(** The difference without its sign, what is left in [tmp], and the sign as a mask. *)
Definition bn_abs_sub_part_words (a b : words) (cl : nat) (dl : Z) : words * words * Z :=
  let '(tmp, borrow) := bn_sub_part_words a b cl dl in
  let '(r, _) := bn_sub_part_words b a cl (- dl) in
  let borrow := u64 (0 - borrow) in
  (bn_select_words borrow r tmp, tmp, borrow).

(** * Schoolbook squaring (mul.c) *)

(** The loop of [bn_sqr_normal]: [ap[-1]] is the first word of [ap], and its products with the
    others are added to [r] from [off] on. *)
Fixpoint sqr_rows (r ap : words) (off : nat) : words :=
  match ap with
  | w :: ((_ :: _) as rest) =>
      let '(ws, c) := bn_mul_add_words (ld r off (length rest)) rest w in
      sqr_rows (store (store r off ws) (off + length rest) [c]) rest (off + 2)
  | _ => r
  end.

Definition bn_sqr_normal (r a tmp : words) : words * words :=
  match a with
  | [] => (r, tmp)
  | a0 :: rest =>
      let n := length a in
      let max := (n * 2)%nat in
      let r := store (store r (max - 1) [0]) 0 [0] in
      let r := if (1 <? n)%nat then let '(ws, c) := bn_mul_words rest a0 in store (store r 1 ws) n [c] else r in
      let r := if (2 <? n)%nat then sqr_rows r rest 3 else r in
      let '(x, _) := bn_add_words (ld r 0 max) (ld r 0 max) in
      let r := store r 0 x in
      let tmp := store tmp 0 (bn_sqr_words a) in
      let '(x, _) := bn_add_words (ld r 0 max) (ld tmp 0 max) in
      (store r 0 x, tmp)
  end.

(** * Words times a word *)

Lemma split128 t : 0 <= t < 2 ^ 128 -> Lw t + 2 ^ 64 * Hw t = t /\ fits 64 (Lw t) /\ fits 64 (Hw t).
Proof.
  intros Ht. unfold Lw, Hw, wrap, fits. rewrite Z.shiftr_div_pow2 by lia.
  assert (0 <= t / 2 ^ 64 < 2 ^ 64) as Hd by (split; [apply Z.div_pos; lia | apply Z.div_lt_upper_bound; lia]).
  rewrite (Z.mod_small (t / 2 ^ 64)) by lia. pose proof (Z.div_mod t (2 ^ 64) ltac:(lia)). pose proof (Z.mod_pos_bound t (2 ^ 64) ltac:(lia)). lia.
Qed.

Lemma mul_add_spec r a w c :
  fits 64 r -> fits 64 a -> fits 64 w -> fits 64 c ->
  let '(x, c') := mul_add r a w c in x + 2 ^ 64 * c' = w * a + r + c /\ fits 64 x /\ fits 64 c'.
Proof.
  intros [? ?] [? ?] [? ?] [? ?]. cbn [mul_add]. assert (0 <= w * a + r + c < 2 ^ 128) as Ht by nia.
  unfold wrap. rewrite Z.mod_small by done. by apply split128.
Qed.

Lemma mul_spec a w c :
  fits 64 a -> fits 64 w -> fits 64 c ->
  let '(x, c') := mul a w c in x + 2 ^ 64 * c' = w * a + c /\ fits 64 x /\ fits 64 c'.
Proof.
  intros [? ?] [? ?] [? ?]. cbn [mul]. assert (0 <= w * a + c < 2 ^ 128) as Ht by nia.
  unfold wrap. rewrite Z.mod_small by done. by apply split128.
Qed.

Lemma sqr_spec a : fits 64 a -> let '(x, c') := sqr a in x + 2 ^ 64 * c' = a * a /\ fits 64 x /\ fits 64 c'.
Proof. intros [? ?]. cbn [sqr]. unfold wrap. rewrite Z.mod_small by nia. apply split128. nia. Qed.

(** The word-by-word loops the unrolled ones amount to. *)
Fixpoint mul_add_each (r a : words) (w c : Z) : words * Z :=
  match r, a with
  | r0 :: r, a0 :: a => let '(r0, c) := mul_add r0 a0 w c in let '(r, c) := mul_add_each r a w c in (r0 :: r, c)
  | _, _ => ([], c)
  end.

Fixpoint mul_each (a : words) (w c : Z) : words * Z :=
  match a with
  | a0 :: a => let '(r0, c) := mul a0 w c in let '(r, c) := mul_each a w c in (r0 :: r, c)
  | [] => ([], c)
  end.

Lemma mul_add_loop_each n r a w c : (length a <= n)%nat -> mul_add_loop r a w c = mul_add_each r a w c.
Proof.
  revert r a c. induction n as [| n IH]; intros r a c Hn; [by destruct a, r as [| ? [| ? [| ? [| ? r]]]]; cbn in Hn; try lia |].
  destruct a as [| a0 [| a1 [| a2 [| a3 a]]]], r as [| r0 [| r1 [| r2 [| r3 r]]]]; try done;
    cbn in Hn; cbn [mul_add_loop mul_add_each];
    repeat match goal with |- context [mul_add ?x ?y w ?c] => is_var c; destruct (mul_add x y w c) end;
    first [done | by destruct r as [| ? [| ? [| ? r]]] | rewrite (IH r a) by lia; match goal with |- context [mul_add_each r a w ?c] => by destruct (mul_add_each r a w c) end].
Qed.

Lemma mul_loop_each n a w c : (length a <= n)%nat -> mul_loop a w c = mul_each a w c.
Proof.
  revert a c. induction n as [| n IH]; intros a c Hn; [by destruct a; cbn in Hn; [| lia] |].
  destruct a as [| a0 [| a1 [| a2 [| a3 a]]]]; try done; cbn in Hn; cbn [mul_loop mul_each];
    repeat match goal with |- context [mul ?x w ?c] => is_var c; destruct (mul x w c) end;
    first [done | rewrite (IH a) by lia; match goal with |- context [mul_each a w ?c] => by destruct (mul_each a w c) end].
Qed.

Lemma pow_words_S n : 2 ^ (64 * Z.of_nat (S n)) = 2 ^ 64 * 2 ^ (64 * Z.of_nat n).
Proof. rewrite <- Z.pow_add_r by lia. f_equal. lia. Qed.

Lemma pow_words_add n m : 2 ^ (64 * Z.of_nat (n + m)) = 2 ^ (64 * Z.of_nat n) * 2 ^ (64 * Z.of_nat m).
Proof. rewrite <- Z.pow_add_r by lia. f_equal. lia. Qed.

Lemma mul_add_each_spec r a w c :
  length r = length a -> words_ok r -> words_ok a -> fits 64 w -> fits 64 c ->
  let '(x, c') := mul_add_each r a w c in
  value x + 2 ^ (64 * Z.of_nat (length a)) * c' = value r + w * value a + c /\ length x = length a /\ words_ok x /\ fits 64 c'.
Proof.
  revert r c. induction a as [| y a IH]; intros [| z r] c Hl Hr Ha Hw Hc; try done; cbn [mul_add_each value length].
  { rewrite Z.mul_0_r, Z.pow_0_r. split_and!; (done || lia). }
  apply words_ok_cons in Ha as [Hy Ha], Hr as [Hz Hr]. injection Hl as Hl.
  pose proof (mul_add_spec z y w c Hz Hy Hw Hc) as H. destruct (mul_add z y w c) as [x0 c0]. destruct H as (E0 & Hx0 & Hc0).
  pose proof (IH r c0 Hl Hr Ha Hw Hc0) as H. destruct (mul_add_each r a w c0) as [x c1]. destruct H as (E1 & Hlx & Hx & Hc1).
  cbn [value length]. rewrite pow_words_S. split_and!; [lia | lia | by apply words_ok_cons | done].
Qed.

Lemma mul_each_spec a w c :
  words_ok a -> fits 64 w -> fits 64 c ->
  let '(x, c') := mul_each a w c in
  value x + 2 ^ (64 * Z.of_nat (length a)) * c' = w * value a + c /\ length x = length a /\ words_ok x /\ fits 64 c'.
Proof.
  revert c. induction a as [| y a IH]; intros c Ha Hw Hc; cbn [mul_each value length].
  { rewrite Z.mul_0_r, Z.pow_0_r. split_and!; (done || lia). }
  apply words_ok_cons in Ha as [Hy Ha].
  pose proof (mul_spec y w c Hy Hw Hc) as H. destruct (mul y w c) as [x0 c0]. destruct H as (E0 & Hx0 & Hc0).
  pose proof (IH c0 Ha Hw Hc0) as H. destruct (mul_each a w c0) as [x c1]. destruct H as (E1 & Hlx & Hx & Hc1).
  cbn [value length]. rewrite pow_words_S. split_and!; [lia | lia | by apply words_ok_cons | done].
Qed.

Lemma mul_add_words_spec r a w :
  length r = length a -> words_ok r -> words_ok a -> fits 64 w ->
  let '(x, c) := bn_mul_add_words r a w in
  value x + 2 ^ (64 * Z.of_nat (length a)) * c = value r + w * value a /\ length x = length a /\ words_ok x /\ fits 64 c.
Proof.
  intros Hl Hr Ha Hw. unfold bn_mul_add_words. rewrite (mul_add_loop_each (length a)) by done.
  pose proof (mul_add_each_spec r a w 0 Hl Hr Ha Hw ltac:(unfold fits; lia)) as H. case_match. by rewrite Z.add_0_r in H.
Qed.

Lemma mul_words_spec a w :
  words_ok a -> fits 64 w ->
  let '(x, c) := bn_mul_words a w in
  value x + 2 ^ (64 * Z.of_nat (length a)) * c = w * value a /\ length x = length a /\ words_ok x /\ fits 64 c.
Proof.
  intros Ha Hw. unfold bn_mul_words. rewrite (mul_loop_each (length a)) by done.
  pose proof (mul_each_spec a w 0 Ha Hw ltac:(unfold fits; lia)) as H. case_match. by rewrite Z.add_0_r in H.
Qed.

Lemma add_words_spec a b :
  length a = length b -> words_ok a -> words_ok b ->
  let '(r, c) := bn_add_words a b in
  value r + 2 ^ (64 * Z.of_nat (length a)) * c = value a + value b /\ length r = length a /\ words_ok r /\ 0 <= c <= 1.
Proof.
  intros Hl Ha Hb. unfold bn_add_words. rewrite (add_words_each (length a)) by done.
  pose proof (add_each_spec a b 0 Hl Ha Hb ltac:(lia)) as H. case_match. by rewrite Z.add_0_r in H.
Qed.

Lemma sub_words_spec a b :
  length a = length b -> words_ok a -> words_ok b ->
  let '(r, c) := bn_sub_words a b in
  value r - 2 ^ (64 * Z.of_nat (length a)) * c = value a - value b /\ length r = length a /\ words_ok r /\ 0 <= c <= 1.
Proof.
  intros Hl Ha Hb. unfold bn_sub_words. rewrite (sub_words_each (length a)) by done.
  pose proof (sub_each_spec a b 0 Hl Ha Hb ltac:(lia)) as H. case_match. by rewrite Z.sub_0_r in H.
Qed.

(** * Products by columns *)

Definition num3 (c : Z * Z * Z) : Z := let '(c0, c1, c2) := c in c0 + 2 ^ 64 * c1 + 2 ^ 128 * c2.
Definition ok3 (c : Z * Z * Z) : Prop := let '(c0, c1, c2) := c in fits 64 c0 /\ fits 64 c1 /\ fits 64 c2.

(** Adding a number of two words to the low words of [c]. *)
Lemma add_double c0 c1 c2 t :
  ok3 (c0, c1, c2) -> 0 <= t <= 2 ^ 128 - 2 ^ 64 -> num3 (c0, c1, c2) + t < 2 ^ 192 ->
  let t' := wrap 128 (t + c0) in
  let c1' := u64 (c1 + Hw t') in
  let c' := (Lw t', c1', u64 (c2 + Z.b2z (c1' <? Hw t'))) in ok3 c' /\ num3 c' = num3 (c0, c1, c2) + t.
Proof.
  intros ([? ?] & [? ?] & [? ?]) Ht Hn. cbv zeta. cbn [num3 ok3] in *. unfold wrap.
  rewrite (Z.mod_small (t + c0)) by lia. destruct (split128 (t + c0)) as (E & HL & HH); [lia |].
  set (lo := Lw (t + c0)) in *. set (hi := Hw (t + c0)) in *. destruct HL as [? ?], HH as [? ?].
  assert ((c1 + hi) mod 2 ^ 64 = if c1 + hi <? 2 ^ 64 then c1 + hi else c1 + hi - 2 ^ 64) as ->.
  { destruct (Z.ltb_spec (c1 + hi) (2 ^ 64)); [apply Z.mod_small; lia |]. symmetry. apply (Z.mod_unique_pos _ _ 1); lia. }
  destruct (Z.ltb_spec (c1 + hi) (2 ^ 64)).
  - destruct (Z.ltb_spec (c1 + hi) hi); [lia |]. cbn [Z.b2z]. rewrite (Z.mod_small (c2 + 0)) by lia. unfold fits in *. lia.
  - destruct (Z.ltb_spec (c1 + hi - 2 ^ 64) hi); [| lia]. cbn [Z.b2z]. rewrite (Z.mod_small (c2 + 1)) by lia. unfold fits in *. lia.
Qed.

Lemma mul_add_c_spec a b c :
  fits 64 a -> fits 64 b -> ok3 c -> num3 c + a * b < 2 ^ 192 ->
  ok3 (mul_add_c a b c) /\ num3 (mul_add_c a b c) = num3 c + a * b.
Proof.
  intros [? ?] [? ?] Hc Hn. destruct c as [[c0 c1] c2]. cbn [mul_add_c]. rewrite (wrap_id 128 (a * b)) by (unfold fits; nia).
  apply add_double; [done | nia | done].
Qed.

Lemma mul_add_c2_spec a b c :
  fits 64 a -> fits 64 b -> ok3 c -> num3 c + 2 * (a * b) < 2 ^ 192 ->
  ok3 (mul_add_c2 a b c) /\ num3 (mul_add_c2 a b c) = num3 c + 2 * (a * b).
Proof.
  intros [? ?] [? ?] Hc Hn. destruct c as [[c0 c1] c2]. cbn [mul_add_c2]. rewrite (wrap_id 128 (a * b)) by (unfold fits; nia).
  destruct (add_double c0 c1 c2 (a * b)) as [Hc' Hn']; [done | nia | nia |]. cbv zeta in Hc', Hn'.
  match type of Hn' with num3 ?c' = _ => destruct c' as [[d0 d1] d2] eqn:E end. injection E as E0 E1 E2. rewrite E2, E1, E0.
  destruct (add_double d0 d1 d2 (a * b)) as [Hc'' Hn'']; [done | nia | nia |]. split; [exact Hc'' |]. cbv zeta in Hn''. rewrite Hn''. lia.
Qed.

Section Columns.
Context {A : Type} (add : A -> Z * Z * Z -> Z * Z * Z) (term : A -> Z).

(** A step adds its term while three words hold the sum. *)
Definition adds (x : A) : Prop :=
  0 <= term x <= 2 ^ 129 /\
  forall c, ok3 c -> num3 c + term x < 2 ^ 192 -> ok3 (add x c) /\ num3 (add x c) = num3 c + term x.

Definition col_sum (col : list A) : Z := foldr (fun x s => term x + s) 0 col.
Definition cols_sum (cols : list (list A)) : Z := foldr (fun col s => col_sum col + 2 ^ 64 * s) 0 cols.

Lemma column_spec col c :
  Forall adds col -> ok3 c -> num3 c + 2 ^ 129 * Z.of_nat (length col) < 2 ^ 192 ->
  let c' := foldl (fun c x => add x c) c col in ok3 c' /\ num3 c' = num3 c + col_sum col.
Proof.
  intros Hcol. revert c. induction Hcol as [| x col [Hx Ha] Hcol IH]; intros c Hc Hn; cbn [foldl col_sum foldr length] in *; [by rewrite Z.add_0_r |].
  destruct (Ha c Hc) as [H1 H2]; [lia |]. destruct (IH (add x c)) as [H3 H4]; [done | lia |]. split; [done |].
  cbv zeta. rewrite H4, H2. unfold col_sum. lia.
Qed.

Lemma columns_spec cols c :
  Forall (fun col => Forall adds col /\ (length col <= 8)%nat) cols -> ok3 c -> num3 c < 2 ^ 128 ->
  words_ok (columns add cols c) /\ length (columns add cols c) = S (length cols) /\
  exists k, 0 <= k /\ value (columns add cols c) + 2 ^ (64 * Z.of_nat (S (length cols))) * k = num3 c + cols_sum cols.
Proof.
  intros Hcols. revert c. induction Hcols as [| col cols [Hcol Hlen] Hcols IH]; intros c Hc Hn; cbn [columns cols_sum foldr].
  - destruct c as [[c0 c1] c2]. destruct Hc as (H0 & H1 & H2). split_and!; [by apply Forall_singleton | done |].
    exists (c1 + 2 ^ 64 * c2). unfold fits in *. cbn [value length num3]. change (2 ^ (64 * Z.of_nat 1)) with (2 ^ 64). lia.
  - destruct (column_spec col c Hcol Hc) as [Hc' Hn']; [lia |]. cbv zeta in *.
    destruct (foldl (fun c x => add x c) c col) as [[c0 c1] c2]. destruct Hc' as (H0 & H1 & H2).
    destruct (IH (c1, c2, 0)) as (Hok & Hl & k & Hk & E); [unfold ok3, fits in *; lia | cbn [num3]; unfold fits in *; lia |].
    split_and!; [by apply words_ok_cons | cbn [length]; lia |]. exists k. split; [done |]. cbn [length value]. rewrite pow_words_S.
    cbn [num3] in *. unfold cols_sum in E. cbn [foldr] in E. lia.
Qed.
End Columns.

Definition prod_term (a b : words) (ij : nat * nat) : Z := (a !!! fst ij) * (b !!! snd ij).
Definition sqr_term_value (a : words) (x : sqr_op) : Z :=
  match x with Sqr i => (a !!! i) * (a !!! i) | Sqr2 i j => 2 * ((a !!! i) * (a !!! j)) end.

Lemma total_fits a i : words_ok a -> fits 64 (a !!! i).
Proof.
  intros Ha. destruct (decide (i < length a)%nat) as [Hi |].
  - apply (words_ok_lookup a i); [done |]. by apply list_lookup_lookup_total_lt.
  - rewrite list_lookup_total_alt, lookup_ge_None_2 by lia. unfold fits. cbn. lia.
Qed.

Lemma mul_adds a b ij : words_ok a -> words_ok b -> adds (mul_term a b) (prod_term a b) ij.
Proof.
  intros Ha Hb. unfold adds, mul_term, prod_term. pose proof (total_fits a ij.1 Ha). pose proof (total_fits b ij.2 Hb).
  split; [unfold fits in *; nia |]. intros. by apply mul_add_c_spec.
Qed.

Lemma sqr_adds a x : words_ok a -> adds (sqr_term a) (sqr_term_value a) x.
Proof.
  intros Ha. unfold adds. destruct x as [i | i j]; cbn [sqr_term sqr_term_value].
  - pose proof (total_fits a i Ha). split; [unfold fits in *; nia |]. intros. by apply mul_add_c_spec.
  - pose proof (total_fits a i Ha). pose proof (total_fits a j Ha). split; [unfold fits in *; nia |]. intros. by apply mul_add_c2_spec.
Qed.

(** The words of a product that fits them. *)
Lemma columns_exact {A} (add : A -> Z * Z * Z -> Z * Z * Z) (term : A -> Z) cols n v :
  (forall x, adds add term x) -> Forall (fun col => (length col <= 8)%nat) cols -> S (length cols) = n ->
  cols_sum term cols = v -> v < 2 ^ (64 * Z.of_nat n) ->
  let r := columns add cols (0, 0, 0) in words_ok r /\ length r = n /\ value r = v.
Proof.
  intros Hadd Hlen Hn Hv Hb. destruct (columns_spec add term cols (0, 0, 0)) as (H1 & H2 & k & Hk & E).
  - revert Hlen. apply Forall_impl. intros col Hc. split; [| done]. apply Forall_forall. intros. apply Hadd.
  - cbn. unfold fits. lia.
  - cbn. lia.
  - rewrite Hn in *. cbv zeta. split_and!; [done | done |]. pose proof (value_nonneg _ H1). change (num3 (0, 0, 0)) with 0 in E.
    assert (0 < 2 ^ (64 * Z.of_nat n)) as Hp by (apply Z.pow_pos_nonneg; lia). rewrite Hv in E.
    set (P := 2 ^ (64 * Z.of_nat n)) in *. destruct (Z.eq_dec k 0) as [-> | ?]; [lia |]. assert (P * 1 <= P * k) by (apply Z.mul_le_mono_nonneg_l; lia). lia.
Qed.

Lemma product_bound (a b : words) n m :
  words_ok a -> words_ok b -> length a = n -> length b = m -> 0 <= value a * value b < 2 ^ (64 * Z.of_nat (n + m)).
Proof.
  intros Ha Hb <- <-. pose proof (value_nonneg a Ha). pose proof (value_nonneg b Hb). pose proof (value_bound a Ha). pose proof (value_bound b Hb).
  rewrite pow_words_add. nia.
Qed.

Ltac columns_ring :=
  cbv [cols_sum col_sum foldr comba8_columns comba4_columns sqr_comba8_columns sqr_comba4_columns prod_term sqr_term_value
       fst snd lookup_total list_lookup_total take value]; ring.

(** [a] has at least 8 (4) words, and the first ones are used. *)
Lemma comba8_spec a b :
  words_ok a -> words_ok b -> (8 <= length a)%nat -> (8 <= length b)%nat ->
  words_ok (bn_mul_comba8 a b) /\ length (bn_mul_comba8 a b) = 16%nat /\ value (bn_mul_comba8 a b) = value (take 8 a) * value (take 8 b).
Proof.
  intros Ha Hb La Lb. pose proof (product_bound (take 8 a) (take 8 b) 8 8 ltac:(auto with word_db) ltac:(auto with word_db) ltac:(rewrite length_take; lia) ltac:(rewrite length_take; lia)) as Hbd.
  apply (columns_exact (mul_term a b) (prod_term a b)); [intros; by apply mul_adds | repeat constructor | done | | apply Hbd].
  clear Ha Hb Hbd. do 8 (destruct a as [| ? a]; [cbn in La; lia |]). do 8 (destruct b as [| ? b]; [cbn in Lb; lia |]).
  columns_ring.
Qed.

Lemma comba4_spec a b :
  words_ok a -> words_ok b -> (4 <= length a)%nat -> (4 <= length b)%nat ->
  words_ok (bn_mul_comba4 a b) /\ length (bn_mul_comba4 a b) = 8%nat /\ value (bn_mul_comba4 a b) = value (take 4 a) * value (take 4 b).
Proof.
  intros Ha Hb La Lb. pose proof (product_bound (take 4 a) (take 4 b) 4 4 ltac:(auto with word_db) ltac:(auto with word_db) ltac:(rewrite length_take; lia) ltac:(rewrite length_take; lia)) as Hbd.
  apply (columns_exact (mul_term a b) (prod_term a b)); [intros; by apply mul_adds | repeat constructor | done | | apply Hbd].
  clear Ha Hb Hbd. do 4 (destruct a as [| ? a]; [cbn in La; lia |]). do 4 (destruct b as [| ? b]; [cbn in Lb; lia |]).
  columns_ring.
Qed.

Lemma sqr_comba8_spec a :
  words_ok a -> (8 <= length a)%nat ->
  words_ok (bn_sqr_comba8 a) /\ length (bn_sqr_comba8 a) = 16%nat /\ value (bn_sqr_comba8 a) = value (take 8 a) * value (take 8 a).
Proof.
  intros Ha La. pose proof (product_bound (take 8 a) (take 8 a) 8 8 ltac:(auto with word_db) ltac:(auto with word_db) ltac:(rewrite length_take; lia) ltac:(rewrite length_take; lia)) as Hbd.
  apply (columns_exact (sqr_term a) (sqr_term_value a)); [intros; by apply sqr_adds | repeat constructor | done | | apply Hbd].
  clear Ha Hbd. do 8 (destruct a as [| ? a]; [cbn in La; lia |]).
  columns_ring.
Qed.

Lemma sqr_comba4_spec a :
  words_ok a -> (4 <= length a)%nat ->
  words_ok (bn_sqr_comba4 a) /\ length (bn_sqr_comba4 a) = 8%nat /\ value (bn_sqr_comba4 a) = value (take 4 a) * value (take 4 a).
Proof.
  intros Ha La. pose proof (product_bound (take 4 a) (take 4 a) 4 4 ltac:(auto with word_db) ltac:(auto with word_db) ltac:(rewrite length_take; lia) ltac:(rewrite length_take; lia)) as Hbd.
  apply (columns_exact (sqr_term a) (sqr_term_value a)); [intros; by apply sqr_adds | repeat constructor | done | | apply Hbd].
  clear Ha Hbd. do 4 (destruct a as [| ? a]; [cbn in La; lia |]).
  columns_ring.
Qed.

(** * Arrays in pieces *)

Lemma ld_mid (x y z : words) p n : p = length x -> n = length y -> ld (x ++ y ++ z) p n = y.
Proof. intros -> ->. unfold ld. by rewrite drop_app_length, take_app_length. Qed.

Lemma store_mid (x y w z : words) p : p = length x -> length w = length y -> store (x ++ y ++ z) p w = x ++ w ++ z.
Proof.
  intros -> Hl. unfold store. rewrite take_app_length. do 2 f_equal. by rewrite Hl, drop_app_add, drop_app_length.
Qed.

Lemma ld_front (y z : words) n : n = length y -> ld (y ++ z) 0 n = y.
Proof. intros ->. by apply (ld_mid []). Qed.

Lemma store_front (y w z : words) : length w = length y -> store (y ++ z) 0 w = w ++ z.
Proof. by apply (store_mid []). Qed.

Lemma store_ok (m x : words) p : words_ok m -> words_ok x -> words_ok (store m p x).
Proof. intros Hm Hx. unfold store. rewrite !words_ok_app. auto with word_db. Qed.

(** [r] with its first words replaced. *)
Lemma store_0 (r w : words) : store r 0 w = w ++ drop (length w) r.
Proof. done. Qed.

Lemma split_at n (l : words) : (n <= length l)%nat -> exists x y, l = x ++ y /\ length x = n /\ x = take n l /\ y = drop n l.
Proof. intros Hn. exists (take n l), (drop n l). rewrite take_drop, length_take. split_and!; (done || lia). Qed.

(** * Schoolbook multiplication *)

Lemma mul_normal_loop_spec a b p rest i :
  words_ok a -> words_ok b -> words_ok p -> length p = (i + length a)%nat -> (length b <= length rest)%nat ->
  exists p', mul_normal_loop (p ++ rest) a b i = p' ++ drop (length b) rest /\ length p' = (length p + length b)%nat /\ words_ok p' /\
             value p' = value p + 2 ^ (64 * Z.of_nat i) * (value a * value b).
Proof.
  intros Ha Hb. revert p rest i. induction Hb as [| w b Hw Hb IH]; intros p rest i Hp Hl Hrest; cbn [mul_normal_loop].
  { exists p. cbn [length value]. rewrite drop_0. split_and!; (done || lia). }
  destruct rest as [| x rest]; [cbn in Hrest; lia |]. cbn [length] in *.
  destruct (split_at i p) as (lo & hi & -> & Hlo & _); [lia |]. rewrite length_app in Hl. apply words_ok_app in Hp as [Hplo Hphi].
  rewrite <- app_assoc, (ld_mid lo hi (x :: rest)) by lia.
  pose proof (mul_add_words_spec hi a w ltac:(lia) Hphi Ha Hw) as H. destruct (bn_mul_add_words hi a w) as [ws c]. destruct H as (E & Hlw & Hok & Hc).
  rewrite (store_mid lo hi ws (x :: rest)) by lia. rewrite app_assoc. change (x :: rest) with ([x] ++ rest).
  rewrite store_mid by (rewrite ?length_app; cbn; lia). rewrite app_assoc.
  destruct (IH ((lo ++ ws) ++ [c]) rest (S i)) as (p' & E' & Hl' & Hok' & Hv').
  - rewrite !words_ok_app. split_and!; [done | done | by apply Forall_singleton].
  - rewrite !length_app. cbn [length]. lia.
  - lia.
  - exists p'. split_and!; [exact E' | rewrite Hl', !length_app; cbn [length]; lia | done |]. rewrite Hv', !value_app, length_app, Hlo, Hlw.
    cbn [value]. rewrite pow_words_add, pow_words_S. rewrite Z.mul_0_r, Z.add_0_r.
    set (W := 2 ^ (64 * Z.of_nat i)). replace (W * 2 ^ (64 * Z.of_nat (length a)) * c) with (W * (value hi + w * value a - value ws)) by (rewrite <- E; ring).
    unfold W. ring.
Qed.

Lemma mul_normal_spec r a b :
  words_ok a -> words_ok b -> (length a + length b <= length r)%nat ->
  exists R, bn_mul_normal r a b = R ++ drop (length R) r /\ length R = (length a + length b)%nat /\ words_ok R /\ value R = value a * value b.
Proof.
  intros Ha Hb Hr. unfold bn_mul_normal.
  assert (forall x y, words_ok x -> words_ok y -> (length x + length y <= length r)%nat ->
    exists R, match y with
              | [] => store r 0 (replicate (length x) 0)
              | w :: y => let '(ws, c) := bn_mul_words x w in mul_normal_loop (store (store r 0 ws) (length x) [c]) x y 1
              end = R ++ drop (length R) r /\ length R = (length x + length y)%nat /\ words_ok R /\ value R = value x * value y) as Hgo.
  { clear a b Ha Hb Hr. intros x y Hx Hy Hr. destruct y as [| w y].
    - exists (replicate (length x) 0). rewrite store_0, length_replicate, value_zeros. cbn [length value]. split_and!; [done | lia | apply words_ok_zeros | lia].
    - apply words_ok_cons in Hy as [Hw Hy]. pose proof (mul_words_spec x w Hx Hw) as H. destruct (bn_mul_words x w) as [ws c]. destruct H as (E & Hl & Hok & Hc).
      cbn [length] in Hr. destruct (split_at (length x) r) as (r1 & r2 & -> & Hr1 & _); [lia |]. rewrite length_app in Hr.
      destruct r2 as [| z r2]; [cbn in Hr; lia |]. cbn [length] in Hr. rewrite (store_mid [] r1 ws (z :: r2)) by (done || lia). cbn [app].
      change (z :: r2) with ([z] ++ r2). rewrite store_mid by (done || lia). rewrite (app_assoc ws [c] r2).
      destruct (mul_normal_loop_spec x y (ws ++ [c]) r2 1) as (R & E' & HlR & HokR & HvR);
        [done | done | by apply words_ok_app; split; [| by apply Forall_singleton] | rewrite length_app; cbn; lia | lia |].
      exists R. rewrite length_app in HlR. cbn [length] in *. split_and!; [| lia | done |].
      + rewrite E'. f_equal. rewrite HlR, app_assoc. rewrite drop_app_ge by (rewrite length_app; cbn; lia). rewrite length_app. cbn [length]. f_equal. lia.
      + rewrite HvR, value_app, Hl. cbn [value]. change (2 ^ (64 * Z.of_nat 1)) with (2 ^ 64). lia. }
  destruct (length a <? length b)%nat.
  - destruct (Hgo b a) as (R & H1 & H2 & H3 & H4); [done | done | lia |]. exists R. split_and!; [done | lia | done | lia].
  - by apply Hgo.
Qed.

(** * Differences *)

(** Subtraction of words of different widths is that of the operands with zeros on top. *)
Lemma sub_part_words_spec a b cl dl :
  words_ok a -> words_ok b -> let n := (cl + Z.to_nat (Z.abs dl))%nat in
  let la := (cl + Z.to_nat dl)%nat in let lb := (cl + Z.to_nat (- dl))%nat in (la <= length a)%nat -> (lb <= length b)%nat ->
  let '(r, c) := bn_sub_part_words a b cl dl in
  value r - 2 ^ (64 * Z.of_nat n) * c = value (take la a) - value (take lb b) /\ length r = n /\ words_ok r /\ 0 <= c <= 1.
Proof.
  intros Ha Hb n la lb Hla Hlb. unfold bn_sub_part_words.
  pose proof (sub_words_spec (take cl a) (take cl b) ltac:(rewrite !length_take; lia) ltac:(auto with word_db) ltac:(auto with word_db)) as H.
  destruct (bn_sub_words (take cl a) (take cl b)) as [r c]. destruct H as (E & Hl & Hok & Hc). rewrite length_take, Nat.min_l in E, Hl by lia.
  destruct (Z.eqb_spec dl 0) as [-> | Hdl].
  { unfold n, la, lb. change (Z.to_nat (Z.abs 0)) with 0%nat. change (Z.to_nat (- 0)) with 0%nat. change (Z.to_nat 0) with 0%nat. rewrite !Nat.add_0_r. done. }
  set (k := Z.to_nat (Z.abs dl)) in *.
  assert (exists x y, words_ok x /\ words_ok y /\ length x = k /\ length y = k /\
    (if dl <? 0 then sub_words_loop (replicate k 0) (take k (drop cl b)) c else borrow_loop (take k (drop cl a)) c) = sub_each x y c /\
    value (take la a) = value (take cl a) + 2 ^ (64 * Z.of_nat cl) * value x /\ value (take lb b) = value (take cl b) + 2 ^ (64 * Z.of_nat cl) * value y) as (x & y & Hx & Hy & Lx & Ly & -> & Ea & Eb).
  { assert (forall m (l : words), (cl + m <= length l)%nat -> value (take (cl + m) l) = value (take cl l) + 2 ^ (64 * Z.of_nat cl) * value (take m (drop cl l))) as Hsplit.
    { intros m l Hm. replace (take (cl + m) l) with (take cl l ++ take m (drop cl l)) by (by rewrite take_take_drop). rewrite value_app, length_take, Nat.min_l by lia. done. }
    destruct (Z.ltb_spec dl 0).
    - exists (replicate k 0), (take k (drop cl b)). rewrite length_replicate, length_take, length_drop, value_zeros.
      unfold la, lb in *. replace (Z.to_nat dl) with 0%nat in * by lia. replace (Z.to_nat (- dl)) with k in * by lia. rewrite Nat.add_0_r.
      split_and!; [auto with word_db | auto with word_db | done | lia | by apply (sub_words_each k); rewrite length_replicate | lia | by apply Hsplit].
    - exists (take k (drop cl a)), (replicate k 0). rewrite length_replicate, length_take, length_drop, value_zeros.
      unfold la, lb in *. replace (Z.to_nat (- dl)) with 0%nat in * by lia. replace (Z.to_nat dl) with k in * by lia. rewrite Nat.add_0_r.
      split_and!; [auto with word_db | auto with word_db | lia | done | rewrite borrow_loop_each, length_take, length_drop; do 2 f_equal; lia | by apply Hsplit | lia]. }
  pose proof (sub_each_spec x y c ltac:(lia) Hx Hy Hc) as H. destruct (sub_each x y c) as [r' c']. destruct H as (E' & Hl' & Hok' & Hc').
  rewrite Ea, Eb, value_app, Hl, length_app. split_and!; [| lia | by apply words_ok_app | lia | lia].
  unfold n. rewrite pow_words_add. rewrite Lx in E'. set (P := 2 ^ (64 * Z.of_nat cl)) in *.
  replace (value r + P * value r' - P * 2 ^ (64 * Z.of_nat k) * c') with (value r + P * (value r' - 2 ^ (64 * Z.of_nat k) * c')) by ring.
  rewrite E'. lia.
Qed.

Lemma borrow_mask c : 0 <= c <= 1 -> u64 (0 - c) = mask (c =? 1).
Proof. intros Hc. assert (c = 0 \/ c = 1) as [-> | ->] by lia; done. Qed.

Lemma borrow_iff n r c x y :
  0 <= value r < 2 ^ n -> 0 <= c <= 1 -> 0 <= x -> 0 <= y < 2 ^ n -> value r - 2 ^ n * c = x - y -> (c =? 1) = (x <? y).
Proof. intros ? ? ? ? ?. destruct (Z.eqb_spec c 1), (Z.ltb_spec x y); try done; exfalso; [subst; lia | assert (c = 0) as -> by lia; lia]. Qed.

Lemma abs_sub_part_words_spec a b cl dl :
  words_ok a -> words_ok b -> let n := (cl + Z.to_nat (Z.abs dl))%nat in
  let la := (cl + Z.to_nat dl)%nat in let lb := (cl + Z.to_nat (- dl))%nat in (la <= length a)%nat -> (lb <= length b)%nat ->
  let '(r, tmp, neg) := bn_abs_sub_part_words a b cl dl in
  value r = Z.abs (value (take la a) - value (take lb b)) /\ length r = n /\ length tmp = n /\ words_ok r /\ words_ok tmp /\
  neg = mask (value (take la a) <? value (take lb b)).
Proof.
  intros Ha Hb n la lb Hla Hlb. unfold bn_abs_sub_part_words.
  pose proof (sub_part_words_spec a b cl dl Ha Hb Hla Hlb) as H. destruct (bn_sub_part_words a b cl dl) as [tmp c]. destruct H as (E & Hl & Hok & Hc).
  pose proof (sub_part_words_spec b a cl (- dl) Hb Ha) as H. rewrite Z.opp_involutive, Z.abs_opp in H. specialize (H Hlb Hla).
  destruct (bn_sub_part_words b a cl (- dl)) as [r c']. destruct H as (E' & Hl' & Hok' & Hc').
  fold n la lb in E, E', Hl, Hl'. rewrite borrow_mask by done. rewrite select_words_mask by (done || lia).
  assert (forall l k, words_ok l -> (k <= n)%nat -> 0 <= value (take k l) < 2 ^ (64 * Z.of_nat n)) as Hbd.
  { intros l k Hlk Hk. pose proof (value_nonneg _ (words_ok_take k l Hlk)). pose proof (value_bound _ (words_ok_take k l Hlk)) as Hb'. rewrite length_take in Hb'.
    split; [done |]. eapply Z.lt_le_trans; [exact Hb' |]. apply Z.pow_le_mono_r; lia. }
  pose proof (Hbd a la Ha ltac:(lia)). pose proof (Hbd b lb Hb ltac:(lia)).
  pose proof (value_nonneg _ Hok). pose proof (value_bound _ Hok) as Hbt. rewrite Hl in Hbt.
  pose proof (value_nonneg _ Hok'). pose proof (value_bound _ Hok') as Hbt'. rewrite Hl' in Hbt'.
  set (A := value (take la a)) in *. set (B := value (take lb b)) in *.
  rewrite (borrow_iff (64 * Z.of_nat n) tmp c A B) by (done || lia).
  pose proof (borrow_iff (64 * Z.of_nat n) tmp c A B ltac:(done) Hc ltac:(lia) ltac:(done) E) as C1.
  pose proof (borrow_iff (64 * Z.of_nat n) r c' B A ltac:(done) Hc' ltac:(lia) ltac:(done) E') as C2.
  destruct (Z.ltb_spec A B).
  - split_and!; [| done | done | done | done | done]. rewrite (proj2 (Z.ltb_ge B A)) in C2 by lia. apply Z.eqb_neq in C2. assert (c' = 0) as -> by lia. lia.
  - split_and!; [| done | done | done | done | done]. apply Z.eqb_neq in C1. assert (c = 0) as -> by lia. lia.
Qed.

Lemma abs_sub_words_spec a b :
  words_ok a -> words_ok b -> length a = length b ->
  let '(r, tmp) := bn_abs_sub_words a b in value r = Z.abs (value a - value b) /\ length r = length a /\ length tmp = length a /\ words_ok r /\ words_ok tmp.
Proof.
  intros Ha Hb Hl. assert (bn_abs_sub_words a b = (bn_abs_sub_part_words a b (length a) 0).1) as ->.
  { unfold bn_abs_sub_words, bn_abs_sub_part_words, bn_sub_part_words. cbn [Z.eqb Z.opp]. rewrite !firstn_all, !take_ge by lia.
    destruct (bn_sub_words a b). by destruct (bn_sub_words b a). }
  pose proof (abs_sub_part_words_spec a b (length a) 0 Ha Hb) as H. change (Z.to_nat (Z.abs 0)) with 0%nat in H. change (Z.to_nat (- 0)) with 0%nat in H.
  change (Z.to_nat 0) with 0%nat in H. rewrite !Nat.add_0_r in H. specialize (H ltac:(lia) ltac:(lia)).
  destruct (bn_abs_sub_part_words a b (length a) 0) as [[r tmp] neg]. cbn [fst]. rewrite !take_ge in H by lia. tauto.
Qed.

(** * Schoolbook squaring *)

(** The products of two different words, and the squares, that make up a square. *)
Fixpoint cross (a : words) : Z := match a with [] => 0 | x :: a => 2 ^ 64 * (x * value a) + 2 ^ 128 * cross a end.
Fixpoint squares (a : words) : Z := match a with [] => 0 | x :: a => x * x + 2 ^ 128 * squares a end.

Lemma square_split a : value a * value a = squares a + 2 * cross a.
Proof.
  induction a as [| x a IH]; cbn [value squares cross]; [done |].
  replace ((x + 2 ^ 64 * value a) * (x + 2 ^ 64 * value a)) with (x * x + 2 * (2 ^ 64 * (x * value a)) + 2 ^ 128 * (value a * value a)) by ring.
  rewrite IH. ring.
Qed.

Lemma square_parts a : words_ok a -> 0 <= cross a /\ 0 <= squares a.
Proof.
  intros Ha. induction Ha as [| x a [Hx _] Ha IH]; cbn [squares cross]; [lia |]. pose proof (value_nonneg a Ha). nia.
Qed.

Lemma sqr_words_spec a :
  words_ok a -> words_ok (bn_sqr_words a) /\ length (bn_sqr_words a) = (length a * 2)%nat /\ value (bn_sqr_words a) = squares a.
Proof.
  intros Ha. induction Ha as [| x a Hx Ha (H1 & H2 & H3)]; [by split_and!; [apply Forall_nil | |] |]. unfold bn_sqr_words in *. cbn [map concat].
  pose proof (sqr_spec x Hx) as H. destruct (sqr x) as [r0 r1]. destruct H as (E & Hr0 & Hr1). cbn [app length value squares].
  split_and!; [by rewrite !words_ok_cons | lia | rewrite H3; lia].
Qed.

Lemma sqr_rows_cons r w rest off :
  rest <> [] ->
  sqr_rows r (w :: rest) off =
  let '(ws, c) := bn_mul_add_words (ld r off (length rest)) rest w in sqr_rows (store (store r off ws) (off + length rest) [c]) rest (off + 2).
Proof. by destruct rest. Qed.

Lemma sqr_rows_spec ap p q o :
  words_ok ap -> words_ok p -> length p = (o + length ap)%nat -> ap <> [] -> (length ap - 1 <= length q)%nat ->
  exists p', sqr_rows (p ++ q) ap (S o) = p' ++ drop (length ap - 1) q /\ length p' = (length p + (length ap - 1))%nat /\ words_ok p' /\
             value p' = value p + 2 ^ (64 * Z.of_nat o) * cross ap.
Proof.
  intros Ha. revert p q o. induction Ha as [| w ap Hw Ha IH]; intros p q o Hp Hl Hne Hq; [done |].
  destruct (decide (ap = [])) as [-> | Hne'].
  { exists p. cbn [sqr_rows]. cbn [length cross value Nat.sub]. rewrite drop_0. split_and!; (done || lia). }
  assert (1 <= length ap)%nat as Hap by (destruct ap; [done | cbn; lia]). cbn [length Nat.sub] in *. rewrite Nat.sub_0_r in *.
  rewrite sqr_rows_cons by done.
  destruct q as [| x q]; [cbn in Hq; lia |]. cbn [length] in Hq.
  destruct (split_at (S o) p) as (lo & hi & -> & Hlo & _); [lia |]. rewrite length_app in Hl. apply words_ok_app in Hp as [Hplo Hphi].
  rewrite <- app_assoc, (ld_mid lo hi (x :: q)) by lia.
  pose proof (mul_add_words_spec hi ap w ltac:(lia) Hphi Ha Hw) as H. destruct (bn_mul_add_words hi ap w) as [ws c]. destruct H as (E & Hlw & Hok & Hc).
  rewrite (store_mid lo hi ws (x :: q)) by lia. rewrite app_assoc. change (x :: q) with ([x] ++ q).
  rewrite store_mid by (rewrite ?length_app; cbn [length]; lia). rewrite app_assoc. replace (S o + 2)%nat with (S (S (S o))) by lia.
  destruct (IH ((lo ++ ws) ++ [c]) q (S (S o))) as (p' & E' & Hl' & Hok' & Hv').
  - rewrite !words_ok_app. split_and!; [done | done | by apply Forall_singleton].
  - rewrite !length_app. cbn [length]. lia.
  - done.
  - lia.
  - exists p'. rewrite E'. split_and!; [| rewrite Hl', !length_app; cbn [length]; lia | done |].
    + f_equal. by replace (length ap) with (S (length ap - 1)) at 2 by lia.
    + rewrite Hv', !value_app, length_app, Hlo, Hlw, pow_words_add, !pow_words_S. cbn [value cross]. rewrite Z.mul_0_r, Z.add_0_r.
      set (W := 2 ^ (64 * Z.of_nat o)). replace (2 ^ 64 * W * 2 ^ (64 * Z.of_nat (length ap)) * c) with (2 ^ 64 * W * (value hi + w * value ap - value ws)) by (rewrite <- E; ring).
      ring.
Qed.

(** The words of [r] once the products of two different words are summed up. *)
Lemma sqr_cross_words r a0 rest :
  let a := a0 :: rest in let n := length a in words_ok a -> (n * 2 <= length r)%nat ->
  exists R, words_ok R /\ length R = (n * 2)%nat /\ value R = cross a /\
    (let r := store (store r (n * 2 - 1) [0]) 0 [0] in
     let r := if (1 <? n)%nat then let '(ws, c) := bn_mul_words rest a0 in store (store r 1 ws) n [c] else r in
     if (2 <? n)%nat then sqr_rows r rest 3 else r) = R ++ drop (n * 2) r.
Proof.
  intros a n Ha Hr. destruct (split_at (n * 2) r) as (r1 & r2 & -> & Hr1 & _); [lia |]. rewrite drop_app_length' by lia. clear Hr.
  assert (n = S (length rest)) as En by done. clearbody n.
  apply words_ok_cons in Ha as [Ha0 Hrest]. destruct r1 as [| x0 r1]; [cbn in Hr1; lia |]. cbn [length] in Hr1.
  destruct (exists_last (l := r1)) as (mid & y & ->); [intros ->; cbn in Hr1; lia |]. rewrite length_app in Hr1. cbn [length] in Hr1.
  assert (store (store ((x0 :: mid ++ [y]) ++ r2) (n * 2 - 1) [0]) 0 [0] = 0 :: mid ++ [0] ++ r2) as E0.
  { replace ((x0 :: mid ++ [y]) ++ r2) with ((x0 :: mid) ++ [y] ++ r2) by (cbn; by rewrite <- app_assoc).
    rewrite store_mid by (cbn [length]; lia). done. }
  cbv zeta. rewrite E0. clear E0. destruct rest as [| a1 rest].
  { cbn [length] in En. subst n. destruct mid; [| cbn in Hr1; lia]. exists [0; 0]. split_and!; [by apply (words_ok_zeros 2) | done | cbn; lia | done]. }
  rewrite (proj2 (Nat.ltb_lt 1 n)) by (cbn [length] in En; lia).
  pose proof (mul_words_spec (a1 :: rest) a0 Hrest Ha0) as H. destruct (bn_mul_words (a1 :: rest) a0) as [ws c]. destruct H as (E & Hlw & Hok & Hc).
  assert (length ws = n - 1)%nat as Hlws by lia. destruct (split_at (n - 1) mid) as (m1 & m2 & -> & Hm1 & _); [lia |]. rewrite length_app in Hr1.
  destruct m2 as [| m3 q]; [cbn [length] in *; lia |]. cbn [length] in Hr1.
  replace (0 :: (m1 ++ m3 :: q) ++ [0] ++ r2) with ([0] ++ m1 ++ [m3] ++ q ++ [0] ++ r2) by (cbn; by rewrite <- !app_assoc).
  rewrite (store_mid [0] m1 ws) by (done || lia). rewrite app_assoc.
  rewrite store_mid by (rewrite ?length_app; cbn [length] in *; lia). rewrite app_assoc.
  set (p := ([0] ++ ws) ++ [c]). assert (length p = S n) as Hp by (unfold p; rewrite !length_app; cbn [length]; lia).
  assert (words_ok p) as Hokp by (unfold p; apply words_ok_app; split; [apply words_ok_cons; split; [unfold fits; lia | done] | by apply Forall_singleton]).
  assert (value p = 2 ^ 64 * (a0 * value (a1 :: rest))) as Hvp.
  { unfold p. rewrite value_app. cbn [app length]. rewrite pow_words_S, Hlw, <- E. cbn [value]. ring. }
  destruct (sqr_rows_spec (a1 :: rest) p (q ++ [0] ++ r2) 2) as (p' & E' & Hl' & Hok' & Hv');
    [done | done | cbn [length] in *; lia | done | rewrite length_app; cbn [length] in *; lia |].
  assert (drop (length rest) (q ++ [0] ++ r2) = [0] ++ r2) as Ed by (apply drop_app_length'; cbn [length] in *; lia).
  cbn [length Nat.sub] in E'. rewrite Nat.sub_0_r, Ed in E'.
  exists (p' ++ [0]). split_and!.
  - apply words_ok_app. split; [done | by apply (words_ok_zeros 1)].
  - rewrite length_app, Hl'. cbn [length] in *. lia.
  - rewrite value_app, Hv', Hvp. change (2 ^ (64 * Z.of_nat 2)) with (2 ^ 128). cbn [a value cross]. ring.
  - rewrite <- app_assoc, <- E'. destruct (Nat.ltb_spec 2 n); [done |]. destruct rest; [done | cbn [length] in *; lia].
Qed.

Lemma sqr_normal_spec r a tmp :
  words_ok a -> (length a * 2 <= length r)%nat -> (length a * 2 <= length tmp)%nat ->
  exists R tmp', bn_sqr_normal r a tmp = (R ++ drop (length R) r, tmp') /\ length tmp' = length tmp /\ (words_ok tmp -> words_ok tmp') /\
    length R = (length a * 2)%nat /\ words_ok R /\ value R = value a * value a.
Proof.
  intros Ha Hr Ht. destruct a as [| a0 rest]; [by exists [], tmp |]. set (n := length (a0 :: rest)) in *.
  destruct (sqr_cross_words r a0 rest Ha Hr) as (R & Hok & Hl & Hv & E). fold n in Hl, E. cbn [bn_sqr_normal]. fold n. cbv zeta in E |- *. rewrite E.
  pose proof (square_split (a0 :: rest)) as Hs. destruct (square_parts _ Ha) as [Hc Hq]. destruct (sqr_words_spec _ Ha) as (Hsok & Hsl & Hsv). fold n in Hsl.
  pose proof (product_bound (a0 :: rest) (a0 :: rest) n n Ha Ha eq_refl eq_refl) as Hb. replace (n + n)%nat with (n * 2)%nat in Hb by lia.
  rewrite ld_front by lia. pose proof (add_words_spec R R eq_refl Hok Hok) as H.
  destruct (bn_add_words R R) as [x c]. destruct H as (E1 & Hl1 & Hok1 & Hc1). rewrite Hl in E1.
  pose proof (value_nonneg _ Hok1). assert (c = 0) as -> by nia.
  rewrite store_front, ld_front, (ld_store_same tmp 0) by lia.
  pose proof (add_words_spec x (bn_sqr_words (a0 :: rest)) ltac:(lia) Hok1 Hsok) as Hy. destruct (bn_add_words x _) as [y c]. destruct Hy as (E2 & Hl2 & Hok2 & Hc2).
  rewrite Hl1, Hl in E2. pose proof (value_nonneg _ Hok2). assert (c = 0) as -> by nia.
  rewrite store_front by lia. exists y, (store tmp 0 (bn_sqr_words (a0 :: rest))).
  split_and!; [by rewrite Hl2, Hl1, Hl | apply length_store; lia | intros; by apply store_ok | lia | done | lia].
Qed.

End BnMulWords.
