(* ===== verification/BnKaratsuba.v ===== *)
(** Karatsuba multiplication and squaring (crypto/fipsmodule/bn/mul.c): [bn_mul_recursive],
    [bn_mul_part_recursive] and [bn_sqr_recursive], in place, with their scratch space.

    [r] and [t] are the arrays from the pointer on, [a] and [b] the words from the pointer on;
    a recursive call on a part of [r] or [t] gets that part, and what it returns is put back.
    The calls of one function work on parts that do not overlap.  The depth of the recursion is
    the logarithm of the number of words, less than [fuel]; [None] is a failed assertion. *)

From S2P Require Import Prelude Internal Modes BnWords BnMulWords.

Module BnKaratsuba.
Import Internal Modes BnWords BnMulWords.

Definition BN_MUL_RECURSIVE_SIZE_NORMAL : nat := 16.
Definition BN_SQR_RECURSIVE_SIZE_NORMAL : nat := BN_MUL_RECURSIVE_SIZE_NORMAL.

(** [n != 0 && (n & (n - 1)) == 0] *)
Definition is_pow2 (n : nat) : bool := negb (n =? 0)%nat && (Z.land (Z.of_nat n) (Z.of_nat n - 1) =? 0).

(** [r[i] = old + c; c = r[i] < old], from [i] to the end. *)
Fixpoint propagate (r : words) (c : Z) : words * Z :=
  match r with
  | [] => ([], c)
  | old :: r =>
      let x := u64 (old + c) in
      let '(r, c) := propagate r (Z.b2z (x <? old)) in
      (x :: r, c)
  end.

(** The end of the three functions: [r1,r2,c = r1,r2 + t2,t3,c], and the carry bit is propagated. *)
Definition add_middle (r t : words) (n : nat) (c : Z) : option words :=
  let n2 := (2 * n)%nat in
  let '(x, carry) := bn_add_words (ld r n n2) (ld t n2 n2) in
  let r := store r n x in
  let '(x, c) := propagate (ld r (n + n2) n) (u64 (c + carry)) in
  if c =? 0 then Some (store r (n + n2) x) else None.

(** The end of [bn_mul_recursive] and [bn_mul_part_recursive], once [r] holds [a0*b0] and [a1*b1]
    and [t2,t3] holds [|(a0 - a1)*(b1 - b0)|], of sign [neg]. *)
Definition combine (r t : words) (n : nat) (neg : Z) : option (words * words) :=
  let n2 := (2 * n)%nat in
  let '(x, c) := bn_add_words (ld r 0 n2) (ld r n2 n2) in
  let t := store t 0 x in
  let '(x, borrow) := bn_sub_words (ld t 0 n2) (ld t n2 n2) in
  let t := store t (n2 * 2) x in
  let c_neg := u64 (c - borrow) in
  let '(x, carry) := bn_add_words (ld t 0 n2) (ld t n2 n2) in
  let t := store t n2 x in
  let c_pos := u64 (c + carry) in
  let t := store t n2 (bn_select_words neg (ld t (n2 * 2) n2) (ld t n2 n2)) in
  let c := constant_time_select_w neg c_neg c_pos in
  r ← add_middle r t n c;
  Some (r, t).

(** [t0 = |a0 - a1|] and [t1 = |b1 - b0|], and the sign of the product of the differences as a mask. *)
Definition differences (a b t : words) (n tna tnb : nat) : words * Z :=
  let n2 := (2 * n)%nat in
  let '(x, tmp, neg) := bn_abs_sub_part_words a (drop n a) tna (Z.of_nat n - Z.of_nat tna) in
  let t := store (store t n2 tmp) 0 x in
  let '(x, tmp, neg') := bn_abs_sub_part_words (drop n b) b tnb (Z.of_nat tnb - Z.of_nat n) in
  let t := store (store t n2 tmp) n x in
  (t, Z.lxor neg neg').

Fixpoint bn_mul_recursive (fuel : nat) (r a b : words) (n2 : nat) (dna dnb : Z) (t : words) : option (words * words) :=
  match fuel with
  | O => None
  | S fuel =>
      if negb (is_pow2 n2 && (-8 <=? dna) && (dna <=? 0) && (-8 <=? dnb) && (dnb <=? 0)) then None
      else if (n2 =? 8)%nat && (dna =? 0) && (dnb =? 0) then Some (store r 0 (bn_mul_comba8 a b), t)
      else if (n2 <? BN_MUL_RECURSIVE_SIZE_NORMAL)%nat then
        let la := Z.to_nat (Z.of_nat n2 + dna) in
        let lb := Z.to_nat (Z.of_nat n2 + dnb) in
        let r := bn_mul_normal r (take la a) (take lb b) in
        Some (if dna + dnb <? 0 then store r (la + lb) (replicate (Z.to_nat (- (dna + dnb))) 0) else r, t)
      else
        let n := Nat.div n2 2 in
        let '(t, neg) := differences a b t n (Z.to_nat (Z.of_nat n + dna)) (Z.to_nat (Z.of_nat n + dnb)) in
        '(r, t) ←
          (if (n =? 4)%nat && (dna =? 0) && (dnb =? 0) then
             let t := store t n2 (bn_mul_comba4 (ld t 0 n) (ld t n n)) in
             Some (store (store r 0 (bn_mul_comba4 a b)) n2 (bn_mul_comba4 (drop n a) (drop n b)), t)
           else if (n =? 8)%nat && (dna =? 0) && (dnb =? 0) then
             let t := store t n2 (bn_mul_comba8 (ld t 0 n) (ld t n n)) in
             Some (store (store r 0 (bn_mul_comba8 a b)) n2 (bn_mul_comba8 (drop n a) (drop n b)), t)
           else
             '(x, p) ← bn_mul_recursive fuel (ld t n2 n2) (ld t 0 n) (ld t n n) n 0 0 (drop (n2 * 2) t);
             let t := store (store t n2 x) (n2 * 2) p in
             '(r, p) ← bn_mul_recursive fuel r a b n 0 0 (drop (n2 * 2) t);
             let t := store t (n2 * 2) p in
             '(x, p) ← bn_mul_recursive fuel (drop n2 r) (drop n a) (drop n b) n dna dnb (drop (n2 * 2) t);
             Some (store r n2 x, store t (n2 * 2) p));
        combine r t n neg
  end.

(** [OPENSSL_memset(r + off, 0, k)]: [k] bytes, not words. *)
Definition clear_bytes (r : words) (off k : nat) : words :=
  let r := store r off (replicate (Nat.div k 8) 0) in
  let i := (off + Nat.div k 8)%nat in
  let bits := 8 * Z.of_nat (Nat.modulo k 8) in
  if (Nat.modulo k 8 =? 0)%nat then r else store r i [Z.shiftl (Z.shiftr (r !!! i) bits) bits].

(** The loop that halves [i]: which of the two functions is called, and [i]. *)
Inductive part_call := Part (i : nat) | Whole (i : nat).

Fixpoint halve_loop (fuel i tna tnb : nat) : option part_call :=
  match fuel with
  | O => None
  | S fuel =>
      let i := Nat.div i 2 in
      if (i <? tna)%nat || (i <? tnb)%nat then Some (Part i)
      else if (i =? tna)%nat || (i =? tnb)%nat then Some (Whole i)
      else halve_loop fuel i tna tnb
  end.

Fixpoint bn_mul_part_recursive (fuel : nat) (r a b : words) (n : nat) (tna tnb : Z) (t : words) : option (words * words) :=
  match fuel with
  | O => None
  | S fuel =>
      if negb (is_pow2 n && (0 <=? tna) && (tna <? Z.of_nat n) && (0 <=? tnb) && (tnb <? Z.of_nat n) && (-1 <=? tna - tnb) && (tna - tnb <=? 1)) then None
      else
        let n2 := (2 * n)%nat in
        let tna := Z.to_nat tna in
        let tnb := Z.to_nat tnb in
        if (n <? 8)%nat then
          let r := bn_mul_normal r (take (n + tna) a) (take (n + tnb) b) in
          Some (clear_bytes r (n2 + tna + tnb) (n2 - tna - tnb), t)
        else
          let '(t, neg) := differences a b t n tna tnb in
          '(r, t) ←
            (if (n =? 8)%nat then
               let t := store t n2 (bn_mul_comba8 (ld t 0 n) (ld t n n)) in
               let r := store r 0 (bn_mul_comba8 a b) in
               let r := store r n2 (bn_mul_normal (drop n2 r) (take tna (drop n a)) (take tnb (drop n b))) in
               Some (store r (n2 + tna + tnb) (replicate (n2 - tna - tnb) 0), t)
             else
               '(x, p) ← bn_mul_recursive fuel (ld t n2 n2) (ld t 0 n) (ld t n n) n 0 0 (drop (n2 * 2) t);
               let t := store (store t n2 x) (n2 * 2) p in
               '(r, p) ← bn_mul_recursive fuel r a b n 0 0 (drop (n2 * 2) t);
               let t := store t (n2 * 2) p in
               let r := store r n2 (replicate n2 0) in
               if (tna <? BN_MUL_RECURSIVE_SIZE_NORMAL)%nat && (tnb <? BN_MUL_RECURSIVE_SIZE_NORMAL)%nat then
                 Some (store r n2 (bn_mul_normal (drop n2 r) (take tna (drop n a)) (take tnb (drop n b))), t)
               else
                 '(x, p) ←
                   (call ← halve_loop fuel n tna tnb;
                   match call with
                   | Part i =>
                       bn_mul_part_recursive fuel (drop n2 r) (drop n a) (drop n b) i
                         (Z.of_nat tna - Z.of_nat i) (Z.of_nat tnb - Z.of_nat i) (drop (n2 * 2) t)
                   | Whole i =>
                       bn_mul_recursive fuel (drop n2 r) (drop n a) (drop n b) i
                         (Z.of_nat tna - Z.of_nat i) (Z.of_nat tnb - Z.of_nat i) (drop (n2 * 2) t)
                   end);
                 Some (store r n2 x, store t (n2 * 2) p));
          combine r t n neg
  end.

(** The end of [bn_sqr_recursive], once [r] holds [a0^2] and [a1^2] and [t2,t3] holds [|a0 - a1|^2]. *)
Definition sqr_combine (r t : words) (n : nat) : option (words * words) :=
  let n2 := (2 * n)%nat in
  let '(x, c) := bn_add_words (ld r 0 n2) (ld r n2 n2) in
  let t := store t 0 x in
  let '(x, borrow) := bn_sub_words (ld t 0 n2) (ld t n2 n2) in
  let t := store t n2 x in
  r ← add_middle r t n (u64 (c - borrow));
  Some (r, t).

Fixpoint bn_sqr_recursive (fuel : nat) (r a : words) (n2 : nat) (t : words) : option (words * words) :=
  match fuel with
  | O => None
  | S fuel =>
      if negb (is_pow2 n2) then None
      else if (n2 =? 4)%nat then Some (store r 0 (bn_sqr_comba4 a), t)
      else if (n2 =? 8)%nat then Some (store r 0 (bn_sqr_comba8 a), t)
      else if (n2 <? BN_SQR_RECURSIVE_SIZE_NORMAL)%nat then Some (bn_sqr_normal r (take n2 a) t)
      else
        let n := Nat.div n2 2 in
        let '(x, tmp) := bn_abs_sub_words (take n a) (take n (drop n a)) in
        let t := store (store t n tmp) 0 x in
        '(r, t) ←
          ('(x, p) ← bn_sqr_recursive fuel (ld t n2 n2) (ld t 0 n) n (drop (n2 * 2) t);
           let t := store (store t n2 x) (n2 * 2) p in
           '(r, p) ← bn_sqr_recursive fuel r a n (drop (n2 * 2) t);
           let t := store t (n2 * 2) p in
           '(x, p) ← bn_sqr_recursive fuel (drop n2 r) (drop n a) n (drop (n2 * 2) t);
           Some (store r n2 x, store t (n2 * 2) p));
        sqr_combine r t n
  end.

#[local] Opaque bn_mul_comba4 bn_mul_comba8 bn_sqr_comba4 bn_sqr_comba8.

(** * Carries *)

Lemma pow2_true k : is_pow2 (2 ^ k) = true.
Proof.
  unfold is_pow2. pose proof (Nat.pow_nonzero 2 k ltac:(lia)). apply andb_true_intro. split; [by apply negb_true_iff, Nat.eqb_neq |].
  apply Z.eqb_eq. rewrite Nat2Z.inj_pow, Z.sub_1_r, <- Z.ones_equiv, Z.land_ones by lia. apply Z.mod_same. lia.
Qed.

Lemma propagate_spec r c :
  words_ok r -> fits 64 c -> (r = [] -> c <= 1) ->
  let '(x, c') := propagate r c in
  value x + 2 ^ (64 * Z.of_nat (length r)) * c' = value r + c /\ length x = length r /\ words_ok x /\ 0 <= c' <= 1.
Proof.
  intros Hr. revert c. induction Hr as [| w r [Hw Hw'] Hr IH]; intros c [Hc Hc'] Hn; cbn [propagate value length].
  { rewrite Z.mul_0_r, Z.pow_0_r. specialize (Hn eq_refl). split_and!; (apply Forall_nil_2 || done || lia). }
  set (x := u64 (w + c)). set (c1 := Z.b2z (x <? w)).
  assert (x + 2 ^ 64 * c1 = w + c /\ fits 64 x /\ 0 <= c1 <= 1) as (E & Hx & Hc1).
  { unfold c1, x, wrap, fits. destruct (Z.lt_ge_cases (w + c) (2 ^ 64)).
    - rewrite Z.mod_small by lia. destruct (Z.ltb_spec (w + c) w); cbn [Z.b2z]; lia.
    - replace ((w + c) mod 2 ^ 64) with (w + c - 2 ^ 64) by (apply (Z.mod_unique_pos _ _ 1); lia).
      destruct (Z.ltb_spec (w + c - 2 ^ 64) w); cbn [Z.b2z]; lia. }
  pose proof (IH c1 ltac:(unfold fits; lia) ltac:(lia)) as H. destruct (propagate r c1) as [y c2]. destruct H as (E' & Hl & Hok & Hc2).
  cbn [length value]. rewrite pow_words_S. split_and!; [| lia | by apply words_ok_cons | lia | lia].
  replace (x + 2 ^ 64 * value y + 2 ^ 64 * 2 ^ (64 * Z.of_nat (length r)) * c2) with (x + 2 ^ 64 * (value y + 2 ^ (64 * Z.of_nat (length r)) * c2)) by ring.
  rewrite E'. lia.
Qed.

(** [hi] words of carries that must be zero, when the number fits. *)
Lemma no_carry (R : words) n c v : words_ok R -> length R = n -> 0 <= c -> value R + 2 ^ (64 * Z.of_nat n) * c = v -> v < 2 ^ (64 * Z.of_nat n) -> c = 0.
Proof.
  intros Hok Hl Hc E Hv. pose proof (value_nonneg R Hok). set (P := 2 ^ (64 * Z.of_nat n)) in *.
  destruct (Z.eq_dec c 0); [done |]. assert (0 < P) by (apply Z.pow_pos_nonneg; lia). assert (P * 1 <= P * c) by (apply Z.mul_le_mono_nonneg_l; lia). lia.
Qed.

Lemma add_middle_spec R0 M R3 rest t n c :
  length R0 = n -> length M = (2 * n)%nat -> length R3 = n -> (1 <= n)%nat -> words_ok R0 -> words_ok M -> words_ok R3 ->
  (4 * n <= length t)%nat -> words_ok (ld t (2 * n) (2 * n)) -> 0 <= c <= 2 ->
  let v := value (R0 ++ M ++ R3) + 2 ^ (64 * Z.of_nat n) * (value (ld t (2 * n) (2 * n)) + 2 ^ (64 * Z.of_nat (2 * n)) * c) in
  v < 2 ^ (64 * Z.of_nat (4 * n)) ->
  exists R, add_middle (R0 ++ M ++ R3 ++ rest) t n c = Some (R ++ rest) /\ length R = (4 * n)%nat /\ words_ok R /\ value R = v.
Proof.
  intros L0 LM L3 Hn H0 HM H3 Lt HT Hc v Hv. unfold add_middle. cbv zeta. rewrite (ld_mid R0 M) by lia.
  set (T := ld t (2 * n) (2 * n)) in *. assert (length T = 2 * n)%nat as LT by (apply length_ld; lia).
  pose proof (add_words_spec M T ltac:(lia) HM HT) as H. destruct (bn_add_words M T) as [x carry]. destruct H as (E & Lx & Hx & Hcarry).
  rewrite (store_mid R0 M x) by lia. rewrite (app_assoc R0 x). rewrite (ld_mid (R0 ++ x) R3) by (rewrite ?length_app; lia).
  unfold wrap. rewrite Z.mod_small by lia.
  pose proof (propagate_spec R3 (c + carry) H3 ltac:(unfold fits; lia) ltac:(intros ->; cbn in L3; lia)) as H.
  destruct (propagate R3 (c + carry)) as [y c']. destruct H as (E' & Ly & Hy & Hc').
  rewrite (store_mid (R0 ++ x) R3 y) by (rewrite ?length_app; lia).
  assert (length ((R0 ++ x) ++ y) = (4 * n)%nat) as LR by (rewrite !length_app; lia).
  assert (words_ok ((R0 ++ x) ++ y)) as HR by (rewrite !words_ok_app; done).
  assert (value ((R0 ++ x) ++ y) + 2 ^ (64 * Z.of_nat (4 * n)) * c' = v) as EV.
  { unfold v. rewrite !value_app, length_app, Lx, LM, L0, (pow_words_add n (2 * n)). rewrite L3 in E'. rewrite LM in E.
    replace (4 * n)%nat with (n + 2 * n + n)%nat by lia. rewrite (pow_words_add (n + 2 * n) n), (pow_words_add n (2 * n)). set (W := 2 ^ (64 * Z.of_nat n)) in *. set (W2 := 2 ^ (64 * Z.of_nat (2 * n))) in *.
    replace (value R0 + W * value x + W * W2 * value y + W * W2 * W * c') with (value R0 + W * value x + W * W2 * (value y + W * c')) by ring.
    rewrite E'. replace (value x) with (value M + value T - W2 * carry) by lia. ring. }
  assert (c' = 0) as -> by (apply (no_carry _ _ c' v HR LR); [lia | done | done]). cbn [Z.eqb].
  exists ((R0 ++ x) ++ y). rewrite <- !app_assoc in *. split_and!; [done | done | done | lia].
Qed.

(** * The products put together *)

(** [r] holds [v] in its first [k] words, and [t] keeps its length. *)
Definition computes (p : option (words * words)) (r t : words) (k : nat) (v : Z) : Prop :=
  exists R t', p = Some (R ++ drop k r, t') /\ length t' = length t /\ (words_ok t -> words_ok t') /\ length R = k /\ words_ok R /\ value R = v.

(** [r0,r1] holds [v0], [r2,r3] holds [v1] and [t2,t3] holds [vt]. *)
Definition products (p : option (words * words)) (r t : words) (n : nat) (v0 v1 vt : Z) : Prop :=
  exists P Q t', p = Some (P ++ Q ++ drop (4 * n) r, t') /\ length t' = length t /\ (words_ok t -> words_ok t') /\
    length P = (2 * n)%nat /\ words_ok P /\ value P = v0 /\ length Q = (2 * n)%nat /\ words_ok Q /\ value Q = v1 /\
    words_ok (ld t' (2 * n) (2 * n)) /\ value (ld t' (2 * n) (2 * n)) = vt.

Lemma products_len p r t t' n v0 v1 vt :
  length t = length t' -> (words_ok t' -> words_ok t) -> products p r t n v0 v1 vt -> products p r t' n v0 v1 vt.
Proof. intros Hl Ht (P & Q & t'' & E & H & Hok & Hr). exists P, Q, t''. rewrite <- Hl. tauto. Qed.

(** Four quarters of the product, as [add_middle] reads them. *)
Lemma add_middle_halves P Q rest t n c v :
  length P = (2 * n)%nat -> length Q = (2 * n)%nat -> (1 <= n)%nat -> words_ok P -> words_ok Q ->
  (4 * n <= length t)%nat -> words_ok (ld t (2 * n) (2 * n)) -> 0 <= c <= 2 ->
  value P + 2 ^ (64 * Z.of_nat (2 * n)) * value Q + 2 ^ (64 * Z.of_nat n) * (value (ld t (2 * n) (2 * n)) + 2 ^ (64 * Z.of_nat (2 * n)) * c) = v ->
  v < 2 ^ (64 * Z.of_nat (4 * n)) ->
  exists R, add_middle (P ++ Q ++ rest) t n c = Some (R ++ rest) /\ length R = (4 * n)%nat /\ words_ok R /\ value R = v.
Proof.
  intros LP LQ Hn HP HQ Lt HT Hc Ev Hv.
  destruct (split_at n P) as (R0 & R1 & -> & L0 & _); [lia |]. destruct (split_at n Q) as (R2 & R3 & -> & L2 & _); [lia |].
  rewrite length_app in LP, LQ. apply words_ok_app in HP as [H0 H1], HQ as [H2 H3].
  replace ((R0 ++ R1) ++ (R2 ++ R3) ++ rest) with (R0 ++ (R1 ++ R2) ++ R3 ++ rest) by (by rewrite <- !app_assoc).
  assert (value (R0 ++ (R1 ++ R2) ++ R3) = value (R0 ++ R1) + 2 ^ (64 * Z.of_nat (2 * n)) * value (R2 ++ R3)) as EP.
  { rewrite !value_app, length_app, L0, L2. replace (length R1) with n by lia. replace (2 * n)%nat with (n + n)%nat by lia. rewrite !pow_words_add. ring. }
  destruct (add_middle_spec R0 (R1 ++ R2) R3 rest t n c) as (R & E & LR & HR & HvR); try done; try (rewrite ?length_app; lia).
  - by apply words_ok_app.
  - exists R. split_and!; [done | done | done |]. by rewrite HvR, EP.
Qed.

Lemma combine_spec P Q rest t n (s : bool) :
  length P = (2 * n)%nat -> length Q = (2 * n)%nat -> (1 <= n)%nat -> words_ok P -> words_ok Q ->
  (6 * n <= length t)%nat -> words_ok (ld t (2 * n) (2 * n)) ->
  let mid := value P + value Q + (if s then - value (ld t (2 * n) (2 * n)) else value (ld t (2 * n) (2 * n))) in
  let v := value P + 2 ^ (64 * Z.of_nat (2 * n)) * value Q + 2 ^ (64 * Z.of_nat n) * mid in
  0 <= mid -> v < 2 ^ (64 * Z.of_nat (4 * n)) ->
  exists R t', combine (P ++ Q ++ rest) t n (mask s) = Some (R ++ rest, t') /\ length t' = length t /\ (words_ok t -> words_ok t') /\ length R = (4 * n)%nat /\ words_ok R /\ value R = v.
Proof.
  intros LP LQ Hn HP HQ Lt HT mid v Hmid Hv. unfold combine. cbv zeta. rewrite ld_front, (ld_mid P Q) by lia.
  pose proof (add_words_spec P Q ltac:(lia) HP HQ) as H. destruct (bn_add_words P Q) as [S1 c]. destruct H as (E1 & L1 & H1 & Hc). rewrite LP in *.
  set (T := ld t (2 * n) (2 * n)) in *. assert (length T = 2 * n)%nat as LT by (apply length_ld; lia).
  set (t1 := store t 0 S1). assert (length t1 = length t) as Lt1 by (apply length_store; lia).
  assert (ld t1 0 (2 * n) = S1) as -> by (apply ld_store_same; lia).
  assert (ld t1 (2 * n) (2 * n) = T) as -> by (apply ld_store_after; lia).
  pose proof (sub_words_spec S1 T ltac:(lia) H1 HT) as H. destruct (bn_sub_words S1 T) as [D bw]. destruct H as (E2 & L2 & H2 & Hbw). rewrite L1 in *.
  set (t2 := store t1 (2 * n * 2) D). assert (length t2 = length t) as Lt2 by (unfold t2; rewrite length_store; lia).
  assert (ld t2 0 (2 * n) = S1) as -> by (unfold t2; rewrite ld_store_before by lia; apply ld_store_same; lia).
  assert (ld t2 (2 * n) (2 * n) = T) as -> by (unfold t2; rewrite ld_store_before by lia; apply ld_store_after; lia).
  pose proof (add_words_spec S1 T ltac:(lia) H1 HT) as H. destruct (bn_add_words S1 T) as [S2 cy]. destruct H as (E3 & L3 & H3 & Hcy). rewrite L1 in *.
  set (t3 := store t2 (2 * n) S2). assert (length t3 = length t) as Lt3 by (unfold t3; rewrite length_store; lia).
  assert (ld t3 (2 * n * 2) (2 * n) = D) as -> by (unfold t3; rewrite ld_store_after by lia; apply ld_store_same; lia).
  assert (ld t3 (2 * n) (2 * n) = S2) as -> by (apply ld_store_same; lia).
  rewrite select_words_mask by (done || lia). rewrite select_w_mask by (apply wrap_fits; lia).
  set (X := if s then D else S2). assert (length X = 2 * n)%nat as LX by (unfold X; destruct s; lia).
  assert (words_ok X) as HX by (unfold X; by destruct s).
  set (t4 := store t3 (2 * n) X). assert (length t4 = length t) as Lt4 by (unfold t4; rewrite length_store; lia).
  assert (ld t4 (2 * n) (2 * n) = X) as EX by (apply ld_store_same; lia).
  set (W2 := 2 ^ (64 * Z.of_nat (2 * n))) in *. pose proof (value_nonneg D H2). pose proof (value_bound D H2) as HbD. rewrite L2 in HbD. fold W2 in HbD.
  assert (0 < W2) by (apply Z.pow_pos_nonneg; lia).
  set (k := if s then c - bw else c + cy).
  assert (value X + W2 * k = mid) as Emid by (unfold X, k, mid; destruct s; lia).
  assert (0 <= k <= 2) as Hk.
  { split; [| unfold k; destruct s; lia]. unfold k in *. destruct s; [| lia]. destruct (Z.lt_ge_cases (c - bw) 0); [| done].
    assert (W2 * (c - bw) <= W2 * (-1)) by (apply Z.mul_le_mono_nonneg_l; lia). unfold X in Emid. lia. }
  assert ((if s then u64 (c - bw) else u64 (c + cy)) = k) as -> by (unfold k in *; destruct s; unfold wrap; apply Z.mod_small; lia).
  destruct (add_middle_halves P Q rest t4 n k v) as (R & E & LR & HR & HvR); try done; try lia.
  - by rewrite EX.
  - rewrite EX. fold W2. by rewrite Emid.
  - exists R, t4. rewrite E. split_and!; try done. intros. unfold t4, t3, t2, t1. by repeat apply store_ok.
Qed.

Lemma lxor_masks x y : Z.lxor (mask x) (mask y) = mask (xorb x y).
Proof. by destruct x, y. Qed.

Lemma differences_spec a b t n tna tnb :
  words_ok a -> words_ok b -> (tna <= n)%nat -> (tnb <= n)%nat -> (n + tna <= length a)%nat -> (n + tnb <= length b)%nat -> (3 * n <= length t)%nat ->
  let a0 := value (take n a) in let a1 := value (take tna (drop n a)) in let b0 := value (take n b) in let b1 := value (take tnb (drop n b)) in
  let '(t', neg) := differences a b t n tna tnb in
  length t' = length t /\ (words_ok t -> words_ok t') /\ words_ok (ld t' 0 n) /\ words_ok (ld t' n n) /\ length (ld t' 0 n) = n /\ length (ld t' n n) = n /\
  value (ld t' 0 n) = Z.abs (a0 - a1) /\ value (ld t' n n) = Z.abs (b1 - b0) /\ neg = mask (xorb (a0 <? a1) (b1 <? b0)).
Proof.
  intros Ha Hb Hna Hnb La Lb Lt a0 a1 b0 b1. unfold differences. cbv zeta.
  pose proof (abs_sub_part_words_spec a (drop n a) tna (Z.of_nat n - Z.of_nat tna) Ha ltac:(auto with word_db)) as H. cbv zeta in H.
  replace (tna + Z.to_nat (Z.of_nat n - Z.of_nat tna))%nat with n in H by lia. replace (tna + Z.to_nat (- (Z.of_nat n - Z.of_nat tna)))%nat with tna in H by lia.
  replace (tna + Z.to_nat (Z.abs (Z.of_nat n - Z.of_nat tna)))%nat with n in H by lia. specialize (H ltac:(lia) ltac:(rewrite length_drop; lia)).
  destruct (bn_abs_sub_part_words a (drop n a) tna _) as [[x tmp] neg]. destruct H as (Vx & Lx & Ltmp & Hx & Htmp & ->).
  pose proof (abs_sub_part_words_spec (drop n b) b tnb (Z.of_nat tnb - Z.of_nat n) ltac:(auto with word_db) Hb) as H. cbv zeta in H.
  replace (tnb + Z.to_nat (Z.of_nat tnb - Z.of_nat n))%nat with tnb in H by lia. replace (tnb + Z.to_nat (- (Z.of_nat tnb - Z.of_nat n)))%nat with n in H by lia.
  replace (tnb + Z.to_nat (Z.abs (Z.of_nat tnb - Z.of_nat n)))%nat with n in H by lia. specialize (H ltac:(rewrite length_drop; lia) ltac:(lia)).
  destruct (bn_abs_sub_part_words (drop n b) b tnb _) as [[y tmp'] neg']. destruct H as (Vy & Ly & Ltmp' & Hy & Htmp' & ->).
  set (t1 := store (store t (2 * n) tmp) 0 x). assert (length t1 = length t) as Lt1 by (unfold t1; rewrite !length_store by (rewrite ?length_store; lia); done).
  set (t2 := store t1 (2 * n) tmp'). assert (length t2 = length t) as Lt2 by (unfold t2; rewrite !length_store by lia; done).
  assert (ld (store t2 n y) 0 n = x) as ->.
  { rewrite ld_store_before by lia. unfold t2. rewrite ld_store_before by lia. unfold t1. apply ld_store_same; [done | rewrite length_store; lia]. }
  rewrite (ld_store_same t2 n y n) by lia. rewrite length_store, lxor_masks by lia. split_and!; try done. intros. unfold t2, t1. by repeat apply store_ok.
Qed.

(** The middle term of the product is not negative, and the whole is the product. *)
Lemma karatsuba a0 a1 b0 b1 :
  0 <= a0 -> 0 <= a1 -> 0 <= b0 -> 0 <= b1 ->
  let t := Z.abs (a0 - a1) * Z.abs (b1 - b0) in
  a0 * b0 + a1 * b1 + (if xorb (a0 <? a1) (b1 <? b0) then - t else t) = a0 * b1 + a1 * b0 /\ 0 <= a0 * b1 + a1 * b0.
Proof.
  intros. subst t. split; [| nia].
  destruct (Z.ltb_spec a0 a1), (Z.ltb_spec b1 b0); cbn [xorb];
    rewrite ?(Z.abs_neq (a0 - a1)), ?(Z.abs_eq (a0 - a1)), ?(Z.abs_neq (b1 - b0)), ?(Z.abs_eq (b1 - b0)) by lia; ring.
Qed.

Lemma value_split n k (l : words) : (n + k <= length l)%nat -> value (take (n + k) l) = value (take n l) + 2 ^ (64 * Z.of_nat n) * value (take k (drop n l)).
Proof.
  intros Hn. replace (take (n + k) l) with (take n l ++ take k (drop n l)) by (by rewrite take_take_drop).
  by rewrite value_app, length_take, Nat.min_l by lia.
Qed.

(** The two Karatsuba functions, after the products of the parts. *)
Lemma combine_products p a b r t t0 n tna tnb :
  words_ok a -> words_ok b -> (1 <= n)%nat -> (tna <= n)%nat -> (tnb <= n)%nat -> (n + tna <= length a)%nat -> (n + tnb <= length b)%nat ->
  (6 * n <= length t)%nat -> length t = length t0 -> (words_ok t0 -> words_ok t) ->
  let a0 := value (take n a) in let a1 := value (take tna (drop n a)) in let b0 := value (take n b) in let b1 := value (take tnb (drop n b)) in
  products p r t n (a0 * b0) (a1 * b1) (Z.abs (a0 - a1) * Z.abs (b1 - b0)) ->
  computes ('(r, t) ← p; combine r t n (mask (xorb (a0 <? a1) (b1 <? b0)))) r t0 (4 * n) (value (take (n + tna) a) * value (take (n + tnb) b)).
Proof.
  intros Ha Hb Hn Hna Hnb La Lb Lt Lt0 Ht0 a0 a1 b0 b1 (P & Q & t' & -> & Lt' & Ht' & LP & HP & VP & LQ & HQ & VQ & HT & VT). cbn [mbind option_bind].
  pose proof (value_nonneg _ (words_ok_take n a Ha)). pose proof (value_nonneg _ (words_ok_take n b Hb)).
  pose proof (value_nonneg _ (words_ok_take tna _ (words_ok_drop n a Ha))). pose proof (value_nonneg _ (words_ok_take tnb _ (words_ok_drop n b Hb))).
  destruct (karatsuba a0 a1 b0 b1) as [Emid Hmid]; [done | done | done | done |].
  set (s := xorb (a0 <? a1) (b1 <? b0)) in *.
  assert (value P + value Q + (if s then - value (ld t' (2 * n) (2 * n)) else value (ld t' (2 * n) (2 * n))) = a0 * b1 + a1 * b0) as Em by (rewrite VP, VQ, VT; exact Emid).
  assert (value P + 2 ^ (64 * Z.of_nat (2 * n)) * value Q + 2 ^ (64 * Z.of_nat n) * (a0 * b1 + a1 * b0) = value (take (n + tna) a) * value (take (n + tnb) b)) as Ev.
  { rewrite !value_split, VP, VQ by lia. replace (2 * n)%nat with (n + n)%nat by lia. rewrite pow_words_add. fold a0 a1 b0 b1. ring. }
  pose proof (product_bound (take (n + tna) a) (take (n + tnb) b) _ _ ltac:(auto with word_db) ltac:(auto with word_db) eq_refl eq_refl) as [_ Hb'].
  rewrite !length_take in Hb'.
  destruct (combine_spec P Q (drop (4 * n) r) t' n s) as (R & t'' & E & Lt'' & Ht'' & LR & HR & VR); try done; try lia.
  - cbv zeta. rewrite Em, Ev. eapply Z.lt_le_trans; [exact Hb' |]. apply Z.pow_le_mono_r; lia.
  - exists R, t''. split_and!; [exact E | lia | tauto | done | done |]. cbv zeta in VR. by rewrite VR, Em, Ev.
Qed.

(** * The recursive calls *)

(** The first two calls: [t2,t3 = t0 * t1] and [r0,r1 = a0 * b0]. *)
Lemma two_products {A} (f1 : option (words * words)) (f2 : words -> option (words * words)) (k : words -> words -> option A) r t n v0 vt :
  (4 * n <= length t)%nat ->
  computes f1 (ld t (2 * n) (2 * n)) (drop (2 * n * 2) t) (2 * n) vt ->
  (forall p, length p = (length t - 2 * n * 2)%nat -> computes (f2 p) r p (2 * n) v0) ->
  exists P t', ('(x, p) ← f1; let t := store (store t (2 * n) x) (2 * n * 2) p in
                '(r, p) ← f2 (drop (2 * n * 2) t); let t := store t (2 * n * 2) p in k r t) = k (P ++ drop (2 * n) r) t' /\
    length t' = length t /\ (words_ok t -> words_ok t') /\ length P = (2 * n)%nat /\ words_ok P /\ value P = v0 /\
    words_ok (ld t' (2 * n) (2 * n)) /\ value (ld t' (2 * n) (2 * n)) = vt.
Proof.
  intros Lt (X & p & -> & Lp & Hp & LX & HX & VX) H2. cbn [mbind option_bind]. rewrite length_drop in Lp.
  rewrite (drop_ge (ld t (2 * n) (2 * n))), app_nil_r by (rewrite length_ld; lia).
  set (t1 := store (store t (2 * n) X) (2 * n * 2) p). assert (length t1 = length t) as Lt1 by (unfold t1; rewrite !length_store by (rewrite ?length_store; lia); done).
  destruct (H2 (drop (2 * n * 2) t1)) as (P & p' & -> & Lp' & Hp' & LP & HP & VP); [rewrite length_drop; lia |]. rewrite length_drop in Lp'.
  cbn [mbind option_bind]. exists P, (store t1 (2 * n * 2) p'). rewrite length_store by lia.
  assert (ld (store t1 (2 * n * 2) p') (2 * n) (2 * n) = X) as ->.
  { rewrite ld_store_before by lia. unfold t1. rewrite ld_store_before by (rewrite ?length_store; lia). apply ld_store_same; lia. }
  split_and!; try done. intros Hok. assert (words_ok t1) by (unfold t1; repeat apply store_ok; auto with word_db). apply store_ok; auto with word_db.
Qed.

(** The third: [r2,r3 = a1 * b1], with zeros above what it writes. *)
Lemma third_product (f : option (words * words)) r0 p n k v :
  (k <= 2 * n)%nat -> drop k r0 = replicate (2 * n - k) 0 ++ drop (2 * n) r0 -> computes f r0 p k v ->
  exists Q p', f = Some (Q ++ drop (2 * n) r0, p') /\ length p' = length p /\ (words_ok p -> words_ok p') /\ length Q = (2 * n)%nat /\ words_ok Q /\ value Q = v.
Proof.
  intros Hk Hd (R & p' & -> & Lp & Hp & LR & HR & VR). exists (R ++ replicate (2 * n - k) 0), p'. rewrite Hd, <- app_assoc, length_app, length_replicate, value_app, value_zeros.
  split_and!; [done | done | done | lia | apply words_ok_app; auto with word_db | lia].
Qed.

Lemma store_tail (x y w : words) p : p = length x -> length w = length y -> store (x ++ y) p w = x ++ w.
Proof. intros -> Hl. rewrite <- (app_nil_r y), store_mid by done. by rewrite app_nil_r. Qed.

Lemma store_tail_id (t : words) p : (p <= length t)%nat -> store t p (drop p t) = t.
Proof. intros Hp. rewrite <- (take_drop p t) at 1. rewrite store_tail by (rewrite ?length_take; lia). apply take_drop. Qed.

Lemma drop_half (P r : words) n : length P = (2 * n)%nat -> drop (2 * n) (P ++ r) = r.
Proof. intros <-. apply drop_app_length. Qed.

(** All of them; [r0] is what [r2,r3] and the rest of [r] held. *)
Lemma all_products P r r0 t f n k v0 v1 vt :
  length P = (2 * n)%nat -> words_ok P -> value P = v0 -> words_ok (ld t (2 * n) (2 * n)) -> value (ld t (2 * n) (2 * n)) = vt ->
  (k <= 2 * n)%nat -> (2 * n <= length r0)%nat -> (4 * n <= length t)%nat ->
  drop (2 * n) r0 = drop (4 * n) r -> drop k r0 = replicate (2 * n - k) 0 ++ drop (4 * n) r ->
  computes f r0 (drop (2 * n * 2) t) k v1 ->
  products ('(x, p) ← f; Some (store (P ++ r0) (2 * n) x, store t (2 * n * 2) p)) r t n v0 v1 vt.
Proof.
  intros LP HP VP HT VT Hk Lr Lt E4 Hd Hf. rewrite <- E4 in Hd.
  destruct (third_product f r0 (drop (2 * n * 2) t) n k v1 Hk Hd Hf) as (Q & p' & -> & Lp & Hp & LQ & HQ & VQ).
  rewrite length_drop in Lp. cbn [mbind option_bind]. rewrite store_tail by (rewrite ?length_app, ?length_drop; lia).
  exists P, Q, (store t (2 * n * 2) p'). rewrite E4, length_store by lia. rewrite ld_store_before by lia. split_and!; try done. intros. apply store_ok; auto with word_db.
Qed.

Lemma write_products P Q X r t n :
  length P = (2 * n)%nat -> length Q = (2 * n)%nat -> length X = (2 * n)%nat -> words_ok P -> words_ok Q -> words_ok X ->
  (4 * n <= length r)%nat -> (4 * n <= length t)%nat ->
  products (Some (store (store r 0 P) (2 * n) Q, store t (2 * n) X)) r t n (value P) (value Q) (value X).
Proof.
  intros LP LQ LX HP HQ HX Lr Lt. exists P, Q, (store t (2 * n) X). rewrite length_store by lia.
  rewrite ld_store_same by lia. split_and!; try done; [| intros; by apply store_ok]. f_equal. f_equal. rewrite store_0, LP.
  rewrite <- (take_drop (2 * n) (drop (2 * n) r)), drop_drop. rewrite store_mid by (rewrite ?length_take, ?length_drop; lia). do 3 f_equal. lia.
Qed.

Lemma pow2_split k : (2 ^ S k = 2 * 2 ^ k)%nat.
Proof. apply Nat.pow_succ_r'. Qed.

Lemma computes_eq p r t k v v' : computes p r t k v -> v = v' -> computes p r t k v'.
Proof. by intros H ->. Qed.

Lemma take_exactly (l : words) n : length l = n -> take n l = l.
Proof. intros <-. apply firstn_all. Qed.

(** What [bn_mul_recursive] does with [fuel]. *)
Definition mul_ok (fuel : nat) : Prop :=
  forall k r a b dna dnb t,
  (k < fuel)%nat -> (3 <= k)%nat -> -8 <= dna <= 0 -> -8 <= dnb <= 0 -> words_ok a -> words_ok b ->
  let n2 := (2 ^ k)%nat in let la := Z.to_nat (Z.of_nat n2 + dna) in let lb := Z.to_nat (Z.of_nat n2 + dnb) in
  (la <= length a)%nat -> (lb <= length b)%nat -> (2 * n2 <= length r)%nat -> (4 * n2 <= length t)%nat ->
  computes (bn_mul_recursive fuel r a b n2 dna dnb t) r t (2 * n2) (value (take la a) * value (take lb b)).

(** A call on all the words. *)
Lemma full_call fuel k r a b t :
  mul_ok fuel -> (k < fuel)%nat -> (3 <= k)%nat -> words_ok a -> words_ok b -> let n := (2 ^ k)%nat in
  (n <= length a)%nat -> (n <= length b)%nat -> (2 * n <= length r)%nat -> (4 * n <= length t)%nat ->
  computes (bn_mul_recursive fuel r a b n 0 0 t) r t (2 * n) (value (take n a) * value (take n b)).
Proof.
  intros IH Hf Hk Ha Hb n La Lb Lr Lt. pose proof (IH k r a b 0 0 t Hf Hk ltac:(lia) ltac:(lia) Ha Hb) as H. cbv zeta in H. fold n in H.
  rewrite !Z.add_0_r, !Nat2Z.id in H. by apply H.
Qed.

(** The first two of the three calls. *)
Lemma first_calls {A} fuel k r a b t (K : words -> words -> option A) :
  mul_ok fuel -> (k < fuel)%nat -> (3 <= k)%nat -> words_ok a -> words_ok b -> let n := (2 ^ k)%nat in
  (n <= length a)%nat -> (n <= length b)%nat -> (4 * n <= length r)%nat -> (8 * n <= length t)%nat -> words_ok (ld t 0 n) -> words_ok (ld t n n) ->
  exists P t',
    ('(x, p) ← bn_mul_recursive fuel (ld t (2 * n) (2 * n)) (ld t 0 n) (ld t n n) n 0 0 (drop (2 * n * 2) t);
     let t := store (store t (2 * n) x) (2 * n * 2) p in
     '(r, p) ← bn_mul_recursive fuel r a b n 0 0 (drop (2 * n * 2) t);
     let t := store t (2 * n * 2) p in K r t) = K (P ++ drop (2 * n) r) t' /\
    length t' = length t /\ (words_ok t -> words_ok t') /\ length P = (2 * n)%nat /\ words_ok P /\ value P = value (take n a) * value (take n b) /\
    words_ok (ld t' (2 * n) (2 * n)) /\ value (ld t' (2 * n) (2 * n)) = value (ld t 0 n) * value (ld t n n).
Proof.
  intros IH Hf Hk Ha Hb n La Lb Lr Lt Hx Hy. assert (length (ld t 0 n) = n) as Lx by (apply length_ld; lia). assert (length (ld t n n) = n) as Ly by (apply length_ld; lia).
  apply (two_products (bn_mul_recursive fuel (ld t (2 * n) (2 * n)) (ld t 0 n) (ld t n n) n 0 0 (drop (2 * n * 2) t)) (bn_mul_recursive fuel r a b n 0 0) K); [lia | |].
  - eapply computes_eq; [apply full_call; try done; fold n; rewrite ?Lx, ?Ly, ?length_drop, ?length_ld; lia |]. fold n. by rewrite !take_exactly.
  - intros p Lp. apply full_call; try done; fold n; lia.
Qed.

Lemma mul_recursive_spec fuel : mul_ok fuel.
Proof.
  induction fuel as [| fuel IH]; intros k r a b dna dnb t Hf Hk Hdna Hdnb Ha Hb n2 la lb La Lb Lr Lt; [lia |].
  assert (8 <= n2)%nat as Hn2 by (unfold n2; change 8%nat with (2 ^ 3)%nat; apply Nat.pow_le_mono_r; lia).
  cbn [bn_mul_recursive]. unfold n2 at 1. rewrite pow2_true. rewrite !(proj2 (Z.leb_le _ _)) by lia. cbn [andb negb].
  destruct ((n2 =? 8)%nat && (dna =? 0) && (dnb =? 0)) eqn:E8.
  { apply andb_prop in E8 as [[E8%Nat.eqb_eq Ea%Z.eqb_eq]%andb_prop Eb%Z.eqb_eq]. unfold la, lb in *. rewrite E8, Ea, Eb in *.
    destruct (comba8_spec a b Ha Hb) as (H1 & H2 & H3); [lia | lia |]. exists (bn_mul_comba8 a b), t. rewrite store_0, H2.
    replace (Z.to_nat (Z.of_nat 8 + 0)) with 8%nat by lia. split_and!; [f_equal | lia | done | lia | exact H1 | exact H3]. }
  destruct (Nat.ltb_spec n2 BN_MUL_RECURSIVE_SIZE_NORMAL) as [Hsmall | Hbig].
  { destruct (mul_normal_spec r (take la a) (take lb b)) as (R & E & LR & HR & VR); [auto with word_db | auto with word_db | rewrite !length_take; lia |].
    rewrite !length_take in LR. fold la lb. rewrite E. set (m := Z.to_nat (- (dna + dnb))). exists (R ++ replicate m 0), t.
    assert (length (R ++ replicate m 0) = (2 * n2)%nat) as LR' by (rewrite length_app, length_replicate; lia).
    split_and!; [| done | done | done | apply words_ok_app; auto with word_db | rewrite value_app, value_zeros; lia]. f_equal. f_equal.
    destruct (Z.ltb_spec (dna + dnb) 0).
    - rewrite <- (take_drop m (drop (length R) r)), drop_drop. rewrite store_mid by (rewrite ?length_take, ?length_drop, ?length_replicate; lia).
      rewrite <- app_assoc. do 3 f_equal. lia.
    - unfold m. replace (Z.to_nat (- (dna + dnb))) with 0%nat by lia. cbn [replicate]. rewrite app_nil_r. f_equal. f_equal. lia. }
  destruct k as [| k]; [lia |]. set (n := (2 ^ k)%nat). assert (n2 = 2 * n)%nat as En2 by apply pow2_split. clearbody n2. subst n2.
  unfold BN_MUL_RECURSIVE_SIZE_NORMAL in Hbig. assert (3 <= k)%nat as Hk3.
  { destruct (Nat.le_gt_cases 3 k); [done |]. assert (n <= 2 ^ 2)%nat by (apply Nat.pow_le_mono_r; lia). change (2 ^ 2)%nat with 4%nat in *. lia. }
  replace (Nat.div (2 * n) 2) with n by (by rewrite Nat.mul_comm, Nat.div_mul).
  set (tna := Z.to_nat (Z.of_nat n + dna)). set (tnb := Z.to_nat (Z.of_nat n + dnb)).
  assert (la = n + tna)%nat as -> by lia. assert (lb = n + tnb)%nat as -> by lia.
  pose proof (differences_spec a b t n tna tnb Ha Hb ltac:(lia) ltac:(lia) La Lb ltac:(lia)) as H. cbv zeta in H.
  destruct (differences a b t n tna tnb) as [t1 neg]. destruct H as (Lt1 & Ht1 & Hx & Hy & Lx & Ly & Vx & Vy & ->).
  replace (2 * (2 * n))%nat with (4 * n)%nat by lia.
  apply (combine_products _ a b r t1 t n tna tnb); try done; try lia.
  rewrite <- Vx, <- Vy.
  destruct ((n =? 4)%nat && (dna =? 0) && (dnb =? 0)) eqn:E4; [apply andb_prop in E4 as [[E4%Nat.eqb_eq _]%andb_prop _]; lia |].
  destruct ((n =? 8)%nat && (dna =? 0) && (dnb =? 0)) eqn:En.
  - apply andb_prop in En as [[En%Nat.eqb_eq Ea%Z.eqb_eq]%andb_prop Eb%Z.eqb_eq].
    assert (tna = n) as -> by lia. assert (tnb = n) as -> by lia. clearbody n.
    destruct (comba8_spec a b Ha Hb) as (H1 & H2 & H3); [lia | lia |].
    destruct (comba8_spec (drop n a) (drop n b)) as (H4 & H5 & H6); [auto with word_db | auto with word_db | rewrite length_drop; lia | rewrite length_drop; lia |].
    destruct (comba8_spec (ld t1 0 n) (ld t1 n n) Hx Hy) as (H7 & H8 & H9); [lia | lia |].
    rewrite <- En in H3, H6, H9. rewrite !take_exactly in H9 by done. rewrite <- H3, <- H6, <- H9.
    apply write_products; (assumption || lia).
  - destruct (first_calls fuel k r a b t1
      (fun r t => '(x, p) ← bn_mul_recursive fuel (drop (2 * n) r) (drop n a) (drop n b) n dna dnb (drop (2 * n * 2) t);
                  Some (store r (2 * n) x, store t (2 * n * 2) p)) IH) as (P & t2 & E & Lt2 & Ht2 & LP & HP & VP & HT & VT); try done; try (fold n; lia).
    fold n in E, LP, VP, HT, VT.
    cbv beta zeta in E |- *. rewrite E, drop_half by done.
    eapply products_len; [exact Lt2 | exact Ht2 |].
    assert (drop (2 * n) (drop (2 * n) r) = drop (4 * n) r) as Edd by (rewrite drop_drop; f_equal; lia).
    apply (all_products P r _ t2 _ n (2 * n)); try done; try (rewrite ?length_drop; lia).
    + by rewrite Nat.sub_diag.
    + apply IH; try done; try lia; try (rewrite ?length_drop; fold n tna tnb; lia); auto with word_db.
Qed.

(** The halving loop ends at the power of two that splits the high part. *)
Lemma halve_loop_spec fuel j tna tnb :
  (j <= fuel)%nat -> (tna < 2 ^ j)%nat -> (tnb < 2 ^ j)%nat -> (tna <= tnb + 1)%nat -> (tnb <= tna + 1)%nat -> (16 <= tna \/ 16 <= tnb)%nat ->
  exists i, (3 <= i < j)%nat /\
    ((halve_loop fuel (2 ^ j) tna tnb = Some (Part (2 ^ i)) /\ (2 ^ i <= tna < 2 * 2 ^ i)%nat /\ (2 ^ i <= tnb < 2 * 2 ^ i)%nat) \/
     (halve_loop fuel (2 ^ j) tna tnb = Some (Whole (2 ^ i)) /\ (2 ^ i - 1 <= tna <= 2 ^ i)%nat /\ (2 ^ i - 1 <= tnb <= 2 ^ i)%nat)).
Proof.
  revert j. induction fuel as [| fuel IH]; intros j Hj Ha Hb Hab Hba H16; [replace j with 0%nat in * by lia; cbn [Nat.pow] in *; lia |].
  destruct j as [| j]; [cbn [Nat.pow] in *; lia |]. rewrite pow2_split in *. cbn [halve_loop].
  replace (Nat.div (2 * 2 ^ j) 2) with (2 ^ j)%nat by (by rewrite Nat.mul_comm, Nat.div_mul).
  assert (3 <= j \/ 2 ^ j <= 4)%nat as Hj3.
  { destruct (Nat.le_gt_cases 3 j); [by left | right]. assert (2 ^ j <= 2 ^ 2)%nat by (apply Nat.pow_le_mono_r; lia). done. }
  destruct (Nat.ltb_spec (2 ^ j) tna); [| destruct (Nat.ltb_spec (2 ^ j) tnb)]; cbn [orb].
  - exists j. split; [lia |]. left. split; [done | lia].
  - exists j. split; [lia |]. left. split; [done | lia].
  - destruct (Nat.eqb_spec (2 ^ j) tna); [| destruct (Nat.eqb_spec (2 ^ j) tnb)]; cbn [orb].
    + exists j. split; [lia |]. right. split; [done | lia].
    + exists j. split; [lia |]. right. split; [done | lia].
    + destruct (IH j) as (i & Hi & Hcase); [lia | lia | lia | lia | lia | lia |]. exists i. split; [lia | done].
Qed.

Lemma zeros_drop (l : words) n k : (k <= n)%nat -> drop k (replicate n 0 ++ l) = replicate (n - k) 0 ++ l.
Proof. intros. rewrite drop_app_le by (rewrite length_replicate; lia). by rewrite drop_replicate. Qed.

Definition part_ok (fuel : nat) : Prop :=
  forall k r a b tna tnb t,
  (S k < fuel)%nat -> (3 <= k)%nat -> let n := (2 ^ k)%nat in
  (tna < n)%nat -> (tnb < n)%nat -> (tna <= tnb + 1)%nat -> (tnb <= tna + 1)%nat -> words_ok a -> words_ok b ->
  (n + tna <= length a)%nat -> (n + tnb <= length b)%nat -> (4 * n <= length r)%nat -> (8 * n <= length t)%nat ->
  computes (bn_mul_part_recursive fuel r a b n (Z.of_nat tna) (Z.of_nat tnb) t) r t (4 * n) (value (take (n + tna) a) * value (take (n + tnb) b)).

(** The product of the high parts, shorter than the low ones. *)
Lemma high_product fuel k r0 a b tna tnb t :
  part_ok fuel -> (k < fuel)%nat -> (3 <= k)%nat -> let n := (2 ^ k)%nat in
  (tna < n)%nat -> (tnb < n)%nat -> (tna <= tnb + 1)%nat -> (tnb <= tna + 1)%nat -> (16 <= tna \/ 16 <= tnb)%nat -> words_ok a -> words_ok b ->
  (tna <= length a)%nat -> (tnb <= length b)%nat -> (2 * n <= length r0)%nat -> (4 * n <= length t)%nat ->
  exists m, (m <= 2 * n)%nat /\
  computes (call ← halve_loop fuel n tna tnb;
            match call with
            | Part i => bn_mul_part_recursive fuel r0 a b i (Z.of_nat tna - Z.of_nat i) (Z.of_nat tnb - Z.of_nat i) t
            | Whole i => bn_mul_recursive fuel r0 a b i (Z.of_nat tna - Z.of_nat i) (Z.of_nat tnb - Z.of_nat i) t
            end) r0 t m (value (take tna a) * value (take tnb b)).
Proof.
  intros IH Hf Hk n Hna Hnb Hab Hba H16 Ha Hb La Lb Lr Lt.
  destruct (halve_loop_spec fuel k tna tnb) as (i & Hi & H); [lia | done | done | done | done | done |].
  assert (2 * 2 ^ i <= n)%nat as Hin by (unfold n; rewrite <- pow2_split; apply Nat.pow_le_mono_r; lia).
  assert (8 <= 2 ^ i)%nat as Hi8 by (change 8%nat with (2 ^ 3)%nat; apply Nat.pow_le_mono_r; lia).
  destruct H as [(E & Ta & Tb) | (E & Ta & Tb)]; fold n in E; rewrite E; cbn [mbind option_bind].
  - exists (4 * 2 ^ i)%nat. split; [lia |]. rewrite <- !Nat2Z.inj_sub by lia.
    replace tna with (2 ^ i + (tna - 2 ^ i))%nat at 2 by lia. replace tnb with (2 ^ i + (tnb - 2 ^ i))%nat at 2 by lia. apply IH; (done || lia).
  - exists (2 * 2 ^ i)%nat. split; [lia |].
    pose proof (mul_recursive_spec fuel i r0 a b (Z.of_nat tna - Z.of_nat (2 ^ i)) (Z.of_nat tnb - Z.of_nat (2 ^ i)) t) as R. cbv zeta in R.
    replace (Z.to_nat (Z.of_nat (2 ^ i) + (Z.of_nat tna - Z.of_nat (2 ^ i)))) with tna in R by lia.
    replace (Z.to_nat (Z.of_nat (2 ^ i) + (Z.of_nat tnb - Z.of_nat (2 ^ i)))) with tnb in R by lia. apply R; (done || lia).
Qed.

Lemma normal_product r0 a b t :
  words_ok a -> words_ok b -> (length a + length b <= length r0)%nat ->
  computes (Some (bn_mul_normal r0 a b, t)) r0 t (length a + length b) (value a * value b).
Proof. intros Ha Hb L. destruct (mul_normal_spec r0 a b Ha Hb L) as (R & -> & LR & HR & VR). exists R, t. rewrite LR. done. Qed.

Lemma part_recursive_spec fuel : part_ok fuel.
Proof.
  induction fuel as [| fuel IH]; intros k r a b tna tnb t Hf Hk n Hna Hnb Hab Hba Ha Hb La Lb Lr Lt; [lia |].
  assert (8 <= n)%nat as Hn8 by (unfold n; change 8%nat with (2 ^ 3)%nat; apply Nat.pow_le_mono_r; lia).
  cbn [bn_mul_part_recursive]. unfold n at 1. rewrite pow2_true. rewrite !(proj2 (Z.leb_le _ _)), !(proj2 (Z.ltb_lt _ _)) by lia. cbn [andb negb].
  rewrite (proj2 (Nat.ltb_ge n 8)) by lia. rewrite !Nat2Z.id. cbv zeta.
  pose proof (differences_spec a b t n tna tnb Ha Hb ltac:(lia) ltac:(lia) La Lb ltac:(lia)) as H. cbv zeta in H.
  destruct (differences a b t n tna tnb) as [t1 neg]. destruct H as (Lt1 & Ht1 & Hx & Hy & Lx & Ly & Vx & Vy & ->).
  apply (combine_products _ a b r t1 t n tna tnb); try done; try lia. rewrite <- Vx, <- Vy.
  assert (words_ok (take tna (drop n a))) as Hta by auto with word_db. assert (words_ok (take tnb (drop n b))) as Htb by auto with word_db.
  assert (length (take tna (drop n a)) = tna) as Lta by (rewrite length_take, length_drop; lia).
  assert (length (take tnb (drop n b)) = tnb) as Ltb by (rewrite length_take, length_drop; lia).
  destruct (Nat.eqb_spec n 8) as [En | En].
  - destruct (comba8_spec a b Ha Hb) as (H1 & H2 & H3); [lia | lia |]. destruct (comba8_spec (ld t1 0 n) (ld t1 n n) Hx Hy) as (H7 & H8 & H9); [lia | lia |].
    rewrite <- En in H3, H9. rewrite !take_exactly in H9 by done. rewrite <- H3, <- H9. rewrite store_0, H2. replace 16%nat with (2 * n)%nat by lia.
    set (r0 := drop (2 * n) r). assert (length r0 = length r - 2 * n)%nat as Lr0 by (unfold r0; rewrite length_drop; lia). rewrite drop_half by lia.
    destruct (mul_normal_spec r0 _ _ Hta Htb) as (R & E & LR & HR & VR); [lia |]. rewrite E, store_tail by (rewrite ?length_app, ?length_drop; lia).
    exists (bn_mul_comba8 a b), (R ++ replicate (2 * n - tna - tnb) 0), (store t1 (2 * n) (bn_mul_comba8 (ld t1 0 n) (ld t1 n n))).
    rewrite length_store by lia. rewrite ld_store_same, length_app, length_replicate, value_app, value_zeros by lia.
    split_and!; [| lia | intros; by apply store_ok | lia | assumption | reflexivity | lia | apply words_ok_app; auto with word_db | lia | assumption | reflexivity].
    f_equal. f_equal. rewrite <- (take_drop (2 * n - tna - tnb) (drop (length R) r0)), drop_drop, app_assoc.
    rewrite store_mid by (rewrite ?length_app, ?length_take, ?length_drop, ?length_replicate; lia). rewrite <- !app_assoc. do 3 f_equal. unfold r0. rewrite drop_drop. f_equal. lia.
  - set (K := fun r t : words => if (tna <? BN_MUL_RECURSIVE_SIZE_NORMAL)%nat && (tnb <? BN_MUL_RECURSIVE_SIZE_NORMAL)%nat then
                 Some (store (store r (2 * n) (replicate (2 * n) 0)) (2 * n) (bn_mul_normal (drop (2 * n) (store r (2 * n) (replicate (2 * n) 0))) (take tna (drop n a)) (take tnb (drop n b))), t)
               else
                 '(x, p) ←
                   (call ← halve_loop fuel n tna tnb;
                   match call with
                   | Part i => bn_mul_part_recursive fuel (drop (2 * n) (store r (2 * n) (replicate (2 * n) 0))) (drop n a) (drop n b) i
                                 (Z.of_nat tna - Z.of_nat i) (Z.of_nat tnb - Z.of_nat i) (drop (2 * n * 2) t)
                   | Whole i => bn_mul_recursive fuel (drop (2 * n) (store r (2 * n) (replicate (2 * n) 0))) (drop n a) (drop n b) i
                                  (Z.of_nat tna - Z.of_nat i) (Z.of_nat tnb - Z.of_nat i) (drop (2 * n * 2) t)
                   end);
                 Some (store (store r (2 * n) (replicate (2 * n) 0)) (2 * n) x, store t (2 * n * 2) p)).
    destruct (first_calls fuel k r a b t1 K (mul_recursive_spec fuel)) as (P & t2 & E & Lt2 & Ht2 & LP & HP & VP & HT & VT); try done; try (fold n; lia).
    fold n in E, LP, VP, HT, VT. unfold K in E at 1. cbv zeta in E. rewrite E. unfold K. eapply products_len; [exact Lt2 | exact Ht2 |]. clear E K.
    set (r0 := replicate (2 * n) 0 ++ drop (4 * n) r).
    assert (store (P ++ drop (2 * n) r) (2 * n) (replicate (2 * n) 0) = P ++ r0) as ->.
    { rewrite <- (take_drop (2 * n) (drop (2 * n) r)), drop_drop. rewrite store_mid by (rewrite ?length_take, ?length_drop, ?length_replicate; lia).
      unfold r0. do 3 f_equal. lia. }
    rewrite drop_half by lia. assert (length r0 = length r - 2 * n)%nat as Lr0 by (unfold r0; rewrite length_app, length_replicate, length_drop; lia).
    assert (drop (2 * n) r0 = drop (4 * n) r) as Er0 by (unfold r0; rewrite zeros_drop by lia; by rewrite Nat.sub_diag).
    destruct ((tna <? BN_MUL_RECURSIVE_SIZE_NORMAL)%nat && (tnb <? BN_MUL_RECURSIVE_SIZE_NORMAL)%nat) eqn:Esm.
    + pose proof (normal_product r0 _ _ (drop (2 * n * 2) t2) Hta Htb ltac:(lia)) as Hp. rewrite Lta, Ltb in Hp.
      pose proof (all_products P r r0 t2 _ n (tna + tnb) _ _ _ LP HP VP HT VT ltac:(lia) ltac:(lia) ltac:(lia) Er0 ltac:(unfold r0; apply zeros_drop; lia) Hp) as H.
      cbn [mbind option_bind] in H. by rewrite (store_tail_id t2) in H by lia.
    + destruct (high_product fuel k r0 (drop n a) (drop n b) tna tnb (drop (2 * n * 2) t2) IH) as (m & Hm & Hp); try done; try (fold n; rewrite ?length_drop; lia); auto with word_db.
      { apply andb_false_iff in Esm as [Esm%Nat.ltb_ge | Esm%Nat.ltb_ge]; [by left | by right]. }
      fold n in Hm, Hp. apply (all_products P r r0 t2 _ n m); try done; try lia. unfold r0. apply zeros_drop. lia.
Qed.

(** * Squares *)

Lemma sqr_combine_spec P Q rest t n :
  length P = (2 * n)%nat -> length Q = (2 * n)%nat -> (1 <= n)%nat -> words_ok P -> words_ok Q ->
  (4 * n <= length t)%nat -> words_ok (ld t (2 * n) (2 * n)) ->
  let mid := value P + value Q - value (ld t (2 * n) (2 * n)) in
  let v := value P + 2 ^ (64 * Z.of_nat (2 * n)) * value Q + 2 ^ (64 * Z.of_nat n) * mid in
  0 <= mid -> v < 2 ^ (64 * Z.of_nat (4 * n)) ->
  exists R t', sqr_combine (P ++ Q ++ rest) t n = Some (R ++ rest, t') /\ length t' = length t /\ (words_ok t -> words_ok t') /\ length R = (4 * n)%nat /\ words_ok R /\ value R = v.
Proof.
  intros LP LQ Hn HP HQ Lt HT mid v Hmid Hv. unfold sqr_combine. cbv zeta. rewrite ld_front, (ld_mid P Q) by lia.
  pose proof (add_words_spec P Q ltac:(lia) HP HQ) as H. destruct (bn_add_words P Q) as [S1 c]. destruct H as (E1 & L1 & H1 & Hc). rewrite LP in *.
  set (T := ld t (2 * n) (2 * n)) in *. assert (length T = 2 * n)%nat as LT by (apply length_ld; lia).
  set (t1 := store t 0 S1). assert (length t1 = length t) as Lt1 by (apply length_store; lia).
  assert (ld t1 0 (2 * n) = S1) as -> by (apply ld_store_same; lia).
  assert (ld t1 (2 * n) (2 * n) = T) as -> by (apply ld_store_after; lia).
  pose proof (sub_words_spec S1 T ltac:(lia) H1 HT) as H. destruct (bn_sub_words S1 T) as [D bw]. destruct H as (E2 & L2 & H2 & Hbw). rewrite L1 in *.
  set (t2 := store t1 (2 * n) D). assert (length t2 = length t) as Lt2 by (unfold t2; rewrite length_store; lia).
  assert (ld t2 (2 * n) (2 * n) = D) as ED by (apply ld_store_same; lia).
  set (W2 := 2 ^ (64 * Z.of_nat (2 * n))) in *. pose proof (value_bound D H2) as HbD. rewrite L2 in HbD. fold W2 in HbD.
  assert (0 < W2) by (apply Z.pow_pos_nonneg; lia).
  assert (value D + W2 * (c - bw) = mid) as Emid by (unfold mid; lia).
  assert (0 <= c - bw) as Hk.
  { destruct (Z.lt_ge_cases (c - bw) 0); [| done]. assert (W2 * (c - bw) <= W2 * (-1)) by (apply Z.mul_le_mono_nonneg_l; lia). lia. }
  unfold wrap. rewrite (Z.mod_small (c - bw)) by lia.
  destruct (add_middle_halves P Q rest t2 n (c - bw) v) as (R & E & LR & HR & HvR); try done; try lia.
  - by rewrite ED.
  - rewrite ED. fold W2. by rewrite Emid.
  - exists R, t2. rewrite E. split_and!; try done. intros. unfold t2, t1. by repeat apply store_ok.
Qed.

Definition sqr_ok (fuel : nat) : Prop :=
  forall k r a t,
  (k < fuel)%nat -> words_ok a -> let n2 := (2 ^ k)%nat in
  (n2 <= length a)%nat -> (2 * n2 <= length r)%nat -> (4 * n2 <= length t)%nat ->
  computes (bn_sqr_recursive fuel r a n2 t) r t (2 * n2) (value (take n2 a) * value (take n2 a)).

Lemma sqr_recursive_spec fuel : sqr_ok fuel.
Proof.
  induction fuel as [| fuel IH]; intros k r a t Hf Ha n2 La Lr Lt; [lia |].
  cbn [bn_sqr_recursive]. unfold n2 at 1. rewrite pow2_true. cbn [negb].
  destruct (Nat.eqb_spec n2 4) as [E4 | Ne4]; [| destruct (Nat.eqb_spec n2 8) as [E8 | Ne8]].
  { destruct (sqr_comba4_spec a Ha) as (H1 & H2 & H3); [lia |]. rewrite <- E4 in H3. exists (bn_sqr_comba4 a), t. rewrite store_0, H2.
    split_and!; [do 4 f_equal; lia | lia | done | lia | assumption | assumption]. }
  { destruct (sqr_comba8_spec a Ha) as (H1 & H2 & H3); [lia |]. rewrite <- E8 in H3. exists (bn_sqr_comba8 a), t. rewrite store_0, H2.
    split_and!; [do 4 f_equal; lia | lia | done | lia | assumption | assumption]. }
  destruct (Nat.ltb_spec n2 BN_SQR_RECURSIVE_SIZE_NORMAL) as [Hsmall | Hbig].
  { assert (length (take n2 a) = n2) as Lta by (rewrite length_take; lia).
    destruct (sqr_normal_spec r (take n2 a) t) as (R & t' & -> & Lt' & Ht' & LR & HR & VR); [auto with word_db | lia | lia |].
    exists R, t'. split_and!; [do 4 f_equal; lia | lia | done | lia | assumption | assumption]. }
  destruct k as [| k]; [change n2 with 1%nat in Hbig; unfold BN_SQR_RECURSIVE_SIZE_NORMAL, BN_MUL_RECURSIVE_SIZE_NORMAL in Hbig; lia |].
  set (n := (2 ^ k)%nat). assert (n2 = 2 * n)%nat as En2 by apply pow2_split. clearbody n2. subst n2.
  unfold BN_SQR_RECURSIVE_SIZE_NORMAL, BN_MUL_RECURSIVE_SIZE_NORMAL in Hbig.
  replace (Nat.div (2 * n) 2) with n by (by rewrite Nat.mul_comm, Nat.div_mul).
  set (A0 := take n a). set (A1 := take n (drop n a)). assert (length A0 = n) as L0 by (unfold A0; rewrite length_take; lia).
  assert (length A1 = n) as L1 by (unfold A1; rewrite length_take, length_drop; lia).
  assert (words_ok A0) as H0 by (unfold A0; auto with word_db). assert (words_ok A1) as H1 by (unfold A1; auto with word_db).
  pose proof (abs_sub_words_spec A0 A1 H0 H1 ltac:(lia)) as H. destruct (bn_abs_sub_words A0 A1) as [x tmp]. destruct H as (Vx & Lx & Ltmp & Hx & Htmp).
  set (t1 := store (store t n tmp) 0 x). assert (length t1 = length t) as Lt1 by (unfold t1; rewrite !length_store by (rewrite ?length_store; lia); done).
  assert (ld t1 0 n = x) as Ex by (unfold t1; apply ld_store_same; rewrite ?length_store; lia).
  destruct (two_products (bn_sqr_recursive fuel (ld t1 (2 * n) (2 * n)) (ld t1 0 n) n (drop (2 * n * 2) t1)) (bn_sqr_recursive fuel r a n)
    (fun r t => '(x, p) ← bn_sqr_recursive fuel (drop (2 * n) r) (drop n a) n (drop (2 * n * 2) t); Some (store r (2 * n) x, store t (2 * n * 2) p))
    r t1 n (value A0 * value A0) (value x * value x)) as (P & t2 & E & Lt2 & Ht2 & LP & HP & VP & HT & VT).
  - lia.
  - rewrite Ex. eapply computes_eq; [apply (IH k); try done; try lia; fold n; rewrite ?length_drop, ?length_ld; lia |]. fold n. by rewrite take_exactly by lia.
  - intros p Lp. apply (IH k); (done || lia || (fold n; lia)).
  - cbv beta zeta in E. rewrite E, drop_half by done. clear E.
    assert (drop (2 * n) (drop (2 * n) r) = drop (4 * n) r) as Edd by (rewrite drop_drop; f_equal; lia).
    destruct (all_products P r (drop (2 * n) r) t2 (bn_sqr_recursive fuel (drop (2 * n) r) (drop n a) n (drop (2 * n * 2) t2)) n (2 * n)
                (value A0 * value A0) (value A1 * value A1) (value x * value x)) as (P' & Q & t3 & -> & Lt3 & Ht3 & LP' & HP' & VP' & LQ & HQ & VQ & HT3 & VT3);
      try done; try (rewrite ?length_drop; lia).
    { by rewrite Nat.sub_diag. }
    { apply (IH k); try lia; try (fold n; rewrite ?length_drop; lia). auto with word_db. }
    cbn [mbind option_bind].
    assert (value P' + value Q - value (ld t3 (2 * n) (2 * n)) = 2 * (value A0 * value A1)) as Emid by (rewrite VP', VQ, VT3, Vx, Z.abs_square; ring).
    assert (value (take (2 * n) a) = value A0 + 2 ^ (64 * Z.of_nat n) * value A1) as Ea by (replace (2 * n)%nat with (n + n)%nat by lia; apply value_split; lia).
    assert (value P' + 2 ^ (64 * Z.of_nat (2 * n)) * value Q + 2 ^ (64 * Z.of_nat n) * (2 * (value A0 * value A1)) = value (take (2 * n) a) * value (take (2 * n) a)) as Ev.
    { rewrite Ea, VP', VQ. replace (2 * n)%nat with (n + n)%nat by lia. rewrite pow_words_add. ring. }
    pose proof (product_bound (take (2 * n) a) (take (2 * n) a) (2 * n) (2 * n) ltac:(auto with word_db) ltac:(auto with word_db) ltac:(rewrite length_take; lia) ltac:(rewrite length_take; lia)) as Hb.
    pose proof (value_nonneg _ H0). pose proof (value_nonneg _ H1).
    destruct (sqr_combine_spec P' Q (drop (4 * n) r) t3 n) as (R & t4 & E & Lt4 & Ht4 & LR & HR & VR); try done; try lia.
    + cbv zeta. rewrite Emid, Ev. replace (4 * n)%nat with (2 * n + 2 * n)%nat by lia. apply Hb.
    + exists R, t4. replace (2 * (2 * n))%nat with (4 * n)%nat by lia. cbv zeta in VR. split_and!; [exact E | lia | | done | done | by rewrite VR, Emid, Ev].
      intros Hok. apply Ht4, Ht3, Ht2. unfold t1. by repeat apply store_ok.
Qed.

End BnKaratsuba.
