(* ===== verification/BnMul.v ===== *)
(** BIGNUM multiplication (crypto/fipsmodule/bn/mul.c): [BN_mul], [BN_sqr] and the constant-time and
    small variants, exact on the integers the objects stand for, whichever of the operands the
    result is.

    A temporary from [BN_CTX_get] is an argument: the address of an object of its own, or [None]
    for NULL. *)

From S2P Require Import Prelude Internal Store Modes BnWords Bn BnShift BnMulWords BnKaratsuba.

Open Scope Z_scope.

Module BnMul.
Import Internal BnWords Bn BnShift BnMulWords BnKaratsuba.
Open Scope c_scope.

(** Enough for the 2^23 words a BIGNUM can have. *)
Definition mul_fuel : nat := 32.

(** * Word arrays *)

(** [None] is [abort]; [r] is the array of [num_r] words. *)
Definition bn_mul_small (r a b : words) : option words :=
  if negb (length r =? length a + length b)%nat then None
  else if (length a =? 8)%nat && (length b =? 8)%nat then Some (bn_mul_comba8 a b)
  else Some (bn_mul_normal r a b).

Definition BN_SMALL_MAX_WORDS : nat := 9.

(** [tmp] is the local array, of [2 * BN_SMALL_MAX_WORDS] words. *)
Definition bn_sqr_small (r a tmp : words) : option words :=
  if negb (length r =? 2 * length a)%nat || (BN_SMALL_MAX_WORDS <? length a)%nat then None
  else if (length a =? 4)%nat then Some (bn_sqr_comba4 a)
  else if (length a =? 8)%nat then Some (bn_sqr_comba8 a)
  else Some (bn_sqr_normal r a tmp).1.

Section Ops.
Context (alloc_ok : nat -> bool).

(** [f] on the arrays of [rr] and [t]. *)
Definition run_words (rr t : nat) (f : words -> words -> option (words * words)) : prog unit :=
  do R <- r_load rr;
  do T <- r_load t;
  do x <- r_some (f (d R) (d T));
  do_ put_words rr 0 x.1;
  put_words t 0 x.2.

(** [BN_num_bits_word], and [1 << (j - 1)]. *)
Definition split_size (al bl : nat) : nat :=
  let j := if (bl <=? al)%nat then BN_num_bits_word (Z.of_nat al) else BN_num_bits_word (Z.of_nat bl) in
  (2 ^ Z.to_nat (j - 1))%nat.

(** [bn_mul_impl] between the choice of [rr] and the label [end]. *)
Definition mul_into (rr a b al bl : nat) (t : option nat) : prog bool :=
  if (al =? bl)%nat && (al =? 8)%nat then
    do ok <- bn_wexpand alloc_ok rr 16;
    if negb ok then r_ret false
    else
      do_ r_modify rr (set_width 16);
      do x <- read_words a 0 al;
      do y <- read_words b 0 bl;
      do_ put_words rr 0 (bn_mul_comba8 x y);
      r_ret true
  else if (16 <=? al)%nat && (16 <=? bl)%nat && (al <=? bl + 1)%nat && (bl <=? al + 1)%nat then
    let j := split_size al bl in
    do_ r_assert ((j <=? al)%nat || (j <=? bl)%nat);
    match t with
    | None => r_ret false
    | Some t =>
        let part := (j <? al)%nat || (j <? bl)%nat in
        do_ r_assert (negb part || ((j <=? al)%nat && (j <=? bl)%nat));
        do ok <- bn_wexpand alloc_ok t (j * (if part then 8 else 4));
        if negb ok then r_ret false
        else
          do ok <- bn_wexpand alloc_ok rr (j * (if part then 4 else 2));
          if negb ok then r_ret false
          else
            do x <- read_words a 0 al;
            do y <- read_words b 0 bl;
            do_ run_words rr t (fun r t =>
              if part then bn_mul_part_recursive mul_fuel r x y j (Z.of_nat al - Z.of_nat j) (Z.of_nat bl - Z.of_nat j) t
              else bn_mul_recursive mul_fuel r x y j (Z.of_nat al - Z.of_nat j) (Z.of_nat bl - Z.of_nat j) t);
            do_ r_modify rr (set_width (al + bl));
            r_ret true
    end
  else
    do ok <- bn_wexpand alloc_ok rr (al + bl);
    if negb ok then r_ret false
    else
      do_ r_modify rr (set_width (al + bl));
      do x <- read_words a 0 al;
      do y <- read_words b 0 bl;
      do R <- r_load rr;
      do_ put_words rr 0 (bn_mul_normal (d R) x y);
      r_ret true.

Definition bn_mul_impl (r a b : nat) (tmp_rr tmp_t : option nat) : prog bool :=
  do A <- r_load a;
  do B <- r_load b;
  if (width A =? 0)%nat || (width B =? 0)%nat then do_ BN_zero r; r_ret true
  else
    match (if (r =? a)%nat || (r =? b)%nat then tmp_rr else Some r) with
    | None => r_ret false
    | Some rr =>
        do_ r_modify rr (set_neg (xorb (neg A) (neg B)));
        do ok <- mul_into rr a b (width A) (width B) tmp_t;
        if negb ok then r_ret false
        else if (r =? rr)%nat then r_ret true
        else BN_copy alloc_ok r rr
    end.

Definition BN_mul (r a b : nat) (tmp_rr tmp_t : option nat) : prog bool :=
  do ok <- bn_mul_impl r a b tmp_rr tmp_t;
  if negb ok then r_ret false else do_ bn_set_minimal_width r; r_ret true.

Definition bn_mul_consttime (r a b : nat) (tmp_rr tmp_t : option nat) : prog bool :=
  do A <- r_load a;
  do B <- r_load b;
  if neg A || neg B then r_ret false else bn_mul_impl r a b tmp_rr tmp_t.

Definition BN_mul_word (bn : nat) (w : Z) : prog bool :=
  do X <- r_load bn;
  if (width X =? 0)%nat then r_ret true
  else if w =? 0 then do_ BN_zero bn; r_ret true
  else
    do x <- read_words bn 0 (width X);
    let '(ws, ll) := bn_mul_words x w in
    do_ put_words bn 0 ws;
    if negb (ll =? 0) then
      do ok <- bn_wexpand alloc_ok bn (width X + 1);
      if negb ok then r_ret false
      else
        do_ put_words bn (width X) [ll];
        do_ r_modify bn (set_width (width X + 1));
        r_ret true
    else r_ret true.

(** The words of the square, in [bn_sqr_consttime]; [stack] is the local array of
    [2 * BN_SQR_RECURSIVE_SIZE_NORMAL] words. *)
Definition sqr_words_into (rr a al tmp : nat) (stack : words) : prog bool :=
  do x <- read_words a 0 al;
  do R <- r_load rr;
  if (al =? 4)%nat then do_ put_words rr 0 (bn_sqr_comba4 x); r_ret true
  else if (al =? 8)%nat then do_ put_words rr 0 (bn_sqr_comba8 x); r_ret true
  else if (al <? BN_SQR_RECURSIVE_SIZE_NORMAL)%nat then do_ put_words rr 0 (bn_sqr_normal (d R) x stack).1; r_ret true
  else
    let pow2 := is_pow2 al in
    do ok <- bn_wexpand alloc_ok tmp (if pow2 then al * 4 else 2 * al);
    if negb ok then r_ret false
    else
      do_ run_words rr tmp (fun r t => if pow2 then bn_sqr_recursive mul_fuel r x al t else Some (bn_sqr_normal r x t));
      r_ret true.

(** [bn_sqr_consttime] between the choice of [rr] and the copy to [r]. *)
Definition sqr_into (rr a al tmp : nat) (stack : words) : prog bool :=
  do ok <- bn_wexpand alloc_ok rr (2 * al);
  if negb ok then r_ret false
  else
    do ok <- sqr_words_into rr a al tmp stack;
    if negb ok then r_ret false
    else do_ r_modify rr (fun bn => set_width (2 * al) (set_neg false bn)); r_ret true.

Definition bn_sqr_consttime (r a : nat) (tmp_rr tmp : option nat) (stack : words) : prog bool :=
  do A <- r_load a;
  let al := width A in
  if (al =? 0)%nat then do_ r_modify r (fun bn => set_neg false (set_width 0 bn)); r_ret true
  else
    match (if negb (a =? r)%nat then Some r else tmp_rr), tmp with
    | Some rr, Some tmp =>
        do ok <- sqr_into rr a al tmp stack;
        if negb ok then r_ret false
        else if (r =? rr)%nat then r_ret true
        else BN_copy alloc_ok r rr
    | _, _ => r_ret false
    end.

Definition BN_sqr (r a : nat) (tmp_rr tmp : option nat) (stack : words) : prog bool :=
  do ok <- bn_sqr_consttime r a tmp_rr tmp stack;
  if negb ok then r_ret false else do_ bn_set_minimal_width r; r_ret true.

Definition bn_abs_sub_consttime (r a b : nat) (tmp : option nat) : prog bool :=
  do A <- r_load a;
  do B <- r_load b;
  let cl := if (width A <? width B)%nat then width A else width B in
  let dl := Z.of_nat (width A) - Z.of_nat (width B) in
  let r_len := if (width A <? width B)%nat then width B else width A in
  match tmp with
  | None => r_ret false
  | Some tmp =>
      do ok <- bn_wexpand alloc_ok r r_len;
      if negb ok then r_ret false
      else
        do ok <- bn_wexpand alloc_ok tmp r_len;
        if negb ok then r_ret false
        else
          do x <- read_words a 0 (width A);
          do y <- read_words b 0 (width B);
          let '(ws, ts, _) := bn_abs_sub_part_words x y cl dl in
          do_ put_words tmp 0 ts;
          do_ put_words r 0 ws;
          do_ r_modify r (set_width r_len);
          r_ret true
  end.
End Ops.

(** * Specifications *)

#[local] Opaque bn_mul_comba4 bn_mul_comba8 bn_sqr_comba4 bn_sqr_comba8.

(** Only the objects in [l] have changed. *)
Definition frame (h h' : gmap nat BIGNUM) (l : list nat) : Prop := forall i, i ∉ l -> h' !! i = h !! i.

(** A temporary, if there is one, is an object apart from those in [l]. *)
Definition temp (h : gmap nat BIGNUM) (o : option nat) (l : list nat) : Prop :=
  forall t, o = Some t -> (t ∉ l) /\ exists T, h !! t = Some T /\ wf T.

Section Specs.
Context (alloc_ok : nat -> bool).

(** There is a temporary, with room for up to [n] words. *)
Definition temp_room (h : gmap nat BIGNUM) (o : option nat) (n : nat) : Prop :=
  exists t T, o = Some t /\ h !! t = Some T /\ forall k, (k <= n)%nat -> room alloc_ok T k = true.

Lemma frame_trans h h' h'' l : frame h h' l -> frame h' h'' l -> frame h h'' l.
Proof. intros H1 H2 i Hi. by rewrite H2, H1. Qed.

Lemma frame_insert h r X l : r ∈ l -> frame h (<[r := X]> h) l.
Proof. intros Hr i Hi. apply lookup_insert_ne. by intros ->. Qed.

Lemma frame_weaken h h' l l' : l ⊆ l' -> frame h h' l -> frame h h' l'.
Proof. intros Hl H i Hi. apply H. set_solver. Qed.

Lemma overwrite_all p ws : length ws = length p -> overwrite p 0 ws = ws.
Proof. intros Hl. unfold overwrite. rewrite take_0, app_nil_l, Nat.add_0_l, Hl, drop_all. apply app_nil_r. Qed.

Lemma run_words_eq h rr t R T f k v :
  h !! rr = Some R -> h !! t = Some T -> rr <> t -> (k <= length (d R))%nat -> computes (f (d R) (d T)) (d R) (d T) k v ->
  exists W ts, run_words rr t f h = Some (tt, <[t := set_d ts T]> (<[rr := set_d (overwrite (d R) 0 W) R]> h)) /\
    length ts = length (d T) /\ (words_ok (d T) -> words_ok ts) /\ length W = k /\ words_ok W /\ value W = v.
Proof.
  intros Hr Ht Hne Hk (W & ts & E & Lts & Hts & LW & HW & VW). unfold run_words. erewrite bind_eq by (by apply load_eq). erewrite bind_eq by (by apply load_eq).
  rewrite (bind_some _ _ _ _ E). cbn [fst snd].
  assert (length (W ++ drop k (d R)) = length (d R)) as Ll by (rewrite length_app, length_drop; lia).
  erewrite bind_eq by (apply put_eq; [done | lia]). rewrite (put_eq _ t T) by (rewrite ?lookup_insert_ne by done; done || lia).
  exists W, ts. rewrite !(overwrite_all _ _ Ll), (overwrite_all _ ts Lts). split_and!; try done. unfold overwrite. by rewrite take_0, app_nil_l, Nat.add_0_l, LW.
Qed.

(** What [mul_into] and [sqr_into] leave: [v] in the low [n] words of [rr], unless they fail. *)
Definition into (p : option (bool * gmap nat BIGNUM)) (h : gmap nat BIGNUM) (rr : nat) (X : BIGNUM) (o : option nat) (n : nat) (v : Z) (N : nat) (sets_width : bool) : Prop :=
  exists ok h' X', p = Some (ok, h') /\ h' !! rr = Some X' /\ wf X' /\ frame h h' (rr :: option_list o) /\
    (forall t, o = Some t -> exists T, h' !! t = Some T /\ wf T) /\
    (ok = true -> (n <= length (d X'))%nat /\ value (take n (d X')) = v /\ neg X' = neg X /\ (sets_width = true -> width X' = n)) /\
    (temp_room h o N -> (forall k, (k <= N)%nat -> room alloc_ok X k = true) -> ok = true).

Lemma read_limbs (h : gmap nat BIGNUM) a A : h !! a = Some A -> wf A -> read_words a 0 (width A) h = Some (limbs A, h).
Proof.
  intros Ha HA. apply read_holds; [| by rewrite length_limbs]. exists A. rewrite drop_0, length_limbs by done. split_and!; [done | done |]. by destruct HA.
Qed.

(** The low words written. *)
Lemma put_value E W :
  wf E -> (length W <= length (d E))%nat -> words_ok W ->
  let X := set_d (overwrite (d E) 0 W) E in wf X /\ take (length W) (d X) = W /\ length (d X) = length (d E).
Proof.
  intros [Hd Hw Hm] Hl HW. cbv zeta. cbn [d set_d]. assert (length (overwrite (d E) 0 W) = length (d E)) as Hlen by (apply length_overwrite; lia).
  split_and!; [| unfold overwrite; by rewrite take_0, app_nil_l, take_app_length | done].
  constructor; cbn [d width set_d]; rewrite ?Hlen; [| done | done]. unfold overwrite. rewrite take_0, app_nil_l. apply words_ok_app; auto with word_db.
Qed.

Lemma wf_set_width E n : wf E -> (n <= length (d E))%nat -> wf (set_width n E).
Proof. intros [Hd Hw Hm] Hn. by constructor. Qed.

Lemma wf_set_d T ts : wf T -> length ts = length (d T) -> words_ok ts -> wf (set_d ts T).
Proof. intros [Hd Hw Hm] Hl Hok. constructor; cbn [d width set_d]; rewrite ?Hl; done. Qed.

(** A failure before anything but [rr] and the temporary has been touched. *)
Lemma into_fail h h' rr X X' o n v N sw :
  h' !! rr = Some X' -> wf X' -> frame h h' (rr :: option_list o) -> (forall t, o = Some t -> exists T, h' !! t = Some T /\ wf T) ->
  (temp_room h o N -> (forall k, (k <= N)%nat -> room alloc_ok X k = true) -> False) ->
  into (Some (false, h')) h rr X o n v N sw.
Proof. intros Hrr HX Hf Ht Hno. exists false, h', X'. split_and!; try done. intros H1 H2. by destruct (Hno H1 H2). Qed.

(** The product [W] written in [rr], nothing else touched. *)
Lemma into_wrote h rr X o W v N sw l :
  let n := length W in let E := expanded X n in
  h !! rr = Some X -> wf X -> temp h o (rr :: l) -> room alloc_ok X n = true -> words_ok W -> value W = v ->
  into (Some (true, <[rr := set_d (overwrite (d E) 0 W) (set_width n E)]> h)) h rr X o n v N sw.
Proof.
  intros n E Hr HX Ht Hroom HW VW. destruct (expanded_spec X n HX Hroom) as (HE & LE & _ & _ & NE). fold E in HE, LE, NE.
  destruct (put_value (set_width n E) W) as (HX' & TX & LX); [by apply wf_set_width | cbn [d set_width]; lia | done |].
  eexists true, _, _. split_and!; [reflexivity | by rewrite lookup_insert_eq | exact HX' | apply frame_insert, list_elem_of_here | | |].
  - intros t Et. destruct (Ht t Et) as ([Hn _]%not_elem_of_cons & T & HT & HwT). exists T. rewrite lookup_insert_ne by congruence. split; assumption.
  - intros _. fold n in TX. cbn [d set_width] in *. rewrite LX, TX. split_and!; [exact LE | exact VW | exact NE | done].
  - done.
Qed.

(** [rr] cannot be given its words. *)
Lemma into_no_room h rr X o n v N sw k l :
  h !! rr = Some X -> wf X -> temp h o l -> room alloc_ok X k = false -> (k <= N)%nat -> into (Some (false, h)) h rr X o n v N sw.
Proof.
  intros Hr HX Ht Hroom Hk. exists false, h, X. split_and!; try done; [intros t E; by destruct (Ht t E) |].
  intros _ H. by rewrite (H k Hk) in Hroom.
Qed.

Lemma into_mono p h rr X o n v N M sw : (N <= M)%nat -> into p h rr X o n v N sw -> into p h rr X o n v M sw.
Proof.
  intros Hle (ok & h' & X' & E & H1 & H2 & H3 & H4 & H5 & Hok). exists ok, h', X'. split_and!; try done.
  intros (t & T & Et & HT & Hroom) HX. apply Hok; [| intros; apply HX; lia]. exists t, T. split_and!; [done | done |]. intros. apply Hroom. lia.
Qed.

Lemma split_size_spec al bl :
  (16 <= al)%nat -> (16 <= bl)%nat -> (al <= bl + 1)%nat -> (bl <= al + 1)%nat -> Z.of_nat al <= BN_MAX_WORDS -> Z.of_nat bl <= BN_MAX_WORDS ->
  exists k, split_size al bl = (2 ^ k)%nat /\ (4 <= k < 30)%nat /\ (2 ^ k <= Nat.max al bl < 2 * 2 ^ k)%nat.
Proof.
  intros Ha Hb Hab Hba Ma Mb. set (m := Nat.max al bl). change BN_MAX_WORDS with 8388607 in *.
  assert (split_size al bl = (2 ^ Z.to_nat (BN_num_bits_word (Z.of_nat m) - 1))%nat) as ->.
  { unfold split_size, m. destruct (Nat.leb_spec bl al); [rewrite Nat.max_l by lia | rewrite Nat.max_r by lia]; done. }
  rewrite num_bits_word_spec by (unfold fits, m; lia). unfold bit_length. rewrite (proj2 (Z.eqb_neq _ 0)) by (unfold m; lia). rewrite Z.add_simpl_r.
  pose proof (Z.log2_spec (Z.of_nat m) ltac:(unfold m; lia)) as [H1 H2]. pose proof (Z.log2_nonneg (Z.of_nat m)) as H0. set (k := Z.log2 (Z.of_nat m)) in *.
  exists (Z.to_nat k). assert (Z.of_nat (2 ^ Z.to_nat k) = 2 ^ k) as E by (rewrite Nat2Z.inj_pow, Z2Nat.id by lia; done).
  rewrite Z.pow_succ_r in H2 by lia. split_and!; [done | | | lia | lia].
  - assert (4 <= k); [| lia]. apply Z.nlt_ge. intros Hk. assert (2 ^ k <= 2 ^ 3) by (apply Z.pow_le_mono_r; lia). unfold m in *. lia.
  - assert (k < 30); [| lia]. apply Z.nle_gt. intros Hk. assert (2 ^ 30 <= 2 ^ k) by (apply Z.pow_le_mono_r; lia). unfold m in *. lia.
Qed.

(** The Karatsuba call of [mul_into]. *)
Lemma split_call x y k r t :
  let al := length x in let bl := length y in let j := (2 ^ k)%nat in
  words_ok x -> words_ok y -> (4 <= k < 30)%nat -> (2 ^ k <= Nat.max al bl < 2 * 2 ^ k)%nat -> (al <= bl + 1)%nat -> (bl <= al + 1)%nat ->
  let part := (j <? al)%nat || (j <? bl)%nat in
  (j * (if part then 4 else 2) <= length r)%nat -> (j * (if part then 8 else 4) <= length t)%nat ->
  negb part || ((j <=? al)%nat && (j <=? bl)%nat) = true /\ (al + bl <= j * (if part then 4 else 2))%nat /\
  computes (if part then bn_mul_part_recursive mul_fuel r x y j (Z.of_nat al - Z.of_nat j) (Z.of_nat bl - Z.of_nat j) t
            else bn_mul_recursive mul_fuel r x y j (Z.of_nat al - Z.of_nat j) (Z.of_nat bl - Z.of_nat j) t) r t (j * (if part then 4 else 2)) (value x * value y).
Proof.
  intros al bl j Hx Hy Hk Hm Hab Hba part Lr Lt. fold j in Hm. unfold mul_fuel. destruct part eqn:Ep; unfold part in Ep.
  - apply orb_true_iff in Ep. rewrite !Nat.ltb_lt in Ep. assert (j <= al)%nat by lia. assert (j <= bl)%nat by lia.
    rewrite !(proj2 (Nat.leb_le _ _)) by done. split_and!; [done | lia |]. rewrite <- !Nat2Z.inj_sub, (Nat.mul_comm j) by done.
    eapply computes_eq; [apply (part_recursive_spec 32 k); try done; try lia; fold j al bl; lia |]. fold j.
    by rewrite !take_exactly by (fold al bl; lia).
  - apply orb_false_iff in Ep. rewrite !Nat.ltb_ge in Ep. split_and!; [done | lia |]. rewrite (Nat.mul_comm j).
    pose proof (mul_recursive_spec 32 k r x y (Z.of_nat al - Z.of_nat j) (Z.of_nat bl - Z.of_nat j) t) as H. cbv zeta in H. fold j in H.
    replace (Z.to_nat (Z.of_nat j + (Z.of_nat al - Z.of_nat j))) with al in H by lia. replace (Z.to_nat (Z.of_nat j + (Z.of_nat bl - Z.of_nat j))) with bl in H by lia.
    rewrite !take_exactly in H by done. apply H; try done; try (unfold al, bl; lia).
Qed.

Lemma value_low W n : words_ok W -> (n <= length W)%nat -> value W < 2 ^ (64 * Z.of_nat n) -> value (take n W) = value W.
Proof. intros HW Hn Hv. rewrite value_take by done. apply Z.mod_small. split; [by apply value_nonneg | done]. Qed.

Section Mul.
Context (h : gmap nat BIGNUM) (rr a b : nat) (X A B : BIGNUM) (o : option nat) (sw : bool).
Context (Hr : h !! rr = Some X) (Ha : h !! a = Some A) (Hb : h !! b = Some B) (HX : wf X) (HA : wf A) (HB : wf B) (Nar : a <> rr) (Nbr : b <> rr).
Context (Ht : temp h o [rr; a; b]).

(** The operands are read after [rr] has changed. *)
Lemma read_operands {C} (K : words -> words -> prog C) Y h' :
  h' = <[rr := Y]> h -> (do x <- read_words a 0 (width A); do y <- read_words b 0 (width B); K x y) h' = K (limbs A) (limbs B) h'.
Proof.
  intros ->. erewrite bind_eq by (apply read_limbs; [by rewrite lookup_insert_ne by done | done]).
  by erewrite bind_eq by (apply read_limbs; [by rewrite lookup_insert_ne by done | done]).
Qed.

Lemma mul_into_comba :
  width A = 8%nat -> width B = 8%nat -> into (mul_into alloc_ok rr a b (width A) (width B) o h) h rr X o 16 (mag A * mag B) 64 sw.
Proof.
  intros WA WB. pose proof (length_limbs A HA) as LA. pose proof (length_limbs B HB) as LB. unfold mul_into.
  replace ((width A =? width B)%nat && (width A =? 8)%nat) with true by (by rewrite WA, WB).
  erewrite bind_eq by (by apply wexpand_eq). destruct (room alloc_ok X 16) eqn:Hroom; cbn [negb].
  2: { eapply into_no_room; [done | done | exact Ht | exact Hroom | lia]. }
  destruct (comba8_spec (limbs A) (limbs B)) as (H1 & H2 & H3); [auto with word_db | auto with word_db | lia | lia |].
  rewrite !take_exactly in H3 by lia. destruct (expanded_spec X 16 HX Hroom) as (HE & LE & _).
  erewrite bind_eq by apply modify_cell. erewrite read_operands by reflexivity.
  erewrite bind_eq by (apply put_eq; [by rewrite lookup_insert_eq | cbn [d set_width]; lia]). rewrite insert_insert_eq.
  pose proof (into_wrote h rr X o (bn_mul_comba8 (limbs A) (limbs B)) (mag A * mag B) 64 sw [a; b]) as Hw. cbv zeta in Hw. rewrite H2 in Hw. by apply Hw.
Qed.

Lemma mul_into_normal :
  into ((do ok <- bn_wexpand alloc_ok rr (width A + width B);
        if negb ok then r_ret false
        else
          do_ r_modify rr (set_width (width A + width B));
          do x <- read_words a 0 (width A);
          do y <- read_words b 0 (width B);
          do R <- r_load rr;
          do_ put_words rr 0 (bn_mul_normal (d R) x y);
          r_ret true) h) h rr X o (width A + width B) (mag A * mag B) (width A + width B) sw.
Proof.
  pose proof (length_limbs A HA) as LA. pose proof (length_limbs B HB) as LB. set (n := (width A + width B)%nat).
  erewrite bind_eq by (by apply wexpand_eq). destruct (room alloc_ok X n) eqn:Hroom; cbn [negb].
  2: { eapply into_no_room; [done | done | exact Ht | exact Hroom | lia]. }
  destruct (expanded_spec X n HX Hroom) as (HE & LE & _).
  destruct (mul_normal_spec (d (expanded X n)) (limbs A) (limbs B)) as (W & EW & LW & HW & VW); [auto with word_db | auto with word_db | lia |].
  assert (length W = n) as En by lia.
  erewrite bind_eq by apply modify_cell. erewrite read_operands by reflexivity.
  erewrite bind_eq by apply load_cell. cbn [d set_width]. rewrite EW.
  assert (length (W ++ drop (length W) (d (expanded X n))) = length (d (expanded X n))) as Ll by (rewrite length_app, length_drop; lia).
  erewrite bind_eq by (apply put_eq; [by rewrite lookup_insert_eq | cbn [d set_width]; lia]). rewrite insert_insert_eq. cbn [d set_width].
  rewrite (overwrite_all _ _ Ll). pose proof (into_wrote h rr X o W (mag A * mag B) n sw [a; b]) as Hw. cbv zeta in Hw. rewrite En in Hw.
  unfold overwrite in Hw. rewrite take_0, app_nil_l, Nat.add_0_l in Hw. by apply Hw.
Qed.
(** The objects after the Karatsuba call. *)
Lemma mul_into_split :
  (16 <= width A)%nat -> (16 <= width B)%nat -> (width A <= width B + 1)%nat -> (width B <= width A + 1)%nat ->
  into (mul_into alloc_ok rr a b (width A) (width B) o h) h rr X o (width A + width B) (mag A * mag B) (8 * Nat.max (width A) (width B)) sw.
Proof.
  intros WA WB Hab Hba. pose proof (length_limbs A HA) as LA. pose proof (length_limbs B HB) as LB. unfold mul_into.
  rewrite (proj2 (Nat.eqb_neq (width A) 8)), andb_false_r by lia. rewrite !(proj2 (Nat.leb_le _ _)) by lia. cbn [andb].
  destruct (split_size_spec (width A) (width B)) as (k & Ej & Hk & Hm); try done; [destruct HA; lia | destruct HB; lia |]. rewrite Ej. set (j := (2 ^ k)%nat) in *.
  rewrite bind_assert by (apply orb_true_iff; rewrite !Nat.leb_le; lia).
  destruct o as [t |] eqn:Eo.
  2: { apply (into_fail h h rr X X); try done. intros (t & T & Et & _) _. done. }
  destruct (Ht t eq_refl) as (Hnt & T & HT & HwT). rewrite !not_elem_of_cons in Hnt. destruct Hnt as (Ntr & Nta & Ntb & _).
  set (part := (j <? width A)%nat || (j <? width B)%nat). set (kt := (j * (if part then 8 else 4))%nat). set (kr := (j * (if part then 4 else 2))%nat).
  assert (kt <= 8 * Nat.max (width A) (width B) /\ kr <= 8 * Nat.max (width A) (width B))%nat as [Hkt Hkr] by (unfold kt, kr; destruct part; lia).
  pose proof (split_call (limbs A) (limbs B) k) as Hcall. rewrite LA, LB in Hcall. cbv zeta in Hcall. fold j part in Hcall. fold kt kr in Hcall.
  destruct (Hcall (replicate kr 0) (replicate kt 0)) as (Eassert & Htop & _); [auto with word_db | auto with word_db | done | done | done | done | by rewrite length_replicate | by rewrite length_replicate |].
  rewrite bind_assert by exact Eassert. erewrite bind_eq by (by apply wexpand_eq).
  destruct (room alloc_ok T kt) eqn:Hroomt; cbn [negb].
  2: { apply (into_fail h h rr X X); try done; [intros t' [= <-]; by exists T |]. intros (t' & T' & [= <-] & HT' & Hall) _.
       rewrite HT in HT'. injection HT' as <-. specialize (Hall kt Hkt). congruence. }
  destruct (expanded_spec T kt HwT Hroomt) as (HwE & LE & _). set (ET := expanded T kt) in *.
  assert ((<[t := ET]> h) !! rr = Some X) as Hr' by (by rewrite lookup_insert_ne by done).
  erewrite bind_eq by (apply wexpand_eq; exact Hr').
  destruct (room alloc_ok X kr) eqn:Hroom; cbn [negb].
  2: { apply (into_fail h (<[t := ET]> h) rr X X);
         [exact Hr' | exact HX | apply frame_insert, list_elem_of_further, list_elem_of_here | intros t' [= <-]; exists ET; by rewrite lookup_insert_eq |].
       intros _ Hall. specialize (Hall kr Hkr). congruence. }
  destruct (expanded_spec X kr HX Hroom) as (HwX & LX & _ & _ & NX). set (EX := expanded X kr) in *.
  set (h2 := <[rr := EX]> (<[t := ET]> h)).
  assert (h2 !! a = Some A) as Ha2 by (unfold h2; rewrite !lookup_insert_ne by congruence; done).
  assert (h2 !! b = Some B) as Hb2 by (unfold h2; rewrite !lookup_insert_ne by congruence; done).
  assert (h2 !! t = Some ET) as Ht2 by (unfold h2; rewrite lookup_insert_ne by congruence; by rewrite lookup_insert_eq).
  assert (h2 !! rr = Some EX) as Hr2 by (unfold h2; by rewrite lookup_insert_eq).
  erewrite bind_eq by (by apply read_limbs). erewrite bind_eq by (by apply read_limbs).
  destruct (Hcall (d EX) (d ET)) as (_ & _ & Hc); [auto with word_db | auto with word_db | done | done | done | done | done | done |].
  set (f := fun r t : words => if part then bn_mul_part_recursive mul_fuel r (limbs A) (limbs B) j (Z.of_nat (width A) - Z.of_nat j) (Z.of_nat (width B) - Z.of_nat j) t
            else bn_mul_recursive mul_fuel r (limbs A) (limbs B) j (Z.of_nat (width A) - Z.of_nat j) (Z.of_nat (width B) - Z.of_nat j) t).
  destruct (run_words_eq h2 rr t EX ET f kr (value (limbs A) * value (limbs B))) as (W & ts & Erun & Lts & Hts & LW & HW & VW); [exact Hr2 | exact Ht2 | congruence | exact LX | exact Hc |].
  erewrite bind_eq by exact Erun. clear Erun Hc Hcall.
  destruct (put_value EX W HwX ltac:(lia) HW) as (HX' & TX & LX'). set (X' := set_d (overwrite (d EX) 0 W) EX) in *.
  erewrite bind_eq by (apply modify_eq; rewrite lookup_insert_ne by congruence; by rewrite lookup_insert_eq).
  eexists true, _, (set_width (width A + width B) X'). split_and!.
  - reflexivity.
  - by rewrite lookup_insert_eq.
  - apply wf_set_width; [exact HX' | rewrite LX'; lia].
  - intros i Hi. change (option_list (Some t)) with [t] in Hi. rewrite !not_elem_of_cons in Hi. destruct Hi as (Hi1 & Hi2 & _). unfold h2. rewrite !lookup_insert_ne by congruence. done.
  - intros t' [= <-]. exists (set_d ts ET). rewrite lookup_insert_ne by congruence. rewrite lookup_insert_eq. split; [done |].
    apply wf_set_d; [exact HwE | exact Lts | apply Hts; by destruct HwE].
  - intros _. cbn [d set_width]. rewrite LX'. split_and!; [lia | | exact NX | done].
    replace (take (width A + width B) (d X')) with (take (width A + width B) W).
    2: { rewrite <- TX, LW, take_take. f_equal. lia. }
    rewrite value_low, VW; [done | done | lia |]. unfold mag. rewrite VW.
    pose proof (product_bound (limbs A) (limbs B) _ _ ltac:(auto with word_db) ltac:(auto with word_db) LA LB). lia.
  - done.
Qed.
Lemma mul_into_spec :
  width A <> 0%nat -> width B <> 0%nat ->
  into (mul_into alloc_ok rr a b (width A) (width B) o h) h rr X o (width A + width B) (mag A * mag B) (8 * Nat.max (width A) (width B)) sw.
Proof.
  intros WA WB. destruct ((width A =? width B)%nat && (width A =? 8)%nat) eqn:E8.
  { apply andb_prop in E8 as [E1%Nat.eqb_eq E2%Nat.eqb_eq]. pose proof (mul_into_comba E2 ltac:(lia)) as H.
    replace (width A + width B)%nat with 16%nat by lia. replace (8 * Nat.max (width A) (width B))%nat with 64%nat by lia. exact H. }
  destruct ((16 <=? width A)%nat && (16 <=? width B)%nat && (width A <=? width B + 1)%nat && (width B <=? width A + 1)%nat) eqn:E16.
  { rewrite !andb_true_iff, !Nat.leb_le in E16. apply mul_into_split; lia. }
  apply (into_mono _ _ _ _ _ _ _ (width A + width B)); [lia |]. unfold mul_into. rewrite E8, E16. apply mul_into_normal.
Qed.
End Mul.
(** ** Squares *)

Lemma room_same X Y k : d X = d Y -> static_data X = static_data Y -> room alloc_ok X k = room alloc_ok Y k.
Proof. intros E1 E2. unfold room. by rewrite E1, E2. Qed.


Lemma is_pow2_true n : is_pow2 n = true -> Z.of_nat n <= BN_MAX_WORDS -> exists k, n = (2 ^ k)%nat /\ (k < 30)%nat.
Proof.
  unfold is_pow2. rewrite andb_true_iff, negb_true_iff, Nat.eqb_neq, Z.eqb_eq. intros [Hn Hl] Hm. change BN_MAX_WORDS with 8388607 in Hm.
  apply land_pred in Hl; [| lia]. pose proof (Z.log2_nonneg (Z.of_nat n)) as H0. set (k := Z.log2 (Z.of_nat n)) in *. exists (Z.to_nat k). split.
  - apply Nat2Z.inj. rewrite Nat2Z.inj_pow, Z2Nat.id by lia. done.
  - assert (k < 30); [| lia]. apply Z.nle_gt. intros Hk. assert (2 ^ 30 <= 2 ^ k) by (apply Z.pow_le_mono_r; lia). lia.
Qed.

Section Sqr.
Context (h : gmap nat BIGNUM) (rr a t : nat) (X A T : BIGNUM) (stack : words).
Context (Hr : h !! rr = Some X) (Ha : h !! a = Some A) (Ht : h !! t = Some T) (HX : wf X) (HA : wf A) (HT : wf T).
Context (Nar : a <> rr) (Ntr : t <> rr) (Nta : t <> a) (Hstack : (32 <= length stack)%nat).

(** The square written in [rr], which has the room. *)
Lemma into_square W N :
  length W = (2 * width A)%nat -> (2 * width A <= length (d X))%nat -> words_ok W -> value W = mag A * mag A ->
  into ((do_ put_words rr 0 W; r_ret true) h) h rr X (Some t) (2 * width A) (mag A * mag A) N false.
Proof.
  intros LW LX HW VW. destruct (put_value X W HX ltac:(lia) HW) as (HX' & TX & LX').
  erewrite bind_eq by (apply put_eq; [done | lia]). eexists true, _, _.
  split_and!; [reflexivity | by rewrite lookup_insert_eq | exact HX' | apply frame_insert, list_elem_of_here | | | done].
  - intros t' [= <-]. exists T. by rewrite lookup_insert_ne by done.
  - intros _. rewrite LX', <- LW, TX. split_and!; [lia | done | done | done].
Qed.

(** A result longer than what is written back to the array. *)
Lemma put_whole W : length W = (2 * width A)%nat -> (2 * width A <= length (d X))%nat ->
  put_words rr 0 (W ++ drop (length W) (d X)) h = put_words rr 0 W h.
Proof.
  intros LW LX. assert (length (W ++ drop (length W) (d X)) = length (d X)) as Ll by (rewrite length_app, length_drop; lia).
  rewrite !(put_eq h rr X) by (done || lia). by rewrite (overwrite_all _ _ Ll).
Qed.

Lemma sqr_words_into_spec :
  width A <> 0%nat -> (2 * width A <= length (d X))%nat ->
  into (sqr_words_into alloc_ok rr a (width A) t stack h) h rr X (Some t) (2 * width A) (mag A * mag A) (4 * width A) false.
Proof.
  intros WA LX. pose proof (length_limbs A HA) as LA. pose proof (limbs_ok A HA) as OA. unfold sqr_words_into.
  erewrite bind_eq by (by apply read_limbs). erewrite bind_eq by (by apply load_eq).
  destruct (Nat.eqb_spec (width A) 4) as [E4 | N4]; [| destruct (Nat.eqb_spec (width A) 8) as [E8 | N8]].
  { destruct (sqr_comba4_spec (limbs A) OA ltac:(lia)) as (H1 & H2 & H3). rewrite take_exactly in H3 by lia. apply into_square; [lia | done | exact H1 | exact H3]. }
  { destruct (sqr_comba8_spec (limbs A) OA ltac:(lia)) as (H1 & H2 & H3). rewrite take_exactly in H3 by lia. apply into_square; [lia | done | exact H1 | exact H3]. }
  destruct (Nat.ltb_spec (width A) BN_SQR_RECURSIVE_SIZE_NORMAL) as [Hs | Hb].
  { unfold BN_SQR_RECURSIVE_SIZE_NORMAL, BN_MUL_RECURSIVE_SIZE_NORMAL in Hs.
    destruct (sqr_normal_spec (d X) (limbs A) stack OA) as (W & t' & -> & _ & _ & LW & HW & VW); [lia | lia |]. cbn [fst]. unfold r_bind. rewrite put_whole by lia.
    apply into_square; [lia | done | exact HW | exact VW]. }
  set (kt := (if is_pow2 (width A) then width A * 4 else 2 * width A)%nat). assert (kt <= 4 * width A)%nat as Hkt by (unfold kt; destruct (is_pow2 _); lia).
  erewrite bind_eq by (by apply wexpand_eq). destruct (room alloc_ok T kt) eqn:Hroomt; cbn [negb].
  2: { apply (into_fail h h rr X X); try done; [intros t' [= <-]; by exists T |]. intros (t' & T' & [= <-] & HT' & Hall) _.
       rewrite Ht in HT'. injection HT' as <-. specialize (Hall kt Hkt). congruence. }
  destruct (expanded_spec T kt HT Hroomt) as (HwE & LE & _). set (ET := expanded T kt) in *.
  set (f := fun r t : words => if is_pow2 (width A) then bn_sqr_recursive mul_fuel r (limbs A) (width A) t else Some (bn_sqr_normal r (limbs A) t)).
  assert (computes (f (d X) (d ET)) (d X) (d ET) (2 * width A) (mag A * mag A)) as Hc.
  { unfold f, kt in *. destruct (is_pow2 (width A)) eqn:Ep.
    - destruct (is_pow2_true (width A) Ep ltac:(destruct HA; lia)) as (k & Ek & Hk). rewrite Ek in *.
      eapply computes_eq; [apply (sqr_recursive_spec 32 k); (done || lia) |]. rewrite take_exactly by lia. done.
    - destruct (sqr_normal_spec (d X) (limbs A) (d ET) OA) as (W & t' & E & Lt' & Ht' & LW & HW & VW); [lia | lia |].
      exists W, t'. rewrite E. replace (2 * width A)%nat with (length W) by lia. done. }
  destruct (run_words_eq (<[t := ET]> h) rr t X ET f (2 * width A) (mag A * mag A)) as (W & ts & Erun & Lts & Hts & LW & HW & VW);
    [by rewrite lookup_insert_ne by congruence | by rewrite lookup_insert_eq | congruence | done | exact Hc |].
  erewrite bind_eq by exact Erun. destruct (put_value X W HX ltac:(lia) HW) as (HX' & TX & LX').
  eexists true, _, _. split_and!; [reflexivity | rewrite lookup_insert_ne by congruence; by rewrite lookup_insert_eq | exact HX' | | | | done].
  - intros i Hi. change (option_list (Some t)) with [t] in Hi. rewrite !not_elem_of_cons in Hi. destruct Hi as (Hi1 & Hi2 & _). rewrite !lookup_insert_ne by congruence. done.
  - intros t' [= <-]. exists (set_d ts ET). rewrite lookup_insert_eq. split; [done |]. apply wf_set_d; [exact HwE | exact Lts | apply Hts; by destruct HwE].
  - intros _. rewrite LX', <- LW, TX. split_and!; [lia | done | done | done].
Qed.
End Sqr.

Lemma sqr_into_spec h rr a t X A T stack :
  h !! rr = Some X -> h !! a = Some A -> h !! t = Some T -> wf X -> wf A -> wf T -> a <> rr -> t <> rr -> t <> a -> (32 <= length stack)%nat ->
  width A <> 0%nat -> into (sqr_into alloc_ok rr a (width A) t stack h) h rr (set_neg false X) (Some t) (2 * width A) (mag A * mag A) (4 * width A) true.
Proof.
  intros Hr Ha Ht HX HA HT Nar Ntr Nta Hst WA. unfold sqr_into. erewrite bind_eq by (by apply wexpand_eq).
  destruct (room alloc_ok X (2 * width A)) eqn:Hroom; cbn [negb].
  2: { apply (into_fail h h rr _ X); try done; [intros t' [= <-]; by exists T |]. intros _ Hall.
       specialize (Hall (2 * width A)%nat ltac:(lia)). rewrite (room_same _ X) in Hall by done. congruence. }
  destruct (expanded_spec X _ HX Hroom) as (HwE & LE & _). set (E := expanded X (2 * width A)) in *.
  destruct (sqr_words_into_spec (<[rr := E]> h) rr a t E A T stack) as (ok & h' & X' & E' & HX' & HwX' & F' & T' & P' & Hok);
    try done; try (by rewrite lookup_insert_ne by done); [by rewrite lookup_insert_eq |].
  assert (frame h h' (rr :: option_list (Some t))) as Fh by (apply (frame_trans _ (<[rr := E]> h)); [apply frame_insert, list_elem_of_here | done]).
  assert (temp_room h (Some t) (4 * width A) -> (forall k, (k <= 4 * width A)%nat -> room alloc_ok X k = true) -> ok = true) as Hok'.
  { intros (t' & T1 & [= <-] & HT1 & Hr1) HrX. apply Hok; [exists t, T1; rewrite lookup_insert_ne by done; done |]. intros k Hk. specialize (HrX k Hk).
    unfold E, expanded. destruct (Nat.leb_spec (2 * width A) (length (d X))); [done |]. unfold room in *. cbn [d static_data set_d].
    apply orb_true_iff in HrX as [H1 | H1]; apply orb_true_iff; [left | right; done]. rewrite Nat.leb_le, length_app, length_replicate in *.
    rewrite length_limbs by done. destruct HX as [_ Hw _]. lia. }
  erewrite bind_eq by exact E'. destruct ok; cbn [negb].
  2: { exists false, h', X'. split_and!; done. }
  erewrite bind_eq by (by apply modify_eq). destruct (P' eq_refl) as (LX' & VX' & NX' & _).
  eexists true, _, _. split_and!; [reflexivity | by rewrite lookup_insert_eq | | | | | done].
  - apply wf_set_width; [by apply wf_set_neg | done].
  - apply (frame_trans _ h'); [done | apply frame_insert, list_elem_of_here].
  - intros t' [= <-]. destruct (T' t eq_refl) as (T2 & HT2 & HwT2). exists T2. by rewrite lookup_insert_ne by done.
  - intros _. done.
Qed.


(** The outcome of a function with temporaries [l]: [post] of the result, and success if there is [enough] room. *)
Definition computed (p : prog bool) (h : gmap nat BIGNUM) (r : nat) (l : list nat) (post : BIGNUM -> Prop) (enough : Prop) : Prop :=
  exists ok h' R', p h = Some (ok, h') /\ h' !! r = Some R' /\ wf R' /\ (ok = true -> post R') /\ frame h h' (r :: l) /\
    (forall t, t ∈ l -> exists T, h' !! t = Some T /\ wf T) /\ (enough -> ok = true).

(** The end: the result is copied if it was computed in a temporary. *)
Lemma copy_back (h : gmap nat BIGNUM) r rr R X :
  h !! r = Some R -> h !! rr = Some X -> wf R -> wf X ->
  exists ok h' R', (if (r =? rr)%nat then r_ret true else BN_copy alloc_ok r rr) h = Some (ok, h') /\ h' !! r = Some R' /\ wf R' /\
    frame h h' [r] /\ (ok = true -> limbs R' = limbs X /\ width R' = width X /\ neg R' = neg X) /\ (room alloc_ok R (width X) = true -> ok = true).
Proof.
  intros Hr Hrr HR HX. destruct (Nat.eqb_spec r rr) as [<- | Hne].
  { assert (R = X) as -> by congruence. by exists true, h, X. }
  destruct (copy_outcome alloc_ok h r rr R X Hr Hrr HR HX) as (ok & h' & E & Hroom & H). exists ok, h'. destruct ok.
  - destruct H as (Y & -> & HY & H1 & H2 & H3). exists Y. split_and!; try done; [by rewrite lookup_insert_eq | apply frame_insert, list_elem_of_here].
  - subst h'. exists R. by split_and!.
Qed.

Lemma elem_option_list (t : nat) o : t ∈ option_list o <-> o = Some t.
Proof. destruct o as [x |]; cbn; [| set_solver]. rewrite list_elem_of_singleton. split; [by intros -> | by intros [= ->]]. Qed.

(** The objects once the product has been computed in [rr], which is [r] or one of [l]. *)
Lemma target_state h h1 h2 r rr R X' l o :
  h !! r = Some R -> wf R -> (forall i, i <> rr -> h1 !! i = h !! i) -> rr ∈ r :: l -> (forall t, t ∈ l -> exists T, h !! t = Some T /\ wf T) -> o <> Some r ->
  h2 !! rr = Some X' -> wf X' -> frame h1 h2 (rr :: option_list o) -> (forall t, o = Some t -> exists T, h2 !! t = Some T /\ wf T) ->
  frame h h2 (r :: l ++ option_list o) /\ (forall t, t ∈ l ++ option_list o -> exists T, h2 !! t = Some T /\ wf T) /\
  exists R2, h2 !! r = Some R2 /\ wf R2 /\ (rr <> r -> R2 = R).
Proof.
  intros Hr HR Hh1 Hin Hl Ho HX' HwX' F2 T2.
  assert (forall i, i <> rr -> o <> Some i -> h2 !! i = h !! i) as Hsame.
  { intros i Hi Hoi. rewrite F2, Hh1 by (done || (rewrite not_elem_of_cons, elem_option_list; tauto)). done. }
  split_and!.
  - intros i Hi. rewrite not_elem_of_cons, not_elem_of_app, elem_option_list in Hi. apply Hsame; [| tauto]. intros ->. rewrite elem_of_cons in Hin. tauto.
  - intros t Ht. destruct (decide (t = rr)) as [-> | Hne]; [by exists X' |]. destruct (decide (o = Some t)) as [Et | Et]; [by apply T2 |].
    rewrite Hsame by done. apply Hl. rewrite elem_of_app, elem_option_list in Ht. tauto.
  - destruct (decide (r = rr)) as [-> | Hne]; [by exists X' |]. exists R. by rewrite Hsame.
Qed.

Lemma target_copy (q : prog bool) h h1 r rr R X1 l o n v N (enough : Prop) :
  h !! r = Some R -> wf R -> (forall i, i <> rr -> h1 !! i = h !! i) -> rr ∈ r :: l -> (forall t, t ∈ l -> exists T, h !! t = Some T /\ wf T) -> o <> Some r ->
  into (q h1) h1 rr X1 o n v N true -> (n <= N)%nat ->
  (enough -> temp_room h1 o N /\ (forall k, (k <= N)%nat -> room alloc_ok X1 k = true) /\ (forall k, (k <= N)%nat -> room alloc_ok R k = true)) ->
  exists ok h' R', (do ok <- q; if negb ok then r_ret false else if (r =? rr)%nat then r_ret true else BN_copy alloc_ok r rr) h1 = Some (ok, h') /\
    h' !! r = Some R' /\ wf R' /\ (ok = true -> mag R' = v /\ width R' = n /\ neg R' = neg X1) /\ frame h h' (r :: l ++ option_list o) /\
    (forall t, t ∈ l ++ option_list o -> exists T, h' !! t = Some T /\ wf T) /\ (enough -> ok = true).
Proof.
  intros Hr HR Hh1 Hin Hl Ho (ok & h2 & X' & E2 & HX' & HwX' & F2 & T2 & P2 & Hok) HnN He.
  destruct (target_state h h1 h2 r rr R X' l o) as (Fh2 & Tw2 & R2 & HR2 & HwR2 & Esame); try done.
  assert (enough -> ok = true) as Hok' by (intros H; destruct (He H) as (H1 & H2 & _); by apply Hok).
  erewrite bind_eq by exact E2. destruct ok; cbn [negb]; [| exists false, h2, R2; by split_and!].
  destruct (P2 eq_refl) as (LX' & VX' & NX' & WX'). specialize (WX' eq_refl).
  destruct (copy_back h2 r rr R2 X' HR2 HX' HwR2 HwX') as (ok & h3 & R3 & E3 & HR3 & HwR3 & F3 & P3 & Hok3).
  exists ok, h3, R3. split_and!; [exact E3 | exact HR3 | exact HwR3 | | | |].
  - intros Eok. destruct (P3 Eok) as (L3 & W3 & N3). split_and!; [| congruence | congruence]. unfold mag. rewrite L3. unfold limbs. by rewrite WX'.
  - apply (frame_trans _ h2); [done |]. intros i Hi. apply F3. rewrite not_elem_of_cons in *. split; [tauto | apply not_elem_of_nil].
  - intros t Ht. destruct (decide (t = r)) as [-> | Hne]; [by exists R3 |]. rewrite (F3 t); [by apply Tw2 |]. rewrite not_elem_of_cons. split; [done | apply not_elem_of_nil].
  - intros H. destruct (decide (r = rr)) as [Err | Hne].
    + revert E3. rewrite (proj2 (Nat.eqb_eq r rr) Err). by intros [= <- _].
    + apply Hok3. rewrite (Esame (not_eq_sym Hne)), WX'. by apply (He H).
Qed.

(** A result of width zero. *)
Lemma zero_object h r R l (p : prog bool) (post : BIGNUM -> Prop) enough :
  h !! r = Some R -> wf R -> (forall t, t ∈ l -> exists T, h !! t = Some T /\ wf T) -> r ∉ l ->
  p h = Some (true, <[r := set_neg false (set_width 0 R)]> h) -> post (set_neg false (set_width 0 R)) -> computed p h r l post enough.
Proof.
  intros Hr HR Hl Hnl Hp Hpost. eexists true, _, _. split_and!; [exact Hp | by rewrite lookup_insert_eq | | done | apply frame_insert, list_elem_of_here | | done].
  - apply wf_set_neg, wf_set_width; [done | lia].
  - intros t Ht. rewrite lookup_insert_ne by (intros ->; done). by apply Hl.
Qed.

Section Impl.
Context (h : gmap nat BIGNUM) (r a b : nat) (R A B : BIGNUM) (tmp_rr tmp_t : option nat).
Context (Hr : h !! r = Some R) (Ha : h !! a = Some A) (Hb : h !! b = Some B) (HR : wf R) (HA : wf A) (HB : wf B).
Context (Hrr : temp h tmp_rr [r; a; b]) (Ht : temp h tmp_t (r :: a :: b :: option_list tmp_rr)).

Let N : nat := (8 * Nat.max (width A) (width B))%nat.
Let temps : list nat := option_list tmp_rr ++ option_list tmp_t.
Let enough : Prop := temp_room h tmp_rr N /\ temp_room h tmp_t N /\ forall k, (k <= N)%nat -> room alloc_ok R k = true.

Lemma temps_spec : (forall t, t ∈ temps -> exists T, h !! t = Some T /\ wf T) /\ (r ∉ temps).
Proof.
  split.
  - intros t [Hin%elem_option_list | Hin%elem_option_list]%elem_of_app; [by destruct (Hrr t Hin) | by destruct (Ht t Hin)].
  - intros [Hin%elem_option_list | Hin%elem_option_list]%elem_of_app; [destruct (Hrr r Hin) as [Hn _] | destruct (Ht r Hin) as [Hn _]]; apply Hn, list_elem_of_here.
Qed.

(** Where the product is computed. *)
Lemma target_spec rr :
  (if (r =? a)%nat || (r =? b)%nat then tmp_rr else Some r) = Some rr ->
  rr <> a /\ rr <> b /\ rr ∈ r :: option_list tmp_rr /\ temp h tmp_t [rr; a; b] /\
  exists X, h !! rr = Some X /\ wf X /\ (enough -> forall k, (k <= N)%nat -> room alloc_ok X k = true).
Proof.
  intros E. destruct ((r =? a)%nat || (r =? b)%nat) eqn:Eal.
  - destruct (Hrr rr E) as (Hn & X & HX & HwX). rewrite !not_elem_of_cons in Hn. split_and!; [tauto | tauto | by apply list_elem_of_further, elem_option_list | |].
    + intros t Et. destruct (Ht t Et) as (Hnt & HT). split; [| done]. rewrite !not_elem_of_cons, elem_option_list in *.
      split_and!; [intros ->; tauto | tauto | tauto | apply not_elem_of_nil].
    + exists X. split_and!; [done | done |]. intros ((x & X' & Ex & HX' & Hroom) & _) k Hk. assert (X' = X) as -> by congruence. by apply Hroom.
  - injection E as <-. apply orb_false_iff in Eal as [Na%Nat.eqb_neq Nb%Nat.eqb_neq]. split_and!; [done | done | apply list_elem_of_here | |].
    + intros t Et. destruct (Ht t Et) as (Hnt & HT). split; [| done]. rewrite !not_elem_of_cons in *. split_and!; [tauto | tauto | tauto | apply not_elem_of_nil].
    + exists R. split_and!; [done | done |]. by intros (_ & _ & Hroom).
Qed.

Lemma mul_impl_outcome :
  computed (bn_mul_impl alloc_ok r a b tmp_rr tmp_t) h r temps
    (fun R' => val R' = val A * val B /\ width R' = (if (width A =? 0)%nat || (width B =? 0)%nat then 0 else width A + width B)%nat /\
               (neg A = false -> neg B = false -> neg R' = false)) enough.
Proof.
  destruct temps_spec as [Hl Hnl]. destruct ((width A =? 0)%nat || (width B =? 0)%nat) eqn:Ez.
  { eapply zero_object; try done.
    - unfold bn_mul_impl, BN_zero. erewrite bind_eq by (by apply load_eq). erewrite bind_eq by (by apply load_eq). rewrite Ez. by erewrite bind_eq by (by apply modify_eq).
    - split_and!; [| done | done]. change (val (set_neg false (set_width 0 R))) with 0. unfold val, mag, limbs.
      apply orb_prop in Ez as [-> %Nat.eqb_eq | -> %Nat.eqb_eq]; rewrite take_0; cbn [value]; destruct (neg A), (neg B); lia. }
  unfold bn_mul_impl, computed. erewrite bind_eq by (by apply load_eq). erewrite bind_eq by (by apply load_eq). rewrite Ez.
  apply orb_false_iff in Ez as [WA%Nat.eqb_neq WB%Nat.eqb_neq].
  destruct (if (r =? a)%nat || (r =? b)%nat then tmp_rr else Some r) as [rr |] eqn:Etarget.
  2: { exists false, h, R. split_and!; try done. intros ((x & X & Ex & _) & _). destruct ((r =? a)%nat || (r =? b)%nat); [congruence | done]. }
  destruct (target_spec rr Etarget) as (Nra & Nrb & Hin & Htt & X & HX & HwX & Hroom). clear Etarget.
  erewrite bind_eq by (by apply modify_eq). set (s := xorb (neg A) (neg B)). set (h1 := <[rr := set_neg s X]> h).
  assert (forall i, i <> rr -> h1 !! i = h !! i) as Hh1 by (intros i Hi; by apply lookup_insert_ne).
  assert (temp h1 tmp_t [rr; a; b]) as Htt1.
  { intros t Et. destruct (Htt t Et) as (Hn & T & HT). split; [done |]. rewrite !not_elem_of_cons in Hn. exists T. rewrite Hh1 by tauto. done. }
  destruct (target_copy (mul_into alloc_ok rr a b (width A) (width B) tmp_t) h h1 r rr R (set_neg s X) (option_list tmp_rr) tmp_t
              (width A + width B) (mag A * mag B) N enough) as (ok & h' & R' & E' & HR' & HwR' & Hpost & Hframe & Hwf & Hok); try done.
  - intros t Hint. apply Hl. apply elem_of_app. by left.
  - intros Et. apply Hnl, elem_of_app. right. by apply elem_option_list.
  - apply mul_into_spec; try done; [by apply lookup_insert_eq | by rewrite Hh1 | by rewrite Hh1 | by apply wf_set_neg].
  - unfold N. lia.
  - intros He. split_and!; [| intros k Hk; rewrite <- (Hroom He k Hk); by apply room_same | by destruct He as (_ & _ & ?)].
    destruct He as (_ & (t & T & Et & HT & HrT) & _). exists t, T. destruct (Htt t Et) as (Hn & _). rewrite !not_elem_of_cons in Hn. rewrite Hh1 by tauto. done.
  - exists ok, h', R'. split_and!; try done. intros Eok. destruct (Hpost Eok) as (Vm & W' & N'). cbn [neg set_neg] in N'.
    split_and!; [| done | intros E1 E2; rewrite N'; unfold s; by rewrite E1, E2]. unfold val. rewrite N', Vm. unfold s. destruct (neg A), (neg B); cbn [xorb]; lia.
Qed.
End Impl.

Lemma sqr_outcome h r a R A tmp_rr tmp stack :
  h !! r = Some R -> h !! a = Some A -> wf R -> wf A -> temp h tmp_rr [r; a] -> temp h tmp (r :: a :: option_list tmp_rr) -> (32 <= length stack)%nat ->
  let N := (4 * width A)%nat in
  computed (bn_sqr_consttime alloc_ok r a tmp_rr tmp stack) h r (option_list tmp_rr ++ option_list tmp)
    (fun R' => val R' = val A * val A /\ width R' = (2 * width A)%nat /\ neg R' = false)
    (temp_room h tmp_rr N /\ temp_room h tmp N /\ forall k, (k <= N)%nat -> room alloc_ok R k = true).
Proof.
  intros Hr Ha HR HA Hrr Ht Hst N.
  destruct (temps_spec h r a a tmp_rr tmp) as [Hl Hnl]; [intros t E; destruct (Hrr t E); rewrite !not_elem_of_cons in *; tauto | intros t E; destruct (Ht t E); rewrite !not_elem_of_cons in *; tauto |].
  assert (val A * val A = mag A * mag A) as -> by (unfold val; destruct (neg A); lia).
  destruct (Nat.eqb_spec (width A) 0) as [W0 | WA].
  { eapply zero_object; try done.
    - unfold bn_sqr_consttime. erewrite bind_eq by (by apply load_eq). rewrite W0. cbn [Nat.eqb]. by erewrite bind_eq by (by apply modify_eq).
    - rewrite W0. split_and!; [| done | done]. unfold mag, limbs. by rewrite W0. }
  unfold bn_sqr_consttime, computed. erewrite bind_eq by (by apply load_eq). cbv zeta. rewrite (proj2 (Nat.eqb_neq _ _) WA).
  destruct (if negb (a =? r)%nat then Some r else tmp_rr) as [rr |] eqn:Etarget.
  2: { exists false, h, R. split_and!; try done. intros ((x & X & Ex & _) & _). destruct (negb (a =? r)%nat); [done | congruence]. }
  destruct tmp as [t |] eqn:Etmp; [| exists false, h, R; split_and!; try done; by intros (_ & (x & X & Ex & _) & _)].
  destruct (Ht t eq_refl) as (Hnt & T & HT & HwT). rewrite !not_elem_of_cons, elem_option_list in Hnt.
  assert (rr <> a /\ t <> rr /\ rr ∈ r :: option_list tmp_rr /\ exists X, h !! rr = Some X /\ wf X /\
    (temp_room h tmp_rr N -> (forall k, (k <= N)%nat -> room alloc_ok R k = true) -> forall k, (k <= N)%nat -> room alloc_ok X k = true)) as (Nra & Ntr & Hin & X & HX & HwX & HrX).
  { destruct (Nat.eqb_spec a r) as [-> | Hne]; cbn [negb] in Etarget.
    - destruct (Hrr rr Etarget) as (Hn & X & HX & HwX). rewrite !not_elem_of_cons in Hn. split_and!; [tauto | intros ->; tauto | by apply list_elem_of_further, elem_option_list |].
      exists X. split_and!; [done | done |]. intros (x & X' & Ex & HX' & Hroom) _ k Hk. assert (X' = X) as -> by congruence. by apply Hroom.
    - injection Etarget as <-. split_and!; [congruence | tauto | apply list_elem_of_here |]. by exists R. }
  destruct (target_copy (sqr_into alloc_ok rr a (width A) t stack) h h r rr R (set_neg false X) (option_list tmp_rr) (Some t) (2 * width A) (mag A * mag A) N
    (temp_room h tmp_rr N /\ temp_room h (Some t) N /\ forall k, (k <= N)%nat -> room alloc_ok R k = true))
    as (ok & h' & R' & E' & HR' & HwR' & Hpost & Hframe & Hwf & Hok); try done.
  - intros t' Hin'. apply Hl. apply elem_of_app. by left.
  - intros [= ->]. tauto.
  - apply (sqr_into_spec _ _ _ _ _ _ T); (done || congruence || tauto).
  - unfold N. lia.
  - intros (H1 & H2 & H3). split_and!; [done | intros k Hk; rewrite <- (HrX H1 H3 k Hk); by apply room_same | done].
  - exists ok, h', R'. split_and!; try done. intros Eok. destruct (Hpost Eok) as (Vm & W' & N'). split_and!; [| done | done]. unfold val. rewrite N'. cbn [neg set_neg]. done.
Qed.

(** What follows a constant-time computation: the width is made minimal. *)
Lemma minimize_after (p : prog bool) h r l post enough :
  computed p h r l post enough ->
  computed (do ok <- p; if negb ok then r_ret false else do_ bn_set_minimal_width r; r_ret true) h r l
    (fun R' => canonical R' /\ exists R1, post R1 /\ val R' = val R1) enough.
Proof.
  intros (ok & h' & R' & E & HR' & HwR' & Hpost & Hframe & Hwf & Hok). unfold computed. erewrite bind_eq by exact E.
  destruct ok; cbn [negb]; [| exists false, h', R'; by split_and!].
  erewrite bind_eq by (by apply set_minimal_width_eq). destruct (minimized_spec R' HwR') as (H1 & _ & H3 & _).
  eexists true, _, (minimized R'). split_and!; [reflexivity | by rewrite lookup_insert_eq | done | | | | done].
  - intros _. split; [done |]. exists R'. split; [by apply Hpost | by apply minimized_val].
  - apply (frame_trans _ h'); [done | apply frame_insert, list_elem_of_here].
  - intros t Ht. destruct (decide (t = r)) as [-> | Hne]; [exists (minimized R'); by rewrite lookup_insert_eq |]. rewrite lookup_insert_ne by done. by apply Hwf.
Qed.

Lemma computed_weaken (p : prog bool) h r l (post post' : BIGNUM -> Prop) enough :
  (forall R', post R' -> post' R') -> computed p h r l post enough -> computed p h r l post' enough.
Proof. intros H (ok & h' & R' & E & H1 & H2 & H3 & H4 & H5 & H6). exists ok, h', R'. split_and!; [done | done | done | | done | done | done]. intros Eok. by apply H, H3. Qed.

(** ** The word times, and the absolute difference *)

Lemma mul_word_outcome h a A w :
  h !! a = Some A -> wf A -> fits 64 w ->
  computed (BN_mul_word alloc_ok a w) h a [] (fun R' => val R' = val A * w) (room alloc_ok A (width A + 1) = true).
Proof.
  intros Ha HA Hw. pose proof (length_limbs A HA) as LA. unfold BN_mul_word, computed. erewrite bind_eq by (by apply load_eq).
  destruct (Nat.eqb_spec (width A) 0) as [W0 | WA].
  { exists true, h, A. split_and!; try done; [| set_solver]. intros _. unfold val, mag, limbs. rewrite W0, take_0. cbn [value]. destruct (neg A); lia. }
  destruct (Z.eqb_spec w 0) as [-> | Hw0].
  { unfold BN_zero. erewrite bind_eq by (by apply modify_eq). eexists true, _, _. split_and!; [done | by rewrite lookup_insert_eq | | | apply frame_insert, list_elem_of_here | set_solver | done].
    - apply wf_set_neg, wf_set_width; [done | lia].
    - intros _. rewrite Z.mul_0_r. done. }
  erewrite bind_eq by (by apply read_limbs). pose proof (mul_words_spec (limbs A) w (limbs_ok A HA) Hw) as H.
  destruct (bn_mul_words (limbs A) w) as [ws ll]. destruct H as (E & Lw & Hok & Hll). rewrite LA in *.
  destruct (put_all A ws HA Lw Hok) as (HwX & LX & LdX). set (X := set_d (overwrite (d A) 0 ws) A) in *.
  erewrite bind_eq by (apply put_eq; [done | destruct HA; lia]). fold X.
  destruct (Z.eqb_spec ll 0) as [-> | Hl0]; cbn [negb].
  { exists true, (<[a := X]> h), X. split_and!; [done | by rewrite lookup_insert_eq | done | | apply frame_insert, list_elem_of_here | set_solver | done].
    intros _. unfold val, mag. rewrite LX. change (neg X) with (neg A). rewrite Z.mul_0_r, Z.add_0_r in E. rewrite E. destruct (neg A); lia. }
  erewrite bind_eq by (apply wexpand_eq; by rewrite lookup_insert_eq).
  assert (room alloc_ok X (width A + 1) = room alloc_ok A (width A + 1)) as -> by (unfold room; by rewrite LdX).
  destruct (room alloc_ok A (width A + 1)) eqn:Hroom; cbn [negb].
  2: { exists false, (<[a := X]> h), X. split_and!; [done | by rewrite lookup_insert_eq | done | done | apply frame_insert, list_elem_of_here | set_solver | done]. }
  assert (room alloc_ok X (width A + 1) = true) as HroomX by (unfold room in *; by rewrite LdX).
  destruct (expanded_spec X (width A + 1) HwX HroomX) as (HwY & LY & LimY & WY & NY). set (Y := expanded X (width A + 1)) in *.
  rewrite insert_insert_eq. erewrite bind_eq by (apply put_eq; [by rewrite lookup_insert_eq | cbn [length]; lia]). rewrite insert_insert_eq.
  erewrite bind_eq by apply modify_cell. destruct (put_top Y (width A) ll HwY WY ltac:(lia) Hll) as (HwZ & LZ).
  replace (S (width A)) with (width A + 1)%nat in HwZ, LZ by lia.
  eexists true, _, _. split_and!; [done | by rewrite lookup_insert_eq | exact HwZ | | apply frame_insert, list_elem_of_here | set_solver | done].
  intros _. unfold val, mag. change (set_width (width A + 1) (set_d (overwrite (d Y) (width A) [ll]) Y)) with (set_d (overwrite (d Y) (width A) [ll]) (set_width (width A + 1) Y)).
  rewrite LZ, LimY, LX. change (neg (set_d (overwrite (d Y) (width A) [ll]) (set_width (width A + 1) Y))) with (neg Y). rewrite NY. change (neg X) with (neg A).
  rewrite value_app, Lw. cbn [value]. rewrite Z.mul_0_r, Z.add_0_r, E. destruct (neg A); lia.
Qed.

Lemma holds_other (h : gmap nat BIGNUM) a ws t T : a <> t -> holds h a 0 ws -> holds (<[t := T]> h) a 0 ws.
Proof. intros Hne (A & Ha & H). exists A. by rewrite lookup_insert_ne by done. Qed.

Lemma abs_sub_outcome h r a b R A B tmp :
  h !! r = Some R -> h !! a = Some A -> h !! b = Some B -> wf R -> wf A -> wf B -> temp h tmp [r; a; b] ->
  let n := Nat.max (width A) (width B) in
  computed (bn_abs_sub_consttime alloc_ok r a b tmp) h r (option_list tmp)
    (fun R' => mag R' = Z.abs (mag A - mag B) /\ width R' = n /\ neg R' = neg R) (temp_room h tmp n /\ room alloc_ok R n = true).
Proof.
  intros Hr Ha Hb HR HA HB Ht n. pose proof (length_limbs A HA) as LA. pose proof (length_limbs B HB) as LB. unfold bn_abs_sub_consttime, computed.
  erewrite bind_eq by (by apply load_eq). erewrite bind_eq by (by apply load_eq). cbv zeta.
  replace (if (width A <? width B)%nat then width B else width A) with n by (unfold n; destruct (Nat.ltb_spec (width A) (width B)); lia).
  set (cl := if (width A <? width B)%nat then width A else width B). assert (cl = Nat.min (width A) (width B)) as Ecl by (unfold cl; destruct (Nat.ltb_spec (width A) (width B)); lia).
  assert (forall t, t ∈ option_list tmp -> exists T, h !! t = Some T /\ wf T) as Hl by (intros t Et%elem_option_list; by destruct (Ht t Et)).
  destruct tmp as [t |]; [| exists false, h, R; split_and!; try done; by intros [(x & X & Ex & _) _]].
  destruct (Ht t eq_refl) as (Hnt & T & HT & HwT). rewrite !not_elem_of_cons in Hnt. destruct Hnt as (Ntr & Nta & Ntb & _).
  erewrite bind_eq by (by apply wexpand_eq). destruct (room alloc_ok R n) eqn:Hroom; cbn [negb]; [| exists false, h, R; split_and!; try done; by intros [_ ?]].
  destruct (expanded_spec R n HR Hroom) as (HwE & LE & _ & _ & NE). set (E := expanded R n) in *. set (h1 := <[r := E]> h).
  assert (h1 !! t = Some T) as Ht1 by (unfold h1; by rewrite lookup_insert_ne by done).
  erewrite bind_eq by (apply wexpand_eq; exact Ht1). destruct (room alloc_ok T n) eqn:Hroomt; cbn [negb].
  2: { exists false, h1, E. split_and!; [done | unfold h1; by rewrite lookup_insert_eq | done | done | apply frame_insert, list_elem_of_here | |].
       - intros t' [= <-]%elem_option_list. by exists T.
       - intros [(x & X & [= <-] & HX & Hx) _]. assert (X = T) as -> by congruence. by rewrite Hx in Hroomt. }
  destruct (expanded_spec T n HwT Hroomt) as (HwF & LF & _). set (F := expanded T n) in *.
  erewrite bind_eq by (apply read_holds; [apply holds_other; [congruence | by apply (holds_expanded (alloc_ok := alloc_ok))] | by rewrite LA]).
  erewrite bind_eq by (apply read_holds; [apply holds_other; [congruence | by apply (holds_expanded (alloc_ok := alloc_ok))] | by rewrite LB]).
  pose proof (abs_sub_part_words_spec (limbs A) (limbs B) cl (Z.of_nat (width A) - Z.of_nat (width B)) (limbs_ok A HA) (limbs_ok B HB)) as H. cbv zeta in H.
  replace (cl + Z.to_nat (Z.of_nat (width A) - Z.of_nat (width B)))%nat with (width A) in H by lia.
  replace (cl + Z.to_nat (- (Z.of_nat (width A) - Z.of_nat (width B))))%nat with (width B) in H by lia.
  replace (cl + Z.to_nat (Z.abs (Z.of_nat (width A) - Z.of_nat (width B))))%nat with n in H by lia. specialize (H ltac:(lia) ltac:(lia)). rewrite !take_exactly in H by done.
  destruct (bn_abs_sub_part_words (limbs A) (limbs B) cl _) as [[ws ts] ng]. destruct H as (Vw & Lw & Lts & Hw & Hts & _).
  destruct (put_value F ts HwF ltac:(lia) Hts) as (HwF' & _ & _).
  erewrite bind_eq by (apply put_eq; [by rewrite lookup_insert_eq | lia]). rewrite insert_insert_eq.
  erewrite bind_eq by (apply put_eq; [unfold h1; rewrite lookup_insert_ne by congruence; by rewrite lookup_insert_eq | lia]).
  erewrite bind_eq by apply modify_cell. destruct (put_value E ws HwE ltac:(lia) Hw) as (HwE' & TE & LE').
  eexists true, _, _. split_and!; [reflexivity | by rewrite lookup_insert_eq | apply wf_set_width; [exact HwE' | rewrite LE'; lia] | | | | done].
  - intros _. unfold mag at 1, limbs at 1. cbn [d width set_width]. rewrite <- Lw at 1. rewrite TE. done.
  - intros i Hi. change (option_list (Some t)) with [t] in Hi. rewrite !not_elem_of_cons in Hi. destruct Hi as (Hi1 & Hi2 & _). unfold h1. rewrite !lookup_insert_ne by congruence. done.
  - intros t' [= <-]%elem_option_list. eexists. rewrite lookup_insert_ne by congruence. rewrite lookup_insert_eq. split; [done | exact HwF'].
Qed.

End Specs.

Definition mul_room (alloc_ok : nat -> bool) (h : gmap nat BIGNUM) (R : BIGNUM) (t1 t2 : option nat) (n : nat) : Prop :=
  temp_room alloc_ok h t1 n /\ temp_room alloc_ok h t2 n /\ forall k, (k <= n)%nat -> room alloc_ok R k = true.

(** The product and the square, in canonical form. *)
Lemma mul_outcome alloc_ok h r a b R A B tmp_rr tmp_t :
  h !! r = Some R -> h !! a = Some A -> h !! b = Some B -> wf R -> wf A -> wf B ->
  temp h tmp_rr [r; a; b] -> temp h tmp_t (r :: a :: b :: option_list tmp_rr) ->
  computed (BN_mul alloc_ok r a b tmp_rr tmp_t) h r (option_list tmp_rr ++ option_list tmp_t) (fun R' => canonical R' /\ val R' = val A * val B)
    (mul_room alloc_ok h R tmp_rr tmp_t (8 * Nat.max (width A) (width B))).
Proof.
  intros Hr Ha Hb HR HA HB Hrr Ht. pose proof (mul_impl_outcome alloc_ok h r a b R A B tmp_rr tmp_t Hr Ha Hb HR HA HB Hrr Ht) as H.
  refine (computed_weaken _ _ _ _ _ _ _ _ (minimize_after _ _ _ _ _ _ H)). intros R' (Hc & R1 & (Hv & _) & E). split; [done | congruence].
Qed.

Lemma sqr_canonical alloc_ok h r a R A tmp_rr tmp stack :
  h !! r = Some R -> h !! a = Some A -> wf R -> wf A -> temp h tmp_rr [r; a] -> temp h tmp (r :: a :: option_list tmp_rr) -> (32 <= length stack)%nat ->
  computed (BN_sqr alloc_ok r a tmp_rr tmp stack) h r (option_list tmp_rr ++ option_list tmp) (fun R' => canonical R' /\ val R' = val A * val A)
    (mul_room alloc_ok h R tmp_rr tmp (4 * width A)).
Proof.
  intros Hr Ha HR HA Hrr Ht Hst. pose proof (sqr_outcome alloc_ok h r a R A tmp_rr tmp stack Hr Ha HR HA Hrr Ht Hst) as H.
  refine (computed_weaken _ _ _ _ _ _ _ _ (minimize_after _ _ _ _ _ _ H)). intros R' (Hc & R1 & (Hv & _) & E). split; [done | congruence].
Qed.

(** C19: [BN_mul] computes the product of the integers, whether or not the result is one of the operands or
    both operands are one object, by columns, by the schoolbook method or by Karatsuba's as the widths
    decide: on success the result has the exact value, without leading zero words or a negative zero,
    and no object but the result and the temporaries changes; the assertions hold, and it fails only if
    a temporary or the words are not to be had (8 times the wider operand's are enough).
    [bn_mul_consttime] fails on negative operands too and then changes nothing; for others it leaves a
    result whose width depends on the widths only: their sum, or 0 when one of them is 0. *)
Theorem bn_mul_exact alloc_ok h r a b R A B tmp_rr tmp_t :
  h !! r = Some R -> h !! a = Some A -> h !! b = Some B -> wf R -> wf A -> wf B ->
  temp h tmp_rr [r; a; b] -> temp h tmp_t (r :: a :: b :: option_list tmp_rr) ->
  let temps := option_list tmp_rr ++ option_list tmp_t in
  let enough := mul_room alloc_ok h R tmp_rr tmp_t (8 * Nat.max (width A) (width B)) in
  computed (BN_mul alloc_ok r a b tmp_rr tmp_t) h r temps (fun R' => canonical R' /\ val R' = val A * val B) enough /\
  (if neg A || neg B then bn_mul_consttime alloc_ok r a b tmp_rr tmp_t h = Some (false, h)
   else computed (bn_mul_consttime alloc_ok r a b tmp_rr tmp_t) h r temps
          (fun R' => val R' = val A * val B /\ neg R' = false /\
                     width R' = (if (width A =? 0)%nat || (width B =? 0)%nat then 0 else width A + width B)%nat) enough).
Proof.
  intros Hr Ha Hb HR HA HB Hrr Ht temps enough. pose proof (mul_impl_outcome alloc_ok h r a b R A B tmp_rr tmp_t Hr Ha Hb HR HA HB Hrr Ht) as H. split.
  - by apply mul_outcome.
  - destruct (neg A) eqn:NA, (neg B) eqn:NB; cbn [orb];
      try (unfold bn_mul_consttime; erewrite bind_eq by (by apply load_eq); erewrite bind_eq by (by apply load_eq); by rewrite NA, NB).
    destruct H as (ok & h' & R' & E & H1 & H2 & H3 & Hrest). exists ok, h', R'. split_and!; try tauto.
    unfold bn_mul_consttime. erewrite bind_eq by (by apply load_eq). erewrite bind_eq by (by apply load_eq). by rewrite NA, NB.
Qed.

Lemma bn_mul_exact_witness :
  let A := mk_bn (replicate 17 (2 ^ 64 - 1)) 17 true true false in
  let T := mk_bn [] 0 false true false in
  let h : gmap nat BIGNUM := <[1%nat := A]> (<[2%nat := T]> (<[3%nat := T]> ∅)) in
  exists h' R', BN_mul (fun _ => true) 1 1 1 (Some 2%nat) (Some 3%nat) h = Some (true, h') /\ h' !! 1%nat = Some R' /\
    val R' = (2 ^ (64 * 17) - 1) * (2 ^ (64 * 17) - 1).
Proof.
  intros A T h.
  assert (wf A) as HA by solve_wf. assert (wf T) as HT by solve_wf.
  destruct (bn_mul_exact (fun _ => true) h 1 1 1 A A A (Some 2%nat) (Some 3%nat) eq_refl eq_refl eq_refl HA HA HA) as [Hm _].
  - intros t [= <-]. split; [set_solver | by exists T].
  - intros t [= <-]. split; [set_solver | by exists T].
  - destruct Hm as (ok & h' & R' & E & H1 & H2 & H3 & _ & _ & Hok). assert (ok = true) as ->.
    { apply Hok. split_and!; [exists 2%nat, T | exists 3%nat, T |]; try (split_and!; [done | done |]); intros k Hk;
        unfold room; cbn [static_data A T negb andb]; rewrite (proj2 (Z.leb_le _ _)) by (change BN_MAX_WORDS with 8388607; cbn in Hk; lia); by rewrite orb_true_r. }
    exists h', R'. split_and!; [done | done |]. destruct (H3 eq_refl) as [_ ->]. vm_compute. reflexivity.
Defined.

(** [BN_sqr] is [BN_mul] of the operand by itself, by columns, by the schoolbook method or by Karatsuba's. *)
Theorem bn_sqr_exact alloc_ok h r a R A tmp_rr tmp stack :
  h !! r = Some R -> h !! a = Some A -> wf R -> wf A -> temp h tmp_rr [r; a] -> temp h tmp (r :: a :: option_list tmp_rr) -> (32 <= length stack)%nat ->
  let temps := option_list tmp_rr ++ option_list tmp in
  let enough := mul_room alloc_ok h R tmp_rr tmp (4 * width A) in
  computed (BN_sqr alloc_ok r a tmp_rr tmp stack) h r temps (fun R' => canonical R' /\ val R' = val A * val A) enough /\
  computed (bn_sqr_consttime alloc_ok r a tmp_rr tmp stack) h r temps
    (fun R' => val R' = val A * val A /\ width R' = (2 * width A)%nat /\ neg R' = false) enough.
Proof.
  intros. split; [by apply sqr_canonical | by apply sqr_outcome].
Qed.

Lemma bn_sqr_exact_witness :
  let A := mk_bn (replicate 16 (2 ^ 64 - 1)) 16 true true false in
  let T := mk_bn [] 0 false true false in
  let h : gmap nat BIGNUM := <[1%nat := A]> (<[2%nat := T]> (<[3%nat := T]> ∅)) in
  exists h' R', BN_sqr (fun _ => true) 1 1 (Some 2%nat) (Some 3%nat) (replicate 32 0) h = Some (true, h') /\ h' !! 1%nat = Some R' /\
    val R' = (2 ^ (64 * 16) - 1) * (2 ^ (64 * 16) - 1).
Proof.
  intros A T h.
  assert (wf A) as HA by solve_wf. assert (wf T) as HT by solve_wf.
  destruct (bn_sqr_exact (fun _ => true) h 1 1 A A (Some 2%nat) (Some 3%nat) (replicate 32 0) eq_refl eq_refl HA HA) as [Hm _].
  - intros t [= <-]. split; [set_solver | by exists T].
  - intros t [= <-]. split; [set_solver | by exists T].
  - done.
  - destruct Hm as (ok & h' & R' & E & H1 & H2 & H3 & _ & _ & Hok). assert (ok = true) as ->.
    { apply Hok. split_and!; [exists 2%nat, T | exists 3%nat, T |]; try (split_and!; [done | done |]); intros k Hk;
        unfold room; cbn [static_data A T negb andb]; rewrite (proj2 (Z.leb_le _ _)) by (change BN_MAX_WORDS with 8388607; cbn in Hk; lia); by rewrite orb_true_r. }
    exists h', R'. split_and!; [done | done |]. destruct (H3 eq_refl) as [_ ->]. vm_compute. reflexivity.
Defined.

(** The functions on word arrays: the exact product and square, in as many words as the operands have, and
    [abort] if the result has another length. *)
Theorem bn_small_exact r a b tmp :
  words_ok a -> words_ok b -> (18 <= length tmp)%nat ->
  (if (length r =? length a + length b)%nat
   then exists R, bn_mul_small r a b = Some R /\ length R = length r /\ words_ok R /\ value R = value a * value b
   else bn_mul_small r a b = None) /\
  (if (length r =? 2 * length a)%nat && (length a <=? BN_SMALL_MAX_WORDS)%nat
   then exists R, bn_sqr_small r a tmp = Some R /\ length R = length r /\ words_ok R /\ value R = value a * value a
   else bn_sqr_small r a tmp = None).
Proof.
  intros Ha Hb Lt. unfold bn_mul_small, bn_sqr_small. split.
  - destruct (Nat.eqb_spec (length r) (length a + length b)) as [Lr |]; cbn [negb]; [| done].
    destruct ((length a =? 8)%nat && (length b =? 8)%nat) eqn:E8.
    + apply andb_prop in E8 as [La%Nat.eqb_eq Lb%Nat.eqb_eq]. destruct (comba8_spec a b Ha Hb ltac:(lia) ltac:(lia)) as (H1 & H2 & H3).
      rewrite !take_exactly in H3 by done. eexists. split_and!; [done | lia | exact H1 | exact H3].
    + destruct (mul_normal_spec r a b Ha Hb ltac:(lia)) as (R & -> & LR & HR & VR). exists R. rewrite drop_ge, app_nil_r by lia. split_and!; (done || lia).
  - destruct (Nat.eqb_spec (length r) (2 * length a)) as [Lr |]; cbn [negb andb orb]; [| done]. rewrite Nat.ltb_antisym.
    destruct (Nat.leb_spec (length a) BN_SMALL_MAX_WORDS) as [Ls |]; cbn [negb]; [| done]. unfold BN_SMALL_MAX_WORDS in Ls.
    destruct (Nat.eqb_spec (length a) 4) as [E4 |]; [| destruct (Nat.eqb_spec (length a) 8) as [E8 |]].
    + destruct (sqr_comba4_spec a Ha ltac:(lia)) as (H1 & H2 & H3). rewrite take_exactly in H3 by done. eexists. split_and!; [done | lia | exact H1 | exact H3].
    + destruct (sqr_comba8_spec a Ha ltac:(lia)) as (H1 & H2 & H3). rewrite take_exactly in H3 by done. eexists. split_and!; [done | lia | exact H1 | exact H3].
    + destruct (sqr_normal_spec r a tmp Ha ltac:(lia) ltac:(lia)) as (R & t' & -> & _ & _ & LR & HR & VR). exists R. cbn [fst]. rewrite drop_ge, app_nil_r by lia. split_and!; (done || lia).
Qed.

(** [bn_abs_sub_consttime] leaves the sign of the result object as it was: the absolute difference of 5 and 3
    is -2 in an object that held a negative number. *)
Example abs_sub_keeps_sign :
  let A := mk_bn [5] 1 false true false in
  let B := mk_bn [3] 1 false true false in
  let R := mk_bn [7] 1 true true false in
  let T := mk_bn [] 0 false true false in
  let h : gmap nat BIGNUM := <[0%nat := R]> (<[1%nat := A]> (<[2%nat := B]> (<[3%nat := T]> ∅))) in
  exists h' R', bn_abs_sub_consttime (fun _ => true) 0 1 2 (Some 3%nat) h = Some (true, h') /\ h' !! 0%nat = Some R' /\ val R' = -2.
Proof. eexists _, _. split_and!; [vm_compute; reflexivity | vm_compute; reflexivity | by vm_compute]. Qed.

(** The branch of [bn_mul_part_recursive] for fewer than 8 words clears bytes where it means words: two of the
    four words of the product of two one-word numbers keep what [r] held.  [BN_mul] never takes it. *)
Example part_recursive_small_leaves_words :
  bn_mul_part_recursive 1 [9; 9; 9; 2 ^ 63] [2] [3] 1 0 0 [] = Some ([6; 0; 0; 2 ^ 63], []).
Proof. vm_compute. reflexivity. Qed.

End BnMul.
