(* ===== verification/BnDivWords.v ===== *)
(** Division of word arrays (crypto/fipsmodule/bn/div.c and div_extra.c): the division of two words
    by one, Knuth's long division, the constant-time binary long division and reduction, and the
    remainder by 16 bits that multiplies by an approximate inverse.

    An array is a list of words, and a function that writes into an array takes its contents and
    returns the new ones.  [None] is a loop that does not end. *)

From S2P Require Import Prelude Internal Modes BnWords Bn BnShift BnMulWords.

Open Scope Z_scope.

Module BnDivWords.
Import Internal Modes BnWords Bn BnShift BnMulWords.

Definition BN_MASK2 : Z := 2 ^ 64 - 1.
Definition BN_MASK2l : Z := 2 ^ 32 - 1.
Definition BN_MASK2h : Z := BN_MASK2 - BN_MASK2l.

(** * Two words by one *)

(** The inner loop of [bn_div_words], which makes at most two rounds: [q], [th] and [tl]. *)
Fixpoint div_words_adjust (fuel : nat) (h l dh dl q th tl : Z) : option (Z * Z * Z) :=
  match fuel with
  | O => None
  | S fuel =>
      let t := u64 (h - th) in
      if negb (Z.land t BN_MASK2h =? 0) || (tl <=? Z.lor (u64 (Z.shiftl t 32)) (Z.shiftr (Z.land l BN_MASK2h) 32))
      then Some (q, th, tl)
      else div_words_adjust fuel h l dh dl (u64 (q - 1)) (u64 (th - dh)) (u64 (tl - dl))
  end.

(** The outer loop up to [--count == 0]: [q], [h] and [l]. *)
Definition div_words_digit (h l d dh dl : Z) : option (Z * Z * Z) :=
  let q := if Z.shiftr h 32 =? dh then BN_MASK2l else h / dh in
  '(q, th, tl) ← div_words_adjust 3 h l dh dl q (u64 (q * dh)) (u64 (dl * q));
  let t := Z.shiftr tl 32 in
  let tl := Z.land (u64 (Z.shiftl tl 32)) BN_MASK2h in
  let th := u64 (th + t) in
  let th := if l <? tl then u64 (th + 1) else th in
  let l := u64 (l - tl) in
  let '(h, q) := if h <? th then (u64 (h + d), u64 (q - 1)) else (h, q) in
  let h := u64 (h - th) in
  Some (q, h, l).

Definition bn_div_words (h l d : Z) : option Z :=
  if d =? 0 then Some BN_MASK2
  else
    let i := BN_num_bits_word d in
    if negb ((i =? 64) || (h <=? Z.shiftl 1 i)) then None
    else
      let i := 64 - i in
      let h := if d <=? h then u64 (h - d) else h in
      let '(d, h, l) :=
        if negb (i =? 0) then (u64 (Z.shiftl d i), Z.lor (u64 (Z.shiftl h i)) (Z.shiftr l (64 - i)), u64 (Z.shiftl l i))
        else (d, h, l) in
      let dh := Z.shiftr (Z.land d BN_MASK2h) 32 in
      let dl := Z.land d BN_MASK2l in
      '(q, h, l) ← div_words_digit h l d dh dl;
      let ret := u64 (Z.shiftl q 32) in
      let h := Z.lor (u64 (Z.shiftl h 32)) (Z.shiftr l 32) in
      let l := u64 (Z.shiftl (Z.land l BN_MASK2l) 32) in
      '(q, h, l) ← div_words_digit h l d dh dl;
      Some (Z.lor ret q).

(** Without inline assembly, with the division of 128-bit integers: quotient and remainder. *)
Definition bn_div_rem_words (n0 n1 d0 : Z) : Z * Z :=
  let n := Z.lor (wrap 128 (Z.shiftl n0 64)) n1 in
  let q := u64 (n / d0) in
  (q, u64 (n1 - u64 (q * d0))).

(** * Long division *)

(** The inner loop of [BN_div], which makes at most two rounds. *)
Fixpoint div_adjust (fuel : nat) (n2 d0 d1 q rm t2 : Z) : option Z :=
  match fuel with
  | O => None
  | S fuel =>
      if t2 <=? Z.lor (wrap 128 (Z.shiftl rm 64)) n2 then Some q
      else
        let q := u64 (q - 1) in
        let rm := u64 (rm + d0) in
        if rm <? d0 then Some q else div_adjust fuel n2 d0 d1 q rm (wrap 128 (t2 - d1))
  end.

Definition div_digit (n0 n1 n2 d0 d1 : Z) : option Z :=
  if n0 =? d0 then Some BN_MASK2
  else
    let '(q, rm) := bn_div_rem_words n0 n1 d0 in
    div_adjust 3 n2 d0 d1 q rm (wrap 128 (d1 * q)).

(** A round of the main loop of [BN_div], for the word [j] of the quotient: the window [wnum] is
    the words of [snum] from [j + 1] on, and [wnump] its top word.  The new [snum], what [tmp]
    holds, and the quotient word. *)
Definition div_round (snum sdiv : words) (d0 d1 : Z) (j : nat) : option (words * words * Z) :=
  let div_n := length sdiv in
  let top := (j + 1 + div_n)%nat in
  q ← div_digit (snum !!! top) (snum !!! (top - 1)%nat) (snum !!! (top - 2)%nat) d0 d1;
  let '(ts, l0) := bn_mul_words sdiv q in
  let tmp := ts ++ [l0] in
  let '(w, borrow) := bn_sub_words (ld snum (j + 1) (div_n + 1)) tmp in
  let snum := store snum (j + 1) w in
  if negb (borrow =? 0) then
    let q := u64 (q - 1) in
    let '(w, carry) := bn_add_words (ld snum (j + 1) div_n) sdiv in
    let snum := store snum (j + 1) w in
    let snum := if negb (carry =? 0) then store snum top [u64 (snum !!! top + 1)] else snum in
    Some (snum, tmp, q)
  else Some (snum, tmp, q).

(** The main loop, for the words of the quotient below [k]; the quotient words are in [res]. *)
Fixpoint div_loop (snum sdiv tmp res : words) (d0 d1 : Z) (k : nat) : option (words * words * words) :=
  match k with
  | O => Some (snum, tmp, res)
  | S j =>
      '(snum, ts, q) ← div_round snum sdiv d0 d1 j;
      div_loop snum sdiv (store tmp 0 ts) (store res j [q]) d0 d1 j
  end.

(** * Constant-time reduction *)

(** [a - m] or [a], and the carry as a mask; [None] is the failed assertion. *)
Definition bn_reduce_once (a : words) (carry : Z) (m : words) : option (words * Z) :=
  let '(r, borrow) := bn_sub_words a m in
  let carry := u64 (carry - borrow) in
  if negb (u64 (carry + 1) <=? 1) then None else Some (bn_select_words carry a r, carry).

(** The new [r], [tmp], and the carry. *)
Definition bn_reduce_once_in_place (r : words) (carry : Z) (m : words) : option (words * words * Z) :=
  let '(tmp, borrow) := bn_sub_words r m in
  let carry := u64 (carry - borrow) in
  if negb (u64 (carry + 1) <=? 1) then None else Some (bn_select_words carry r tmp, tmp, carry).

(** The new [r] and [tmp]. *)
Definition bn_mod_sub_words (a b m : words) : words * words :=
  let '(r, borrow) := bn_sub_words a b in
  let '(tmp, _) := bn_add_words r m in
  (bn_select_words (u64 (0 - borrow)) tmp r, tmp).

Definition bn_mod_add_words (a b m : words) : option (words * words) :=
  let '(r, carry) := bn_add_words a b in
  '(r, tmp, _) ← bn_reduce_once_in_place r carry m;
  Some (r, tmp).

(** * Binary long division *)

(** A bit of the numerator, in [bn_div_consttime]: the new [r], [tmp] and word of [q]. *)
Definition consttime_bit (r divisor : words) (n q : Z) (bit : Z) : option (words * words * Z) :=
  let '(r, carry) := bn_add_words r r in
  let r := match r with [] => [] | w :: r => Z.lor w (Z.land (Z.shiftr n bit) 1) :: r end in
  '(r, tmp, subtracted) ← bn_reduce_once_in_place r carry divisor;
  Some (r, tmp, Z.lor q (u64 (Z.shiftl (Z.land (wnot 64 subtracted) 1) bit))).

(** The inner loop, for the bits below [k]. *)
Fixpoint consttime_bits (r tmp divisor : words) (n q : Z) (k : nat) : option (words * words * Z) :=
  match k with
  | O => Some (r, tmp, q)
  | S bit =>
      '(r, tmp, q) ← consttime_bit r divisor n q (Z.of_nat bit);
      consttime_bits r tmp divisor n q bit
  end.

(** The outer loop, for the words of the numerator below [k]. *)
Fixpoint consttime_words (r tmp q numerator divisor : words) (k : nat) : option (words * words * words) :=
  match k with
  | O => Some (r, tmp, q)
  | S i =>
      '(r, tmp, w) ← consttime_bits r tmp divisor (numerator !!! i) (q !!! i) 64;
      consttime_words r tmp (store q i [w]) numerator divisor i
  end.

(** * By one word *)

(** The loop of [BN_div_word], from the top word down: the quotient words and [ret]. *)
Fixpoint div_word_loop (a : words) (w : Z) : words * Z :=
  match a with
  | [] => ([], 0)
  | l :: a =>
      let '(qs, ret) := div_word_loop a w in
      let '(q, _) := bn_div_rem_words ret l w in
      (q :: qs, u64 (l - u64 (q * w)))
  end.

(** The loop of [BN_mod_word]; [ret] has 128 bits. *)
Fixpoint mod_word_loop (a : words) (w : Z) : Z :=
  match a with
  | [] => 0
  | l :: a => Z.lor (wrap 128 (Z.shiftl (mod_word_loop a w) 64)) l mod w
  end.

(** * By 16 bits (div_extra.c) *)

(** [None] is the failed assertion. *)
Definition mod_u16 (n d p m : Z) : option Z :=
  let q := u32 (Z.shiftr (u64 (m * n)) 32) in
  let t := u32 (Z.shiftr (u32 (n - q)) 1 + q) in
  let t := Z.shiftr t (p - 1) in
  let n := u32 (n - u32 (d * t)) in
  if negb (n <? d) then None else Some (u16 n).

Definition shift_and_add_mod_u16 (r a d p m : Z) : option Z :=
  t ← mod_u16 (Z.lor (u32 (Z.shiftl r 16)) (Z.shiftr a 16)) d p m;
  t ← mod_u16 (Z.lor (u32 (Z.shiftl t 16)) (Z.land a 65535)) d p m;
  Some (u16 t).

Fixpoint mod_u16_loop (a : words) (d p m : Z) : option Z :=
  match a with
  | [] => Some 0
  | w :: a =>
      ret ← mod_u16_loop a d p m;
      ret ← shift_and_add_mod_u16 ret (u32 (Z.shiftr w 32)) d p m;
      shift_and_add_mod_u16 ret (u32 (Z.land w (2 ^ 32 - 1))) d p m
  end.

Definition bn_mod_u16_consttime (bn : BIGNUM) (d : Z) : option Z :=
  if d <=? 1 then Some 0
  else
    let p := u32 (BN_num_bits_word (d - 1)) in
    if negb (p <=? 16) then None
    else
      let m := u32 (u64 (u64 (Z.shiftl 1 (32 + p)) + d - 1) / d) in
      mod_u16_loop (limbs bn) d p m.

(** * The quotient digit *)

(** Knuth's estimate in any base [b]: the divisor [D] has the two top digits [d0] and [d1], the
    dividend [U] the three top digits [n0], [n1] and [n2]. *)
Section Digit.
Context (b P D U d0 d1 n0 n1 n2 : Z).
Context (Hb : 2 <= b) (HP : 0 < P) (Hd0 : b <= 2 * d0) (Hd0' : d0 < b) (Hd1 : 0 <= d1 < b)
  (Hn0 : 0 <= n0 < b) (Hn1 : 0 <= n1 < b) (Hn2 : 0 <= n2 < b).
Context (HD : (d0 * b + d1) * P <= D < (d0 * b + d1 + 1) * P).
Context (HU : (n0 * b * b + n1 * b + n2) * P <= U < (n0 * b * b + n1 * b + n2 + 1) * P).
Context (Hlt : U < b * D).

Let E : Z := d0 * b + d1.
Let N : Z := n0 * b * b + n1 * b + n2.

Lemma digit_pos : b <= E /\ 0 <= N /\ 0 < D.
Proof. assert (b <= E) by (unfold E; nia). assert (0 <= N) by (unfold N; nia). fold E in HD. split_and!; nia. Qed.

(** The digit is below [q] if [q] times the two top digits exceeds the three of the dividend. *)
Lemma digit_upper q : N < q * E -> U / D < q.
Proof.
  intros Hq. pose proof digit_pos as (HE & HN & HD0). fold E in HD. fold N in HU. clearbody E N. apply Z.div_lt_upper_bound; [done |].
  assert (0 < q) by nia. assert ((N + 1) * P <= q * (E * P)) by nia. nia.
Qed.

Lemma digit_lower q : 0 <= q < b -> q * E <= N -> q - 1 <= U / D.
Proof.
  intros Hq Hle. pose proof digit_pos as (HE & HN & HD0). fold E in HD. fold N in HU. clearbody E N. apply Z.div_le_lower_bound; [done |].
  assert (q * (E * P) <= U) by nia. assert (q * D <= q * (E * P) + q * P) by nia. assert (q * P <= D) by nia. lia.
Qed.

Lemma digit_first : U / D <= (n0 * b + n1) / d0.
Proof.
  pose proof digit_pos as (HE & HN & HD0). pose proof (Z.mul_div_le U D HD0). assert (0 <= U / D) by (apply Z.div_pos; nia).
  apply Z.div_le_lower_bound; [lia |]. set (q := U / D) in *.
  assert (d0 * b * P <= D) by nia. assert (U < (n0 * b + n1 + 1) * (b * P)) by nia.
  assert (q * (d0 * b * P) <= q * D) by nia. assert (0 < b * P) by nia.
  assert (q * d0 * (b * P) < (n0 * b + n1 + 1) * (b * P)) by lia. assert (q * d0 < n0 * b + n1 + 1) by nia. lia.
Qed.

(** With equal top digits the digit is one of the two largest. *)
Lemma digit_max : n0 = d0 -> b - 2 <= U / D <= b - 1.
Proof.
  intros E0. pose proof digit_pos as (HE & HN & HD0). split.
  - apply Z.div_le_lower_bound; [done |]. assert ((d0 * b + d1 + 1) * P <= (d0 * b + b) * P) by (apply Z.mul_le_mono_nonneg_r; lia).
    assert (D * (b - 2) <= (d0 * b + b) * P * (b - 2)) by (apply Z.mul_le_mono_nonneg_r; lia).
    assert ((d0 + 1) * (b - 2) <= d0 * b) by lia. assert (0 <= b * P) by (apply Z.mul_nonneg_nonneg; lia).
    assert ((d0 + 1) * (b - 2) * (b * P) <= d0 * b * (b * P)) by (by apply Z.mul_le_mono_nonneg_r).
    assert (d0 * b * b * P <= (n0 * b * b + n1 * b + n2) * P); [| lia]. apply Z.mul_le_mono_nonneg_r; [lia |]. subst n0. nia.
  - assert (U / D < b); [| lia]. apply Z.div_lt_upper_bound; lia.
Qed.

Lemma digit_range : 0 <= U / D < b.
Proof. pose proof digit_pos as (HE & HN & HD0). split; [apply Z.div_pos; nia | apply Z.div_lt_upper_bound; lia]. Qed.

Lemma digit_top : n0 <= d0.
Proof.
  apply Z.nlt_ge. intros H. assert ((d0 * b + d1 + 1) * P <= (d0 * b + b) * P) by (apply Z.mul_le_mono_nonneg_r; lia).
  assert (b * D <= b * ((d0 * b + b) * P)) by (apply Z.mul_le_mono_nonneg_l; lia).
  assert ((d0 + 1) * (b * b) <= n0 * (b * b)) by (apply Z.mul_le_mono_nonneg_r; lia).
  assert ((d0 + 1) * (b * b) * P <= (n0 * b * b + n1 * b + n2) * P); [| lia]. apply Z.mul_le_mono_nonneg_r; [lia |]. nia.
Qed.
End Digit.

Lemma concat_word h l : 0 <= h -> fits 64 l -> Z.lor (Z.shiftl h 64) l = h * 2 ^ 64 + l.
Proof. intros. by apply lor_shiftl_add. Qed.

Lemma concat_double h l : fits 64 h -> fits 64 l -> Z.lor (wrap 128 (Z.shiftl h 64)) l = h * 2 ^ 64 + l.
Proof.
  intros Hh Hl. rewrite wrap_id; [by apply lor_shiftl_add | rewrite Z.shiftl_mul_pow2 by lia; unfold fits in *; lia].
Qed.

Lemma div_rem_words_spec n0 n1 d0 :
  fits 64 n1 -> 0 <= n0 < d0 -> d0 < 2 ^ 64 ->
  bn_div_rem_words n0 n1 d0 = ((n0 * 2 ^ 64 + n1) / d0, (n0 * 2 ^ 64 + n1) mod d0) /\
  0 <= (n0 * 2 ^ 64 + n1) / d0 < 2 ^ 64.
Proof.
  intros H1 H0 Hd. unfold bn_div_rem_words. rewrite concat_double by (done || unfold fits; lia). set (n := n0 * 2 ^ 64 + n1).
  assert (0 <= n < d0 * 2 ^ 64) by (unfold n, fits in *; lia).
  assert (0 <= n / d0 < 2 ^ 64) as Hq by (split; [apply Z.div_pos; lia | apply Z.div_lt_upper_bound; lia]).
  split; [| done]. rewrite (wrap_id 64 (n / d0)) by done. f_equal. pose proof (Z.mod_pos_bound n d0 ltac:(lia)) as Hm.
  pose proof (Z.div_mod n d0 ltac:(lia)) as En. rewrite <- (wrap_id 64 (n mod d0)) by (unfold fits; lia). unfold wrap.
  rewrite Zminus_mod_idemp_r. replace n1 with (n - n0 * 2 ^ 64) by (unfold n; lia). rewrite En at 1.
  replace (d0 * (n / d0) + n mod d0 - n0 * 2 ^ 64 - n / d0 * d0) with (n mod d0 + (- n0) * 2 ^ 64) by ring. by rewrite Z_mod_plus_full.
Qed.

Lemma mul_fits x y : fits 64 x -> fits 64 y -> fits 128 (x * y).
Proof. unfold fits. change (2 ^ 128) with (2 ^ 64 * 2 ^ 64). nia. Qed.

Section Estimate.
Context (P D U d0 d1 n0 n1 n2 : Z).
Context (HP : 0 < P) (Hd0 : 2 ^ 64 <= 2 * d0) (Hd0' : d0 < 2 ^ 64) (Hd1 : 0 <= d1 < 2 ^ 64)
  (Hn0 : 0 <= n0 < 2 ^ 64) (Hn1 : 0 <= n1 < 2 ^ 64) (Hn2 : 0 <= n2 < 2 ^ 64).
Context (HD : (d0 * 2 ^ 64 + d1) * P <= D < (d0 * 2 ^ 64 + d1 + 1) * P).
Context (HU : (n0 * 2 ^ 64 * 2 ^ 64 + n1 * 2 ^ 64 + n2) * P <= U < (n0 * 2 ^ 64 * 2 ^ 64 + n1 * 2 ^ 64 + n2 + 1) * P).
Context (Hlt : U < 2 ^ 64 * D).

Lemma div_adjust_spec fuel q rm :
  fits 64 q -> fits 64 rm -> n0 * 2 ^ 64 + n1 = q * d0 + rm -> U / D <= q -> 2 ^ 64 <= rm + Z.of_nat fuel * d0 ->
  exists q', div_adjust fuel n2 d0 d1 q rm (d1 * q) = Some q' /\ fits 64 q' /\ U / D <= q' <= U / D + 1.
Proof.
  revert q rm. induction fuel as [| fuel IH]; intros q rm Hq Hrm En Hup Hf; [unfold fits in *; lia |].
  cbn [div_adjust]. rewrite concat_double by done. assert (0 <= U / D) as Hpos by (apply (digit_range (2 ^ 64) P D U d0 d1 n0 n1 n2); (done || lia)).
  assert (n0 * 2 ^ 64 * 2 ^ 64 + n1 * 2 ^ 64 + n2 = q * (d0 * 2 ^ 64 + d1) + (rm * 2 ^ 64 + n2 - d1 * q)) as EN by lia.
  destruct (Z.leb_spec (d1 * q) (rm * 2 ^ 64 + n2)) as [Hle | Hgt].
  { exists q. split_and!; [done | done | lia |].
    assert (q - 1 <= U / D) by (apply (digit_lower (2 ^ 64) P D U d0 d1 n0 n1 n2); (done || lia)). lia. }
  assert (U / D < q) as Hup' by (apply (digit_upper (2 ^ 64) P D U d0 d1 n0 n1 n2); (done || lia)).
  unfold fits in *. rewrite (wrap_id 64 (q - 1)) by (unfold fits; lia).
  destruct (Z.ltb_spec (wrap 64 (rm + d0)) d0) as [Hov | Hov].
  - exists (q - 1). split_and!; [done | lia | lia | lia |].
    assert (2 ^ 64 <= rm + d0) as Hbig by (apply Z.nlt_ge; intros Hs; rewrite wrap_id in Hov by (unfold fits; lia); lia).
    pose proof (mul_fits d1 (q - 1) Hd1 ltac:(unfold fits; lia)) as [_ Hm]. change (2 ^ 128) with (2 ^ 64 * 2 ^ 64) in Hm.
    assert (q - 1 - 1 <= U / D) by (apply (digit_lower (2 ^ 64) P D U d0 d1 n0 n1 n2); (done || lia)). lia.
  - assert (rm + d0 < 2 ^ 64) as Hsm.
    { apply Z.nle_gt. intros Hs. unfold wrap in Hov. rewrite <- (Z.mod_unique_pos (rm + d0) (2 ^ 64) 1 (rm + d0 - 2 ^ 64)) in Hov by lia. lia. }
    rewrite (wrap_id 64) by (unfold fits; lia). replace (d1 * q - d1) with (d1 * (q - 1)) by ring.
    rewrite (wrap_id 128) by (apply mul_fits; [done | unfold fits; lia]). apply IH; lia.
Qed.

(** The digit is right or one too large. *)
Lemma div_digit_spec :
  exists q, div_digit n0 n1 n2 d0 d1 = Some q /\ fits 64 q /\ U / D <= q <= U / D + 1.
Proof.
  unfold div_digit. destruct (Z.eqb_spec n0 d0) as [E | E].
  { assert (2 ^ 64 - 2 <= U / D <= 2 ^ 64 - 1) by (apply (digit_max (2 ^ 64) P D U d0 d1 n0 n1 n2); (done || lia)). exists BN_MASK2. unfold BN_MASK2, fits. split_and!; (done || lia). }
  assert (n0 <= d0) as Htop by (apply (digit_top (2 ^ 64) P D U d0 d1 n0 n1 n2); (done || lia)).
  destruct (div_rem_words_spec n0 n1 d0) as (-> & Hq); [done | lia | done |].
  pose proof (Z.mod_pos_bound (n0 * 2 ^ 64 + n1) d0 ltac:(lia)) as Hm. rewrite (wrap_id 128) by (by apply mul_fits).
  apply div_adjust_spec; [done | unfold fits; lia | rewrite (Z.div_mod (n0 * 2 ^ 64 + n1) d0) at 1 by lia; ring | | lia].
  apply (digit_first (2 ^ 64) P D U d0 d1 n0 n1 n2); (done || lia).
Qed.
End Estimate.

(** ** [bn_div_words] *)

Lemma high_half x : fits 64 x -> Z.shiftr (Z.land x BN_MASK2h) 32 = x / 2 ^ 32.
Proof.
  intros Hx. rewrite Z.shiftr_land, Z.shiftr_div_pow2 by lia. change (Z.shiftr BN_MASK2h 32) with (Z.ones 32). rewrite Z.land_ones by lia.
  apply Z.mod_small. unfold fits in Hx. split; [apply Z.div_pos; lia | apply Z.div_lt_upper_bound; lia].
Qed.

Lemma low_half x : Z.land x BN_MASK2l = x mod 2 ^ 32.
Proof. apply (Z.land_ones x 32). lia. Qed.

Lemma halves x : fits 64 x -> x = x / 2 ^ 32 * 2 ^ 32 + x mod 2 ^ 32 /\ 0 <= x / 2 ^ 32 < 2 ^ 32 /\ 0 <= x mod 2 ^ 32 < 2 ^ 32.
Proof.
  intros Hx. unfold fits in Hx. pose proof (Z.div_mod x (2 ^ 32) ltac:(lia)). pose proof (Z.mod_pos_bound x (2 ^ 32) ltac:(lia)).
  split_and!; [lia | apply Z.div_pos; lia | apply Z.div_lt_upper_bound; lia | lia | lia].
Qed.
Lemma high_mask x : fits 64 x -> Z.land x BN_MASK2h = x / 2 ^ 32 * 2 ^ 32.
Proof.
  intros Hx. destruct (halves x Hx) as (E & Hh & Hl). rewrite E at 1. change BN_MASK2h with (Z.ones 32 * 2 ^ 32 + 0).
  rewrite land_fields by (unfold fits; lia). rewrite Z.land_ones, Z.land_0_r by lia. rewrite (Z.mod_small (x / 2 ^ 32)) by done. lia.
Qed.

Lemma wrap_shiftl_half x : fits 64 x -> u64 (Z.shiftl x 32) = x mod 2 ^ 32 * 2 ^ 32.
Proof. intros Hx. rewrite u64_shiftl by lia. done. Qed.

(** The three digits of [h] and the top of [l], by the two digits of [d]. *)
Section Halves.
Context (h l d : Z).
Context (Hh : fits 64 h) (Hl : fits 64 l) (Hd : 2 ^ 63 <= d < 2 ^ 64) (Hlt : h < d).
Let dh : Z := d / 2 ^ 32.
Let dl : Z := d mod 2 ^ 32.
Let U : Z := h * 2 ^ 32 + l / 2 ^ 32.

Lemma div_words_adjust_spec fuel q :
  0 <= q < 2 ^ 32 -> q * dh <= h -> U / d <= q -> (0 < fuel)%nat -> 2 ^ 32 <= h - q * dh + Z.of_nat (pred fuel) * dh ->
  div_words_adjust fuel h l dh dl q (q * dh) (dl * q) = Some (U / d, U / d * dh, dl * (U / d)).
Proof.
  destruct (halves d ltac:(unfold fits; lia)) as (Ed & Hdh & Hdl). fold dh in Ed, Hdh. fold dl in Ed, Hdl.
  destruct (halves l Hl) as (El & Hlh & Hll). assert (2 ^ 31 <= dh) as Hdh' by (unfold dh; apply Z.div_le_lower_bound; lia). unfold fits in *.
  revert q. induction fuel as [| fuel IH]; intros q Hq Hle Hup Hf0 Hf; [lia |]. cbn [div_words_adjust].
  assert (0 <= q * dh) as Hqd by (apply Z.mul_nonneg_nonneg; lia). rewrite (wrap_id 64 (h - q * dh)) by (unfold fits; lia). set (t := h - q * dh) in *.
  assert (0 <= t < 2 ^ 64) as Ht by (unfold t; lia). assert (fits 64 t) as Ht' by done. destruct (halves t Ht') as (Et & Hth & Htl).
  rewrite high_half, high_mask, wrap_shiftl_half by done.
  assert (dl * q < 2 ^ 32 * 2 ^ 32) as Htl' by (apply Z.mul_lt_mono_nonneg; lia).
  assert (U = q * d + (t * 2 ^ 32 + l / 2 ^ 32 - dl * q)) as EU by (unfold U, t; rewrite Ed at 1; ring).
  assert (q * d <= U -> U / d = q) as Hdone by (intros Hx; apply Z.le_antisymm; [done | apply Z.div_le_lower_bound; lia]).
  rewrite <- (Z.shiftl_mul_pow2 (t mod 2 ^ 32)), lor_shiftl_add by (unfold fits; lia).
  destruct (Z.eqb_spec (t / 2 ^ 32 * 2 ^ 32) 0) as [Ez | Ez]; cbn [negb orb].
  2: { by rewrite Hdone by lia. }
  destruct (Z.leb_spec (dl * q) (t mod 2 ^ 32 * 2 ^ 32 + l / 2 ^ 32)) as [Hok | Hno].
  { by rewrite Hdone by lia. }
  assert (U < q * d) by lia. assert (U / d < q) as Hup' by (apply Z.div_lt_upper_bound; lia). assert (0 <= U / d) by (apply Z.div_pos; unfold U; lia).
  assert (0 <= dh * (q - 1)) by (apply Z.mul_nonneg_nonneg; lia). assert (0 <= dl * (q - 1)) by (apply Z.mul_nonneg_nonneg; lia).
  rewrite (wrap_id 64 (q - 1)), (wrap_id 64 (q * dh - dh)), (wrap_id 64 (dl * q - dl)) by (unfold fits; lia).
  replace (q * dh - dh) with ((q - 1) * dh) by ring. replace (dl * q - dl) with (dl * (q - 1)) by ring.
  apply IH; [lia | lia | lia | destruct fuel; cbn in Hf; lia |]. destruct fuel as [| fuel]; cbn [pred] in *; unfold t in *; lia.
Qed.
(** The first guess at the digit. *)
Lemma div_words_first :
  let q := if Z.shiftr h 32 =? dh then BN_MASK2l else h / dh in
  0 <= q < 2 ^ 32 /\ q * dh <= h /\ U / d <= q.
Proof.
  destruct (halves d ltac:(unfold fits; lia)) as (Ed & Hdh & Hdl). fold dh in Ed, Hdh. fold dl in Ed, Hdl.
  destruct (halves l Hl) as (El & Hlh & Hll). destruct (halves h Hh) as (Eh & Hhh & Hhl). assert (2 ^ 31 <= dh) as Hdh' by (unfold dh; apply Z.div_le_lower_bound; lia).
  unfold fits in *. cbv zeta. rewrite Z.shiftr_div_pow2 by lia. assert (U < 2 ^ 32 * d) as HU by (unfold U; lia).
  destruct (Z.eqb_spec (h / 2 ^ 32) dh) as [E | E].
  - unfold BN_MASK2l. rewrite E in Eh. split_and!; [lia | lia | lia |]. assert (U / d < 2 ^ 32); [apply Z.div_lt_upper_bound; lia | lia].
  - assert (h / 2 ^ 32 < dh) as Hs.
    { assert (h / 2 ^ 32 <= dh) by (unfold dh; apply Z.div_le_mono; lia). lia. }
    split_and!; [apply Z.div_pos; lia | apply Z.div_lt_upper_bound; lia | rewrite Z.mul_comm; apply Z.mul_div_le; lia |].
    rewrite Eh. apply (digit_first (2 ^ 32) 1 d U dh dl (h / 2 ^ 32) (h mod 2 ^ 32) (l / 2 ^ 32)); unfold U in *; lia.
Qed.

(** The digit is exact: the divisor has no more than two digits, so nothing is added back. *)
Lemma div_words_digit_spec :
  exists h' l', div_words_digit h l d dh dl = Some (U / d, h', l') /\ 0 <= h' < 2 ^ 32 /\ fits 64 l' /\
    h' * 2 ^ 64 + l' = U mod d * 2 ^ 32 + l mod 2 ^ 32.
Proof.
  destruct div_words_first as (Hq & Hle & Hup). unfold div_words_digit. set (q := if Z.shiftr h 32 =? dh then BN_MASK2l else h / dh) in *.
  destruct (halves d ltac:(unfold fits; lia)) as (Ed & Hdh & Hdl). fold dh in Ed, Hdh. fold dl in Ed, Hdl.
  destruct (halves l Hl) as (El & Hlh & Hll). assert (2 ^ 31 <= dh) as Hdh' by (unfold dh; apply Z.div_le_lower_bound; lia).
  rewrite (wrap_id 64 (q * dh)), (wrap_id 64 (dl * q)) by (unfold fits in *; nia).
  rewrite div_words_adjust_spec by (done || (cbn [pred]; lia)). clear Hq Hle. cbn [mbind option_bind]. clearbody q.
  pose proof (Z.div_mod U d ltac:(lia)) as EU. pose proof (Z.mod_pos_bound U d ltac:(lia)) as Hm.
  assert (0 <= U / d < 2 ^ 32) as Hq by (split; [apply Z.div_pos; unfold U, fits in *; lia | apply Z.div_lt_upper_bound; unfold U, fits in *; lia]).
  set (x := U / d) in *. set (m := U mod d) in *. assert (fits 64 (dl * x)) as Htl by (unfold fits; nia).
  destruct (halves (dl * x) Htl) as (Et & Hth & Htl'). rewrite Z.shiftr_div_pow2, wrap_shiftl_half by (done || lia). set (t := dl * x / 2 ^ 32) in *. set (u := (dl * x) mod 2 ^ 32) in *.
  rewrite high_mask by (unfold fits; lia). rewrite Z.div_mul by lia. 
  assert (h * 2 ^ 64 + l - (x * dh + t) * 2 ^ 64 - u * 2 ^ 32 = m * 2 ^ 32 + l mod 2 ^ 32) as Esub.
  { transitivity ((U - d * x) * 2 ^ 32 + l mod 2 ^ 32); [| f_equal; lia]. unfold U. rewrite El at 1. rewrite Ed. lia. }
  unfold fits in *. assert (x * dh + t <= h) as Hth2 by lia. assert (0 <= x * dh) by (apply Z.mul_nonneg_nonneg; lia).
  rewrite (wrap_id 64 (x * dh + t)) by (unfold fits; lia).
  destruct (Z.ltb_spec l (u * 2 ^ 32)) as [Hb | Hb].
  - rewrite (wrap_id 64 (x * dh + t + 1)) by (unfold fits; lia). rewrite (proj2 (Z.ltb_ge h _)) by lia. rewrite (wrap_id 64 (h - _)) by (unfold fits; lia).
    assert (u64 (l - u * 2 ^ 32) = l - u * 2 ^ 32 + 2 ^ 64) as -> by (unfold wrap; symmetry; apply (Z.mod_unique_pos _ _ (-1)); lia).
    eexists _, _. split; [done |]. lia.
  - rewrite (proj2 (Z.ltb_ge h _)) by lia. rewrite (wrap_id 64 (h - _)), (wrap_id 64 (l - _)) by (unfold fits; lia). eexists _, _. split; [done |]. lia.
Qed.
End Halves.

Lemma div_words_normal h l d :
  fits 64 h -> fits 64 l -> 2 ^ 63 <= d < 2 ^ 64 -> h < d ->
  ('(q, h, l) ← div_words_digit h l d (d / 2 ^ 32) (d mod 2 ^ 32);
   let ret := u64 (Z.shiftl q 32) in
   let h := Z.lor (u64 (Z.shiftl h 32)) (Z.shiftr l 32) in
   let l := u64 (Z.shiftl (Z.land l BN_MASK2l) 32) in
   '(q, h, l) ← div_words_digit h l d (d / 2 ^ 32) (d mod 2 ^ 32);
   Some (Z.lor ret q)) = Some ((h * 2 ^ 64 + l) / d).
Proof.
  intros Hh Hl Hd Hlt. destruct (div_words_digit_spec h l d Hh Hl Hd Hlt) as (h1 & l1 & -> & Hh1 & Hl1 & E1). cbn [mbind option_bind].
  destruct (halves l Hl) as (El & Hlh & Hll). destruct (halves l1 Hl1) as (El1 & Hl1h & Hl1l). set (U := h * 2 ^ 32 + l / 2 ^ 32) in *.
  pose proof (Z.div_mod U d ltac:(lia)) as EU. pose proof (Z.mod_pos_bound U d ltac:(lia)) as Hm.
  assert (0 <= U / d < 2 ^ 32) as Hq by (split; [apply Z.div_pos; unfold U, fits in *; lia | apply Z.div_lt_upper_bound; unfold U, fits in *; lia]).
  rewrite (wrap_id 64 (Z.shiftl (U / d) 32)), (wrap_id 64 (Z.shiftl h1 32)) by (rewrite Z.shiftl_mul_pow2 by lia; unfold fits; lia).
  rewrite low_half, wrap_shiftl_half, Z.mod_mod by (unfold fits; lia). rewrite Z.shiftr_div_pow2, lor_shiftl_add by (unfold fits; lia).
  assert (h1 * 2 ^ 32 + l1 / 2 ^ 32 = U mod d /\ l1 mod 2 ^ 32 = l mod 2 ^ 32) as [-> ->].
  { rewrite El1 in E1. assert ((h1 * 2 ^ 32 + l1 / 2 ^ 32) * 2 ^ 32 + l1 mod 2 ^ 32 = U mod d * 2 ^ 32 + l mod 2 ^ 32) as E by lia. lia. }
  destruct (div_words_digit_spec (U mod d) (l mod 2 ^ 32 * 2 ^ 32) d) as (h2 & l2 & -> & _); [unfold fits; lia | unfold fits; lia | done | lia |].
  cbn [mbind option_bind]. rewrite Z.div_mul by lia. set (V := U mod d * 2 ^ 32 + l mod 2 ^ 32).
  assert (0 <= V / d < 2 ^ 32) by (split; [apply Z.div_pos; unfold V; lia | apply Z.div_lt_upper_bound; unfold V; lia]).
  rewrite lor_shiftl_add by (unfold fits; lia). f_equal. pose proof (Z.div_mod V d ltac:(lia)) as EV. pose proof (Z.mod_pos_bound V d ltac:(lia)) as HmV.
  apply (Z.div_unique_pos _ _ _ (V mod d)); [done |]. rewrite El at 1. unfold V, U in *. lia.
Qed.

(** The C division of two words by one is the division of integers. *)
Lemma div_words_spec h l d : fits 64 h -> fits 64 l -> fits 64 d -> h < d -> bn_div_words h l d = Some ((h * 2 ^ 64 + l) / d).
Proof.
  intros Hh Hl Hd Hlt. unfold bn_div_words. unfold fits in *. rewrite (proj2 (Z.eqb_neq d 0)) by lia.
  rewrite num_bits_word_spec by done. unfold bit_length. rewrite (proj2 (Z.eqb_neq d 0)) by lia.
  pose proof (Z.log2_spec d ltac:(lia)) as [Hlog Hlog']. pose proof (Z.log2_nonneg d). assert (Z.log2 d < 64) by (apply Z.log2_lt_pow2; lia).
  set (i := Z.log2 d + 1). replace (Z.succ (Z.log2 d)) with i in Hlog' by (unfold i; lia).
  replace ((i =? 64) || (h <=? Z.shiftl 1 i)) with true.
  2: { symmetry. apply orb_true_iff. right. apply Z.leb_le. rewrite Z.shiftl_1_l. lia. }
  cbn [negb]. rewrite (proj2 (Z.leb_gt d h)) by lia.
  destruct (Z.eqb_spec (64 - i) 0) as [E | E]; cbn [negb].
  { rewrite high_half, low_half by done. apply div_words_normal; try done. replace (Z.log2 d) with 63 in Hlog by (unfold i in E; lia). lia. }
  set (k := 64 - i) in *. assert (0 < k < 64) by (unfold k, i in *; lia). assert (2 ^ 64 = 2 ^ i * 2 ^ k) as Epow by (rewrite <- Z.pow_add_r by (unfold i; lia); f_equal; unfold k; lia).
  assert (2 ^ 63 = 2 ^ Z.log2 d * 2 ^ k) as Epow' by (rewrite <- Z.pow_add_r by lia; f_equal; unfold k, i; lia).
  assert (0 < 2 ^ k) by (apply Z.pow_pos_nonneg; lia).
  assert (d * 2 ^ k < 2 ^ 64) by (rewrite Epow; apply Z.mul_lt_mono_pos_r; lia).
  assert (2 ^ 63 <= d * 2 ^ k) by (rewrite Epow'; apply Z.mul_le_mono_nonneg_r; lia).
  assert ((h + 1) * 2 ^ k <= d * 2 ^ k) as Hhk by (apply Z.mul_le_mono_nonneg_r; lia). assert (0 <= h * 2 ^ k) by (apply Z.mul_nonneg_nonneg; lia).
  rewrite (wrap_id 64 (Z.shiftl d k)), (wrap_id 64 (Z.shiftl h k)) by (rewrite Z.shiftl_mul_pow2 by lia; unfold fits; lia).
  rewrite (u64_shiftl l k) by lia. replace (64 - k) with i by (unfold k; lia).
  assert (0 <= l / 2 ^ i < 2 ^ k) as Hli by (split; [apply Z.div_pos; lia | apply Z.div_lt_upper_bound; lia]).
  assert (0 < i) by (unfold i; lia). rewrite (Z.shiftr_div_pow2 l i) by lia. rewrite lor_shiftl_add; [| lia | exact Hli]. rewrite (Z.shiftl_mul_pow2 d k) by lia.
  rewrite high_half, low_half by (unfold fits; lia). pose proof (Z.div_mod l (2 ^ i) ltac:(lia)) as El. pose proof (Z.mod_pos_bound l (2 ^ i) ltac:(lia)).
  rewrite div_words_normal; [| unfold fits; lia | unfold fits; split; [apply Z.mul_nonneg_nonneg; lia | rewrite Epow; apply Z.mul_lt_mono_pos_r; lia] | lia | lia].
  f_equal. rewrite <- (Z.div_mul_cancel_r (h * 2 ^ 64 + l) d (2 ^ k)) by lia. f_equal. rewrite El at 3. rewrite Epow. ring.
Qed.

(** * Long division *)

Lemma value_snoc lo x : value (lo ++ [x]) = value lo + 2 ^ (64 * Z.of_nat (length lo)) * x.
Proof. rewrite value_app. cbn [value]. lia. Qed.

Lemma words_ok_snoc lo x : words_ok (lo ++ [x]) <-> words_ok lo /\ fits 64 x.
Proof. rewrite words_ok_app, words_ok_cons. split; [tauto |]. intros [H1 H2]. split_and!; [done | done | apply Forall_nil_2]. Qed.

Lemma split_last (a : words) n : length a = S n -> exists lo x, a = lo ++ [x] /\ length lo = n.
Proof.
  intros Hl. destruct (exists_last (l := a)) as (lo & x & ->); [by intros -> |]. exists lo, x. rewrite length_app in Hl. cbn in Hl. split; [done | lia].
Qed.

Lemma split_last2 (a : words) n : length a = S (S n) -> exists lo x y, a = lo ++ [x; y] /\ length lo = n.
Proof.
  intros Hl. destruct (split_last a (S n) Hl) as (b & y & -> & Hb). destruct (split_last b n Hb) as (lo & x & -> & Hlo). exists lo, x, y. by rewrite <- app_assoc.
Qed.

Lemma split_last3 (a : words) n : length a = S (S (S n)) -> exists lo x y z, a = lo ++ [x; y; z] /\ length lo = n.
Proof.
  intros Hl. destruct (split_last2 a (S n) Hl) as (b & y & z & -> & Hb). destruct (split_last b n Hb) as (lo & x & -> & Hlo). exists lo, x, y, z. by rewrite <- app_assoc.
Qed.

Lemma lookup_mid (x y z : words) i k : i = (length x + k)%nat -> (k < length y)%nat -> (x ++ y ++ z) !!! i = y !!! k.
Proof. intros -> Hk. rewrite lookup_total_app_r by lia. rewrite Nat.add_comm, Nat.add_sub. by rewrite lookup_total_app_l. Qed.

Lemma lookup_end (x : words) y z i : i = length x -> (x ++ y :: z) !!! i = y.
Proof. intros ->. by rewrite lookup_total_app_r, Nat.sub_diag by lia. Qed.

Section Long.
Context (sdiv : words) (d0 d1 : Z).
Let n : nat := length sdiv.
Let D : Z := value sdiv.
Context (Hsd : words_ok sdiv) (Hn : (0 < n)%nat) (Ed0 : d0 = sdiv !!! (n - 1)%nat) (Hd0 : 2 ^ 63 <= d0)
  (Ed1 : d1 = if (n =? 1)%nat then 0 else sdiv !!! (n - 2)%nat).

(** The divisor fills its words. *)
Lemma divisor_large : 2 ^ 63 * 2 ^ (64 * Z.of_nat (n - 1)) <= D.
Proof.
  destruct (split_last sdiv (n - 1) ltac:(unfold n in *; lia)) as (S1 & e0 & Es & LS1). unfold D. rewrite Es in Hsd, Ed0 |- *. rewrite lookup_end in Ed0 by done. subst e0.
  apply words_ok_snoc in Hsd as [HS1 _]. rewrite value_snoc, LS1. pose proof (value_nonneg S1 HS1). assert (0 < 2 ^ (64 * Z.of_nat (n - 1))) by (apply Z.pow_pos_nonneg; lia). nia.
Qed.

Lemma divisor_pos : 0 < D.
Proof. pose proof divisor_large. assert (0 < 2 ^ (64 * Z.of_nat (n - 1))) by (apply Z.pow_pos_nonneg; lia). lia. Qed.

(** The digit of a window of [n + 1] words; [y] is the word below it. *)
Lemma window_digit W y x z :
  length W = S n -> words_ok W -> fits 64 y -> value W < 2 ^ 64 * D ->
  let s := (x ++ [y]) ++ W ++ z in let top := (length x + 1 + n)%nat in
  exists q, div_digit (s !!! top) (s !!! (top - 1)%nat) (s !!! (top - 2)%nat) d0 d1 = Some q /\ fits 64 q /\ value W / D <= q <= value W / D + 1.
Proof.
  intros LW HW Hy Hlt s top. unfold s. rewrite (lookup_mid _ W z top n), (lookup_mid _ W z (top - 1) (n - 1)) by (rewrite ?length_app; cbn; unfold top; lia).
  unfold D in *. clear D. fold n in LW. destruct (Nat.eqb_spec n 1) as [En | En].
  - destruct (split_last2 W 0 ltac:(lia)) as (W2 & n1 & n0 & -> & L2%nil_length_inv). subst W2. rewrite En in *. destruct sdiv as [| e0 [| ? ?]]; [cbn in En; lia | | cbn in En; lia].
    cbn in Ed0. subst e0 d1. cbn [app value lookup_total list_lookup_total Nat.sub] in *. rewrite !words_ok_cons in *. rewrite !Z.mul_0_r, !Z.add_0_r in *.
    replace (top - 2)%nat with (length x) by (unfold top; lia). rewrite lookup_total_app_l by (rewrite length_app; cbn; lia). rewrite lookup_end by done.
    replace ((n1 + 2 ^ 64 * n0) / d0) with (((n1 + 2 ^ 64 * n0) * 2 ^ 64 + y) / (d0 * 2 ^ 64)).
    + apply (div_digit_spec 1); unfold fits in *; lia.
    + rewrite (Z.mul_comm d0), <- Z.div_div by (unfold fits in *; lia). by rewrite div_quot_rem.
  - destruct (split_last3 W (n - 2) ltac:(lia)) as (W3 & n2 & n1 & n0 & -> & L3). destruct (split_last2 sdiv (n - 2) ltac:(unfold n in *; lia)) as (S2 & e1 & e0 & Es & LS2).
    rewrite (lookup_mid _ _ z (top - 2) (n - 2)) by (rewrite ?length_app; cbn; unfold top; lia).
    rewrite !lookup_total_app_r by lia. rewrite L3. replace (n - (n - 2))%nat with 2%nat by lia. replace (n - 1 - (n - 2))%nat with 1%nat by lia. rewrite Nat.sub_diag. cbn [lookup_total list_lookup_total].
    rewrite Es in Ed0, Ed1, Hlt, Hsd |- *. rewrite !lookup_total_app_r in Ed0, Ed1 by lia. rewrite LS2, Nat.sub_diag in Ed1. rewrite LS2 in Ed0.
    replace (n - 1 - (n - 2))%nat with 1%nat in Ed0 by lia. cbn [lookup_total list_lookup_total] in Ed0, Ed1. subst e0 e1.
    rewrite words_ok_app, !words_ok_cons in HW. rewrite words_ok_app, !words_ok_cons in Hsd. 
    destruct HW as (HW3 & Hn2 & Hn1 & Hn0 & _). destruct Hsd as (HS2 & Hd1 & Hd0' & _).
    pose proof (value_bound W3 HW3). pose proof (value_nonneg W3 HW3). pose proof (value_bound S2 HS2). pose proof (value_nonneg S2 HS2). rewrite !value_app in *. cbn [value] in *.
    rewrite L3 in *. rewrite LS2 in *. set (P := 2 ^ (64 * Z.of_nat (n - 2))) in *. assert (0 < P) by (apply Z.pow_pos_nonneg; lia).
    apply (div_digit_spec P); unfold fits in *; lia.
Qed.

(** A round leaves the remainder of the window in its place. *)
Lemma div_round_spec W y x z :
  length W = S n -> words_ok W -> fits 64 y -> value W < 2 ^ 64 * D ->
  exists V ts, div_round ((x ++ [y]) ++ W ++ z) sdiv d0 d1 (length x) = Some ((x ++ [y]) ++ (V ++ [0]) ++ z, ts, value W / D) /\
    length V = n /\ words_ok V /\ value V = value W mod D /\ length ts = S n /\ words_ok ts.
Proof.
  intros LW HW Hy Hlt. pose proof divisor_pos as HD.
  destruct (window_digit W y x z LW HW Hy Hlt) as (q & Eq & Hq & Hqr). unfold div_round. fold n. rewrite Eq. clear Eq. cbn [mbind option_bind].
  pose proof (mul_words_spec sdiv q Hsd Hq) as Hm. destruct (bn_mul_words sdiv q) as [ts l0]. destruct Hm as (Em & Lts & Hts & Hl0). fold n in Em, Lts. fold D in Em.
  rewrite ld_mid by (rewrite ?length_app; cbn; lia). assert (words_ok (ts ++ [l0])) as Htmp by (by apply words_ok_snoc).
  pose proof (sub_words_spec W (ts ++ [l0]) ltac:(rewrite length_app; cbn; lia) HW Htmp) as Hs. destruct (bn_sub_words W (ts ++ [l0])) as [w borrow].
  destruct Hs as (Es & Lw & Hw & Hb). rewrite value_snoc, Lts, Em in Es. rewrite store_mid by (rewrite ?length_app; cbn; lia).
  pose proof (Z.div_mod (value W) D ltac:(lia)) as EU. pose proof (Z.mod_pos_bound (value W) D HD) as HmU. pose proof (value_bound w Hw) as Bw. pose proof (value_nonneg w Hw) as Nw.
  pose proof (value_bound sdiv Hsd) as BD. fold n in BD. fold D in BD. rewrite Lw in Bw. rewrite LW, pow_words_S in *. set (P := 2 ^ (64 * Z.of_nat n)) in *.
  destruct (split_last w n ltac:(lia)) as (V & t & -> & LV). rewrite value_snoc, LV in *. fold P in Es, Bw, Nw. apply words_ok_snoc in Hw as [HV Ht].
  pose proof (value_bound V HV) as BV. pose proof (value_nonneg V HV) as NV. rewrite LV in BV. fold P in BV.
  destruct (Z.eqb_spec borrow 0) as [-> | Eb]; cbn [negb].
  - assert (q = value W / D) as -> by nia. exists V, (ts ++ [l0]). assert (t = 0) as -> by (unfold fits in *; nia).
    split_and!; [done | done | done | lia | rewrite length_app; cbn; lia | done].
  - assert (borrow = 1) as -> by lia. assert (q = value W / D + 1) as -> by nia.
    unfold fits in Hq. rewrite (wrap_id 64 (_ - 1)) by (unfold fits; assert (0 <= value W / D) by (apply Z.div_pos; (by apply value_nonneg) || lia); lia).
    rewrite <- (app_assoc V). rewrite (ld_mid _ V) by (rewrite ?length_app; cbn; lia).
    pose proof (add_words_spec V sdiv ltac:(fold n; lia) HV Hsd) as Ha. destruct (bn_add_words V sdiv) as [V' c]. destruct Ha as (Ea & LV' & HV' & Hc). rewrite LV in Ea, LV'. fold P D in Ea.
    rewrite store_mid by (rewrite ?length_app; cbn; lia). pose proof (value_bound V' HV') as BV'. pose proof (value_nonneg V' HV') as NV'. rewrite LV' in BV'. fold P in BV'.
    assert (c = 1 /\ t = 2 ^ 64 - 1) as [-> ->] by (unfold fits in *; nia). cbn [Z.eqb negb].
    exists V', (ts ++ [l0]). split_and!; [| done | done | lia | rewrite length_app; cbn; lia | done].
    f_equal. f_equal; [| lia]. f_equal. rewrite !(app_assoc (x ++ [y])).
    rewrite (lookup_mid ((x ++ [y]) ++ V') [2 ^ 64 - 1] z _ 0) by (rewrite ?length_app; cbn; lia).
    rewrite (store_mid _ [_]) by (rewrite ?length_app; cbn; lia).
    by rewrite <- !app_assoc.
Qed.
(** The window moves down over the words [lo]; the quotient words are stored below [k]. *)
Lemma div_loop_spec k y lo V m tmp res :
  length lo = k -> length V = n -> words_ok lo -> words_ok V -> fits 64 y -> value V < D -> (n < length tmp)%nat -> (k <= length res)%nat ->
  exists V' tmp' Q, div_loop ((y :: lo) ++ V ++ replicate m 0) sdiv tmp res d0 d1 k = Some (y :: V' ++ replicate (k + m) 0, tmp', Q ++ drop k res) /\
    length V' = n /\ words_ok V' /\ value V' < D /\ length Q = k /\ words_ok Q /\ length tmp' = length tmp /\ (words_ok tmp -> words_ok tmp') /\
    value (lo ++ V) = value Q * D + value V'.
Proof.
  revert lo V m tmp res. induction k as [| j IH]; intros lo V m tmp res Hlo HV Oklo OkV Hy Hlt Ht Hr; cbn [div_loop].
  { apply nil_length_inv in Hlo. subst lo. exists V, tmp, []. cbn [app value length]. rewrite drop_0. split_and!; (done || apply Forall_nil_2). }
  destruct (split_last lo j Hlo) as (lo' & w & -> & Hl'). apply words_ok_snoc in Oklo as [Oklo' Hw].
  assert (exists x y', y :: lo' = x ++ [y'] /\ length x = j /\ fits 64 y') as (x & y' & Ex & Lx & Hy').
  { destruct (split_last (y :: lo') j ltac:(cbn; lia)) as (x & y' & E & L). exists x, y'. split_and!; [done | done |].
    assert (words_ok (x ++ [y'])) as [_ ?]%words_ok_snoc; [rewrite <- E; by apply words_ok_cons | done]. }
  assert (words_ok (w :: V)) as OkW by (by apply words_ok_cons).
  destruct (div_round_spec (w :: V) y' x (replicate m 0)) as (V1 & ts & E1 & L1 & Ok1 & Ev & Lts & Hts); [cbn; lia | done | done | cbn [value]; unfold fits in *; lia |].
  replace ((y :: lo' ++ [w]) ++ V ++ replicate m 0) with ((x ++ [y']) ++ (w :: V) ++ replicate m 0) by (rewrite <- Ex; cbn; by rewrite <- app_assoc).
  rewrite Lx in E1. rewrite E1. cbn [mbind option_bind]. rewrite <- Ex. pose proof divisor_pos as HD.
  pose proof (Z.mod_pos_bound (value (w :: V)) D HD) as Hm. pose proof (Z.div_mod (value (w :: V)) D ltac:(lia)) as Ediv.
  set (q := value (w :: V) / D) in *. assert (fits 64 q) as Hq.
  { pose proof (value_nonneg V OkV). split; [apply Z.div_pos; [by apply value_nonneg | lia] | apply Z.div_lt_upper_bound; [lia |]]. cbn [value]. unfold fits in *. lia. }
  destruct (split_at j res ltac:(lia)) as (r1 & r2 & -> & Lr1 & _ & _). rewrite length_app in Hr. destruct r2 as [| r0 r2]; [cbn in Hr; lia |].
  assert (store (r1 ++ r0 :: r2) j [q] = r1 ++ q :: r2) as -> by (apply (store_mid r1 [r0] [q]); done).
  rewrite <- (app_assoc V1). change ([0] ++ replicate m 0) with (replicate (S m) 0).
  assert (length (store tmp 0 ts) = length tmp) as Lst by (rewrite store_0, length_app, length_drop; lia).
  destruct (IH lo' V1 (S m) (store tmp 0 ts) (r1 ++ q :: r2)) as (V' & tmp' & Q & E & LV' & OkV' & BV' & LQ & OkQ & Ltmp & Oktmp & Etot); try done; try lia.
  { rewrite length_app. cbn. lia. }
  exists V', tmp', (Q ++ [q]). rewrite E. split_and!; try done; try lia.
  - rewrite Nat.add_succ_comm. rewrite drop_app_length' by done. replace (drop (S j) (r1 ++ r0 :: r2)) with r2 by (rewrite drop_app_ge by lia; by replace (S j - length r1)%nat with 1%nat by lia).
    by rewrite <- app_assoc.
  - rewrite length_app. cbn. lia.
  - by apply words_ok_snoc.
  - intros Hok. apply Oktmp. by apply store_ok.
  - rewrite <- app_assoc. cbn [app]. rewrite value_snoc, !value_app in *. rewrite Hl' in *. rewrite LQ. rewrite Ev in Etot.
    set (P := 2 ^ (64 * Z.of_nat j)) in *. rewrite Ediv. nia.
Qed.
End Long.

(** * Constant-time reduction *)

(** What is subtracted: [m], or nothing. *)
Lemma reduce_pieces a carry m :
  length a = length m -> words_ok a -> words_ok m -> 0 <= carry <= 1 ->
  let A := value a + 2 ^ (64 * Z.of_nat (length m)) * carry in A < 2 * value m ->
  exists t b, bn_sub_words a m = (t, b) /\ length t = length m /\ words_ok t /\
    u64 (carry - b) = mask (A <? value m) /\ (u64 (u64 (carry - b) + 1) <=? 1) = true /\
    let r := if A <? value m then a else t in value r = A mod value m /\ bn_select_words (u64 (carry - b)) a t = r.
Proof.
  intros Hl Ha Hm Hc A HA. pose proof (sub_words_spec a m Hl Ha Hm) as Hs. destruct (bn_sub_words a m) as [t b]. destruct Hs as (E & Lt & Ht & Hb).
  exists t, b. rewrite Hl in E, Lt. pose proof (value_bound t Ht) as Bt. pose proof (value_nonneg t Ht) as Nt. rewrite Lt in Bt. pose proof (value_nonneg a Ha) as Na.
  pose proof (value_bound a Ha) as Ba. rewrite Hl in Ba. pose proof (value_bound m Hm) as Bm. unfold A in *. clear A. set (P := 2 ^ (64 * Z.of_nat (length m))) in *.
  assert (u64 (carry - b) = mask (value a + P * carry <? value m) /\ value (if value a + P * carry <? value m then a else t) = (value a + P * carry) mod value m) as [E1 E2].
  { destruct (Z.ltb_spec (value a + P * carry) (value m)) as [Hlt | Hge].
    - assert (carry = 0 /\ b = 1) as [-> ->] by nia. split; [done |]. rewrite Z.mul_0_r, Z.add_0_r, Z.mod_small in * by lia. done.
    - assert (carry = b) as -> by nia. split; [by rewrite Z.sub_diag |]. apply (Z.mod_unique_pos _ _ 1); lia. }
  rewrite E1. split_and!; [done | done | done | done | by destruct (_ <? _) | done |]. by rewrite select_words_mask by (done || lia).
Qed.

Lemma reduce_once_spec a carry m :
  length a = length m -> words_ok a -> words_ok m -> 0 <= carry <= 1 ->
  let A := value a + 2 ^ (64 * Z.of_nat (length m)) * carry in A < 2 * value m ->
  exists r t, bn_reduce_once a carry m = Some (r, mask (A <? value m)) /\ bn_reduce_once_in_place a carry m = Some (r, t, mask (A <? value m)) /\
    length r = length m /\ words_ok r /\ value r = A mod value m /\ length t = length m /\ words_ok t.
Proof.
  intros Hl Ha Hm Hc A HA. destruct (reduce_pieces a carry m Hl Ha Hm Hc HA) as (t & b & E & Lt & Ht & E1 & E2 & Er & Es). fold A in E1, Er, Es.
  unfold bn_reduce_once, bn_reduce_once_in_place. rewrite E, E2, Es, E1. cbn [negb]. eexists _, t. split_and!; try done; by destruct (A <? value m).
Qed.

Lemma mod_add_words_spec a b m :
  length a = length m -> length b = length m -> words_ok a -> words_ok b -> words_ok m -> value a < value m -> value b < value m ->
  exists r t, bn_mod_add_words a b m = Some (r, t) /\ length r = length m /\ words_ok r /\ value r = (value a + value b) mod value m /\ length t = length m /\ words_ok t.
Proof.
  intros La Lb Ha Hb Hm Ba Bb. unfold bn_mod_add_words. pose proof (add_words_spec a b ltac:(lia) Ha Hb) as Hs. destruct (bn_add_words a b) as [s c]. destruct Hs as (E & Ls & Hs & Hc).
  rewrite La in E, Ls. destruct (reduce_once_spec s c m) as (r & t & _ & Er & H); [done | done | done | done | lia |]. rewrite E in H. rewrite Er. cbn [mbind option_bind]. by exists r, t.
Qed.

Lemma mod_sub_words_spec a b m :
  length a = length m -> length b = length m -> words_ok a -> words_ok b -> words_ok m -> value a < value m -> value b < value m ->
  exists r t, bn_mod_sub_words a b m = (r, t) /\ length r = length m /\ words_ok r /\ value r = (value a - value b) mod value m /\ length t = length m /\ words_ok t.
Proof.
  intros La Lb Ha Hb Hm Ba Bb. unfold bn_mod_sub_words. pose proof (sub_words_spec a b ltac:(lia) Ha Hb) as Hs. destruct (bn_sub_words a b) as [s c]. destruct Hs as (E & Ls & Hs & Hc).
  rewrite La in E, Ls. pose proof (add_words_spec s m ltac:(lia) Hs Hm) as Ht. destruct (bn_add_words s m) as [t e]. destruct Ht as (Et & Lt & Ht & He). rewrite Ls in Et, Lt.
  rewrite borrow_mask, select_words_mask by (done || lia). exists (if c =? 1 then t else s), t. pose proof (value_nonneg a Ha). pose proof (value_nonneg b Hb).
  pose proof (value_bound t Ht) as Bt. pose proof (value_bound s Hs) as Bs. pose proof (value_bound m Hm). pose proof (value_nonneg s Hs). pose proof (value_nonneg t Ht).
  rewrite Lt in Bt. rewrite Ls in Bs. set (P := 2 ^ (64 * Z.of_nat (length m))) in *.
  destruct (Z.eqb_spec c 1) as [-> | Hn]; (split; [reflexivity |]); split_and!; try done.
  - assert (e = 1) as -> by nia. apply (Z.mod_unique_pos _ _ (-1)); lia.
  - assert (c = 0) as -> by lia. rewrite Z.mod_small by lia. lia.
Qed.

(** * Binary long division *)

Lemma set_low_bit w x : 0 <= w -> w mod 2 = 0 -> Z.lor w (Z.land x 1) = w + Z.land x 1.
Proof.
  intros Hw E. assert (w = Z.shiftl (w / 2) 1) as -> by (rewrite Z.shiftl_mul_pow2 by lia; pose proof (Z.div_mod w 2 ltac:(lia)); lia).
  change 1 with (Z.ones 1) at 2 4. rewrite Z.land_ones by lia. rewrite lor_shiftl_add; [rewrite Z.shiftl_mul_pow2 by lia; done | lia |].
  split; apply Z.mod_pos_bound; lia.
Qed.

Section Binary.
Context (divisor : words).
Let D : Z := value divisor.
Context (Hdiv : words_ok divisor) (Hpos : 0 < D).

Lemma consttime_bit_spec r n Qh bit :
  length r = length divisor -> words_ok r -> value r < D -> fits 64 n -> 0 <= bit < 64 -> 0 <= Qh -> Qh * 2 ^ (bit + 1) < 2 ^ 64 ->
  let b := n / 2 ^ bit mod 2 in
  exists r' t, consttime_bit r divisor n (Qh * 2 ^ (bit + 1)) bit = Some (r', t, (2 * Qh + (2 * value r + b) / D) * 2 ^ bit) /\
    length r' = length divisor /\ words_ok r' /\ value r' = (2 * value r + b) mod D /\ length t = length divisor /\ words_ok t /\
    0 <= (2 * value r + b) / D <= 1.
Proof.
  intros Lr Hr Hlt Hn Hbit HQ HQb b. unfold consttime_bit. pose proof (add_words_spec r r eq_refl Hr Hr) as Hs. destruct (bn_add_words r r) as [s c]. destruct Hs as (E & Ls & Hs & Hc).
  assert (Z.land (Z.shiftr n bit) 1 = b) as Eb by (unfold b; rewrite Z.shiftr_div_pow2 by lia; apply (Z.land_ones _ 1); lia).
  assert (0 <= b <= 1) as Hb by (unfold b; pose proof (Z.mod_pos_bound (n / 2 ^ bit) 2 ltac:(lia)); lia).
  destruct s as [| w s]. { destruct divisor; [unfold D in Hpos; cbn in Hpos; lia |]. cbn in *. lia. }
  assert (exists k, length r = S k) as [k Ek] by (destruct r; [cbn in Ls; lia | by eexists]).
  apply words_ok_cons in Hs as [Hw Hs]. rewrite Ek, pow_words_S in E. cbn [value] in E. assert (w mod 2 = 0) as Ew.
  { replace w with (2 * (value r - 2 ^ 63 * value s - 2 ^ 63 * 2 ^ (64 * Z.of_nat k) * c)) by (change (2 ^ 64) with (2 * 2 ^ 63) in E; lia). by rewrite Z.mul_comm, Z.mod_mul. }
  rewrite set_low_bit, Eb by (unfold fits in *; (done || lia)).
  assert (w + b < 2 ^ 64) as Hwb. { unfold fits in Hw. pose proof (Z.div_mod w 2 ltac:(lia)). lia. }
  assert (value (w + b :: s) + 2 ^ (64 * Z.of_nat (length divisor)) * c = 2 * value r + b) as Ev.
  { cbn [value]. rewrite <- Lr, Ek, pow_words_S. lia. }
  destruct (reduce_once_spec (w + b :: s) c divisor) as (r' & t & _ & Er & Lr' & Hr' & Vr' & Lt & Ht); [cbn in *; lia | apply words_ok_cons; unfold fits in *; split; [lia | done] | done | done | fold D; rewrite Ev; lia |].
  rewrite Ev in Vr', Er. fold D in Vr', Er. rewrite Er. cbn [mbind option_bind]. exists r', t. rewrite wnot_mask. pose proof (value_nonneg r Hr).
  assert (0 <= (2 * value r + b) / D <= 1) as Hy by (split; [apply Z.div_pos; lia | apply Z.lt_succ_r, Z.div_lt_upper_bound; lia]).
  split_and!; try done; try lia. do 2 f_equal. assert ((2 * value r + b) / D = Z.b2z (negb (2 * value r + b <? D))) as ->.
  { destruct (Z.ltb_spec (2 * value r + b) D); cbn [negb Z.b2z]; [apply Z.div_small; lia | symmetry; apply (Z.div_unique_pos _ _ _ (2 * value r + b - D)); lia]. }
  assert (Z.land (mask (negb (2 * value r + b <? D))) 1 = Z.b2z (negb (2 * value r + b <? D))) as -> by (by destruct (_ <? _)).
  set (y := Z.b2z (negb (2 * value r + b <? D))) in *. assert (0 <= y <= 1) as Hy01 by (apply b2z_range). assert (0 < 2 ^ bit) by (apply Z.pow_pos_nonneg; lia).
  assert (2 ^ (bit + 1) = 2 * 2 ^ bit) as Ep by (rewrite Z.pow_add_r by lia; lia). assert (2 ^ bit <= 2 ^ 63) by (apply Z.pow_le_mono_r; lia).
  rewrite wrap_id by (rewrite Z.shiftl_mul_pow2 by lia; unfold fits; nia). rewrite <- (Z.shiftl_mul_pow2 Qh) by lia. rewrite lor_shiftl_add; [| lia |].
  - rewrite Z.shiftl_mul_pow2 by lia. rewrite Ep. ring.
  - rewrite Z.shiftl_mul_pow2 by lia. unfold fits. nia.
Qed.
Lemma consttime_bits_spec k r t n Qh :
  (k <= 64)%nat -> length r = length divisor -> words_ok r -> value r < D -> length t = length divisor -> words_ok t -> fits 64 n -> 0 <= Qh -> Qh * 2 ^ Z.of_nat k < 2 ^ 64 ->
  let N := value r * 2 ^ Z.of_nat k + n mod 2 ^ Z.of_nat k in
  exists r' t', consttime_bits r t divisor n (Qh * 2 ^ Z.of_nat k) k = Some (r', t', Qh * 2 ^ Z.of_nat k + N / D) /\
    length r' = length divisor /\ words_ok r' /\ value r' = N mod D /\ length t' = length divisor /\ words_ok t'.
Proof.
  revert r t Qh. induction k as [| k IH]; intros r t Qh Hk Lr Hr Hlt Lt Ht Hn HQ HQb N; cbn [consttime_bits].
  { pose proof (value_nonneg r Hr). exists r, t. unfold N. change (Z.of_nat 0) with 0. rewrite Z.pow_0_r, Z.mod_1_r, !Z.mul_1_r, Z.add_0_r. rewrite Z.div_small, Z.add_0_r, Z.mod_small by lia. done. }
  unfold N. clear N. rewrite Nat2Z.inj_succ, <- Z.add_1_r in *. destruct (consttime_bit_spec r n Qh (Z.of_nat k)) as (r1 & t1 & -> & Lr1 & Hr1 & V1 & Lt1 & Ht1 & Hy); try done; [lia |].
  cbn [mbind option_bind]. set (b := n / 2 ^ Z.of_nat k mod 2) in *. set (M := 2 * value r + b) in *. set (p := 2 ^ Z.of_nat k) in *.
  assert (2 ^ (Z.of_nat k + 1) = 2 * p) as Ep by (rewrite Z.pow_add_r by lia; lia). assert (0 < p) by (apply Z.pow_pos_nonneg; lia). rewrite Ep in *.
  pose proof (Z.mod_pos_bound M D Hpos) as Hm. pose proof (Z.div_mod M D ltac:(lia)) as EM.
  assert (2 ^ 64 = p * 2 ^ (64 - Z.of_nat k)) as Ep64 by (unfold p; rewrite <- Z.pow_add_r by lia; f_equal; lia).
  assert (2 * 2 ^ (63 - Z.of_nat k) = 2 ^ (64 - Z.of_nat k)) as Ep63 by (change 2 with (2 ^ 1) at 1; rewrite <- Z.pow_add_r by lia; f_equal; lia).
  destruct (IH r1 t1 (2 * Qh + M / D)) as (r' & t' & -> & Hrest); try done; try lia.
  { assert (2 * Qh + 1 < 2 ^ (64 - Z.of_nat k)) by nia. rewrite Ep64, Z.mul_comm. apply Z.mul_lt_mono_pos_l; lia. }
  exists r', t'. rewrite V1 in Hrest |- *. assert (n mod (2 * p) = p * b + n mod p) as En.
  { unfold b. rewrite (Z.mul_comm 2 p), Z.rem_mul_r by lia. lia. }
  rewrite En. replace (value r * (2 * p) + (p * b + n mod p)) with (M / D * p * D + (M mod D * p + n mod p)) by (transitivity (M * p + n mod p); [rewrite EM at 3; ring | unfold M; ring]).
  rewrite Z.div_add_l, (Z.add_comm (M / D * p * D)), Z_mod_plus_full by lia. split; [| done]. do 2 f_equal. ring.
Qed.

Lemma consttime_words_spec k r t q num :
  (k <= length num)%nat -> (k <= length q)%nat -> length r = length divisor -> words_ok r -> value r < D -> length t = length divisor -> words_ok t -> words_ok num ->
  take k q = replicate k 0 ->
  let N := value r * 2 ^ (64 * Z.of_nat k) + value (take k num) in
  exists r' t' Q, consttime_words r t q num divisor k = Some (r', t', Q ++ drop k q) /\ length Q = k /\ words_ok Q /\ value Q = N / D /\
    length r' = length divisor /\ words_ok r' /\ value r' = N mod D /\ length t' = length divisor /\ words_ok t'.
Proof.
  revert r t q. induction k as [| k IH]; intros r t q Hk Hkq Lr Hr Hlt Lt Ht Hnum Hq N; cbn [consttime_words].
  { pose proof (value_nonneg r Hr). exists r, t, []. unfold N. rewrite take_0, drop_0. cbn [value]. rewrite Z.mul_0_r, Z.pow_0_r, Z.mul_1_r, Z.add_0_r, Z.div_small, Z.mod_small by lia.
    split_and!; (done || apply Forall_nil_2). }
  destruct (lookup_lt_is_Some_2 num k ltac:(lia)) as [x Hx]. rewrite (list_lookup_total_correct _ _ _ Hx). pose proof (words_ok_lookup _ _ _ Hnum Hx) as Hxf.
  assert (q !! k = Some 0) as Hq0 by (rewrite <- (lookup_take_lt q (S k)) by lia; rewrite Hq; apply lookup_replicate_2; lia). rewrite (list_lookup_total_correct _ _ _ Hq0).
  destruct (consttime_bits_spec 64 r t x 0) as (r1 & t1 & E1 & Lr1 & Hr1 & V1 & Lt1 & Ht1); try done. change (Z.of_nat 64) with 64 in *. rewrite Z.mul_0_l, Z.add_0_l, (Z.mod_small x) in * by done.
  rewrite E1. cbn [mbind option_bind]. set (M := value r * 2 ^ 64 + x) in *. pose proof (Z.mod_pos_bound M D Hpos) as Hm. pose proof (Z.div_mod M D ltac:(lia)) as EM.
  pose proof (value_nonneg r Hr). assert (fits 64 (M / D)) as HMD by (split; [apply Z.div_pos; unfold M, fits in *; lia | apply Z.div_lt_upper_bound; unfold M, fits in *; lia]).
  assert (store q k [M / D] = take k q ++ [M / D] ++ drop (S k) q) as Es by (unfold store; cbn [length]; by rewrite Nat.add_1_r).
  assert (take k q = replicate k 0) as Hqk by (apply (f_equal (take k)) in Hq; by rewrite take_take, take_replicate, !Nat.min_l in Hq by lia).
  destruct (IH r1 t1 (store q k [M / D])) as (r' & t' & Q & -> & LQ & HQ & VQ & Lr' & Hr' & Vr' & Hrest); try done; try lia.
  { rewrite Es, !length_app, length_take, length_drop. cbn. lia. }
  { rewrite Es, take_app_length' by (rewrite length_take; lia). done. }
  exists r', t', (Q ++ [M / D]). rewrite Es, drop_app_length' by (rewrite length_take; lia). rewrite V1 in VQ, Vr'.
  assert (N = M / D * 2 ^ (64 * Z.of_nat k) * D + (M mod D * 2 ^ (64 * Z.of_nat k) + value (take k num))) as EN.
  { unfold N. rewrite (take_S_r _ _ _ Hx), value_snoc, pow_words_S, length_take, Nat.min_l by lia.
    replace (value r * (2 ^ 64 * 2 ^ (64 * Z.of_nat k)) + (value (take k num) + 2 ^ (64 * Z.of_nat k) * x)) with (M * 2 ^ (64 * Z.of_nat k) + value (take k num)) by (unfold M; ring).
    rewrite EM at 1. ring. }
  rewrite EN, Z.div_add_l, (Z.add_comm (_ * D)), Z_mod_plus_full by lia.
  destruct Hrest. split_and!; try done; [by rewrite <- app_assoc | rewrite length_app; cbn; lia | by apply words_ok_snoc | rewrite value_snoc, VQ, LQ; ring].
Qed.
End Binary.

Lemma mod_step x y z d : (x mod d * y + z) mod d = (x * y + z) mod d.
Proof. rewrite <- Zplus_mod_idemp_l, Zmult_mod_idemp_l, Zplus_mod_idemp_l. done. Qed.

(** * By one word *)

Lemma div_word_loop_spec a w :
  words_ok a -> 0 < w < 2 ^ 64 ->
  let '(qs, ret) := div_word_loop a w in
  length qs = length a /\ words_ok qs /\ value qs = value a / w /\ ret = value a mod w.
Proof.
  intros Ha Hw. induction Ha as [| l a Hl Ha IH]; cbn [div_word_loop value].
  { rewrite Z.div_0_l, Z.mod_0_l by lia. split_and!; (done || apply Forall_nil_2). }
  destruct (div_word_loop a w) as [qs ret]. destruct IH as (Lq & Hq & Vq & ->). pose proof (Z.mod_pos_bound (value a) w ltac:(lia)) as Hm.
  pose proof (Z.div_mod (value a) w ltac:(lia)) as Ea. destruct (div_rem_words_spec (value a mod w) l w) as (E & Hr); [done | done | lia |].
  pose proof E as E'. unfold bn_div_rem_words in E'. injection E' as E1 E2. rewrite E. rewrite E1 in E2. rewrite E2. clear E E1 E2.
  set (n := value a mod w * 2 ^ 64 + l) in *. assert (l + 2 ^ 64 * value a = value a / w * 2 ^ 64 * w + n) as En by (unfold n; rewrite Ea at 1; ring).
  cbn [length value]. rewrite En, Z.div_add_l, (Z.add_comm (_ * w)), Z_mod_plus_full by lia. split_and!; [lia | by apply words_ok_cons | lia | done].
Qed.

Lemma mod_word_loop_spec a w : words_ok a -> 0 < w < 2 ^ 64 -> mod_word_loop a w = value a mod w.
Proof.
  intros Ha Hw. induction Ha as [| l a Hl Ha IH]; cbn [mod_word_loop value]; [by rewrite Z.mod_0_l by lia |].
  rewrite IH. pose proof (Z.mod_pos_bound (value a) w ltac:(lia)) as Hm. rewrite concat_double by (done || unfold fits; lia).
  rewrite mod_step. f_equal. ring.
Qed.

(** * By 16 bits *)

(** The approximate inverse is good enough for 32-bit numerators. *)
Lemma barrett n d p :
  0 <= n < 2 ^ 32 -> 0 < p -> 2 ^ (p - 1) < d <= 2 ^ p -> d < 2 ^ 16 -> let M := (2 ^ (32 + p) + d - 1) / d in
  2 ^ 32 <= M < 2 ^ 33 /\ M * n / 2 ^ (32 + p) = n / d.
Proof.
  intros Hn Hp Hd Hd16 M. assert (2 ^ p = 2 * 2 ^ (p - 1)) as Ep by (change 2 with (2 ^ 1) at 2; rewrite <- Z.pow_add_r by lia; f_equal; lia).
  assert (2 ^ (32 + p) = 2 ^ 32 * 2 ^ p) as Ep' by (apply Z.pow_add_r; lia). assert (0 < 2 ^ (p - 1)) by (apply Z.pow_pos_nonneg; lia).
  pose proof (Z.div_mod (2 ^ (32 + p) + d - 1) d ltac:(lia)) as EM. pose proof (Z.mod_pos_bound (2 ^ (32 + p) + d - 1) d ltac:(lia)) as Hr. fold M in EM.
  set (e := d - 1 - (2 ^ (32 + p) + d - 1) mod d) in *. assert (d * M = 2 ^ (32 + p) + e) as EM' by (unfold e; lia). assert (0 <= e < d) as He by (unfold e; lia). clearbody M e. clear EM Hr.
  rewrite Ep' in *. set (q := 2 ^ (p - 1)) in *. rewrite Ep in *. split.
  { split; [apply Z.nlt_ge | apply Z.nle_gt]; intros Hc; [assert (d * M <= d * (2 ^ 32 - 1)) by (apply Z.mul_le_mono_nonneg_l; lia) | assert (d * 2 ^ 33 <= d * M) by (apply Z.mul_le_mono_nonneg_l; lia)]; lia. }
  pose proof (Z.div_mod n d ltac:(lia)) as En. pose proof (Z.mod_pos_bound n d ltac:(lia)) as Hrn. set (x := n / d) in *. set (y := n mod d) in *.
  symmetry. apply (Z.div_unique_pos _ _ _ (M * y + e * x)).
  - assert (0 <= M) by nia. assert (0 <= x) by (apply Z.div_pos; lia). split; [nia |].
    assert (d * (M * y + e * x) < d * (2 ^ 32 * (2 * q))); [| nia].
    replace (d * (M * y + e * x)) with ((2 ^ 32 * (2 * q) + e) * y + e * (d * x)) by (rewrite <- EM'; ring).
    replace (d * x) with (n - y) by lia. assert (e * n < 2 * q * 2 ^ 32) by nia. nia.
  - rewrite En. replace (M * (d * x + y)) with ((d * M) * x + M * y) by ring. rewrite EM'. ring.
Qed.

Section U16.
Context (d p m : Z) (Hd : 2 <= d < 2 ^ 16) (Hp : 0 < p <= 16) (Hdp : 2 ^ (p - 1) < d <= 2 ^ p) (Em : m = (2 ^ (32 + p) + d - 1) / d - 2 ^ 32).

Lemma mod_u16_spec n : fits 32 n -> mod_u16 n d p m = Some (n mod d).
Proof.
  intros Hn. unfold fits in Hn. destruct (barrett n d p Hn ltac:(lia) Hdp ltac:(lia)) as (HM & Eq). rewrite <- (Z.sub_add (2 ^ 32) ((2 ^ (32 + p) + d - 1) / d)), <- Em in HM, Eq.
  unfold mod_u16. assert (0 <= m * n < 2 ^ 64) as Hmn by nia. rewrite (wrap_id 64) by done. rewrite (Z.shiftr_div_pow2 (m * n) 32) by lia.
  assert (0 <= m * n / 2 ^ 32 <= n) as Hq by (split; [apply Z.div_pos; lia | apply Z.div_le_upper_bound; nia]). set (q := m * n / 2 ^ 32) in *.
  rewrite (wrap_id 32 q), (wrap_id 32 (n - q)) by (unfold fits; lia). rewrite !Z.shiftr_div_pow2 by lia.
  assert ((n - q) / 2 ^ 1 + q = (n + q) / 2) as Eh by (rewrite <- Z.div_add by lia; f_equal; lia). rewrite Eh.
  pose proof (Z.div_pos (n + q) 2 ltac:(lia) ltac:(lia)). rewrite (wrap_id 32 ((n + q) / 2)) by (unfold fits; split; [done | apply Z.div_lt_upper_bound; lia]).
  assert ((n + q) / 2 / 2 ^ (p - 1) = n / d) as ->.
  { assert (0 < 2 ^ (p - 1)) by (apply Z.pow_pos_nonneg; lia). assert (0 < 2 ^ p) by (apply Z.pow_pos_nonneg; lia).
    rewrite <- Eq, Z.pow_add_r by lia. rewrite <- (Z.div_div _ (2 ^ 32)), (Z.div_div (n + q)) by lia.
    assert (n + q = (m + 2 ^ 32) * n / 2 ^ 32) as -> by (unfold q; rewrite <- Z.div_add_l by lia; f_equal; ring).
    f_equal. change 2 with (2 ^ 1) at 1. rewrite <- Z.pow_add_r by lia. f_equal. lia. }
  pose proof (Z.div_mod n d ltac:(lia)) as En. pose proof (Z.mod_pos_bound n d ltac:(lia)). assert (0 <= n / d) by (apply Z.div_pos; lia).
  assert (0 <= d * (n / d)) by (apply Z.mul_nonneg_nonneg; lia).
  rewrite (wrap_id 32 (d * _)), (wrap_id 32 (n - _)) by (unfold fits; lia). replace (n - d * (n / d)) with (n mod d) by lia.
  rewrite (proj2 (Z.ltb_lt _ _)) by lia. cbn [negb]. by rewrite wrap_id by (unfold fits; lia).
Qed.

Lemma shift_and_add_spec r a : 0 <= r < d -> fits 32 a -> shift_and_add_mod_u16 r a d p m = Some ((r * 2 ^ 32 + a) mod d).
Proof.
  intros Hr Ha. unfold fits in Ha. unfold shift_and_add_mod_u16. pose proof (Z.div_mod a (2 ^ 16) ltac:(lia)) as Ea. pose proof (Z.mod_pos_bound a (2 ^ 16) ltac:(lia)).
  assert (0 <= a / 2 ^ 16 < 2 ^ 16) by (split; [apply Z.div_pos; lia | apply Z.div_lt_upper_bound; lia]).
  rewrite (wrap_id 32 (Z.shiftl r 16)) by (rewrite Z.shiftl_mul_pow2 by lia; unfold fits; lia). rewrite Z.shiftr_div_pow2, lor_shiftl_add by (unfold fits; lia).
  rewrite mod_u16_spec by (unfold fits; lia). cbn [mbind option_bind]. set (t := (r * 2 ^ 16 + a / 2 ^ 16) mod d). assert (0 <= t < d) by (apply Z.mod_pos_bound; lia).
  rewrite (wrap_id 32 (Z.shiftl t 16)) by (rewrite Z.shiftl_mul_pow2 by lia; unfold fits; lia). change 65535 with (Z.ones 16). rewrite Z.land_ones, lor_shiftl_add by (unfold fits; lia).
  rewrite mod_u16_spec by (unfold fits; lia). cbn [mbind option_bind]. f_equal. unfold t. rewrite mod_step.
  rewrite wrap_id; [f_equal; lia |]. set (z := _ + a mod 2 ^ 16). pose proof (Z.mod_pos_bound z d ltac:(lia)). unfold fits. lia.
Qed.

Lemma mod_u16_loop_spec a : words_ok a -> mod_u16_loop a d p m = Some (value a mod d).
Proof.
  intros Ha. induction Ha as [| w a Hw Ha IH]; cbn [mod_u16_loop value]; [by rewrite Z.mod_0_l by lia |].
  rewrite IH. cbn [mbind option_bind]. pose proof (Z.mod_pos_bound (value a) d ltac:(lia)). destruct (halves w Hw) as (Ew & Hh & Hl).
  rewrite Z.shiftr_div_pow2 by lia. change (2 ^ 32 - 1) with (Z.ones 32). rewrite Z.land_ones, !wrap_id by (unfold fits; lia).
  rewrite shift_and_add_spec by (unfold fits; lia). cbn [mbind option_bind]. rewrite shift_and_add_spec by (unfold fits; (done || apply Z.mod_pos_bound; lia)).
  f_equal. rewrite mod_step. replace ((value a mod d * 2 ^ 32 + w / 2 ^ 32) * 2 ^ 32 + w mod 2 ^ 32) with (value a mod d * 2 ^ 64 + w) by lia. rewrite mod_step. f_equal. lia.
Qed.
End U16.

Lemma mod_u16_consttime_spec bn d : wf bn -> fits 16 d -> bn_mod_u16_consttime bn d = Some (if d <=? 1 then 0 else mag bn mod d).
Proof.
  intros Hw Hd. unfold bn_mod_u16_consttime, fits in *. destruct (Z.leb_spec d 1) as [H1 | H1]; [done |].
  rewrite num_bits_word_spec by (unfold fits; lia). unfold bit_length. rewrite (proj2 (Z.eqb_neq _ 0)) by lia.
  pose proof (Z.log2_spec (d - 1) ltac:(lia)) as [Hlo Hhi]. pose proof (Z.log2_nonneg (d - 1)). assert (Z.log2 (d - 1) < 16) by (apply Z.log2_lt_pow2; lia).
  rewrite wrap_id by (unfold fits; lia). set (p := Z.log2 (d - 1) + 1). replace (Z.succ (Z.log2 (d - 1))) with p in Hhi by (unfold p; lia). replace (Z.log2 (d - 1)) with (p - 1) in Hlo by (unfold p; lia).
  rewrite (proj2 (Z.leb_le p 16)) by (unfold p; lia). cbn [negb]. destruct (barrett 0 d p) as (HM & _); [lia | unfold p; lia | lia | lia |].
  assert (2 ^ (32 + p) <= 2 ^ 48) by (apply Z.pow_le_mono_r; unfold p; lia). assert (0 < 2 ^ (32 + p)) by (apply Z.pow_pos_nonneg; unfold p; lia).
  rewrite Z.shiftl_1_l, (wrap_id 64 (2 ^ _)), (wrap_id 64 (_ - 1)) by (unfold fits; lia).
  apply mod_u16_loop_spec; [lia | unfold p; lia | lia | | by apply limbs_ok].
  unfold wrap. symmetry. apply (Z.mod_unique_pos _ _ 1); lia.
Qed.
End BnDivWords.
