(* ===== verification/BnDiv.v ===== *)
(** BIGNUM division and modular arithmetic (crypto/fipsmodule/bn/div.c): [BN_div] and what is built on
    it, the constant-time division and the reductions modulo a power of two and by a word.

    A temporary from [BN_CTX_get] is an argument: the address of an object of its own, or [None] for
    NULL; a [BN_CTX] that has failed once returns NULL ever after.  The loops over words of objects
    that are apart from each other run on their arrays and write them back at the end. *)

From S2P Require Import Prelude Internal Store Modes BnWords Bn BnAdd BnShift BnMulWords BnMul BnDivWords.

Open Scope Z_scope.

Module BnDiv.
Import Internal Modes BnWords Bn BnAdd BnShift BnMulWords BnMul BnDivWords.
Open Scope c_scope.

(** The temporaries of [BN_div], in the order it gets them. *)
Record div_temps := mk_temps { t_tmp : option nat; t_snum : option nat; t_sdiv : option nat; t_res : option nat }.

Section Ops.
Context (alloc_ok : nat -> bool).

(** [BN_lshift], [bn_set_minimal_width] and [neg = 0]. *)
Definition normalise (r a : nat) (n : Z) : prog bool :=
  do ok <- BN_lshift alloc_ok r a n;
  if negb ok then r_ret false
  else
    do_ bn_set_minimal_width r;
    do_ r_modify r (set_neg false);
    r_ret true.

(** [snum] gets a zero word on top, and has at least two words more than [sdiv]. *)
Definition pad_numerator (snum sdiv : nat) : prog bool :=
  do N <- r_load snum;
  do V <- r_load sdiv;
  if (width N <=? width V + 1)%nat then
    do ok <- bn_wexpand alloc_ok snum (width V + 2);
    if negb ok then r_ret false
    else
      do_ put_words snum (width N) (replicate (width V + 2 - width N) 0);
      do_ r_modify snum (set_width (width V + 2));
      r_ret true
  else
    do ok <- bn_wexpand alloc_ok snum (width N + 1);
    if negb ok then r_ret false
    else
      do_ put_words snum (width N) [0];
      do_ r_modify snum (set_width (width N + 1));
      r_ret true.

(** From the setting up of [res] to the end of the main loop; the result is [numerator_neg]. *)
Definition div_main (numerator divisor tmp snum sdiv res : nat) : prog (option bool) :=
  do N <- r_load snum;
  do V <- r_load sdiv;
  let div_n := width V in
  let num_n := width N in
  let loop := (num_n - div_n)%nat in
  let d0 := d V !!! (div_n - 1)%nat in
  let d1 := if (div_n =? 1)%nat then 0 else d V !!! (div_n - 2)%nat in
  do A <- r_load numerator;
  do B <- r_load divisor;
  let numerator_neg := neg A in
  do_ r_modify res (set_neg (xorb numerator_neg (neg B)));
  do ok <- bn_wexpand alloc_ok res (loop + 1);
  if negb ok then r_ret None
  else
    do_ r_modify res (set_width (loop - 1));
    do ok <- bn_wexpand alloc_ok tmp (div_n + 1);
    if negb ok then r_ret None
    else
      do_ r_modify res (fun R => if (width R =? 0)%nat then set_neg false R else R);
      do T <- r_load tmp;
      do R <- r_load res;
      do x <- r_some (div_loop (limbs N) (limbs V) (d T) (d R) d0 d1 (loop - 1));
      let '(ns, ts, qs) := x in
      do_ put_words snum 0 ns;
      do_ put_words tmp 0 ts;
      do_ put_words res 0 qs;
      r_ret (Some numerator_neg).

(** From the normalisation to the end of the main loop; [None] is [goto err]. *)
Definition div_core (numerator divisor tmp snum sdiv res : nat) (norm_shift : Z) : prog (option bool) :=
  do ok <- normalise sdiv divisor norm_shift;
  if negb ok then r_ret None
  else
    do ok <- normalise snum numerator (norm_shift + 64);
    if negb ok then r_ret None
    else
      do ok <- pad_numerator snum sdiv;
      if negb ok then r_ret None else div_main numerator divisor tmp snum sdiv res.

Definition top_is_zero (X : BIGNUM) : bool :=
  let w := bn_minimal_width X in (0 <? w)%nat && (d X !!! (w - 1)%nat =? 0).

Definition BN_div (quotient rem : option nat) (numerator divisor : nat) (T : div_temps) : prog bool :=
  do A <- r_load numerator;
  do B <- r_load divisor;
  if top_is_zero A || top_is_zero B then r_ret false
  else if BN_is_zero B then r_ret false
  else
    match t_sdiv T, (match quotient with None => t_res T | Some q => Some q end) with
    | Some sdiv, Some res =>
        do tmp <- r_some (t_tmp T);
        do snum <- r_some (t_snum T);
        let norm_shift := 64 - BN_num_bits B mod 64 in
        do x <- div_core numerator divisor tmp snum sdiv res norm_shift;
        match x with
        | None => r_ret false
        | Some numerator_neg =>
            do_ bn_set_minimal_width snum;
            do ok <-
              (match rem with
               | None => r_ret true
               | Some rem =>
                   do ok <- BN_rshift alloc_ok rem snum (norm_shift + 64);
                   if negb ok then r_ret false
                   else
                     do_ r_modify rem (fun R => if negb (BN_is_zero R) then set_neg numerator_neg R else R);
                     r_ret true
               end);
            if negb ok then r_ret false
            else
              do_ bn_set_minimal_width res;
              r_ret true
        end
    | _, _ => r_ret false
    end.

Definition BN_mod (rem numerator divisor : nat) (T : div_temps) : prog bool := BN_div None (Some rem) numerator divisor T.

Definition BN_nnmod (r m d : nat) (T : div_temps) : prog bool :=
  do ok <- BN_mod r m d T;
  if negb ok then r_ret false
  else
    do R <- r_load r;
    if negb (neg R) then r_ret true
    else
      do D <- r_load d;
      if neg D then BN_sub alloc_ok r r d else BN_add alloc_ok r r d.

(** * Constant-time division *)

(** [r] takes the top words of the numerator that cannot exceed the divisor. *)
Definition initial_words (N : BIGNUM) (divisor_min_bits : Z) : nat :=
  if 0 <? divisor_min_bits then Nat.min (Z.to_nat ((divisor_min_bits - 1) / 64)) (width N) else O.

(** [OPENSSL_memset], the width and the sign. *)
Definition zero_words (i n : nat) : prog unit :=
  do_ put_words i 0 (replicate n 0);
  r_modify i (fun X => set_neg false (set_width n X)).

(** From [bn_wexpand] to the end of the loops. *)
Definition consttime_main (q r tmp numerator divisor : nat) (divisor_min_bits : Z) : prog bool :=
  do N <- r_load numerator;
  do V <- r_load divisor;
  do ok <- bn_wexpand alloc_ok q (width N);
  if negb ok then r_ret false
  else
    do ok <- bn_wexpand alloc_ok r (width V);
    if negb ok then r_ret false
    else
      do ok <- bn_wexpand alloc_ok tmp (width V);
      if negb ok then r_ret false
      else
        do_ zero_words q (width N);
        do_ zero_words r (width V);
        do_ r_assert (divisor_min_bits <=? BN_num_bits V);
        let initial := initial_words N divisor_min_bits in
        do ws <- read_words numerator (width N - initial) initial;
        do_ put_words r 0 ws;
        do rs <- read_words r 0 (width V);
        do qs <- read_words q 0 (width N);
        do ts <- read_words tmp 0 (width V);
        do x <- r_some (consttime_words rs ts qs (limbs N) (limbs V) (width N - initial));
        let '(rs, ts, qs) := x in
        do_ put_words r 0 rs;
        do_ put_words tmp 0 ts;
        do_ put_words q 0 qs;
        r_ret true.

(** [dst] is NULL or takes the value of [src]. *)
Definition copy_to (dst : option nat) (src : nat) : prog bool :=
  match dst with None => r_ret true | Some dst => BN_copy alloc_ok dst src end.

(** The result is computed in [dst], or in a temporary if it is NULL or an operand. *)
Definition apart_from (dst : option nat) (numerator divisor : nat) (tmp : option nat) : option nat :=
  match dst with
  | None => tmp
  | Some i => if (i =? numerator)%nat || (i =? divisor)%nat then tmp else Some i
  end.

Definition bn_div_consttime (quotient remainder : option nat) (numerator divisor : nat) (divisor_min_bits : Z) (tmp_q tmp_r tmp : option nat) : prog bool :=
  do N <- r_load numerator;
  do V <- r_load divisor;
  if BN_is_negative N || BN_is_negative V then r_ret false
  else if BN_is_zero V then r_ret false
  else
    match apart_from quotient numerator divisor tmp_q, apart_from remainder numerator divisor tmp_r, tmp with
    | Some q, Some r, Some tmp =>
        do ok <- consttime_main q r tmp numerator divisor divisor_min_bits;
        if negb ok then r_ret false
        else
          do ok <- copy_to quotient q;
          if negb ok then r_ret false else copy_to remainder r
    | _, _, _ => r_ret false
    end.

(** * Modular arithmetic *)

(** [t] is what [BN_CTX_get] returns. *)
Definition bn_scratch_space_from_ctx (width : nat) (t : option nat) : prog (option nat) :=
  match t with
  | None => r_ret None
  | Some ret =>
      do ok <- bn_wexpand alloc_ok ret width;
      if negb ok then r_ret None
      else
        do_ r_modify ret (fun X => set_width width (set_neg false X));
        r_ret (Some ret)
  end.

Definition bn_resized_from_ctx (bn width : nat) (t : option nat) : prog (option nat) :=
  do X <- r_load bn;
  if (width <=? Bn.width X)%nat then
    do_ r_assert (bn_fits_in_words X width);
    r_ret (Some bn)
  else
    do o <- bn_scratch_space_from_ctx width t;
    match o with
    | None => r_ret None
    | Some ret =>
        do ok <- BN_copy alloc_ok ret bn;
        if negb ok then r_ret None
        else
          do ok <- bn_resize_words alloc_ok ret width;
          r_ret (if ok then Some ret else None)
    end.

(** [bn_reduce_once_in_place] on the arrays of [r], [m] and [tmp]. *)
Definition reduce_in_place (r : nat) (carry : Z) (m tmp num : nat) : prog unit :=
  do x <- read_words r 0 num;
  do y <- read_words m 0 num;
  do z <- r_some (bn_reduce_once_in_place x carry y);
  let '(rs, ts, _) := z in
  do_ put_words tmp 0 ts;
  put_words r 0 rs.

(** [bn_mod_add_words] and [bn_mod_sub_words] on the arrays of objects; [r] may be [a] or [b]. *)
Definition mod_add_words (r a b m tmp num : nat) : prog unit :=
  do x <- read_words a 0 num;
  do y <- read_words b 0 num;
  let '(s, carry) := bn_add_words x y in
  do_ put_words r 0 s;
  reduce_in_place r carry m tmp num.

Definition mod_sub_words (r a b m tmp num : nat) : prog unit :=
  do x <- read_words a 0 num;
  do y <- read_words b 0 num;
  let '(s, borrow) := bn_sub_words x y in
  do_ put_words r 0 s;
  do s <- read_words r 0 num;
  do z <- read_words m 0 num;
  let '(t, _) := bn_add_words s z in
  do_ put_words tmp 0 t;
  do t <- read_words tmp 0 num;
  do s <- read_words r 0 num;
  put_words r 0 (bn_select_words (u64 (0 - borrow)) t s).

(** The common body of [bn_mod_add_consttime] and [bn_mod_sub_consttime]. *)
Definition mod_consttime (op : nat -> nat -> nat -> nat -> nat -> nat -> prog unit) (r a b m : nat) (tmp_a tmp_b tmp : option nat) : prog bool :=
  do M <- r_load m;
  do a <- bn_resized_from_ctx a (width M) tmp_a;
  do b <- bn_resized_from_ctx b (width M) tmp_b;
  do t <- bn_scratch_space_from_ctx (width M) tmp;
  match a, b, t with
  | Some a, Some b, Some t =>
      do ok <- bn_wexpand alloc_ok r (width M);
      if negb ok then r_ret false
      else
        do_ op r a b m t (width M);
        do_ r_modify r (fun X => set_neg false (set_width (width M) X));
        r_ret true
  | _, _, _ => r_ret false
  end.

Definition bn_mod_add_consttime : nat -> nat -> nat -> nat -> option nat -> option nat -> option nat -> prog bool := mod_consttime mod_add_words.
Definition bn_mod_sub_consttime : nat -> nat -> nat -> nat -> option nat -> option nat -> option nat -> prog bool := mod_consttime mod_sub_words.
Definition bn_mod_lshift1_consttime (r a m : nat) (tmp_a tmp_b tmp : option nat) : prog bool := bn_mod_add_consttime r a a m tmp_a tmp_b tmp.

(** [ctx] is whether [BN_CTX_new] succeeds. *)
Definition BN_mod_add_quick (ctx : bool) (r a b m : nat) (tmp_a tmp_b tmp : option nat) : prog bool :=
  if ctx then bn_mod_add_consttime r a b m tmp_a tmp_b tmp else r_ret false.
Definition BN_mod_sub_quick (ctx : bool) (r a b m : nat) (tmp_a tmp_b tmp : option nat) : prog bool :=
  if ctx then bn_mod_sub_consttime r a b m tmp_a tmp_b tmp else r_ret false.
Definition BN_mod_lshift1_quick (ctx : bool) (r a m : nat) (tmp_a tmp_b tmp : option nat) : prog bool :=
  if ctx then bn_mod_lshift1_consttime r a m tmp_a tmp_b tmp else r_ret false.

Fixpoint mod_lshift_loop (n r m tmp num : nat) : prog unit :=
  match n with
  | O => r_ret tt
  | S n => do_ mod_add_words r r r m tmp num; mod_lshift_loop n r m tmp num
  end.

Definition bn_mod_lshift_consttime (r a : nat) (n : Z) (m : nat) (tmp : option nat) : prog bool :=
  do ok <- BN_copy alloc_ok r a;
  if negb ok then r_ret false
  else
    do M <- r_load m;
    do ok <- bn_resize_words alloc_ok r (width M);
    if negb ok then r_ret false
    else
      do t <- bn_scratch_space_from_ctx (width M) tmp;
      match t with
      | None => r_ret false
      | Some t =>
          do_ mod_lshift_loop (Z.to_nat n) r m t (width M);
          do_ r_modify r (set_neg false);
          r_ret true
      end.

Definition BN_mod_lshift_quick (ctx : bool) (r a : nat) (n : Z) (m : nat) (tmp : option nat) : prog bool :=
  if ctx then bn_mod_lshift_consttime r a n m tmp else r_ret false.

(** [BN_dup]: [copy] is what [BN_new] returns. *)
Definition BN_dup (src : nat) (copy : option nat) : prog (option nat) :=
  match copy with
  | None => r_ret None
  | Some i =>
      do ok <- BN_copy alloc_ok i src;
      r_ret (if ok then Some i else None)
  end.

Definition BN_mod_lshift (r a : nat) (n : Z) (m : nat) (T : div_temps) (copy tmp : option nat) : prog bool :=
  do ok <- BN_nnmod r a m T;
  if negb ok then r_ret false
  else
    do M <- r_load m;
    if neg M then
      do o <- BN_dup m copy;
      match o with
      | None => r_ret false
      | Some abs_m =>
          do_ r_modify abs_m (set_neg false);
          bn_mod_lshift_consttime r r n abs_m tmp
      end
    else bn_mod_lshift_consttime r r n m tmp.

Definition BN_mod_add (r a b m : nat) (T : div_temps) : prog bool :=
  do ok <- BN_add alloc_ok r a b;
  if negb ok then r_ret false else BN_nnmod r r m T.

Definition BN_mod_sub (r a b m : nat) (T : div_temps) : prog bool :=
  do ok <- BN_sub alloc_ok r a b;
  if negb ok then r_ret false else BN_nnmod r r m T.

Definition BN_mod_mul (r a b m : nat) (t tmp_rr tmp_t : option nat) (stack : words) (T : div_temps) : prog bool :=
  match t with
  | None => r_ret false
  | Some t =>
      do ok <- (if (a =? b)%nat then BN_sqr alloc_ok t a tmp_rr tmp_t stack else BN_mul alloc_ok t a b tmp_rr tmp_t);
      if negb ok then r_ret false else BN_nnmod r t m T
  end.

Definition BN_mod_sqr (r a m : nat) (tmp_rr tmp : option nat) (stack : words) (T : div_temps) : prog bool :=
  do ok <- BN_sqr alloc_ok r a tmp_rr tmp stack;
  if negb ok then r_ret false else BN_mod r r m T.

Definition BN_mod_lshift1 (r a m : nat) (T : div_temps) : prog bool :=
  do ok <- BN_lshift1 alloc_ok r a;
  if negb ok then r_ret false else BN_nnmod r r m T.

(** * By a word *)

Definition BN_div_word (a : nat) (w : Z) : prog Z :=
  if w =? 0 then r_ret BN_MASK2
  else
    do A <- r_load a;
    if (width A =? 0)%nat then r_ret 0
    else
      let j := 64 - BN_num_bits_word w in
      let w := u64 (Z.shiftl w j) in
      do ok <- BN_lshift alloc_ok a a j;
      if negb ok then r_ret BN_MASK2
      else
        do A <- r_load a;
        do ws <- read_words a 0 (width A);
        let '(qs, ret) := div_word_loop ws w in
        do_ put_words a 0 qs;
        do_ bn_set_minimal_width a;
        r_ret (Z.shiftr ret j).

Definition BN_mod_word (a : BIGNUM) (w : Z) : Z :=
  if w =? 0 then BN_MASK2 else u64 (mod_word_loop (limbs a) w).

(** * Modulo a power of two *)

Definition mask_top (ws : words) (e : Z) : words :=
  let top := (length ws - 1)%nat in
  if negb (e mod 64 =? 0) then store ws top [Z.land (ws !!! top) (Z.shiftl 1 (e mod 64) - 1)] else ws.

Definition BN_mod_pow2 (r a : nat) (e : Z) : prog bool :=
  do A <- r_load a;
  if (e =? 0) || (width A =? 0)%nat then do_ BN_zero r; r_ret true
  else
    let num_words := Z.to_nat (1 + (e - 1) / 64) in
    if (width A <? num_words)%nat then BN_copy alloc_ok r a
    else
      do ok <- bn_wexpand alloc_ok r num_words;
      if negb ok then r_ret false
      else
        do ws <- read_words a 0 num_words;
        do_ put_words r 0 (mask_top ws e);
        do A <- r_load a;
        do_ r_modify r (fun R => set_width num_words (set_neg (neg A) R));
        do_ bn_set_minimal_width r;
        r_ret true.

(** [one] is the object [BN_value_one] returns. *)
Definition BN_nnmod_pow2 (r a : nat) (e : Z) (one : nat) : prog bool :=
  do ok <- BN_mod_pow2 r a e;
  if negb ok then r_ret false
  else
    do R <- r_load r;
    if BN_is_zero R || negb (neg R) then r_ret true
    else
      let num_words := Z.to_nat (1 + (e - 1) / 64) in
      do ok <- bn_wexpand alloc_ok r num_words;
      if negb ok then r_ret false
      else
        do_ put_words r (width R) (replicate (num_words - width R) 0);
        do_ r_modify r (fun R => set_width num_words (set_neg false R));
        do ws <- read_words r 0 num_words;
        do_ put_words r 0 (mask_top (map (wnot 64) ws) e);
        do_ bn_set_minimal_width r;
        BN_add alloc_ok r r one.
End Ops.
End BnDiv.
