(* ===== verification/BnDivSpec.v ===== *)
(** [BN_div] and [BN_nnmod] are exact: quotient and remainder of the integers the objects stand for,
    rounding towards zero, whichever of the operands the results are; they fail for a zero divisor
    and for want of memory only. *)

From S2P Require Import Prelude Internal Store Modes BnWords Bn BnAdd BnShift BnMulWords BnMul BnDivWords BnDiv.

Open Scope Z_scope.

Module BnDivSpec.
Import Internal Modes BnWords Bn BnAdd BnShift BnMulWords BnMul BnDivWords BnDiv.
Open Scope c_scope.

(** * Objects only grow *)

(** Every object stays, with at least as many words, and keeps its flag. *)
Definition mono (h h' : gmap nat BIGNUM) : Prop :=
  forall i X, h !! i = Some X -> exists X', h' !! i = Some X' /\ static_data X' = static_data X /\ (length (d X) <= length (d X'))%nat.

#[export] Instance mono_preorder : PreOrder mono.
Proof.
  split; [by intros h i X HX; exists X |]. intros h1 h2 h3 H12 H23 i X HX. destruct (H12 i X HX) as (X2 & H2 & E2 & L2). destruct (H23 i X2 H2) as (X3 & H3 & E3 & L3).
  exists X3. split_and!; [done | congruence | lia].
Qed.

Definition growing {A} (p : prog A) : Prop := forall h x h', p h = Some (x, h') -> mono h h'.

Lemma growing_ret {A} (x : A) : growing (r_ret x).
Proof. intros h y h' [= <- <-]. reflexivity. Qed.

Lemma growing_bind {A B} (p : prog A) (f : A -> prog B) : growing p -> (forall x, growing (f x)) -> growing (r_bind p f).
Proof.
  intros Hp Hf h y h' E. unfold r_bind in E. destruct (p h) as [[x h1] |] eqn:E1; [| done]. transitivity h1; [by apply (Hp _ x) | by apply (Hf x _ y)].
Qed.

Lemma growing_load i : growing (r_load i).
Proof. intros h y h' E. unfold r_load in E. destruct (h !! i); [| done]. injection E as <- <-. reflexivity. Qed.

Lemma mono_insert h i X X' :
  h !! i = Some X -> static_data X' = static_data X -> (length (d X) <= length (d X'))%nat -> mono h (<[i := X']> h).
Proof.
  intros HX Es Hl k Y HY. destruct (decide (k = i)) as [-> | Hne]; [| exists Y; by rewrite lookup_insert_ne by done].
  assert (Y = X) as -> by congruence. exists X'. by rewrite lookup_insert_eq.
Qed.

Lemma growing_modify i f : (forall X, static_data (f X) = static_data X /\ (length (d X) <= length (d (f X)))%nat) -> growing (r_modify i f).
Proof.
  intros Hf h y h' E. unfold r_modify in E. destruct (h !! i) as [X |] eqn:HX; [| done]. injection E as <- <-. destruct (Hf X). by apply (mono_insert _ _ X).
Qed.

Lemma growing_assert b : growing (r_assert b).
Proof. destruct b; [apply growing_ret | done]. Qed.

Lemma growing_undefined {A} : growing (r_undefined : prog A).
Proof. done. Qed.

Lemma growing_some {A} (x : option A) : growing (r_some x).
Proof. destruct x; [apply growing_ret | done]. Qed.

Lemma growing_read i off n : growing (read_words i off n).
Proof. apply growing_bind; [apply growing_load |]. intros X. apply growing_bind; [apply growing_assert |]. intros _. apply growing_ret. Qed.

Lemma growing_put i off ws : growing (put_words i off ws).
Proof.
  intros h x h' E. unfold put_words in E. unfold r_bind in E. unfold r_load in E. destruct (h !! i) as [X |] eqn:HX; [| done].
  destruct (Nat.leb_spec (off + length ws) (length (d X))) as [Hl | Hl]; [| done]. cbn in E. unfold r_modify in E. rewrite HX in E. injection E as <- <-.
  apply (mono_insert _ _ X); [done | done |]. cbn [d set_d]. by rewrite length_overwrite.
Qed.

Lemma bind_assoc {A B C} (p : prog A) (f : A -> prog B) (g : B -> prog C) h : r_bind (r_bind p f) g h = r_bind p (fun x => r_bind (f x) g) h.
Proof. unfold r_bind. destruct (p h) as [[x h'] |]; done. Qed.

Create HintDb grow_db.
#[export] Hint Resolve growing_ret growing_bind growing_load growing_assert growing_undefined growing_some growing_read growing_put : grow_db.

(** Opens a program, one step at a time. *)
Ltac grow :=
  repeat first
    [ progress auto with grow_db
    | apply growing_bind; [| intros ?]
    | apply growing_modify; intros ?; cbv beta; try match goal with |- context [if ?b then _ else _] => destruct b end; (split; [done | cbn; lia])
    | match goal with
      | |- growing (if ?b then _ else _) => destruct b
      | |- growing (match ?x with _ => _ end) => destruct x
      | |- growing (let '(_, _) := ?x in _) => destruct x
      end ].

Lemma growing_minimal i : growing (bn_set_minimal_width i).
Proof. apply growing_modify. intros X. cbv zeta. by destruct (_ =? 0)%nat. Qed.
#[export] Hint Resolve growing_minimal : grow_db.

Section Growing.
Context (alloc_ok : nat -> bool).

Lemma growing_wexpand i n : growing (bn_wexpand alloc_ok i n).
Proof.
  intros h x h' E. unfold bn_wexpand, r_bind in E. unfold r_load at 1 in E. destruct (h !! i) as [X |] eqn:HX; [| done].
  destruct (Nat.leb_spec n (length (d X))) as [Hl | Hl]; [injection E as <- <-; reflexivity |].
  destruct (Z.of_nat n >? BN_MAX_WORDS); [injection E as <- <-; reflexivity |]. destruct (static_data X) eqn:Es; [injection E as <- <-; reflexivity |].
  destruct (alloc_ok n); cbn [negb] in E; [| injection E as <- <-; reflexivity]. rewrite (modify_eq i _ X h HX) in E. injection E as <- <-.
  apply (mono_insert _ _ X); [done | done |]. unfold limbs. cbn [d set_d]. rewrite length_app, length_take, length_replicate. lia.
Qed.
#[local] Hint Resolve growing_wexpand : grow_db.

Lemma growing_copy r a : growing (BN_copy alloc_ok r a).
Proof. unfold BN_copy. grow. Qed.

Lemma growing_lshift r a n : growing (BN_lshift alloc_ok r a n).
Proof.
  assert (forall nw i, growing (lshift_move r a nw i)) as H1 by (intros nw i; induction i; cbn [lshift_move]; unfold read_word; grow).
  assert (forall nw lb i, growing (lshift_bits r a nw lb i)) as H2 by (intros nw lb i; induction i; cbn [lshift_bits]; unfold read_word; grow).
  unfold BN_lshift. grow.
Qed.

Lemma growing_rshift r a n : growing (BN_rshift alloc_ok r a n).
Proof. unfold BN_rshift, rshift_with. grow. Qed.
#[local] Hint Resolve growing_copy growing_lshift growing_rshift : grow_db.

Lemma growing_normalise r a n : growing (normalise alloc_ok r a n).
Proof. unfold normalise. grow. Qed.

Lemma growing_pad n v : growing (pad_numerator alloc_ok n v).
Proof. unfold pad_numerator. grow. Qed.
End Growing.

(** * The pieces of [BN_div] *)

(** Two addresses. *)
Definition apart (i j : nat) : Prop := i <> j.

(** What an address holds after some updates. *)
Ltac look := rewrite ?lookup_insert_ne by (unfold apart in *; congruence); first [apply lookup_insert_eq | eassumption].

Section Pieces.
Context (alloc_ok : nat -> bool).
Local Abbreviation room := (room alloc_ok).

Lemma normalise_spec h x a X A n :
  h !! x = Some X -> h !! a = Some A -> wf X -> wf A -> 0 <= n ->
  exists ok X', normalise alloc_ok x a n h = Some (ok, <[x := X']> h) /\ wf X' /\
    (ok = true -> mag X' = mag A * 2 ^ n /\ canonical X' /\ neg X' = false) /\
    ((forall k, (k <= width A + Z.to_nat (n / 64) + 1)%nat -> room X k = true) -> ok = true).
Proof.
  intros Hx Ha HX HA Hn. unfold normalise. destruct (lshift_outcome alloc_ok h x a X A n Hx Ha HX HA Hn) as (ok & h' & E & H & Hok).
  erewrite bind_eq by exact E. destruct ok; cbn [negb]; [| destruct H as (X' & -> & HX'); by exists false, X'].
  destruct H as (Y & -> & HY & CY & VY). erewrite bind_eq by (apply set_minimal_width_eq, lookup_insert_eq). rewrite insert_insert_eq. erewrite bind_eq by apply modify_cell.
  destruct (minimized_spec Y HY) as (H1 & H2 & [H3 _] & _). eexists true, _. split; [done |]. split_and!; [by apply wf_set_neg | | done]. intros _.
  split_and!; [| by split | done]. change (mag (set_neg false (minimized Y))) with (mag (minimized Y)). rewrite H2.
  pose proof (mag_nonneg A HA). pose proof (mag_nonneg Y HY). assert (0 < 2 ^ n) by (apply Z.pow_pos_nonneg; lia). unfold val in VY. destruct (neg Y), (neg A); nia.
Qed.

Lemma pad_numerator_spec h snum sdiv N V :
  h !! snum = Some N -> h !! sdiv = Some V -> wf N -> wf V -> let w := Nat.max (width V + 2) (width N + 1) in
  exists ok N', pad_numerator alloc_ok snum sdiv h = Some (ok, <[snum := N']> h) /\ wf N' /\
    (ok = true -> limbs N' = limbs N ++ replicate (w - width N) 0 /\ width N' = w /\ neg N' = neg N) /\ (room N w = true -> ok = true).
Proof.
  intros Hn Hv HN HV w.
  enough (forall ws, length ws = (w - width N)%nat -> ws = replicate (w - width N) 0 ->
    exists ok N', (do ok <- bn_wexpand alloc_ok snum w;
      if negb ok then r_ret false else do_ put_words snum (width N) ws; do_ r_modify snum (set_width w); r_ret true) h = Some (ok, <[snum := N']> h) /\ wf N' /\
      (ok = true -> limbs N' = limbs N ++ replicate (w - width N) 0 /\ width N' = w /\ neg N' = neg N) /\ (room N w = true -> ok = true)) as Hgen.
  { unfold pad_numerator. erewrite bind_eq by (by apply load_eq). erewrite bind_eq by (by apply load_eq). destruct (Nat.leb_spec (width N) (width V + 1)) as [Hle | Hgt].
    - assert (w = width V + 2)%nat as Ew by (unfold w; lia). rewrite <- Ew. apply Hgen; [by rewrite length_replicate | done].
    - assert (w = width N + 1)%nat as Ew by (unfold w; lia). rewrite <- Ew. apply Hgen; rewrite Ew; rewrite (Nat.add_comm (width N)), Nat.add_sub; done. }
  intros ws Lws Ews. erewrite bind_eq by (by apply wexpand_eq). destruct (room N w) eqn:Hroom; cbn [negb]; [| exists false, N; by rewrite insert_id].
  destruct (expanded_spec N w HN Hroom) as (HE & LE & Ll & Lw & Ln). set (E := expanded N w) in *. assert (width N <= w)%nat by (unfold w; lia).
  erewrite bind_eq by (apply put_eq; [by rewrite lookup_insert_eq | lia]). rewrite insert_insert_eq. erewrite bind_eq by apply modify_cell.
  eexists true, _. split; [done |]. destruct HE as [HEd HEw HEm]. assert (length (overwrite (d E) (width N) ws) = length (d E)) as Lo by (apply length_overwrite; lia).
  split_and!; [constructor; cbn [d width set_width set_d]; [| lia | lia] | | done].
  - unfold overwrite. rewrite !words_ok_app. split_and!; [auto with word_db | rewrite Ews; apply words_ok_zeros | auto with word_db].
  - intros _. split_and!; [| done | done]. unfold limbs at 1. cbn [d width set_width set_d]. unfold overwrite. rewrite app_assoc, take_app_length' by (rewrite length_app, length_take; lia).
    rewrite <- Ews. f_equal. rewrite <- Ll. unfold limbs. by rewrite Lw.
Qed.

(** The top word of a divisor shifted up to a whole number of words. *)
Lemma top_normalised V m :
  wf V -> canonical V -> (0 < m)%nat -> 2 ^ (64 * Z.of_nat m - 1) <= mag V < 2 ^ (64 * Z.of_nat m) ->
  width V = m /\ 2 ^ 63 <= d V !!! (m - 1)%nat.
Proof.
  intros HV [HC _] Hm Hmag. pose proof (length_limbs V HV) as LV. pose proof (limbs_ok V HV) as OV. assert (0 < 2 ^ (64 * Z.of_nat m - 1)) by (apply Z.pow_pos_nonneg; lia).
  assert (width V <> 0%nat) as HW. { intros E. unfold mag, limbs in Hmag. rewrite E, take_0 in Hmag. cbn in Hmag. lia. }
  destruct HC as [? | HC]; [done |]. destruct (split_last (limbs V) (width V - 1) ltac:(lia)) as (lo & t & El & Ll).
  assert (d V !!! (width V - 1)%nat = t) as Et by (rewrite <- (lookup_total_take_lt (d V) (width V)) by lia; fold (limbs V); rewrite El; by apply lookup_end).
  rewrite Et in HC. rewrite El in OV. apply words_ok_snoc in OV as [Olo Ht]. unfold mag in Hmag. rewrite El, value_snoc, Ll in Hmag.
  pose proof (value_bound lo Olo) as Blo. pose proof (value_nonneg lo Olo). rewrite Ll in Blo. unfold fits in Ht. set (w := (width V - 1)%nat) in *.
  assert (width V = m) as Ew.
  { assert (64 * Z.of_nat w < 64 * Z.of_nat m). { apply (Z.pow_lt_mono_r_iff 2); [lia | lia |]. assert (0 < 2 ^ (64 * Z.of_nat w)) by (apply Z.pow_pos_nonneg; lia). nia. }
    assert (64 * Z.of_nat m - 1 < 64 * Z.of_nat (S w)). { apply (Z.pow_lt_mono_r_iff 2); [lia | lia |]. rewrite pow_words_S. nia. } lia. }
  split; [done |]. rewrite <- Ew. fold w. rewrite Et. replace (64 * Z.of_nat m - 1) with (63 + 64 * Z.of_nat w) in Hmag by lia. rewrite Z.pow_add_r in Hmag by lia.
  set (P := 2 ^ (64 * Z.of_nat w)) in *. nia.
Qed.

Section Main.
Context (h : gmap nat BIGNUM) (numerator divisor tmp snum sdiv res : nat) (A B T N V R : BIGNUM).
Context (HhA : h !! numerator = Some A) (HhB : h !! divisor = Some B) (HhT : h !! tmp = Some T) (HhN : h !! snum = Some N) (HhV : h !! sdiv = Some V) (HhR : h !! res = Some R).
Context (HT : wf T) (HN : wf N) (HV : wf V) (HR : wf R).
Context (Nts : apart tmp snum) (Ntr : apart tmp res) (Nsr : apart snum res) (Nvs : apart sdiv snum) (Nvt : apart sdiv tmp) (Nvr : apart sdiv res).

Let n : nat := width V.
Let loop : nat := (width N - n)%nat.

(** The main loop leaves the quotient in [res] and the remainder above the lowest word of [snum]. *)
Lemma div_main_spec lo z y :
  (0 < n)%nat -> 2 ^ 63 <= d V !!! (n - 1)%nat -> (n + 2 <= width N)%nat -> limbs N = y :: lo -> lo = z ++ [0] ->
  exists x N' T' R', div_main alloc_ok numerator divisor tmp snum sdiv res h = Some (x, <[res := R']> (<[tmp := T']> (<[snum := N']> h))) /\
    wf N' /\ wf T' /\ wf R' /\
    (forall b, x = Some b -> b = neg A /\ exists M, limbs N' = y :: M /\ value M < mag V /\ 0 <= value M /\ value lo = mag R' * mag V + value M /\
       neg N' = neg N /\ neg R' = xorb (neg A) (neg B) /\ width N' = width N) /\
    (room R (loop + 1) = true -> room T (n + 1) = true -> x <> None).
Proof.
  intros Hn Htop Hw EN Elo. pose proof (length_limbs N HN) as LN. pose proof (length_limbs V HV) as LV. fold n in LV.
  unfold div_main. erewrite bind_eq by (by apply load_eq). erewrite bind_eq by (by apply load_eq). erewrite bind_eq by (by apply load_eq). erewrite bind_eq by (by apply load_eq).
  fold n. fold loop. erewrite bind_eq by (by apply modify_eq). set (sg := xorb (neg A) (neg B)). set (R0 := set_neg sg R).
  erewrite bind_eq by (apply wexpand_eq; by rewrite lookup_insert_eq). change (room R0 (loop + 1)) with (room R (loop + 1)).
  destruct (room R (loop + 1)) eqn:Hroom; cbn [negb].
  2: { exists None, N, T, R0. rewrite (insert_id h snum), (insert_id h tmp) by done. split_and!; (done || by apply wf_set_neg). }
  rewrite insert_insert_eq. destruct (expanded_spec R0 (loop + 1) (wf_set_neg R sg HR) Hroom) as (HE & LE & _ & _ & NE). set (E := expanded R0 (loop + 1)) in *.
  erewrite bind_eq by apply modify_cell. set (R1 := set_width (loop - 1) E). assert (wf R1) as HR1 by (apply wf_set_width; [done | lia]).
  erewrite bind_eq by (apply wexpand_eq; by rewrite lookup_insert_ne by done). destruct (room T (n + 1)) eqn:HroomT; cbn [negb].
  2: { exists None, N, T, R1. rewrite (insert_id h snum), (insert_id h tmp) by done. split_and!; done. }
  destruct (expanded_spec T (n + 1) HT HroomT) as (HTE & LTE & _). set (TE := expanded T (n + 1)) in *.
  erewrite bind_eq by (apply modify_eq; rewrite lookup_insert_ne by done; by rewrite lookup_insert_eq).
  cbv beta. assert ((if (width R1 =? 0)%nat then set_neg false R1 else R1) = R1) as -> by (rewrite (proj2 (Nat.eqb_neq _ _)); [done | cbn [width R1 set_width]; unfold loop; lia]).
  erewrite bind_eq by (apply load_eq; rewrite lookup_insert_ne by done; by rewrite lookup_insert_eq). erewrite bind_eq by (apply load_eq; by rewrite lookup_insert_eq).
  destruct (split_at (loop - 1) lo ltac:(rewrite EN in LN; cbn in LN; unfold loop; lia)) as (lo1 & W & Es & Ll1 & _ & _).
  assert (length W = n) as LW. { rewrite EN in LN. cbn in LN. rewrite Es, length_app in LN. unfold loop in *. lia. }
  pose proof (limbs_ok N HN) as ON. rewrite EN, Es in ON. apply words_ok_cons in ON as [Hy [Hlo1 HW]%words_ok_app].
  assert (value W < mag V) as HWV.
  { destruct (split_last W (n - 1) ltac:(lia)) as (W1 & w & -> & LW1). assert (w = 0) as -> by (rewrite Es, app_assoc in Elo; apply app_inj_tail in Elo as [_ Ew]; exact Ew).
    apply words_ok_snoc in HW as [HW1 _]. rewrite value_snoc. pose proof (value_bound W1 HW1) as BW. rewrite LW1 in BW.
    assert (2 ^ 63 * 2 ^ (64 * Z.of_nat (length (limbs V) - 1)) <= value (limbs V)) as HL.
    { apply (divisor_large (limbs V) (d V !!! (n - 1)%nat)); [by apply limbs_ok | lia | | done]. rewrite LV. symmetry. apply lookup_total_take_lt. fold n. lia. }
    rewrite LV in HL. unfold mag. nia. }
  destruct (div_loop_spec (limbs V) (d V !!! (n - 1)%nat) (if (n =? 1)%nat then 0 else d V !!! (n - 2)%nat)) with (k := (loop - 1)%nat) (y := y) (lo := lo1) (V := W) (m := 0%nat) (tmp := d TE) (res := d R1)
    as (M & ts & Q & El & LM & HM & BM & LQ & HQ & Lts & Hts & Etot); rewrite ?LV; try done; try lia; [by apply limbs_ok | | | cbn [d R1 set_width]; lia |].
  { symmetry. apply lookup_total_take_lt. fold n. lia. }
  { destruct (Nat.eqb_spec n 1); [done |]. symmetry. apply lookup_total_take_lt. fold n. lia. }
  cbn [replicate] in El. rewrite app_nil_r in El. rewrite EN, Es.
  change ((y :: lo1) ++ W) with (y :: lo1 ++ W) in El. 
  rewrite (bind_some _ _ _ _ El). rewrite Nat.add_0_r. set (ns := y :: M ++ replicate (loop - 1) 0).
  assert (length ns = width N) as Lns by (unfold ns; cbn [length]; rewrite length_app, length_replicate; unfold loop in *; lia).
  assert (length (Q ++ drop (loop - 1) (d R1)) = length (d R1)) as LQ' by (rewrite length_app, length_drop; cbn [d R1 set_width]; lia).
  rewrite (insert_insert_ne _ tmp res), insert_insert_eq by done. destruct HN as [HNd HNw HNm]. destruct HTE as [HTd HTw HTm].
  erewrite bind_eq by (apply put_eq; [rewrite !lookup_insert_ne by congruence; exact HhN | lia]).
  erewrite bind_eq by (apply put_eq; [rewrite !lookup_insert_ne by congruence; apply lookup_insert_eq | lia]).
  erewrite bind_eq by (apply put_eq; [rewrite !lookup_insert_ne by congruence; apply lookup_insert_eq | lia]).
  rewrite (insert_insert_ne _ snum res), (insert_insert_ne _ snum tmp), (insert_insert_ne _ tmp res), !insert_insert_eq by congruence.
  assert (words_ok ns) as Hns by (apply words_ok_cons; split; [done | apply words_ok_app; split; [done | apply words_ok_zeros]]).
  destruct (put_value N ns) as (HN' & TN & _); [done | lia | done |]. destruct (put_value TE ts) as (HT' & _); [done | lia | by apply Hts |].
  destruct (put_value R1 (Q ++ drop (loop - 1) (d R1))) as (HR' & TR & _); [done | lia | apply words_ok_app; split; [done | apply words_ok_drop; by destruct HR1] |].
  eexists (Some (neg A)), _, _, _. split; [done |]. split_and!; [exact HN' | exact HT' | exact HR' | | done]. intros b [= <-]. split; [done |].
  exists (M ++ replicate (loop - 1) 0). rewrite value_app, value_zeros, Z.mul_0_r, Z.add_0_r.
  split_and!; [unfold limbs; cbn [width set_d]; by rewrite <- Lns, TN | exact BM | by apply value_nonneg | | done | exact NE | done].
  rewrite Etot. f_equal. f_equal. unfold mag, limbs. cbn [width set_d R1 set_width d]. rewrite overwrite_all by exact LQ'. by rewrite <- LQ, take_app_length.
Qed.
End Main.

Lemma room_mono X X' k : static_data X' = static_data X -> (length (d X) <= length (d X'))%nat -> room X k = true -> room X' k = true.
Proof.
  unfold Bn.room. intros -> Hl. rewrite !orb_true_iff, !Nat.leb_le. intros [H | H]; [left; lia | by right].
Qed.

Lemma canonical_width X m : wf X -> canonical X -> mag X < 2 ^ (64 * Z.of_nat m) -> (width X <= m)%nat.
Proof.
  intros HX [[E | HC] _] Hm; [lia |]. apply Nat.nlt_ge. intros Hlt. pose proof (length_limbs X HX) as LX. pose proof (limbs_ok X HX) as OX.
  destruct (split_last (limbs X) (width X - 1) ltac:(lia)) as (lo & t & El & Ll).
  rewrite <- (lookup_total_take_lt (d X) (width X)) in HC by lia. fold (limbs X) in HC. rewrite El, lookup_end in HC by done.
  rewrite El in OX. apply words_ok_snoc in OX as [Olo Ht]. unfold mag in Hm. rewrite El, value_snoc, Ll in Hm. pose proof (value_nonneg lo Olo). unfold fits in Ht.
  assert (2 ^ (64 * Z.of_nat m) <= 2 ^ (64 * Z.of_nat (width X - 1))) by (apply Z.pow_le_mono_r; lia). nia.
Qed.

Lemma top_is_zero_false X : wf X -> top_is_zero X = false.
Proof.
  intros [_ Hw _]. unfold top_is_zero, bn_minimal_width. destruct (minimal_width_spec (d X) (width X) Hw) as (_ & _ & H3). cbv zeta.
  destruct (Nat.ltb_spec 0 (minimal_width_loop (d X) (width X))); [| done]. apply Z.eqb_neq. destruct H3; [lia | done].
Qed.

(** The shift of the divisor. *)
Lemma norm_shift_spec B :
  wf B -> mag B <> 0 -> let s := 64 - BN_num_bits B mod 64 in
  0 < s <= 64 /\ exists m, (0 < m <= width B + 1)%nat /\ 2 ^ (64 * Z.of_nat m - 1) <= mag B * 2 ^ s < 2 ^ (64 * Z.of_nat m).
Proof.
  intros HB Hz s. unfold s. rewrite num_bits_spec by done. unfold bit_length. rewrite (proj2 (Z.eqb_neq _ 0)) by done. pose proof (mag_nonneg B HB).
  pose proof (Z.log2_spec (mag B) ltac:(lia)) as [Hlo Hhi]. pose proof (Z.log2_nonneg (mag B)). set (L := Z.log2 (mag B)) in *.
  pose proof (Z.div_mod (L + 1) 64 ltac:(lia)) as EL. pose proof (Z.mod_pos_bound (L + 1) 64 ltac:(lia)). split; [lia |].
  assert (0 <= (L + 1) / 64) by (apply Z.div_pos; lia). exists (Z.to_nat ((L + 1) / 64) + 1)%nat.
  assert (64 * Z.of_nat (Z.to_nat ((L + 1) / 64) + 1) = Z.succ L + (64 - (L + 1) mod 64)) as -> by lia.
  replace (Z.succ L + (64 - (L + 1) mod 64) - 1) with (L + (64 - (L + 1) mod 64)) by lia. rewrite !Z.pow_add_r by lia.
  assert (0 < 2 ^ (64 - (L + 1) mod 64)) by (apply Z.pow_pos_nonneg; lia). split; [| split; [apply Z.mul_le_mono_nonneg_r; lia | apply Z.mul_lt_mono_pos_r; lia]].
  assert (L < 64 * Z.of_nat (width B)); [| lia]. apply (Z.pow_lt_mono_r_iff 2); [lia | lia |]. pose proof (mag_bound B HB). lia.
Qed.

(** Division of the shifted numbers. *)
Lemma shifted_division a b s q m :
  0 <= a -> 0 < b -> 0 <= s -> a * 2 ^ s = q * (b * 2 ^ s) + m -> 0 <= m < b * 2 ^ s -> q = a / b /\ m = a mod b * 2 ^ s.
Proof.
  intros Ha Hb Hs E Hm. assert (0 < 2 ^ s) by (apply Z.pow_pos_nonneg; lia). assert (q = a / b) as Eq.
  { rewrite <- (Z.div_mul_cancel_r a b (2 ^ s)) by lia. apply (Z.div_unique_pos _ _ _ m); lia. }
  split; [done |]. pose proof (Z.div_mod a b ltac:(lia)). rewrite <- Eq in *. assert (a mod b = a - b * q) as -> by lia. lia.
Qed.

Lemma shifted_bound a w s : 0 <= a < 2 ^ (64 * Z.of_nat w) -> 0 < s <= 64 -> a * 2 ^ (s + 64) < 2 ^ (64 * Z.of_nat (w + 2)).
Proof.
  intros Ha Hs. replace (64 * Z.of_nat (w + 2)) with (64 * Z.of_nat w + 128) by lia. rewrite (Z.pow_add_r 2 _ 128) by lia.
  assert (2 ^ (s + 64) <= 2 ^ 128) by (apply Z.pow_le_mono_r; lia). assert (0 < 2 ^ (s + 64)) by (apply Z.pow_pos_nonneg; lia). nia.
Qed.

(** The room of an object that has grown. *)
Lemma mono_room h h' i X X' k : mono h h' -> h !! i = Some X -> h' !! i = Some X' -> room X k = true -> room X' k = true.
Proof. intros Hm HX HX' Hr. destruct (Hm i X HX) as (Y & HY & Es & Hl). assert (Y = X') as -> by congruence. by apply (room_mono X). Qed.

Section Core.
Context (h : gmap nat BIGNUM) (numerator divisor tmp snum sdiv res : nat) (A B T N V R : BIGNUM).
Context (HhA : h !! numerator = Some A) (HhB : h !! divisor = Some B) (HhT : h !! tmp = Some T) (HhN : h !! snum = Some N) (HhV : h !! sdiv = Some V) (HhR : h !! res = Some R).
Context (HA : wf A) (HB : wf B) (HT : wf T) (HN : wf N) (HV : wf V) (HR : wf R).
Context (Nts : apart tmp snum) (Ntr : apart tmp res) (Nsr : apart snum res) (Nvs : apart sdiv snum) (Nvt : apart sdiv tmp) (Nvr : apart sdiv res).
Context (Nas : apart numerator snum) (Nav : apart numerator sdiv) (Nbs : apart divisor snum) (Nbv : apart divisor sdiv).
Let s : Z := 64 - BN_num_bits B mod 64.
Let K : nat := (width A + width B + 4)%nat.

Lemma div_core_spec :
  mag B <> 0 ->
  exists x V' N' T' R', div_core alloc_ok numerator divisor tmp snum sdiv res s h = Some (x, <[res := R']> (<[tmp := T']> (<[snum := N']> (<[sdiv := V']> h)))) /\
    wf V' /\ wf N' /\ wf T' /\ wf R' /\
    (forall b, x = Some b -> b = neg A /\ mag R' = mag A / mag B /\ neg R' = xorb (neg A) (neg B) /\ mag N' = mag A mod mag B * 2 ^ (s + 64) /\ neg N' = false /\ (width N' <= K)%nat) /\
    ((forall k, (k <= K)%nat -> room V k = true /\ room N k = true /\ room T k = true /\ room R k = true) -> x <> None).
Proof.
  intros Hz. destruct (norm_shift_spec B HB Hz) as (Hs & m & Hm & Hnorm). fold s in Hs, Hnorm. clearbody s. unfold div_core.
  destruct (normalise_spec h sdiv divisor V B s HhV HhB HV HB ltac:(lia)) as (ok & V1 & E1 & HV1 & P1 & Ok1). erewrite bind_eq by exact E1.
  assert (Z.to_nat (s / 64) <= 1)%nat as Hs64 by (assert (s / 64 < 2) by (apply Z.div_lt_upper_bound; lia); lia).
  destruct ok; cbn [negb].
  2: { exists None, V1, N, T, R. rewrite (insert_id _ snum), (insert_id _ tmp), (insert_id _ res) by look.
       split_and!; try done. intros Hall. exfalso. enough (false = true) by done. apply Ok1. intros k Hk. apply Hall. unfold K. lia. }
  destruct (P1 eq_refl) as (M1 & C1 & Neg1). destruct (top_normalised V1 m HV1 C1 ltac:(lia) ltac:(by rewrite M1)) as (W1 & Top1). clear P1 Ok1.
  set (h1 := <[sdiv := V1]> h) in *. assert (h1 !! snum = Some N) as Hn1 by (unfold h1; look).
  assert (h1 !! numerator = Some A) as Ha1 by (unfold h1; look).
  destruct (normalise_spec h1 snum numerator N A (s + 64) Hn1 Ha1 HN HA ltac:(lia)) as (ok & N1 & E2 & HN1 & P2 & Ok2). erewrite bind_eq by exact E2.
  assert (Z.to_nat ((s + 64) / 64) <= 2)%nat as Hs64' by (assert ((s + 64) / 64 < 3) by (apply Z.div_lt_upper_bound; lia); lia).
  destruct ok; cbn [negb].
  2: { exists None, V1, N1, T, R. rewrite (insert_id _ tmp), (insert_id _ res) by (unfold h1; look).
       split_and!; try done. intros Hall. exfalso. enough (false = true) by done. apply Ok2. intros k Hk. apply Hall. unfold K. lia. }
  destruct (P2 eq_refl) as (M2 & C2 & Neg2). clear P2 Ok2. set (h2 := <[snum := N1]> h1) in *.
  destruct (pad_numerator_spec h2 snum sdiv N1 V1) as (ok & N2 & E3 & HN2 & P3 & Ok3); [unfold h2; look | unfold h2, h1; look | done | done |]. erewrite bind_eq by exact E3.
  pose proof (mag_nonneg A HA) as PA. pose proof (mag_nonneg B HB) as PB. pose proof (mag_bound A HA) as BA. pose proof (length_limbs N1 HN1) as LN1.
  assert (width N1 <= width A + 2)%nat as WN1.
  { apply (canonical_width N1); [done | done |]. rewrite M2. by apply shifted_bound. }
  set (w := Nat.max (width V1 + 2) (width N1 + 1)) in *. assert (w <= K - 1)%nat as Hw by (unfold w, K; lia).
  destruct ok; cbn [negb].
  2: { exists None, V1, N2, T, R. unfold h2. rewrite insert_insert_eq, (insert_id _ tmp), (insert_id _ res) by (unfold h1; look).
       split_and!; try done. intros Hall. exfalso. enough (false = true) by done. apply Ok3. apply (mono_room h1 h2 snum N); [by apply (growing_normalise alloc_ok snum numerator (s + 64) h1 true) | done | unfold h2; look |]. apply Hall. lia. }
  destruct (P3 eq_refl) as (L2 & W2 & Neg3). clear P3 Ok3. set (h3 := <[snum := N2]> h2) in *.
  assert (exists y lo z, limbs N2 = y :: lo /\ lo = z ++ [0] /\ value lo = mag A * 2 ^ s /\ y = 0) as (y & lo & z & E4 & E5 & Vlo & Ey).
  { assert (value (limbs N2) = mag A * 2 ^ s * 2 ^ 64) as Vn by (rewrite L2, value_app, value_zeros, Z.mul_0_r, Z.add_0_r; fold (mag N1); rewrite M2, Z.pow_add_r by lia; ring).
    pose proof (limbs_ok N2 HN2) as ON. destruct (limbs N2) as [| y lo] eqn:El; [apply (f_equal length) in L2; rewrite length_app, length_replicate in L2; cbn in L2; lia |].
    apply words_ok_cons in ON as [Hy Olo]. cbn [value] in Vn. unfold fits in Hy. assert (y = 0 /\ value lo = mag A * 2 ^ s) as [-> Vlo] by lia.
    replace (w - width N1)%nat with (S (w - width N1 - 1)) in L2 by (unfold w; lia). rewrite replicate_S_end, app_assoc in L2.
    destruct (limbs N1 ++ replicate (w - width N1 - 1) 0) as [| y' z] eqn:Ez.
    - apply (f_equal length) in Ez. rewrite length_app, length_replicate in Ez. cbn in Ez. unfold w in *. lia.
    - injection L2 as _ ->. by exists 0, (z ++ [0]), z. }
  destruct (div_main_spec h3 numerator divisor tmp snum sdiv res A B T N2 V1 R) with (lo := lo) (z := z) (y := y) as (x & N3 & T3 & R3 & E6 & HN3 & HT3 & HR3 & P6 & Ok6); try (unfold h3, h2, h1; look); try done.
  { rewrite W1. lia. } { by rewrite W1. } { rewrite W2. unfold w. lia. }
  rewrite E6. exists x, V1, N3, T3, R3. unfold h3, h2. rewrite !insert_insert_eq. split_and!; try done.
  - intros b Hb. destruct (P6 b Hb) as (-> & M & El & BM & NM & Etot & Neg4 & Neg5 & W3). rewrite Vlo, M1 in Etot. rewrite M1 in BM. destruct (shifted_division (mag A) (mag B) s (mag R3) (value M)) as (Eq & Em); try done; try lia.
    split_and!; [done | done | done | | congruence |].
    + unfold mag at 1. rewrite El, Ey. cbn [value]. rewrite Em, Z.pow_add_r by lia. ring.
    + lia.
  - intros Hall. apply Ok6; [apply Hall; unfold K in *; lia | apply Hall; unfold K; lia].
Qed.
End Core.
End Pieces.

(** * [BN_div] *)

Definition given (T : div_temps) : list nat := option_list (t_tmp T) ++ option_list (t_snum T) ++ option_list (t_sdiv T) ++ option_list (t_res T).

(** All of [l] are objects. *)
Definition objects (h : gmap nat BIGNUM) (l : list nat) : Prop := forall i, i ∈ l -> exists X, h !! i = Some X /\ wf X.

(** Only objects in [l] have changed, and they are still objects. *)
Definition touches (h h' : gmap nat BIGNUM) (l : list nat) : Prop := frame h h' l /\ objects h' l.

(** The temporaries are objects of their own, apart from those in [l]. *)
Record temps_ok (h : gmap nat BIGNUM) (T : div_temps) (l : list nat) : Prop := mk_temps_ok {
  temps_sticky : t_sdiv T <> None -> t_tmp T <> None /\ t_snum T <> None;
  temps_distinct : NoDup (given T);
  temps_objects : objects h (given T);
  temps_apart : forall i, i ∈ given T -> i ∉ l }.

Lemma touches_refl h l : objects h l -> touches h h l.
Proof. by split. Qed.

Lemma touches_insert h h' l i X : touches h h' l -> i ∈ l -> wf X -> touches h (<[i := X]> h') l.
Proof.
  intros [F O] Hi HX. split.
  - intros k Hk. rewrite lookup_insert_ne by (intros ->; done). by apply F.
  - intros k Hk. destruct (decide (k = i)) as [-> | Hne]; [exists X; by rewrite lookup_insert_eq |]. rewrite lookup_insert_ne by done. by apply O.
Qed.

Lemma touches_trans h h1 h2 l : touches h h1 l -> touches h1 h2 l -> touches h h2 l.
Proof. intros [F1 _] [F2 O2]. split; [by apply (frame_trans _ h1) | done]. Qed.

Lemma touches_more h h' l l' : touches h h' l -> l ⊆ l' -> objects h l' -> touches h h' l'.
Proof.
  intros [F O] Hl Ho. split; [intros i Hi; apply F; intros Hin; by apply Hi, Hl |]. intros i Hi. destruct (decide (i ∈ l)) as [Hin | Hin]; [by apply O |]. rewrite F by done. by apply Ho.
Qed.

Section Div.
Context (alloc_ok : nat -> bool).
Local Abbreviation room := (room alloc_ok).

(** Each object of [l] can be given up to [n] words. *)
Definition roomy (h : gmap nat BIGNUM) (l : list nat) (n : nat) : Prop := forall i X, i ∈ l -> h !! i = Some X -> forall k, (k <= n)%nat -> room X k = true.

Lemma roomy_mono h h' l n : mono h h' -> objects h l -> roomy h l n -> roomy h' l n.
Proof.
  intros Hm Ho Hr i X' Hi HX' k Hk. destruct (Ho i Hi) as (X & HX & _). apply (mono_room alloc_ok h h' i X); [done | done | done |]. by apply (Hr i X Hi HX).
Qed.

Lemma roomy_sub h l l' n n' : l' ⊆ l -> (n' <= n)%nat -> roomy h l n -> roomy h l' n'.
Proof. intros Hl Hn Hr i X Hi HX k Hk. apply (Hr i X); [by apply Hl | done | lia]. Qed.

#[local] Hint Resolve growing_wexpand growing_copy growing_lshift growing_rshift growing_normalise growing_pad : grow_db.

Lemma growing_core numerator divisor tmp snum sdiv res s : growing (div_core alloc_ok numerator divisor tmp snum sdiv res s).
Proof. unfold div_core, div_main. grow. Qed.

Lemma growing_div quotient rem numerator divisor T : growing (BN_div alloc_ok quotient rem numerator divisor T).
Proof. unfold BN_div, div_core, div_main. grow. Qed.

Lemma minimized_width X : wf X -> (width (minimized X) <= width X)%nat.
Proof.
  intros [_ Hw _]. unfold minimized, bn_minimal_width. destruct (minimal_width_spec (d X) (width X) Hw) as (H1 & _ & _). cbn [width set_width]. by destruct (_ =? 0)%nat.
Qed.

(** The end: the remainder is shifted back, and the quotient gets its minimal width. *)
Lemma div_finish h rem snum res N R sg sh :
  h !! snum = Some N -> h !! res = Some R -> objects h (option_list rem) -> wf N -> wf R -> (snum ∉ option_list rem) -> (res ∉ option_list rem) -> apart snum res -> neg N = false -> 0 <= sh ->
  exists ok h',
    (do_ bn_set_minimal_width snum;
     do ok <-
       (match rem with
        | None => r_ret true
        | Some rem =>
            do ok <- BN_rshift alloc_ok rem snum sh;
            if negb ok then r_ret false
            else
              do_ r_modify rem (fun R => if negb (BN_is_zero R) then set_neg sg R else R);
              r_ret true
        end);
     if negb ok then r_ret false
     else
       do_ bn_set_minimal_width res;
       r_ret true) h = Some (ok, h') /\ touches h h' (snum :: res :: option_list rem) /\
    (ok = true -> h' !! res = Some (minimized R) /\
       forall r, rem = Some r -> exists R', h' !! r = Some R' /\ wf R' /\ canonical R' /\ val R' = if sg then - (mag N / 2 ^ sh) else mag N / 2 ^ sh) /\
    (roomy h (option_list rem) (width N) -> ok = true).
Proof.
  intros Hn Hr Hrem HN HR Nsn Nsr Nn Neg Hsh. destruct (minimized_spec N HN) as (HM & MM & _). destruct (minimized_spec R HR) as (HRM & _). unfold apart in Nn.
  assert (objects h (snum :: res :: option_list rem)) as Ho.
  { intros i [-> | [-> | Hi]%elem_of_cons]%elem_of_cons; [by exists N | by exists R | by apply Hrem]. }
  erewrite bind_eq by (by apply set_minimal_width_eq). set (h1 := <[snum := minimized N]> h).
  assert (touches h h1 (snum :: res :: option_list rem)) as T1 by (apply touches_insert; [by apply touches_refl | apply list_elem_of_here | done]).
  destruct rem as [r |].
  2: { erewrite bind_eq by reflexivity. cbn [negb]. erewrite bind_eq by (apply set_minimal_width_eq; unfold h1; look). eexists true, _. split; [reflexivity |]. split_and!; [| | done].
       - apply touches_insert; [done | set_solver | done].
       - intros _. split; [apply lookup_insert_eq | done]. }
  cbn [option_list] in *. change (option_list (Some r)) with [r] in *. rewrite list_elem_of_singleton in Nsn, Nsr. destruct (Hrem r (list_elem_of_here _ _)) as (X & HX & HwX).
  assert (h1 !! r = Some X) as HX1 by (unfold h1; look). rewrite bind_assoc.
  destruct (rshift_outcome alloc_ok h1 r snum X (minimized N) sh) as (ok & h2 & E & P & Hok); [done | unfold h1; look | done | done | done |].
  erewrite bind_eq by exact E. destruct ok; cbn [negb].
  2: { erewrite bind_eq by reflexivity. cbn [negb]. eexists false, h2. split; [reflexivity |]. destruct P as (R' & -> & HR'). split_and!; [| done |].
       - apply touches_insert; [done | set_solver | done].
       - intros Hroom. apply Hok. intros k Hk. apply (Hroom r X (list_elem_of_here _ _) HX). pose proof (minimized_width N HN). lia. }
  destruct P as (R1 & -> & HR1 & C1 & V1). rewrite bind_assoc. erewrite bind_eq by apply modify_cell. erewrite bind_eq by reflexivity. cbn [negb].
  erewrite bind_eq by (apply set_minimal_width_eq; unfold h1; look). eexists true, _. split; [reflexivity |].
  set (R2 := if negb (BN_is_zero R1) then set_neg sg R1 else R1).
  assert (val (minimized N) = mag N) as VN by (rewrite minimized_val by done; unfold val; by rewrite Neg).
  pose proof (mag_nonneg N HN). assert (0 < 2 ^ sh) by (apply Z.pow_pos_nonneg; lia). rewrite VN, Z.quot_div_nonneg in V1 by lia. pose proof (mag_nonneg R1 HR1).
  assert (mag R1 = mag N / 2 ^ sh) as M1 by (unfold val in V1; pose proof (Z.div_pos (mag N) (2 ^ sh)); destruct (neg R1); lia).
  assert (wf R2 /\ canonical R2 /\ val R2 = if sg then - (mag N / 2 ^ sh) else mag N / 2 ^ sh) as (HR2 & CR2 & VR2).
  { unfold R2. destruct (BN_is_zero R1) eqn:Ez; cbn [negb].
    - apply is_zero_spec in Ez; [| done]. rewrite <- M1, Ez. split_and!; [done | done |]. unfold val. rewrite Ez. by destruct (neg R1), sg.
    - assert (mag R1 <> 0) by (intros E0; apply is_zero_spec in E0; [congruence | done]). split_and!; [by apply wf_set_neg | by apply canonical_set_neg |]. rewrite val_set_neg, M1. done. }
  split_and!; [| | done].
  - apply touches_insert; [| set_solver | done]. apply touches_insert; [done | set_solver | done].
  - intros _. split; [apply lookup_insert_eq |]. intros r' [= <-]. exists R2. split_and!; [unfold h1; look | done | done | done].
Qed.

Lemma signed_quot_rem A B :
  wf A -> wf B -> mag B <> 0 ->
  (if xorb (neg A) (neg B) then - (mag A / mag B) else mag A / mag B) = Z.quot (val A) (val B) /\
  (if neg A then - (mag A mod mag B) else mag A mod mag B) = Z.rem (val A) (val B).
Proof.
  intros HA HB Hz. pose proof (mag_nonneg A HA). pose proof (mag_nonneg B HB). unfold val.
  destruct (neg A), (neg B); cbn [xorb]; rewrite ?Z.quot_opp_opp, ?Z.quot_opp_l, ?Z.quot_opp_r, ?Z.rem_opp_opp, ?Z.rem_opp_l, ?Z.rem_opp_r by lia;
    by rewrite Z.quot_div_nonneg, Z.rem_mod_nonneg by lia.
Qed.

Section DivSpec.
Context (h : gmap nat BIGNUM) (quotient rem : option nat) (numerator divisor : nat) (T : div_temps) (A B : BIGNUM).
Let outs : list nat := option_list quotient ++ option_list rem.
Context (HhA : h !! numerator = Some A) (HhB : h !! divisor = Some B) (HA : wf A) (HB : wf B) (Houts : objects h outs) (Hdist : NoDup outs)
  (HT : temps_ok h T (numerator :: divisor :: outs)).

(** The objects [BN_div] works on. *)
Lemma div_objects sdiv res :
  t_sdiv T = Some sdiv -> (match quotient with None => t_res T | Some q => Some q end) = Some res ->
  exists tmp snum, t_tmp T = Some tmp /\ t_snum T = Some snum /\ NoDup [tmp; snum; sdiv; res] /\
    (forall i, i ∈ [tmp; snum; sdiv] -> apart numerator i /\ apart divisor i) /\ (forall i, i ∈ [tmp; snum; sdiv; res] -> (i ∉ option_list rem) /\ i ∈ outs ++ given T) /\
    objects h [tmp; snum; sdiv; res].
Proof.
  intros Es Er. destruct HT as [Hst Hd Ho Ha]. destruct Hst as [Ht Hsn]; [congruence |]. destruct (t_tmp T) as [tmp |] eqn:Et; [| done]. destruct (t_snum T) as [snum |] eqn:En; [| done].
  assert (given T = tmp :: snum :: sdiv :: option_list (t_res T)) as Eg by (unfold given; by rewrite Et, En, Es). rewrite Eg in Hd, Ho, Ha |- *.
  assert (forall i, i ∈ [tmp; snum; sdiv] -> i ∈ tmp :: snum :: sdiv :: option_list (t_res T)) as Hin by set_solver.
  assert (res ∈ outs ++ tmp :: snum :: sdiv :: option_list (t_res T) /\ (res ∉ option_list rem) /\ (res ∉ [tmp; snum; sdiv]) /\ exists X, h !! res = Some X /\ wf X) as (R1 & R2 & R3 & R4).
  { destruct quotient as [q |]; cbn in Er.
    - injection Er as ->. unfold outs in *. change (option_list (Some res)) with [res] in *. apply NoDup_app in Hdist as (_ & Hd2 & _). split_and!; [set_solver | by apply Hd2, list_elem_of_here | | apply Houts; set_solver].
      intros Hi. apply (Ha res (Hin _ Hi)). set_solver.
    - rewrite Er in *. change (option_list (Some res)) with [res] in *. split_and!; [set_solver | intros Hi; apply (Ha res); [set_solver | unfold outs; set_solver] | | apply Ho; set_solver].
      apply NoDup_app with (l := [tmp; snum; sdiv]) (k := [res]) in Hd as (_ & Hd2 & _). intros Hi. apply (Hd2 res Hi). set_solver. }
  exists tmp, snum. split_and!; try done.
  - change [tmp; snum; sdiv; res] with ([tmp; snum; sdiv] ++ [res]). apply NoDup_app. split_and!; [| set_solver | apply NoDup_singleton].
    change (tmp :: snum :: sdiv :: option_list (t_res T)) with ([tmp; snum; sdiv] ++ option_list (t_res T)) in Hd. by apply NoDup_app in Hd as (? & _ & _).
  - intros i Hi. specialize (Ha i (Hin _ Hi)). rewrite !not_elem_of_cons in Ha. unfold apart. split; [intros <-; tauto | intros <-; tauto].
  - intros i Hi. destruct (decide (i = res)) as [-> | Hne]; [done |]. assert (i ∈ [tmp; snum; sdiv]) as Hi3 by set_solver. split; [| set_solver].
    specialize (Ha i (Hin _ Hi3)). rewrite !not_elem_of_cons in Ha. unfold outs in Ha. set_solver.
  - intros i Hi. destruct (decide (i = res)) as [-> | Hne]; [done |]. apply Ho, Hin. set_solver.
Qed.

Let K : nat := (width A + width B + 4)%nat.

(** There are enough temporaries, and room in them and in the results. *)
Definition div_enough : Prop := t_sdiv T <> None /\ (quotient = None -> t_res T <> None) /\ roomy h (outs ++ given T) K.

(** A result: canonical, with the value [v]. *)
Definition holds_value (h' : gmap nat BIGNUM) (o : option nat) (v : Z) : Prop :=
  forall i, o = Some i -> exists X, h' !! i = Some X /\ wf X /\ canonical X /\ val X = v.

Lemma div_outcome :
  exists ok h', BN_div alloc_ok quotient rem numerator divisor T h = Some (ok, h') /\ touches h h' (outs ++ given T) /\
    (ok = true -> mag B <> 0 /\ holds_value h' quotient (Z.quot (val A) (val B)) /\ holds_value h' rem (Z.rem (val A) (val B))) /\
    (mag B <> 0 -> div_enough -> ok = true).
Proof.
  assert (objects h (outs ++ given T)) as Ho by (intros i [Hi | Hi]%elem_of_app; [by apply Houts | by apply (temps_objects _ _ _ HT)]).
  unfold BN_div. erewrite bind_eq by (by apply load_eq). erewrite bind_eq by (by apply load_eq). rewrite !top_is_zero_false by done. cbn [orb].
  destruct (BN_is_zero B) eqn:Ez.
  { apply is_zero_spec in Ez; [| done]. exists false, h. split_and!; [done | by apply touches_refl | done | by intros]. }
  assert (mag B <> 0) as Hz by (intros E0; apply is_zero_spec in E0; [congruence | done]).
  destruct (t_sdiv T) as [sdiv |] eqn:Es; [| exists false, h; split_and!; [done | by apply touches_refl | done |]; intros _ [? _]; congruence].
  destruct (match quotient with None => t_res T | Some q => Some q end) as [res |] eqn:Er.
  2: { exists false, h; split_and!; [done | by apply touches_refl | done |]. intros _ (_ & H & _). destruct quotient; [done |]. by destruct (H eq_refl). }
  destruct (div_objects sdiv res Es Er) as (tmp & snum & Et & En & Hd & Hap & Hin & Hobj). rewrite (bind_some _ _ _ _ Et), (bind_some _ _ _ _ En).
  destruct (Hobj tmp ltac:(set_solver)) as (XT & HhT & HXT). destruct (Hobj snum ltac:(set_solver)) as (XN & HhN & HXN).
  destruct (Hobj sdiv ltac:(set_solver)) as (XV & HhV & HXV). destruct (Hobj res ltac:(set_solver)) as (XR & HhR & HXR).
  rewrite !NoDup_cons, !not_elem_of_cons in Hd. destruct Hd as ((D1 & D2 & D3 & _) & (D4 & D5 & _) & (D6 & _) & _).
  destruct (Hap snum ltac:(set_solver)) as [A1 A2]. destruct (Hap sdiv ltac:(set_solver)) as [A3 A4].
  destruct (div_core_spec alloc_ok h numerator divisor tmp snum sdiv res A B XT XN XV XR) as (x & V' & N' & T' & R' & Ec & HV' & HN' & HT' & HR' & Pc & Okc); unfold apart; try done; try congruence.
  erewrite bind_eq by exact Ec. set (h1 := <[res := R']> _) in *.
  assert (touches h h1 (outs ++ given T)) as T1.
  { unfold h1. repeat (apply touches_insert; [| by apply Hin; set_solver | done]). by apply touches_refl. }
  fold K in Pc, Okc. clear Hap Hobj.
  assert (div_enough -> x <> None) as Hx.
  { intros (_ & _ & Hr). apply Okc. intros k Hk. split_and!; [apply (Hr sdiv) | apply (Hr snum) | apply (Hr tmp) | apply (Hr res)]; try done; by apply Hin; set_solver. }
  destruct x as [sg |]; [| exists false, h1; split_and!; [done | done | done |]; intros _ He; by destruct (Hx He)].
  destruct (Pc sg eq_refl) as (-> & MR & NR & MN & NN & WN).
  pose proof (norm_shift_spec B HB Hz) as [Hs _]. set (sh := 64 - BN_num_bits B mod 64) in *. clearbody sh.
  assert (objects h1 (option_list rem)) as Horem by (intros i Hi; apply T1; unfold outs; set_solver).
  destruct (div_finish h1 rem snum res N' R' (neg A) (sh + 64)) as (ok & h2 & Ef & Tf & Pf & Okf); try done; try lia; [unfold h1; look | unfold h1; look | by apply Hin; set_solver | by apply Hin; set_solver |].
  exists ok, h2. assert (mono h h1) as Hm by (by apply (growing_core numerator divisor tmp snum sdiv res sh h (Some (neg A)))).
  split_and!; [exact Ef | | |].
  - apply (touches_trans _ h1); [done |]. apply (touches_more _ _ _ _ Tf); [| by apply T1].
    intros i [-> | [-> | Hi]%elem_of_cons]%elem_of_cons; [by apply Hin; set_solver | by apply Hin; set_solver | unfold outs; set_solver].
  - intros Eok. destruct (Pf Eok) as (Hres & Hrem). destruct (signed_quot_rem A B HA HB Hz) as (Eq & Em). split_and!; [done | |].
    + intros q Hq. rewrite Hq in Er. injection Er as ->. exists (minimized R'). destruct (minimized_spec R' HR') as (H1 & _ & H3 & _). split_and!; [done | done | done |].
      rewrite minimized_val by done. unfold val at 1. by rewrite NR, MR.
    + intros r Hr. destruct (Hrem r Hr) as (X & HX & HwX & CX & VX). exists X. split_and!; try done. rewrite VX, MN, Z.div_mul by (apply Z.pow_nonzero; lia). exact Em.
  - intros _ (_ & _ & Hr). apply Okf. apply (roomy_sub _ (option_list rem) _ K); [done | done |]. apply (roomy_mono h); [done | |].
    + intros i Hi. apply Houts. unfold outs. set_solver.
    + apply (roomy_sub _ (outs ++ given T) _ K); [unfold outs; set_solver | done | done].
Qed.
End DivSpec.

(** * [BN_nnmod] *)

Section Nnmod.
Context (h : gmap nat BIGNUM) (r m dv : nat) (T : div_temps) (R M D : BIGNUM).
Context (HhR : h !! r = Some R) (HhM : h !! m = Some M) (HhD : h !! dv = Some D) (HR : wf R) (HM : wf M) (HD : wf D)
  (HT : temps_ok h T [m; dv; r]).

(** Enough room for [BN_nnmod], and for an addition after it. *)
Definition mod_enough : Prop := t_sdiv T <> None /\ t_res T <> None /\ roomy h (r :: given T) (width M + width D + 4).

Lemma mod_objects : objects h (r :: given T).
Proof. intros i [-> | Hi]%elem_of_cons; [by exists R | by apply (temps_objects _ _ _ HT)]. Qed.

Lemma mod_outcome :
  exists ok h', BN_mod alloc_ok r m dv T h = Some (ok, h') /\ touches h h' (r :: given T) /\ mono h h' /\
    (ok = true -> mag D <> 0 /\ holds_value h' (Some r) (Z.rem (val M) (val D))) /\ (mag D <> 0 -> mod_enough -> ok = true).
Proof.
  destruct (div_outcome h None (Some r) m dv T M D) as (ok & h' & E & Ht & P & Hok); try done; [| apply NoDup_singleton |].
  { intros i Hi. apply mod_objects. cbn in Hi. set_solver. }
  exists ok, h'. split_and!; [exact E | exact Ht | by apply (growing_div None (Some r) m dv T h ok) | by intros Eok; destruct (P Eok) as (H1 & _ & H3) |].
  intros Hz (H1 & H2 & H3). apply Hok; [done |]. by split_and!.
Qed.

Lemma rem_adjust x y : y <> 0 -> Z.rem x y < 0 -> Z.rem x y + Z.abs y = x mod Z.abs y.
Proof.
  intros Hy Hr. rewrite <- (Z.rem_abs_r x y) in * by done. set (a := Z.abs y) in *. assert (0 < a) by (unfold a; lia).
  assert (x < 0) by (apply Z.nle_gt; intros Hx; pose proof (Z.rem_nonneg x a ltac:(lia) Hx); lia). pose proof (Z.quot_rem' x a).
  assert (Z.abs (Z.rem x a) < Z.abs a) by (apply Z.rem_bound_abs; lia).
  apply (Z.mod_unique_pos _ _ (Z.quot x a - 1)); lia.
Qed.

Lemma nnmod_outcome :
  apart r dv ->
  exists ok h', BN_nnmod alloc_ok r m dv T h = Some (ok, h') /\ touches h h' (r :: given T) /\
    (ok = true -> mag D <> 0 /\ holds_value h' (Some r) (val M mod mag D)) /\ (mag D <> 0 -> mod_enough -> ok = true).
Proof.
  intros Hne. destruct mod_outcome as (ok & h1 & E & Ht & Hm & P & Hok). unfold BN_nnmod. erewrite bind_eq by exact E.
  destruct ok; cbn [negb]; [| exists false, h1; by split_and!]. destruct (P eq_refl) as (Hz & Hv). destruct (Hv r eq_refl) as (R1 & HhR1 & HR1 & CR1 & VR1). clear P.
  erewrite bind_eq by (by apply load_eq). pose proof (mag_nonneg D HD) as PD. assert (Z.abs (val D) = mag D) as Eabs by (unfold val; destruct (neg D); lia).
  assert (val D <> 0) as Hvz by lia. pose proof (mag_nonneg R1 HR1) as PR. destruct (neg R1) eqn:NR; cbn [negb].
  2: { exists true, h1. split_and!; [done | done | | done]. intros _. split; [done |]. intros i [= <-]. exists R1. split_and!; try done. rewrite VR1.
       assert (val R1 = mag R1) as EV by (unfold val; by rewrite NR). rewrite EV in VR1. rewrite <- Eabs. rewrite <- (Z.rem_abs_r (val M) (val D)) in * by done. set (a := Z.abs (val D)) in *. pose proof (Z.quot_rem' (val M) a).
       assert (Z.rem (val M) a < a) by (pose proof (Z.rem_bound_abs (val M) a ltac:(lia)); lia). 
       apply (Z.mod_unique_pos _ _ (Z.quot (val M) a)); lia. }
  assert (mag R1 <> 0) as Hr0 by (intros E0; destruct CR1 as [_ C]; rewrite (C E0) in NR; done).
  assert (Z.rem (val M) (val D) < 0) as Hneg by (rewrite <- VR1; unfold val; rewrite NR; lia).
  assert (h1 !! dv = Some D) as HhD1.
  { rewrite (proj1 Ht); [done |]. intros [-> | Hi]%elem_of_cons; [by apply Hne |]. apply (temps_apart _ _ _ HT _ Hi). set_solver. }
  erewrite bind_eq by (by apply load_eq).
  assert (exists n, (n <= width M + width D + 4)%nat /\ outcome alloc_ok (if neg D then BN_sub alloc_ok r r dv else BN_add alloc_ok r r dv) h1 r R1 n (val M mod mag D)) as (n & Hn & ok & h2 & E2 & P2 & Hok2).
  { assert (width R1 <= width D)%nat as HwR.
    { apply (canonical_width R1); [done | done |]. pose proof (mag_bound D HD). assert (mag R1 < mag D); [| lia]. pose proof (Z.rem_bound_abs (val M) (val D) Hvz). rewrite <- VR1 in *. unfold val in *. rewrite NR in *. lia. }
    exists (S (Nat.max (width R1) (width D))). split; [lia |]. rewrite <- Eabs, <- rem_adjust, <- VR1 by done.
    assert (signed_ok R1) by (by destruct CR1). assert (Z.abs (val D) = if neg D then - val D else val D) as -> by (unfold val; destruct (neg D); lia).
    destruct (neg D); [rewrite Z.add_opp_r; by apply sub_outcome | by apply add_outcome]. }
  exists ok, h2. split_and!; [exact E2 | | |].
  - destruct ok; destruct P2 as (R2 & -> & HR2 & _) || destruct P2 as (R2 & -> & HR2); (apply touches_insert; [done | apply list_elem_of_here | done]).
  - intros ->. split; [done |]. destruct P2 as (R2 & -> & HR2 & CR2 & VR2). intros i [= <-]. exists R2. by rewrite lookup_insert_eq.
  - intros _ (_ & _ & Hroom). apply Hok2. intros k Hk. apply (roomy_mono h h1 _ _ Hm mod_objects Hroom r R1); [apply list_elem_of_here | done | lia].
Qed.
End Nnmod.
End Div.

(** C20: [BN_div] divides: whichever of the operands the quotient and the remainder are, and whether or
    not each is wanted, they come out as the truncated quotient and remainder of the two numbers, in
    canonical form, and nothing but them and the temporaries has changed.  It terminates, and fails
    only for a zero divisor or for want of temporaries or room. *)
Theorem bn_div_exact alloc_ok h quotient rem numerator divisor T A B :
  h !! numerator = Some A -> h !! divisor = Some B -> wf A -> wf B ->
  objects h (option_list quotient ++ option_list rem) -> NoDup (option_list quotient ++ option_list rem) ->
  temps_ok h T (numerator :: divisor :: option_list quotient ++ option_list rem) ->
  exists ok h', BN_div alloc_ok quotient rem numerator divisor T h = Some (ok, h') /\
    touches h h' ((option_list quotient ++ option_list rem) ++ given T) /\
    (ok = true -> mag B <> 0 /\ holds_value h' quotient (Z.quot (val A) (val B)) /\ holds_value h' rem (Z.rem (val A) (val B))) /\
    (mag B <> 0 -> div_enough alloc_ok h quotient rem T A B -> ok = true).
Proof. intros. by apply div_outcome. Qed.

(** Some objects, and temporaries at the addresses from 10 on. *)
Definition store_of (l : list (nat * BIGNUM)) : gmap nat BIGNUM :=
  foldr (fun x h => <[fst x := snd x]> h) ∅ (l ++ [(10, BN_new); (11, BN_new); (12, BN_new); (13, BN_new)])%nat.

Definition ten_on : div_temps := mk_temps (Some 10%nat) (Some 11%nat) (Some 12%nat) (Some 13%nat).

Lemma ten_on_ok (h : gmap nat BIGNUM) l :
  (forall t, t ∈ [10; 11; 12; 13]%nat -> h !! t = Some BN_new) -> (forall i, i ∈ l -> (i < 10)%nat) -> temps_ok h ten_on l.
Proof.
  intros Hh Hl. constructor; cbn [t_sdiv t_tmp t_snum ten_on]; [done | | |].
  - unfold given. cbn. repeat (apply NoDup_cons_2; [set_solver by lia |]). apply NoDup_nil_2.
  - intros i Hi. exists BN_new. split; [by apply Hh | solve_wf].
  - intros i Hi Hin. specialize (Hl i Hin). unfold given in Hi. cbn in Hi. set_solver by lia.
Qed.

(** Objects that are not static have room for any number of words within the limit. *)
Lemma store_of_roomy l ids n :
  Forall (fun x : nat * BIGNUM => static_data (snd x) = false) l -> Z.of_nat n <= BN_MAX_WORDS -> roomy (fun _ => true) (store_of l) ids n.
Proof.
  intros Hl Hn i X _ HX k Hk. assert (static_data X = false) as E.
  { unfold store_of in HX. assert (Forall (fun x : nat * BIGNUM => static_data (snd x) = false) (l ++ [(10, BN_new); (11, BN_new); (12, BN_new); (13, BN_new)]%nat)) as Hall
      by (apply Forall_app; split; [done | by repeat constructor]).
    clear Hl. induction Hall as [| x l' Hx Hl' IH]; [done |]. cbn [foldr] in HX. apply lookup_insert_Some in HX as [[_ <-] | [_ HX]]; [done | by apply IH]. }
  unfold room. rewrite E, (proj2 (Z.leb_le _ _)) by lia. by rewrite orb_true_r.
Qed.

Lemma bn_div_exact_witness :
  let A := mk_bn [5; 7; 0] 3 true true false in let B := mk_bn [2 ^ 64 - 1] 1 false true false in
  exists h', BN_div (fun _ => true) (Some 1%nat) (Some 2%nat) 1 2 ten_on (store_of [(1%nat, A); (2%nat, B)]) = Some (true, h') /\
    holds_value h' (Some 1%nat) (-7) /\ holds_value h' (Some 2%nat) (-12).
Proof.
  destruct (bn_div_exact (fun _ => true) (store_of [(1%nat, mk_bn [5; 7; 0] 3 true true false); (2%nat, mk_bn [2 ^ 64 - 1] 1 false true false)])
    (Some 1%nat) (Some 2%nat) 1 2 ten_on (mk_bn [5; 7; 0] 3 true true false) (mk_bn [2 ^ 64 - 1] 1 false true false)) as (ok & h' & E & _ & H & Hok).
  - reflexivity.
  - reflexivity.
  - solve_wf.
  - solve_wf.
  - intros i Hi. assert (i = 1 \/ i = 2)%nat as [-> | ->] by (cbn in Hi; set_solver); eexists; (split; [reflexivity | solve_wf]).
  - cbn. repeat (apply NoDup_cons_2; [set_solver by lia |]). apply NoDup_nil_2.
  - apply ten_on_ok; [intros t Ht; assert (t = 10 \/ t = 11 \/ t = 12 \/ t = 13)%nat as [-> | [-> | [-> | ->]]] by set_solver; reflexivity | intros i Hi; cbn in Hi; set_solver by lia].
  - assert (ok = true) as -> by (apply Hok; [vm_compute; discriminate |]; split_and!; [discriminate | discriminate | apply store_of_roomy; [by repeat constructor | vm_compute; discriminate]]).
    exists h'. split; [done |]. destruct (H eq_refl) as (_ & H1 & H2). split; [exact H1 | exact H2].
Defined.

(** What a program returns, and the number it leaves in [i]. *)
Definition run_value (p : prog bool) (h : gmap nat BIGNUM) (i : nat) : option (bool * Z) :=
  match p h with Some (ok, h') => (fun X => (ok, val X)) <$> h' !! i | None => None end.

(** [BN_nnmod] forgets the divisor when the result is stored over it: then the multiple to add
    is the remainder itself, and a negative number comes out as zero. *)
Theorem nnmod_over_divisor :
  let h := store_of [(1%nat, mk_bn [7] 1 true true false); (2%nat, mk_bn [3] 1 false true false)] in
  run_value (BN_nnmod (fun _ => true) 2 1 2 ten_on) h 2 = Some (true, 0) /\
  run_value (BN_nnmod (fun _ => true) 1 1 2 ten_on) h 1 = Some (true, 2).
Proof. by vm_compute. Qed.
End BnDivSpec.
