(* ===== verification/BnModSpec.v ===== *)
(** Modular arithmetic on BIGNUMs is exact: the functions that compute and then reduce, the
    constant-time ones on numbers already reduced, the constant-time division, and the remainders by
    a word and modulo a power of two. *)

From S2P Require Import Prelude Internal Store Modes BnWords Bn BnAdd BnShift BnMulWords BnMul BnDivWords BnDiv BnDivSpec.

Open Scope Z_scope.

Module BnModSpec.
Import Internal Modes BnWords Bn BnAdd BnShift BnMulWords BnMul BnDivWords BnDiv BnDivSpec.
Open Scope c_scope.

Section Mod.
Context (alloc_ok : nat -> bool).
Local Abbreviation room := (room alloc_ok).

(** * Compute, then reduce *)

(** [p] leaves the number [v] in [x], in at most [W] words, using the objects of [l]; it succeeds if [E]. *)
Definition leaves (p : prog bool) (h : gmap nat BIGNUM) (x : nat) (l : list nat) (v : Z) (W : nat) (E : Prop) : Prop :=
  exists ok h', p h = Some (ok, h') /\ touches h h' (x :: l) /\
    (ok = true -> exists X, h' !! x = Some X /\ wf X /\ val X = v /\ (width X <= W)%nat) /\ (E -> ok = true).

Lemma outcome_leaves p h r R n v W :
  h !! r = Some R -> outcome alloc_ok p h r R n v -> Z.abs v < 2 ^ (64 * Z.of_nat W) -> leaves p h r [] v W (forall k, (k <= n)%nat -> room R k = true).
Proof.
  intros Hr (ok & h' & E & P & Hok) HW. exists ok, h'. split_and!; [done | | | done].
  - assert (exists R', h' = <[r := R']> h /\ wf R') as (R' & -> & HR') by (destruct ok; [destruct P as (R' & E1 & E2 & _); by exists R' | exact P]).
    split; [apply frame_insert, list_elem_of_here |]. intros i ->%list_elem_of_singleton. exists R'. by rewrite lookup_insert_eq.
  - intros ->. destruct P as (R' & -> & HR' & CR' & VR'). exists R'. split_and!; [by rewrite lookup_insert_eq | done | done |].
    apply canonical_width; [done | done |]. pose proof (mag_nonneg R' HR'). unfold val in VR'. destruct (neg R'); lia.
Qed.

Section Reduce.
Context (p : prog bool) (h : gmap nat BIGNUM) (x r m : nat) (l : list nat) (T : div_temps) (R M : BIGNUM) (v : Z) (W : nat) (E : Prop).
Context (Hp : leaves p h x l v W E) (Hgrow : growing p) (HhR : h !! r = Some R) (HhM : h !! m = Some M) (HR : wf R) (HM : wf M).
Context (Hm : m ∉ x :: l) (HT : temps_ok h T (x :: m :: r :: l)).

(** Enough temporaries and room for the reduction. *)
Definition reduce_enough : Prop := E /\ t_sdiv T <> None /\ t_res T <> None /\ roomy alloc_ok h (r :: given T) (W + width M + 4).

Lemma reduce_setup h1 :
  touches h h1 (x :: l) -> h1 !! m = Some M /\ (exists R1, h1 !! r = Some R1 /\ wf R1) /\ temps_ok h1 T [x; m; r].
Proof.
  intros [F O]. destruct HT as [T1 T2 T3 T4]. split_and!.
  - by rewrite F.
  - destruct (decide (r ∈ x :: l)) as [Hi | Hi]; [by apply O | exists R; by rewrite F].
  - constructor; [done | done | | intros i Hi Hin; apply (T4 i Hi); set_solver].
    intros i Hi. rewrite F; [by apply T3 |]. intros Hin. apply (T4 i Hi). set_solver.
Qed.

(** After [p], the reduction [q] with the outcome of [BN_nnmod] or [BN_mod]. *)
Lemma then_reduce (q : prog bool) w :
  (forall h1 X R1, touches h h1 (x :: l) -> h1 !! x = Some X -> wf X -> val X = v -> h1 !! r = Some R1 -> wf R1 -> h1 !! m = Some M -> temps_ok h1 T [x; m; r] ->
    exists ok h', q h1 = Some (ok, h') /\ touches h1 h' (r :: given T) /\ (ok = true -> mag M <> 0 /\ holds_value h' (Some r) w) /\
      (mag M <> 0 -> mod_enough alloc_ok h1 r T X M -> ok = true)) ->
  exists ok h', (do ok <- p; if negb ok then r_ret false else q) h = Some (ok, h') /\ touches h h' (x :: r :: l ++ given T) /\
    (ok = true -> mag M <> 0 /\ holds_value h' (Some r) w) /\ (mag M <> 0 -> reduce_enough -> ok = true).
Proof.
  intros Hq. destruct Hp as (ok & h1 & E1 & T1 & P1 & Ok1). erewrite bind_eq by exact E1. destruct (reduce_setup h1 T1) as (HhM1 & (R1 & HhR1 & HR1) & HT1).
  assert (objects h1 (x :: r :: l ++ given T)) as O1.
  { intros i Hi. destruct (decide (i = r)) as [-> | Hne]; [by exists R1 |]. destruct (decide (i ∈ given T)) as [Hg | Hg]; [by apply (temps_objects _ _ _ HT1) | apply T1; set_solver]. }
  assert (touches h h1 (x :: r :: l ++ given T)) as T1' by (split; [intros i Hi; apply T1; set_solver | done]).
  destruct ok; cbn [negb]; [| exists false, h1; split_and!; [done | done | done |]; intros _ (HE & _); by apply Ok1].
  destruct (P1 eq_refl) as (X & HX & HwX & VX & WX). destruct (Hq h1 X R1 T1 HX HwX VX HhR1 HR1 HhM1 HT1) as (ok & h2 & E2 & T2 & P2 & Ok2).
  exists ok, h2. split_and!; [done | | done |].
  - apply (touches_trans _ h1); [done |]. apply (touches_more _ _ _ _ T2); [set_solver | done].
  - intros Hz (_ & H1 & H2 & H3). apply Ok2; [done |]. split_and!; [done | done |]. apply (roomy_sub _ _ (r :: given T) _ (W + width M + 4)); [done | lia |].
    apply (roomy_mono _ h); [by apply (Hgrow h true) | | done]. intros i [-> | Hi]%elem_of_cons; [by exists R | by apply (temps_objects _ _ _ HT)].
Qed.

Lemma then_nnmod :
  apart r m ->
  exists ok h', (do ok <- p; if negb ok then r_ret false else BN_nnmod alloc_ok r x m T) h = Some (ok, h') /\ touches h h' (x :: r :: l ++ given T) /\
    (ok = true -> mag M <> 0 /\ holds_value h' (Some r) (v mod mag M)) /\ (mag M <> 0 -> reduce_enough -> ok = true).
Proof.
  intros Hrm. apply then_reduce. intros h1 X R1 T1 HX HwX VX HhR1 HR1 HhM1 HT1. rewrite <- VX.
  by apply (nnmod_outcome alloc_ok h1 r x m T R1 X M).
Qed.

Lemma then_mod :
  0 <= v ->
  exists ok h', (do ok <- p; if negb ok then r_ret false else BN_mod alloc_ok r x m T) h = Some (ok, h') /\ touches h h' (x :: r :: l ++ given T) /\
    (ok = true -> mag M <> 0 /\ holds_value h' (Some r) (v mod mag M)) /\ (mag M <> 0 -> reduce_enough -> ok = true).
Proof.
  intros Hv. apply then_reduce. intros h1 X R1 T1 HX HwX VX HhR1 HR1 HhM1 HT1.
  destruct (mod_outcome alloc_ok h1 r x m T R1 X M) as (ok & h' & E1 & T2 & _ & P & Hok); try done. exists ok, h'. split_and!; try done. intros Eok. destruct (P Eok) as (Hz & Hh). split; [done |].
  assert (Z.rem (val X) (val M) = v mod mag M) as <-; [| done]. pose proof (mag_nonneg M HM). rewrite VX. unfold val.
  destruct (neg M); rewrite ?Z.rem_opp_r by done; apply Z.rem_mod_nonneg; lia.
Qed.
End Reduce.

#[local] Hint Resolve growing_wexpand growing_copy growing_lshift growing_rshift growing_div : grow_db.

Lemma growing_zero i : growing (BN_zero i).
Proof. unfold BN_zero. grow. Qed.
#[local] Hint Resolve growing_zero : grow_db.

Lemma growing_add r a b : growing (BN_add alloc_ok r a b).
Proof. unfold BN_add, usub_signed, BN_uadd, BN_usub, bn_uadd_consttime, bn_usub_consttime, uadd_sorted. grow. Qed.

Lemma growing_sub r a b : growing (BN_sub alloc_ok r a b).
Proof. unfold BN_sub, usub_signed, BN_uadd, BN_usub, bn_uadd_consttime, bn_usub_consttime, uadd_sorted. grow. Qed.

Lemma growing_lshift1 r a : growing (BN_lshift1 alloc_ok r a).
Proof. unfold BN_lshift1. grow. Qed.

Lemma growing_mul r a b t1 t2 : growing (BN_mul alloc_ok r a b t1 t2).
Proof. unfold BN_mul, bn_mul_impl, mul_into, run_words. grow. Qed.

Lemma growing_sqr r a t1 t2 stack : growing (BN_sqr alloc_ok r a t1 t2 stack).
Proof. unfold BN_sqr, bn_sqr_consttime, sqr_into, sqr_words_into, run_words. grow. Qed.

(** [p] reduces [v] modulo [M] into [r]. *)
Definition reduced (p : prog bool) (h : gmap nat BIGNUM) (l : list nat) (r : nat) (v : Z) (M : BIGNUM) (enough : Prop) : Prop :=
  exists ok h', p h = Some (ok, h') /\ touches h h' l /\ (ok = true -> mag M <> 0 /\ holds_value h' (Some r) (v mod mag M)) /\ (mag M <> 0 -> enough -> ok = true).

Lemma val_bound X : wf X -> Z.abs (val X) < 2 ^ (64 * Z.of_nat (width X)).
Proof. intros HX. pose proof (mag_bound X HX). pose proof (mag_nonneg X HX). unfold val. destruct (neg X); lia. Qed.

Lemma sum_bound x y n m : Z.abs x < 2 ^ (64 * Z.of_nat n) -> Z.abs y < 2 ^ (64 * Z.of_nat m) -> Z.abs x + Z.abs y < 2 ^ (64 * Z.of_nat (S (Nat.max n m))).
Proof.
  intros Hx Hy. rewrite pow_words_S. assert (2 ^ (64 * Z.of_nat n) <= 2 ^ (64 * Z.of_nat (Nat.max n m))) by (apply Z.pow_le_mono_r; lia).
  assert (2 ^ (64 * Z.of_nat m) <= 2 ^ (64 * Z.of_nat (Nat.max n m))) by (apply Z.pow_le_mono_r; lia). lia.
Qed.

Lemma mul_bound x y n m : Z.abs x < 2 ^ (64 * Z.of_nat n) -> Z.abs y < 2 ^ (64 * Z.of_nat m) -> Z.abs (x * y) < 2 ^ (64 * Z.of_nat (n + m)).
Proof. intros Hx Hy. rewrite pow_words_add, Z.abs_mul. nia. Qed.

Lemma computed_leaves p h x l v W E :
  computed p h x l (fun X => canonical X /\ val X = v) E -> Z.abs v < 2 ^ (64 * Z.of_nat W) -> leaves p h x l v W E.
Proof.
  intros (ok & h' & X & E1 & HX & HwX & P & F & O & Hok) HW. exists ok, h'. split_and!; [done | | | done].
  - split; [done |]. intros i [-> | Hi]%elem_of_cons; [by exists X | by apply O].
  - intros Eok. destruct (P Eok) as [CX VX]. exists X. split_and!; try done. apply canonical_width; [done | done |]. pose proof (mag_nonneg X HwX). unfold val in VX. destruct (neg X); lia.
Qed.

Lemma mul_room_mono h X t1 t2 n n' : (n' <= n)%nat -> mul_room alloc_ok h X t1 t2 n -> mul_room alloc_ok h X t1 t2 n'.
Proof.
  intros Hn (H1 & H2 & H3). assert (forall o, temp_room alloc_ok h o n -> temp_room alloc_ok h o n') as Ht.
  { intros o (t & Y & Eo & HY & Hk). exists t, Y. split_and!; [done | done |]. intros. apply Hk. lia. }
  split_and!; [by apply Ht | by apply Ht |]. intros. apply H3. lia.
Qed.

Section Composite.
Context (h : gmap nat BIGNUM) (r a b m : nat) (T : div_temps) (R A B M : BIGNUM).
Context (HhR : h !! r = Some R) (HhA : h !! a = Some A) (HhB : h !! b = Some B) (HhM : h !! m = Some M) (HR : wf R) (HA : wf A) (HB : wf B) (HM : wf M).
Context (SA : signed_ok A) (Hrm : apart r m).

(** Room for a result of [n] words in [r], and enough for its reduction. *)
Definition mod_room (n : nat) : Prop :=
  (forall k, (k <= n)%nat -> room R k = true) /\ t_sdiv T <> None /\ t_res T <> None /\ roomy alloc_ok h (r :: given T) (n + width M + 4).

Lemma outcome_reduced p n v :
  temps_ok h T [r; m; r] -> growing p -> leaves p h r [] v n (forall k, (k <= n)%nat -> room R k = true) ->
  reduced (do ok <- p; if negb ok then r_ret false else BN_nnmod alloc_ok r r m T) h (r :: r :: given T) r v M (mod_room n).
Proof.
  intros HT Hg Hl. apply (then_nnmod p h r r m [] T R M v n (forall k, (k <= n)%nat -> room R k = true)); try done.
  intros [E | Hn]%elem_of_cons; [by apply Hrm | by apply not_elem_of_nil in Hn].
Qed.

Lemma mod_add_outcome :
  temps_ok h T [r; m; r] -> reduced (BN_mod_add alloc_ok r a b m T) h (r :: r :: given T) r (val A + val B) M (mod_room (S (Nat.max (width A) (width B)))).
Proof.
  intros HT. apply outcome_reduced; [done | apply growing_add |]. apply (outcome_leaves _ _ _ R); [done | by apply add_outcome |].
  pose proof (sum_bound _ _ _ _ (val_bound A HA) (val_bound B HB)). lia.
Qed.

Lemma mod_sub_outcome :
  temps_ok h T [r; m; r] -> reduced (BN_mod_sub alloc_ok r a b m T) h (r :: r :: given T) r (val A - val B) M (mod_room (S (Nat.max (width A) (width B)))).
Proof.
  intros HT. apply outcome_reduced; [done | apply growing_sub |]. apply (outcome_leaves _ _ _ R); [done | by apply sub_outcome |].
  pose proof (sum_bound _ _ _ _ (val_bound A HA) (val_bound B HB)). lia.
Qed.

Lemma mod_lshift1_outcome :
  temps_ok h T [r; m; r] -> reduced (BN_mod_lshift1 alloc_ok r a m T) h (r :: r :: given T) r (val A * 2) M (mod_room (width A + 1)).
Proof.
  intros HT. apply outcome_reduced; [done | apply growing_lshift1 |]. destruct (lshift1_result alloc_ok h r a R A HhR HhA HR HA SA) as (ok & h' & E & P & Hok).
  exists ok, h'. split_and!; [done | | | intros H; by apply Hok, H].
  - assert (exists R', h' = <[r := R']> h /\ wf R') as (R' & -> & HR') by (destruct ok; [destruct P as (R' & E1 & E2 & _); by exists R' | exact P]).
    split; [apply frame_insert, list_elem_of_here |]. intros i ->%list_elem_of_singleton. exists R'. by rewrite lookup_insert_eq.
  - intros ->. destruct P as (R' & -> & HR' & _ & VR' & WR'). exists R'. by rewrite lookup_insert_eq.
Qed.

Section Mul.
Context (t : nat) (tmp_rr tmp_t : option nat) (stack : words) (X : BIGNUM).
Let l : list nat := option_list tmp_rr ++ option_list tmp_t.

Lemma mod_mul_outcome :
  h !! t = Some X -> wf X -> temp h tmp_rr [t; a; b] -> temp h tmp_t (t :: a :: b :: option_list tmp_rr) -> (32 <= length stack)%nat ->
  (m ∉ t :: l) -> temps_ok h T (t :: m :: r :: l) ->
  reduced (BN_mod_mul alloc_ok r a b m (Some t) tmp_rr tmp_t stack T) h (t :: r :: l ++ given T) r (val A * val B) M
    (mul_room alloc_ok h X tmp_rr tmp_t (8 * Nat.max (width A) (width B)) /\ t_sdiv T <> None /\ t_res T <> None /\
     roomy alloc_ok h (r :: given T) (width A + width B + width M + 4)).
Proof.
  intros HX HwX Ht1 Ht2 Hst Hm HT. unfold BN_mod_mul. pose proof (mul_bound _ _ _ _ (val_bound A HA) (val_bound B HB)) as Hbd. destruct (Nat.eqb_spec a b) as [Eab | Nab].
  - assert (B = A) as EB by congruence. eapply then_nnmod; [| apply growing_sqr | done | done | done | done | done | done | done].
    apply computed_leaves; [| done]. rewrite EB, Nat.max_id in *. rewrite <- Eab in *.
    assert (temp h tmp_rr [t; a]) by (intros i Hi; destruct (Ht1 i Hi); set_solver). assert (temp h tmp_t (t :: a :: option_list tmp_rr)) by (intros i Hi; destruct (Ht2 i Hi); set_solver).
    destruct (sqr_canonical alloc_ok h t a X A tmp_rr tmp_t stack) as (ok & h' & R' & E & P1 & P2 & P3 & P4 & P5 & P6); try done.
    exists ok, h', R'. split_and!; try done. intros (H1 & H2 & H3). apply P6. apply (mul_room_mono _ _ _ _ (8 * width A)); [lia | by split_and!].
  - eapply then_nnmod; [| apply growing_mul | done | done | done | done | done | done | done]. apply computed_leaves; [| done]. by apply mul_outcome.
Qed.

Lemma mod_sqr_outcome :
  temp h tmp_rr [r; a] -> temp h tmp_t (r :: a :: option_list tmp_rr) -> (32 <= length stack)%nat -> (m ∉ r :: l) -> temps_ok h T (r :: m :: r :: l) ->
  reduced (BN_mod_sqr alloc_ok r a m tmp_rr tmp_t stack T) h (r :: r :: l ++ given T) r (val A * val A) M
    (mul_room alloc_ok h R tmp_rr tmp_t (4 * width A) /\ t_sdiv T <> None /\ t_res T <> None /\ roomy alloc_ok h (r :: given T) (width A + width A + width M + 4)).
Proof.
  intros Ht1 Ht2 Hst Hm HT. unfold BN_mod_sqr. eapply then_mod; [| apply growing_sqr | done | done | done | done | done | done | nia].
  apply computed_leaves; [by apply sqr_canonical | by apply mul_bound; apply val_bound].
Qed.
End Mul.
End Composite.
(** * Constant-time division *)

Definition zeroed (X : BIGNUM) (n : nat) : BIGNUM := set_neg false (set_width n (set_d (overwrite (d X) 0 (replicate n 0)) X)).

Lemma zero_words_eq h i X n :
  h !! i = Some X -> wf X -> (n <= length (d X))%nat ->
  zero_words i n h = Some (tt, <[i := zeroed X n]> h) /\ wf (zeroed X n) /\ limbs (zeroed X n) = replicate n 0 /\ length (d (zeroed X n)) = length (d X).
Proof.
  intros Hi HX Hn. unfold zero_words. erewrite bind_eq by (apply put_eq; [done | rewrite length_replicate; lia]). rewrite modify_cell.
  destruct (put_low X (replicate n 0) false HX) as (H1 & H2); [rewrite length_replicate; lia | apply words_ok_zeros |]. rewrite length_replicate in H1, H2.
  split_and!; [done | done | done |]. unfold zeroed. cbn [d set_neg set_width set_d]. apply length_overwrite. rewrite length_replicate. lia.
Qed.

(** The words the remainder starts with are below the divisor. *)
Lemma initial_spec N V bits :
  wf N -> wf V -> mag V <> 0 -> bits <= BN_num_bits V -> let init := initial_words N bits in
  (init <= width N)%nat /\ (init < width V)%nat /\ value (drop (width N - init) (limbs N)) < mag V.
Proof.
  intros HN HV Hz Hb init. pose proof (mag_nonneg V HV). pose proof (mag_bound V HV) as BV. rewrite num_bits_spec in Hb by done. unfold bit_length in Hb. rewrite (proj2 (Z.eqb_neq _ 0)) in Hb by done.
  pose proof (Z.log2_spec (mag V) ltac:(lia)) as [Hlo _]. pose proof (Z.log2_nonneg (mag V)) as Hl0. assert (Z.log2 (mag V) < 64 * Z.of_nat (width V)) as Hlw by (apply Z.log2_lt_pow2; lia).
  assert ((init <= width N)%nat /\ 64 * Z.of_nat init <= Z.log2 (mag V)) as [Hi1 Hi2].
  { unfold init, initial_words. destruct (Z.ltb_spec 0 bits); [| lia]. pose proof (Z.mul_div_le (bits - 1) 64 ltac:(lia)). assert (0 <= (bits - 1) / 64) by (apply Z.div_pos; lia). lia. }
  split_and!; [done | lia |]. pose proof (length_limbs N HN) as LN. pose proof (value_bound (drop (width N - init) (limbs N)) ltac:(apply words_ok_drop; by apply limbs_ok)) as Bw.
  rewrite length_drop, LN in Bw. replace (width N - (width N - init))%nat with init in Bw by lia.
  assert (2 ^ (64 * Z.of_nat init) <= 2 ^ Z.log2 (mag V)) by (apply Z.pow_le_mono_r; lia). lia.
Qed.

Section Consttime.
Context (h : gmap nat BIGNUM) (q r tmp numerator divisor : nat) (Q R T N V : BIGNUM) (bits : Z).
Context (HhQ : h !! q = Some Q) (HhR : h !! r = Some R) (HhT : h !! tmp = Some T) (HhN : h !! numerator = Some N) (HhV : h !! divisor = Some V).
Context (HQ : wf Q) (HR : wf R) (HT : wf T) (HN : wf N) (HV : wf V) (Hz : mag V <> 0) (Hbits : bits <= BN_num_bits V).
Context (Nqr : apart q r) (Nqt : apart q tmp) (Nrt : apart r tmp) (Nnq : apart numerator q) (Nnr : apart numerator r) (Nnt : apart numerator tmp).

Lemma consttime_main_spec :
  exists ok Q' R' T', consttime_main alloc_ok q r tmp numerator divisor bits h = Some (ok, <[q := Q']> (<[tmp := T']> (<[r := R']> h))) /\ wf Q' /\ wf R' /\ wf T' /\
    (ok = true -> mag Q' = mag N / mag V /\ width Q' = width N /\ neg Q' = false /\ mag R' = mag N mod mag V /\ width R' = width V /\ neg R' = false) /\
    (room Q (width N) = true -> room R (width V) = true -> room T (width V) = true -> ok = true).
Proof.
  pose proof (length_limbs N HN) as LN. pose proof (length_limbs V HV) as LV. destruct (initial_spec N V bits HN HV Hz Hbits) as (Hi1 & Hi2 & Hiv).
  unfold consttime_main. erewrite bind_eq by (by apply load_eq). erewrite bind_eq by (by apply load_eq). erewrite bind_eq by (by apply wexpand_eq).
  destruct (room Q (width N)) eqn:RQ; cbn [negb]. 2: { exists false, Q, R, T. rewrite !(insert_id h) by look. split_and!; done. }
  destruct (expanded_spec Q (width N) HQ RQ) as (HEQ & LEQ & _). set (EQ := expanded Q (width N)) in *.
  erewrite bind_eq by (apply wexpand_eq; look). destruct (room R (width V)) eqn:RR; cbn [negb].
  2: { exists false, EQ, R, T. rewrite (insert_id h r), (insert_id h tmp) by look. split_and!; done. }
  destruct (expanded_spec R (width V) HR RR) as (HER & LER & _). set (ER := expanded R (width V)) in *.
  erewrite bind_eq by (apply wexpand_eq; look). destruct (room T (width V)) eqn:RT; cbn [negb].
  2: { exists false, EQ, ER, T. rewrite (insert_insert_ne _ r q) by (unfold apart in *; congruence). rewrite (insert_id _ tmp) by look. split_and!; done. }
  destruct (expanded_spec T (width V) HT RT) as (HET & LET & _). set (ET := expanded T (width V)) in *.
  destruct (zero_words_eq (<[tmp := ET]> (<[r := ER]> (<[q := EQ]> h))) q EQ (width N)) as (E1 & HZQ & LZQ & LdQ); [look | done | done |]. erewrite bind_eq by exact E1.
  set (ZQ := zeroed EQ (width N)) in *. set (h1 := <[q := ZQ]> _).
  destruct (zero_words_eq h1 r ER (width V)) as (E2 & HZR & LZR & LdR); [unfold h1; look | done | done |]. erewrite bind_eq by exact E2.
  set (ZR := zeroed ER (width V)) in *. set (h2 := <[r := ZR]> h1). clear E1 E2.
  rewrite bind_assert by (by apply Z.leb_le). set (init := initial_words N bits) in *. set (ws := drop (width N - init) (limbs N)) in *.
  assert (length ws = init) as Lws by (unfold ws; rewrite length_drop, LN; lia). assert (words_ok ws) as Hws by (apply words_ok_drop; by apply limbs_ok).
  assert (h2 !! numerator = Some N) as Hn2 by (unfold h2, h1; look).
  assert (holds h2 numerator 0 (limbs N)) as Hh2 by (exists N; rewrite drop_0, LN; split_and!; [done | done | by destruct HN]).
  assert (take init (drop (width N - init) (limbs N)) = ws) as Etake by (fold ws; apply take_ge; lia).
  pose proof (holds_sub h2 numerator (limbs N) (width N - init) init Hh2 ltac:(lia)) as Hsub. rewrite Etake in Hsub.
  erewrite bind_eq by (apply read_holds; [exact Hsub | done]).
  assert (width ZR = width V) as WZR by done. assert (width ZQ = width N) as WZQ by done.
  erewrite bind_eq by (apply put_eq; [unfold h2; look | lia]). set (R1 := set_d (overwrite (d ZR) 0 ws) ZR). unfold h2. rewrite insert_insert_eq. set (h3 := <[r := R1]> h1).
  destruct (put_value ZR ws HZR ltac:(lia) Hws) as (HR1 & _ & LdR1). fold R1 in HR1, LdR1.
  assert (limbs R1 = ws ++ replicate (width V - init) 0) as LR1.
  { unfold limbs. cbn [width set_d R1]. change (width ZR) with (width V). unfold R1, overwrite. cbn [d set_d]. rewrite take_0, app_nil_l, Nat.add_0_l.
    rewrite take_app_ge by lia. rewrite Lws. f_equal. rewrite take_drop_commute. replace (init + (width V - init))%nat with (width V) by lia.
    change (take (width V) (d ZR)) with (limbs ZR). rewrite LZR, drop_replicate. done. }
  erewrite bind_eq by (change (width V) with (width R1); apply read_limbs; [unfold h3; look | done]).
  erewrite bind_eq by (rewrite <- WZQ; apply read_limbs; [unfold h3, h1; look | done]).
  assert (words_ok (take (width V) (d ET)) /\ length (take (width V) (d ET)) = width V) as [Hts Lts] by (split; [apply words_ok_take; by destruct HET | rewrite length_take; lia]).
  erewrite bind_eq by (apply read_holds; [exists ET; split_and!; [unfold h3, h1; look | rewrite Lts, drop_0; reflexivity | lia] | done]).
  pose proof (mag_nonneg V HV) as PV. assert (value (limbs R1) = value ws) as VR1 by (rewrite LR1, value_app, value_zeros; lia). pose proof (length_limbs R1 HR1) as LlR1.
  destruct (consttime_words_spec (limbs V)) with (k := (width N - init)%nat) (r := limbs R1) (t := take (width V) (d ET)) (q := limbs ZQ) (num := limbs N)
    as (rs & ts & Qs & E3 & LQs & HQs & VQs & Lrs & Hrs & Vrs & Lts' & Hts'); try (rewrite ?LV, ?LZQ, ?length_replicate; (done || lia)).
  { by apply limbs_ok. } { fold (mag V). lia. } { by apply limbs_ok. } { by rewrite VR1. } { by apply limbs_ok. } { rewrite LZQ, take_replicate. f_equal. lia. }
  rewrite (bind_some _ _ _ _ E3). clear E3. rewrite VR1 in VQs, Vrs. fold (mag V) in VQs, Vrs. rewrite LV in Lrs, Lts'.
  assert (value ws * 2 ^ (64 * Z.of_nat (width N - init)) + value (take (width N - init) (limbs N)) = mag N) as EN.
  { unfold mag. rewrite <- (take_drop (width N - init) (limbs N)) at 2. fold ws. rewrite value_app, length_take, LN, Nat.min_l by lia. ring. }
  rewrite EN in VQs, Vrs. rewrite LZQ, drop_replicate. replace (width N - (width N - init))%nat with init by lia. set (qs := Qs ++ replicate init 0).
  assert (length qs = width N) as Lqs by (unfold qs; rewrite length_app, length_replicate; lia).
  assert (words_ok qs) as Hqs by (apply words_ok_app; split; [done | apply words_ok_zeros]).
  erewrite bind_eq by (apply put_eq; [unfold h3; look | lia]). erewrite bind_eq by (apply put_eq; [unfold h3, h1; look | lia]). erewrite bind_eq by (apply put_eq; [unfold h3, h1; look | lia]).
  destruct (put_all R1 rs HR1 Lrs Hrs) as (HR2 & LR2 & _). destruct (put_value ET ts HET ltac:(lia) Hts') as (HT2 & _). destruct (put_all ZQ qs HZQ Lqs Hqs) as (HQ2 & LQ2 & _).
  eexists true, _, _, _. split; [apply (f_equal Some), (f_equal (pair true)) |].
  { unfold h3, h1. apply map_eq. intros i. destruct (decide (i = q)) as [-> | Nq]; [by rewrite !lookup_insert_eq |]. rewrite !(lookup_insert_ne _ q) by done.
    destruct (decide (i = tmp)) as [-> | Nt]; [by rewrite !lookup_insert_eq |]. rewrite !(lookup_insert_ne _ tmp) by done.
    destruct (decide (i = r)) as [-> | Nr]; [by rewrite !lookup_insert_eq |]. rewrite !lookup_insert_ne by done. reflexivity. }
  split_and!; [exact HQ2 | exact HR2 | exact HT2 | | done]. intros _. unfold mag at 1. rewrite LQ2. unfold mag at 3. rewrite LR2.
  split_and!; [unfold qs; rewrite value_app, value_zeros; lia | done | done | done | done | done].
Qed.
End Consttime.
Lemma copy_to_spec h dst src X :
  h !! src = Some X -> wf X -> objects h (option_list dst) ->
  exists ok h', copy_to alloc_ok dst src h = Some (ok, h') /\ touches h h' (option_list dst) /\
    (ok = true -> forall j, dst = Some j -> exists Y, h' !! j = Some Y /\ wf Y /\ limbs Y = limbs X /\ width Y = width X /\ neg Y = neg X) /\
    (roomy alloc_ok h (option_list dst) (width X) -> ok = true).
Proof.
  intros HX HwX Ho. destruct dst as [j |]; cbn [copy_to]; [| exists true, h; split_and!; [done | by apply touches_refl | done | done]].
  destruct (Ho j (list_elem_of_here _ _)) as (Y & HY & HwY). destruct (copy_outcome alloc_ok h j src Y X HY HX HwY HwX) as (ok & h' & E & Hok & P). exists ok, h'. split_and!; [done | | |].
  - destruct ok; [| subst h'; by apply touches_refl]. destruct P as (Z & -> & HZ & _). apply touches_insert; [by apply touches_refl | apply list_elem_of_here | done].
  - intros -> i [= <-]. destruct P as (Z & -> & P). exists Z. by rewrite lookup_insert_eq.
  - intros Hr. apply Hok. apply (Hr j Y (list_elem_of_here _ _) HY). done.
Qed.

Lemma apart_from_spec o n dv t i :
  apart_from o n dv t = Some i -> t <> Some n -> t <> Some dv -> i <> n /\ i <> dv /\ (o = Some i \/ (t = Some i)).
Proof.
  intros E H1 H2. unfold apart_from in E. destruct o as [j |]; [| split_and!; [congruence | congruence | by right]].
  destruct (Nat.eqb_spec j n), (Nat.eqb_spec j dv); cbn [orb] in E; split_and!; try congruence; (by left) || (by right).
Qed.

Lemma growing_copy_to dst src : growing (copy_to alloc_ok dst src).
Proof. unfold copy_to. grow. Qed.

Lemma growing_consttime q r tmp n v bits : growing (consttime_main alloc_ok q r tmp n v bits).
Proof. unfold consttime_main, zero_words. grow. Qed.

Lemma five_apart (l1 l2 l3 l4 l5 : list nat) q r t :
  NoDup ((l1 ++ l2) ++ l3 ++ l4 ++ l5) -> q ∈ l1 \/ q ∈ l3 -> r ∈ l2 \/ r ∈ l4 -> t ∈ l5 ->
  q <> r /\ q <> t /\ r <> t /\ (q ∉ l2) /\ (r ∉ l1) /\ [q; r; t] ⊆ (l1 ++ l2) ++ l3 ++ l4 ++ l5.
Proof.
  rewrite <- app_assoc, !NoDup_app. intros (_ & D1 & _ & D2 & _ & D3 & _ & D4 & _) Hq Hr Ht. repeat setoid_rewrite elem_of_app in D1. repeat setoid_rewrite elem_of_app in D2. setoid_rewrite elem_of_app in D3.
  split_and!; try (intros Hi; subst; destruct Hq, Hr;
    match goal with D : forall x, x ∈ ?l -> _, H : ?x ∈ ?l |- False => apply (D x H); tauto end).
  intros i [-> | [-> | [-> | Hi%elem_of_nil]%elem_of_cons]%elem_of_cons]%elem_of_cons; rewrite ?elem_of_app; tauto.
Qed.

Lemma option_cases {A} (o : option A) : o = None \/ exists x, o = Some x.
Proof. destruct o; eauto. Qed.

Section DivConsttime.
Context (h : gmap nat BIGNUM) (quotient remainder : option nat) (numerator divisor : nat) (bits : Z) (tmp_q tmp_r tmp : option nat) (N V : BIGNUM).
Let outs : list nat := option_list quotient ++ option_list remainder.
Let temps : list nat := option_list tmp_q ++ option_list tmp_r ++ option_list tmp.
Context (HhN : h !! numerator = Some N) (HhV : h !! divisor = Some V) (HN : wf N) (HV : wf V) (Hbits : bits <= BN_num_bits V).
Context (Hall : objects h (outs ++ temps)) (Hdist : NoDup (outs ++ temps)) (Hap : forall i, i ∈ temps -> apart i numerator /\ apart i divisor).

(** The words of a constant-time result: as many as those of [X], whatever the value [v]. *)
Definition padded (h' : gmap nat BIGNUM) (o : option nat) (v : Z) (X : BIGNUM) : Prop :=
  forall i, o = Some i -> exists Y, h' !! i = Some Y /\ wf Y /\ val Y = v /\ neg Y = false /\ width Y = width X.

Definition consttime_enough : Prop := tmp_q <> None /\ tmp_r <> None /\ tmp <> None /\ roomy alloc_ok h (outs ++ temps) (Nat.max (width N) (width V)).

(** The objects the loops work on. *)
Lemma consttime_targets q r t :
  apart_from quotient numerator divisor tmp_q = Some q -> apart_from remainder numerator divisor tmp_r = Some r -> tmp = Some t ->
  apart q r /\ apart q t /\ apart r t /\ apart numerator q /\ apart numerator r /\ apart numerator t /\ (q ∉ option_list remainder) /\ (r ∉ option_list quotient) /\ [q; r; t] ⊆ outs ++ temps.
Proof.
  intros Eq Er Et.
  assert (forall o x, option_list o ⊆ temps -> o = Some x -> apart x numerator /\ apart x divisor) as Htemp by (intros o x Ho E; apply Hap, Ho, (elem_option_list alloc_ok); done).
  assert (forall o x, option_list o ⊆ temps -> x = numerator \/ x = divisor -> o <> Some x) as Hn.
  { intros o x Ho Hx E. destruct (Htemp o x Ho E) as [H1 H2]. unfold apart in *. destruct Hx; congruence. }
  assert (option_list tmp_q ⊆ temps /\ option_list tmp_r ⊆ temps /\ option_list tmp ⊆ temps) as (S1 & S2 & S3) by (unfold temps; set_solver).
  apply apart_from_spec in Eq as (Q1 & Q2 & Q3); [| by apply Hn; [| left] | by apply Hn; [| right]].
  apply apart_from_spec in Er as (R1 & R2 & R3); [| by apply Hn; [| left] | by apply Hn; [| right]].
  destruct (Htemp tmp t S3 Et) as [T1 T2]. rewrite <- !(elem_option_list alloc_ok) in Q3. rewrite <- !(elem_option_list alloc_ok) in R3. rewrite <- (elem_option_list alloc_ok) in Et. clear Htemp Hn S1 S2 S3.
  unfold outs, temps in *. destruct (five_apart _ _ _ _ _ q r t Hdist Q3 R3 Et) as (H1 & H2 & H3 & H4 & H5 & H6). unfold apart in *. split_and!; congruence || done.
Qed.

Lemma div_consttime_outcome :
  exists ok h', bn_div_consttime alloc_ok quotient remainder numerator divisor bits tmp_q tmp_r tmp h = Some (ok, h') /\ touches h h' (outs ++ temps) /\
    (ok = true -> neg N = false /\ neg V = false /\ mag V <> 0 /\ padded h' quotient (mag N / mag V) N /\ padded h' remainder (mag N mod mag V) V) /\
    (neg N = false -> neg V = false -> mag V <> 0 -> consttime_enough -> ok = true).
Proof.
  unfold bn_div_consttime. erewrite bind_eq by (by apply load_eq). erewrite bind_eq by (by apply load_eq). unfold BN_is_negative.
  destruct (neg N) eqn:NN; cbn [orb]; [exists false, h; split_and!; [done | by apply touches_refl | done | done] |].
  destruct (neg V) eqn:NV; cbn [orb]; [exists false, h; split_and!; [done | by apply touches_refl | done | done] |].
  destruct (BN_is_zero V) eqn:Ez; [apply is_zero_spec in Ez; [| done]; exists false, h; split_and!; [done | by apply touches_refl | done | by intros] |].
  assert (mag V <> 0) as Hz by (intros E0; apply is_zero_spec in E0; [congruence | done]).
  assert (apart_from quotient numerator divisor tmp_q = None \/ apart_from remainder numerator divisor tmp_r = None \/ tmp = None -> consttime_enough -> False) as Hnone.
  { intros Hn (H1 & H2 & H3 & _). assert (forall o t, t <> None -> apart_from o numerator divisor t <> None) as Ha by (intros [j |] t Ht; cbn; [by destruct (_ || _) | done]).
    destruct Hn as [E | [E | E]]; [by apply (Ha quotient tmp_q) | by apply (Ha remainder tmp_r) | done]. }
  destruct (apart_from quotient numerator divisor tmp_q) as [q |] eqn:Eq; [| exists false, h; split_and!; [done | by apply touches_refl | done |]; intros _ _ _ He; by destruct (Hnone ltac:(by left) He)].
  destruct (apart_from remainder numerator divisor tmp_r) as [r |] eqn:Er; [| exists false, h; split_and!; [done | by apply touches_refl | done |]; intros _ _ _ He; by destruct (Hnone ltac:(by right; left) He)].
  destruct (option_cases tmp) as [Et | [t Et]]; rewrite Et.
  { exists false, h. split_and!; [done | by apply touches_refl | done |]. intros _ _ _ He. by destruct (Hnone ltac:(by right; right) He). }
  destruct (consttime_targets q r t Eq Er Et) as (A1 & A2 & A3 & A4 & A5 & A6 & Hqr & Hrq & Hsub).
  destruct (Hall q ltac:(apply Hsub; set_solver)) as (Q & HhQ & HQ). destruct (Hall r ltac:(apply Hsub; set_solver)) as (R & HhR & HR). destruct (Hall t ltac:(apply Hsub; set_solver)) as (T & HhT & HT).
  destruct (consttime_main_spec h q r t numerator divisor Q R T N V bits) as (ok & Q' & R' & T' & E1 & HQ' & HR' & HT' & P1 & Ok1); try done.
  erewrite bind_eq by exact E1. set (h1 := <[q := Q']> _) in *. assert (mono h h1) as Hm1 by (by apply (growing_consttime q r t numerator divisor bits h ok)).
  assert (touches h h1 (outs ++ temps)) as T1 by (unfold h1; repeat (apply touches_insert; [| apply Hsub; set_solver | done]); by apply touches_refl).
  assert (consttime_enough -> ok = true) as Ok1'.
  { intros (_ & _ & _ & Hr). apply Ok1; [apply (Hr q Q) | apply (Hr r R) | apply (Hr t T)]; try done; (apply Hsub; set_solver) || lia. }
  destruct ok; cbn [negb]; [| exists false, h1; split_and!; [done | done | done |]; intros _ _ _ He; by apply Ok1'].
  destruct (P1 eq_refl) as (M1 & W1 & N1 & M2 & W2 & N2).
  destruct (copy_to_spec h1 quotient q Q') as (ok & h2 & E2 & T2 & P2 & Ok2); [unfold h1; look | done | intros i Hi; apply T1; unfold outs; set_solver |]. erewrite bind_eq by exact E2.
  assert (touches h h2 (outs ++ temps)) as T2' by (apply (touches_trans _ h1); [done |]; apply (touches_more _ _ _ _ T2); [unfold outs; set_solver | apply T1]).
  assert (consttime_enough -> ok = true) as Ok2'.
  { intros (_ & _ & _ & Hr). apply Ok2. apply (roomy_sub _ _ (outs ++ temps) _ (Nat.max (width N) (width V))); [unfold outs; set_solver | lia |]. by apply (roomy_mono _ h). }
  destruct ok; cbn [negb]; [| exists false, h2; split_and!; [done | done | done |]; intros _ _ _ He; by apply Ok2'].
  assert (h2 !! r = Some R') as HhR2 by (rewrite (proj1 T2) by done; unfold h1; look).
  destruct (copy_to_spec h2 remainder r R') as (ok & h3 & E3 & T3 & P3 & Ok3); [done | done | intros i Hi; apply T2'; unfold outs; set_solver |]. exists ok, h3.
  split_and!; [exact E3 | apply (touches_trans _ h2); [done |]; apply (touches_more _ _ _ _ T3); [unfold outs; set_solver | apply T2'] | |].
  - intros Eok. split_and!; [done | done | done | |].
    + intros j Hj. destruct (P2 eq_refl j Hj) as (Y & HY & HwY & L1 & L2 & L3). exists Y. split_and!; [| done | unfold val, mag; rewrite L1, L3, N1; exact M1 | congruence | congruence].
      rewrite (proj1 T3); [done |]. intros Hin. unfold outs in Hdist. apply NoDup_app in Hdist as (Hd & _ & _). apply NoDup_app in Hd as (_ & Hd & _). apply (Hd j); [by apply (elem_option_list alloc_ok) | done].
    + intros j Hj. destruct (P3 Eok j Hj) as (Y & HY & HwY & L1 & L2 & L3). exists Y. split_and!; [done | done | unfold val, mag; rewrite L1, L3, N2; exact M2 | congruence | congruence].
  - intros _ _ _ (_ & _ & _ & Hr). apply Ok3. apply (roomy_sub _ _ (outs ++ temps) _ (Nat.max (width N) (width V))); [unfold outs; set_solver | lia |].
    apply (roomy_mono _ h); [| done | done]. transitivity h1; [done |]. by apply (growing_copy_to quotient q h1 true).
Qed.
End DivConsttime.
End Mod.

(** C21: The modular functions are exact: [BN_mod_add], [BN_mod_sub], [BN_mod_mul], [BN_mod_sqr] and
    [BN_mod_lshift1] leave in the result, which may be any of the operands but not the modulus, the
    least non-negative residue of the sum, difference, product, square or double, in canonical
    form, whatever the signs of the numbers and of the modulus.  They touch nothing but the result
    and the temporaries, and fail only for a zero modulus or for want of temporaries or room. *)
Theorem bn_mod_exact alloc_ok h r a b m t T tmp_rr tmp_t stack R A B M X :
  h !! r = Some R -> h !! a = Some A -> h !! b = Some B -> h !! m = Some M -> h !! t = Some X -> wf R -> wf A -> wf B -> wf M -> wf X ->
  signed_ok A -> apart r m -> (32 <= length stack)%nat ->
  let l := option_list tmp_rr ++ option_list tmp_t in
  temp h tmp_rr [t; a; b; r] -> temp h tmp_t (t :: a :: b :: r :: option_list tmp_rr) -> (m ∉ t :: r :: l) -> temps_ok h T (t :: m :: r :: l) ->
  let sum_room := mod_room alloc_ok h r T R M (S (Nat.max (width A) (width B))) in
  let temps := t_sdiv T <> None /\ t_res T <> None /\ roomy alloc_ok h (r :: given T) (width A + width B + width A + width M + 4) in
  reduced (BN_mod_add alloc_ok r a b m T) h (r :: r :: given T) r (val A + val B) M sum_room /\
  reduced (BN_mod_sub alloc_ok r a b m T) h (r :: r :: given T) r (val A - val B) M sum_room /\
  reduced (BN_mod_lshift1 alloc_ok r a m T) h (r :: r :: given T) r (val A * 2) M (mod_room alloc_ok h r T R M (width A + 1)) /\
  reduced (BN_mod_mul alloc_ok r a b m (Some t) tmp_rr tmp_t stack T) h (t :: r :: l ++ given T) r (val A * val B) M
    (mul_room alloc_ok h X tmp_rr tmp_t (8 * Nat.max (width A) (width B)) /\ temps) /\
  reduced (BN_mod_sqr alloc_ok r a m tmp_rr tmp_t stack T) h (r :: r :: l ++ given T) r (val A * val A) M
    (mul_room alloc_ok h R tmp_rr tmp_t (4 * width A) /\ temps).
Proof.
  intros Hr Ha Hb Hm Ht HR HA HB HM HX SA Hrm Hst l Hrr Htt Hml HT sum_room temps.
  assert (temps_ok h T [r; m; r]) as HT1 by (destruct HT as [T1 T2 T3 T4]; constructor; try done; intros i Hi Hin; apply (T4 i Hi); set_solver).
  assert (forall p l' v n E, (n <= width A + width B + width A)%nat -> reduced p h l' r v M (E /\ t_sdiv T <> None /\ t_res T <> None /\ roomy alloc_ok h (r :: given T) (n + width M + 4)) -> reduced p h l' r v M (E /\ temps)) as Hweak.
  { intros p l' v n E Hn (ok & h' & E1 & E2 & E3 & E4). exists ok, h'. split_and!; try done. intros Hz (H1 & H2 & H3 & H4). apply E4; [done |]. split_and!; [done | done | done |].
    apply (roomy_sub _ _ (r :: given T) _ (width A + width B + width A + width M + 4)); [done | lia | done]. }
  split_and!.
  - by apply mod_add_outcome.
  - by apply mod_sub_outcome.
  - by apply mod_lshift1_outcome.
  - apply (Hweak _ _ _ (width A + width B)%nat); [lia |]. apply (mod_mul_outcome alloc_ok h r a b m T R A B M); try done.
    + intros i Hi. destruct (Hrr i Hi). set_solver.
    + intros i Hi. destruct (Htt i Hi). set_solver.
    + set_solver.
  - apply (Hweak _ _ _ (width A + width A)%nat); [lia |]. apply (mod_sqr_outcome alloc_ok h r a m T R A M); try done.
    + intros i Hi. destruct (Hrr i Hi). set_solver.
    + intros i Hi. destruct (Htt i Hi). set_solver.
    + set_solver.
    + destruct HT as [T1 T2 T3 T4]. constructor; try done. intros i Hi Hin. apply (T4 i Hi). set_solver.
Qed.
Lemma bn_mod_exact_witness :
  let A := mk_bn [5; 7; 0] 3 true true false in let B := mk_bn [2 ^ 64 - 1] 1 false true false in let M := mk_bn [11] 1 true true false in
  let h := store_of [(1%nat, A); (2%nat, B); (3%nat, M); (4%nat, BN_new); (5%nat, BN_new); (6%nat, BN_new)] in
  exists h', BN_mod_mul (fun _ => true) 1 1 2 3 (Some 4%nat) (Some 5%nat) (Some 6%nat) (replicate 32 0) ten_on h = Some (true, h') /\
    holds_value h' (Some 1%nat) ((val A * val B) mod 11).
Proof.
  intros A B M h. assert (wf A) as HA by solve_wf. assert (wf B) as HB by solve_wf. assert (wf M) as HM by solve_wf. assert (wf BN_new) as H0 by solve_wf.
  destruct (bn_mod_exact (fun _ => true) h 1 1 2 3 4 ten_on (Some 5%nat) (Some 6%nat) (replicate 32 0) A A B M BN_new) as (_ & _ & _ & (ok & h' & E & _ & H & Hok) & _);
    [reflexivity | reflexivity | reflexivity | reflexivity | reflexivity | done | done | done | done | done | discriminate | unfold apart; lia | cbn; lia | | | | |].
  - intros t [= <-]. split; [set_solver by lia | by exists BN_new].
  - intros t [= <-]. split; [cbn; set_solver by lia | by exists BN_new].
  - cbn. set_solver by lia.
  - apply ten_on_ok; [intros t Ht; assert (t = 10 \/ t = 11 \/ t = 12 \/ t = 13)%nat as [-> | [-> | [-> | ->]]] by set_solver; reflexivity | intros i Hi; cbn in Hi; set_solver by lia].
  - assert (forall i X k, h !! i = Some X -> (k <= 100)%nat -> room (fun _ => true) X k = true) as Hroom.
    { intros i X k HX Hk. apply (store_of_roomy [(1%nat, A); (2%nat, B); (3%nat, M); (4%nat, BN_new); (5%nat, BN_new); (6%nat, BN_new)] [i] 100 ltac:(by repeat constructor) ltac:(vm_compute; discriminate) i X); [apply list_elem_of_here | exact HX | exact Hk]. }
    assert (ok = true) as -> by (apply Hok; [vm_compute; discriminate |]; unfold mul_room; split_and!; [exists 5%nat, BN_new; split_and!; [done | done |]; intros k Hk; apply (Hroom 5%nat); [reflexivity | cbn in Hk; lia] | exists 6%nat, BN_new; split_and!; [done | done |]; intros k Hk; apply (Hroom 6%nat); [reflexivity | cbn in Hk; lia] | intros k Hk; apply (Hroom 4%nat); [reflexivity | cbn in Hk; lia] | discriminate | discriminate | intros i X Hi HX k Hk; apply (Hroom i X k HX); cbn in Hk; lia]).
    exists h'. split; [done |]. exact (proj2 (H eq_refl)).
Defined.

(** C22: Division in constant time is exact: for non-negative numbers and a non-zero divisor whose bit
    length is at least the public bound, [bn_div_consttime] returns the quotient in as many words as
    the numerator has and the remainder in as many as the divisor has, whatever their values, for
    any aliasing of the results with the operands.  It refuses negative numbers and a zero divisor,
    and otherwise fails only for want of temporaries or room. *)
Theorem bn_div_consttime_exact alloc_ok h quotient remainder numerator divisor bits tmp_q tmp_r tmp N V :
  let outs := option_list quotient ++ option_list remainder in
  let temps := option_list tmp_q ++ option_list tmp_r ++ option_list tmp in
  h !! numerator = Some N -> h !! divisor = Some V -> wf N -> wf V -> bits <= BN_num_bits V ->
  objects h (outs ++ temps) -> NoDup (outs ++ temps) -> (forall i, i ∈ temps -> apart i numerator /\ apart i divisor) ->
  exists ok h', bn_div_consttime alloc_ok quotient remainder numerator divisor bits tmp_q tmp_r tmp h = Some (ok, h') /\ touches h h' (outs ++ temps) /\
    (ok = true -> neg N = false /\ neg V = false /\ mag V <> 0 /\ padded h' quotient (mag N / mag V) N /\ padded h' remainder (mag N mod mag V) V) /\
    (neg N = false -> neg V = false -> mag V <> 0 -> consttime_enough alloc_ok h quotient remainder tmp_q tmp_r tmp N V -> ok = true).
Proof. intros. by apply div_consttime_outcome. Qed.

Lemma bn_div_consttime_exact_witness :
  let N := mk_bn [5; 7; 0] 3 false true false in let V := mk_bn [2 ^ 64 - 1; 0] 2 false true false in
  let h := store_of [(1%nat, N); (2%nat, V)] in
  exists h', bn_div_consttime (fun _ => true) (Some 1%nat) (Some 2%nat) 1 2 64 (Some 10%nat) (Some 11%nat) (Some 12%nat) h = Some (true, h') /\
    padded h' (Some 1%nat) 7 N /\ padded h' (Some 2%nat) 12 V.
Proof.
  intros N V h. assert (wf N) as HN by solve_wf. assert (wf V) as HV by solve_wf.
  destruct (bn_div_consttime_exact (fun _ => true) h (Some 1%nat) (Some 2%nat) 1 2 64 (Some 10%nat) (Some 11%nat) (Some 12%nat) N V) as (ok & h' & E & _ & H & Hok).
  - reflexivity.
  - reflexivity.
  - exact HN.
  - exact HV.
  - vm_compute. discriminate.
  - intros i Hi. assert (i = 1 \/ i = 2 \/ i = 10 \/ i = 11 \/ i = 12)%nat as [-> | [-> | [-> | [-> | ->]]]] by (cbn in Hi; set_solver); eexists; (split; [reflexivity | solve_wf]).
  - cbn. repeat (apply NoDup_cons_2; [set_solver by lia |]). apply NoDup_nil_2.
  - intros i Hi. unfold apart. cbn in Hi. split; intros ->; set_solver by lia.
  - assert (ok = true) as -> by (apply Hok; [reflexivity | reflexivity | vm_compute; discriminate |]; split_and!; [discriminate | discriminate | discriminate | apply store_of_roomy; [by repeat constructor | vm_compute; discriminate]]).
    exists h'. split; [done |]. destruct (H eq_refl) as (_ & _ & _ & H1 & H2). split; [exact H1 | exact H2].
Defined.
End BnModSpec.
