(* ===== verification/BnModConst.v ===== *)
(** The constant-time modular functions of div.c: on numbers below the modulus, addition, subtraction
    and shifts leave the residue in as many words as the modulus has. *)

From S2P Require Import Prelude Internal Store Modes BnWords Bn BnAdd BnShift BnMulWords BnMul BnDivWords BnDiv BnDivSpec BnModSpec.

Open Scope Z_scope.

Module BnModConst.
Import Internal Modes BnWords Bn BnAdd BnShift BnMulWords BnMul BnDivWords BnDiv BnDivSpec BnModSpec.
Open Scope c_scope.

(** The array of [i] starts with the words [ws], whose value is [v]. *)
Definition words_at (h : gmap nat BIGNUM) (i w : nat) (v : Z) : Prop :=
  exists ws, holds h i 0 ws /\ length ws = w /\ words_ok ws /\ value ws = v.

Lemma words_at_other h i w v t T : apart i t -> words_at h i w v -> words_at (<[t := T]> h) i w v.
Proof. intros Hne (ws & Hh & P). exists ws. split; [by apply holds_other | done]. Qed.

Lemma words_at_of h i X w : h !! i = Some X -> wf X -> (w <= length (d X))%nat -> words_at h i w (value (take w (d X))).
Proof.
  intros HX [Hd Hw Hm] Hl. exists (take w (d X)). rewrite length_take, Nat.min_l by lia. split_and!; [| done | auto with word_db | done].
  exists X. rewrite length_take, Nat.min_l, drop_0 by lia. split_and!; (done || lia).
Qed.

(** [r] with its first words replaced. *)
Lemma put_words_at h r R ws :
  h !! r = Some R -> wf R -> (length ws <= length (d R))%nat -> words_ok ws ->
  let R' := set_d (overwrite (d R) 0 ws) R in
  put_words r 0 ws h = Some (tt, <[r := R']> h) /\ wf R' /\ length (d R') = length (d R) /\ words_at (<[r := R']> h) r (length ws) (value ws) /\ take (length ws) (d R') = ws.
Proof.
  intros Hr HR Hl Hws. cbv zeta. destruct (put_value R ws HR Hl Hws) as (H1 & H2 & H3). split_and!; [by apply put_eq | exact H1 | exact H3 | | exact H2].
  exists ws. split_and!; [by apply put_then_read | done | done | done].
Qed.

(** An operation on word arrays that computes [f] modulo the modulus. *)
Definition computes_mod (op : nat -> nat -> nat -> nat -> nat -> nat -> prog unit) (f : Z -> Z -> Z) : Prop :=
  forall h r a b m tmp w R T x y M,
    h !! r = Some R -> h !! tmp = Some T -> wf R -> wf T -> (w <= length (d R))%nat -> (w <= length (d T))%nat ->
    apart r tmp -> apart r m -> apart a tmp -> apart b tmp -> apart m tmp ->
    words_at h a w x -> words_at h b w y -> words_at h m w M -> x < M -> y < M ->
    exists R' T', op r a b m tmp w h = Some (tt, <[r := R']> (<[tmp := T']> h)) /\ wf R' /\ wf T' /\ length (d T') = length (d T) /\
      length (d R') = length (d R) /\ width R' = width R /\ neg R' = neg R /\ value (take w (d R')) = f x y mod M.

Lemma reduce_in_place_spec h r m tmp w R T carry A M :
  h !! r = Some R -> h !! tmp = Some T -> wf R -> wf T -> (w <= length (d R))%nat -> (w <= length (d T))%nat -> apart r tmp -> apart m tmp ->
  words_at h r w (A - 2 ^ (64 * Z.of_nat w) * carry) -> words_at h m w M -> 0 <= carry <= 1 -> A < 2 * M ->
  exists rs T', reduce_in_place r carry m tmp w h = Some (tt, <[r := set_d (overwrite (d R) 0 rs) R]> (<[tmp := T']> h)) /\ wf T' /\ length (d T') = length (d T) /\
    length rs = w /\ words_ok rs /\ value rs = A mod M.
Proof.
  intros Hr Ht HR HT LR LT Nrt Nmt (xs & Hx & Lx & Ox & Vx) (ms & Hms & Lm & Om & Vm) Hc HA. unfold reduce_in_place.
  erewrite bind_eq by (by apply read_holds). erewrite bind_eq by (by apply read_holds).
  destruct (reduce_once_spec xs carry ms) as (rs & ts & _ & E & Lr & Or & Vr & Lt & Ot); [congruence | done | done | done | rewrite Lm, Vx, Vm; lia |].
  rewrite (bind_some _ _ _ _ E). destruct (put_words_at h tmp T ts Ht HT ltac:(lia) Ot) as (E1 & HT' & LT' & _ & _). erewrite bind_eq by exact E1.
  exists rs. eexists. split_and!; [apply put_eq; [look | lia] | exact HT' | done | lia | done |]. rewrite Vr, Lm, Vx, Vm. f_equal. lia.
Qed.

Lemma mod_add_computes : computes_mod mod_add_words Z.add.
Proof.
  intros h r a b m tmp w R T x y M Hr Ht HR HT LR LT Nrt Nrm Nat_ Nbt Nmt (xs & Hx & Lx & Ox & Vx) (ys & Hy & Ly & Oy & Vy) Hm Bx By. unfold mod_add_words.
  erewrite bind_eq by (by apply read_holds). erewrite bind_eq by (by apply read_holds).
  pose proof (add_words_spec xs ys ltac:(congruence) Ox Oy) as Hs. destruct (bn_add_words xs ys) as [s carry]. destruct Hs as (Es & Ls & Os & Hc). rewrite Lx in Es, Ls.
  destruct (put_words_at h r R s Hr HR ltac:(lia) Os) as (E1 & HR1 & LR1 & At1 & _). erewrite bind_eq by exact E1. set (R1 := set_d (overwrite (d R) 0 s) R) in *.
  rewrite Ls in At1. replace (value s) with (x + y - 2 ^ (64 * Z.of_nat w) * carry) in At1 by lia.
  destruct (reduce_in_place_spec (<[r := R1]> h) r m tmp w R1 T carry (x + y) M) as (rs & T' & E2 & HT' & LT' & Lrs & Ors & Vrs); try done; try lia; [look | look | apply words_at_other; [unfold apart in *; congruence | done] |].
  destruct (put_value R1 rs HR1 ltac:(lia) Ors) as (HR2 & TR2 & LR2). eexists _, T'. split_and!; [rewrite E2 | exact HR2 | done | done | lia | done | done | by rewrite <- Lrs, TR2].
  rewrite (insert_insert_ne _ tmp r), insert_insert_eq by (unfold apart in *; congruence). done.
Qed.

Lemma mod_sub_computes : computes_mod mod_sub_words Z.sub.
Proof.
  intros h r a b m tmp w R T x y M Hr Ht HR HT LR LT Nrt Nrm Nat_ Nbt Nmt (xs & Hx & Lx & Ox & Vx) (ys & Hy & Ly & Oy & Vy) (ms & Hms & Lm & Om & Vm) Bx By. unfold mod_sub_words.
  erewrite bind_eq by (by apply read_holds). erewrite bind_eq by (by apply read_holds).
  destruct (mod_sub_words_spec xs ys ms) as (rs & ts & E & Lrs & Ors & Vrs & Lts & Ots); try done; try congruence; try lia. unfold bn_mod_sub_words in E.
  pose proof (sub_words_spec xs ys ltac:(congruence) Ox Oy) as Hs. destruct (bn_sub_words xs ys) as [s borrow]. destruct Hs as (_ & Ls & Os & _).
  destruct (put_words_at h r R s Hr HR ltac:(lia) Os) as (E1 & HR1 & LR1 & _ & _). erewrite bind_eq by exact E1. set (R1 := set_d (overwrite (d R) 0 s) R) in *.
  assert (holds (<[r := R1]> h) r 0 s) as Hh1 by (apply put_then_read; [done | lia]).
  erewrite bind_eq by (apply read_holds; [exact Hh1 | lia]). erewrite bind_eq by (apply read_holds; [apply holds_other; [unfold apart in *; congruence | exact Hms] | done]).
  destruct (bn_add_words s ms) as [t e] eqn:Et. injection E as E2 E3. subst t.
  destruct (put_words_at (<[r := R1]> h) tmp T ts) as (E4 & HT1 & LT1 & _ & _); [look | done | lia | done |]. erewrite bind_eq by exact E4. set (T1 := set_d (overwrite (d T) 0 ts) T) in *.
  erewrite bind_eq by (apply read_holds; [apply put_then_read; [look | lia] | lia]).
  erewrite bind_eq by (apply read_holds; [apply holds_other; [exact Nrt | exact Hh1] | lia]). rewrite E2.
  destruct (put_value R1 rs HR1 ltac:(lia) Ors) as (HR2 & TR2 & LR2).
  eexists _, T1. split_and!; [rewrite (put_eq _ r R1) by (look || lia) | exact HR2 | done | done | lia | done | done | rewrite <- Lm, <- Lrs, TR2, Vrs; congruence].
  rewrite (insert_insert_ne _ tmp r), insert_insert_eq by (unfold apart in *; congruence). done.
Qed.

Section Consttime.
Context (alloc_ok : nat -> bool).
Local Abbreviation room := (room alloc_ok).

(** * Temporaries of a given width *)

Lemma scratch_spec h w t :
  objects h (option_list t) ->
  exists o h', bn_scratch_space_from_ctx alloc_ok w t h = Some (o, h') /\ touches h h' (option_list t) /\
    (forall i, o = Some i -> t = Some i /\ exists X, h' !! i = Some X /\ wf X /\ (w <= length (d X))%nat) /\
    (t <> None -> roomy alloc_ok h (option_list t) w -> o <> None).
Proof.
  intros Ho. destruct t as [i |]; cbn [bn_scratch_space_from_ctx]; [| exists None, h; split_and!; [done | by apply touches_refl | done | done]].
  destruct (Ho i (list_elem_of_here _ _)) as (X & HX & HwX). erewrite bind_eq by (by apply wexpand_eq). destruct (room X w) eqn:Hr; cbn [negb].
  2: { exists None, h. split_and!; [done | by apply touches_refl | done |]. intros _ H. rewrite (H i X (list_elem_of_here _ _) HX w) in Hr by lia. done. }
  destruct (expanded_spec X w HwX Hr) as (HE & LE & _). erewrite bind_eq by apply modify_cell. eexists (Some i), _. split; [done |].
  assert (wf (set_width w (set_neg false (expanded X w)))) as HY by (apply wf_set_width; [by apply wf_set_neg | done]).
  split_and!; [apply touches_insert; [by apply touches_refl | apply list_elem_of_here | done] | | done]. intros j [= <-]. split; [done |].
  eexists. split; [apply lookup_insert_eq |]. split; [done | exact LE].
Qed.

Lemma growing_scratch w t : growing (bn_scratch_space_from_ctx alloc_ok w t).
Proof. pose proof (growing_wexpand alloc_ok). unfold bn_scratch_space_from_ctx. grow. Qed.

(** The low words of a number that fits in them. *)
Lemma low_words X w : wf X -> (w <= width X)%nat -> mag X < 2 ^ (64 * Z.of_nat w) -> value (take w (d X)) = mag X.
Proof.
  intros HX Hw Hm. replace (take w (d X)) with (take w (limbs X)) by (unfold limbs; rewrite take_take; f_equal; lia).
  apply value_low; [by apply limbs_ok | by rewrite length_limbs | done].
Qed.

Lemma resize_words_spec h i X w :
  h !! i = Some X -> wf X -> mag X < 2 ^ (64 * Z.of_nat w) ->
  exists ok h', bn_resize_words alloc_ok i w h = Some (ok, h') /\ (room X w = true -> ok = true) /\
    if ok then exists Y, h' = <[i := Y]> h /\ wf Y /\ width Y = w /\ mag Y = mag X /\ neg Y = neg X else h' = h.
Proof.
  intros HX HwX Hm. unfold bn_resize_words. erewrite bind_eq by (by apply load_eq). destruct (Nat.leb_spec (width X) w) as [Hw | Hw].
  - erewrite bind_eq by (by apply wexpand_eq). exists (room X w). destruct (room X w) eqn:Hr; cbn [negb]; [| by exists h].
    destruct (expanded_spec X w HwX Hr) as ([HEd HEw HEm] & LE & Ll & Lw & Ln). set (E := expanded X w) in *.
    erewrite bind_eq by (apply put_eq; [look | rewrite length_replicate; lia]). rewrite insert_insert_eq. erewrite bind_eq by apply modify_cell.
    eexists. split; [done |]. split; [done |]. eexists. split; [done |].
    assert (length (overwrite (d E) (width X) (replicate (w - width X) 0)) = length (d E)) as Lo by (apply length_overwrite; rewrite length_replicate; lia).
    split_and!; [constructor; cbn [d width set_width set_d]; [| lia | lia] | done | | done].
    + unfold overwrite. rewrite !words_ok_app. split_and!; [auto with word_db | apply words_ok_zeros | auto with word_db].
    + unfold mag, limbs at 1. cbn [d width set_width set_d]. unfold overwrite. rewrite app_assoc, take_app_length' by (rewrite length_app, length_take, length_replicate; lia).
      rewrite value_app, value_zeros, Z.mul_0_r, Z.add_0_r. rewrite <- Ll. unfold limbs. by rewrite Lw.
  - rewrite (proj2 (fits_in_words_spec X w HwX ltac:(lia))) by (symmetry; apply low_words; (done || lia)). cbn [negb]. erewrite bind_eq by (by apply modify_eq).
    exists true. eexists. split; [done |]. split; [done |]. eexists. split; [done |]. pose proof HwX as [Hd Hwd Hmx].
    split_and!; [apply wf_set_width; [done | lia] | done | unfold mag at 1, limbs; cbn [d width set_width]; apply low_words; (done || lia) | done].
Qed.

Lemma growing_resize i w : growing (bn_resize_words alloc_ok i w).
Proof. pose proof (growing_wexpand alloc_ok). unfold bn_resize_words. grow. Qed.

Lemma growing_resized bn w t : growing (bn_resized_from_ctx alloc_ok bn w t).
Proof. pose proof (growing_copy alloc_ok). pose proof growing_resize. pose proof growing_scratch. unfold bn_resized_from_ctx. grow. Qed.

Lemma resized_spec h bn X w t :
  h !! bn = Some X -> wf X -> mag X < 2 ^ (64 * Z.of_nat w) -> objects h (option_list t) -> (bn ∉ option_list t) ->
  exists o h', bn_resized_from_ctx alloc_ok bn w t h = Some (o, h') /\ touches h h' (option_list t) /\
    (forall i, o = Some i -> (i = bn \/ t = Some i) /\ words_at h' i w (mag X)) /\
    (t <> None -> roomy alloc_ok h (option_list t) w -> o <> None).
Proof.
  intros HX HwX Hm Ho Hnt. unfold bn_resized_from_ctx. erewrite bind_eq by (by apply load_eq). destruct (Nat.leb_spec w (width X)) as [Hw | Hw].
  { rewrite bind_assert by (apply fits_in_words_spec; [done | done | symmetry; by apply low_words]). exists (Some bn), h. split_and!; [done | by apply touches_refl | | done].
    intros i [= <-]. split; [by left |]. rewrite <- (low_words X w HwX Hw Hm). apply words_at_of; [done | done |]. destruct HwX. lia. }
  destruct (scratch_spec h w t Ho) as (o & h1 & E1 & T1 & P1 & Ok1). erewrite bind_eq by exact E1. destruct o as [i |]; [| exists None, h1; by split_and!].
  destruct (P1 i eq_refl) as (Et & Y & HY & HwY & LY). assert (h1 !! bn = Some X) as HX1 by (by rewrite (proj1 T1)).
  assert (i ∈ option_list t) as Hit by (by apply (elem_option_list alloc_ok)).
  destruct (copy_outcome alloc_ok h1 i bn Y X HY HX1 HwY HwX) as (ok & h2 & E2 & Ok2 & P2). erewrite bind_eq by exact E2.
  assert (ok = true) as -> by (apply Ok2; unfold Bn.room; rewrite (proj2 (Nat.leb_le _ _)) by lia; done). cbn [negb]. destruct P2 as (Y2 & -> & HY2 & L2 & W2 & N2).
  assert (mag Y2 = mag X) as M2 by (unfold mag; by rewrite L2).
  assert (length (d Y) <= length (d Y2))%nat as Lg by (destruct (growing_copy alloc_ok i bn h1 true _ E2 i Y HY) as (Y3 & HY3 & _ & ?); rewrite lookup_insert_eq in HY3; by injection HY3 as <-).
  destruct (resize_words_spec (<[i := Y2]> h1) i Y2 w) as (ok & h3 & E3 & Ok3 & P3); [look | done | lia |]. erewrite bind_eq by exact E3.
  assert (ok = true) as -> by (apply Ok3; unfold Bn.room; rewrite (proj2 (Nat.leb_le _ _)) by lia; done). destruct P3 as (Y3 & -> & HY3 & W3 & M3 & N3). rewrite insert_insert_eq.
  eexists (Some i), _. split; [done |]. split_and!; [by apply touches_insert | | done]. intros j [= <-]. split; [by right |].
  rewrite <- M2, <- M3. unfold mag, limbs. rewrite W3. apply words_at_of; [look | done |]. destruct HY3. lia.
Qed.

(** * Addition and subtraction *)

Lemma words_at_frame h h' i w v : h' !! i = h !! i -> words_at h i w v -> words_at h' i w v.
Proof. intros E (ws & (A & HA & P1) & P2). exists ws. split; [| done]. exists A. by rewrite E. Qed.

Lemma words_at_expanded h i w v r R : h !! r = Some R -> words_at h i w v -> words_at (<[r := expanded R w]> h) i w v.
Proof.
  intros Hr Hw. destruct (decide (i = r)) as [-> | Hne]; [| by apply words_at_other]. destruct Hw as (ws & (A & HA & P1 & P2) & P3). assert (A = R) as -> by congruence.
  destruct P3 as (L3 & P3). unfold expanded. rewrite (proj2 (Nat.leb_le _ _)) by lia. rewrite insert_id by done. exists ws. split; [by exists R | done].
Qed.

Section Binary.
Context (op : nat -> nat -> nat -> nat -> nat -> nat -> prog unit) (f : Z -> Z -> Z) (Hop : computes_mod op f).
Context (h : gmap nat BIGNUM) (r a b m : nat) (tmp_a tmp_b tmp : option nat) (R A B M : BIGNUM).
Let temps : list nat := option_list tmp_a ++ option_list tmp_b ++ option_list tmp.
Context (HhR : h !! r = Some R) (HhA : h !! a = Some A) (HhB : h !! b = Some B) (HhM : h !! m = Some M) (HR : wf R) (HA : wf A) (HB : wf B) (HM : wf M).
Context (Hrm : apart r m) (HAM : mag A < mag M) (HBM : mag B < mag M).
Context (Ho : objects h temps) (Hd : NoDup temps) (Hap : forall i, i ∈ temps -> i ∉ [r; a; b; m]).

Definition mod_temps_room : Prop := tmp_a <> None /\ tmp_b <> None /\ tmp <> None /\ roomy alloc_ok h (r :: temps) (width M).

(** The operands and the scratch space are apart. *)
Lemma operand_apart i j t : (i = j /\ j ∈ [r; a; b; m]) \/ tmp_a = Some i \/ tmp_b = Some i -> tmp = Some t -> apart i t.
Proof.
  intros Hi Ht%(elem_option_list alloc_ok). unfold apart, temps in *. destruct Hi as [[-> Hj] | Hi]; [intros ->; apply (Hap t); [set_solver | done] |].
  rewrite <- !(elem_option_list alloc_ok) in Hi. intros ->. rewrite app_assoc in Hd. apply NoDup_app in Hd as (_ & H & _). apply (H t); [set_solver | done].
Qed.

Lemma mod_consttime_outcome :
  exists ok h', mod_consttime alloc_ok op r a b m tmp_a tmp_b tmp h = Some (ok, h') /\ touches h h' (r :: temps) /\
    (ok = true -> padded h' (Some r) (f (mag A) (mag B) mod mag M) M) /\ (mod_temps_room -> ok = true).
Proof.
  assert (objects h (r :: temps)) as Hor by (intros i [-> | Hi]%elem_of_cons; [by exists R | by apply Ho]).
  pose proof (mag_bound M HM) as BM. pose proof (length_limbs M HM) as LM. unfold mod_consttime. erewrite bind_eq by (by apply load_eq).
  assert (option_list tmp_a ⊆ temps /\ option_list tmp_b ⊆ temps /\ option_list tmp ⊆ temps) as (S1 & S2 & S3) by (unfold temps; set_solver).
  assert (forall o i, option_list o ⊆ temps -> i ∈ [r; a; b; m] -> i ∉ option_list o) as Hnot by (intros o i Hs Hi Hin; by apply (Hap i (Hs i Hin))).
  destruct (resized_spec h a A (width M) tmp_a) as (o1 & h1 & E1 & T1 & P1 & Ok1); [done | done | lia | intros i Hi; by apply Ho, S1 | apply Hnot; [done | set_solver] |]. erewrite bind_eq by exact E1.
  assert (forall i, i ∈ [r; a; b; m] -> h1 !! i = h !! i) as F1 by (intros i Hi; apply T1, Hnot; done).
  assert (touches h h1 (r :: temps)) as T1' by (apply (touches_more _ _ _ _ T1); [set_solver | done]). assert (mono h h1) as Mo1 by (by apply (growing_resized a (width M) tmp_a h o1)).
  destruct (resized_spec h1 b B (width M) tmp_b) as (o2 & h2 & E2 & T2 & P2 & Ok2); [rewrite F1 by set_solver; done | done | lia | intros i Hi; apply T1'; set_solver | apply Hnot; [done | set_solver] |]. erewrite bind_eq by exact E2.
  assert (forall i, i ∈ [r; a; b; m] -> h2 !! i = h !! i) as F2 by (intros i Hi; rewrite (proj1 T2) by (apply Hnot; done); by apply F1).
  assert (touches h h2 (r :: temps)) as T2' by (apply (touches_trans _ h1); [done |]; apply (touches_more _ _ _ _ T2); [set_solver | apply T1']). assert (mono h h2) as Mo2 by (transitivity h1; [done | by apply (growing_resized b (width M) tmp_b h1 o2)]).
  destruct (scratch_spec h2 (width M) tmp) as (o3 & h3 & E3 & T3 & P3 & Ok3); [intros i Hi; apply T2'; set_solver |]. erewrite bind_eq by exact E3.
  assert (forall i, i ∈ [r; a; b; m] -> h3 !! i = h !! i) as F3 by (intros i Hi; rewrite (proj1 T3) by (apply Hnot; done); by apply F2).
  assert (touches h h3 (r :: temps)) as T3' by (apply (touches_trans _ h2); [done |]; apply (touches_more _ _ _ _ T3); [set_solver | apply T2']).
  assert (mod_temps_room -> o1 <> None /\ o2 <> None /\ o3 <> None) as Hsome.
  { intros (N1 & N2 & N3 & Hr). assert (forall o, option_list o ⊆ temps -> roomy alloc_ok h (option_list o) (width M)) as Hro by (intros o Hs; apply (roomy_sub _ _ (r :: temps) _ (width M)); [set_solver | done | done]).
    assert (forall o, option_list o ⊆ temps -> objects h (option_list o)) as Hoo by (intros o Hs i Hi; by apply Ho, Hs).
    split_and!; [apply Ok1; [done | by apply Hro] | apply Ok2; [done |] | apply Ok3; [done |]]; (apply (roomy_mono _ h); [done | by apply Hoo | by apply Hro]). }
  destruct o1 as [a' |]; [| exists false, h3; split_and!; [done | done | done |]; intros He; by destruct (Hsome He)].
  destruct o2 as [b' |]; [| exists false, h3; split_and!; [done | done | done |]; intros He; by destruct (Hsome He) as (_ & ? & _)].
  destruct o3 as [t |]; [| exists false, h3; split_and!; [done | done | done |]; intros He; by destruct (Hsome He) as (_ & _ & ?)]. clear Hsome.
  destruct (P1 a' eq_refl) as (Ha' & At1). destruct (P2 b' eq_refl) as (Hb' & At2). destruct (P3 t eq_refl) as (Et & T & HhT & HT & LT). clear P1 P2 P3 Ok1 Ok2 Ok3.
  assert (apart a' t) as Nat_ by (apply (operand_apart a' a); [destruct Ha' as [-> | ?]; [left; set_solver | by right; left] | done]).
  assert (apart b' t) as Nbt by (apply (operand_apart b' b); [destruct Hb' as [-> | ?]; [left; set_solver | by right; right] | done]).
  assert (apart r t) as Nrt by (apply (operand_apart r r); [left; set_solver | done]). assert (apart m t) as Nmt by (apply (operand_apart m m); [left; set_solver | done]).
  assert (a' ∉ option_list tmp_b) as Nab.
  { destruct Ha' as [-> | Ea]; [apply Hnot; [done | set_solver] |]. intros Hin. unfold temps in Hd. apply NoDup_app in Hd as (_ & H & _). apply (H a'); [by apply (elem_option_list alloc_ok) | set_solver]. }
  assert (forall i, apart i t -> i ∉ option_list tmp) as Ntmp by (intros i Hi Hin%(elem_option_list alloc_ok); apply Hi; congruence).
  assert (words_at h3 a' (width M) (mag A)) as At1' by (apply (words_at_frame h1); [rewrite (proj1 T3) by (by apply Ntmp); by apply T2 | done]).
  assert (words_at h3 b' (width M) (mag B)) as At2' by (apply (words_at_frame h2); [by apply T3, Ntmp | done]).
  assert (h3 !! r = Some R) as HhR3 by (rewrite F3 by set_solver; done). assert (h3 !! m = Some M) as HhM3 by (rewrite F3 by set_solver; done).
  assert (words_at h3 m (width M) (mag M)) as At3' by (apply words_at_of; [done | done | by destruct HM]).
  erewrite bind_eq by (by apply wexpand_eq). destruct (room R (width M)) eqn:Hroom; cbn [negb].
  2: { exists false, h3. split_and!; [done | done | done |]. intros (_ & _ & _ & Hr). by rewrite (Hr r R (list_elem_of_here _ _) HhR (width M)) in Hroom by lia. }
  destruct (expanded_spec R (width M) HR Hroom) as (HE & LE & _). set (E := expanded R (width M)) in *.
  destruct (Hop (<[r := E]> h3) r a' b' m t (width M) E T (mag A) (mag B) (mag M)) as (R' & T' & E4 & HR' & HT' & _ & LR' & _ & _ & VR'); try done; [look | look | by apply words_at_expanded | by apply words_at_expanded | by apply words_at_expanded |].
  erewrite bind_eq by exact E4. erewrite bind_eq by apply modify_cell. eexists true, _. split; [done |].
  assert (wf (set_neg false (set_width (width M) R'))) as HR2 by (apply wf_set_neg, wf_set_width; [done | lia]).
  split_and!; [| | done].
  - apply touches_insert; [| apply list_elem_of_here | done]. apply touches_insert; [| apply list_elem_of_further, S3; by apply (elem_option_list alloc_ok) | done]. apply touches_insert; [done | apply list_elem_of_here | done].
  - intros _ i [= <-]. eexists. split; [apply lookup_insert_eq |]. split_and!; [done | | done | done]. exact VR'.
Qed.
End Binary.

(** * Shifts *)

Lemma mod_lshift_loop_spec n h r m t w R T M :
  h !! r = Some R -> h !! t = Some T -> wf R -> wf T -> (w <= length (d R))%nat -> (w <= length (d T))%nat -> apart r t -> apart r m -> apart m t ->
  words_at h m w M -> value (take w (d R)) < M ->
  exists R' T', mod_lshift_loop n r m t w h = Some (tt, <[r := R']> (<[t := T']> h)) /\ wf R' /\ wf T' /\ length (d R') = length (d R) /\ width R' = width R /\ neg R' = neg R /\
    value (take w (d R')) = (value (take w (d R)) * 2 ^ Z.of_nat n) mod M.
Proof.
  revert h R T. induction n as [| n IH]; intros h R T Hr Ht HR HT LR LT Nrt Nrm Nmt Hm Hlt; cbn [mod_lshift_loop].
  { exists R, T. rewrite (insert_id _ t), (insert_id _ r) by done. split_and!; try done. pose proof (value_nonneg (take w (d R)) ltac:(apply words_ok_take; by destruct HR)). rewrite Z.mul_1_r, Z.mod_small by lia. done. }
  set (x := value (take w (d R))) in *. pose proof (words_at_of h r R w Hr HR LR) as Hx. fold x in Hx. assert (0 <= x) by (apply value_nonneg, words_ok_take; by destruct HR).
  destruct (mod_add_computes h r r r m t w R T x x M) as (R1 & T1 & E1 & HR1 & HT1 & LT1 & LR1 & W1 & N1 & V1); try done. erewrite bind_eq by exact E1.
  pose proof (Z.mod_pos_bound (x + x) M ltac:(lia)) as Hb.
  destruct (IH (<[r := R1]> (<[t := T1]> h)) R1 T1) as (R' & T' & E2 & HR' & HT' & LR' & W' & N' & V'); try done; try lia; [look | look | apply words_at_other; [unfold apart in *; congruence |]; apply words_at_other; done |].
  exists R', T'. rewrite E2. rewrite (insert_insert_ne _ t r), insert_insert_eq, insert_insert_eq by (unfold apart in *; congruence).
  split_and!; try done; try congruence. rewrite V', V1, Nat2Z.inj_succ, Z.pow_succ_r, Zmult_mod_idemp_l by lia. f_equal. ring.
Qed.

Section Lshift.
Context (h : gmap nat BIGNUM) (r a m : nat) (n : Z) (tmp : option nat) (R A M : BIGNUM).
Context (HhR : h !! r = Some R) (HhA : h !! a = Some A) (HhM : h !! m = Some M) (HR : wf R) (HA : wf A) (HM : wf M).
Context (Hn : 0 <= n) (Hrm : apart r m) (HAM : mag A < mag M) (Ho : objects h (option_list tmp)) (Hap : forall i, i ∈ option_list tmp -> i ∉ [r; m]).

Definition lshift_room : Prop := tmp <> None /\ roomy alloc_ok h (r :: option_list tmp) (Nat.max (width A) (width M)).

Lemma mod_lshift_consttime_outcome :
  exists ok h', bn_mod_lshift_consttime alloc_ok r a n m tmp h = Some (ok, h') /\ touches h h' (r :: option_list tmp) /\
    (ok = true -> padded h' (Some r) ((mag A * 2 ^ n) mod mag M) M) /\ (lshift_room -> ok = true).
Proof.
  assert (objects h (r :: option_list tmp)) as Hor by (intros i [-> | Hi]%elem_of_cons; [by exists R | by apply Ho]). pose proof (mag_bound M HM) as BM.
  unfold bn_mod_lshift_consttime. destruct (copy_outcome alloc_ok h r a R A HhR HhA HR HA) as (ok & h1 & E1 & Ok1 & P1). erewrite bind_eq by exact E1.
  destruct ok; cbn [negb].
  2: { subst h1. exists false, h. split_and!; [done | by apply touches_refl | done |]. intros (_ & Hr). apply Ok1, (Hr r R (list_elem_of_here _ _) HhR). lia. }
  destruct P1 as (R1 & -> & HR1 & L1 & W1 & N1). assert (mag R1 = mag A) as M1 by (unfold mag; by rewrite L1).
  erewrite bind_eq by (apply load_eq; look). destruct (resize_words_spec (<[r := R1]> h) r R1 (width M)) as (ok & h2 & E2 & Ok2 & P2); [look | done | lia |]. erewrite bind_eq by exact E2.
  assert (touches h (<[r := R1]> h) (r :: option_list tmp)) as T1 by (apply touches_insert; [by apply touches_refl | apply list_elem_of_here | done]).
  destruct ok; cbn [negb].
  2: { subst h2. eexists false, _. split_and!; [done | done | done |]. intros (_ & Hr). apply Ok2. apply (mono_room alloc_ok h (<[r := R1]> h) r R); [by apply (growing_copy alloc_ok r a h true) | done | look |]. apply (Hr r R (list_elem_of_here _ _) HhR). lia. }
  destruct P2 as (R2 & -> & HR2 & W2 & M2 & N2). rewrite insert_insert_eq in *.
  assert (touches h (<[r := R2]> h) (r :: option_list tmp)) as T2 by (apply touches_insert; [by apply touches_refl | apply list_elem_of_here | done]).
  assert (forall i, i ∈ option_list tmp -> i <> r /\ i <> m) as Hne by (intros i Hi; specialize (Hap i Hi); set_solver).
  destruct (scratch_spec (<[r := R2]> h) (width M) tmp) as (o & h3 & E3 & T3 & P3 & Ok3); [intros i Hi; apply T2; set_solver |]. erewrite bind_eq by exact E3.
  assert (touches h h3 (r :: option_list tmp)) as T3' by (apply (touches_trans _ (<[r := R2]> h)); [done |]; apply (touches_more _ _ _ _ T3); [set_solver | apply T2]).
  destruct o as [t |].
  2: { exists false, h3. split_and!; [done | done | done |]. intros (Hs & Hr). exfalso. apply Ok3; [done | | done]. intros i X Hi HX k Hk.
       rewrite lookup_insert_ne in HX by (destruct (Hne i Hi); congruence). apply (Hr i X); [set_solver | done | lia]. }
  destruct (P3 t eq_refl) as (Et & T & HhT & HT & LT). assert (t ∈ option_list tmp) as Htin by (by apply (elem_option_list alloc_ok)). destruct (Hne t Htin) as [Ntr Ntm].
  assert (h3 !! r = Some R2) as HhR3 by (rewrite (proj1 T3) by (intros Hin; by destruct (Hne r Hin)); look).
  assert (h3 !! m = Some M) as HhM3 by (rewrite (proj1 T3) by (intros Hin; by destruct (Hne m Hin)); look).
  assert (value (take (width M) (d R2)) = mag A) as V2 by (rewrite <- M1, <- M2; unfold mag, limbs; by rewrite W2).
  destruct (mod_lshift_loop_spec (Z.to_nat n) h3 r m t (width M) R2 T (mag M)) as (R' & T' & E4 & HR' & HT' & LR' & W' & N' & V'); try done; try (unfold apart in *; congruence).
  { destruct HR2. lia. } { apply words_at_of; [done | done | by destruct HM]. } 
  erewrite bind_eq by exact E4. erewrite bind_eq by apply modify_cell. eexists true, _. split; [done |]. assert (wf (set_neg false R')) as HR3 by (by apply wf_set_neg). split_and!; [| | done].
  - apply touches_insert; [| apply list_elem_of_here | done]. apply touches_insert; [done | by apply list_elem_of_further | done].
  - intros _ i [= <-]. eexists. split; [apply lookup_insert_eq |]. split_and!; [done | | done | cbn; congruence].
    unfold val, mag, limbs. cbn [neg set_neg width d]. rewrite W', W2, V', V2, Z2Nat.id by done. done.
Qed.
End Lshift.

Section ModLshift.
Context (h : gmap nat BIGNUM) (r a m : nat) (n : Z) (T : div_temps) (copy tmp : option nat) (R A M : BIGNUM).
Let extra : list nat := option_list copy ++ option_list tmp.
Context (HhR : h !! r = Some R) (HhA : h !! a = Some A) (HhM : h !! m = Some M) (HR : wf R) (HA : wf A) (HM : wf M).
Context (Hn : 0 <= n) (Hrm : apart r m) (HT : temps_ok h T [a; m; r]) (Ho : objects h extra) (Hd : NoDup (r :: m :: given T ++ extra)).

Lemma mod_lshift_outcome :
  exists ok h', BN_mod_lshift alloc_ok r a n m T copy tmp h = Some (ok, h') /\ touches h h' (r :: given T ++ extra) /\
    (ok = true -> mag M <> 0 /\ padded h' (Some r) ((val A * 2 ^ n) mod mag M) M).
Proof.
  assert (objects h (r :: given T ++ extra)) as Hor.
  { intros i [-> | [Hi | Hi]%elem_of_app]%elem_of_cons; [by exists R | by apply (temps_objects _ _ _ HT) | by apply Ho]. }
  unfold BN_mod_lshift. destruct (nnmod_outcome alloc_ok h r a m T R A M HhR HhA HhM HR HA HM HT Hrm) as (ok & h1 & E1 & T1 & P1 & _). erewrite bind_eq by exact E1.
  assert (touches h h1 (r :: given T ++ extra)) as T1' by (apply (touches_more _ _ _ _ T1); [set_solver | done]).
  destruct ok; cbn [negb]; [| exists false, h1; by split_and!]. destruct (P1 eq_refl) as (Hz & Hv). destruct (Hv r eq_refl) as (R1 & HhR1 & HR1 & CR1 & VR1). clear P1 Hv.
  pose proof (mag_nonneg M HM) as PM. pose proof (Z.mod_pos_bound (val A) (mag M) ltac:(lia)) as Hb. pose proof (mag_nonneg R1 HR1) as PR.
  assert (mag R1 = val A mod mag M) as MR1 by (rewrite <- VR1 in *; unfold val in *; destruct (neg R1); lia).
  rewrite !NoDup_cons, !not_elem_of_cons, !not_elem_of_app, NoDup_app in Hd. destruct Hd as ((_ & Nrg & Nrx) & (Nmg & Nmx) & _ & Hgx & Hxx).
  assert (h1 !! m = Some M) as HhM1 by (rewrite (proj1 T1); [done |]; rewrite not_elem_of_cons; unfold apart in Hrm; split; [congruence | done]).
  assert (forall i, i ∈ extra -> h1 !! i = h !! i) as Hx1 by (intros i Hi; apply T1; rewrite not_elem_of_cons; split; [intros ->; by apply Nrx | intros Hg; by apply (Hgx i)]).
  assert (forall m' h2 M', touches h1 h2 (option_list copy) -> h2 !! m' = Some M' -> wf M' -> mag M' = mag M -> width M' = width M -> apart r m' -> (m' ∉ option_list tmp) ->
    exists ok h', bn_mod_lshift_consttime alloc_ok r r n m' tmp h2 = Some (ok, h') /\ touches h h' (r :: given T ++ extra) /\ (ok = true -> mag M <> 0 /\ padded h' (Some r) ((val A * 2 ^ n) mod mag M) M)) as Hend.
  { intros m' h2 M' T2 HM' HwM' EM EW Nrm' Nm'. unfold extra in Nrx, Hxx, Hx1, Hgx. apply NoDup_app in Hxx as (_ & Hct & _).
    assert (h2 !! r = Some R1) as HhR2 by (rewrite (proj1 T2); [done | set_solver]).
    destruct (mod_lshift_consttime_outcome h2 r r m' n tmp R1 R1 M') as (ok & h' & E2 & T3 & P3 & _); try done.
    - rewrite MR1, EM. lia.
    - intros i Hi. rewrite (proj1 T2), Hx1; [by apply Ho; unfold extra; set_solver | set_solver | intros Hc; by apply (Hct i)].
    - intros i Hi. rewrite !not_elem_of_cons. split_and!; [intros ->; set_solver | intros ->; done | apply not_elem_of_nil].
    - exists ok, h'. assert (touches h h2 (r :: given T ++ extra)) as T2' by (apply (touches_trans _ h1); [done |]; apply (touches_more _ _ _ _ T2); [unfold extra; set_solver | apply T1']).
      split_and!; [done | apply (touches_trans _ h2); [done |]; apply (touches_more _ _ _ _ T3); [unfold extra; set_solver | apply T2'] |].
      intros Eok. split; [done |]. intros i Ei. destruct (P3 Eok i Ei) as (Y & HY & HwY & VY & NY & WY). exists Y. split_and!; try done; [| congruence].
      rewrite VY, EM, MR1. by rewrite Zmult_mod_idemp_l. }
  erewrite bind_eq by (by apply load_eq). destruct (neg M) eqn:NM.
  2: { apply (Hend m h1 M); try done; [apply touches_refl; intros i Hi; rewrite Hx1 by (unfold extra; set_solver); apply Ho; unfold extra; set_solver | unfold extra in Nmx; set_solver]. }
  unfold BN_dup. destruct (option_cases copy) as [Ec | [c Ec]]; rewrite Ec; [by erewrite bind_eq by reflexivity; exists false, h1 |].
  assert (c ∈ option_list copy) as Hc by (by apply (elem_option_list alloc_ok)). assert (c ∈ extra) as Hcx by (unfold extra; set_solver).
  destruct (Ho c Hcx) as (C & HhC & HC). rewrite <- (Hx1 c Hcx) in HhC. rewrite bind_assoc.
  destruct (copy_outcome alloc_ok h1 c m C M HhC HhM1 HC HM) as (ok & h2 & E2 & _ & P2). erewrite bind_eq by exact E2. erewrite bind_eq by reflexivity.
  destruct ok; [| subst h2; by exists false, h1]. destruct P2 as (C1 & -> & HC1 & L1 & W1 & N1). erewrite bind_eq by apply modify_cell.
  assert (objects h1 (option_list copy)) as Hoc by (intros i Hi; apply T1'; unfold extra; set_solver).
  apply (Hend c _ (set_neg false C1)); [| apply lookup_insert_eq | by apply wf_set_neg | | done | | ].
  - apply touches_insert; [by apply touches_refl | done | by apply wf_set_neg].
  - unfold mag. change (limbs (set_neg false C1)) with (limbs C1). by rewrite L1.
  - intros E. apply Nrx. by rewrite E.
  - intros Hin. unfold extra in Hxx. apply NoDup_app in Hxx as (_ & Hct & _). by apply (Hct c).
Qed.
End ModLshift.
End Consttime.
(** [p] leaves in [r] the residue of [v] modulo [M], non-negative and in the words of [M]. *)
Definition reduces (p : prog bool) (h : gmap nat BIGNUM) (l : list nat) (r : nat) (v : Z) (M : BIGNUM) (enough : Prop) : Prop :=
  exists ok h', p h = Some (ok, h') /\ touches h h' l /\ (ok = true -> padded h' (Some r) (v mod mag M) M) /\ (enough -> ok = true).

(** C23: Modular arithmetic in constant time is exact for operands below the modulus: the sum, the
    difference and the product by a power of two, reduced, whether or not the result is an operand
    and however many leading zero words the operands have.  The width of the result is that of the
    modulus, whatever the values.  Nothing but the result and the temporaries is touched, and the
    functions fail only for want of temporaries or room. *)
Theorem bn_mod_consttime_exact alloc_ok h r a b m n tmp_a tmp_b tmp R A B M :
  h !! r = Some R -> h !! a = Some A -> h !! b = Some B -> h !! m = Some M -> wf R -> wf A -> wf B -> wf M ->
  apart r m -> mag A < mag M -> mag B < mag M -> 0 <= n ->
  let temps := option_list tmp_a ++ option_list tmp_b ++ option_list tmp in
  objects h temps -> NoDup temps -> (forall i, i ∈ temps -> i ∉ [r; a; b; m]) ->
  let enough := mod_temps_room alloc_ok h r tmp_a tmp_b tmp M in
  reduces (bn_mod_add_consttime alloc_ok r a b m tmp_a tmp_b tmp) h (r :: temps) r (mag A + mag B) M enough /\
  reduces (bn_mod_sub_consttime alloc_ok r a b m tmp_a tmp_b tmp) h (r :: temps) r (mag A - mag B) M enough /\
  reduces (bn_mod_lshift_consttime alloc_ok r a n m tmp) h (r :: option_list tmp) r (mag A * 2 ^ n) M (lshift_room alloc_ok h r tmp A M).
Proof.
  intros Hr Ha Hb Hm HR HA HB HM Hrm HAM HBM Hn temps Ho Hd Hap enough. split_and!.
  - by apply (mod_consttime_outcome alloc_ok _ Z.add mod_add_computes h r a b m tmp_a tmp_b tmp R A B M).
  - by apply (mod_consttime_outcome alloc_ok _ Z.sub mod_sub_computes h r a b m tmp_a tmp_b tmp R A B M).
  - apply (mod_lshift_consttime_outcome alloc_ok h r a m n tmp R A M); try done.
    + intros i Hi. apply Ho. unfold temps. set_solver.
    + intros i Hi Hin. apply (Hap i); [unfold temps; set_solver | set_solver].
Qed.

Lemma bn_mod_consttime_exact_witness :
  let A := mk_bn [5; 0; 0] 3 false true false in let B := mk_bn [9] 1 false true false in let M := mk_bn [11; 0] 2 false true false in
  let h := store_of [(1%nat, A); (2%nat, B); (3%nat, M)] in
  exists h', bn_mod_sub_consttime (fun _ => true) 1 1 2 3 (Some 10%nat) (Some 11%nat) (Some 12%nat) h = Some (true, h') /\ padded h' (Some 1%nat) 7 M.
Proof.
  intros A B M h. assert (wf A) as HA by solve_wf. assert (wf B) as HB by solve_wf. assert (wf M) as HM by solve_wf.
  destruct (bn_mod_consttime_exact (fun _ => true) h 1 1 2 3 70 (Some 10%nat) (Some 11%nat) (Some 12%nat) A A B M) as (_ & (ok & h' & E & _ & H & Hok) & _).
  - reflexivity.
  - reflexivity.
  - reflexivity.
  - reflexivity.
  - exact HA.
  - exact HA.
  - exact HB.
  - exact HM.
  - unfold apart. lia.
  - reflexivity.
  - reflexivity.
  - lia.
  - intros i Hi. assert (i = 10 \/ i = 11 \/ i = 12)%nat as [-> | [-> | ->]] by (cbn in Hi; set_solver); exists BN_new; (split; [reflexivity | solve_wf]).
  - cbn. repeat (apply NoDup_cons_2; [set_solver by lia |]). apply NoDup_nil_2.
  - intros i Hi Hin. cbn in Hi. set_solver by lia.
  - assert (ok = true) as -> by (apply Hok; split_and!; [discriminate | discriminate | discriminate | apply store_of_roomy; [by repeat constructor | vm_compute; discriminate]]).
    exists h'. split; [done |]. exact (H eq_refl).
Defined.
End BnModConst.
