(* ===== verification/BnPow2.v ===== *)
(** Division by a word and remainders modulo a power of two (crypto/fipsmodule/bn/div.c) are exact. *)

From S2P Require Import Prelude Internal Store Modes BnWords Bn BnAdd BnShift BnMulWords BnMul BnDivWords BnDiv BnDivSpec BnModSpec BnModConst.

Open Scope Z_scope.

Module BnPow2.
Import Internal Modes BnWords Bn BnAdd BnShift BnMulWords BnMul BnDivWords BnDiv BnDivSpec BnModSpec BnModConst.
Open Scope c_scope.

(** * By a word *)

Lemma mod_word_spec A w : wf A -> fits 64 w -> BN_mod_word A w = if w =? 0 then 2 ^ 64 - 1 else mag A mod w.
Proof.
  intros HA Hw. unfold BN_mod_word, fits in *. destruct (Z.eqb_spec w 0); [done |]. rewrite mod_word_loop_spec by (lia || by apply limbs_ok).
  pose proof (Z.mod_pos_bound (value (limbs A)) w ltac:(lia)). rewrite wrap_id by (unfold fits; lia). done.
Qed.

Section Word.
Context (alloc_ok : nat -> bool).
Local Abbreviation room := (room alloc_ok).

(** What [BN_div_word] leaves: the quotient, with the remainder for result; or the error value, with
    no room for some width up to one more than that of the number. *)
Definition word_divided (h : gmap nat BIGNUM) (a : nat) (A : BIGNUM) (w ret : Z) (h' : gmap nat BIGNUM) : Prop :=
  (ret = mag A mod w /\ exists A', h' = <[a := A']> h /\ wf A' /\ (width A <> 0%nat -> canonical A') /\ val A' = Z.quot (val A) w) \/
  (ret = 2 ^ 64 - 1 /\ only_touched h h' a /\ exists k, (k <= width A + 1)%nat /\ room A k = false).

Lemma div_word_outcome h a A w :
  h !! a = Some A -> wf A -> fits 64 w -> w <> 0 ->
  exists ret h', BN_div_word alloc_ok a w h = Some (ret, h') /\ word_divided h a A w ret h'.
Proof.
  intros Ha HA Hw Hz. unfold BN_div_word. unfold fits in Hw. rewrite (proj2 (Z.eqb_neq w 0)) by done. erewrite bind_eq by (by apply load_eq).
  destruct (Nat.eqb_spec (width A) 0) as [W0 | W0].
  { eexists _, h. split; [done |]. left. assert (mag A = 0) as M0 by (unfold mag, limbs; by rewrite W0). rewrite M0, Z.mod_0_l by lia. split; [done |].
    exists A. rewrite insert_id by done. split_and!; [done | done | done |]. assert (val A = 0) as -> by (unfold val; rewrite M0; by destruct (neg A)). by rewrite Z.quot_0_l. }
  rewrite num_bits_word_spec by done. unfold bit_length. rewrite (proj2 (Z.eqb_neq w 0)) by done. pose proof (Z.log2_spec w ltac:(lia)) as [Hlo Hhi]. pose proof (Z.log2_nonneg w). assert (Z.log2 w < 64) by (apply Z.log2_lt_pow2; lia).
  set (j := 64 - (Z.log2 w + 1)). assert (0 <= j < 64) as Hj by (unfold j; lia). assert (0 < 2 ^ j) as Pj by (apply Z.pow_pos_nonneg; lia).
  assert (w * 2 ^ j < 2 ^ 64) as Hwj by (replace 64 with (Z.succ (Z.log2 w) + j) by (unfold j; lia); rewrite Z.pow_add_r by lia; nia).
  rewrite (wrap_id 64 (Z.shiftl w j)) by (rewrite Z.shiftl_mul_pow2 by lia; unfold fits; nia). rewrite Z.shiftl_mul_pow2 by lia. clearbody j.
  destruct (lshift_outcome alloc_ok h a a A A j Ha Ha HA HA ltac:(lia)) as (ok & h1 & E1 & P1 & Ok1). erewrite bind_eq by exact E1. rewrite (Z.div_small j 64) in Ok1 by lia.
  destruct ok; cbn [negb].
  2: { eexists _, h1. split; [done |]. right. split_and!; [done | done |]. destruct (room A (width A + 1)) eqn:R1; [| exists (width A + 1)%nat; split; [lia | done]].
       destruct (decide (Forall (fun k => room A k = true) (seq 0 (width A + 2)))) as [Hf | Hf].
       - enough (false = true) by done. apply Ok1. intros k Hk. rewrite Forall_forall in Hf. apply Hf. apply elem_of_seq. cbn in Hk. lia.
       - apply not_Forall_Exists, Exists_exists in Hf as (k & Hk%elem_of_seq & Hn); [| apply _]. exists k. split; [lia |]. by apply not_true_is_false. }
  destruct P1 as (A1 & -> & HA1 & CA1 & VA1). erewrite bind_eq by (apply load_eq; look). erewrite bind_eq by (apply read_limbs; [look | done]).
  pose proof (div_word_loop_spec (limbs A1) (w * 2 ^ j) ltac:(by apply limbs_ok) ltac:(nia)) as Hs. destruct (div_word_loop (limbs A1) (w * 2 ^ j)) as [qs ret]. destruct Hs as (Lq & Oq & Vq & ->).
  fold (mag A1) in Vq |- *. pose proof (mag_nonneg A HA). pose proof (mag_nonneg A1 HA1). rewrite length_limbs in Lq by done.
  assert (mag A1 = mag A * 2 ^ j /\ (mag A <> 0 -> neg A1 = neg A)) as [M1 N1].
  { pose proof (Z.mul_nonneg_nonneg (mag A) (2 ^ j)). assert (mag A <> 0 -> 0 < mag A * 2 ^ j) by nia. unfold val in VA1. destruct (neg A1) eqn:E2, (neg A) eqn:E3; rewrite ?Z.mul_opp_l in VA1; split; try lia; intros; try done; lia. }
  erewrite bind_eq by (apply put_eq; [look | destruct HA1; lia]). rewrite insert_insert_eq. destruct (put_all A1 qs HA1 Lq Oq) as (HA2 & LA2 & _). set (A2 := set_d (overwrite (d A1) 0 qs) A1) in *.
  erewrite bind_eq by (apply set_minimal_width_eq; look). rewrite insert_insert_eq. rewrite M1, Z.mul_mod_distr_r, Z.shiftr_div_pow2, Z.div_mul by lia.
  eexists _, _. split; [done |]. left. split; [done |]. exists (minimized A2). destruct (minimized_spec A2 HA2) as (W2 & _ & C2 & _). split_and!; [done | done | done |].
  rewrite minimized_val by done. unfold val at 1, mag. rewrite LA2, Vq, M1, Z.div_mul_cancel_r by lia. change (neg A2) with (neg A1).
  rewrite <- quot_sign by (done || lia). destruct (decide (mag A = 0)) as [E0 | E0]; [rewrite E0, Z.div_0_l by lia; by destruct (neg A1), (neg A) | by rewrite N1].
Qed.
End Word.
(** * Modulo a power of two *)

(** The words that hold [e] bits. *)
Definition pow2_words (e : Z) : nat := Z.to_nat (1 + (e - 1) / 64).

Lemma pow2_words_spec e : 0 < e -> (0 < pow2_words e)%nat /\ 64 * (Z.of_nat (pow2_words e) - 1) < e <= 64 * Z.of_nat (pow2_words e).
Proof.
  intros He. unfold pow2_words. assert (0 <= (e - 1) / 64) by (apply Z.div_pos; lia).
  pose proof (Z.div_mod (e - 1) 64 ltac:(lia)). pose proof (Z.mod_pos_bound (e - 1) 64 ltac:(lia)). lia.
Qed.

Lemma mask_top_spec ws e :
  words_ok ws -> 0 < e -> length ws = pow2_words e ->
  words_ok (mask_top ws e) /\ length (mask_top ws e) = length ws /\ value (mask_top ws e) = value ws mod 2 ^ e.
Proof.
  intros Hok He Hl. pose proof (pow2_words_spec e He) as [Hn He2]. rewrite <- Hl in *. unfold mask_top. cbv zeta.
  set (b := e mod 64) in *. assert (0 <= b < 64) as Hb by (apply Z.mod_pos_bound; lia).
  pose proof (Z.div_mod e 64 ltac:(lia)) as Ee. fold b in Ee. pose proof (value_bound ws Hok) as Hv. pose proof (value_nonneg ws Hok).
  destruct (Z.eqb_spec b 0) as [E0 | E0]; cbn [negb].
  { split_and!; [done | done |]. rewrite Z.mod_small; [done |]. replace e with (64 * Z.of_nat (length ws)) by lia. lia. }
  destruct (exists_last (l := ws)) as (lo & t & ->); [destruct ws; [cbn in Hn; lia | done] |]. rewrite length_app in *. cbn [length] in *. replace (length lo + 1 - 1)%nat with (length lo) by lia.
  apply words_ok_app in Hok as [Hlo Ht]. rewrite list_lookup_total_middle by done. replace (Z.shiftl 1 b - 1) with (Z.ones b) by (rewrite Z.ones_equiv, Z.shiftl_1_l; lia).
  rewrite Z.land_ones by lia. unfold store. rewrite take_app_length, drop_ge, app_nil_r by (rewrite length_app; cbn; lia).
  pose proof (Z.mod_pos_bound t (2 ^ b) ltac:(apply Z.pow_pos_nonneg; lia)). assert (2 ^ b <= 2 ^ 64) by (apply Z.pow_le_mono_r; lia).
  split_and!; [| by rewrite !length_app |].
  - apply words_ok_app. split; [done |]. apply Forall_singleton. unfold fits. lia.
  - rewrite !value_app. cbn [value]. rewrite !Z.mul_0_r, !Z.add_0_r. replace e with (64 * Z.of_nat (length lo) + b) by lia.
    rewrite Z.pow_add_r, Z.rem_mul_r by (try apply Z.pow_nonzero; try apply Z.pow_pos_nonneg; lia).
    rewrite (Z.mul_comm _ t), Z_mod_plus_full, Z.div_add by (apply Z.pow_nonzero; lia). pose proof (value_bound lo Hlo). pose proof (value_nonneg lo Hlo).
    rewrite (Z.mod_small (value lo)), (Z.div_small (value lo)) by lia. rewrite Z.add_0_l. done.
Qed.

Lemma value_not ws : words_ok ws -> words_ok (map (wnot 64) ws) /\ value (map (wnot 64) ws) = 2 ^ (64 * Z.of_nat (length ws)) - 1 - value ws.
Proof.
  induction 1 as [| x ws Hx Hws [IH1 IH2]]; [split; [apply Forall_nil_2 | done] |]. cbn [map value length]. split; [apply words_ok_cons; split; [by apply wnot_fits | done] |].
  rewrite IH2, Nat2Z.inj_succ, Z.mul_succ_r, Z.pow_add_r by lia. unfold wnot. ring.
Qed.

Section Pow2.
Context (alloc_ok : nat -> bool).
Local Abbreviation room := (room alloc_ok).

Lemma growing_mod_pow2 r a e : growing (BN_mod_pow2 alloc_ok r a e).
Proof. pose proof (growing_wexpand alloc_ok). pose proof (growing_copy alloc_ok). unfold BN_mod_pow2, BN_zero. grow. Qed.

Lemma rem_sign A p : wf A -> 0 < p -> (if neg A then - (mag A mod p) else mag A mod p) = Z.rem (val A) p.
Proof.
  intros HA Hp. pose proof (mag_nonneg A HA). unfold val. destruct (neg A); rewrite ?Z.rem_opp_l by lia; by rewrite Z.rem_mod_nonneg by lia.
Qed.

(** The remainder towards zero, in at most the words that hold [e] bits. *)
Lemma mod_pow2_outcome h r a R A e :
  h !! r = Some R -> h !! a = Some A -> wf R -> wf A -> 0 <= e ->
  exists ok h', BN_mod_pow2 alloc_ok r a e h = Some (ok, h') /\
    (if ok then exists X, h' = <[r := X]> h /\ wf X /\ (width X <= pow2_words e)%nat /\ val X = Z.rem (val A) (2 ^ e) else h' = h) /\
    ((forall k, (k <= pow2_words e)%nat -> room R k = true) -> ok = true).
Proof.
  intros Hr Ha HR HA He. unfold BN_mod_pow2. erewrite bind_eq by (by apply load_eq). fold (pow2_words e). set (n := pow2_words e).
  assert (0 < 2 ^ e) as He1 by (apply Z.pow_pos_nonneg; lia). pose proof (mag_nonneg A HA).
  destruct (((e =? 0) || (width A =? 0)%nat)) eqn:E0.
  { eexists true, _. split; [unfold BN_zero; by erewrite bind_eq by (by apply modify_eq) |]. split; [| done]. eexists. split_and!; [done | by apply wf_set_neg, wf_set_width; [| lia] | cbn; lia |].
    rewrite <- rem_sign by done. assert (mag A mod 2 ^ e = 0) as ->.
    { apply orb_true_iff in E0 as [->%Z.eqb_eq | E0%Nat.eqb_eq]; [apply Z.mod_1_r |]. assert (mag A = 0) as -> by (unfold mag, limbs; by rewrite E0). by apply Z.mod_0_l; lia. }
    unfold val, mag, limbs. cbn. by destruct (neg A). }
  apply orb_false_iff in E0 as [E0%Z.eqb_neq W0%Nat.eqb_neq]. destruct (pow2_words_spec e ltac:(lia)) as [Hn He2]. fold n in Hn, He2.
  destruct (Nat.ltb_spec (width A) n) as [Hlt | Hge].
  { destruct (copy_outcome alloc_ok h r a R A Hr Ha HR HA) as (ok & h1 & E1 & Ok1 & P1). exists ok, h1. split; [exact E1 |]. split; [| intros Hk; apply Ok1, Hk; lia].
    destruct ok; [| done]. destruct P1 as (X & -> & HX & LX & WX & NX). exists X. split_and!; [done | done | lia |].
    assert (val X = val A) as -> by (unfold val, mag; by rewrite LX, NX). rewrite <- rem_sign by done. rewrite Z.mod_small; [done |].
    pose proof (mag_bound A HA). assert (2 ^ (64 * Z.of_nat (width A)) <= 2 ^ e) by (apply Z.pow_le_mono_r; lia). lia. }
  erewrite bind_eq by (by apply wexpand_eq). destruct (room R n) eqn:Hroom; cbn [negb].
  2: { exists false, h. split_and!; [done | done |]. intros Hk. by rewrite Hk in Hroom by lia. }
  destruct (expanded_spec R n HR Hroom) as (HE & LE & _). set (E := expanded R n) in *. pose proof (limbs_ok A HA) as OA. pose proof (length_limbs A HA) as LA.
  erewrite bind_eq by (apply (read_holds _ _ _ _ (take n (limbs A))); [rewrite <- (drop_0 (limbs A)); apply holds_sub; [by apply (holds_expanded (alloc_ok := alloc_ok)) | lia] | rewrite length_take; lia]).
  destruct (mask_top_spec (take n (limbs A)) e) as (OM & LM & VM); [auto with word_db | lia | fold n; rewrite length_take; lia |].
  rewrite length_take, Nat.min_l in LM by lia. set (ws := mask_top _ e) in *.
  erewrite bind_eq by (apply put_eq; [look | lia]). rewrite insert_insert_eq. set (Y := set_d _ E).
  assert (exists A', <[r := Y]> h !! a = Some A' /\ neg A' = neg A) as (A' & HA' & NA').
  { destruct (decide (a = r)) as [-> | Hne]; [| exists A; by rewrite lookup_insert_ne]. assert (A = R) as -> by congruence. exists Y. rewrite lookup_insert_eq. split; [done |].
    by apply (expanded_spec (alloc_ok := alloc_ok) R n). }
  erewrite bind_eq by (by apply load_eq). erewrite bind_eq by apply modify_cell. destruct (put_low E ws (neg A') HE) as (HX & LX); [lia | done |]. rewrite LM in HX, LX. fold Y in HX, LX.
  change (set_neg (neg A') (set_width n Y)) with (set_width n (set_neg (neg A') Y)) in HX, LX. set (X := set_width n (set_neg (neg A') Y)) in *.
  erewrite bind_eq by (apply set_minimal_width_eq; look). rewrite insert_insert_eq. destruct (minimized_spec X HX) as (H1 & M1 & C1 & _). eexists true, _. split; [done |]. split; [| done].
  exists (minimized X). split_and!; [done | done | |].
  - apply canonical_width; [done | done |]. rewrite M1. apply (mag_bound X HX).
  - rewrite minimized_val by done. unfold val at 1, mag. rewrite LX, VM. change (neg X) with (neg A'). rewrite NA', value_take, <- rem_sign by (done || lia).
    assert (2 ^ (64 * Z.of_nat n) = 2 ^ e * 2 ^ (64 * Z.of_nat n - e)) as -> by (rewrite <- Z.pow_add_r by lia; f_equal; lia).
    rewrite Z.mod_mod_divide by (by apply Z.divide_factor_l). done.
Qed.
(** An object given zero words up to [n]. *)
Lemma widened_spec E n :
  wf E -> (width E <= n)%nat -> (n <= length (d E))%nat ->
  let Y := set_width n (set_neg false (set_d (overwrite (d E) (width E) (replicate (n - width E) 0)) E)) in
  wf Y /\ limbs Y = limbs E ++ replicate (n - width E) 0 /\ length (d Y) = length (d E).
Proof.
  intros [HEd HEw HEm] Hw Hn. cbv zeta.
  assert (length (overwrite (d E) (width E) (replicate (n - width E) 0)) = length (d E)) as Lo by (apply length_overwrite; rewrite length_replicate; lia).
  split_and!; [constructor; cbn [d width set_width set_neg set_d]; [| lia | lia] | | done].
  - unfold overwrite. rewrite !words_ok_app. split_and!; [auto with word_db | apply words_ok_zeros | auto with word_db].
  - unfold limbs at 1. cbn [d width set_width set_neg set_d]. unfold overwrite. by rewrite app_assoc, take_app_length' by (rewrite length_app, length_take, length_replicate; lia).
Qed.

(** The words of [r] inverted below the bit [e]. *)
Lemma complement_spec {C} h r X e (F K : prog C) :
  let n := pow2_words e in
  h !! r = Some X -> wf X -> (width X <= n)%nat -> 0 < e -> mag X < 2 ^ e -> room X n = true ->
  exists Y, wf Y /\ canonical Y /\ (width Y <= n)%nat /\ val Y = 2 ^ e - 1 - mag X /\ static_data Y = static_data X /\ (length (d X) <= length (d Y))%nat /\
    (do ok <- bn_wexpand alloc_ok r n;
     if negb ok then F else
     do_ put_words r (width X) (replicate (n - width X) 0); do_ r_modify r (fun R => set_width n (set_neg false R));
     do ws <- read_words r 0 n; do_ put_words r 0 (mask_top (map (wnot 64) ws) e); do_ bn_set_minimal_width r; K) h = K (<[r := Y]> h).
Proof.
  intros n Hr HX WX He Hm Hroom. destruct (expanded_spec X n HX Hroom) as (HE & LE & Ll & Lw & _). erewrite bind_eq by (by apply wexpand_eq). rewrite Hroom. cbn [negb].
  set (E := expanded X n) in *. erewrite bind_eq by (apply put_eq; [look | rewrite length_replicate; lia]). rewrite insert_insert_eq. erewrite bind_eq by apply modify_cell.
  rewrite <- Lw in *. destruct (widened_spec E n HE ltac:(lia) LE) as (HW & LW & DW). set (W := set_width n _) in *. pose proof (limbs_ok W HW) as OW. pose proof (length_limbs W HW) as NW. change (width W) with n in NW.
  erewrite bind_eq by (apply (read_limbs _ r W); [look | done]). destruct (value_not (limbs W) OW) as (ON & VN). rewrite NW in VN.
  destruct (mask_top_spec (map (wnot 64) (limbs W)) e ON He) as (OM & LM & VM); [by rewrite length_map |]. rewrite length_map, NW in LM.
  erewrite bind_eq by (apply put_eq; [look | lia]). rewrite insert_insert_eq. destruct (put_all W _ HW LM OM) as (HV & LV & DV). set (V := set_d _ W) in *.
  erewrite bind_eq by (apply set_minimal_width_eq; look). rewrite insert_insert_eq. destruct (minimized_spec V HV) as (H1 & M1 & C1 & _).
  exists (minimized V). assert (val (minimized V) = mag V) as EV by (by rewrite minimized_val by done).
  split_and!; [done | done | | | | | done].
  - apply canonical_width; [done | done |]. rewrite M1. apply (mag_bound V HV).
  - rewrite EV. unfold mag. rewrite LV, VM, VN, LW, value_app, value_zeros, Ll. fold (mag X). rewrite Z.mul_0_r, Z.add_0_r.
    destruct (pow2_words_spec e He) as [_ He2]. fold n in He2. pose proof (mag_nonneg X HX). symmetry. apply (Z.mod_unique_pos _ _ (2 ^ (64 * Z.of_nat n - e) - 1)); [lia |].
    assert (2 ^ (64 * Z.of_nat n) = 2 ^ e * 2 ^ (64 * Z.of_nat n - e)) as -> by (rewrite <- Z.pow_add_r by lia; f_equal; lia). ring.
  - unfold minimized. unfold E, expanded in *. by destruct (_ <=? _)%nat, (_ =? _)%nat.
  - assert (d (minimized V) = d V) as -> by (unfold minimized; by destruct (_ =? _)%nat). rewrite DV, DW. unfold E, expanded. destruct (Nat.leb_spec n (length (d X))); [done |].
    cbn [d set_d]. rewrite length_app, length_limbs, length_replicate by done. lia.
Qed.

(** The residue in [0, 2 ^ e). *)
Lemma nnmod_pow2_outcome h r a one R A ONE e :
  h !! r = Some R -> h !! a = Some A -> h !! one = Some ONE -> one <> r -> wf R -> wf A -> wf ONE -> width ONE = 1%nat -> val ONE = 1 -> 0 <= e ->
  exists ok h', BN_nnmod_pow2 alloc_ok r a e one h = Some (ok, h') /\
    (if ok then exists X, h' = <[r := X]> h /\ wf X /\ val X = val A mod 2 ^ e else only_touched h h' r) /\
    ((forall k, (k <= pow2_words e + 2)%nat -> room R k = true) -> ok = true).
Proof.
  intros Hr Ha H1 Hne HR HA HONE W1 V1 He. destruct (mod_pow2_outcome h r a R A e Hr Ha HR HA He) as (ok & h1 & E1 & P1 & Ok1). unfold BN_nnmod_pow2. erewrite bind_eq by exact E1.
  pose proof (growing_mod_pow2 r a e h ok h1 E1) as G1. assert (0 < 2 ^ e) as He1 by (apply Z.pow_pos_nonneg; lia).
  destruct ok; cbn [negb]; [| exists false, h1; subst h1; split_and!; [done | by apply (only_touched_refl _ _ R) | intros Hk; apply Ok1; intros k ?; apply Hk; lia]].
  destruct P1 as (X & -> & HX & WX & VX). erewrite bind_eq by (apply load_eq; look). pose proof (mag_nonneg X HX). pose proof (Z.rem_bound_abs (val A) (2 ^ e) ltac:(lia)).
  assert (BN_is_zero X || negb (neg X) = true <-> 0 <= val X) as Hsign.
  { rewrite orb_true_iff, is_zero_spec by done. unfold val. destruct (neg X); cbn [negb]; split; [intros [? | ?]; [lia | done] | left; lia | lia | by right]. }
  destruct (BN_is_zero X || negb (neg X)) eqn:Ez.
  { eexists true, _. split_and!; [done | | done]. exists X. split_and!; [done | done |]. assert (0 <= val X) by (by apply Hsign). rewrite VX in *.
    pose proof (Z.quot_rem' (val A) (2 ^ e)). apply (Z.mod_unique_pos _ _ (Z.quot (val A) (2 ^ e))); lia. }
  assert (val X < 0) as Hneg by (apply Z.nle_gt; intros Hge; apply Hsign in Hge; congruence). clear Hsign.
  assert (e <> 0) as E0 by (intros ->; change (2 ^ 0) with 1 in *; lia). fold (pow2_words e). set (n := pow2_words e) in *.
  assert (val X = - mag X) as EX by (unfold val in *; destruct (neg X); lia).
  destruct (room X n) eqn:Hroom.
  2: { erewrite bind_eq by (apply wexpand_eq; look). rewrite Hroom. cbn [negb]. exists false, (<[r := X]> h). split_and!; [done | by exists X |].
       intros Hk. rewrite (mono_room alloc_ok _ _ r R X n G1 Hr) in Hroom; [done | look | apply Hk; lia]. }
  destruct (complement_spec (<[r := X]> h) r X e (r_ret false) (BN_add alloc_ok r r one)) as (Y & HY & CY & WY & VY & SY & DY & EY); [look | done | done | lia | lia | done |].
  fold n in EY, WY. rewrite EY, insert_insert_eq.
  destruct (add_outcome alloc_ok (<[r := Y]> h) r r one Y Y ONE) as (ok & h2 & E2 & P2 & Ok2); [look | look | look | done | done | done | exact (proj2 CY) |].
  exists ok, h2. split; [exact E2 |]. split.
  - destruct ok; [destruct P2 as (Z & -> & HZ & _ & VZ) | destruct P2 as (Z & -> & HZ)]; rewrite insert_insert_eq; exists Z; split_and!; try done.
    rewrite VZ, VY, V1. pose proof (Z.quot_rem' (val A) (2 ^ e)). apply (Z.mod_unique_pos _ _ (Z.quot (val A) (2 ^ e) - 1)); lia.
  - intros Hk. apply Ok2. intros k Hle. rewrite W1 in Hle. apply (room_mono alloc_ok X Y k SY DY). apply (mono_room alloc_ok _ _ r R X k G1 Hr); [look | apply Hk; lia].
Qed.
End Pow2.

(** C24: Division by one word other than zero is exact: [BN_div_word] leaves the quotient, rounded towards zero, in
    place and returns the remainder of the magnitude, failing only for want of room; [BN_mod_word]
    and, without a secret-dependent division, [bn_mod_u16_consttime], for divisors from 2 to
    2^16 - 1, return that remainder. *)
Theorem bn_word_division_exact alloc_ok h a A w d16 :
  h !! a = Some A -> wf A -> fits 64 w -> w <> 0 -> 1 < d16 < 2 ^ 16 ->
  BN_mod_word A w = mag A mod w /\ bn_mod_u16_consttime A d16 = Some (mag A mod d16) /\
  exists ret h', BN_div_word alloc_ok a w h = Some (ret, h') /\ word_divided alloc_ok h a A w ret h'.
Proof.
  intros Ha HA Hw Hz Hd. split_and!; [| | by apply div_word_outcome].
  - rewrite mod_word_spec by done. by rewrite (proj2 (Z.eqb_neq w 0)).
  - rewrite mod_u16_consttime_spec by (done || unfold fits; lia). destruct (Z.leb_spec d16 1); [lia | done].
Qed.

Lemma bn_word_division_exact_witness :
  let A := mk_bn [5; 7; 0; 0] 3 true true false in
  BN_mod_word A 10 = 7 /\ exists A', BN_div_word (fun _ => true) 1 10 (<[1%nat := A]> ∅) = Some (7, <[1%nat := A']> ∅) /\ val A' = - 12912720851596686131.
Proof.
  intros A. assert (wf A) as HA by solve_wf. assert (mag A mod 10 = 7) as E7 by reflexivity. assert (Z.quot (val A) 10 = - 12912720851596686131) as Eq by reflexivity.
  destruct (bn_word_division_exact (fun _ => true) (<[1%nat := A]> ∅) 1 A 10 17 (lookup_insert_eq _ _ _) HA) as (H1 & _ & ret & h' & E & H); [unfold fits; lia | lia | lia |].
  split; [congruence |]. destruct H as [(-> & A' & -> & _ & _ & V) | (_ & _ & k & Hk & Hr)].
  - rewrite insert_insert_eq, E7 in E. exists A'. split; [exact E | congruence].
  - unfold room in Hr. apply orb_false_iff in Hr as [Hr%Nat.leb_gt _]. cbn in Hr, Hk. lia.
Defined.

(** C25: [BN_mod_pow2] leaves the remainder modulo a power of two with the sign of the number, and
    [BN_nnmod_pow2] the residue in [0, 2 ^ e), by a two's complement in the words that hold [e]
    bits, for any exponent and whether or not the result is the operand; they touch nothing else,
    and fail only for want of room. *)
Theorem bn_pow2_exact alloc_ok h r a one R A ONE e :
  h !! r = Some R -> h !! a = Some A -> h !! one = Some ONE -> one <> r -> wf R -> wf A -> wf ONE -> width ONE = 1%nat -> val ONE = 1 -> 0 <= e ->
  (exists ok h', BN_mod_pow2 alloc_ok r a e h = Some (ok, h') /\
    (if ok then exists X, h' = <[r := X]> h /\ wf X /\ (width X <= pow2_words e)%nat /\ val X = Z.rem (val A) (2 ^ e) else h' = h) /\
    ((forall k, (k <= pow2_words e)%nat -> room alloc_ok R k = true) -> ok = true)) /\
  (exists ok h', BN_nnmod_pow2 alloc_ok r a e one h = Some (ok, h') /\
    (if ok then exists X, h' = <[r := X]> h /\ wf X /\ val X = val A mod 2 ^ e else only_touched h h' r) /\
    ((forall k, (k <= pow2_words e + 2)%nat -> room alloc_ok R k = true) -> ok = true)).
Proof. intros. split; [by apply mod_pow2_outcome | by apply (nnmod_pow2_outcome alloc_ok h r a one R A ONE)]. Qed.

Lemma bn_pow2_exact_witness :
  let A := mk_bn [5; 7; 0; 0] 3 true true false in let ONE := mk_bn [1] 1 false false true in
  let h : gmap nat BIGNUM := <[1%nat := A]> (<[2%nat := ONE]> ∅) in
  exists h' X, BN_nnmod_pow2 (fun _ => true) 1 1 65 2 h = Some (true, h') /\ h' !! 1%nat = Some X /\ val X = 2 ^ 64 - 5.
Proof.
  intros A ONE h. assert (wf A) as HA by solve_wf. assert (wf ONE) as H1 by solve_wf.
  destruct (bn_pow2_exact (fun _ => true) h 1 1 2 A A ONE 65 (lookup_insert_eq _ _ _) (lookup_insert_eq _ _ _)) as (_ & ok & h' & E & P & Hok); [done | done | done | done | done | done | done | lia |].
  assert (ok = true) as ->.
  { apply Hok. intros k Hk. unfold room. apply orb_true_iff. left. apply Nat.leb_le. exact Hk. }
  destruct P as (X & -> & _ & V). exists (<[1%nat := X]> h), X. split_and!; [exact E | apply lookup_insert_eq | rewrite V; reflexivity].
Defined.
End BnPow2.
