(* ===== verification/Evp.v ===== *)
(** The EVP cipher interface (crypto/fipsmodule/cipher/cipher.c): contexts, the buffering of
    partial blocks, padding and the withheld last block of decryption, over the methods of a
    cipher.

    The methods of an [EVP_CIPHER] are dispatched by [method_init], [method_cipher] and
    [method_ctrl].  A call returns what it wrote to [out] as a byte string; input and output
    are buffers that do not overlap. *)

From S2P Require Import Prelude Internal Modes.

Open Scope Z_scope.

Module Evp.
Import Internal Modes.

Definition EVP_MAX_IV_LENGTH : nat := 16.
Definition EVP_MAX_BLOCK_LENGTH : nat := 32.
Definition INT_MAX : Z := 2 ^ 31 - 1.

Definition EVP_CIPH_MODE_MASK : Z := 0x3f.
Definition EVP_CIPH_STREAM_CIPHER : Z := 0x0.
Definition EVP_CIPH_ECB_MODE : Z := 0x1.
Definition EVP_CIPH_CBC_MODE : Z := 0x2.
Definition EVP_CIPH_CFB_MODE : Z := 0x3.
Definition EVP_CIPH_OFB_MODE : Z := 0x4.
Definition EVP_CIPH_CTR_MODE : Z := 0x5.
Definition EVP_CIPH_GCM_MODE : Z := 0x6.
Definition EVP_CIPH_CCM_MODE : Z := 0x8.
Definition EVP_CIPH_VARIABLE_LENGTH : Z := 0x40.
Definition EVP_CIPH_ALWAYS_CALL_INIT : Z := 0x80.
Definition EVP_CIPH_CUSTOM_IV : Z := 0x100.
Definition EVP_CIPH_CTRL_INIT : Z := 0x200.
Definition EVP_CIPH_FLAG_CUSTOM_CIPHER : Z := 0x400.
Definition EVP_CIPH_NO_PADDING : Z := 0x800.
Definition EVP_CTRL_INIT : Z := 0x0.
Definition EVP_CTRL_GET_IVLEN : Z := 0x19.

Definition has_flag (flags bit : Z) : bool := negb (Z.land flags bit =? 0).

(** The fields of [struct evp_cipher_st] that are not functions. *)
Record EVP_CIPHER := mk_cipher {
  nid : Z; block_size : Z; c_key_len : Z; iv_len : Z; ctx_size : Z; c_flags : Z;
  has_cleanup : bool; has_ctrl : bool
}.

Definition EVP_CIPHER_mode (c : EVP_CIPHER) : Z := Z.land (c_flags c) EVP_CIPH_MODE_MASK.
Definition EVP_CIPHER_flags (c : EVP_CIPHER) : Z := Z.land (c_flags c) (wnot 32 EVP_CIPH_MODE_MASK).
Definition EVP_CIPHER_block_size (c : option EVP_CIPHER) : Z := from_option block_size 0 c.
Definition EVP_CIPHER_key_length (c : option EVP_CIPHER) : Z := from_option c_key_len 0 c.
Definition EVP_CIPHER_iv_length (c : option EVP_CIPHER) : Z := from_option iv_len 0 c.
Definition EVP_CIPHER_nid (c : option EVP_CIPHER) : Z := from_option nid 0 c.

Section Evp.
(** The type of [cipher_data]. *)
Context {D : Type}.

Record EVP_CIPHER_CTX := mk_ctx {
  cipher : option EVP_CIPHER;
  cipher_data : option D;
  key_len : Z;
  encrypt : Z;
  flags : Z;
  oiv : bytes;
  iv : bytes;
  buf : bytes;
  buf_len : Z;
  num : Z;
  final_used : bool;
  final : bytes;
  poisoned : bool
}.

Definition set_cipher v c := mk_ctx v (cipher_data c) (key_len c) (encrypt c) (flags c) (oiv c) (iv c) (buf c) (buf_len c) (num c) (final_used c) (final c) (poisoned c).
Definition set_cipher_data v c := mk_ctx (cipher c) v (key_len c) (encrypt c) (flags c) (oiv c) (iv c) (buf c) (buf_len c) (num c) (final_used c) (final c) (poisoned c).
Definition set_key_len v c := mk_ctx (cipher c) (cipher_data c) v (encrypt c) (flags c) (oiv c) (iv c) (buf c) (buf_len c) (num c) (final_used c) (final c) (poisoned c).
Definition set_encrypt v c := mk_ctx (cipher c) (cipher_data c) (key_len c) v (flags c) (oiv c) (iv c) (buf c) (buf_len c) (num c) (final_used c) (final c) (poisoned c).
Definition set_flags v c := mk_ctx (cipher c) (cipher_data c) (key_len c) (encrypt c) v (oiv c) (iv c) (buf c) (buf_len c) (num c) (final_used c) (final c) (poisoned c).
Definition set_oiv v c := mk_ctx (cipher c) (cipher_data c) (key_len c) (encrypt c) (flags c) v (iv c) (buf c) (buf_len c) (num c) (final_used c) (final c) (poisoned c).
Definition set_iv v c := mk_ctx (cipher c) (cipher_data c) (key_len c) (encrypt c) (flags c) (oiv c) v (buf c) (buf_len c) (num c) (final_used c) (final c) (poisoned c).
Definition set_buf v c := mk_ctx (cipher c) (cipher_data c) (key_len c) (encrypt c) (flags c) (oiv c) (iv c) v (buf_len c) (num c) (final_used c) (final c) (poisoned c).
Definition set_buf_len v c := mk_ctx (cipher c) (cipher_data c) (key_len c) (encrypt c) (flags c) (oiv c) (iv c) (buf c) v (num c) (final_used c) (final c) (poisoned c).
Definition set_num v c := mk_ctx (cipher c) (cipher_data c) (key_len c) (encrypt c) (flags c) (oiv c) (iv c) (buf c) (buf_len c) v (final_used c) (final c) (poisoned c).
Definition set_final_used v c := mk_ctx (cipher c) (cipher_data c) (key_len c) (encrypt c) (flags c) (oiv c) (iv c) (buf c) (buf_len c) (num c) v (final c) (poisoned c).
Definition set_final v c := mk_ctx (cipher c) (cipher_data c) (key_len c) (encrypt c) (flags c) (oiv c) (iv c) (buf c) (buf_len c) (num c) (final_used c) v (poisoned c).
Definition set_poisoned v c := mk_ctx (cipher c) (cipher_data c) (key_len c) (encrypt c) (flags c) (oiv c) (iv c) (buf c) (buf_len c) (num c) (final_used c) (final c) v.

Section Init.
(** A fresh allocation has the contents [fresh_data]; [alloc_ok] says whether it succeeds.  The
    methods return their value, what they write to [*ptr], and the context. *)
Context (fresh_data : D) (alloc_ok : bool).
Context (method_init : EVP_CIPHER -> EVP_CIPHER_CTX -> option bytes -> option bytes -> Z -> bool * EVP_CIPHER_CTX).
Context (method_ctrl : EVP_CIPHER -> EVP_CIPHER_CTX -> Z -> Z -> Z * Z * EVP_CIPHER_CTX).

(** * Contexts *)

Definition EVP_CIPHER_CTX_init : EVP_CIPHER_CTX :=
  mk_ctx None None 0 0 0 (replicate EVP_MAX_IV_LENGTH 0) (replicate EVP_MAX_IV_LENGTH 0)
    (replicate EVP_MAX_BLOCK_LENGTH 0) 0 0 false (replicate EVP_MAX_BLOCK_LENGTH 0) true.

(** The cleanup method and the release of [cipher_data] come before the context is zeroed. *)
Definition EVP_CIPHER_CTX_cleanup (ctx : EVP_CIPHER_CTX) : EVP_CIPHER_CTX := EVP_CIPHER_CTX_init.

Definition EVP_CIPHER_CTX_reset (ctx : EVP_CIPHER_CTX) : EVP_CIPHER_CTX := EVP_CIPHER_CTX_init.

(** The return value, [*ptr] and the context. *)
Definition EVP_CIPHER_CTX_ctrl (ctx : EVP_CIPHER_CTX) (command arg : Z) : Z * Z * EVP_CIPHER_CTX :=
  match cipher ctx with
  | None => (0, 0, ctx)
  | Some c =>
      if negb (has_ctrl c) then (0, 0, ctx)
      else
        let '(ret, v, ctx) := method_ctrl c ctx command arg in
        if ret =? -1 then (0, v, ctx) else (ret, v, ctx)
  end.

Definition EVP_CIPHER_CTX_iv_length (c : EVP_CIPHER) (ctx : EVP_CIPHER_CTX) : Z :=
  if (EVP_CIPHER_mode c =? EVP_CIPH_GCM_MODE) || (EVP_CIPHER_mode c =? EVP_CIPH_CCM_MODE) then
    let '(res, length, _) := EVP_CIPHER_CTX_ctrl ctx EVP_CTRL_GET_IVLEN 0 in
    if res =? 1 then length else iv_len c
  else iv_len c.

Definition EVP_CIPHER_CTX_set_padding (ctx : EVP_CIPHER_CTX) (pad : bool) : EVP_CIPHER_CTX :=
  if pad then set_flags (Z.land (flags ctx) (wnot 32 EVP_CIPH_NO_PADDING)) ctx
  else set_flags (Z.lor (flags ctx) EVP_CIPH_NO_PADDING) ctx.

Definition EVP_CIPHER_CTX_set_key_length (c : EVP_CIPHER) (ctx : EVP_CIPHER_CTX) (klen : Z) : bool * EVP_CIPHER_CTX :=
  if key_len ctx =? klen then (true, ctx)
  else if (klen =? 0) || negb (has_flag (c_flags c) EVP_CIPH_VARIABLE_LENGTH) then (false, ctx)
  else (true, set_key_len klen ctx).

(** * Initialization *)

(** [memcpy] of the first [n] bytes of [src] over [dst]. *)
Definition copy_prefix (dst src : bytes) (n : Z) : bytes := store dst 0 (take (Z.to_nat n) src).

(** The switch over the mode: [None] for the default case. *)
Definition init_iv (c : EVP_CIPHER) (ctx : EVP_CIPHER_CTX) (piv : option bytes) : option EVP_CIPHER_CTX :=
  let n := EVP_CIPHER_CTX_iv_length c ctx in
  let mode := EVP_CIPHER_mode c in
  if (mode =? EVP_CIPH_STREAM_CIPHER) || (mode =? EVP_CIPH_ECB_MODE) then Some ctx
  else if (mode =? EVP_CIPH_CFB_MODE) || (mode =? EVP_CIPH_CBC_MODE) then
    let ctx := if mode =? EVP_CIPH_CFB_MODE then set_num 0 ctx else ctx in
    let ctx := match piv with Some v => set_oiv (copy_prefix (oiv ctx) v n) ctx | None => ctx end in
    Some (set_iv (copy_prefix (iv ctx) (oiv ctx) n) ctx)
  else if (mode =? EVP_CIPH_CTR_MODE) || (mode =? EVP_CIPH_OFB_MODE) then
    let ctx := set_num 0 ctx in
    Some (match piv with Some v => set_iv (copy_prefix (iv ctx) v n) ctx | None => ctx end)
  else None.

(** Setting the cipher: the return value and the context. *)
Definition init_cipher (ctx : EVP_CIPHER_CTX) (pc : option EVP_CIPHER) (enc : Z) : bool * EVP_CIPHER_CTX :=
  match pc with
  | Some c =>
      let ctx := match cipher ctx with
                 | Some _ => set_encrypt enc (EVP_CIPHER_CTX_cleanup ctx)
                 | None => ctx
                 end in
      let ctx := set_cipher (Some c) ctx in
      if (negb (ctx_size c =? 0)) && negb alloc_ok then (false, set_cipher None (set_cipher_data None ctx))
      else
        let ctx := set_cipher_data (if ctx_size c =? 0 then None else Some fresh_data) ctx in
        let ctx := set_flags 0 (set_key_len (c_key_len c) ctx) in
        if has_flag (c_flags c) EVP_CIPH_CTRL_INIT then
          let '(ret, _, ctx) := EVP_CIPHER_CTX_ctrl ctx EVP_CTRL_INIT 0 in
          if ret =? 0 then (false, set_cipher None (set_cipher_data None ctx)) else (true, ctx)
        else (true, ctx)
  | None => (bool_decide (is_Some (cipher ctx)), ctx)
  end.

Definition EVP_CipherInit_ex (ctx : EVP_CIPHER_CTX) (pc : option EVP_CIPHER) (key piv : option bytes) (enc : Z) : bool * EVP_CIPHER_CTX :=
  let '(enc, ctx) :=
    if enc =? -1 then (encrypt ctx, ctx)
    else let enc := if negb (enc =? 0) then 1 else enc in (enc, set_encrypt enc ctx) in
  match init_cipher ctx pc enc with
  | (false, ctx) => (false, ctx)
  | (true, ctx) =>
      match cipher ctx with
      | None => (false, ctx)
      | Some c =>
          let with_iv := if has_flag (EVP_CIPHER_flags c) EVP_CIPH_CUSTOM_IV then Some ctx else init_iv c ctx piv in
          match with_iv with
          | None => (false, ctx)
          | Some ctx =>
              let '(ok, ctx) :=
                if bool_decide (is_Some key) || has_flag (c_flags c) EVP_CIPH_ALWAYS_CALL_INIT then method_init c ctx key piv enc
                else (true, ctx) in
              if negb ok then (false, ctx)
              else (true, set_poisoned false (set_final_used false (set_buf_len 0 ctx)))
          end
      end
  end.

Definition EVP_EncryptInit_ex (ctx : EVP_CIPHER_CTX) (pc : option EVP_CIPHER) (key piv : option bytes) := EVP_CipherInit_ex ctx pc key piv 1.
Definition EVP_DecryptInit_ex (ctx : EVP_CIPHER_CTX) (pc : option EVP_CIPHER) (key piv : option bytes) := EVP_CipherInit_ex ctx pc key piv 0.

Definition EVP_CipherInit (ctx : EVP_CIPHER_CTX) (pc : option EVP_CIPHER) (key piv : option bytes) (enc : Z) :=
  EVP_CipherInit_ex (match pc with Some _ => EVP_CIPHER_CTX_init | None => ctx end) pc key piv enc.


End Init.

(** * Encryption *)

(** The method that encrypts or decrypts: its value, what it wrote to [out], and the context. *)
Context (method_cipher : EVP_CIPHER -> EVP_CIPHER_CTX -> bytes -> Z -> Z * bytes * EVP_CIPHER_CTX).

(** A return: its value, [*out_len] if it was set, what was written and the context. *)
Record result := mk_result { ret : bool; out_len : option Z; out : bytes; ctx_of : EVP_CIPHER_CTX }.

Definition block_remainder (c : EVP_CIPHER) (len : Z) : Z := Z.land len (block_size c - 1).

(** The part of [EVP_EncryptUpdate] after the buffered block, of which [done] was written and
    [*out_len] set to [done_len]: whole blocks, then the rest. *)
Definition update_rest (c : EVP_CIPHER) (ctx : EVP_CIPHER_CTX) (inp : bytes) (in_len : Z) (done : bytes) (done_len : Z) : result :=
  let i := block_remainder c in_len in
  let in_len := in_len - i in
  let '(r, o, ctx) := if in_len >? 0 then method_cipher c ctx (take (Z.to_nat in_len) inp) in_len else (1, [], ctx) in
  if r =? 0 then mk_result false (Some done_len) (done ++ o) ctx
  else
    let ctx := if negb (i =? 0) then set_buf (store (buf ctx) 0 (ld inp (Z.to_nat in_len) (Z.to_nat i))) ctx else ctx in
    mk_result true (Some (if in_len >? 0 then done_len + in_len else done_len)) (done ++ o) (set_poisoned false (set_buf_len i ctx)).

Definition EVP_EncryptUpdate (ctx : EVP_CIPHER_CTX) (inp : bytes) (in_len : Z) : result :=
  if poisoned ctx then mk_result false None [] ctx
  else
    let ctx := set_poisoned true ctx in
    match cipher ctx with
    | None => mk_result false None [] ctx
    | Some c =>
        let bl := block_size c in
        if (bl >? 1) && (in_len >? INT_MAX - bl) then mk_result false None [] ctx
        else if has_flag (c_flags c) EVP_CIPH_FLAG_CUSTOM_CIPHER then
          let '(r, o, ctx) := method_cipher c ctx inp in_len in
          if r <? 0 then mk_result false None o ctx else mk_result true (Some r) o (set_poisoned false ctx)
        else if in_len <=? 0 then
          if in_len =? 0 then mk_result true (Some 0) [] (set_poisoned false ctx) else mk_result false (Some 0) [] ctx
        else if (buf_len ctx =? 0) && (block_remainder c in_len =? 0) then
          let '(r, o, ctx) := method_cipher c ctx (take (Z.to_nat in_len) inp) in_len in
          if r =? 0 then mk_result false (Some 0) o ctx else mk_result true (Some in_len) o (set_poisoned false ctx)
        else
          let i := buf_len ctx in
          if negb (i =? 0) then
            if bl - i >? in_len then
              mk_result true (Some 0) []
                (set_poisoned false (set_buf_len (i + in_len) (set_buf (store (buf ctx) (Z.to_nat i) (take (Z.to_nat in_len) inp)) ctx)))
            else
              let j := bl - i in
              let ctx := set_buf (store (buf ctx) (Z.to_nat i) (take (Z.to_nat j) inp)) ctx in
              let '(r, o, ctx) := method_cipher c ctx (take (Z.to_nat bl) (buf ctx)) bl in
              if r =? 0 then mk_result false None o ctx
              else update_rest c ctx (drop (Z.to_nat j) inp) (in_len - j) o bl
          else update_rest c ctx inp in_len [] 0
    end.

Definition EVP_EncryptFinal_ex (ctx : EVP_CIPHER_CTX) : result :=
  if poisoned ctx then mk_result false None [] ctx
  else
    match cipher ctx with
    | None => mk_result false None [] ctx
    | Some c =>
        if has_flag (c_flags c) EVP_CIPH_FLAG_CUSTOM_CIPHER then
          let '(num_bytes, o, ctx) := method_cipher c ctx [] 0 in
          if num_bytes <? 0 then mk_result false None o ctx else mk_result true (Some num_bytes) o ctx
        else
          let b := block_size c in
          if b =? 1 then mk_result true (Some 0) [] ctx
          else
            let bl := buf_len ctx in
            if has_flag (flags ctx) EVP_CIPH_NO_PADDING then
              if negb (bl =? 0) then mk_result false None [] ctx else mk_result true (Some 0) [] ctx
            else
              let n := b - bl in
              let ctx := set_buf (foldl (fun buf i => store buf i [u8 n]) (buf ctx) (seq (Z.to_nat bl) (Z.to_nat (b - bl)))) ctx in
              let '(r, o, ctx) := method_cipher c ctx (take (Z.to_nat b) (buf ctx)) b in
              if r =? 0 then mk_result false None o ctx else mk_result true (Some b) o ctx
    end.

(** * Decryption *)

Definition EVP_DecryptUpdate (ctx : EVP_CIPHER_CTX) (inp : bytes) (in_len : Z) : result :=
  if poisoned ctx then mk_result false None [] ctx
  else
    match cipher ctx with
    | None => mk_result false None [] ctx
    | Some c =>
        let b := block_size c in
        if (b >? 1) && (in_len >? INT_MAX - b) then mk_result false None [] ctx
        else if has_flag (c_flags c) EVP_CIPH_FLAG_CUSTOM_CIPHER then
          let '(r, o, ctx) := method_cipher c ctx inp in_len in
          if r <? 0 then mk_result false (Some 0) o ctx else mk_result true (Some r) o ctx
        else if in_len <=? 0 then mk_result (in_len =? 0) (Some 0) [] ctx
        else if has_flag (flags ctx) EVP_CIPH_NO_PADDING then EVP_EncryptUpdate ctx inp in_len
        else
          let fix_len := final_used ctx in
          let first := if fix_len then take (Z.to_nat b) (final ctx) else [] in
          let hold :=
            if (b >? 1) && (block_remainder c (buf_len ctx + in_len) =? 0) then (if in_len <? b then in_len else b) else 0 in
          let r := EVP_EncryptUpdate ctx inp (in_len - hold) in
          if negb (ret r) then mk_result false (out_len r) (first ++ out r) (ctx_of r)
          else
            let ctx := set_final_used false (ctx_of r) in
            let finish ctx :=
              mk_result true (if fix_len then option_map (fun n => n + b) (out_len r) else out_len r) (first ++ out r) ctx in
            if negb (hold =? 0) then
              let r2 := EVP_EncryptUpdate ctx (drop (Z.to_nat (in_len - hold)) inp) hold in
              let ctx := set_final (store (final (ctx_of r2)) 0 (out r2)) (ctx_of r2) in
              if negb (ret r2) then mk_result false (out_len r) (first ++ out r) ctx
              else if negb (bool_decide (out_len r2 = Some b)) || negb (buf_len ctx =? 0) then
                mk_result false (out_len r) (first ++ out r) (set_poisoned true ctx)
              else finish (set_final_used true ctx)
            else finish ctx
    end.

(** The last [n] of the first [b] bytes are all equal to [n]. *)
Definition padding_ok (final : bytes) (b n : nat) : bool :=
  forallb (fun i => byte_at final (b - 1 - i) =? Z.of_nat n) (seq 0 n).

Definition EVP_DecryptFinal_ex (ctx : EVP_CIPHER_CTX) : result :=
  if poisoned ctx then mk_result false (Some 0) [] ctx
  else
    match cipher ctx with
    | None => mk_result false (Some 0) [] ctx
    | Some c =>
        if has_flag (c_flags c) EVP_CIPH_FLAG_CUSTOM_CIPHER then
          let '(i, o, ctx) := method_cipher c ctx [] 0 in
          if i <? 0 then mk_result false (Some 0) o ctx else mk_result true (Some i) o ctx
        else
          let b := block_size c in
          if has_flag (flags ctx) EVP_CIPH_NO_PADDING then
            if negb (buf_len ctx =? 0) then mk_result false (Some 0) [] ctx else mk_result true (Some 0) [] ctx
          else if b >? 1 then
            if negb (buf_len ctx =? 0) || negb (final_used ctx) then mk_result false (Some 0) [] ctx
            else
              let n := byte_at (final ctx) (Z.to_nat (b - 1)) in
              if (n =? 0) || (n >? b) then mk_result false (Some 0) [] ctx
              else if negb (padding_ok (final ctx) (Z.to_nat b) (Z.to_nat n)) then mk_result false (Some 0) [] ctx
              else mk_result true (Some (b - n)) (take (Z.to_nat (b - n)) (final ctx)) ctx
          else mk_result true (Some 0) [] ctx
    end.

(** The method itself; without a cipher the call fails. *)
Definition EVP_Cipher (ctx : EVP_CIPHER_CTX) (inp : bytes) (in_len : Z) : Z * bytes * EVP_CIPHER_CTX :=
  match cipher ctx with
  | None => (0, [], ctx)
  | Some c => method_cipher c ctx inp in_len
  end.


Definition EVP_CipherFinal_ex (ctx : EVP_CIPHER_CTX) : result :=
  if negb (encrypt ctx =? 0) then EVP_EncryptFinal_ex ctx else EVP_DecryptFinal_ex ctx.

(** * What a cipher promises *)

(** The part of a context a method works on, and the part it leaves alone.  A cipher with
    blocks of one byte keeps its key stream in [buf]. *)
Definition core (b : nat) (ctx : EVP_CIPHER_CTX) :=
  (cipher_data ctx, encrypt ctx, iv ctx, num ctx, if (b =? 1)%nat then buf ctx else []).
Definition outer (b : nat) (ctx : EVP_CIPHER_CTX) :=
  (cipher ctx, flags ctx, encrypt ctx, buf_len ctx, final_used ctx, final ctx, poisoned ctx, length (buf ctx), if (b =? 1)%nat then [] else buf ctx).

(** The states of a mode, as contexts have them. *)
Definition mode_state {S : Type} (Inv : EVP_CIPHER_CTX -> Prop) (abs : EVP_CIPHER_CTX -> S) (s : S) : Prop := exists ctx, Inv ctx /\ abs ctx = s.

(** The methods of [c] compute [crypt] on whole blocks of [b] bytes; [abs] is the state of the
    mode in a context. *)
Class CipherMode (c : EVP_CIPHER) (b : nat) {S : Type} (Inv : EVP_CIPHER_CTX -> Prop) (abs : EVP_CIPHER_CTX -> S) (crypt : S -> bytes -> bytes * S) : Prop := {
  mode_size : block_size c = Z.of_nat b;
  mode_sizes : (b = 1 \/ b = 8 \/ b = 16)%nat;
  mode_plain : has_flag (c_flags c) EVP_CIPH_FLAG_CUSTOM_CIPHER = false;
  mode_frame ctx ctx' : core b ctx' = core b ctx -> Inv ctx -> Inv ctx' /\ abs ctx' = abs ctx;
  mode_call ctx x : Inv ctx -> x <> [] -> Nat.divide b (length x) -> bytes_ok x ->
    exists ctx', method_cipher c ctx x (len x) = (1, fst (crypt (abs ctx) x), ctx') /\
      Inv ctx' /\ abs ctx' = snd (crypt (abs ctx) x) /\ outer b ctx' = outer b ctx;
  crypt_nil s : mode_state Inv abs s -> crypt s [] = ([], s);
  crypt_app s x y : mode_state Inv abs s -> Nat.divide b (length x) -> Nat.divide b (length y) ->
    crypt s (x ++ y) = let '(o, s) := crypt s x in let '(o', s) := crypt s y in (o ++ o', s);
  crypt_length s x : mode_state Inv abs s -> Nat.divide b (length x) -> length (fst (crypt s x)) = length x;
  crypt_ok s x : mode_state Inv abs s -> Nat.divide b (length x) -> bytes_ok x -> bytes_ok (fst (crypt s x))
}.

Section Mode.
Context (c : EVP_CIPHER) (b : nat) {S : Type} (Inv : EVP_CIPHER_CTX -> Prop) (abs : EVP_CIPHER_CTX -> S) (crypt : S -> bytes -> bytes * S).
Context `{HM : !CipherMode c b Inv abs crypt}.

Lemma b_pos : (0 < b)%nat.
Proof. destruct mode_sizes as [H | [H | H]]; lia. Qed.

Lemma b_le : (b <= 16)%nat.
Proof. destruct mode_sizes as [H | [H | H]]; lia. Qed.

Lemma remainder_mod n : 0 <= n -> block_remainder c n = n mod Z.of_nat b.
Proof.
  intros Hn. unfold block_remainder. rewrite mode_size. assert (exists k, 0 <= k /\ Z.of_nat b = 2 ^ k) as (k & Hk & ->).
  { destruct mode_sizes as [-> | [-> | ->]]; [exists 0 | exists 3 | exists 4]; split; (lia || reflexivity). }
  replace (2 ^ k - 1) with (Z.ones k) by (rewrite Z.ones_equiv; lia). by apply Z.land_ones.
Qed.

(** The whole blocks of [y], and what is left. *)
Definition floor (y : bytes) : nat := (b * (length y / b))%nat.

Lemma floor_le y : (floor y <= length y)%nat.
Proof. unfold floor. pose proof b_pos. apply Nat.Div0.mul_div_le. Qed.

Lemma floor_rest y : (length y - floor y < b)%nat.
Proof. unfold floor. pose proof b_pos. pose proof (Nat.div_mod_eq (length y) b). pose proof (Nat.mod_upper_bound (length y) b ltac:(lia)). lia. Qed.

Lemma floor_mod y : Z.of_nat (floor y) = len y - len y mod Z.of_nat b.
Proof. unfold floor, len. pose proof b_pos. pose proof (Nat.div_mod_eq (length y) b). rewrite <- Nat2Z.inj_mod. lia. Qed.

Lemma floor_divide y : Nat.divide b (length (take (floor y) y)).
Proof. rewrite length_take, Nat.min_l by apply floor_le. exists (length y / b)%nat. unfold floor. lia. Qed.

Lemma floor_app x y : Nat.divide b (length x) -> floor (x ++ y) = (length x + floor y)%nat.
Proof.
  intros [k Hk]. unfold floor. pose proof b_pos. rewrite length_app, Hk. replace (k * b + length y)%nat with (length y + k * b)%nat by lia. rewrite Nat.div_add by lia. lia.
Qed.

Lemma floor_small y : (length y < b)%nat -> floor y = 0%nat.
Proof. intros H. unfold floor. rewrite Nat.div_small by done. lia. Qed.

(** A context in the middle of a message: the mode has the state [s], and [p] is buffered. *)
Record enc_at (ctx : EVP_CIPHER_CTX) (s : S) (p : bytes) : Prop := {
  at_cipher : cipher ctx = Some c;
  at_inv : Inv ctx;
  at_abs : abs ctx = s;
  at_clean : poisoned ctx = false;
  at_buf : length (buf ctx) = EVP_MAX_BLOCK_LENGTH;
  at_len : buf_len ctx = len p;
  at_short : (length p < b)%nat;
  at_pending : take (length p) (buf ctx) = p
}.

(** What [EVP_EncryptUpdate] leaves alone. *)
Definition kept (ctx ctx' : EVP_CIPHER_CTX) : Prop :=
  flags ctx' = flags ctx /\ final_used ctx' = final_used ctx /\ final ctx' = final ctx /\ encrypt ctx' = encrypt ctx.

Lemma kept_outer ctx ctx' : outer b ctx' = outer b ctx -> kept ctx ctx'.
Proof. unfold outer. intros [= ? ? ? ? ? ? ? ?]. done. Qed.

Lemma frame_set_buf ctx v : b <> 1%nat -> core b (set_buf v ctx) = core b ctx.
Proof. intros Hb. unfold core. by rewrite (proj2 (Nat.eqb_neq b 1) Hb). Qed.

Lemma mod_small_block n : b = 1%nat -> n mod Z.of_nat b = 0.
Proof. intros ->. apply Z.mod_1_r. Qed.

(** A call of the method, or none when there is nothing to do. *)
Lemma call_or_not ctx s x :
  Inv ctx -> abs ctx = s -> Nat.divide b (length x) -> bytes_ok x ->
  exists ctx', (if len x >? 0 then method_cipher c ctx x (len x) else (1, [], ctx)) = (1, fst (crypt s x), ctx') /\
    Inv ctx' /\ abs ctx' = snd (crypt s x) /\ outer b ctx' = outer b ctx.
Proof.
  intros Hi <- Hd Hx. destruct x as [| a x]; [exists ctx; rewrite crypt_nil; [done | by exists ctx] |]. rewrite len_cons. pose proof (len_nonneg x).
  rewrite (proj2 (Z.gtb_lt _ _)) by lia. rewrite <- (len_cons a x). by apply mode_call.
Qed.

Lemma outer_fields ctx ctx' : outer b ctx' = outer b ctx ->
  cipher ctx' = cipher ctx /\ length (buf ctx') = length (buf ctx) /\ buf_len ctx' = buf_len ctx /\ (b <> 1%nat -> buf ctx' = buf ctx) /\ poisoned ctx' = poisoned ctx.
Proof.
  unfold outer. intros [= H1 H2 H3 H4 H5 H6 H7 H8 H9]. split_and!; try done. intros Hb. by rewrite (proj2 (Nat.eqb_neq b 1) Hb) in H9.
Qed.

Lemma update_rest_spec ctx s z t done dl :
  cipher ctx = Some c -> Inv ctx -> abs ctx = s -> length (buf ctx) = EVP_MAX_BLOCK_LENGTH -> bytes_ok z ->
  exists ctx', update_rest c ctx (z ++ t) (len z) done dl = mk_result true (Some (dl + Z.of_nat (floor z))) (done ++ fst (crypt s (take (floor z) z))) ctx' /\
    enc_at ctx' (snd (crypt s (take (floor z) z))) (drop (floor z) z) /\ kept ctx ctx'.
Proof.
  intros Hc Hi Hs Hb Hz. unfold update_rest. rewrite remainder_mod by apply len_nonneg. rewrite <- floor_mod. rewrite Nat2Z.id.
  pose proof (floor_le z) as Hfl. rewrite take_app_le by done. pose proof (floor_rest z) as Hfr. pose proof (floor_mod z) as Hfm. pose proof b_le as Hb16. pose proof b_pos.
  assert (len (take (floor z) z) = Z.of_nat (floor z)) as Hlt by (unfold len; rewrite length_take; lia). rewrite <- Hlt.
  destruct (call_or_not ctx s (take (floor z) z) Hi Hs (floor_divide z) ltac:(auto with bytes_db)) as (ctx1 & -> & Hi1 & Ha1 & Ho1).
  destruct (outer_fields _ _ Ho1) as (Hc1 & Hb1 & _ & _ & _). pose proof (kept_outer _ _ Ho1) as Hk1. change (1 =? 0) with false. cbv iota.
  set (i := len z mod Z.of_nat b) in *. assert (i = len (drop (floor z) z)) as Hil by (unfold len; rewrite length_drop; unfold len in Hfm; lia).
  set (ctx2 := if negb (i =? 0) then set_buf _ ctx1 else ctx1). eexists. split; [f_equal; f_equal; destruct (Z.gtb_spec (len (take (floor z) z)) 0); lia |].
  assert (core b ctx2 = core b ctx1) as Hcore.
  { unfold ctx2. destruct (Z.eqb_spec i 0) as [H0 | H0]; cbn [negb]; [done |]. apply frame_set_buf. intros E. apply H0. unfold i. by apply mod_small_block. }
  destruct (mode_frame ctx1 (set_poisoned false (set_buf_len i ctx2))) as [Hi2 Ha2]; [exact Hcore | done |]. split.
  - split; [unfold ctx2; destruct (negb _); cbn; congruence | done | by rewrite Ha2 | done | | | rewrite length_drop; lia |].
    + unfold ctx2. destruct (negb _); cbn; [rewrite length_store; [congruence |] | congruence]. unfold EVP_MAX_BLOCK_LENGTH in *.
      unfold len in Hil. rewrite length_drop in Hil.
      unfold ld. rewrite length_take. lia.
    + cbn. done.
    + cbn. unfold ctx2. destruct (Z.eqb_spec i 0) as [H0 | H0]; cbn [negb].
      * assert (drop (floor z) z = []) as -> by (apply nil_length_inv; unfold len in Hil; lia). done.
      * cbn. unfold ld. rewrite drop_app_le by done.
        assert (take (Z.to_nat i) (drop (floor z) z ++ t) = drop (floor z) z) as -> by (apply take_app_length'; unfold len in Hil; lia).
        unfold store. change (take 0 (buf ctx1)) with (@nil Z). cbn [app]. apply take_app_length.
  - unfold kept in *. cbn. unfold ctx2. by destruct (negb _).
Qed.

(** The length fits the interface, whose lengths are of type [int]. *)
Definition int_ok (x : bytes) : Prop := b = 1%nat \/ len x + Z.of_nat b <= INT_MAX.

Lemma int_guard x : int_ok x -> (block_size c >? 1) && (len x >? INT_MAX - block_size c) = false.
Proof.
  intros H. rewrite mode_size. destruct H as [-> | H]; [done |]. destruct (Z.gtb_spec (len x) (INT_MAX - Z.of_nat b)); [lia |]. apply andb_false_r.
Qed.

(** The block completed in the buffer. *)
Lemma buffered_block ctx s p x t :
  Inv ctx -> abs ctx = s -> length (buf ctx) = EVP_MAX_BLOCK_LENGTH -> take (length p) (buf ctx) = p -> (length p < b)%nat -> b <> 1%nat ->
  bytes_ok p -> bytes_ok x -> (b - length p <= length x)%nat ->
  let y := p ++ take (b - length p) x in
  exists ctx', (let ctx := set_buf (store (buf ctx) (Z.to_nat (len p)) (take (Z.to_nat (Z.of_nat b - len p)) (x ++ t))) ctx in
      method_cipher c ctx (take (Z.to_nat (Z.of_nat b)) (buf ctx)) (Z.of_nat b)) = (1, fst (crypt s y), ctx') /\
    cipher ctx' = cipher ctx /\ Inv ctx' /\ abs ctx' = snd (crypt s y) /\ length (buf ctx') = EVP_MAX_BLOCK_LENGTH /\ kept ctx ctx' /\ Nat.divide b (length y).
Proof.
  intros Hi Ha Hb Hp Hsh Hb1 Hpo Hxo Hjx. cbv zeta. pose proof b_le. set (j := (b - length p)%nat) in *.
  assert (Z.to_nat (len p) = length p) as -> by (unfold len; lia). assert (Z.to_nat (Z.of_nat b - len p) = j) as -> by (unfold len, j; lia).
  rewrite take_app_le by done. rewrite Nat2Z.id. set (ctx2 := set_buf _ ctx).
  assert (length (p ++ take j x) = b) as Hlb by (rewrite length_app, length_take; unfold j in *; lia).
  assert (take b (buf ctx2) = p ++ take j x) as ->.
  { cbn. unfold store. rewrite Hp, app_assoc. by apply take_app_length'. }
  destruct (mode_frame ctx ctx2 (frame_set_buf _ _ Hb1) Hi) as [Hi2 Ha2].
  assert (Nat.divide b (length (p ++ take j x))) as Hd by (rewrite Hlb; exists 1%nat; lia).
  destruct (mode_call ctx2 (p ++ take j x) Hi2 ltac:(intros E; rewrite E in Hlb; cbn in Hlb; lia) Hd ltac:(apply bytes_ok_app; auto with bytes_db)) as (ctx' & Hcall & Hi3 & Ha3 & Ho3).
  unfold len in Hcall. rewrite Hlb in Hcall. rewrite Ha2, Ha in *. destruct (outer_fields _ _ Ho3) as (Hc3 & Hb3 & _ & _ & _).
  exists ctx'. split_and!; try done.
  - rewrite Hb3. cbn. rewrite length_store; [done |]. rewrite length_take, Hb. unfold EVP_MAX_BLOCK_LENGTH. unfold j. lia.
  - apply kept_outer in Ho3. done.
Qed.

(** [EVP_EncryptUpdate] encrypts the whole blocks of what is buffered and the input, and
    buffers the rest. *)
Lemma encrypt_update_spec ctx s p x t :
  enc_at ctx s p -> int_ok x -> bytes_ok p -> bytes_ok x ->
  let y := p ++ x in
  exists ctx', EVP_EncryptUpdate ctx (x ++ t) (len x) =
      mk_result true (Some (Z.of_nat (floor y))) (fst (crypt s (take (floor y) y))) ctx' /\
    enc_at ctx' (snd (crypt s (take (floor y) y))) (drop (floor y) y) /\ kept ctx ctx'.
Proof.
  intros [Hc Hi Ha Hcl Hb Hl Hsh Hp] Hint Hpo Hxo. cbv zeta. unfold EVP_EncryptUpdate. rewrite Hcl. cbv zeta. set (ctx0 := set_poisoned true ctx).
  change (cipher ctx0) with (cipher ctx). change (buf_len ctx0) with (buf_len ctx). change (buf ctx0) with (buf ctx). rewrite Hc.
  rewrite int_guard, mode_plain by done. pose proof (len_nonneg x) as Hlx. pose proof b_le as Hb16. pose proof b_pos as Hb0.
  destruct (mode_frame ctx ctx0 eq_refl Hi) as [Hi1 Ha1].
  destruct (Z.leb_spec (len x) 0) as [H0 | H0].
  { assert (x = []) as -> by (apply len_nil_inv; lia). change (len [] =? 0) with true. cbv iota. rewrite app_nil_r, floor_small by done.
    change (take 0 p) with (@nil Z). change (drop 0 p) with p. rewrite crypt_nil by (by exists ctx). cbn [fst snd]. eexists. split; [done |]. destruct (mode_frame ctx (set_poisoned false ctx0) eq_refl Hi) as [Hi2 Ha2].
    split; [split; (done || congruence) | done]. }
  rewrite take_app_length' by (unfold len; lia). rewrite Hl, remainder_mod by lia.
  destruct (Z.eqb_spec (len p) 0) as [Hp0 | Hp0].
  - apply len_nil_inv in Hp0 as ->. cbn [app andb negb]. destruct (Z.eqb_spec (len x mod Z.of_nat b) 0) as [Hr | Hr].
    + pose proof (floor_mod x) as Hfm. assert (floor x = length x) as Hfx by (unfold len in *; lia). rewrite Hfx, firstn_all.
      assert (Nat.divide b (length x)) as Hdx by (rewrite <- (firstn_all x), <- Hfx at 1; apply floor_divide).
      destruct (mode_call ctx0 x Hi1 ltac:(intros ->; by cbn in H0) Hdx Hxo) as (ctx1 & -> & Hi2 & Ha2 & Ho2).
      destruct (outer_fields _ _ Ho2) as (Hc2 & Hb2 & Hl2 & _ & _). change (1 =? 0) with false. cbv iota. rewrite Ha1, Ha in *. eexists. split; [done |].
      destruct (mode_frame ctx1 (set_poisoned false ctx1) eq_refl Hi2) as [Hi3 Ha3].
      rewrite drop_ge by lia. split; [split; cbn in *; (done || congruence || lia) |]. apply (kept_outer _ _ Ho2).
    + destruct (update_rest_spec ctx0 s x t [] 0 Hc Hi1 ltac:(congruence) Hb Hxo) as (ctx' & -> & He & Hk).
      exists ctx'. cbn [app]. split; [by rewrite Z.add_0_l | done].
  - cbn [andb negb]. rewrite mode_size. assert (b <> 1%nat) as Hb1 by (intros E; unfold len in Hp0; lia).
    rewrite Z.gtb_ltb. destruct (Z.ltb_spec (len x) (Z.of_nat b - len p)) as [Hshort | Hlong].
    + assert (length (p ++ x) < b)%nat as Hyb by (rewrite length_app; unfold len in *; lia). rewrite floor_small by done. change (take 0 (p ++ x)) with (@nil Z).
      assert (Z.to_nat (len p) = length p) as -> by (unfold len; lia).
      change (drop 0 (p ++ x)) with (p ++ x). rewrite crypt_nil by (by exists ctx). cbn [fst snd]. eexists. split; [done |].
      set (ctx' := set_poisoned false _). destruct (mode_frame ctx ctx') as [Hi2 Ha2]; [unfold core; by rewrite (proj2 (Nat.eqb_neq b 1) Hb1) | done |].
      split; [split; cbn; try done || congruence |].
      * rewrite length_store; [done |]. rewrite Hb, length_app in *. unfold EVP_MAX_BLOCK_LENGTH. lia.
      * by rewrite len_app.
      * unfold store. rewrite Hp, app_assoc. apply take_app_length.
      * done.
    + destruct (buffered_block ctx0 s p x t Hi1 ltac:(congruence) Hb Hp Hsh Hb1 Hpo Hxo ltac:(unfold len in *; lia)) as (ctx1 & Hcall & Hc1 & Hi2 & Ha2 & Hb2 & Hk2 & Hd).
      cbv zeta in Hcall |- *. change (buf ctx0) with (buf ctx) in Hcall |- *. rewrite Hcall. change (1 =? 0) with false. cbv iota.
      set (j := (b - length p)%nat) in *. assert (Z.to_nat (Z.of_nat b - len p) = j) as -> by (unfold len, j; lia). rewrite drop_app_le by (unfold len in *; lia).
      assert (len x - (Z.of_nat b - len p) = len (drop j x)) as -> by (unfold len, j; rewrite length_drop; unfold len in *; lia).
      destruct (update_rest_spec ctx1 _ (drop j x) t (fst (crypt s (p ++ take j x))) (Z.of_nat b) ltac:(rewrite Hc1; exact Hc) Hi2 Ha2 Hb2 ltac:(auto with bytes_db)) as (ctx' & -> & He & Hk).
      assert (p ++ x = (p ++ take j x) ++ drop j x) as -> by (rewrite <- app_assoc, take_drop; done).
      assert (length (p ++ take j x) = b) as Hlb by (rewrite length_app, length_take; unfold len, j in *; lia).
      exists ctx'. rewrite floor_app, Hlb by done. rewrite take_app_add', drop_app_add' by done. rewrite (crypt_app s (p ++ take j x)) by (done || apply floor_divide || by exists ctx).
      destruct (crypt s (p ++ take j x)) as [o1 s1]. cbn [fst snd] in *. destruct (crypt s1 (take (floor (drop j x)) (drop j x))) as [o2 s2]. cbn [fst snd] in *.
      split; [by rewrite Nat2Z.inj_add | split; [done |]]. unfold kept in *. cbn in *. intuition congruence.
Qed.
(** * Messages *)

(** Consecutive inputs: the rest of the first is taken with the second. *)
Lemma floor_cut y x : y ++ x = take (floor y) y ++ (drop (floor y) y ++ x).
Proof. by rewrite app_assoc, take_drop. Qed.

Lemma floor_split y x : floor (y ++ x) = (floor y + floor (drop (floor y) y ++ x))%nat.
Proof.
  pose proof (floor_le y). rewrite floor_cut at 1. rewrite floor_app by apply floor_divide. rewrite length_take. lia.
Qed.

Lemma take_floor_split y x : take (floor (y ++ x)) (y ++ x) = take (floor y) y ++ take (floor (drop (floor y) y ++ x)) (drop (floor y) y ++ x).
Proof.
  rewrite floor_split. pose proof (floor_le y). rewrite (floor_cut y x) at 1. apply take_app_add'. rewrite length_take. lia.
Qed.

Lemma drop_floor_split y x : drop (floor (y ++ x)) (y ++ x) = drop (floor (drop (floor y) y ++ x)) (drop (floor y) y ++ x).
Proof.
  rewrite floor_split. pose proof (floor_le y). rewrite (floor_cut y x) at 1. apply drop_app_add'. rewrite length_take. lia.
Qed.

(** The whole blocks of [y], encrypted. *)
Definition blocks (s : S) (y : bytes) : bytes * S := crypt s (take (floor y) y).

Lemma blocks_app s y x : mode_state Inv abs s ->
  blocks s (y ++ x) = let '(o, s) := blocks s y in let '(o', s) := blocks s (drop (floor y) y ++ x) in (o ++ o', s).
Proof. intros Hs. unfold blocks. rewrite take_floor_split. apply crypt_app; [done | apply floor_divide ..]. Qed.

Lemma blocks_length s y : mode_state Inv abs s -> length (fst (blocks s y)) = floor y.
Proof. intros Hs. unfold blocks. rewrite crypt_length by (done || apply floor_divide). rewrite length_take. pose proof (floor_le y). lia. Qed.

Lemma blocks_exact s y : Nat.divide b (length y) -> blocks s y = crypt s y.
Proof. intros Hd. unfold blocks. rewrite <- (app_nil_r y) at 1. rewrite floor_app by done. rewrite floor_small by apply b_pos. by rewrite Nat.add_0_r, firstn_all. Qed.

(** The bytes a caller takes from the output buffer. *)
Definition output (r : result) : bytes := match out_len r with Some n => take (Z.to_nat n) (out r) | None => [] end.

(** Calls of an update function until one fails: all the output, and the context. *)
Fixpoint updates (f : EVP_CIPHER_CTX -> bytes -> Z -> result) (ctx : EVP_CIPHER_CTX) (xs : list bytes) : option (bytes * EVP_CIPHER_CTX) :=
  match xs with
  | [] => Some ([], ctx)
  | x :: xs =>
      let r := f ctx x (len x) in
      if ret r then match updates f (ctx_of r) xs with Some (o, ctx) => Some (output r ++ o, ctx) | None => None end
      else None
  end.

(** A message in pieces: the updates, then the final call. *)
Definition message (f : EVP_CIPHER_CTX -> bytes -> Z -> result) (fin : EVP_CIPHER_CTX -> result) (ctx : EVP_CIPHER_CTX) (xs : list bytes) : option bytes :=
  match updates f ctx xs with
  | Some (o, ctx) => let r := fin ctx in if ret r then Some (o ++ output r) else None
  | None => None
  end.

(** PKCS padding to whole blocks: none for a stream cipher, or when it is turned off. *)
Definition pad (nopad : bool) (m : bytes) : option bytes :=
  if (b =? 1)%nat then Some m
  else if nopad then (if (length m mod b =? 0)%nat then Some m else None)
  else let n := (b - length m mod b)%nat in Some (m ++ replicate n (Z.of_nat n)).

Definition unpad (nopad : bool) (m : bytes) : option bytes :=
  if negb (length m mod b =? 0)%nat then None
  else if (b =? 1)%nat || nopad then Some m
  else
    let n := Z.to_nat (last m 0) in
    if (n =? 0)%nat || (b <? n)%nat then None
    else if bool_decide (drop (length m - n) m = replicate n (Z.of_nat n)) then Some (take (length m - n) m) else None.

Lemma updates_encrypt xs ctx s p :
  enc_at ctx s p -> bytes_ok p -> Forall int_ok xs -> Forall bytes_ok xs ->
  let y := p ++ concat xs in
  exists ctx', updates EVP_EncryptUpdate ctx xs = Some (fst (blocks s y), ctx') /\
    enc_at ctx' (snd (blocks s y)) (drop (floor y) y) /\ kept ctx ctx'.
Proof.
  revert ctx s p. induction xs as [| x xs IH]; intros ctx s p Hat Hp Hint Hok; cbv zeta.
  - cbn [updates concat]. rewrite app_nil_r. unfold blocks. rewrite floor_small by apply Hat. change (take 0 p) with (@nil Z). change (drop 0 p) with p.
    rewrite crypt_nil by (exists ctx; split; apply Hat). by exists ctx.
  - inversion Hint as [| ? ? Hi1 Hi2]; subst. inversion Hok as [| ? ? Ho1 Ho2]; subst. assert (mode_state Inv abs s) as Hs by (exists ctx; split; apply Hat).
    destruct (encrypt_update_spec ctx s p x [] Hat Hi1 Hp Ho1) as (ctx1 & Hr & Hat1 & Hk1). rewrite app_nil_r in Hr.
    destruct (IH ctx1 _ _ Hat1 ltac:(apply bytes_ok_drop, bytes_ok_app; done) Hi2 Ho2) as (ctx' & Hu & Hat' & Hk').
    exists ctx'. cbn [updates concat]. rewrite Hr. cbv zeta. cbn [ret ctx_of]. rewrite Hu. cbn [output out_len out].
    rewrite app_assoc. rewrite (blocks_app s (p ++ x)) by done. pose proof (blocks_length s (p ++ x) Hs) as Hl. rewrite (drop_floor_split (p ++ x)).
    unfold output. cbn [out_len out]. fold (blocks s (p ++ x)) in *. clear Hu Hr. revert Hat' Hl. destruct (blocks s (p ++ x)) as [o1 s1]. cbn [fst snd] in *.
    destruct (blocks s1 _) as [o2 s2]. cbn [fst snd]. intros Hat' Hl. rewrite Nat2Z.id, take_ge by lia. split; [done | split; [done |]]. unfold kept in *. intuition congruence.
Qed.

(** ** The end of an encryption *)

(** The loop that writes the padding completes the block. *)
Lemma pad_block ctx p : length (buf ctx) = EVP_MAX_BLOCK_LENGTH -> take (length p) (buf ctx) = p -> (length p < b)%nat ->
  let n := Z.of_nat b - len p in
  take b (foldl (fun buf i => store buf i [u8 n]) (buf ctx) (seq (length p) (Z.to_nat n))) = p ++ replicate (b - length p) (Z.of_nat (b - length p)).
Proof.
  intros Hb Hp Hsh. cbv zeta. pose proof b_le. unfold EVP_MAX_BLOCK_LENGTH in Hb. set (n := Z.of_nat b - len p).
  assert (n = Z.of_nat (b - length p)) as En by (unfold n, len; lia).
  pose proof (fold_store_bytes (fun _ _ => u8 n) (fun _ => u8 n) (length p) (Z.to_nat n) (buf ctx) 0 ltac:(done) ltac:(lia)) as Hf.
  cbn [Nat.add] in Hf. rewrite Hf, En, Nat2Z.id. assert (u8 (Z.of_nat (b - length p)) = Z.of_nat (b - length p)) as -> by (apply wrap_id; unfold fits; lia).
  assert (forall k i (v : Z), map (fun _ => v) (seq i k) = replicate k v) as -> by (induction k as [| k IH]; intros; cbn; [done | by rewrite IH]).
  unfold store. rewrite Hp, app_assoc. apply take_app_length'. rewrite length_app, length_replicate. lia.
Qed.

Lemma drop_floor_length y : length (drop (floor y) y) = (length y mod b)%nat.
Proof. rewrite length_drop. unfold floor. pose proof (Nat.div_mod_eq (length y) b). lia. Qed.

(** [EVP_EncryptFinal_ex], after the message [m]. *)
Lemma encrypt_final_spec ctx s0 m :
  mode_state Inv abs s0 -> bytes_ok m -> enc_at ctx (snd (blocks s0 m)) (drop (floor m) m) ->
  let r := EVP_EncryptFinal_ex ctx in
  (if ret r then Some (fst (blocks s0 m) ++ output r) else None) =
  option_map (fun m => fst (crypt s0 m)) (pad (has_flag (flags ctx) EVP_CIPH_NO_PADDING) m).
Proof.
  intros Hs Hm [Hc Hi Ha Hcl Hb Hl Hsh Hp]. unfold EVP_EncryptFinal_ex, pad. cbv zeta. rewrite Hcl, Hc, mode_plain, mode_size, Hl. pose proof b_le. pose proof b_pos.
  assert (length m mod b = 0 -> Nat.divide b (length m))%nat as Hdiv by (apply Nat.Lcm0.mod_divide).
  pose proof (drop_floor_length m) as Hlen. set (p := drop (floor m) m) in *. assert (len p = Z.of_nat (length m mod b)) as Hlp by (unfold len; lia).
  destruct (Nat.eqb_spec b 1) as [E1 | N1].
  { rewrite (proj2 (Z.eqb_eq _ _)) by lia. unfold output. cbn [ret out_len out option_map]. rewrite app_nil_r, blocks_exact; [done |]. apply Hdiv. rewrite E1. apply Nat.mod_1_r. }
  rewrite (proj2 (Z.eqb_neq (Z.of_nat b) 1)) by lia. destruct (has_flag _ _) eqn:Ef.
  { destruct (Nat.eqb_spec (length m mod b) 0) as [E0 | N0].
    - rewrite (proj2 (Z.eqb_eq (len p) 0)) by lia. unfold output. cbn [ret out_len out option_map negb]. rewrite app_nil_r, blocks_exact by auto. done.
    - rewrite (proj2 (Z.eqb_neq (len p) 0)) by lia. done. }
  rewrite Nat2Z.id. assert (Z.to_nat (len p) = length p) as -> by (unfold len; lia).
  set (ctx1 := set_buf _ ctx). change (buf ctx1) with (foldl (fun buf i => store buf i [u8 (Z.of_nat b - len p)]) (buf ctx) (seq (length p) (Z.to_nat (Z.of_nat b - len p)))).
  rewrite pad_block by done. rewrite Hlen. set (k := (b - length m mod b)%nat). set (q := p ++ replicate k (Z.of_nat k)).
  assert (length q = b) as Hq by (unfold q, k; rewrite length_app, length_replicate; lia).
  assert (Nat.divide b (length q)) as Hdq by (rewrite Hq; exists 1%nat; lia).
  destruct (mode_frame ctx ctx1 (frame_set_buf _ _ N1) Hi) as [Hi1 Ha1].
  destruct (mode_call ctx1 q Hi1 ltac:(intros E; rewrite E in Hq; cbn in Hq; lia) Hdq) as (ctx2 & Hcall & _).
  { unfold q. apply bytes_ok_app. split; [by apply bytes_ok_drop | apply bytes_ok_replicate; unfold byte_ok; lia]. }
  unfold len in Hcall. rewrite Hq, Ha1, Ha in Hcall. rewrite Hcall. unfold output. cbn [Z.eqb ret out_len out option_map]. f_equal.
  assert (mode_state Inv abs (snd (blocks s0 m))) as Hs1 by (exists ctx1; split; congruence).
  rewrite take_ge by (rewrite crypt_length by done; lia). rewrite <- (blocks_exact s0 (m ++ _)).
  - rewrite (blocks_app s0 m) by done. fold p q. destruct (blocks s0 m) as [o1 s1]. cbn [fst snd] in *. rewrite blocks_exact by done. by destruct (crypt s1 q).
  - rewrite length_app, length_replicate. exists (length m / b + 1)%nat. unfold k. pose proof (Nat.div_mod_eq (length m) b). lia.
Qed.

Lemma encrypt_message_spec ctx s xs :
  enc_at ctx s [] -> Forall int_ok xs -> Forall bytes_ok xs ->
  message EVP_EncryptUpdate EVP_EncryptFinal_ex ctx xs =
  option_map (fun m => fst (crypt s m)) (pad (has_flag (flags ctx) EVP_CIPH_NO_PADDING) (concat xs)).
Proof.
  intros Hat Hint Hok. destruct (updates_encrypt xs ctx s [] Hat bytes_ok_nil Hint Hok) as (ctx' & Hu & Hat' & Hk). cbn [app] in *.
  unfold message. rewrite Hu. destruct Hk as (<- & _). apply encrypt_final_spec; [exists ctx; split; apply Hat | by apply concat_ok | done].
Qed.

(** ** Decryption *)

(** In the middle of a decryption that unpads: [y] was read and [o] released; the last block,
    if the input ends with one, is withheld. *)
Record dec_at (ctx : EVP_CIPHER_CTX) (s0 : S) (y o : bytes) : Prop := {
  dec_enc : enc_at ctx (snd (blocks s0 y)) (drop (floor y) y);
  dec_final : length (final ctx) = EVP_MAX_BLOCK_LENGTH;
  dec_used : final_used ctx = bool_decide (y <> [] /\ (length y mod b = 0)%nat);
  dec_out : fst (blocks s0 y) = o ++ (if final_used ctx then take b (final ctx) else [])
}.

Lemma enc_at_final ctx s p u f : enc_at ctx s p -> enc_at (set_final_used u (set_final f ctx)) s p.
Proof.
  intros [Hc Hi Ha Hcl Hb Hl Hsh Hp]. destruct (mode_frame ctx (set_final_used u (set_final f ctx)) eq_refl Hi) as [Hi' Ha'].
  split; try done. by rewrite Ha'.
Qed.

Lemma enc_at_used ctx s p u : enc_at ctx s p -> enc_at (set_final_used u ctx) s p.
Proof. intros H. destruct ctx. exact (enc_at_final _ _ _ u _ H). Qed.

Lemma enc_at_padding ctx s p on : enc_at ctx s p -> enc_at (EVP_CIPHER_CTX_set_padding ctx on) s p.
Proof.
  intros [Hc Hi Ha Hcl Hb Hl Hsh Hp]. assert (core b (EVP_CIPHER_CTX_set_padding ctx on) = core b ctx) as Hco by (by destruct on).
  destruct (mode_frame ctx _ Hco Hi) as [Hi' Ha']. destruct on; split; try done; by rewrite Ha'.
Qed.

Lemma blocks_next s0 y x o1 : mode_state Inv abs s0 ->
  fst (blocks s0 y) = o1 ->
  fst (blocks s0 (y ++ x)) = o1 ++ fst (blocks (snd (blocks s0 y)) (drop (floor y) y ++ x)) /\
  snd (blocks s0 (y ++ x)) = snd (blocks (snd (blocks s0 y)) (drop (floor y) y ++ x)).
Proof.
  intros Hs <-. rewrite (blocks_app s0 y x Hs). destruct (blocks s0 y) as [o s]. cbn [fst snd]. by destruct (blocks s _).
Qed.

Lemma int_ok_le x y : (length y <= length x)%nat -> int_ok x -> int_ok y.
Proof. intros H [-> | H1]; [by left | right]. unfold len in *. lia. Qed.

(** An update at the end of [y], with the output placed after what was released. *)
Lemma next_update ctx s0 y x t :
  mode_state Inv abs s0 -> enc_at ctx (snd (blocks s0 y)) (drop (floor y) y) -> int_ok x -> bytes_ok y -> bytes_ok x ->
  exists ctx' w, EVP_EncryptUpdate ctx (x ++ t) (len x) = mk_result true (Some (len w)) w ctx' /\ enc_at ctx' (snd (blocks s0 (y ++ x))) (drop (floor (y ++ x)) (y ++ x)) /\
    kept ctx ctx' /\ fst (blocks s0 (y ++ x)) = fst (blocks s0 y) ++ w /\ length w = floor (drop (floor y) y ++ x).
Proof.
  intros Hs Hat Hint Hy Hx. assert (mode_state Inv abs (snd (blocks s0 y))) as Hs1 by (exists ctx; split; apply Hat).
  destruct (encrypt_update_spec ctx _ _ x t Hat Hint ltac:(by apply bytes_ok_drop) Hx) as (ctx' & Hr & Hat' & Hk).
  destruct (blocks_next s0 y x _ Hs eq_refl) as [Hf Hn]. fold (blocks (snd (blocks s0 y)) (drop (floor y) y ++ x)) in *.
  pose proof (blocks_length (snd (blocks s0 y)) (drop (floor y) y ++ x) Hs1) as Hw.
  exists ctx', (fst (blocks (snd (blocks s0 y)) (drop (floor y) y ++ x))). rewrite Hn, Hf, drop_floor_split. unfold len. rewrite Hw. done.
Qed.

(** The bytes withheld: those of [x] in the last block, when [y ++ x] ends with one. *)
Definition hold (y x : bytes) : nat := if bool_decide (length (y ++ x) mod b = 0)%nat then Nat.min (length x) b else 0.

Lemma hold_le y x : (hold y x <= length x)%nat.
Proof. unfold hold. destruct (bool_decide _); lia. Qed.

Lemma hold_code ctx s0 y x : enc_at ctx s0 (drop (floor y) y) -> b <> 1%nat ->
  (if (block_size c >? 1) && (block_remainder c (buf_len ctx + len x) =? 0) then (if len x <? block_size c then len x else block_size c) else 0) = Z.of_nat (hold y x).
Proof.
  intros Hat Hb1. pose proof b_pos. rewrite (at_len _ _ _ Hat), mode_size. pose proof (len_nonneg x). pose proof (len_nonneg (drop (floor y) y)).
  rewrite (proj2 (Z.gtb_lt _ _)) by lia. cbn [andb]. rewrite remainder_mod by lia. unfold hold.
  assert ((len (drop (floor y) y) + len x) mod Z.of_nat b = Z.of_nat (length (y ++ x) mod b)%nat) as ->.
  { unfold len. rewrite drop_floor_length, length_app, Nat2Z.inj_mod, Nat2Z.inj_mod, Nat2Z.inj_add. by rewrite Zplus_mod_idemp_l. }
  destruct (Nat.eq_dec (length (y ++ x) mod b) 0)%nat as [E | N].
  - rewrite E, bool_decide_eq_true_2 by done. change (Z.of_nat 0 =? 0) with true; cbv iota. unfold len. destruct (Z.ltb_spec (Z.of_nat (length x)) (Z.of_nat b)); lia.
  - rewrite bool_decide_eq_false_2 by done. rewrite (proj2 (Z.eqb_neq _ _)) by lia. done.
Qed.

(** The withheld bytes complete one block. *)
Lemma hold_block y x : x <> [] -> (length (y ++ x) mod b = 0)%nat ->
  let x1 := take (length x - hold y x) x in let x2 := drop (length x - hold y x) x in
  length (drop (floor (y ++ x1)) (y ++ x1) ++ x2) = b.
Proof.
  intros Hx Hm. cbv zeta. pose proof b_pos. unfold hold. rewrite bool_decide_eq_true_2 by done. rewrite length_app, drop_floor_length, length_drop, length_app, length_take.
  destruct x as [| a x0]; [done |]. rewrite length_app in Hm. set (l := length (a :: x0)) in *. assert (0 < l)%nat by (unfold l; cbn; lia). clearbody l. rename Hm into Hm'.
  destruct (Nat.le_gt_cases b l).
  - replace (Nat.min l b) with b by lia. replace (Nat.min (l - b) l) with (l - b)%nat by lia.
    assert ((length y + (l - b)) mod b = 0)%nat as -> by (rewrite <- Hm'; replace (length y + l)%nat with (length y + (l - b) + 1 * b)%nat by lia; by rewrite Nat.Div0.mod_add). lia.
  - replace (Nat.min l b) with l by lia. replace (Nat.min (l - l) l) with 0%nat by lia. rewrite Nat.add_0_r. replace (l - (l - l))%nat with l by lia.
    pose proof (Nat.div_mod_eq (length y) b) as Hd. pose proof (Nat.mod_upper_bound (length y) b ltac:(lia)).
    rewrite <- Nat.Div0.add_mod_idemp_l in Hm'. apply Nat.Lcm0.mod_divide in Hm' as [k Hk]. destruct k as [| [| k]]; nia.
Qed.

Definition padding_on (ctx : EVP_CIPHER_CTX) : Prop := has_flag (flags ctx) EVP_CIPH_NO_PADDING = false.

(** [EVP_DecryptUpdate] releases all but a last whole block. *)
Lemma decrypt_update_spec ctx s0 y o x :
  mode_state Inv abs s0 -> dec_at ctx s0 y o -> b <> 1%nat -> padding_on ctx -> int_ok x -> bytes_ok y -> bytes_ok x ->
  exists ctx' w, EVP_DecryptUpdate ctx x (len x) = mk_result true (Some (len w)) w ctx' /\ dec_at ctx' s0 (y ++ x) (o ++ w) /\ flags ctx' = flags ctx.
Proof.
  intros Hs Hdec Hb1 Hpad Hint Hy Hx. pose proof Hdec as [Hat Hfl Hu Ho]. pose proof b_le. pose proof b_pos. unfold EVP_DecryptUpdate.
  rewrite (at_clean _ _ _ Hat), (at_cipher _ _ _ Hat), int_guard, mode_plain by done. cbv zeta. destruct (Z.leb_spec (len x) 0) as [Hx0 | Hx0].
  { pose proof (len_nonneg x). assert (x = []) as -> by (apply len_nil_inv; lia). exists ctx, []. by rewrite !app_nil_r. }
  unfold padding_on in Hpad. rewrite Hpad. rewrite (hold_code ctx _ y x Hat Hb1). rewrite mode_size, Nat2Z.id.
  set (first := if final_used ctx then take b (final ctx) else []) in *. set (k := (length x - hold y x)%nat).
  pose proof (hold_le y x) as Hh.
  assert (length (take k x) = k) as Hk by (rewrite length_take; unfold k; lia). assert (len x - Z.of_nat (hold y x) = len (take k x)) as -> by (unfold len; rewrite Hk; unfold k; lia).
  assert (EVP_EncryptUpdate ctx x (len (take k x)) = EVP_EncryptUpdate ctx (take k x ++ drop k x) (len (take k x))) as -> by (by rewrite take_drop).
  destruct (next_update ctx s0 y (take k x) (drop k x) Hs Hat ltac:(apply (int_ok_le x); [rewrite length_take; lia | done]) Hy ltac:(by apply bytes_ok_take)) as (ctx1 & w1 & -> & Hat1 & Hk1 & Hw1 & _).
  cbn [ret ctx_of out_len out negb option_map]. apply (enc_at_used _ _ _ false) in Hat1. rewrite Ho in Hw1. destruct Hk1 as (Hkf & Hku & Hkfin & _).
  assert (len first = if final_used ctx then Z.of_nat b else 0) as Hfirst by (unfold first; destruct (final_used ctx); unfold len; rewrite ?length_take, ?Hfl; unfold EVP_MAX_BLOCK_LENGTH; cbn; lia).
  assert ((if final_used ctx then Some (len w1 + Z.of_nat b) else Some (len w1)) = Some (len (first ++ w1))) as Hol by (rewrite len_app, Hfirst; destruct (final_used ctx); f_equal; lia).
  destruct (Nat.eq_dec (hold y x) 0)%nat as [E0 | N0].
  - rewrite E0. cbn [Z.of_nat Z.eqb negb]. rewrite Hol. eexists _, _. split; [done |]. assert (take k x = x) as Ekx by (apply take_ge; unfold k; lia). rewrite Ekx in *.
    split; [| done]. split; [done | cbn; congruence | | cbn; by rewrite app_nil_r, app_assoc]. cbn. symmetry. apply bool_decide_eq_false_2. intros [_ Em].
    unfold hold in E0. rewrite bool_decide_eq_true_2 in E0 by done. unfold len in Hx0. lia.
  - rewrite (proj2 (Z.eqb_neq (Z.of_nat (hold y x)) 0)) by lia. cbn [negb].
    assert (length (y ++ x) mod b = 0)%nat as Hm by (unfold hold in N0; destruct (decide (length (y ++ x) mod b = 0)%nat); [done |]; by rewrite bool_decide_eq_false_2 in N0).
    assert (x <> []) as Hxn by (intros ->; done). pose proof (hold_block y x Hxn Hm) as Hblk. cbv zeta in Hblk. fold k in Hblk.
    assert (Z.to_nat (len (take k x)) = k) as -> by (unfold len; lia). assert (length (drop k x) = hold y x) as Hl2 by (rewrite length_drop; unfold k; lia).
    assert (Z.of_nat (hold y x) = len (drop k x)) as -> by (unfold len; lia).
    destruct (next_update _ s0 _ (drop k x) [] Hs Hat1 ltac:(apply (int_ok_le x); [lia | done]) ltac:(apply bytes_ok_app; auto with bytes_db) ltac:(by apply bytes_ok_drop))
      as (ctx2 & w2 & Hr2 & Hat2 & Hk2 & Hw2 & Hlw2).
    rewrite app_nil_r in Hr2. rewrite Hr2. cbn [ret ctx_of out_len out negb]. rewrite <- app_assoc, take_drop in Hat2, Hw2.
    assert (length w2 = b) as Hlb.
    { rewrite Hlw2. unfold floor at 1. rewrite Hblk, Nat.div_same; lia. }
    destruct Hk2 as (Hkf2 & _ & Hkfin2 & _). cbn [final flags set_final_used] in Hkf2, Hkfin2.
    assert (take b (store (final ctx2) 0 w2) = w2) as Htk by (unfold store; change (take 0 (final ctx2)) with (@nil Z); cbn [app]; by apply take_app_length').
    assert (buf_len ctx2 = 0) as Hbl by (rewrite (at_len _ _ _ Hat2); unfold len; rewrite drop_floor_length; lia).
    rewrite bool_decide_eq_true_2 by (unfold len; by rewrite Hlb). cbn [negb orb buf_len set_final]. rewrite Hbl. cbn [Z.eqb negb].
    rewrite Hol. eexists _, _. split; [done |]. split; [| cbn; congruence]. split.
    + by apply enc_at_final.
    + cbn. rewrite length_store; [congruence |]. rewrite Hkfin2, Hkfin, Hfl. unfold EVP_MAX_BLOCK_LENGTH. lia.
    + cbn. symmetry. apply bool_decide_eq_true_2. split; [| done]. by destruct y, x.
    + cbn. by rewrite Htk, Hw2, Hw1, <- !app_assoc.
Qed.

Lemma updates_decrypt xs ctx s0 y o :
  mode_state Inv abs s0 -> dec_at ctx s0 y o -> b <> 1%nat -> padding_on ctx -> bytes_ok y -> Forall int_ok xs -> Forall bytes_ok xs ->
  exists ctx' w, updates EVP_DecryptUpdate ctx xs = Some (w, ctx') /\ dec_at ctx' s0 (y ++ concat xs) (o ++ w) /\ flags ctx' = flags ctx.
Proof.
  intros Hs. revert ctx y o. induction xs as [| x xs IH]; intros ctx y o Hdec Hb1 Hpad Hy Hint Hok.
  { exists ctx, []. cbn [concat]. by rewrite !app_nil_r. }
  inversion Hint as [| ? ? Hi1 Hi2]; subst. inversion Hok as [| ? ? Ho1 Ho2]; subst.
  destruct (decrypt_update_spec ctx s0 y o x Hs Hdec Hb1 Hpad Hi1 Hy Ho1) as (ctx1 & w1 & Hr & Hdec1 & Hf1).
  destruct (IH ctx1 _ _ Hdec1 Hb1 ltac:(unfold padding_on; by rewrite Hf1) ltac:(by apply bytes_ok_app) Hi2 Ho2) as (ctx' & w & Hu & Hdec' & Hf').
  exists ctx', (w1 ++ w). cbn [updates concat]. rewrite Hr. cbv zeta. cbn [ret ctx_of]. rewrite Hu. unfold output. cbn [out_len out].
  rewrite take_ge by (unfold len; lia). rewrite !app_assoc in *. split_and!; congruence || done.
Qed.

(** Without padding to remove, decryption is the same sequence of steps as encryption. *)
Lemma decrypt_update_plain ctx s p x :
  enc_at ctx s p -> (has_flag (flags ctx) EVP_CIPH_NO_PADDING = true \/ b = 1%nat /\ final_used ctx = false) -> int_ok x -> bytes_ok p -> bytes_ok x ->
  EVP_DecryptUpdate ctx x (len x) = EVP_EncryptUpdate ctx x (len x).
Proof.
  intros Hat Hcase Hint Hp Hx. pose proof Hat as [Hc Hi Ha Hcl Hb Hl Hsh Hpd]. unfold EVP_DecryptUpdate. rewrite Hcl, Hc, int_guard, mode_plain by done. cbv zeta.
  destruct (Z.leb_spec (len x) 0) as [Hx0 | Hx0].
  { pose proof (len_nonneg x). assert (x = []) as -> by (apply len_nil_inv; lia). unfold EVP_EncryptUpdate. rewrite Hcl. cbv zeta. cbn [cipher set_poisoned].
    rewrite Hc, int_guard, mode_plain by (by apply (int_ok_le [])). destruct ctx. cbn in *. by rewrite Hcl. }
  destruct Hcase as [-> | [E1 Hu]]; [done |]. destruct (has_flag _ _); [done |]. rewrite Hu, mode_size, E1. cbn [Z.of_nat Pos.of_succ_nat Z.gtb Z.compare Pos.compare Pos.compare_cont andb].
  rewrite Z.sub_0_r. destruct (encrypt_update_spec ctx s p x [] Hat Hint Hp Hx) as (ctx' & Hr & _ & _ & Hk & _). rewrite app_nil_r in Hr. rewrite Hr. cbn [ret ctx_of out_len out negb app Z.eqb].
  f_equal. destruct ctx'. cbn in *. unfold set_final_used. cbn. congruence.
Qed.

Lemma updates_plain xs ctx s p :
  enc_at ctx s p -> (has_flag (flags ctx) EVP_CIPH_NO_PADDING = true \/ b = 1%nat /\ final_used ctx = false) -> bytes_ok p -> Forall int_ok xs -> Forall bytes_ok xs ->
  updates EVP_DecryptUpdate ctx xs = updates EVP_EncryptUpdate ctx xs.
Proof.
  revert ctx s p. induction xs as [| x xs IH]; intros ctx s p Hat Hcase Hp Hint Hok; [done |].
  inversion Hint as [| ? ? Hi1 Hi2]; subst. inversion Hok as [| ? ? Ho1 Ho2]; subst. cbn [updates]. rewrite (decrypt_update_plain ctx s p x) by done.
  destruct (encrypt_update_spec ctx s p x [] Hat Hi1 Hp Ho1) as (ctx1 & Hr & Hat1 & Hf & Hu & _). rewrite app_nil_r in Hr. rewrite Hr. cbn [ret ctx_of].
  rewrite (IH ctx1 _ _ Hat1); try done; [by rewrite Hf, Hu | apply bytes_ok_drop, bytes_ok_app; done].
Qed.

Lemma last_app (o f : bytes) : f <> [] -> last (o ++ f) 0 = last f 0.
Proof. intros Hf. destruct (exists_last Hf) as (f' & a & ->). by rewrite app_assoc, !last_last. Qed.

Lemma byte_at_last (f : bytes) : f <> [] -> byte_at f (length f - 1) = last f 0.
Proof.
  intros Hf. destruct (exists_last Hf) as (f' & a & ->). rewrite last_last, length_app. cbn [length]. replace (length f' + 1 - 1)%nat with (length f') by lia.
  unfold byte_at. by rewrite nth_middle.
Qed.

Lemma byte_at_nonneg f i : bytes_ok f -> 0 <= byte_at f i.
Proof.
  intros Hf. unfold byte_at. destruct (nth_in_or_default i f 0) as [Hin | ->]; [| lia]. unfold bytes_ok in Hf. rewrite List.Forall_forall in Hf. apply (Hf _ Hin).
Qed.

Lemma padding_ok_spec f n : (n <= length f)%nat -> padding_ok f (length f) n = bool_decide (drop (length f - n) f = replicate n (Z.of_nat n)).
Proof.
  intros Hn. assert (drop (length f - n) f = map (byte_at f) (seq (length f - n) n)) as Hd.
  { rewrite map_byte_at by lia. unfold ld. rewrite take_ge; [done |]. rewrite length_drop. lia. }
  apply Bool.eq_iff_eq_true. rewrite bool_decide_eq_true. unfold padding_ok. rewrite forallb_forall. split.
  - intros H. symmetry. apply replicate_as_Forall. split; [rewrite length_drop; lia |]. rewrite Hd. apply Forall_map, List.Forall_forall. intros j Hj. apply in_seq in Hj.
    specialize (H (length f - 1 - j)%nat ltac:(apply in_seq; lia)). replace (length f - 1 - (length f - 1 - j))%nat with j in H by lia. cbn. lia.
  - intros H i Hi. apply in_seq in Hi. symmetry in H. apply replicate_as_Forall in H as [_ H]. rewrite Hd, List.Forall_forall in H.
    specialize (H (byte_at f (length f - 1 - i)) ltac:(apply in_map, in_seq; lia)). cbn in H. lia.
Qed.

(** What a decryption of [y] gives. *)
Definition decrypted (nopad : bool) (s : S) (y : bytes) : option bytes :=
  if (length y mod b =? 0)%nat then unpad nopad (fst (crypt s y)) else None.

(** The test of the withheld block [f] is the test of the whole text, which ends with it. *)
Lemma unpad_final (o f : bytes) : length f = b -> b <> 1%nat -> (length o mod b = 0)%nat -> bytes_ok f ->
  let n := byte_at f (b - 1) in
  unpad false (o ++ f) =
  if (n =? 0) || (n >? Z.of_nat b) then None
  else if padding_ok f b (Z.to_nat n) then Some (o ++ take (Z.to_nat (Z.of_nat b - n)) f) else None.
Proof.
  intros Hf Hb1 Ho Hfo. cbv zeta. pose proof b_pos. assert (f <> []) as Hfn by (intros ->; cbn in Hf; lia). unfold unpad. rewrite length_app, Hf.
  replace (length o + b)%nat with (length o + 1 * b)%nat by lia. rewrite Nat.Div0.mod_add, Ho. cbn [Nat.eqb negb]. rewrite (proj2 (Nat.eqb_neq b 1)) by done. cbn [orb].
  rewrite last_app, <- byte_at_last, Hf by done. set (v := byte_at f (b - 1)). assert (0 <= v) as Hv by (by apply byte_at_nonneg).
  destruct (Z.eqb_spec v 0) as [E0 | N0]; [by rewrite (proj2 (Nat.eqb_eq _ _)) by lia |]. rewrite (proj2 (Nat.eqb_neq (Z.to_nat v) 0)) by lia. cbn [orb]. rewrite Z.gtb_ltb.
  destruct (Z.ltb_spec (Z.of_nat b) v) as [Hgt | Hle]; [by rewrite (proj2 (Nat.ltb_lt _ _)) by lia |]. rewrite (proj2 (Nat.ltb_ge b (Z.to_nat v))) by lia.
  pose proof (padding_ok_spec f (Z.to_nat v) ltac:(lia)) as Hpk. rewrite Hf in Hpk. rewrite Hpk.
  replace (length o + 1 * b - Z.to_nat v)%nat with (length o + (b - Z.to_nat v))%nat by lia. rewrite drop_app_add', take_app_add' by done.
  replace (Z.to_nat (Z.of_nat b - v)) with (b - Z.to_nat v)%nat by lia. done.
Qed.

Lemma decrypt_final_spec ctx s0 y o :
  mode_state Inv abs s0 -> dec_at ctx s0 y o -> b <> 1%nat -> padding_on ctx -> bytes_ok y ->
  let r := EVP_DecryptFinal_ex ctx in (if ret r then Some (o ++ output r) else None) = decrypted false s0 y.
Proof.
  intros Hs [Hat Hfl Hu Ho] Hb1 Hpad Hy. pose proof b_pos. pose proof b_le. unfold padding_on in Hpad. unfold EVP_DecryptFinal_ex. cbv zeta.
  rewrite (at_clean _ _ _ Hat), (at_cipher _ _ _ Hat), mode_plain, Hpad, mode_size, (at_len _ _ _ Hat). rewrite (proj2 (Z.gtb_lt (Z.of_nat b) 1)) by lia.
  unfold decrypted. pose proof (drop_floor_length y) as Hlen. assert (len (drop (floor y) y) = Z.of_nat (length y mod b)%nat) as -> by (unfold len; lia).
  destruct (Nat.eqb_spec (length y mod b) 0) as [E0 | N0]; [| by rewrite (proj2 (Z.eqb_neq _ _)) by lia]. rewrite E0. change (Z.of_nat 0 =? 0) with true. cbn [negb orb].
  assert (Nat.divide b (length y)) as Hdiv by (by apply Nat.Lcm0.mod_divide). rewrite blocks_exact in Ho by done.
  destruct y as [| a y0].
  { rewrite Hu, bool_decide_eq_false_2 by (by intros [? _]). rewrite crypt_nil by done. cbn [negb ret fst]. unfold unpad. cbn [length]. rewrite Nat.Div0.mod_0_l.
    cbn [Nat.eqb negb]. by rewrite (proj2 (Nat.eqb_neq b 1)) by done. }
  set (y := a :: y0) in *. rewrite Hu in *. rewrite bool_decide_eq_true_2 in * by done. cbn [negb]. set (f := take b (final ctx)) in *.
  assert (length f = b) as Hf by (unfold f; rewrite length_take, Hfl; unfold EVP_MAX_BLOCK_LENGTH; lia).
  pose proof (crypt_length s0 y Hs Hdiv) as Hcl. pose proof (crypt_ok s0 y Hs Hdiv Hy) as Hco. rewrite Ho in *. apply bytes_ok_app in Hco as [_ Hfo]. rewrite length_app, Hf in Hcl.
  assert (forall i, (i < b)%nat -> byte_at (final ctx) i = byte_at f i) as Hbf by (intros i Hi; unfold f; rewrite take_ld; symmetry; apply byte_at_ld; lia).
  rewrite (unpad_final o f Hf Hb1) by (try done; rewrite <- E0, <- Hcl; replace (length o + b)%nat with (length o + 1 * b)%nat by lia; by rewrite Nat.Div0.mod_add).
  replace (Z.to_nat (Z.of_nat b - 1)) with (b - 1)%nat by lia. rewrite Nat2Z.id, Hbf by lia. set (v := byte_at f (b - 1)). assert (0 <= v) as Hv by (by apply byte_at_nonneg).
  destruct ((v =? 0) || (v >? Z.of_nat b)) eqn:Ev; [done |]. apply orb_false_iff in Ev as [Ev1 Ev2]. rewrite Z.gtb_ltb in Ev2. apply Z.ltb_ge in Ev2.
  assert (padding_ok (final ctx) b (Z.to_nat v) = padding_ok f b (Z.to_nat v)) as ->.
  { unfold padding_ok. induction (seq 0 (Z.to_nat v)) as [| i l IH]; [done |]. cbn [forallb]. by rewrite IH, Hbf by lia. }
  destruct (padding_ok f b (Z.to_nat v)); [| done]. unfold output. cbn [ret negb out_len out]. do 2 f_equal. unfold f. rewrite !take_take. f_equal. lia.
Qed.

(** The state of a decryption that begins. *)
Lemma dec_at_start ctx s : enc_at ctx s [] -> length (final ctx) = EVP_MAX_BLOCK_LENGTH -> final_used ctx = false -> dec_at ctx s [] [].
Proof.
  intros Hat Hf Hu. assert (blocks s [] = ([], s)) as Hb.
  { unfold blocks. rewrite floor_small by apply b_pos. rewrite crypt_nil; [done | exists ctx; split; apply Hat]. }
  split; rewrite ?Hb, ?Hu; try done. rewrite floor_small by apply b_pos. done.
Qed.

Lemma decrypt_message_spec ctx s xs :
  enc_at ctx s [] -> length (final ctx) = EVP_MAX_BLOCK_LENGTH -> final_used ctx = false -> Forall int_ok xs -> Forall bytes_ok xs ->
  message EVP_DecryptUpdate EVP_DecryptFinal_ex ctx xs = decrypted (has_flag (flags ctx) EVP_CIPH_NO_PADDING) s (concat xs).
Proof.
  intros Hat Hf Hu Hint Hok. assert (mode_state Inv abs s) as Hs by (exists ctx; split; apply Hat). pose proof (concat_ok xs Hok) as Hco. pose proof b_pos. unfold message.
  destruct (decide (has_flag (flags ctx) EVP_CIPH_NO_PADDING = true \/ b = 1%nat)) as [Hplain | Hno].
  - rewrite (updates_plain xs ctx s []) by first [done | apply bytes_ok_nil | tauto].
    destruct (updates_encrypt xs ctx s [] Hat bytes_ok_nil Hint Hok) as (ctx' & -> & Hat' & Hfl & _). cbn [app] in *. unfold EVP_DecryptFinal_ex.
    rewrite (at_clean _ _ _ Hat'), (at_cipher _ _ _ Hat'), mode_plain, mode_size, (at_len _ _ _ Hat'), Hfl. cbv zeta. unfold decrypted, unpad.
    pose proof (drop_floor_length (concat xs)) as Hlen. assert (len (drop (floor (concat xs)) (concat xs)) = Z.of_nat (length (concat xs) mod b)%nat) as -> by (unfold len; lia).
    destruct (Nat.eqb_spec (length (concat xs) mod b) 0) as [E0 | N0].
    + assert (Nat.divide b (length (concat xs))) as Hd by (by apply Nat.Lcm0.mod_divide). rewrite blocks_exact, crypt_length, E0 by done. cbn [Nat.eqb negb].
      destruct (has_flag _ _); [cbn; by rewrite orb_true_r, app_nil_r |]. destruct Hplain as [? | ->]; [done |]. cbn. by rewrite app_nil_r.
    + rewrite (proj2 (Z.eqb_neq _ _)) by lia. destruct (has_flag _ _); [done |]. destruct Hplain as [? | E1]; [done |]. rewrite E1, Nat.mod_1_r in N0. done.
  - assert (padding_on ctx) as Hpad by (unfold padding_on; destruct (has_flag _ _); tauto). unfold padding_on in Hpad. rewrite Hpad.
    destruct (updates_decrypt xs ctx s [] [] Hs (dec_at_start ctx s Hat Hf Hu) ltac:(tauto) Hpad bytes_ok_nil Hint Hok) as (ctx' & w & -> & Hdec & Hfl). cbn [app] in *.
    apply decrypt_final_spec; try done; [tauto |]. unfold padding_on. by rewrite Hfl.
Qed.

Lemma pad_bytes nopad m m' : pad nopad m = Some m' -> bytes_ok m -> bytes_ok m'.
Proof.
  pose proof b_le. unfold pad. destruct (b =? 1)%nat; [by intros [= <-] |]. destruct nopad; [destruct (_ =? 0)%nat; by intros [= <-] |].
  intros [= <-] Hm. apply bytes_ok_app. split; [done |]. apply bytes_ok_replicate. unfold byte_ok. lia.
Qed.

(** Padding is undone. *)
Lemma unpad_pad nopad m m' : pad nopad m = Some m' -> unpad nopad m' = Some m /\ (length m' mod b = 0)%nat.
Proof.
  pose proof b_pos. pose proof b_le. unfold pad, unpad. destruct (Nat.eqb_spec b 1) as [E1 | N1].
  { intros [= <-]. rewrite E1, Nat.mod_1_r. done. }
  destruct nopad.
  { destruct (Nat.eqb_spec (length m mod b) 0) as [E0 | N0]; intros [= <-]. by rewrite E0. }
  intros [= <-]. set (n := (b - length m mod b)%nat). pose proof (Nat.mod_upper_bound (length m) b ltac:(lia)). assert (0 < n <= b)%nat as Hn by (unfold n; lia).
  assert (length (m ++ replicate n (Z.of_nat n)) mod b = 0)%nat as Hm.
  { rewrite length_app, length_replicate. pose proof (Nat.div_mod_eq (length m) b). replace (length m + n)%nat with ((length m / b + 1) * b)%nat by (unfold n; lia). apply Nat.Div0.mod_mul. }
  rewrite Hm. split; [| done]. cbn [Nat.eqb negb orb]. assert (last (m ++ replicate n (Z.of_nat n)) 0 = Z.of_nat n) as ->.
  { destruct n as [| n']; [lia |]. rewrite replicate_S_end, app_assoc. apply last_last. }
  rewrite Nat2Z.id, (proj2 (Nat.eqb_neq n 0)), (proj2 (Nat.ltb_ge b n)) by lia. cbn [orb]. rewrite length_app, length_replicate, Nat.add_sub.
  rewrite drop_app_length, take_app_length. by rewrite bool_decide_eq_true_2.
Qed.
End Mode.

(** * Failures *)

Section Failure.
Context (Hkeep : forall c ctx x n, poisoned (snd (method_cipher c ctx x n)) = poisoned ctx).







End Failure.

End Evp.


End Evp.
