(* ===== verification/EvpAes.v ===== *)
(** The AES ciphers of the EVP interface (crypto/fipsmodule/cipher/e_aes.c): ECB, CBC, CTR and
    OFB, over the implementations of AES that the library chooses from at run time.

    The implementations (assembly, and the bit-sliced fallback) are parameters; [AesOk] states
    what aes.h and aes/internal.h promise of them. *)

From S2P Require Import Prelude Internal Modes Evp.

Open Scope Z_scope.

Module EvpAes.
Import Internal Modes Evp.

(** The functions of one implementation; [K] is the type [AES_KEY]. *)
Record aes_impl (K : Type) := mk_impl {
  set_encrypt_key : bytes -> Z -> Z * K;
  set_decrypt_key : bytes -> Z -> Z * K;
  encrypt_block : bytes -> K -> bytes;
  decrypt_block : bytes -> K -> bytes;
  cbc_encrypt : bytes -> K -> bytes -> Z -> bytes * bytes;
  ctr32_encrypt_blocks : bytes -> Z -> K -> bytes -> bytes
}.
Arguments set_encrypt_key {K}.
Arguments set_decrypt_key {K}.
Arguments encrypt_block {K}.
Arguments decrypt_block {K}.
Arguments cbc_encrypt {K}.
Arguments ctr32_encrypt_blocks {K}.

(** The processor and the build: which implementations there are. *)
Record platform (K : Type) := mk_platform {
  hwaes_capable : bool;
  vpaes_capable : bool;
  bsaes_capable : bool;
  HWAES_ECB : bool;
  VPAES_CBC : bool;
  VPAES_CTR32 : bool;
  BSAES : bool;
  aes_hw : aes_impl K;
  vpaes : aes_impl K;
  aes_nohw : aes_impl K;
  aes_hw_ecb_encrypt : bytes -> K -> Z -> bytes;
  vpaes_encrypt_key_to_bsaes : K -> K;
  vpaes_decrypt_key_to_bsaes : K -> K;
  bsaes_cbc_encrypt : bytes -> K -> bytes -> Z -> bytes * bytes;
  bsaes_ctr32_encrypt_blocks : bytes -> Z -> K -> bytes -> bytes
}.
Arguments hwaes_capable {K}.
Arguments vpaes_capable {K}.
Arguments bsaes_capable {K}.
Arguments HWAES_ECB {K}.
Arguments VPAES_CBC {K}.
Arguments VPAES_CTR32 {K}.
Arguments BSAES {K}.
Arguments aes_hw {K}.
Arguments vpaes {K}.
Arguments aes_nohw {K}.
Arguments aes_hw_ecb_encrypt {K}.
Arguments vpaes_encrypt_key_to_bsaes {K}.
Arguments vpaes_decrypt_key_to_bsaes {K}.
Arguments bsaes_cbc_encrypt {K}.
Arguments bsaes_ctr32_encrypt_blocks {K}.

(** * The ciphers *)

Definition sizeof_EVP_AES_KEY : Z := 264.

Definition EVP_aes_128_cbc := mk_cipher 419 16 16 16 sizeof_EVP_AES_KEY EVP_CIPH_CBC_MODE false false.
Definition EVP_aes_128_ctr := mk_cipher 904 1 16 16 sizeof_EVP_AES_KEY EVP_CIPH_CTR_MODE false false.
Definition EVP_aes_128_ecb := mk_cipher 418 16 16 0 sizeof_EVP_AES_KEY EVP_CIPH_ECB_MODE false false.
Definition EVP_aes_128_ofb := mk_cipher 420 1 16 16 sizeof_EVP_AES_KEY EVP_CIPH_OFB_MODE false false.
Definition EVP_aes_192_cbc := mk_cipher 423 16 24 16 sizeof_EVP_AES_KEY EVP_CIPH_CBC_MODE false false.
Definition EVP_aes_192_ctr := mk_cipher 905 1 24 16 sizeof_EVP_AES_KEY EVP_CIPH_CTR_MODE false false.
Definition EVP_aes_192_ecb := mk_cipher 422 16 24 0 sizeof_EVP_AES_KEY EVP_CIPH_ECB_MODE false false.
Definition EVP_aes_192_ofb := mk_cipher 424 1 24 16 sizeof_EVP_AES_KEY EVP_CIPH_OFB_MODE false false.
Definition EVP_aes_256_cbc := mk_cipher 427 16 32 16 sizeof_EVP_AES_KEY EVP_CIPH_CBC_MODE false false.
Definition EVP_aes_256_ctr := mk_cipher 906 1 32 16 sizeof_EVP_AES_KEY EVP_CIPH_CTR_MODE false false.
Definition EVP_aes_256_ecb := mk_cipher 426 16 32 0 sizeof_EVP_AES_KEY EVP_CIPH_ECB_MODE false false.
Definition EVP_aes_256_ofb := mk_cipher 428 1 32 16 sizeof_EVP_AES_KEY EVP_CIPH_OFB_MODE false false.

Definition aes_ciphers : list EVP_CIPHER :=
  [EVP_aes_128_cbc; EVP_aes_128_ctr; EVP_aes_128_ecb; EVP_aes_128_ofb; EVP_aes_192_cbc; EVP_aes_192_ctr; EVP_aes_192_ecb; EVP_aes_192_ofb;
   EVP_aes_256_cbc; EVP_aes_256_ctr; EVP_aes_256_ecb; EVP_aes_256_ofb].

(** * More on the modes *)

Definition same_block (f g : bytes -> bytes) : Prop := forall x, length x = 16%nat -> f x = g x.

Lemma same_block_cipher f g : same_block f g -> BlockCipher g -> BlockCipher f.
Proof. intros H HB. split; intros x; intros; rewrite H by done; [by apply block_length | by apply block_ok]. Qed.

Lemma cbc_enc_same f g n iv x : same_block f g -> BlockCipher g -> length iv = 16%nat -> (16 * n <= length x)%nat -> cbc_enc f n iv x = cbc_enc g n iv x.
Proof.
  intros H HB. revert iv x. induction n as [| n IH]; intros iv x Hi Hx; [done |]. cbn [cbc_enc]. cbv zeta.
  assert (length (xor_bytes (take 16 x) iv) = 16%nat) as Hl by (rewrite length_xor; rewrite length_take; lia).
  rewrite H, IH by (done || (by apply block_length) || (rewrite length_drop; lia)). done.
Qed.

Lemma cbc_dec_same f g n iv x : same_block f g -> (16 * n <= length x)%nat -> cbc_dec f n iv x = cbc_dec g n iv x.
Proof.
  intros H. revert iv x. induction n as [| n IH]; intros iv x Hx; [done |]. cbn [cbc_dec]. rewrite H, IH by (rewrite ?length_take, ?length_drop; lia). done.
Qed.

Lemma cbc_dec_ok f n iv x : BlockCipher f -> bytes_ok iv -> length x = (16 * n)%nat -> bytes_ok x -> bytes_ok (cbc_dec f n iv x).
Proof.
  intros HB. revert iv x. induction n as [| n IH]; intros iv x Hi Hx Hxo; [apply bytes_ok_nil |]. cbn [cbc_dec]. apply bytes_ok_app. split.
  - apply xor_bytes_ok; [| done]. apply block_ok; [by apply bytes_ok_take | rewrite length_take; lia].
  - apply IH; [by apply bytes_ok_take | rewrite length_drop; lia | by apply bytes_ok_drop].
Qed.

(** A machine that keeps an invariant. *)
Section Machine.
Context {S : Type} (step : S -> Z -> Z * S) (I : S -> Prop).

Lemma run_inv s x : (forall s b, I s -> I (snd (step s b))) -> I s -> I (snd (run step s x)).
Proof.
  intros H. revert s. induction x as [| b x IH]; intros s Hs; [done |]. cbn [run]. pose proof (H s b Hs) as H1. destruct (step s b) as [o s1]. specialize (IH s1 H1).
  by destruct (run step s1 x).
Qed.

Lemma run_bytes s x : (forall s b, I s -> byte_ok b -> byte_ok (fst (step s b)) /\ I (snd (step s b))) -> I s -> bytes_ok x -> bytes_ok (fst (run step s x)).
Proof.
  intros H. revert s. induction x as [| b x IH]; intros s Hs Hx; [apply bytes_ok_nil |]. apply bytes_ok_cons in Hx as [Hb Hx]. cbn [run]. destruct (H s b Hs Hb) as [H1 H2].
  destruct (step s b) as [o s1]. specialize (IH s1 H2 Hx). destruct (run step s1 x). cbn [fst] in *. by apply bytes_ok_cons.
Qed.

Lemma run_same (step' : S -> Z -> Z * S) s x : (forall s b, I s -> step s b = step' s b /\ I (snd (step s b))) -> I s -> run step s x = run step' s x.
Proof.
  intros H. revert s. induction x as [| b x IH]; intros s Hs; [done |]. cbn [run]. destruct (H s b Hs) as [<- H2]. destruct (step s b) as [o s1]. by rewrite IH.
Qed.
End Machine.

(** The states of CTR and OFB. *)
Definition ctr_full (a : bytes * bytes * nat) : Prop :=
  let '(iv, e, n) := a in is_block iv /\ (n < 16)%nat /\ length e = 16%nat /\ (n <> 0%nat -> bytes_ok e).
Definition ofb_full (a : bytes * nat) : Prop := let '(iv, n) := a in is_block iv /\ (n < 16)%nat.

Lemma ctr_step_full f a b : BlockCipher f -> ctr_full a -> ctr_full (snd (ks_step (ctr_refill f) snd a b)) /\ (byte_ok b -> byte_ok (fst (ks_step (ctr_refill f) snd a b))).
Proof.
  intros HB. destruct a as [[iv e] n]. intros (Hi & Hn & Hl & Ho). unfold ks_step. destruct (ctr_refill_inv f (iv, e) Hi) as (H1 & H2 & H3).
  pose proof (Nat.mod_upper_bound (n + 1) 16 ltac:(lia)). assert (forall v, byte_ok v -> byte_ok b -> byte_ok (Z.lxor b v)) as Hx by (intros v Hv Hb; by apply (fits_lxor 8)).
  destruct (Nat.eqb_spec n 0) as [-> | Hn0]; cbn [fst snd] in *.
  - split; [| intros Hb; apply Hx; [by apply byte_at_ok | done]]. by split_and!.
  - split; [| intros Hb; apply Hx; [apply byte_at_ok; auto | done]]. split_and!; auto.
Qed.

Lemma ofb_step_full f a b : BlockCipher f -> ofb_full a -> ofb_full (snd (ks_step f id a b)) /\ (byte_ok b -> byte_ok (fst (ks_step f id a b))).
Proof.
  intros HB. destruct a as [iv n]. intros (Hi & Hn). unfold ks_step. pose proof (block_is_block f iv Hi) as H1. pose proof (Nat.mod_upper_bound (n + 1) 16 ltac:(lia)).
  assert (is_block (if (n =? 0)%nat then f iv else iv)) as H2 by (by destruct (n =? 0)%nat). cbn [fst snd]. split; [done |]. intros Hb.
  apply (fits_lxor 8); [lia | done |]. apply byte_at_ok. apply H2.
Qed.

Lemma ctr_stream_same f g s x : same_block f g -> BlockCipher g -> ctr_full (ctr_ivec s, ecount_buf s, ctr_num s) -> ctr_stream f s x = ctr_stream g s x.
Proof.
  intros H HB Hs. unfold ctr_stream. rewrite (run_same _ ctr_full (ks_step (ctr_refill g) snd)); [done | | done]. pose proof (same_block_cipher f g H HB).
  intros [[iv e] n] b Ha. split; [| by apply ctr_step_full]. unfold ks_step, ctr_refill. cbn [fst snd]. rewrite H by apply Ha. done.
Qed.

Lemma ofb_stream_same f g s x : same_block f g -> BlockCipher g -> ofb_full (ofb_ivec s, ofb_num s) -> ofb_stream f s x = ofb_stream g s x.
Proof.
  intros H HB Hs. unfold ofb_stream. rewrite (run_same _ ofb_full (ks_step g id)); [done | | done]. pose proof (same_block_cipher f g H HB).
  intros [iv n] b Ha. split; [| by apply ofb_step_full]. unfold ks_step. rewrite H by apply Ha. done.
Qed.

Lemma ctr_stream_full f s x : BlockCipher f -> ctr_full (ctr_ivec s, ecount_buf s, ctr_num s) ->
  let s' := snd (ctr_stream f s x) in ctr_full (ctr_ivec s', ecount_buf s', ctr_num s') /\ (bytes_ok x -> bytes_ok (fst (ctr_stream f s x))) /\ length (fst (ctr_stream f s x)) = length x.
Proof.
  intros HB Hs. pose proof (run_inv (ks_step (ctr_refill f) snd) ctr_full _ x (fun a b Ha => proj1 (ctr_step_full f a b HB Ha)) Hs) as H1.
  pose proof (run_bytes (ks_step (ctr_refill f) snd) ctr_full _ x (fun a b Ha Hb => conj (proj2 (ctr_step_full f a b HB Ha) Hb) (proj1 (ctr_step_full f a b HB Ha))) Hs) as H2.
  pose proof (run_length (ks_step (ctr_refill f) snd) (ctr_ivec s, ecount_buf s, ctr_num s) x) as H3.
  unfold ctr_stream. by destruct (run _ _ x) as [o [[iv e] n]].
Qed.

Lemma ofb_stream_full f s x : BlockCipher f -> ofb_full (ofb_ivec s, ofb_num s) ->
  let s' := snd (ofb_stream f s x) in ofb_full (ofb_ivec s', ofb_num s') /\ (bytes_ok x -> bytes_ok (fst (ofb_stream f s x))) /\ length (fst (ofb_stream f s x)) = length x.
Proof.
  intros HB Hs. pose proof (run_inv (ks_step f id) ofb_full _ x (fun a b Ha => proj1 (ofb_step_full f a b HB Ha)) Hs) as H1.
  pose proof (run_bytes (ks_step f id) ofb_full _ x (fun a b Ha Hb => conj (proj2 (ofb_step_full f a b HB Ha) Hb) (proj1 (ofb_step_full f a b HB Ha))) Hs) as H2.
  pose proof (run_length (ks_step f id) (ofb_ivec s, ofb_num s) x) as H3.
  unfold ofb_stream. by destruct (run _ _ x) as [o [iv n]].
Qed.

(** CTR without used-up key stream. *)
Definition norm (s : ctr_state) : ctr_state := if (ctr_num s =? 0)%nat then mk_ctr (ctr_ivec s) [] 0 else s.

Lemma norm_equiv s : ctr_equiv s (norm s).
Proof. unfold norm. destruct (Nat.eqb_spec (ctr_num s) 0) as [H | H]; [| by split_and!]. by split_and!. Qed.

Lemma norm_eq s s' : ctr_equiv s s' -> norm s = norm s'.
Proof.
  destruct s as [iv e n], s' as [iv' e' n']. intros (H1 & H2 & H3). unfold norm. cbn in *. subst. destruct (Nat.eqb_spec n' 0); [done |]. by rewrite H3.
Qed.

Lemma ctr32_ecount func s x : ctr_num (snd (CRYPTO_ctr128_encrypt_ctr32 func s x)) = 0%nat -> ecount_buf (snd (CRYPTO_ctr128_encrypt_ctr32 func s x)) = ecount_buf s.
Proof.
  unfold CRYPTO_ctr128_encrypt_ctr32. destruct (xor_partial _ _ x) as [[o1 r1] n1]. destruct (ctr32_blocks _ _ _ _ _) as [[[o2 r2] iv2] c2].
  destruct (Nat.eqb_spec (length r2) 0); cbn; [done | lia].
Qed.

(** ECB: each block by itself. *)
Definition ecb_spec (f : bytes -> bytes) (x : bytes) : bytes := concat (map (fun k => f (ld x (16 * k) 16)) (seq 0 (length x / 16))).

Lemma ecb_cons f b x : length b = 16%nat -> ecb_spec f (b ++ x) = f b ++ ecb_spec f x.
Proof.
  intros Hb. unfold ecb_spec. rewrite length_app, Hb. replace (16 + length x)%nat with (length x + 1 * 16)%nat by lia. rewrite Nat.div_add, Nat.add_comm by lia.
  cbn [Nat.add seq map concat]. unfold ld at 1. change (16 * 0)%nat with 0%nat. rewrite drop_0, take_app_length' by done. f_equal. f_equal.
  rewrite <- seq_shift, map_map. apply map_ext. intros k. f_equal. unfold ld. rewrite drop_app_ge by lia. do 2 f_equal. lia.
Qed.

(** Induction over blocks. *)
Lemma blocks_ind (Q : bytes -> Prop) : Q [] -> (forall b x, length b = 16%nat -> Nat.divide 16 (length x) -> Q x -> Q (b ++ x)) -> forall x, Nat.divide 16 (length x) -> Q x.
Proof.
  intros H0 HS x [n Hn]. revert x Hn. induction n as [| n IH]; intros x Hn; [by destruct x |]. rewrite <- (take_drop 16 x).
  assert (length (drop 16 x) = n * 16)%nat as Hd by (rewrite length_drop; lia). apply HS; [rewrite length_take; lia | by exists n | by apply IH].
Qed.

Lemma ecb_app f x y : Nat.divide 16 (length x) -> ecb_spec f (x ++ y) = ecb_spec f x ++ ecb_spec f y.
Proof. revert x. apply blocks_ind; [done |]. intros b x Hb _ IH. rewrite <- app_assoc, (ecb_cons f b (x ++ y)), (ecb_cons f b x) by done. by rewrite IH, app_assoc. Qed.

Lemma ecb_length f x : BlockCipher f -> Nat.divide 16 (length x) -> length (ecb_spec f x) = length x.
Proof. intros HB. revert x. apply blocks_ind; [done |]. intros b x Hb _ IH. rewrite ecb_cons, !length_app, IH, block_length by done. lia. Qed.

Lemma ecb_ok f x : BlockCipher f -> Nat.divide 16 (length x) -> bytes_ok x -> bytes_ok (ecb_spec f x).
Proof.
  intros HB. revert x. apply (blocks_ind (fun x => bytes_ok x -> bytes_ok (ecb_spec f x))); [done |]. intros b x Hb _ IH [Ho1 Ho2]%bytes_ok_app.
  rewrite ecb_cons by done. apply bytes_ok_app. split; [by apply block_ok | auto].
Qed.

Lemma ecb_same f g x : same_block f g -> Nat.divide 16 (length x) -> ecb_spec f x = ecb_spec g x.
Proof. intros H. revert x. apply blocks_ind; [done |]. intros b x Hb _ IH. by rewrite !ecb_cons, IH, H. Qed.

Lemma ecb_inverse enc dec x : InverseCipher enc dec -> Nat.divide 16 (length x) -> bytes_ok x -> ecb_spec dec (ecb_spec enc x) = x.
Proof.
  intros HI. revert x. apply (blocks_ind (fun x => bytes_ok x -> ecb_spec dec (ecb_spec enc x) = x)); [done |]. intros b x Hb _ IH [Ho1 Ho2]%bytes_ok_app.
  rewrite !ecb_cons by (done || by apply block_length). by rewrite (inverse_block (enc := enc) (dec := dec)), IH.
Qed.

Section Aes.
Context {K : Type} (P : platform K).

(** The union [stream]: a null pointer, or one of the two kinds of function. *)
Inductive stream_f :=
| NoStream
| StreamCbc (f : bytes -> K -> bytes -> Z -> bytes * bytes)
| StreamCtr (f : bytes -> Z -> K -> bytes -> bytes).

Record EVP_AES_KEY := mk_dat { ks : K; block : option (bytes -> K -> bytes); stream : stream_f }.

Local Abbreviation CTX := (@EVP_CIPHER_CTX EVP_AES_KEY).

(** CTR on ARM without AES instructions: batches of eight blocks, then the rest. *)
Definition vpaes_ctr32_encrypt_blocks_with_bsaes (inp : bytes) (blocks : Z) (key : K) (ivec : bytes) : bytes :=
  if blocks <? 8 then ctr32_encrypt_blocks (vpaes P) inp blocks key ivec
  else
    let bsaes_blocks := if blocks mod 8 <? 6 then blocks - blocks mod 8 else blocks in
    let bsaes := vpaes_encrypt_key_to_bsaes P key in
    let out := bsaes_ctr32_encrypt_blocks P inp bsaes_blocks bsaes ivec in
    let inp := drop (Z.to_nat (16 * bsaes_blocks)) inp in
    let blocks := blocks - bsaes_blocks in
    let ctr := u32 (CRYPTO_load_u32_be (ld ivec 12 4) + bsaes_blocks) in
    let new_ivec := take 12 ivec ++ CRYPTO_store_u32_be ctr in
    out ++ ctr32_encrypt_blocks (vpaes P) inp blocks key new_ivec.

(** The choice of the implementation: the return value of the key setup and the data. *)
Definition aes_init_dat (mode : Z) (key : bytes) (bits enc : Z) : Z * EVP_AES_KEY :=
  let is_cbc := mode =? EVP_CIPH_CBC_MODE in
  let cbc f := if is_cbc then StreamCbc f else NoStream in
  if ((mode =? EVP_CIPH_ECB_MODE) || is_cbc) && (enc =? 0) then
    if hwaes_capable P then
      let '(ret, k) := set_decrypt_key (aes_hw P) key bits in
      (ret, mk_dat k (Some (decrypt_block (aes_hw P))) (cbc (cbc_encrypt (aes_hw P))))
    else if bsaes_capable P && is_cbc then
      let '(ret, k) := set_decrypt_key (vpaes P) key bits in
      let k := if ret =? 0 then vpaes_decrypt_key_to_bsaes P k else k in
      (ret, mk_dat k None (StreamCbc (bsaes_cbc_encrypt P)))
    else if vpaes_capable P then
      let '(ret, k) := set_decrypt_key (vpaes P) key bits in
      (ret, mk_dat k (Some (decrypt_block (vpaes P))) (if VPAES_CBC P then cbc (cbc_encrypt (vpaes P)) else NoStream))
    else
      let '(ret, k) := set_decrypt_key (aes_nohw P) key bits in
      (ret, mk_dat k (Some (decrypt_block (aes_nohw P))) (cbc (cbc_encrypt (aes_nohw P))))
  else if hwaes_capable P then
    let '(ret, k) := set_encrypt_key (aes_hw P) key bits in
    (ret, mk_dat k (Some (encrypt_block (aes_hw P)))
      (if is_cbc then StreamCbc (cbc_encrypt (aes_hw P))
       else if mode =? EVP_CIPH_CTR_MODE then StreamCtr (ctr32_encrypt_blocks (aes_hw P)) else NoStream))
  else if vpaes_capable P then
    let '(ret, k) := set_encrypt_key (vpaes P) key bits in
    let s := if VPAES_CBC P then cbc (cbc_encrypt (vpaes P)) else NoStream in
    (ret, mk_dat k (Some (encrypt_block (vpaes P)))
      (if mode =? EVP_CIPH_CTR_MODE then
         if BSAES P then StreamCtr vpaes_ctr32_encrypt_blocks_with_bsaes
         else if VPAES_CTR32 P then StreamCtr (ctr32_encrypt_blocks (vpaes P)) else s
       else s))
  else
    let '(ret, k) := set_encrypt_key (aes_nohw P) key bits in
    (ret, mk_dat k (Some (encrypt_block (aes_nohw P))) (cbc (cbc_encrypt (aes_nohw P)))).

Definition aes_init_key (c : EVP_CIPHER) (ctx : CTX) (key piv : option bytes) (enc : Z) : bool * CTX :=
  let '(ret, dat) := aes_init_dat (EVP_CIPHER_mode c) (default [] key) (key_len ctx * 8) enc in
  let ctx := set_cipher_data (Some dat) ctx in
  if ret <? 0 then (false, ctx) else (true, ctx).

(** The input and an output buffer after it. *)
Definition in_out (x : bytes) : bytes := x ++ replicate (length x) 0.

Definition call_block (dat : EVP_AES_KEY) (x : bytes) : bytes := match block dat with Some f => f x (ks dat) | None => x end.

Definition aes_cbc_cipher (ctx : CTX) (dat : EVP_AES_KEY) (x : bytes) : Z * bytes * CTX :=
  let n := length x in
  match stream dat with
  | StreamCbc f => let '(o, iv') := f x (ks dat) (iv ctx) (encrypt ctx) in (1, o, set_iv iv' ctx)
  | _ =>
      if negb (encrypt ctx =? 0) then
        let '(m, iv') := CRYPTO_cbc128_encrypt (call_block dat) (in_out x) 0 n n (iv ctx) in (1, ld m n n, set_iv iv' ctx)
      else
        match CRYPTO_cbc128_decrypt (call_block dat) (in_out x) 0 n n (iv ctx) with
        | Some (m, iv') => (1, ld m n n, set_iv iv' ctx)
        | None => (0, [], ctx)
        end
  end.

Definition aes_ecb_cipher (c : EVP_CIPHER) (ctx : CTX) (dat : EVP_AES_KEY) (x : bytes) : Z * bytes * CTX :=
  let bl := Z.to_nat (block_size c) in
  if (length x <? bl)%nat then (1, [], ctx)
  else (1, concat (map (fun k => call_block dat (ld x (bl * k) 16)) (seq 0 ((length x - bl) / bl + 1))), ctx).

Definition aes_hw_ecb_cipher (c : EVP_CIPHER) (ctx : CTX) (dat : EVP_AES_KEY) (x : bytes) : Z * bytes * CTX :=
  if len x <? block_size c then (1, [], ctx) else (1, aes_hw_ecb_encrypt P x (ks dat) (encrypt ctx), ctx).

Definition aes_ctr_cipher (ctx : CTX) (dat : EVP_AES_KEY) (x : bytes) : Z * bytes * CTX :=
  let s := mk_ctr (iv ctx) (take 16 (buf ctx)) (Z.to_nat (num ctx)) in
  let '(o, s) :=
    match stream dat with
    | StreamCtr f => CRYPTO_ctr128_encrypt_ctr32 (fun inp n ivec => f inp n (ks dat) ivec) s x
    | _ => CRYPTO_ctr128_encrypt (call_block dat) s x
    end in
  (1, o, set_num (Z.of_nat (ctr_num s)) (set_buf (store (buf ctx) 0 (ecount_buf s)) (set_iv (ctr_ivec s) ctx))).

Definition aes_ofb_cipher (ctx : CTX) (dat : EVP_AES_KEY) (x : bytes) : Z * bytes * CTX :=
  let '(o, s) := CRYPTO_ofb128_encrypt (call_block dat) (mk_ofb (iv ctx) (Z.to_nat (num ctx))) x in
  (1, o, set_num (Z.of_nat (ofb_num s)) (set_iv (ofb_ivec s) ctx)).

(** The field [cipher] of each cipher above, which its mode determines. *)
Definition aes_method (c : EVP_CIPHER) (ctx : CTX) (inp : bytes) (n : Z) : Z * bytes * CTX :=
  match cipher_data ctx with
  | None => (0, [], ctx)
  | Some dat =>
      let x := take (Z.to_nat n) inp in
      let mode := EVP_CIPHER_mode c in
      if mode =? EVP_CIPH_CBC_MODE then aes_cbc_cipher ctx dat x
      else if mode =? EVP_CIPH_CTR_MODE then aes_ctr_cipher ctx dat x
      else if mode =? EVP_CIPH_OFB_MODE then aes_ofb_cipher ctx dat x
      else if HWAES_ECB P && hwaes_capable P then aes_hw_ecb_cipher c ctx dat x
      else aes_ecb_cipher c ctx dat x
  end.

Definition no_ctrl (c : EVP_CIPHER) (ctx : CTX) (command arg : Z) : Z * Z * CTX := (0, 0, ctx).

(** * What the implementations promise *)

Definition valid_key (key : bytes) : Prop := (length key = 16 \/ length key = 24 \/ length key = 32)%nat /\ bytes_ok key.
Definition whole (x : bytes) : Prop := bytes_ok x /\ Nat.divide 16 (length x).
Definition is_enc (enc : Z) : bool := negb (enc =? 0).

(** AES as block functions of the key. *)
Context (E D : bytes -> bytes -> bytes).

Definition cbc_spec (key : bytes) (enc : Z) (iv x : bytes) : bytes * bytes :=
  let n := (length x / 16)%nat in
  if is_enc enc then let c := cbc_enc (E key) n iv x in (c, next_iv iv c) else (cbc_dec (D key) n iv x, next_iv iv x).

Definition cbc_agrees (g : bytes -> K -> bytes -> Z -> bytes * bytes) (key : bytes) (k : K) (enc : Z) : Prop :=
  forall x iv, is_block iv -> whole x -> g x k iv enc = cbc_spec key enc iv x.
Definition block_agrees (g : bytes -> K -> bytes) (k : K) (f : bytes -> bytes) : Prop := forall x, length x = 16%nat -> g x k = f x.

(** An implementation: its key setup succeeds, and its functions are AES with that key. *)
Definition impl_ok (i : aes_impl K) : Prop := forall key, valid_key key ->
  (exists k, set_encrypt_key i key (len key * 8) = (0, k) /\ block_agrees (encrypt_block i) k (E key) /\ cbc_agrees (cbc_encrypt i) key k 1 /\
     Ctr32 (E key) (fun inp n ivec => ctr32_encrypt_blocks i inp n k ivec)) /\
  (exists k, set_decrypt_key i key (len key * 8) = (0, k) /\ block_agrees (decrypt_block i) k (D key) /\ cbc_agrees (cbc_encrypt i) key k 0).

Class AesOk : Prop := {
  aes_inverse key : valid_key key -> InverseCipher (E key) (D key);
  nohw_ok : impl_ok (aes_nohw P);
  hw_ok : hwaes_capable P = true -> impl_ok (aes_hw P);
  vpaes_ok : vpaes_capable P = true -> impl_ok (vpaes P);
  bsaes_vpaes : bsaes_capable P = true -> vpaes_capable P = true;
  bsaes_enc key k : BSAES P = true -> valid_key key -> set_encrypt_key (vpaes P) key (len key * 8) = (0, k) ->
    Ctr32 (E key) (fun inp n ivec => bsaes_ctr32_encrypt_blocks P inp n (vpaes_encrypt_key_to_bsaes P k) ivec);
  bsaes_dec key k : bsaes_capable P = true -> valid_key key -> set_decrypt_key (vpaes P) key (len key * 8) = (0, k) ->
    cbc_agrees (bsaes_cbc_encrypt P) key (vpaes_decrypt_key_to_bsaes P k) 0;
  hw_ecb_enc key k x : HWAES_ECB P = true -> valid_key key -> whole x -> set_encrypt_key (aes_hw P) key (len key * 8) = (0, k) ->
    aes_hw_ecb_encrypt P x k 1 = ecb_spec (E key) x;
  hw_ecb_dec key k x : HWAES_ECB P = true -> valid_key key -> whole x -> set_decrypt_key (aes_hw P) key (len key * 8) = (0, k) ->
    aes_hw_ecb_encrypt P x k 0 = ecb_spec (D key) x
}.

(** ** CTR in two parts *)

Lemma ks32_app (f : bytes -> bytes) iv v a b :
  concat (map (fun i => f (iv ++ be_bytes 4 (v + Z.of_nat i))) (seq 0 (a + b))) =
  concat (map (fun i => f (iv ++ be_bytes 4 (v + Z.of_nat i))) (seq 0 a)) ++ concat (map (fun i => f (iv ++ be_bytes 4 (v + Z.of_nat a + Z.of_nat i))) (seq 0 b)).
Proof.
  induction b as [| b IH]; [by rewrite Nat.add_0_r, app_nil_r |]. rewrite <- plus_n_Sm, !seq_S, !map_app, !concat_app, IH, <- app_assoc. cbn [map concat Nat.add].
  do 4 f_equal. do 2 f_equal. lia.
Qed.

Lemma ks32_length (f : bytes -> bytes) iv v n : BlockCipher f -> length iv = 12%nat -> length (concat (map (fun i => f (iv ++ be_bytes 4 (v + Z.of_nat i))) (seq 0 n))) = (16 * n)%nat.
Proof.
  intros HB Hi. induction n as [| n IH]; [done |]. rewrite seq_S, map_app, concat_app, length_app, IH. cbn [map concat]. rewrite app_nil_r, block_length; [lia |].
  rewrite length_app, length_be_bytes. lia.
Qed.

Lemma bsaes_ctr32 f k :
  Ctr32 f (fun inp n ivec => ctr32_encrypt_blocks (vpaes P) inp n k ivec) ->
  Ctr32 f (fun inp n ivec => bsaes_ctr32_encrypt_blocks P inp n (vpaes_encrypt_key_to_bsaes P k) ivec) -> BlockCipher f ->
  Ctr32 f (fun inp n ivec => vpaes_ctr32_encrypt_blocks_with_bsaes inp n k ivec).
Proof.
  intros Hv Hb HB inp n ivec Hl Hi. unfold vpaes_ctr32_encrypt_blocks_with_bsaes. destruct (Z.ltb_spec (Z.of_nat n) 8) as [H8 | H8]; [by apply Hv |].
  assert (exists a, (if Z.of_nat n mod 8 <? 6 then Z.of_nat n - Z.of_nat n mod 8 else Z.of_nat n) = Z.of_nat a /\ (a <= n)%nat) as (a & -> & Ha).
  { destruct (Z.of_nat n mod 8 <? 6); [exists (n - n mod 8)%nat | by exists n]. pose proof (Nat.Div0.mod_le n 8). pose proof (Nat2Z.inj_mod n 8) as Hm. change (Z.of_nat 8) with 8 in Hm. lia. }
  replace (Z.to_nat (16 * Z.of_nat a)) with (16 * a)%nat by lia. replace (Z.of_nat n - Z.of_nat a) with (Z.of_nat (n - a)) by lia.
  rewrite Hb by (lia || done). destruct Hi as [Hil Hio]. assert (length (drop 12 ivec) = 4%nat) as Hd by (rewrite length_drop; lia).
  assert (ld ivec 12 4 = drop 12 ivec) as -> by (unfold ld; apply take_ge; lia). rewrite load_u32_be by first [exact Hd | apply bytes_ok_drop; exact Hio].
  set (v := be_value (drop 12 ivec)). rewrite store_u32_be by (apply wrap_fits; lia). set (iv' := take 12 ivec ++ _).
  assert (length (take 12 ivec) = 12%nat) as Ht by (rewrite length_take; lia).
  rewrite Hv by (rewrite ?length_drop; first [lia | split; [unfold iv'; rewrite length_app, length_be_bytes; lia | apply bytes_ok_app; split; [by apply bytes_ok_take | apply be_bytes_ok]]]).
  unfold iv'. rewrite take_app_length', drop_app_length' by lia. rewrite be_value_bytes.
  assert (forall i, be_bytes 4 (wrap 32 (v + Z.of_nat a) mod 256 ^ Z.of_nat 4 + i) = be_bytes 4 (v + Z.of_nat a + i)) as Hbe.
  { intros i. apply counter_congr. unfold wrap. change (256 ^ Z.of_nat 4) with (2 ^ 32). rewrite Z.mod_mod, Z.add_mod_idemp_l by lia. done. }
  assert (n = a + (n - a))%nat as En by lia. set (b := (n - a)%nat) in *. clearbody b. subst n. rewrite ks32_app, <- xor_app.
  - rewrite take_take_drop. f_equal; [f_equal; lia |]. f_equal. f_equal. apply map_ext. intros i. by rewrite Hbe.
  - rewrite length_take, ks32_length by done. lia.
Qed.

(** ** The chosen implementation *)

Definition mode_block (mode enc : Z) (key : bytes) : bytes -> bytes :=
  if ((mode =? EVP_CIPH_ECB_MODE) || (mode =? EVP_CIPH_CBC_MODE)) && (enc =? 0) then D key else E key.

(** The data of a context are AES with the key, for the mode and the direction. *)
Definition dat_ok (mode enc : Z) (key : bytes) (dat : EVP_AES_KEY) : Prop :=
  let f := mode_block mode enc key in
  match stream dat with
  | NoStream => exists g, block dat = Some g /\ block_agrees g (ks dat) f
  | StreamCbc g => mode = EVP_CIPH_CBC_MODE /\ cbc_agrees g key (ks dat) enc
  | StreamCtr g => mode = EVP_CIPH_CTR_MODE /\ Ctr32 f (fun inp n ivec => g inp n (ks dat) ivec)
  end /\
  (HWAES_ECB P && hwaes_capable P = true -> mode = EVP_CIPH_ECB_MODE -> forall x, whole x -> aes_hw_ecb_encrypt P x (ks dat) enc = ecb_spec f x).

Definition aes_mode (mode : Z) : Prop := mode = EVP_CIPH_ECB_MODE \/ mode = EVP_CIPH_CBC_MODE \/ mode = EVP_CIPH_CTR_MODE \/ mode = EVP_CIPH_OFB_MODE.

Context {HA : AesOk}.

Lemma init_dat_dec mode key : valid_key key -> mode = EVP_CIPH_ECB_MODE \/ mode = EVP_CIPH_CBC_MODE ->
  exists dat, aes_init_dat mode key (len key * 8) 0 = (0, dat) /\ dat_ok mode 0 key dat.
Proof.
  intros Hk Hm. unfold aes_init_dat, dat_ok, mode_block. destruct (hwaes_capable P) eqn:Ehw.
  { destruct (hw_ok Ehw key Hk) as [_ (k & Hs & Hb & Hc)]. rewrite Hs. destruct Hm as [-> | ->]; cbn; (eexists; split; [done |]); cbn; split; eauto; intros Hh; try done.
    intros _ x Hx. apply hw_ecb_dec; try done. by apply andb_true_iff in Hh as [Hh _]. }
  destruct (bsaes_capable P) eqn:Ebs.
  - destruct (vpaes_ok (bsaes_vpaes Ebs) key Hk) as [_ (k & Hs & Hb & Hc)]. rewrite (bsaes_vpaes Ebs), Hs. rewrite andb_false_r.
    destruct Hm as [-> | ->]; cbn; (eexists; split; [done |]); cbn; split; try done; [destruct (VPAES_CBC P); cbn; eauto |]. split; [done |]. by apply bsaes_dec.
  - rewrite andb_false_r. destruct (vpaes_capable P) eqn:Ev.
    + destruct (vpaes_ok Ev key Hk) as [_ (k & Hs & Hb & Hc)]. rewrite Hs. destruct Hm as [-> | ->]; cbn; (eexists; split; [done |]); cbn; split; try done; destruct (VPAES_CBC P); cbn; eauto.
    + destruct (nohw_ok key Hk) as [_ (k & Hs & Hb & Hc)]. rewrite Hs. destruct Hm as [-> | ->]; cbn; (eexists; split; [done |]); cbn; split; try done; eauto.
Qed.

Lemma init_dat_enc mode key enc : valid_key key -> aes_mode mode -> enc = 1 \/ enc = 0 /\ (mode = EVP_CIPH_CTR_MODE \/ mode = EVP_CIPH_OFB_MODE) ->
  exists dat, aes_init_dat mode key (len key * 8) enc = (0, dat) /\ dat_ok mode enc key dat.
Proof.
  intros Hk Hm He. unfold aes_init_dat, dat_ok, mode_block. set (dec := ((mode =? EVP_CIPH_ECB_MODE) || (mode =? EVP_CIPH_CBC_MODE)) && (enc =? 0)).
  assert (dec = false) as -> by (unfold dec; destruct He as [-> | [-> [-> | ->]]]; (done || apply andb_false_r)). destruct (hwaes_capable P) eqn:Ehw.
  { destruct (hw_ok Ehw key Hk) as [(k & Hs & Hb & Hc & Hr) _]. rewrite Hs. eexists. split; [done |]. cbn. split.
    - destruct Hm as [-> | [-> | [-> | ->]]]; cbn; eauto. split; [done |]. destruct He as [-> | [_ [H | H]]]; done.
    - intros Hh Em x Hx. destruct He as [-> | [_ [H | H]]]; [| by rewrite Em in H ..]. apply hw_ecb_enc; try done. by apply andb_true_iff in Hh as [Hh _]. }
  rewrite andb_false_r. destruct (vpaes_capable P) eqn:Ev.
  - destruct (vpaes_ok Ev key Hk) as [(k & Hs & Hb & Hc & Hr) _]. rewrite Hs. eexists. split; [done |]. cbn. split; [| done].
    destruct Hm as [-> | [-> | [-> | ->]]]; cbn; try (destruct (VPAES_CBC P); cbn; eauto; fail).
    + destruct (VPAES_CBC P); cbn; eauto. split; [done |]. destruct He as [-> | [_ [H | H]]]; done.
    + destruct (BSAES P) eqn:Eb; [| destruct (VPAES_CTR32 P), (VPAES_CBC P); cbn; eauto]. cbn. split; [done |].
      pose proof (aes_inverse key Hk) as HI. apply bsaes_ctr32; [done | by apply bsaes_enc | apply HI].
  - destruct (nohw_ok key Hk) as [(k & Hs & Hb & Hc & Hr) _]. rewrite Hs. eexists. split; [done |]. cbn. split; [| done].
    destruct Hm as [-> | [-> | [-> | ->]]]; cbn; eauto. split; [done |]. destruct He as [-> | [_ [H | H]]]; done.
Qed.

(** * The ciphers as modes *)

Definition width (mode : Z) : nat := if (mode =? EVP_CIPH_ECB_MODE) || (mode =? EVP_CIPH_CBC_MODE) then 16 else 1.

(** The state of a mode in a context, and one step of it. *)
Definition aes_abs (mode : Z) (ctx : CTX) : ctr_state :=
  if mode =? EVP_CIPH_CBC_MODE then mk_ctr (iv ctx) [] 0
  else if mode =? EVP_CIPH_CTR_MODE then norm (mk_ctr (iv ctx) (take 16 (buf ctx)) (Z.to_nat (num ctx)))
  else if mode =? EVP_CIPH_OFB_MODE then mk_ctr (iv ctx) [] (Z.to_nat (num ctx))
  else mk_ctr [] [] 0.

Definition aes_crypt (mode enc : Z) (key : bytes) (s : ctr_state) (x : bytes) : bytes * ctr_state :=
  let f := mode_block mode enc key in
  if mode =? EVP_CIPH_CBC_MODE then let '(o, iv) := cbc_spec key enc (ctr_ivec s) x in (o, mk_ctr iv [] 0)
  else if mode =? EVP_CIPH_CTR_MODE then let '(o, s) := ctr_stream f s x in (o, norm s)
  else if mode =? EVP_CIPH_OFB_MODE then let '(o, s) := ofb_stream f (mk_ofb (ctr_ivec s) (ctr_num s)) x in (o, mk_ctr (ofb_ivec s) [] (ofb_num s))
  else (ecb_spec f x, s).

(** A context whose key is set up. *)
Record aes_inv (mode enc : Z) (key : bytes) (ctx : CTX) : Prop := {
  inv_dat : exists dat, cipher_data ctx = Some dat /\ dat_ok mode enc key dat;
  inv_enc : encrypt ctx = enc;
  inv_iv : mode <> EVP_CIPH_ECB_MODE -> is_block (iv ctx);
  inv_num : width mode = 1%nat -> 0 <= num ctx < 16;
  inv_buf : mode = EVP_CIPH_CTR_MODE -> length (buf ctx) = EVP_MAX_BLOCK_LENGTH /\ (num ctx <> 0 -> bytes_ok (take 16 (buf ctx)))
}.

Section Cipher.
Context (mode enc : Z) (key : bytes) (Hkey : valid_key key) (Hmode : aes_mode mode) (Henc : enc = 0 \/ enc = 1).

#[local] Instance mode_block_cipher : BlockCipher (mode_block mode enc key).
Proof. pose proof (aes_inverse key Hkey) as HI. unfold mode_block. destruct (_ && _); apply HI. Qed.

Lemma cbc_spec_app s x y : length s = 16%nat -> Nat.divide 16 (length x) -> Nat.divide 16 (length y) ->
  cbc_spec key enc s (x ++ y) = let '(o, s) := cbc_spec key enc s x in let '(o', s) := cbc_spec key enc s y in (o ++ o', s).
Proof.
  intros Hs [n Hn] [k Hk]. destruct (aes_inverse key Hkey) as [HE HD _]. unfold cbc_spec. rewrite length_app, Hn, Hk. rewrite <- Nat.mul_add_distr_r, !Nat.div_mul by lia.
  assert (forall (w u v : bytes), length w = 16%nat -> (Nat.divide 16 (length v)) -> next_iv w (u ++ v) = next_iv (next_iv w u) v) as Hni.
  { intros w u v Hw [m Hm]. destruct v as [| a v]; [by rewrite app_nil_r, next_iv_nil by (by apply next_iv_length) |]. cbn [length] in Hm. unfold next_iv. cbv zeta.
    rewrite app_assoc, !drop_app_ge by (rewrite ?length_app, ?length_drop, ?length_app; cbn [length]; lia). f_equal. rewrite !length_app, length_drop, !length_app. cbn [length]. lia. }
  destruct (is_enc enc).
  - rewrite cbc_enc_app by first [lia | done]. f_equal. apply Hni; [done |]. rewrite cbc_enc_length by first [done | rewrite ?next_iv_length; lia]. exists k. lia.
  - rewrite cbc_dec_app by lia. f_equal. apply Hni; [done | by exists k].
Qed.

Lemma cbc_spec_facts s x : is_block s -> Nat.divide 16 (length x) ->
  length (fst (cbc_spec key enc s x)) = length x /\ (bytes_ok x -> bytes_ok (fst (cbc_spec key enc s x)) /\ is_block (snd (cbc_spec key enc s x))).
Proof.
  intros [Hs Hso] [n Hn]. destruct (aes_inverse key Hkey) as [HE HD _]. unfold cbc_spec. rewrite Hn, Nat.div_mul by lia. destruct (is_enc enc); cbn [fst snd].
  - split; [rewrite cbc_enc_length by first [done | lia]; lia |]. intros Hx. assert (bytes_ok (cbc_enc (E key) n s x)) by (apply cbc_enc_ok; (done || lia)).
    split; [done |]. split; [by apply next_iv_length | by apply next_iv_ok].
  - split; [rewrite cbc_dec_length by first [done | lia]; lia |]. intros Hx. split; [apply cbc_dec_ok; (done || lia) |]. split; [by apply next_iv_length | by apply next_iv_ok].
Qed.

Lemma call_block_same (dat : EVP_AES_KEY) g : block dat = Some g -> block_agrees g (ks dat) (mode_block mode enc key) -> same_block (call_block dat) (mode_block mode enc key).
Proof. intros Hb Ha x Hx. unfold call_block. rewrite Hb. by apply Ha. Qed.

Lemma zero_pad_whole x : Nat.divide 16 (length x) -> zero_pad x = x /\ blocks_of (length x) = (length x / 16)%nat /\ (16 * blocks_of (length x) = length x)%nat.
Proof.
  intros [n Hn]. unfold zero_pad. assert (blocks_of (length x) = n) as -> by (rewrite Hn, (Nat.mul_comm n 16); apply blocks_of_exact).
  rewrite Hn, Nat.div_mul by lia. replace (16 * n - n * 16)%nat with 0%nat by lia. rewrite app_nil_r. split_and!; [done | done | lia].
Qed.

Lemma aes_cbc_call ctx dat x :
  mode = EVP_CIPH_CBC_MODE -> dat_ok mode enc key dat -> encrypt ctx = enc -> is_block (iv ctx) -> whole x ->
  aes_cbc_cipher ctx dat x = (1, fst (cbc_spec key enc (iv ctx) x), set_iv (snd (cbc_spec key enc (iv ctx) x)) ctx).
Proof.
  intros Hm [Hs _] He [Hi Hio] [Hx Hd]. unfold aes_cbc_cipher. cbv zeta in Hs. destruct (stream dat) as [| g | g].
  - destruct Hs as (g & Hb & Ha). pose proof (call_block_same dat g Hb Ha) as Hsame. destruct (aes_inverse key Hkey) as [HE HD _].
    pose proof (same_block_cipher _ _ Hsame mode_block_cipher) as HC. destruct (zero_pad_whole x Hd) as (Hz & Hbl & Hbl2).
    assert (length (in_out x) = length x + length x)%nat as Hio2 by (unfold in_out; rewrite length_app, length_replicate; lia).
    assert (bytes_ok (in_out x)) as Hok by (apply bytes_ok_app; split; [done | apply bytes_ok_replicate; unfold byte_ok; lia]).
    assert (ld (in_out x) 0 (length x) = x) as Hld by (unfold ld, in_out; rewrite drop_0; by apply take_app_length').
    destruct Hd as [n Hn]. assert (length x / 16 = n)%nat as Hdiv by (rewrite Hn; apply Nat.div_mul; lia).
    rewrite He. unfold cbc_spec, is_enc. destruct (Z.eqb_spec enc 0) as [E0 | E0]; cbn [negb].
    + rewrite cbc_decrypt_spec by (try done; lia). rewrite Hbl2, Hld, Hbl, Hdiv.
      assert (mode_block mode enc key = D key) as Hf by (unfold mode_block; rewrite Hm, E0; done). rewrite Hf in Hsame.
      rewrite (cbc_dec_same _ (D key)) by (done || lia). assert (length (cbc_dec (D key) n (iv ctx) x) = length x) as Hl by (rewrite cbc_dec_length by first [done | lia]; lia).
      rewrite take_ge by lia. rewrite ld_store_same by (done || lia). done.
    + rewrite cbc_encrypt_spec by first [done | lia | right; lia]. rewrite Hld, Hz, Hbl, Hdiv.
      assert (mode_block mode enc key = E key) as Hf by (unfold mode_block; rewrite (proj2 (Z.eqb_neq _ _) E0), andb_false_r; done). rewrite Hf in Hsame.
      rewrite (cbc_enc_same _ (E key)) by (done || lia). rewrite ld_store_same by first [rewrite cbc_enc_length by first [done | lia]; lia | lia]. done.
  - destruct Hs as [_ Hs]. rewrite He, (Hs x (iv ctx)) by done. by destruct (cbc_spec _ _ _ _).
  - destruct Hs as [Hs _]. by rewrite Hs in Hm.
Qed.

Lemma aes_ecb_call c ctx dat x :
  mode = EVP_CIPH_ECB_MODE -> block_size c = 16 -> dat_ok mode enc key dat -> encrypt ctx = enc -> whole x -> x <> [] ->
  (if HWAES_ECB P && hwaes_capable P then aes_hw_ecb_cipher c ctx dat x else aes_ecb_cipher c ctx dat x) = (1, ecb_spec (mode_block mode enc key) x, ctx).
Proof.
  intros Hm Hc [Hs Hh] He [Hx Hd] Hne. assert (16 <= length x)%nat as H16 by (destruct Hd as [n Hn]; destruct x, n; cbn in *; (done || lia)).
  destruct (HWAES_ECB P && hwaes_capable P).
  - unfold aes_hw_ecb_cipher. rewrite Hc, He. rewrite (proj2 (Z.ltb_ge _ _)) by (unfold len; lia). by rewrite Hh.
  - unfold aes_ecb_cipher. rewrite Hc. change (Z.to_nat 16) with 16%nat. rewrite (proj2 (Nat.ltb_ge _ _)) by done. cbv zeta in Hs. destruct (stream dat) as [| g | g].
    + destruct Hs as (g & Hb & Ha). rewrite <- (ecb_same _ _ x (call_block_same dat g Hb Ha) Hd). unfold ecb_spec. do 3 f_equal. do 2 f_equal.
      replace (length x) with (length x - 16 + 1 * 16)%nat at 2 by lia. by rewrite Nat.div_add by lia.
    + destruct Hs as [Hs _]. by rewrite Hs in Hm.
    + destruct Hs as [Hs _]. by rewrite Hs in Hm.
Qed.

Lemma aes_ctr_call ctx dat x :
  mode = EVP_CIPH_CTR_MODE -> dat_ok mode enc key dat -> aes_inv mode enc key ctx -> bytes_ok x ->
  exists s', aes_ctr_cipher ctx dat x = (1, fst (aes_crypt mode enc key (aes_abs mode ctx) x), set_num (Z.of_nat (ctr_num s')) (set_buf (store (buf ctx) 0 (ecount_buf s')) (set_iv (ctr_ivec s') ctx))) /\
    norm s' = snd (aes_crypt mode enc key (aes_abs mode ctx) x) /\ is_block (ctr_ivec s') /\ (ctr_num s' < 16)%nat /\ length (ecount_buf s') = 16%nat /\ (ctr_num s' <> 0%nat -> bytes_ok (ecount_buf s')).
Proof.
  intros Hm [Hs _] [_ _ Hiv Hnum Hbuf] Hx. destruct (Hbuf Hm) as [Hbl Hbo]. specialize (Hiv ltac:(by rewrite Hm)). specialize (Hnum ltac:(by rewrite Hm)).
  unfold aes_crypt, aes_abs, aes_ctr_cipher. rewrite Hm in *. cbn [Z.eqb Pos.eqb EVP_CIPH_CBC_MODE EVP_CIPH_CTR_MODE]. rewrite <- Hm in *.
  set (s0 := mk_ctr (iv ctx) (take 16 (buf ctx)) (Z.to_nat (num ctx))). set (f := mode_block mode enc key) in *. pose proof mode_block_cipher as HB. fold f in HB.
  assert (ctr_full (ctr_ivec s0, ecount_buf s0, ctr_num s0)) as Hfull.
  { cbn. split_and!; [done | lia | rewrite length_take, Hbl; done |]. intros Hn. apply Hbo. lia. }
  destruct (ctr_stream_full f s0 x HB Hfull) as (Hf1 & _ & _). destruct (ctr_stream_equiv f s0 (norm s0) x (norm_equiv s0)) as [Hq1 Hq2].
  assert (exists s', match stream dat with StreamCtr g => CRYPTO_ctr128_encrypt_ctr32 (fun inp n ivec => g inp n (ks dat) ivec) s0 x | _ => CRYPTO_ctr128_encrypt (call_block dat) s0 x end = (fst (ctr_stream f s0 x), s')
    /\ ctr_equiv s' (snd (ctr_stream f s0 x)) /\ (ctr_num s' = 0%nat -> length (ecount_buf s') = 16%nat)) as (s' & -> & He & Hz).
  { destruct (stream dat) as [| g | g].
    - destruct Hs as (g & Hb & Ha). pose proof (call_block_same dat g Hb Ha) as Hsame. pose proof (same_block_cipher _ _ Hsame HB) as HC.
      pose proof Hfull as (F1 & F2 & _). rewrite ctr128_encrypt_stream by done. rewrite (ctr_stream_same _ f) by done. exists (snd (ctr_stream f s0 x)). split; [apply surjective_pairing |]. split; [done |].
      intros _. apply Hf1.
    - destruct Hs as [Hs _]. by rewrite Hs in Hm.
    - destruct Hs as [_ HC]. destruct (ctr32_stream f (fun inp n ivec => g inp n (ks dat) ivec) s0 x) as [H1 H2]; try (done || apply Hfull).
      eexists. split; [rewrite <- H1; apply surjective_pairing |]. split; [done |]. intros Hn. rewrite ctr32_ecount by done. apply Hfull. }
  exists s'. rewrite Hq1. destruct (ctr_stream f (norm s0) x) as [o s2]. cbn [fst snd] in *. split; [done |]. split; [apply norm_eq; by rewrite He, Hq2 |].
  destruct Hf1 as (G1 & G2 & G3 & G4). destruct He as (-> & E2 & E3). split_and!; try done; [lia | |].
  - destruct (Nat.eq_dec (ctr_num s') 0)%nat; [by apply Hz | by rewrite E3].
  - intros Hn. rewrite E3 by done. apply G4. lia.
Qed.

Lemma aes_ofb_call ctx dat x :
  mode = EVP_CIPH_OFB_MODE -> dat_ok mode enc key dat -> aes_inv mode enc key ctx -> bytes_ok x ->
  exists s', aes_ofb_cipher ctx dat x = (1, fst (aes_crypt mode enc key (aes_abs mode ctx) x), set_num (Z.of_nat (ofb_num s')) (set_iv (ofb_ivec s') ctx)) /\
    mk_ctr (ofb_ivec s') [] (ofb_num s') = snd (aes_crypt mode enc key (aes_abs mode ctx) x) /\ is_block (ofb_ivec s') /\ (ofb_num s' < 16)%nat.
Proof.
  intros Hm [Hs _] [_ _ Hiv Hnum _] Hx. specialize (Hiv ltac:(by rewrite Hm)). specialize (Hnum ltac:(by rewrite Hm)).
  unfold aes_crypt, aes_abs, aes_ofb_cipher. rewrite Hm in *. cbn [Z.eqb Pos.eqb EVP_CIPH_CBC_MODE EVP_CIPH_CTR_MODE EVP_CIPH_OFB_MODE ctr_ivec ctr_num]. rewrite <- Hm in *.
  set (s0 := mk_ofb (iv ctx) (Z.to_nat (num ctx))). set (f := mode_block mode enc key) in *. pose proof mode_block_cipher as HB. fold f in HB.
  assert (ofb_full (ofb_ivec s0, ofb_num s0)) as Hfull by (split; [done | cbn; lia]). destruct (ofb_stream_full f s0 x HB Hfull) as (Hf1 & _ & _).
  destruct (stream dat) as [| g | g]; [| by destruct Hs as [Hs _]; rewrite Hs in Hm ..].
  destruct Hs as (g & Hb & Ha). pose proof (call_block_same dat g Hb Ha) as Hsame. pose proof (same_block_cipher _ _ Hsame HB) as HC.
  pose proof Hfull as (F1 & F2). rewrite ofb128_encrypt_stream by done. rewrite (ofb_stream_same _ f) by done. destruct (ofb_stream f s0 x) as [o s']. exists s'. cbn [fst snd] in *. by split_and!; try apply Hf1.
Qed.

Lemma aes_frame ctx ctx' : core (width mode) ctx' = core (width mode) ctx -> aes_inv mode enc key ctx -> aes_inv mode enc key ctx' /\ aes_abs mode ctx' = aes_abs mode ctx.
Proof.
  unfold core. intros [= H1 H2 H3 H4 H5] [Hd He Hi Hn Hb]. split.
  - split; [by rewrite H1 | congruence | by rewrite H3 | by rewrite H4 |]. intros Hm. rewrite Hm in H5. change (width EVP_CIPH_CTR_MODE =? 1)%nat with true in H5. rewrite H4, H5. auto.
  - unfold aes_abs. rewrite H3, H4. destruct (mode =? EVP_CIPH_CBC_MODE); [done |]. destruct (Z.eqb_spec mode EVP_CIPH_CTR_MODE) as [Hm | _]; [| done].
    rewrite Hm in H5. change (width EVP_CIPH_CTR_MODE =? 1)%nat with true in H5. by rewrite H5.
Qed.

(** A context after a call of the method. *)
Lemma aes_call c ctx x : EVP_CIPHER_mode c = mode -> block_size c = Z.of_nat (width mode) ->
  aes_inv mode enc key ctx -> x <> [] -> Nat.divide (width mode) (length x) -> bytes_ok x ->
  exists ctx', aes_method c ctx x (len x) = (1, fst (aes_crypt mode enc key (aes_abs mode ctx) x), ctx') /\
    aes_inv mode enc key ctx' /\ aes_abs mode ctx' = snd (aes_crypt mode enc key (aes_abs mode ctx) x) /\ outer (width mode) ctx' = outer (width mode) ctx.
Proof.
  intros Hc Hw Hinv Hne Hd Hx. pose proof Hinv as [(dat & Hdat & Hok) He Hi Hn Hb]. unfold aes_method. rewrite Hdat, Hc. unfold len. rewrite Nat2Z.id, firstn_all.
  destruct Hmode as [Hm | [Hm | [Hm | Hm]]].
  - assert (whole x) as Hwx by (split; [done |]; by rewrite Hm in Hd). pose proof (aes_ecb_call c ctx dat x Hm ltac:(by rewrite Hw, Hm) Hok He Hwx Hne) as Hcall.
    unfold aes_crypt, aes_abs. rewrite Hm in Hcall |- *. cbn [Z.eqb Pos.eqb EVP_CIPH_CBC_MODE EVP_CIPH_CTR_MODE EVP_CIPH_OFB_MODE EVP_CIPH_ECB_MODE] in Hcall |- *. rewrite Hcall. exists ctx. rewrite <- Hm. done.
  - assert (whole x) as Hwx by (split; [done |]; by rewrite Hm in Hd). specialize (Hi ltac:(by rewrite Hm)). pose proof (aes_cbc_call ctx dat x Hm Hok He Hi Hwx) as Hcall.
    destruct (cbc_spec_facts (iv ctx) x Hi (proj2 Hwx)) as [_ Hf]. destruct (Hf Hx) as [_ Hiv']. unfold aes_crypt, aes_abs. rewrite Hm. change (EVP_CIPH_CBC_MODE =? EVP_CIPH_CBC_MODE) with true. cbv iota. cbn [ctr_ivec].
    rewrite Hcall. destruct (cbc_spec key enc (iv ctx) x) as [o iv']. cbn [fst snd] in *. eexists. split; [done |]. split; [| done]. rewrite <- Hm. split; cbn; eauto.
  - destruct (aes_ctr_call ctx dat x Hm Hok Hinv Hx) as (s' & Hcall & Hs & Hiv' & Hn' & Hl' & Ho'). destruct (Hb Hm) as [Hbl _]. rewrite Hm. change (EVP_CIPH_CTR_MODE =? EVP_CIPH_CBC_MODE) with false. change (EVP_CIPH_CTR_MODE =? EVP_CIPH_CTR_MODE) with true. cbv iota.
    rewrite Hcall. rewrite <- Hm. eexists. split; [done |].
    assert (take 16 (store (buf ctx) 0 (ecount_buf s')) = ecount_buf s') as Htk by (unfold store; change (take 0 (buf ctx)) with (@nil Z); cbn [app]; by apply take_app_length').
    assert (length (store (buf ctx) 0 (ecount_buf s')) = length (buf ctx)) as Hls by (apply length_store; rewrite Hl', Hbl; unfold EVP_MAX_BLOCK_LENGTH; lia).
    split; [split; cbn; eauto; [lia |]; intros _; rewrite Hls, Htk; split; [done | intros; apply Ho'; lia] |]. split.
    + rewrite <- Hs. unfold aes_abs. rewrite Hm. cbn. rewrite Htk, Nat2Z.id. by destruct s'.
    + unfold outer. cbn. rewrite Hls. by rewrite Hm.
  - destruct (aes_ofb_call ctx dat x Hm Hok Hinv Hx) as (s' & Hcall & Hs & Hiv' & Hn'). rewrite Hm. change (EVP_CIPH_OFB_MODE =? EVP_CIPH_CBC_MODE) with false. change (EVP_CIPH_OFB_MODE =? EVP_CIPH_CTR_MODE) with false. change (EVP_CIPH_OFB_MODE =? EVP_CIPH_OFB_MODE) with true. cbv iota.
    rewrite Hcall. rewrite <- Hm. eexists. split; [done |]. split; [split; cbn; eauto; [lia |]; intros Hm'; by rewrite Hm in Hm' |]. split; [| done].
    rewrite <- Hs. unfold aes_abs. rewrite Hm. cbn. by rewrite Nat2Z.id.
Qed.

Local Abbreviation crypt := (aes_crypt mode enc key).
Local Abbreviation state := (mode_state (aes_inv mode enc key) (aes_abs mode)).

(** The four modes as one machine. *)
Lemma crypt_cases s : state s ->
  (mode = EVP_CIPH_ECB_MODE /\ (forall x s, crypt s x = (ecb_spec (mode_block mode enc key) x, s))) \/
  (mode = EVP_CIPH_CBC_MODE /\ is_block (ctr_ivec s) /\ s = mk_ctr (ctr_ivec s) [] 0 /\ (forall x s, crypt s x = (fst (cbc_spec key enc (ctr_ivec s) x), mk_ctr (snd (cbc_spec key enc (ctr_ivec s) x)) [] 0))) \/
  (mode = EVP_CIPH_CTR_MODE /\ (exists s0, ctr_full (ctr_ivec s0, ecount_buf s0, ctr_num s0) /\ s = norm s0) /\ (forall x s, crypt s x = (fst (ctr_stream (mode_block mode enc key) s x), norm (snd (ctr_stream (mode_block mode enc key) s x))))) \/
  (mode = EVP_CIPH_OFB_MODE /\ ofb_full (ctr_ivec s, ctr_num s) /\ s = mk_ctr (ctr_ivec s) [] (ctr_num s) /\
    (forall x s, crypt s x = let r := ofb_stream (mode_block mode enc key) (mk_ofb (ctr_ivec s) (ctr_num s)) x in (fst r, mk_ctr (ofb_ivec (snd r)) [] (ofb_num (snd r))))).
Proof.
  intros (ctx & [Hd He Hi Hn Hb] & <-). unfold aes_crypt, aes_abs. destruct Hmode as [Hm | [Hm | [Hm | Hm]]]; rewrite Hm in *.
  - left. by split.
  - right; left. split; [done |]. split; [by apply Hi |]. split; [done |]. intros x s. change (EVP_CIPH_CBC_MODE =? EVP_CIPH_CBC_MODE) with true. cbv iota. by destruct (cbc_spec _ _ _ _).
  - right; right; left. destruct (Hb eq_refl) as [Hbl Hbo]. specialize (Hn eq_refl). split; [done |]. split.
    + eexists. split; [| done]. cbn. split_and!; [by apply Hi | lia | rewrite length_take, Hbl; done | intros; apply Hbo; lia].
    + intros x s. change (EVP_CIPH_CTR_MODE =? EVP_CIPH_CBC_MODE) with false. change (EVP_CIPH_CTR_MODE =? EVP_CIPH_CTR_MODE) with true. cbv iota. by destruct (ctr_stream _ _ _).
  - right; right; right. specialize (Hn eq_refl). split; [done |]. split; [split; [by apply Hi | cbn; lia] |]. split; [done |]. intros x s.
    change (EVP_CIPH_OFB_MODE =? EVP_CIPH_CBC_MODE) with false. change (EVP_CIPH_OFB_MODE =? EVP_CIPH_CTR_MODE) with false. change (EVP_CIPH_OFB_MODE =? EVP_CIPH_OFB_MODE) with true. cbv iota zeta. by destruct (ofb_stream _ _ _).
Qed.

Lemma width_block : mode = EVP_CIPH_ECB_MODE \/ mode = EVP_CIPH_CBC_MODE -> width mode = 16%nat.
Proof. by intros [-> | ->]. Qed.

Lemma aes_crypt_app s x y : state s -> Nat.divide (width mode) (length x) -> Nat.divide (width mode) (length y) ->
  crypt s (x ++ y) = let '(o, s) := crypt s x in let '(o', s) := crypt s y in (o ++ o', s).
Proof.
  intros Hs Hx Hy. destruct (crypt_cases s Hs) as [[Hm Hc] | [(Hm & Hi & _ & Hc) | [(Hm & (s0 & Hf & ->) & Hc) | (Hm & Hf & _ & Hc)]]]; rewrite !Hc.
  - rewrite width_block in Hx by tauto. rewrite ?Hc. by rewrite ecb_app.
  - rewrite width_block in Hx, Hy by tauto. rewrite ?Hc. cbn [ctr_ivec]. rewrite cbc_spec_app by (done || apply Hi). destruct (cbc_spec key enc (ctr_ivec s) x) as [o1 s1]. cbn [fst snd]. by destruct (cbc_spec key enc s1 y).
  - rewrite ?Hc. rewrite ctr_stream_app. destruct (ctr_stream _ (norm s0) x) as [o1 s1]. cbn [fst snd]. destruct (ctr_stream_equiv (mode_block mode enc key) s1 (norm s1) y (norm_equiv s1)) as [<- Hq].
    rewrite <- (norm_eq _ _ Hq). by destruct (ctr_stream _ s1 y).
  - cbv zeta. rewrite ?Hc. cbn [ctr_ivec ctr_num]. rewrite ofb_stream_app. destruct (ofb_stream _ _ x) as [o1 [iv1 n1]]. cbn [fst snd ofb_ivec ofb_num]. rewrite Hc. cbn [ctr_ivec ctr_num]. by destruct (ofb_stream _ _ y) as [o2 [iv2 n2]].
Qed.

Lemma aes_crypt_facts s x : state s -> Nat.divide (width mode) (length x) ->
  length (fst (crypt s x)) = length x /\ (bytes_ok x -> bytes_ok (fst (crypt s x))) /\ crypt s [] = ([], s).
Proof.
  intros Hs Hx. destruct (crypt_cases s Hs) as [[Hm Hc] | [(Hm & Hi & Hs' & Hc) | [(Hm & (s0 & Hf & ->) & Hc) | (Hm & Hf & Hs' & Hc)]]]; rewrite !Hc; cbv zeta; cbn [fst].
  - rewrite width_block in Hx by tauto. split; [by apply ecb_length; [apply mode_block_cipher |] |]. split; [intros Ho; apply ecb_ok; [apply mode_block_cipher | done ..] | done].
  - rewrite width_block in Hx by tauto. destruct (cbc_spec_facts _ x Hi Hx) as [H1 H2]. split; [done |]. split; [intros Ho; apply (H2 Ho) |]. unfold cbc_spec. cbn [length Nat.div cbc_enc cbc_dec].
    change (0 / 16)%nat with 0%nat. cbn [cbc_enc cbc_dec]. destruct (is_enc enc); cbn [fst snd]; rewrite next_iv_nil by apply Hi; by rewrite <- Hs'.
  - destruct (ctr_stream_equiv (mode_block mode enc key) s0 (norm s0) x (norm_equiv s0)) as [<- _]. destruct (ctr_stream_full (mode_block mode enc key) s0 x mode_block_cipher Hf) as (_ & H1 & H2).
    split; [done |]. split; [done |]. unfold ctr_stream. cbn [run fst snd]. f_equal. unfold norm. destruct (ctr_num s0 =? 0)%nat eqn:En; cbn; [done | by rewrite En; destruct s0].
  - destruct (ofb_stream_full (mode_block mode enc key) (mk_ofb (ctr_ivec s) (ctr_num s)) x mode_block_cipher Hf) as (_ & H1 & H2). split; [done |]. split; [done |].
    unfold ofb_stream. cbn. by rewrite <- Hs'.
Qed.

Lemma aes_cipher_mode c : EVP_CIPHER_mode c = mode -> block_size c = Z.of_nat (width mode) -> has_flag (c_flags c) EVP_CIPH_FLAG_CUSTOM_CIPHER = false ->
  CipherMode aes_method c (width mode) (aes_inv mode enc key) (aes_abs mode) crypt.
Proof.
  intros Hc Hw Hp. split; try done.
  - unfold width. destruct (_ || _); lia.
  - apply aes_frame.
  - intros ctx x. by apply aes_call.
  - intros s Hs. apply (aes_crypt_facts s [] Hs). apply Nat.divide_0_r.
  - intros s x y. apply aes_crypt_app.
  - intros s x Hs Hx. apply (aes_crypt_facts s x Hs Hx).
  - intros s x Hs Hx. apply (aes_crypt_facts s x Hs Hx).
Qed.

(** ** Initialization *)

(** The arrays of a context have their lengths. *)
Definition ctx_wf (ctx : CTX) : Prop :=
  length (oiv ctx) = EVP_MAX_IV_LENGTH /\ length (iv ctx) = EVP_MAX_IV_LENGTH /\ length (buf ctx) = EVP_MAX_BLOCK_LENGTH /\ length (final ctx) = EVP_MAX_BLOCK_LENGTH.

Definition start (iv : bytes) : ctr_state := if mode =? EVP_CIPH_ECB_MODE then mk_ctr [] [] 0 else mk_ctr iv [] 0.

Lemma copy_16 (dst v : bytes) : length dst = EVP_MAX_IV_LENGTH -> length v = 16%nat -> copy_prefix dst v 16 = v.
Proof. intros Hd Hv. unfold copy_prefix. change (Z.to_nat 16) with 16%nat. rewrite take_ge by lia. apply store_all. by rewrite Hd, Hv. Qed.

Lemma init_iv_spec c ctx v : EVP_CIPHER_mode c = mode -> (mode <> EVP_CIPH_ECB_MODE -> iv_len c = 16) -> ctx_wf ctx -> is_block v ->
  exists ctx', init_iv no_ctrl c ctx (Some v) = Some ctx' /\ ctx_wf ctx' /\ cipher ctx' = cipher ctx /\ cipher_data ctx' = cipher_data ctx /\ key_len ctx' = key_len ctx /\
    encrypt ctx' = encrypt ctx /\ flags ctx' = flags ctx /\ (mode <> EVP_CIPH_ECB_MODE -> iv ctx' = v) /\ (width mode = 1%nat -> num ctx' = 0).
Proof.
  intros Hc Hl (W1 & W2 & W3 & W4) [Hv Hvo]. unfold init_iv, EVP_CIPHER_CTX_iv_length. rewrite Hc. destruct Hmode as [Hm | [Hm | [Hm | Hm]]]; rewrite Hm in *.
  - exists ctx. by split_and!.
  - specialize (Hl ltac:(done)). cbn -[copy_prefix]. rewrite Hl. eexists. split; [done |]. unfold ctx_wf. cbn -[copy_prefix]. rewrite ?copy_16 by (rewrite ?copy_16; done). by split_and!.
  - specialize (Hl ltac:(done)). cbn -[copy_prefix]. rewrite Hl. eexists. split; [done |]. unfold ctx_wf. cbn -[copy_prefix]. rewrite ?copy_16 by done. by split_and!.
  - specialize (Hl ltac:(done)). cbn -[copy_prefix]. rewrite Hl. eexists. split; [done |]. unfold ctx_wf. cbn -[copy_prefix]. rewrite ?copy_16 by done. by split_and!.
Qed.

(** What [EVP_CipherInit_ex] leaves before the key is set up. *)
Lemma init_cipher_spec fresh c ctx : (ctx_size c =? 0) = false -> has_flag (c_flags c) EVP_CIPH_CTRL_INIT = false -> ctx_wf ctx ->
  exists ctx', init_cipher fresh true no_ctrl (set_encrypt enc ctx) (Some c) enc = (true, ctx') /\ ctx_wf ctx' /\ cipher ctx' = Some c /\
    encrypt ctx' = enc /\ key_len ctx' = c_key_len c /\ flags ctx' = 0.
Proof.
  intros Hsz Hci Hwf. unfold init_cipher. rewrite Hsz, Hci. cbn [negb andb]. eexists. split; [done |].
  destruct (cipher (set_encrypt enc ctx)); by split_and!.
Qed.

Lemma aes_init_spec fresh c ctx v :
  EVP_CIPHER_mode c = mode -> (mode <> EVP_CIPH_ECB_MODE -> iv_len c = 16) -> (ctx_size c =? 0) = false -> has_flag (c_flags c) EVP_CIPH_CTRL_INIT = false ->
  has_flag (EVP_CIPHER_flags c) EVP_CIPH_CUSTOM_IV = false -> c_key_len c = len key -> ctx_wf ctx -> is_block v ->
  exists ctx', EVP_CipherInit_ex fresh true aes_init_key no_ctrl ctx (Some c) (Some key) (Some v) enc = (true, ctx') /\
    enc_at c (width mode) (aes_inv mode enc key) (aes_abs mode) ctx' (start v) [] /\ length (final ctx') = EVP_MAX_BLOCK_LENGTH /\ final_used ctx' = false /\ flags ctx' = 0.
Proof.
  intros Hc Hiv Hsz Hci Hcu Hkl Hwf Hv. unfold EVP_CipherInit_ex. rewrite (proj2 (Z.eqb_neq enc (-1))) by lia.
  assert ((if negb (enc =? 0) then 1 else enc) = enc) as -> by (destruct Henc as [-> | ->]; done).
  destruct (init_cipher_spec fresh c ctx Hsz Hci Hwf) as (ctx1 & -> & Hwf1 & Hc1 & He1 & Hk1 & Hf1). rewrite Hc1, Hcu.
  destruct (init_iv_spec c ctx1 v Hc Hiv Hwf1 Hv) as (ctx2 & -> & (W1 & W2 & W3 & W4) & Hc2 & _ & Hk2 & He2 & Hf2 & Hv2 & Hn2).
  rewrite bool_decide_eq_true_2 by done. cbn [orb]. unfold aes_init_key. change (default [] (Some key)) with key. rewrite Hk2, Hk1, Hkl, Hc.
  assert (exists dat, aes_init_dat mode key (len key * 8) enc = (0, dat) /\ dat_ok mode enc key dat) as (dat & -> & Hdat).
  { destruct Henc as [-> | ->]; [| apply init_dat_enc; by (done || left)]. destruct Hmode as [Hm | [Hm | Hm]]; [by apply init_dat_dec; auto .. |]. apply init_dat_enc; [done | done | right; by split]. }
  change (0 <? 0) with false. cbv iota. cbn [negb]. eexists. split; [done |]. split; [| cbn; split_and!; (done || congruence)].
  assert (width mode = 1%nat \/ width mode = 16%nat) as Hw by (unfold width; destruct (_ || _); auto).
  split; try done; cbn.
  - congruence.
  - split; cbn; [eauto | congruence | intros Hne; by rewrite Hv2 | intros Hw1; by rewrite Hn2 | intros Hm; split; [done |]; by rewrite Hn2 by (by rewrite Hm)].
  - unfold aes_abs, start. destruct Hmode as [Hm | [Hm | [Hm | Hm]]]; rewrite Hm in *; cbn; rewrite ?Hn2, ?Hv2 by done; done.
  - lia.
Qed.
End Cipher.

Lemma aes_cipher_facts c : In c aes_ciphers ->
  let mode := EVP_CIPHER_mode c in
  aes_mode mode /\ block_size c = Z.of_nat (width mode) /\ has_flag (c_flags c) EVP_CIPH_FLAG_CUSTOM_CIPHER = false /\ (mode <> EVP_CIPH_ECB_MODE -> iv_len c = 16) /\
  (ctx_size c =? 0) = false /\ has_flag (c_flags c) EVP_CIPH_CTRL_INIT = false /\ has_flag (EVP_CIPHER_flags c) EVP_CIPH_CUSTOM_IV = false /\ (c_key_len c = 16 \/ c_key_len c = 24 \/ c_key_len c = 32).
Proof. intros H. repeat (destruct H as [<- | H]; [by unfold aes_mode; vm_compute; intuition discriminate |]). destruct H. Qed.

(** A message from the initialization of a context to the last call. *)
Definition encrypt_all (c : EVP_CIPHER) (fresh : EVP_AES_KEY) (ctx : CTX) (key iv : bytes) (padding : bool) (xs : list bytes) : option bytes :=
  let '(ok, ctx) := EVP_EncryptInit_ex fresh true aes_init_key no_ctrl ctx (Some c) (Some key) (Some iv) in
  if ok then message (EVP_EncryptUpdate aes_method) (EVP_EncryptFinal_ex aes_method) (EVP_CIPHER_CTX_set_padding ctx padding) xs else None.

Definition decrypt_all (c : EVP_CIPHER) (fresh : EVP_AES_KEY) (ctx : CTX) (key iv : bytes) (padding : bool) (ys : list bytes) : option bytes :=
  let '(ok, ctx) := EVP_DecryptInit_ex fresh true aes_init_key no_ctrl ctx (Some c) (Some key) (Some iv) in
  if ok then message (EVP_DecryptUpdate aes_method) (EVP_DecryptFinal_ex aes_method) (EVP_CIPHER_CTX_set_padding ctx padding) ys else None.

(** The modes, in closed form. *)
Definition enc_spec (mode : Z) (key iv m : bytes) : bytes :=
  if mode =? EVP_CIPH_CBC_MODE then cbc_enc (E key) (length m / 16) iv m
  else if mode =? EVP_CIPH_CTR_MODE then xor_bytes m (take (length m) (ctr_ks (E key) (be_value iv) (blocks_of (length m))))
  else if mode =? EVP_CIPH_OFB_MODE then fst (ofb_stream (E key) (mk_ofb iv 0) m)
  else ecb_spec (E key) m.

Definition dec_spec (mode : Z) (key iv m : bytes) : bytes :=
  if mode =? EVP_CIPH_CBC_MODE then cbc_dec (D key) (length m / 16) iv m
  else if mode =? EVP_CIPH_ECB_MODE then ecb_spec (D key) m
  else enc_spec mode key iv m.

Lemma crypt_spec mode enc key iv m : valid_key key -> aes_mode mode -> is_block iv -> bytes_ok m ->
  fst (aes_crypt mode enc key (start mode iv) m) = if is_enc enc then enc_spec mode key iv m else dec_spec mode key iv m.
Proof.
  intros Hk Hm Hi Hx. destruct (aes_inverse key Hk) as [HE HD _]. unfold aes_crypt, start, dec_spec, enc_spec, mode_block, is_enc, cbc_spec, is_enc.
  destruct Hm as [-> | [-> | [-> | ->]]]; destruct (Z.eqb_spec enc 0) as [-> | Hne]; cbn [Z.eqb Pos.eqb EVP_CIPH_CBC_MODE EVP_CIPH_CTR_MODE EVP_CIPH_OFB_MODE EVP_CIPH_ECB_MODE orb andb negb fst ctr_ivec ctr_num];
    try done; try (rewrite <- (ctr_stream_closed (E key) iv [] m) by done; by destruct (ctr_stream _ _ _)); by destruct (ofb_stream _ _ _).
Qed.

Lemma padding_flag (ctx : CTX) padding : flags ctx = 0 -> has_flag (flags (EVP_CIPHER_CTX_set_padding ctx padding)) EVP_CIPH_NO_PADDING = negb padding.
Proof. intros H. destruct padding; cbn; by rewrite H. Qed.

(** Every message comes out as the mode says, whatever its pieces are. *)
Lemma encrypt_all_spec c fresh ctx key iv padding xs :
  In c aes_ciphers -> valid_key key -> len key = c_key_len c -> ctx_wf ctx -> is_block iv -> Forall (int_ok (width (EVP_CIPHER_mode c))) xs -> Forall bytes_ok xs ->
  encrypt_all c fresh ctx key iv padding xs = option_map (enc_spec (EVP_CIPHER_mode c) key iv) (pad (width (EVP_CIPHER_mode c)) (negb padding) (concat xs)).
Proof.
  intros Hc Hk Hkl Hwf Hi Hint Hok. destruct (aes_cipher_facts c Hc) as (Hm & Hw & Hp & Hiv & Hsz & Hci & Hcu & _). set (mode := EVP_CIPHER_mode c) in *.
  destruct (aes_init_spec mode 1 key Hk Hm ltac:(auto) fresh c ctx iv eq_refl Hiv Hsz Hci Hcu ltac:(done) Hwf Hi) as (ctx' & Hinit & Hat & Hfl & Hu & Hf).
  unfold encrypt_all, EVP_EncryptInit_ex. rewrite Hinit. pose proof (aes_cipher_mode mode 1 key Hk Hm ltac:(auto) c eq_refl Hw Hp) as HM.
  pose proof (enc_at_padding aes_method c (width mode) _ _ _ ctx' (start mode iv) [] padding Hat) as Hat'.
  rewrite (encrypt_message_spec aes_method c (width mode) _ _ _ _ (start mode iv) xs Hat' Hint Hok). rewrite padding_flag by done.
  destruct (pad (width mode) (negb padding) (concat xs)) as [m |] eqn:Ep; [| done]. cbn. f_equal. apply (crypt_spec mode 1); try done.
  eapply (pad_bytes aes_method c (width mode) _ _ _ (HM := HM)); [exact Ep |]. by apply concat_ok.
Qed.

Lemma decrypt_all_spec c fresh ctx key iv padding ys :
  In c aes_ciphers -> valid_key key -> len key = c_key_len c -> ctx_wf ctx -> is_block iv -> Forall (int_ok (width (EVP_CIPHER_mode c))) ys -> Forall bytes_ok ys ->
  decrypt_all c fresh ctx key iv padding ys =
  let m := concat ys in if (length m mod width (EVP_CIPHER_mode c) =? 0)%nat then unpad (width (EVP_CIPHER_mode c)) (negb padding) (dec_spec (EVP_CIPHER_mode c) key iv m) else None.
Proof.
  intros Hc Hk Hkl Hwf Hi Hint Hok. destruct (aes_cipher_facts c Hc) as (Hm & Hw & Hp & Hiv & Hsz & Hci & Hcu & _). set (mode := EVP_CIPHER_mode c) in *.
  destruct (aes_init_spec mode 0 key Hk Hm ltac:(auto) fresh c ctx iv eq_refl Hiv Hsz Hci Hcu ltac:(done) Hwf Hi) as (ctx' & Hinit & Hat & Hfl & Hu & Hf).
  unfold decrypt_all, EVP_DecryptInit_ex. rewrite Hinit. pose proof (aes_cipher_mode mode 0 key Hk Hm ltac:(auto) c eq_refl Hw Hp) as HM.
  pose proof (enc_at_padding aes_method c (width mode) _ _ _ ctx' (start mode iv) [] padding Hat) as Hat'.
  rewrite (decrypt_message_spec aes_method c (width mode) _ _ _ _ (start mode iv) ys Hat') by (try done; by destruct padding). rewrite padding_flag by done.
  unfold decrypted. cbv zeta. rewrite (crypt_spec mode 0) by (done || by apply concat_ok). done.
Qed.

Lemma dec_enc_spec mode key iv m : valid_key key -> aes_mode mode -> is_block iv -> bytes_ok m -> Nat.divide (width mode) (length m) ->
  length (enc_spec mode key iv m) = length m /\ dec_spec mode key iv (enc_spec mode key iv m) = m.
Proof.
  intros Hk Hm Hi Hx Hd. pose proof (aes_inverse key Hk) as HI. pose proof HI as [HE HD _]. unfold dec_spec, enc_spec. destruct Hi as [Hil Hio].
  destruct Hm as [-> | [-> | [-> | ->]]]; cbn [Z.eqb Pos.eqb EVP_CIPH_CBC_MODE EVP_CIPH_CTR_MODE EVP_CIPH_OFB_MODE EVP_CIPH_ECB_MODE].
  - split; [by apply ecb_length | by apply ecb_inverse].
  - destruct Hd as [n Hn]. change (width EVP_CIPH_CBC_MODE) with 16%nat in Hn. assert (length m / 16 = n)%nat as -> by (rewrite Hn; apply Nat.div_mul; lia).
    assert (length (cbc_enc (E key) n iv m) = length m) as Hl by (rewrite cbc_enc_length by first [done | lia]; lia). rewrite Hl. split; [done |].
    assert (length m / 16 = n)%nat as -> by (rewrite Hn; apply Nat.div_mul; lia). rewrite (cbc_inverse (E key) (D key)) by first [done | lia]. done.
  - assert (length m <= 16 * blocks_of (length m))%nat as Hbl by (unfold blocks_of; pose proof (Nat.div_mod_eq (length m + 15) 16); pose proof (Nat.mod_upper_bound (length m + 15) 16 ltac:(lia)); lia).
    assert (length (take (length m) (ctr_ks (E key) (be_value iv) (blocks_of (length m)))) = length m) as Hl by (rewrite length_take, ctr_ks_length by done; lia).
    rewrite length_xor by done. split; [done | by rewrite xor_cancel].
  - pose proof (ofb_inverse (E key) (mk_ofb iv 0) m) as H. rewrite H. split; [| done]. apply (ofb_stream_full (E key) (mk_ofb iv 0) m HE). split; [done | cbn; lia].
Qed.
End Aes.

(** * A platform for the examples *)

Definition seq_bytes (n : nat) : bytes := Z.of_nat <$> seq 0 n.

Definition sample_impl : aes_impl bytes :=
  mk_impl bytes (fun key _ => (0, key)) (fun key _ => (0, key)) (fun x _ => sample_block x) (fun x _ => sample_block x)
    (fun x _ iv enc => cbc_spec (fun _ => sample_block) (fun _ => sample_block) [] enc iv x) (fun x n _ iv => sample_ctr32 x n iv).

Definition sample_platform (hw vp bs build : bool) : platform bytes :=
  mk_platform bytes hw vp (vp && bs) build build build build sample_impl sample_impl sample_impl
    (fun x _ _ => ecb_spec sample_block x) id id (cbc_encrypt sample_impl) (ctr32_encrypt_blocks sample_impl).

Lemma sample_aes_ok hw vp bs build : AesOk (sample_platform hw vp bs build) (fun _ => sample_block) (fun _ => sample_block).
Proof.
  assert (impl_ok (fun _ => sample_block) (fun _ => sample_block) sample_impl) as Hi.
  { intros key Hk. split; eexists; split_and!; try done. apply sample_ctr32_ok. }
  split; try done; cbn.
  - intros key _. apply sample_cipher.
  - intros [? _]%andb_true_iff. done.
  - intros key k _ _ _. apply sample_ctr32_ok.
Qed.

(** * Properties *)

(** C9: From the initialization of a context to the last call, each of the twelve AES ciphers in
    ECB, CBC, CTR and OFB mode computes its mode of AES, on every platform and for every way to
    cut the message into updates: encryption gives the mode of the padded message (or fails,
    when padding is off and the message is not whole blocks), and decryption gives the message
    without its padding, or fails exactly when the length or the padding is wrong. *)
Theorem evp_aes_exact {K : Type} (P : platform K) (E D : bytes -> bytes -> bytes) (c : EVP_CIPHER) (fresh : EVP_AES_KEY) (ctx : EVP_CIPHER_CTX) (key iv : bytes) (padding : bool) (xs : list bytes) :
  AesOk P E D -> In c aes_ciphers -> valid_key key -> len key = c_key_len c -> ctx_wf ctx -> is_block iv ->
  Forall (int_ok (width (EVP_CIPHER_mode c))) xs -> Forall bytes_ok xs ->
  let mode := EVP_CIPHER_mode c in let m := concat xs in
  encrypt_all P c fresh ctx key iv padding xs = option_map (enc_spec E mode key iv) (pad (width mode) (negb padding) m) /\
  decrypt_all P c fresh ctx key iv padding xs =
    (if (length m mod width mode =? 0)%nat then unpad (width mode) (negb padding) (dec_spec E D mode key iv m) else None).
Proof.
  intros HA Hc Hk Hkl Hwf Hi Hint Hok. cbv zeta. split; [by apply (encrypt_all_spec P E D) | by apply (decrypt_all_spec P E D)].
Qed.

(** A context that was never used. *)
Definition new_ctx : EVP_CIPHER_CTX := EVP_CIPHER_CTX_init (D := EVP_AES_KEY (K := bytes)).

Definition no_dat : EVP_AES_KEY (K := bytes) := mk_dat [] None NoStream.

Lemma evp_aes_exact_witness :
  let xs := [[1; 2; 3]; []; seq_bytes 30] in
  let iv := replicate 16 7 in
  let key := replicate 16 9 in
  encrypt_all (sample_platform true false false true) EVP_aes_128_cbc no_dat new_ctx key iv true xs =
    Some (cbc_enc sample_block 3 iv (concat xs ++ replicate 15 15)).
Proof.
  destruct (evp_aes_exact (sample_platform true false false true) (fun _ => sample_block) (fun _ => sample_block) EVP_aes_128_cbc no_dat new_ctx (replicate 16 9) (replicate 16 7) true [[1; 2; 3]; []; seq_bytes 30]) as [H _].
  - apply sample_aes_ok.
  - left. reflexivity.
  - split; [left; reflexivity | apply bytes_ok_replicate; vm_compute; split; congruence].
  - reflexivity.
  - repeat split; reflexivity.
  - split; [reflexivity | apply bytes_ok_replicate; vm_compute; split; congruence].
  - repeat (apply List.Forall_cons; [right; vm_compute; congruence |]). apply List.Forall_nil.
  - repeat constructor; vm_compute; congruence.
  - cbv zeta. rewrite H. vm_compute. reflexivity.
Defined.

(** C8: What one machine encrypts, another one decrypts, however each of them cuts its input into
    updates, whichever implementations of AES they have and whatever their contexts were used
    for before; and with padding every message can be encrypted. *)
Theorem evp_aes_roundtrip {K K' : Type} (P : platform K) (P' : platform K') (E D : bytes -> bytes -> bytes) (c : EVP_CIPHER) (fresh : EVP_AES_KEY) (fresh' : EVP_AES_KEY)
  (ctx : EVP_CIPHER_CTX) (ctx' : EVP_CIPHER_CTX) (key iv : bytes) (padding : bool) (xs ys : list bytes) :
  AesOk P E D -> AesOk P' E D -> In c aes_ciphers -> valid_key key -> len key = c_key_len c -> ctx_wf ctx -> ctx_wf ctx' -> is_block iv ->
  Forall (int_ok (width (EVP_CIPHER_mode c))) xs -> Forall bytes_ok xs -> Forall (int_ok (width (EVP_CIPHER_mode c))) ys -> Forall bytes_ok ys ->
  (padding = true -> exists ct, encrypt_all P c fresh ctx key iv padding xs = Some ct) /\
  (encrypt_all P c fresh ctx key iv padding xs = Some (concat ys) -> decrypt_all P' c fresh' ctx' key iv padding ys = Some (concat xs)).
Proof.
  intros HA HA' Hc Hk Hkl Hwf Hwf' Hi Hix Hox Hiy Hoy. rewrite (encrypt_all_spec P E D), (decrypt_all_spec P' E D) by done. cbv zeta.
  destruct (aes_cipher_facts c Hc) as (Hm & Hw & Hp & _). set (mode := EVP_CIPHER_mode c) in *.
  pose proof (aes_cipher_mode P E D mode 1 key Hk Hm ltac:(auto) c eq_refl Hw Hp) as HM. split.
  - intros ->. unfold pad. cbn [negb]. destruct (width mode =? 1)%nat; by eexists.
  - destruct (pad (width mode) (negb padding) (concat xs)) as [m |] eqn:Ep; [| done]. cbn [option_map]. intros [= <-].
    destruct (unpad_pad (aes_method P) c (width mode) _ _ _ (HM := HM) _ _ _ Ep) as [Hup Hmod].
    assert (Nat.divide (width mode) (length m)) as Hd by (apply Nat.Lcm0.mod_divide; exact Hmod).
    assert (bytes_ok m) as Hmo by (eapply (pad_bytes (aes_method P) c (width mode) _ _ _ (HM := HM)); [exact Ep | by apply concat_ok]).
    destruct (dec_enc_spec P E D mode key iv m Hk Hm Hi Hmo Hd) as [Hl ->]. rewrite Hl, Hmod. exact Hup.
Qed.

Lemma evp_aes_roundtrip_witness :
  let xs := [seq_bytes 30; [5]] in
  let iv := replicate 12 7 ++ replicate 4 255 in
  let key := replicate 32 9 in
  let ct := default [] (encrypt_all (sample_platform false true true true) EVP_aes_256_ctr no_dat new_ctx key iv true xs) in
  decrypt_all (sample_platform false false false true) EVP_aes_256_ctr no_dat new_ctx key iv true [take 4 ct; drop 4 ct] = Some (concat xs).
Proof.
  cbv zeta. set (ct := default [] _). vm_compute in ct.
  apply (evp_aes_roundtrip (sample_platform false true true true) (sample_platform false false false true) (fun _ => sample_block) (fun _ => sample_block) EVP_aes_256_ctr no_dat no_dat new_ctx new_ctx
    (replicate 32 9) (replicate 12 7 ++ replicate 4 255) true [seq_bytes 30; [5]] [take 4 ct; drop 4 ct]).
  - apply sample_aes_ok.
  - apply sample_aes_ok.
  - do 9 right. left. reflexivity.
  - split; [do 2 right; reflexivity | apply bytes_ok_replicate; vm_compute; split; congruence].
  - reflexivity.
  - repeat split; reflexivity.
  - repeat split; reflexivity.
  - split; [reflexivity | repeat constructor; vm_compute; congruence].
  - repeat (apply List.Forall_cons; [left; reflexivity |]). apply List.Forall_nil.
  - repeat constructor; vm_compute; congruence.
  - repeat (apply List.Forall_cons; [left; reflexivity |]). apply List.Forall_nil.
  - subst ct. repeat constructor; vm_compute; congruence.
  - vm_compute. reflexivity.
Defined.
End EvpAes.
