(* ===== verification/Err.v ===== *)
(** The error queue of a thread (crypto/err/err.c): a ring of sixteen slots that own the text
    of their errors, marks, suppression scopes and saved states.

    The strings allocated with [malloc] live in a heap; a string that is freed without being
    allocated is undefined behaviour, and the operation returns [None].  The record of the
    thread and the arrays of the saved states are values. *)

From S2P Require Import Prelude Store.

Open Scope Z_scope.
Open Scope c_scope.

Module Err.

Definition ERR_NUM_ERRORS : nat := 16.
Definition ERR_LIB_SYS : Z := 2.
Definition ERR_FLAG_STRING : Z := 1.
Definition ERR_FLAG_MALLOCED : Z := 2.
Definition SIZE_MAX : Z := 2 ^ 64 - 1.

Definition ERR_GET_LIB (packed_error : Z) : Z := Z.land (Z.shiftr packed_error 24) 0xff.
Definition ERR_GET_REASON (packed_error : Z) : Z := Z.land packed_error 0xfff.
Definition ERR_PACK (lib reason : Z) : Z := Z.lor (Z.shiftl (Z.land (u32 lib) 0xff) 24) (Z.land (u32 reason) 0xfff).

Record err_error_st := mk_error { file : option bytes; data : option nat; packed : Z; line : Z; mark : bool }.
Definition no_error : err_error_st := mk_error None None 0 0 false.

Definition set_data d e := mk_error (file e) d (packed e) (line e) (mark e).
Definition set_error_mark m e := mk_error (file e) (data e) (packed e) (line e) m.

Record ERR_STATE := mk_state { errors : list err_error_st; top : nat; bottom : nat; to_free : option nat; suppress : Z }.

Definition set_errors v s := mk_state v (top s) (bottom s) (to_free s) (suppress s).
Definition set_top v s := mk_state (errors s) v (bottom s) (to_free s) (suppress s).
Definition set_bottom v s := mk_state (errors s) (top s) v (to_free s) (suppress s).
Definition set_to_free v s := mk_state (errors s) (top s) (bottom s) v (suppress s).
Definition set_suppress v s := mk_state (errors s) (top s) (bottom s) (to_free s) v.

Definition new_state : ERR_STATE := mk_state (replicate ERR_NUM_ERRORS no_error) 0 0 None 0.

(** * The heap *)

Definition prog := Store.prog bytes.

Definition malloc_copy (ok : bool) (text : bytes) : prog (option nat) := fun h =>
  if ok then let p := fresh (dom h) in Some (Some p, <[p := text]> h) else Some (None, h).

Definition free (p : option nat) : prog unit := fun h =>
  match p with
  | None => Some (tt, h)
  | Some p => match h !! p with Some _ => Some (tt, delete p h) | None => None end
  end.

Definition strdup_libc_malloc (ok : bool) (p : nat) : prog (option nat) :=
  do text <- r_load p; malloc_copy ok text.

(** * Errors *)

Definition err_clear (error : err_error_st) : prog err_error_st :=
  do_ free (data error); r_ret no_error.

Definition err_copy (ok : bool) (dst src : err_error_st) : prog err_error_st :=
  do _ <- err_clear dst;
  do d <- match data src with Some p => strdup_libc_malloc ok p | None => r_ret None end;
  r_ret (mk_error (file src) d (packed src) (line src) false).

(** [err_clear] on the slot [i]. *)
Definition clear_slot (st : ERR_STATE) (i : nat) : prog ERR_STATE :=
  do error <- r_some (errors st !! i);
  do error <- err_clear error;
  r_ret (set_errors (<[i := error]> (errors st)) st).

Fixpoint clear_slots (st : ERR_STATE) (l : list nat) : prog ERR_STATE :=
  match l with
  | [] => r_ret st
  | i :: l => do st <- clear_slot st i; clear_slots st l
  end.

Definition err_state_free (state : option ERR_STATE) : prog unit :=
  match state with
  | None => r_ret tt
  | Some st => do st <- clear_slots st (seq 0 ERR_NUM_ERRORS); free (to_free st)
  end.

(** The record of the thread, allocated on first use; [ok] says whether that succeeds. *)
Definition err_get_state (ok : bool) (thread : option ERR_STATE) : option ERR_STATE :=
  match thread with
  | Some st => Some st
  | None => if ok then Some new_state else None
  end.

(** * Reading *)

(** What a reading function gives back: the code, [*file] and [*line], [*data] and [*flags]. *)
Record reading := mk_reading { code : Z; where_ : bytes * Z; text : option nat; text_flags : Z }.
Definition no_reading : reading := mk_reading 0 ([], 0) None 0.

(** [want_data] says whether the argument [data] is not NULL. *)
Definition get_error_values (inc last want_data ok : bool) (thread : option ERR_STATE) : prog (reading * option ERR_STATE) :=
  match err_get_state ok thread with
  | None => r_ret (no_reading, thread)
  | Some st =>
      if (bottom st =? top st)%nat then r_ret (no_reading, Some st)
      else
        let i := if last then top st else ((bottom st + 1) mod ERR_NUM_ERRORS)%nat in
        do error <- r_some (errors st !! i);
        let where_ := match file error with None => ([78; 65], 0) | Some f => (f, line error) end in
        do r <-
          (if want_data then
             match data error with
             | None => r_ret (None, 0, st)
             | Some p =>
                 let flags := Z.lor ERR_FLAG_STRING ERR_FLAG_MALLOCED in
                 if inc then
                   do_ free (to_free st);
                   r_ret (Some p, flags, set_errors (<[i := set_data None error]> (errors st)) (set_to_free (Some p) st))
                 else r_ret (Some p, flags, st)
             end
           else r_ret (None, 0, st));
        let '(d, flags, st) := r in
        let got := mk_reading (packed error) where_ d flags in
        if inc then do st <- clear_slot st i; r_ret (got, Some (set_bottom i st)) else r_ret (got, Some st)
  end.

Definition ERR_get_error := get_error_values true false false.
Definition ERR_get_error_line := get_error_values true false false.
Definition ERR_get_error_line_data := get_error_values true false true.
Definition ERR_peek_error := get_error_values false false false.
Definition ERR_peek_error_line := get_error_values false false false.
Definition ERR_peek_error_line_data := get_error_values false false true.
Definition ERR_peek_last_error := get_error_values false true false.
Definition ERR_peek_last_error_line := get_error_values false true false.
Definition ERR_peek_last_error_line_data := get_error_values false true true.

Definition ERR_clear_error (ok : bool) (thread : option ERR_STATE) : prog (option ERR_STATE) :=
  match err_get_state ok thread with
  | None => r_ret thread
  | Some st =>
      do st <- clear_slots st (seq 0 ERR_NUM_ERRORS);
      do_ free (to_free st);
      r_ret (Some (set_top 0 (set_bottom 0 (set_to_free None st))))
  end.

(** [tid] says whether the argument is not NULL, which is a misuse. *)
Definition ERR_remove_thread_state (tid ok : bool) (thread : option ERR_STATE) : prog (option ERR_STATE) :=
  if tid then r_undefined else ERR_clear_error ok thread.

Definition ERR_remove_state := ERR_clear_error.

(** The counter [global_next_library], read and incremented under its lock. *)
Definition ERR_get_next_error_library (global_next_library : Z) : Z * Z := (global_next_library, global_next_library + 1).

(** * Writing *)

Definition ERR_put_error (ok : bool) (errno library reason : Z) (f : option bytes) (ln : Z) (thread : option ERR_STATE) : prog (option ERR_STATE) :=
  match err_get_state ok thread with
  | None => r_ret thread
  | Some st =>
      if negb (suppress st =? 0) then r_ret (Some st)
      else
        let reason := if (library =? ERR_LIB_SYS) && (reason =? 0) then errno else reason in
        let st := set_top ((top st + 1) mod ERR_NUM_ERRORS) st in
        let st := if (top st =? bottom st)%nat then set_bottom ((bottom st + 1) mod ERR_NUM_ERRORS) st else st in
        do st <- clear_slot st (top st);
        r_ret (Some (set_errors (<[top st := mk_error f None (ERR_PACK library reason) (u16 ln) false]> (errors st)) st))
  end.

(** [data] was allocated by the caller. *)
Definition err_set_error_data (ok : bool) (d : nat) (thread : option ERR_STATE) : prog (option ERR_STATE) :=
  match err_get_state ok thread with
  | None => do_ free (Some d); r_ret thread
  | Some st =>
      if (top st =? bottom st)%nat || negb (suppress st =? 0) then do_ free (Some d); r_ret (Some st)
      else
        do error <- r_some (errors st !! top st);
        do_ free (data error);
        r_ret (Some (set_errors (<[top st := set_data (Some d) error]> (errors st)) st))
  end.

(** The sum of the lengths; [None] when it would overflow. *)
Fixpoint vdata_size (total_size : Z) (args : list (option bytes)) : option Z :=
  match args with
  | [] => if total_size =? SIZE_MAX then None else Some (total_size + 1)
  | None :: args => vdata_size total_size args
  | Some substr :: args => if SIZE_MAX - total_size <? len substr then None else vdata_size (total_size + len substr) args
  end.

(** [OPENSSL_strlcat] on strings without their NUL: the new contents and the return value. *)
Definition OPENSSL_strlcat (dst src : bytes) (dst_size : Z) : bytes * Z :=
  let l := Z.min (len dst) dst_size in
  (if len dst <? dst_size then dst ++ take (Z.to_nat (dst_size - len dst - 1)) src else dst, l + len src).

Fixpoint vdata_fill (buf : bytes) (total_size : Z) (args : list (option bytes)) : option bytes :=
  match args with
  | [] => Some buf
  | None :: args => vdata_fill buf total_size args
  | Some substr :: args =>
      let '(buf, n) := OPENSSL_strlcat buf substr total_size in
      if n >=? total_size then None else vdata_fill buf total_size args
  end.

Definition err_add_error_vdata (ok malloc_ok : bool) (args : list (option bytes)) (thread : option ERR_STATE) : prog (option ERR_STATE) :=
  match vdata_size 0 args with
  | None => r_ret thread
  | Some total_size =>
      do p <- malloc_copy malloc_ok [];
      match p with
      | None => r_ret thread
      | Some p =>
          do buf <- r_some (vdata_fill [] total_size args);
          do_ r_modify p (fun _ => buf);
          err_set_error_data ok p thread
      end
  end.

Definition ERR_add_error_data := err_add_error_vdata.

(** [formatted] is what [OPENSSL_vasprintf_internal] makes of the arguments, or its failure. *)
Definition ERR_add_error_dataf (ok : bool) (formatted : option bytes) (thread : option ERR_STATE) : prog (option ERR_STATE) :=
  match formatted with
  | None => r_ret thread
  | Some t =>
      do p <- malloc_copy true t;
      match p with Some p => err_set_error_data ok p thread | None => r_undefined end
  end.

(** The string [t] of the caller is copied; if it is [ERR_FLAG_MALLOCED] the caller's own
    allocator gets it back. *)
Definition ERR_set_error_data (ok malloc_ok : bool) (t : bytes) (flags : Z) (thread : option ERR_STATE) : prog (option ERR_STATE) :=
  if Z.land flags ERR_FLAG_STRING =? 0 then r_undefined
  else
    do copy <- malloc_copy malloc_ok t;
    match copy with Some p => err_set_error_data ok p thread | None => r_ret thread end.

(** * Suppression and marks *)

Definition ERR_suppress_errors_begin (ok : bool) (thread : option ERR_STATE) : bool * option ERR_STATE :=
  match err_get_state ok thread with
  | None => (false, thread)
  | Some st => (true, Some (set_suppress (u32 (suppress st + 1)) st))
  end.

Definition ERR_suppress_errors_end (thread : option ERR_STATE) : prog (option ERR_STATE) :=
  match thread with
  | None => r_ret thread
  | Some st =>
      do_ r_assert (suppress st >? 0);
      r_ret (Some (if suppress st >? 0 then set_suppress (suppress st - 1) st else st))
  end.

Definition ERR_set_mark (ok : bool) (thread : option ERR_STATE) : prog (bool * option ERR_STATE) :=
  match err_get_state ok thread with
  | None => r_ret (false, thread)
  | Some st =>
      if (bottom st =? top st)%nat then r_ret (false, Some st)
      else
        do error <- r_some (errors st !! top st);
        r_ret (true, Some (set_errors (<[top st := set_error_mark true error]> (errors st)) st))
  end.

Fixpoint pop_loop (fuel : nat) (st : ERR_STATE) : prog (bool * ERR_STATE) :=
  match fuel with
  | O => r_undefined
  | S fuel =>
      if negb (bottom st =? top st)%nat then
        do error <- r_some (errors st !! top st);
        if mark error then r_ret (true, set_errors (<[top st := set_error_mark false error]> (errors st)) st)
        else
          do st <- clear_slot st (top st);
          pop_loop fuel (set_top (if (top st =? 0)%nat then ERR_NUM_ERRORS - 1 else top st - 1) st)
      else r_ret (false, st)
  end.

Definition ERR_pop_to_mark (ok : bool) (thread : option ERR_STATE) : prog (bool * option ERR_STATE) :=
  match err_get_state ok thread with
  | None => r_ret (false, thread)
  | Some st => do r <- pop_loop (S ERR_NUM_ERRORS) st; r_ret (fst r, Some (snd r))
  end.

(** * Saved states *)

Definition ERR_SAVE_STATE := list err_error_st.

Fixpoint clear_all (l : list err_error_st) : prog unit :=
  match l with
  | [] => r_ret tt
  | e :: l => do _ <- err_clear e; clear_all l
  end.

Definition ERR_SAVE_STATE_free (state : option ERR_SAVE_STATE) : prog unit :=
  match state with
  | None => r_ret tt
  | Some errors => clear_all errors
  end.

Fixpoint save_loop (oks : nat -> bool) (st : ERR_STATE) (l : list nat) : prog ERR_SAVE_STATE :=
  match l with
  | [] => r_ret []
  | i :: l =>
      let j := ((bottom st + i + 1) mod ERR_NUM_ERRORS)%nat in
      do src <- r_some (errors st !! j);
      do e <- err_copy (oks i) no_error src;
      do rest <- save_loop oks st l;
      r_ret (e :: rest)
  end.

(** [malloc_ok] is the outcome of the two allocations for the saved state. *)
Definition ERR_save_state (ok malloc_ok : bool) (oks : nat -> bool) (thread : option ERR_STATE) : prog (option ERR_SAVE_STATE * option ERR_STATE) :=
  match err_get_state ok thread with
  | None => r_ret (None, thread)
  | Some st =>
      if (top st =? bottom st)%nat then r_ret (None, Some st)
      else if negb malloc_ok then r_ret (None, Some st)
      else
        let num_errors := if (bottom st <=? top st)%nat then (top st - bottom st)%nat else (ERR_NUM_ERRORS + top st - bottom st)%nat in
        do_ r_assert (num_errors <? ERR_NUM_ERRORS)%nat;
        do saved <- save_loop oks st (seq 0 num_errors);
        r_ret (Some saved, Some st)
  end.

Fixpoint restore_loop (oks : nat -> bool) (i : nat) (saved : ERR_SAVE_STATE) (dst : ERR_STATE) : prog ERR_STATE :=
  match saved with
  | [] => r_ret dst
  | src :: saved =>
      do e <- r_some (errors dst !! i);
      do e <- err_copy (oks i) e src;
      restore_loop oks (S i) saved (set_errors (<[i := e]> (errors dst)) dst)
  end.

Definition ERR_restore_state (ok : bool) (oks : nat -> bool) (state : option ERR_SAVE_STATE) (thread : option ERR_STATE) : prog (option ERR_STATE) :=
  let saved := default [] state in
  if (length saved =? 0)%nat then ERR_clear_error ok thread
  else if (ERR_NUM_ERRORS <=? length saved)%nat then r_undefined
  else
    match err_get_state ok thread with
    | None => r_ret thread
    | Some dst =>
        do dst <- restore_loop oks 0 saved dst;
        r_ret (Some (set_bottom (ERR_NUM_ERRORS - 1) (set_top (length saved - 1) dst)))
    end.
End Err.
