(* ===== verification/ErrSpec.v ===== *)
(** The error queue refines a bounded list of errors, and neither leaks nor frees a string
    twice. *)

From S2P Require Import Prelude Store Err.

Open Scope Z_scope.

Module ErrSpec.
Import Err.

(** * The abstract queue *)

Record entry := mk_entry { e_file : option bytes; e_text : option bytes; e_packed : Z; e_line : Z; e_mark : bool }.

(** The errors from the oldest on, the text last given away, the depth of suppression and the
    saved states. *)
Record queue := mk_queue { alive : bool; es : list entry; lent : option bytes; depth : Z; saves : list (list entry) }.

Definition q_empty : queue := mk_queue false [] None 0 [].
Definition set_es v q := mk_queue (alive q) v (lent q) (depth q) (saves q).
Definition set_lent v q := mk_queue (alive q) (es q) v (depth q) (saves q).
Definition set_depth v q := mk_queue (alive q) (es q) (lent q) v (saves q).
Definition set_saves v q := mk_queue (alive q) (es q) (lent q) (depth q) v.

(** At most fifteen errors: the oldest one gives way. *)
Definition push (e : entry) (l : list entry) : list entry := if (length l =? 15)%nat then drop 1 l ++ [e] else l ++ [e].

(** A copy for or from a saved state, whose text can fail to be allocated. *)
Definition copy_entry (ok : bool) (e : entry) : entry := mk_entry (e_file e) (if ok then e_text e else None) (e_packed e) (e_line e) false.
Definition copy_entries (oks : nat -> bool) (l : list entry) : list entry := imap (fun i e => copy_entry (oks i) e) l.

Definition on_last (f : entry -> entry) (l : list entry) : list entry :=
  match reverse l with [] => [] | e :: r => reverse (f e :: r) end.

(** The errors up to the last mark, which is removed, and whether there was one. *)
Fixpoint to_mark (r : list entry) : bool * list entry :=
  match r with
  | [] => (false, [])
  | e :: r => if e_mark e then (true, mk_entry (e_file e) (e_text e) (e_packed e) (e_line e) false :: r) else to_mark r
  end.

(** Reading the oldest error and removing it, or looking at the oldest or the newest one. *)
Inductive kind := Next | PeekFirst | PeekLast.
Definition k_inc k := match k with Next => true | _ => false end.
Definition k_last k := match k with PeekLast => true | _ => false end.

Inductive call :=
| Put (errno library reason : Z) (f : option bytes) (ln : Z)
| Read (k : kind) (want_data : bool)
| Clear
| AddData (malloc_ok : bool) (args : list (option bytes))
| AddDataf (formatted : option bytes)
| SetData (malloc_ok : bool) (t : bytes) (flags : Z)
| SuppressBegin
| SuppressEnd
| SetMark
| PopToMark
| Save (malloc_ok : bool) (oks : nat -> bool)
| Restore (k : nat) (oks : nat -> bool)
| FreeSaved (k : nat).

(** What a caller sees: a code with its place, text and flags, or a flag. *)
Inductive answer :=
| Got (code : Z) (where_ : bytes * Z) (text : option bytes) (flags : Z)
| Flag (b : bool)
| Done.

Definition read_entry (want_data : bool) (e : entry) : answer :=
  Got (e_packed e) (match e_file e with None => ([78; 65], 0) | Some f => (f, e_line e) end)
    (if want_data then e_text e else None) (if want_data && bool_decide (is_Some (e_text e)) then 3 else 0).

Definition set_text (t : bytes) (q : queue) : queue :=
  if negb (depth q =? 0) then q else set_es (on_last (fun e => mk_entry (e_file e) (Some t) (e_packed e) (e_line e) (e_mark e)) (es q)) q.

Definition total (args : list (option bytes)) : bytes := concat (omap id args).

Definition put_entry errno library reason f ln : entry :=
  mk_entry f None (ERR_PACK library (if (library =? ERR_LIB_SYS) && (reason =? 0) then errno else reason)) (u16 ln) false.

(** One call on a queue whose record exists; [None] for a misuse. *)
Definition q_call (c : call) (q : queue) : option (answer * queue) :=
  match c with
  | Put errno library reason f ln => Some (Done, if depth q =? 0 then set_es (push (put_entry errno library reason f ln) (es q)) q else q)
  | Read k want =>
      match (if k_last k then reverse (es q) else es q) with
      | [] => Some (Got 0 ([], 0) None 0, q)
      | e :: _ =>
          Some (read_entry want e,
                if k_inc k then set_es (drop 1 (es q)) (if want && bool_decide (is_Some (e_text e)) then set_lent (e_text e) q else q) else q)
      end
  | Clear => Some (Done, set_lent None (set_es [] q))
  | AddData malloc_ok args => Some (Done, if malloc_ok && (len (total args) <? SIZE_MAX) then set_text (total args) q else q)
  | AddDataf formatted => Some (Done, match formatted with Some t => set_text t q | None => q end)
  | SetData malloc_ok t flags => if Z.land flags ERR_FLAG_STRING =? 0 then None else Some (Done, if malloc_ok then set_text t q else q)
  | SuppressBegin => Some (Flag true, set_depth (u32 (depth q + 1)) q)
  | SuppressEnd => if depth q >? 0 then Some (Done, set_depth (depth q - 1) q) else None
  | SetMark => Some (Flag (negb (length (es q) =? 0)%nat), set_es (on_last (fun e => mk_entry (e_file e) (e_text e) (e_packed e) (e_line e) true) (es q)) q)
  | PopToMark => let '(b, r) := to_mark (reverse (es q)) in Some (Flag b, set_es (reverse r) q)
  | Save malloc_ok oks =>
      if (length (es q) =? 0)%nat || negb malloc_ok then Some (Flag false, q) else Some (Flag true, set_saves (saves q ++ [copy_entries oks (es q)]) q)
  | Restore k oks =>
      match default [] (saves q !! k) with
      | [] => Some (Done, set_lent None (set_es [] q))
      | l => Some (Done, set_es (copy_entries oks l) q)
      end
  | FreeSaved k => Some (Done, set_saves (delete k (saves q)) q)
  end.

(** Without a record, and without memory for one, nothing happens. *)
Definition q_dead (c : call) (q : queue) : option (answer * queue) :=
  match c with
  | Read _ _ => Some (Got 0 ([], 0) None 0, q)
  | SuppressBegin | SetMark | PopToMark | Save _ _ => Some (Flag false, q)
  | SetData _ _ flags => if Z.land flags ERR_FLAG_STRING =? 0 then None else Some (Done, q)
  | FreeSaved k => Some (Done, set_saves (delete k (saves q)) q)
  | _ => Some (Done, q)
  end.

(** A call whose first allocation, if one is needed, has the outcome [ok].  The calls that do
    not look for the record leave it alone. *)
Definition q_step (ok : bool) (c : call) (q : queue) : option (answer * queue) :=
  if alive q then q_call c q
  else
    match c with
    | SuppressEnd | FreeSaved _ => q_dead c q
    | AddData malloc_ok args => if malloc_ok && (len (total args) <? SIZE_MAX) && ok then q_call c (mk_queue true (es q) (lent q) (depth q) (saves q)) else Some (Done, q)
    | AddDataf None => Some (Done, q)
    | SetData false _ _ => q_dead c q
    | _ => if ok then q_call c (mk_queue true (es q) (lent q) (depth q) (saves q)) else q_dead c q
    end.

(** * The calls of err.c *)

Definition world : Type := option ERR_STATE * list ERR_SAVE_STATE.

Definition deref (h : gmap nat bytes) (p : option nat) : option bytes := match p with Some p => h !! p | None => None end.

Definition reading_answer (h : gmap nat bytes) (r : reading) : answer := Got (code r) (where_ r) (deref h (text r)) (text_flags r).

(** A call: what the caller sees when it returns, and the new world. *)
Definition step (ok : bool) (c : call) (w : world) : prog (answer * world) := fun h =>
  let '(thread, saved) := w in
  let done (p : prog (option ERR_STATE)) := match p h with Some (thread, h) => Some (Done, (thread, saved), h) | None => None end in
  match c with
  | Put errno library reason f ln => done (ERR_put_error ok errno library reason f ln thread)
  | Read k want =>
      match get_error_values (k_inc k) (k_last k) want ok thread h with Some (r, thread, h) => Some (reading_answer h r, (thread, saved), h) | None => None end
  | Clear => done (ERR_clear_error ok thread)
  | AddData malloc_ok args => done (ERR_add_error_data ok malloc_ok args thread)
  | AddDataf formatted => done (ERR_add_error_dataf ok formatted thread)
  | SetData malloc_ok t flags => done (ERR_set_error_data ok malloc_ok t flags thread)
  | SuppressBegin => let '(b, thread) := ERR_suppress_errors_begin ok thread in Some (Flag b, (thread, saved), h)
  | SuppressEnd => done (ERR_suppress_errors_end thread)
  | SetMark => match ERR_set_mark ok thread h with Some (b, thread, h) => Some (Flag b, (thread, saved), h) | None => None end
  | PopToMark => match ERR_pop_to_mark ok thread h with Some (b, thread, h) => Some (Flag b, (thread, saved), h) | None => None end
  | Save malloc_ok oks =>
      match ERR_save_state ok malloc_ok oks thread h with
      | Some (Some s, thread, h) => Some (Flag true, (thread, saved ++ [s]), h)
      | Some (None, thread, h) => Some (Flag false, (thread, saved), h)
      | None => None
      end
  | Restore k oks => done (ERR_restore_state ok oks (saved !! k) thread)
  | FreeSaved k => match ERR_SAVE_STATE_free (saved !! k) h with Some (_, h) => Some (Done, (thread, delete k saved), h) | None => None end
  end.

(** Sequences of calls, each with the outcome of its first allocation. *)
Fixpoint q_steps (cs : list (bool * call)) (q : queue) : option (list answer * queue) :=
  match cs with
  | [] => Some ([], q)
  | (ok, c) :: cs =>
      match q_step ok c q with
      | None => None
      | Some (a, q) => match q_steps cs q with Some (l, q) => Some (a :: l, q) | None => None end
      end
  end.

Fixpoint steps (cs : list (bool * call)) (w : world) : prog (list answer * world) := fun h =>
  match cs with
  | [] => Some ([], w, h)
  | (ok, c) :: cs =>
      match step ok c w h with
      | None => None
      | Some (a, w, h) => match steps cs w h with Some (l, w, h) => Some (a :: l, w, h) | None => None end
      end
  end.

(** * Ownership *)

(** The strings of the heap are those of [l], each once. *)
Definition owns (l : list nat) (h : gmap nat bytes) : Prop := NoDup l /\ forall p, p ∈ l <-> is_Some (h !! p).

#[export] Instance owns_proper : Proper (Permutation ==> eq ==> iff) owns.
Proof. intros l l' Hl h ? <-. unfold owns. rewrite Hl. split; intros [H1 H2]; (split; [done |]); intros p; [rewrite <- Hl | rewrite Hl]; apply H2. Qed.

(** The strings of [l] are the same in both heaps. *)
Definition agree (l : list nat) (h h' : gmap nat bytes) : Prop := forall p, p ∈ l -> h' !! p = h !! p.

Lemma agree_refl l h : agree l h h.
Proof. done. Qed.

Lemma agree_trans l h1 h2 h3 : agree l h1 h2 -> agree l h2 h3 -> agree l h1 h3.
Proof. intros H1 H2 p Hp. by rewrite H2, H1. Qed.

Lemma agree_incl l l' h h' : (forall p, p ∈ l' -> p ∈ l) -> agree l h h' -> agree l' h h'.
Proof. intros Hi H p Hp. by apply H, Hi. Qed.

Definition opt (p : option nat) : list nat := match p with Some p => [p] | None => [] end.

Lemma free_spec d l h : owns (opt d ++ l) h -> exists h', free d h = Some (tt, h') /\ owns l h' /\ agree l h h'.
Proof.
  destruct d as [p |]; [| by exists h]. cbn [opt app]. intros [Hn Hd]. apply NoDup_cons in Hn as [Hp Hn]. assert (is_Some (h !! p)) as [t Ht] by (apply Hd; left).
  exists (delete p h). unfold free. rewrite Ht. split; [done |]. split.
  - split; [done |]. intros q. destruct (decide (q = p)) as [-> | Hq].
    + rewrite lookup_delete_eq. split; [done | intros [? [=]]].
    + rewrite lookup_delete_ne by done. rewrite <- Hd, elem_of_cons. tauto.
  - intros q Hq. apply lookup_delete_ne. by intros <-.
Qed.

Lemma malloc_spec t l h : owns l h -> exists p h', malloc_copy true t h = Some (Some p, h') /\ owns (p :: l) h' /\ h' !! p = Some t /\ agree l h h'.
Proof.
  intros [Hn Hd]. set (p := fresh (dom h)). assert (p ∉ dom h) as Hp by apply is_fresh. assert (p ∉ l) as Hpl by (intros H; apply Hd in H; apply Hp; by apply elem_of_dom).
  exists p, (<[p := t]> h). split; [done |]. split; [split; [by apply NoDup_cons |] | split; [by rewrite lookup_insert_eq |]].
  - intros q. rewrite elem_of_cons. destruct (decide (q = p)) as [-> | Hq]; [rewrite lookup_insert_eq; naive_solver |]. rewrite lookup_insert_ne by done. rewrite <- Hd. tauto.
  - intros q Hq. apply lookup_insert_ne. by intros ->.
Qed.

(** ** The strings of errors *)

Definition ptrs (l : list err_error_st) : list nat := omap data l.

Lemma ptrs_app l l' : ptrs (l ++ l') = ptrs l ++ ptrs l'.
Proof. apply omap_app. Qed.

Lemma ptrs_cons e l : ptrs (e :: l) = opt (data e) ++ ptrs l.
Proof. unfold ptrs. cbn. by destruct (data e). Qed.

(** The other slots. *)
Definition others (i : nat) (l : list err_error_st) : list err_error_st := take i l ++ drop (S i) l.

Lemma ptrs_slot i l e : l !! i = Some e -> ptrs l ≡ₚ opt (data e) ++ ptrs (others i l).
Proof.
  intros H. rewrite <- (take_drop_middle l i e H) at 1. unfold others. rewrite !ptrs_app, ptrs_cons, app_assoc, (Permutation_app_comm (ptrs (take i l))). by rewrite <- app_assoc.
Qed.

Lemma ptrs_insert i l e : (i < length l)%nat -> ptrs (<[i := e]> l) ≡ₚ opt (data e) ++ ptrs (others i l).
Proof.
  intros H. rewrite (ptrs_slot i (<[i := e]> l) e) by (by apply list_lookup_insert_eq). unfold others. by rewrite take_insert_ge, drop_insert_lt by lia.
Qed.

(** What an error says, with its text. *)
Definition view (h : gmap nat bytes) (e : err_error_st) : entry := mk_entry (file e) (deref h (data e)) (packed e) (line e) (mark e).

Lemma view_agree l h h' x : agree l h h' -> (forall p, p ∈ ptrs x -> p ∈ l) -> map (view h') x = map (view h) x.
Proof.
  intros Ha Hi. induction x as [| e x IH]; [done |]. cbn [map]. rewrite ptrs_cons in Hi. rewrite IH by (intros p Hp; apply Hi, elem_of_app; by right). f_equal.
  unfold view, deref. destruct (data e) as [p |]; [| done]. rewrite Ha; [done |]. apply Hi, elem_of_app. left. by left.
Qed.

(** * The ring *)

#[export] Instance error_inhabited : Inhabited err_error_st := populate no_error.

(** [Nat.modulo] for [lia]. *)
Ltac mod16 :=
  repeat match goal with
  | |- context [(?a mod 16)%nat] => let q := fresh "q" in let r := fresh "r" in pose proof (Nat.div_mod_eq a 16); pose proof (Nat.mod_upper_bound a 16 ltac:(lia)); set (q := (a / 16)%nat) in *; set (r := (a mod 16)%nat) in *; clearbody q r
  | H : context [(?a mod 16)%nat] |- _ => let q := fresh "q" in let r := fresh "r" in pose proof (Nat.div_mod_eq a 16); pose proof (Nat.mod_upper_bound a 16 ltac:(lia)); set (q := (a / 16)%nat) in *; set (r := (a mod 16)%nat) in *; clearbody q r
  end; lia.

(** The slot of the error [k] places after the oldest one. *)
Definition slot (b k : nat) : nat := ((b + 1 + k) mod 16)%nat.
Definition win (l : list err_error_st) (b n : nat) : list err_error_st := map (fun k => l !!! slot b k) (seq 0 n).

Lemma slot_lt b k : (slot b k < 16)%nat.
Proof. apply Nat.mod_upper_bound. lia. Qed.

Lemma slot_inj b k k' : (k < 16)%nat -> (k' < 16)%nat -> slot b k = slot b k' -> k = k'.
Proof. unfold slot. intros. mod16. Qed.

Lemma slot_slot b k : slot (slot b 0) k = slot b (S k).
Proof. unfold slot. rewrite Nat.add_0_r. replace (b + 1 + S k)%nat with (b + 1 + 1 + k)%nat by lia. rewrite <- (Nat.add_assoc (b + 1)), <- (Nat.add_assoc ((b + 1) mod 16)). by rewrite Nat.Div0.add_mod_idemp_l. Qed.

Lemma length_win l b n : length (win l b n) = n.
Proof. unfold win. by rewrite length_map, length_seq. Qed.

Lemma win_snoc l b n : win l b (S n) = win l b n ++ [l !!! slot b n].
Proof. unfold win. by rewrite seq_S, map_app. Qed.

Lemma win_cons l b n : win l b (S n) = (l !!! slot b 0) :: win l (slot b 0) n.
Proof. unfold win. cbn [seq map]. f_equal. rewrite <- seq_shift, map_map. apply map_ext. intros k. by rewrite slot_slot. Qed.

Lemma win_insert l b n i e : (forall k, (k < n)%nat -> slot b k <> i) -> win (<[i := e]> l) b n = win l b n.
Proof.
  intros H. unfold win. apply map_ext_in. intros k Hk. apply in_seq in Hk. specialize (H k ltac:(lia)). by apply list_lookup_total_insert_ne.
Qed.

Lemma win_insert_last l b n e : length l = 16%nat -> (n < 16)%nat -> win (<[slot b n := e]> l) b (S n) = win l b n ++ [e].
Proof.
  intros Hl Hn. rewrite win_snoc, win_insert.
  - pose proof (slot_lt b n). by rewrite list_lookup_total_insert_eq by lia.
  - intros k Hk E. apply slot_inj in E; lia.
Qed.

(** The strings of a window. *)
Lemma ptrs_other l i j e p : l !! j = Some e -> j <> i -> data e = Some p -> p ∈ ptrs (others i l).
Proof.
  intros Hj Hne Hp. unfold ptrs, others. apply list_elem_of_omap. exists e. split; [| done]. apply elem_of_app.
  destruct (Nat.lt_total j i) as [H | [H | H]]; [left | done | right].
  - apply list_elem_of_lookup. exists j. by rewrite lookup_take_lt.
  - apply list_elem_of_lookup. exists (j - S i)%nat. rewrite lookup_drop. replace (S i + (j - S i))%nat with j by lia. done.
Qed.

Lemma ptrs_win l b n i p : length l = 16%nat -> (forall k, (k < n)%nat -> slot b k <> i) -> p ∈ ptrs (win l b n) -> p ∈ ptrs (others i l).
Proof.
  intros Hl Hk Hp. unfold ptrs in Hp. apply list_elem_of_omap in Hp as (e & He & Hd). unfold win in He. apply list_elem_of_In, in_map_iff in He as (k & <- & Hin). apply in_seq in Hin.
  apply (ptrs_other l i (slot b k) (l !!! slot b k)); [| apply Hk; lia | done]. apply list_lookup_lookup_total_lt. rewrite Hl. apply slot_lt.
Qed.

(** A record that holds the errors [L] and the text [T] given away; the strings [R] of the heap
    belong to others. *)
Record inv (st : ERR_STATE) (h : gmap nat bytes) (L : list entry) (T : option bytes) (R : list nat) : Prop := {
  inv_slots : length (errors st) = 16%nat;
  inv_bottom : (bottom st < 16)%nat;
  inv_short : (length L <= 15)%nat;
  inv_top : top st = ((bottom st + length L) mod 16)%nat;
  inv_view : map (view h) (win (errors st) (bottom st) (length L)) = L;
  inv_lent : deref h (to_free st) = T;
  inv_owns : owns (ptrs (errors st) ++ opt (to_free st) ++ R) h
}.

Lemma inv_empty st h L T R : inv st h L T R -> (bottom st =? top st)%nat = (length L =? 0)%nat.
Proof. intros [_ Hb Hn -> _ _ _]. apply eq_true_iff_eq. rewrite !Nat.eqb_eq. mod16. Qed.

Lemma inv_top_slot st h L T R : inv st h L T R -> (0 < length L)%nat -> top st = slot (bottom st) (length L - 1).
Proof. intros [_ Hb Hn -> _ _ _] H. unfold slot. f_equal. lia. Qed.

(** ** Changes of a record *)

Ltac fields := cbn [set_errors set_top set_bottom set_to_free set_suppress errors top bottom to_free suppress err_get_state].

Lemma inv_drop_first l t b f s h e L T R : inv (mk_state l t b f s) h (e :: L) T R -> inv (mk_state l t (slot b 0) f s) h L T R.
Proof.
  intros [Hl Hb Hn Ht Hv Hf Ho]. cbn [errors top bottom to_free length] in *. rewrite win_cons in Hv. cbn [map] in Hv. injection Hv as _ Hv.
  split; cbn [errors top bottom to_free]; [done | apply slot_lt | lia | | done | done | done]. rewrite Ht. unfold slot. rewrite Nat.Div0.add_mod_idemp_l. f_equal. lia.
Qed.

Lemma inv_drop_last l t t' b f s h e L T R : inv (mk_state l t b f s) h (L ++ [e]) T R -> t' = ((b + length L) mod 16)%nat -> inv (mk_state l t' b f s) h L T R.
Proof.
  intros [Hl Hb Hn Ht Hv Hf Ho] ->. cbn [errors top bottom to_free] in *. rewrite length_app, Nat.add_1_r in Hv, Hn. rewrite win_snoc, map_app in Hv.
  apply app_inj_2 in Hv as [Hv _]; [| done]. by split; [| | cbn in *; lia | ..].
Qed.

(** The error in the slot after the last one is not in the window. *)
Lemma slot_after b n k : (n < 16)%nat -> (k < n)%nat -> slot b k <> slot b n.
Proof. intros Hn Hk E. apply slot_inj in E; lia. Qed.

(** Writing a slot outside the window, with a change of the text given away. *)
Lemma inv_outside l t b f f' s h h' i e L T T' R :
  inv (mk_state l t b f s) h L T R -> (i < 16)%nat -> (forall k, (k < length L)%nat -> slot b k <> i) ->
  owns (opt (data e) ++ ptrs (others i l) ++ opt f' ++ R) h' -> agree (ptrs (others i l)) h h' -> deref h' f' = T' ->
  inv (mk_state (<[i := e]> l) t b f' s) h' L T' R.
Proof.
  intros [Hl Hb Hn Ht Hv Hf Ho] Hi Hk Ho' Ha Hd. cbn [errors top bottom to_free] in *. split; cbn [errors top bottom to_free]; [by rewrite length_insert | done | done | done | | done |].
  - rewrite win_insert by done. rewrite (view_agree _ _ _ _ Ha); [done |]. intros p. apply ptrs_win; done.
  - rewrite ptrs_insert by lia. by rewrite <- app_assoc.
Qed.

(** Writing the slot after the window. *)
Lemma inv_write l t b f s h h' e L T R :
  inv (mk_state l t b f s) h L T R -> (length L < 15)%nat ->
  owns (opt (data e) ++ ptrs (others (slot b (length L)) l) ++ opt f ++ R) h' -> agree (ptrs (others (slot b (length L)) l) ++ opt f) h h' ->
  inv (mk_state (<[slot b (length L) := e]> l) (slot b (length L)) b f s) h' (L ++ [view h' e]) T R.
Proof.
  intros Hinv Hlt Ho Ha. pose proof Hinv as [Hl Hb _ _ _ Hf _]. cbn [errors bottom to_free] in *.
  assert (inv (mk_state (<[slot b (length L) := e]> l) t b f s) h' L T R) as [Hl' _ Hn' _ Hv' Hf' Ho'].
  { eapply inv_outside; [exact Hinv | apply slot_lt | intros k Hk; apply slot_after; lia | done | by eapply agree_incl; [| done]; intros p Hp; apply elem_of_app; left |].
    rewrite <- Hf. unfold deref. destruct f as [p |]; [| done]. apply Ha, elem_of_app. right. by left. }
  cbn [errors top bottom to_free] in *. split; cbn [errors top bottom to_free]; rewrite ?length_app; cbn [length]; try done; [lia | unfold slot; f_equal; lia |].
  rewrite Nat.add_1_r, win_insert_last, map_app by lia. rewrite win_insert in Hv' by (intros k Hk; apply slot_after; lia). by rewrite Hv'.
Qed.

(** The last error is in the slot [top]. *)
Lemma inv_last l t b f s h e L T R :
  inv (mk_state l t b f s) h (L ++ [e]) T R -> t = slot b (length L) /\ (length L < 15)%nat /\ exists x, l !! t = Some x /\ view h x = e.
Proof.
  intros [Hl Hb Hn Ht Hv Hf Ho]. cbn [errors top bottom to_free] in *. rewrite length_app in Ht, Hn, Hv. cbn [length] in *. rewrite Nat.add_1_r, win_snoc, map_app in Hv.
  apply app_inj_2 in Hv as [_ Hv]; [| done]. cbn [map] in Hv. injection Hv as Hv. assert (t = slot b (length L)) as E by (rewrite Ht; unfold slot; f_equal; lia).
  split; [done |]. split; [lia |]. exists (l !!! slot b (length L)). split; [| done]. rewrite E. apply list_lookup_lookup_total_lt. rewrite Hl. apply slot_lt.
Qed.

(** The first error is in the slot after [bottom]. *)
Lemma inv_first l t b f s h e L T R :
  inv (mk_state l t b f s) h (e :: L) T R -> exists x, l !! slot b 0 = Some x /\ view h x = e.
Proof.
  intros [Hl Hb Hn Ht Hv Hf Ho]. cbn [errors top bottom to_free length] in *. rewrite win_cons in Hv. cbn [map] in Hv. injection Hv as Hv _.
  exists (l !!! slot b 0). split; [| done]. apply list_lookup_lookup_total_lt. rewrite Hl. apply slot_lt.
Qed.

(** Clearing a slot frees its text. *)
Lemma clear_slot_spec l t b f s i F h :
  length l = 16%nat -> (i < 16)%nat -> owns (ptrs l ++ F) h ->
  exists h', clear_slot (mk_state l t b f s) i h = Some (mk_state (<[i := no_error]> l) t b f s, h') /\ owns (ptrs (others i l) ++ F) h' /\ agree (ptrs (others i l) ++ F) h h'.
Proof.
  intros Hl Hi Ho. destruct (lookup_lt_is_Some_2 l i ltac:(lia)) as [e He]. rewrite (ptrs_slot i l e He), <- app_assoc in Ho.
  destruct (free_spec _ _ _ Ho) as (h' & Hf & Ho' & Ha). exists h'. split; [| done].
  unfold clear_slot, err_clear, r_bind, r_some, r_ret. cbn [errors]. rewrite He, Hf. done.
Qed.

(** * The operations *)

(** The record after an operation: what it holds, whose strings were left alone, and the depth
    of suppression. *)
Definition holds (h : gmap nat bytes) (L : list entry) (T : option bytes) (R : list nat) (d : Z) (st : ERR_STATE) (h' : gmap nat bytes) : Prop :=
  inv st h' L T R /\ agree R h h' /\ suppress st = d.

Lemma agree_app l l' h h' : agree (l ++ l') h h' <-> agree l h h' /\ agree l' h h'.
Proof. unfold agree. setoid_rewrite elem_of_app. naive_solver. Qed.

Lemma new_state_inv h R : owns R h -> inv new_state h [] None R.
Proof. intros H. by split; cbn; try lia. Qed.

Lemma inv_top_empty l t b f s h L T R : inv (mk_state l t b f s) h L T R -> (t =? b)%nat = (length L =? 0)%nat.
Proof. intros H. rewrite Nat.eqb_sym. apply (inv_empty _ _ _ _ _ H). Qed.

(** Clearing the slot after the window and writing an error without a text there. *)
Lemma write_slot l t b f s h e L T R : inv (mk_state l t b f s) h L T R -> (length L < 15)%nat -> data e = None ->
  exists h', clear_slot (mk_state l (slot b (length L)) b f s) (slot b (length L)) h = Some (mk_state (<[slot b (length L) := no_error]> l) (slot b (length L)) b f s, h') /\
             holds h (L ++ [view h' e]) T R s (mk_state (<[slot b (length L) := e]> l) (slot b (length L)) b f s) h'.
Proof.
  intros Hi Hn He. pose proof Hi as [Hl _ _ _ _ _ Ho]. cbn [errors to_free] in *.
  destruct (clear_slot_spec l (slot b (length L)) b f s (slot b (length L)) _ h Hl (slot_lt _ _) Ho) as (h' & Hc & Ho' & Ha). exists h'. split; [done |]. rewrite !agree_app in Ha. destruct Ha as (Ha1 & Ha2 & Ha3).
  split; [| split; [done | done]]. eapply inv_write; [exact Hi | done | by rewrite He | by apply agree_app].
Qed.

Lemma put_spec ok errno library reason file ln l t b f h L T R : inv (mk_state l t b f 0) h L T R ->
  exists st h', ERR_put_error ok errno library reason file ln (Some (mk_state l t b f 0)) h = Some (Some st, h') /\
                holds h (push (put_entry errno library reason file ln) L) T R 0 st h'.
Proof.
  intros Hi. pose proof Hi as [_ Hb Hn Ht _ _ _]. cbn [bottom top] in *. set (reason' := if (library =? ERR_LIB_SYS) && (reason =? 0) then errno else reason).
  assert ((t + 1) mod 16 = slot b (length L))%nat as E by (rewrite Ht, Nat.Div0.add_mod_idemp_l; unfold slot; f_equal; lia).
  unfold ERR_put_error. fields. cbn [Z.eqb negb]. fold reason'. unfold ERR_NUM_ERRORS. rewrite E.
  unfold push. destruct (length L =? 15)%nat eqn:Hf; [apply Nat.eqb_eq in Hf | apply Nat.eqb_neq in Hf].
  - destruct L as [| e0 L]; [done |]. replace (slot b (length (e0 :: L)) =? b)%nat with true by (symmetry; apply Nat.eqb_eq; rewrite Hf; unfold slot; mod16).
    replace (slot b (length (e0 :: L))) with (slot (slot b 0) (length L)) by (cbn [length]; apply slot_slot). cbn [length] in Hf. fields.
    replace ((b + 1) mod 16)%nat with (slot b 0) by (unfold slot; by rewrite Nat.add_0_r).
    destruct (write_slot _ _ _ _ _ _ (mk_error file None (ERR_PACK library reason') (u16 ln) false) _ _ _ (inv_drop_first _ _ _ _ _ _ _ _ _ _ Hi) ltac:(lia) eq_refl) as (h' & Hc & Hh).
    rewrite (bind_eq _ _ _ _ _ Hc). eexists _, _. split; [reflexivity |]. fields. rewrite list_insert_insert_eq. exact Hh.
  - replace (slot b (length L) =? b)%nat with false by (symmetry; apply Nat.eqb_neq; unfold slot; mod16). fields.
    destruct (write_slot _ _ _ _ _ _ (mk_error file None (ERR_PACK library reason') (u16 ln) false) _ _ _ Hi ltac:(lia) eq_refl) as (h' & Hc & Hh).
    rewrite (bind_eq _ _ _ _ _ Hc). eexists _, _. split; [reflexivity |]. fields. rewrite list_insert_insert_eq. exact Hh.
Qed.

(** ** Reading *)

Definition read_flags (d : option nat) : Z := match d with Some _ => 3 | None => 0 end.
Definition reading_of (want : bool) (x : err_error_st) : reading :=
  mk_reading (packed x) (match file x with None => ([78; 65], 0) | Some f => (f, line x) end) (if want then data x else None) (if want then read_flags (data x) else 0).

Lemma reading_of_answer want h x : (forall p, data x = Some p -> is_Some (h !! p)) -> reading_answer h (reading_of want x) = read_entry want (view h x).
Proof.
  intros Hp. unfold reading_answer, reading_of, read_entry, view. cbn [code where_ text text_flags e_packed e_file e_line e_text]. destruct want; [| done].
  destruct (data x) as [p |]; [| done]. destruct (Hp p eq_refl) as [t Ht]. cbn [deref andb read_flags]. rewrite Ht. done.
Qed.

Lemma inv_text l t b f s h L T R i x p : inv (mk_state l t b f s) h L T R -> l !! i = Some x -> data x = Some p -> is_Some (h !! p).
Proof.
  intros [_ _ _ _ _ _ [_ Ho]] Hx Hp. apply Ho. cbn [errors]. apply elem_of_app. left. rewrite (ptrs_slot i l x Hx), Hp. by left.
Qed.

(** Looking at the error in the slot [i]. *)
Lemma peek_spec last want ok l t b f s h L T R i x : inv (mk_state l t b f s) h L T R -> L <> [] ->
  i = (if last : bool then t else slot b 0) -> l !! i = Some x ->
  get_error_values false last want ok (Some (mk_state l t b f s)) h = Some (reading_of want x, Some (mk_state l t b f s), h).
Proof.
  intros Hi HL -> Hx. unfold get_error_values. fields. rewrite Nat.eqb_sym, (inv_top_empty _ _ _ _ _ _ _ _ _ Hi). replace (length L =? 0)%nat with false by (by destruct L).
  replace ((b + 1) mod ERR_NUM_ERRORS)%nat with (slot b 0) by (unfold slot; by rewrite Nat.add_0_r). rewrite (bind_some _ _ _ _ Hx). unfold reading_of, r_bind, r_ret. by destruct want, (data x).
Qed.

(** Taking the oldest error: its slot, and the record without it. *)
Lemma inv_take l t b f s h e L T R : inv (mk_state l t b f s) h (e :: L) T R ->
  exists x, l !! slot b 0 = Some x /\ view h x = e /\ inv (mk_state l t (slot b 0) f s) h L T R /\ (forall k, (k < length L)%nat -> slot (slot b 0) k <> slot b 0) /\ (bottom (mk_state l t b f s) =? t)%nat = false.
Proof.
  intros Hi. destruct (inv_first _ _ _ _ _ _ _ _ _ _ Hi) as (x & Hx & Hv). exists x. pose proof Hi as [_ _ Hn _ _ _ _]. cbn [length] in Hn.
  repeat split; try done; try (by apply (inv_drop_first _ _ _ _ _ _ _ _ _ _ Hi)).
  - intros k Hk. rewrite slot_slot. intros E. apply slot_inj in E; lia.
  - apply (inv_empty _ _ _ _ _ Hi).
Qed.

(** With its text, which the record keeps for the caller. *)
Lemma next_text_spec ok l t b f s h e L T R : inv (mk_state l t b f s) h (e :: L) T R -> is_Some (e_text e) ->
  exists r st h', get_error_values true false true ok (Some (mk_state l t b f s)) h = Some (r, Some st, h') /\ reading_answer h' r = read_entry true e /\ holds h L (e_text e) R s st h'.
Proof.
  intros Hi Ht. destruct (inv_take _ _ _ _ _ _ _ _ _ _ Hi) as (x & Hx & <- & Hi' & Hout & Hne). pose proof Hi as [Hl _ _ _ _ _ Ho]. cbn [errors to_free view e_text] in *.
  destruct (data x) as [p |] eqn:Hp; [| by destruct Ht]. cbn [deref] in *. rewrite (ptrs_slot _ _ _ Hx), Hp in Ho.
  assert (owns (opt f ++ (p :: ptrs (others (slot b 0) l) ++ R)) h) as Ho1 by (eapply owns_proper; [apply (Permutation_app_swap_app (opt f) (p :: ptrs (others (slot b 0) l))) | reflexivity | exact Ho]).
  destruct (free_spec _ _ _ Ho1) as (h1 & Hfr & Ho2 & Ha). assert (h1 !! p = h !! p) as Hpe by (apply Ha; left).
  exists (reading_of true x), (mk_state (<[slot b 0 := no_error]> l) t (slot b 0) (Some p) s), h1. split; [| split].
  - unfold get_error_values. fields. cbn [bottom] in Hne. rewrite Hne. replace ((b + 1) mod ERR_NUM_ERRORS)%nat with (slot b 0) by (unfold slot; by rewrite Nat.add_0_r). rewrite (bind_some _ _ _ _ Hx). cbn zeta. rewrite Hp.
    unfold clear_slot, err_clear, r_bind, r_ret, r_some. fields. rewrite Hfr. fields. rewrite list_lookup_insert_eq by (rewrite Hl; apply slot_lt).
    unfold r_ret; cbn [data set_data free]. fields.
    cbn; rewrite list_insert_insert_eq. unfold reading_of. by rewrite Hp.
  - rewrite reading_of_answer by (intros q; rewrite Hp; intros [= <-]; by rewrite Hpe). f_equal. unfold view. rewrite Hp. cbn [deref]. by rewrite Hpe.
  - split; [| split; [by apply (agree_incl _ R) in Ha; [| intros q Hq; right; apply elem_of_app; by right] | done]].
    eapply inv_outside; [exact Hi' | apply slot_lt | done | | by eapply agree_incl; [| exact Ha]; intros q Hq; right; apply elem_of_app; left | exact Hpe].
    cbn [data no_error opt app]. eapply owns_proper; [| reflexivity | exact Ho2]. apply (Permutation_app_swap_app (ptrs (others (slot b 0) l)) [p]).
Qed.

(** Without a text, or not asking for it. *)
Lemma next_plain_spec want ok l t b f s h e L T R : inv (mk_state l t b f s) h (e :: L) T R -> want = false \/ e_text e = None ->
  exists r st h', get_error_values true false want ok (Some (mk_state l t b f s)) h = Some (r, Some st, h') /\ reading_answer h' r = read_entry want e /\ holds h L T R s st h'.
Proof.
  intros Hi Hw. destruct (inv_take _ _ _ _ _ _ _ _ _ _ Hi) as (x & Hx & <- & Hi' & Hout & Hne). pose proof Hi as [Hl _ _ _ _ Hf Ho]. cbn [errors to_free view e_text] in *.
  destruct (clear_slot_spec l t b f s (slot b 0) _ h Hl (slot_lt _ _) Ho) as (h1 & Hc & Ho1 & Ha). rewrite !agree_app in Ha. destruct Ha as (Ha1 & Ha2 & Ha3).
  assert (want = false \/ data x = None) as Hwd.
  { destruct Hw as [Hw | Hw]; [by left | right]. destruct (data x) as [p |] eqn:Hp; [| done]. destruct (inv_text _ _ _ _ _ _ _ _ _ _ _ _ Hi Hx Hp) as [? E]. cbn [deref] in Hw. by rewrite Hw in E. }
  exists (reading_of want x), (mk_state (<[slot b 0 := no_error]> l) t (slot b 0) f s), h1. split; [| split].
  - unfold get_error_values. fields. cbn [bottom] in Hne. rewrite Hne. replace ((b + 1) mod ERR_NUM_ERRORS)%nat with (slot b 0) by (unfold slot; by rewrite Nat.add_0_r). rewrite (bind_some _ _ _ _ Hx). cbn zeta.
    unfold reading_of. destruct Hwd as [-> | ->]; [| destruct want]; unfold r_bind at 1, r_ret at 1; by rewrite (bind_eq _ _ _ _ _ Hc).
  - unfold reading_answer, reading_of, read_entry, view. cbn [code where_ text text_flags e_packed e_file e_line e_text]. destruct Hwd as [-> | ->]; [done | by destruct want].
  - split; [| by split]. eapply inv_outside; [exact Hi' | apply slot_lt | done | done | done |]. rewrite <- Hf. unfold deref. destruct f as [p |]; [| done]. apply Ha2. by left.
Qed.

(** ** Clearing *)

Definition cleared (l : list err_error_st) (ids : list nat) : list err_error_st := foldl (fun l i => <[i := no_error]> l) l ids.

Lemma cleared_all l : length l = 16%nat -> cleared l (seq 0 16) = replicate 16 no_error.
Proof. intros H. do 16 (destruct l as [| ? l]; [done |]). by destruct l. Qed.

Lemma clear_slots_spec ids t b f s F l h :
  length l = 16%nat -> Forall (fun i => (i < 16)%nat) ids -> owns (ptrs l ++ F) h ->
  exists h', clear_slots (mk_state l t b f s) ids h = Some (mk_state (cleared l ids) t b f s, h') /\ owns (ptrs (cleared l ids) ++ F) h' /\ agree F h h'.
Proof.
  revert l h. induction ids as [| i ids IH]; intros l h Hl Hi Ho; [by exists h |]. apply Forall_cons in Hi as [Hi His].
  destruct (clear_slot_spec l t b f s i F h Hl Hi Ho) as (h1 & Hc & Ho1 & Ha1). rewrite agree_app in Ha1.
  destruct (IH (<[i := no_error]> l) h1) as (h2 & Hcs & Ho2 & Ha2); [by rewrite length_insert | done | by rewrite ptrs_insert by lia |].
  exists h2. split; [| split; [done | by eapply agree_trans; [apply Ha1 | done]]]. cbn [clear_slots]. by rewrite (bind_eq _ _ _ _ _ Hc).
Qed.

(** Clearing the whole record and the text it keeps. *)
Lemma clear_all_spec l t b f s h L T R : inv (mk_state l t b f s) h L T R ->
  exists h1 h2, clear_slots (mk_state l t b f s) (seq 0 ERR_NUM_ERRORS) h = Some (mk_state (replicate 16 no_error) t b f s, h1) /\ free f h1 = Some (tt, h2) /\ owns R h2 /\ agree R h h2.
Proof.
  intros [Hl _ _ _ _ _ Ho]. cbn [errors to_free] in *.
  destruct (clear_slots_spec (seq 0 ERR_NUM_ERRORS) t b f s _ l h Hl ltac:(apply Forall_seq; unfold ERR_NUM_ERRORS; lia) Ho) as (h1 & Hc & Ho1 & Ha1). unfold ERR_NUM_ERRORS in *.
  rewrite (cleared_all l Hl) in *. cbn [ptrs] in Ho1. destruct (free_spec f R h1 Ho1) as (h2 & Hf & Ho2 & Ha2).
  exists h1, h2. rewrite agree_app in Ha1. repeat split; [done | done | apply Ho2 | apply Ho2 | apply Ho2 | by eapply agree_trans; [apply Ha1 | done]].
Qed.

Lemma clear_spec ok l t b f s h L T R : inv (mk_state l t b f s) h L T R ->
  exists st h', ERR_clear_error ok (Some (mk_state l t b f s)) h = Some (Some st, h') /\ holds h [] None R s st h'.
Proof.
  intros Hi. destruct (clear_all_spec _ _ _ _ _ _ _ _ _ Hi) as (h1 & h2 & Hc & Hf & Ho & Ha). exists (mk_state (replicate 16 no_error) 0 0 None s), h2. split.
  - unfold ERR_clear_error. fields. rewrite (bind_eq _ _ _ _ _ Hc). fields. by rewrite (bind_eq _ _ _ _ _ Hf).
  - split; [| by split]. split; cbn [errors bottom top to_free length]; try done; lia.
Qed.

(** ** The text of the newest error *)

Lemma others_insert i l e : others i (<[i := e]> l) = others i l.
Proof. unfold others. by rewrite take_insert_ge, drop_insert_lt by lia. Qed.

(** Changing the newest error. *)
Lemma inv_change l t b f s h h' x e L T R :
  inv (mk_state l t b f s) h (L ++ [x]) T R ->
  owns (opt (data e) ++ ptrs (others t l) ++ opt f ++ R) h' -> agree (ptrs (others t l) ++ opt f ++ R) h h' ->
  holds h (L ++ [view h' e]) T R s (mk_state (<[t := e]> l) t b f s) h'.
Proof.
  intros Hi Ho Ha. destruct (inv_last _ _ _ _ _ _ _ _ _ _ Hi) as (E & Hn & _). rewrite app_assoc, agree_app in Ha. destruct Ha as [Ha1 Ha2]. split; [| by split].
  rewrite E in Ho, Ha1 |- *. eapply inv_write; [by apply (inv_drop_last _ _ _ _ _ _ _ _ _ _ _ Hi) | done | done | done].
Qed.

Definition with_text (t : bytes) (e : entry) : entry := mk_entry (e_file e) (Some t) (e_packed e) (e_line e) (e_mark e).

Lemma on_last_snoc f L e : on_last f (L ++ [e]) = L ++ [f e].
Proof. unfold on_last. rewrite reverse_app, reverse_singleton. cbn [app]. by rewrite reverse_cons, reverse_involutive. Qed.

(** Slots hold strings of the record. *)
Lemma slots_sub l b ks p : length l = 16%nat -> p ∈ ptrs (map (fun k => l !!! slot b k) ks) -> p ∈ ptrs l.
Proof.
  intros Hl Hp. unfold ptrs in *. apply list_elem_of_omap in Hp as (e & He & Hd). apply list_elem_of_omap. exists e. split; [| done].
  apply list_elem_of_In, in_map_iff in He as (k & <- & _). apply list_elem_of_lookup. exists (slot b k). apply list_lookup_lookup_total_lt. rewrite Hl. apply slot_lt.
Qed.

(** A heap with the same strings for the record. *)
Lemma inv_heap l t b f s h h' L T R R' : inv (mk_state l t b f s) h L T R -> owns (ptrs l ++ opt f ++ R') h' -> agree (ptrs l ++ opt f) h h' -> inv (mk_state l t b f s) h' L T R'.
Proof.
  intros [Hl Hb Hn Ht Hv Hf Ho] Ho' Ha. cbn [errors bottom top to_free] in *. apply agree_app in Ha as [Ha1 Ha2]. split; cbn [errors bottom top to_free]; try done.
  - rewrite (view_agree _ _ _ _ Ha1); [done |]. intros p. by apply slots_sub.
  - rewrite <- Hf. unfold deref. destruct f as [p |]; [| done]. apply Ha2. by left.
Qed.

Lemma snoc_cases {A} (l : list A) : l = [] \/ exists l' x, l = l' ++ [x].
Proof. destruct l as [| x l _] using rev_ind; [by left | right; eauto]. Qed.

Lemma cons_cases {A} (x : list A) : x = [] \/ exists e D, x = e :: D.
Proof. destruct x; [by left | right; eauto]. Qed.

(** [d] is a new string. *)
Lemma set_data_spec ok d txt l t b f s h0 h L T R :
  inv (mk_state l t b f s) h0 L T R -> agree (ptrs l ++ opt f ++ R) h0 h -> owns (d :: ptrs l ++ opt f ++ R) h -> h !! d = Some txt ->
  exists st h', err_set_error_data ok d (Some (mk_state l t b f s)) h = Some (Some st, h') /\
                holds h0 (if negb (s =? 0) then L else on_last (with_text txt) L) T R s st h'.
Proof.
  intros Hi Ha Ho Hd. unfold err_set_error_data. fields. rewrite (inv_top_empty _ _ _ _ _ _ _ _ _ Hi).
  destruct ((length L =? 0)%nat || negb (s =? 0)) eqn:Hc.
  - destruct (free_spec (Some d) _ _ Ho) as (h' & Hf & Ho' & Ha'). exists (mk_state l t b f s), h'. split; [by rewrite (bind_eq _ _ _ _ _ Hf) |].
    assert ((if negb (s =? 0) then L else on_last (with_text txt) L) = L) as -> by (destruct (negb _); [done |]; by destruct L).
    pose proof (agree_trans _ _ _ _ Ha Ha') as Ha2. rewrite app_assoc, agree_app in Ha2. split; [by eapply inv_heap; [exact Hi | | apply Ha2] | by split; [apply Ha2 |]].
  - apply orb_false_iff in Hc as [Hn ->]. destruct (snoc_cases L) as [-> | (D & e & ->)]; [done |]. rewrite on_last_snoc.
    destruct (inv_last _ _ _ _ _ _ _ _ _ _ Hi) as (_ & _ & x & Hx & Hv). rewrite (bind_some _ _ _ _ Hx).
    assert (owns (opt (data x) ++ (d :: ptrs (others t l) ++ opt f ++ R)) h) as Ho1.
    { eapply owns_proper; [| reflexivity | exact Ho]. rewrite (ptrs_slot t l x Hx), <- app_assoc. symmetry. apply Permutation_middle. }
    destruct (free_spec _ _ _ Ho1) as (h' & Hf & Ho' & Ha'). rewrite (bind_eq _ _ _ _ _ Hf). eexists _, _. split; [reflexivity |]. fields.
    replace (with_text txt e) with (view h' (set_data (Some d) x)).
    + eapply inv_change; [exact Hi | exact Ho' |]. eapply agree_trans; [eapply agree_incl; [| exact Ha] | eapply agree_incl; [| exact Ha']].
      * intros p. rewrite !elem_of_app. rewrite (ptrs_slot t l x Hx), elem_of_app. tauto.
      * intros p Hp. by right.
    + rewrite <- Hv. unfold view, with_text. cbn. rewrite (Ha' d) by left. by rewrite Hd.
Qed.

(** A string that is allocated for the newest error. *)
Lemma new_text_spec ok txt l t b f s h L T R :
  inv (mk_state l t b f s) h L T R ->
  exists p h1 st h', malloc_copy true txt h = Some (Some p, h1) /\ h1 !! p = Some txt /\ err_set_error_data ok p (Some (mk_state l t b f s)) h1 = Some (Some st, h') /\
                     holds h (if negb (s =? 0) then L else on_last (with_text txt) L) T R s st h'.
Proof.
  intros Hi. pose proof Hi as [_ _ _ _ _ _ Ho]. destruct (malloc_spec txt _ _ Ho) as (p & h1 & Hm & Ho1 & Hp & Ha).
  destruct (set_data_spec ok p txt _ _ _ _ _ _ _ _ _ _ Hi Ha Ho1 Hp) as (st & h' & Hs & Hh). by exists p, h1, st, h'.
Qed.

(** ** Joined texts *)

Lemma total_cons a args : total (a :: args) = match a with Some t => t ++ total args | None => total args end.
Proof. by destruct a. Qed.

Lemma vdata_size_spec args n : 0 <= n <= SIZE_MAX -> vdata_size n args = if n + len (total args) <? SIZE_MAX then Some (n + len (total args) + 1) else None.
Proof.
  revert n. induction args as [| [t |] args IH]; intros n Hn; cbn [vdata_size]; rewrite ?total_cons.
  - change (len (total [])) with 0. rewrite !Z.add_0_r. destruct (n =? SIZE_MAX) eqn:E, (n <? SIZE_MAX) eqn:E'; try done; exfalso; lia.
  - pose proof (len_nonneg t). pose proof (len_nonneg (total args)). rewrite len_app. destruct (SIZE_MAX - n <? len t) eqn:E.
    + replace (n + (len t + len (total args)) <? SIZE_MAX) with false by lia. done.
    + rewrite IH, Z.add_assoc by lia. done.
  - by apply IH.
Qed.

Lemma vdata_fill_spec args buf n : len buf + len (total args) < n -> vdata_fill buf n args = Some (buf ++ total args).
Proof.
  revert buf. induction args as [| [t |] args IH]; intros buf Hn; cbn [vdata_fill]; rewrite ?total_cons in *.
  - by rewrite app_nil_r.
  - pose proof (len_nonneg t). pose proof (len_nonneg buf). pose proof (len_nonneg (total args)). rewrite len_app in Hn. unfold OPENSSL_strlcat. cbv zeta. replace (len buf <? n) with true by lia.
    replace (Z.min (len buf) n + len t >=? n) with false by lia. rewrite take_ge by (unfold len in *; lia). rewrite IH by (rewrite len_app; lia). by rewrite app_assoc.
  - by apply IH.
Qed.

(** The text is allocated empty and then filled. *)
Lemma add_vdata_run ok args thread h : len (total args) < SIZE_MAX ->
  err_add_error_vdata ok true args thread h = r_bind (malloc_copy true (total args)) (fun p => match p with Some p => err_set_error_data ok p thread | None => r_ret thread end) h.
Proof.
  intros Hn. pose proof (len_nonneg (total args)). unfold err_add_error_vdata. rewrite vdata_size_spec by (unfold SIZE_MAX in *; lia). replace (0 + len (total args) <? SIZE_MAX) with true by lia.
  unfold malloc_copy, r_bind, r_some, r_modify. rewrite vdata_fill_spec by (unfold len at 1; cbn [length]; lia). cbn [app]. unfold r_ret. by rewrite lookup_insert_eq, insert_insert_eq.
Qed.

Lemma add_data_spec ok malloc_ok args l t b f s h L T R : inv (mk_state l t b f s) h L T R ->
  exists st h', ERR_add_error_data ok malloc_ok args (Some (mk_state l t b f s)) h = Some (Some st, h') /\
    holds h (if malloc_ok && (len (total args) <? SIZE_MAX) then if negb (s =? 0) then L else on_last (with_text (total args)) L else L) T R s st h'.
Proof.
  intros Hi. pose proof (len_nonneg (total args)). destruct (malloc_ok && (len (total args) <? SIZE_MAX)) eqn:E.
  - apply andb_true_iff in E as [-> E]. destruct (new_text_spec ok (total args) _ _ _ _ _ _ _ _ _ Hi) as (p & h1 & st & h' & Hm & _ & Hs & Hh). exists st, h'. split; [| done].
    unfold ERR_add_error_data. rewrite add_vdata_run by lia. by rewrite (bind_eq _ _ _ _ _ Hm).
  - exists (mk_state l t b f s), h. split; [| by split]. unfold ERR_add_error_data, err_add_error_vdata. rewrite vdata_size_spec by (unfold SIZE_MAX; lia).
    change (0 + len (total args)) with (len (total args)). destruct (len (total args) <? SIZE_MAX); [| done]. rewrite andb_true_r in E. by rewrite E.
Qed.

(** ** Marks *)

Definition with_mark (m : bool) (e : entry) : entry := mk_entry (e_file e) (e_text e) (e_packed e) (e_line e) m.

Lemma mark_last l t b f s h e L T R x m : inv (mk_state l t b f s) h (L ++ [e]) T R -> l !! t = Some x -> view h x = e ->
  holds h (L ++ [with_mark m e]) T R s (mk_state (<[t := set_error_mark m x]> l) t b f s) h.
Proof.
  intros Hi Hx <-. pose proof Hi as [_ _ _ _ _ _ Ho]. cbn [errors to_free] in Ho. rewrite (ptrs_slot t l x Hx), <- app_assoc in Ho.
  apply (inv_change _ _ _ _ _ _ _ _ (set_error_mark m x) _ _ _ Hi Ho). apply agree_refl.
Qed.

Lemma set_mark_spec ok l t b f s h L T R : inv (mk_state l t b f s) h L T R ->
  exists st, ERR_set_mark ok (Some (mk_state l t b f s)) h = Some (negb (length L =? 0)%nat, Some st, h) /\ holds h (on_last (with_mark true) L) T R s st h.
Proof.
  intros Hi. unfold ERR_set_mark. fields. rewrite Nat.eqb_sym, (inv_top_empty _ _ _ _ _ _ _ _ _ Hi). destruct (snoc_cases L) as [-> | (D & e & ->)].
  - exists (mk_state l t b f s). done.
  - destruct (inv_last _ _ _ _ _ _ _ _ _ _ Hi) as (_ & _ & x & Hx & Hv). rewrite length_app, Nat.add_1_r. cbn [length Nat.eqb negb]. rewrite (bind_some _ _ _ _ Hx), on_last_snoc.
    exists (mk_state (<[t := set_error_mark true x]> l) t b f s). split; [done |]. by eapply mark_last.
Qed.

Lemma to_mark_snoc L e : to_mark (reverse (L ++ [e])) = if e_mark e then (true, with_mark false e :: reverse L) else to_mark (reverse L).
Proof. by rewrite reverse_app, reverse_singleton. Qed.

(** The loop ends, because every turn removes an error. *)
Lemma pop_loop_spec l t b f s h L T R fuel : inv (mk_state l t b f s) h L T R -> (length L < fuel)%nat ->
  exists st h', pop_loop fuel (mk_state l t b f s) h = Some (fst (to_mark (reverse L)), st, h') /\ holds h (reverse (snd (to_mark (reverse L)))) T R s st h'.
Proof.
  revert l t h L. induction fuel as [| fuel IH]; intros l t h L Hi Hn; [lia |]. cbn [pop_loop]. fields. rewrite Nat.eqb_sym, (inv_top_empty _ _ _ _ _ _ _ _ _ Hi).
  destruct (snoc_cases L) as [-> | (D & e & ->)]; [by exists (mk_state l t b f s), h |].
  destruct (inv_last _ _ _ _ _ _ _ _ _ _ Hi) as (Et & HD & x & Hx & Hv). rewrite to_mark_snoc, length_app, Nat.add_1_r in *. cbn [length Nat.eqb negb] in *. rewrite (bind_some _ _ _ _ Hx).
  replace (e_mark e) with (mark x) by (by rewrite <- Hv). destruct (mark x).
  - exists (mk_state (<[t := set_error_mark false x]> l) t b f s), h. split; [done |]. cbn [snd]. rewrite reverse_cons, reverse_involutive. by eapply mark_last.
  - pose proof Hi as [Hl Hb _ _ _ Hf Ho]. cbn [errors bottom to_free] in *. destruct (clear_slot_spec l t b f s t _ h Hl ltac:(rewrite Et; apply slot_lt) Ho) as (h1 & Hc & Ho1 & Ha).
    rewrite !agree_app in Ha. destruct Ha as (Ha1 & Ha2 & Ha3). rewrite (bind_eq _ _ _ _ _ Hc). fields.
    set (t' := if (t =? 0)%nat then (ERR_NUM_ERRORS - 1)%nat else (t - 1)%nat).
    assert (t' = ((b + length D) mod 16)%nat) as Et' by (unfold t', ERR_NUM_ERRORS, slot in *; destruct (t =? 0)%nat eqn:E0; [apply Nat.eqb_eq in E0 | apply Nat.eqb_neq in E0]; mod16).
    assert (inv (mk_state (<[t := no_error]> l) t' b f s) h1 D T R) as Hi1.
    { eapply inv_outside; [by apply (inv_drop_last _ _ t' _ _ _ _ _ _ _ _ Hi) | rewrite Et; apply slot_lt | intros k Hk; rewrite Et; apply slot_after; lia | done | done |].
      rewrite <- Hf. unfold deref. destruct f as [p |]; [| done]. apply Ha2. by left. }
    destruct (IH _ _ _ _ Hi1 ltac:(lia)) as (st & h2 & Hp & Hi2 & Ha4 & Hs). exists st, h2. split; [done |]. split; [done |]. split; [by eapply agree_trans |  done].
Qed.

(** ** Saved states *)

Lemma err_copy_spec ok dst src F h : owns (opt (data dst) ++ F) h -> (forall p, p ∈ opt (data src) -> p ∈ F) ->
  exists e h', err_copy ok dst src h = Some (e, h') /\ view h' e = copy_entry ok (view h src) /\ owns (opt (data e) ++ F) h' /\ agree F h h'.
Proof.
  intros Ho Hs. destruct (free_spec _ _ _ Ho) as (h1 & Hf & Ho1 & Ha1). unfold err_copy, err_clear, strdup_libc_malloc, r_bind, r_ret. rewrite Hf. destruct (data src) as [p |] eqn:Hp.
  - assert (p ∈ F) as HpF by (apply Hs; by left). assert (is_Some (h1 !! p)) as [txt Ht] by (by apply Ho1). rewrite (load_eq _ _ _ Ht). rewrite Ha1 in Ht by done. destruct ok.
    + destruct (malloc_spec txt _ _ Ho1) as (q & h2 & -> & Ho2 & Hq & Ha2). eexists _, h2. split; [reflexivity |]. split; [| split; [done | by eapply agree_trans]].
      unfold view, copy_entry. cbn [file data packed line mark deref e_file e_text e_packed e_line]. rewrite Hp. cbn [deref]. by rewrite Hq, Ht.
    + by eexists _, h1.
  - eexists _, h1. split; [reflexivity |]. split; [| done]. unfold view, copy_entry. cbn [file data packed line mark deref e_file e_text e_packed e_line]. rewrite Hp. by destruct ok.
Qed.

Definition copies (oks : nat -> bool) (i : nat) (l : list entry) : list entry := imap (fun k e => copy_entry (oks (i + k)%nat) e) l.

Lemma copies_cons oks i e l : copies oks i (e :: l) = copy_entry (oks i) e :: copies oks (S i) l.
Proof. unfold copies. rewrite imap_cons. f_equal; [by rewrite Nat.add_0_r |]. apply imap_ext. intros k x _. cbn. by rewrite Nat.add_succ_r. Qed.

Lemma copies_view oks i h h' F x : agree F h h' -> (forall p, p ∈ ptrs x -> p ∈ F) -> copies oks i (map (view h') x) = copies oks i (map (view h) x).
Proof. intros Ha Hi. by rewrite (view_agree _ _ _ _ Ha Hi). Qed.

Lemma save_loop_spec oks l t b f s F n i h : length l = 16%nat -> owns F h -> (forall p, p ∈ ptrs l -> p ∈ F) ->
  exists c h', save_loop oks (mk_state l t b f s) (seq i n) h = Some (c, h') /\ map (view h') c = copies oks i (map (view h) (map (fun k => l !!! slot b k) (seq i n))) /\ owns (ptrs c ++ F) h' /\ agree F h h'.
Proof.
  intros Hl. revert F i h. induction n as [| n IH]; intros F i h Ho Hi; [by exists [], h |]. cbn [seq save_loop]. fields.
  replace ((b + i + 1) mod ERR_NUM_ERRORS)%nat with (slot b i) by (unfold slot; f_equal; lia). assert (l !! slot b i = Some (l !!! slot b i)) as Hx by (apply list_lookup_lookup_total_lt; rewrite Hl; apply slot_lt).
  rewrite (bind_some _ _ _ _ Hx). destruct (err_copy_spec (oks i) no_error (l !!! slot b i) F h) as (e & h1 & Hc & Hv & Ho1 & Ha1); [done | |].
  { intros p Hp. apply Hi. rewrite (ptrs_slot _ _ _ Hx), elem_of_app. by left. }
  rewrite (bind_eq _ _ _ _ _ Hc). destruct (IH (opt (data e) ++ F) (S i) h1) as (c & h2 & Hl2 & Hv2 & Ho2 & Ha2); [done | intros p Hp; apply elem_of_app; right; by apply Hi |].
  rewrite (bind_eq _ _ _ _ _ Hl2). exists (e :: c), h2. split; [done |]. apply agree_app in Ha2 as [Ha2 Ha3]. split; [| split].
  - cbn [map]. rewrite copies_cons, <- Hv. f_equal; [unfold view, deref; destruct (data e); [by rewrite Ha2 by left | done] |]. rewrite Hv2. apply (copies_view oks (S i) h h1 F _ Ha1).
    intros p Hp. by apply Hi, (slots_sub l b (seq (S i) n)).
  - rewrite ptrs_cons, <- app_assoc. eapply owns_proper; [| reflexivity | exact Ho2]. apply Permutation_app_swap_app.
  - by eapply agree_trans.
Qed.

Lemma save_spec ok oks l t b f s h L T R : inv (mk_state l t b f s) h L T R -> L <> [] ->
  exists c h', ERR_save_state ok true oks (Some (mk_state l t b f s)) h = Some (Some c, Some (mk_state l t b f s), h') /\
               map (view h') c = copies oks 0 L /\ length c = length L /\ inv (mk_state l t b f s) h' L T (R ++ ptrs c) /\ agree R h h'.
Proof.
  intros Hi HL. pose proof Hi as [Hl Hb Hn Ht Hv Hf Ho]. cbn [errors bottom top to_free] in *. unfold ERR_save_state. fields. rewrite (inv_top_empty _ _ _ _ _ _ _ _ _ Hi). replace (length L =? 0)%nat with false by (by destruct L).
  cbn [negb]. cbv zeta. replace (if (b <=? t)%nat then (t - b)%nat else (ERR_NUM_ERRORS + t - b)%nat) with (length L).
  2: { unfold ERR_NUM_ERRORS. destruct (b <=? t)%nat eqn:E; [apply Nat.leb_le in E | apply Nat.leb_gt in E]; mod16. }
  rewrite bind_assert by (apply Nat.ltb_lt; unfold ERR_NUM_ERRORS; lia).
  destruct (save_loop_spec oks l t b f s _ (length L) 0 h Hl Ho) as (c & h' & Hs & Hc & Ho' & Ha); [intros p Hp; apply elem_of_app; by left |].
  rewrite (bind_eq _ _ _ _ _ Hs). exists c, h'. split; [done |]. fold (win l b (length L)) in Hc. rewrite Hv in Hc. split; [done |]. split; [| split].
  - apply (f_equal length) in Hc. unfold copies in Hc. by rewrite length_map, length_imap in Hc.
  - rewrite app_assoc, agree_app in Ha. destruct Ha as [Ha1 Ha2]. eapply inv_heap; [exact Hi | | done]. eapply owns_proper; [| reflexivity | exact Ho'].
    rewrite (Permutation_app_comm (ptrs c)). by rewrite <- !app_assoc.
  - rewrite app_assoc, agree_app in Ha. apply Ha.
Qed.

Lemma take_others i l p : p ∈ ptrs (take i l) -> p ∈ ptrs (others i l).
Proof. unfold others. rewrite ptrs_app, elem_of_app. by left. Qed.

Lemma restore_loop_spec oks saved t b f s F i l h :
  length l = 16%nat -> (i + length saved <= 16)%nat -> owns (ptrs l ++ F) h -> (forall p, p ∈ ptrs saved -> p ∈ F) ->
  exists c h', restore_loop oks i saved (mk_state l t b f s) h = Some (mk_state (take i l ++ c ++ drop (i + length saved) l) t b f s, h') /\ length c = length saved /\
               map (view h') c = copies oks i (map (view h) saved) /\ owns (ptrs (take i l ++ c ++ drop (i + length saved) l) ++ F) h' /\ agree (ptrs (take i l) ++ F) h h'.
Proof.
  revert i l h. induction saved as [| src saved IH]; intros i l h Hl Hn Ho Hs; cbn [restore_loop length] in *.
  - exists [], h. rewrite Nat.add_0_r. cbn [app]. by rewrite take_drop.
  - fields. destruct (lookup_lt_is_Some_2 l i ltac:(lia)) as [x Hx]. rewrite (bind_some _ _ _ _ Hx). rewrite (ptrs_slot _ _ _ Hx), <- app_assoc in Ho.
    destruct (err_copy_spec (oks i) x src _ h Ho) as (e & h1 & Hc & Hv & Ho1 & Ha1).
    { intros p Hp. apply elem_of_app. right. apply Hs. rewrite ptrs_cons, elem_of_app. by left. }
    rewrite (bind_eq _ _ _ _ _ Hc). apply agree_app in Ha1 as [Ha1 Ha2].
    destruct (IH (S i) (<[i := e]> l) h1) as (c & h2 & Hr & Hlc & Hvc & Ho2 & Ha3).
    + by rewrite length_insert.
    + lia.
    + by rewrite ptrs_insert, <- app_assoc by lia.
    + intros p Hp. apply Hs. rewrite ptrs_cons, elem_of_app. by right.
    + rewrite (take_S_r _ _ e) in * by (apply list_lookup_insert_eq; lia). rewrite take_insert_ge, drop_insert_lt in * by lia. rewrite <- !app_assoc in *. cbn [app] in *.
      rewrite ptrs_app, <- app_assoc, agree_app in Ha3. destruct Ha3 as [Ha3 Ha4]. exists (e :: c), h2. replace (i + S (length saved))%nat with (S i + length saved)%nat by lia. cbn [length].
      split; [done |]. split; [by rewrite Hlc |]. split; [| split; [done |]].
      * cbn [map]. rewrite copies_cons, <- Hv. f_equal.
        -- unfold view, deref. destruct (data e) eqn:He; [| done]. rewrite Ha4; [done |]. rewrite ptrs_cons, He. by left.
        -- rewrite Hvc. apply (copies_view oks (S i) h h1 F _ Ha2). intros p Hp. apply Hs. rewrite ptrs_cons, elem_of_app. by right.
      * apply agree_app. split; [eapply agree_trans; [by eapply agree_incl; [intros p; apply take_others |] | done] |]. eapply agree_trans; [done |]. apply agree_app in Ha4. apply Ha4.
Qed.

Lemma win_front l n : length l = 16%nat -> (n <= 16)%nat -> win l 15 n = take n l.
Proof.
  intros Hl Hn. apply list_eq. intros k. unfold win. destruct (decide (k < n)%nat) as [Hk | Hk].
  - rewrite lookup_take_lt by done. rewrite list_lookup_fmap, lookup_seq_lt by done. change (Some (l !!! slot 15 k) = l !! k). replace (slot 15 k) with k by (unfold slot; mod16). symmetry. apply list_lookup_lookup_total_lt. lia.
  - rewrite lookup_take_ge by lia. apply lookup_ge_None_2. rewrite length_map, length_seq. lia.
Qed.

Lemma restore_spec ok oks saved l t b f s h L T R : inv (mk_state l t b f s) h L T R -> saved <> [] -> (length saved <= 15)%nat -> (forall p, p ∈ ptrs saved -> p ∈ R) ->
  exists st h', ERR_restore_state ok oks (Some saved) (Some (mk_state l t b f s)) h = Some (Some st, h') /\ holds h (copies oks 0 (map (view h) saved)) T R s st h'.
Proof.
  intros [Hl _ _ _ _ Hf Ho] Hne Hn Hs. cbn [errors bottom top to_free] in *. unfold ERR_restore_state. change (default [] (Some saved)) with saved. cbv zeta. replace (length saved =? 0)%nat with false by (by destruct saved).
  replace (ERR_NUM_ERRORS <=? length saved)%nat with false by (symmetry; apply Nat.leb_gt; unfold ERR_NUM_ERRORS; lia). fields.
  destruct (restore_loop_spec oks saved t b f s (opt f ++ R) 0 l h Hl ltac:(lia) Ho) as (c & h' & Hr & Hc & Hv & Ho' & Ha); [intros p Hp; apply elem_of_app; right; by apply Hs |].
  rewrite (bind_eq _ _ _ _ _ Hr). eexists _, _. split; [reflexivity |]. fields. cbn [take app Nat.add] in *. rewrite !agree_app in Ha. destruct Ha as (_ & Ha1 & Ha2).
  assert (length (copies oks 0 (map (view h) saved)) = length saved) as HL by (unfold copies; by rewrite length_imap, length_map).
  assert (length (c ++ drop (length saved) l) = 16%nat) as Hl' by (rewrite length_app, length_drop; lia).
  split; [| by split]. split; fields; cbn [take app Nat.add]; unfold ERR_NUM_ERRORS; rewrite ?HL; try done; try lia.
  - assert (0 < length saved)%nat by (destruct saved; [done | cbn; lia]). mod16.
  - change (map (view h') (win (c ++ drop (length saved) l) 15 (length saved)) = copies oks 0 (map (view h) saved)). rewrite win_front by (exact Hl' || lia). by rewrite take_app_length'.
  - rewrite <- Hf. unfold deref. destruct f as [p |]; [| done]. apply Ha1. by left.
Qed.

Lemma free_saved_spec saved F h : owns (ptrs saved ++ F) h -> exists h', clear_all saved h = Some (tt, h') /\ owns F h' /\ agree F h h'.
Proof.
  revert h. induction saved as [| e saved IH]; intros h Ho; [by exists h |]. rewrite ptrs_cons, <- app_assoc in Ho. destruct (free_spec _ _ _ Ho) as (h1 & Hf & Ho1 & Ha1).
  destruct (IH h1 Ho1) as (h2 & Hc & Ho2 & Ha2). exists h2. split; [| split; [done |]].
  - cbn [clear_all]. unfold err_clear. unfold r_bind at 1. rewrite (bind_eq _ _ _ _ _ Hf). done.
  - apply agree_app in Ha1. by eapply agree_trans; [apply Ha1 |].
Qed.
End ErrSpec.
