(* ===== verification/ErrRefine.v ===== *)
(** Every sequence of calls of the error queue (crypto/err/err.c) gives the answers of the
    abstract queue, frees no string twice and leaves nothing behind. *)

From S2P Require Import Prelude Store Err ErrSpec.

Open Scope Z_scope.
Open Scope c_scope.

Module ErrRefine.
Import Err ErrSpec.

Lemma default_map {A B} (g : A -> B) (l : list (list A)) k : default [] (map (map g) l !! k) = map g (default [] (l !! k)).
Proof. rewrite list_lookup_fmap. by destruct (l !! k). Qed.

Lemma map_lookup_None {A B} (g : A -> B) (l : list A) k : l !! k = None -> map g l !! k = None.
Proof. intros H. by rewrite list_lookup_fmap, H. Qed.

(** The strings of the saved states. *)
Definition held (saved : list ERR_SAVE_STATE) : list nat := saved ≫= ptrs.

Definition views (h : gmap nat bytes) (saved : list ERR_SAVE_STATE) : list (list entry) := map (map (view h)) saved.

Record rel (q : queue) (w : world) (h : gmap nat bytes) : Prop := {
  rel_saves : views h (snd w) = saves q;
  rel_short : Forall (fun s => (length s <= 15)%nat) (snd w);
  rel_thread :
    match fst w with
    | Some st => alive q = true /\ suppress st = depth q /\ inv st h (es q) (lent q) (held (snd w))
    | None => q = mk_queue false [] None 0 (saves q) /\ owns (held (snd w)) h
    end
}.

Lemma views_agree h h' saved : agree (held saved) h h' -> views h' saved = views h saved.
Proof.
  induction saved as [| s saved IH]; [done |]. intros Ha. change (held (s :: saved)) with (ptrs s ++ held saved) in Ha. apply agree_app in Ha as [Ha1 Ha2].
  unfold views in *. cbn [map]. rewrite IH by done. f_equal. by apply (view_agree _ _ _ _ Ha1).
Qed.

Lemma held_app saved s : held (saved ++ [s]) = held saved ++ ptrs s.
Proof. unfold held. rewrite bind_app. cbn. by rewrite app_nil_r. Qed.

Lemma held_lookup saved k s p : saved !! k = Some s -> p ∈ ptrs s -> p ∈ held saved.
Proof. intros Hk Hp. apply list_elem_of_bind. exists s. split; [done |]. by eapply list_elem_of_lookup_2. Qed.

Lemma held_delete saved k s : saved !! k = Some s -> held saved ≡ₚ ptrs s ++ held (delete k saved).
Proof. intros Hk. change (ptrs s ++ held (delete k saved)) with ((s :: delete k saved) ≫= ptrs). by apply bind_Permutation, delete_Permutation. Qed.

(** After an operation on the record. *)
Lemma rel_holds q st saved h L T d st' h' : rel q (Some st, saved) h -> holds h L T (held saved) d st' h' -> rel (mk_queue true L T d (saves q)) (Some st', saved) h'.
Proof.
  intros [Hs Hf Ht] (Hi & Ha & Hd). cbn [fst snd] in *. split; cbn [fst snd saves alive depth es lent]; [by rewrite (views_agree _ _ _ Ha) | done | done].
Qed.

Lemma holds_inv h L T R d st : inv st h L T R -> suppress st = d -> holds h L T R d st h.
Proof. by intros. Qed.

Lemma rel_alive q st saved h : rel q (Some st, saved) h -> q = mk_queue true (es q) (lent q) (suppress st) (saves q) /\ inv st h (es q) (lent q) (held saved).
Proof. intros [_ _ (Ha & Hd & Hi)]. cbn [fst snd] in *. split; [| done]. destruct q. cbn in *. by subst. Qed.

(** * Calls on a record *)

(** A call refines the abstract one. *)
Definition refines (ok : bool) (c : call) (w : world) (h : gmap nat bytes) (r : option (answer * queue)) : Prop :=
  forall a q, r = Some (a, q) -> exists w' h', step ok c w h = Some (a, w', h') /\ rel q w' h'.

Section alive.
Context (ok : bool) (l : list err_error_st) (t b : nat) (f : option nat) (s : Z) (saved : list ERR_SAVE_STATE) (h : gmap nat bytes) (L : list entry) (T : option bytes) (S : list (list entry)).
Let st := mk_state l t b f s.
Let q := mk_queue true L T s S.
Hypothesis Hrel : rel q (Some st, saved) h.
Hypothesis Hi : inv st h L T (held saved).

(** An operation that only answers that it is done. *)
Lemma refines_done c (p : prog (option ERR_STATE)) L' T' d' st' h' :
  (forall h2 th, p h = Some (th, h2) -> step ok c (Some st, saved) h = Some (Done, (th, saved), h2)) ->
  p h = Some (Some st', h') -> holds h L' T' (held saved) d' st' h' -> refines ok c (Some st, saved) h (Some (Done, mk_queue true L' T' d' S)).
Proof. intros Hp Hr Hh a q' [= <- <-]. eexists _, _. split; [by apply Hp |]. by apply (rel_holds q st _ h). Qed.

Lemma put_refines errno library reason file ln : refines ok (Put errno library reason file ln) (Some st, saved) h (q_call (Put errno library reason file ln) q).
Proof.
  cbn [q_call depth q]. assert (forall h2 th, ERR_put_error ok errno library reason file ln (Some st) h = Some (th, h2) -> step ok (Put errno library reason file ln) (Some st, saved) h = Some (Done, (th, saved), h2)) as Hp by (intros h2 th H; cbn [step]; by rewrite H).
  destruct (s =? 0) eqn:Hs.
  - apply Z.eqb_eq in Hs. destruct (put_spec ok errno library reason file ln l t b f h L T (held saved)) as (st' & h' & Hr & Hh); [by rewrite <- Hs |].
    unfold set_es. cbn [alive lent depth saves es q]. eapply refines_done; [exact Hp | unfold st; rewrite Hs; exact Hr | by rewrite Hs].
  - eapply refines_done; [exact Hp | | by apply holds_inv]. unfold ERR_put_error. cbn [err_get_state suppress st]. by rewrite Hs.
Qed.

Lemma read_empty k want : L = [] -> refines ok (Read k want) (Some st, saved) h (Some (Got 0 ([], 0) None 0, q)).
Proof.
  intros E a q' [= <- <-]. eexists _, h. split; [| exact Hrel]. cbn [step]. unfold get_error_values. cbn [err_get_state st bottom top]. rewrite Nat.eqb_sym, (inv_top_empty _ _ _ _ _ _ _ _ _ Hi), E. done.
Qed.

Lemma peek_refines k want x e L' : L = L' -> k_inc k = false -> L' <> [] -> l !! (if k_last k then t else slot b 0) = Some x -> view h x = e ->
  exists w' h', step ok (Read k want) (Some st, saved) h = Some (read_entry want e, w', h') /\ rel q w' h'.
Proof.
  intros <- Hk HL Hx <-. eexists _, h. split; [| exact Hrel]. cbn [step]. rewrite Hk. unfold st at 1. rewrite (peek_spec _ want ok _ _ _ _ _ _ _ _ _ _ x Hi HL eq_refl Hx).
  rewrite reading_of_answer; [done |]. intros p Hp. by eapply inv_text.
Qed.

Lemma next_refines want e D : L = e :: D ->
  refines ok (Read Next want) (Some st, saved) h (Some (read_entry want e, mk_queue true D (if want && bool_decide (is_Some (e_text e)) then e_text e else T) s S)).
Proof.
  intros E a q' [= <- <-]. pose proof Hi as Hi'. unfold st in Hi'. rewrite E in Hi'.
  assert (exists r st' h', get_error_values true false want ok (Some st) h = Some (r, Some st', h') /\ reading_answer h' r = read_entry want e /\
                           holds h D (if want && bool_decide (is_Some (e_text e)) then e_text e else T) (held saved) s st' h') as (r & st' & h' & Hr & Ha & Hh).
  { destruct (want && bool_decide (is_Some (e_text e))) eqn:Hw.
    - apply andb_true_iff in Hw as [-> Hw]. apply bool_decide_eq_true in Hw. by apply (next_text_spec ok _ _ _ _ _ _ _ _ _ _ Hi').
    - apply (next_plain_spec want ok _ _ _ _ _ _ _ _ _ _ Hi'). destruct want; [right | by left]. apply bool_decide_eq_false in Hw. destruct (e_text e); [by destruct Hw | done]. }
  eexists _, h'. cbn [step k_inc k_last]. rewrite Hr, Ha. split; [done |]. by apply (rel_holds q st _ h).
Qed.

Lemma read_refines k want : refines ok (Read k want) (Some st, saved) h (q_call (Read k want) q).
Proof.
  cbn [q_call es q]. destruct k; cbn [k_last k_inc].
  - destruct (cons_cases L) as [E | (e & D & E)]; [rewrite E; by apply read_empty |]. pose proof (next_refines want e D E) as H. rewrite E. unfold set_es, set_lent. cbn [drop].
    destruct (want && bool_decide (is_Some (e_text e))); exact H.
  - destruct (cons_cases L) as [E | (e & D & E)]; [rewrite E; by apply read_empty |]. rewrite E. intros a q' [= <- <-]. pose proof Hi as Hi'. unfold st in Hi'. rewrite E in Hi'.
    destruct (inv_first _ _ _ _ _ _ _ _ _ _ Hi') as (x & Hx & Hv). by apply (peek_refines PeekFirst want x e (e :: D) E).
  - destruct (snoc_cases L) as [E | (D & e & E)]; [rewrite E; by apply read_empty |]. rewrite E, reverse_app, reverse_singleton. cbn [app]. intros a q' [= <- <-]. pose proof Hi as Hi'. unfold st in Hi'. rewrite E in Hi'.
    destruct (inv_last _ _ _ _ _ _ _ _ _ _ Hi') as (_ & _ & x & Hx & Hv). apply (peek_refines PeekLast want x e (D ++ [e]) E); try done. by destruct D.
Qed.

Lemma clear_refines : refines ok Clear (Some st, saved) h (q_call Clear q).
Proof.
  destruct (clear_spec ok _ _ _ _ _ _ _ _ _ Hi) as (st' & h' & Hr & Hh). eapply refines_done; [| exact Hr | exact Hh]. intros h2 th H. cbn [step]. fold st in H. by rewrite H.
Qed.

Lemma set_text_eq txt : set_text txt q = mk_queue true (if negb (s =? 0) then L else on_last (with_text txt) L) T s S.
Proof. unfold set_text. cbn [depth q]. by destruct (s =? 0). Qed.

Lemma add_data_refines malloc_ok args : refines ok (AddData malloc_ok args) (Some st, saved) h (q_call (AddData malloc_ok args) q).
Proof.
  destruct (add_data_spec ok malloc_ok args _ _ _ _ _ _ _ _ _ Hi) as (st' & h' & Hr & Hh). cbn [q_call]. rewrite set_text_eq. destruct (malloc_ok && (len (total args) <? SIZE_MAX));
    (eapply refines_done; [| exact Hr | exact Hh]; intros h2 th H; cbn [step]; fold st in H; by rewrite H).
Qed.

Lemma add_dataf_refines formatted : refines ok (AddDataf formatted) (Some st, saved) h (q_call (AddDataf formatted) q).
Proof.
  cbn [q_call]. destruct formatted as [txt |]; [| by intros a q' [= <- <-]; eexists _, h].
  destruct (new_text_spec ok txt _ _ _ _ _ _ _ _ _ Hi) as (p & h1 & st' & h' & Hm & _ & Hs & Hh). rewrite set_text_eq.
  eapply (refines_done _ (ERR_add_error_dataf ok (Some txt) (Some st))); [| | exact Hh].
  - intros h2 th H. cbn [step]. by rewrite H.
  - unfold ERR_add_error_dataf. by rewrite (bind_eq _ _ _ _ _ Hm).
Qed.

Lemma set_data_refines malloc_ok txt flags : refines ok (SetData malloc_ok txt flags) (Some st, saved) h (q_call (SetData malloc_ok txt flags) q).
Proof.
  cbn [q_call]. destruct (Z.land flags ERR_FLAG_STRING =? 0) eqn:Hf; [by intros a q' |]. destruct malloc_ok.
  - destruct (new_text_spec ok txt _ _ _ _ _ _ _ _ _ Hi) as (p & h1 & st' & h' & Hm & _ & Hs & Hh). rewrite set_text_eq.
    eapply (refines_done _ (ERR_set_error_data ok true txt flags (Some st))); [| | exact Hh].
    + intros h2 th H. cbn [step]. by rewrite H.
    + unfold ERR_set_error_data. by rewrite Hf, (bind_eq _ _ _ _ _ Hm).
  - intros a q' [= <- <-]. eexists _, h. split; [| exact Hrel]. cbn [step]. unfold ERR_set_error_data. by rewrite Hf.
Qed.

Lemma suppress_refines c : c = SuppressBegin \/ c = SuppressEnd -> refines ok c (Some st, saved) h (q_call c q).
Proof.
  assert (forall d, rel (mk_queue true L T d S) (Some (mk_state l t b f d), saved) h) as Hd.
  { intros d. apply (rel_holds q st _ h _ _ _ _ _ Hrel). apply holds_inv; [| done]. by destruct Hi; split. }
  intros [-> | ->]; cbn [q_call depth q].
  - intros a q' [= <- <-]. eexists _, h. split; [reflexivity | apply Hd].
  - destruct (s >? 0) eqn:Hs; [| by intros a q']. intros a q' [= <- <-]. exists (Some (mk_state l t b f (s - 1)), saved), h. split; [| apply Hd].
    cbn [step]. unfold ERR_suppress_errors_end. cbn [suppress st]. rewrite Hs. done.
Qed.

Lemma set_mark_refines : refines ok SetMark (Some st, saved) h (q_call SetMark q).
Proof.
  destruct (set_mark_spec ok _ _ _ _ _ _ _ _ _ Hi) as (st' & Hr & Hh). intros a q' [= <- <-]. eexists _, h. cbn [step]. fold st in Hr. rewrite Hr. split; [done |]. by apply (rel_holds q st _ h).
Qed.

Lemma pop_refines : refines ok PopToMark (Some st, saved) h (q_call PopToMark q).
Proof.
  pose proof Hi as [_ _ Hn _ _ _ _]. destruct (pop_loop_spec _ _ _ _ _ _ _ _ _ 17 Hi ltac:(lia)) as (st' & h' & Hr & Hh). cbn [q_call es q]. destruct (to_mark (reverse L)) as [m r]. cbn [fst snd] in *.
  intros a q' [= <- <-]. eexists _, h'. cbn [step]. unfold ERR_pop_to_mark. cbn [err_get_state]. fold st in Hr. change (Datatypes.S ERR_NUM_ERRORS) with 17%nat. rewrite (bind_eq _ _ _ _ _ Hr). split; [done |]. by apply (rel_holds q st _ h).
Qed.
Lemma save_refines malloc_ok oks : refines ok (Save malloc_ok oks) (Some st, saved) h (q_call (Save malloc_ok oks) q).
Proof.
  cbn [q_call es q]. destruct ((length L =? 0)%nat || negb malloc_ok) eqn:Hc.
  - intros a q' [= <- <-]. exists (Some st, saved), h. split; [| exact Hrel]. cbn [step]. unfold ERR_save_state. cbn [err_get_state st top bottom]. rewrite (inv_top_empty _ _ _ _ _ _ _ _ _ Hi).
    apply orb_true_iff in Hc as [-> | Hc]; [done |]. rewrite Hc. by destruct (length L =? 0)%nat.
  - apply orb_false_iff in Hc as [HL Hm]. apply negb_false_iff in Hm as ->. assert (L <> []) as HL' by (intros E; by rewrite E in HL).
    destruct (save_spec ok oks _ _ _ _ _ _ _ _ _ Hi HL') as (c & h' & Hr & Hv & Hn & Hi' & Ha). intros a q' [= <- <-]. exists (Some st, saved ++ [c]), h'. cbn [step]. fold st in Hr. rewrite Hr. split; [done |].
    pose proof Hi as [_ _ HnL _ _ _ _]. destruct Hrel as [Hs Hf _]. cbn [fst snd saves q] in *. split; cbn [fst snd saves set_saves alive depth es lent q].
    + unfold views in *. rewrite map_app. cbn [map]. rewrite Hv. f_equal. rewrite <- Hs. by apply views_agree.
    + apply Forall_app. split; [done |]. constructor; [lia | done].
    + split; [done |]. split; [done |]. by rewrite held_app.
Qed.

Lemma views_lookup k : default [] (S !! k) = map (view h) (default [] (saved !! k)).
Proof. destruct Hrel as [Hs _ _]. cbn [snd saves q] in Hs. rewrite <- Hs. apply default_map. Qed.

Lemma restore_refines k oks : refines ok (Restore k oks) (Some st, saved) h (q_call (Restore k oks) q).
Proof.
  cbn [q_call saves q]. rewrite views_lookup. assert (forall h2 th, ERR_restore_state ok oks (saved !! k) (Some st) h = Some (th, h2) -> step ok (Restore k oks) (Some st, saved) h = Some (Done, (th, saved), h2)) as Hp by (intros h2 th H; cbn [step]; by rewrite H).
  destruct (default [] (saved !! k)) as [| x sv] eqn:Hk.
  - cbn [map]. destruct (clear_spec ok _ _ _ _ _ _ _ _ _ Hi) as (st' & h' & Hr & Hh). eapply refines_done; [exact Hp | | exact Hh]. unfold ERR_restore_state, ERR_SAVE_STATE in *. rewrite Hk. exact Hr.
  - destruct (saved !! k) as [sv' |] eqn:Hs; [| done]. cbn in Hk. subst sv'. destruct Hrel as [_ Hf _]. cbn [snd] in Hf. pose proof (Forall_lookup_1 _ _ _ _ Hf Hs) as Hn. cbn beta in Hn.
    destruct (restore_spec ok oks (x :: sv) _ _ _ _ _ _ _ _ _ Hi ltac:(done) Hn) as (st' & h' & Hr & Hh); [intros p; by apply (held_lookup _ k) |].
    eapply refines_done; [exact Hp | exact Hr | exact Hh].
Qed.
End alive.

(** * Calls that leave the record alone *)

Lemma delete_ge {A} (l : list A) k : l !! k = None -> delete k l = l.
Proof. revert k. induction l as [| x l IH]; intros [| k] H; try done. cbn. f_equal. by apply IH. Qed.

Lemma map_delete {A B} (g : A -> B) l k : map g (delete k l) = delete k (map g l).
Proof. revert k. induction l as [| x l IH]; intros [| k]; try done. cbn. f_equal. apply IH. Qed.

Lemma free_saved_refines ok k q w h : rel q w h -> refines ok (FreeSaved k) w h (Some (Done, set_saves (delete k (saves q)) q)).
Proof.
  intros Hr. pose proof Hr as [Hs Hf Ht]. destruct w as [th saved]. cbn [fst snd] in *. intros a q' [= <- <-]. cbn [step]. destruct (saved !! k) as [sv |] eqn:Hk.
  - assert (exists h', clear_all sv h = Some (tt, h') /\ rel (set_saves (delete k (saves q)) q) (th, delete k saved) h') as (h' & Hc & Hr').
    2: { exists (th, delete k saved), h'. cbn [ERR_SAVE_STATE_free]. by rewrite Hc. }
    assert (forall h', agree (held (delete k saved)) h h' -> views h' (delete k saved) = delete k (saves q)) as Hv by (intros h' Ha; rewrite (views_agree _ _ _ Ha); unfold views in *; by rewrite map_delete, Hs).
    assert (Forall (fun s => (length s <= 15)%nat) (delete k saved)) as Hf' by (by apply Forall_delete).
    destruct th as [[l t b f s] |].
    + destruct Ht as (Ha & Hd & Hi). pose proof Hi as [_ _ _ _ _ _ Ho]. cbn [errors to_free] in Ho. rewrite (held_delete _ _ _ Hk) in Ho.
      assert (owns (ptrs sv ++ ptrs l ++ opt f ++ held (delete k saved)) h) as Ho1. { eapply owns_proper; [| reflexivity | exact Ho]. rewrite Permutation_app_swap_app. f_equiv. apply Permutation_app_swap_app. }
      destruct (free_saved_spec _ _ _ Ho1) as (h' & Hc & Ho2 & Ha2). exists h'. split; [done |]. rewrite app_assoc, agree_app in Ha2. destruct Ha2 as [Ha2 Ha3].
      split; cbn [fst snd]; [by apply Hv | done | split; [done |]; split; [done |]; by eapply inv_heap].
    + destruct Ht as [Hq Ho]. rewrite (held_delete _ _ _ Hk) in Ho. destruct (free_saved_spec _ _ _ Ho) as (h' & Hc & Ho2 & Ha2). exists h'. split; [done |].
      split; cbn [fst snd]; [by apply Hv | done | split; [by rewrite Hq | done]].
  - rewrite (delete_ge saved) by done. assert (saves q !! k = None) as Hk' by (rewrite <- Hs; by apply map_lookup_None). rewrite (delete_ge (saves q)) by done.
    exists (th, saved), h. split; [done |]. by destruct q.
Qed.

Lemma call_refines ok c q st saved h : rel q (Some st, saved) h -> refines ok c (Some st, saved) h (q_call c q).
Proof.
  intros Hr. destruct (rel_alive _ _ _ _ Hr) as [Hq Hi]. destruct st as [l t b f s]. cbn [suppress] in Hq. rewrite Hq in Hr |- *.
  destruct c; [by apply put_refines | by apply read_refines | by apply clear_refines | by apply add_data_refines | by apply add_dataf_refines | by apply set_data_refines | by apply suppress_refines; [| | left]
    | by apply suppress_refines; [| | right] | by apply set_mark_refines | by apply pop_refines | by apply save_refines | by apply restore_refines | by apply free_saved_refines].
Qed.

(** * Calls before the record exists *)

Definition woken (q : queue) : queue := mk_queue true (es q) (lent q) (depth q) (saves q).

Lemma rel_new q saved h : rel q (None, saved) h -> rel (woken q) (Some new_state, saved) h.
Proof. intros [Hs Hf [Hq Ho]]. cbn [fst snd] in *. rewrite Hq. split; [done | done |]. split; [done |]. split; [done |]. by apply new_state_inv. Qed.

(** A call that allocates the record runs as on the new one. *)
Definition wakes (c : call) : bool :=
  match c with
  | SuppressEnd | FreeSaved _ | AddDataf None | SetData false _ _ => false
  | AddData malloc_ok args => malloc_ok && (len (total args) <? SIZE_MAX)
  | _ => true
  end.

Lemma step_wakes c saved h : wakes c = true -> step true c (None, saved) h = step true c (Some new_state, saved) h.
Proof.
  destruct c as [| | | m args | [txt |] | [|] txt flags | | | | | | k oks |]; cbn [wakes]; intros Hw; try discriminate Hw; cbn [step];
    unfold ERR_put_error, get_error_values, ERR_clear_error, ERR_add_error_dataf, ERR_set_error_data, err_set_error_data, ERR_suppress_errors_begin, ERR_set_mark, ERR_pop_to_mark, ERR_save_state, ERR_restore_state, ERR_clear_error;
    cbn [err_get_state]; lazymatch goal with |- context [ERR_add_error_data] => idtac | _ => reflexivity end.
  apply andb_true_iff in Hw as [-> Hw]. cbn [step]. unfold ERR_add_error_data. rewrite !add_vdata_run by lia. unfold err_set_error_data. cbn [err_get_state]. reflexivity.
Qed.

(** A text allocated without a record to hold it is freed again. *)
Lemma drop_text txt R h : owns R h ->
  exists h', r_bind (malloc_copy true txt) (fun p => match p with Some p => err_set_error_data false p None | None => r_ret None end) h = Some (None, h') /\ owns R h' /\ agree R h h'.
Proof.
  intros Ho. destruct (malloc_spec txt _ _ Ho) as (p & h1 & Hm & Ho1 & _ & Ha1). destruct (free_spec (Some p) R h1 Ho1) as (h2 & Hf & Ho2 & Ha2).
  exists h2. rewrite (bind_eq _ _ _ _ _ Hm). unfold err_set_error_data. cbn [err_get_state]. rewrite (bind_eq _ _ _ _ _ Hf). split; [done |]. split; [done |]. by eapply agree_trans.
Qed.

Lemma rel_heap q saved h h' : rel q (None, saved) h -> owns (held saved) h' -> agree (held saved) h h' -> rel q (None, saved) h'.
Proof. intros [Hs Hf [Hq Ho]] Ho' Ha. cbn [fst snd] in *. split; cbn [fst snd]; [by rewrite (views_agree _ _ _ Ha) | done | done]. Qed.

(** A call without a record. *)
Lemma dead_refines ok c q saved h : rel q (None, saved) h -> (ok = false \/ wakes c = false) -> refines ok c (None, saved) h (q_dead c q).
Proof.
  intros Hr Hw. pose proof Hr as [_ Hf [_ Ho]]. cbn [fst snd] in *.
  destruct c as [| | | m args | [txt |] | m txt flags | | | | | | k oks |]; cbn [q_dead wakes] in *; try (destruct Hw as [-> | [=]]; intros a q' [= <- <-]; by eexists _, h).
  - intros a q' [= <- <-]. cbn [step]. unfold ERR_add_error_data. destruct (m && (len (total args) <? SIZE_MAX)) eqn:E.
    + destruct Hw as [-> | [=]]. apply andb_true_iff in E as [-> E]. rewrite add_vdata_run by lia. destruct (drop_text (total args) _ _ Ho) as (h' & -> & Ho' & Ha). eexists _, h'. split; [done |]. by eapply rel_heap.
    + exists (None, saved), h. split; [| done]. pose proof (len_nonneg (total args)). unfold err_add_error_vdata. rewrite vdata_size_spec by (unfold SIZE_MAX; lia).
      change (0 + len (total args)) with (len (total args)). destruct (len (total args) <? SIZE_MAX); [| done]. rewrite andb_true_r in E. by rewrite E.
  - destruct Hw as [-> | [=]]. intros a q' [= <- <-]. destruct (drop_text txt _ _ Ho) as (h' & Hd & Ho' & Ha). exists (None, saved), h'. split; [| by eapply rel_heap]. cbn [step]. unfold ERR_add_error_dataf.
    unfold malloc_copy, r_bind in *. by rewrite Hd.
  - destruct (Z.land flags ERR_FLAG_STRING =? 0) eqn:E; [by intros a q' |]. intros a q' [= <- <-]. cbn [step]. unfold ERR_set_error_data. rewrite E. destruct m.
    + destruct Hw as [-> | [=]]. destruct (drop_text txt _ _ Ho) as (h' & -> & Ho' & Ha). eexists _, h'. split; [done |]. by eapply rel_heap.
    + by eexists _, h.
  - destruct Hw as [-> | [=]]. intros a q' [= <- <-]. exists (None, saved), h. split; [| done]. cbn [step]. unfold ERR_restore_state. destruct (saved !! k) as [s |] eqn:Hk; [| done].
    change (default [] (Some s)) with s. cbv zeta. pose proof (Forall_lookup_1 _ _ _ _ Hf Hk) as Hn. cbn beta in Hn. destruct (length s =? 0)%nat; [done |].
    by replace (ERR_NUM_ERRORS <=? length s)%nat with false by (symmetry; apply Nat.leb_gt; unfold ERR_NUM_ERRORS; lia).
  - by apply free_saved_refines.
Qed.

Lemma q_step_dead ok c q : alive q = false -> q_step ok c q = if ok && wakes c then q_call c (woken q) else q_dead c q.
Proof.
  intros Ha. unfold q_step, woken. rewrite Ha. destruct ok, c as [| | | m args | [txt |] | [|] txt flags | | | | | | k oks |]; cbn [wakes andb]; try done; by destruct (m && (len (total args) <? SIZE_MAX)).
Qed.

(** * Sequences of calls *)

Lemma step_refines ok c q w h : rel q w h -> refines ok c w h (q_step ok c q).
Proof.
  intros Hr. destruct w as [[st |] saved].
  - replace (q_step ok c q) with (q_call c q); [by apply call_refines |]. destruct Hr as [_ _ (Ha & _)]. cbn [fst] in Ha. unfold q_step. by rewrite Ha.
  - pose proof Hr as [_ _ [Hq _]]. cbn [fst] in Hq. rewrite q_step_dead by (by rewrite Hq). destruct (ok && wakes c) eqn:E.
    + apply andb_true_iff in E as [-> E]. intros a q' Hc. rewrite step_wakes by done. by apply (call_refines true c (woken q) new_state saved h (rel_new _ _ _ Hr)).
    + apply dead_refines; [done |]. apply andb_false_iff in E. tauto.
Qed.

Lemma steps_refine cs q w h a q' : rel q w h -> q_steps cs q = Some (a, q') -> exists w' h', steps cs w h = Some (a, w', h') /\ rel q' w' h'.
Proof.
  revert q w h a. induction cs as [| [ok c] cs IH]; intros q w h a Hr; cbn [q_steps steps].
  - intros [= <- <-]. by exists w, h.
  - destruct (q_step ok c q) as [[a1 q1] |] eqn:Hs; [| done]. destruct (q_steps cs q1) as [[as_ q2] |] eqn:Hss; [| done]. intros [= <- <-].
    destruct (step_refines ok c q w h Hr _ _ Hs) as (w1 & h1 & -> & Hr1). destruct (IH _ _ _ _ Hr1 Hss) as (w2 & h2 & -> & Hr2). by exists w2, h2.
Qed.

(** The end of the thread: its record and its saved states are freed. *)
Fixpoint free_all (saved : list ERR_SAVE_STATE) : prog unit :=
  match saved with
  | [] => r_ret tt
  | s :: saved => do_ ERR_SAVE_STATE_free (Some s); free_all saved
  end.

Definition teardown (w : world) : prog unit := do_ err_state_free (fst w); free_all (snd w).

Lemma free_all_spec saved h : owns (held saved) h -> exists h', free_all saved h = Some (tt, h') /\ owns [] h'.
Proof.
  revert h. induction saved as [| s saved IH]; intros h Ho; [by exists h |]. destruct (free_saved_spec s (held saved) h Ho) as (h1 & Hc & Ho1 & _). destruct (IH h1 Ho1) as (h2 & Hf & Ho2).
  exists h2. split; [| done]. cbn [free_all ERR_SAVE_STATE_free]. by rewrite (bind_eq _ _ _ _ _ Hc).
Qed.

Lemma owns_nil h : owns [] h -> h = ∅.
Proof. intros [_ H]. apply map_empty. intros p. destruct (h !! p) eqn:E; [| done]. exfalso. apply (not_elem_of_nil p), H. by rewrite E. Qed.

Lemma rel_teardown q w h : rel q w h -> teardown w h = Some (tt, ∅).
Proof.
  intros [_ _ Ht]. destruct w as [[[l t b f s] |] saved]; cbn [fst snd] in *; unfold teardown; cbn [fst snd].
  - destruct Ht as (_ & _ & Hi). destruct (clear_all_spec _ _ _ _ _ _ _ _ _ Hi) as (h1 & h2 & Hc & Hf & Ho & _). destruct (free_all_spec _ _ Ho) as (h3 & Hfa & Ho3). apply owns_nil in Ho3 as ->.
    unfold err_state_free. unfold r_bind at 1. rewrite (bind_eq _ _ _ _ _ Hc). cbn [to_free]. by rewrite Hf.
  - destruct Ht as [_ Ho]. destruct (free_all_spec _ _ Ho) as (h3 & Hfa & Ho3). by apply owns_nil in Ho3 as ->.
Qed.

Lemma rel_empty : rel q_empty (None, []) ∅.
Proof. split; [done | done |]. split; [done |]. split; [apply NoDup_nil_2 |]. intros p. rewrite lookup_empty. split; [by intros ?%not_elem_of_nil | by intros [? [=]]]. Qed.

(** C10: any sequence of calls of the error queue gives the answers of the bounded queue, with no
    string freed twice or used after it was freed, and the end of the thread leaves no string
    allocated. *)
Theorem err_refines_queue (cs : list (bool * call)) (answers : list answer) (q : queue) :
  q_steps cs q_empty = Some (answers, q) ->
  exists w h, steps cs (None, []) ∅ = Some (answers, w, h) /\ (length (es q) <= 15)%nat /\ views h (snd w) = saves q /\ teardown w h = Some (tt, ∅).
Proof.
  intros Hq. destruct (steps_refine _ _ _ _ _ _ rel_empty Hq) as (w & h & Hs & Hr). exists w, h. split; [done |]. pose proof Hr as [Hv _ Ht]. split; [| split; [done | by apply (rel_teardown q)]].
  destruct w as [[st |] saved]; cbn [fst] in Ht; [by destruct Ht as (_ & _ & []) |]. destruct Ht as [-> _]. cbn. lia.
Qed.

Lemma err_refines_queue_witness :
  exists w h answers,
    steps [(true, Put 0 4 100 (Some [97]) 7); (true, AddData true [Some [1; 2]; None; Some [3]]); (true, Save true (fun _ => true)); (true, Read Next true);
           (true, Put 5 2 0 None 1); (true, SetMark); (true, Put 0 6 1 None 2); (true, PopToMark); (true, Restore 0 (fun _ => true)); (true, Read PeekLast true)] (None, []) ∅ = Some (answers, w, h) /\
    last answers = Some (Got (ERR_PACK 4 100) ([97], 7) (Some [1; 2; 3]) 3) /\ teardown w h = Some (tt, ∅).
Proof.
  match goal with |- exists w h a, steps ?cs _ _ = _ /\ _ =>
    destruct (q_steps cs q_empty) as [[a q] |] eqn:E; [| vm_compute in E; discriminate E];
    destruct (err_refines_queue cs a q E) as (w & h & Hs & _ & _ & Ht); exists w, h, a; split; [exact Hs |]; split; [| exact Ht];
    vm_compute in E; injection E as <- _; reflexivity end.
Defined.

(** * Marks and saved states *)

Definition put_call (e : Z * Z * Z * option bytes * Z) : bool * call := let '(errno, library, reason, f, ln) := e in (true, Put errno library reason f ln).
Definition put_of (e : Z * Z * Z * option bytes * Z) : entry := let '(errno, library, reason, f, ln) := e in put_entry errno library reason f ln.

Lemma q_steps_app cs cs' q : q_steps (cs ++ cs') q = match q_steps cs q with Some (a, q) => match q_steps cs' q with Some (a', q) => Some (a ++ a', q) | None => None end | None => None end.
Proof.
  revert q. induction cs as [| [ok c] cs IH]; intros q; cbn [q_steps app]; [by destruct (q_steps cs' q) as [[] |] |]. destruct (q_step ok c q) as [[a1 q1] |]; [| done].
  rewrite IH. destruct (q_steps cs q1) as [[a2 q2] |]; [| done]. by destruct (q_steps cs' q2) as [[] |].
Qed.

Lemma steps_app cs cs' w h : steps (cs ++ cs') w h = match steps cs w h with Some (a, w, h) => match steps cs' w h with Some (a', w, h) => Some (a ++ a', w, h) | None => None end | None => None end.
Proof.
  revert w h. induction cs as [| [ok c] cs IH]; intros w h; cbn [steps app]; [by destruct (steps cs' w h) as [[[] ?] |] |]. destruct (step ok c w h) as [[[a1 w1] h1] |]; [| done].
  rewrite IH. destruct (steps cs w1 h1) as [[[a2 w2] h2] |]; [| done]. by destruct (steps cs' w2 h2) as [[[] ?] |].
Qed.

(** Errors that fit. *)
Lemma q_puts es0 l T S : (length es0 + length l <= 15)%nat ->
  q_steps (map put_call l) (mk_queue true es0 T 0 S) = Some (replicate (length l) Done, mk_queue true (es0 ++ map put_of l) T 0 S).
Proof.
  revert es0. induction l as [| e l IH]; intros es0 Hn; cbn [map q_steps length replicate] in *; [by rewrite app_nil_r |]. destruct e as [[[[errno library] reason] f] ln]. cbn [put_call].
  unfold q_step. cbn [alive q_call depth Z.eqb]. unfold set_es, push. cbn [es alive lent depth saves]. replace (length es0 =? 15)%nat with false by (symmetry; apply Nat.eqb_neq; lia).
  rewrite IH by (rewrite length_app; cbn; lia). by rewrite <- app_assoc.
Qed.

Lemma to_mark_skip x r : Forall (fun e => e_mark e = false) x -> to_mark (x ++ r) = to_mark r.
Proof. induction 1 as [| e x He Hx IH]; [done |]. cbn [app to_mark]. by rewrite He. Qed.

Lemma puts_unmarked l : Forall (fun e => e_mark e = false) (reverse (map put_of l)).
Proof. apply Forall_reverse, Forall_fmap, Forall_true. by intros [[[[errno library] reason] f] ln]. Qed.

(** Setting a mark, raising errors that fit and going back to the mark. *)
Definition attempt (puts : list (Z * Z * Z * option bytes * Z)) : list (bool * call) := (true, SetMark) :: map put_call puts ++ [(true, PopToMark)].

Lemma q_attempt L e T S puts : (length (L ++ [e]) + length puts <= 15)%nat ->
  q_steps (attempt puts) (mk_queue true (L ++ [e]) T 0 S) = Some (Flag true :: replicate (length puts) Done ++ [Flag true], mk_queue true (L ++ [with_mark false e]) T 0 S).
Proof.
  assert ((length (L ++ [e]) =? 0)%nat = false) as H0 by (by destruct L). intros Hn. unfold attempt. cbn [q_steps]. unfold q_step at 1. cbn [alive q_call es]. unfold set_es. cbn [alive lent depth saves es].
  rewrite on_last_snoc, q_steps_app. rewrite length_app in Hn. cbn [length] in Hn.
  rewrite q_puts by (rewrite length_app; cbn [length]; lia). cbn [q_steps]. unfold q_step. cbn [alive q_call es]. rewrite reverse_app, to_mark_skip by apply puts_unmarked. rewrite to_mark_snoc. cbn [e_mark].
  unfold set_es. cbn [alive lent depth saves es]. rewrite reverse_cons, reverse_involutive. by rewrite H0.
Qed.

(** an attempt that sets a mark, raises errors and goes back to the mark leaves no trace: every
    later call answers as if it had not happened, the mark itself being gone. *)
Theorem err_attempt_leaves_no_trace (cs more : list (bool * call)) (puts : list (Z * Z * Z * option bytes * Z)) (a a' : list answer) (q q' : queue) (L : list entry) (e : entry) :
  q_steps cs q_empty = Some (a, q) -> alive q = true -> depth q = 0 -> es q = L ++ [e] -> (length (es q) + length puts <= 15)%nat ->
  q_steps more (set_es (L ++ [with_mark false e]) q) = Some (a', q') ->
  exists w h, steps (cs ++ attempt puts ++ more) (None, []) ∅ = Some (a ++ (Flag true :: replicate (length puts) Done ++ [Flag true]) ++ a', w, h).
Proof.
  intros Hq Ha Hd He Hn Hm. destruct (steps_refine (cs ++ attempt puts ++ more) _ _ _ (a ++ (Flag true :: replicate (length puts) Done ++ [Flag true]) ++ a') q' rel_empty) as (w & h & Hs & _); [| by exists w, h].
  rewrite !q_steps_app, Hq. destruct q as [al es0 T d S]. cbn [alive depth es set_es lent saves] in *. subst al d es0. rewrite q_steps_app, q_attempt by done. unfold set_es in Hm. cbn [alive lent depth saves] in Hm. by rewrite Hm.
Qed.

Lemma err_attempt_leaves_no_trace_witness :
  exists w h, steps ([(true, Put 0 4 100 None 7)] ++ attempt [(0, 6, 1, None, 1); (0, 6, 2, None, 2)] ++ [(true, Read PeekLast false)]) (None, []) ∅ =
              Some ([Done] ++ (Flag true :: replicate 2 Done ++ [Flag true]) ++ [Got (ERR_PACK 4 100) ([78; 65], 0) None 0], w, h).
Proof.
  apply (err_attempt_leaves_no_trace _ _ [(0, 6, 1, None, 1); (0, 6, 2, None, 2)] _ _ (mk_queue true [put_entry 0 4 100 None 7] None 0 []) (mk_queue true [put_entry 0 4 100 None 7] None 0 []) [] (put_entry 0 4 100 None 7));
    [vm_compute; reflexivity | reflexivity | reflexivity | reflexivity | cbn; lia | vm_compute; reflexivity].
Defined.

(** A call that does not free a saved state keeps all of them. *)
Definition keeps (c : call) : bool := match c with FreeSaved _ => false | _ => true end.

Lemma q_step_keeps ok c q a q' : keeps c = true -> q_step ok c q = Some (a, q') -> saves q `prefix_of` saves q'.
Proof.
  intros Hk. unfold q_step. assert (forall q, saves (woken q) = saves q) as Hw by done.
  assert (forall q, q_call c q = Some (a, q') -> saves q `prefix_of` saves q') as Hc.
  { clear q. intros q. destruct c; cbn [q_call]; unfold set_text, set_es, set_lent, set_depth, set_saves; try done; repeat case_match; intros [=]; subst; cbn [saves] in *; try done; by apply prefix_app_r. }
  assert (q_dead c q = Some (a, q') -> saves q `prefix_of` saves q') as Hd. { destruct c; cbn [q_dead]; try done; repeat case_match; intros [=]; subst; done. }
  destruct (alive q); [apply Hc |]. fold (woken q). destruct c; try done; repeat case_match; try (intros [=]; subst; done); first [exact Hd | rewrite <- (Hw q); apply Hc].
Qed.
Lemma q_step_alive ok c q a q' : alive q = true -> q_step ok c q = Some (a, q') -> alive q' = true.
Proof.
  intros Ha. unfold q_step. rewrite Ha. destruct c; cbn [q_call]; unfold set_text, set_es, set_lent, set_depth, set_saves; try done; repeat case_match; intros [=]; subst; cbn [alive] in *; congruence.
Qed.

Lemma q_steps_keep cs q a q' : Forall (fun c => keeps (snd c) = true) cs -> alive q = true -> q_steps cs q = Some (a, q') -> saves q `prefix_of` saves q' /\ alive q' = true.
Proof.
  revert q a. induction cs as [| [ok c] cs IH]; intros q a Hk Ha; cbn [q_steps]; [by intros [= <- <-] |]. apply Forall_cons in Hk as [Hk Hks]. cbn [snd] in Hk.
  destruct (q_step ok c q) as [[a1 q1] |] eqn:Hs; [| done]. destruct (q_steps cs q1) as [[a2 q2] |] eqn:Hss; [| done]. intros [= <- <-].
  destruct (IH _ _ Hks (q_step_alive _ _ _ _ _ Ha Hs) Hss) as [Hp Ha2]. split; [| done]. etrans; [by eapply q_step_keeps | done].
Qed.

Definition yes (i : nat) : bool := true.

Lemma copy_all l : copy_entries yes l = map (with_mark false) l.
Proof. exact (imap_const (with_mark false) l). Qed.

Lemma q_restore q l k : alive q = true -> saves q !! k = Some l -> l <> [] -> q_step true (Restore k yes) q = Some (Done, set_es (map (with_mark false) l) q).
Proof. intros Ha Hk Hl. unfold q_step. rewrite Ha. cbn [q_call]. rewrite Hk. change (default [] (Some l)) with l. rewrite <- copy_all. by destruct l. Qed.

Lemma marks_twice l : map (with_mark false) (map (with_mark false) l) = map (with_mark false) l.
Proof. rewrite map_map. by apply map_ext. Qed.

(** A saved state restores the errors, texts included and without their marks, whatever was
    called in between, as long as it was not freed. *)
Theorem err_save_restores (cs mid more : list (bool * call)) (a am a' : list answer) (q q1 q' : queue) :
  q_steps cs q_empty = Some (a, q) -> alive q = true -> es q <> [] -> Forall (fun c => keeps (snd c) = true) mid ->
  q_steps mid (set_saves (saves q ++ [map (with_mark false) (es q)]) q) = Some (am, q1) ->
  q_steps more (set_es (map (with_mark false) (es q)) q1) = Some (a', q') ->
  exists w h, steps (cs ++ [(true, Save true yes)] ++ mid ++ [(true, Restore (length (saves q)) yes)] ++ more) (None, []) ∅ = Some (a ++ [Flag true] ++ am ++ [Done] ++ a', w, h).
Proof.
  intros Hq Ha He Hk Hmid Hmore. destruct (steps_refine (cs ++ [(true, Save true yes)] ++ mid ++ [(true, Restore (length (saves q)) yes)] ++ more) _ _ _ (a ++ [Flag true] ++ am ++ [Done] ++ a') q' rel_empty) as (w & h & Hs & _); [| by exists w, h].
  destruct (q_steps_keep mid (set_saves (saves q ++ [map (with_mark false) (es q)]) q) _ _ Hk Ha Hmid) as [[more_saves Hp] Ha1]. cbn [saves set_saves] in Hp.
  assert (q_step true (Save true yes) q = Some (Flag true, set_saves (saves q ++ [map (with_mark false) (es q)]) q)) as Hsave.
  { unfold q_step. rewrite Ha. cbn [q_call negb]. rewrite copy_all. by destruct (es q). }
  assert (q_step true (Restore (length (saves q)) yes) q1 = Some (Done, set_es (map (with_mark false) (es q)) q1)) as Hrest.
  { rewrite (q_restore _ (map (with_mark false) (es q))); [by rewrite marks_twice | done | | by destruct (es q)]. rewrite Hp, <- app_assoc. by apply list_lookup_middle. }
  rewrite q_steps_app, Hq. cbn [q_steps app]. rewrite Hsave, q_steps_app, Hmid. cbn [q_steps app]. by rewrite Hrest, Hmore.
Qed.

Definition saved_entry : entry := mk_entry None (Some [104; 105]) (ERR_PACK 4 100) 7 false.

Lemma err_save_restores_witness :
  exists w h, steps ([(true, Put 0 4 100 None 7); (true, AddData true [Some [104; 105]])] ++ [(true, Save true yes)] ++ [(true, Clear); (true, Put 0 6 1 None 1)] ++ [(true, Restore 0 yes)] ++ [(true, Read Next true); (true, Read Next true)]) (None, []) ∅ =
              Some ([Done; Done] ++ [Flag true] ++ [Done; Done] ++ [Done] ++ [Got (ERR_PACK 4 100) ([78; 65], 0) (Some [104; 105]) 3; Got 0 ([], 0) None 0], w, h).
Proof.
  refine (err_save_restores [(true, Put 0 4 100 None 7); (true, AddData true [Some [104; 105]])] [(true, Clear); (true, Put 0 6 1 None 1)] [(true, Read Next true); (true, Read Next true)]
            [Done; Done] [Done; Done] [Got (ERR_PACK 4 100) ([78; 65], 0) (Some [104; 105]) 3; Got 0 ([], 0) None 0]
            (mk_queue true [saved_entry] None 0 []) (mk_queue true [put_entry 0 6 1 None 1] None 0 [[saved_entry]]) (mk_queue true [] (Some [104; 105]) 0 [[saved_entry]]) _ _ _ _ _ _);
    [vm_compute; reflexivity | reflexivity | discriminate | repeat constructor | vm_compute; reflexivity | vm_compute; reflexivity].
Defined.
(** * Suppression *)

(** Calls that raise errors and open or close nested scopes; [d] counts the scopes. *)
Fixpoint scoped (d : nat) (cs : list (bool * call)) : bool :=
  match cs with
  | [] => (d =? 0)%nat
  | (_, c) :: cs =>
      match c with
      | Put _ _ _ _ _ | AddData _ _ | AddDataf _ => scoped d cs
      | SetData _ _ flags => negb (Z.land flags ERR_FLAG_STRING =? 0) && scoped d cs
      | SuppressBegin => scoped (S d) cs
      | SuppressEnd => match d with O => false | S d => scoped d cs end
      | _ => false
      end
  end.

Definition at_depth (st : ERR_STATE) (d : nat) : ERR_STATE := set_suppress (suppress st + Z.of_nat d) st.

(** An allocation that is given back leaves the heap as it was. *)
Lemma suppressed_text ok st h txt : suppress st <> 0 ->
  r_bind (malloc_copy true txt) (fun p => match p with Some p => err_set_error_data ok p (Some st) | None => r_ret (Some st) end) h = Some (Some st, h).
Proof.
  intros Hs. unfold malloc_copy, r_bind, err_set_error_data. cbn [err_get_state]. replace (suppress st =? 0) with false by lia. cbn [negb]. rewrite orb_true_r. unfold r_bind, free, r_ret.
  rewrite lookup_insert_eq, delete_insert_id; [done |]. apply not_elem_of_dom, is_fresh.
Qed.

(** A call that raises an error in a scope. *)
Lemma suppressed_step ok c st saved h : scoped 0 [(ok, c)] = true -> suppress st <> 0 -> step ok c (Some st, saved) h = Some (Done, (Some st, saved), h).
Proof.
  intros Hc Hs. destruct c as [| | | m args | [txt |] | m txt flags | | | | | | |]; cbn [scoped] in Hc; try done; cbn [step].
  - unfold ERR_put_error. cbn [err_get_state]. by replace (suppress st =? 0) with false by lia.
  - unfold ERR_add_error_data. destruct (m && (len (total args) <? SIZE_MAX)) eqn:E.
    + apply andb_true_iff in E as [-> E]. rewrite add_vdata_run by lia. by rewrite suppressed_text.
    + pose proof (len_nonneg (total args)). unfold err_add_error_vdata. rewrite vdata_size_spec by (unfold SIZE_MAX; lia). change (0 + len (total args)) with (len (total args)).
      destruct (len (total args) <? SIZE_MAX); [| done]. rewrite andb_true_r in E. by rewrite E.
  - pose proof (suppressed_text ok st h txt Hs) as H. unfold ERR_add_error_dataf, malloc_copy, r_bind in *. by rewrite H.
  - apply andb_true_iff in Hc as [Hc _]. unfold ERR_set_error_data. apply negb_true_iff in Hc. rewrite Hc. destruct m; [by rewrite suppressed_text | done].
Qed.

Lemma suppressed_steps cs st saved h d :
  0 < suppress st -> suppress st + Z.of_nat d + Z.of_nat (length cs) < 2 ^ 32 -> scoped d cs = true ->
  exists answers, steps cs (Some (at_depth st d), saved) h = Some (answers, (Some st, saved), h).
Proof.
  intros Hs. revert d. induction cs as [| [ok c] cs IH]; intros d Hd Hc.
  { cbn in Hc. apply Nat.eqb_eq in Hc as ->. exists []. cbn [steps]. unfold at_depth. rewrite Z.add_0_r. by destruct st. }
  cbn [length] in Hd. rewrite Nat2Z.inj_succ in Hd.
  assert (forall a d', step ok c (Some (at_depth st d), saved) h = Some (a, (Some (at_depth st d'), saved), h) -> (d' <= S d)%nat -> scoped d' cs = true ->
          exists answers, steps ((ok, c) :: cs) (Some (at_depth st d), saved) h = Some (answers, (Some st, saved), h)) as Hgo.
  { intros a d' Hst Hd' Hc'. destruct (IH d' ltac:(lia) Hc') as [answers Ha]. exists (a :: answers). cbn [steps]. by rewrite Hst, Ha. }
  assert (suppress (at_depth st d) <> 0) as Hne by (cbn; lia).
  destruct c as [| | | | | m txt flags | | | | | | |]; cbn [scoped] in Hc; try done.
  - eapply Hgo; [apply suppressed_step; done | lia | done].
  - eapply Hgo; [apply suppressed_step; done | lia | done].
  - eapply Hgo; [apply suppressed_step; done | lia | done].
  - apply andb_true_iff in Hc as [Hf Hc]. eapply Hgo; [apply suppressed_step; [cbn [scoped]; by rewrite Hf | done] | lia | done].
  - apply (Hgo (Flag true) (S d)); [| lia | done]. cbn [step]. unfold ERR_suppress_errors_begin, at_depth. cbn [err_get_state set_suppress suppress].
    replace (u32 (suppress st + Z.of_nat d + 1)) with (suppress st + Z.of_nat (S d)); [done |]. unfold u32, wrap. rewrite Z.mod_small by lia. lia.
  - destruct d as [| d]; [done |]. apply (Hgo Done d); [| lia | done]. cbn [step]. unfold ERR_suppress_errors_end, at_depth, r_bind, r_assert. cbn [set_suppress suppress].
    assert ((suppress st + Z.of_nat (S d) >? 0) = true) as -> by (apply Z.gtb_lt; lia). unfold r_ret. replace (suppress st + Z.of_nat (S d) - 1) with (suppress st + Z.of_nat d) by lia. done.
Qed.

(** C11: a suppression scope leaves the record bit for bit and the heap as it found them, whatever
    errors are raised in it and in the scopes nested in it: the entries, the marks and the strings
    already read stay. *)
Theorem err_suppression_bit_for_bit (cs : list (bool * call)) (st : ERR_STATE) (saved : list ERR_SAVE_STATE) (h : gmap nat bytes) :
  0 <= suppress st -> suppress st + Z.of_nat (length cs) + 1 < 2 ^ 32 -> scoped 0 cs = true ->
  exists answers, steps ((true, SuppressBegin) :: cs ++ [(true, SuppressEnd)]) (Some st, saved) h = Some (answers, (Some st, saved), h).
Proof.
  intros Hs Hd Hc. assert (u32 (suppress st + 1) = suppress st + 1) as Hu by (unfold u32, wrap; apply Z.mod_small; lia).
  destruct (suppressed_steps cs (set_suppress (suppress st + 1) st) saved h 0) as [answers Ha]; [cbn; lia | cbn [suppress set_suppress]; lia | done |].
  exists (Flag true :: answers ++ [Done]). cbn [steps step]. unfold ERR_suppress_errors_begin. cbn [err_get_state]. rewrite Hu, steps_app.
  unfold at_depth in Ha. cbn [set_suppress suppress Z.of_nat] in Ha. rewrite Z.add_0_r in Ha. unfold set_suppress in Ha |- *. cbn [errors top bottom to_free suppress] in Ha. rewrite Ha. cbn [steps step].
  unfold ERR_suppress_errors_end, r_bind, r_assert, set_suppress. cbn [suppress errors top bottom to_free]. replace (suppress st + 1 >? 0) with true by lia. unfold r_ret. rewrite Z.add_simpl_r. by destruct st.
Qed.

Lemma err_suppression_bit_for_bit_witness :
  exists answers, steps ((true, SuppressBegin) :: [(true, Put 0 4 100 None 7); (true, AddData true [Some [1]]); (true, SuppressBegin); (true, Put 0 4 101 None 8); (true, SuppressEnd); (true, AddDataf (Some [2]))] ++ [(true, SuppressEnd)])
                    (Some new_state, []) ∅ = Some (answers, (Some new_state, []), ∅).
Proof. apply (err_suppression_bit_for_bit [(true, Put 0 4 100 None 7); (true, AddData true [Some [1]]); (true, SuppressBegin); (true, Put 0 4 101 None 8); (true, SuppressEnd); (true, AddDataf (Some [2]))]); [cbn; lia | cbn; lia | reflexivity]. Defined.
End ErrRefine.
