(* ===== verification/ErrText.v ===== *)
(** The texts of errors (crypto/err/err.c): the search for a reason in the generated table, the
    one-line description with its five fields, and the printing of a whole queue. *)

From Stdlib Require Import String Ascii.
From stdpp Require Import sorting.
From S2P Require Import Prelude Cbs Der CbsText Store Err ErrSpec.

Open Scope Z_scope.
Open Scope list_scope.
Open Scope c_scope.

Module ErrText.
Import Err CbsText.

Definition bytes_of (s : string) : bytes := map (fun c => Z.of_N (N_of_ascii c)) (list_ascii_of_string s).

(** * Reasons *)

(** The key of an entry of the table: the library and the reason. *)
Definition err_string_cmp (a b : Z) : Z :=
  let a_key := Z.shiftr a 15 in
  let b_key := Z.shiftr b 15 in
  if a_key <? b_key then -1 else if a_key >? b_key then 1 else 0.

(** [bsearch] of the C library, on the [n] entries from [base] on. *)
Fixpoint bsearch (fuel : nat) (key : Z) (values : list Z) (base n : nat) (cmp : Z -> Z -> Z) : option Z :=
  match fuel with
  | O => None
  | S fuel =>
      if (n =? 0)%nat then None
      else
        let mid := (base + n / 2)%nat in
        match values !! mid with
        | None => None
        | Some v =>
            let c := cmp key v in
            if c <? 0 then bsearch fuel key values base (n / 2) cmp
            else if c >? 0 then bsearch fuel key values (S mid) (n - n / 2 - 1) cmp
            else Some v
        end
  end.

(** The NUL-terminated string at the front. *)
Fixpoint cstring (data : bytes) : bytes :=
  match data with
  | [] => []
  | c :: data => if c =? 0 then [] else c :: cstring data
  end.

Definition err_string_lookup (lib key : Z) (values : list Z) (string_data : bytes) : option bytes :=
  if (lib >=? Z.shiftl 1 6) || (key >=? Z.shiftl 1 11) then None
  else
    let search_key := Z.lor (u32 (Z.shiftl lib 26)) (u32 (Z.shiftl key 15)) in
    match bsearch (S (List.length values)) search_key values 0 (List.length values) err_string_cmp with
    | None => None
    | Some result => Some (cstring (drop (Z.to_nat (Z.land result 0x7fff)) string_data))
    end.

Definition ERR_NUM_LIBS : Z := 34.

Definition kLibraryNames : list string :=
  ["invalid library (0)"; "unknown library"; "system library"; "bignum routines"; "RSA routines"; "Diffie-Hellman routines";
   "public key routines"; "memory buffer routines"; "object identifier routines"; "PEM routines"; "DSA routines";
   "X.509 certificate routines"; "ASN.1 encoding routines"; "configuration file routines"; "common libcrypto routines";
   "elliptic curve routines"; "SSL routines"; "BIO routines"; "PKCS7 routines"; "PKCS8 routines"; "X509 V3 routines";
   "random number generator"; "ENGINE routines"; "OCSP routines"; "UI routines"; "COMP routines"; "ECDSA routines"; "ECDH routines";
   "HMAC routines"; "Digest functions"; "Cipher functions"; "HKDF functions"; "Trust Token functions"; "User defined functions"]%string.

Definition library_name (i : Z) : option bytes := option_map bytes_of (kLibraryNames !! Z.to_nat i).

Definition err_lib_error_string (packed_error : Z) : option bytes :=
  let lib := ERR_GET_LIB packed_error in
  if lib >=? ERR_NUM_LIBS then None else library_name lib.

Definition ERR_lib_error_string (packed_error : Z) : bytes := default (bytes_of "unknown library") (err_lib_error_string packed_error).
Definition ERR_func_error_string (packed_error : Z) : bytes := bytes_of "OPENSSL_internal".

Definition ERR_R_MALLOC_FAILURE : Z := Z.lor 1 64.
Definition ERR_R_SHOULD_NOT_HAVE_BEEN_CALLED : Z := Z.lor 2 64.
Definition ERR_R_PASSED_NULL_PARAMETER : Z := Z.lor 3 64.
Definition ERR_R_INTERNAL_ERROR : Z := Z.lor 4 64.
Definition ERR_R_OVERFLOW : Z := Z.lor 5 64.

Section Tables.
(** [strerror] and the generated table of reasons. *)
Context (strerror : Z -> bytes) (kOpenSSLReasonValues : list Z) (kOpenSSLReasonStringData : bytes).

Definition err_reason_error_string (packed_error : Z) : option bytes :=
  let lib := ERR_GET_LIB packed_error in
  let reason := ERR_GET_REASON packed_error in
  if lib =? ERR_LIB_SYS then if reason <? 127 then Some (strerror reason) else None
  else if reason <? ERR_NUM_LIBS then library_name reason
  else if reason <? 100 then
    if reason =? ERR_R_MALLOC_FAILURE then Some (bytes_of "malloc failure")
    else if reason =? ERR_R_SHOULD_NOT_HAVE_BEEN_CALLED then Some (bytes_of "function should not have been called")
    else if reason =? ERR_R_PASSED_NULL_PARAMETER then Some (bytes_of "passed a null parameter")
    else if reason =? ERR_R_INTERNAL_ERROR then Some (bytes_of "internal error")
    else if reason =? ERR_R_OVERFLOW then Some (bytes_of "overflow")
    else None
  else err_string_lookup lib reason kOpenSSLReasonValues kOpenSSLReasonStringData.

Definition ERR_reason_error_string (packed_error : Z) : bytes := default (bytes_of "unknown error") (err_reason_error_string packed_error).

(** * Descriptions *)

Definition hex_digit (d : Z) : Z := if d <? 10 then 48 + d else 87 + d.

(** [%08x] of a 32-bit number. *)
Definition hex8 (v : Z) : bytes := map (fun i => hex_digit (Z.land (Z.shiftr v (4 * i)) 15)) [7; 6; 5; 4; 3; 2; 1; 0].

(** [snprintf] into [n] bytes: the string written and the length of the whole text. *)
Definition snprintf (n : Z) (text : bytes) : bytes * Z := (take (Z.to_nat (n - 1)) text, len text).

(** [strchr] for a colon from the position [s] on. *)
Fixpoint colon_from (t : bytes) (i : nat) : option nat :=
  match t with
  | [] => None
  | c :: t => if c =? 58 then Some i else colon_from t (S i)
  end.
Definition strchr_colon (buf : bytes) (s : nat) : option nat := colon_from (drop s buf) s.

Definition num_colons : nat := 4.

(** [OPENSSL_memset(last_pos, ':', n)]. *)
Definition put_colons (buf : bytes) (last_pos n : nat) : bytes := take last_pos buf ++ replicate n 58 ++ drop (last_pos + n) buf.

(** The loop from the turn [i] on, [k] turns being left, with [s] an index into [buf] of size
    [n]. *)
Fixpoint colon_loop (k i s : nat) (n : nat) (buf : bytes) : bytes :=
  match k with
  | O => buf
  | S k =>
      let last_pos := (n - 1 - num_colons + i)%nat in
      match strchr_colon buf s with
      | None => put_colons buf last_pos (num_colons - i)
      | Some colon => if (last_pos <? colon)%nat then put_colons buf last_pos (num_colons - i) else colon_loop k (S i) (S colon) n buf
      end
  end.

(** The text that [ERR_error_string_n] formats. *)
Definition description (packed_error : Z) : bytes :=
  let lib := ERR_GET_LIB packed_error in
  let reason := ERR_GET_REASON packed_error in
  let lib_str := match err_lib_error_string packed_error with Some s => s | None => fst (snprintf 32 (bytes_of "lib(" ++ decimal lib ++ bytes_of ")")) end in
  let reason_str := match err_reason_error_string packed_error with Some s => s | None => fst (snprintf 32 (bytes_of "reason(" ++ decimal reason ++ bytes_of ")")) end in
  bytes_of "error:" ++ hex8 packed_error ++ bytes_of ":" ++ lib_str ++ bytes_of ":OPENSSL_internal:" ++ reason_str.

(** The string left in the buffer of [n] bytes, [None] when nothing is written. *)
Definition ERR_error_string_n (packed_error n : Z) : option bytes :=
  if n =? 0 then None
  else
    let '(buf, ret) := snprintf n (description packed_error) in
    if ret >=? n then
      if n <=? Z.of_nat num_colons then Some buf
      else Some (colon_loop num_colons 0 0 (Z.to_nat n) buf)
    else Some buf.

Definition ERR_ERROR_STRING_BUF_LEN : Z := 120.

Definition ERR_error_string (packed_error : Z) : option bytes := ERR_error_string_n packed_error ERR_ERROR_STRING_BUF_LEN.

(** * Printing a queue *)

Section Print.
(** The callback, with its state; [thread_hash] comes from the address of the record. *)
Context {W : Type} (callback : bytes -> W -> Z * W) (thread_hash : Z).

(** The line for one error. *)
Definition print_line (packed_error : Z) (where_ : bytes * Z) (data : option bytes) : bytes :=
  let buf := default [] (ERR_error_string_n packed_error ERR_ERROR_STRING_BUF_LEN) in
  fst (snprintf 1024 (decimal thread_hash ++ bytes_of ":" ++ buf ++ bytes_of ":" ++ fst where_ ++ bytes_of ":" ++ decimal (snd where_) ++ bytes_of ":" ++ default [] data ++ [10])).

Fixpoint print_loop (ok : bool) (fuel : nat) (ctx : W) (st : option ERR_STATE) : prog (W * option ERR_STATE) :=
  match fuel with
  | O => r_undefined
  | S fuel =>
      do r <- ERR_get_error_line_data ok st;
      let '(got, st) := r in
      if code got =? 0 then r_ret (ctx, st)
      else
        do data <- match text got with
                   | Some p => if negb (Z.land (text_flags got) ERR_FLAG_STRING =? 0) then (do t <- r_load p; r_ret (Some t)) else r_ret None
                   | None => r_ret None
                   end;
        let '(ret, ctx) := callback (print_line (code got) (where_ got) data) ctx in
        if ret <=? 0 then r_ret (ctx, st) else print_loop ok fuel ctx st
  end.

Definition ERR_print_errors_cb (ok : bool) (ctx : W) (st : option ERR_STATE) : prog (W * option ERR_STATE) :=
  print_loop ok (S ERR_NUM_ERRORS) ctx (err_get_state ok st).
End Print.
End Tables.

(** * The search *)

Definition table_key (v : Z) : Z := Z.shiftr v 15.

(** A table sorted by its keys, each of which occurs once. *)
Definition sorted_table (values : list Z) : Prop :=
  forall i j a b, (i < j)%nat -> values !! i = Some a -> values !! j = Some b -> table_key a < table_key b.

Lemma table_search_spec key values fuel base n :
  sorted_table values -> (base + n <= List.length values)%nat -> (n < fuel)%nat ->
  (forall i v, values !! i = Some v -> table_key v = table_key key -> (base <= i < base + n)%nat) ->
  match bsearch fuel key values base n err_string_cmp with
  | Some v => v ∈ values /\ table_key v = table_key key
  | None => forall v, v ∈ values -> table_key v <> table_key key
  end.
Proof.
  intros Hs. revert base n. induction fuel as [| fuel IH]; intros base n Hb Hn Hr; [lia |]. cbn [bsearch]. destruct (Nat.eqb_spec n 0) as [-> | Hn0].
  { intros v [i Hi]%list_elem_of_lookup Hv. specialize (Hr i v Hi Hv). lia. }
  assert (n / 2 < n)%nat as Hh by (apply Nat.div_lt; lia). set (m := (n / 2)%nat) in *. clearbody m. destruct (lookup_lt_is_Some_2 values (base + m)%nat ltac:(lia)) as [w Hw]. rewrite Hw.
  assert (err_string_cmp key w = if table_key key <? table_key w then -1 else if table_key key >? table_key w then 1 else 0) as -> by done.
  destruct (Z.ltb_spec (table_key key) (table_key w)) as [Hlt | Hge]; cbn [Z.ltb Z.compare]; [| destruct (table_key key >? table_key w) eqn:Hgt; cbn [Z.ltb Z.gtb Z.compare]].
  - apply IH; [lia | lia |]. intros i v Hi Hv. specialize (Hr i v Hi Hv) as Hr'. destruct (Nat.lt_total i (base + m)) as [? | [-> | Hj]]; [lia | simplify_eq; lia |]. pose proof (Hs _ _ _ _ Hj Hw Hi). lia.
  - apply IH; [lia | lia |]. intros i v Hi Hv. specialize (Hr i v Hi Hv) as Hr'. destruct (Nat.lt_total i (base + m)) as [Hj | [-> | ?]]; [| simplify_eq; lia | lia]. pose proof (Hs _ _ _ _ Hj Hi Hw). lia.
  - split; [by eapply list_elem_of_lookup_2 | lia].
Qed.

(** An entry of the table. *)
Definition entry_of (lib key off : Z) : Z := lib * 2 ^ 26 + key * 2 ^ 15 + off.

Lemma search_key_eq lib key : fits 6 lib -> fits 11 key -> Z.lor (u32 (Z.shiftl lib 26)) (u32 (Z.shiftl key 15)) = entry_of lib key 0.
Proof.
  unfold entry_of. intros Hl Hk. assert (Z.shiftl key 15 = key * 2 ^ 15) as E by (apply Z.shiftl_mul_pow2; lia). unfold fits in *.
  unfold u32, wrap. rewrite (Z.mod_small (Z.shiftl lib 26)), E, Z.mod_small by (rewrite ?Z.shiftl_mul_pow2; lia). rewrite lor_shiftl_add by (unfold fits; lia). lia.
Qed.

Lemma table_key_div v : table_key v = v / 2 ^ 15.
Proof. apply Z.shiftr_div_pow2. lia. Qed.

Lemma entry_key lib key v : fits 6 lib -> fits 11 key -> table_key v = table_key (entry_of lib key 0) <-> exists off, fits 15 off /\ v = entry_of lib key off /\ Z.land v 0x7fff = off.
Proof.
  intros Hl Hk. unfold fits, entry_of in *. rewrite !table_key_div. change 0x7fff with (Z.ones 15). rewrite Z.land_ones by lia. split.
  - intros H. exists (v mod 2 ^ 15). repeat split; [apply Z.mod_pos_bound; lia | apply Z.mod_pos_bound; lia |]. Z.div_mod_to_equations. lia.
  - intros (off & Ho & -> & _). Z.div_mod_to_equations. lia.
Qed.

(** The binary search for a reason finds the string of an entry of the generated table exactly
    when the table has one for that library and reason. *)
Theorem err_lookup_exact (lib key : Z) (values : list Z) (string_data : bytes) (r : bytes) :
  sorted_table values -> 0 <= lib -> 0 <= key ->
  err_string_lookup lib key values string_data = Some r <->
  fits 6 lib /\ fits 11 key /\ exists off, fits 15 off /\ entry_of lib key off ∈ values /\ r = cstring (drop (Z.to_nat off) string_data).
Proof.
  intros Hs Hl Hk. unfold err_string_lookup. change (Z.shiftl 1 6) with 64. change (Z.shiftl 1 11) with 2048. destruct ((lib >=? 64) || (key >=? 2048)) eqn:Hc.
  { split; [done |]. intros (? & ? & _). unfold fits in *. lia. }
  assert (fits 6 lib /\ fits 11 key) as [Hl' Hk'] by (unfold fits; lia). rewrite search_key_eq by done.
  pose proof (table_search_spec (entry_of lib key 0) values (S (List.length values)) 0 (List.length values) Hs ltac:(lia) ltac:(lia)) as Hb.
  assert (forall i v, values !! i = Some v -> table_key v = table_key (entry_of lib key 0) -> (0 <= i < 0 + List.length values)%nat) as Hi by (intros i v Hi _; apply lookup_lt_Some in Hi; lia). specialize (Hb Hi).
  destruct (bsearch _ _ _ _ _ _) as [v |]; split.
  - intros [= <-]. destruct Hb as [Hin Hv]. apply entry_key in Hv as (off & Ho & -> & ->); [| done | done]. eauto 8.
  - intros (_ & _ & off & Ho & Hin & ->). destruct Hb as [Hin' Hv]. assert (v = entry_of lib key off) as ->.
    { assert (table_key v = table_key (entry_of lib key off)) as E by (rewrite Hv; unfold entry_of; rewrite !table_key_div; unfold fits in *; Z.div_mod_to_equations; lia).
      apply list_elem_of_lookup in Hin as [i Hi1], Hin' as [j Hj1]. destruct (Nat.lt_total i j) as [H | [-> | H]]; [pose proof (Hs _ _ _ _ H Hi1 Hj1); lia | by simplify_eq | pose proof (Hs _ _ _ _ H Hj1 Hi1); lia]. }
    apply entry_key in Hv as (off' & Ho' & E & ->); [| done | done]. by replace off' with off by (unfold entry_of in E; lia).
  - done.
  - intros (_ & _ & off & Ho & Hin & ->). destruct (Hb _ Hin). unfold entry_of. rewrite !table_key_div. unfold fits in *. Z.div_mod_to_equations. lia.
Qed.

(** * The five fields *)

Definition colons (t : bytes) : nat := List.length (List.filter (fun c => c =? 58) t).

Lemma colons_app t t' : colons (t ++ t') = (colons t + colons t')%nat.
Proof. unfold colons. by rewrite List.filter_app, length_app. Qed.

Lemma colons_replicate n : colons (replicate n 58) = n.
Proof. unfold colons. induction n as [| n IH]; [done |]. cbn. by rewrite IH. Qed.

Lemma colon_from_spec t i j : colon_from t i = Some j -> exists k, j = (i + k)%nat /\ t !! k = Some 58.
Proof.
  revert i. induction t as [| c t IH]; intros i; cbn [colon_from]; [done |]. destruct (Z.eqb_spec c 58) as [-> | _].
  - intros [= <-]. exists 0%nat. split; [lia | done].
  - intros H. destruct (IH _ H) as (k & -> & Hk). exists (S k). split; [lia | done].
Qed.

Lemma strchr_spec buf s j : strchr_colon buf s = Some j -> (s <= j)%nat /\ buf !! j = Some 58.
Proof. intros H. apply colon_from_spec in H as (k & -> & Hk). rewrite lookup_drop in Hk. split; [lia | done]. Qed.

Lemma colons_take_mono t a b : (a <= b)%nat -> (colons (take a t) <= colons (take b t))%nat.
Proof. intros H. replace b with (a + (b - a))%nat by lia. rewrite <- take_take_drop, colons_app. lia. Qed.

Lemma put_colons_spec buf pos n : (pos + n <= List.length buf)%nat -> List.length (put_colons buf pos n) = List.length buf /\ (colons (take pos buf) + n <= colons (put_colons buf pos n))%nat.
Proof.
  intros H. unfold put_colons. rewrite !length_app, length_replicate, length_take, length_drop. split; [lia |]. rewrite !colons_app, colons_replicate. lia.
Qed.

(** Before the turn [i], [i] colons lie before [s], and [s] leaves room for the others. *)
Lemma colon_loop_spec n buf k i s :
  (i + k = num_colons)%nat -> (num_colons < n)%nat -> List.length buf = (n - 1)%nat -> (s <= n - 1 - num_colons + i)%nat -> (i <= colons (take s buf))%nat ->
  let r := colon_loop k i s n buf in
  List.length r = (n - 1)%nat /\ (num_colons <= colons r)%nat /\ take (n - 1 - num_colons) r = take (n - 1 - num_colons) buf.
Proof.
  unfold num_colons. revert i s. induction k as [| k IH]; intros i s Hik Hn Hb Hs Hc; cbn [colon_loop].
  { split; [done |]. pose proof (colons_take_mono buf s (List.length buf) ltac:(lia)) as H. rewrite firstn_all in H. split; [lia | done]. }
  unfold num_colons. pose proof (put_colons_spec buf (n - 1 - 4 + i) (4 - i) ltac:(lia)) as [Hl Hp]. pose proof (colons_take_mono buf s (n - 1 - 4 + i) Hs) as Hm.
  assert (take (n - 1 - 4) (put_colons buf (n - 1 - 4 + i) (4 - i)) = take (n - 1 - 4) buf) as Ht.
  { unfold put_colons. rewrite take_app_le by (rewrite length_take; lia). rewrite take_take. f_equal. lia. }
  destruct (strchr_colon buf s) as [j |] eqn:Hj; [| repeat split; [lia | lia | done]]. destruct (Nat.ltb_spec (n - 1 - 4 + i) j) as [Hlt | Hge]; [repeat split; [lia | lia | done] |]. apply strchr_spec in Hj as [Hsj Hj].
  apply IH; [lia | lia | done | lia |]. rewrite (take_S_r _ _ _ Hj), colons_app. pose proof (colons_take_mono buf s j Hsj). change (colons [58]) with 1%nat. lia.
Qed.

Lemma description_colons strerror values data packed_error : (4 <= colons (description strerror values data packed_error))%nat.
Proof. unfold description. cbv zeta. rewrite !colons_app. change (colons (bytes_of "error:")) with 1%nat. change (colons (bytes_of ":")) with 1%nat. change (colons (bytes_of ":OPENSSL_internal:")) with 2%nat. lia. Qed.

(** C12: the one-line description of an error always fits the buffer with its NUL, is the whole
    description when there is room, and has its five fields however small the buffer is, down to
    five bytes, the part before the last four bytes being that of the description. *)
Theorem err_string_fields (strerror : Z -> bytes) (values : list Z) (data : bytes) (packed_error n : Z) : 0 < n ->
  exists s, ERR_error_string_n strerror values data packed_error n = Some s /\
    let full := description strerror values data packed_error in
    (len full < n -> s = full) /\ (n <= len full -> len s = n - 1) /\
    (4 < n -> (4 <= colons s)%nat /\ take (Z.to_nat n - 5) s = take (Z.to_nat n - 5) full).
Proof.
  intros Hn. pose proof (description_colons strerror values data packed_error) as Hc. unfold ERR_error_string_n. replace (n =? 0) with false by lia. unfold snprintf. set (full := description _ _ _ _) in *. clearbody full.
  destruct (Z.geb_spec (len full) n) as [Hge | Hlt]; unfold len in *.
  - assert (List.length (take (Z.to_nat (n - 1)) full) = (Z.to_nat n - 1)%nat) as Hl by (rewrite length_take; lia). unfold num_colons. destruct (Z.leb_spec n (Z.of_nat 4)) as [Hs | Hb].
    + eexists. split; [reflexivity |]. repeat split; lia.
    + eexists. split; [reflexivity |]. pose proof (colon_loop_spec (Z.to_nat n) (take (Z.to_nat (n - 1)) full) 4 0 0 eq_refl ltac:(unfold num_colons; lia) Hl ltac:(lia) ltac:(lia)) as (H1 & H2 & H3). unfold num_colons in *.
      repeat split; [lia | lia | lia |]. replace (Z.to_nat n - 1 - 4)%nat with (Z.to_nat n - 5)%nat in H3 by lia. rewrite H3, take_take. f_equal. lia.
  - eexists. split; [reflexivity |]. rewrite take_ge by lia. repeat split; lia.
Qed.

(** * Printing in order *)

Import ErrSpec.

Section PrintSpec.
Context (strerror : Z -> bytes) (values : list Z) (strings : bytes) {W : Type} (callback : bytes -> W -> Z * W) (thread_hash : Z).

Definition entry_line (e : entry) : bytes :=
  print_line strerror values strings thread_hash (e_packed e) (match e_file e with None => ([78; 65], 0) | Some f => (f, e_line e) end) (e_text e).

(** The errors that stay, the text last given away and the state of the callback. *)
Fixpoint q_print (ctx : W) (L : list entry) (T : option bytes) : W * list entry * option bytes :=
  match L with
  | [] => (ctx, [], T)
  | e :: L =>
      let T := if bool_decide (is_Some (e_text e)) then e_text e else T in
      if e_packed e =? 0 then (ctx, L, T)
      else let '(ret, ctx) := callback (entry_line e) ctx in if ret <=? 0 then (ctx, L, T) else q_print ctx L T
  end.

Lemma next_spec ok l t b f s h e L T R : inv (mk_state l t b f s) h (e :: L) T R ->
  exists r st h', ERR_get_error_line_data ok (Some (mk_state l t b f s)) h = Some (r, Some st, h') /\ reading_answer h' r = read_entry true e /\
                  holds h L (if bool_decide (is_Some (e_text e)) then e_text e else T) R s st h'.
Proof.
  intros Hi. unfold ERR_get_error_line_data. destruct (e_text e) as [txt |] eqn:E.
  - destruct (next_text_spec ok _ _ _ _ _ _ _ _ _ _ Hi) as (r & st & h' & Hr & Ha & Hh); [by rewrite E |]. rewrite E in Hh. by exists r, st, h'.
  - by apply (next_plain_spec true ok _ _ _ _ _ _ _ _ _ _ Hi); right.
Qed.

Lemma print_loop_spec ok fuel ctx st h L T R : inv st h L T R -> (List.length L < fuel)%nat ->
  exists st' h', print_loop strerror values strings callback thread_hash ok fuel ctx (Some st) h = Some (fst (fst (q_print ctx L T)), Some st', h') /\
                 holds h (snd (fst (q_print ctx L T))) (snd (q_print ctx L T)) R (suppress st) st' h'.
Proof.
  revert ctx st h L T. induction fuel as [| fuel IH]; intros ctx st h L T Hi Hn; [lia |]. cbn [print_loop]. destruct st as [l t b f s], L as [| e L].
  - exists (mk_state l t b f s), h. split; [| done]. unfold ERR_get_error_line_data, get_error_values, r_bind. cbn [err_get_state bottom top]. rewrite Nat.eqb_sym, (inv_top_empty _ _ _ _ _ _ _ _ _ Hi). done.
  - destruct (next_spec ok _ _ _ _ _ _ _ _ _ _ Hi) as (r & st1 & h1 & Hr & Ha & Hh). rewrite (bind_eq _ _ _ _ _ Hr). cbn [q_print suppress].
    destruct r as [c w tx fl]. unfold reading_answer, read_entry in Ha. cbn [code where_ text text_flags] in *. injection Ha as -> -> Htx Hfl.
    destruct (e_packed e =? 0) eqn:Hz; [by exists st1, h1 |].
    assert (forall B (g : option bytes -> prog B), r_bind (match tx with Some p => if negb (Z.land fl ERR_FLAG_STRING =? 0) then (do t <- r_load p; r_ret (Some t)) else r_ret None | None => r_ret None end) g h1 = g (e_text e) h1) as ->.
    { intros B g. destruct tx as [p |]; cbn [deref andb] in Htx, Hfl; [| by rewrite <- Htx]. rewrite Hfl. destruct (e_text e) as [txt |]; [| done].
      change (negb (Z.land (if bool_decide (is_Some (Some txt)) then 3 else 0) ERR_FLAG_STRING =? 0)) with true. cbn iota. unfold r_bind. by rewrite (load_eq _ _ _ Htx). }
    unfold entry_line. destruct (callback _ ctx) as [ret ctx1]. destruct (ret <=? 0); [by exists st1, h1 |]. destruct Hh as (Hi1 & Ha1 & Hs1).
    destruct (IH ctx1 st1 h1 L _ Hi1 ltac:(cbn in Hn; lia)) as (st2 & h2 & Hp & Hi2 & Ha2 & Hs2). exists st2, h2. split; [done |]. split; [done |]. split; [by eapply agree_trans | by rewrite Hs2].
Qed.
End PrintSpec.

(** Printing a queue hands its errors to the callback from the oldest on, with their places and
    texts, until the callback refuses one, and takes exactly those errors from the queue; printing
    always ends. *)
Theorem err_print_in_order (strerror : Z -> bytes) (values : list Z) (strings : bytes) (W : Type) (callback : bytes -> W -> Z * W) (thread_hash : Z)
    (ok : bool) (ctx : W) (st : ERR_STATE) (h : gmap nat bytes) (L : list entry) (T : option bytes) (R : list nat) : inv st h L T R ->
  let '(ctx', L', T') := q_print strerror values strings callback thread_hash ctx L T in
  exists st' h', ERR_print_errors_cb strerror values strings callback thread_hash ok ctx (Some st) h = Some (ctx', Some st', h') /\ inv st' h' L' T' R /\ agree R h h'.
Proof.
  intros Hi. pose proof Hi as [_ _ Hn _ _ _ _].
  destruct (print_loop_spec strerror values strings callback thread_hash ok (S ERR_NUM_ERRORS) ctx st h L T R Hi ltac:(unfold ERR_NUM_ERRORS; lia)) as (st' & h' & Hp & Hi' & Ha & _).
  destruct (q_print _ _ _ _ _ _ _ _) as [[ctx' L'] T']. by exists st', h'.
Qed.

(** Two reasons of a table, and the whole description in a buffer that is too small for it. *)
Definition sample_values : list Z := [entry_of 4 100 0; entry_of 4 101 4; entry_of 6 100 8].
Definition sample_strings : bytes := [65; 66; 67; 0; 68; 69; 70; 0; 71; 0].

Lemma sample_sorted : sorted_table sample_values.
Proof. intros i j a b Hij Ha Hb. destruct i as [| [| [| i]]], j as [| [| [| j]]]; try lia; try done; vm_compute in Ha, Hb; injection Ha as <-; injection Hb as <-; vm_compute; done. Qed.

Lemma err_lookup_exact_witness : err_string_lookup 4 101 sample_values sample_strings = Some [68; 69; 70].
Proof.
  apply (err_lookup_exact 4 101 sample_values sample_strings [68; 69; 70] sample_sorted); [lia | lia |]. split; [unfold fits; lia |]. split; [unfold fits; lia |].
  exists 4. split; [unfold fits; lia |]. split; [right; left | reflexivity].
Defined.

Lemma err_string_fields_witness : exists s, ERR_error_string_n (fun _ => []) sample_values sample_strings (ERR_PACK 4 101) 12 = Some s /\ (4 <= colons s)%nat.
Proof. destruct (err_string_fields (fun _ => []) sample_values sample_strings (ERR_PACK 4 101) 12 ltac:(lia)) as (s & Hs & _ & _ & Hc). exists s. split; [exact Hs |]. apply Hc. lia. Defined.

Example err_string_full : ERR_error_string (fun _ => []) sample_values sample_strings (ERR_PACK 4 101) = Some (bytes_of "error:04000065:RSA routines:OPENSSL_internal:DEF").
Proof. vm_compute. reflexivity. Qed.

Example err_string_cut : ERR_error_string_n (fun _ => []) sample_values sample_strings (ERR_PACK 4 101) 12 = Some (bytes_of "error:04:::").
Proof. vm_compute. reflexivity. Qed.

Lemma err_print_in_order_witness :
  exists st h st' h', ERR_print_errors_cb (fun _ => []) sample_values sample_strings (fun m w => (1, w ++ [m])) 7 true [] (Some st) h =
                      Some ([bytes_of "7:error:04000065:RSA routines:OPENSSL_internal:DEF:f:9:" ++ [10]], Some st', h').
Proof.
  destruct (put_spec true 0 4 101 (Some [102]) 9 (errors new_state) 0 0 None ∅ [] None []) as (st & h & _ & Hi & _).
  { apply new_state_inv. split; [apply NoDup_nil_2 |]. intros p. rewrite lookup_empty. split; [by intros ?%not_elem_of_nil | by intros [? [=]]]. }
  pose proof (err_print_in_order (fun _ => []) sample_values sample_strings (list bytes) (fun m w => (1, w ++ [m])) 7 true [] st h _ _ _ Hi) as H.
  match type of H with context [q_print ?a ?b ?c ?d ?e ?f ?g ?i] => replace (q_print a b c d e f g i) with ([bytes_of "7:error:04000065:RSA routines:OPENSSL_internal:DEF:f:9:" ++ [10]], @nil entry, @None bytes) in H by (vm_compute; reflexivity) end.
  destruct H as (st' & h' & Hp & _). by exists st, h, st', h'.
Defined.
End ErrText.
