(* ===== verification/Digest.v ===== *)
(** The collectors of the Merkle-Damgard hash functions: crypto/fipsmodule/digest/md32_common.h,
    and the one of crypto/fipsmodule/sha/sha512.c with its 128-bit length.

    A block function takes the chaining value, the input and a number of blocks.  What the
    collectors rely on is the class [BlockFunc]. *)

From S2P Require Import Prelude Internal Modes.

Open Scope Z_scope.

Module Digest.
Import Internal Modes.

(** [SHA_CTX], [SHA256_CTX], [SHA512_CTX] and [MD5_CTX] have these fields ([p] for [data] in
    SHA-512, no [md_len] in SHA-1 and MD5). *)
Record hash_ctx := mk_ctx { h : list Z; Nl : Z; Nh : Z; data : bytes; num : nat; md_len : Z }.

Definition set_h v c := mk_ctx v (Nl c) (Nh c) (data c) (num c) (md_len c).
Definition set_count nl nh c := mk_ctx (h c) nl nh (data c) (num c) (md_len c).
Definition set_data v c := mk_ctx (h c) (Nl c) (Nh c) v (num c) (md_len c).
Definition set_num v c := mk_ctx (h c) (Nl c) (Nh c) (data c) v (md_len c).

Definition zeros (n : nat) : bytes := replicate n 0.

Definition CRYPTO_store_u32_le (v : Z) : bytes := reverse (be_bytes 4 v).
Definition CRYPTO_load_u64_be (bs : bytes) : Z := CRYPTO_bswap8 (be_value (reverse bs)).
Definition CRYPTO_store_u64_be (v : Z) : bytes := reverse (be_bytes 8 (CRYPTO_bswap8 v)).

Section Collectors.
Context (block_func : list Z -> bytes -> nat -> list Z) (block_size : nat).

(** The whole blocks of [inp], then the rest into the buffer. *)
Definition md32_tail (c : hash_ctx) (inp : bytes) : hash_ctx :=
  let n := (length inp / block_size)%nat in
  let '(c, inp) := if (0 <? n)%nat then (set_h (block_func (h c) inp n) c, drop (n * block_size) inp) else (c, inp) in
  if negb (length inp =? 0)%nat then set_num (length inp) (set_data (store (data c) 0 inp) c) else c.

Definition crypto_md32_update (c : hash_ctx) (inp : bytes) : hash_ctx :=
  if (length inp =? 0)%nat then c
  else
    let l := u32 (Nl c + u32 (Z.shiftl (u32 (len inp)) 3)) in
    let nh := if l <? Nl c then u32 (Nh c + 1) else Nh c in
    let nh := u32 (nh + u32 (Z.shiftr (len inp) 29)) in
    let c := set_count l nh c in
    let n := num c in
    if negb (n =? 0)%nat then
      if (block_size <=? length inp)%nat || (block_size <=? length inp + n)%nat then
        let k := (block_size - n)%nat in
        let c := set_data (store (data c) n (take k inp)) c in
        let c := set_h (block_func (h c) (data c) 1%nat) c in
        md32_tail (set_data (zeros block_size) (set_num 0 c)) (drop k inp)
      else set_num (n + length inp) (set_data (store (data c) n inp) c)
    else md32_tail c inp.

Definition crypto_md32_final (is_big_endian : bool) (c : hash_ctx) : hash_ctx :=
  let n := num c in
  let c := set_data (store (data c) n [0x80]) c in
  let n := (n + 1)%nat in
  let '(c, n) :=
    if (block_size - 8 <? n)%nat then
      let c := set_data (store (data c) n (zeros (block_size - n))) c in
      (set_h (block_func (h c) (data c) 1%nat) c, 0%nat)
    else (c, n) in
  let c := set_data (store (data c) n (zeros (block_size - 8 - n))) c in
  let c :=
    if is_big_endian then
      let c := set_data (store (data c) (block_size - 8) (CRYPTO_store_u32_be (Nh c))) c in
      set_data (store (data c) (block_size - 4) (CRYPTO_store_u32_be (Nl c))) c
    else
      let c := set_data (store (data c) (block_size - 8) (CRYPTO_store_u32_le (Nl c))) c in
      set_data (store (data c) (block_size - 4) (CRYPTO_store_u32_le (Nh c))) c in
  let c := set_h (block_func (h c) (data c) 1%nat) c in
  set_data (zeros block_size) (set_num 0 c).

(** [SHA512_Update]: [block_size] is the size of [p]. *)
Definition sha512_tail (c : hash_ctx) (inp : bytes) : hash_ctx :=
  let '(c, inp) :=
    if (block_size <=? length inp)%nat then
      (set_h (block_func (h c) inp (length inp / block_size)) c, drop (length inp - length inp mod block_size) inp)
    else (c, inp) in
  if negb (length inp =? 0)%nat then set_num (length inp) (set_data (store (data c) 0 inp) c) else c.

Definition SHA512_Update (c : hash_ctx) (inp : bytes) : hash_ctx :=
  if (length inp =? 0)%nat then c
  else
    let l := Z.land (u64 (Nl c + u64 (Z.shiftl (len inp) 3))) 0xffffffffffffffff in
    let nh := if l <? Nl c then u64 (Nh c + 1) else Nh c in
    let nh := u64 (nh + Z.shiftr (len inp) 61) in
    let c := set_count l nh c in
    if negb (num c =? 0)%nat then
      let n := (block_size - num c)%nat in
      if (length inp <? n)%nat then set_num (num c + length inp) (set_data (store (data c) (num c) inp) c)
      else
        let c := set_num 0 (set_data (store (data c) (num c) (take n inp)) c) in
        sha512_tail (set_h (block_func (h c) (data c) 1%nat) c) (drop n inp)
    else sha512_tail c inp.

(** The part of [sha512_final_impl] that pads. *)
Definition sha512_pad (c : hash_ctx) : hash_ctx :=
  let n := num c in
  let c := set_data (store (data c) n [0x80]) c in
  let n := (n + 1)%nat in
  let '(c, n) :=
    if (block_size - 16 <? n)%nat then
      let c := set_data (store (data c) n (zeros (block_size - n))) c in
      (set_h (block_func (h c) (data c) 1%nat) c, 0%nat)
    else (c, n) in
  let c := set_data (store (data c) n (zeros (block_size - 16 - n))) c in
  let c := set_data (store (data c) (block_size - 16) (CRYPTO_store_u64_be (Nh c))) c in
  let c := set_data (store (data c) (block_size - 8) (CRYPTO_store_u64_be (Nl c))) c in
  set_h (block_func (h c) (data c) 1%nat) c.
End Collectors.

(** * The block function *)

(** What a collector relies on: a run over several blocks is a run over the first ones and then
    over the others, and looks at nothing else. *)
Class BlockFunc (block_func : list Z -> bytes -> nat -> list Z) (block_size : nat) : Prop := {
  bf_none s x : block_func s x 0%nat = s;
  bf_app s x y a b : length x = (a * block_size)%nat -> block_func s (x ++ y) (a + b)%nat = block_func (block_func s x a) y b
}.

(** * Lengths in bytes *)

Lemma be_bytes_split a b v : be_bytes (a + b) v = be_bytes a (v / 256 ^ Z.of_nat b) ++ be_bytes b v.
Proof.
  revert v. induction b as [| b IH]; intros v; [by rewrite Nat.add_0_r, Z.div_1_r, app_nil_r |]. rewrite Nat.add_succ_r. cbn [be_bytes]. rewrite IH, <- app_assoc. f_equal.
  rewrite Z.div_div by lia. f_equal. rewrite Nat2Z.inj_succ, Z.pow_succ_r by lia. done.
Qed.

Lemma store_u64_be v : fits 64 v -> CRYPTO_store_u64_be v = be_bytes 8 v.
Proof.
  intros Hv. unfold CRYPTO_store_u64_be. rewrite <- (Z.mod_small v (256 ^ Z.of_nat 8)) at 1 by (unfold fits in Hv; lia). rewrite <- be_value_bytes.
  pose proof (be_bytes_ok 8 v) as Hok. pose proof (length_be_bytes 8 v) as Hl. destruct (be_bytes 8 v) as [| a [| b [| c [| d [| e [| f [| g [| i [| ? ?]]]]]]]]]; try done.
  rewrite bswap8_bytes by done. change 8%nat with (length [i; g; f; e; d; c; b; a]). rewrite be_bytes_value; [done |]. change [i; g; f; e; d; c; b; a] with (reverse [a; b; c; d; e; f; g; i]). by apply bytes_ok_reverse.
Qed.

Lemma load_u64_be bs : length bs = 8%nat -> bytes_ok bs -> CRYPTO_load_u64_be bs = be_value bs.
Proof.
  intros Hl Hok. destruct bs as [| a [| b [| c [| d [| e [| f [| g [| i [| ? ?]]]]]]]]]; try done. unfold CRYPTO_load_u64_be. change (reverse [a; b; c; d; e; f; g; i]) with [i; g; f; e; d; c; b; a].
  apply bswap8_bytes. change [i; g; f; e; d; c; b; a] with (reverse [a; b; c; d; e; f; g; i]). by apply bytes_ok_reverse.
Qed.

(** The length of [m] in bits in [n] bytes. *)
Definition bit_length (n : nat) (m : bytes) : bytes := be_bytes n (8 * len m).

Lemma two_words k m hi lo : hi * 256 ^ Z.of_nat k + lo = (8 * len m) mod (256 ^ Z.of_nat k * 256 ^ Z.of_nat k) -> 0 <= lo < 256 ^ Z.of_nat k -> be_bytes k hi ++ be_bytes k lo = bit_length (k + k) m.
Proof.
  intros Hc Hl. unfold bit_length. rewrite <- (be_bytes_mod (k + k) (8 * len m)), Nat2Z.inj_add, Z.pow_add_r, <- Hc by lia. rewrite be_bytes_split. f_equal.
  - f_equal. apply (Z.div_unique _ _ _ lo); lia.
  - rewrite <- (be_bytes_mod k (hi * _ + lo)). rewrite Z.add_comm, Z.mod_add by lia. by rewrite Z.mod_small.
Qed.

Section Absorb.
Context (block_func : list Z -> bytes -> nat -> list Z) (B : nat) `{!BlockFunc block_func B} (B_pos : (16 < B)%nat) (s0 : list Z).

(** The chaining value after the whole blocks of a message. *)
Definition md (m : bytes) : list Z := block_func s0 m (length m / B).

(** The collector has read [m]: whole blocks are in the chaining value, the rest in the buffer. *)
Record part (m : bytes) (s : list Z) (d : bytes) (n : nat) : Prop := {
  part_h : s = md m;
  part_num : n = (length m mod B)%nat;
  part_len : length d = B;
  part_rest : take n d = drop (B * (length m / B)) m
}.

Lemma bf_prefix s x y a : length x = (a * B)%nat -> block_func s (x ++ y) a = block_func s x a.
Proof. intros H. rewrite <- (Nat.add_0_r a) at 1. by rewrite (bf_app s x y a 0 H), bf_none. Qed.

(** Quotient and remainder of a length. *)
Lemma div_mod_of a q r : a = (B * q + r)%nat -> (r < B)%nat -> (a / B = q /\ a mod B = r)%nat.
Proof. intros -> H. split; [symmetry; by apply (Nat.div_unique _ _ _ r) | symmetry; by apply (Nat.mod_unique _ _ q)]. Qed.

Lemma part_more m s d n x : part m s d n -> (n + length x < B)%nat -> part (m ++ x) s (store d n x) (n + length x).
Proof.
  intros [Hs Hn Hd Hr] Hx. pose proof (Nat.div_mod_eq (length m) B) as Hdm. unfold md in *. set (q := (length m / B)%nat) in *. rewrite <- Hn in Hdm. clearbody q.
  destruct (div_mod_of (length (m ++ x)) q (n + length x)) as [Hq Hm]; [rewrite length_app; lia | done |].
  split; [| done | rewrite length_store; lia |].
  - rewrite Hs. unfold md. rewrite Hq. rewrite <- (take_drop (q * B) m), <- app_assoc. by rewrite !(bf_prefix _ (take _ _)) by (rewrite length_take; lia).
  - rewrite Hq, drop_app_le by lia. rewrite <- Hr. unfold store. rewrite app_assoc. rewrite take_app_le by (rewrite length_app, length_take; lia). apply take_ge. rewrite length_app, length_take. lia.
Qed.

Lemma md_take (m : bytes) : (B * (length m / B) <= length m)%nat.
Proof. apply Nat.Div0.mul_div_le. Qed.

(** Filling the buffer up to a block. *)
Lemma part_fill m s d n x d' : part m s d n -> (n + length x = B)%nat -> length d' = B -> part (m ++ x) (block_func s (store d n x) 1) d' 0.
Proof.
  intros [Hs Hn Hd Hr] Hx Hd'. pose proof (Nat.div_mod_eq (length m) B) as Hdm. unfold md in *. set (q := (length m / B)%nat) in *. rewrite <- Hn in Hdm. clearbody q.
  destruct (div_mod_of (length (m ++ x)) (q + 1) 0) as [Hq Hm]; [rewrite length_app; lia | lia |].
  split; [| done | done | rewrite Hq, drop_ge by (rewrite length_app; lia); done].
  unfold md. rewrite Hq. assert (store d n x = drop (B * q) m ++ x) as ->.
  { unfold store. rewrite Hr, (drop_ge d) by lia. by rewrite app_nil_r. }
  rewrite <- (take_drop (B * q) m) at 2. rewrite <- app_assoc, (bf_app s0 (take (B * q) m)) by (rewrite length_take; lia). f_equal. rewrite Hs.
  rewrite <- (take_drop (B * q) m) at 1. apply bf_prefix. rewrite length_take. lia.
Qed.

(** Whole blocks from the input. *)
Lemma part_blocks m s d x y k : part m s d 0 -> length x = (k * B)%nat -> part (m ++ x) (block_func s (x ++ y) k) d 0.
Proof.
  intros [Hs Hn Hd Hr] Hx. pose proof (Nat.div_mod_eq (length m) B) as Hdm. unfold md in *. set (q := (length m / B)%nat) in *. rewrite <- Hn in Hdm. clearbody q.
  destruct (div_mod_of (length (m ++ x)) (q + k) 0) as [Hq Hm]; [rewrite length_app; lia | lia |].
  split; [| done | done | rewrite Hq, drop_ge by (rewrite length_app; lia); done].
  unfold md. rewrite Hq, Hs, (bf_app s0 m x q k) by lia. by apply bf_prefix.
Qed.

Lemma part_start d : length d = B -> part [] s0 d 0.
Proof.
  intros Hd. split; [| by rewrite Nat.Div0.mod_0_l | done | by rewrite drop_nil]. unfold md. by rewrite Nat.Div0.div_0_l, bf_none.
Qed.

(** A message of whole blocks. *)
Lemma part_whole m s d : part m s d 0 -> s = block_func s0 m (length m / B) /\ (length m mod B = 0)%nat.
Proof. intros [Hs Hn _ _]. done. Qed.

Lemma set_num_same c : set_num (num c) c = c.
Proof. by destruct c. Qed.

(** The tail of both collectors. *)
Lemma md32_tail_part m c inp : part m (h c) (data c) (num c) -> num c = 0%nat ->
  let c' := md32_tail block_func B c inp in part (m ++ inp) (h c') (data c') (num c') /\ Nl c' = Nl c /\ Nh c' = Nh c /\ md_len c' = md_len c.
Proof.
  intros Hp Hn. unfold md32_tail. pose proof (Nat.div_mod_eq (length inp) B) as Hdm. pose proof (Nat.mod_upper_bound (length inp) B ltac:(lia)) as Hlt. set (k := (length inp / B)%nat) in *.
  set (r := (length inp mod B)%nat) in *. clearbody k r. rewrite Hn in Hp.
  assert (exists c1, (if (0 <? k)%nat then (set_h (block_func (h c) inp k) c, drop (k * B) inp) else (c, inp)) = (c1, drop (k * B) inp) /\
          part (m ++ take (k * B) inp) (h c1) (data c1) 0 /\ num c1 = 0%nat /\ Nl c1 = Nl c /\ Nh c1 = Nh c /\ md_len c1 = md_len c) as (c1 & -> & Hp1 & Hn1 & H1 & H2 & H3).
  { destruct (Nat.ltb_spec 0 k) as [Hk | Hk].
    - eexists. split; [reflexivity |]. split; [| by destruct c]. cbn [h data set_h]. rewrite <- (take_drop (k * B) inp) at 2. apply part_blocks; [done |]. rewrite length_take. lia.
    - assert (k = 0%nat) as -> by lia. exists c. split; [done |]. cbn [Nat.mul]. change (take 0 inp) with (@nil Z). by rewrite app_nil_r. }
  assert (length (drop (k * B) inp) = r) as Hr by (rewrite length_drop; lia). rewrite <- H1, <- H2, <- H3. cbv zeta. destruct (Nat.eqb_spec (length (drop (k * B) inp)) 0) as [Hz | Hz]; cbn [negb].
  - apply nil_length_inv in Hz. assert (inp = take (k * B) inp) as E by (rewrite <- (take_drop (k * B) inp) at 1; by rewrite Hz, app_nil_r). rewrite Hn1. split; [by rewrite E | done].
  - rewrite <- (take_drop (k * B) inp) at 1. rewrite app_assoc. split; [| done]. cbn [h data num set_data set_num]. apply (part_more _ _ _ 0 _ Hp1). lia.
Qed.
Lemma sha512_tail_eq c inp : sha512_tail block_func B c inp = md32_tail block_func B c inp.
Proof.
  unfold sha512_tail, md32_tail. pose proof (Nat.div_mod_eq (length inp) B) as Hdm. pose proof (Nat.mod_upper_bound (length inp) B ltac:(lia)) as Hlt.
  replace (length inp - length inp mod B)%nat with (length inp / B * B)%nat by lia.
  replace (0 <? length inp / B)%nat with (B <=? length inp)%nat; [done |]. apply eq_true_iff_eq. rewrite Nat.leb_le, Nat.ltb_lt. split; [intros H; by apply Nat.div_str_pos; lia | nia].
Qed.

(** * The length in bits *)

Lemma count_spec M nl nh n :
  0 < M -> 0 <= nl < M -> 0 <= nh < M -> 0 <= n ->
  let l := (nl + n mod M) mod M in
  let nh1 := if l <? nl then (nh + 1) mod M else nh in
  forall hi, hi mod M = (n / M) mod M -> (nh1 + hi) mod M * M + l = (nh * M + nl + n) mod (M * M).
Proof.
  intros HM Hl Hh Hn l nh1 hi Hhi. pose proof (Z.div_mod n M ltac:(lia)) as Hdm. pose proof (Z.mod_pos_bound n M HM) as Hr.
  assert (exists c, nh1 mod M = (nh + c) mod M /\ l = nl + n mod M - c * M /\ 0 <= l < M) as (c & Hc & Hlc & Hlb).
  { unfold nh1, l in *. destruct (Z.ltb_spec (nl + n mod M) M) as [Hs | Hs].
    - exists 0. rewrite (Z.mod_small (nl + n mod M)) by lia. replace (nl + n mod M <? nl) with false by lia. rewrite Z.add_0_r. split; [done | lia].
    - exists 1. assert ((nl + n mod M) mod M = nl + n mod M - M) as -> by (symmetry; apply (Z.mod_unique _ _ 1); lia). replace (nl + n mod M - M <? nl) with true by lia. rewrite Z.mod_mod by lia. split; [done | lia]. }
  assert ((nh1 + hi) mod M = (nh + c + n / M) mod M) as -> by (rewrite (Z.add_mod nh1), Hc, Hhi, <- Z.add_mod by lia; done).
  apply (Z.mod_unique _ _ ((nh + c + n / M) / M)); [left; pose proof (Z.mod_pos_bound (nh + c + n / M) M HM); nia |].
  pose proof (Z.div_mod (nh + c + n / M) M ltac:(lia)). nia.
Qed.

(** The collector has read [m], with a length counter of two [w]-bit words. *)
Record absorbed (w : Z) (m : bytes) (c : hash_ctx) : Prop := {
  abs_part : part m (h c) (data c) (num c);
  abs_low : fits w (Nl c);
  abs_high : fits w (Nh c);
  abs_count : Nh c * 2 ^ w + Nl c = (8 * len m) mod (2 ^ w * 2 ^ w)
}.

Lemma absorbed_count w m inp c c' hi :
  0 < w -> absorbed w m c -> part (m ++ inp) (h c') (data c') (num c') -> hi mod 2 ^ w = (8 * len inp / 2 ^ w) mod 2 ^ w ->
  Nl c' = (Nl c + (8 * len inp) mod 2 ^ w) mod 2 ^ w -> Nh c' = ((if Nl c' <? Nl c then (Nh c + 1) mod 2 ^ w else Nh c) + hi) mod 2 ^ w -> absorbed w (m ++ inp) c'.
Proof.
  intros Hw [_ Hl Hh Hc] Hp Hhi Hl' Hh'. pose proof (Z.pow_pos_nonneg 2 w ltac:(lia) ltac:(lia)) as HM. set (M := 2 ^ w) in *. pose proof (len_nonneg inp). unfold fits in *. fold M in Hl, Hh.
  split; [done | | |].
  - unfold fits. fold M. rewrite Hl'. by apply Z.mod_pos_bound.
  - unfold fits. fold M. rewrite Hh'. by apply Z.mod_pos_bound.
  - pose proof (count_spec M (Nl c) (Nh c) (8 * len inp) HM Hl Hh ltac:(lia) hi Hhi) as Hs. cbv zeta in Hs. rewrite <- Hl', <- Hh' in Hs. fold M. rewrite Hs, Hc, len_app. rewrite Z.add_mod_idemp_l by lia. f_equal. lia.
Qed.

Lemma bits32 n : 0 <= n -> u32 (Z.shiftl (u32 n) 3) = (8 * n) mod 2 ^ 32 /\ u32 (Z.shiftr n 29) mod 2 ^ 32 = (8 * n / 2 ^ 32) mod 2 ^ 32.
Proof.
  intros Hn. unfold u32, wrap. rewrite Z.shiftl_mul_pow2, Z.shiftr_div_pow2 by lia. split.
  - rewrite Z.mul_mod_idemp_l by lia. f_equal. lia.
  - rewrite Z.mod_mod by lia. f_equal. Z.div_mod_to_equations. lia.
Qed.

Lemma bits64 n : 0 <= n -> u64 (Z.shiftl n 3) = (8 * n) mod 2 ^ 64 /\ Z.shiftr n 61 mod 2 ^ 64 = (8 * n / 2 ^ 64) mod 2 ^ 64.
Proof.
  intros Hn. unfold u64, wrap. rewrite Z.shiftl_mul_pow2, Z.shiftr_div_pow2 by lia. split; [f_equal; lia |]. f_equal. Z.div_mod_to_equations. lia.
Qed.

(** * Reading a message in pieces *)

Lemma take_drop_app (k : nat) (inp m : bytes) : (m ++ take k inp) ++ drop k inp = m ++ inp.
Proof. by rewrite <- app_assoc, take_drop. Qed.

Lemma md32_update_absorbs m c inp : absorbed 32 m c -> absorbed 32 (m ++ inp) (crypto_md32_update block_func B c inp) /\ md_len (crypto_md32_update block_func B c inp) = md_len c.
Proof.
  intros Ha. unfold crypto_md32_update. destruct (Nat.eqb_spec (length inp) 0) as [Hz | Hz]; [apply nil_length_inv in Hz as ->; by rewrite app_nil_r |].
  destruct (bits32 (len inp) (len_nonneg inp)) as [Hb1 Hb2]. rewrite Hb1. set (l := u32 (Nl c + _)). set (nh := u32 (_ + u32 (Z.shiftr (len inp) 29))). cbv zeta. set (c1 := set_count l nh c).
  pose proof Ha as [Hp _ _ _]. assert (part m (h c1) (data c1) (num c1)) as Hp1 by done. cbn [num set_count] in *. change (num c) with (num c1) in *.
  match goal with |- absorbed _ _ ?x /\ _ => assert (part (m ++ inp) (h x) (data x) (num x) /\ Nl x = l /\ Nh x = nh /\ md_len x = md_len c) as (Hpx & Hlx & Hhx & Hmx) end.
  { pose proof (part_num _ _ _ _ Hp1) as Hn. pose proof (Nat.mod_upper_bound (length m) B ltac:(lia)) as Hlt. rewrite <- Hn in Hlt. destruct (Nat.eqb_spec (num c1) 0) as [Hn0 | Hn0]; cbn [negb]; [exact (md32_tail_part m c1 inp Hp1 Hn0) |].
    destruct ((B <=? length inp)%nat || (B <=? length inp + num c1)%nat) eqn:Hc.
    - assert (B - num c1 <= length inp)%nat by (apply orb_true_iff in Hc as [Hc | Hc]; apply Nat.leb_le in Hc; lia). set (k := (B - num c1)%nat) in *. rewrite <- (take_drop_app k inp m). apply (md32_tail_part (m ++ take k inp) (set_data (zeros B) (set_num 0 (set_h _ (set_data _ c1))))); [| done]. cbn [h data num set_h set_data set_num].
      apply (part_fill _ _ _ (num c1)); [done | rewrite length_take; unfold k; lia | apply length_replicate].
    - apply orb_false_iff in Hc as [_ Hc]. apply Nat.leb_gt in Hc. split; [| done]. cbn [h data num set_data set_num]. apply part_more; [done | lia]. }
  split; [| done]. eapply (absorbed_count 32 m inp c _ (u32 (Z.shiftr (len inp) 29))); [lia | done | done | exact Hb2 | rewrite Hlx; done | rewrite Hlx, Hhx; done].
Qed.

Lemma land_u64 x : Z.land (u64 x) 0xffffffffffffffff = u64 x.
Proof. change 0xffffffffffffffff with (Z.ones 64). rewrite Z.land_ones by lia. unfold u64, wrap. by rewrite Z.mod_mod by lia. Qed.

Lemma sha512_update_absorbs m c inp : absorbed 64 m c -> absorbed 64 (m ++ inp) (SHA512_Update block_func B c inp) /\ md_len (SHA512_Update block_func B c inp) = md_len c.
Proof.
  intros Ha. unfold SHA512_Update. destruct (Nat.eqb_spec (length inp) 0) as [Hz | Hz]; [apply nil_length_inv in Hz as ->; by rewrite app_nil_r |].
  destruct (bits64 (len inp) (len_nonneg inp)) as [Hb1 Hb2]. rewrite Hb1, land_u64. set (l := u64 (Nl c + _)). set (nh := u64 (_ + Z.shiftr (len inp) 61)). cbv zeta. set (c1 := set_count l nh c).
  pose proof Ha as [Hp _ _ _]. assert (part m (h c1) (data c1) (num c1)) as Hp1 by done.
  match goal with |- absorbed _ _ ?x /\ _ => assert (part (m ++ inp) (h x) (data x) (num x) /\ Nl x = l /\ Nh x = nh /\ md_len x = md_len c) as (Hpx & Hlx & Hhx & Hmx) end.
  { pose proof (part_num _ _ _ _ Hp1) as Hn. pose proof (Nat.mod_upper_bound (length m) B ltac:(lia)) as Hlt. rewrite <- Hn in Hlt. destruct (Nat.eqb_spec (num c1) 0) as [Hn0 | Hn0]; cbn [negb]; [rewrite sha512_tail_eq; exact (md32_tail_part m c1 inp Hp1 Hn0) |].
    destruct (Nat.ltb_spec (length inp) (B - num c1)) as [Hc | Hc].
    - split; [| done]. cbn [h data num set_data set_num]. apply part_more; [done | lia].
    - set (k := (B - num c1)%nat). rewrite sha512_tail_eq, <- (take_drop_app k inp m). apply (md32_tail_part (m ++ take k inp) (set_h _ (set_num 0 (set_data _ c1)))); [| done]. cbn [h data num set_h set_data set_num].
      pose proof (part_len _ _ _ _ Hp1). apply (part_fill _ _ _ (num c1)); [done | rewrite length_take; unfold k; lia | rewrite length_store; [done |]; rewrite length_take; unfold k; lia]. }
  split; [| done]. eapply (absorbed_count 64 m inp c _ (Z.shiftr (len inp) 61)); [lia | done | done | exact Hb2 | rewrite Hlx; done | rewrite Hlx, Hhx; done].
Qed.
(** * Padding *)

(** One bit, zeros and the length [lb], up to a whole number of blocks. *)
Definition md_padding (lb m : bytes) : bytes :=
  let n := (length m mod B)%nat in
  let L := length lb in
  0x80 :: zeros (if (B - L <? n + 1)%nat then 2 * B - L - 1 - n else B - L - 1 - n) ++ lb.

Lemma zeros_app a b : zeros a ++ zeros b = zeros (a + b).
Proof. unfold zeros. by rewrite replicate_add. Qed.

Lemma length_zeros n : length (zeros n) = n.
Proof. apply length_replicate. Qed.

(** The steps of the last block or blocks. *)
Lemma pad_spec m s d n x y d' : part m s d n -> (length x + length y <= 16)%nat -> length d' = B ->
  let L := (length x + length y)%nat in
  let d1 := store d n [0x80] in
  let '(s1, d2, n2) :=
    if (B - L <? n + 1)%nat then let d2 := store d1 (n + 1) (zeros (B - (n + 1))) in (block_func s d2 1%nat, d2, 0%nat) else (s, d1, (n + 1)%nat) in
  let d5 := store (store (store d2 n2 (zeros (B - L - n2))) (B - L) x) (B - length y) y in
  part (m ++ md_padding (x ++ y) m) (block_func s1 d5 1) d' 0.
Proof.
  intros Hp HL Hd' L d1. pose proof Hp as [_ Hn Hd _]. pose proof (Nat.mod_upper_bound (length m) B ltac:(lia)) as Hlt. rewrite <- Hn in Hlt. unfold md_padding. rewrite <- Hn, length_app. fold L. cbv zeta.
  assert (L <= 16)%nat as HL16 by done. destruct (Nat.ltb_spec (B - L) (n + 1)) as [Hc | Hc].
  - assert (store d1 (n + 1) (zeros (B - (n + 1))) = store d n (0x80 :: zeros (B - (n + 1)))) as ->.
    { unfold d1. rewrite (store_app_n d n [0x80] (zeros (B - (n + 1))) 1) by (done || (rewrite length_zeros; lia)). done. }
    set (d2 := store d n (0x80 :: zeros (B - (n + 1)))). assert (length d2 = B) as Hd2 by (unfold d2; rewrite length_store; cbn [length]; rewrite ?length_zeros; lia).
    assert (part (m ++ 0x80 :: zeros (B - (n + 1))) (block_func s d2 1) d2 0) as Hp2 by (apply (part_fill _ _ _ n); [done | cbn [length]; rewrite length_zeros; lia | done]).
    rewrite Nat.sub_0_r.
    assert (store (store (store d2 0 (zeros (B - L))) (B - L) x) (B - length y) y = store d2 0 (zeros (B - L) ++ x ++ y)) as ->.
    { replace (B - L)%nat with (0 + (B - L))%nat at 2 by lia. rewrite (store_app_n d2 0 (zeros (B - L)) x (B - L)) by (rewrite ?length_zeros; lia).
      replace (B - length y)%nat with (0 + (B - L + length x))%nat by lia. rewrite store_app_n by (rewrite ?length_app, ?length_zeros; lia). by rewrite <- app_assoc. }
    replace (m ++ 0x80 :: zeros (2 * B - L - 1 - n) ++ x ++ y) with ((m ++ 0x80 :: zeros (B - (n + 1))) ++ zeros (B - L) ++ x ++ y).
    + apply (part_fill _ _ _ 0); [done | rewrite !length_app, length_zeros; lia | done].
    + rewrite <- app_assoc. cbn [app]. rewrite (app_assoc (zeros (B - (n + 1)))), zeros_app. do 4 f_equal. lia.
  - assert (store (store (store d1 (n + 1) (zeros (B - L - (n + 1)))) (B - L) x) (B - length y) y = store d n (0x80 :: zeros (B - L - 1 - n) ++ x ++ y)) as ->.
    { unfold d1. rewrite (store_app_n d n [0x80] (zeros (B - L - (n + 1))) 1) by (done || (rewrite length_zeros; lia)).
      replace (B - L)%nat with (n + (B - L - n))%nat at 2 by lia. rewrite (store_app_n d n) by (rewrite ?length_app, ?length_zeros; cbn [length]; lia).
      replace (B - length y)%nat with (n + (B - L - n + length x))%nat by lia. rewrite (store_app_n d n) by (rewrite ?length_app, ?length_zeros; cbn [length]; lia).
      rewrite <- !app_assoc. cbn [app]. do 4 f_equal. lia. }
    apply (part_fill _ _ _ n); [done | cbn [length]; rewrite !length_app, length_zeros; lia | done].
Qed.
Lemma len_store d n x : length d = B -> (n + length x <= B)%nat -> length (store d n x) = B.
Proof. intros <- H. by apply length_store. Qed.

Lemma part_any m s d d' : part m s d 0 -> length d' = B -> part m s d' 0.
Proof. intros [Hs Hn Hd Hr] Hd'. by split. Qed.

(** The length as the collector of md32_common.h writes it. *)
Definition length_bytes (is_big_endian : bool) (m : bytes) : bytes := if is_big_endian then bit_length 8 m else reverse (bit_length 8 m).

Lemma md32_final_spec be m c : absorbed 32 m c ->
  let c' := crypto_md32_final block_func B be c in
  part (m ++ md_padding (length_bytes be m) m) (h c') (data c') 0 /\ num c' = 0%nat /\ data c' = zeros B /\ md_len c' = md_len c.
Proof.
  intros [Hp Hl Hh Hc]. unfold crypto_md32_final. set (x := if be then CRYPTO_store_u32_be (Nh c) else CRYPTO_store_u32_le (Nl c)). set (y := if be then CRYPTO_store_u32_be (Nl c) else CRYPTO_store_u32_le (Nh c)).
  assert (length x = 4 /\ length y = 4)%nat as [Hlx Hly] by (unfold x, y, CRYPTO_store_u32_be, CRYPTO_store_u32_le; destruct be; rewrite !length_reverse, !length_be_bytes; done).
  assert (x ++ y = length_bytes be m) as Hxy.
  { unfold x, y, length_bytes. change (2 ^ 32) with (256 ^ Z.of_nat 4) in Hc. destruct be.
    - rewrite !store_u32_be by done. apply (two_words 4); [done |]. unfold fits in Hl. lia.
    - unfold CRYPTO_store_u32_le. rewrite <- reverse_app. f_equal. apply (two_words 4); [done |]. unfold fits in Hl. lia. }
  pose proof (pad_spec m (h c) (data c) (num c) x y (zeros B) Hp ltac:(lia) (length_zeros B)) as H. rewrite Hlx, Hly, Hxy in H. change (4 + 4)%nat with 8%nat in H. cbv zeta in H |- *. cbn [num data h set_data] in *.
  unfold x, y in H. destruct (B - 8 <? num c + 1)%nat, be; cbn [num data h Nh Nl md_len set_data set_h set_num] in *; (split; [exact H | done]).
Qed.

Lemma sha512_pad_spec m c : absorbed 64 m c ->
  let c' := sha512_pad block_func B c in
  part (m ++ md_padding (bit_length 16 m) m) (h c') (data c') 0 /\ md_len c' = md_len c.
Proof.
  intros [Hp Hl Hh Hc]. unfold sha512_pad. set (x := CRYPTO_store_u64_be (Nh c)). set (y := CRYPTO_store_u64_be (Nl c)). pose proof Hp as [_ _ Hd _].
  assert (length x = 8 /\ length y = 8)%nat as [Hlx Hly] by (unfold x, y, CRYPTO_store_u64_be; rewrite !length_reverse, !length_be_bytes; done).
  assert (x ++ y = bit_length 16 m) as Hxy.
  { unfold x, y. change (2 ^ 64) with (256 ^ Z.of_nat 8) in Hc. rewrite !store_u64_be by done. apply (two_words 8); [done |]. unfold fits in Hl. lia. }
  pose proof (pad_spec m (h c) (data c) (num c) x y (zeros B) Hp ltac:(lia) (length_zeros B)) as H. rewrite Hlx, Hly, Hxy in H. change (8 + 8)%nat with 16%nat in H. cbv zeta in H |- *. cbn [num data h set_data] in *.
  pose proof (part_num _ _ _ _ Hp) as Hn. pose proof (Nat.mod_upper_bound (length m) B ltac:(lia)) as Hlt. rewrite <- Hn in Hlt.
  destruct (B - 16 <? num c + 1)%nat eqn:E; [apply Nat.ltb_lt in E | apply Nat.ltb_ge in E]; cbn [num data h Nh Nl md_len set_data set_h set_num] in *; (split; [| done]);
    (eapply part_any; [exact H |]); fold x y; repeat (apply len_store; [| rewrite ?Hlx, ?Hly, ?length_zeros; cbn [length]; lia]); done.
Qed.
End Absorb.
End Digest.
