(* ===== verification/Sha.v ===== *)
(** SHA-224, SHA-256, SHA-384, SHA-512, SHA-512/224 and SHA-512/256
    (crypto/fipsmodule/sha/sha256.c and sha512.c) in the portable build.

    The two files have the same block function at two word sizes, which is the section [Rounds]:
    eight registers that change their roles from round to round, and a ring of sixteen words
    for the message schedule.  A context is [Digest.hash_ctx]. *)

From S2P Require Import Prelude Internal Modes Digest.

Open Scope Z_scope.

Module Sha.
Import Internal Modes Digest.

Section Rounds.
(** The word size, the four functions of FIPS 180-4, the round constants and how a word is
    loaded from its bytes. *)
Context (w : Z) (Sigma0 Sigma1 sigma0 sigma1 : Z -> Z) (K : list Z) (load : bytes -> Z) (word_size rounds : nat).

Definition Ch (x y z : Z) : Z := Z.lxor (Z.land x y) (Z.land (wnot w x) z).
Definition Maj (x y z : Z) : Z := Z.lxor (Z.lxor (Z.land x y) (Z.land x z)) (Z.land y z).

(** The register that the macro argument [k] names in the round [i]: the arguments move one
    place to the right from round to round. *)
Definition reg (i k : nat) : nat := ((k + 8 - i mod 8) mod 8)%nat.

Definition ROUND_00_15 (i : nat) (T1 : Z) (r : list Z) : list Z :=
  let at_ k := r !!! reg i k in
  let T1 := wrap w (T1 + (at_ 7%nat + Sigma1 (at_ 4%nat) + Ch (at_ 4%nat) (at_ 5%nat) (at_ 6%nat) + K !!! i)) in
  let hh := wrap w (Sigma0 (at_ 0%nat) + Maj (at_ 0%nat) (at_ 1%nat) (at_ 2%nat)) in
  <[reg i 7 := wrap w (hh + T1)]> (<[reg i 3 := wrap w (at_ 3%nat + T1)]> r).

(** A round of the first sixteen loads its word. *)
Definition load_round (data : bytes) (rX : list Z * list Z) (i : nat) : list Z * list Z :=
  let '(r, X) := rX in
  let T1 := load (ld data (i * word_size) word_size) in
  (ROUND_00_15 i T1 r, <[i := T1]> X).

Definition ROUND_16_63 (rX : list Z * list Z) (i : nat) : list Z * list Z :=
  let '(r, X) := rX in
  let at_ k := X !!! Nat.land (i + k)%nat 15 in
  let s0 := sigma0 (at_ 1%nat) in
  let s1 := sigma1 (at_ 14%nat) in
  let T1 := wrap w (at_ 0%nat + (s0 + s1 + at_ 9%nat)) in
  (ROUND_00_15 i T1 r, <[Nat.land i 15 := T1]> X).

Definition block_data_order1 (state : list Z) (data : bytes) : list Z :=
  let '(r, X) := foldl (load_round data) (state, replicate 16 0) (seq 0 16) in
  let '(r, X) := foldl ROUND_16_63 (r, X) (seq 16 (rounds - 16)) in
  zip_with (fun s v => wrap w (s + v)) state r.

Fixpoint block_data_order_nohw (state : list Z) (data : bytes) (num : nat) : list Z :=
  match num with
  | O => state
  | S num => block_data_order_nohw (block_data_order1 state data) (drop (16 * word_size) data) num
  end.
End Rounds.

(** * SHA-256 *)

Definition Sigma0_256 (x : Z) : Z := Z.lxor (Z.lxor (CRYPTO_rotr_u32 x 2) (CRYPTO_rotr_u32 x 13)) (CRYPTO_rotr_u32 x 22).
Definition Sigma1_256 (x : Z) : Z := Z.lxor (Z.lxor (CRYPTO_rotr_u32 x 6) (CRYPTO_rotr_u32 x 11)) (CRYPTO_rotr_u32 x 25).
Definition sigma0_256 (x : Z) : Z := Z.lxor (Z.lxor (CRYPTO_rotr_u32 x 7) (CRYPTO_rotr_u32 x 18)) (Z.shiftr x 3).
Definition sigma1_256 (x : Z) : Z := Z.lxor (Z.lxor (CRYPTO_rotr_u32 x 17) (CRYPTO_rotr_u32 x 19)) (Z.shiftr x 10).

(** In rows of five, as in the code. *)
Definition K256 : list Z :=
  concat
    [[0x428a2f98; 0x71374491; 0xb5c0fbcf; 0xe9b5dba5; 0x3956c25b];
     [0x59f111f1; 0x923f82a4; 0xab1c5ed5; 0xd807aa98; 0x12835b01];
     [0x243185be; 0x550c7dc3; 0x72be5d74; 0x80deb1fe; 0x9bdc06a7];
     [0xc19bf174; 0xe49b69c1; 0xefbe4786; 0x0fc19dc6; 0x240ca1cc];
     [0x2de92c6f; 0x4a7484aa; 0x5cb0a9dc; 0x76f988da; 0x983e5152];
     [0xa831c66d; 0xb00327c8; 0xbf597fc7; 0xc6e00bf3; 0xd5a79147];
     [0x06ca6351; 0x14292967; 0x27b70a85; 0x2e1b2138; 0x4d2c6dfc];
     [0x53380d13; 0x650a7354; 0x766a0abb; 0x81c2c92e; 0x92722c85];
     [0xa2bfe8a1; 0xa81a664b; 0xc24b8b70; 0xc76c51a3; 0xd192e819];
     [0xd6990624; 0xf40e3585; 0x106aa070; 0x19a4c116; 0x1e376c08];
     [0x2748774c; 0x34b0bcb5; 0x391c0cb3; 0x4ed8aa4a; 0x5b9cca4f];
     [0x682e6ff3; 0x748f82ee; 0x78a5636f; 0x84c87814; 0x8cc70208];
     [0x90befffa; 0xa4506ceb; 0xbef9a3f7; 0xc67178f2]].

Definition sha256_block_data_order_nohw := block_data_order_nohw 32 Sigma0_256 Sigma1_256 sigma0_256 sigma1_256 K256 CRYPTO_load_u32_be 4 64.
Definition sha256_block_data_order := sha256_block_data_order_nohw.

Definition SHA256_CBLOCK : nat := 64.
Definition SHA224_DIGEST_LENGTH : Z := 28.
Definition SHA256_DIGEST_LENGTH : Z := 32.
Definition SHA256_CHAINING_LENGTH : Z := 32.

Definition h224 : list Z := [0xc1059ed8; 0x367cd507; 0x3070dd17; 0xf70e5939; 0xffc00b31; 0x68581511; 0x64f98fa7; 0xbefa4fa4].
Definition h256 : list Z := [0x6a09e667; 0xbb67ae85; 0x3c6ef372; 0xa54ff53a; 0x510e527f; 0x9b05688c; 0x1f83d9ab; 0x5be0cd19].

Definition SHA224_Init : hash_ctx := mk_ctx h224 0 0 (zeros SHA256_CBLOCK) 0 SHA224_DIGEST_LENGTH.
Definition SHA256_Init : hash_ctx := mk_ctx h256 0 0 (zeros SHA256_CBLOCK) 0 SHA256_DIGEST_LENGTH.

(** The words of a chaining value of [n] bytes. *)
Definition load_words (load : bytes -> Z) (word_size : nat) (bs : bytes) (n : Z) : list Z :=
  map (fun i => load (ld bs (i * word_size) word_size)) (seq 0 (Z.to_nat n / word_size)).

Definition sha256_init_from_state_impl (md_len : Z) (hs : bytes) (n : Z) : option hash_ctx :=
  if negb (n mod (Z.of_nat SHA256_CBLOCK * 8) =? 0) then None
  else Some (mk_ctx (load_words CRYPTO_load_u32_be 4 hs SHA256_CHAINING_LENGTH) (Z.land n 0xffffffff) (u32 (Z.shiftr n 32)) (zeros SHA256_CBLOCK) 0 md_len).

Definition SHA224_Init_from_state := sha256_init_from_state_impl SHA224_DIGEST_LENGTH.
Definition SHA256_Init_from_state := sha256_init_from_state_impl SHA256_DIGEST_LENGTH.

Definition SHA256_Transform (c : hash_ctx) (data : bytes) : hash_ctx := set_h (sha256_block_data_order (h c) data 1) c.
Definition SHA256_Update (c : hash_ctx) (data : bytes) : hash_ctx := crypto_md32_update sha256_block_data_order SHA256_CBLOCK c data.
Definition SHA224_Update := SHA256_Update.

(** The digest, or a failure, and the context. *)
Definition sha256_final_impl (len_ : Z) (c : hash_ctx) : option bytes * hash_ctx :=
  let c := crypto_md32_final sha256_block_data_order SHA256_CBLOCK true c in
  if negb (md_len c =? len_) then (None, c)
  else (Some (concat (map CRYPTO_store_u32_be (take (Z.to_nat (len_ / 4)) (h c)))), c).

Definition SHA256_Final := sha256_final_impl SHA256_DIGEST_LENGTH.
Definition SHA224_Final := sha256_final_impl SHA224_DIGEST_LENGTH.

Definition sha256_get_state_impl (c : hash_ctx) : option (bytes * Z) :=
  if negb (Nl c mod (Z.of_nat SHA256_CBLOCK * 8) =? 0) then None
  else Some (concat (map CRYPTO_store_u32_be (take (Z.to_nat (SHA256_CHAINING_LENGTH / 4)) (h c))), u64 (Z.shiftl (Nh c) 32 + Nl c)).

Definition SHA224_get_state := sha256_get_state_impl.
Definition SHA256_get_state := sha256_get_state_impl.

Definition SHA224 (data : bytes) : option bytes := fst (SHA224_Final (SHA224_Update SHA224_Init data)).
Definition SHA256 (data : bytes) : option bytes := fst (SHA256_Final (SHA256_Update SHA256_Init data)).
Definition SHA256_TransformBlocks := sha256_block_data_order.

(** * SHA-512 *)

Definition Sigma0_512 (x : Z) : Z := Z.lxor (Z.lxor (CRYPTO_rotr_u64 x 28) (CRYPTO_rotr_u64 x 34)) (CRYPTO_rotr_u64 x 39).
Definition Sigma1_512 (x : Z) : Z := Z.lxor (Z.lxor (CRYPTO_rotr_u64 x 14) (CRYPTO_rotr_u64 x 18)) (CRYPTO_rotr_u64 x 41).
Definition sigma0_512 (x : Z) : Z := Z.lxor (Z.lxor (CRYPTO_rotr_u64 x 1) (CRYPTO_rotr_u64 x 8)) (Z.shiftr x 7).
Definition sigma1_512 (x : Z) : Z := Z.lxor (Z.lxor (CRYPTO_rotr_u64 x 19) (CRYPTO_rotr_u64 x 61)) (Z.shiftr x 6).

Definition K512 : list Z :=
  [0x428a2f98d728ae22; 0x7137449123ef65cd; 0xb5c0fbcfec4d3b2f; 0xe9b5dba58189dbbc;
   0x3956c25bf348b538; 0x59f111f1b605d019; 0x923f82a4af194f9b; 0xab1c5ed5da6d8118;
   0xd807aa98a3030242; 0x12835b0145706fbe; 0x243185be4ee4b28c; 0x550c7dc3d5ffb4e2;
   0x72be5d74f27b896f; 0x80deb1fe3b1696b1; 0x9bdc06a725c71235; 0xc19bf174cf692694;
   0xe49b69c19ef14ad2; 0xefbe4786384f25e3; 0x0fc19dc68b8cd5b5; 0x240ca1cc77ac9c65;
   0x2de92c6f592b0275; 0x4a7484aa6ea6e483; 0x5cb0a9dcbd41fbd4; 0x76f988da831153b5;
   0x983e5152ee66dfab; 0xa831c66d2db43210; 0xb00327c898fb213f; 0xbf597fc7beef0ee4;
   0xc6e00bf33da88fc2; 0xd5a79147930aa725; 0x06ca6351e003826f; 0x142929670a0e6e70;
   0x27b70a8546d22ffc; 0x2e1b21385c26c926; 0x4d2c6dfc5ac42aed; 0x53380d139d95b3df;
   0x650a73548baf63de; 0x766a0abb3c77b2a8; 0x81c2c92e47edaee6; 0x92722c851482353b;
   0xa2bfe8a14cf10364; 0xa81a664bbc423001; 0xc24b8b70d0f89791; 0xc76c51a30654be30;
   0xd192e819d6ef5218; 0xd69906245565a910; 0xf40e35855771202a; 0x106aa07032bbd1b8;
   0x19a4c116b8d2d0c8; 0x1e376c085141ab53; 0x2748774cdf8eeb99; 0x34b0bcb5e19b48a8;
   0x391c0cb3c5c95a63; 0x4ed8aa4ae3418acb; 0x5b9cca4f7763e373; 0x682e6ff3d6b2b8a3;
   0x748f82ee5defb2fc; 0x78a5636f43172f60; 0x84c87814a1f0ab72; 0x8cc702081a6439ec;
   0x90befffa23631e28; 0xa4506cebde82bde9; 0xbef9a3f7b2c67915; 0xc67178f2e372532b;
   0xca273eceea26619c; 0xd186b8c721c0c207; 0xeada7dd6cde0eb1e; 0xf57d4f7fee6ed178;
   0x06f067aa72176fba; 0x0a637dc5a2c898a6; 0x113f9804bef90dae; 0x1b710b35131c471b;
   0x28db77f523047d84; 0x32caab7b40c72493; 0x3c9ebe0a15c9bebc; 0x431d67c49c100d4c;
   0x4cc5d4becb3e42b6; 0x597f299cfc657e2a; 0x5fcb6fab3ad6faec; 0x6c44198c4a475817].

Definition sha512_block_data_order_nohw := block_data_order_nohw 64 Sigma0_512 Sigma1_512 sigma0_512 sigma1_512 K512 CRYPTO_load_u64_be 8 80.
Definition sha512_block_data_order := sha512_block_data_order_nohw.

Definition SHA512_CBLOCK : nat := 128.
Definition SHA384_DIGEST_LENGTH : Z := 48.
Definition SHA512_DIGEST_LENGTH : Z := 64.
Definition SHA512_224_DIGEST_LENGTH : Z := 28.
Definition SHA512_256_DIGEST_LENGTH : Z := 32.
Definition SHA512_CHAINING_LENGTH : Z := 64.

Definition h384 : list Z :=
  [0xcbbb9d5dc1059ed8; 0x629a292a367cd507; 0x9159015a3070dd17; 0x152fecd8f70e5939; 0x67332667ffc00b31; 0x8eb44a8768581511; 0xdb0c2e0d64f98fa7; 0x47b5481dbefa4fa4].
Definition h512 : list Z :=
  [0x6a09e667f3bcc908; 0xbb67ae8584caa73b; 0x3c6ef372fe94f82b; 0xa54ff53a5f1d36f1; 0x510e527fade682d1; 0x9b05688c2b3e6c1f; 0x1f83d9abfb41bd6b; 0x5be0cd19137e2179].
Definition h512_224 : list Z :=
  [0x8c3d37c819544da2; 0x73e1996689dcd4d6; 0x1dfab7ae32ff9c82; 0x679dd514582f9fcf; 0x0f6d2b697bd44da8; 0x77e36f7304c48942; 0x3f9d85a86a1d36c8; 0x1112e6ad91d692a1].
Definition h512_256 : list Z :=
  [0x22312194fc2bf72c; 0x9f555fa3c84c64c2; 0x2393b86b6f53b151; 0x963877195940eabd; 0x96283ee2a88effe3; 0xbe5e1e2553863992; 0x2b0199fc2c85b8aa; 0x0eb72ddc81c52ca2].

(** These leave the buffer of the context as it is. *)
Definition SHA384_Init (sha : hash_ctx) : hash_ctx := mk_ctx h384 0 0 (data sha) 0 SHA384_DIGEST_LENGTH.
Definition SHA512_Init (sha : hash_ctx) : hash_ctx := mk_ctx h512 0 0 (data sha) 0 SHA512_DIGEST_LENGTH.
Definition SHA512_224_Init (sha : hash_ctx) : hash_ctx := mk_ctx h512_224 0 0 (data sha) 0 SHA512_224_DIGEST_LENGTH.
Definition SHA512_256_Init (sha : hash_ctx) : hash_ctx := mk_ctx h512_256 0 0 (data sha) 0 SHA512_256_DIGEST_LENGTH.

Definition sha512_init_from_state_impl (md_len : Z) (hs : bytes) (n : Z) : option hash_ctx :=
  if negb (n mod (Z.of_nat SHA512_CBLOCK * 8) =? 0) then None
  else Some (mk_ctx (load_words CRYPTO_load_u64_be 8 hs SHA512_CHAINING_LENGTH) n 0 (zeros SHA512_CBLOCK) 0 md_len).

Definition SHA384_Init_from_state := sha512_init_from_state_impl SHA384_DIGEST_LENGTH.
Definition SHA512_Init_from_state := sha512_init_from_state_impl SHA512_DIGEST_LENGTH.
Definition SHA512_224_Init_from_state := sha512_init_from_state_impl SHA512_224_DIGEST_LENGTH.
Definition SHA512_256_Init_from_state := sha512_init_from_state_impl SHA512_256_DIGEST_LENGTH.

Definition SHA512_Transform (c : hash_ctx) (block : bytes) : hash_ctx := set_h (sha512_block_data_order (h c) block 1) c.
Definition SHA512_Update (c : hash_ctx) (data : bytes) : hash_ctx := Digest.SHA512_Update sha512_block_data_order SHA512_CBLOCK c data.
Definition SHA384_Update := SHA512_Update.
Definition SHA512_224_Update := SHA512_Update.
Definition SHA512_256_Update := SHA512_Update.

(** [out] says whether the output is not NULL. *)
Definition sha512_final_impl (out : bool) (len_ : Z) (c : hash_ctx) : option bytes * hash_ctx :=
  let c := sha512_pad sha512_block_data_order SHA512_CBLOCK c in
  if negb out then (None, c)
  else
    let out_words := Z.to_nat (len_ / 8) in
    let d := concat (map CRYPTO_store_u64_be (take out_words (h c))) in
    (Some (if len_ =? SHA512_224_DIGEST_LENGTH then d ++ take (Z.to_nat (SHA512_224_DIGEST_LENGTH mod 8)) (CRYPTO_store_u64_be (h c !!! out_words)) else d), c).

Definition SHA512_Final (out : bool) (sha : hash_ctx) := sha512_final_impl out (md_len sha) sha.

(** The other sizes assert that the context is theirs; a failed assertion is a misuse. *)
Definition SHA384_Final (out : bool) (sha : hash_ctx) : option (option bytes * hash_ctx) :=
  if md_len sha =? SHA384_DIGEST_LENGTH then Some (sha512_final_impl out SHA384_DIGEST_LENGTH sha) else None.
Definition SHA512_224_Final (out : bool) (sha : hash_ctx) : option (option bytes * hash_ctx) :=
  if md_len sha =? SHA512_224_DIGEST_LENGTH then Some (sha512_final_impl out SHA512_224_DIGEST_LENGTH sha) else None.
Definition SHA512_256_Final (out : bool) (sha : hash_ctx) : option (option bytes * hash_ctx) :=
  if md_len sha =? SHA512_256_DIGEST_LENGTH then Some (sha512_final_impl out SHA512_256_DIGEST_LENGTH sha) else None.

Definition sha512_get_state_impl (c : hash_ctx) : option (bytes * Z) :=
  if negb (Nl c mod (Z.of_nat SHA512_CBLOCK * 8) =? 0) then None
  else if negb (Nh c =? 0) then None
  else Some (concat (map CRYPTO_store_u64_be (take (Z.to_nat (SHA512_CHAINING_LENGTH / 8)) (h c))), Nl c).

Definition SHA384_get_state := sha512_get_state_impl.
Definition SHA512_get_state := sha512_get_state_impl.
Definition SHA512_224_get_state := sha512_get_state_impl.
Definition SHA512_256_get_state := sha512_get_state_impl.

(** A context on the stack: the bytes of the buffer are whatever was there. *)
Definition SHA512 (stack : hash_ctx) (data : bytes) : option bytes := fst (SHA512_Final true (SHA512_Update (SHA512_Init stack) data)).
Definition SHA384 (stack : hash_ctx) (data : bytes) : option bytes := match SHA384_Final true (SHA384_Update (SHA384_Init stack) data) with Some r => fst r | None => None end.
Definition SHA512_224 (stack : hash_ctx) (data : bytes) : option bytes := match SHA512_224_Final true (SHA512_224_Update (SHA512_224_Init stack) data) with Some r => fst r | None => None end.
Definition SHA512_256 (stack : hash_ctx) (data : bytes) : option bytes := match SHA512_256_Final true (SHA512_256_Update (SHA512_256_Init stack) data) with Some r => fst r | None => None end.

(** The first eight bytes of known digests of the string abc. *)
Example sha256_abc : option_map (take 8) (SHA256 [97; 98; 99]) = Some [0xba; 0x78; 0x16; 0xbf; 0x8f; 0x01; 0xcf; 0xea].
Proof. vm_compute. reflexivity. Qed.

Example sha224_abc : option_map (take 8) (SHA224 [97; 98; 99]) = Some [0x23; 0x09; 0x7d; 0x22; 0x34; 0x05; 0xd8; 0x22].
Proof. vm_compute. reflexivity. Qed.

Definition stack_ctx : hash_ctx := mk_ctx [] 0 0 (replicate 128 0xaa) 0 0.

Example sha512_abc : option_map (take 8) (SHA512 stack_ctx [97; 98; 99]) = Some [0xdd; 0xaf; 0x35; 0xa1; 0x93; 0x61; 0x7a; 0xba].
Proof. vm_compute. reflexivity. Qed.

Example sha384_abc : option_map (take 8) (SHA384 stack_ctx [97; 98; 99]) = Some [0xcb; 0x00; 0x75; 0x3f; 0x45; 0xa3; 0x5e; 0x8b].
Proof. vm_compute. reflexivity. Qed.

Example sha512_224_abc : option_map (take 8) (SHA512_224 stack_ctx [97; 98; 99]) = Some [0x46; 0x34; 0x27; 0x0f; 0x70; 0x7b; 0x6a; 0x54].
Proof. vm_compute. reflexivity. Qed.
End Sha.
