(* ===== verification/ShaSpec.v ===== *)
(** The block functions of SHA-2 are those of FIPS 180-4, and the hash of a message read in
    pieces is that of the padded message. *)

From S2P Require Import Prelude Internal Modes Digest Sha.

Open Scope Z_scope.

Module ShaSpec.
Import Internal Modes Digest Sha.

(** ** Sequences in which a word depends on those before it *)

Section Expand.
Context (next : list Z -> nat -> Z).

Fixpoint expand (n : nat) : list Z :=
  match n with
  | O => []
  | S t => let W := expand t in W ++ [next W t]
  end.

Lemma length_expand n : length (expand n) = n.
Proof. induction n as [| n IH]; [done |]. cbn [expand]. rewrite length_app, IH. cbn. lia. Qed.

Lemma expand_stable n k t : (t < n)%nat -> expand (n + k) !!! t = expand n !!! t.
Proof.
  intros Ht. induction k as [| k IH]; [by rewrite Nat.add_0_r |]. rewrite Nat.add_succ_r. cbn [expand]. cbv zeta. rewrite lookup_total_app_l by (rewrite length_expand; lia). done.
Qed.

Lemma expand_at n t : (forall W W', (forall j, (j < t)%nat -> W !!! j = W' !!! j) -> next W t = next W' t) -> (t < n)%nat -> expand n !!! t = next (expand n) t.
Proof.
  intros Hloc Ht. replace n with (S t + (n - S t))%nat by lia. set (k := (n - S t)%nat). rewrite expand_stable by lia. cbn [expand]. cbv zeta. rewrite lookup_total_app_r by (rewrite length_expand; lia). rewrite length_expand, Nat.sub_diag.
  change ([next (expand t) t] !!! 0%nat) with (next (expand t) t). apply Hloc. intros j Hj. symmetry. replace (S t + k)%nat with (t + S k)%nat by lia. exact (expand_stable t (S k) j Hj).
Qed.
End Expand.

(** What holds from round to round. *)
Lemma fold_rounds {A} (P : A -> nat -> Prop) (f : A -> nat -> A) n a x : (forall x i, (a <= i < a + n)%nat -> P x i -> P (f x i) (S i)) -> P x a -> P (foldl f x (seq a n)) (a + n)%nat.
Proof.
  revert a x. induction n as [| n IH]; intros a x Hf Ha; [by rewrite Nat.add_0_r |]. cbn [seq foldl]. rewrite Nat.add_succ_r. apply (IH (S a)); [intros x' i Hi; apply Hf; lia | apply Hf; [lia | done]].
Qed.

Section Fips.
Context (w : Z) (Sigma0 Sigma1 sigma0 sigma1 : Z -> Z) (K : list Z) (load : bytes -> Z) (word_size rounds : nat).

(** The words of a block. *)
Definition words (data : bytes) : list Z := map (fun i => load (ld data (i * word_size) word_size)) (seq 0 16).

(** FIPS 180-4, 6.2.2 and 6.4.2: the message schedule. *)
Definition schedule (M : list Z) : nat -> list Z :=
  expand (fun W t => if (t <? 16)%nat then M !!! t else wrap w (sigma1 (W !!! (t - 2)%nat) + W !!! (t - 7)%nat + sigma0 (W !!! (t - 15)%nat) + W !!! (t - 16)%nat)).

(** A round, with the working variables from a to h. *)
Definition fips_round (s : list Z) (k Wt : Z) : list Z :=
  match s with
  | [a; b; c; d; e; f; g; hh] =>
      let T1 := hh + Sigma1 e + Ch w e f g + k + Wt in
      let T2 := Sigma0 a + Maj a b c in
      [wrap w (T1 + T2); a; b; c; wrap w (d + T1); e; f; g]
  | _ => s
  end.

Definition fips_block (state : list Z) (data : bytes) : list Z :=
  let W := schedule (words data) rounds in
  zip_with (fun s v => wrap w (s + v)) state (foldl (fun s t => fips_round s (K !!! t) (W !!! t)) state (seq 0 rounds)).

(** ** Registers that change roles *)

(** The working variables before the round [i]. *)
Definition view (i : nat) (r : list Z) : list Z := map (fun k => r !!! reg i k) (seq 0 8).

Lemma length_view i r : length (view i r) = 8%nat.
Proof. done. Qed.

(** The sums of a round, wrapped in the middle or not. *)
Lemma wrap_d d x t : wrap w (d + wrap w (t + x)) = wrap w (d + (x + t)).
Proof. unfold wrap. rewrite Zplus_mod_idemp_r. f_equal. lia. Qed.

Lemma wrap_h y x t : wrap w (wrap w y + wrap w (t + x)) = wrap w (x + t + y).
Proof. unfold wrap. rewrite <- Zplus_mod. f_equal. lia. Qed.

Lemma view_round i T1 r : length r = 8%nat -> view (S i) (ROUND_00_15 w Sigma0 Sigma1 K i T1 r) = fips_round (view i r) (K !!! i) T1.
Proof.
  intros Hr. do 8 (destruct r as [| ? r]; [done |]). destruct r; [| done]. unfold view, ROUND_00_15, reg. cbv zeta. rewrite !wrap_h, !wrap_d. generalize (K !!! i). intros k.
  pose proof (Nat.mod_upper_bound i 8 ltac:(lia)) as Hi. rewrite <- (Nat.add_1_r i), <- (Nat.Div0.add_mod_idemp_l i 1 8). set (j := (i mod 8)%nat) in *. clearbody j.
  do 8 (destruct j as [| j]; [reflexivity |]). lia.
Qed.

Lemma length_round i T1 r : length (ROUND_00_15 w Sigma0 Sigma1 K i T1 r) = length r.
Proof. unfold ROUND_00_15. cbv zeta. by rewrite !length_insert. Qed.

Lemma view_start i r : length r = 8%nat -> (i mod 8 = 0)%nat -> view i r = r.
Proof. intros Hr Hi. do 8 (destruct r as [| ? r]; [done |]). destruct r; [| done]. unfold view, reg. rewrite Hi. reflexivity. Qed.

(** ** The ring of the schedule *)

Lemma schedule_at M n t : (t < n)%nat ->
  schedule M n !!! t = if (t <? 16)%nat then M !!! t
                       else wrap w (sigma1 (schedule M n !!! (t - 2)%nat) + schedule M n !!! (t - 7)%nat + sigma0 (schedule M n !!! (t - 15)%nat) + schedule M n !!! (t - 16)%nat).
Proof.
  intros Ht. unfold schedule. rewrite expand_at at 1; [done | | done]. intros W W' HW. destruct (Nat.ltb_spec t 16); [done |]. by rewrite !(HW (t - _)%nat) by lia.
Qed.

(** Before the round [i] the ring holds the last sixteen words. *)
Definition ring (W X : list Z) (i : nat) : Prop := length X = 16%nat /\ forall t, (t < i)%nat -> (i <= t + 16)%nat -> X !!! (t mod 16)%nat = W !!! t.

Lemma ring_next W X i v : ring W X i -> W !!! i = v -> ring W (<[(i mod 16)%nat := v]> X) (S i).
Proof.
  intros [Hl Hx] <-. split; [by rewrite length_insert |]. intros t Ht1 Ht2. pose proof (Nat.mod_upper_bound i 16 ltac:(lia)). destruct (Nat.eq_dec t i) as [-> | Hne].
  - by rewrite list_lookup_total_insert_eq by lia.
  - rewrite list_lookup_total_insert_ne; [apply Hx; lia |]. intros E. pose proof (Nat.div_mod_eq i 16). pose proof (Nat.div_mod_eq t 16). pose proof (Nat.mod_upper_bound t 16 ltac:(lia)). lia.
Qed.

Lemma land15 i : Nat.land i 15 = (i mod 16)%nat.
Proof. apply (Nat.land_ones i 4). Qed.

Section Block.
Context (state : list Z) (data : bytes) (state_len : length state = 8%nat) (rounds_16 : (16 <= rounds)%nat) (rounds_8 : (rounds mod 8 = 0)%nat).
Let W := schedule (words data) rounds.

Definition variables (i : nat) : list Z := foldl (fun s t => fips_round s (K !!! t) (W !!! t)) state (seq 0 i).

Lemma variables_S i : variables (S i) = fips_round (variables i) (K !!! i) (W !!! i).
Proof. unfold variables. by rewrite seq_S, foldl_app. Qed.

(** The state of both loops before the round [i]. *)
Definition at_round (rX : list Z * list Z) (i : nat) : Prop := length (fst rX) = 8%nat /\ view i (fst rX) = variables i /\ ring W (snd rX) i.

Lemma load_round_step rX i : (i < 16)%nat -> at_round rX i -> at_round (load_round w Sigma0 Sigma1 K load word_size data rX i) (S i).
Proof.
  intros Hi (Hl & Hv & Hr). destruct rX as [r X]. cbn [fst snd] in *. unfold load_round. set (T1 := load _).
  assert (W !!! i = T1) as HW.
  { unfold W. rewrite schedule_at by lia. replace (i <? 16)%nat with true by (symmetry; by apply Nat.ltb_lt). unfold words, T1. rewrite list_lookup_total_alt, list_lookup_fmap, lookup_seq_lt by done. done. }
  split; cbn [fst snd]; [by rewrite length_round |]. split; [by rewrite view_round, variables_S, Hv, HW |]. rewrite <- (Nat.mod_small i 16) at 1 by done. by apply ring_next.
Qed.

Lemma late_round_step rX i : (16 <= i < rounds)%nat -> at_round rX i -> at_round (ROUND_16_63 w Sigma0 Sigma1 sigma0 sigma1 K rX i) (S i).
Proof.
  intros Hi (Hl & Hv & Hr). destruct rX as [r X]. cbn [fst snd] in *. unfold ROUND_16_63. cbv zeta. set (T1 := wrap w _).
  assert (W !!! i = T1) as HW.
  { unfold W. rewrite schedule_at by lia. replace (i <? 16)%nat with false by (symmetry; apply Nat.ltb_ge; lia). fold W. unfold T1. rewrite !land15.
    assert (forall k t, (i + k = t + 16)%nat -> (t < i)%nat -> X !!! ((i + k) mod 16)%nat = W !!! t) as Hx.
    { intros k t E Ht. rewrite E. rewrite <- (proj2 Hr t Ht ltac:(lia)). f_equal. rewrite Nat.Div0.add_mod, Nat.Div0.mod_same, Nat.add_0_r. by rewrite Nat.Div0.mod_mod. }
    rewrite (Hx 0 (i - 16))%nat, (Hx 1 (i - 15))%nat, (Hx 14 (i - 2))%nat, (Hx 9 (i - 7))%nat by lia. unfold wrap. f_equal. lia. }
  split; cbn [fst snd]; [by rewrite length_round |]. split; [by rewrite view_round, variables_S, Hv, HW |]. rewrite land15. by apply ring_next.
Qed.

Lemma block_fips : block_data_order1 w Sigma0 Sigma1 sigma0 sigma1 K load word_size rounds state data = fips_block state data.
Proof.
  unfold block_data_order1, fips_block.
  assert (at_round (state, replicate 16 0) 0) as H0 by (split; [done |]; split; [by apply view_start |]; split; [apply length_replicate | lia]).
  pose proof (fold_rounds at_round _ 16 0 _ (fun rX i Hi => load_round_step rX i ltac:(lia)) H0) as H1. destruct (foldl (load_round _ _ _ _ _ _ _) _ _) as [r1 X1].
  pose proof (fold_rounds at_round _ (rounds - 16) 16 _ (fun rX i Hi => late_round_step rX i ltac:(lia)) H1) as H2. destruct (foldl (ROUND_16_63 _ _ _ _ _ _) _ _) as [r2 X2].
  replace (16 + (rounds - 16))%nat with rounds in H2 by lia. destruct H2 as (Hl & Hv & _). cbn [fst snd] in *. rewrite view_start in Hv by done. by rewrite Hv.
Qed.
End Block.
(** ** Several blocks *)

Fixpoint fips_blocks (state : list Z) (data : bytes) (num : nat) : list Z :=
  match num with
  | O => state
  | S num => fips_blocks (fips_block state data) (drop (16 * word_size) data) num
  end.

Lemma ld_prefix x y p n : (p + n <= length x)%nat -> ld (x ++ y) p n = ld x p n.
Proof. intros H. unfold ld. rewrite drop_app_le by lia. apply take_app_le. rewrite length_drop. lia. Qed.

Lemma block_prefix state x y : (16 * word_size <= length x)%nat ->
  block_data_order1 w Sigma0 Sigma1 sigma0 sigma1 K load word_size rounds state (x ++ y) = block_data_order1 w Sigma0 Sigma1 sigma0 sigma1 K load word_size rounds state x.
Proof.
  intros Hx. unfold block_data_order1. rewrite (foldl_ext_in (load_round w Sigma0 Sigma1 K load word_size (x ++ y)) (load_round w Sigma0 Sigma1 K load word_size x)); [done |].
  intros i [r X] Hi. apply list_elem_of_In, in_seq in Hi. unfold load_round. by rewrite ld_prefix by nia.
Qed.

#[export] Instance block_data_order_func : BlockFunc (block_data_order_nohw w Sigma0 Sigma1 sigma0 sigma1 K load word_size rounds) (16 * word_size).
Proof.
  split; [done |]. intros s x y a b Hx. revert s x Hx. induction a as [| a IH]; intros s x Hx; [by apply nil_length_inv in Hx as -> |]. cbn [Nat.add block_data_order_nohw].
  rewrite block_prefix by lia. rewrite drop_app_le by lia. apply IH. rewrite length_drop. lia.
Qed.

Lemma length_block state data : length state = 8%nat -> (16 <= rounds)%nat -> (rounds mod 8 = 0)%nat -> length (fips_block state data) = 8%nat.
Proof.
  intros Hs H16 H8. rewrite <- block_fips by done. unfold block_data_order1.
  assert (forall l r X, length r = 8%nat -> length (fst (foldl (load_round w Sigma0 Sigma1 K load word_size data) (r, X) l)) = 8%nat) as H1.
  { induction l as [| i l IH]; intros r X Hr; [done |]. cbn [foldl load_round]. apply IH. by rewrite length_round. }
  assert (forall l r X, length r = 8%nat -> length (fst (foldl (ROUND_16_63 w Sigma0 Sigma1 sigma0 sigma1 K) (r, X) l)) = 8%nat) as H2.
  { induction l as [| i l IH]; intros r X Hr; [done |]. cbn [foldl ROUND_16_63]. apply IH. by rewrite length_round. }
  specialize (H1 (seq 0 16) state (replicate 16 0) Hs). destruct (foldl (load_round _ _ _ _ _ _ _) _ _) as [r1 X1]. specialize (H2 (seq 16 (rounds - 16)) r1 X1 H1).
  destruct (foldl (ROUND_16_63 _ _ _ _ _ _) _ _) as [r2 X2]. cbn [fst] in H2. rewrite length_zip_with, Hs, H2. done.
Qed.

Lemma blocks_fips state data num : length state = 8%nat -> (16 <= rounds)%nat -> (rounds mod 8 = 0)%nat ->
  block_data_order_nohw w Sigma0 Sigma1 sigma0 sigma1 K load word_size rounds state data num = fips_blocks state data num /\ length (fips_blocks state data num) = 8%nat.
Proof.
  intros Hs H16 H8. revert state data Hs. induction num as [| num IH]; intros state data Hs; [done |]. cbn [block_data_order_nohw fips_blocks]. rewrite block_fips by done. apply IH. by apply length_block.
Qed.

Lemma zip_wrap_fits l r : 0 <= w -> Forall (fits w) (zip_with (fun s v => wrap w (s + v)) l r).
Proof. intros Hw. revert r. induction l as [| x l IH]; intros [| y r]; cbn; constructor; [unfold fits, wrap; apply Z.mod_pos_bound, Z.pow_pos_nonneg; lia | apply IH]. Qed.

Lemma blocks_fit state data num : 0 <= w -> Forall (fits w) state -> Forall (fits w) (fips_blocks state data num).
Proof. intros Hw. revert state data. induction num as [| num IH]; intros state data Hs; [done |]. cbn [fips_blocks]. apply IH. by apply zip_wrap_fits. Qed.
End Fips.

(** * The hash functions *)

Definition fips256 : list Z -> bytes -> nat -> list Z := fips_blocks 32 Sigma0_256 Sigma1_256 sigma0_256 sigma1_256 K256 CRYPTO_load_u32_be 4 64.
Definition fips512 : list Z -> bytes -> nat -> list Z := fips_blocks 64 Sigma0_512 Sigma1_512 sigma0_512 sigma1_512 K512 CRYPTO_load_u64_be 8 80.

(** The first [n] bytes of the chaining value after the padded message. *)
Definition sha256_hash (s0 : list Z) (n : nat) (m : bytes) : bytes :=
  let p := m ++ md_padding 64 (bit_length 8 m) m in take n (concat (map (be_bytes 4) (fips256 s0 p (length p / 64)))).
Definition sha512_hash (s0 : list Z) (n : nat) (m : bytes) : bytes :=
  let p := m ++ md_padding 128 (bit_length 16 m) m in take n (concat (map (be_bytes 8) (fips512 s0 p (length p / 128)))).

#[export] Instance sha256_func : BlockFunc sha256_block_data_order 64.
Proof. apply (block_data_order_func 32 Sigma0_256 Sigma1_256 sigma0_256 sigma1_256 K256 CRYPTO_load_u32_be 4 64). Qed.

#[export] Instance sha512_func : BlockFunc sha512_block_data_order 128.
Proof. apply (block_data_order_func 64 Sigma0_512 Sigma1_512 sigma0_512 sigma1_512 K512 CRYPTO_load_u64_be 8 80). Qed.

Lemma sha256_blocks s data n : length s = 8%nat -> sha256_block_data_order s data n = fips256 s data n /\ length (fips256 s data n) = 8%nat.
Proof. intros Hs. by apply (blocks_fips 32 Sigma0_256 Sigma1_256 sigma0_256 sigma1_256 K256 CRYPTO_load_u32_be 4 64); [| lia |]. Qed.

Lemma sha512_blocks s data n : length s = 8%nat -> sha512_block_data_order s data n = fips512 s data n /\ length (fips512 s data n) = 8%nat.
Proof. intros Hs. by apply (blocks_fips 64 Sigma0_512 Sigma1_512 sigma0_512 sigma1_512 K512 CRYPTO_load_u64_be 8 80); [| lia |]. Qed.

(** A context that has read [m]. *)
Definition read256 (s0 : list Z) (n : Z) (m : bytes) (c : hash_ctx) : Prop := absorbed sha256_block_data_order 64 s0 32 m c /\ md_len c = n.
Definition read512 (s0 : list Z) (n : Z) (m : bytes) (c : hash_ctx) : Prop := absorbed sha512_block_data_order 128 s0 64 m c /\ md_len c = n.

Lemma read_start s0 n : read256 s0 n [] (mk_ctx s0 0 0 (zeros 64) 0 n).
Proof. split; [| done]. split; [exact (part_start sha256_block_data_order 64 s0 (zeros 64) eq_refl) | unfold fits; cbn; lia | unfold fits; cbn; lia | reflexivity]. Qed.

Lemma read512_start s0 n d : length d = 128%nat -> read512 s0 n [] (mk_ctx s0 0 0 d 0 n).
Proof. intros Hd. split; [| done]. split; [exact (part_start sha512_block_data_order 128 s0 d Hd) | unfold fits; cbn; lia | unfold fits; cbn; lia | reflexivity]. Qed.

Lemma read256_update s0 n m c x : read256 s0 n m c -> read256 s0 n (m ++ x) (SHA256_Update c x).
Proof. intros [Ha Hn]. destruct (md32_update_absorbs sha256_block_data_order 64 ltac:(lia) s0 m c x Ha) as [H1 H2]. split; [done |]. unfold SHA256_Update, SHA256_CBLOCK. by rewrite H2. Qed.

Lemma read512_update s0 n m c x : read512 s0 n m c -> read512 s0 n (m ++ x) (SHA512_Update c x).
Proof. intros [Ha Hn]. destruct (sha512_update_absorbs sha512_block_data_order 128 ltac:(lia) s0 m c x Ha) as [H1 H2]. split; [done |]. unfold SHA512_Update, SHA512_CBLOCK. by rewrite H2. Qed.

Lemma take_words (k n : nat) (l : list Z) : take (k * n) (concat (map (be_bytes k) l)) = concat (map (be_bytes k) (take n l)).
Proof.
  revert n. induction l as [| v l IH]; intros n; [cbn [map concat]; rewrite !take_nil; done |]. destruct n as [| n]; [by rewrite Nat.mul_0_r |]. cbn [map concat take]. rewrite <- IH.
  rewrite take_app_ge by (rewrite length_be_bytes; lia). rewrite length_be_bytes. do 2 f_equal. lia.
Qed.

Lemma length_words k l : length (concat (map (be_bytes k) l)) = (k * length l)%nat.
Proof. induction l as [| v l IH]; cbn [map concat length]; [lia |]. rewrite length_app, length_be_bytes, IH. lia. Qed.

Lemma take_words_part (k n j : nat) (l : list Z) v : l !! n = Some v -> (j <= k)%nat ->
  take (k * n + j) (concat (map (be_bytes k) l)) = take (k * n) (concat (map (be_bytes k) l)) ++ take j (be_bytes k v).
Proof.
  intros Hv Hj. pose proof (lookup_lt_Some _ _ _ Hv) as Hn. rewrite take_words. rewrite <- (take_drop_middle l n v Hv) at 1. rewrite map_app, concat_app. cbn [map concat].
  rewrite take_app_add' by (rewrite length_words, length_take; f_equal; lia). f_equal. apply take_app_le. by rewrite length_be_bytes.
Qed.

Lemma map_store32 l : Forall (fits 32) l -> map CRYPTO_store_u32_be l = map (be_bytes 4) l.
Proof. intros H. apply map_ext_in. intros v Hv. apply store_u32_be. rewrite List.Forall_forall in H. by apply H. Qed.

Lemma map_store64 l : Forall (fits 64) l -> map CRYPTO_store_u64_be l = map (be_bytes 8) l.
Proof. intros H. apply map_ext_in. intros v Hv. apply store_u64_be. rewrite List.Forall_forall in H. by apply H. Qed.

Lemma read256_final s0 n m c : length s0 = 8%nat -> Forall (fits 32) s0 -> 0 <= n -> n mod 4 = 0 -> read256 s0 n m c -> fst (sha256_final_impl n c) = Some (sha256_hash s0 (Z.to_nat n) m).
Proof.
  intros Hl Hs Hn0 Hn4 [Ha Hn]. unfold sha256_final_impl. destruct (md32_final_spec sha256_block_data_order 64 ltac:(lia) s0 true m c Ha) as ([Hh _ _ _] & _ & _ & Hm). unfold SHA256_CBLOCK. rewrite Hm, Hn, Z.eqb_refl. cbn [negb fst].
  rewrite Hh. unfold md, sha256_hash, length_bytes. rewrite (proj1 (sha256_blocks _ _ _ Hl)). set (p := m ++ _). assert (Z.to_nat n = 4 * Z.to_nat (n / 4))%nat as -> by (Z.div_mod_to_equations; lia). rewrite take_words. rewrite map_store32; [done |]. apply Forall_take. by apply blocks_fit; [lia |].
Qed.

Lemma read512_final s0 m c n : length s0 = 8%nat -> Forall (fits 64) s0 -> n = 28 \/ n = 32 \/ n = 48 \/ n = 64 -> read512 s0 n m c ->
  fst (sha512_final_impl true n c) = Some (sha512_hash s0 (Z.to_nat n) m).
Proof.
  intros Hl Hs Hn [Ha _]. unfold sha512_final_impl. destruct (sha512_pad_spec sha512_block_data_order 128 ltac:(lia) s0 m c Ha) as ([Hh _ _ _] & _). unfold SHA512_CBLOCK. cbn [negb fst]. rewrite Hh. unfold md, sha512_hash.
  rewrite (proj1 (sha512_blocks _ _ _ Hl)). set (p := m ++ _). destruct (sha512_blocks s0 p (length p / 128) Hl) as [_ Hlen]. set (W := fips512 s0 p (length p / 128)) in *. assert (Forall (fits 64) W) as HW by (by apply blocks_fit; [lia |]).
  rewrite map_store64 by (by apply Forall_take). rewrite <- take_words.
  destruct Hn as [-> | [-> | [-> | ->]]]; [| done | done | done]. change (Z.to_nat (28 / 8)) with 3%nat. change (28 =? SHA512_224_DIGEST_LENGTH) with true. cbv iota. change (Z.to_nat (SHA512_224_DIGEST_LENGTH mod 8)) with 4%nat. change (Z.to_nat 28) with 28%nat.
  assert (W !! 3%nat = Some (W !!! 3%nat)) as H3 by (apply list_lookup_lookup_total_lt; lia). rewrite store_u64_be by (by apply (Forall_lookup_1 _ _ _ _ HW H3)).
  f_equal. symmetry. apply (take_words_part 8 3 4 W (W !!! 3%nat) H3). lia.
Qed.

(** ** Messages in pieces *)

Lemma read256_pieces s0 n m c chunks : read256 s0 n m c -> read256 s0 n (m ++ concat chunks) (foldl SHA256_Update c chunks).
Proof. revert m c. induction chunks as [| x chunks IH]; intros m c H; cbn [concat foldl]; [by rewrite app_nil_r |]. rewrite app_assoc. by apply IH, read256_update. Qed.

Lemma read512_pieces s0 n m c chunks : read512 s0 n m c -> read512 s0 n (m ++ concat chunks) (foldl SHA512_Update c chunks).
Proof. revert m c. induction chunks as [| x chunks IH]; intros m c H; cbn [concat foldl]; [by rewrite app_nil_r |]. rewrite app_assoc. by apply IH, read512_update. Qed.

Ltac words_fit := repeat constructor; unfold fits; lia.

Lemma h224_ok : length h224 = 8%nat /\ Forall (fits 32) h224. Proof. split; [done | words_fit]. Qed.
Lemma h256_ok : length h256 = 8%nat /\ Forall (fits 32) h256. Proof. split; [done | words_fit]. Qed.
Lemma h384_ok : length h384 = 8%nat /\ Forall (fits 64) h384. Proof. split; [done | words_fit]. Qed.
Lemma h512_ok : length h512 = 8%nat /\ Forall (fits 64) h512. Proof. split; [done | words_fit]. Qed.
Lemma h512_224_ok : length h512_224 = 8%nat /\ Forall (fits 64) h512_224. Proof. split; [done | words_fit]. Qed.
Lemma h512_256_ok : length h512_256 = 8%nat /\ Forall (fits 64) h512_256. Proof. split; [done | words_fit]. Qed.

(** C14: however a message is cut into pieces, the six SHA-2 functions return the hash of FIPS
    180-4: the first bytes of the chaining value after the blocks of the padded message,
    whatever the buffer of a SHA-512 context held before. *)
Theorem sha2_exact (chunks : list bytes) (stack : hash_ctx) : length (data stack) = 128%nat ->
  let m := concat chunks in
  fst (SHA224_Final (foldl SHA224_Update SHA224_Init chunks)) = Some (sha256_hash h224 28 m) /\
  fst (SHA256_Final (foldl SHA256_Update SHA256_Init chunks)) = Some (sha256_hash h256 32 m) /\
  option_map fst (SHA384_Final true (foldl SHA384_Update (SHA384_Init stack) chunks)) = Some (Some (sha512_hash h384 48 m)) /\
  fst (SHA512_Final true (foldl SHA512_Update (SHA512_Init stack) chunks)) = Some (sha512_hash h512 64 m) /\
  option_map fst (SHA512_224_Final true (foldl SHA512_224_Update (SHA512_224_Init stack) chunks)) = Some (Some (sha512_hash h512_224 28 m)) /\
  option_map fst (SHA512_256_Final true (foldl SHA512_256_Update (SHA512_256_Init stack) chunks)) = Some (Some (sha512_hash h512_256 32 m)).
Proof.
  intros Hd m. pose proof (fun s0 n => read256_pieces s0 n [] _ chunks (read_start s0 n)) as H1. pose proof (fun s0 n => read512_pieces s0 n [] _ chunks (read512_start s0 n (data stack) Hd)) as H2.
  assert (forall s0 n, md_len (foldl SHA512_Update (mk_ctx s0 0 0 (data stack) 0 n) chunks) = n) as Hm by (intros s0 n; apply (H2 s0 n)).
  unfold SHA384_Final, SHA512_Final, SHA512_224_Final, SHA512_256_Final, SHA384_Init, SHA512_Init, SHA512_224_Init, SHA512_256_Init, SHA384_Update, SHA512_224_Update, SHA512_256_Update. rewrite !Hm, !Z.eqb_refl. cbn [option_map].
  repeat split.
  - apply (read256_final h224 28 m); try apply h224_ok; [lia | done | apply H1].
  - apply (read256_final h256 32 m); try apply h256_ok; [lia | done | apply H1].
  - f_equal. apply (read512_final h384 m); [apply h384_ok | apply h384_ok | unfold SHA384_DIGEST_LENGTH; lia | apply H2].
  - apply (read512_final h512 m); [apply h512_ok | apply h512_ok | unfold SHA512_DIGEST_LENGTH; lia | apply H2].
  - f_equal. apply (read512_final h512_224 m); [apply h512_224_ok | apply h512_224_ok | unfold SHA512_224_DIGEST_LENGTH; lia | apply H2].
  - f_equal. apply (read512_final h512_256 m); [apply h512_256_ok | apply h512_256_ok | unfold SHA512_256_DIGEST_LENGTH; lia | apply H2].
Qed.

Lemma sha2_exact_witness : fst (SHA256_Final (foldl SHA256_Update SHA256_Init [[97]; []; [98; 99]])) = Some (sha256_hash h256 32 [97; 98; 99]).
Proof. apply (sha2_exact [[97]; []; [98; 99]] stack_ctx). reflexivity. Defined.
End ShaSpec.
