(* ===== verification/Md.v ===== *)
(** SHA-1 (crypto/fipsmodule/sha/sha1.c), MD5 (crypto/fipsmodule/md5/md5.c) and MD4
    (crypto/md4/md4.c), over the collector of md32_common.h, with the block functions in C.

    The rounds are unrolled in the code, and their macro arguments move one place from round to
    round: [rot_reg] says which variable an argument is.  The sixteen words of a block are
    loaded before the first round that reads them. *)

From S2P Require Import Prelude Internal Modes Digest Sha.

Open Scope Z_scope.

Module Md.
Import Internal Modes Digest Sha.

(** The variable, of [n], that the macro argument [k] names in the round [i]. *)
Definition rot_reg (n i k : nat) : nat := ((k + n - i mod n) mod n)%nat.

Definition CRYPTO_load_u32_le (bs : bytes) : Z := be_value (reverse bs).

Definition load_block (load : bytes -> Z) (data : bytes) : list Z := map (fun i => load (ld data (i * 4) 4)) (seq 0 16).

(** The loop over the blocks. *)
Fixpoint block_loop (block1 : list Z -> bytes -> list Z) (state : list Z) (data : bytes) (num : nat) : list Z :=
  match num with
  | O => state
  | S num => block_loop block1 (block1 state data) (drop 64 data) num
  end.

(** * SHA-1 *)

Definition K_00_19 : Z := 0x5a827999.
Definition K_20_39 : Z := 0x6ed9eba1.
Definition K_40_59 : Z := 0x8f1bbcdc.
Definition K_60_79 : Z := 0xca62c1d6.

Definition F_00_19 (b c d : Z) : Z := Z.lxor (Z.land (Z.lxor c d) b) d.
Definition F_20_39 (b c d : Z) : Z := Z.lxor (Z.lxor b c) d.
Definition F_40_59 (b c d : Z) : Z := Z.lor (Z.land b c) (Z.land (Z.lor b c) d).
Definition F_60_79 (b c d : Z) : Z := F_20_39 b c d.

(** The next word of the schedule, in place of the oldest. *)
Definition Xupdate (X : list Z) (i : nat) : Z :=
  let at_ k := X !!! ((i + k) mod 16)%nat in
  CRYPTO_rotl_u32 (Z.lxor (Z.lxor (Z.lxor (at_ 0%nat) (at_ 2%nat)) (at_ 8%nat)) (at_ 13%nat)) 1.

(** The body of a round, with the word [xi], on the variables A, B, C, D, E and T. *)
Definition BODY (K : Z) (F : Z -> Z -> Z -> Z) (i : nat) (xi : Z) (r : list Z) : list Z :=
  let at_ k := r !!! rot_reg 6 i k in
  let f := u32 (xi + at_ 4%nat + K + CRYPTO_rotl_u32 (at_ 0%nat) 5 + F (at_ 1%nat) (at_ 2%nat) (at_ 3%nat)) in
  <[rot_reg 6 i 1 := CRYPTO_rotl_u32 (at_ 1%nat) 30]> (<[rot_reg 6 i 5 := f]> r).

Definition BODY_00_15 (rX : list Z * list Z) (i : nat) : list Z * list Z :=
  let '(r, X) := rX in (BODY K_00_19 F_00_19 i (X !!! i) r, X).

Definition BODY_update (K : Z) (F : Z -> Z -> Z -> Z) (rX : list Z * list Z) (i : nat) : list Z * list Z :=
  let '(r, X) := rX in
  let xi := Xupdate X i in
  (BODY K F i xi r, <[(i mod 16)%nat := xi]> X).

Definition BODY_16_19 := BODY_update K_00_19 F_00_19.
Definition BODY_20_31 := BODY_update K_20_39 F_20_39.
Definition BODY_32_39 := BODY_update K_20_39 F_20_39.
Definition BODY_40_59 := BODY_update K_40_59 F_40_59.
Definition BODY_60_79 := BODY_update K_60_79 F_60_79.

(** One block; the variable T is not read before the first round writes it. *)
Definition sha1_block1 (state : list Z) (data : bytes) : list Z :=
  let rX := foldl BODY_00_15 (state ++ [0], load_block CRYPTO_load_u32_be data) (seq 0 16) in
  let rX := foldl BODY_16_19 rX (seq 16 4) in
  let rX := foldl BODY_20_31 rX (seq 20 12) in
  let rX := foldl BODY_32_39 rX (seq 32 8) in
  let rX := foldl BODY_40_59 rX (seq 40 20) in
  let '(r, _) := foldl BODY_60_79 rX (seq 60 20) in
  zip_with (fun s k => Z.land (s + r !!! k) 0xffffffff) state [4; 5; 0; 1; 2]%nat.

(** The C loop tests [num] at the end of a round; it is never called with [num] 0, for which
    this one leaves the state alone. *)
Definition sha1_block_data_order_nohw := block_loop sha1_block1.
Definition sha1_block_data_order := sha1_block_data_order_nohw.

Definition SHA_CBLOCK : nat := 64.
Definition SHA_DIGEST_LENGTH : Z := 20.
Definition SHA1_CHAINING_LENGTH : Z := 20.

Definition h_sha1 : list Z := [0x67452301; 0xefcdab89; 0x98badcfe; 0x10325476; 0xc3d2e1f0].

Definition SHA1_Init : hash_ctx := mk_ctx h_sha1 0 0 (zeros SHA_CBLOCK) 0 0.

Definition SHA1_Init_from_state (hs : bytes) (n : Z) : option hash_ctx :=
  if negb (n mod (Z.of_nat SHA_CBLOCK * 8) =? 0) then None
  else Some (mk_ctx (load_words CRYPTO_load_u32_be 4 hs SHA1_CHAINING_LENGTH) (Z.land n 0xffffffff) (u32 (Z.shiftr n 32)) (zeros SHA_CBLOCK) 0 0).

Definition SHA1_Transform (c : hash_ctx) (data : bytes) : hash_ctx := set_h (sha1_block_data_order (h c) data 1) c.
Definition SHA1_Update (c : hash_ctx) (data : bytes) : hash_ctx := crypto_md32_update sha1_block_data_order SHA_CBLOCK c data.

Definition SHA1_Final (c : hash_ctx) : bytes * hash_ctx :=
  let c := crypto_md32_final sha1_block_data_order SHA_CBLOCK true c in
  (concat (map (fun i => CRYPTO_store_u32_be (h c !!! i)) (seq 0 5)), c).

Definition SHA1_get_state (c : hash_ctx) : option (bytes * Z) :=
  if negb (Nl c mod (Z.of_nat SHA_CBLOCK * 8) =? 0) then None
  else Some (concat (map CRYPTO_store_u32_be (take (Z.to_nat (SHA1_CHAINING_LENGTH / 4)) (h c))), u64 (Z.shiftl (Nh c) 32 + Nl c)).

Definition SHA1 (data : bytes) : bytes := fst (SHA1_Final (SHA1_Update SHA1_Init data)).

Example sha1_abc : take 8 (SHA1 [97; 98; 99]) = [0xa9; 0x99; 0x3e; 0x36; 0x47; 0x06; 0x81; 0x6a].
Proof. vm_compute. reflexivity. Qed.

(** * MD5 *)

Definition MD5_F (b c d : Z) : Z := Z.lxor (Z.land (Z.lxor c d) b) d.
Definition MD5_G (b c d : Z) : Z := Z.lxor (Z.land (Z.lxor b c) d) c.
Definition MD5_H (b c d : Z) : Z := Z.lxor (Z.lxor b c) d.
Definition MD5_I (b c d : Z) : Z := Z.lxor (Z.lor (wnot 32 d) b) c.

(** R0 to R3, on the variables A, B, C and D: the number of the round, the word, the rotation
    and the constant. *)
Definition MD5_R (F : Z -> Z -> Z -> Z) (X r : list Z) (e : nat * (nat * Z * Z)) : list Z :=
  let '(i, (k, s, t)) := e in
  let at_ j := r !!! rot_reg 4 i j in
  let a := u32 (at_ 0%nat + (X !!! k + t + F (at_ 1%nat) (at_ 2%nat) (at_ 3%nat))) in
  let a := CRYPTO_rotl_u32 a s in
  <[rot_reg 4 i 0 := u32 (a + at_ 1%nat)]> r.

Definition md5_round0 : list (nat * Z * Z) :=
  [(0%nat, 7, 0xd76aa478); (1%nat, 12, 0xe8c7b756); (2%nat, 17, 0x242070db); (3%nat, 22, 0xc1bdceee);
   (4%nat, 7, 0xf57c0faf); (5%nat, 12, 0x4787c62a); (6%nat, 17, 0xa8304613); (7%nat, 22, 0xfd469501);
   (8%nat, 7, 0x698098d8); (9%nat, 12, 0x8b44f7af); (10%nat, 17, 0xffff5bb1); (11%nat, 22, 0x895cd7be);
   (12%nat, 7, 0x6b901122); (13%nat, 12, 0xfd987193); (14%nat, 17, 0xa679438e); (15%nat, 22, 0x49b40821)].
Definition md5_round1 : list (nat * Z * Z) :=
  [(1%nat, 5, 0xf61e2562); (6%nat, 9, 0xc040b340); (11%nat, 14, 0x265e5a51); (0%nat, 20, 0xe9b6c7aa);
   (5%nat, 5, 0xd62f105d); (10%nat, 9, 0x02441453); (15%nat, 14, 0xd8a1e681); (4%nat, 20, 0xe7d3fbc8);
   (9%nat, 5, 0x21e1cde6); (14%nat, 9, 0xc33707d6); (3%nat, 14, 0xf4d50d87); (8%nat, 20, 0x455a14ed);
   (13%nat, 5, 0xa9e3e905); (2%nat, 9, 0xfcefa3f8); (7%nat, 14, 0x676f02d9); (12%nat, 20, 0x8d2a4c8a)].
Definition md5_round2 : list (nat * Z * Z) :=
  [(5%nat, 4, 0xfffa3942); (8%nat, 11, 0x8771f681); (11%nat, 16, 0x6d9d6122); (14%nat, 23, 0xfde5380c);
   (1%nat, 4, 0xa4beea44); (4%nat, 11, 0x4bdecfa9); (7%nat, 16, 0xf6bb4b60); (10%nat, 23, 0xbebfbc70);
   (13%nat, 4, 0x289b7ec6); (0%nat, 11, 0xeaa127fa); (3%nat, 16, 0xd4ef3085); (6%nat, 23, 0x04881d05);
   (9%nat, 4, 0xd9d4d039); (12%nat, 11, 0xe6db99e5); (15%nat, 16, 0x1fa27cf8); (2%nat, 23, 0xc4ac5665)].
Definition md5_round3 : list (nat * Z * Z) :=
  [(0%nat, 6, 0xf4292244); (7%nat, 10, 0x432aff97); (14%nat, 15, 0xab9423a7); (5%nat, 21, 0xfc93a039);
   (12%nat, 6, 0x655b59c3); (3%nat, 10, 0x8f0ccc92); (10%nat, 15, 0xffeff47d); (1%nat, 21, 0x85845dd1);
   (8%nat, 6, 0x6fa87e4f); (15%nat, 10, 0xfe2ce6e0); (6%nat, 15, 0xa3014314); (13%nat, 21, 0x4e0811a1);
   (4%nat, 6, 0xf7537e82); (11%nat, 10, 0xbd3af235); (2%nat, 15, 0x2ad7d2bb); (9%nat, 21, 0xeb86d391)].

(** Sixteen rounds. *)
Definition rounds_of (R : list Z -> list Z -> nat * (nat * Z * Z) -> list Z) (X : list Z) (table : list (nat * Z * Z)) (r : list Z) : list Z := foldl (R X) r (zip (seq 0 16) table).

Definition md5_block1 (state : list Z) (data : bytes) : list Z :=
  let X := load_block CRYPTO_load_u32_le data in
  let r := rounds_of (MD5_R MD5_F) X md5_round0 state in
  let r := rounds_of (MD5_R MD5_G) X md5_round1 r in
  let r := rounds_of (MD5_R MD5_H) X md5_round2 r in
  let r := rounds_of (MD5_R MD5_I) X md5_round3 r in
  zip_with (fun s v => u32 (s + v)) state r.

Definition md5_block_data_order := block_loop md5_block1.

Definition MD5_CBLOCK : nat := 64.
Definition MD5_DIGEST_LENGTH : Z := 16.
Definition MD5_CHAINING_LENGTH : Z := 16.

Definition h_md5 : list Z := [0x67452301; 0xefcdab89; 0x98badcfe; 0x10325476].

Definition MD5_Init : hash_ctx := mk_ctx h_md5 0 0 (zeros MD5_CBLOCK) 0 0.

Definition MD5_Init_from_state (hs : bytes) (n : Z) : option hash_ctx :=
  if negb (n mod (Z.of_nat MD5_CBLOCK * 8) =? 0) then None
  else Some (mk_ctx (load_words CRYPTO_load_u32_be 4 hs MD5_CHAINING_LENGTH) (Z.land n 0xffffffff) (u32 (Z.shiftr n 32)) (zeros MD5_CBLOCK) 0 0).

Definition MD5_Transform (c : hash_ctx) (data : bytes) : hash_ctx := set_h (md5_block_data_order (h c) data 1) c.
Definition MD5_Update (c : hash_ctx) (data : bytes) : hash_ctx := crypto_md32_update md5_block_data_order MD5_CBLOCK c data.

Definition MD5_Final (c : hash_ctx) : bytes * hash_ctx :=
  let c := crypto_md32_final md5_block_data_order MD5_CBLOCK false c in
  (concat (map (fun i => CRYPTO_store_u32_le (h c !!! i)) (seq 0 4)), c).

Definition MD5_get_state (c : hash_ctx) : option (bytes * Z) :=
  if negb (Nl c mod (Z.of_nat MD5_CBLOCK * 8) =? 0) then None
  else Some (concat (map CRYPTO_store_u32_be (take (Z.to_nat (MD5_CHAINING_LENGTH / 4)) (h c))), u64 (Z.shiftl (Nh c) 32 + Nl c)).

Definition MD5 (data : bytes) : bytes := fst (MD5_Final (MD5_Update MD5_Init data)).

Example md5_abc : take 8 (MD5 [97; 98; 99]) = [0x90; 0x01; 0x50; 0x98; 0x3c; 0xd2; 0x4f; 0xb0].
Proof. vm_compute. reflexivity. Qed.

(** * MD4 *)

Definition MD4_F (b c d : Z) : Z := Z.lxor (Z.land (Z.lxor c d) b) d.
Definition MD4_G (b c d : Z) : Z := Z.lor (Z.lor (Z.land b c) (Z.land b d)) (Z.land c d).
Definition MD4_H (b c d : Z) : Z := Z.lxor (Z.lxor b c) d.

Definition MD4_R (F : Z -> Z -> Z -> Z) (X r : list Z) (e : nat * (nat * Z * Z)) : list Z :=
  let '(i, (k, s, t)) := e in
  let at_ j := r !!! rot_reg 4 i j in
  let a := u32 (at_ 0%nat + (X !!! k + t + F (at_ 1%nat) (at_ 2%nat) (at_ 3%nat))) in
  <[rot_reg 4 i 0 := CRYPTO_rotl_u32 a s]> r.

Definition md4_round0 : list (nat * Z * Z) :=
  [(0%nat, 3, 0); (1%nat, 7, 0); (2%nat, 11, 0); (3%nat, 19, 0);
   (4%nat, 3, 0); (5%nat, 7, 0); (6%nat, 11, 0); (7%nat, 19, 0);
   (8%nat, 3, 0); (9%nat, 7, 0); (10%nat, 11, 0); (11%nat, 19, 0);
   (12%nat, 3, 0); (13%nat, 7, 0); (14%nat, 11, 0); (15%nat, 19, 0)].
Definition md4_round1 : list (nat * Z * Z) :=
  [(0%nat, 3, 0x5A827999); (4%nat, 5, 0x5A827999); (8%nat, 9, 0x5A827999); (12%nat, 13, 0x5A827999);
   (1%nat, 3, 0x5A827999); (5%nat, 5, 0x5A827999); (9%nat, 9, 0x5A827999); (13%nat, 13, 0x5A827999);
   (2%nat, 3, 0x5A827999); (6%nat, 5, 0x5A827999); (10%nat, 9, 0x5A827999); (14%nat, 13, 0x5A827999);
   (3%nat, 3, 0x5A827999); (7%nat, 5, 0x5A827999); (11%nat, 9, 0x5A827999); (15%nat, 13, 0x5A827999)].
Definition md4_round2 : list (nat * Z * Z) :=
  [(0%nat, 3, 0x6ED9EBA1); (8%nat, 9, 0x6ED9EBA1); (4%nat, 11, 0x6ED9EBA1); (12%nat, 15, 0x6ED9EBA1);
   (2%nat, 3, 0x6ED9EBA1); (10%nat, 9, 0x6ED9EBA1); (6%nat, 11, 0x6ED9EBA1); (14%nat, 15, 0x6ED9EBA1);
   (1%nat, 3, 0x6ED9EBA1); (9%nat, 9, 0x6ED9EBA1); (5%nat, 11, 0x6ED9EBA1); (13%nat, 15, 0x6ED9EBA1);
   (3%nat, 3, 0x6ED9EBA1); (11%nat, 9, 0x6ED9EBA1); (7%nat, 11, 0x6ED9EBA1); (15%nat, 15, 0x6ED9EBA1)].

Definition md4_block1 (state : list Z) (data : bytes) : list Z :=
  let X := load_block CRYPTO_load_u32_le data in
  let r := rounds_of (MD4_R MD4_F) X md4_round0 state in
  let r := rounds_of (MD4_R MD4_G) X md4_round1 r in
  let r := rounds_of (MD4_R MD4_H) X md4_round2 r in
  zip_with (fun s v => u32 (s + v)) state r.

Definition md4_block_data_order := block_loop md4_block1.

Definition MD4_CBLOCK : nat := 64.

Definition MD4_Init : hash_ctx := mk_ctx h_md5 0 0 (zeros MD4_CBLOCK) 0 0.
Definition MD4_Transform (c : hash_ctx) (data : bytes) : hash_ctx := set_h (md4_block_data_order (h c) data 1) c.
Definition MD4_Update (c : hash_ctx) (data : bytes) : hash_ctx := crypto_md32_update md4_block_data_order MD4_CBLOCK c data.

Definition MD4_Final (c : hash_ctx) : bytes * hash_ctx :=
  let c := crypto_md32_final md4_block_data_order MD4_CBLOCK false c in
  (concat (map (fun i => CRYPTO_store_u32_le (h c !!! i)) (seq 0 4)), c).

Definition MD4 (data : bytes) : bytes := fst (MD4_Final (MD4_Update MD4_Init data)).

Example md4_abc : take 8 (MD4 [97; 98; 99]) = [0xa4; 0x48; 0x01; 0x7a; 0xaf; 0x21; 0xd8; 0x52].
Proof. vm_compute. reflexivity. Qed.
End Md.
