(* ===== verification/MdSpec.v ===== *)
(** The block functions of SHA-1, MD5 and MD4 are those of FIPS 180-4, RFC 1321 and RFC 1320, and
    the hash of a message read in pieces is that of the padded message. *)

From S2P Require Import Prelude Internal Modes Digest Sha ShaSpec Md.

Open Scope Z_scope.

Module MdSpec.
Import Internal Modes Digest Sha ShaSpec Md.

(** * References *)

(** ** SHA-1, FIPS 180-4, 4.1.1 and 6.1.2 *)

Definition sha1_f (t : nat) (x y z : Z) : Z :=
  if (t <? 20)%nat then Z.lxor (Z.land x y) (Z.land (Z.lnot x) z)
  else if (t <? 40)%nat then Z.lxor x (Z.lxor y z)
  else if (t <? 60)%nat then Z.lxor (Z.lxor (Z.land x y) (Z.land x z)) (Z.land y z)
  else Z.lxor x (Z.lxor y z).

Definition sha1_K (t : nat) : Z :=
  if (t <? 20)%nat then 0x5a827999 else if (t <? 40)%nat then 0x6ed9eba1 else if (t <? 60)%nat then 0x8f1bbcdc else 0xca62c1d6.

Definition sha1_schedule (M : list Z) : nat -> list Z :=
  expand (fun W t => if (t <? 16)%nat then M !!! t
                     else CRYPTO_rotl_u32 (Z.lxor (Z.lxor (Z.lxor (W !!! (t - 3)%nat) (W !!! (t - 8)%nat)) (W !!! (t - 14)%nat)) (W !!! (t - 16)%nat)) 1).

Definition sha1_round (s : list Z) (t : nat) (Wt : Z) : list Z :=
  match s with
  | [a; b; c; d; e] => [u32 (CRYPTO_rotl_u32 a 5 + sha1_f t b c d + e + sha1_K t + Wt); a; CRYPTO_rotl_u32 b 30; c; d]
  | _ => s
  end.

Definition fips_sha1 (state : list Z) (data : bytes) : list Z :=
  let W := sha1_schedule (load_block CRYPTO_load_u32_be data) 80 in
  zip_with (fun s v => u32 (s + v)) state (foldl (fun s t => sha1_round s t (W !!! t)) state (seq 0 80)).

(** ** MD5, RFC 1321, 3.4, and MD4, RFC 1320, 3.4 *)

Definition rfc_F (x y z : Z) : Z := Z.lor (Z.land x y) (Z.land (Z.lnot x) z).
Definition rfc_G (x y z : Z) : Z := Z.lor (Z.land x z) (Z.land y (Z.lnot z)).
Definition rfc_H (x y z : Z) : Z := Z.lxor x (Z.lxor y z).
Definition rfc_I (x y z : Z) : Z := Z.lxor y (Z.lor x (wnot 32 z)).
Definition rfc_maj (x y z : Z) : Z := Z.lor (Z.lor (Z.land x y) (Z.land x z)) (Z.land y z).

(** The operations [a = b + ((a + F(b,c,d) + X[k] + T[i]) <<< s)] and
    [a = (a + F(b,c,d) + X[k] + t) <<< s], after which the variables change places. *)
Definition md5_op (F : Z -> Z -> Z -> Z) (s T x : Z) (r : list Z) : list Z :=
  match r with
  | [a; b; c; d] => [d; u32 (b + CRYPTO_rotl_u32 (u32 (a + F b c d + x + T)) s); b; c]
  | _ => r
  end.
Definition md4_op (F : Z -> Z -> Z -> Z) (s T x : Z) (r : list Z) : list Z :=
  match r with
  | [a; b; c; d] => [d; CRYPTO_rotl_u32 (u32 (a + F b c d + x + T)) s; b; c]
  | _ => r
  end.

(** The words that the rounds read, in order, their rotations, and the table T. *)
Definition md5_k (q i : nat) : nat :=
  match q with 0%nat => i | 1%nat => (5 * i + 1) mod 16 | 2%nat => (3 * i + 5) mod 16 | _ => (7 * i) mod 16 end%nat.
Definition md5_s (q i : nat) : Z := nth (i mod 4) (nth q [[7; 12; 17; 22]; [5; 9; 14; 20]; [4; 11; 16; 23]; [6; 10; 15; 21]] []) 0.
Definition md5_T : list Z := map snd (md5_round0 ++ md5_round1 ++ md5_round2 ++ md5_round3).
Definition md5_F (q : nat) : Z -> Z -> Z -> Z := match q with 0%nat => rfc_F | 1%nat => rfc_G | 2%nat => rfc_H | _ => rfc_I end.

Definition rfc_md5 (state : list Z) (data : bytes) : list Z :=
  let X := load_block CRYPTO_load_u32_le data in
  let op r t := let q := (t / 16)%nat in let i := (t mod 16)%nat in md5_op (md5_F q) (md5_s q i) (nth t md5_T 0) (X !!! md5_k q i) r in
  zip_with (fun s v => u32 (s + v)) state (foldl op state (seq 0 64)).

Definition md4_k (q i : nat) : nat :=
  match q with 0%nat => i | 1%nat => 4 * (i mod 4) + i / 4 | _ => nth i [0; 8; 4; 12; 2; 10; 6; 14; 1; 9; 5; 13; 3; 11; 7; 15] 0 end%nat.
Definition md4_s (q i : nat) : Z := nth (i mod 4) (nth q [[3; 7; 11; 19]; [3; 5; 9; 13]; [3; 9; 11; 15]] []) 0.
Definition md4_T (q : nat) : Z := match q with 0%nat => 0 | 1%nat => 0x5a827999 | _ => 0x6ed9eba1 end.
Definition md4_F (q : nat) : Z -> Z -> Z -> Z := match q with 0%nat => rfc_F | 1%nat => rfc_maj | _ => rfc_H end.

Definition rfc_md4 (state : list Z) (data : bytes) : list Z :=
  let X := load_block CRYPTO_load_u32_le data in
  let op r t := let q := (t / 16)%nat in let i := (t mod 16)%nat in md4_op (md4_F q) (md4_s q i) (md4_T q) (X !!! md4_k q i) r in
  zip_with (fun s v => u32 (s + v)) state (foldl op state (seq 0 48)).

(** * The functions of three words *)

Lemma testbit_lnot x n : 0 <= n -> Z.testbit (Z.lnot x) n = negb (Z.testbit x n).
Proof. intros H. by apply Z.lnot_spec. Qed.

Ltac bits :=
  apply Z.bits_inj'; intros n Hn; repeat (rewrite Z.lxor_spec || rewrite Z.lor_spec || rewrite Z.land_spec || rewrite testbit_lnot by assumption);
  repeat match goal with |- context [Z.testbit ?x n] => destruct (Z.testbit x n) end; reflexivity.

Lemma F_00_19_eq b c d : F_00_19 b c d = Z.lxor (Z.land b c) (Z.land (Z.lnot b) d).
Proof. unfold F_00_19. bits. Qed.

Lemma F_20_39_eq b c d : F_20_39 b c d = Z.lxor b (Z.lxor c d).
Proof. unfold F_20_39. bits. Qed.

Lemma F_40_59_eq b c d : F_40_59 b c d = Z.lxor (Z.lxor (Z.land b c) (Z.land b d)) (Z.land c d).
Proof. unfold F_40_59. bits. Qed.

Lemma MD5_F_eq b c d : MD5_F b c d = rfc_F b c d.
Proof. unfold MD5_F, rfc_F. bits. Qed.

Lemma MD5_G_eq b c d : MD5_G b c d = rfc_G b c d.
Proof. unfold MD5_G, rfc_G. bits. Qed.

Lemma MD5_H_eq b c d : MD5_H b c d = rfc_H b c d.
Proof. unfold MD5_H, rfc_H. bits. Qed.

Lemma MD5_I_eq b c d : MD5_I b c d = rfc_I b c d.
Proof. unfold MD5_I, rfc_I. rewrite Z.lxor_comm. f_equal. apply Z.lor_comm. Qed.

(** * Variables that change roles *)

Definition args (n m i : nat) (r : list Z) : list Z := map (fun k => r !!! rot_reg n i k) (seq 0 m).

Lemma length_BODY K F i xi r : length (BODY K F i xi r) = length r.
Proof. unfold BODY. cbv zeta. by rewrite !length_insert. Qed.

Lemma args_BODY K F i xi r : length r = 6%nat -> K = sha1_K i -> (forall b c d, F b c d = sha1_f i b c d) -> args 6 5 (S i) (BODY K F i xi r) = sha1_round (args 6 5 i r) i xi.
Proof.
  intros Hr -> HF. do 6 (destruct r as [| ? r]; [done |]). destruct r; [| done]. unfold args, BODY. cbv zeta. rewrite HF.
  match goal with |- context [u32 (xi + ?e + ?k + ?a + ?f)] => replace (xi + e + k + a + f) with (a + f + e + k + xi) by lia end.
  unfold sha1_round, rot_reg. generalize (sha1_f i), (sha1_K i). intros f k. pose proof (Nat.mod_upper_bound i 6 ltac:(lia)) as Hi. rewrite <- (Nat.add_1_r i), <- (Nat.Div0.add_mod_idemp_l i 1 6).
  set (j := (i mod 6)%nat) in *. clearbody j.
  do 6 (destruct j as [| j]; [reflexivity |]). lia.
Qed.

Lemma sha1_schedule_at M n t : (t < n)%nat ->
  sha1_schedule M n !!! t = if (t <? 16)%nat then M !!! t
    else CRYPTO_rotl_u32 (Z.lxor (Z.lxor (Z.lxor (sha1_schedule M n !!! (t - 3)%nat) (sha1_schedule M n !!! (t - 8)%nat)) (sha1_schedule M n !!! (t - 14)%nat)) (sha1_schedule M n !!! (t - 16)%nat)) 1.
Proof.
  intros Ht. unfold sha1_schedule. rewrite expand_at at 1; [done | | done]. intros W W' HW. destruct (Nat.ltb_spec t 16); [done |]. by rewrite !(HW (t - _)%nat) by lia.
Qed.

Lemma ring_at W X i k t : ring W X i -> (i + k = t + 16)%nat -> (t < i)%nat -> X !!! ((i + k) mod 16)%nat = W !!! t.
Proof. intros [_ Hr] E Ht. rewrite E. rewrite <- (Hr t Ht ltac:(lia)). f_equal. rewrite Nat.Div0.add_mod, Nat.Div0.mod_same, Nat.add_0_r. by rewrite Nat.Div0.mod_mod. Qed.

Lemma args_start state : length state = 5%nat -> args 6 5 0 (state ++ [0]) = state.
Proof. intros H. do 5 (destruct state as [| ? state]; [done |]). by destruct state. Qed.

Lemma xor4 a b c d : Z.lxor (Z.lxor (Z.lxor a b) c) d = Z.lxor (Z.lxor (Z.lxor d c) b) a.
Proof. bits. Qed.

Lemma zip_land (r state : list Z) (l : list nat) : zip_with (fun s k => Z.land (s + r !!! k) 0xffffffff) state l = zip_with (fun s v => u32 (s + v)) state (map (fun k => r !!! k) l).
Proof. revert state. induction l as [| k l IH]; intros [| s state]; cbn; [done | done | done |]. f_equal; [apply (Z.land_ones _ 32); lia | apply IH]. Qed.

(** ** The rounds of SHA-1 *)

Section Sha1.
Context (state : list Z) (data : bytes) (state_len : length state = 5%nat).
Let M := load_block CRYPTO_load_u32_be data.
Let W := sha1_schedule M 80.

Definition sha1_vars (i : nat) : list Z := foldl (fun s t => sha1_round s t (W !!! t)) state (seq 0 i).

Definition at1 (rX : list Z * list Z) (i : nat) : Prop := length (fst rX) = 6%nat /\ args 6 5 i (fst rX) = sha1_vars i /\ ring W (snd rX) (Nat.max i 16).

Lemma at1_body K F r X i xi X' : at1 (r, X) i -> W !!! i = xi -> K = sha1_K i -> (forall b c d, F b c d = sha1_f i b c d) -> ring W X' (Nat.max (S i) 16) -> at1 (BODY K F i xi r, X') (S i).
Proof.
  intros (Hl & Hv & _) HW HK HF Hr. cbn [fst snd] in *. split; cbn [fst snd]; [by rewrite length_BODY |]. split; [| done]. rewrite args_BODY, Hv by done. unfold sha1_vars. by rewrite seq_S, foldl_app, <- HW.
Qed.

Lemma at1_first rX i : (i < 16)%nat -> at1 rX i -> at1 (BODY_00_15 rX i) (S i).
Proof.
  intros Hi Ha. destruct rX as [r X]. cbn [BODY_00_15]. pose proof (proj2 (proj2 Ha)) as Hr. cbn [snd] in Hr. rewrite Nat.max_r in Hr by lia.
  apply (at1_body _ _ _ X); [done | | | |]; rewrite ?Nat.max_r by lia; try done.
  - rewrite <- (proj2 Hr i ltac:(lia) ltac:(lia)). by rewrite Nat.mod_small.
  - unfold sha1_K. by replace (i <? 20)%nat with true by (symmetry; apply Nat.ltb_lt; lia).
  - intros b c d. rewrite F_00_19_eq. unfold sha1_f. by replace (i <? 20)%nat with true by (symmetry; apply Nat.ltb_lt; lia).
Qed.

Lemma at1_late K F rX i : (16 <= i < 80)%nat -> K = sha1_K i -> (forall b c d, F b c d = sha1_f i b c d) -> at1 rX i -> at1 (BODY_update K F rX i) (S i).
Proof.
  intros Hi HK HF Ha. destruct rX as [r X]. unfold BODY_update. cbv zeta. pose proof (proj2 (proj2 Ha)) as Hr. cbn [snd] in Hr. rewrite Nat.max_l in Hr by lia.
  assert (W !!! i = Xupdate X i) as HW.
  { unfold W. rewrite sha1_schedule_at by lia. replace (i <? 16)%nat with false by (symmetry; apply Nat.ltb_ge; lia). fold W. unfold Xupdate.
    rewrite (ring_at W X i 0 (i - 16)), (ring_at W X i 2 (i - 14)), (ring_at W X i 8 (i - 8)), (ring_at W X i 13 (i - 3)) by (assumption || lia). by rewrite xor4. }
  apply (at1_body _ _ _ X); try done. rewrite Nat.max_l by lia. by apply ring_next.
Qed.

Ltac in_rounds i := unfold sha1_K, sha1_f; repeat match goal with |- context [(i <? ?k)%nat] => destruct (Nat.ltb_spec i k); try lia end; first [reflexivity | apply F_00_19_eq | apply F_20_39_eq | apply F_40_59_eq].

Lemma fips_sha1_vars : fips_sha1 state data = zip_with (fun s v => u32 (s + v)) state (sha1_vars 80).
Proof. unfold fips_sha1, sha1_vars, W, M. cbv zeta. reflexivity. Qed.

Lemma sha1_block_eq : sha1_block1 state data = fips_sha1 state data.
Proof.
  rewrite fips_sha1_vars. unfold sha1_block1. change (load_block CRYPTO_load_u32_be data) with M.
  assert (at1 (state ++ [0], M) 0) as H0.
  { split; [cbn [fst]; rewrite length_app, state_len; done |]. split; [by apply args_start |]. split; [done |]. cbn [snd]. intros t Ht _. unfold W. rewrite sha1_schedule_at by lia. rewrite Nat.mod_small by lia.
    by replace (t <? 16)%nat with true by (symmetry; by apply Nat.ltb_lt). }
  pose proof (fold_rounds at1 _ 16 0 _ (fun x i Hi => at1_first x i ltac:(lia)) H0) as H1. cbn [Nat.add] in H1.
  pose proof (fold_rounds at1 BODY_16_19 4 16 _ (fun x i Hi => at1_late K_00_19 F_00_19 x i ltac:(lia) ltac:(in_rounds i) ltac:(intros b c d; in_rounds i)) H1) as H2. cbn [Nat.add] in H2.
  pose proof (fold_rounds at1 BODY_20_31 12 20 _ (fun x i Hi => at1_late K_20_39 F_20_39 x i ltac:(lia) ltac:(in_rounds i) ltac:(intros b c d; in_rounds i)) H2) as H3. cbn [Nat.add] in H3.
  pose proof (fold_rounds at1 BODY_32_39 8 32 _ (fun x i Hi => at1_late K_20_39 F_20_39 x i ltac:(lia) ltac:(in_rounds i) ltac:(intros b c d; in_rounds i)) H3) as H4. cbn [Nat.add] in H4.
  pose proof (fold_rounds at1 BODY_40_59 20 40 _ (fun x i Hi => at1_late K_40_59 F_40_59 x i ltac:(lia) ltac:(in_rounds i) ltac:(intros b c d; in_rounds i)) H4) as H5. cbn [Nat.add] in H5.
  pose proof (fold_rounds at1 BODY_60_79 20 60 _ (fun x i Hi => at1_late K_60_79 F_60_79 x i ltac:(lia) ltac:(in_rounds i) ltac:(intros b c d; in_rounds i)) H5) as H6. cbn [Nat.add] in H6.
  destruct (foldl BODY_60_79 _ _) as [r X]. destruct H6 as (_ & Hv & _). cbn [fst] in Hv. rewrite <- Hv.
  change (args 6 5 80 r) with (map (fun k => r !!! k) [4; 5; 0; 1; 2]%nat). generalize [4; 5; 0; 1; 2]%nat. intros l. apply zip_land.
Qed.
End Sha1.

(** ** The rounds of MD5 and MD4 *)

Section Four.
Context (R : list Z -> list Z -> nat * (nat * Z * Z) -> list Z) (op : Z -> Z -> Z -> list Z -> list Z) (X : list Z).
Context (R_op : forall i k s t r, length r = 4%nat -> args 4 4 (S i) (R X r (i, (k, s, t))) = op s t (X !!! k) (args 4 4 i r)) (R_len : forall e r, length (R X r e) = length r).

Lemma rounds_args a table r : length r = 4%nat ->
  args 4 4 (a + length table) (foldl (R X) r (zip (seq a (length table)) table)) = foldl (fun r e => op (snd (fst e)) (snd e) (X !!! fst (fst e)) r) (args 4 4 a r) table /\
  length (foldl (R X) r (zip (seq a (length table)) table)) = 4%nat.
Proof.
  revert a r. induction table as [| [[k s] t] table IH]; intros a r Hr; [by rewrite Nat.add_0_r |]. cbn [length seq zip zip_with foldl fst snd]. rewrite Nat.add_succ_r, <- R_op by done. apply (IH (S a)). by rewrite R_len.
Qed.

Lemma args_16 i r : length r = 4%nat -> (i mod 4 = 0)%nat -> args 4 4 i r = r.
Proof. intros Hr Hi. unfold args, rot_reg. rewrite Hi. do 4 (destruct r as [| ? r]; [done |]). by destruct r. Qed.

Lemma rounds_of_op table r : length r = 4%nat -> length table = 16%nat ->
  rounds_of R X table r = foldl (fun r e => op (snd (fst e)) (snd e) (X !!! fst (fst e)) r) r table /\ length (rounds_of R X table r) = 4%nat.
Proof.
  intros Hr Ht. destruct (rounds_args 0 table r Hr) as [H1 H2]. rewrite Ht in H1, H2. fold (rounds_of R X table r) in H1, H2. split; [| done]. by rewrite !args_16 in H1.
Qed.
End Four.

Ltac one_round r i :=
  do 4 (destruct r as [| ? r]; [done |]); destruct r; [| done]; unfold args, rot_reg; pose proof (Nat.mod_upper_bound i 4 ltac:(lia)); rewrite <- (Nat.add_1_r i), <- (Nat.Div0.add_mod_idemp_l i 1 4); generalize dependent (i mod 4)%nat; intros j ?.

Lemma MD5_R_op F G X i k s t r : (forall b c d, F b c d = G b c d) -> length r = 4%nat -> args 4 4 (S i) (MD5_R F X r (i, (k, s, t))) = md5_op G s t (X !!! k) (args 4 4 i r).
Proof.
  intros HF Hr. unfold MD5_R. cbv zeta. rewrite HF, (Z.add_comm (CRYPTO_rotl_u32 _ _)). generalize (X !!! k). intros x.
  match goal with |- context [u32 (?a + (x + t + ?f))] => replace (a + (x + t + f)) with (a + f + x + t) by lia end. one_round r i. do 4 (destruct j as [| j]; [reflexivity |]). lia.
Qed.

Lemma MD4_R_op F G X i k s t r : (forall b c d, F b c d = G b c d) -> length r = 4%nat -> args 4 4 (S i) (MD4_R F X r (i, (k, s, t))) = md4_op G s t (X !!! k) (args 4 4 i r).
Proof.
  intros HF Hr. unfold MD4_R. cbv zeta. rewrite HF. generalize (X !!! k). intros x.
  match goal with |- context [u32 (?a + (x + t + ?f))] => replace (a + (x + t + f)) with (a + f + x + t) by lia end. one_round r i. do 4 (destruct j as [| j]; [reflexivity |]). lia.
Qed.

Lemma length_MD5_R F X e r : length (MD5_R F X r e) = length r.
Proof. destruct e as [i [[k s] t]]. unfold MD5_R. cbv zeta. apply length_insert. Qed.

Lemma length_MD4_R F X e r : length (MD4_R F X r e) = length r.
Proof. destruct e as [i [[k s] t]]. unfold MD4_R. cbv zeta. apply length_insert. Qed.

(** The rounds as a table of functions, words, rotations and constants. *)
Definition entry : Type := (Z -> Z -> Z -> Z) * (nat * Z * Z).
Definition run (op : (Z -> Z -> Z -> Z) -> Z -> Z -> Z -> list Z -> list Z) (X r : list Z) (e : entry) : list Z := op (fst e) (snd (fst (snd e))) (snd (snd e)) (X !!! fst (fst (snd e))) r.

Lemma foldl_pair op F X table r : foldl (fun r e => op F (snd (fst e)) (snd e) (X !!! fst (fst e)) r) r table = foldl (run op X) r (map (pair F) table).
Proof. revert r. induction table as [| e table IH]; intros r; [done |]. cbn [map foldl]. apply IH. Qed.

Lemma foldl_seq op X (g : nat -> entry) l r : foldl (fun r t => run op X r (g t)) r l = foldl (run op X) r (map g l).
Proof. revert r. induction l as [| t l IH]; intros r; [done |]. cbn [map foldl]. apply IH. Qed.

Definition md5_entry (t : nat) : entry := let q := (t / 16)%nat in let i := (t mod 16)%nat in (md5_F q, (md5_k q i, md5_s q i, nth t md5_T 0)).
Definition md4_entry (t : nat) : entry := let q := (t / 16)%nat in let i := (t mod 16)%nat in (md4_F q, (md4_k q i, md4_s q i, md4_T q)).

Lemma md5_entries : map md5_entry (seq 0 64) = map (pair rfc_F) md5_round0 ++ map (pair rfc_G) md5_round1 ++ map (pair rfc_H) md5_round2 ++ map (pair rfc_I) md5_round3.
Proof. reflexivity. Qed.

Lemma md4_entries : map md4_entry (seq 0 48) = map (pair rfc_F) md4_round0 ++ map (pair rfc_maj) md4_round1 ++ map (pair rfc_H) md4_round2.
Proof. reflexivity. Qed.

Lemma md5_rounds_eq F G X table r : (forall b c d, F b c d = G b c d) -> length r = 4%nat -> length table = 16%nat ->
  rounds_of (MD5_R F) X table r = foldl (run md5_op X) r (map (pair G) table) /\ length (rounds_of (MD5_R F) X table r) = 4%nat.
Proof.
  intros HF Hr Ht. rewrite <- foldl_pair. apply (rounds_of_op (MD5_R F) (md5_op G) X); [intros; by apply MD5_R_op | intros; apply length_MD5_R | done | done].
Qed.

Lemma md4_rounds_eq F G X table r : (forall b c d, F b c d = G b c d) -> length r = 4%nat -> length table = 16%nat ->
  rounds_of (MD4_R F) X table r = foldl (run md4_op X) r (map (pair G) table) /\ length (rounds_of (MD4_R F) X table r) = 4%nat.
Proof.
  intros HF Hr Ht. rewrite <- foldl_pair. apply (rounds_of_op (MD4_R F) (md4_op G) X); [intros; by apply MD4_R_op | intros; apply length_MD4_R | done | done].
Qed.

Lemma rfc_md5_run state data : rfc_md5 state data = zip_with (fun s v => u32 (s + v)) state (foldl (run md5_op (load_block CRYPTO_load_u32_le data)) state (map md5_entry (seq 0 64))).
Proof. unfold rfc_md5. cbv zeta. by rewrite <- foldl_seq. Qed.

Lemma rfc_md4_run state data : rfc_md4 state data = zip_with (fun s v => u32 (s + v)) state (foldl (run md4_op (load_block CRYPTO_load_u32_le data)) state (map md4_entry (seq 0 48))).
Proof. unfold rfc_md4. cbv zeta. by rewrite <- foldl_seq. Qed.

Lemma md5_block_eq state data : length state = 4%nat -> md5_block1 state data = rfc_md5 state data.
Proof.
  intros Hs. rewrite rfc_md5_run, md5_entries, !foldl_app. unfold md5_block1. cbv zeta. set (X := load_block _ _). clearbody X.
  destruct (md5_rounds_eq MD5_F rfc_F X md5_round0 state MD5_F_eq Hs eq_refl) as [E0 H0]. destruct (md5_rounds_eq MD5_G rfc_G X md5_round1 _ MD5_G_eq H0 eq_refl) as [E1 H1].
  destruct (md5_rounds_eq MD5_H rfc_H X md5_round2 _ MD5_H_eq H1 eq_refl) as [E2 H2]. destruct (md5_rounds_eq MD5_I rfc_I X md5_round3 _ MD5_I_eq H2 eq_refl) as [E3 _]. by rewrite E3, E2, E1, E0.
Qed.

Lemma md4_block_eq state data : length state = 4%nat -> md4_block1 state data = rfc_md4 state data.
Proof.
  intros Hs. rewrite rfc_md4_run, md4_entries, !foldl_app. unfold md4_block1. cbv zeta. set (X := load_block _ _). clearbody X.
  destruct (md4_rounds_eq MD4_F rfc_F X md4_round0 state MD5_F_eq Hs eq_refl) as [E0 H0]. destruct (md4_rounds_eq MD4_G rfc_maj X md4_round1 _ (fun _ _ _ => eq_refl) H0 eq_refl) as [E1 H1].
  destruct (md4_rounds_eq MD4_H rfc_H X md4_round2 _ MD5_H_eq H1 eq_refl) as [E2 _]. by rewrite E2, E1, E0.
Qed.

(** * The hash functions *)

(** The words of the chaining value after the blocks of the padded message. *)
Definition md_hash (block : list Z -> bytes -> list Z) (is_big_endian : bool) (out : Z -> bytes) (s0 : list Z) (m : bytes) : bytes :=
  let p := m ++ md_padding 64 (length_bytes is_big_endian m) m in concat (map out (block_loop block s0 p (length p / 64))).

Lemma load_block_prefix load x y : (64 <= length x)%nat -> load_block load (x ++ y) = load_block load x.
Proof. intros Hx. unfold load_block. apply map_ext_in. intros i Hi. apply in_seq in Hi. by rewrite ld_prefix by lia. Qed.

Lemma zip_u32_fits (l r : list Z) : Forall (fits 32) (zip_with (fun s v => u32 (s + v)) l r).
Proof. apply zip_wrap_fits. lia. Qed.

(** What a block function in C and its reference have in common. *)
Class BlockOk (n : nat) (block1 ref1 : list Z -> bytes -> list Z) : Prop := {
  block_ref s d : length s = n -> block1 s d = ref1 s d;
  ref_len s d : length s = n -> length (ref1 s d) = n;
  ref_fits s d : Forall (fits 32) (ref1 s d);
  block1_prefix s x y : (64 <= length x)%nat -> block1 s (x ++ y) = block1 s x
}.

#[export] Instance sha1_block_ok : BlockOk 5 sha1_block1 fips_sha1.
Proof.
  split.
  - intros s d Hs. by apply sha1_block_eq.
  - intros s d Hs. rewrite <- sha1_block_eq by done. unfold sha1_block1. destruct (foldl BODY_60_79 _ _). by rewrite length_zip_with, Hs.
  - intros s d. apply zip_u32_fits.
  - intros s x y Hx. unfold sha1_block1. by rewrite load_block_prefix.
Qed.

#[export] Instance md5_block_ok : BlockOk 4 md5_block1 rfc_md5.
Proof.
  split.
  - apply md5_block_eq.
  - intros s d Hs. rewrite <- md5_block_eq by done. unfold md5_block1. cbv zeta. set (X := load_block _ _). clearbody X. rewrite length_zip_with.
    destruct (md5_rounds_eq MD5_F rfc_F X md5_round0 s MD5_F_eq Hs eq_refl) as [_ H0]. destruct (md5_rounds_eq MD5_G rfc_G X md5_round1 _ MD5_G_eq H0 eq_refl) as [_ H1].
    destruct (md5_rounds_eq MD5_H rfc_H X md5_round2 _ MD5_H_eq H1 eq_refl) as [_ H2]. destruct (md5_rounds_eq MD5_I rfc_I X md5_round3 _ MD5_I_eq H2 eq_refl) as [_ H3]. by rewrite H3, Hs.
  - intros s d. apply zip_u32_fits.
  - intros s x y Hx. unfold md5_block1. by rewrite load_block_prefix.
Qed.

#[export] Instance md4_block_ok : BlockOk 4 md4_block1 rfc_md4.
Proof.
  split.
  - apply md4_block_eq.
  - intros s d Hs. rewrite <- md4_block_eq by done. unfold md4_block1. cbv zeta. set (X := load_block _ _). clearbody X. rewrite length_zip_with.
    destruct (md4_rounds_eq MD4_F rfc_F X md4_round0 s MD5_F_eq Hs eq_refl) as [_ H0]. destruct (md4_rounds_eq MD4_G rfc_maj X md4_round1 _ (fun _ _ _ => eq_refl) H0 eq_refl) as [_ H1].
    destruct (md4_rounds_eq MD4_H rfc_H X md4_round2 _ MD5_H_eq H1 eq_refl) as [_ H2]. by rewrite H2, Hs.
  - intros s d. apply zip_u32_fits.
  - intros s x y Hx. unfold md4_block1. by rewrite load_block_prefix.
Qed.

Section Md32.
Context (n : nat) (block1 ref1 : list Z -> bytes -> list Z) `{!BlockOk n block1 ref1} (s0 : list Z).

#[export] Instance block_loop_func : BlockFunc (block_loop block1) 64.
Proof.
  split; [done |]. intros s x y a b Hx. revert s x Hx. induction a as [| a IH]; intros s x Hx; [by apply nil_length_inv in Hx as -> |]. cbn [Nat.add block_loop].
  rewrite block1_prefix by lia. rewrite drop_app_le by lia. apply IH. rewrite length_drop. lia.
Qed.

Lemma block_loop_ref s d k : length s = n -> Forall (fits 32) s -> block_loop block1 s d k = block_loop ref1 s d k /\ length (block_loop ref1 s d k) = n /\ Forall (fits 32) (block_loop ref1 s d k).
Proof.
  revert s d. induction k as [| k IH]; intros s d Hs Hf; [done |]. cbn [block_loop]. rewrite block_ref by done. apply IH; [by apply ref_len | apply ref_fits].
Qed.

(** A context that has read [m]. *)
Definition read32 (m : bytes) (c : hash_ctx) : Prop := absorbed (block_loop block1) 64 s0 32 m c.

Lemma read32_start l : read32 [] (mk_ctx s0 0 0 (zeros 64) 0 l).
Proof. split; [exact (part_start (block_loop block1) 64 s0 (zeros 64) eq_refl) | unfold fits; cbn; lia | unfold fits; cbn; lia | reflexivity]. Qed.

Lemma read32_update m c x : read32 m c -> read32 (m ++ x) (crypto_md32_update (block_loop block1) 64 c x).
Proof. intros H. by apply (md32_update_absorbs (block_loop block1) 64 ltac:(lia) s0 m c x H). Qed.

Lemma read32_pieces m c chunks : read32 m c -> read32 (m ++ concat chunks) (foldl (crypto_md32_update (block_loop block1) 64) c chunks).
Proof. revert m c. induction chunks as [| x chunks IH]; intros m c H; cbn [concat foldl]; [by rewrite app_nil_r |]. rewrite app_assoc. by apply IH, read32_update. Qed.

Lemma map_seq_lookup {B} (f : Z -> B) (l : list Z) : map (fun i => f (l !!! i)) (seq 0 (length l)) = map f l.
Proof.
  induction l as [| v l IH]; [done |]. cbn [length seq map]. f_equal. rewrite <- seq_shift, map_map. rewrite <- IH. apply map_ext. done.
Qed.

Lemma read32_final be (st out : Z -> bytes) m c : length s0 = n -> Forall (fits 32) s0 -> (forall v, fits 32 v -> st v = out v) -> read32 m c ->
  concat (map (fun i => st (h (crypto_md32_final (block_loop block1) 64 be c) !!! i)) (seq 0 n)) = md_hash ref1 be out s0 m.
Proof.
  intros s0_len s0_fits Hst Ha. destruct (md32_final_spec (block_loop block1) 64 ltac:(lia) s0 be m c Ha) as ([Hh _ _ _] & _). rewrite Hh. unfold Digest.md, md_hash. set (p := m ++ _).
  destruct (block_loop_ref s0 p (length p / 64) s0_len s0_fits) as (-> & Hl & Hf). rewrite <- Hl, map_seq_lookup. f_equal. apply map_ext_in. intros v Hv. apply Hst. rewrite List.Forall_forall in Hf. by apply Hf.
Qed.
End Md32.

Lemma h_sha1_ok : length h_sha1 = 5%nat /\ Forall (fits 32) h_sha1. Proof. split; [done | words_fit]. Qed.
Lemma h_md5_ok : length h_md5 = 4%nat /\ Forall (fits 32) h_md5. Proof. split; [done | words_fit]. Qed.

(** The bytes of a word, the lowest first. *)
Definition le_bytes4 (v : Z) : bytes := reverse (be_bytes 4 v).

(** C15: however a message is cut into pieces, SHA-1 returns the hash of FIPS 180-4, MD5 that of RFC
    1321 and MD4 that of RFC 1320: the words of the chaining value after the blocks of the padded
    message, with the functions of three words, the schedule and the order of the words as the
    standards write them. *)
Theorem md_exact (chunks : list bytes) :
  let m := concat chunks in
  fst (SHA1_Final (foldl SHA1_Update SHA1_Init chunks)) = md_hash fips_sha1 true (be_bytes 4) h_sha1 m /\
  fst (MD5_Final (foldl MD5_Update MD5_Init chunks)) = md_hash rfc_md5 false le_bytes4 h_md5 m /\
  fst (MD4_Final (foldl MD4_Update MD4_Init chunks)) = md_hash rfc_md4 false le_bytes4 h_md5 m.
Proof.
  intros m. repeat split.
  - apply (read32_final 5 sha1_block1 fips_sha1 h_sha1 true); [apply h_sha1_ok | apply h_sha1_ok | apply store_u32_be |]. apply (read32_pieces 5 sha1_block1 fips_sha1 h_sha1 []), (read32_start 5 sha1_block1 fips_sha1).
  - apply (read32_final 4 md5_block1 rfc_md5 h_md5 false); [apply h_md5_ok | apply h_md5_ok | done |]. apply (read32_pieces 4 md5_block1 rfc_md5 h_md5 []), (read32_start 4 md5_block1 rfc_md5).
  - apply (read32_final 4 md4_block1 rfc_md4 h_md5 false); [apply h_md5_ok | apply h_md5_ok | done |]. apply (read32_pieces 4 md4_block1 rfc_md4 h_md5 []), (read32_start 4 md4_block1 rfc_md4).
Qed.
End MdSpec.
