(* ===== verification/Hmac.v ===== *)
(** HMAC (crypto/fipsmodule/hmac/hmac.c): the context as a state machine, the keys, and exported
    keys, over any hash functions.

    [C] is the union of the contexts of the hash functions, and [methods_table] the table of
    [AWSLC_hmac_in_place_methods].  An operation returns [None] where the code dereferences a
    NULL pointer. *)

From S2P Require Import Prelude Internal Modes Digest.

Open Scope Z_scope.

Module Hmac.
Import Internal Modes Digest.

(** The parts of an [EVP_MD] that HMAC looks at; [md_type] identifies it. *)
Record EVP_MD := mk_md { md_type : Z; EVP_MD_size : Z; EVP_MD_block_size : Z; EVP_MD_XOF : bool }.

#[export] Instance EVP_MD_eq_dec : EqDecision EVP_MD.
Proof. solve_decision. Defined.

Definition HMAC_STATE_UNINITIALIZED : Z := 0.
Definition HMAC_STATE_INIT_NO_DATA : Z := 1.
Definition HMAC_STATE_IN_PROGRESS : Z := 2.
Definition HMAC_STATE_READY_NEEDS_INIT : Z := 3.
Definition HMAC_STATE_PRECOMPUTED_KEY_EXPORT_READY : Z := 4.

Definition EVP_MAX_MD_BLOCK_SIZE : nat := 144.

Section Hmac.
Context {C : Type} (zero_ctx : C).

Record HmacMethods := mk_methods {
  evp_md : EVP_MD;
  chaining_length : Z;
  init : C -> bool * C;
  update : C -> bytes -> bool * C;
  finalize : C -> option bytes * C;
  init_from_state : option (bytes -> Z -> option C);
  get_state : option (C -> option (bytes * Z)) }.

Context (methods_table : list HmacMethods).

Record HMAC_CTX := mk_hmac { md : option EVP_MD; methods : option HmacMethods; md_ctx : C; i_ctx : C; o_ctx : C; state : Z }.

Definition set_md v c := mk_hmac v (methods c) (md_ctx c) (i_ctx c) (o_ctx c) (state c).
Definition set_methods v c := mk_hmac (md c) v (md_ctx c) (i_ctx c) (o_ctx c) (state c).
Definition set_md_ctx v c := mk_hmac (md c) (methods c) v (i_ctx c) (o_ctx c) (state c).
Definition set_i_ctx v c := mk_hmac (md c) (methods c) (md_ctx c) v (o_ctx c) (state c).
Definition set_o_ctx v c := mk_hmac (md c) (methods c) (md_ctx c) (i_ctx c) v (state c).
Definition set_state v c := mk_hmac (md c) (methods c) (md_ctx c) (i_ctx c) (o_ctx c) v.

Definition GetInPlaceMethods (m : EVP_MD) : option HmacMethods := List.find (fun x => bool_decide (evp_md x = m)) methods_table.

Definition hmac_ctx_is_initialized (c : HMAC_CTX) : bool := (state c =? HMAC_STATE_INIT_NO_DATA) || (state c =? HMAC_STATE_IN_PROGRESS).

(** All zeros: [HMAC_CTX_init] and [HMAC_CTX_cleanup]. *)
Definition HMAC_CTX_init : HMAC_CTX := mk_hmac None None zero_ctx zero_ctx zero_ctx HMAC_STATE_UNINITIALIZED.
Definition HMAC_CTX_cleanup : HMAC_CTX := HMAC_CTX_init.

Definition hmac_ctx_set_md_methods (ctx : HMAC_CTX) (m : option EVP_MD) : bool * HMAC_CTX :=
  match m with
  | Some m' =>
      if (state ctx =? HMAC_STATE_UNINITIALIZED) || negb (bool_decide (md ctx = Some m')) then
        match GetInPlaceMethods m' with
        | None => (false, set_methods None ctx)
        | Some x => (true, set_md (Some m') (set_methods (Some x) ctx))
        end
      else (hmac_ctx_is_initialized ctx, ctx)
  | None => (hmac_ctx_is_initialized ctx, ctx)
  end.

(** [pad[i] = c ^ key_block[i]] for the words of a block. *)
Definition xor_pad (c : Z) (key_block : bytes) (words : nat) : bytes :=
  concat (map (fun i => CRYPTO_store_word_le (Z.lxor c (CRYPTO_load_word_le (ld key_block (i * 8) 8)))) (seq 0 words)).

Definition key_zeros : bytes := zeros EVP_MAX_MD_BLOCK_SIZE.

(** The key block: the key or its hash, in a buffer of zeros; the hash goes through [md_ctx]. *)
Definition hmac_key_block (m : HmacMethods) (key : bytes) (c : C) : option bytes * C :=
  if EVP_MD_block_size (evp_md m) <? len key then
    let '(ok, c) := init m c in
    if negb ok then (None, c)
    else
      let '(ok, c) := update m c key in
      if negb ok then (None, c)
      else match finalize m c with (Some d, c) => (Some (store key_zeros 0 d), c) | (None, c) => (None, c) end
  else (Some (store key_zeros 0 key), c).

(** A context of the hash function that has read one pad. *)
Definition start_pad (m : HmacMethods) (c : C) (pad : bytes) : bool * C :=
  let '(ok, c) := init m c in
  if negb ok then (false, c) else update m c pad.

(** The state after the call of an initialization function. *)
Definition mark_init (ctx : HMAC_CTX) : HMAC_CTX :=
  if (state ctx =? HMAC_STATE_READY_NEEDS_INIT) || (state ctx =? HMAC_STATE_PRECOMPUTED_KEY_EXPORT_READY) then set_state HMAC_STATE_INIT_NO_DATA ctx else ctx.

Definition is_xof (m : option EVP_MD) : bool := match m with Some m => EVP_MD_XOF m | None => false end.

(** The same digest again, or none given. *)
Definition same_md (m : option EVP_MD) (ctx : HMAC_CTX) : bool := bool_decide (m = None) || bool_decide (m = md ctx).

(** The second half of [HMAC_Init_ex]: the contexts for a new key. *)
Definition hmac_rekey (ctx : HMAC_CTX) (key : bytes) : option (bool * HMAC_CTX) :=
  match methods ctx with
  | None => None
  | Some x =>
      let block_size := Z.to_nat (EVP_MD_block_size (evp_md x)) in
      match hmac_key_block x key (md_ctx ctx) with
      | (None, c) => Some (false, HMAC_CTX_cleanup)
      | (Some key_block, c) =>
          let ctx := set_md_ctx c ctx in
          let '(ok, c) := start_pad x (i_ctx ctx) (xor_pad 0x3636363636363636 key_block (block_size / 8)) in
          if negb ok then Some (false, HMAC_CTX_cleanup)
          else
            let ctx := set_i_ctx c ctx in
            let '(ok, c) := start_pad x (o_ctx ctx) (xor_pad 0x5c5c5c5c5c5c5c5c key_block (block_size / 8)) in
            if negb ok then Some (false, HMAC_CTX_cleanup)
            else
              let ctx := set_o_ctx c ctx in
              Some (true, set_state HMAC_STATE_INIT_NO_DATA (set_md_ctx (i_ctx ctx) ctx))
      end
  end.

Definition HMAC_Init_ex (ctx : HMAC_CTX) (key : option bytes) (m : option EVP_MD) : option (bool * HMAC_CTX) :=
  if is_xof m then Some (false, ctx)
  else
    let ctx := mark_init ctx in
    if hmac_ctx_is_initialized ctx && bool_decide (key = None) && same_md m ctx then
      let ctx := if state ctx =? HMAC_STATE_IN_PROGRESS then set_md_ctx (i_ctx ctx) ctx else ctx in
      Some (true, set_state HMAC_STATE_INIT_NO_DATA ctx)
    else
      let '(ok, ctx) := hmac_ctx_set_md_methods ctx m in
      if negb ok then Some (false, ctx) else hmac_rekey ctx (default [] key).

Definition HMAC_Update (ctx : HMAC_CTX) (data : bytes) : option (bool * HMAC_CTX) :=
  if negb (hmac_ctx_is_initialized ctx) then Some (false, ctx)
  else
    let ctx := set_state HMAC_STATE_IN_PROGRESS ctx in
    match methods ctx with
    | None => None
    | Some x => let '(ok, c) := update x (md_ctx ctx) data in Some (ok, set_md_ctx c ctx)
    end.

(** The MAC, or a failure, and the context. *)
Definition HMAC_Final (ctx : HMAC_CTX) : option (option bytes * HMAC_CTX) :=
  if negb (hmac_ctx_is_initialized ctx) then Some (None, ctx)
  else
    match md ctx, methods ctx with
    | Some m, Some x =>
        match finalize x (md_ctx ctx) with
        | (None, _) => Some (None, HMAC_CTX_cleanup)
        | (Some tmp, _) =>
            let '(ok, c) := update x (o_ctx ctx) (take (Z.to_nat (EVP_MD_size m)) tmp) in
            if negb ok then Some (None, HMAC_CTX_cleanup)
            else
              match finalize x c with
              | (None, _) => Some (None, HMAC_CTX_cleanup)
              | (Some out, _) => Some (Some out, set_state HMAC_STATE_READY_NEEDS_INIT (set_md_ctx (i_ctx ctx) ctx))
              end
        end
    | _, _ => None
    end.

Definition HMAC_size (ctx : HMAC_CTX) : option Z := option_map EVP_MD_size (md ctx).
Definition HMAC_CTX_get_md (ctx : HMAC_CTX) : option EVP_MD := md ctx.
Definition HMAC_CTX_copy_ex (dest src : HMAC_CTX) : HMAC_CTX := src.
Definition HMAC_CTX_reset (ctx : HMAC_CTX) : HMAC_CTX := HMAC_CTX_cleanup.

(** * Exported keys *)

Definition HMAC_set_precomputed_key_export (ctx : HMAC_CTX) : bool * HMAC_CTX :=
  if match methods ctx with Some x => bool_decide (is_Some (get_state x)) | None => true end then
    if negb (state ctx =? HMAC_STATE_INIT_NO_DATA) && negb (state ctx =? HMAC_STATE_PRECOMPUTED_KEY_EXPORT_READY) then (false, ctx)
    else (true, set_state HMAC_STATE_PRECOMPUTED_KEY_EXPORT_READY ctx)
  else (false, ctx).

(** [out_len] is the size of the buffer, or [None] when there is none and only the length is
    asked for.  The result is the length and the key. *)
Definition HMAC_get_precomputed_key (ctx : HMAC_CTX) (out_len : option Z) : option (option (Z * bytes) * HMAC_CTX) :=
  match methods ctx with
  | None => Some (None, ctx)
  | Some x =>
      match get_state x with
      | None => Some (None, ctx)
      | Some get =>
          if negb (state ctx =? HMAC_STATE_PRECOMPUTED_KEY_EXPORT_READY) then Some (None, ctx)
          else
            let actual_out_len := chaining_length x * 2 in
            match out_len with
            | None => Some (Some (actual_out_len, []), ctx)
            | Some n =>
                if n <? actual_out_len then Some (None, ctx)
                else
                  match get (i_ctx ctx), get (o_ctx ctx), md ctx with
                  | Some (i_out, i_ctx_n), Some (o_out, o_ctx_n), Some m =>
                      if negb (8 * EVP_MD_block_size m =? i_ctx_n) || negb (8 * EVP_MD_block_size m =? o_ctx_n) then None
                      else Some (Some (actual_out_len, i_out ++ o_out), set_state HMAC_STATE_INIT_NO_DATA ctx)
                  | _, _, _ => None
                  end
            end
      end
  end.

Definition HMAC_Init_from_precomputed_key (ctx : HMAC_CTX) (precomputed_key : option bytes) (m : option EVP_MD) : option (bool * HMAC_CTX) :=
  if is_xof m then Some (false, ctx)
  else
    let ctx := mark_init ctx in
    if (state ctx =? HMAC_STATE_INIT_NO_DATA) && bool_decide (precomputed_key = None) && same_md m ctx then Some (true, ctx)
    else
      let '(ok, ctx) := hmac_ctx_set_md_methods ctx m in
      if negb ok then Some (false, ctx)
      else
        match methods ctx with
        | None => None
        | Some x =>
            match init_from_state x with
            | None => Some (false, ctx)
            | Some from =>
                if negb (2 * chaining_length x =? len (default [] precomputed_key)) then Some (false, ctx)
                else
                  match precomputed_key with
                  | None => Some (false, ctx)
                  | Some key =>
                      let bits := EVP_MD_block_size (evp_md x) * 8 in
                      match from (take (Z.to_nat (chaining_length x)) key) bits, from (drop (Z.to_nat (chaining_length x)) key) bits with
                      | Some ic, Some oc => Some (true, mk_hmac (md ctx) (methods ctx) ic ic oc HMAC_STATE_INIT_NO_DATA)
                      | _, _ => Some (false, HMAC_CTX_cleanup)
                      end
                  end
            end
        end.

(** * One call *)

Definition HMAC (m : option EVP_MD) (key : option bytes) (data : bytes) : option (option bytes) :=
  match HMAC_Init_ex HMAC_CTX_init key m with
  | None => None
  | Some (false, _) => Some None
  | Some (true, ctx) =>
      match HMAC_Update ctx data with
      | None => None
      | Some (false, _) => Some None
      | Some (true, ctx) => option_map fst (HMAC_Final ctx)
      end
  end.

(** As [HMAC], by way of the exported key; [HMAC_MAX_PRECOMPUTED_KEY_SIZE] is 128. *)
Definition HMAC_with_precompute (m : option EVP_MD) (key : option bytes) (data : bytes) : option (option bytes) :=
  match HMAC_Init_ex HMAC_CTX_init key m with
  | None => None
  | Some (false, _) => Some None
  | Some (true, ctx) =>
      let '(ok, ctx) := HMAC_set_precomputed_key_export ctx in
      if negb ok then Some None
      else
        match HMAC_get_precomputed_key ctx (Some 128) with
        | None => None
        | Some (None, _) => Some None
        | Some (Some (n, precomputed_key), ctx) =>
            match HMAC_Init_from_precomputed_key ctx (Some (take (Z.to_nat n) precomputed_key)) m with
            | None => None
            | Some (false, _) => Some None
            | Some (true, ctx) =>
                match HMAC_Update ctx data with
                | None => None
                | Some (false, _) => Some None
                | Some (true, ctx) => option_map fst (HMAC_Final ctx)
                end
            end
        end
  end.

(** [HMAC_Init]: a key and a digest start from a clean context. *)
Definition HMAC_Init (ctx : HMAC_CTX) (key : option bytes) (m : option EVP_MD) : option (bool * HMAC_CTX) :=
  let ctx := if bool_decide (is_Some key) && bool_decide (is_Some m) then HMAC_CTX_init else ctx in
  HMAC_Init_ex ctx key m.
End Hmac.
End Hmac.
