(* ===== verification/HmacSpec.v ===== *)
(** HMAC computes the function of RFC 2104 for every sequence of calls, over any hash functions
    that keep the promise [HashOk]. *)

From S2P Require Import Prelude Internal Modes Digest Hmac.

Open Scope Z_scope.

Module HmacSpec.
Import Internal Modes Digest Hmac.

Section Spec.
Context {C : Type} (zero_ctx : C).

(** What HMAC relies on in a hash function: [reads c x] says that the context [c] has read [x]. *)
Class HashOk (x : HmacMethods (C := C)) (H : bytes -> bytes) (reads : C -> bytes -> Prop) : Prop := {
  ok_init c : fst (init x c) = true /\ reads (snd (init x c)) [];
  ok_update c a b : reads c a -> fst (update x c b) = true /\ reads (snd (update x c b)) (a ++ b);
  ok_finalize c a : reads c a -> fst (finalize x c) = Some (H a);
  ok_size a : length (H a) = Z.to_nat (EVP_MD_size (evp_md x)) /\ bytes_ok (H a);
  ok_block : exists k, EVP_MD_block_size (evp_md x) = 8 * Z.of_nat k /\ (0 < k <= 18)%nat;
  ok_fits : EVP_MD_size (evp_md x) <= EVP_MD_block_size (evp_md x);
  ok_xof : EVP_MD_XOF (evp_md x) = false
}.

(** RFC 2104, with the key as a block. *)
Definition key_block (H : bytes -> bytes) (B : nat) (key : bytes) : bytes :=
  let k := if (B <? length key)%nat then H key else key in k ++ zeros (B - length k).
Definition ipad (k : bytes) : bytes := map (Z.lxor 0x36) k.
Definition opad (k : bytes) : bytes := map (Z.lxor 0x5c) k.
Definition hmac (H : bytes -> bytes) (k m : bytes) : bytes := H (opad k ++ H (ipad k ++ m)).

(** ** Pads *)

Lemma byte_mask_lxor a b : bytes_ok a -> bytes_ok b -> length a = 8%nat -> length b = 8%nat ->
  CRYPTO_store_word_le (Z.lxor (CRYPTO_load_word_le a) (CRYPTO_load_word_le b)) = zip_with Z.lxor a b.
Proof. intros Ha Hb Hla Hlb. exact (xor_word_eq a b Hla Hlb Ha Hb). Qed.

Lemma zip_const v n b : length b = n -> zip_with Z.lxor (replicate n v) b = map (Z.lxor v) b.
Proof. intros <-. induction b as [| x b IH]; [done |]. cbn. by rewrite IH. Qed.

(** Eight bytes at a time, or byte by byte. *)
Lemma xor_pad_spec v c k kb : bytes_ok kb -> (8 * k <= length kb)%nat -> bytes_ok (replicate 8 v) -> c = CRYPTO_load_word_le (replicate 8 v) -> xor_pad c kb k = map (Z.lxor v) (take (8 * k) kb).
Proof.
  intros Hok Hk Hv ->. induction k as [| k IH]; [done |]. unfold xor_pad in *. rewrite seq_S, map_app, concat_app, IH by lia. cbn [map concat]. rewrite app_nil_r. cbn [Nat.add].
  rewrite byte_mask_lxor by (done || apply length_replicate || (by apply ld_bytes_ok) || (apply length_ld; lia)). rewrite zip_const by (apply length_ld; lia). rewrite <- map_app. f_equal.
  unfold ld. replace (8 * S k)%nat with (8 * k + 8)%nat by lia. rewrite <- take_take_drop. do 2 f_equal. f_equal. lia.
Qed.
(** Exported keys: the chaining value after one block goes out and comes back. *)
Definition ExportOk (x : HmacMethods (C := C)) (reads : C -> bytes -> Prop) (chain : bytes -> bytes) : Prop :=
  match get_state x, init_from_state x with
  | Some get, Some from =>
      forall a, len a = EVP_MD_block_size (evp_md x) ->
        len (chain a) = chaining_length x /\
        (forall c, reads c a -> get c = Some (chain a, 8 * EVP_MD_block_size (evp_md x))) /\
        exists c, from (chain a) (EVP_MD_block_size (evp_md x) * 8) = Some c /\ reads c a
  | None, None => True
  | _, _ => False
  end.

(** * The abstract machine *)

Context (methods_table : list (HmacMethods (C := C))) (hash : HmacMethods (C := C) -> bytes -> bytes) (reads : HmacMethods (C := C) -> C -> bytes -> Prop) (chain : HmacMethods (C := C) -> bytes -> bytes).

Inductive phase := NoData | InProgress (m : bytes) | NeedsInit | Export.

(** A digest with a key, as a block, and how far the context is; or nothing. *)
Definition astate : Type := option (HmacMethods (C := C) * bytes * phase).

Inductive call :=
| Init (key : option bytes) (m : option EVP_MD)
| Update (data : bytes)
| Final
| SetExport
| GetKey (out_len : option Z)
| InitFrom (key : bytes) (m : EVP_MD).

Inductive answer := Ok (b : bool) | Mac (r : option bytes) | Key (r : option (Z * bytes)).

Definition find_md : EVP_MD -> option HmacMethods := GetInPlaceMethods methods_table.

Definition block_of (x : HmacMethods (C := C)) (key : option bytes) : bytes := key_block (hash x) (Z.to_nat (EVP_MD_block_size (evp_md x))) (default [] key).

(** The key as [HMAC_get_precomputed_key] returns it. *)
Definition exported (x : HmacMethods (C := C)) (k : bytes) : bytes := chain x (ipad k) ++ chain x (opad k).

(** One call; [None] for a digest that is not supported, given to a context in use. *)
Definition a_call (c : call) (s : astate) : option (answer * astate) :=
  match c, s with
  | Init key m, None =>
      match m with
      | Some m' => if EVP_MD_XOF m' then Some (Ok false, None) else match find_md m' with Some x => Some (Ok true, Some (x, block_of x key, NoData)) | None => Some (Ok false, None) end
      | None => Some (Ok false, None)
      end
  | Init key m, Some (x, k, ph) =>
      if is_xof m then Some (Ok false, s)
      else if bool_decide (m = None) || bool_decide (m = Some (evp_md x)) then
        match key with None => Some (Ok true, Some (x, k, NoData)) | Some _ => Some (Ok true, Some (x, block_of x key, NoData)) end
      else match m with Some m' => match find_md m' with Some x' => Some (Ok true, Some (x', block_of x' key, NoData)) | None => None end | None => None end
  | Update data, Some (x, k, NoData) => Some (Ok true, Some (x, k, InProgress data))
  | Update data, Some (x, k, InProgress m) => Some (Ok true, Some (x, k, InProgress (m ++ data)))
  | Update _, _ => Some (Ok false, s)
  | Final, Some (x, k, NoData) => Some (Mac (Some (hmac (hash x) k [])), Some (x, k, NeedsInit))
  | Final, Some (x, k, InProgress m) => Some (Mac (Some (hmac (hash x) k m)), Some (x, k, NeedsInit))
  | Final, _ => Some (Mac None, s)
  | SetExport, Some (x, k, ph) =>
      match get_state x, ph with
      | Some _, (NoData | Export) => Some (Ok true, Some (x, k, Export))
      | _, _ => Some (Ok false, s)
      end
  | SetExport, None => Some (Ok false, None)
  | GetKey out_len, Some (x, k, Export) =>
      match out_len with
      | None => Some (Key (Some (2 * chaining_length x, [])), s)
      | Some n => if n <? 2 * chaining_length x then Some (Key None, s) else Some (Key (Some (2 * chaining_length x, exported x k)), Some (x, k, NoData))
      end
  | GetKey _, _ => Some (Key None, s)
  | InitFrom k m, _ =>
      match find_md m with
      | Some x => if bool_decide (is_Some (init_from_state x)) && (len k =? EVP_MD_block_size m) then Some (Ok true, Some (x, k, NoData)) else None
      | None => None
      end
  end.

(** The same calls of hmac.c. *)
Definition c_call (c : call) (ctx : HMAC_CTX) : option (answer * HMAC_CTX) :=
  match c with
  | Init key m => option_map (fun r => (Ok (fst r), snd r)) (HMAC_Init_ex zero_ctx methods_table ctx key m)
  | Update data => option_map (fun r => (Ok (fst r), snd r)) (HMAC_Update ctx data)
  | Final => option_map (fun r => (Mac (fst r), snd r)) (HMAC_Final zero_ctx ctx)
  | SetExport => let '(b, ctx) := HMAC_set_precomputed_key_export ctx in Some (Ok b, ctx)
  | GetKey out_len => option_map (fun r => (Key (fst r), snd r)) (HMAC_get_precomputed_key ctx out_len)
  | InitFrom k m =>
      match find_md m with
      | Some x => option_map (fun r => (Ok (fst r), snd r)) (HMAC_Init_from_precomputed_key zero_ctx methods_table ctx (Some (exported x k)) (Some m))
      | None => None
      end
  end.

Fixpoint a_calls (cs : list call) (s : astate) : option (list answer * astate) :=
  match cs with
  | [] => Some ([], s)
  | c :: cs => match a_call c s with None => None | Some (a, s) => match a_calls cs s with Some (l, s) => Some (a :: l, s) | None => None end end
  end.

Fixpoint c_calls (cs : list call) (ctx : HMAC_CTX) : option (list answer * HMAC_CTX) :=
  match cs with
  | [] => Some ([], ctx)
  | c :: cs => match c_call c ctx with None => None | Some (a, ctx) => match c_calls cs ctx with Some (l, ctx) => Some (a :: l, ctx) | None => None end end
  end.

(** * The context *)

Definition phase_state (ph : phase) : Z := match ph with NoData => 1 | InProgress _ => 2 | NeedsInit => 3 | Export => 4 end.
Definition phase_data (ph : phase) : bytes := match ph with InProgress m => m | _ => [] end.

Record holds_key (x : HmacMethods) (k : bytes) (ph : phase) (ctx : HMAC_CTX) : Prop := {
  hk_found : find_md (evp_md x) = Some x;
  hk_md : md ctx = Some (evp_md x);
  hk_methods : methods ctx = Some x;
  hk_inner : reads x (i_ctx ctx) (ipad k);
  hk_outer : reads x (o_ctx ctx) (opad k);
  hk_read : reads x (md_ctx ctx) (ipad k ++ phase_data ph);
  hk_state : state ctx = phase_state ph;
  hk_len : len k = EVP_MD_block_size (evp_md x);
  hk_export : ph = Export -> is_Some (get_state x)
}.

Definition holds (s : astate) (ctx : HMAC_CTX) : Prop :=
  match s with None => state ctx = HMAC_STATE_UNINITIALIZED | Some (x, k, ph) => holds_key x k ph ctx end.

Context (table_ok : forall x, x ∈ methods_table -> HashOk x (hash x) (reads x) /\ ExportOk x (reads x) (chain x)).

Lemma find_md_spec m x : find_md m = Some x -> evp_md x = m /\ x ∈ methods_table /\ HashOk x (hash x) (reads x) /\ ExportOk x (reads x) (chain x).
Proof.
  intros H. apply List.find_some in H as [Hin Hm]. apply bool_decide_eq_true in Hm. apply list_elem_of_In in Hin. split; [done |]. split; [done |]. by apply table_ok.
Qed.

(** ** Keys *)

Definition key_ok (key : option bytes) : Prop := bytes_ok (default [] key).

Lemma key_block_spec x c key : HashOk x (hash x) (reads x) -> bytes_ok key ->
  let B := Z.to_nat (EVP_MD_block_size (evp_md x)) in
  exists kb c', hmac_key_block x key c = (Some kb, c') /\ take B kb = key_block (hash x) B key /\ bytes_ok kb /\ length kb = EVP_MAX_MD_BLOCK_SIZE /\ length (key_block (hash x) B key) = B.
Proof.
  intros Hok Hk B. destruct (ok_block (x := x)) as (b & Hb & Hb18). pose proof (ok_fits (x := x)) as Hfit. assert (B = 8 * b)%nat as HB by (unfold B; lia).
  assert (forall d, bytes_ok d -> (length d <= B)%nat -> take B (store key_zeros 0 d) = d ++ zeros (B - length d) /\ bytes_ok (store key_zeros 0 d) /\ length (store key_zeros 0 d) = EVP_MAX_MD_BLOCK_SIZE) as Hst.
  { intros d Hd Hl. unfold key_zeros. repeat split.
    - unfold store. change (take 0 (zeros EVP_MAX_MD_BLOCK_SIZE)) with (@nil Z). cbn [app Nat.add]. rewrite take_app_ge by done. f_equal. unfold zeros. rewrite drop_replicate, take_replicate. f_equal. unfold EVP_MAX_MD_BLOCK_SIZE. lia.
    - apply store_bytes_ok; [apply bytes_ok_replicate; unfold byte_ok; lia | done].
    - rewrite length_store; [apply length_replicate |]. unfold zeros, EVP_MAX_MD_BLOCK_SIZE. rewrite length_replicate. lia. }
  unfold hmac_key_block, key_block. replace (EVP_MD_block_size (evp_md x) <? len key) with (B <? length key)%nat by (unfold B, len; destruct (Nat.ltb_spec (Z.to_nat (EVP_MD_block_size (evp_md x))) (length key)); lia).
  destruct (Nat.ltb_spec B (length key)) as [Hlong | Hshort].
  - destruct (ok_init (x := x) c) as [H1 H2]. destruct (init x c) as [ok1 c1]. cbn [fst snd] in *. rewrite H1. cbn [negb]. destruct (ok_update (x := x) c1 [] key H2) as [H3 H4]. destruct (update x c1 key) as [ok2 c2]. cbn [fst snd] in *. rewrite H3. cbn [negb].
    pose proof (ok_finalize (x := x) c2 key H4) as H5. destruct (finalize x c2) as [d c3]. cbn [fst] in H5. rewrite H5. destruct (ok_size (x := x) key) as [H6 H7]. destruct (Hst (hash x key) H7 ltac:(lia)) as (Ht & Hbo & Hle).
    eexists _, _. split; [reflexivity |]. repeat split; try done. rewrite length_app. unfold zeros. rewrite length_replicate. lia.
  - destruct (Hst key Hk Hshort) as (Ht & Hbo & Hle). eexists _, _. split; [reflexivity |]. repeat split; try done. rewrite length_app. unfold zeros. rewrite length_replicate. lia.
Qed.

Lemma start_pad_spec x c p : HashOk x (hash x) (reads x) -> exists c', start_pad x c p = (true, c') /\ reads x c' p.
Proof.
  intros Hok. unfold start_pad. destruct (ok_init (x := x) c) as [H1 H2]. destruct (init x c) as [ok1 c1]. cbn [fst snd] in *. rewrite H1. cbn [negb]. destruct (ok_update (x := x) c1 [] p H2) as [H3 H4]. destruct (update x c1 p) as [ok2 c2].
  cbn [fst snd] in *. rewrite H3. by exists c2.
Qed.

(** The new key. *)
Lemma rekey_spec ctx x key : methods ctx = Some x -> md ctx = Some (evp_md x) -> find_md (evp_md x) = Some x -> key_ok key ->
  exists ctx', hmac_rekey zero_ctx ctx (default [] key) = Some (true, ctx') /\ holds_key x (block_of x key) NoData ctx'.
Proof.
  intros Hm Hmd Hf Hk. destruct (find_md_spec _ _ Hf) as (_ & _ & Hok & _). destruct (ok_block (x := x)) as (b & Hb & Hb18).
  destruct (key_block_spec x (md_ctx ctx) _ Hok Hk) as (kb & c1 & Hkb & Ht & Hbo & Hl & HB). unfold hmac_rekey. rewrite Hm, Hkb. set (B := Z.to_nat (EVP_MD_block_size (evp_md x))) in *.
  assert (B = 8 * b)%nat as HB8 by (unfold B; lia). assert (B / 8 = b)%nat as -> by (rewrite HB8, Nat.mul_comm; by apply Nat.div_mul).
  rewrite (xor_pad_spec 0x36), (xor_pad_spec 0x5c); try done; try (rewrite Hl; unfold EVP_MAX_MD_BLOCK_SIZE; lia); try (apply bytes_ok_replicate; unfold byte_ok; lia). rewrite <- HB8, Ht.
  assert (len (block_of x key) = EVP_MD_block_size (evp_md x)) as Hlen by (unfold block_of, len; fold B; rewrite HB; unfold B; lia).
  cbn [i_ctx o_ctx set_md_ctx set_i_ctx]. destruct (start_pad_spec x (i_ctx ctx) (ipad (block_of x key)) Hok) as (ci & Hci & Hri). destruct (start_pad_spec x (o_ctx ctx) (opad (block_of x key)) Hok) as (co & Hco & Hro).
  unfold ipad, opad, block_of in *. fold B in Hci, Hco. rewrite Hci. cbn [negb o_ctx set_md_ctx set_i_ctx]. rewrite Hco. cbn [negb]. eexists. split; [reflexivity |].
  split; try done. cbn [md_ctx set_state set_md_ctx set_o_ctx set_i_ctx i_ctx phase_data]. by rewrite app_nil_r.
Qed.

Definition initialized_phase (ph : phase) : phase := match ph with InProgress m => InProgress m | _ => NoData end.

Lemma mark_init_spec x k ph ctx : holds_key x k ph ctx -> holds_key x k (initialized_phase ph) (mark_init ctx) /\ hmac_ctx_is_initialized (mark_init ctx) = true.
Proof.
  intros [H1 H2 H3 H4 H5 H6 H7 H8 H9]. unfold mark_init, hmac_ctx_is_initialized. rewrite H7. destruct ph; cbn [phase_state initialized_phase phase_data] in *; cbn [Z.eqb orb Pos.eqb HMAC_STATE_READY_NEEDS_INIT HMAC_STATE_PRECOMPUTED_KEY_EXPORT_READY]; cbn [state set_state]; rewrite ?H7; (split; [by split | done]).
Qed.

Lemma same_md_spec x k ph ctx m : holds_key x k ph ctx -> same_md m ctx = bool_decide (m = None) || bool_decide (m = Some (evp_md x)).
Proof. intros [_ H _ _ _ _ _ _ _]. unfold same_md. by rewrite H. Qed.

Lemma set_md_methods_same x k ph ctx m : holds_key x k ph ctx -> hmac_ctx_is_initialized ctx = true -> bool_decide (m = None) || bool_decide (m = Some (evp_md x)) = true -> hmac_ctx_set_md_methods methods_table ctx m = (true, ctx).
Proof.
  intros [_ H _ _ _ _ Hs _ _] Hi Hm. unfold hmac_ctx_set_md_methods. destruct m as [m' |]; [| by rewrite Hi]. cbn [orb] in Hm. rewrite bool_decide_eq_false_2 in Hm by done. apply bool_decide_eq_true in Hm as [= ->].
  rewrite H, bool_decide_eq_true_2 by done. cbn [negb]. rewrite orb_false_r, Hs, Hi. by destruct ph.
Qed.

Lemma set_md_methods_new ctx m x : find_md m = Some x -> state ctx = HMAC_STATE_UNINITIALIZED \/ md ctx <> Some m -> hmac_ctx_set_md_methods methods_table ctx (Some m) = (true, set_md (Some m) (set_methods (Some x) ctx)).
Proof.
  intros Hf Hn. unfold hmac_ctx_set_md_methods. unfold find_md in Hf. rewrite Hf. destruct Hn as [-> | Hn]; [done |]. rewrite bool_decide_eq_false_2 by done. by rewrite orb_true_r.
Qed.

(** Calls and their contexts. *)
Definition agrees (c : call) (ctx : HMAC_CTX) (r : option (answer * astate)) : Prop := forall a s, r = Some (a, s) -> exists ctx', c_call c ctx = Some (a, ctx') /\ holds s ctx'.

Definition call_ok (c : call) : Prop := match c with Init key _ => key_ok key | InitFrom k _ => bytes_ok k | _ => True end.

Lemma init_none_agrees ctx key m : state ctx = HMAC_STATE_UNINITIALIZED -> key_ok key -> agrees (Init key m) ctx (a_call (Init key m) None).
Proof.
  intros Hs Hk a s. cbn [a_call c_call]. unfold HMAC_Init_ex. assert (mark_init ctx = ctx) as -> by (unfold mark_init; by rewrite Hs). unfold hmac_ctx_is_initialized at 1. rewrite Hs. cbn [Z.eqb orb andb HMAC_STATE_UNINITIALIZED HMAC_STATE_INIT_NO_DATA HMAC_STATE_IN_PROGRESS].
  destruct m as [m |]; cbn [is_xof].
  - destruct (EVP_MD_XOF m); [intros [= <- <-]; by eexists |]. destruct (find_md m) as [x |] eqn:Hf.
    + intros [= <- <-]. rewrite (set_md_methods_new ctx m x Hf) by (by left). cbn [negb]. destruct (find_md_spec _ _ Hf) as (<- & _).
      destruct (rekey_spec (set_md (Some (evp_md x)) (set_methods (Some x) ctx)) x key) as (ctx' & -> & Hh); [done | done | done | done |]. by eexists.
    + intros [= <- <-]. unfold hmac_ctx_set_md_methods. rewrite Hs. unfold find_md in Hf. rewrite Hf. cbn. by eexists.
  - intros [= <- <-]. unfold hmac_ctx_set_md_methods, hmac_ctx_is_initialized. rewrite Hs. cbn. by eexists.
Qed.

Lemma init_some_agrees ctx x k ph key m : holds_key x k ph ctx -> key_ok key -> agrees (Init key m) ctx (a_call (Init key m) (Some (x, k, ph))).
Proof.
  intros Hh Hk a s. cbn [a_call c_call]. unfold HMAC_Init_ex. destruct (is_xof m); [intros [= <- <-]; by eexists |]. destruct (mark_init_spec _ _ _ _ Hh) as [Hh1 Hi1]. set (ctx1 := mark_init ctx) in *.
  rewrite Hi1, (same_md_spec _ _ _ _ m Hh1). cbn [andb]. destruct (bool_decide (m = None) || bool_decide (m = Some (evp_md x))) eqn:Hm.
  - destruct key as [key |].
    + rewrite bool_decide_eq_false_2 by done. cbn [andb]. rewrite (set_md_methods_same _ _ _ _ _ Hh1 Hi1 Hm). cbn [negb]. intros [= <- <-]. destruct Hh1 as [H1 H2 H3 _ _ _ _ _ _].
      destruct (rekey_spec ctx1 x (Some key) H3 H2 H1 Hk) as (ctx' & -> & Hh'). by eexists.
    + rewrite bool_decide_eq_true_2 by done. cbn [andb]. intros [= <- <-]. eexists. split; [reflexivity |]. destruct Hh1 as [H1 H2 H3 H4 H5 H6 H7 H8 H9].
      destruct ph; cbn [initialized_phase phase_state phase_data] in *; rewrite H7; cbn [snd holds Z.eqb Pos.eqb HMAC_STATE_IN_PROGRESS]; split; try done. cbn. by rewrite app_nil_r.
  - rewrite andb_false_r. destruct m as [m |]; [| done]. destruct (find_md m) as [x' |] eqn:Hf; [| done]. intros [= <- <-]. rewrite bool_decide_eq_false_2 in Hm by done. apply bool_decide_eq_false in Hm.
    rewrite (set_md_methods_new ctx1 m x' Hf) by (right; rewrite (hk_md _ _ _ _ Hh1); congruence). cbn [negb]. destruct (find_md_spec _ _ Hf) as (<- & _).
    destruct (rekey_spec (set_md (Some (evp_md x')) (set_methods (Some x') ctx1)) x' key) as (ctx' & -> & Hh'); [done | done | done | done |]. by eexists.
Qed.

Lemma not_initialized s ctx : holds s ctx -> match s with Some (_, _, (NoData | InProgress _)) => False | _ => True end -> hmac_ctx_is_initialized ctx = false.
Proof. intros Hh Hs. unfold hmac_ctx_is_initialized. destruct s as [[[x k] []] |]; try done; [by rewrite (hk_state _ _ _ _ Hh) | by rewrite (hk_state _ _ _ _ Hh) | cbn in Hh; by rewrite Hh]. Qed.

Lemma is_initialized x k ph ctx : holds_key x k ph ctx -> match ph with NoData | InProgress _ => True | _ => False end -> hmac_ctx_is_initialized ctx = true.
Proof. intros Hh Hp. unfold hmac_ctx_is_initialized. rewrite (hk_state _ _ _ _ Hh). by destruct ph. Qed.

Lemma update_key_agrees x k ph ctx d : holds_key x k ph ctx -> match ph with NoData | InProgress _ => True | _ => False end ->
  exists ctx', c_call (Update d) ctx = Some (Ok true, ctx') /\ holds_key x k (InProgress (phase_data ph ++ d)) ctx'.
Proof.
  intros Hh Hp. cbn [c_call]. unfold HMAC_Update. rewrite (is_initialized _ _ _ _ Hh Hp). cbn [negb methods set_state md_ctx]. rewrite (hk_methods _ _ _ _ Hh).
  destruct Hh as [H1 H2 H3 H4 H5 H6 H7 H8 H9]. destruct (find_md_spec _ _ H1) as (_ & _ & Hok & _). destruct (ok_update (x := x) (md_ctx ctx) _ d H6) as [Hu1 Hu2]. destruct (update x (md_ctx ctx) d) as [b c]. cbn [fst snd] in *. subst b.
  eexists. split; [reflexivity |]. split; try done. cbn [phase_data md_ctx set_md_ctx snd]. by rewrite app_assoc.
Qed.

Lemma final_key_agrees x k ph ctx : holds_key x k ph ctx -> match ph with NoData | InProgress _ => True | _ => False end ->
  exists ctx', c_call Final ctx = Some (Mac (Some (hmac (hash x) k (phase_data ph))), ctx') /\ holds_key x k NeedsInit ctx'.
Proof.
  intros Hh Hp. cbn [c_call]. unfold HMAC_Final. rewrite (is_initialized _ _ _ _ Hh Hp). cbn [negb]. destruct Hh as [H1 H2 H3 H4 H5 H6 H7 H8 H9]. rewrite H2, H3. destruct (find_md_spec _ _ H1) as (_ & _ & Hok & _).
  pose proof (ok_finalize (x := x) (md_ctx ctx) _ H6) as Hf. destruct (finalize x (md_ctx ctx)) as [t c1]. cbn [fst] in Hf. rewrite Hf. destruct (ok_size (x := x) (ipad k ++ phase_data ph)) as [Hs _].
  rewrite take_ge by lia. destruct (ok_update (x := x) (o_ctx ctx) _ (hash x (ipad k ++ phase_data ph)) H5) as [Hu1 Hu2]. destruct (update x (o_ctx ctx) _) as [b c2]. cbn [fst snd] in *. subst b. cbn [negb].
  pose proof (ok_finalize (x := x) c2 _ Hu2) as Hf2. destruct (finalize x c2) as [t2 c3]. cbn [fst] in Hf2. rewrite Hf2. eexists. split; [reflexivity |]. split; try done. cbn [phase_data snd md_ctx set_state set_md_ctx]. by rewrite app_nil_r.
Qed.

Lemma update_agrees s ctx d : holds s ctx -> agrees (Update d) ctx (a_call (Update d) s).
Proof.
  intros Hh a s'. destruct s as [[[x k] ph] |]; [destruct ph as [| m | |] |]; cbn [a_call]; intros [= <- <-].
  - apply (update_key_agrees _ _ _ _ d Hh I).
  - apply (update_key_agrees _ _ _ _ d Hh I).
  - eexists. split; [| exact Hh]. cbn [c_call]. unfold HMAC_Update. by rewrite (not_initialized _ _ Hh I).
  - eexists. split; [| exact Hh]. cbn [c_call]. unfold HMAC_Update. by rewrite (not_initialized _ _ Hh I).
  - eexists. split; [| exact Hh]. cbn [c_call]. unfold HMAC_Update. by rewrite (not_initialized _ _ Hh I).
Qed.

Lemma final_agrees s ctx : holds s ctx -> agrees Final ctx (a_call Final s).
Proof.
  intros Hh a s'. destruct s as [[[x k] ph] |]; [destruct ph as [| m | |] |]; cbn [a_call]; intros [= <- <-].
  - apply (final_key_agrees _ _ _ _ Hh I).
  - apply (final_key_agrees _ _ _ _ Hh I).
  - eexists. split; [| exact Hh]. cbn [c_call]. unfold HMAC_Final. by rewrite (not_initialized _ _ Hh I).
  - eexists. split; [| exact Hh]. cbn [c_call]. unfold HMAC_Final. by rewrite (not_initialized _ _ Hh I).
  - eexists. split; [| exact Hh]. cbn [c_call]. unfold HMAC_Final. by rewrite (not_initialized _ _ Hh I).
Qed.

Lemma set_export_agrees s ctx : holds s ctx -> agrees SetExport ctx (a_call SetExport s).
Proof.
  intros Hh a s'. cbn [c_call]. unfold HMAC_set_precomputed_key_export. destruct s as [[[x k] ph] |]; cbn [a_call].
  - pose proof Hh as [H1 H2 H3 H4 H5 H6 H7 H8 H9]. rewrite H3, H7. destruct (get_state x) as [get |] eqn:Hg; cbn [bool_decide]; [| intros [= <- <-]; by eexists].
    destruct ph; cbn [phase_state]; intros [= <- <-]; (eexists; split; [reflexivity |]); (by split; rewrite ?Hg) || exact Hh.
  - intros [= <- <-]. cbn in Hh. rewrite Hh. destruct (methods ctx) as [x |]; [destruct (get_state x) |]; by eexists.
Qed.

Lemma length_pad v k : length (map (Z.lxor v) k) = length k.
Proof. apply length_map. Qed.

Lemma get_key_agrees s ctx n : holds s ctx -> agrees (GetKey n) ctx (a_call (GetKey n) s).
Proof.
  intros Hh a s'. cbn [c_call]. unfold HMAC_get_precomputed_key. destruct s as [[[x k] ph] |]; cbn [a_call].
  - pose proof Hh as [H1 H2 H3 H4 H5 H6 H7 H8 H9]. rewrite H3, H7. destruct (find_md_spec _ _ H1) as (_ & _ & Hok & Hex). unfold ExportOk in Hex.
    destruct ph; cbn [a_call]; try (destruct (get_state x); intros [= <- <-]; by eexists).
    destruct (H9 eq_refl) as [get Hg]. rewrite Hg in *. destruct (init_from_state x) as [from |]; [| done]. cbn [phase_state Z.eqb Pos.eqb negb HMAC_STATE_PRECOMPUTED_KEY_EXPORT_READY]. rewrite (Z.mul_comm (chaining_length x)).
    destruct n as [n |]; [| intros [= <- <-]; by eexists]. destruct (n <? 2 * chaining_length x); [intros [= <- <-]; by eexists |]. intros [= <- <-].
    assert (len (ipad k) = EVP_MD_block_size (evp_md x) /\ len (opad k) = EVP_MD_block_size (evp_md x)) as [Hli Hlo] by (unfold ipad, opad, len in *; by rewrite !length_pad).
    rewrite (proj1 (proj2 (Hex _ Hli)) _ H4), (proj1 (proj2 (Hex _ Hlo)) _ H5), H2, Z.eqb_refl. cbn [negb orb option_map fst snd]. eexists. split; [reflexivity |]. by split.
  - intros [= <- <-]. cbn in Hh. rewrite Hh. destruct (methods ctx) as [x |]; [destruct (get_state x) |]; by eexists.
Qed.

(** The contexts that [HMAC_Init_from_precomputed_key] makes. *)
Lemma from_exported x k : find_md (evp_md x) = Some x -> is_Some (init_from_state x) -> len k = EVP_MD_block_size (evp_md x) ->
  exists from ic oc, init_from_state x = Some from /\ len (exported x k) = 2 * chaining_length x /\
    from (take (Z.to_nat (chaining_length x)) (exported x k)) (EVP_MD_block_size (evp_md x) * 8) = Some ic /\
    from (drop (Z.to_nat (chaining_length x)) (exported x k)) (EVP_MD_block_size (evp_md x) * 8) = Some oc /\ reads x ic (ipad k) /\ reads x oc (opad k).
Proof.
  intros Hf [from Hfrom] Hk. destruct (find_md_spec _ _ Hf) as (_ & _ & Hok & Hex). unfold ExportOk in Hex. rewrite Hfrom in Hex. destruct (get_state x) as [get |]; [| done].
  assert (len (ipad k) = EVP_MD_block_size (evp_md x) /\ len (opad k) = EVP_MD_block_size (evp_md x)) as [Hli Hlo] by (unfold ipad, opad, len in *; by rewrite !length_pad).
  destruct (Hex _ Hli) as (Hc1 & _ & ic & Hic & Hri). destruct (Hex _ Hlo) as (Hc2 & _ & oc & Hoc & Hro). exists from, ic, oc. unfold exported, len in *. split; [done |]. rewrite length_app.
  split; [lia |]. rewrite take_app_length', drop_app_length' by lia. done.
Qed.

Lemma init_from_agrees s ctx k m : holds s ctx -> agrees (InitFrom k m) ctx (a_call (InitFrom k m) s).
Proof.
  intros Hh a s'. assert (a_call (InitFrom k m) s = a_call (InitFrom k m) None) as -> by (by destruct s as [[[] ?] |]). cbn [a_call c_call].
  destruct (find_md m) as [x |] eqn:Hf; [| done]. destruct (bool_decide (is_Some (init_from_state x)) && (len k =? EVP_MD_block_size m)) eqn:Hc; [| done].
  apply andb_true_iff in Hc as [Hi Hl]. apply bool_decide_eq_true in Hi. apply Z.eqb_eq in Hl. intros [= <- <-]. destruct (find_md_spec _ _ Hf) as (<- & _ & Hok & _).
  destruct (from_exported x k Hf Hi Hl) as (from & ic & oc & Hfrom & Hlen & Hic & Hoc & Hri & Hro).
  assert (exists ctx1, hmac_ctx_set_md_methods methods_table (mark_init ctx) (Some (evp_md x)) = (true, ctx1) /\ methods ctx1 = Some x /\ md ctx1 = Some (evp_md x)) as (ctx1 & Hset & Hm1 & Hd1).
  { destruct s as [[[x0 k0] ph] |].
    - destruct (mark_init_spec _ _ _ _ Hh) as [Hh1 Hi1]. destruct (decide (evp_md x0 = evp_md x)) as [E | E].
      + exists (mark_init ctx). rewrite (set_md_methods_same _ _ _ _ _ Hh1 Hi1) by (rewrite E; apply orb_true_iff; right; by apply bool_decide_eq_true_2). destruct Hh1 as [G1 G2 G3 _ _ _ _ _ _]. rewrite E in G1, G2. rewrite Hf in G1. by injection G1 as ->.
      + eexists. rewrite (set_md_methods_new _ _ _ Hf) by (right; rewrite (hk_md _ _ _ _ Hh1); congruence). done.
    - cbn in Hh. assert (mark_init ctx = ctx) as -> by (unfold mark_init; by rewrite Hh). eexists. rewrite (set_md_methods_new _ _ _ Hf) by (by left). done. }
  unfold HMAC_Init_from_precomputed_key. cbn [is_xof]. rewrite (ok_xof (x := x)). rewrite (bool_decide_eq_false_2 (Some (exported x k) = None)) by done. rewrite andb_false_r. cbn [andb]. rewrite Hset. cbn [negb].
  rewrite Hm1, Hfrom. change (default [] (Some (exported x k))) with (exported x k). rewrite Hlen, Z.eqb_refl. cbn [negb]. rewrite Hic, Hoc. eexists. split; [reflexivity |]. split; try done. cbn. by rewrite app_nil_r.
Qed.

Lemma call_agrees c s ctx : call_ok c -> holds s ctx -> agrees c ctx (a_call c s).
Proof.
  intros Hc Hh. destruct c; [| by apply update_agrees | by apply final_agrees | by apply set_export_agrees | by apply get_key_agrees | by apply init_from_agrees].
  destruct s as [[[x k] ph] |]; [by apply init_some_agrees | by apply init_none_agrees].
Qed.

Lemma calls_agree cs s ctx answers s' : Forall call_ok cs -> holds s ctx -> a_calls cs s = Some (answers, s') -> exists ctx', c_calls cs ctx = Some (answers, ctx') /\ holds s' ctx'.
Proof.
  revert s ctx answers. induction cs as [| c cs IH]; intros s ctx answers Hok Hh; cbn [a_calls c_calls]; [intros [= <- <-]; by exists ctx |]. apply Forall_cons_1 in Hok as [Hc Hcs].
  destruct (a_call c s) as [[a s1] |] eqn:Ha; [| done]. destruct (a_calls cs s1) as [[l s2] |] eqn:Hl; [| done]. intros [= <- <-]. destruct (call_agrees c s ctx Hc Hh _ _ Ha) as (ctx1 & -> & Hh1).
  destruct (IH _ _ _ Hcs Hh1 Hl) as (ctx2 & -> & Hh2). by exists ctx2.
Qed.

(** ** Steps, for the functions built on HMAC *)

Definition running (ph : phase) : Prop := match ph with NoData | InProgress _ => True | _ => False end.

Lemma start_step x key : find_md (evp_md x) = Some x -> key_ok key ->
  exists ctx, HMAC_Init_ex zero_ctx methods_table (HMAC_CTX_init zero_ctx) key (Some (evp_md x)) = Some (true, ctx) /\ holds_key x (block_of x key) NoData ctx.
Proof.
  intros Hf Hk. destruct (find_md_spec _ _ Hf) as (_ & _ & Hok & _). destruct (init_none_agrees (HMAC_CTX_init zero_ctx) key (Some (evp_md x)) eq_refl Hk (Ok true) (Some (x, block_of x key, NoData))) as (ctx & Hc & Hh).
  - cbn [a_call]. by rewrite (ok_xof (x := x)), Hf.
  - exists ctx. split; [| exact Hh]. cbn [c_call] in Hc. destruct (HMAC_Init_ex _ _ _ _ _) as [[b c] |]; [| done]. by injection Hc as -> ->.
Qed.

Lemma restart_step x k ph ctx : holds_key x k ph ctx -> exists ctx', HMAC_Init_ex zero_ctx methods_table ctx None None = Some (true, ctx') /\ holds_key x k NoData ctx'.
Proof.
  intros Hh. destruct (init_some_agrees ctx x k ph None None Hh ltac:(by constructor) (Ok true) (Some (x, k, NoData)) eq_refl) as (ctx' & Hc & Hh'). exists ctx'. split; [| exact Hh'].
  cbn [c_call] in Hc. destruct (HMAC_Init_ex _ _ _ _ _) as [[b c] |]; [| done]. by injection Hc as -> ->.
Qed.

Lemma update_step x k ph ctx d : holds_key x k ph ctx -> running ph -> exists ctx', HMAC_Update ctx d = Some (true, ctx') /\ holds_key x k (InProgress (phase_data ph ++ d)) ctx'.
Proof.
  intros Hh Hp. destruct (update_key_agrees x k ph ctx d Hh Hp) as (ctx' & Hc & Hh'). exists ctx'. split; [| exact Hh']. cbn [c_call] in Hc. destruct (HMAC_Update _ _) as [[b c] |]; [| done]. by injection Hc as -> ->.
Qed.

Lemma final_step x k ph ctx : holds_key x k ph ctx -> running ph -> exists ctx', HMAC_Final zero_ctx ctx = Some (Some (hmac (hash x) k (phase_data ph)), ctx') /\ holds_key x k NeedsInit ctx'.
Proof.
  intros Hh Hp. destruct (final_key_agrees x k ph ctx Hh Hp) as (ctx' & Hc & Hh'). exists ctx'. split; [| exact Hh']. cbn [c_call] in Hc. destruct (HMAC_Final _ _) as [[b c] |]; [| done]. by injection Hc as -> ->.
Qed.

(** One call of [HMAC]. *)
Lemma one_shot x key d : find_md (evp_md x) = Some x -> key_ok key -> HMAC zero_ctx methods_table (Some (evp_md x)) key d = Some (Some (hmac (hash x) (block_of x key) d)).
Proof.
  intros Hf Hk. unfold HMAC. destruct (start_step x key Hf Hk) as (c1 & -> & H1). destruct (update_step _ _ _ _ d H1 I) as (c2 & -> & H2). destruct (final_step _ _ _ _ H2 I) as (c3 & -> & _). done.
Qed.

(** By way of the exported key. *)
Lemma export_step x k ctx : holds_key x k NoData ctx -> is_Some (get_state x) -> exists ctx', HMAC_set_precomputed_key_export ctx = (true, ctx') /\ holds_key x k Export ctx'.
Proof.
  intros Hh [g Hg]. destruct (set_export_agrees (Some (x, k, NoData)) ctx Hh (Ok true) (Some (x, k, Export))) as (ctx' & Hc & Hh'); [cbn [a_call]; by rewrite Hg |].
  exists ctx'. split; [| exact Hh']. cbn [c_call] in Hc. destruct (HMAC_set_precomputed_key_export ctx) as [b c]. by injection Hc as -> ->.
Qed.

Lemma get_key_step x k ctx n : holds_key x k Export ctx -> 2 * chaining_length x <= n ->
  exists ctx', HMAC_get_precomputed_key ctx (Some n) = Some (Some (2 * chaining_length x, exported x k), ctx') /\ holds_key x k NoData ctx'.
Proof.
  intros Hh Hn. destruct (get_key_agrees (Some (x, k, Export)) ctx (Some n) Hh (Key (Some (2 * chaining_length x, exported x k))) (Some (x, k, NoData))) as (ctx' & Hc & Hh').
  - cbn [a_call]. by replace (n <? 2 * chaining_length x) with false by lia.
  - exists ctx'. split; [| exact Hh']. cbn [c_call] in Hc. destruct (HMAC_get_precomputed_key ctx (Some n)) as [[b c] |]; [| done]. by injection Hc as -> ->.
Qed.

Lemma init_from_step s ctx x k : holds s ctx -> find_md (evp_md x) = Some x -> is_Some (init_from_state x) -> len k = EVP_MD_block_size (evp_md x) ->
  exists ctx', HMAC_Init_from_precomputed_key zero_ctx methods_table ctx (Some (exported x k)) (Some (evp_md x)) = Some (true, ctx') /\ holds_key x k NoData ctx'.
Proof.
  intros Hh Hf Hi Hl. destruct (init_from_agrees s ctx k (evp_md x) Hh (Ok true) (Some (x, k, NoData))) as (ctx' & Hc & Hh').
  - assert (a_call (InitFrom k (evp_md x)) s = a_call (InitFrom k (evp_md x)) None) as -> by (by destruct s as [[[] ?] |]). cbn [a_call]. rewrite Hf, bool_decide_eq_true_2 by done. by rewrite Hl, Z.eqb_refl.
  - exists ctx'. split; [| exact Hh']. cbn [c_call] in Hc. rewrite Hf in Hc. destruct (HMAC_Init_from_precomputed_key _ _ _ _ _) as [[b c] |]; [| done]. by injection Hc as -> ->.
Qed.

Lemma precompute_shot x key d : find_md (evp_md x) = Some x -> key_ok key -> is_Some (get_state x) -> is_Some (init_from_state x) -> 2 * chaining_length x <= 128 ->
  HMAC_with_precompute zero_ctx methods_table (Some (evp_md x)) key d = Some (Some (hmac (hash x) (block_of x key) d)).
Proof.
  intros Hf Hk Hg Hi Hcl. unfold HMAC_with_precompute. destruct (start_step x key Hf Hk) as (c1 & -> & H1). destruct (export_step _ _ _ H1 Hg) as (c2 & -> & H2). cbn [negb]. destruct (get_key_step _ _ _ 128 H2 Hcl) as (c3 & -> & H3).
  pose proof (hk_len _ _ _ _ H3) as Hl. destruct (from_exported x _ Hf Hi Hl) as (_ & _ & _ & _ & Hlen & _). rewrite take_ge by (unfold len in Hlen; lia).
  destruct (init_from_step (Some (x, block_of x key, NoData)) c3 x _ H3 Hf Hi Hl) as (c4 & -> & H4). destruct (update_step _ _ _ _ d H4 I) as (c5 & -> & H5). destruct (final_step _ _ _ _ H5 I) as (c6 & -> & _). done.
Qed.
End Spec.
End HmacSpec.
