(* ===== verification/HmacSha.v ===== *)
(** HMAC with SHA-2, SHA-1 and MD5: the methods that hmac.c builds over sha256.c, sha512.c, sha1.c
    and md5.c keep what HMAC relies on.  The four entries of the table for SHA-3, which have no
    precomputed keys, are known by their digests only. *)

From S2P Require Import Prelude Internal Modes Digest Sha ShaSpec Md MdSpec Hmac HmacSpec.

Open Scope Z_scope.

Module HmacSha.
Import Internal Modes Digest Sha ShaSpec Md MdSpec Hmac HmacSpec.

(** * The methods *)

Definition EVP_sha224 : EVP_MD := mk_md 675 SHA224_DIGEST_LENGTH 64 false.
Definition EVP_sha256 : EVP_MD := mk_md 672 SHA256_DIGEST_LENGTH 64 false.
Definition EVP_sha384 : EVP_MD := mk_md 673 SHA384_DIGEST_LENGTH 128 false.
Definition EVP_sha512 : EVP_MD := mk_md 674 SHA512_DIGEST_LENGTH 128 false.
Definition EVP_sha512_224 : EVP_MD := mk_md 978 SHA512_224_DIGEST_LENGTH 128 false.
Definition EVP_sha512_256 : EVP_MD := mk_md 962 SHA512_256_DIGEST_LENGTH 128 false.

Definition EVP_sha1 : EVP_MD := mk_md 64 SHA_DIGEST_LENGTH 64 false.
Definition EVP_md5 : EVP_MD := mk_md 4 MD5_DIGEST_LENGTH 64 false.

(** [SHA3_BLOCKSIZE]; of SHA-3 only the description of the digests is modelled. *)
Definition SHA3_BLOCKSIZE (bitlen : Z) : Z := (1600 - bitlen * 2) / 8.
Definition EVP_sha3_224 : EVP_MD := mk_md 965 28 (SHA3_BLOCKSIZE 224) false.
Definition EVP_sha3_256 : EVP_MD := mk_md 966 32 (SHA3_BLOCKSIZE 256) false.
Definition EVP_sha3_384 : EVP_MD := mk_md 967 48 (SHA3_BLOCKSIZE 384) false.
Definition EVP_sha3_512 : EVP_MD := mk_md 968 64 (SHA3_BLOCKSIZE 512) false.

(** The union as a SHA-512 context: its buffer is the bytes that are there. *)
Definition as_sha512 (c : hash_ctx) : hash_ctx := set_data (take SHA512_CBLOCK (data c ++ zeros SHA512_CBLOCK)) c.

(** A failed assertion does not return. *)
Definition asserted (c : hash_ctx) (r : option (option bytes * hash_ctx)) : option bytes * hash_ctx := match r with Some r => r | None => (None, c) end.

Definition sha256_methods : HmacMethods (C := hash_ctx) :=
  mk_methods EVP_sha256 SHA256_CHAINING_LENGTH (fun _ => (true, SHA256_Init)) (fun c x => (true, SHA256_Update c x)) SHA256_Final (Some SHA256_Init_from_state) (Some SHA256_get_state).
Definition sha384_methods : HmacMethods (C := hash_ctx) :=
  mk_methods EVP_sha384 SHA512_CHAINING_LENGTH (fun c => (true, SHA384_Init (as_sha512 c))) (fun c x => (true, SHA384_Update c x)) (fun c => asserted c (SHA384_Final true c)) (Some SHA384_Init_from_state) (Some SHA384_get_state).
Definition sha512_methods : HmacMethods (C := hash_ctx) :=
  mk_methods EVP_sha512 SHA512_CHAINING_LENGTH (fun c => (true, SHA512_Init (as_sha512 c))) (fun c x => (true, SHA512_Update c x)) (SHA512_Final true) (Some SHA512_Init_from_state) (Some SHA512_get_state).
Definition sha224_methods : HmacMethods (C := hash_ctx) :=
  mk_methods EVP_sha224 SHA256_CHAINING_LENGTH (fun _ => (true, SHA224_Init)) (fun c x => (true, SHA224_Update c x)) SHA224_Final (Some SHA224_Init_from_state) (Some SHA224_get_state).
Definition sha512_224_methods : HmacMethods (C := hash_ctx) :=
  mk_methods EVP_sha512_224 SHA512_CHAINING_LENGTH (fun c => (true, SHA512_224_Init (as_sha512 c))) (fun c x => (true, SHA512_224_Update c x)) (fun c => asserted c (SHA512_224_Final true c)) (Some SHA512_224_Init_from_state) (Some SHA512_224_get_state).
Definition sha512_256_methods : HmacMethods (C := hash_ctx) :=
  mk_methods EVP_sha512_256 SHA512_CHAINING_LENGTH (fun c => (true, SHA512_256_Init (as_sha512 c))) (fun c x => (true, SHA512_256_Update c x)) (fun c => asserted c (SHA512_256_Final true c)) (Some SHA512_256_Init_from_state) (Some SHA512_256_get_state).

Definition sha1_methods : HmacMethods (C := hash_ctx) :=
  mk_methods EVP_sha1 SHA1_CHAINING_LENGTH (fun _ => (true, SHA1_Init)) (fun c x => (true, SHA1_Update c x)) (fun c => let '(d, c) := SHA1_Final c in (Some d, c)) (Some SHA1_Init_from_state) (Some SHA1_get_state).
Definition md5_methods : HmacMethods (C := hash_ctx) :=
  mk_methods EVP_md5 MD5_CHAINING_LENGTH (fun _ => (true, MD5_Init)) (fun c x => (true, MD5_Update c x)) (fun c => let '(d, c) := MD5_Final c in (Some d, c)) (Some MD5_Init_from_state) (Some MD5_get_state).

(** The first eight entries of [AWSLC_hmac_in_place_methods], those with precomputed keys. *)
Definition hmac_methods : list (HmacMethods (C := hash_ctx)) :=
  [sha256_methods; sha1_methods; sha384_methods; sha512_methods; md5_methods; sha224_methods; sha512_224_methods; sha512_256_methods].

(** The digests of the whole table, in its order; the last four are those of SHA-3. *)
Definition in_place_digests : list EVP_MD :=
  [EVP_sha256; EVP_sha1; EVP_sha384; EVP_sha512; EVP_md5; EVP_sha224; EVP_sha512_224; EVP_sha512_256;
   EVP_sha3_224; EVP_sha3_256; EVP_sha3_384; EVP_sha3_512].

Definition zero_hash_ctx : hash_ctx := mk_ctx (replicate 8 0) 0 0 (zeros 128) 0 0.

Example hmac_sha256_rfc4231 :
  option_map (option_map (take 8)) (HMAC zero_hash_ctx hmac_methods (Some EVP_sha256) (Some (replicate 20 0x0b)) [72; 105; 32; 84; 104; 101; 114; 101]) = Some (Some [0xb0; 0x34; 0x4c; 0x61; 0xd8; 0xdb; 0x38; 0x53]).
Proof. vm_compute. reflexivity. Qed.

(** * What HMAC relies on *)

(** The first chaining value of a digest, and its context after some input. *)
Definition is_256 (m : EVP_MD) : bool := EVP_MD_block_size m =? 64.

Definition start_of (m : EVP_MD) : list Z :=
  if md_type m =? 675 then h224 else if md_type m =? 672 then h256 else if md_type m =? 673 then h384 else if md_type m =? 674 then h512 else if md_type m =? 978 then h512_224 else h512_256.

Definition hmac_hash (x : HmacMethods (C := hash_ctx)) (m : bytes) : bytes :=
  let d := evp_md x in
  if md_type d =? 64 then md_hash fips_sha1 true (be_bytes 4) h_sha1 m else if md_type d =? 4 then md_hash rfc_md5 false le_bytes4 h_md5 m
  else if is_256 d then sha256_hash (start_of d) (Z.to_nat (EVP_MD_size d)) m else sha512_hash (start_of d) (Z.to_nat (EVP_MD_size d)) m.
Definition hmac_reads (x : HmacMethods (C := hash_ctx)) (c : hash_ctx) (m : bytes) : Prop :=
  let d := evp_md x in
  if md_type d =? 64 then read32 sha1_block1 h_sha1 m c else if md_type d =? 4 then read32 md5_block1 h_md5 m c
  else if is_256 d then read256 (start_of d) (EVP_MD_size d) m c else read512 (start_of d) (EVP_MD_size d) m c.
Definition hmac_chain (x : HmacMethods (C := hash_ctx)) (a : bytes) : bytes :=
  let d := evp_md x in
  if md_type d =? 64 then concat (map (be_bytes 4) (fips_sha1 h_sha1 a)) else if md_type d =? 4 then concat (map (be_bytes 4) (rfc_md5 h_md5 a))
  else if is_256 d then concat (map (be_bytes 4) (fips256 (start_of d) a 1)) else concat (map (be_bytes 8) (fips512 (start_of d) a 1)).

Lemma length_as_sha512 c : length (data (as_sha512 c)) = 128%nat.
Proof. unfold as_sha512, set_data, data at 1. rewrite length_take, length_app, length_zeros. unfold SHA512_CBLOCK. lia. Qed.

(** ** Words out and in *)

Lemma load_words_spec (load : bytes -> Z) k l n :
  (forall bs, length bs = k -> bytes_ok bs -> load bs = be_value bs) -> (0 < k)%nat -> Forall (fits (8 * Z.of_nat k)) l -> Z.to_nat n = (k * length l)%nat ->
  load_words load k (concat (map (be_bytes k) l)) n = l.
Proof.
  intros Hload Hk Hl Hn. unfold load_words. rewrite Hn, Nat.mul_comm, Nat.div_mul by lia. clear n Hn. induction l as [| v l IH]; [done |]. apply Forall_cons_1 in Hl as [Hv Hl]. cbn [length seq map concat]. f_equal.
  - cbn [Nat.mul]. unfold ld. change (drop 0 ?x) with x. rewrite take_app_length' by (by rewrite length_be_bytes). rewrite Hload by (apply length_be_bytes || apply be_bytes_ok). rewrite be_value_bytes. apply Z.mod_small.
    unfold fits in Hv. replace (256 ^ Z.of_nat k) with (2 ^ (8 * Z.of_nat k)); [done |]. change 256 with (2 ^ 8). rewrite <- Z.pow_mul_r by lia. done.
  - rewrite <- seq_shift, map_map. rewrite <- (IH Hl) at 2. apply map_ext. intros i. f_equal. unfold ld. f_equal. replace (S i * k)%nat with (k + i * k)%nat by lia. rewrite <- drop_drop. by rewrite drop_app_length' by (by rewrite length_be_bytes).
Qed.
(** ** One block out and in, for the functions on words of 32 bits *)

(** [SHA1_get_state], [MD5_get_state] and [sha256_get_state_impl] are this, with chaining values of
    [L] bytes, and so are the functions that start from a state. *)
Definition get_state32 (L : Z) (c : hash_ctx) : option (bytes * Z) :=
  if negb (Nl c mod (Z.of_nat 64 * 8) =? 0) then None
  else Some (concat (map CRYPTO_store_u32_be (take (Z.to_nat (L / 4)) (h c))), u64 (Z.shiftl (Nh c) 32 + Nl c)).
Definition init_from_state32 (L l : Z) (hs : bytes) (n : Z) : option hash_ctx :=
  if negb (n mod (Z.of_nat 64 * 8) =? 0) then None
  else Some (mk_ctx (load_words CRYPTO_load_u32_be 4 hs L) (Z.land n 0xffffffff) (u32 (Z.shiftr n 32)) (zeros 64) 0 l).

Lemma get256 c : sha256_get_state_impl c = get_state32 (4 * Z.of_nat 8) c.
Proof. reflexivity. Qed.

Lemma init256 l hs n : sha256_init_from_state_impl l hs n = init_from_state32 (4 * Z.of_nat 8) l hs n.
Proof. reflexivity. Qed.

Lemma export32 bf `{!BlockFunc bf 64} s0 k a l R : bf s0 a 1%nat = R -> length R = k -> Forall (fits 32) R -> len a = 64 ->
  let out := concat (map (be_bytes 4) R) in
  let L := 4 * Z.of_nat k in
  len out = L /\ (forall c, absorbed bf 64 s0 32 a c -> get_state32 L c = Some (out, 512)) /\ exists c, init_from_state32 L l out 512 = Some c /\ absorbed bf 64 s0 32 a c /\ md_len c = l.
Proof.
  intros Hb Hl Hf Ha out L. assert (length a = 64%nat) as La by (unfold len in Ha; lia). unfold out. split; [unfold len; rewrite length_words, Hl; unfold L; lia |]. split.
  - intros c [[Hh _ _ _] Hnl Hnh Hc]. rewrite Ha in Hc. change (8 * 64) with 512 in Hc. rewrite (Z.mod_small 512) in Hc by lia. unfold fits in *. assert (Nh c = 0 /\ Nl c = 512) as [Eh El] by nia.
    unfold get_state32. rewrite El, Eh, Hh. unfold Digest.md. rewrite La. change (64 / 64)%nat with 1%nat. rewrite Hb. change (negb _) with false. cbv iota. rewrite take_ge by (unfold L; rewrite Z.mul_comm, Z.div_mul; lia). by rewrite map_store32.
  - unfold init_from_state32. change (negb _) with false. cbv iota. eexists. split; [reflexivity |]. rewrite (load_words_spec CRYPTO_load_u32_be 4 _ _ load_u32_be ltac:(lia) Hf) by (rewrite Hl; unfold L; lia).
    split; [| done]. split; [| cbn [Nl]; vm_compute; split; [discriminate | reflexivity] | cbn [Nh]; vm_compute; split; [discriminate | reflexivity] | cbn [Nl Nh]; rewrite Ha; reflexivity].
    split; cbn [h data num]; [| rewrite La; reflexivity | reflexivity | rewrite drop_ge by (rewrite La; cbn; lia); reflexivity]. unfold Digest.md. rewrite La. symmetry. exact Hb.
Qed.

(** ** The promise of SHA-1 and MD5 *)

Lemma length_hash32 k (out : Z -> bytes) l : (forall v, length (out v) = 4%nat) -> length l = k -> length (concat (map out l)) = (4 * k)%nat.
Proof. intros Ho <-. induction l as [| v l IH]; [done |]. cbn [map concat length]. rewrite length_app, Ho, IH. lia. Qed.

Lemma bytes_hash32 (out : Z -> bytes) l : (forall v, bytes_ok (out v)) -> bytes_ok (concat (map out l)).
Proof. intros Ho. unfold bytes_ok. induction l as [| v l IH]; cbn [map concat]; [by constructor |]. apply Forall_app. split; [apply Ho | exact IH]. Qed.

Lemma methods32_ok k block1 ref1 `{!BlockOk k block1 ref1} s0 (x : HmacMethods (C := hash_ctx)) be (st out : Z -> bytes) :
  length s0 = k -> Forall (fits 32) s0 -> (forall v, fits 32 v -> st v = out v) -> (forall v, length (out v) = 4%nat /\ bytes_ok (out v)) -> (k <= 16)%nat ->
  EVP_MD_size (evp_md x) = 4 * Z.of_nat k -> EVP_MD_XOF (evp_md x) = false -> EVP_MD_block_size (evp_md x) = 64 -> chaining_length x = 4 * Z.of_nat k ->
  (forall c, init x c = (true, mk_ctx s0 0 0 (zeros 64) 0 0)) -> (forall c d, update x c d = (true, crypto_md32_update (block_loop block1) 64 c d)) ->
  (forall c, fst (finalize x c) = Some (concat (map (fun i => st (h (crypto_md32_final (block_loop block1) 64 be c) !!! i)) (seq 0 k)))) ->
  init_from_state x = Some (init_from_state32 (4 * Z.of_nat k) 0) -> get_state x = Some (get_state32 (4 * Z.of_nat k)) ->
  HashOk x (md_hash ref1 be out s0) (fun c m => read32 block1 s0 m c) /\ ExportOk x (fun c m => read32 block1 s0 m c) (fun a => concat (map (be_bytes 4) (ref1 s0 a))).
Proof.
  intros Hl Hf Hst Hout Hk Hsz Hx HB Hch Hi Hu Hfi Hfrom Hget. split; [split |].
  - intros c. rewrite Hi. split; [reflexivity | apply (read32_start k block1 ref1)].
  - intros c a b Ha. rewrite Hu. split; [reflexivity | by apply (read32_update k block1 ref1)].
  - intros c a Ha. rewrite Hfi. f_equal. by apply (read32_final k block1 ref1).
  - intros a. rewrite Hsz. unfold md_hash. set (p := a ++ _). destruct (block_loop_ref k block1 ref1 s0 p (length p / 64) Hl Hf) as (_ & Hl' & _). split; [rewrite (length_hash32 k); [lia | apply Hout | done] | apply bytes_hash32, Hout].
  - exists 8%nat. rewrite HB. lia.
  - rewrite Hsz, HB. lia.
  - done.
  - unfold ExportOk. rewrite Hget, Hfrom, HB, Hch. intros a Ha.
    destruct (export32 (block_loop block1) s0 k a 0 (ref1 s0 a) (block_ref s0 a Hl) (ref_len s0 a Hl) (ref_fits s0 a) Ha) as (H1 & H2 & c & H3 & H4 & _). split; [exact H1 |]. split; [exact H2 | by exists c].
Qed.

Section Words.
Context (s0 : list Z) (s0_len : length s0 = 8%nat).

Lemma sha256_hash_ok n m : (n <= 32)%nat -> length (sha256_hash s0 n m) = n /\ bytes_ok (sha256_hash s0 n m).
Proof.
  intros Hn. unfold sha256_hash. set (p := m ++ _). destruct (sha256_blocks s0 p (length p / 64) s0_len) as [_ Hl]. split; [| apply Forall_take, bytes_hash32, be_bytes_ok]. rewrite length_take, length_words, Hl. lia.
Qed.

Lemma sha512_hash_ok n m : (n <= 64)%nat -> length (sha512_hash s0 n m) = n /\ bytes_ok (sha512_hash s0 n m).
Proof.
  intros Hn. unfold sha512_hash. set (p := m ++ _). destruct (sha512_blocks s0 p (length p / 128) s0_len) as [_ Hl]. split; [| apply Forall_take, bytes_hash32, be_bytes_ok]. rewrite length_take, length_words, Hl. lia.
Qed.

(** ** One block out and in, for SHA-2 *)

Section One.
Context (a : bytes) (n : Z).

Lemma export256 (s0_fits : Forall (fits 32) s0) : len a = 64 ->
  let out := concat (map (be_bytes 4) (fips256 s0 a 1)) in
  len out = 32 /\ (forall c, read256 s0 n a c -> sha256_get_state_impl c = Some (out, 512)) /\ exists c, sha256_init_from_state_impl n out 512 = Some c /\ read256 s0 n a c.
Proof.
  intros Ha out. destruct (sha256_blocks s0 a 1 s0_len) as [Hb Hl]. assert (Forall (fits 32) (fips256 s0 a 1)) as Hf by (by apply blocks_fit; [lia |]).
  destruct (export32 sha256_block_data_order s0 8 a n _ Hb Hl Hf Ha) as (H1 & H2 & c & H3 & H4 & H5). split; [exact H1 |]. rewrite init256. split; [intros c' [Hc _]; rewrite get256; exact (H2 c' Hc) | exists c; split; [exact H3 | split; [exact H4 | exact H5]]].
Qed.

Lemma export512 (s0_fits : Forall (fits 64) s0) : len a = 128 ->
  let out := concat (map (be_bytes 8) (fips512 s0 a 1)) in
  len out = 64 /\ (forall c, read512 s0 n a c -> sha512_get_state_impl c = Some (out, 1024)) /\ exists c, sha512_init_from_state_impl n out 1024 = Some c /\ read512 s0 n a c.
Proof.
  intros Ha out. destruct (sha512_blocks s0 a 1 s0_len) as [Hb Hl]. assert (Forall (fits 64) (fips512 s0 a 1)) as Hf by (by apply blocks_fit; [lia |]). assert (length a = 128%nat) as La by (unfold len in Ha; lia).
  unfold out. split; [unfold len; rewrite length_words, Hl; done |]. split.
  - intros c [[[Hh _ _ _] Hnl Hnh Hc] _]. rewrite Ha in Hc. change (8 * 128) with 1024 in Hc. rewrite (Z.mod_small 1024) in Hc by lia. unfold fits in *. assert (Nh c = 0 /\ Nl c = 1024) as [Eh El] by nia.
    unfold sha512_get_state_impl. rewrite El, Eh, Hh. unfold Digest.md. rewrite La. change (128 / 128)%nat with 1%nat. rewrite Hb. change (negb (1024 mod _ =? 0)) with false. change (negb (0 =? 0)) with false. cbv iota. change (Z.to_nat (SHA512_CHAINING_LENGTH / 8)) with 8%nat. rewrite take_ge by lia. by rewrite map_store64.
  - unfold sha512_init_from_state_impl. change (negb _) with false. cbv iota. eexists. split; [reflexivity |]. rewrite (load_words_spec CRYPTO_load_u64_be 8 _ _ load_u64_be ltac:(lia) Hf) by (rewrite Hl; reflexivity). split; [| done]. split; [| cbn [Nl]; vm_compute; split; [discriminate | reflexivity] | cbn [Nh]; vm_compute; split; [discriminate | reflexivity] | cbn [Nl Nh]; rewrite Ha; reflexivity].
    split; cbn [h data num]; [| rewrite La; reflexivity | reflexivity | rewrite drop_ge by (rewrite La; cbn; lia); reflexivity]. unfold Digest.md. rewrite La. symmetry. exact Hb.
Qed.
End One.

(** ** The promise of SHA-2 *)

Section Promise.
Context (x : HmacMethods (C := hash_ctx)) (n : Z) (size_n : EVP_MD_size (evp_md x) = n) (no_xof : EVP_MD_XOF (evp_md x) = false).

Lemma methods256_ok : Forall (fits 32) s0 -> 0 <= n <= 32 -> n mod 4 = 0 -> EVP_MD_block_size (evp_md x) = 64 -> chaining_length x = 32 ->
  (forall c, init x c = (true, mk_ctx s0 0 0 (zeros 64) 0 n)) -> (forall c d, update x c d = (true, SHA256_Update c d)) -> (forall c, finalize x c = sha256_final_impl n c) ->
  init_from_state x = Some (sha256_init_from_state_impl n) -> get_state x = Some sha256_get_state_impl ->
  HashOk x (sha256_hash s0 (Z.to_nat n)) (fun c m => read256 s0 n m c) /\ ExportOk x (fun c m => read256 s0 n m c) (fun a => concat (map (be_bytes 4) (fips256 s0 a 1))).
Proof.
  intros Hs Hn Hn4 HB Hch Hi Hu Hfi Hfrom Hget. split; [split |].
  - intros c. rewrite Hi. split; [reflexivity | apply read_start].
  - intros c a b Ha. rewrite Hu. split; [reflexivity | by apply read256_update].
  - intros c a Ha. rewrite Hfi. by apply read256_final; [| | lia | |].
  - intros a. rewrite size_n. apply sha256_hash_ok. lia.
  - exists 8%nat. rewrite HB. lia.
  - rewrite size_n, HB. lia.
  - done.
  - unfold ExportOk. rewrite Hget, Hfrom, HB, Hch. intros a Ha. by apply export256.
Qed.

Lemma methods512_ok : Forall (fits 64) s0 -> n = 28 \/ n = 32 \/ n = 48 \/ n = 64 -> EVP_MD_block_size (evp_md x) = 128 -> chaining_length x = 64 ->
  (forall c, init x c = (true, mk_ctx s0 0 0 (data (as_sha512 c)) 0 n)) -> (forall c d, update x c d = (true, SHA512_Update c d)) -> (forall c, md_len c = n -> finalize x c = sha512_final_impl true n c) ->
  init_from_state x = Some (sha512_init_from_state_impl n) -> get_state x = Some sha512_get_state_impl ->
  HashOk x (sha512_hash s0 (Z.to_nat n)) (fun c m => read512 s0 n m c) /\ ExportOk x (fun c m => read512 s0 n m c) (fun a => concat (map (be_bytes 8) (fips512 s0 a 1))).
Proof.
  intros Hs Hn HB Hch Hi Hu Hfi Hfrom Hget. split; [split |].
  - intros c. rewrite Hi. split; [reflexivity | apply read512_start, length_as_sha512].
  - intros c a b Ha. rewrite Hu. split; [reflexivity | by apply read512_update].
  - intros c a Ha. rewrite Hfi by apply Ha. by apply read512_final.
  - intros a. rewrite size_n. apply sha512_hash_ok. lia.
  - exists 16%nat. rewrite HB. lia.
  - rewrite size_n, HB. lia.
  - done.
  - unfold ExportOk. rewrite Hget, Hfrom, HB, Hch. intros a Ha. by apply export512.
Qed.
End Promise.
End Words.

Lemma hmac_table_ok x : x ∈ hmac_methods -> HashOk x (hmac_hash x) (hmac_reads x) /\ ExportOk x (hmac_reads x) (hmac_chain x).
Proof.
  intros H. unfold hmac_methods in H. repeat (apply elem_of_cons in H as [-> | H]); [| | | | | | | | by apply elem_of_nil in H].
  - apply (methods256_ok h256 (proj1 h256_ok) sha256_methods 32); try reflexivity; [apply h256_ok | lia].
  - apply (methods32_ok 5 sha1_block1 fips_sha1 h_sha1 sha1_methods true CRYPTO_store_u32_be (be_bytes 4)); try reflexivity; [apply h_sha1_ok | apply store_u32_be | intros v; split; [apply length_be_bytes | apply be_bytes_ok] | lia].
  - apply (methods512_ok h384 (proj1 h384_ok) sha384_methods 48); try reflexivity; [apply h384_ok | lia | intros c Hc; cbn [finalize sha384_methods]; unfold SHA384_Final; by rewrite Hc].
  - apply (methods512_ok h512 (proj1 h512_ok) sha512_methods 64); try reflexivity; [apply h512_ok | lia | intros c Hc; cbn [finalize sha512_methods]; unfold SHA512_Final; by rewrite Hc].
  - apply (methods32_ok 4 md5_block1 rfc_md5 h_md5 md5_methods false CRYPTO_store_u32_le le_bytes4); try reflexivity; [apply h_md5_ok | | lia]. intros v. unfold le_bytes4. split; [rewrite length_reverse; apply length_be_bytes | apply Forall_reverse, be_bytes_ok].
  - apply (methods256_ok h224 (proj1 h224_ok) sha224_methods 28); try reflexivity; [apply h224_ok | lia].
  - apply (methods512_ok h512_224 (proj1 h512_224_ok) sha512_224_methods 28); try reflexivity; [apply h512_224_ok | lia | intros c Hc; cbn [finalize sha512_224_methods]; unfold SHA512_224_Final; by rewrite Hc].
  - apply (methods512_ok h512_256 (proj1 h512_256_ok) sha512_256_methods 32); try reflexivity; [apply h512_256_ok | lia | intros c Hc; cbn [finalize sha512_256_methods]; unfold SHA512_256_Final; by rewrite Hc].
Qed.

(** * Correctness of HMAC *)

(** C13: for every sequence of calls of [HMAC_Init_ex], [HMAC_Update], [HMAC_Final] and the functions
    that export and import keys, on one context and with SHA-2, SHA-1 and MD5 in turn, every
    call answers as the machine of RFC 2104 does: it holds a key and what was read since the last
    start, and a MAC is the hash of the outer pad and of the hash of the inner pad and the message.
    A key that is imported is the key that was exported.  The machine stops at a digest that is
    not supported given to a context in use, and at an imported key that is not an exported one. *)
Theorem hmac_refines (cs : list call) answers s : Forall call_ok cs ->
  a_calls hmac_methods hmac_hash hmac_chain cs None = Some (answers, s) ->
  exists ctx, c_calls zero_hash_ctx hmac_methods hmac_chain cs (HMAC_CTX_init zero_hash_ctx) = Some (answers, ctx).
Proof.
  intros Hok H. destruct (calls_agree zero_hash_ctx hmac_methods hmac_hash hmac_reads hmac_chain hmac_table_ok cs None (HMAC_CTX_init zero_hash_ctx) answers s Hok eq_refl H) as (ctx & Hc & _).
  by exists ctx.
Qed.

(** Two digests on one context, a key that goes out and comes back, and a call out of turn. *)
Definition some_calls : list call :=
  [Init (Some [1; 2; 3]) (Some EVP_sha256); Update [4]; Final; Final; Init (Some (replicate 130 7)) (Some EVP_sha512); SetExport; GetKey (Some 128); Update []; Final;
   InitFrom (key_block (hmac_hash md5_methods) 64 [9]) EVP_md5; Update [4; 5]; Final].

Lemma hmac_refines_witness : exists answers ctx, length answers = 12%nat /\ c_calls zero_hash_ctx hmac_methods hmac_chain some_calls (HMAC_CTX_init zero_hash_ctx) = Some (answers, ctx).
Proof.
  assert (option_map (fun r => length (fst r)) (a_calls hmac_methods hmac_hash hmac_chain some_calls None) = Some 12%nat) as Hl by (vm_compute; reflexivity).
  destruct (a_calls hmac_methods hmac_hash hmac_chain some_calls None) as [[answers s] |] eqn:E; [| discriminate Hl].
  destruct (hmac_refines some_calls answers s) as (ctx & H); [| exact E |].
  - unfold some_calls. repeat (constructor; [first [exact I | cbn; repeat constructor; unfold byte_ok; lia] |]). constructor.
  - exists answers, ctx. split; [| exact H]. by injection Hl.
Defined.

(** ** One call *)

Lemma hmac_found x : x ∈ hmac_methods -> find_md hmac_methods (evp_md x) = Some x.
Proof. intros Hx. unfold hmac_methods in *. repeat (apply elem_of_cons in Hx as [-> | Hx]; [reflexivity |]). by apply elem_of_nil in Hx. Qed.

Lemma hmac_exports x : x ∈ hmac_methods -> is_Some (get_state x) /\ is_Some (init_from_state x) /\ 2 * chaining_length x <= 128.
Proof.
  intros Hx. unfold hmac_methods in *. repeat (apply elem_of_cons in Hx as [-> | Hx]; [split; [by eexists |]; split; [by eexists |]; vm_compute; discriminate |]). by apply elem_of_nil in Hx.
Qed.

(** [HMAC] returns the MAC of RFC 2104, and [HMAC_with_precompute] the same one by way of the
    exported key, for each of the digests and for keys of any length: a long key is hashed
    first. *)
Theorem hmac_one_shot x key d : x ∈ hmac_methods -> key_ok key ->
  let mac := hmac (hmac_hash x) (key_block (hmac_hash x) (Z.to_nat (EVP_MD_block_size (evp_md x))) (default [] key)) d in
  HMAC zero_hash_ctx hmac_methods (Some (evp_md x)) key d = Some (Some mac) /\ HMAC_with_precompute zero_hash_ctx hmac_methods (Some (evp_md x)) key d = Some (Some mac).
Proof.
  intros Hx Hk mac. destruct (hmac_exports x Hx) as (H1 & H2 & H3). split.
  - by apply (one_shot zero_hash_ctx hmac_methods hmac_hash hmac_reads hmac_chain hmac_table_ok); [apply hmac_found |].
  - by apply (precompute_shot zero_hash_ctx hmac_methods hmac_hash hmac_reads hmac_chain hmac_table_ok); [apply hmac_found | | | |].
Qed.

Lemma hmac_one_shot_witness : HMAC_with_precompute zero_hash_ctx hmac_methods (Some EVP_sha1) (Some [1]) [2] =
  Some (Some (hmac (hmac_hash sha1_methods) (key_block (hmac_hash sha1_methods) 64 [1]) [2])).
Proof. apply (hmac_one_shot sha1_methods (Some [1]) [2]); [apply elem_of_cons; right; apply elem_of_cons; by left | cbn; repeat constructor; unfold byte_ok; lia]. Defined.

(** * Calls that fail *)

(** The context of a key. *)
Definition context_holds := holds_key hmac_methods hmac_reads.

(** A digest that is not in the table is not found. *)
Lemma not_found {C} (table : list (HmacMethods (C := C))) m : m ∉ map evp_md table -> find_md table m = None.
Proof.
  intros Hm. unfold find_md, GetInPlaceMethods. destruct (List.find _ _) as [x |] eqn:E; [| done].
  apply List.find_some in E as [Hx <-%bool_decide_eq_true_1]. destruct Hm. by apply list_elem_of_In, in_map.
Qed.

(** A context that an earlier call has given a digest of the table and a key. *)
Definition in_use {C} (ctx : HMAC_CTX (C := C)) : Prop :=
  hmac_ctx_is_initialized (mark_init ctx) = true /\ exists m, md ctx = Some m /\ m ∈ in_place_digests.

Lemma mark_init_id {C} (c : HMAC_CTX (C := C)) : hmac_ctx_is_initialized c = true -> mark_init c = c.
Proof.
  unfold mark_init, hmac_ctx_is_initialized. destruct (Z.eqb_spec (state c) HMAC_STATE_INIT_NO_DATA) as [-> | ?]; [done |].
  by destruct (Z.eqb_spec (state c) HMAC_STATE_IN_PROGRESS) as [-> | ?].
Qed.

Lemma md_mark_init {C} (c : HMAC_CTX (C := C)) : md (mark_init c) = md c.
Proof. unfold mark_init. by destruct (_ || _). Qed.

(** C40: [HMAC_Init_ex] with a digest that HMAC does not support (one that is not among the twelve of
    the table, and not an extendable-output function), on a context in use, fails and leaves the
    context marked as initialized with no methods: the next call of [HMAC_Update] or
    [HMAC_Final], or of [HMAC_Init_ex] with a key for the old digest, reads through NULL.  The
    table is any one with the digests of the code's, whatever its functions, those of SHA-3
    included. *)
Theorem hmac_unsupported_digest {C} (zero : C) table ctx key m :
  map evp_md table = in_place_digests -> in_use ctx -> EVP_MD_XOF m = false -> m ∉ in_place_digests ->
  exists ctx', HMAC_Init_ex zero table ctx key (Some m) = Some (false, ctx') /\ hmac_ctx_is_initialized ctx' = true /\
    (forall d, HMAC_Update ctx' d = None) /\ HMAC_Final zero ctx' = None /\ (forall key', HMAC_Init_ex zero table ctx' (Some key') None = None).
Proof.
  intros Ht (Hi & m0 & Hm0 & Hin) Hxof Hm. assert (find_md table m = None) as Hf by (apply not_found; by rewrite Ht).
  assert (m0 <> m) as Hne by (intros ->; done). exists (set_methods None (mark_init ctx)).
  unfold HMAC_Init_ex at 1, same_md, hmac_ctx_set_md_methods. cbn [is_xof]. rewrite Hxof, md_mark_init, Hm0.
  rewrite (bool_decide_eq_false_2 (Some m = None)), (bool_decide_eq_false_2 (Some m = Some m0)) by congruence.
  rewrite andb_false_r, (bool_decide_eq_false_2 (Some m0 = Some m)) by congruence. cbn [negb]. rewrite orb_true_r. unfold find_md in Hf. rewrite Hf. cbn [negb].
  set (c := set_methods None (mark_init ctx)). assert (hmac_ctx_is_initialized c = true) as Hc by exact Hi. split; [reflexivity |]. split; [exact Hc |].
  split; [intros d; unfold HMAC_Update; rewrite Hc; reflexivity |]. split; [unfold HMAC_Final; rewrite Hc; by destruct (md c) |].
  intros key'. unfold HMAC_Init_ex. cbn [is_xof]. rewrite (mark_init_id c Hc).
  rewrite Hc, (bool_decide_eq_false_2 (Some key' = None)) by done. cbn [andb]. unfold hmac_ctx_set_md_methods. rewrite Hc. reflexivity.
Qed.

(** To start again with the same key, once data has been read, [HMAC_Init_ex] and
    [HMAC_Init_from_precomputed_key] without a key and a digest differ: the first starts a new
    message and the second fails and leaves the context in the middle of the old one. *)
Theorem hmac_restart x k m ctx : context_holds x k (InProgress m) ctx ->
  HMAC_Init_from_precomputed_key zero_hash_ctx hmac_methods ctx None None = Some (false, ctx) /\
  exists ctx', HMAC_Init_ex zero_hash_ctx hmac_methods ctx None None = Some (true, ctx') /\ context_holds x k NoData ctx'.
Proof.
  intros Hh. destruct (mark_init_spec _ _ _ _ _ _ Hh) as [_ Hi]. pose proof (hk_state _ _ _ _ _ _ Hh) as Hs. cbn [phase_state] in Hs. assert (mark_init ctx = ctx) as Hm by (unfold mark_init; by rewrite Hs). rewrite Hm in Hi. split.
  - unfold HMAC_Init_from_precomputed_key. cbn [is_xof]. rewrite Hm, Hs. cbn [Z.eqb Pos.eqb HMAC_STATE_INIT_NO_DATA andb]. unfold hmac_ctx_set_md_methods. rewrite Hi. cbn [negb]. rewrite (hk_methods _ _ _ _ _ _ Hh).
    destruct (init_from_state x); [| done]. by destruct (negb _).
  - apply (restart_step zero_hash_ctx hmac_methods hmac_hash hmac_reads hmac_chain hmac_table_ok _ _ _ _ Hh).
Qed.

(** A context in use, and a digest that HMAC does not support. *)
Definition first_calls : list call := [Init (Some [1; 2; 3]) (Some EVP_sha256); Update [4]].
Definition EVP_md4 : EVP_MD := mk_md 257 16 64 false.

Lemma context_in_use : exists ctx, c_calls zero_hash_ctx hmac_methods hmac_chain first_calls (HMAC_CTX_init zero_hash_ctx) = Some ([Ok true; Ok true], ctx) /\
  context_holds sha256_methods (block_of hmac_hash sha256_methods (Some [1; 2; 3])) (InProgress [4]) ctx.
Proof.
  apply (calls_agree zero_hash_ctx hmac_methods hmac_hash hmac_reads hmac_chain hmac_table_ok first_calls None (HMAC_CTX_init zero_hash_ctx) _ (Some (sha256_methods, block_of hmac_hash sha256_methods (Some [1; 2; 3]), InProgress [4]))); [| done | reflexivity].
  unfold first_calls. constructor; [cbn; repeat constructor; unfold byte_ok; lia | by repeat constructor].
Qed.

(** A table with all the digests: in place of the functions of SHA-3, those of SHA-256. *)
Definition stand_in (m : EVP_MD) : HmacMethods (C := hash_ctx) :=
  mk_methods m 0 (init sha256_methods) (update sha256_methods) (finalize sha256_methods) None None.
Definition full_table : list (HmacMethods (C := hash_ctx)) :=
  hmac_methods ++ map stand_in [EVP_sha3_224; EVP_sha3_256; EVP_sha3_384; EVP_sha3_512].

Lemma hmac_unsupported_digest_witness : exists ctx ctx', c_calls zero_hash_ctx full_table hmac_chain first_calls (HMAC_CTX_init zero_hash_ctx) = Some ([Ok true; Ok true], ctx) /\
  HMAC_Init_ex zero_hash_ctx full_table ctx None (Some EVP_md4) = Some (false, ctx') /\ HMAC_Final zero_hash_ctx ctx' = None.
Proof.
  assert (option_map (fun r => (fst r, md (snd r), state (snd r))) (c_calls zero_hash_ctx full_table hmac_chain first_calls (HMAC_CTX_init zero_hash_ctx))
          = Some ([Ok true; Ok true], Some EVP_sha256, HMAC_STATE_IN_PROGRESS)) as Hc by (vm_compute; reflexivity).
  destruct (c_calls zero_hash_ctx full_table hmac_chain first_calls (HMAC_CTX_init zero_hash_ctx)) as [[answers ctx] |]; [| discriminate Hc].
  cbn [option_map fst snd] in Hc. injection Hc as -> Hmd Hst.
  destruct (hmac_unsupported_digest zero_hash_ctx full_table ctx None EVP_md4) as (ctx' & H & _ & _ & Hf & _).
  - reflexivity.
  - assert (hmac_ctx_is_initialized ctx = true) as Hi by (unfold hmac_ctx_is_initialized; by rewrite Hst).
    split; [by rewrite mark_init_id |]. exists EVP_sha256. split; [exact Hmd | by left].
  - reflexivity.
  - intros H. apply list_elem_of_In in H. vm_compute in H. intuition discriminate.
  - by exists ctx, ctx'.
Defined.

Lemma hmac_restart_witness : exists ctx, c_calls zero_hash_ctx hmac_methods hmac_chain first_calls (HMAC_CTX_init zero_hash_ctx) = Some ([Ok true; Ok true], ctx) /\
  HMAC_Init_from_precomputed_key zero_hash_ctx hmac_methods ctx None None = Some (false, ctx).
Proof. destruct context_in_use as (ctx & Hc & Hh). destruct (hmac_restart _ _ _ ctx Hh) as [H _]. by exists ctx. Defined.
End HmacSha.
