(* ===== verification/Kdf.v ===== *)
(** Key derivation over HMAC: HKDF (crypto/fipsmodule/hkdf/hkdf.c) and PBKDF2
    (crypto/fipsmodule/pbkdf/pbkdf.c), and that they compute the functions of RFC 5869 and RFC
    8018.

    An output buffer goes in with what it holds and comes out with what the code wrote; [None]
    is a NULL pointer that HMAC reads through, or a loop that does not end. *)

From S2P Require Import Prelude Internal Modes Digest Hmac HmacSpec HmacSha.

Open Scope Z_scope.

Module Kdf.
Import Internal Modes Digest Hmac HmacSpec HmacSha.

Section Code.
Context {C : Type} (zero_ctx : C) (methods_table : list (HmacMethods (C := C))).

(** A call in a chain of conditions: a failure leaves the function. *)
Definition and_then {A} (r : option (bool * HMAC_CTX (C := C))) (k : HMAC_CTX (C := C) -> option (option A)) : option (option A) :=
  match r with None => None | Some (false, _) => Some None | Some (true, c) => k c end.

Definition and_final {A} (c : HMAC_CTX (C := C)) (k : bytes -> HMAC_CTX (C := C) -> option (option A)) : option (option A) :=
  match HMAC_Final zero_ctx c with None => None | Some (None, _) => Some None | Some (Some mac, c) => k mac c end.

(** * HKDF *)

Definition HKDF_extract (digest : EVP_MD) (secret : bytes) (salt : option bytes) : option (option bytes) :=
  if EVP_MD_XOF digest then Some None else HMAC zero_ctx methods_table (Some digest) salt secret.

(** The end of an output block, with the context: [info], the counter and the MAC. *)
Definition hkdf_finish (digest_len : Z) (info : bytes) (ctr : Z) (hmac : HMAC_CTX (C := C)) : option (option (bytes * HMAC_CTX (C := C))) :=
  and_then (HMAC_Update hmac info) (fun c => and_then (HMAC_Update c [ctr]) (fun c => and_final c (fun mac c =>
    if negb (default 0 (HMAC_size c) =? digest_len) then Some None else Some (Some (mac, c))))).

(** One output block: the new [previous] and the context. *)
Definition hkdf_block (digest_len : Z) (info : bytes) (hmac : HMAC_CTX (C := C)) (previous : bytes) (i : nat) : option (option (bytes * HMAC_CTX (C := C))) :=
  let ctr := u8 (Z.of_nat i + 1) in
  if negb (i =? 0)%nat then
    and_then (HMAC_Init_ex zero_ctx methods_table hmac None None) (fun c => and_then (HMAC_Update c (take (Z.to_nat digest_len) previous)) (hkdf_finish digest_len info ctr))
  else hkdf_finish digest_len info ctr hmac.

(** [n] more blocks, from the block [i] and the position [done_]. *)
Fixpoint hkdf_loop (digest_len : Z) (info : bytes) (n i : nat) (hmac : HMAC_CTX (C := C)) (previous out : bytes) (done_ : nat) : option (option bytes) :=
  match n with
  | O => Some (Some out)
  | S n =>
      match hkdf_block digest_len info hmac previous i with
      | None => None
      | Some None => Some None
      | Some (Some (previous, hmac)) =>
          let written := Nat.min (Z.to_nat digest_len) (length out - done_) in
          hkdf_loop digest_len info n (S i) hmac previous (store out done_ (take written previous)) (done_ + written)
      end
  end.

Definition HKDF_expand (out_key : bytes) (digest : EVP_MD) (prk : option bytes) (info : bytes) : option (bool * bytes) :=
  if EVP_MD_XOF digest then Some (false, out_key)
  else
    let out_len := len out_key in
    let digest_len := EVP_MD_size digest in
    let n := u64 (out_len + digest_len - 1) / digest_len in
    if (u64 (out_len + digest_len) <? out_len) || (255 <? n) then Some (false, out_key)
    else
      match and_then (HMAC_Init_ex zero_ctx methods_table (HMAC_CTX_init zero_ctx) prk (Some digest)) (fun hmac => hkdf_loop digest_len info (Z.to_nat n) 0 hmac [] out_key 0) with
      | None => None
      | Some None => Some (false, zeros (length out_key))
      | Some (Some out) => Some (true, out)
      end.

Definition HKDF (out_key : bytes) (digest : EVP_MD) (secret : bytes) (salt : option bytes) (info : bytes) : option (bool * bytes) :=
  if EVP_MD_XOF digest then Some (false, out_key)
  else
    match HKDF_extract digest secret salt with
    | None => None
    | Some None => Some (false, out_key)
    | Some (Some prk) => HKDF_expand out_key digest (Some prk) info
    end.

(** * PBKDF2 *)

(** A MAC with the key that the context holds. *)
Definition prf (hctx : HMAC_CTX (C := C)) (inputs : list bytes) : option (option (bytes * HMAC_CTX (C := C))) :=
  and_then (HMAC_Init_ex zero_ctx methods_table hctx None None)
    ((fix updates inputs c := match inputs with [] => and_final c (fun mac c => Some (Some (mac, c))) | x :: inputs => and_then (HMAC_Update c x) (updates inputs) end) inputs).

(** The remaining [n] iterations of a block of [todo] bytes at [pos]: whether they succeeded, and
    the output. *)
Fixpoint pbkdf2_iterate (md_len : Z) (n : nat) (hctx : HMAC_CTX (C := C)) (digest_tmp out : bytes) (pos todo : nat) : option (bool * bytes * HMAC_CTX (C := C)) :=
  match n with
  | O => Some (true, out, hctx)
  | S n =>
      match prf hctx [take (Z.to_nat md_len) digest_tmp] with
      | None => None
      | Some None => Some (false, out, hctx)
      | Some (Some (digest_tmp, hctx)) => pbkdf2_iterate md_len n hctx digest_tmp (store out pos (zip_with Z.lxor (ld out pos todo) (take todo digest_tmp))) pos todo
      end
  end.

Definition i_buf (i : Z) : bytes := [Z.land (Z.shiftr i 24) 0xff; Z.land (Z.shiftr i 16) 0xff; Z.land (Z.shiftr i 8) 0xff; Z.land i 0xff].

Fixpoint pbkdf2_loop (fuel : nat) (salt : bytes) (iterations md_len : Z) (key_len pos : nat) (i : Z) (hctx : HMAC_CTX (C := C)) (out : bytes) : option (bool * bytes) :=
  if (0 <? key_len)%nat then
    match fuel with
    | O => None
    | S fuel =>
        let todo := Nat.min (Z.to_nat md_len) key_len in
        match prf hctx [salt; i_buf i] with
        | None => None
        | Some None => Some (false, out)
        | Some (Some (digest_tmp, hctx)) =>
            match pbkdf2_iterate md_len (Z.to_nat (iterations - 1)) hctx digest_tmp (store out pos (take todo digest_tmp)) pos todo with
            | None => None
            | Some (false, out, _) => Some (false, out)
            | Some (true, out, hctx) => pbkdf2_loop fuel salt iterations md_len (key_len - todo) (pos + todo) (u32 (i + 1)) hctx out
            end
        end
    end
  else Some (negb (iterations =? 0), out).

(** Every block takes a byte of the key at least. *)
Definition PKCS5_PBKDF2_HMAC (password : option bytes) (salt : bytes) (iterations : Z) (digest : EVP_MD) (out_key : bytes) : option (bool * bytes) :=
  match HMAC_Init_ex zero_ctx methods_table (HMAC_CTX_init zero_ctx) password (Some digest) with
  | None => None
  | Some (false, _) => Some (false, out_key)
  | Some (true, hctx) => pbkdf2_loop (length out_key) salt iterations (EVP_MD_size digest) (length out_key) 0 1 hctx out_key
  end.
End Code.

(** * RFC 5869 and RFC 8018 *)

(** Over a MAC of [hLen] bytes with its key. *)
Section Rfc.
Context (mac : bytes -> bytes) (hLen : nat).

Fixpoint hkdf_T (info : bytes) (i : nat) : bytes :=
  match i with
  | O => []
  | S j => mac (hkdf_T info j ++ info ++ [Z.of_nat i])
  end.

Definition blocks_for (L : nat) : nat := ((L + hLen - 1) / hLen)%nat.
Definition hkdf_okm (info : bytes) (L : nat) : bytes := take L (concat (map (hkdf_T info) (seq 1 (blocks_for L)))).

Fixpoint pbkdf2_U (first : bytes) (j : nat) : bytes := match j with O => first | S j => mac (pbkdf2_U first j) end.
Definition pbkdf2_T (salt : bytes) (c : nat) (i : nat) : bytes :=
  let U := pbkdf2_U (mac (salt ++ be_bytes 4 (Z.of_nat i))) in foldl (zip_with Z.lxor) (U 0%nat) (map U (seq 1 (c - 1))).
Definition pbkdf2 (salt : bytes) (c L : nat) : bytes := take L (concat (map (pbkdf2_T salt c) (seq 1 (blocks_for L)))).
End Rfc.

(** * Blocks into a buffer *)

(** Blocks one after the other, the last one cut where the buffer ends. *)
Fixpoint fill (out : bytes) (pos : nat) (blocks : list bytes) : bytes :=
  match blocks with
  | [] => out
  | b :: blocks => let w := Nat.min (length b) (length out - pos) in fill (store out pos (take w b)) (pos + w) blocks
  end.

Lemma take_store_end out pos x : (pos + length x <= length out)%nat -> take (pos + length x) (store out pos x) = take pos out ++ x.
Proof. intros H. unfold store. rewrite app_assoc. apply take_app_length'. rewrite length_app, length_take. lia. Qed.

Lemma fill_spec out pos blocks : (pos <= length out)%nat -> (length out <= pos + length (concat blocks))%nat -> fill out pos blocks = take (length out) (take pos out ++ concat blocks).
Proof.
  revert out pos. induction blocks as [| b blocks IH]; intros out pos Hp Hl; cbn [fill concat].
  - cbn [concat length] in Hl. rewrite app_nil_r, !take_ge; [done | lia | rewrite take_ge; lia].
  - cbn [concat] in Hl. rewrite length_app in Hl. set (w := Nat.min (length b) (length out - pos)). assert (length (take w b) = w) as Hw by (rewrite length_take; unfold w; lia). assert (pos + w <= length out)%nat as Hpw by (unfold w; lia).
    assert (length (store out pos (take w b)) = length out) as Hs by (apply length_store; lia). rewrite IH by lia. rewrite Hs. pose proof (take_store_end out pos (take w b) ltac:(lia)) as He. rewrite Hw in He. rewrite He, <- app_assoc.
    destruct (Nat.le_gt_cases (length b) (length out - pos)) as [Hb | Hb].
    + rewrite (take_ge b) by (unfold w; lia). done.
    + assert (pos + w = length out)%nat as Hend by (unfold w; lia). rewrite !(app_assoc (take pos out)). rewrite (take_app_le (take pos out ++ take w b)), (take_app_le (take pos out ++ b)) by (rewrite length_app, length_take; rewrite ?Hw; lia).
      rewrite !take_app, !length_take. f_equal. rewrite take_take. f_equal. lia.
Qed.

(** * The code *)

Section Proofs.
Context {C : Type} (zero_ctx : C) (methods_table : list (HmacMethods (C := C))) (hash : HmacMethods (C := C) -> bytes -> bytes) (reads : HmacMethods (C := C) -> C -> bytes -> Prop) (chain : HmacMethods (C := C) -> bytes -> bytes).
Context (table_ok : forall x, x ∈ methods_table -> HashOk x (hash x) (reads x) /\ ExportOk x (reads x) (chain x)).
Context (x : HmacMethods (C := C)) (found : find_md methods_table (evp_md x) = Some x).

Local Instance x_ok : HashOk x (hash x) (reads x).
Proof. by destruct (find_md_spec methods_table hash reads chain table_ok _ _ found) as (_ & _ & H & _). Qed.

(** What the context holds. *)
Definition keyed (k : bytes) (ph : phase) (c : HMAC_CTX (C := C)) : Prop := holds_key methods_table reads x k ph c.

Definition mac_of (k : bytes) : bytes -> bytes := hmac (hash x) k.
Definition hLen : nat := Z.to_nat (EVP_MD_size (evp_md x)).

Lemma length_mac k m : length (mac_of k m) = hLen.
Proof. exact (proj1 (ok_size (x := x) (H := hash x) _)). Qed.

Lemma then_update k ph c d : keyed k ph c -> running ph -> exists c', (forall A (next : HMAC_CTX (C := C) -> option (option A)), and_then (HMAC_Update c d) next = next c') /\ keyed k (InProgress (phase_data ph ++ d)) c'.
Proof. intros Hk Hp. destruct (update_step zero_ctx methods_table hash reads chain table_ok x k ph c d Hk Hp) as (c' & -> & H). by exists c'. Qed.

Lemma then_restart k ph c : keyed k ph c -> exists c', (forall A (next : HMAC_CTX (C := C) -> option (option A)), and_then (HMAC_Init_ex zero_ctx methods_table c None None) next = next c') /\ keyed k NoData c'.
Proof. intros Hk. destruct (restart_step zero_ctx methods_table hash reads chain table_ok x k ph c Hk) as (c' & -> & H). by exists c'. Qed.

Lemma then_final k ph c : keyed k ph c -> running ph -> exists c', (forall A (next : bytes -> HMAC_CTX (C := C) -> option (option A)), and_final zero_ctx c next = next (mac_of k (phase_data ph)) c') /\ keyed k NeedsInit c'.
Proof. intros Hk Hp. unfold and_final. destruct (final_step zero_ctx methods_table hash reads chain table_ok x k ph c Hk Hp) as (c' & -> & H). by exists c'. Qed.

Lemma then_start key : key_ok key ->
  exists c, (forall A (next : HMAC_CTX (C := C) -> option (option A)), and_then (HMAC_Init_ex zero_ctx methods_table (HMAC_CTX_init zero_ctx) key (Some (evp_md x))) next = next c) /\ keyed (block_of hash x key) NoData c.
Proof. intros Hk. destruct (start_step zero_ctx methods_table hash reads chain table_ok x key found Hk) as (c & -> & H). by exists c. Qed.

(** ** HKDF *)

Lemma hkdf_finish_spec k info ctr ph c : keyed k ph c -> running ph ->
  exists c', hkdf_finish zero_ctx (EVP_MD_size (evp_md x)) info ctr c = Some (Some (mac_of k (phase_data ph ++ info ++ [ctr]), c')) /\ keyed k NeedsInit c'.
Proof.
  intros Hk Hp. unfold hkdf_finish. destruct (then_update k ph c info Hk Hp) as (c1 & -> & H1). destruct (then_update k _ c1 [ctr] H1 I) as (c2 & -> & H2).
  destruct (then_final k _ c2 H2 I) as (c3 & -> & H3). exists c3. split; [| done]. unfold HMAC_size. rewrite (hk_md _ _ _ _ _ _ H3). cbn [option_map default]. rewrite Z.eqb_refl. cbn [negb phase_data]. by rewrite app_assoc.
Qed.

Lemma hkdf_block_spec k info c i ph : keyed k ph c -> match i with O => ph = NoData | S _ => True end -> (i < 255)%nat ->
  exists c', hkdf_block zero_ctx methods_table (EVP_MD_size (evp_md x)) info c (hkdf_T (mac_of k) info i) i = Some (Some (hkdf_T (mac_of k) info (S i), c')) /\ keyed k NeedsInit c'.
Proof.
  intros Hk Hi H255. unfold hkdf_block. assert (u8 (Z.of_nat i + 1) = Z.of_nat (S i)) as -> by (unfold u8, wrap; rewrite Z.mod_small; lia). destruct i as [| i]; cbn [Nat.eqb negb].
  - subst ph. apply (hkdf_finish_spec k info _ NoData c Hk I).
  - destruct (then_restart k ph c Hk) as (c1 & -> & H1). destruct (then_update k _ c1 (take (Z.to_nat (EVP_MD_size (evp_md x))) (hkdf_T (mac_of k) info (S i))) H1 I) as (c2 & -> & H2).
    destruct (hkdf_finish_spec k info (Z.of_nat (S (S i))) _ c2 H2 I) as (c3 & -> & H3). exists c3. split; [| done]. cbn [phase_data app]. rewrite take_ge; [done |]. cbn [hkdf_T]. rewrite length_mac. unfold hLen. lia.
Qed.

Lemma hkdf_loop_spec k info n i c ph out pos : keyed k ph c -> match i with O => ph = NoData | S _ => True end -> (i + n <= 255)%nat ->
  hkdf_loop zero_ctx methods_table (EVP_MD_size (evp_md x)) info n i c (hkdf_T (mac_of k) info i) out pos = Some (Some (fill out pos (map (hkdf_T (mac_of k) info) (seq (S i) n)))).
Proof.
  revert i c ph out pos. induction n as [| n IH]; intros i c ph out pos Hk Hi Hn; [done |]. cbn [hkdf_loop seq map fill]. destruct (hkdf_block_spec k info c i ph Hk Hi ltac:(lia)) as (c' & -> & Hk').
  rewrite (IH (S i) c' NeedsInit); [| done | done | lia]. cbn [hkdf_T]. by rewrite length_mac.
Qed.

Lemma concat_length_const {A} (f : A -> bytes) l n : (forall a, a ∈ l -> length (f a) = n) -> length (concat (map f l)) = (n * length l)%nat.
Proof. intros H. induction l as [| a l IH]; [cbn; lia |]. cbn [map concat length]. rewrite length_app, IH by (intros b Hb; apply H; by apply elem_of_cons; right). rewrite H by (apply elem_of_cons; by left). lia. Qed.

(** Enough blocks for the output. *)
Lemma blocks_enough L : (0 < hLen)%nat -> (L <= hLen * blocks_for hLen L)%nat.
Proof. intros H. unfold blocks_for. pose proof (Nat.div_mod_eq (L + hLen - 1) hLen) as E. pose proof (Nat.mod_upper_bound (L + hLen - 1) hLen ltac:(lia)). lia. Qed.

Lemma hkdf_expand_spec out prk info : key_ok prk -> 0 < EVP_MD_size (evp_md x) -> fits 64 (len out) ->
  HKDF_expand zero_ctx methods_table out (evp_md x) prk info =
    if len out <=? 255 * EVP_MD_size (evp_md x) then Some (true, hkdf_okm (mac_of (block_of hash x prk)) hLen info (length out)) else Some (false, out).
Proof.
  intros Hk Hs Hf. unfold HKDF_expand. rewrite (ok_xof (x := x)). cbv zeta. set (D := EVP_MD_size (evp_md x)) in *. pose proof (ok_fits (x := x)) as Hb. destruct (ok_block (x := x)) as (b & Hb1 & Hb2). fold D in Hb. unfold fits in Hf.
  assert (0 < D <= 144) as HD by lia. destruct (Z.leb_spec (len out) (255 * D)) as [Hle | Hgt].
  - assert (u64 (len out + D) = len out + D) as -> by (unfold u64, wrap; apply Z.mod_small; lia). assert (u64 (len out + D - 1) = len out + D - 1) as -> by (unfold u64, wrap; apply Z.mod_small; lia).
    replace (len out + D <? len out) with false by lia. assert ((len out + D - 1) / D <= 255) as Hn by (apply Z.lt_succ_r, Z.div_lt_upper_bound; lia). replace (255 <? (len out + D - 1) / D) with false by lia. cbn [orb].
    assert (Z.to_nat ((len out + D - 1) / D) = blocks_for hLen (length out)) as En.
    { unfold blocks_for, hLen, len. fold D. rewrite <- (Nat2Z.id ((_ - 1) / _)), Nat2Z.inj_div. do 2 f_equal; lia. }
    destruct (then_start prk Hk) as (c & -> & Hc). rewrite (hkdf_loop_spec _ info _ 0 c NoData out 0 Hc eq_refl) by lia.
    rewrite En. do 3 f_equal. unfold hkdf_okm. rewrite fill_spec; [done | lia |]. rewrite (concat_length_const _ _ hLen), length_seq; [apply blocks_enough; unfold hLen; fold D; lia |].
    intros j Hj. apply elem_of_seq in Hj. destruct j as [| j]; [lia |]. cbn [hkdf_T]. apply length_mac.
  - destruct (Z.lt_ge_cases (len out + D) (2 ^ 64)) as [Hlt | Hge].
    + assert (u64 (len out + D - 1) = len out + D - 1) as -> by (unfold u64, wrap; apply Z.mod_small; lia). assert (256 <= (len out + D - 1) / D) as Hn by (apply Z.div_le_lower_bound; lia). replace (255 <? (len out + D - 1) / D) with true by lia. by rewrite orb_true_r.
    + assert (u64 (len out + D) = len out + D - 2 ^ 64) as -> by (unfold u64, wrap; rewrite <- (Z.mod_small (len out + D - 2 ^ 64) (2 ^ 64)) by lia; rewrite <- (Z.mod_add (len out + D - 2 ^ 64) 1) by lia; f_equal; lia).
      replace (len out + D - 2 ^ 64 <? len out) with true by lia. done.
Qed.

Lemma hkdf_extract_spec secret salt : key_ok salt -> HKDF_extract zero_ctx methods_table (evp_md x) secret salt = Some (Some (mac_of (block_of hash x salt) secret)).
Proof. intros Hk. unfold HKDF_extract. rewrite (ok_xof (x := x)). exact (one_shot zero_ctx methods_table hash reads chain table_ok x salt secret found Hk). Qed.

Lemma hkdf_spec out secret salt info : key_ok salt -> 0 < EVP_MD_size (evp_md x) -> fits 64 (len out) ->
  HKDF zero_ctx methods_table out (evp_md x) secret salt info =
    if len out <=? 255 * EVP_MD_size (evp_md x) then Some (true, hkdf_okm (mac_of (block_of hash x (Some (mac_of (block_of hash x salt) secret)))) hLen info (length out)) else Some (false, out).
Proof.
  intros Hk Hs Hf. unfold HKDF. rewrite (ok_xof (x := x)), hkdf_extract_spec by done. apply hkdf_expand_spec; [| done | done]. exact (proj2 (ok_size (x := x) (H := hash x) _)).
Qed.

(** ** PBKDF2 *)

Lemma i_buf_eq i : fits 32 i -> i_buf i = be_bytes 4 i.
Proof.
  intros Hi. unfold fits in Hi. unfold i_buf. cbn [be_bytes app]. rewrite !Z.shiftr_div_pow2 by lia. change 0xff with (Z.ones 8). rewrite !Z.land_ones by lia. rewrite !Z.div_div by lia. done.
Qed.

Lemma be_bytes_u32 i : be_bytes 4 (u32 i) = be_bytes 4 i.
Proof. exact (be_bytes_mod 4 i). Qed.

Lemma prf_spec k ph c inputs : keyed k ph c -> exists c', prf zero_ctx methods_table c inputs = Some (Some (mac_of k (concat inputs), c')) /\ keyed k NeedsInit c'.
Proof.
  intros Hk. unfold prf. destruct (then_restart k ph c Hk) as (c1 & -> & H1).
  assert (forall inputs ph c, keyed k ph c -> running ph -> exists c', (fix updates inputs c := match inputs with [] => and_final zero_ctx c (fun mac c => Some (Some (mac, c))) | x :: inputs => and_then (HMAC_Update c x) (updates inputs) end) inputs c
    = Some (Some (mac_of k (phase_data ph ++ concat inputs), c')) /\ keyed k NeedsInit c') as Hu; [| exact (Hu inputs NoData c1 H1 I)].
  clear Hk H1 c1 c ph inputs. induction inputs as [| d inputs IH]; intros ph c Hk Hp.
  - destruct (then_final k ph c Hk Hp) as (c' & -> & H). exists c'. cbn [concat]. by rewrite app_nil_r.
  - destruct (then_update k ph c d Hk Hp) as (c' & -> & H). destruct (IH _ c' H I) as (c2 & -> & H2). exists c2. split; [| done]. cbn [phase_data concat]. by rewrite app_assoc.
Qed.

Lemma take_zip (f : Z -> Z -> Z) n l1 l2 : take n (zip_with f l1 l2) = zip_with f (take n l1) (take n l2).
Proof. revert n l2. induction l1 as [| a l1 IH]; intros [| n] [| b l2]; cbn; [done | done | done | done | done | done | done |]. by rewrite IH. Qed.

(** The iterations of a block leave the sum of its first bytes in the output. *)
Lemma iterate_spec k n c tmp out pos todo acc : keyed k NeedsInit c -> length tmp = hLen -> length acc = hLen -> (todo <= hLen)%nat -> (pos + todo <= length out)%nat ->
  exists c', pbkdf2_iterate zero_ctx methods_table (EVP_MD_size (evp_md x)) n c tmp (store out pos (take todo acc)) pos todo =
    Some (true, store out pos (take todo (foldl (zip_with Z.lxor) acc (map (pbkdf2_U (mac_of k) tmp) (seq 1 n)))), c') /\ keyed k NeedsInit c'.
Proof.
  revert c tmp acc. induction n as [| n IH]; intros c tmp acc Hk Ht Ha Hd Hp; [by exists c |]. cbn [pbkdf2_iterate]. rewrite take_ge by (unfold hLen in Ht; lia).
  destruct (prf_spec k NeedsInit c [tmp] Hk) as (c1 & -> & H1). cbn [concat]. rewrite app_nil_r. assert (length (take todo acc) = todo) as Hl by (rewrite length_take; lia).
  rewrite ld_store_same by lia. rewrite <- take_zip. rewrite store_twice by (rewrite ?length_take, ?length_zip_with, ?length_mac, Ha; lia).
  destruct (IH c1 (mac_of k tmp) (zip_with Z.lxor acc (mac_of k tmp))) as (c2 & E & H2); [done | apply length_mac | rewrite length_zip_with, Ha, length_mac; lia | done | done |].
  exists c2. split; [| done]. rewrite E. cbn [seq map foldl]. do 5 f_equal. rewrite <- (seq_shift n 1), map_map. f_equal. apply map_ext. intros j. clear. induction j as [| j IH]; [done |]. cbn [pbkdf2_U]. by rewrite IH.
Qed.

Lemma length_pbkdf2_T k salt c i : length (pbkdf2_T (mac_of k) salt c i) = hLen.
Proof.
  unfold pbkdf2_T. cbv zeta. set (U := pbkdf2_U _ _). assert (forall j, length (U j) = hLen) as HU by (intros [| j]; apply length_mac). generalize (HU 0%nat). generalize (U 0%nat). generalize (seq 1 (c - 1)).
  intros l. induction l as [| j l IH]; intros a Ha; [done |]. cbn [map foldl]. apply IH. rewrite length_zip_with, Ha, HU. lia.
Qed.

Lemma pbkdf2_loop_spec k salt iterations fuel key_len pos i c ph out : keyed k ph c -> (0 < hLen)%nat -> (key_len <= fuel)%nat -> (pos + key_len = length out)%nat ->
  pbkdf2_loop zero_ctx methods_table fuel salt iterations (EVP_MD_size (evp_md x)) key_len pos (u32 (Z.of_nat i)) c out =
    Some (negb (iterations =? 0), fill out pos (map (pbkdf2_T (mac_of k) salt (Z.to_nat iterations)) (seq i (blocks_for hLen key_len)))).
Proof.
  intros Hk Hh. revert key_len pos i c ph out Hk. induction fuel as [| fuel IH]; intros key_len pos i c ph out Hk Hf Hp; cbn [pbkdf2_loop].
  - assert (key_len = 0%nat) as -> by lia. unfold blocks_for. rewrite Nat.div_small by lia. done.
  - destruct (Nat.ltb_spec 0 key_len) as [Hpos | Hz]; [| assert (key_len = 0%nat) as -> by lia; unfold blocks_for; rewrite Nat.div_small by lia; done].
    fold hLen. set (todo := Nat.min hLen key_len). destruct (prf_spec k ph c [salt; i_buf (u32 (Z.of_nat i))] Hk) as (c1 & -> & H1). cbn [concat]. rewrite app_nil_r, i_buf_eq, be_bytes_u32 by (apply Z.mod_pos_bound; lia).
    set (U1 := mac_of k (salt ++ be_bytes 4 (Z.of_nat i))). destruct (iterate_spec k (Z.to_nat (iterations - 1)) c1 U1 out pos todo U1) as (c2 & -> & H2); [done | apply length_mac | apply length_mac | unfold todo; lia | unfold todo; lia |].
    assert (blocks_for hLen key_len = S (blocks_for hLen (key_len - todo))) as ->.
    { unfold blocks_for, todo. destruct (Nat.le_gt_cases hLen key_len) as [Hle | Hgt].
      - rewrite Nat.min_l by lia. replace (key_len + hLen - 1)%nat with (key_len - hLen + hLen - 1 + 1 * hLen)%nat by lia. rewrite Nat.div_add by lia. lia.
      - rewrite Nat.min_r by lia. rewrite Nat.sub_diag, (Nat.div_small (0 + hLen - 1)) by lia. symmetry. apply (Nat.div_unique _ _ _ (key_len - 1)); lia. }
    cbn [seq map fill]. rewrite length_pbkdf2_T. replace (Nat.min hLen (length out - pos)) with todo by (unfold todo; lia).
    assert (foldl (zip_with Z.lxor) U1 (map (pbkdf2_U (mac_of k) U1) (seq 1 (Z.to_nat (iterations - 1)))) = pbkdf2_T (mac_of k) salt (Z.to_nat iterations) i) as -> by (unfold pbkdf2_T; replace (Z.to_nat iterations - 1)%nat with (Z.to_nat (iterations - 1)) by lia; done).
    replace (u32 (u32 (Z.of_nat i) + 1)) with (u32 (Z.of_nat (S i))) by (unfold u32, wrap; rewrite Z.add_mod_idemp_l by lia; f_equal; lia). apply (IH _ _ _ c2 NeedsInit); [done | unfold todo; lia |].
    rewrite length_store by (rewrite length_take, length_pbkdf2_T; unfold todo; lia). unfold todo. lia.
Qed.

Lemma pbkdf2_spec password salt iterations out : key_ok password -> 0 < EVP_MD_size (evp_md x) ->
  PKCS5_PBKDF2_HMAC zero_ctx methods_table password salt iterations (evp_md x) out = Some (negb (iterations =? 0), pbkdf2 (mac_of (block_of hash x password)) hLen salt (Z.to_nat iterations) (length out)).
Proof.
  intros Hk Hs. unfold PKCS5_PBKDF2_HMAC. destruct (start_step zero_ctx methods_table hash reads chain table_ok x password found Hk) as (c & -> & Hc). assert (0 < hLen)%nat as Hh by (unfold hLen; lia).
  change 1 with (u32 (Z.of_nat 1)). rewrite (pbkdf2_loop_spec (block_of hash x password) salt iterations _ _ 0 1 c NoData out Hc Hh) by lia. do 2 f_equal. unfold pbkdf2. rewrite fill_spec; [done | lia |].
  rewrite (concat_length_const _ _ hLen), length_seq; [by apply blocks_enough |]. intros j _. apply length_pbkdf2_T.
Qed.
End Proofs.

(** * With the digests of hmac.c *)

(** The MAC with a key of any length. *)
Definition keyed_mac (x : HmacMethods (C := hash_ctx)) (key : bytes) : bytes -> bytes := hmac (hmac_hash x) (key_block (hmac_hash x) (Z.to_nat (EVP_MD_block_size (evp_md x))) key).
Definition digest_len (x : HmacMethods (C := hash_ctx)) : nat := Z.to_nat (EVP_MD_size (evp_md x)).

Lemma size_pos x : x ∈ hmac_methods -> 0 < EVP_MD_size (evp_md x).
Proof. intros Hx. unfold hmac_methods in *. repeat (apply elem_of_cons in Hx as [-> | Hx]; [done |]). by apply elem_of_nil in Hx. Qed.

(** C16: [HKDF] returns the output keying material of RFC 5869: the first bytes of the blocks
    T(1), T(2), ... over the key that [HKDF_extract] makes of the salt and the secret.  It fails
    and leaves the output as it was (it is not overwritten with zeros) exactly when more than 255
    blocks are asked for, also when the length wraps around.  The digests are those of SHA-2,
    SHA-1 and MD5. *)
Theorem hkdf_exact x out secret salt info : x ∈ hmac_methods -> key_ok salt -> fits 64 (len out) ->
  HKDF zero_hash_ctx hmac_methods out (evp_md x) secret salt info =
    if len out <=? 255 * EVP_MD_size (evp_md x) then Some (true, hkdf_okm (keyed_mac x (keyed_mac x (default [] salt) secret)) (digest_len x) info (length out)) else Some (false, out).
Proof. intros Hx Hk Hf. exact (hkdf_spec zero_hash_ctx hmac_methods hmac_hash hmac_reads hmac_chain hmac_table_ok x (hmac_found x Hx) out secret salt info Hk (size_pos x Hx) Hf). Qed.

(** C17: [PKCS5_PBKDF2_HMAC] fills the output with the derived key of RFC 8018: the first bytes of the
    blocks T_1, T_2, ..., each the sum of the iterated MACs of the salt and the block number as
    four bytes, which wraps after 2^32 blocks, where the RFC refuses the length.  With zero
    iterations it writes the key of one iteration and reports an error. *)
Theorem pbkdf2_exact x password salt iterations out : x ∈ hmac_methods -> key_ok password ->
  PKCS5_PBKDF2_HMAC zero_hash_ctx hmac_methods password salt iterations (evp_md x) out =
    Some (negb (iterations =? 0), pbkdf2 (keyed_mac x (default [] password)) (digest_len x) salt (Z.to_nat iterations) (length out)).
Proof. intros Hx Hk. exact (pbkdf2_spec zero_hash_ctx hmac_methods hmac_hash hmac_reads hmac_chain hmac_table_ok x (hmac_found x Hx) password salt iterations out Hk (size_pos x Hx)). Qed.

Lemma hkdf_exact_witness : HKDF zero_hash_ctx hmac_methods (zeros 40) EVP_sha256 [1] None [2] =
  Some (true, hkdf_okm (keyed_mac sha256_methods (keyed_mac sha256_methods [] [1])) 32 [2] 40).
Proof. apply (hkdf_exact sha256_methods (zeros 40) [1] None [2]); [by apply elem_of_cons; left | by constructor | split; [by vm_compute | reflexivity]]. Defined.

Lemma pbkdf2_exact_witness : PKCS5_PBKDF2_HMAC zero_hash_ctx hmac_methods (Some [1]) [2] 0 EVP_sha256 (zeros 40) = Some (false, pbkdf2 (keyed_mac sha256_methods [1]) 32 [2] 0 40).
Proof. apply (pbkdf2_exact sha256_methods (Some [1]) [2] 0 (zeros 40)); [by apply elem_of_cons; left | cbn; repeat constructor; unfold byte_ok; lia]. Defined.

Definition PKCS5_PBKDF2_HMAC_SHA1 (password : option bytes) (salt : bytes) (iterations : Z) (out_key : bytes) : option (bool * bytes) :=
  PKCS5_PBKDF2_HMAC zero_hash_ctx hmac_methods password salt iterations EVP_sha1 out_key.

(** RFC 5869, A.1, and RFC 6070, two iterations. *)
Example hkdf_rfc5869 : option_map (fun r => take 8 (snd r)) (HKDF zero_hash_ctx hmac_methods (zeros 42) EVP_sha256 (replicate 22 0x0b) (Some [0; 1; 2; 3; 4; 5; 6; 7; 8; 9; 10; 11; 12]) [0xf0; 0xf1; 0xf2; 0xf3; 0xf4; 0xf5; 0xf6; 0xf7; 0xf8; 0xf9]) =
  Some [0x3c; 0xb2; 0x5f; 0x25; 0xfa; 0xac; 0xd5; 0x7a].
Proof. vm_compute. reflexivity. Qed.

Example pbkdf2_rfc6070 : option_map (fun r => take 8 (snd r)) (PKCS5_PBKDF2_HMAC_SHA1 (Some [112; 97; 115; 115; 119; 111; 114; 100]) [115; 97; 108; 116] 2 (zeros 20)) =
  Some [0xea; 0x6c; 0x01; 0x4d; 0xc7; 0x2d; 0x6f; 0x8c].
Proof. vm_compute. reflexivity. Qed.
End Kdf.
